(* ===== verification/_CoqProject ===== *)
-Q . S2P
Prelude.v
RustStr.v
Http.v
F64.v
Json.v
JsonBody.v
Telemetry.v
Protocol.v
Classify.v
Health.v
Targets.v
Errors.v
Ir.v
Strategy.v
Fallback.v
FallbackProps.v
Quota.v
BruteForce.v
HeaderForward.v
Redaction.v
TraceCtx.v
StructuredOutput.v
Lossy.v
Utf8.v
ResponseModel.v
Sse.v
ChatStream.v
Streaming.v
StreamingProps.v
StreamingRecord.v
Keepalive.v
ChatRequest.v
ChatRequestProps.v
ChatResponse.v
Messages.v
MessagesProps.v
MessagesStream.v
MessagesStreamProps.v
GeminiSchema.v
Gemini.v
GeminiProps.v
GeminiStream.v
ResponsesInput.v
ResponsesInputProps.v
ResponsesRequest.v
ResponsesResponse.v
ResponsesStream.v
ResponsesStreamProps.v
ResponsesStreamRoundtrip.v
Encryption.v
ProviderConfig.v
OAuthTokens.v
Providers.v
OAuthEffects.v
OAuthStore.v
OAuthCache.v
OAuthManager.v
OAuthGhost.v
OAuthSafety.v
OAuthRefresh.v
Egress.v
EgressBody.v
CodexOAuth.v
CodexProps.v
AnthropicOAuth.v
Codecs.v
UpstreamRequest.v
Executors.v
ExecutorsBody.v
ExecutorsProps.v
AuxCodecs.v
AuxExecutors.v
ApiKeys.v
TokenStats.v
ConfigStore.v
ConfigTransfer.v
Observability.v
Ingress.v
Handlers.v
HandlersProps.v
