(* ===== verification/Prelude.v ===== *)
(** * TiyGate: a verification development

    TiyGate is an AI gateway: clients speak one of four chat protocols (OpenAI
    Chat Completions, OpenAI Responses, Anthropic Messages, Google Gemini), a
    virtual model is routed to a chain of upstream targets, the request is
    converted to the target's protocol if that loses nothing, and failures are
    retried on the next target.  This library models the core of the gateway,
    function by function, and proves what makes each part correct.

    ** How the parts of the program fit together

    A request of a virtual model is looked up in the routing table
    ([RoutingTable], [crates/core/src/routing/mod.rs]), whose targets a
    strategy orders with the help of the health registry.  The fallback
    executor ([crates/server/src/ingress/fallback.rs]) walks the ordered
    targets: it skips the ones the registry refuses, calls the others, records
    successes, failures and latencies in the registry, cools targets that are
    rate limited or reject their credentials, and decides by the class of the
    error whether to go on.  In front of each call the lossy-conversion check
    compares the intermediate representation of the request with the
    capabilities of the target's protocol, and the codec of that protocol writes
    the body.  Answers come back through the same codecs: whole bodies, or
    streams that the streaming bridge either forwards verbatim or decodes line
    by line into stream parts and encodes again in the client's protocol.
    Answers get the client's model name back, errors are rendered in the
    client's protocol.  Targets that log in with OAuth get their access token
    from the token manager, whose processes share the refresh tokens in an
    encrypted column of the database and take turns in refreshing them.
    In front of the executor an ingress handler takes a permit, finds the caller
    by its key, charges its quota, checks which models the key may use and looks
    the route up; a guard gives every request one row in the log.
    Around this path stand the login limiter of the admin API, the header
    policy, the redaction of logs and the trace context.

    ** Files, and the code they model

    - [Prelude]: this file.  Machine integers, results and panics, stable
      sorting, loops that stop at the first error, automation.
    - [RustStr]: the [str] methods the code uses, on byte strings.
    - [F64]: binary64 arithmetic on the Standard Library's [spec_float].
    - [Json]: [serde_json::Value]; the class [SerdeJson] of parser and printer,
      its laws [SerdeJsonLaws] and the instance [coded_json].
    - [JsonBody]: the idioms of the code on JSON bodies, the tactics that read a
      member of a body built by assignments, and functions that report whether
      they changed a value.
    - [Utf8] ([String::from_utf8_lossy] of the Standard Library), [Sse] (lines
      of server-sent events, feeding them to a decoder).
    - [Telemetry] ([core/src/telemetry/mod.rs]): statuses, error classes.
    - [Protocol] ([core/src/protocol/mod.rs]): suites, endpoints, capabilities.
    - [Classify] (error classification of [core/src/routing/mod.rs]): the
      [ErrorClass] of a message, of a status and code, the fallback policy.
    - [Health] (the [HealthRegistry] of the same file): circuit breaker,
      cooling, latency averages; state [HealthRegistry], one definition per
      method, the instant each method reads being an argument.
    - [Targets] (routing targets, route entries and table; OAuth target
      configuration of [core/src/provider/oauth.rs]).
    - [Strategy]: the four orders and [build_strategy].
    - [Errors] ([protocols/src/error_body.rs], the [AppError] of
      [server/src/ingress/mod.rs], [check_nonstream_error_body]).
    - [Ir] ([core/src/ir/mod.rs]): the intermediate representation and its
      operations, the usage accumulator.
    - [Fallback], [FallbackProps] ([server/src/ingress/fallback.rs]): the
      executor, its abstract run and its properties.
    - [Quota] ([core/src/quota.rs], in-memory counter).
    - [BruteForce] ([admin/src/brute_force.rs], in-memory limiter).
    - [HeaderForward] ([core/src/header_forward.rs]), [Redaction]
      ([core/src/redaction.rs]), [TraceCtx] ([core/src/tracing_ctx.rs]).
    - [StructuredOutput] and [Lossy] ([core/src/protocol/structured_output.rs],
      [core/src/protocol/lossy.rs], [encode_cross_protocol] of
      [server/src/ingress/executors.rs] with the codecs' capability tables).
    - [ResponseModel] ([server/src/ingress/response_model.rs]).
    - [ChatRequest], [ChatRequestProps], [ChatResponse], [ChatStream]
      ([protocols/src/chat_completions.rs]): Chat Completions.
    - [Messages], [MessagesProps], [MessagesStream], [MessagesStreamProps]
      ([protocols/src/messages.rs]): Anthropic Messages.
    - [GeminiSchema], [Gemini], [GeminiProps], [GeminiStream]
      ([protocols/src/gemini.rs]): Gemini.
    - [ResponsesInput], [ResponsesInputProps] (input items, the ids of calls),
      [ResponsesRequest], [ResponsesResponse],
      [ResponsesStream], [ResponsesStreamProps], [ResponsesStreamRoundtrip]
      ([protocols/src/responses.rs]): OpenAI Responses.
    - [Streaming], [StreamingProps], [StreamingRecord], [Keepalive]
      ([server/src/ingress/streaming.rs]): the bridge between the upstream's
      bytes and the client's, what it records, and the keepalive wrapper.
    - [Encryption] ([store/src/encryption.rs], [store/src/keys.rs]): sealed
      columns.  [ProviderConfig] ([store/src/models.rs] and the provider part
      of [store/src/config_store.rs]): rows, their decryption, the OAuth
      configuration of a provider.
    - [OAuthTokens] (the requests and answers of
      [auth/src/provider_oauth.rs]), [OAuthCache] (its token cache).
    - [OAuthEffects]: the effects of the token code as an instruction set
      ([act]), programs over it ([prog]), and worlds of several processes with
      one database ([World], [step], [reach]).  [OAuthStore]
      ([store/src/oauth_token.rs] and the credential statements of
      [config_store.rs]), [OAuthManager] ([server/src/oauth_manager.rs]): the
      methods as programs.
    - [Http] (header names, values and maps), [Providers] ([core/src/provider],
      [auth/src/bearer.rs], [auth/src/api_key.rs], [providers/src]): the
      providers and how they apply credentials.
    - [Egress], [EgressBody] ([server/src/ingress/headers.rs],
      [apply_provider_auth] of [ingress/mod.rs], the URL builders of
      [executors.rs]): headers, credentials, URLs and bodies of upstream
      requests, with the DeepSeek profile.
    - [CodexOAuth], [CodexProps] ([server/src/openai_codex_oauth.rs]) and
      [AnthropicOAuth] ([server/src/anthropic_oauth.rs]): the profiles of the
      two OAuth back ends.
    - [Codecs] ([get_egress_codec], [build_stream_transcode]): the four codecs
      behind one interface.  [UpstreamRequest], [Executors]
      ([server/src/ingress/executors.rs]): the four chat executors from the
      intermediate request to the client's response, with the Codex WebSocket;
      [ExecutorsBody], [ExecutorsProps]: what they promise.
    - [AuxCodecs] ([protocols/src/embeddings.rs], [protocols/src/images.rs] and
      [cache/src/embedding_cache.rs]), [AuxExecutors] (their executors).
    - [ApiKeys] ([ApiKey] of [store/src/models.rs] and the statements on API keys
      of [store/src/config_store.rs]): keys as rows of a table.
    - [ConfigStore] (routes, settings and the snapshot of
      [store/src/config_store.rs]): the tables of the database and the view that
      is published from them.  [TokenStats] ([store/src/token_stats.rs],
      [store/src/retention.rs]): daily statistics, streaks, retention.
      [ConfigTransfer] ([export_config], [import_config]): bundles.
    - [Observability] ([server/src/ingress/observability.rs]): who calls, the
      envelope of a request, the guard [RequestScope] and its row.
    - [Ingress] (the state of [server/src/ingress/mod.rs]; the class [Host] and
      the monad [Handler]), [Handlers] ([server/src/ingress/handlers.rs]): the
      seven endpoints; [HandlersProps]: what a request leaves behind.
    - [OAuthGhost], [OAuthSafety], [OAuthRefresh]: a program logic for these
      programs with ghost state for the locks and the tokens in use, the
      specifications of the methods, and what holds of every interleaving.

    In each codec file [decode_request], [encode_request], [decode_response],
    [encode_response], and for streams [feed], [finish], [encode_part],
    [encode_error] and [encode_done], are the methods of the traits
    [EndpointCodec], [StreamDecoder] and [StreamEncoder].

    ** Modelling conventions

    Rust's definitions keep their names; methods live in a Module named after
    their type.  Where a loop or a long function body is split, the pieces are
    named after what they do.  Integers are [Z] with the wrap or saturation of
    the operator written out (a release build wraps).  Panics are values of
    [run].  Time is nanoseconds in [Z]; a function that reads the clock takes
    the reading, or the sequence of its readings, as an argument.  A [HashMap]
    is a [gmap]; a JSON object is its sorted member list.

    The executor is a state and panic monad over a [World] that also keeps the
    log of what was done.  Between any two operations on shared state the
    other tasks may replace the registry, move the clock forward and change
    the environment ([env_step] of the class [Gateway]), so what is proved
    holds for every interleaving.  Code outside the repository is a class:
    [Lowercase] (Unicode case folding, law: its value on ASCII strings),
    [GenRange] (the [rand] range sampler, laws: its documented panics and
    range), [SerdeJson] (parser and printer; laws in [SerdeJsonLaws]: a value
    without doubles is read back from its text, which is one line, in braces
    for an object), [Gateway] (upstream calls, token refresh, clocks; law: the
    clock is monotonic).  The streaming bridge is written against the classes
    [StreamDecoder] and [StreamEncoder]; what the runtime answers to each poll
    (bytes, end, error, timers, a closed client) is a list given to it.

    The token code runs in tasks whose steps interleave at every access to
    shared state.  A task may be cancelled at any step, and a panic unwinds it;
    both release its locks and roll back its transaction.  A statement of SQL is one step on the
    database ([run_write], [run_query]); a transaction collects its writes and
    applies them when it commits; the advisory lock of PostgreSQL is tried, the
    mutexes of a process are waited for.  [Crypto] (AES-GCM, HKDF, base64; law:
    a sealed text opens with the key and purpose that sealed it), [Chrono]
    (time stamps; law: a printed instant is read back), [OAuthCrates] and
    [HttpHeaders] are classes; each has an instance.

    The four executors are one definition with a record of their differences
    ([Executors.Variant]).  Their authentication is a program of the token
    code; the network is an argument, a function from the request that is sent
    to the exchange it starts, so that a theorem holds for every upstream.
    [Reqwest], [Tungstenite], [UrlHost], [CodexCrates], [AnthropicCrates] and
    [TextCrates] stand for crates; [ExecutorsBody.Network] has an instance of
    each.

    A handler is a computation of the monad [Ingress.Handler] over the world of
    the executor, the guard of the request and notes of what it did.  At every
    await other tasks run and the handler may be dropped, also inside the
    executor, where it has then performed a first part of the actions of the
    undisturbed run.  The closure the executor calls is the program of the
    endpoint's executor, its effects answered by the class [Host].

    ** Fuel

    The executor's loop has the fuel [rounds_for] of its chain: each round
    moves the index of the target or increments the number of attempts, and
    [FallbackProps.fallback_total] shows that an outcome is always reached.
    The glob matcher, the weighted shuffle and the line loop of the SSE
    rewriter run on a fuel of the length they consume.  The schema walk has
    the depth of the schema, and [StructuredOutput.walk_schema_unfold] shows
    that it satisfies the recursion of the source; so does the conversion of
    schemas for Gemini ([GeminiSchema.convert_eq]).  The wait for the advisory
    lock polls every 25 ms for 5 s: [LOCK_POLLS] is 201, and
    [OAuthRefresh.refreshes_complete] shows that the deadline comes first.

    ** What the theorems show

    - [FallbackProps]: the executor always returns, implements the abstract
      run, is bounded, calls only targets the registry admitted, reports the
      truth; which errors move on and which end the request.
    - [Health]: the answers of the registry are a function of the history of
      each target; the windows of the breaker; every target comes back.
    - [Strategy]: every order is a permutation, and the order each strategy
      promises; when the weighted shuffle is total and when it panics.
    - [Quota], [BruteForce]: what the calls allowed in a window spend stays
      within the limits, denials cost nothing, lockouts escalate and hold,
      guesses are spaced.
    - [Lossy], [StructuredOutput]: the checks are exact with respect to a
      declarative meaning of loss and of conformance, and their diagnostics
      point at the cause.
    - [ResponseModel]: rewriting a stream does not depend on its chunks and
      leaves no upstream model name in an event.
    - [ChatRequestProps], [ChatResponse], [MessagesProps], [GeminiProps],
      [ResponsesRequest], [ResponsesResponse]: what a request and a
      response become when they are written in a protocol and read again; turns
      alternate, cache breakpoints are few, function results find their names,
      thought signatures go to the calls in order.
    - [ResponsesInputProps], [ResponsesRequest]: calls get ids of their own
      and outputs answer them in order; what is not modelled by the
      representation is replayed, items at their places.
    - [ChatStream], [MessagesStreamProps], [GeminiStream],
      [ResponsesStreamRoundtrip]: the same for streams: feeding the lines of the
      encoded bytes gives the stated parts back, without panics; Messages blocks
      follow the protocol's discipline; a Responses stream numbers its items
      without a gap and ends once, with a snapshot of them
      ([ResponsesStreamProps]).
    - [GeminiSchema]: converted schemas are in the subset Gemini accepts.
    - [StreamingProps], [StreamingRecord], [Keepalive]: the bridge does not
      depend on the chunks of the upstream, forwards verbatim streams
      unchanged, sends its capture exactly once; keepalives are transparent.
    - [OAuthRefresh]: at most one refresh of a provider is under way in the
      whole system, the refresh token it presents is the one stored then, all
      calls return, and a rotated token is what the next refresh reads.
    - [ExecutorsProps], [ExecutorsBody]: no credential of a client reaches an
      upstream and those of a static target are exactly its own; the bytes sent
      and logged are the client's or the printed body, and parse to the body
      that was prepared unless an upgrade was refused before; answers are converted, failures keep their status and
      class; what reaches a client is captured once.
    - [HandlersProps]: for every endpoint and every host, no target is called
      before the request passed all gates, a request has exactly one row which
      says what the client was answered, and permits are conserved.
    - [ApiKeys]: a secret finds exactly the key created for it, until it is
      deleted.  [AuxCodecs]: images requests are read back.
    - [ConfigStore]: whoever writes, the published routing table is that of the
      tables as the last successful refresh read them; the calls that refresh
      publish what they leave, and a failed refresh keeps the older view; a
      deleted provider is in no route and in no chain.
      [ConfigTransfer]: a gateway whose rows can be restored serves the same
      from a bundle, under another master key.  [TokenStats]: streaks are runs of active days, and the statistics of a
      closed day outlive its logs.
    - [CodexProps], [EgressBody]: prepared bodies meet the contract of their
      back end; preparing them again for the same transport changes nothing.
    - [Errors], [Ir], [Redaction], [HeaderForward], [TraceCtx]: error classes
      survive a second gateway, billing counters, removal of secrets, deny
      lists under configuration, round trips of trace contexts.

    Some theorems state a defect: the weighted shuffle panics on zero weights,
    a huge [Retry-After] overflows an instant, the decision to go on ignores
    the structured class of the error, the retry delay is dead code, the quota
    sum wraps, the glob matcher misses repeated suffixes; failed streams are
    counted twice yet never open the breaker, a character split over chunks is
    corrupted, the end marker can come before the last line, a keepalive can
    cut a frame; the tool choice is dropped for Chat targets, one form of it
    panics for the others, huge indices in a stream panic, interleaved
    fragments of arguments are merged in Messages and lose their call in
    Gemini, a streamed refusal becomes a normal stop, and a Gemini stream
    ends at its first usage; in a Responses stream the JSON input of a custom
    tool is delivered twice, a shell call gets arguments that do not parse,
    items stay open without a finish reason, and an incomplete response loses
    its usage; a rotated refresh token is lost when its task is cancelled
    before the commit, when a provider is renamed meanwhile, and when a login
    without a refresh token is installed meanwhile; after a refused WebSocket
    upgrade the client's bytes are sent instead of the body prepared for HTTP;
    a request is refused as queued out while permits are free, embedding
    parameters never reach the upstream, and an embeddings request without a
    model is routed to a model its key was not checked for.

    ** Not modelled

    The wire of HTTP and WebSockets, the SQL of the log sinks and the
    archive, Redis and the asynchronous plumbing; the login of the admin API and
    its handlers; the listing of models; the eviction of the embedding cache, which is that of a library; the Bedrock executor, which
    nothing calls.  A panic of a handler has no state in the model, although its
    guard would still write a row while it unwinds. *)

From stdpp Require Import base option list gmap strings.
From Stdlib Require Import ZArith Lia Permutation Sorted.

(** ** Machine integers

    The source uses [u8], [u16], [u32], [u64], [usize] and [u128].  A value of
    a w-bit type is a [Z]; the definitions below write out what the operators
    do at the end of the range: [wrapN] is the two's complement wrap of a
    release build, [sat_addN]/[sat_sub] are the [saturating_*] methods. *)

Definition u8_max : Z := 255.
Definition u32_max : Z := 4294967295.
Definition u64_max : Z := 18446744073709551615.
Definition i64_max : Z := 9223372036854775807.

Definition wrap32 (x : Z) : Z := (x mod 4294967296)%Z.
Definition wrap64 (x : Z) : Z := (x mod 18446744073709551616)%Z.
Definition sat_add64 (x y : Z) : Z := Z.min (x + y) u64_max.
Definition sat_sub (x y : Z) : Z := Z.max (x - y) 0.

Definition in_u32 (x : Z) : bool := ((0 <=? x) && (x <=? u32_max))%Z.
Definition in_u64 (x : Z) : bool := ((0 <=? x) && (x <=? u64_max))%Z.

(** ** Fallible computations

    [result E A] is Rust's [Result<A, E>]; [run A] is a computation that may
    panic, with the reason of the panic.  Both are monads, with stdpp's
    notation [x ← m; k]. *)

Inductive result (E A : Type) : Type :=
| Ok (a : A)
| Err (e : E).
Arguments Ok {E A} a.
Arguments Err {E A} e.

#[export] Instance result_ret {E} : MRet (result E) := fun A a => Ok a.
#[export] Instance result_bind {E} : MBind (result E) :=
  fun A B f r => match r with Ok a => f a | Err e => Err e end.
#[export] Instance result_fmap {E} : FMap (result E) :=
  fun A B f r => match r with Ok a => Ok (f a) | Err e => Err e end.

Definition is_ok {E A} (r : result E A) : bool :=
  match r with Ok _ => true | Err _ => false end.

(** Why a computation panics. *)
Inductive panic :=
| EmptyRange        (* rand: gen_range called with an empty range *)
| RangeOverflow     (* rand: gen_range called with an infinite bound *)
| InstantOverflow   (* Instant + Duration not representable *)
| DurationOverflow  (* Duration * u32 not representable *)
| IntOverflow       (* an arithmetic overflow of a checked build *)
| EmptyTiers        (* the assertion of HealthRegistry::new *)
| OutOfBounds       (* slice index out of range *)
| CapacityOverflow  (* Vec: a capacity of more than isize::MAX bytes *)
| MissingKey        (* serde_json: a Map indexed by a key it does not have *)
| NotAnObject       (* serde_json: an assignment to a member of another value *)
| DateTimeOverflow. (* chrono: DateTime + TimeDelta not representable *)

#[export] Instance panic_eq_dec : EqDecision panic.
Proof. solve_decision. Defined.

Abbreviation run := (result panic).

(** ** Stable sorting

    [slice::sort_by] and [slice::sort_by_key] are stable sorts: [sort_by le]
    is the insertion sort with that behaviour, where [le x y] says that [x]
    does not compare greater than [y]. *)

Section StableSort.
Context {A : Type}.

Fixpoint insert_sorted (le : A -> A -> bool) (x : A) (l : list A) : list A :=
  match l with
  | [] => [x]
  | y :: r => if le x y then x :: y :: r else y :: insert_sorted le x r
  end.

Fixpoint sort_by (le : A -> A -> bool) (l : list A) : list A :=
  match l with
  | [] => []
  | x :: r => insert_sorted le x (sort_by le r)
  end.

Context (le : A -> A -> bool).

Lemma insert_sorted_perm x l : insert_sorted le x l ≡ₚ x :: l.
Proof.
  induction l as [|y r IH]; simpl; [done|].
  destruct (le x y); [done|]. rewrite IH. apply Permutation_swap.
Qed.

Lemma sort_by_perm l : sort_by le l ≡ₚ l.
Proof. induction l as [|x r IH]; simpl; [done|]. by rewrite insert_sorted_perm, IH. Qed.

Context (le_total : forall x y, le x y = true \/ le y x = true).
Context (le_trans : forall x y z, le x y = true -> le y z = true -> le x z = true).

Lemma insert_sorted_sorted x l :
  StronglySorted (fun a b => le a b = true) l ->
  StronglySorted (fun a b => le a b = true) (insert_sorted le x l).
Proof using le_total le_trans.
  induction 1 as [|y r HS IH HF]; simpl; [by repeat constructor|].
  destruct (le x y) eqn:E.
  - constructor; [by constructor|]. constructor; [done|].
    eapply List.Forall_impl; [|exact HF]. eauto.
  - constructor; [done|]. rewrite insert_sorted_perm. constructor; [|done].
    destruct (le_total x y); congruence.
Qed.

Lemma sort_by_sorted l : StronglySorted (fun a b => le a b = true) (sort_by le l).
Proof using le_total le_trans.
  induction l; simpl; [constructor|]. by apply insert_sorted_sorted.
Qed.

(** Stability: the elements equivalent to [k] keep their relative order. *)
Definition equiv_to (k y : A) : bool := le k y && le y k.

Lemma insert_sorted_stable k x l :
  filter (fun y => equiv_to k y = true) (insert_sorted le x l)
  = filter (fun y => equiv_to k y = true) (x :: l).
Proof using le_trans.
  induction l as [|y r IH]; cbn [insert_sorted]; [done|].
  destruct (le x y) eqn:E; [done|].
  rewrite filter_cons, IH, !filter_cons. unfold equiv_to.
  destruct (decide (le k y && le y k = true)) as [Hy|Hy];
  destruct (decide (le k x && le x k = true)) as [Hx|Hx]; try done.
  apply andb_prop in Hx as [??]; apply andb_prop in Hy as [??].
  assert (le x y = true) by eauto. congruence.
Qed.

Lemma sort_by_stable k l :
  filter (fun y => equiv_to k y = true) (sort_by le l)
  = filter (fun y => equiv_to k y = true) l.
Proof using le_trans.
  induction l as [|x r IH]; cbn [sort_by]; [done|].
  rewrite insert_sorted_stable, !filter_cons, IH. done.
Qed.
End StableSort.

(** Sorting by a two-valued key puts the elements with the smaller key first
    and keeps the order inside both groups. *)
Lemma insert_sorted_bool {A} (h : A -> bool) (x : A) l1 l2 :
  Forall (fun y => h y = true) l1 -> Forall (fun y => h y = false) l2 ->
  insert_sorted (fun a b => h a || negb (h b)) x (l1 ++ l2)
  = if h x then x :: l1 ++ l2 else l1 ++ x :: l2.
Proof.
  intros H1 H2. induction H1 as [|y r Hy _ IH]; cbn.
  - destruct H2 as [|z s Hz _]; cbn; [by destruct (h x)|].
    rewrite Hz. by destruct (h x).
  - rewrite Hy. destruct (h x); [done|]. cbn. by rewrite IH.
Qed.

Lemma sort_by_bool {A} (h : A -> bool) (l : list A) :
  sort_by (fun a b => h a || negb (h b)) l
  = filter (fun y => h y = true) l ++ filter (fun y => h y = false) l.
Proof.
  induction l as [|x r IH]; cbn [sort_by]; [done|].
  rewrite IH, insert_sorted_bool, !filter_cons;
    [|apply Forall_forall; intros y; rewrite list_elem_of_filter; tauto..].
  by destruct (h x).
Qed.

(** ** Generic list lemmas *)

(** [Vec::remove]: the element at [i] and the rest. *)
Definition vec_remove {A} (i : nat) (l : list A) : option (A * list A) :=
  match l !! i with
  | Some x => Some (x, delete i l)
  | None => None
  end.

Lemma vec_remove_perm {A} i (l : list A) x r :
  vec_remove i l = Some (x, r) -> l ≡ₚ x :: r.
Proof.
  unfold vec_remove. destruct (l !! i) eqn:E; [|done]. intros [= <- <-].
  by apply delete_Permutation.
Qed.

Lemma vec_remove_length {A} i (l : list A) x r :
  vec_remove i l = Some (x, r) -> length l = S (length r).
Proof. intros H%vec_remove_perm. by rewrite H. Qed.

(** ** Loops that stop at the first error

    [for x in l { f(x)?; }] *)

Fixpoint try_for_each {A E} (f : A -> result E unit) (l : list A) : result E unit :=
  match l with
  | [] => Ok tt
  | x :: r => match f x with Ok _ => try_for_each f r | Err e => Err e end
  end.

Section TryForEach.
Context {A E : Type}.
Implicit Types (f g : A -> result E unit) (l : list A).

Lemma try_for_each_ok f l :
  try_for_each f l = Ok tt <-> Forall (fun x => f x = Ok tt) l.
Proof.
  induction l as [|x r IH]; cbn; [by split|].
  rewrite Forall_cons, <- IH. destruct (f x) as [[]|e]; [tauto|]. by split; [|intros [??]].
Qed.

(** The error is the one of the first element that has one. *)
Lemma try_for_each_err f l e :
  try_for_each f l = Err e <->
  exists l1 x l2, l = l1 ++ x :: l2 /\ Forall (fun y => f y = Ok tt) l1 /\ f x = Err e.
Proof.
  split.
  - induction l as [|x r IH]; cbn; [done|]. destruct (f x) as [[]|e'] eqn:Ef.
    + intros (l1 & y & l2 & -> & HF & Hy)%IH. exists (x :: l1), y, l2. by auto.
    + intros [= ->]. by exists [], x, r.
  - intros (l1 & x & l2 & -> & HF & Hx). induction HF as [|y l1 Hy _ IH]; cbn.
    + by rewrite Hx.
    + by rewrite Hy.
Qed.

Lemma try_for_each_ext f g l :
  (forall x, x ∈ l -> f x = g x) -> try_for_each f l = try_for_each g l.
Proof.
  induction l as [|x r IH]; cbn; [done|]. intros Hl. rewrite Hl by left.
  destruct (g x); [|done]. apply IH. intros y Hy. apply Hl. by right.
Qed.

Lemma try_for_each_app f l1 l2 :
  try_for_each f (l1 ++ l2)
  = match try_for_each f l1 with Ok _ => try_for_each f l2 | Err e => Err e end.
Proof. induction l1 as [|x r IH]; cbn; [done|]. by destruct (f x). Qed.
End TryForEach.

(** ** Automation

    [bool_prop] turns the boolean tests of the code into propositions;
    [split_ifs] follows every [if] and [match] on a boolean or an option of
    the goal; [width] closes the side conditions on machine integers. *)

Ltac bool_prop :=
  repeat match goal with
  | H : andb _ _ = true |- _ => apply andb_prop in H as [??]
  | H : negb _ = true |- _ => apply negb_true_iff in H
  | H : negb _ = false |- _ => apply negb_false_iff in H
  | H : orb _ _ = false |- _ => apply orb_false_elim in H as [??]
  | H : Z.leb _ _ = true |- _ => apply Z.leb_le in H
  | H : Z.leb _ _ = false |- _ => apply Z.leb_gt in H
  | H : Z.ltb _ _ = true |- _ => apply Z.ltb_lt in H
  | H : Z.ltb _ _ = false |- _ => apply Z.ltb_ge in H
  | H : Z.eqb _ _ = true |- _ => apply Z.eqb_eq in H
  | H : Z.eqb _ _ = false |- _ => apply Z.eqb_neq in H
  | H : Nat.leb _ _ = true |- _ => apply Nat.leb_le in H
  | H : Nat.leb _ _ = false |- _ => apply Nat.leb_gt in H
  | H : Nat.ltb _ _ = true |- _ => apply Nat.ltb_lt in H
  | H : Nat.ltb _ _ = false |- _ => apply Nat.ltb_ge in H
  | H : Nat.eqb _ _ = true |- _ => apply Nat.eqb_eq in H
  | H : Nat.eqb _ _ = false |- _ => apply Nat.eqb_neq in H
  | H : String.eqb _ _ = true |- _ => apply String.eqb_eq in H
  | H : String.eqb _ _ = false |- _ => apply String.eqb_neq in H
  end.

Ltac split_ifs :=
  repeat match goal with
  | |- context [if ?b then _ else _] => destruct b eqn:?
  | |- context [match ?o with Some _ => _ | None => _ end] => destruct o eqn:?
  end.

Ltac width :=
  unfold in_u32, in_u64, wrap32, wrap64, sat_add64, sat_sub, u8_max, u32_max,
    u64_max, i64_max in *; bool_prop; lia.

Create HintDb tiy.
#[export] Hint Resolve sort_by_perm insert_sorted_perm vec_remove_perm : tiy.

Lemma wrap64_small x : in_u64 x = true -> wrap64 x = x.
Proof. intros. unfold wrap64. apply Z.mod_small. width. Qed.

Lemma wrap32_small x : in_u32 x = true -> wrap32 x = x.
Proof. intros. unfold wrap32. apply Z.mod_small. width. Qed.

Lemma in_u32_iff x : in_u32 x = true <-> (0 <= x <= u32_max)%Z.
Proof. split; intros; [width|]. unfold in_u32. by rewrite andb_true_iff, !Z.leb_le. Qed.

Lemma in_u64_iff x : in_u64 x = true <-> (0 <= x <= u64_max)%Z.
Proof. split; intros; [width|]. unfold in_u64. by rewrite andb_true_iff, !Z.leb_le. Qed.
