(* ===== verification/RustStr.v ===== *)
(** * RustStr: the [str] and [char] methods the source uses

    A Rust string is the Rocq [string] of its UTF-8 bytes, so [len], byte
    offsets and slices agree.  The methods below are the ones of the standard
    library that the modelled code calls.  [str::to_lowercase] folds every
    Unicode letter by tables that are not part of the program: it is the
    operation of the class [Lowercase], whose only law is the behaviour on
    ASCII strings. *)

From stdpp Require Import base option list strings pretty.
From Stdlib Require Import ZArith Lia Ascii.
From S2P Require Import Prelude.

Local Open Scope string_scope.

(** ** Slicing and searching *)

Fixpoint strip_prefix (p s : string) : option string :=
  match p, s with
  | EmptyString, _ => Some s
  | String a p', String b s' => if Ascii.eqb a b then strip_prefix p' s' else None
  | String _ _, EmptyString => None
  end.

Definition starts_with (p s : string) : bool :=
  match strip_prefix p s with Some _ => true | None => false end.

(** [s.find(p)]: the byte offset of the first occurrence. *)
Fixpoint find (p s : string) : option nat :=
  if starts_with p s then Some 0%nat
  else match s with
       | EmptyString => None
       | String _ s' => S <$> find p s'
       end.

Definition contains (p s : string) : bool :=
  match find p s with Some _ => true | None => false end.

(** [&s[n..]] *)
Fixpoint drop_bytes (n : nat) (s : string) : string :=
  match n, s with
  | S n', String _ s' => drop_bytes n' s'
  | _, _ => s
  end.

(** [&s[..n]] *)
Fixpoint take_bytes (n : nat) (s : string) : string :=
  match n, s with
  | S n', String a s' => String a (take_bytes n' s')
  | _, _ => EmptyString
  end.

(** [s.strip_suffix(p)] *)
Definition strip_suffix (p s : string) : option string :=
  let n := (String.length s - String.length p)%nat in
  if (String.length p <=? String.length s)%nat && String.eqb (drop_bytes n s) p
  then Some (take_bytes n s) else None.

(** [s.trim_end_matches(c)] *)
Fixpoint trim_end_matches (c : ascii) (s : string) : string :=
  match s with
  | EmptyString => EmptyString
  | String a s' =>
      let r := trim_end_matches c s' in
      match r with
      | EmptyString => if Ascii.eqb a c then EmptyString else String a EmptyString
      | _ => String a r
      end
  end.

Fixpoint contains_char (c : ascii) (s : string) : bool :=
  match s with
  | EmptyString => false
  | String a s' => Ascii.eqb a c || contains_char c s'
  end.

Fixpoint ends_with_char (c : ascii) (s : string) : bool :=
  match s with
  | EmptyString => false
  | String a EmptyString => Ascii.eqb a c
  | String _ s' => ends_with_char c s'
  end.

(** [s.split_once(c)] *)
Fixpoint split_once (c : ascii) (s : string) : option (string * string) :=
  match s with
  | EmptyString => None
  | String a s' =>
      if Ascii.eqb a c then Some ("", s')
      else match split_once c s' with
           | Some (l, r) => Some (String a l, r)
           | None => None
           end
  end.

(** [s.split(c)]: never empty. *)
Fixpoint split (c : ascii) (s : string) : list string :=
  match s with
  | EmptyString => [""]
  | String a s' =>
      if Ascii.eqb a c then "" :: split c s'
      else match split c s' with
           | w :: r => String a w :: r
           | [] => [String a ""]
           end
  end.

(** [s.splitn(n, c)]: at most [n] pieces, the last one unsplit. *)
Fixpoint splitn (n : nat) (c : ascii) (s : string) : list string :=
  match n with
  | 0%nat => []
  | 1%nat => [s]
  | S n' => match split_once c s with
            | Some (l, r) => l :: splitn n' c r
            | None => [s]
            end
  end.

(** [s.replace(c, by)] for a one-character pattern *)
Fixpoint replace_char (c : ascii) (by_ s : string) : string :=
  match s with
  | EmptyString => ""
  | String a s' =>
      if Ascii.eqb a c then by_ +:+ replace_char c by_ s'
      else String a (replace_char c by_ s')
  end.

Fixpoint join (sep : string) (l : list string) : string :=
  match l with
  | [] => ""
  | [w] => w
  | w :: r => w +:+ sep +:+ join sep r
  end.

Definition is_empty (s : string) : bool :=
  match s with EmptyString => true | _ => false end.

(** ** Characters *)

Definition code (a : ascii) : Z := Z.of_N (N_of_ascii a).
Definition chr (z : Z) : ascii := ascii_of_N (Z.to_N z).

Definition LF : ascii := chr 10.
Definition CR : ascii := chr 13.
#[global] Arguments LF : simpl never.
#[global] Arguments CR : simpl never.

Definition is_ascii_digit (a : ascii) : bool := ((48 <=? code a) && (code a <=? 57))%Z.
Definition is_ascii_upper (a : ascii) : bool := ((65 <=? code a) && (code a <=? 90))%Z.
Definition is_ascii_char (a : ascii) : bool := (code a <? 128)%Z.

Fixpoint all_chars (f : ascii -> bool) (s : string) : bool :=
  match s with
  | EmptyString => true
  | String a s' => f a && all_chars f s'
  end.

Definition is_ascii (s : string) : bool := all_chars is_ascii_char s.

Definition lower_char (a : ascii) : ascii :=
  if is_ascii_upper a then chr (code a + 32) else a.

Fixpoint ascii_lowercase (s : string) : string :=
  match s with
  | EmptyString => ""
  | String a s' => String (lower_char a) (ascii_lowercase s')
  end.

(** [str::to_lowercase]. *)
Class Lowercase := {
  to_lowercase : string -> string;
  to_lowercase_ascii s : is_ascii s = true -> to_lowercase s = ascii_lowercase s;
}.

(** The instance the witnesses compute with; it is exact on ASCII. *)
Definition ascii_folding : Lowercase :=
  {| to_lowercase := ascii_lowercase; to_lowercase_ascii _ _ := eq_refl |}.

(** ** Unicode white space

    [char::is_whitespace] is true of the 25 code points of the Unicode
    property White_Space; [ws_prefix] recognises their UTF-8 encodings at the
    start of a string. *)

Definition ws_encodings : list string :=
  let b1 (a : Z) := String (chr a) "" in
  let b2 (a b : Z) := String (chr a) (String (chr b) "") in
  let b3 (a b c : Z) := String (chr a) (String (chr b) (String (chr c) "")) in
  [b1 9; b1 10; b1 11; b1 12; b1 13; b1 32; b2 194 133; b2 194 160;
   b3 225 154 128; b3 226 128 128; b3 226 128 129; b3 226 128 130;
   b3 226 128 131; b3 226 128 132; b3 226 128 133; b3 226 128 134;
   b3 226 128 135; b3 226 128 136; b3 226 128 137; b3 226 128 138;
   b3 226 128 168; b3 226 128 169; b3 226 128 175; b3 226 129 159;
   b3 227 128 128]%Z.

Definition ws_prefix (s : string) : option string :=
  foldr (fun w acc => match strip_prefix w s with Some r => Some r | None => acc end)
    None ws_encodings.

Fixpoint trim_start_fuel (fuel : nat) (s : string) : string :=
  match fuel with
  | 0%nat => s
  | S f => match ws_prefix s with
           | Some r => trim_start_fuel f r
           | None => s
           end
  end.

Definition trim_start (s : string) : string := trim_start_fuel (String.length s) s.

(** A string all of whose characters are white space. *)
Definition all_ws (s : string) : bool := is_empty (trim_start s).

Fixpoint trim_end (s : string) : string :=
  if all_ws s then ""
  else match s with
       | EmptyString => ""
       | String a s' => String a (trim_end s')
       end.

Definition trim (s : string) : string := trim_end (trim_start s).

(** ** Numbers *)

Definition hex_digit (a : ascii) : option Z :=
  let c := code a in
  if ((48 <=? c) && (c <=? 57))%Z then Some (c - 48)%Z
  else if ((97 <=? c) && (c <=? 102))%Z then Some (c - 87)%Z
  else if ((65 <=? c) && (c <=? 70))%Z then Some (c - 55)%Z
  else None.

Definition to_digit (radix : Z) (a : ascii) : option Z :=
  match hex_digit a with
  | Some d => if (d <? radix)%Z then Some d else None
  | None => None
  end.

Fixpoint parse_digits (radix max acc : Z) (s : string) : option Z :=
  match s with
  | EmptyString => Some acc
  | String a s' =>
      match to_digit radix a with
      | Some d => let v := (acc * radix + d)%Z in
                  if (v <=? max)%Z then parse_digits radix max v s' else None
      | None => None
      end
  end.

(** [uN::from_str_radix]: an optional [+], then at least one digit. *)
Definition from_str_radix (radix max : Z) (s : string) : option Z :=
  match s with
  | EmptyString => None
  | String a s' =>
      if Ascii.eqb a "+" then
        match s' with
        | EmptyString => None
        | _ => parse_digits radix max 0 s'
        end
      else parse_digits radix max 0 s
  end.

Definition parse_u64 : string -> option Z := from_str_radix 10 u64_max.

(** ** Lemmas *)

Lemma str_app_nil_r s : s +:+ "" = s.
Proof. induction s as [|a s IH]; [done|]. change (String a (s +:+ "") = String a s). by rewrite IH. Qed.

Lemma str_app_nil_l s : "" +:+ s = s.
Proof. done. Qed.

Lemma str_app_assoc s1 s2 s3 : (s1 +:+ s2) +:+ s3 = s1 +:+ s2 +:+ s3.
Proof.
  induction s1 as [|a s1 IH]; [done|].
  change (String a ((s1 +:+ s2) +:+ s3) = String a (s1 +:+ s2 +:+ s3)). by rewrite IH.
Qed.

Lemma str_app_cons a s1 s2 : String a s1 +:+ s2 = String a (s1 +:+ s2).
Proof. done. Qed.

Lemma str_length_app s1 s2 :
  String.length (s1 +:+ s2) = (String.length s1 + String.length s2)%nat.
Proof. induction s1 as [|a s1 IH]; [done|]. rewrite str_app_cons. cbn. by rewrite IH. Qed.

Lemma strip_prefix_spec p s r : strip_prefix p s = Some r <-> s = p +:+ r.
Proof.
  revert s. induction p as [|a p IH]; intros s; cbn.
  - split; [by intros [= <-]|by intros ->].
  - destruct s as [|b s]; [split; [done|by rewrite str_app_cons]|].
    rewrite str_app_cons. destruct (Ascii.eqb_spec a b) as [->|Hne].
    + rewrite IH. split; [by intros ->|by intros [= ->]].
    + split; [done|intros [= ??]; congruence].
Qed.

Lemma strip_prefix_app p r : strip_prefix p (p +:+ r) = Some r.
Proof. by apply strip_prefix_spec. Qed.

Lemma starts_with_iff p s : starts_with p s = true <-> exists r, s = p +:+ r.
Proof.
  unfold starts_with. destruct (strip_prefix p s) as [r|] eqn:E; split; intros H; try done.
  - apply strip_prefix_spec in E. by exists r.
  - destruct H as [r ->]. by rewrite strip_prefix_app in E.
Qed.

Lemma take_bytes_app p q : take_bytes (String.length p) (p +:+ q) = p.
Proof. induction p as [|a p IH]; cbn; [done|]. by rewrite str_app_cons; cbn; rewrite IH. Qed.

Lemma drop_bytes_app p r : drop_bytes (String.length p) (p +:+ r) = r.
Proof. induction p as [|a p IH]; [done|]. rewrite str_app_cons. done. Qed.

Lemma drop_bytes_drop m n s : drop_bytes m (drop_bytes n s) = drop_bytes (n + m) s.
Proof.
  revert s; induction n as [|n IH]; intros s; [done|].
  destruct s as [|a s]; cbn; [by destruct m|]. apply IH.
Qed.

Lemma drop_bytes_length n s : String.length (drop_bytes n s) = (String.length s - n)%nat.
Proof. revert s. induction n as [|n IH]; intros [|a s]; cbn; try done; by rewrite IH || lia. Qed.

Lemma drop_bytes_0 s : drop_bytes 0 s = s.
Proof. by destruct s. Qed.

(** A found offset splits the haystack around the needle. *)
Lemma find_spec p s i :
  find p s = Some i ->
  exists pre post, s = pre +:+ p +:+ post /\ String.length pre = i.
Proof.
  revert i. induction s as [|a s IH]; intros i; cbn.
  - destruct (starts_with p "") eqn:E; [|done]. intros [= <-].
    apply starts_with_iff in E as [r ->]. by exists "", r.
  - destruct (starts_with p (String a s)) eqn:E.
    + intros [= <-]. apply starts_with_iff in E as [r ->]. by exists "", r.
    + destruct (find p s) as [j|] eqn:F; [|done]. cbn. intros [= <-].
      destruct (IH j eq_refl) as (pre & post & -> & <-).
      exists (String a pre), post. by rewrite str_app_cons.
Qed.

Lemma find_first p pre post : exists i, find p (pre +:+ p +:+ post) = Some i /\ (i <= String.length pre)%nat.
Proof.
  induction pre as [|a pre IH].
  - exists 0%nat. split; [|done]. change ("" +:+ p +:+ post) with (p +:+ post).
    assert (starts_with p (p +:+ post) = true) as E by (apply starts_with_iff; eauto).
    destruct (p +:+ post); cbn; by rewrite E.
  - rewrite str_app_cons. cbn [find]. destruct (starts_with p _) eqn:E.
    + exists 0%nat. split; [done|lia].
    + destruct IH as (i & -> & Hi). exists (S i). cbn. split; [done|lia].
Qed.

Lemma contains_iff p s : contains p s = true <-> exists pre post, s = pre +:+ p +:+ post.
Proof.
  unfold contains. split.
  - destruct (find p s) eqn:E; [|done]. intros _.
    destruct (find_spec _ _ _ E) as (pre & post & -> & _). eauto.
  - intros (pre & post & ->). by destruct (find_first p pre post) as (i & -> & _).
Qed.

Lemma split_once_spec c s l r :
  split_once c s = Some (l, r) <-> s = l +:+ String c r /\ contains_char c l = false.
Proof.
  revert l. induction s as [|a s IH]; intros l; cbn.
  - split; [done|]. intros [H _]. by destruct l.
  - destruct (Ascii.eqb_spec a c) as [->|Hne].
    + split.
      * by intros [= <- <-].
      * intros [H Hc]. destruct l as [|b l]; [by injection H as <-|].
        rewrite str_app_cons in H. injection H as <- _. cbn in Hc.
        by rewrite Ascii.eqb_refl in Hc.
    + destruct (split_once c s) as [[l' r']|] eqn:E.
      * split.
        -- intros [= <- <-]. destruct (proj1 (IH l') eq_refl) as [-> Hc].
           split; [done|]. cbn. rewrite Hc. by destruct (Ascii.eqb_spec a c).
        -- intros [H Hc]. destruct l as [|b l]; [by injection H as <-|].
           rewrite str_app_cons in H. injection H as <- ->. cbn in Hc.
           apply orb_false_elim in Hc as [_ Hc].
           assert (Some (l', r') = Some (l, r)) as [= <- <-]; [|done].
           apply IH. done.
      * split; [done|]. intros [H Hc]. destruct l as [|b l]; [by injection H as <-|].
        rewrite str_app_cons in H. injection H as <- ->. cbn in Hc.
        apply orb_false_elim in Hc as [_ Hc].
        assert (None = Some (l, r)); [|done]. apply IH. done.
Qed.

Lemma split_once_app c l r :
  contains_char c l = false -> split_once c (l +:+ String c r) = Some (l, r).
Proof. intros. by apply split_once_spec. Qed.

Lemma all_chars_app f s1 s2 : all_chars f (s1 +:+ s2) = all_chars f s1 && all_chars f s2.
Proof.
  induction s1 as [|a s1 IH]; [done|]. rewrite str_app_cons. cbn. by rewrite IH, andb_assoc.
Qed.

Lemma all_chars_contains f c s :
  all_chars f s = true -> f c = false -> contains_char c s = false.
Proof.
  intros H Hc. induction s as [|a s IH]; [done|]. cbn in *.
  apply andb_prop in H as [Ha Hs]. destruct (Ascii.eqb_spec a c) as [->|]; [congruence|]. auto.
Qed.

Create Rewrite HintDb rust_str.
#[export] Hint Rewrite str_app_nil_l str_app_nil_r str_app_assoc str_length_app : rust_str.
