(* ===== verification/Http.v ===== *)
(** * Http: header maps

    The part of the [http] crate the gateway's code relies on.  Which names
    and values a header may have is the class [HttpHeaders], with the rules
    the crate documents as its laws; [token_headers] is an instance. *)

From stdpp Require Import base option list gmap strings.
From Stdlib Require Import ZArith Lia Ascii.
From S2P Require Import Prelude RustStr.

Local Open Scope string_scope.

Class HttpHeaders := {
  (** [HeaderName::from_bytes]: the name in lower case *)
  header_name_of : string -> string + string;
  (** [HeaderValue::from_str] *)
  header_value_of : string -> string + string;
}.

(** The characters of a token (RFC 9110). *)
Definition token_char (a : ascii) : bool :=
  let c := code a in
  (((48 <=? c) && (c <=? 57)) || ((65 <=? c) && (c <=? 90)) || ((94 <=? c) && (c <=? 122))
   || (c =? 33) || ((35 <=? c) && (c <=? 39)) || (c =? 42) || (c =? 43) || (c =? 45) || (c =? 46)
   || (c =? 124) || (c =? 126))%Z.

(** The values [HeaderValue::to_str] accepts: visible ASCII, blanks, tabs. *)
Definition visible (a : ascii) : bool :=
  ((32 <=? code a) && (code a <? 127))%Z || (code a =? 9)%Z.

Class HttpHeadersLaws (H : HttpHeaders) : Prop := {
  header_name_token s :
    s <> "" -> (Z.of_nat (String.length s) < 65536)%Z -> all_chars token_char s = true ->
    header_name_of s = inr (ascii_lowercase s);
  header_name_lower s n : header_name_of s = inr n -> n = ascii_lowercase s;
  header_value_visible s : all_chars visible s = true -> header_value_of s = inr s;
  header_value_same s v : header_value_of s = inr v -> v = s;
}.

(** A [HeaderMap] in which every name has one value: [insert] replaces. *)
Definition HeaderMap : Type := gmap string string.

(** [value.to_str().ok()] *)
Definition to_str (value : string) : option string :=
  if all_chars visible value then Some value else None.

(** [headers.contains_key(name)] *)
Definition contains_key (name : string) (hs : HeaderMap) : bool := bool_decide (is_Some (hs !! name)).

(** The headers of a request from outside: a name may have several values,
    which iteration yields in their order. *)
Definition Headers : Type := list (string * string).

Fixpoint get_header (name : string) (hs : Headers) : option string :=
  match hs with
  | [] => None
  | (n, v) :: r => if String.eqb n name then Some v else get_header name r
  end.

Definition token_headers : HttpHeaders := {|
  header_name_of s :=
    if negb (is_empty s) && (Z.of_nat (String.length s) <? 65536)%Z && all_chars token_char s
    then inr (ascii_lowercase s) else inl "invalid HTTP header name";
  header_value_of s :=
    if all_chars visible s then inr s else inl "failed to parse header value";
|}.

Lemma token_headers_laws : HttpHeadersLaws token_headers.
Proof.
  constructor; cbn.
  - intros s Hs Hn Ht. rewrite Ht, andb_true_r. destruct s as [|a s]; [done|]. cbn [is_empty negb andb].
    by rewrite (proj2 (Z.ltb_lt _ _) Hn).
  - intros s n. split_ifs; congruence.
  - intros s ->. done.
  - intros s v. split_ifs; congruence.
Qed.

(** The lower-case names the code writes out. *)
Definition static_name (s : string) : bool :=
  negb (is_empty s) && (Z.of_nat (String.length s) <? 65536)%Z && all_chars token_char s
  && String.eqb (ascii_lowercase s) s.

Lemma header_name_static `{H : HttpHeaders} {L : HttpHeadersLaws H} s :
  static_name s = true -> header_name_of s = inr s.
Proof.
  unfold static_name. intros [[[Hs Hn]%andb_true_iff Ht]%andb_true_iff El]%andb_true_iff.
  rewrite header_name_token; [by apply String.eqb_eq in El as ->| |by apply Z.ltb_lt|done].
  by intros ->.
Qed.

Lemma contains_key_lookup name hs :
  contains_key name hs = match hs !! name with Some _ => true | None => false end.
Proof.
  unfold contains_key. destruct (hs !! name); case_bool_decide as E; try done.
  by destruct E.
Qed.
