(* ===== verification/F64.v ===== *)
(** * F64: IEEE 754 double precision

    The type [f64] of routing weights, latency averages and JSON floats is
    the Standard Library's [spec_float] with the parameters of binary64
    (precision 53, exponent bound 1024), so the arithmetic of the model is the
    rounded arithmetic of the code and evaluates.  [f64_good] is the part of
    the format that weights and sums of weights live in: non-negative, not a
    NaN and not below the smallest exponent. *)

From stdpp Require Import base option list.
From Stdlib Require Import ZArith Lia SpecFloat.
From S2P Require Import Prelude.

Local Open Scope Z_scope.

Abbreviation f64 := spec_float.

#[export] Instance f64_eq_dec : EqDecision f64.
Proof. solve_decision. Defined.

Definition prec64 : Z := 53.
Definition emax64 : Z := 1024.
Definition emin64 : Z := 3 - emax64 - prec64.

Definition f64_add : f64 -> f64 -> f64 := SFadd prec64 emax64.
Definition f64_sub : f64 -> f64 -> f64 := SFsub prec64 emax64.
Definition f64_mul : f64 -> f64 -> f64 := SFmul prec64 emax64.

(** [x as f64] for an integer [x]. *)
Definition f64_of_Z (x : Z) : f64 := binary_normalize prec64 emax64 x 0 false.

(** The double nearest to the ratio [m * 2^e]. *)
Definition f64_lit (m e : Z) : f64 := binary_normalize prec64 emax64 m e false.

Definition f64_zero : f64 := S754_zero false.
Definition f64_neg_zero : f64 := S754_zero true.

(** [partial_cmp] and the comparison operators, false on NaN. *)
Definition f64_cmp (x y : f64) : option comparison := SFcompare x y.
Definition f64_le (x y : f64) : bool := SFleb x y.
Definition f64_lt (x y : f64) : bool := SFltb x y.

(** [x.max(0.0)] *)
Definition f64_max0 (x : f64) : f64 :=
  match x with
  | S754_nan => f64_zero
  | _ => if f64_lt x f64_zero then f64_zero else x
  end.

(** [x as u64]: truncation towards zero, saturating, [0] for NaN. *)
Definition f64_to_u64 (x : f64) : Z :=
  match x with
  | S754_finite false m e => Z.min u64_max (Z.shiftl (Zpos m) e)
  | S754_infinity false => u64_max
  | _ => 0
  end.

(** [x as f32]: rounding to binary32 (precision 24, exponent bound 128). *)
Definition f64_to_f32 (x : f64) : spec_float :=
  match x with
  | S754_finite s m e => binary_normalize 24 128 (if s then Zneg m else Zpos m) e s
  | _ => x
  end.

(** ** Sums of non-negative doubles *)

Definition f64_good (x : f64) : bool :=
  match x with
  | S754_zero _ => true
  | S754_infinity s => negb s
  | S754_nan => false
  | S754_finite s _ e => negb s && (emin64 <=? e)
  end.

Definition f64_pos (x : f64) : bool :=
  f64_good x && match x with S754_zero _ => false | _ => true end.

Lemma digits2_pos_bounds p :
  2 ^ (Zpos (digits2_pos p) - 1) <= Zpos p < 2 ^ Zpos (digits2_pos p).
Proof.
  induction p as [p IH|p IH|]; cbn [digits2_pos]; [| |cbn; lia].
  all: rewrite Pos2Z.inj_succ;
    replace (Z.succ (Zpos (digits2_pos p)) - 1) with (Z.succ (Zpos (digits2_pos p) - 1)) by lia;
    rewrite !Z.pow_succ_r by lia; lia.
Qed.

Lemma shr_1_m mrs : 0 <= shr_m mrs -> shr_m (shr_1 mrs) = shr_m mrs / 2.
Proof.
  destruct mrs as [m r s]; cbn [shr_m]. intros H.
  destruct m as [|[p|p|]|p]; cbn -[Z.div]; try done.
  - rewrite (Pos2Z.inj_xI p). apply Z.div_unique with 1; lia.
  - rewrite (Pos2Z.inj_xO p). apply Z.div_unique with 0; lia.
Qed.

Lemma shr_iter_m n mrs :
  0 <= shr_m mrs -> shr_m (SpecFloat.iter_pos shr_1 n mrs) = shr_m mrs / 2 ^ Zpos n.
Proof.
  revert mrs. induction n as [n IH|n IH|]; intros mrs H; cbn [SpecFloat.iter_pos].
  - assert (0 <= shr_m (shr_1 mrs)) by (rewrite shr_1_m by done; apply Z.div_pos; lia).
    rewrite !IH, shr_1_m; [|done..|].
    + rewrite !Z.div_div by lia. f_equal.
      rewrite (Pos2Z.inj_xI n), Z.pow_add_r, Z.pow_twice_r by lia. lia.
    + rewrite IH by done. apply Z.div_pos; lia.
  - rewrite !IH; [|done|].
    + rewrite !Z.div_div by lia. f_equal.
      by rewrite (Pos2Z.inj_xO n), Z.pow_twice_r by lia.
    + rewrite IH by done. apply Z.div_pos; lia.
  - by rewrite shr_1_m.
Qed.

Lemma shr_record_of_loc_m m l : shr_m (shr_record_of_loc m l) = m.
Proof. by destruct l as [|[]]. Qed.

(** Shifting a mantissa to the format's exponent never loses all of it. *)
Lemma shr_fexp_pos m e l :
  0 < m -> emin64 <= e ->
  0 < shr_m (fst (shr_fexp prec64 emax64 m e l))
  /\ emin64 <= snd (shr_fexp prec64 emax64 m e l).
Proof.
  intros Hm He. destruct m as [|p|p]; try lia.
  unfold shr_fexp, shr, fexp, SpecFloat.emin. cbn [Zdigits2].
  pose proof (digits2_pos_bounds p) as Hd.
  change (3 - emax64 - prec64) with emin64.
  destruct (Z.max (Zpos (digits2_pos p) + e - prec64) emin64 - e) as [|n|n] eqn:En;
    cbn [fst snd]; rewrite ?shr_record_of_loc_m; [lia| |lia].
  rewrite shr_iter_m by (rewrite shr_record_of_loc_m; lia).
  rewrite shr_record_of_loc_m. split; [|lia].
  apply Z.div_str_pos. split; [lia|].
  transitivity (2 ^ (Zpos (digits2_pos p) - 1)); [|lia].
  apply Z.pow_le_mono_r; unfold prec64 in *; lia.
Qed.

Lemma round_nearest_even_pos m l : 0 < m -> 0 < round_nearest_even m l.
Proof. intros. destruct l as [|[]]; cbn; try lia. destruct (Z.even m); lia. Qed.

Lemma binary_round_pos p e :
  emin64 <= e -> f64_pos (binary_round prec64 emax64 false p e) = true.
Proof.
  intros He. unfold binary_round.
  destruct (shl_align p e _) as [mz ez] eqn:E.
  assert (emin64 <= ez) as Hez.
  { unfold shl_align, fexp, SpecFloat.emin in E.
    change (3 - emax64 - prec64) with emin64 in E.
    destruct (Z.max _ emin64 - e) eqn:En; injection E as _ <-; lia. }
  unfold binary_round_aux.
  destruct (shr_fexp prec64 emax64 (Zpos mz) ez loc_Exact) as [mrs' e'] eqn:E1.
  destruct (shr_fexp_pos (Zpos mz) ez loc_Exact) as [Hm1 He1]; [lia|done|].
  rewrite E1 in Hm1, He1. cbn [fst snd] in *.
  destruct (shr_fexp prec64 emax64
    (round_nearest_even (shr_m mrs') (loc_of_shr_record mrs')) e' loc_Exact)
    as [mrs'' e''] eqn:E2.
  edestruct (shr_fexp_pos _ e' loc_Exact (round_nearest_even_pos _ (loc_of_shr_record mrs') Hm1) He1)
    as [Hm2 He2].
  rewrite E2 in Hm2, He2. cbn [fst snd] in *.
  destruct (shr_m mrs'') as [|m|m]; try lia.
  destruct (e'' <=? emax64 - prec64); cbn; [|done].
  unfold f64_pos. cbn. by rewrite (proj2 (Z.leb_le _ _) He2).
Qed.

Lemma f64_add_good x y :
  f64_good x = true -> f64_good y = true ->
  f64_good (f64_add x y) = true
  /\ (f64_pos x || f64_pos y = true -> f64_pos (f64_add x y) = true).
Proof.
  intros Hx Hy.
  destruct x as [[]|[]| |[] mx ex], y as [[]|[]| |[] my ey]; cbn in Hx, Hy; try done;
    cbn; try (split; [done|intros _; unfold f64_pos; cbn; by rewrite ?Hx, ?Hy]).
  assert (f64_pos (binary_round prec64 emax64 false
      ((shl_align mx ex (ex `min` ey)).1 + (shl_align my ey (ex `min` ey)).1) (ex `min` ey))
    = true) as Hp.
  { apply binary_round_pos. bool_prop. lia. }
  split; [|done]. by apply andb_prop in Hp as [? _].
Qed.

Lemma f64_pos_lt x : f64_pos x = true <-> f64_good x = true /\ f64_lt f64_zero x = true.
Proof.
  destruct x as [[]|[]| |[] m e]; unfold f64_pos; cbn; rewrite ?andb_true_r; intuition done.
Qed.

Lemma f64_max0_good x : f64_good x = true -> f64_max0 x = x.
Proof. by destruct x as [[]|[]| |[] m e]. Qed.

(** ** Order

    [SFcompare] orders the values that are not NaN by sign class, exponent
    and mantissa: [f64_key] names the three. *)

Definition is_nan (x : f64) : bool := match x with S754_nan => true | _ => false end.

Definition f64_key (x : f64) : Z * Z * Z :=
  match x with
  | S754_infinity false => (2, 0, 0)
  | S754_finite false m e => (1, e, Zpos m)
  | S754_zero _ | S754_nan => (0, 0, 0)
  | S754_finite true m e => (-1, - e, Zneg m)
  | S754_infinity true => (-2, 0, 0)
  end.

Definition key_compare (a b : Z * Z * Z) : comparison :=
  let '(a1, a2, a3) := a in
  let '(b1, b2, b3) := b in
  match a1 ?= b1 with
  | Eq => match a2 ?= b2 with Eq => a3 ?= b3 | c => c end
  | c => c
  end.

Lemma f64_cmp_key x y :
  is_nan x = false -> is_nan y = false ->
  f64_cmp x y = Some (key_compare (f64_key x) (f64_key y)).
Proof.
  intros Hx Hy. unfold f64_cmp.
  destruct x as [[]|[]| |[] m1 e1], y as [[]|[]| |[] m2 e2]; try done; cbn.
  - rewrite Z.compare_opp, (Z.compare_antisym e1 e2). by destruct (e1 ?= e2).
Qed.

Definition key_le (a b : Z * Z * Z) : bool :=
  match key_compare a b with Gt => false | _ => true end.

Lemma key_compare_antisym a b : key_compare a b = CompOpp (key_compare b a).
Proof.
  destruct a as [[a1 a2] a3], b as [[b1 b2] b3]. cbn.
  rewrite (Z.compare_antisym b1 a1), (Z.compare_antisym b2 a2), (Z.compare_antisym b3 a3).
  by destruct (b1 ?= a1), (b2 ?= a2), (b3 ?= a3).
Qed.

Lemma key_le_total a b : key_le a b = true \/ key_le b a = true.
Proof.
  unfold key_le. rewrite (key_compare_antisym b a). destruct (key_compare a b); cbn; auto.
Qed.

Lemma key_le_trans a b c : key_le a b = true -> key_le b c = true -> key_le a c = true.
Proof.
  destruct a as [[a1 a2] a3], b as [[b1 b2] b3], c as [[c1 c2] c3]. unfold key_le. cbn.
  destruct (Z.compare_spec a1 b1), (Z.compare_spec b1 c1), (Z.compare_spec a1 c1);
    try done; try lia;
  destruct (Z.compare_spec a2 b2), (Z.compare_spec b2 c2), (Z.compare_spec a2 c2);
    try done; try lia;
  destruct (Z.compare_spec a3 b3), (Z.compare_spec b3 c3), (Z.compare_spec a3 c3);
    try done; lia.
Qed.

(** ** Subtraction below zero

    For representable values, [r < w] makes the rounded [r - w] at most zero. *)

Definition f64_valid (x : f64) : bool := valid_binary prec64 emax64 x.

Definition nonpos (x : f64) : bool :=
  match x with
  | S754_zero _ | S754_infinity true | S754_finite true _ _ => true
  | _ => false
  end.

Lemma nonpos_le x : nonpos x = true -> f64_le x f64_zero = true.
Proof. by destruct x as [[]|[]| |[] m e]. Qed.

Lemma binary_round_neg p e : emin64 <= e -> nonpos (binary_round prec64 emax64 true p e) = true.
Proof.
  intros He. pose proof (binary_round_pos p e He) as Hp. revert Hp.
  unfold binary_round. destruct (shl_align p e _) as [mz ez].
  unfold binary_round_aux. destruct (shr_fexp _ _ _ ez loc_Exact) as [mrs' e'].
  destruct (shr_fexp _ _ _ e' loc_Exact) as [mrs'' e''].
  destruct (shr_m mrs'') as [|m|m]; try done. by destruct (e'' <=? emax64 - prec64).
Qed.

Lemma valid_canonical s m e :
  f64_valid (S754_finite s m e) = true ->
  emin64 <= e /\ Zpos m < 2 ^ prec64 /\ (emin64 < e -> 2 ^ (prec64 - 1) <= Zpos m).
Proof.
  unfold f64_valid, valid_binary, bounded, canonical_mantissa, fexp, SpecFloat.emin.
  change (3 - emax64 - prec64) with emin64. intros [H _]%andb_prop. apply Z.eqb_eq in H.
  pose proof (digits2_pos_bounds m) as Hd. unfold prec64 in *.
  split; [lia|]. split.
  - eapply Z.lt_le_trans; [exact (proj2 Hd)|]. apply Z.pow_le_mono_r; lia.
  - intros He. transitivity (2 ^ (Zpos (digits2_pos m) - 1)); [|lia].
    apply Z.pow_le_mono_r; lia.
Qed.

Lemma shl_align_value m e e' :
  e' <= e -> Zpos (fst (shl_align m e e')) = Zpos m * 2 ^ (e - e').
Proof.
  intros He. unfold shl_align. destruct (e' - e) as [|d|d] eqn:E; cbn [fst].
  - replace (e - e') with 0 by lia. lia.
  - lia.
  - replace (e - e') with (Zpos d) by lia. change (Pos.iter xO m d) with (shift_pos d m).
    rewrite shift_pos_correct, Z.pow_pos_fold. lia.
Qed.

Lemma f64_sub_below r w :
  f64_valid r = true -> f64_valid w = true -> f64_good r = true -> f64_pos w = true ->
  f64_lt r w = true -> f64_le (f64_sub r w) f64_zero = true.
Proof.
  intros Hr Hw Hgr Hpw Hlt. apply nonpos_le.
  destruct w as [[]|[]| |[] mw ew]; try done; destruct r as [[]|[]| |[] mr er]; try done.
  apply valid_canonical in Hr as (Hr1 & Hr2 & _), Hw as (Hw1 & Hw2 & Hw3).
  unfold f64_sub. cbn [SFsub cond_Zopp].
  pose proof (shl_align_value mr er (Z.min er ew) (Z.le_min_l _ _)) as Ar.
  pose proof (shl_align_value mw ew (Z.min er ew) (Z.le_min_r _ _)) as Aw.
  rewrite Ar, Aw.
  assert (Zpos mr * 2 ^ (er - Z.min er ew) < Zpos mw * 2 ^ (ew - Z.min er ew)) as Hd.
  { unfold f64_lt, SFltb in Hlt. cbn in Hlt.
    destruct (Z.compare_spec er ew) as [->|He|He]; [| |done].
    - rewrite Z.min_id, Z.sub_diag, !Z.mul_1_r.
      change (PosDef.Pos.compare_cont Eq mr mw) with (mr ?= mw)%positive in Hlt.
      destruct (Pos.compare_spec mr mw); [done|lia|done].
    - rewrite Z.min_l, Z.sub_diag, Z.mul_1_r by lia.
      assert (2 ^ (prec64 - 1) <= Zpos mw) by (apply Hw3; lia).
      assert (2 ^ 1 <= 2 ^ (ew - er)) by (apply Z.pow_le_mono_r; lia).
      change (2 ^ prec64) with (2 * 2 ^ (prec64 - 1)) in Hr2.
      generalize dependent (2 ^ (prec64 - 1)). generalize dependent (2 ^ (ew - er)).
      clear. intros. nia. }
  destruct (Zpos mr * _ - Zpos mw * _) as [|d|d] eqn:E; [lia|lia|].
  apply binary_round_neg. lia.
Qed.

#[export] Hint Resolve f64_add_good : tiy.

Example f64_add_tenth :
  f64_add (f64_lit 3602879701896397 (-55)) (f64_lit 7205759403792794 (-55))
  = f64_lit 5404319552844596 (-54).
Proof. reflexivity. Qed.

(** ** Numbers of 32 bits in doubles *)

(** A finite number of the format binary32. *)
Definition is_f32 (x : spec_float) : bool :=
  match x with
  | S754_zero _ => true
  | S754_finite _ m e => bounded 24 128 m e
  | _ => false
  end.

(** [f64::from(x)] for a finite [x]. *)
Definition f32_to_f64 (x : spec_float) : f64 :=
  match x with
  | S754_finite s m e => binary_normalize prec64 emax64 (if s then Zneg m else Zpos m) e s
  | _ => x
  end.

Lemma round_canonical prec emax s m e :
  bounded prec emax m e = true -> binary_round_aux prec emax s (Zpos m) e loc_Exact = S754_finite s m e.
Proof.
  unfold bounded, canonical_mantissa. intros [Hc%Z.eqb_eq He]%andb_true_iff.
  assert (forall m0 l, Zdigits2 m0 = Zpos (digits2_pos m) ->
    shr_fexp prec emax m0 e l = (shr_record_of_loc m0 l, e)) as Hs.
  { intros m0 l Hd. unfold shr_fexp. by rewrite Hd, Hc, Z.sub_diag. }
  unfold binary_round_aux. rewrite Hs by done. cbn [shr_record_of_loc loc_of_shr_record shr_m round_nearest_even].
  rewrite Hs by done. cbn [shr_record_of_loc shr_m]. by rewrite He.
Qed.

Lemma iter_pos_iter {A} (f : A -> A) n x : iter_pos f n x = Pos.iter f x n.
Proof.
  revert x. induction n as [n IH|n IH|]; intros x; cbn; [|by rewrite !IH|done].
  by rewrite !IH, !Pos.iter_swap.
Qed.

Lemma digits_shifted m k : digits2_pos (Pos.iter xO m k) = (digits2_pos m + k)%positive.
Proof.
  induction k as [|k IH] using Pos.peano_ind; [cbn; lia|].
  rewrite Pos.iter_succ. cbn. rewrite IH. lia.
Qed.

Lemma shr_shifted m k :
  Pos.iter shr_1 (Build_shr_record (Zpos (Pos.iter xO m k)) false false) k = Build_shr_record (Zpos m) false false.
Proof.
  induction k as [|k IH] using Pos.peano_ind; [done|].
  by rewrite Pos.iter_succ_r, Pos.iter_succ.
Qed.

Lemma f32_widen_narrow s m e :
  bounded 24 128 m e = true ->
  exists M E, binary_round 53 1024 s m e = S754_finite s M E /\ binary_round 24 128 s M E = S754_finite s m e.
Proof.
  intros Hb. pose proof Hb as [Hc%Z.eqb_eq He%Z.leb_le]%andb_true_iff.
  set (d := digits2_pos m) in *. unfold fexp, emin in Hc. 
  assert (Zpos d <= 24) as Hd by lia.
  destruct (53 - Zpos d) as [|k|k] eqn:Ek; [lia| |lia].
  exists (Pos.iter xO m k), (e - Zpos k).
  assert (Zpos (digits2_pos (Pos.iter xO m k)) = 53) as HD by (rewrite digits_shifted; fold d; lia).
  split.
  - unfold binary_round, shl_align. fold d. 
    assert (fexp 53 1024 (Zpos d + e) - e = Zneg k) as -> by (unfold fexp, emin; lia).
    assert (fexp 53 1024 (Zpos d + e) = e - Zpos k) as -> by (unfold fexp, emin; lia).
    apply round_canonical. apply andb_true_iff. split; [apply Z.eqb_eq|apply Z.leb_le]; rewrite ?HD; unfold fexp, emin; lia.
  - unfold binary_round, shl_align. rewrite HD.
    assert (fexp 24 128 (53 + (e - Zpos k)) = e) as HF by (unfold fexp, emin; lia).
    assert (fexp 24 128 (53 + (e - Zpos k)) - (e - Zpos k) = Zpos k) as -> by (rewrite HF; lia).
    unfold binary_round_aux. unfold shr_fexp at 1. cbn [Zdigits2]. rewrite HD, HF.
    replace (e - (e - Zpos k)) with (Zpos k) by lia. cbn [shr shr_record_of_loc].
    rewrite iter_pos_iter, shr_shifted. cbn [loc_of_shr_record shr_m round_nearest_even].
    replace (e - Zpos k + Zpos k) with e by lia.
    pose proof (round_canonical 24 128 s m e Hb) as Hr. unfold binary_round_aux in Hr.
    assert (shr_fexp 24 128 (Zpos m) e loc_Exact = (Build_shr_record (Zpos m) false false, e)) as E.
    { unfold shr_fexp. cbn [Zdigits2 shr_record_of_loc]. fold d. unfold fexp, emin. rewrite Hc. by rewrite Z.sub_diag. }
    rewrite E in Hr |- *. cbn [shr_m] in Hr |- *. by rewrite (proj2 (Z.leb_le _ _) He).
Qed.

(** Widening a number of 32 bits loses nothing. *)
Lemma f32_through_f64 x : is_f32 x = true -> f64_to_f32 (f32_to_f64 x) = x.
Proof.
  destruct x as [b| | |s m e]; try done. intros (M & E & H1 & H2)%(f32_widen_narrow s).
  unfold f32_to_f64, prec64, emax64. destruct s; cbn [binary_normalize]; rewrite H1; exact H2.
Qed.
