(* ===== verification/Json.v ===== *)
(** * Json: the JSON values the gateway handles

    [serde_json::Value] is a tree; the crate is built without its
    [preserve_order] and [arbitrary_precision] features, so an object is a map
    ordered by key and a number is a [u64], a negative [i64] or a double.  An
    object is the list of its members; [Obj] values built by the code keep
    the keys strictly increasing ([wf]), and iteration follows that order.

    Parsing and printing belong to the [serde_json] crate: they are the
    operations of the class [SerdeJson]; the class [SerdeJsonLaws] states what
    the codecs rely on, and [coded_json] shows that the laws can hold. *)

From stdpp Require Import base option list strings countable.
From Stdlib Require Import ZArith Lia SpecFloat Ascii.
From S2P Require Import Prelude RustStr F64.

Local Open Scope string_scope.

Inductive Number :=
| PosInt (n : Z)   (* 0 <= n <= u64::MAX *)
| NegInt (n : Z)   (* i64::MIN <= n < 0 *)
| Float (f : f64).

Inductive Value :=
| Null
| Bool (b : bool)
| Num (n : Number)
| Str (s : string)
| Arr (l : list Value)
| Obj (m : list (string * Value)).

(** The induction principle with hypotheses for the nested values. *)
Section ValueInd.
Context (P : Value -> Prop).
Context (HNull : P Null) (HBool : forall b, P (Bool b)) (HNum : forall n, P (Num n))
        (HStr : forall s, P (Str s))
        (HArr : forall l, Forall P l -> P (Arr l))
        (HObj : forall m, Forall (fun kv => P (snd kv)) m -> P (Obj m)).

Fixpoint Value_rect_nested (v : Value) : P v :=
  match v with
  | Null => HNull
  | Bool b => HBool b
  | Num n => HNum n
  | Str s => HStr s
  | Arr l =>
      HArr l ((fix go l : Forall P l :=
        match l with
        | [] => List.Forall_nil P
        | x :: r => List.Forall_cons P x r (Value_rect_nested x) (go r)
        end) l)
  | Obj m =>
      HObj m ((fix go m : Forall (fun kv => P (snd kv)) m :=
        match m with
        | [] => List.Forall_nil _
        | kv :: r => List.Forall_cons _ kv r (Value_rect_nested (snd kv)) (go r)
        end) m)
  end.
End ValueInd.

Definition Value_ind' (P : Value -> Prop) := Value_rect_nested P.

(** ** Accessors *)

Definition as_str (v : Value) : option string :=
  match v with Str s => Some s | _ => None end.
Definition as_bool (v : Value) : option bool :=
  match v with Bool b => Some b | _ => None end.
Definition as_array (v : Value) : option (list Value) :=
  match v with Arr l => Some l | _ => None end.
Definition as_object (v : Value) : option (list (string * Value)) :=
  match v with Obj m => Some m | _ => None end.
Definition as_u64 (v : Value) : option Z :=
  match v with Num (PosInt n) => Some n | _ => None end.
Definition as_i64 (v : Value) : option Z :=
  match v with
  | Num (PosInt n) => if (n <=? i64_max)%Z then Some n else None
  | Num (NegInt n) => Some n
  | _ => None
  end.
Definition as_f64 (v : Value) : option f64 :=
  match v with
  | Num (PosInt n) | Num (NegInt n) => Some (f64_of_Z n)
  | Num (Float f) => Some f
  | _ => None
  end.

Definition is_null (v : Value) : bool := match v with Null => true | _ => false end.
Definition is_object (v : Value) : bool := match v with Obj _ => true | _ => false end.
Definition is_u64 (v : Value) : bool := match v with Num (PosInt _) => true | _ => false end.
Definition is_boolean (v : Value) : bool := match v with Bool _ => true | _ => false end.

(** [map.get(k)] on the members of an object *)
Fixpoint assoc {A} (k : string) (m : list (string * A)) : option A :=
  match m with
  | [] => None
  | (k', v) :: r => if String.eqb k k' then Some v else assoc k r
  end.

(** [value.get(k)]: [None] on anything but an object *)
Definition get (k : string) (v : Value) : option Value :=
  match v with Obj m => assoc k m | _ => None end.

(** [value[k]]: [Null] where the key, or the object, is missing *)
Definition index (v : Value) (k : string) : Value := default Null (get k v).

(** [value[i]] for an array index *)
Definition index_nat (v : Value) (i : nat) : Value :=
  match v with Arr l => default Null (l !! i) | _ => Null end.

(** [map.insert(k, v)] on the ordered members *)
Fixpoint insert {A} (k : string) (v : A) (m : list (string * A)) : list (string * A) :=
  match m with
  | [] => [(k, v)]
  | (k', v') :: r =>
      match String.compare k k' with
      | Lt => (k, v) :: (k', v') :: r
      | Eq => (k, v) :: r
      | Gt => (k', v') :: insert k v r
      end
  end.

(** The [json!] object literal: the members inserted one after the other. *)
Definition obj (l : list (string * Value)) : Value :=
  Obj (fold_left (fun m kv => insert (fst kv) (snd kv) m) l []).

(** [value[k] = v]: an object is updated, [Null] becomes an object; any other
    value panics in the crate and never occurs in the modelled code. *)
Definition set (k : string) (v : Value) (b : Value) : Value :=
  match b with
  | Obj m => Obj (insert k v m)
  | Null => obj [(k, v)]
  | _ => b
  end.

Definition set_opt (k : string) (o : option Value) (b : Value) : Value :=
  match o with Some v => set k v b | None => b end.

Definition json_u64 (n : Z) : Value := Num (PosInt n).
Definition json_opt_str (o : option string) : Value :=
  match o with Some s => Str s | None => Null end.

Notation "v .[ k ]" := (index v k) (at level 1, left associativity, format "v .[ k ]").

(** ** Well-formed values: the keys of every object strictly increase *)

Fixpoint keys_sorted {A} (m : list (string * A)) : bool :=
  match m with
  | [] => true
  | (k, _) :: r =>
      match r with
      | [] => true
      | (k', _) :: _ => match String.compare k k' with Lt => keys_sorted r | _ => false end
      end
  end.

Fixpoint wf (v : Value) : bool :=
  match v with
  | Arr l => forallb wf l
  | Obj m => keys_sorted m && forallb (fun kv => wf (snd kv)) m
  | _ => true
  end.

(** [exact v]: the crate can represent [v], and its text gives [v] back: keys
    are sorted, integers fit, and there is no double in it (parsing a double
    may round). *)
Definition exact_number (n : Number) : bool :=
  match n with
  | PosInt z => (0 <=? z)%Z && (z <=? u64_max)%Z
  | NegInt z => (- 9223372036854775808 <=? z)%Z && (z <? 0)%Z
  | Float _ => false
  end.

Fixpoint exact (v : Value) : bool :=
  match v with
  | Num n => exact_number n
  | Arr l => forallb exact l
  | Obj m => keys_sorted m && forallb (fun kv => exact (snd kv)) m
  | _ => true
  end.

(** ** The parser and printer of the [serde_json] crate *)

Class SerdeJson := {
  from_str : string -> option Value;
  (** the [Display] text of the error when [from_str] has one *)
  from_str_error : string -> string;
  to_string : Value -> string;
}.

(** What the streaming codecs rely on: compact text is read back, has no line
    feed (control characters are escaped), and an object is in braces. *)
Class SerdeJsonLaws (J : SerdeJson) : Prop := {
  from_to_string v : exact v = true -> from_str (to_string v) = Some v;
  to_string_one_line v : contains_char LF (to_string v) = false;
  to_string_braces m : exists s, to_string (Obj m) = "{" +:+ s +:+ "}";
}.

(** ** Lemmas *)

Lemma compare_refl s : String.compare s s = Eq.
Proof.
  induction s as [|a s IH]; cbn; [done|]. unfold Ascii.compare. by rewrite N.compare_refl.
Qed.

Lemma compare_trans s t u :
  String.compare s t = Lt -> String.compare t u = Lt -> String.compare s u = Lt.
Proof.
  revert t u. induction s as [|a s IH]; intros [|b t] [|c u]; cbn; try done.
  unfold Ascii.compare.
  destruct (N.compare_spec (Ascii.N_of_ascii a) (Ascii.N_of_ascii b)) as [E1|E1|E1];
  destruct (N.compare_spec (Ascii.N_of_ascii b) (Ascii.N_of_ascii c)) as [E2|E2|E2];
  destruct (N.compare_spec (Ascii.N_of_ascii a) (Ascii.N_of_ascii c)) as [E3|E3|E3];
    try done; try lia. apply IH.
Qed.

Lemma compare_ne s t : s <> t -> String.compare s t <> Eq.
Proof. intros H E. by apply String.compare_eq_iff in E. Qed.

Lemma assoc_insert {A} k k' (v : A) m :
  assoc k (insert k' v m) = if String.eqb k k' then Some v else assoc k m.
Proof.
  induction m as [|[k2 v2] r IH]; cbn; [done|].
  destruct (String.compare k' k2) eqn:E; cbn.
  - apply String.compare_eq_iff in E as ->. by destruct (String.eqb k k2).
  - done.
  - rewrite IH. destruct (String.eqb_spec k k2) as [->|]; [|done].
    destruct (String.eqb_spec k2 k') as [->|]; [|done].
    by rewrite compare_refl in E.
Qed.

Lemma get_set k k' v b :
  is_object b || is_null b = true ->
  get k (set k' v b) = if String.eqb k k' then Some v else get k b.
Proof. destruct b; cbn; try done; intros _. apply assoc_insert. Qed.

Lemma get_set_obj k k' v m :
  get k (set k' v (Obj m)) = if String.eqb k k' then Some v else assoc k m.
Proof. apply assoc_insert. Qed.

Lemma keys_sorted_cons {A} k (v : A) m :
  keys_sorted ((k, v) :: m) = true ->
  keys_sorted m = true /\ forall k', assoc k' m <> None -> String.compare k k' = Lt.
Proof.
  revert k v. induction m as [|[k2 v2] r IH]; intros k v H; [done|].
  cbn [keys_sorted] in H. destruct (String.compare k k2) eqn:E; try done.
  split; [done|]. intros k'. cbn. destruct (String.eqb_spec k' k2) as [->|]; [done|].
  intros Hk. destruct (IH k2 v2 H) as [_ H2]. specialize (H2 k' Hk).
  by eapply compare_trans.
Qed.

(** ** An instance of the laws

    Not the JSON grammar: a value is coded as a tree of the countable type
    [gen_tree] and written as a string of binary digits between braces. *)

Fixpoint to_tree (v : Value) : gen_tree (bool + Z + string) :=
  match v with
  | Null => GenNode 0 []
  | Bool b => GenLeaf (inl (inl b))
  | Num (PosInt z) => GenNode 1 [GenLeaf (inl (inr z))]
  | Num (NegInt z) => GenNode 2 [GenLeaf (inl (inr z))]
  | Num (Float _) => GenNode 3 []
  | Str s => GenLeaf (inr s)
  | Arr l => GenNode 4 (map to_tree l)
  | Obj m => GenNode 5 (map (fun kv => GenNode 6 [GenLeaf (inr (fst kv)); to_tree (snd kv)]) m)
  end.

Fixpoint of_tree (t : gen_tree (bool + Z + string)) : Value :=
  match t with
  | GenLeaf (inl (inl b)) => Bool b
  | GenLeaf (inr s) => Str s
  | GenNode 1 [GenLeaf (inl (inr z))] => Num (PosInt z)
  | GenNode 2 [GenLeaf (inl (inr z))] => Num (NegInt z)
  | GenNode 4 l => Arr (map of_tree l)
  | GenNode 5 l =>
      Obj (map (fun t => match t with
                         | GenNode 6 [GenLeaf (inr k); u] => (k, of_tree u)
                         | _ => ("", Null)
                         end) l)
  | _ => Null
  end.

Lemma of_to_tree v : exact v = true -> of_tree (to_tree v) = v.
Proof.
  induction v as [|b|[z|z|f]|s|l IH|m IH] using Value_ind'; try done.
  - cbn. intros Hf. f_equal. induction IH as [|v l Hv _ IHl]; [done|].
    cbn in *. apply andb_prop in Hf as [Hf1 Hf2]. by rewrite Hv, IHl.
  - cbn. intros [_ Hf]%andb_prop. f_equal.
    induction IH as [|[k v] m Hv _ IHm]; [done|].
    cbn in *. apply andb_prop in Hf as [Hf1 Hf2]. by rewrite Hv, IHm.
Qed.

Fixpoint bits (p : positive) : string :=
  match p with
  | xH => "}"
  | xO q => String "0" (bits q)
  | xI q => String "1" (bits q)
  end.

Fixpoint of_bits (s : string) : option positive :=
  match s with
  | String a r =>
      if Ascii.eqb a "}" then Some xH
      else if Ascii.eqb a "0" then xO <$> of_bits r
      else xI <$> of_bits r
  | EmptyString => None
  end.

Lemma of_bits_bits p : of_bits (bits p) = Some p.
Proof. induction p as [p IH|p IH|]; cbn; [by rewrite IH..|done]. Qed.

Lemma bits_one_line p : contains_char LF (bits p) = false.
Proof. induction p; done. Qed.

Lemma bits_brace p : exists s, bits p = s +:+ "}".
Proof.
  induction p as [p [s IH]|p [s IH]|]; cbn.
  - exists (String "1" s). by rewrite IH, str_app_cons.
  - exists (String "0" s). by rewrite IH, str_app_cons.
  - by exists "".
Qed.

Definition coded_json : SerdeJson := {|
  from_str s :=
    match s with
    | String _ r => of_bits r ≫= fun p => of_tree <$> decode p
    | EmptyString => None
    end;
  from_str_error _ := "expected value";
  to_string v := String "{" (bits (encode (to_tree v)));
|}.

Lemma coded_json_laws : SerdeJsonLaws coded_json.
Proof.
  split.
  - intros v Hv. cbn. rewrite of_bits_bits. cbn. rewrite decode_encode. cbn.
    by rewrite of_to_tree.
  - intros v. apply bits_one_line.
  - intros m. destruct (bits_brace (encode (to_tree (Obj m)))) as [s Hs]. exists s.
    change ("{" +:+ s +:+ "}") with (String "{" (s +:+ "}")). by rewrite <- Hs.
Qed.
