(* ===== verification/JsonBody.v ===== *)
(** * JsonBody: building and reading JSON bodies

    The idioms the codecs use on [serde_json] values, and the lemmas and
    tactics that read a member of a body written by a sequence of
    assignments. *)

From stdpp Require Import base option list gmap strings.
From Stdlib Require Import ZArith Lia SpecFloat Ascii.
From S2P Require Import Prelude RustStr F64 Json.

Local Open Scope string_scope.
Local Open Scope list_scope.
Local Open Scope Z_scope.

(** ** Idioms *)

(** [a.or_else(|| b)] *)
Definition or_else {A} (a b : option A) : option A := match a with Some _ => a | None => b end.

(** [value.as_str().unwrap_or(d)] *)
Definition str_or (d : string) (v : Value) : string := default d (as_str v).

(** [json!(x)] for an [i64] and for an [f32], which becomes [null] when it is
    not finite. *)
Definition json_i64 (n : Z) : Value := Num (if n <? 0 then NegInt n else PosInt n).

Definition is_none {A} (o : option A) : bool := match o with None => true | Some _ => false end.

(** [if let Some(v) = o { map.insert(k, v) }] *)
Definition insert_member (k : string) (o : option Value) (m : list (string * Value))
    : list (string * Value) :=
  match o with Some v => Json.insert k v m | None => m end.

(** [map[k]] on a [serde_json::Map], which panics where [value[k]] is null. *)
Definition map_index (m : list (string * Value)) (k : string) : run Value :=
  match assoc k m with Some v => Ok v | None => Err MissingKey end.

Definition json_f32 (x : spec_float) : Value :=
  match x with
  | S754_finite s m e =>
      Num (Float (binary_normalize prec64 emax64 (if s then Zneg m else Zpos m) e s))
  | S754_zero s => Num (Float (S754_zero s))
  | _ => Null
  end.

Definition finite_f32 (o : option spec_float) : Prop := forall x, o = Some x -> is_f32 x = true.

(** A finite [f32] is read back from its JSON number. *)
Lemma json_f32_roundtrip (o : option spec_float) :
  finite_f32 o ->
  f64_to_f32 <$> as_f64 (default Null (json_f32 <$> o)) = o.
Proof.
  destruct o as [x|]; [|done]. intros Hx. specialize (Hx x eq_refl). cbn.
  pose proof (f32_through_f64 x Hx) as Hr. by destruct x; try done; cbn in *; rewrite Hr.
Qed.

(** ** Members of the bodies that are built *)

Lemma is_object_set k v b : is_object b = true -> is_object (set k v b) = true.
Proof. by destruct b. Qed.

Lemma is_object_set_opt k o b : is_object b = true -> is_object (set_opt k o b) = true.
Proof. destruct o; [apply is_object_set|done]. Qed.

Lemma get_set_ne k k' v b : k <> k' -> is_object b = true -> get k (set k' v b) = get k b.
Proof.
  intros Hk Hb. rewrite get_set by (by rewrite Hb). by rewrite (proj2 (String.eqb_neq _ _) Hk).
Qed.

Lemma get_set_eq k v b : is_object b = true -> get k (set k v b) = Some v.
Proof. intros Hb. rewrite get_set by (by rewrite Hb). by rewrite String.eqb_refl. Qed.

Lemma get_set_opt_ne k k' o b :
  k <> k' -> is_object b = true -> get k (set_opt k' o b) = get k b.
Proof. destruct o; [apply get_set_ne|done]. Qed.

Lemma get_set_opt_eq k o b :
  is_object b = true -> get k (set_opt k o b) = or_else o (get k b).
Proof. destruct o; [apply get_set_eq|done]. Qed.

(** A member of a literal: the last one of its name. *)
Lemma get_obj k l : get k (obj l) = assoc k (rev l).
Proof.
  unfold obj. cbn [get].
  assert (forall m, assoc k (fold_left (fun m kv => Json.insert (fst kv) (snd kv) m) l m)
                    = or_else (assoc k (rev l)) (assoc k m)) as Hm.
  { induction l as [|[k' v] l IH]; intros m; [done|]. cbn [fold_left rev fst snd].
    rewrite IH, assoc_insert. clear IH.
    assert (assoc k (rev l ++ [(k', v)]) = or_else (assoc k (rev l)) (assoc k [(k', v)])) as ->.
    { induction (rev l) as [|[k2 v2] r IHr]; [done|]. cbn in *. by destruct (String.eqb k k2). }
    cbn. destruct (assoc k (rev l)); [done|]. by destruct (String.eqb k k'). }
  rewrite Hm. by destruct (assoc k (rev l)).
Qed.

Lemma get_set_opt_if k k' o b :
  is_object b = true ->
  get k (set_opt k' o b) = or_else (if String.eqb k k' then o else None) (get k b).
Proof.
  intros Hb. destruct (String.eqb_spec k k') as [->|Hk]; [by apply get_set_opt_eq|].
  by rewrite get_set_opt_ne.
Qed.

Lemma get_set_if k k' v b :
  is_object b = true -> get k (set k' v b) = if String.eqb k k' then Some v else get k b.
Proof. intros Hb. by apply get_set; rewrite Hb. Qed.

(** The members after an insertion. *)
Lemma elem_of_json_insert {A} (kv : string * A) k v m :
  kv ∈ Json.insert k v m -> kv = (k, v) \/ kv ∈ m.
Proof.
  induction m as [|[k' v'] m IH]; cbn [Json.insert]; [by intros ->%list_elem_of_singleton; left|].
  destruct (String.compare k k'); rewrite !elem_of_cons; tauto.
Qed.

(** A member written where there was none. *)
Lemma or_else_if (b : bool) {A} (o o' : option A) :
  (b = true -> o' = None) -> or_else (if b then o else None) o' = if b then o else o'.
Proof. destruct b, o; cbn; auto. Qed.

Ltac last_key := first [ let E := fresh in intros E; apply String.eqb_eq in E as ->; reflexivity ].

Lemma omap_str l : omap as_str (map Str l) = l.
Proof. induction l as [|s l IH]; [done|]. cbn. by f_equal. Qed.

Lemma assoc_insert_member k k' o m :
  assoc k (insert_member k' o m) = or_else (if String.eqb k k' then o else None) (assoc k m).
Proof.
  destruct o; cbn [insert_member]; [|by destruct (String.eqb k k')].
  rewrite assoc_insert. by destruct (String.eqb k k').
Qed.

Lemma is_empty_eq s : is_empty s = true <-> s = "".
Proof. by destruct s. Qed.

(** Maps of strings written as objects, in any order of their entries. *)
Lemma assoc_nodup {A} (l : list (string * A)) k v :
  NoDup l.*1 -> assoc k l = Some v <-> (k, v) ∈ l.
Proof.
  induction l as [|[k' v'] l IH]; cbn.
  { intros _. split; [done|by intros ?%elem_of_nil]. }
  rewrite NoDup_cons, elem_of_cons. intros [Hk Hl]. rewrite <- IH by done.
  destruct (String.eqb_spec k k') as [->|Hne].
  - split; [by intros [= ->]; left|]. intros [[= ->]|Hin]; [done|].
    destruct Hk. apply list_elem_of_fmap. exists (k', v). split; [done|]. by apply IH.
  - naive_solver.
Qed.

Lemma get_string_map (m : gmap string string) k :
  get k (obj (map (fun kv => (fst kv, Str (snd kv))) (map_to_list m))) = Str <$> m !! k.
Proof.
  rewrite get_obj. set (l := map _ _).
  assert (rev l ≡ₚ l) as Hp by (symmetry; apply Permutation_rev).
  assert (l.*1 = (map_to_list m).*1) as Hl by (unfold l; rewrite List.map_map; done).
  apply option_eq. intros v. rewrite assoc_nodup by (rewrite Hp, Hl; apply NoDup_fst_map_to_list).
  rewrite Hp. unfold l. split.
  - intros ([k' s] & [= -> ->] & Hin)%list_elem_of_fmap. apply elem_of_map_to_list in Hin.
    apply fmap_Some. by exists s.
  - intros (s & Hs & ->)%fmap_Some. apply list_elem_of_fmap. exists (k, s).
    by rewrite elem_of_map_to_list.
Qed.

Lemma assoc_in_nonempty {A} k (m : list (string * A)) v : assoc k m = Some v -> m <> [].
Proof. by destruct m. Qed.

(** Members that are set where there are none. *)
Lemma or_else_none {A} (o : option A) : or_else o None = o.
Proof. by destruct o. Qed.

Lemma get_replayed l b k :
  is_object b = true ->
  let b' := fold_left (fun b kv => if is_none (get (fst kv) b) then set (fst kv) (snd kv) b else b) l b in
  is_object b' = true /\ get k b' = or_else (get k b) (assoc k l).
Proof.
  cbv zeta. revert b. induction l as [|[k' v] l IH]; intros b Hb.
  { split; [done|]. cbn. by rewrite or_else_none. }
  cbn [fold_left fst snd assoc]. destruct (get k' b) as [w|] eqn:E; cbn [is_none].
  - destruct (IH b Hb) as [Ho Hg]. split; [done|]. rewrite Hg.
    destruct (String.eqb_spec k k') as [->|]; [by rewrite E|done].
  - destruct (IH (set k' v b)) as [Ho Hg]; [by apply is_object_set|]. split; [done|].
    rewrite Hg, get_set_if by done. destruct (String.eqb_spec k k') as [->|]; [by rewrite E|done].
Qed.

(** Insertion keeps an object sorted, so that its keys are distinct. *)
Lemma keys_sorted_insert {A} k (v : A) m : keys_sorted m = true -> keys_sorted (Json.insert k v m) = true.
Proof.
  induction m as [|[k1 v1] m IH]; [done|]. intros Hs. apply keys_sorted_cons in Hs as Hc.
  destruct Hc as [Hm Hlt]. cbn [Json.insert]. destruct (String.compare k k1) eqn:E.
  - apply String.compare_eq_iff in E as ->. by destruct m as [|[k2 v2] m].
  - cbn [keys_sorted]. by rewrite E.
  - specialize (IH Hm). assert (String.compare k1 k = Lt) as E' by
      (rewrite String.compare_antisym, E; done).
    destruct m as [|[k2 v2] m]; cbn [Json.insert keys_sorted] in *; [by rewrite E'|].
    destruct (String.compare k1 k2) eqn:E12; try done.
    destruct (String.compare k k2) eqn:E2; cbn [keys_sorted] in *; rewrite ?E', ?E12; try done;
      by rewrite ?E2 in *.
Qed.

Lemma keys_sorted_nodup {A} (m : list (string * A)) : keys_sorted m = true -> NoDup m.*1.
Proof.
  induction m as [|[k v] m IH]; [constructor|]. intros [Hm Hlt]%keys_sorted_cons.
  cbn. apply NoDup_cons. split; [|by apply IH]. intros Hin.
  assert (assoc k m <> None) as Ha.
  { clear -Hin. induction m as [|[k' v'] m IH]; [by apply elem_of_nil in Hin|]. cbn in *.
    destruct (String.eqb_spec k k') as [->|Hne]; [done|]. apply IH.
    by apply elem_of_cons in Hin as [->|Hin]. }
  apply Hlt in Ha. by rewrite compare_refl in Ha.
Qed.

(** Reading the members that are strings. *)
Lemma lookup_string_members l k :
  Forall (fun kv => is_Some (as_str (snd kv))) l ->
  (list_to_map (omap (fun kv => pair (fst kv) <$> as_str (snd kv)) l) : gmap string string) !! k
  = assoc k l ≫= as_str.
Proof.
  induction 1 as [|[k' v] l [s Hs] _ IH]; [done|]. cbn in *. rewrite Hs. cbn.
  destruct (String.eqb_spec k k') as [->|Hk]; cbn.
  - by rewrite lookup_insert_eq.
  - by rewrite lookup_insert_ne by congruence.
Qed.

Lemma string_map_members (m : gmap string string) :
  Forall (fun kv => is_Some (as_str (snd kv)))
    (default [] (as_object (obj (map (fun kv => (fst kv, Str (snd kv))) (map_to_list m))))).
Proof.
  unfold obj. cbn [as_object default from_option id].
  assert (forall l r, Forall (fun kv => is_Some (as_str (snd kv))) r ->
    Forall (fun kv => is_Some (as_str (snd kv)))
      (fold_left (fun m kv => Json.insert (fst kv) (snd kv) m)
         (map (fun kv : string * string => (fst kv, Str (snd kv))) l) r)) as Hl; [|by apply Hl].
  induction l as [|[k v] l IH]; intros r Hr; [done|]. cbn. apply IH.
  apply Forall_forall. intros kv [->|Hin]%elem_of_json_insert; [by eexists|].
  by apply (proj1 (Forall_forall _ _) Hr).
Qed.

(** A map of strings is read back. *)
Lemma string_map_roundtrip (m : gmap string string) :
  (fun o => list_to_map (omap (fun kv => pair (fst kv) <$> as_str (snd kv)) o)) <$>
    as_object (obj (map (fun kv => (fst kv, Str (snd kv))) (map_to_list m))) = Some m.
Proof.
  pose proof (get_string_map m) as Hg. pose proof (string_map_members m) as Hs.
  revert Hg Hs. unfold obj at 1. cbn [get]. unfold obj. cbn [as_object default from_option id].
  set (l := fold_left _ _ _). intros Hg Hs. cbn. f_equal. apply map_eq. intros k.
  rewrite lookup_string_members by done. rewrite Hg. by destruct (m !! k).
Qed.

(** ** Exactness of the bodies that are built *)

Lemma exact_insert k v m :
  exact (Obj m) = true -> exact v = true -> exact (Obj (Json.insert k v m)) = true.
Proof.
  cbn [exact]. intros [Hk Hm]%andb_prop Hv. apply andb_true_intro. split; [by apply keys_sorted_insert|].
  apply forallb_forall. intros kv Hkv. apply list_elem_of_In, elem_of_json_insert in Hkv as [->|Hkv]; [done|].
  rewrite forallb_forall in Hm. by apply Hm, list_elem_of_In.
Qed.

Lemma exact_obj l : forallb (fun kv => exact (snd kv)) l = true -> exact (obj l) = true.
Proof.
  unfold obj. enough (forall m, exact (Obj m) = true -> forallb (fun kv => exact (snd kv)) l = true ->
    exact (Obj (fold_left (fun m kv => Json.insert (fst kv) (snd kv) m) l m)) = true) as He by (by apply He).
  induction l as [|[k v] l IH]; intros m Hm; [done|]. cbn [forallb fst snd fold_left].
  intros [Hv Hl]%andb_prop. apply IH; [by apply exact_insert|done].
Qed.

Lemma exact_set k v b : is_object b = true -> exact b = true -> exact v = true -> exact (set k v b) = true.
Proof. destruct b; try done. intros _. apply exact_insert. Qed.

Lemma exact_set_opt k o b :
  is_object b = true -> exact b = true -> (forall v, o = Some v -> exact v = true) ->
  exact (set_opt k o b) = true.
Proof. intros Ho Hb Hv. destruct o; [|done]. cbn. apply exact_set; auto. Qed.

Create HintDb body.
#[export] Hint Resolve is_object_set is_object_set_opt : body.
#[export] Hint Extern 1 (is_object (obj _) = true) => reflexivity : body.
#[export] Hint Extern 1 (_ <> _) => discriminate : body.

(** Reads a member through the assignments of other members. *)
Ltac read_member :=
  repeat first
    [ rewrite get_set_opt_ne by auto with body
    | rewrite get_set_ne by auto with body
    | rewrite get_set_eq by auto with body
    | rewrite get_set_opt_eq by auto with body
    | rewrite get_obj ].

(** Reads the members of a literal. *)
Ltac compare_keys :=
  repeat (cbn -[String.compare]; match goal with
    | |- context [String.compare ?a ?b] =>
        let r := eval vm_compute in (String.compare a b) in
        change (String.compare a b) with r
    end); cbn -[String.compare].

(** ** Changing values in place

    The [&mut] operations of [serde_json::Value] the code uses: members changed
    through [get_mut], removed, or assigned by [value[k] = v].  Each returns the
    value and whether it was changed, as the callers count. *)

(** [map.remove(k)] *)
Definition remove_member (k : string) (m : list (string * Value)) : list (string * Value) :=
  List.filter (fun kv => negb (String.eqb (fst kv) k)) m.

Lemma assoc_remove_member k k' m :
  assoc k' (remove_member k m) = if String.eqb k' k then None else assoc k' m.
Proof.
  unfold remove_member. induction m as [|[k0 v0] m IH]; cbn; [by destruct (String.eqb k' k)|].
  destruct (String.eqb_spec k0 k) as [->|Hne]; cbn; rewrite IH.
  - by destruct (String.eqb_spec k' k).
  - destruct (String.eqb_spec k' k0) as [->|]; [|done].
    by destruct (String.eqb_spec k0 k) as [->|].
Qed.

Definition is_some {A} (o : option A) : bool := match o with Some _ => true | None => false end.

(** A member that exists gets another value. *)
Fixpoint replace {A} (k : string) (v : A) (m : list (string * A)) : list (string * A) :=
  match m with
  | [] => []
  | (k', v') :: r => if String.eqb k k' then (k', v) :: r else (k', v') :: replace k v r
  end.

(** [if let Some(x) = value.get_mut(k) { changed |= f(x) }] *)
Definition on_member (k : string) (f : Value -> Value * bool) (v : Value) : Value * bool :=
  match v with
  | Obj m =>
      match assoc k m with
      | Some x => let '(x', b) := f x in (Obj (replace k x' m), b)
      | None => (v, false)
      end
  | _ => (v, false)
  end.

(** [for item in value.as_array_mut() { changed |= f(item) }] *)
Definition on_items (f : Value -> Value * bool) (v : Value) : Value * bool :=
  match v with
  | Arr l => (Arr (map (fun x => fst (f x)) l), existsb (fun x => snd (f x)) l)
  | _ => (v, false)
  end.

(** [object.remove(k).is_some()] *)
Definition remove_field (k : string) (v : Value) : Value * bool :=
  match v with
  | Obj m => if is_some (assoc k m) then (Obj (remove_member k m), true) else (v, false)
  | _ => (v, false)
  end.

(** [changed |= g(value)] *)
Definition also (g : Value -> Value * bool) (vb : Value * bool) : Value * bool :=
  let '(v', b) := g (fst vb) in (v', snd vb || b).

Definition remove_fields (ks : list string) (v : Value) : Value * bool :=
  fold_left (fun vb k => also (remove_field k) vb) ks (v, false).

(** [value[k] = x] *)
Definition index_set (k : string) (x : Value) (v : Value) : run Value :=
  match v with
  | Obj m => Ok (Obj (Json.insert k x m))
  | Null => Ok (Obj [(k, x)])
  | _ => Err NotAnObject
  end.

(** ** Lemmas *)

Lemma assoc_replace {A} k k' (x : A) m :
  assoc k' (replace k x m) = if String.eqb k' k then (fun _ => x) <$> assoc k' m else assoc k' m.
Proof.
  induction m as [|[k0 v0] m IH]; cbn; [by destruct (String.eqb k' k)|].
  destruct (String.eqb_spec k k0) as [->|Hne]; cbn.
  - by destruct (String.eqb_spec k' k0).
  - rewrite IH. destruct (String.eqb_spec k' k0) as [->|]; [|done].
    by destruct (String.eqb_spec k0 k) as [->|].
Qed.

Lemma replace_same {A} k (x : A) m : assoc k m = Some x -> replace k x m = m.
Proof.
  induction m as [|[k0 v0] m IH]; cbn; [done|].
  destruct (String.eqb k k0); [by intros [= ->]|]. intros E. by rewrite IH.
Qed.

Lemma replace_keys {A} k (x : A) m : (replace k x m).*1 = m.*1.
Proof.
  induction m as [|[k0 v0] m IH]; cbn; [done|]. destruct (String.eqb k k0); cbn; [done|].
  by rewrite IH.
Qed.

(** Functions whose answer [false] means that nothing was changed. *)
Definition honest (f : Value -> Value * bool) : Prop := forall v, snd (f v) = false -> fst (f v) = v.

Lemma on_member_honest k f : honest f -> honest (on_member k f).
Proof.
  intros Hf v. destruct v as [| | | | |m]; try done. cbn.
  destruct (assoc k m) as [x|] eqn:E; [|done]. specialize (Hf x). destruct (f x) as [x' b]. cbn in *.
  intros ->. by rewrite Hf, replace_same.
Qed.

Lemma on_items_honest f : honest f -> honest (on_items f).
Proof.
  intros Hf v. destruct v as [| | | |l|]; try done. cbn. intros Hb. f_equal.
  induction l as [|x l IH]; cbn in *; [done|]. apply orb_false_iff in Hb as [Hx Hl].
  by rewrite (Hf _ Hx), IH.
Qed.

Lemma remove_field_honest k : honest (remove_field k).
Proof. intros v. destruct v as [| | | | |m]; try done. cbn. by destruct (is_some _). Qed.

Lemma also_honest f g v : honest f -> honest g -> snd (also g (f v)) = false -> fst (also g (f v)) = v.
Proof.
  intros Hf Hg. unfold also. destruct (g (fst (f v))) as [v' b] eqn:E. cbn.
  intros [Hb ->]%orb_false_iff. specialize (Hg (fst (f v))). rewrite E in Hg. cbn in Hg.
  by rewrite Hg, (Hf _ Hb).
Qed.

Lemma remove_fields_app ks v b :
  fold_left (fun vb k => also (remove_field k) vb) ks (v, b)
  = (fst (remove_fields ks v), b || snd (remove_fields ks v)).
Proof.
  unfold remove_fields. revert v b. induction ks as [|k ks IH]; intros v b; cbn.
  - by rewrite orb_false_r.
  - unfold also at 2 4 6. cbn [fst snd]. destruct (remove_field k v) as [v' b'].
    rewrite (IH v' (b || b')), (IH v' (false || b')). cbn. by rewrite orb_assoc.
Qed.

Lemma remove_fields_cons k ks v :
  remove_fields (k :: ks) v
  = (fst (remove_fields ks (fst (remove_field k v))),
     snd (remove_field k v) || snd (remove_fields ks (fst (remove_field k v)))).
Proof.
  unfold remove_fields at 1. cbn. unfold also. cbn. destruct (remove_field k v) as [v' b]. cbn.
  by rewrite remove_fields_app.
Qed.

Lemma remove_fields_honest ks : honest (remove_fields ks).
Proof.
  induction ks as [|k ks IH]; intros v; [done|]. rewrite remove_fields_cons. cbn.
  intros [Hb Hs]%orb_false_iff. by rewrite (IH _ Hs), remove_field_honest.
Qed.

Lemma get_remove_field k k' v :
  get k' (fst (remove_field k v)) = if String.eqb k' k then None else get k' v.
Proof.
  destruct v as [| | | | |m]; cbn; try by destruct (String.eqb k' k).
  destruct (assoc k m) eqn:E; cbn; [apply assoc_remove_member|].
  destruct (String.eqb_spec k' k) as [->|]; [done|done].
Qed.

Lemma get_remove_fields ks k v :
  get k (fst (remove_fields ks v)) = if existsb (String.eqb k) ks then None else get k v.
Proof.
  revert v. induction ks as [|k0 ks IH]; intros v; [done|]. rewrite remove_fields_cons. cbn.
  rewrite IH, get_remove_field. destruct (String.eqb k k0); cbn; [by destruct (existsb _ _)|done].
Qed.

Lemma remove_fields_absent ks v :
  (forall k, In k ks -> get k v = None) -> remove_fields ks v = (v, false).
Proof.
  induction ks as [|k ks IH]; intros Ha; [done|]. rewrite remove_fields_cons.
  assert (remove_field k v = (v, false)) as ->.
  { specialize (Ha k (or_introl eq_refl)). destruct v as [| | | | |m]; try done. cbn in *.
    by rewrite Ha. }
  cbn. rewrite IH; [done|]. intros k' Hk. apply Ha. by right.
Qed.

Lemma get_on_member k k' f v :
  get k' (fst (on_member k f v))
  = if String.eqb k' k then (fun x => fst (f x)) <$> get k' v else get k' v.
Proof.
  destruct v as [| | | | |m]; cbn; try by destruct (String.eqb k' k).
  destruct (assoc k m) as [x|] eqn:E.
  - destruct (f x) as [x' b] eqn:Ef. cbn. rewrite assoc_replace.
    destruct (String.eqb_spec k' k) as [->|]; [|done]. rewrite E. cbn. by rewrite Ef.
  - cbn. destruct (String.eqb_spec k' k) as [->|]; [|done]. by rewrite E.
Qed.

Lemma get_index_set k k' x v v' :
  index_set k x v = Ok v' -> get k' v' = if String.eqb k' k then Some x else get k' v.
Proof.
  destruct v as [| | | | |m]; cbn; try discriminate; intros [= <-]; cbn.
  - by destruct (String.eqb k' k).
  - by rewrite assoc_insert.
Qed.

#[global] Arguments remove_fields : simpl never.
