(* ===== verification/Telemetry.v ===== *)
(** * Telemetry: request outcomes and error classes

    [crates/core/src/telemetry/mod.rs]: the closed sets stored in the request
    log, their string forms, and the tier that tells a business-level failure
    from an abnormal termination. *)

From stdpp Require Import base option list strings.
From S2P Require Import Prelude.

Local Open Scope string_scope.

Inductive RequestStatus := Success | Failed | Abnormal.

#[export] Instance RequestStatus_eq_dec : EqDecision RequestStatus.
Proof. solve_decision. Defined.

Module RequestStatus.
Definition as_str (s : RequestStatus) : string :=
  match s with
  | Success => "success"
  | Failed => "failed"
  | Abnormal => "abnormal"
  end.

Definition parse_str (s : string) : option RequestStatus :=
  if String.eqb s "success" || String.eqb s "ok" then Some Success
  else if String.eqb s "failed" then Some Failed
  else if String.eqb s "abnormal" then Some Abnormal
  else if String.eqb s "error" then Some Failed
  else None.
End RequestStatus.

Inductive ErrorTier := TierFailed | TierAbnormal.

Definition status_of_tier (t : ErrorTier) : RequestStatus :=
  match t with
  | TierFailed => Failed
  | TierAbnormal => Abnormal
  end.

(** The constructors carry the prefix [R] to keep them apart from those of
    [ErrorClass], which shares most names. *)
Inductive RequestErrorClass :=
| RTransient
| RRateLimited
| RUpstreamAuth
| RBadRequest
| RLossyOrCapability
| RCircuitBreaker
| RDeadlineExceeded
| RUpstreamExhausted
| RAuthMissing
| RAuthInvalid
| RAuthDisabled
| RModelAccessDenied
| RInternalError
| RClientDisconnect
| RQuotaExceeded
| RDecodeError
| RRouteNotFound.

#[export] Instance RequestErrorClass_eq_dec : EqDecision RequestErrorClass.
Proof. solve_decision. Defined.

Module RequestErrorClass.
Definition as_str (c : RequestErrorClass) : string :=
  match c with
  | RTransient => "transient"
  | RRateLimited => "rate_limited"
  | RUpstreamAuth => "upstream_auth"
  | RBadRequest => "bad_request"
  | RLossyOrCapability => "lossy_or_capability"
  | RCircuitBreaker => "circuit_breaker"
  | RDeadlineExceeded => "deadline_exceeded"
  | RUpstreamExhausted => "upstream_exhausted"
  | RAuthMissing => "auth_missing"
  | RAuthInvalid => "auth_invalid"
  | RAuthDisabled => "auth_disabled"
  | RModelAccessDenied => "model_access_denied"
  | RInternalError => "internal_error"
  | RClientDisconnect => "client_disconnect"
  | RQuotaExceeded => "quota_exceeded"
  | RDecodeError => "decode_error"
  | RRouteNotFound => "route_not_found"
  end.

Definition parse_str (s : string) : option RequestErrorClass :=
  let eqs x := String.eqb s x in
  if eqs "transient" || eqs "Transient" then Some RTransient
  else if eqs "rate_limited" || eqs "RateLimited" then Some RRateLimited
  else if eqs "upstream_auth" || eqs "Auth" then Some RUpstreamAuth
  else if eqs "bad_request" || eqs "BadRequest" then Some RBadRequest
  else if eqs "lossy_or_capability" || eqs "LossyOrCapability" then Some RLossyOrCapability
  else if eqs "circuit_breaker" || eqs "CircuitBreaker" then Some RCircuitBreaker
  else if eqs "deadline_exceeded" || eqs "DeadlineExceeded" then Some RDeadlineExceeded
  else if eqs "upstream_exhausted" then Some RUpstreamExhausted
  else if eqs "auth_missing" then Some RAuthMissing
  else if eqs "auth_invalid" then Some RAuthInvalid
  else if eqs "auth_disabled" then Some RAuthDisabled
  else if eqs "model_access_denied" then Some RModelAccessDenied
  else if eqs "internal_error" then Some RInternalError
  else if eqs "client_disconnect" then Some RClientDisconnect
  else if eqs "quota_exceeded" then Some RQuotaExceeded
  else if eqs "decode_error" then Some RDecodeError
  else if eqs "route_not_found" then Some RRouteNotFound
  else None.

Definition tier (c : RequestErrorClass) : ErrorTier :=
  match c with
  | RInternalError | RClientDisconnect => TierAbnormal
  | _ => TierFailed
  end.
End RequestErrorClass.

(** The status column and the class column of the request log both survive a
    write and a read: parsing undoes printing, for every value. *)
Theorem log_strings_roundtrip :
  (forall s, RequestStatus.parse_str (RequestStatus.as_str s) = Some s)
  /\ (forall c, RequestErrorClass.parse_str (RequestErrorClass.as_str c) = Some c).
Proof. split; intros []; reflexivity. Qed.

Lemma class_as_str_inj c d :
  RequestErrorClass.as_str c = RequestErrorClass.as_str d -> c = d.
Proof.
  intros H. apply (f_equal RequestErrorClass.parse_str) in H.
  rewrite !(proj2 log_strings_roundtrip) in H. congruence.
Qed.
