(* ===== verification/Protocol.v ===== *)
(** * Protocol: protocol identities and endpoint capabilities

    [crates/core/src/protocol/mod.rs]: the protocol suites, the three-segment
    endpoint identity, the capability record that drives the lossy-conversion
    check, and the core error type. *)

From stdpp Require Import base option list strings.
From Stdlib Require Import Ascii.
From S2P Require Import Prelude RustStr.

Local Open Scope string_scope.

Inductive ProtocolSuite :=
| OpenAiCompatible
| OpenAiResponses
| AnthropicMessages
| GoogleGemini.

#[export] Instance ProtocolSuite_eq_dec : EqDecision ProtocolSuite.
Proof. solve_decision. Defined.

Record ProtocolEndpoint := mk_endpoint {
  suite : ProtocolSuite;
  pe_name : string;
  pe_version : string;
}.

#[export] Instance ProtocolEndpoint_eq_dec : EqDecision ProtocolEndpoint.
Proof. solve_decision. Defined.

Module ProtocolSuite.
Definition label (s : ProtocolSuite) : string :=
  match s with
  | OpenAiCompatible => "openai-compatible"
  | OpenAiResponses => "openai-responses"
  | AnthropicMessages => "anthropic-messages"
  | GoogleGemini => "google-gemini"
  end.

Definition default_endpoint_id (s : ProtocolSuite) : string * string :=
  match s with
  | OpenAiCompatible => ("chat-completions", "v1")
  | OpenAiResponses => ("responses", "v1")
  | AnthropicMessages => ("messages", "2023-06-01")
  | GoogleGemini => ("generateContent", "v1beta")
  end.

Definition default_endpoint (s : ProtocolSuite) : ProtocolEndpoint :=
  let '(name, version) := default_endpoint_id s in mk_endpoint s name version.

Definition upstream_path_suffix (s : ProtocolSuite) : option string :=
  match s with
  | OpenAiCompatible => Some "/chat/completions"
  | OpenAiResponses => Some "/responses"
  | AnthropicMessages => Some "/messages"
  | GoogleGemini => None
  end.

(** The derived [Debug] output: the variant's name. *)
Definition debug (s : ProtocolSuite) : string :=
  match s with
  | OpenAiCompatible => "OpenAiCompatible"
  | OpenAiResponses => "OpenAiResponses"
  | AnthropicMessages => "AnthropicMessages"
  | GoogleGemini => "GoogleGemini"
  end.
End ProtocolSuite.

Module ProtocolEndpoint.
Section WithLower.
Context `{Lowercase}.

Definition canonical (e : ProtocolEndpoint) : string :=
  replace_char "_"%char "-" (to_lowercase (ProtocolSuite.debug (suite e) +:+ "/" +:+ pe_name e)).

Definition full_id (e : ProtocolEndpoint) : string :=
  canonical e +:+ "/" +:+ pe_version e.
End WithLower.
End ProtocolEndpoint.

Record StreamCaps := {
  server_sent_events : bool;
  usage_in_stream : bool;
  requires_stream_flag : bool;
}.

Inductive UnknownFieldPolicy := Supported | DropUnknown.

Record EndpointCapabilities := {
  streaming : bool;
  cap_tools : bool;
  cap_reasoning : bool;
  embeddings : bool;
  force_upstream_stream : bool;
  override_model_in_body : bool;
  ingress_routes : list (string * string);
  multimodal : bool;
  structured_output : bool;
  function_calling : bool;
  parallel_tool_calls : bool;
  hosted_tools : bool;
  programmatic_tool_calling : bool;
  extended_reasoning : bool;
  deterministic_seed : bool;
  tool_choice_required : bool;
  cap_stream : StreamCaps;
  unknown_field_policy : UnknownFieldPolicy;
  lossy_default_reject : bool;
}.

Module EndpointCapabilities.
Definition EMPTY : EndpointCapabilities := {|
  streaming := false; cap_tools := false; cap_reasoning := false; embeddings := false;
  force_upstream_stream := false; override_model_in_body := false; ingress_routes := [];
  multimodal := false; structured_output := false; function_calling := false;
  parallel_tool_calls := false; hosted_tools := false; programmatic_tool_calling := false;
  extended_reasoning := false; deterministic_seed := false; tool_choice_required := false;
  cap_stream := {| server_sent_events := false; usage_in_stream := false;
                   requires_stream_flag := false |};
  unknown_field_policy := DropUnknown; lossy_default_reject := true |}.

Definition CHAT_STANDARD : EndpointCapabilities := {|
  streaming := true; cap_tools := true; cap_reasoning := true; embeddings := false;
  force_upstream_stream := false; override_model_in_body := false;
  ingress_routes := [("POST", "/v1/chat/completions")];
  multimodal := true; structured_output := true; function_calling := true;
  parallel_tool_calls := true; hosted_tools := false; programmatic_tool_calling := false;
  extended_reasoning := false; deterministic_seed := false; tool_choice_required := true;
  cap_stream := {| server_sent_events := true; usage_in_stream := true;
                   requires_stream_flag := true |};
  unknown_field_policy := DropUnknown; lossy_default_reject := true |}.
End EndpointCapabilities.

(** The core error type, with the [Display] text of each variant. *)
Inductive Error :=
| ECodec (s : string)
| EPipeline (s : string)
| ERouting (s : string)
| EProvider (s : string)
| EExecutor (s : string)
| EAuth (s : string)
| ETelemetry (s : string)
| ELossyRejection (s : string)
| EOther (s : string).

Definition error_to_string (e : Error) : string :=
  match e with
  | ECodec s => "protocol codec error: " +:+ s
  | EPipeline s => "pipeline error: " +:+ s
  | ERouting s => "routing error: " +:+ s
  | EProvider s => "provider error: " +:+ s
  | EExecutor s => "executor error: " +:+ s
  | EAuth s => "auth error: " +:+ s
  | ETelemetry s => "telemetry error: " +:+ s
  | ELossyRejection s => "lossy conversion rejected: " +:+ s
  | EOther s => s
  end.

Inductive PassThroughPolicy := Passthrough | Convert.

Lemma default_endpoint_suite s : suite (ProtocolSuite.default_endpoint s) = s.
Proof. by destruct s. Qed.
