(* ===== verification/Classify.v ===== *)
(** * Classify: error classes and the fallback policy

    [crates/core/src/routing/mod.rs]: [ErrorClass],
    its mapping to the request log and to HTTP, the classification of upstream
    errors by status and code or by message, and [DefaultFallbackPolicy]. *)

From stdpp Require Import base option list strings.
From Stdlib Require Import ZArith Lia.
From S2P Require Import Prelude RustStr Telemetry Protocol.

Local Open Scope string_scope.

Inductive ErrorClass :=
| Transient
| RateLimited
| Auth
| BadRequest
| LossyOrCapability
| ModelNotFound
| DeadlineExceeded
| UpstreamExhausted
| AuthMissing
| AuthInvalid
| AuthDisabled
| ModelAccessDenied
| Overloaded.

#[export] Instance ErrorClass_eq_dec : EqDecision ErrorClass.
Proof. solve_decision. Defined.

Module ErrorClass.
Definition to_request_class (c : ErrorClass) : RequestErrorClass :=
  match c with
  | Transient => RTransient
  | RateLimited => RRateLimited
  | Auth => RUpstreamAuth
  | BadRequest => RBadRequest
  | LossyOrCapability => RLossyOrCapability
  | ModelNotFound => RRouteNotFound
  | DeadlineExceeded => RDeadlineExceeded
  | UpstreamExhausted => RUpstreamExhausted
  | AuthMissing => RAuthMissing
  | AuthInvalid => RAuthInvalid
  | AuthDisabled => RAuthDisabled
  | ModelAccessDenied => RModelAccessDenied
  | Overloaded => RInternalError
  end.

Definition http_status (c : ErrorClass) : Z :=
  match c with
  | Transient => 502
  | RateLimited => 429
  | Auth => 401
  | BadRequest => 400
  | LossyOrCapability => 400
  | ModelNotFound => 404
  | DeadlineExceeded => 504
  | UpstreamExhausted => 502
  | AuthMissing => 401
  | AuthInvalid => 401
  | AuthDisabled => 403
  | ModelAccessDenied => 403
  | Overloaded => 503
  end.
End ErrorClass.

Record ErrorClassification := {
  class : RequestErrorClass;
  fallback_class : ErrorClass;
  retry_after : option Z;
  ec_http_status : option Z;
}.

Inductive FallbackDecision := TryNext | Retry | Fail.

#[export] Instance FallbackDecision_eq_dec : EqDecision FallbackDecision.
Proof. solve_decision. Defined.

Section Classification.
Context `{Lowercase}.

(** The status table of [classify_upstream_error]. *)
Definition class_of_status (status : Z) : option ErrorClass :=
  if Z.eqb status 429 then Some RateLimited
  else if Z.eqb status 401 || Z.eqb status 403 then Some Auth
  else if Z.eqb status 400 || Z.eqb status 422 then Some BadRequest
  else if Z.eqb status 404 then Some ModelNotFound
  else if Z.eqb status 503 then Some Overloaded
  else if Z.eqb status 504 then Some DeadlineExceeded
  else None.

(** The substring scan of the error code. *)
Definition class_of_code (code : string) : option ErrorClass :=
  let lower := to_lowercase code in
  let has p := contains p lower in
  let eqs p := String.eqb lower p in
  if has "rate_limit" || has "quota" || eqs "429" || eqs "resource_exhausted"
  then Some RateLimited
  else if has "auth" || eqs "401" || eqs "403" || has "invalid_api_key"
          || has "permission" || has "unauthenticated"
  then Some Auth
  else if has "bad_request" || eqs "400" || has "invalid_argument" || has "invalid_request"
  then Some BadRequest
  else if has "overloaded" || has "service_unavailable" || eqs "529" || eqs "503"
          || eqs "unavailable"
  then Some Overloaded
  else if has "timeout" || has "deadline" then Some DeadlineExceeded
  else if has "not_found" || has "model_not_found" || eqs "404" then Some ModelNotFound
  else None.

Definition classify_upstream_error (upstream_status : option Z) (upstream_code : option string)
  : ErrorClass :=
  match upstream_status ≫= class_of_status with
  | Some c => c
  | None => default Transient (upstream_code ≫= class_of_code)
  end.

Definition classify_structured (upstream_status : option Z) (upstream_code : option string)
  : ErrorClassification :=
  let fc := classify_upstream_error upstream_status upstream_code in
  {| class := ErrorClass.to_request_class fc; fallback_class := fc;
     retry_after := None; ec_http_status := upstream_status |}.

Definition classify_error (error : Error) : ErrorClassification :=
  let msg := to_lowercase (error_to_string error) in
  let has p := contains p msg in
  let mk c fc st := {| class := c; fallback_class := fc; retry_after := None;
                       ec_http_status := st |} in
  if has "429" || has "rate limit" || has "rate_limited"
  then mk RRateLimited RateLimited (Some 429)%Z
  else if has "401" || has "403" || has "unauthorized"
  then mk RUpstreamAuth Auth (Some 401)%Z
  else if has "400" || has "422" || has "bad request"
  then mk RBadRequest BadRequest (Some 400)%Z
  else if has "lossy" || has "capability" || has "unsupported"
  then mk RLossyOrCapability LossyOrCapability None
  else mk RTransient Transient None.

(** ** The default fallback policy *)

Record RetryPolicy := {
  max_retries : Z;
  base_delay_ns : Z;
  max_delay_ns : Z;
}.

Record DefaultFallbackPolicy := {
  max_total_attempts : nat;
  deadline_ns : Z;
  retry_policy : RetryPolicy;
}.

Definition ns_per_sec : Z := 1000000000.

Definition RetryPolicy_with_defaults : RetryPolicy :=
  {| max_retries := 2; base_delay_ns := 1 * ns_per_sec; max_delay_ns := 30 * ns_per_sec |}.

Definition DefaultFallbackPolicy_with_defaults : DefaultFallbackPolicy :=
  {| max_total_attempts := 10; deadline_ns := 120 * ns_per_sec;
     retry_policy := RetryPolicy_with_defaults |}.

(** The decision table on the class. *)
Definition decide_class (c : ErrorClass) : FallbackDecision :=
  match c with
  | Transient | RateLimited | Auth => TryNext
  | BadRequest | LossyOrCapability | ModelNotFound | AuthMissing | AuthInvalid
  | AuthDisabled | ModelAccessDenied | UpstreamExhausted => Fail
  | DeadlineExceeded | Overloaded => TryNext
  end.

(** [FallbackPolicy::classify] of the default policy; the target argument is
    unused in the code. *)
Definition classify (p : DefaultFallbackPolicy) (error : Error)
    (attempt max_attempts : nat) (bytes_emitted : Z) : FallbackDecision :=
  if (0 <? bytes_emitted)%Z then Fail
  else if (Nat.min max_attempts (max_total_attempts p) <=? attempt)%nat then Fail
  else decide_class (fallback_class (classify_error error)).
End Classification.
