(* ===== verification/Health.v ===== *)
(** * Health: the circuit breaker of routing targets

    [HealthRegistry] of [crates/core/src/routing/mod.rs]: consecutive failures
    and cooling per target, the escalating recovery window, and the latency
    average.  Time is an argument: an [Instant] is a number of nanoseconds,
    and every operation takes the value [Instant::now()] returns in it. *)

From stdpp Require Import base option list gmap strings.
From Stdlib Require Import ZArith Lia.
From S2P Require Import Prelude F64 Classify.

Local Open Scope Z_scope.

Inductive RoutingTargetHealth :=
| Healthy
| CircuitBroken (until : Z)
| Cooling (until : Z).

#[export] Instance RoutingTargetHealth_eq_dec : EqDecision RoutingTargetHealth.
Proof. solve_decision. Defined.

Record TargetHealth := {
  th_consecutive_failures : Z;
  th_last_failure_at : option Z;
  th_cooling_until : option Z;
  th_cooling_reason : option string;
}.

Record LatencyEwma := { ewma : f64; samples : Z }.

Record HealthRegistry := {
  states : gmap string TargetHealth;
  latencies : gmap string LatencyEwma;
  hr_failure_threshold : Z;
  recovery_tiers : list Z;
}.

(** An [Instant] holds at most [i64::MAX] seconds; [Instant + Duration]
    panics beyond. *)
Definition instant_limit : Z := 9223372036854775808 * ns_per_sec.

Definition instant_add (t d : Z) : run Z :=
  if t + d <? instant_limit then Ok (t + d) else Err InstantOverflow.

(** [now.duration_since(t)], zero when [t] is later. *)
Definition duration_since (now t : Z) : Z := sat_sub now t.

Definition fresh_health : TargetHealth :=
  {| th_consecutive_failures := 0; th_last_failure_at := None;
     th_cooling_until := None; th_cooling_reason := None |}.

Definition with_states (r : HealthRegistry) (s : gmap string TargetHealth) : HealthRegistry :=
  {| states := s; latencies := latencies r;
     hr_failure_threshold := hr_failure_threshold r; recovery_tiers := recovery_tiers r |}.

Definition with_latencies (r : HealthRegistry) (l : gmap string LatencyEwma) : HealthRegistry :=
  {| states := states r; latencies := l;
     hr_failure_threshold := hr_failure_threshold r; recovery_tiers := recovery_tiers r |}.

Module HealthRegistry.
Definition new (failure_threshold : Z) (recovery_tiers : list Z) : run HealthRegistry :=
  match recovery_tiers with
  | [] => Err EmptyTiers
  | _ => Ok {| states := ∅; latencies := ∅; hr_failure_threshold := failure_threshold;
               recovery_tiers := recovery_tiers |}
  end.

Definition default_tiers : list Z :=
  [60 * ns_per_sec; 180 * ns_per_sec; 600 * ns_per_sec; 1800 * ns_per_sec].

Definition with_defaults : run HealthRegistry := new 3 default_tiers.

(** The index is in range because [new] refuses an empty tier list. *)
Definition recovery_duration_for (r : HealthRegistry) (consecutive_failures : Z) : Z :=
  let overflow := sat_sub consecutive_failures (hr_failure_threshold r) in
  let tier_index := Nat.min (Z.to_nat overflow) (length (recovery_tiers r) - 1) in
  default 0 (recovery_tiers r !! tier_index).

Definition cooling_at (s : TargetHealth) (now : Z) : bool :=
  match th_cooling_until s with Some until => now <? until | None => false end.

Definition is_healthy (r : HealthRegistry) (target_key : string) (now : Z) : bool :=
  match states r !! target_key with
  | None => true
  | Some state =>
      if cooling_at state now then false
      else (th_consecutive_failures state <? hr_failure_threshold r)
           || match th_last_failure_at state with
              | None => true
              | Some t =>
                  recovery_duration_for r (th_consecutive_failures state)
                  <? duration_since now t
              end
  end.

Definition record_success (r : HealthRegistry) (target_key : string) : HealthRegistry :=
  match states r !! target_key with
  | None => r
  | Some state =>
      with_states r (<[target_key :=
        {| th_consecutive_failures := 0; th_last_failure_at := th_last_failure_at state;
           th_cooling_until := None; th_cooling_reason := None |}]> (states r))
  end.

Definition record_failure (r : HealthRegistry) (target_key : string) (now : Z)
  : HealthRegistry :=
  let state := default fresh_health (states r !! target_key) in
  with_states r (<[target_key :=
    {| th_consecutive_failures := wrap32 (th_consecutive_failures state + 1);
       th_last_failure_at := Some now;
       th_cooling_until := th_cooling_until state;
       th_cooling_reason := th_cooling_reason state |}]> (states r)).

(** The entry exists before the addition that may panic. *)
Definition apply_cooling (r : HealthRegistry) (target_key : string) (now duration : Z)
    (reason : string) : run HealthRegistry :=
  let state := default fresh_health (states r !! target_key) in
  until ← instant_add now duration;
  mret (with_states r (<[target_key :=
    {| th_consecutive_failures := th_consecutive_failures state;
       th_last_failure_at := th_last_failure_at state;
       th_cooling_until := Some until;
       th_cooling_reason := Some reason |}]> (states r))).

Definition health_status (r : HealthRegistry) (target_key : string) (now : Z)
  : run RoutingTargetHealth :=
  match states r !! target_key with
  | None => Ok Healthy
  | Some state =>
      let circuit :=
        if hr_failure_threshold r <=? th_consecutive_failures state then
          match th_last_failure_at state with
          | Some last_failure =>
              recovery_until ← instant_add last_failure
                (recovery_duration_for r (th_consecutive_failures state));
              if now <? recovery_until then Ok (CircuitBroken recovery_until) else Ok Healthy
          | None => Ok Healthy
          end
        else Ok Healthy in
      match th_cooling_until state with
      | Some until => if now <? until then Ok (Cooling until) else circuit
      | None => circuit
      end
  end.

Definition consecutive_failures (r : HealthRegistry) (target_key : string) : Z :=
  default 0 (th_consecutive_failures <$> states r !! target_key).

Definition cooling_reason (r : HealthRegistry) (target_key : string) : option string :=
  states r !! target_key ≫= th_cooling_reason.

Definition failure_threshold (r : HealthRegistry) : Z := hr_failure_threshold r.

Definition reset (r : HealthRegistry) : HealthRegistry :=
  with_latencies (with_states r ∅) ∅.

(** In the iteration order of the map, which the code leaves unspecified. *)
Definition list_targets (r : HealthRegistry) : list string := (map_to_list (states r)).*1.

(** The smoothing constants 0.3 and 0.7 of the code, rounded to binary64. *)
Definition alpha : f64 := f64_lit 5404319552844595 (-54).
Definition one_minus_alpha : f64 := f64_lit 6305039478318694 (-53).

Definition record_latency_ms (r : HealthRegistry) (target_key : string) (latency_ms : Z)
  : HealthRegistry :=
  let entry := default {| ewma := f64_zero; samples := 0 |} (latencies r !! target_key) in
  let e := if samples entry =? 0 then f64_of_Z latency_ms
           else f64_add (f64_mul alpha (f64_of_Z latency_ms))
                        (f64_mul one_minus_alpha (ewma entry)) in
  with_latencies r (<[target_key := {| ewma := e; samples := wrap64 (samples entry + 1) |}]>
                      (latencies r)).

Definition ewma_latency_ms (r : HealthRegistry) (target_key : string) : option Z :=
  (fun l => f64_to_u64 (ewma l)) <$> latencies r !! target_key.

Definition latency_samples (r : HealthRegistry) (target_key : string) : Z :=
  default 0 (samples <$> latencies r !! target_key).
End HealthRegistry.

(** ** Histories

    What happened to the registry, oldest first, and what the code computes
    from it: [replay] runs the operations, and the [history] functions read
    the same answers off the list of events itself, newest first. *)

Inductive health_event :=
| EvSuccess (k : string)
| EvFailure (k : string) (at_ : Z)
| EvCooling (k : string) (at_ duration : Z) (reason : string)
| EvLatency (k : string) (ms : Z).

Definition health_step (r : HealthRegistry) (e : health_event) : run HealthRegistry :=
  match e with
  | EvSuccess k => Ok (HealthRegistry.record_success r k)
  | EvFailure k t => Ok (HealthRegistry.record_failure r k t)
  | EvCooling k t d why => HealthRegistry.apply_cooling r k t d why
  | EvLatency k ms => Ok (HealthRegistry.record_latency_ms r k ms)
  end.

Fixpoint replay (r : HealthRegistry) (tr : list health_event) : run HealthRegistry :=
  match tr with
  | [] => Ok r
  | e :: rest => r' ← health_step r e; replay r' rest
  end.

Section History.
Context (k : string).

Definition is_success (e : health_event) : bool :=
  match e with EvSuccess k' => String.eqb k' k | _ => false end.
Definition failure_at (e : health_event) : option Z :=
  match e with EvFailure k' t => if String.eqb k' k then Some t else None | _ => None end.
Definition cooling_of (e : health_event) : option (Z * string) :=
  match e with
  | EvCooling k' t d why => if String.eqb k' k then Some (t + d, why) else None
  | _ => None
  end.

(** The events after the last success of [k]. *)
Fixpoint since_success (h : list health_event) : list health_event :=
  match h with
  | [] => []
  | e :: r => if is_success e then [] else e :: since_success r
  end.

Definition failures_in (h : list health_event) : nat :=
  length (omap failure_at (since_success h)).
Definition last_failure_in (h : list health_event) : option Z := head (omap failure_at h).
Definition cooling_in (h : list health_event) : option (Z * string) :=
  head (omap cooling_of (since_success h)).

(** The recovery window after [n] failures in a row, [thr] of which open the
    circuit: one tier per failure beyond the threshold, the last tier for
    ever. *)
Definition window (thr : Z) (tiers : list Z) (n : Z) : Z :=
  default (default 0 (last tiers)) (tiers !! Z.to_nat (n - thr)).

Definition healthy_in (thr : Z) (tiers : list Z) (h : list health_event) (now : Z) : bool :=
  let n := wrap32 (Z.of_nat (failures_in h)) in
  match cooling_in h with
  | Some (until, _) => until <=? now
  | None => true
  end
  && ((n <? thr)
      || match last_failure_in h with
         | None => true
         | Some t => window thr tiers n <? duration_since now t
         end).
End History.

(** ** Lemmas *)

(** What the registry knows of a target. *)
Definition view (r : HealthRegistry) (k : string) : TargetHealth :=
  default fresh_health (states r !! k).

Definition view_in (k : string) (h : list health_event) : TargetHealth :=
  {| th_consecutive_failures := wrap32 (Z.of_nat (failures_in k h));
     th_last_failure_at := last_failure_in k h;
     th_cooling_until := fst <$> cooling_in k h;
     th_cooling_reason := snd <$> cooling_in k h |}.

Lemma replay_app r tr1 tr2 : replay r (tr1 ++ tr2) = (r' ← replay r tr1; replay r' tr2).
Proof.
  revert r. induction tr1 as [|e tr1 IH]; intros r; [done|]. cbn.
  destruct (health_step r e); cbn; [apply IH|done].
Qed.

Lemma wrap32_succ n : wrap32 (wrap32 (Z.of_nat n) + 1) = wrap32 (Z.of_nat (S n)).
Proof. unfold wrap32. rewrite Zplus_mod_idemp_l. f_equal. lia. Qed.

Lemma instant_add_ok t d u : instant_add t d = Ok u -> u = t + d.
Proof. unfold instant_add. destruct (_ <? _); congruence. Qed.

Lemma health_step_config r e r' :
  health_step r e = Ok r' ->
  hr_failure_threshold r' = hr_failure_threshold r /\ recovery_tiers r' = recovery_tiers r.
Proof.
  destruct e; cbn; unfold HealthRegistry.record_success, HealthRegistry.apply_cooling.
  - destruct (states r !! k); by intros [= <-].
  - by intros [= <-].
  - destruct (instant_add at_ duration); [by intros [= <-]|done].
  - by intros [= <-].
Qed.

Lemma replay_config r tr r' :
  replay r tr = Ok r' ->
  hr_failure_threshold r' = hr_failure_threshold r /\ recovery_tiers r' = recovery_tiers r.
Proof.
  revert r. induction tr as [|e tr IH]; intros r; cbn; [by intros [= <-]|].
  destruct (health_step r e) as [r1|] eqn:E; [|done]. cbn. intros H.
  destruct (IH _ H) as [-> ->]. by apply health_step_config in E.
Qed.

Lemma health_step_view r e r' k h :
  health_step r e = Ok r' -> view r k = view_in k h -> view r' k = view_in k (e :: h).
Proof.
  intros Hs Hv. unfold view_in, failures_in, last_failure_in, cooling_in.
  destruct e as [k'|k' t|k' t d why|k' ms]; cbn in Hs |- *.
  - unfold HealthRegistry.record_success in Hs.
    destruct (String.eqb_spec k' k) as [->|Hne]; cbn.
    + unfold view in *. destruct (states r !! k) as [s|] eqn:E.
      * injection Hs as <-. cbn. rewrite lookup_insert_eq. cbn in *. by rewrite Hv.
      * injection Hs as <-. rewrite E in *. cbn in *.
        unfold view_in in Hv. injection Hv as _ H2 _ _. cbn. unfold last_failure_in in H2.
        by rewrite <- H2.
    + unfold view in *. destruct (states r !! k') eqn:E; injection Hs as <-; [|done].
      cbn. rewrite lookup_insert_ne by done. done.
  - unfold HealthRegistry.record_failure in Hs. injection Hs as <-. unfold view in *. cbn.
    destruct (String.eqb_spec k' k) as [->|Hne]; cbn.
    + rewrite lookup_insert_eq. cbn. rewrite Hv. cbn. by rewrite wrap32_succ.
    + by rewrite lookup_insert_ne.
  - unfold HealthRegistry.apply_cooling in Hs.
    destruct (instant_add t d) as [u|] eqn:E; [|done]. apply instant_add_ok in E as ->.
    cbn in Hs. injection Hs as <-. unfold view in *. cbn.
    destruct (String.eqb_spec k' k) as [->|Hne]; cbn.
    + rewrite lookup_insert_eq. cbn. by rewrite Hv.
    + by rewrite lookup_insert_ne.
  - injection Hs as <-. exact Hv.
Qed.

Lemma replay_view r tr r' k h :
  replay r tr = Ok r' -> view r k = view_in k h -> view r' k = view_in k (rev tr ++ h).
Proof.
  revert r h. induction tr as [|e tr IH]; intros r h; cbn; [by intros [= <-]|].
  destruct (health_step r e) as [r1|] eqn:E; [|done]. cbn. intros H Hv.
  rewrite <- app_assoc. apply (IH r1); [done|]. by eapply health_step_view.
Qed.

Lemma new_view thr tiers r k : HealthRegistry.new thr tiers = Ok r -> view r k = view_in k [].
Proof. destruct tiers; [done|]. by intros [= <-]. Qed.

Lemma new_config thr tiers r :
  HealthRegistry.new thr tiers = Ok r ->
  hr_failure_threshold r = thr /\ recovery_tiers r = tiers /\ tiers <> [].
Proof. destruct tiers; [done|]. by intros [= <-]. Qed.

Lemma recovery_duration_window r n :
  recovery_tiers r <> [] ->
  HealthRegistry.recovery_duration_for r n = window (hr_failure_threshold r) (recovery_tiers r) n.
Proof.
  intros Hne. unfold HealthRegistry.recovery_duration_for, window, sat_sub.
  assert (0 < length (recovery_tiers r))%nat by (destruct (recovery_tiers r); [done|cbn; lia]).
  replace (Z.to_nat (Z.max (n - hr_failure_threshold r) 0))
    with (Z.to_nat (n - hr_failure_threshold r)) by lia.
  destruct (decide (Z.to_nat (n - hr_failure_threshold r) < length (recovery_tiers r))%nat).
  - rewrite Nat.min_l by lia.
    destruct (lookup_lt_is_Some_2 (recovery_tiers r) (Z.to_nat (n - hr_failure_threshold r)))
      as [d ->]; done.
  - rewrite Nat.min_r by lia. rewrite (lookup_ge_None_2 _ (Z.to_nat _)) by lia. cbn.
    rewrite last_lookup. do 2 f_equal. lia.
Qed.

Lemma is_healthy_view r k now :
  HealthRegistry.is_healthy r k now
  = negb (HealthRegistry.cooling_at (view r k) now)
    && ((th_consecutive_failures (view r k) <? hr_failure_threshold r)
        || match th_last_failure_at (view r k) with
           | None => true
           | Some t => HealthRegistry.recovery_duration_for r (th_consecutive_failures (view r k))
                       <? duration_since now t
           end).
Proof.
  unfold HealthRegistry.is_healthy, view. destruct (states r !! k) as [s|]; cbn.
  - by destruct (HealthRegistry.cooling_at s now).
  - by rewrite orb_true_r.
Qed.

Lemma is_healthy_history thr tiers r0 tr r k now :
  HealthRegistry.new thr tiers = Ok r0 -> replay r0 tr = Ok r ->
  HealthRegistry.is_healthy r k now = healthy_in k thr tiers (rev tr) now.
Proof.
  intros H0 Hr. pose proof (new_config _ _ _ H0) as (Ht & Hs & Hne).
  destruct (replay_config _ _ _ Hr) as [Ht' Hs'].
  rewrite is_healthy_view, recovery_duration_window by congruence.
  rewrite (replay_view _ _ _ k _ Hr (new_view _ _ _ k H0)), app_nil_r.
  unfold healthy_in, HealthRegistry.cooling_at. cbn. rewrite Ht', Hs', Ht, Hs.
  destruct (cooling_in k (rev tr)) as [[u why]|]; cbn; [|done].
  by rewrite <- Z.leb_antisym.
Qed.

Lemma consecutive_failures_view r k :
  HealthRegistry.consecutive_failures r k = th_consecutive_failures (view r k).
Proof. unfold HealthRegistry.consecutive_failures, view. by destruct (states r !! k). Qed.

Lemma cooling_reason_view r k :
  HealthRegistry.cooling_reason r k = th_cooling_reason (view r k).
Proof. unfold HealthRegistry.cooling_reason, view. by destruct (states r !! k). Qed.

Lemma circuit_agrees (thr n now d : Z) (last : option Z) h :
  0 <= d ->
  (if thr <=? n then
     match last with
     | Some t => u ← instant_add t d; if now <? u then Ok (CircuitBroken u) else Ok Healthy
     | None => Ok Healthy
     end
   else Ok Healthy) = Ok h ->
  if (n <? thr) || match last with None => true | Some t => d <? duration_since now t end
  then h = Healthy
  else match h with
       | Cooling until => False
       | CircuitBroken until => now < until
       | Healthy => exists t, last = Some t /\ now = t + d
       end.
Proof.
  intros Hd. rewrite (Z.ltb_antisym thr n). destruct (thr <=? n); cbn; [|by intros [= <-]].
  destruct last as [t|]; [|by intros [= <-]].
  destruct (instant_add t d) as [u|] eqn:E; [|done]. apply instant_add_ok in E as ->. cbn.
  unfold duration_since, sat_sub.
  destruct (now <? t + d) eqn:E1, (d <? Z.max (now - t) 0) eqn:E2; intros [= <-];
    bool_prop; try done; [lia|]. exists t. split; [done|lia].
Qed.

Lemma only_failures k h :
  Forall (fun e => is_Some (failure_at k e)) h ->
  since_success k h = h /\ length (omap (failure_at k) h) = length h
  /\ omap (cooling_of k) h = [].
Proof.
  induction 1 as [|e h [t He] _ (IH1 & IH2 & IH3)]; [done|].
  destruct e as [|k' t'| |]; try done. cbn in *.
  destruct (String.eqb k' k); [|done]. cbn. by rewrite IH1, IH2, IH3.
Qed.

Lemma past_window d t now : 0 <= d -> (d <? Z.max (now - t) 0) = (t + d <? now).
Proof. intros. destruct (t + d <? now) eqn:E; bool_prop; [apply Z.ltb_lt|apply Z.ltb_ge]; lia. Qed.

Lemma window_bound thr tiers B n :
  Forall (fun d => 0 <= d <= B) tiers -> tiers <> [] -> 0 <= window thr tiers n <= B.
Proof.
  intros H Hne. unfold window. rewrite Forall_forall in H.
  destruct (tiers !! _) as [d|] eqn:E; cbn.
  - apply H. by apply list_elem_of_lookup_2 in E.
  - destruct (last tiers) as [d|] eqn:El; cbn.
    + apply H. by apply last_Some_elem_of.
    + by apply last_None in El.
Qed.

Lemma since_success_Forall k (P : health_event -> Prop) h :
  Forall P h -> Forall P (since_success k h).
Proof. induction 1; cbn; [constructor|]. destruct (is_success k x); by constructor. Qed.

(** ** Properties *)

(** C16: The registry forgets nothing and invents nothing.  After any sequence of
    operations on a new registry, what it answers about a target is what the
    history says: the failure count is the number of failures after the last
    success (modulo the width of the counter), the cooling reason is the one of
    the last cooling after the last success, and the target is healthy exactly
    when no cooling is running and the circuit is closed or its recovery window
    has passed.  In particular no operation on another target matters. *)
Theorem registry_refines_history thr tiers r0 tr r k now :
  HealthRegistry.new thr tiers = Ok r0 -> replay r0 tr = Ok r ->
  HealthRegistry.consecutive_failures r k = wrap32 (Z.of_nat (failures_in k (rev tr)))
  /\ HealthRegistry.cooling_reason r k = snd <$> cooling_in k (rev tr)
  /\ HealthRegistry.is_healthy r k now = healthy_in k thr tiers (rev tr) now.
Proof.
  intros H0 Hr. rewrite consecutive_failures_view, cooling_reason_view.
  rewrite (replay_view _ _ _ k _ Hr (new_view _ _ _ k H0)), app_nil_r.
  repeat split. by eapply is_healthy_history.
Qed.

Definition sample_registry : HealthRegistry :=
  {| states := ∅; latencies := ∅; hr_failure_threshold := 3;
     recovery_tiers := HealthRegistry.default_tiers |}.

Definition sample_trace : list health_event :=
  [EvFailure "a:m" 5; EvFailure "b:m" 6; EvFailure "a:m" 7; EvSuccess "b:m"; EvFailure "a:m" 9;
   EvCooling "b:m" 10 100 "rate_limited"].

Definition after_sample : HealthRegistry :=
  match replay sample_registry sample_trace with Ok r => r | Err _ => sample_registry end.

Lemma registry_refines_history_witness :
  HealthRegistry.new 3 HealthRegistry.default_tiers = Ok sample_registry
  /\ replay sample_registry sample_trace = Ok after_sample
  /\ HealthRegistry.consecutive_failures after_sample "a:m" = 3
  /\ HealthRegistry.is_healthy after_sample "a:m" 1000
     = healthy_in "a:m" 3 HealthRegistry.default_tiers (rev sample_trace) 1000
  /\ HealthRegistry.is_healthy after_sample "a:m" 1000 = false.
Proof.
  assert (H0 : HealthRegistry.new 3 HealthRegistry.default_tiers = Ok sample_registry)
    by reflexivity.
  assert (Hr : replay sample_registry sample_trace = Ok after_sample)
    by (vm_compute; reflexivity).
  destruct (registry_refines_history 3 HealthRegistry.default_tiers _ _ _ "a:m" 1000 H0 Hr)
    as (H1 & _ & H3).
  split; [exact H0|]. split; [exact Hr|]. split; [rewrite H1; reflexivity|].
  split; [exact H3|]. rewrite H3. vm_compute. reflexivity.
Defined.

(** The two views of a target's health agree.  Where [health_status] does
    not overflow, a target that [is_healthy] admits has the status [Healthy],
    and one that it refuses has the status [Cooling] or [CircuitBroken] with an
    end in the future, except at the one instant where the recovery window
    closes: there [health_status] already says [Healthy] and [is_healthy] still
    refuses the target. *)
Theorem health_status_agrees r k now h :
  Forall (fun d => 0 <= d) (recovery_tiers r) ->
  HealthRegistry.health_status r k now = Ok h ->
  if HealthRegistry.is_healthy r k now then h = Healthy
  else match h with
       | Cooling until => th_cooling_until (view r k) = Some until /\ now < until
       | CircuitBroken until => now < until
       | Healthy => exists t, th_last_failure_at (view r k) = Some t
           /\ now = t + HealthRegistry.recovery_duration_for r
                          (HealthRegistry.consecutive_failures r k)
       end.
Proof.
  intros Ht Hh. rewrite consecutive_failures_view.
  assert (0 <= HealthRegistry.recovery_duration_for r (th_consecutive_failures (view r k))) as Hd.
  { unfold HealthRegistry.recovery_duration_for. set (i := Nat.min _ _).
    destruct (recovery_tiers r !! i) as [d|] eqn:E; cbn; [|lia].
    rewrite Forall_lookup in Ht. by apply (Ht i). }
  revert Hd Hh. unfold HealthRegistry.is_healthy, HealthRegistry.health_status, view.
  destruct (states r !! k) as [s|]; [|by intros _ [= <-]].
  unfold HealthRegistry.cooling_at, default, id, sat_sub, duration_since. intros Hd.
  destruct (th_cooling_until s) as [u|].
  - destruct (now <? u) eqn:Hu; [intros [= <-]; bool_prop; done|].
    intros Hc. apply (circuit_agrees _ _ _ _ _ _ Hd) in Hc. cbn in *.
    destruct (_ || _); [done|]. by destruct h.
  - intros Hc. apply (circuit_agrees _ _ _ _ _ _ Hd) in Hc. cbn in *.
    destruct (_ || _); [done|]. by destruct h.
Qed.

Definition sample_status_witness_at : Z := 9 + 60 * ns_per_sec.

Lemma health_status_agrees_witness :
  HealthRegistry.health_status after_sample "a:m" sample_status_witness_at = Ok Healthy
  /\ HealthRegistry.is_healthy after_sample "a:m" sample_status_witness_at = false
  /\ exists t, th_last_failure_at (view after_sample "a:m") = Some t
     /\ sample_status_witness_at
        = t + HealthRegistry.recovery_duration_for after_sample
                (HealthRegistry.consecutive_failures after_sample "a:m").
Proof.
  assert (Hs : HealthRegistry.health_status after_sample "a:m" sample_status_witness_at
               = Ok Healthy) by (vm_compute; reflexivity).
  assert (Hu : HealthRegistry.is_healthy after_sample "a:m" sample_status_witness_at = false)
    by (vm_compute; reflexivity).
  split; [exact Hs|]. split; [exact Hu|].
  assert (Ht : Forall (fun d => 0 <= d) (recovery_tiers after_sample))
    by (change (recovery_tiers after_sample) with HealthRegistry.default_tiers;
        unfold HealthRegistry.default_tiers, ns_per_sec;
        repeat apply Forall_cons_2; [lia..|constructor]).
  pose proof (health_status_agrees _ _ _ _ Ht Hs) as H. rewrite Hu in H. exact H.
Defined.

(** The breaker escalates and saturates.  With the default configuration a
    target whose last [m] outcomes are failures, the last one at [t], is
    admitted exactly when [m] is below 3 or the window of [m] has passed: one
    minute at 3 failures, then three, ten and thirty minutes, and thirty
    minutes for any larger [m]. *)
Theorem default_breaker_windows r0 r k ts t now :
  HealthRegistry.with_defaults = Ok r0 ->
  replay r0 (map (EvFailure k) (ts ++ [t])) = Ok r ->
  Z.of_nat (S (length ts)) <= u32_max ->
  HealthRegistry.is_healthy r k now
  = match length ts with
    | 0%nat | 1%nat => true
    | 2%nat => t + 60 * ns_per_sec <? now
    | 3%nat => t + 180 * ns_per_sec <? now
    | 4%nat => t + 600 * ns_per_sec <? now
    | _ => t + 1800 * ns_per_sec <? now
    end.
Proof.
  intros H0 Hr Hlen. rewrite (is_healthy_history _ _ _ _ _ k now H0 Hr).
  rewrite map_app, rev_app_distr. cbn [rev map app].
  unfold healthy_in, cooling_in, failures_in, last_failure_in.
  destruct (only_failures k (rev (map (EvFailure k) ts))) as (Hs & Hf & Hc).
  { apply Forall_rev, Forall_map, Forall_true. cbn. intros; by rewrite String.eqb_refl. }
  cbn [since_success is_success omap list_omap failure_at cooling_of head].
  rewrite String.eqb_refl, Hs, Hc. cbn [head length]. rewrite Hf, length_rev, length_map.
  rewrite wrap32_small by (apply in_u32_iff; lia). cbn [andb].
  unfold duration_since, sat_sub. clear -Hlen.
  destruct (length ts) as [|[|[|[|[|n]]]]]; [done|done|..].
  4: { replace (window 3 HealthRegistry.default_tiers (Z.of_nat (S (S (S (S (S (S n))))))))
         with (1800 * ns_per_sec); [rewrite past_window by done|].
       - by rewrite (proj2 (Z.ltb_ge _ _)) by lia.
       - destruct n as [|n]; [done|]. unfold window. rewrite lookup_ge_None_2; [done|]. change (length HealthRegistry.default_tiers) with 4%nat. lia. }
  all: rewrite (past_window _ t now) by done; reflexivity.
Qed.

Definition sample_breaker : HealthRegistry :=
  match replay sample_registry (map (EvFailure "a:m") [10; 20; 30; 40]) with
  | Ok r => r | Err _ => sample_registry
  end.

Lemma default_breaker_windows_witness :
  HealthRegistry.with_defaults = Ok sample_registry
  /\ replay sample_registry (map (EvFailure "a:m") ([10; 20; 30] ++ [40])) = Ok sample_breaker
  /\ HealthRegistry.is_healthy sample_breaker "a:m" (40 + 180 * ns_per_sec) = false
  /\ HealthRegistry.is_healthy sample_breaker "a:m" (41 + 180 * ns_per_sec) = true.
Proof.
  assert (H0 : HealthRegistry.with_defaults = Ok sample_registry) by reflexivity.
  assert (Hr : replay sample_registry (map (EvFailure "a:m") ([10; 20; 30] ++ [40]))
               = Ok sample_breaker) by (vm_compute; reflexivity).
  assert (Hl : Z.of_nat (S (length [10; 20; 30])) <= u32_max) by (vm_compute; discriminate).
  split; [exact H0|]. split; [exact Hr|]. split.
  - exact (default_breaker_windows _ _ "a:m" _ _ _ H0 Hr Hl).
  - exact (default_breaker_windows _ _ "a:m" _ _ _ H0 Hr Hl).
Defined.

(** C17: No target is lost for ever.  If every failure and cooling of the history
    lies at or before [T], every cooling ends by [T + B] and no tier is longer
    than [B], then after [T + B] every target is admitted again, whatever
    happened to it. *)
Theorem every_target_recovers thr tiers r0 tr r T B k now :
  HealthRegistry.new thr tiers = Ok r0 -> replay r0 tr = Ok r ->
  Forall (fun d => 0 <= d <= B) tiers ->
  Forall (fun e => match e with
                   | EvFailure _ t => t <= T
                   | EvCooling _ t d _ => t + d <= T + B
                   | _ => True
                   end) tr ->
  T + B < now ->
  HealthRegistry.is_healthy r k now = true.
Proof.
  intros H0 Hr Htiers Htr Hnow. rewrite (is_healthy_history _ _ _ _ _ k now H0 Hr).
  apply Forall_rev in Htr. unfold healthy_in, cooling_in, last_failure_in.
  pose proof (window_bound thr tiers B (wrap32 (Z.of_nat (failures_in k (rev tr)))) Htiers
                (proj2 (proj2 (new_config _ _ _ H0)))) as Hw.
  apply andb_true_iff. split.
  - destruct (omap (cooling_of k) (since_success k (rev tr))) as [|[u why] l] eqn:E; [done|].
    cbn. apply Z.leb_le.
    assert (u <= T + B); [|lia].
    eapply (since_success_Forall k) in Htr.
    assert ((u, why) ∈ omap (cooling_of k) (since_success k (rev tr))) as Hin
      by (rewrite E; left).
    apply list_elem_of_omap in Hin as (e & He & Hc).
    rewrite Forall_forall in Htr. specialize (Htr e He).
    destruct e; try done. cbn in Hc. destruct (String.eqb _ _); [|done].
    injection Hc as <- _. exact Htr.
  - apply orb_true_iff. right.
    destruct (omap (failure_at k) (rev tr)) as [|t l] eqn:E; [done|]. cbn.
    assert (t <= T).
    { assert (t ∈ omap (failure_at k) (rev tr)) as Hin by (rewrite E; left).
      apply list_elem_of_omap in Hin as (e & He & Hc).
      rewrite Forall_forall in Htr. specialize (Htr e He).
      destruct e; try done. cbn in Hc. destruct (String.eqb _ _); [|done].
      injection Hc as <-. exact Htr. }
    unfold duration_since, sat_sub. apply Z.ltb_lt. lia.
Qed.

Lemma every_target_recovers_witness :
  HealthRegistry.is_healthy after_sample "b:m" (1000 + 1800 * ns_per_sec) = true.
Proof.
  refine (every_target_recovers 3 HealthRegistry.default_tiers sample_registry sample_trace
            after_sample 110 (1800 * ns_per_sec) "b:m" _ _ _ _ _ _).
  - reflexivity.
  - vm_compute; reflexivity.
  - unfold HealthRegistry.default_tiers, ns_per_sec. repeat apply Forall_cons_2; [lia..|constructor].
  - unfold sample_trace, ns_per_sec. repeat apply Forall_cons_2; [first [exact I|lia]..|constructor].
  - vm_compute. reflexivity.
Defined.

