(* ===== verification/Targets.v ===== *)
(** * Targets: routing targets and the routing table

    [RoutingTarget], [RouteEntry] and [RoutingTable] of
    [crates/core/src/routing/mod.rs], and the OAuth part of a target from
    [crates/core/src/provider/oauth.rs]. *)

From stdpp Require Import base option list gmap strings.
From Stdlib Require Import Ascii.
From S2P Require Import Prelude RustStr F64 Protocol.

Local Open Scope string_scope.

Inductive UpstreamTransport := Http | CodexResponsesWebSocket.
Inductive TokenRequestStyle := Form | Json.
Inductive OAuthEgressProfile := Standard | OpenAiCodex | AnthropicOAuth.

Record OAuthTargetConfig := {
  upstream_transport : UpstreamTransport;
  egress_profile : OAuthEgressProfile;
  token_url : string;
  client_id : string;
  client_secret : option string;
  refresh_token : string;
  scopes : list string;
  token_request_style : TokenRequestStyle;
  authorization_header : option string;
  authorization_prefix : option string;
  extra_headers : list (string * string);
  account_id : option string;
}.

Module OAuthTargetConfig.
Definition header_name (c : OAuthTargetConfig) : string :=
  default "authorization" (authorization_header c).
Definition bearer_prefix (c : OAuthTargetConfig) : string :=
  default "Bearer " (authorization_prefix c).
Definition cache_label (c : OAuthTargetConfig) : string :=
  default "__provider__" (account_id c).
End OAuthTargetConfig.

Record RoutingTarget := {
  provider_id : string;
  vendor : option string;
  model_id : string;
  api_base : string;
  api_key : string;
  api_protocol : ProtocolEndpoint;
  account_label : option string;
  api_key_override : option string;
  api_base_override : option string;
  weight : f64;
  oauth : option OAuthTargetConfig;
}.

Module RoutingTarget.
Definition effective_api_key (t : RoutingTarget) : string :=
  default (api_key t) (api_key_override t).
Definition effective_api_base (t : RoutingTarget) : string :=
  default (api_base t) (api_base_override t).
Definition health_key (t : RoutingTarget) : string :=
  provider_id t +:+ ":" +:+ model_id t.
End RoutingTarget.

(** The targets of the witnesses: everything but the routing fields is empty. *)
Definition sample_target (p m : string) (account : option string) (w : f64) : RoutingTarget :=
  {| provider_id := p; vendor := None; model_id := m; api_base := ""; api_key := "";
     api_protocol := ProtocolSuite.default_endpoint OpenAiCompatible;
     account_label := account; api_key_override := None; api_base_override := None;
     weight := w; oauth := None |}.

Inductive RoutingStrategyName := Weighted | Priority | Cooldown | Latency.

#[export] Instance RoutingStrategyName_eq_dec : EqDecision RoutingStrategyName.
Proof. solve_decision. Defined.

Module RoutingStrategyName.
Definition as_str (s : RoutingStrategyName) : string :=
  match s with
  | Weighted => "weighted"
  | Priority => "priority"
  | Cooldown => "cooldown"
  | Latency => "latency"
  end.

Definition parse (s : string) : option RoutingStrategyName :=
  if String.eqb s "weighted" then Some Weighted
  else if String.eqb s "priority" then Some Priority
  else if String.eqb s "cooldown" then Some Cooldown
  else if String.eqb s "latency" then Some Latency
  else None.
End RoutingStrategyName.

Record RouteEntry := { re_targets : list RoutingTarget; re_strategy : option RoutingStrategyName }.

Module RouteEntry.
Definition new (targets : list RoutingTarget) : RouteEntry :=
  {| re_targets := targets; re_strategy := None |}.
End RouteEntry.

Record RoutingTable := { routes : gmap string RouteEntry }.

Module RoutingTable.
Definition new : RoutingTable := {| routes := ∅ |}.

Definition resolve (t : RoutingTable) (virtual_model : string) : option (list RoutingTarget) :=
  re_targets <$> routes t !! virtual_model.

Definition resolve_strategy (t : RoutingTable) (virtual_model : string)
  : option RoutingStrategyName :=
  routes t !! virtual_model ≫= re_strategy.

Definition resolve_entry (t : RoutingTable) (virtual_model : string) : option RouteEntry :=
  routes t !! virtual_model.

Definition insert_entry (t : RoutingTable) (virtual_model : string) (e : RouteEntry)
  : RoutingTable :=
  {| routes := <[virtual_model := e]> (routes t) |}.

Definition insert (t : RoutingTable) (virtual_model : string) (targets : list RoutingTarget)
  : RoutingTable := insert_entry t virtual_model (RouteEntry.new targets).
End RoutingTable.

(** ** Lemmas *)

(** Providers whose identifiers hold no colon never share a health key. *)
Lemma health_key_inj t u :
  contains_char ":"%char (provider_id t) = false ->
  contains_char ":"%char (provider_id u) = false ->
  RoutingTarget.health_key t = RoutingTarget.health_key u ->
  provider_id t = provider_id u /\ model_id t = model_id u.
Proof.
  unfold RoutingTarget.health_key. intros Ht Hu H.
  pose proof (split_once_app _ _ (model_id t) Ht) as E1.
  pose proof (split_once_app _ _ (model_id u) Hu) as E2.
  change (":" +:+ model_id t) with (String ":"%char (model_id t)) in H.
  change (":" +:+ model_id u) with (String ":"%char (model_id u)) in H.
  rewrite H in E1. rewrite E1 in E2. injection E2 as -> ->. done.
Qed.

Lemma strategy_name_roundtrip s : RoutingStrategyName.parse (RoutingStrategyName.as_str s) = Some s.
Proof. by destruct s. Qed.
