(* ===== verification/Errors.v ===== *)
(** * Errors: what the gateway answers when a request fails

    [crates/protocols/src/error_body.rs]: the protocol-native error bodies;
    [AppError] of [crates/server/src/ingress/mod.rs] with its builders and its
    response; [check_nonstream_error_body] of
    [crates/server/src/ingress/executors.rs], which finds an error inside a
    successful response. *)

From stdpp Require Import base option list sets strings.
From Stdlib Require Import ZArith Lia.
From S2P Require Import Prelude RustStr Json Telemetry Protocol Classify.

Local Open Scope string_scope.

Definition openai_error_type (c : ErrorClass) : string :=
  match c with
  | Transient => "server_error"
  | RateLimited => "rate_limit_error"
  | Auth => "authentication_error"
  | BadRequest => "invalid_request_error"
  | LossyOrCapability => "invalid_request_error"
  | ModelNotFound => "not_found_error"
  | DeadlineExceeded => "server_error"
  | UpstreamExhausted => "server_error"
  | AuthMissing => "authentication_error"
  | AuthInvalid => "authentication_error"
  | AuthDisabled => "permission_error"
  | ModelAccessDenied => "permission_error"
  | Overloaded => "overloaded_error"
  end.

Definition anthropic_error_type (c : ErrorClass) : string :=
  match c with
  | Transient => "api_error"
  | RateLimited => "rate_limit_error"
  | Auth => "authentication_error"
  | BadRequest => "invalid_request_error"
  | LossyOrCapability => "invalid_request_error"
  | ModelNotFound => "not_found_error"
  | DeadlineExceeded => "timeout_error"
  | UpstreamExhausted => "overloaded_error"
  | AuthMissing => "authentication_error"
  | AuthInvalid => "authentication_error"
  | AuthDisabled => "permission_error"
  | ModelAccessDenied => "permission_error"
  | Overloaded => "overloaded_error"
  end.

Definition gemini_error_status (c : ErrorClass) : string :=
  match c with
  | Transient => "INTERNAL"
  | RateLimited => "RESOURCE_EXHAUSTED"
  | Auth => "UNAUTHENTICATED"
  | BadRequest => "INVALID_ARGUMENT"
  | LossyOrCapability => "FAILED_PRECONDITION"
  | ModelNotFound => "NOT_FOUND"
  | DeadlineExceeded => "DEADLINE_EXCEEDED"
  | UpstreamExhausted => "UNAVAILABLE"
  | AuthMissing => "UNAUTHENTICATED"
  | AuthInvalid => "UNAUTHENTICATED"
  | AuthDisabled => "PERMISSION_DENIED"
  | ModelAccessDenied => "PERMISSION_DENIED"
  | Overloaded => "UNAVAILABLE"
  end.

Definition encode_error_body_for_suite (s : ProtocolSuite) (message : string) (c : ErrorClass)
    (http_status : Z) (upstream_code : option string) : Value :=
  let error_code :=
    match upstream_code with
    | Some u => Some u
    | None => match c with ModelAccessDenied => Some "model_access_denied" | _ => None end
    end in
  match s with
  | OpenAiCompatible | OpenAiResponses =>
      let err := obj [("message", Str message); ("type", Str (openai_error_type c));
                      ("param", Null)] in
      obj [("error", set_opt "code" (Str <$> error_code) err)]
  | AnthropicMessages =>
      obj [("type", Str "error");
           ("error", obj [("type", Str (anthropic_error_type c)); ("message", Str message)])]
  | GoogleGemini =>
      obj [("error", obj [("code", json_u64 http_status); ("message", Str message);
                          ("status", Str (gemini_error_status c)); ("details", Arr [])])]
  end.

Record AppError := {
  ae_status : Z;
  ae_message : string;
  error_class : ErrorClass;
  protocol_suite : option ProtocolSuite;
  retry_after_header : option string;
  upstream_status : option Z;
  ae_upstream_code : option string;
  rate_limit_headers : list (string * string);
}.

Module AppError.
Definition new (status : Z) (message : string) : AppError :=
  {| ae_status := status; ae_message := message; error_class := Transient;
     protocol_suite := None; retry_after_header := None; upstream_status := None;
     ae_upstream_code := None; rate_limit_headers := [] |}.

Definition with_class (e : AppError) (c : ErrorClass) : AppError :=
  {| ae_status := ae_status e; ae_message := ae_message e; error_class := c;
     protocol_suite := protocol_suite e; retry_after_header := retry_after_header e;
     upstream_status := upstream_status e; ae_upstream_code := ae_upstream_code e;
     rate_limit_headers := rate_limit_headers e |}.

Definition with_protocol_suite (e : AppError) (s : ProtocolSuite) : AppError :=
  {| ae_status := ae_status e; ae_message := ae_message e; error_class := error_class e;
     protocol_suite := Some s; retry_after_header := retry_after_header e;
     upstream_status := upstream_status e; ae_upstream_code := ae_upstream_code e;
     rate_limit_headers := rate_limit_headers e |}.

Definition with_upstream_code (e : AppError) (c : string) : AppError :=
  {| ae_status := ae_status e; ae_message := ae_message e; error_class := error_class e;
     protocol_suite := protocol_suite e; retry_after_header := retry_after_header e;
     upstream_status := upstream_status e; ae_upstream_code := Some c;
     rate_limit_headers := rate_limit_headers e |}.

Definition with_retry_after_header (e : AppError) (v : string) : AppError :=
  {| ae_status := ae_status e; ae_message := ae_message e; error_class := error_class e;
     protocol_suite := protocol_suite e; retry_after_header := Some v;
     upstream_status := upstream_status e; ae_upstream_code := ae_upstream_code e;
     rate_limit_headers := rate_limit_headers e |}.

(** The two fields the executors assign directly. *)
Definition set_upstream_status (e : AppError) (s : Z) : AppError :=
  {| ae_status := ae_status e; ae_message := ae_message e; error_class := error_class e;
     protocol_suite := protocol_suite e; retry_after_header := retry_after_header e;
     upstream_status := Some s; ae_upstream_code := ae_upstream_code e;
     rate_limit_headers := rate_limit_headers e |}.

Definition set_rate_limit_headers (e : AppError) (l : list (string * string)) : AppError :=
  {| ae_status := ae_status e; ae_message := ae_message e; error_class := error_class e;
     protocol_suite := protocol_suite e; retry_after_header := retry_after_header e;
     upstream_status := upstream_status e; ae_upstream_code := ae_upstream_code e;
     rate_limit_headers := l |}.

Definition upstream_error_code (e : AppError) : option string := ae_upstream_code e.
Definition http_status (e : AppError) : Z := ae_status e.

(** The body of [into_response]. *)
Definition body (e : AppError) : Value :=
  match protocol_suite e with
  | Some suite =>
      encode_error_body_for_suite suite (ae_message e) (error_class e) (ae_status e)
        (ae_upstream_code e)
  | None =>
      let err := obj [("message", Str (ae_message e)); ("type", Str "server_error");
                      ("param", Null)] in
      obj [("error", set_opt "code" (Str <$> ae_upstream_code e) err)]
  end.

Section Response.
(** [http::HeaderValue::from_str] and [HeaderName::from_bytes] succeed. *)
Context (header_value_ok header_name_ok : string -> bool).

(** The headers [into_response] sets, in order. *)
Definition headers (e : AppError) : list (string * string) :=
  match retry_after_header e with
  | Some ra => if header_value_ok ra then [("retry-after", ra)] else []
  | None => []
  end
  ++ filter (fun nv => header_value_ok (snd nv) && header_name_ok (fst nv) = true)
       (rate_limit_headers e).

Definition into_response (e : AppError) : Z * list (string * string) * Value :=
  (ae_status e, headers e, body e).
End Response.
End AppError.

(** ** Error bodies inside successful responses *)

Definition normal_fields : list string := ["choices"; "candidates"; "output"; "data"; "messages"].

(** [StatusCode::from_u16] accepts the three-digit codes. *)
Definition status_from_u16 (s : Z) : option Z :=
  if ((100 <=? s) && (s <=? 999))%Z then Some s else None.

Section NonStream.
Context `{Lowercase}.

Definition check_nonstream_error_body (response_body : Value) (status : Z)
    (retry_after : option string) (rate_limit_headers : list (string * string))
  : option AppError :=
  match get "error" response_body with
  | None => None
  | Some error =>
      if existsb (fun k => match get k response_body with Some _ => true | None => false end)
           normal_fields
      then None
      else
        let message := default "upstream returned error in 200 response body"
                         (as_str (error.["message"])) in
        let code := match as_str (error.["code"]) with
                    | Some c => Some c
                    | None => as_str (error.["type"])
                    end in
        let app_err := AppError.new (default 502%Z (status_from_u16 status))
                         ("Upstream error: " +:+ message) in
        let app_err := AppError.set_upstream_status app_err status in
        let app_err := AppError.with_class app_err (classify_upstream_error (Some status) code) in
        let app_err := match code with
                       | Some c => AppError.with_upstream_code app_err c
                       | None => app_err
                       end in
        let app_err := match retry_after with
                       | Some ra => AppError.with_retry_after_header app_err ra
                       | None => app_err
                       end in
        Some (AppError.set_rate_limit_headers app_err rate_limit_headers)
  end.
End NonStream.

(** ** Lemmas *)

(** The classes an upstream error can be given. *)
Definition upstream_classes : list ErrorClass :=
  [RateLimited; Auth; BadRequest; ModelNotFound; Overloaded; DeadlineExceeded; Transient].

Lemma class_of_status_upstream s c : class_of_status s = Some c -> c ∈ upstream_classes.
Proof.
  unfold class_of_status, upstream_classes.
  repeat match goal with |- context [if ?b then _ else _] => destruct b end; intros [= <-];
    set_solver.
Qed.

Lemma class_of_code_upstream `{Lowercase} s c :
  class_of_code s = Some c -> c ∈ upstream_classes.
Proof.
  unfold class_of_code, upstream_classes.
  repeat match goal with |- context [if ?b then _ else _] => destruct b end; intros [= <-];
    set_solver.
Qed.

Lemma class_of_server_error `{Lowercase} :
  default Transient (class_of_code "server_error") = Transient.
Proof. unfold class_of_code. by rewrite to_lowercase_ascii. Qed.

(** ** Properties *)

(** The classification of an upstream error follows its stated priority.  A
    well-known status decides alone; otherwise the code decides if it is
    recognised, and everything else is transient.  The result is always one of
    the seven upstream classes, never a class of the gateway's own checks. *)
Theorem upstream_classification_priority `{Lowercase} status code :
  (forall s c, status = Some s -> class_of_status s = Some c ->
     classify_upstream_error status code = c)
  /\ (status ≫= class_of_status = None ->
      classify_upstream_error status code = default Transient (code ≫= class_of_code))
  /\ classify_upstream_error status code ∈ upstream_classes
  /\ RequestErrorClass.tier (class (classify_structured status code))
     = (if bool_decide (classify_upstream_error status code = Overloaded)
        then TierAbnormal else TierFailed).
Proof.
  assert (classify_upstream_error status code ∈ upstream_classes) as Hin.
  { unfold classify_upstream_error.
    destruct status as [s|]; cbn; [destruct (class_of_status s) eqn:E|].
    - by eapply class_of_status_upstream.
    - destruct code as [k|]; cbn; [|unfold upstream_classes; set_solver].
      destruct (class_of_code k) eqn:F; cbn; [by eapply class_of_code_upstream|].
      unfold upstream_classes; set_solver.
    - destruct code as [k|]; cbn; [|unfold upstream_classes; set_solver].
      destruct (class_of_code k) eqn:F; cbn; [by eapply class_of_code_upstream|].
      unfold upstream_classes; set_solver. }
  split; [|split; [|split]].
  - intros s c -> Hc. unfold classify_upstream_error. cbn. by rewrite Hc.
  - intros Hn. unfold classify_upstream_error. by rewrite Hn.
  - done.
  - cbn. destruct (classify_upstream_error status code); cbn; try done.
Qed.

(** The class another gateway gives to an error this one answers. *)
Definition relayed (c : ErrorClass) : ErrorClass :=
  match c with
  | LossyOrCapability => BadRequest
  | UpstreamExhausted => Transient
  | AuthMissing | AuthInvalid | AuthDisabled | ModelAccessDenied => Auth
  | c => c
  end.

(** Error bodies survive a second gateway.  An error of class [c], answered
    with the status of [c] in the OpenAI format and found by
    [check_nonstream_error_body] in front of another gateway, keeps its message
    and is classified as [c] up to the classes that only exist inside one
    gateway; the same holds for the type string alone in the OpenAI and the
    Anthropic dialects, up to the classes these dialects merge. *)
Theorem error_class_survives_relay `{Lowercase} c message ra rl :
  exists e, check_nonstream_error_body
      (encode_error_body_for_suite OpenAiCompatible message c (ErrorClass.http_status c) None)
      (ErrorClass.http_status c) ra rl = Some e
    /\ error_class e = relayed c
    /\ ae_message e = "Upstream error: " +:+ message
    /\ AppError.http_status e = ErrorClass.http_status c
    /\ retry_after_header e = ra
    /\ default Transient (class_of_code (anthropic_error_type c))
       = match c with UpstreamExhausted => Overloaded | c => relayed c end
    /\ default Transient (class_of_code (gemini_error_status c))
       = match c with
         | LossyOrCapability => Transient
         | UpstreamExhausted => Overloaded
         | c => relayed c
         end.
Proof.
  eexists. split; [reflexivity|].
  split; [|split; [|split; [|split; [|split]]]].
  - destruct ra, c; try reflexivity; exact class_of_server_error.
  - destruct ra, c; reflexivity.
  - destruct ra, c; reflexivity.
  - destruct ra, c; reflexivity.
  - unfold class_of_code. rewrite to_lowercase_ascii by (by destruct c). by destruct c.
  - unfold class_of_code. rewrite to_lowercase_ascii by (by destruct c). by destruct c.
Qed.
