(* ===== verification/Ir.v ===== *)
(** * Ir: the canonical intermediate representation

    [crates/core/src/ir/mod.rs]: the request, response and stream types every
    codec converts from and to, and the operations on them: data URLs, tool
    kinds, the effort scale, and the accumulator that bills truncated
    streams.  A [HashMap] is a [gmap]; optional fields are options. *)

From stdpp Require Import base option list gmap strings.
From Stdlib Require Import ZArith Lia Ascii SpecFloat.
From S2P Require Import Prelude RustStr F64 Json Telemetry Protocol Classify.

Local Open Scope string_scope.

Abbreviation JsonMap := (gmap string Value).

Inductive Role := RSystem | RUser | RAssistant | RTool.

#[export] Instance Role_eq_dec : EqDecision Role.
Proof. solve_decision. Defined.

Inductive AnnotationKind := UrlCitation | FileCitation.

Record Annotation := {
  an_kind : AnnotationKind;
  start_index : option Z;
  end_index : option Z;
  an_title : option string;
  an_url : option string;
}.

Inductive PromptCacheBreakpointMode := Explicit.
Record PromptCacheBreakpoint := { pcb_mode : PromptCacheBreakpointMode }.

Inductive ToolCaller :=
| DirectCaller
| ProgramCaller (caller_id : string).

Inductive MediaSource :=
| Inline (data : string)
| Url (url : string)
| FileId (id : string).

Inductive Content :=
| CText (text : string) (annotations : option (list Annotation))
        (prompt_cache_breakpoint : option PromptCacheBreakpoint)
| CReasoning (text : string) (signature id encrypted_content : option string)
| CToolCall (id name : string) (arguments : Value) (call_id : option string)
            (caller : option ToolCaller) (wire_type : option string)
| CToolResult (tool_call_id name content : string) (id : option string)
              (caller : option ToolCaller) (wire_type : option string)
| CProgram (id call_id code fingerprint : string)
| CProgramOutput (id call_id result status : string)
| CRefusal (text : string) (category : option string)
| CMedia (source : MediaSource) (mime_type : string) (metadata : JsonMap)
         (prompt_cache_breakpoint : option PromptCacheBreakpoint).

Record Message := { role : Role; content : list Content }.

Record Tool := {
  tool_name : string;
  tool_description : option string;
  tool_parameters : option Value;
  tool_required : bool;
  tool_type : option string;
  tool_config : option Value;
}.

Inductive Verbosity := VLow | VMedium | VHigh.
Inductive ThinkingEffort := ENone | EMinimal | ELow | EMedium | EHigh | EXHigh | EMax.
Inductive ThinkingDisplay := Summarized | Omitted.

Record ThinkingConfig := {
  effort : option ThinkingEffort;
  budget_tokens : option Z;
  display : option ThinkingDisplay;
  include_thoughts : option bool;
  summary : option string;
  th_mode : option string;
  th_context : option Value;
}.

(** The [f32] fields hold values of binary32. *)
Record GenerationParams := {
  max_tokens : option Z;
  temperature : option spec_float;
  top_p : option spec_float;
  top_k : option Z;
  gp_stop : list string;
  frequency_penalty : option spec_float;
  presence_penalty : option spec_float;
  seed : option Z;
  thinking : option ThinkingConfig;
  verbosity : option Verbosity;
}.

Inductive ResponseFormat :=
| JsonSchema (name : string) (schema : Value) (strict : option bool)
| JsonObject
| TextFormat.

Record Usage := {
  prompt_tokens : Z;
  completion_tokens : Z;
  reasoning_tokens : option Z;
  cache_read_tokens : option Z;
  cache_write_tokens : option Z;
  total_tokens : Z;
}.

Inductive FinishReason :=
| Stop
| LengthReason
| ContentFilter
| ToolCalls
| OtherReason (s : string).

#[export] Instance FinishReason_eq_dec : EqDecision FinishReason.
Proof. solve_decision. Defined.

Record StopDetails := {
  stop_reason : string;
  stop_sequence : option string;
  sd_kind : option string;
  sd_category : option string;
  explanation : option string;
}.

Record IrRequest := {
  model : string;
  system : option string;
  messages : list Message;
  tools : list Tool;
  params : GenerationParams;
  response_format : option ResponseFormat;
  stream : bool;
  ingress_protocol : ProtocolEndpoint;
  metadata : option (gmap string string);
  extensions : JsonMap;
}.

Record IrResponse := {
  r_content : list Content;
  r_usage : option Usage;
  r_finish_reason : option FinishReason;
  r_response_id : option string;
  r_stop_details : option StopDetails;
  r_extensions : JsonMap;
}.

Inductive StreamPart :=
| TextDelta (text : string)
| ReasoningDelta (text : string) (id encrypted_content : option string)
| ToolCallDelta (id : string) (name : option string) (arguments : string)
                (wire_type item_id : option string) (caller : option ToolCaller)
| ProgramDelta (id call_id code fingerprint : string)
| ProgramOutputDelta (id call_id result status : string)
| UsagePart (usage : Usage)
| ResponseStarted (id : string)
| FinishPart (reason : FinishReason)
| ResponseCompleted (id status : string) (usage : option Usage) (extensions : JsonMap)
| ErrorPart (message : string) (class : ErrorClass) (upstream_code : option string).

Definition GenerationParams_default : GenerationParams := {|
  max_tokens := None; temperature := None; top_p := None; top_k := None; gp_stop := [];
  frequency_penalty := None; presence_penalty := None; seed := None; thinking := None;
  verbosity := None |}.

Definition ThinkingConfig_default : ThinkingConfig := {|
  effort := None; budget_tokens := None; display := None; include_thoughts := None;
  summary := None; th_mode := None; th_context := None |}.

Definition Usage_default : Usage := {|
  prompt_tokens := 0; completion_tokens := 0; reasoning_tokens := None;
  cache_read_tokens := None; cache_write_tokens := None; total_tokens := 0 |}%Z.

Definition IMAGE_DETAIL_KEY : string := "detail".

Module MediaSource.
Definition from_data_url (url fallback_mime : string) : MediaSource * string :=
  match strip_prefix "data:" url ≫= split_once ","%char with
  | Some (header, data) =>
      let mime :=
        match split_once ";"%char header with
        | Some (mime_part, _) => if is_empty mime_part then fallback_mime else mime_part
        | None => if is_empty header then fallback_mime else header
        end in
      (Inline data, mime)
  | None => (Url url, fallback_mime)
  end.
End MediaSource.

Module Tool.
Definition is_function (t : Tool) : bool :=
  match tool_type t with
  | None => true
  | Some s => String.eqb s "function"
  end.
Definition is_custom (t : Tool) : bool :=
  match tool_type t with Some s => String.eqb s "custom" | None => false end.
Definition is_hosted (t : Tool) : bool := negb (is_function t) && negb (is_custom t).
End Tool.

Module ThinkingConfig.
Definition effort_to_budget (e : ThinkingEffort) : Z :=
  match e with
  | ENone => 0
  | EMinimal => 1024
  | ELow => 4096
  | EMedium => 10000
  | EHigh => 32000
  | EXHigh => 48000
  | EMax => 64000
  end%Z.

Definition budget_to_effort (budget : Z) : ThinkingEffort :=
  (if budget =? 0 then ENone
   else if budget <=? 2047 then EMinimal
   else if budget <=? 6143 then ELow
   else if budget <=? 16383 then EMedium
   else if budget <=? 39999 then EHigh
   else if budget <=? 55999 then EXHigh
   else EMax)%Z.
End ThinkingConfig.

(** ** The usage accumulator *)

Inductive TruncationReason := Idle | Total | UpstreamError | ClientDisconnect.

#[export] Instance TruncationReason_eq_dec : EqDecision TruncationReason.
Proof. solve_decision. Defined.

Module TruncationReason.
Definition as_str (r : TruncationReason) : string :=
  match r with
  | Idle => "idle"
  | Total => "total"
  | UpstreamError => "upstream_error"
  | ClientDisconnect => "client_disconnect"
  end.
End TruncationReason.

Record UpstreamStreamError := {
  use_message : string;
  use_code : option string;
  use_class : ErrorClass;
}.

Record UsageAccumulator := {
  chars_received : Z;
  control_chars : Z;
  completed : bool;
  truncated : option TruncationReason;
  upstream_error : option UpstreamStreamError;
  upstream_terminal : bool;
}.

Module UsageAccumulator.
Section WithLower.
Context `{Lowercase}.

Definition new : UsageAccumulator :=
  {| chars_received := 0; control_chars := 0; completed := false; truncated := None;
     upstream_error := None; upstream_terminal := false |}.

Definition record_chunk (a : UsageAccumulator) (text : string) : UsageAccumulator :=
  {| chars_received := wrap64 (chars_received a + Z.of_nat (String.length text));
     control_chars := control_chars a; completed := completed a; truncated := truncated a;
     upstream_error := upstream_error a; upstream_terminal := upstream_terminal a |}.

Definition record_control (a : UsageAccumulator) (text : string) : UsageAccumulator :=
  {| chars_received := chars_received a;
     control_chars := wrap64 (control_chars a + Z.of_nat (String.length text));
     completed := completed a; truncated := truncated a;
     upstream_error := upstream_error a; upstream_terminal := upstream_terminal a |}.

Definition mark_completed (a : UsageAccumulator) : UsageAccumulator :=
  {| chars_received := chars_received a; control_chars := control_chars a;
     completed := true; truncated := None;
     upstream_error := upstream_error a; upstream_terminal := upstream_terminal a |}.

Definition mark_truncated (a : UsageAccumulator) (reason : TruncationReason)
  : UsageAccumulator :=
  {| chars_received := chars_received a; control_chars := control_chars a;
     completed := false; truncated := Some reason;
     upstream_error := upstream_error a; upstream_terminal := upstream_terminal a |}.

Definition set_upstream_error (a : UsageAccumulator) (message : string) (code : option string)
  : UsageAccumulator :=
  match upstream_error a with
  | Some _ => a
  | None =>
      let class := classify_upstream_error None code in
      {| chars_received := chars_received a; control_chars := control_chars a;
         completed := completed a; truncated := truncated a;
         upstream_error := Some {| use_message := message; use_code := code;
                                   use_class := class |};
         upstream_terminal := upstream_terminal a |}
  end.

Definition set_upstream_terminal (a : UsageAccumulator) : UsageAccumulator :=
  {| chars_received := chars_received a; control_chars := control_chars a;
     completed := completed a; truncated := truncated a;
     upstream_error := upstream_error a; upstream_terminal := true |}.

Definition estimate_usage (a : UsageAccumulator) : Usage :=
  let completion_tokens :=
    (Z.max (chars_received a / 4) 1 + Z.max (control_chars a / 2) 0)%Z in
  {| prompt_tokens := 0; completion_tokens := completion_tokens; reasoning_tokens := None;
     cache_read_tokens := None; cache_write_tokens := None;
     total_tokens := completion_tokens |}.

(** The operations as events, and a run of them from a new accumulator. *)
Inductive event :=
| Chunk (text : string)
| Control (text : string)
| Completed
| Truncated (reason : TruncationReason)
| UpstreamErr (message : string) (code : option string)
| Terminal.

Definition step (a : UsageAccumulator) (e : event) : UsageAccumulator :=
  match e with
  | Chunk t => record_chunk a t
  | Control t => record_control a t
  | Completed => mark_completed a
  | Truncated r => mark_truncated a r
  | UpstreamErr m c => set_upstream_error a m c
  | Terminal => set_upstream_terminal a
  end.

Definition run_events (l : list event) : UsageAccumulator := fold_left step l new.

(** What a run leaves, read off the list of its events. *)
Definition chunk_len (e : event) : Z :=
  match e with Chunk t => Z.of_nat (String.length t) | _ => 0 end.
Definition control_len (e : event) : Z :=
  match e with Control t => Z.of_nat (String.length t) | _ => 0 end.
Definition ending (e : event) : option (option TruncationReason) :=
  match e with Completed => Some None | Truncated r => Some (Some r) | _ => None end.
Definition reported (e : event) : option UpstreamStreamError :=
  match e with
  | UpstreamErr m c => Some {| use_message := m; use_code := c;
                               use_class := classify_upstream_error None c |}
  | _ => None
  end.
Definition is_terminal (e : event) : bool := match e with Terminal => true | _ => false end.

Definition sum_of (f : event -> Z) (l : list event) : Z := foldr (fun e s => f e + s)%Z 0%Z l.
End WithLower.
End UsageAccumulator.

(** ** Lemmas *)

Definition effort_rank (e : ThinkingEffort) : nat :=
  match e with
  | ENone => 0 | EMinimal => 1 | ELow => 2 | EMedium => 3 | EHigh => 4 | EXHigh => 5 | EMax => 6
  end.

Lemma wrap64_add x y : wrap64 (wrap64 x + y) = wrap64 (x + y).
Proof. unfold wrap64. apply Zplus_mod_idemp_l. Qed.

Section Accumulator.
Context `{Lowercase}.
Import UsageAccumulator.

Lemma fold_chars l a :
  wrap64 (chars_received (fold_left step l a)) = wrap64 (chars_received a + sum_of chunk_len l)
  /\ wrap64 (control_chars (fold_left step l a)) = wrap64 (control_chars a + sum_of control_len l).
Proof.
  revert a. induction l as [|e l IH]; intros a; cbn; [by rewrite !Z.add_0_r|].
  destruct (IH (step a e)) as [-> ->].
  destruct e as [t|t| |r|m c|]; cbn -[wrap64]; rewrite ?Z.add_0_l; try (split; reflexivity).
  - by rewrite wrap64_add, Z.add_assoc.
  - by rewrite wrap64_add, Z.add_assoc.
  - unfold set_upstream_error. destruct (upstream_error a); done.
Qed.

Lemma wrap64_idem x : wrap64 (wrap64 x) = wrap64 x.
Proof. unfold wrap64. by rewrite Z.mod_mod. Qed.

Lemma run_chars_wrapped l :
  wrap64 (chars_received (run_events l)) = chars_received (run_events l)
  /\ wrap64 (control_chars (run_events l)) = control_chars (run_events l).
Proof.
  unfold run_events. assert (forall a,
    wrap64 (chars_received a) = chars_received a -> wrap64 (control_chars a) = control_chars a ->
    wrap64 (chars_received (fold_left step l a)) = chars_received (fold_left step l a)
    /\ wrap64 (control_chars (fold_left step l a)) = control_chars (fold_left step l a)) as Hg.
  { induction l as [|e l IH]; intros a Ha Hc; cbn; [done|]. apply IH.
    - destruct e; cbn; unfold set_upstream_error; try destruct (upstream_error a); cbn;
        rewrite ?wrap64_idem; done.
    - destruct e; cbn; unfold set_upstream_error; try destruct (upstream_error a); cbn;
        rewrite ?wrap64_idem; done. }
  by apply Hg.
Qed.

Lemma fold_flags l a :
  let b := fold_left step l a in
  (completed b, truncated b)
    = match last (omap ending l) with
      | Some o => (match o with None => true | Some _ => false end, o)
      | None => (completed a, truncated a)
      end
  /\ upstream_error b = match upstream_error a with
                        | Some e => Some e
                        | None => head (omap reported l)
                        end
  /\ upstream_terminal b = upstream_terminal a || existsb is_terminal l.
Proof.
  revert a. induction l as [|e l IH]; intros a; cbn.
  - split; [done|]. split; [by destruct (upstream_error a)|by rewrite orb_false_r].
  - destruct (IH (step a e)) as (-> & -> & ->).
    destruct e as [t|t| |r|m c|]; cbn; unfold set_upstream_error; rewrite ?orb_true_r;
      try (split; [|split]; done).
    + split; [|split]; [|done..]. rewrite last_cons. by destruct (last _).
    + split; [|split]; [|done..]. rewrite last_cons. by destruct (last _).
    + destruct (upstream_error a) eqn:E; cbn; rewrite ?E; done.
Qed.
End Accumulator.

Lemma not_in_header c h : contains_char c h = false -> split_once c h = None.
Proof.
  induction h as [|a h IH]; cbn; [done|]. intros [-> Hh]%orb_false_elim. by rewrite IH.
Qed.

(** ** Properties *)

(** A base64 data URL comes apart into the MIME type and the payload it was
    put together from, and anything that is not a data URL with a comma stays a
    remote URL with the fallback type. *)
Theorem data_url_roundtrip mime data fallback :
  contains_char ","%char mime = false -> contains_char ";"%char mime = false ->
  MediaSource.from_data_url ("data:" +:+ mime +:+ ";base64," +:+ data) fallback
    = (Inline data, if is_empty mime then fallback else mime)
  /\ forall url, (forall h d, url <> "data:" +:+ h +:+ "," +:+ d) ->
       MediaSource.from_data_url url fallback = (Url url, fallback).
Proof.
  intros Hc Hs. split.
  - unfold MediaSource.from_data_url. rewrite strip_prefix_app. cbn [mbind option_bind].
    change (mime +:+ ";base64," +:+ data) with (mime +:+ (";base64" +:+ String "," data)).
    rewrite <- str_app_assoc, split_once_app.
    + change (mime +:+ ";base64") with (mime +:+ String ";" "base64"). by rewrite split_once_app.
    + clear Hs. induction mime as [|a m IH]; [done|]. cbn in Hc.
      apply orb_false_elim in Hc as [Ha Hm]. rewrite str_app_cons. cbn. by rewrite Ha, IH.
  - intros url Hu. unfold MediaSource.from_data_url.
    destruct (strip_prefix "data:" url) as [rest|] eqn:E; cbn; [|done].
    apply strip_prefix_spec in E as ->.
    destruct (split_once "," rest) as [[h d]|] eqn:E2; [|done].
    apply split_once_spec in E2 as [-> _]. by destruct (Hu h d).
Qed.

Lemma data_url_roundtrip_witness :
  MediaSource.from_data_url "data:image/png;base64,iVBORw0KGgo=" "image/*"
  = (Inline "iVBORw0KGgo=", "image/png").
Proof.
  exact (proj1 (data_url_roundtrip "image/png" "iVBORw0KGgo=" "image/*" eq_refl eq_refl)).
Defined.

(** The effort scale survives the translation to a token budget and back,
    and both directions are monotone: more effort is more budget, and a larger
    budget is never less effort. *)
Theorem effort_budget_galois :
  (forall e, ThinkingConfig.budget_to_effort (ThinkingConfig.effort_to_budget e) = e)
  /\ (forall e1 e2, (effort_rank e1 < effort_rank e2)%nat
        -> (ThinkingConfig.effort_to_budget e1 < ThinkingConfig.effort_to_budget e2)%Z)
  /\ (forall b1 b2, (0 <= b1 <= b2)%Z ->
        (effort_rank (ThinkingConfig.budget_to_effort b1)
         <= effort_rank (ThinkingConfig.budget_to_effort b2))%nat).
Proof.
  split; [by intros []|]. split; [intros [] []; cbn; lia|].
  intros b1 b2 Hb. unfold ThinkingConfig.budget_to_effort.
  repeat match goal with |- context [if ?b then _ else _] => destruct b eqn:?; bool_prop end;
    cbn; lia.
Qed.

(** What the accumulator bills is what the stream did.  After any sequence
    of its operations the counters are the bytes of all chunks and of all
    control deltas (modulo the width of [usize]), the last ending wins and the
    flags [completed] and [truncated] exclude each other, the first upstream
    error is kept with the class of its code, and the terminal flag is set
    exactly when a terminal event was seen. *)
Theorem accumulator_summarises_stream `{Lowercase} l :
  let a := UsageAccumulator.run_events l in
  chars_received a = wrap64 (UsageAccumulator.sum_of UsageAccumulator.chunk_len l)
  /\ control_chars a = wrap64 (UsageAccumulator.sum_of UsageAccumulator.control_len l)
  /\ truncated a = default None (last (omap UsageAccumulator.ending l))
  /\ completed a = bool_decide (last (omap UsageAccumulator.ending l) = Some None)
  /\ upstream_error a = head (omap UsageAccumulator.reported l)
  /\ upstream_terminal a = existsb UsageAccumulator.is_terminal l.
Proof.
  intros a. destruct (run_chars_wrapped l) as [Hc1 Hc2].
  destruct (fold_chars l UsageAccumulator.new) as [H1 H2].
  destruct (fold_flags l UsageAccumulator.new) as (H3 & H4 & H5).
  fold (UsageAccumulator.run_events l) in *. subst a. cbn in H3, H4, H5.
  rewrite <- Hc1, <- Hc2, H1, H2, H4, H5. cbn. repeat split.
  - by destruct (last _) as [[]|]; injection H3.
  - by destruct (last _) as [[]|]; injection H3.
Qed.
