(* ===== verification/Strategy.v ===== *)
(** * Strategy: the order in which targets are tried

    The [Strategy] trait of [crates/core/src/routing/mod.rs] and its four
    implementations, and [build_strategy] of
    [crates/server/src/ingress/mod.rs].  The random source is the [rand]
    crate: the class [GenRange] holds what [gen_range(0.0..total)] does. *)

From stdpp Require Import base option list gmap strings.
From Stdlib Require Import ZArith Lia Sorted Permutation SpecFloat.
From S2P Require Import Prelude RustStr F64 Protocol Classify Health Targets.

Local Open Scope Z_scope.

(** [rng.gen_range(0.0..total)]: a double in the half-open range, or a panic
    when the range is empty or not finite. *)
Class GenRange := {
  Rng : Type;
  gen_range : Rng -> f64 -> run (f64 * Rng);
  gen_range_empty g total : f64_lt f64_zero total = false -> gen_range g total = Err EmptyRange;
  gen_range_infinite g : gen_range g (S754_infinity false) = Err RangeOverflow;
  gen_range_ok g total :
    f64_lt f64_zero total = true -> total <> S754_infinity false ->
    exists r g', gen_range g total = Ok (r, g')
      /\ f64_valid r = true /\ f64_good r = true /\ f64_lt r total = true;
}.

Section Strategies.
Context `{GenRange}.

(** A strategy sees the targets, the health registry with the time, and the
    random source. *)
Definition strategy : Type :=
  HealthRegistry -> Z -> Rng -> list RoutingTarget -> run (list RoutingTarget * Rng).

(** [iter().map(|t| t.weight.max(0.0)).sum()]: the sum of doubles starts at
    the neutral element [-0.0]. *)
Definition sum_weights (l : list RoutingTarget) : f64 :=
  fold_left (fun acc t => f64_add acc (f64_max0 (weight t))) l f64_neg_zero.

(** The [for] loop that subtracts weights until [pick] is used up; the index
    stays [0] when it never is. *)
Fixpoint chosen_idx (pick : f64) (i : nat) (l : list RoutingTarget) : nat :=
  match l with
  | [] => 0
  | t :: r =>
      let pick' := f64_sub pick (f64_max0 (weight t)) in
      if f64_le pick' f64_zero then i else chosen_idx pick' (S i) r
  end.

(** The [while] loop: one target leaves [remaining] per round, so as many
    rounds as targets are enough. *)
Fixpoint weighted_loop (rounds : nat) (g : Rng) (remaining result : list RoutingTarget)
  : run (list RoutingTarget * Rng) :=
  match rounds, remaining with
  | _, [] => Ok (result, g)
  | O, _ => Ok (result, g)
  | S n, _ =>
      '(pick, g') ← gen_range g (sum_weights remaining);
      match vec_remove (chosen_idx pick 0 remaining) remaining with
      | Some (target, rest) => weighted_loop n g' rest (result ++ [target])
      | None => Err OutOfBounds
      end
  end.

Definition WeightedStrategy_order : strategy := fun _ _ g targets =>
  match targets with
  | [] => Ok ([], g)
  | _ =>
      if f64_le (sum_weights targets) f64_zero then Ok (targets, g)
      else weighted_loop (length targets) g targets []
  end.

(** [b.weight.partial_cmp(&a.weight).unwrap_or(Equal)] is not [Greater]. *)
Definition weight_desc (a b : RoutingTarget) : bool :=
  match f64_cmp (weight b) (weight a) with Some Gt => false | _ => true end.

Definition PriorityStrategy_order : strategy := fun _ _ g targets =>
  Ok (sort_by weight_desc targets, g).

(** The key [0] for a healthy target, [1] for another. *)
Definition CooldownStrategy_order : strategy := fun h now g targets =>
  let healthy t := HealthRegistry.is_healthy h (RoutingTarget.health_key t) now in
  Ok (sort_by (fun a b => healthy a || negb (healthy b)) targets, g).

Definition latency_sort_key (h : HealthRegistry) (now : Z) (t : RoutingTarget) : Z :=
  let healthy := if HealthRegistry.is_healthy h (RoutingTarget.health_key t) now then 0 else 1 in
  let latency_key :=
    match HealthRegistry.ewma_latency_ms h (RoutingTarget.health_key t) with
    | Some ms => Z.land ms (Z.ones 112)
    | None => 0
    end in
  Z.lor (Z.shiftl healthy 64) latency_key.

Definition LatencyStrategy_order : strategy := fun h now g targets =>
  Ok (sort_by (fun a b => latency_sort_key h now a <=? latency_sort_key h now b) targets, g).

Definition build_strategy (name : RoutingStrategyName) : strategy * string :=
  match name with
  | Weighted => (WeightedStrategy_order, "WeightedStrategy"%string)
  | Priority => (PriorityStrategy_order, "PriorityStrategy"%string)
  | Cooldown => (CooldownStrategy_order, "CooldownStrategy"%string)
  | Latency => (LatencyStrategy_order, "LatencyStrategy"%string)
  end.

(** ** Lemmas *)

Lemma max0_good t : f64_valid (weight t) = true -> f64_good (f64_max0 (weight t)) = true.
Proof.
  destruct (weight t) as [[]|[]| |[] m e]; try done. intros Hv.
  apply valid_canonical in Hv as (He & _). cbn. by apply Z.leb_le.
Qed.

Lemma pos_weight t :
  f64_valid (weight t) = true -> f64_lt f64_zero (weight t) = true ->
  f64_pos (f64_max0 (weight t)) = true.
Proof.
  intros Hv Hp. apply f64_pos_lt. split; [by apply max0_good|].
  by destruct (weight t) as [[]|[]| |[] m e].
Qed.

Definition valid_weights (l : list RoutingTarget) : Prop :=
  Forall (fun t => f64_valid (weight t) = true) l.

Lemma sum_weights_good l acc :
  valid_weights l -> f64_good acc = true ->
  let s := fold_left (fun acc t => f64_add acc (f64_max0 (weight t))) l acc in
  f64_good s = true
  /\ (f64_pos acc = true \/ Exists (fun t => f64_pos (f64_max0 (weight t)) = true) l ->
      f64_pos s = true).
Proof.
  intros Hl. revert acc. induction Hl as [|t l Ht _ IH]; intros acc Hacc; cbn.
  - split; [done|]. intros [?|He]; [done|inversion He].
  - pose proof (f64_add_good _ _ Hacc (max0_good _ Ht)) as [Hg Hp].
    destruct (IH _ Hg) as [IHg IHp]. split; [done|]. intros Hor. apply IHp.
    destruct Hor as [Ha|He]; [left; apply Hp; by rewrite Ha|].
    inversion He; subst; [left; apply Hp; apply orb_true_iff; by right|by right].
Qed.

Lemma chosen_idx_bound pick i l : l <> [] -> (i < length l + i)%nat ->
  (chosen_idx pick i l < length l + i)%nat.
Proof.
  intros Hne. assert (0 < length l)%nat by (destruct l; [done|cbn; lia]). clear Hne.
  revert pick i. induction l as [|t r IH]; intros pick i Hi; cbn in *; [lia|].
  destruct (f64_le _ _); [lia|]. destruct r as [|t' r]; [cbn; lia|].
  specialize (IH ltac:(cbn; lia) (f64_sub pick (f64_max0 (weight t))) (S i)). cbn in *. lia.
Qed.

Lemma weighted_round pick l :
  l <> [] -> exists t r, vec_remove (chosen_idx pick 0 l) l = Some (t, r).
Proof.
  intros Hl. unfold vec_remove.
  assert (chosen_idx pick 0 l < length l)%nat as Hi.
  { pose proof (chosen_idx_bound pick 0 l Hl). destruct l; [done|cbn in *; lia]. }
  apply lookup_lt_is_Some_2 in Hi as [t ->]. eauto.
Qed.

Lemma weighted_loop_perm rounds g remaining result out g' :
  (length remaining <= rounds)%nat ->
  weighted_loop rounds g remaining result = Ok (out, g') -> out ≡ₚ result ++ remaining.
Proof.
  revert g remaining result. induction rounds as [|n IH]; intros g remaining result Hn; cbn.
  - destruct remaining; [|cbn in Hn; lia]. intros [= <- <-]. by rewrite app_nil_r.
  - destruct remaining as [|t0 r0]; [intros [= <- <-]; by rewrite app_nil_r|].
    destruct (gen_range g _) as [[pick g1]|]; [|done]. cbn -[chosen_idx vec_remove].
    destruct (vec_remove (chosen_idx pick 0 (t0 :: r0)) (t0 :: r0)) as [[t r]|] eqn:E;
      [|done]. intros Hl.
    pose proof (vec_remove_length _ _ _ _ E) as Hlen. cbn [length] in *.
    apply IH in Hl; [|lia]. rewrite Hl, (vec_remove_perm _ _ _ _ E).
    by rewrite <- app_assoc.
Qed.

Lemma weighted_loop_total rounds g remaining result :
  valid_weights remaining ->
  Forall (fun t => f64_lt f64_zero (weight t) = true) remaining ->
  (length remaining <= rounds)%nat ->
  (exists out g', weighted_loop rounds g remaining result = Ok (out, g'))
  \/ exists l, l ⊆+ remaining /\ sum_weights l = S754_infinity false.
Proof.
  revert g remaining result.
  induction rounds as [|n IH]; intros g remaining result Hv Hp Hn; cbn.
  - destruct remaining; [eauto|cbn in Hn; lia].
  - destruct remaining as [|t0 r0]; [eauto|].
    assert (f64_lt f64_zero (sum_weights (t0 :: r0)) = true) as Hs.
    { apply f64_pos_lt. apply (sum_weights_good _ f64_neg_zero Hv); [done|]. right. left.
      apply Forall_inv in Hv, Hp. by apply pos_weight. }
    destruct (decide (sum_weights (t0 :: r0) = S754_infinity false)) as [Hi|Hi]; [eauto|].
    destruct (gen_range_ok g _ Hs Hi) as (pick & g1 & -> & _). cbn -[chosen_idx vec_remove].
    destruct (weighted_round pick (t0 :: r0)) as (t & r & E); [done|]. rewrite E.
    pose proof (vec_remove_perm _ _ _ _ E) as HP.
    pose proof (vec_remove_length _ _ _ _ E) as Hlen. cbn [length] in *.
    unfold valid_weights in *. rewrite HP in Hv, Hp.
    apply Forall_cons_1 in Hv as [_ Hv], Hp as [_ Hp].
    destruct (IH g1 r (result ++ [t]) Hv Hp ltac:(lia)) as [Hok|(l & Hl & Hsum)]; [by left|].
    right. exists l. split; [|done]. rewrite HP. by apply submseteq_cons.
Qed.
End Strategies.

Section Starved.
Context `{GenRange}.

Definition is_zero (x : f64) : bool := match x with S754_zero _ => true | _ => false end.

Lemma max0_zero t : f64_lt f64_zero (weight t) = false -> is_zero (f64_max0 (weight t)) = true.
Proof. by destruct (weight t) as [[]|[]| |[] m e]. Qed.

Definition no_weight (l : list RoutingTarget) : Prop :=
  Forall (fun t => f64_lt f64_zero (weight t) = false) l.

Lemma sum_no_weight l acc :
  no_weight l ->
  let s := fold_left (fun acc t => f64_add acc (f64_max0 (weight t))) l acc in
  if is_zero acc then is_zero s = true else s = acc.
Proof.
  intros Hl. revert acc. induction Hl as [|t l Ht _ IH]; intros acc; cbn; [by destruct (is_zero acc)|].
  apply max0_zero in Ht. destruct (f64_max0 (weight t)) as [z| | |]; try done.
  specialize (IH (f64_add acc (S754_zero z))). cbn in IH.
  destruct acc as [[]|[]| |[] m e], z; exact IH.
Qed.

Lemma weighted_starved g t zs rounds result :
  f64_valid (weight t) = true -> f64_lt f64_zero (weight t) = true ->
  weight t <> S754_infinity false -> no_weight zs -> zs <> [] ->
  weighted_loop (S (S rounds)) g (t :: zs) result = Err EmptyRange.
Proof.
  intros Hv Hp Hfin Hz Hne. cbn -[chosen_idx vec_remove sum_weights].
  assert (f64_max0 (weight t) = weight t) as Hm.
  { apply f64_max0_good. by destruct (weight t) as [[]|[]| |[] m e] eqn:E;
      try done; apply valid_canonical in Hv as (He & _); cbn; apply Z.leb_le. }
  assert (sum_weights (t :: zs) = weight t) as Hs.
  { unfold sum_weights. cbn [fold_left]. rewrite Hm.
    pose proof (sum_no_weight zs (f64_add f64_neg_zero (weight t)) Hz) as Hsum. cbn in Hsum.
    by destruct (weight t) as [[]|[]| |[] m e]. }
  rewrite Hs. destruct (gen_range_ok g _ Hp Hfin) as (pick & g1 & -> & Hrv & Hrg & Hlt).
  cbn -[f64_le f64_sub sum_weights]. rewrite Hm.
  pose proof (pos_weight _ Hv Hp) as Hpw. rewrite Hm in Hpw.
  rewrite (f64_sub_below pick (weight t)) by done. cbn -[sum_weights].
  destruct zs as [|z zs]; [done|]. rewrite gen_range_empty; [done|].
  pose proof (sum_no_weight _ f64_neg_zero Hz) as Hsum. cbn [is_zero f64_neg_zero] in Hsum.
  unfold sum_weights. by destruct (fold_left _ _ _) as [[]|[]| |[] m e].
Qed.

Lemma weighted_starved_positive t zs :
  f64_valid (weight t) = true -> f64_lt f64_zero (weight t) = true -> no_weight zs ->
  f64_le (sum_weights (t :: zs)) f64_zero = false.
Proof.
  intros Hv Hp Hz. unfold sum_weights. cbn [fold_left].
  assert (f64_max0 (weight t) = weight t) as ->.
  { pose proof (pos_weight _ Hv Hp). by destruct (weight t) as [[]|[]| |[] m e]. }
  pose proof (sum_no_weight zs (f64_add f64_neg_zero (weight t)) Hz) as Hsum. cbn in Hsum.
  destruct (weight t) as [[]|[]| |[] m e]; try done; cbn in *; by rewrite Hsum.
Qed.
End Starved.

(** ** Keys of the sorting strategies *)

Definition has_number (t : RoutingTarget) : Prop := is_nan (weight t) = false.

(** The comparison of [PriorityStrategy] as a comparison of keys, total and
    transitive on weights that are numbers; a NaN is read as zero here. *)
Definition weight_key_le (a b : RoutingTarget) : bool :=
  key_le (f64_key (weight b)) (f64_key (weight a)).

Lemma weight_desc_key a b : has_number a -> has_number b -> weight_desc a b = weight_key_le a b.
Proof.
  intros Ha Hb. unfold weight_desc, weight_key_le, key_le. rewrite f64_cmp_key by done.
  reflexivity.
Qed.

Lemma insert_sorted_ext {A} (P : A -> Prop) (le1 le2 : A -> A -> bool) x l :
  (forall a b, P a -> P b -> le1 a b = le2 a b) -> P x -> Forall P l ->
  insert_sorted le1 x l = insert_sorted le2 x l.
Proof.
  intros He Hx Hl. induction Hl as [|y l Hy _ IH]; cbn; [done|].
  rewrite (He x y) by done. destruct (le2 x y); [done|]. by rewrite IH.
Qed.

Lemma sort_by_ext {A} (P : A -> Prop) (le1 le2 : A -> A -> bool) l :
  (forall a b, P a -> P b -> le1 a b = le2 a b) -> Forall P l -> sort_by le1 l = sort_by le2 l.
Proof.
  intros He Hl. induction Hl as [|x l Hx Hl IH]; cbn; [done|]. rewrite IH.
  apply (insert_sorted_ext P); [done|done|]. by rewrite sort_by_perm.
Qed.

Lemma StronglySorted_impl_on {A} (P : A -> Prop) (R S : A -> A -> Prop) l :
  (forall a b, P a -> P b -> R a b -> S a b) -> Forall P l ->
  StronglySorted R l -> StronglySorted S l.
Proof.
  intros H HP HS. induction HS as [|x l HS IH HF]; [constructor|].
  apply Forall_cons in HP as [Hx HP]. constructor; [auto|].
  rewrite Forall_forall in HF, HP |- *. auto.
Qed.

(** The two parts of the latency key do not overlap: it orders by health,
    then by latency, an unobserved target counting as zero. *)
Lemma f64_to_u64_range x : 0 <= f64_to_u64 x <= u64_max.
Proof.
  destruct x as [s|[]| |[] m e]; cbn -[u64_max]; try (unfold u64_max; lia).
  assert (0 <= Z.shiftl (Zpos m) e) by (apply Z.shiftl_nonneg; lia). unfold u64_max. lia.
Qed.

Definition observed_latency (h : HealthRegistry) (t : RoutingTarget) : Z :=
  default 0 (HealthRegistry.ewma_latency_ms h (RoutingTarget.health_key t)).

Lemma latency_key_split h now t :
  latency_sort_key h now t
  = (if HealthRegistry.is_healthy h (RoutingTarget.health_key t) now then 0 else 2 ^ 64)
    + observed_latency h t
  /\ 0 <= observed_latency h t < 2 ^ 64.
Proof.
  unfold latency_sort_key, observed_latency, HealthRegistry.ewma_latency_ms.
  destruct (latencies h !! _) as [l|]; cbn [fmap option_fmap option_map default from_option id].
  - pose proof (f64_to_u64_range (ewma l)) as Hr. unfold u64_max in Hr.
    split; [|lia]. rewrite Z.land_ones by lia.
    rewrite Z.mod_small by (split; [lia|]; eapply Z.le_lt_trans; [apply Hr|reflexivity]).
    destruct (HealthRegistry.is_healthy _ _ _); [done|].
    change (2 ^ 64) with (Z.shiftl 1 64). rewrite Z.add_nocarry_lxor, Z.lxor_lor; try done.
    all: apply Z.bits_inj_iff'; intros n Hn; rewrite Z.land_spec, Z.bits_0.
    all: destruct (Z.ltb_spec n 64).
    all: try (rewrite Z.shiftl_spec_low by lia; done).
    all: rewrite (Z.bits_above_log2 (f64_to_u64 (ewma l))); [by rewrite andb_false_r|lia|].
    all: destruct (decide (f64_to_u64 (ewma l) = 0)) as [->|]; [cbn; lia|].
    all: apply Z.log2_lt_pow2; [lia|]; eapply Z.le_lt_trans; [apply Hr|].
    all: eapply Z.lt_le_trans; [|apply (Z.pow_le_mono_r 2 64 n); lia]; reflexivity.
  - destruct (HealthRegistry.is_healthy _ _ _); (split; [reflexivity|lia]).
Qed.

(** ** Properties *)

(** A random source for the witnesses: it always draws the low end. *)
Definition lowest_draw (g : unit) (total : f64) : run (f64 * unit) :=
  if f64_lt f64_zero total then
    if decide (total = S754_infinity false) then Err RangeOverflow else Ok (f64_zero, tt)
  else Err EmptyRange.

Lemma lowest_draw_empty g total :
  f64_lt f64_zero total = false -> lowest_draw g total = Err EmptyRange.
Proof. unfold lowest_draw. by intros ->. Defined.

Lemma lowest_draw_ok g total :
  f64_lt f64_zero total = true -> total <> S754_infinity false ->
  exists r g', lowest_draw g total = Ok (r, g')
    /\ f64_valid r = true /\ f64_good r = true /\ f64_lt r total = true.
Proof.
  unfold lowest_draw. intros Hp Hi. rewrite Hp. destruct (decide _); [done|].
  by exists f64_zero, tt.
Defined.

Definition low_rng : GenRange :=
  {| Rng := unit; gen_range := lowest_draw; gen_range_empty := lowest_draw_empty;
     gen_range_infinite _ := eq_refl; gen_range_ok := lowest_draw_ok |}.

Definition one : f64 := f64_of_Z 1.
Definition three : f64 := f64_of_Z 3.
Definition chain : list RoutingTarget :=
  [sample_target "a" "m" None one; sample_target "b" "m" None three;
   sample_target "c" "m" None one].

Lemma strategy_permutes `{GenRange} name h now g ts out g' :
  fst (build_strategy name) h now g ts = Ok (out, g') -> out ≡ₚ ts.
Proof.
  destruct name; cbn.
  - unfold WeightedStrategy_order. destruct ts as [|t ts]; [by intros [= <- _]|].
    destruct (f64_le _ _); [by intros [= <- _]|].
    intros Hl. by apply weighted_loop_perm in Hl; [|done].
  - intros [= <- _]. apply sort_by_perm.
  - intros [= <- _]. apply sort_by_perm.
  - intros [= <- _]. apply sort_by_perm.
Qed.

(** Every strategy that returns an order returns one of all the targets:
    none is lost, none is tried twice, whatever the weights, the health of the
    targets and the random draws. *)
Theorem strategy_order_permutes `{GenRange} name h now g ts out g' :
  fst (build_strategy name) h now g ts = Ok (out, g') -> out ≡ₚ ts.
Proof. apply strategy_permutes. Qed.

Definition chain_order : list RoutingTarget :=
  [sample_target "b" "m" None three; sample_target "a" "m" None one;
   sample_target "c" "m" None one].

Lemma strategy_order_permutes_witness :
  @fst _ string (@build_strategy low_rng Priority) sample_registry 0 tt chain
    = Ok (chain_order, tt)
  /\ chain_order ≡ₚ chain.
Proof.
  assert (H : @fst _ string (@build_strategy low_rng Priority) sample_registry 0 tt chain
              = Ok (chain_order, tt)) by (vm_compute; reflexivity).
  split; [exact H|].
  exact (@strategy_order_permutes low_rng Priority sample_registry 0 tt chain chain_order tt H).
Defined.

(** The weighted shuffle is total on chains of positive weights: it returns
    a permutation of the chain, unless the weights of some part of it add up to
    infinity. *)
Theorem weighted_order_total `{GenRange} h now g ts :
  valid_weights ts -> Forall (fun t => f64_lt f64_zero (weight t) = true) ts ->
  (exists out g', WeightedStrategy_order h now g ts = Ok (out, g') /\ out ≡ₚ ts)
  \/ exists l, l ⊆+ ts /\ sum_weights l = S754_infinity false.
Proof.
  intros Hv Hp. unfold WeightedStrategy_order. destruct ts as [|t ts]; [by left; eauto|].
  destruct (f64_le _ _); [by left; eauto|].
  destruct (weighted_loop_total (length (t :: ts)) g (t :: ts) [] Hv Hp)
    as [(out & g' & Hl)|]; [done| |by right].
  left. exists out, g'. split; [done|]. by apply weighted_loop_perm in Hl; [|done].
Qed.

Lemma weighted_order_total_witness :
  (exists out g', @WeightedStrategy_order low_rng sample_registry 0 tt chain = Ok (out, g')
     /\ out ≡ₚ chain)
  \/ exists l, l ⊆+ chain /\ sum_weights l = S754_infinity false.
Proof.
  apply (@weighted_order_total low_rng sample_registry 0 tt chain).
  - repeat apply Forall_cons_2; (reflexivity || apply Forall_nil_2).
  - repeat apply Forall_cons_2; (reflexivity || apply Forall_nil_2).
Defined.

(** A chain of one weighted target and backups of weight zero cannot be
    ordered.  The guard of the shuffle only looks at the total of the whole
    chain; once the weighted target is drawn, the total of the rest is zero and
    [gen_range(0.0..0.0)] panics, for every draw. *)
Theorem weighted_order_panics_on_zero_weights `{GenRange} h now g t zs :
  f64_valid (weight t) = true -> f64_lt f64_zero (weight t) = true ->
  weight t <> S754_infinity false -> no_weight zs -> zs <> [] ->
  WeightedStrategy_order h now g (t :: zs) = Err EmptyRange.
Proof.
  intros Hv Hp Hfin Hz Hne. unfold WeightedStrategy_order.
  rewrite weighted_starved_positive by done. destruct zs as [|z zs]; [done|].
  by apply weighted_starved.
Qed.

Definition primary_and_spare : RoutingTarget * list RoutingTarget :=
  (sample_target "primary" "m" None one, [sample_target "spare" "m" None f64_zero]).

Lemma weighted_order_panics_on_zero_weights_witness :
  @WeightedStrategy_order low_rng sample_registry 0 tt
    (fst primary_and_spare :: snd primary_and_spare) = Err EmptyRange.
Proof.
  apply (@weighted_order_panics_on_zero_weights low_rng).
  - reflexivity.
  - reflexivity.
  - discriminate.
  - apply Forall_cons_2; [reflexivity|apply Forall_nil_2].
  - discriminate.
Defined.

(** The priority order is by decreasing weight and stable: no target comes
    after one of smaller weight, and targets of equal weight keep the order of
    the chain. *)
Theorem priority_order_sorted_stable `{GenRange} h now g ts :
  Forall has_number ts ->
  exists out, PriorityStrategy_order h now g ts = Ok (out, g)
    /\ StronglySorted (fun a b => f64_cmp (weight a) (weight b) <> Some Lt) out
    /\ forall k, filter (fun t => equiv_to weight_key_le k t = true) out
                 = filter (fun t => equiv_to weight_key_le k t = true) ts.
Proof.
  intros Hn. exists (sort_by weight_desc ts). split; [done|].
  rewrite (sort_by_ext has_number _ weight_key_le); [|apply weight_desc_key|done].
  split; [|intros k; apply sort_by_stable; unfold weight_key_le; eauto using key_le_trans].
  eapply (StronglySorted_impl_on has_number).
  3: apply (sort_by_sorted weight_key_le).
  - intros a b Ha Hb Hle. rewrite f64_cmp_key by done. unfold weight_key_le, key_le in Hle.
    rewrite key_compare_antisym in Hle. by destruct (key_compare (f64_key (weight a)) _).
  - by rewrite sort_by_perm.
  - intros a b. apply key_le_total.
  - unfold weight_key_le. eauto using key_le_trans.
Qed.

Lemma priority_order_sorted_stable_witness :
  exists out, @PriorityStrategy_order low_rng sample_registry 0 tt chain = Ok (out, tt)
    /\ StronglySorted (fun a b => f64_cmp (weight a) (weight b) <> Some Lt) out
    /\ forall k, filter (fun t => equiv_to weight_key_le k t = true) out
                 = filter (fun t => equiv_to weight_key_le k t = true) chain.
Proof.
  apply (@priority_order_sorted_stable low_rng sample_registry 0 tt chain).
  repeat apply Forall_cons_2; (reflexivity || apply Forall_nil_2).
Defined.

(** The cooldown order is the healthy targets in chain order, then the
    others in chain order. *)
Theorem cooldown_order_partitions `{GenRange} h now g ts :
  let healthy t := HealthRegistry.is_healthy h (RoutingTarget.health_key t) now in
  CooldownStrategy_order h now g ts
  = Ok (filter (fun t => healthy t = true) ts ++ filter (fun t => healthy t = false) ts, g).
Proof. intros healthy. unfold CooldownStrategy_order. by rewrite sort_by_bool. Qed.

(** The latency order is lexicographic and stable: healthy targets first,
    and among targets of the same health the smaller average first, a target
    without samples counting as zero; the bit-level key never mixes the two. *)
Theorem latency_order_lexicographic `{GenRange} h now g ts :
  let healthy t := HealthRegistry.is_healthy h (RoutingTarget.health_key t) now in
  exists out, LatencyStrategy_order h now g ts = Ok (out, g)
    /\ out ≡ₚ ts
    /\ StronglySorted (fun a b =>
         (healthy a = true /\ healthy b = false)
         \/ healthy a = healthy b /\ observed_latency h a <= observed_latency h b) out
    /\ forall k, filter (fun t => healthy t = healthy k
                                  /\ observed_latency h t = observed_latency h k) out
               = filter (fun t => healthy t = healthy k
                                  /\ observed_latency h t = observed_latency h k) ts.
Proof.
  intros healthy. eexists. split; [reflexivity|].
  split; [apply sort_by_perm|]. set (le := fun a b => _ <=? _).
  assert (forall a b, le a b = true <->
    (healthy a = true /\ healthy b = false)
    \/ healthy a = healthy b /\ observed_latency h a <= observed_latency h b) as Hle.
  { intros a b. unfold le. rewrite Z.leb_le.
    destruct (latency_key_split h now a) as [-> Ha], (latency_key_split h now b) as [-> Hb].
    fold (healthy a) (healthy b). destruct (healthy a), (healthy b); intuition (try done; lia). }
  split.
  - eapply (StronglySorted_impl_on (fun _ => True)); [|by apply Forall_true|apply sort_by_sorted].
    + intros a b _ _. apply Hle.
    + intros a b. unfold le. rewrite !Z.leb_le. lia.
    + intros a b c. unfold le. rewrite !Z.leb_le. lia.
  - intros k.
    assert (forall t, equiv_to le k t = true <->
      healthy t = healthy k /\ observed_latency h t = observed_latency h k) as He.
    { intros t. unfold equiv_to. rewrite andb_true_iff, !Hle.
      destruct (healthy t), (healthy k); intuition (try done; lia). }
    rewrite <- (list_filter_iff _ _ ts He), <- (list_filter_iff _ _ (sort_by le ts) He).
    apply sort_by_stable.
    intros a b c. unfold le. rewrite !Z.leb_le. lia.
Qed.
