(* ===== verification/Fallback.v ===== *)
(** * Fallback: the multi-target execution loop

    [execute_with_fallback] of [crates/server/src/ingress/fallback.rs], with
    [RetryPolicy::delay_for].  The loop runs in a monad over a [World]: the
    health registry it shares with the other requests, the clocks, the random
    source, and a log of what it did.  The rest of the gateway is the class
    [Gateway]: between any two operations of the loop it may let time pass and
    change the registry, and it decides what a call to a target returns. *)

From stdpp Require Import base option list gmap strings.
From Stdlib Require Import ZArith Lia SpecFloat.
From S2P Require Import Prelude RustStr F64 Telemetry Protocol Classify Health Targets Errors Ir Strategy.

Local Open Scope string_scope.
Local Open Scope list_scope.

(** ** Telemetry events *)

Inductive EventPayload :=
| RequestStarted (virtual_model ingress_protocol : string) (stream : bool)
| RouteResolved (targets : list string) (strategy : string)
| HopStart (target provider model egress_protocol : string) (hop : nat)
| HopSuccess (target : string) (hop : nat) (latency_ms : Z) (usage : option Usage)
| HopFailure (target : string) (hop : nat) (error error_class : string) (latency_ms : Z)
| HopDecision (target : string) (hop : nat) (decision : string)
| RequestCompleted (status : string) (error_class : option string)
    (total_latency_ms upstream_latency_ms : Z) (ttfb_ms : option Z) (tokens : option Usage)
    (cost : option Z) (api_key_id client_ip user_agent trace_id span_id : option string).

Record PipelineEvent := {
  ev_request_id : string;
  ev_timestamp : Z;
  ev_stage : string;
  ev_payload : EventPayload;
}.

Definition protocol_log_label (p : ProtocolEndpoint) : string :=
  let name := if decide (suite p = OpenAiResponses)
              then fst (ProtocolSuite.default_endpoint_id (suite p))
              else pe_name p in
  ProtocolSuite.label (suite p) +:+ "/" +:+ name +:+ "/" +:+ pe_version p.

(** ** Retry delays *)

Definition u64_pow2 (n : Z) : Z := wrap64 (2 ^ n).
Definition duration_limit : Z := (18446744073709551616 * ns_per_sec)%Z.

(** The clamped delay before jitter: the power wraps at 64 bits, its cast keeps
    32, and the product panics when it is not representable. *)
Definition clamped_delay (p : RetryPolicy) (retry_num : nat) : run Z :=
  let exp := u64_pow2 (wrap32 (Z.of_nat retry_num)) in
  let delay := (base_delay_ns p * wrap32 exp)%Z in
  if (delay <? duration_limit)%Z then Ok (Z.min delay (max_delay_ns p)) else Err DurationOverflow.

Definition f64_div : f64 -> f64 -> f64 := SFdiv prec64 emax64.

Definition as_secs_f64 (d : Z) : f64 :=
  f64_add (f64_of_Z (d / ns_per_sec)) (f64_div (f64_of_Z (d mod ns_per_sec)) (f64_of_Z ns_per_sec)).

(** The division rounded to the nearest integer, ties to even. *)
Definition div_nearest (n d : Z) : Z :=
  let q := (n / d)%Z in
  match Z.compare (2 * (n mod d)) d with
  | Lt => q
  | Gt => q + 1
  | Eq => if Z.even q then q else q + 1
  end%Z.

(** [Duration::from_secs_f64]: the nearest nanosecond, a panic when negative,
    not finite or too large. *)
Definition from_secs_f64 (x : f64) : run Z :=
  match x with
  | S754_zero _ => Ok 0%Z
  | S754_finite false m e =>
      let ns := if (0 <=? e)%Z then (Zpos m * 2 ^ e * ns_per_sec)%Z
                else div_nearest (Zpos m * ns_per_sec) (2 ^ (- e)) in
      if (ns <? duration_limit)%Z then Ok ns else Err DurationOverflow
  | _ => Err DurationOverflow
  end.

(** [delay_for] with the draw of [rand::random::<f64>()]. *)
Definition delay_for (p : RetryPolicy) (retry_num : nat) (random : f64) : run Z :=
  clamped ← clamped_delay p retry_num;
  let jitter := f64_mul (f64_mul random (f64_lit 1 (-1))) (as_secs_f64 clamped) in
  let jittered := f64_add (f64_mul (as_secs_f64 clamped) (f64_lit 3 (-2))) jitter in
  from_secs_f64 jittered.

(** ** The world of the loop *)

Class Gateway := {
  Response : Type;
  Env : Type;
  (** what the other tasks do between two operations of this one *)
  env_step : Env -> HealthRegistry -> Z -> Env * HealthRegistry * Z;
  env_time e h now : (now <= snd (env_step e h now))%Z;
  utc_now : Env -> Z;
  random_f64 : Env -> f64;
  (** a call to a target: its result and the access token it applied *)
  execute_one : Env -> RoutingTarget
                -> run (result AppError (Response * option Z) * option string * Env);
  refresh_after_unauthorized : Env -> RoutingTarget -> string -> run (result string bool * Env);
}.

Section Loop.
Context `{Lowercase} `{GenRange} `{Gateway}.

Inductive action :=
| Sent (e : PipelineEvent)
| Checked (key : string) (healthy : bool)
| Executed (t : RoutingTarget) (r : result AppError (Response * option Z))
| Refreshed (key : string) (ok : bool)
| Registry (e : health_event)
| Slept (ns : Z)
| SetEgress (p : ProtocolEndpoint)
| SetResolved (provider model : string)
| SetTtfb (ms : option Z).

Record World := {
  w_env : Env;
  w_now : Z;
  w_health : HealthRegistry;
  w_rng : Rng;
  w_log : list action;
}.

Definition M (A : Type) : Type := World -> run (A * World).

#[export] Instance M_ret : MRet M := fun A a w => Ok (a, w).
#[export] Instance M_bind : MBind M :=
  fun A B f m w => match m w with Ok (a, w') => f a w' | Err p => Err p end.

Definition interleave : M unit := fun w =>
  let '(e, h, n) := env_step (w_env w) (w_health w) (w_now w) in
  Ok (tt, {| w_env := e; w_now := n; w_health := h; w_rng := w_rng w; w_log := w_log w |}).

Definition log (a : action) : M unit := fun w =>
  Ok (tt, {| w_env := w_env w; w_now := w_now w; w_health := w_health w; w_rng := w_rng w;
             w_log := w_log w ++ [a] |}).

Definition gets {A} (f : World -> run A) : M A := fun w =>
  match f w with Ok a => Ok (a, w) | Err p => Err p end.

Definition get_now : M Z := _ ← interleave; gets (fun w => Ok (w_now w)).
Definition get_utc : M Z := _ ← interleave; gets (fun w => Ok (utc_now (w_env w))).

Definition send (request_id stage : string) (p : EventPayload) : M unit :=
  t ← get_utc;
  log (Sent {| ev_request_id := request_id; ev_timestamp := t; ev_stage := stage;
               ev_payload := p |}).

Definition emit_hop_decision (request_id target : string) (hop : nat) (decision : string)
  : M unit :=
  send request_id "execute" (HopDecision target hop decision).

Definition check_health (key : string) : M bool :=
  now ← get_now;
  b ← gets (fun w => Ok (HealthRegistry.is_healthy (w_health w) key now));
  _ ← log (Checked key b);
  mret b.

(** One operation on the registry, recorded in the log. *)
Definition set_health (h : HealthRegistry) : M unit := fun w =>
  Ok (tt, {| w_env := w_env w; w_now := w_now w; w_health := h; w_rng := w_rng w;
             w_log := w_log w |}).

Definition registry (e : health_event) : M unit :=
  h ← gets (fun w => health_step (w_health w) e);
  _ ← set_health h;
  log (Registry e).

Definition record_success (key : string) : M unit :=
  _ ← interleave; registry (EvSuccess key).
Definition record_failure (key : string) : M unit :=
  now ← get_now; registry (EvFailure key now).
Definition record_latency_ms (key : string) (ms : Z) : M unit :=
  _ ← interleave; registry (EvLatency key ms).
Definition apply_cooling (key : string) (duration : Z) (reason : string) : M unit :=
  now ← get_now; registry (EvCooling key now duration reason).

Definition set_env (e : Env) : M unit := fun w =>
  Ok (tt, {| w_env := e; w_now := w_now w; w_health := w_health w; w_rng := w_rng w;
             w_log := w_log w |}).

Definition call (t : RoutingTarget)
  : M (result AppError (Response * option Z) * option string) :=
  _ ← interleave;
  '(r, token, e) ← gets (fun w => execute_one (w_env w) t);
  _ ← set_env e;
  _ ← log (Executed t r);
  mret (r, token).

Definition refresh (t : RoutingTarget) (token : string) : M bool :=
  _ ← interleave;
  '(r, e) ← gets (fun w => refresh_after_unauthorized (w_env w) t token);
  _ ← set_env e;
  let ok := match r with Ok b => b | Err _ => false end in
  _ ← log (Refreshed (RoutingTarget.health_key t) ok);
  mret ok.

Definition backoff (p : RetryPolicy) (attempt : nat) : M unit :=
  _ ← interleave;
  d ← gets (fun w => delay_for p attempt (random_f64 (w_env w)));
  log (Slept d).

Definition set_rng (g : Rng) : M unit := fun w =>
  Ok (tt, {| w_env := w_env w; w_now := w_now w; w_health := w_health w; w_rng := g;
             w_log := w_log w |}).

Definition order_targets (name : RoutingStrategyName) (targets : list RoutingTarget)
  : M (list RoutingTarget) :=
  now ← get_now;
  '(out, g) ← gets (fun w => fst (build_strategy name) (w_health w) now (w_rng w) targets);
  _ ← set_rng g;
  mret out.

(** ** The loop *)

Inductive FallbackOutcome :=
| OutcomeSuccess (response : Response) (ttfb_ms : option Z)
| OutcomeExhausted (error : AppError)
| OutcomeFailed (error : AppError) (class : RequestErrorClass).

Record LoopState := {
  attempt : nat;
  hop : nat;
  target_index : nat;
  last_error : option AppError;
  oauth_recovered : gset string;
}.

Definition deadline_error : AppError :=
  AppError.with_class (AppError.new 504 "request deadline exceeded") DeadlineExceeded.

Definition exhausted_error : AppError :=
  AppError.with_class (AppError.new 502 "all upstream targets exhausted") UpstreamExhausted.

(** The classification the code logs and cools by. *)
Definition classification (e : AppError) : ErrorClassification :=
  match upstream_status e, AppError.upstream_error_code e with
  | None, None => classify_error (ERouting (ae_message e))
  | s, c => classify_structured s c
  end.

(** How many targets after a rejected one share its account. *)
Fixpoint skip_same_account (label : option string) (rest : list RoutingTarget) : nat :=
  match rest with
  | next :: r =>
      if bool_decide (is_Some label) && bool_decide (account_label next = label)
      then S (skip_same_account label r) else 0
  | [] => 0
  end.

(** A call, and a second one after a token refresh when the first is answered
    401 and this health key was not recovered before. *)
Definition execute_with_recovery (t : RoutingTarget) (recovered : gset string)
  : M (result AppError (Response * option Z) * gset string) :=
  '(execution, rejected_access_token) ← call t;
  let unauthorized := match execution with
                      | Err e => Z.eqb (AppError.http_status e) 401
                      | Ok _ => false
                      end in
  match rejected_access_token with
  | Some token =>
      if unauthorized && negb (bool_decide (RoutingTarget.health_key t ∈ recovered)) then
        let recovered := {[RoutingTarget.health_key t]} ∪ recovered in
        ok ← refresh t token;
        if (ok : bool) then '(execution, _) ← call t; mret (execution, recovered)
        else mret (execution, recovered)
      else mret (execution, recovered)
  | None => mret (execution, recovered)
  end.

(** Cooling after a rate limit that came with a [Retry-After] header. *)
Definition cool_rate_limited (key : string) (c : ErrorClassification) (e : AppError) : M unit :=
  if decide (fallback_class c = RateLimited) then
    match retry_after_header e with
    | Some rh =>
        match parse_u64 rh with
        | Some secs => apply_cooling key (secs * ns_per_sec) "rate_limited"
        | None => apply_cooling key (30 * ns_per_sec) "rate_limited"
        end
    | None => mret tt
    end
  else mret tt.

(** What [continue] and [return] do at the end of a round. *)
Definition fail_with (e : AppError) (c : ErrorClassification) : LoopState + FallbackOutcome :=
  inr (OutcomeFailed e (class c)).

Definition next_target (st : LoopState) (index : nat) (e : AppError)
  : LoopState + FallbackOutcome :=
  inl {| attempt := attempt st; hop := hop st; target_index := index;
         last_error := Some e; oauth_recovered := oauth_recovered st |}.

Context (request_id : string) (policy : DefaultFallbackPolicy) (deadline : Z).
Context (ordered : list RoutingTarget).

(** A target the registry refuses. *)
Definition skip_unhealthy (t : RoutingTarget) (st : LoopState) : M (LoopState + FallbackOutcome) :=
  let key := RoutingTarget.health_key t in
  let current_hop := S (hop st) in
  _ ← send request_id "routing" (HopFailure key current_hop "circuit-broken" "circuit_breaker" 0);
  _ ← emit_hop_decision request_id key current_hop "try_next";
  mret (inl {| attempt := attempt st; hop := current_hop; target_index := S (target_index st);
               last_error := last_error st; oauth_recovered := oauth_recovered st |}).

Definition on_success (key : string) (current_hop : nat) (elapsed_ms : Z)
    (response : Response) (ttfb_ms : option Z) : M (LoopState + FallbackOutcome) :=
  _ ← record_success key;
  _ ← record_latency_ms key elapsed_ms;
  _ ← send request_id "execute" (HopSuccess key current_hop elapsed_ms None);
  _ ← emit_hop_decision request_id key current_hop "success";
  _ ← log (SetTtfb ttfb_ms);
  mret (inr (OutcomeSuccess response ttfb_ms)).

Definition on_failure (t : RoutingTarget) (st : LoopState) (elapsed_ms : Z) (app_err : AppError)
  : M (LoopState + FallbackOutcome) :=
  let key := RoutingTarget.health_key t in
  let current_hop := hop st in
  _ ← record_failure key;
  _ ← record_latency_ms key elapsed_ms;
  let c := classification app_err in
  _ ← send request_id "execute"
        (HopFailure key current_hop (ae_message app_err)
           (RequestErrorClass.as_str (class c)) elapsed_ms);
  _ ← cool_rate_limited key c app_err;
  match classify policy (ERouting (ae_message app_err)) (attempt st)
          (max_total_attempts policy) 0 with
  | TryNext =>
      _ ← emit_hop_decision request_id key current_hop "try_next";
      if decide (fallback_class c = Auth) then
        _ ← apply_cooling key (300 * ns_per_sec) "auth_broken";
        let index := S (target_index st) in
        mret (next_target st
          (index + skip_same_account (account_label t) (drop index ordered)) app_err)
      else mret (next_target st (S (target_index st)) app_err)
  | Retry =>
      _ ← emit_hop_decision request_id key current_hop "retry";
      mret (next_target st (target_index st) app_err)
  | Fail =>
      _ ← emit_hop_decision request_id key current_hop "fail";
      mret (fail_with app_err c)
  end.

(** One attempt against a healthy target. *)
Definition attempt_target (t : RoutingTarget) (st : LoopState)
  : M (LoopState + FallbackOutcome) :=
  let key := RoutingTarget.health_key t in
  _ ← (if (0 <? attempt st)%nat && (target_index st <? attempt st)%nat
       then backoff RetryPolicy_with_defaults (attempt st) else mret tt);
  let current_hop := S (hop st) in
  hop_started ← get_utc;
  _ ← log (Sent {| ev_request_id := request_id; ev_timestamp := hop_started;
                   ev_stage := "execute";
                   ev_payload := HopStart key (provider_id t) (model_id t)
                                   (protocol_log_label (api_protocol t)) current_hop |});
  _ ← log (SetEgress (api_protocol t));
  _ ← log (SetResolved (provider_id t) (model_id t));
  '(execution, recovered) ← execute_with_recovery t (oauth_recovered st);
  let st' := {| attempt := S (attempt st); hop := current_hop;
                target_index := target_index st; last_error := last_error st;
                oauth_recovered := recovered |} in
  hop_ended ← get_utc;
  let elapsed_ms := Z.max (Z.quot (hop_ended - hop_started) 1000000) 0 in
  match execution with
  | Ok (response, ttfb_ms) => on_success key current_hop elapsed_ms response ttfb_ms
  | Err app_err => on_failure t st' elapsed_ms app_err
  end.

(** One round of the [while] loop. *)
Definition round (t : RoutingTarget) (st : LoopState) : M (LoopState + FallbackOutcome) :=
  now ← get_now;
  if (deadline <? now)%Z then mret (inr (OutcomeFailed deadline_error RDeadlineExceeded))
  else
    healthy ← check_health (RoutingTarget.health_key t);
    if (healthy : bool) then attempt_target t st else skip_unhealthy t st.

(** The loop; [None] says that the rounds were not enough. *)
Fixpoint loop (rounds : nat) (st : LoopState) : M (option FallbackOutcome) :=
  match ordered !! target_index st with
  | Some t =>
      if (attempt st <? max_total_attempts policy)%nat then
        match rounds with
        | O => mret None
        | S n =>
            r ← round t st;
            match r with
            | inl st' => loop n st'
            | inr outcome => mret (Some outcome)
            end
        end
      else mret (Some (OutcomeExhausted (default exhausted_error (last_error st))))
  | None => mret (Some (OutcomeExhausted (default exhausted_error (last_error st))))
  end.
End Loop.

Section Execute.
Context `{Lowercase} `{GenRange} `{Gateway}.

Definition initial_state : LoopState :=
  {| attempt := 0; hop := 0; target_index := 0; last_error := None; oauth_recovered := ∅ |}.

(** Every round takes the loop past one target or ends it, so one round per
    target is enough. *)
Definition rounds_for (ordered : list RoutingTarget) : nat := length ordered.

Definition execute_with_fallback (table : RoutingTable) (default_strategy : RoutingStrategyName)
    (targets : list RoutingTarget) (virtual_model request_id : string)
  : M (option FallbackOutcome) :=
  let policy := DefaultFallbackPolicy_with_defaults in
  now ← get_now;
  deadline ← gets (fun _ => instant_add now (deadline_ns policy));
  let effective := default default_strategy (RoutingTable.resolve_strategy table virtual_model) in
  ordered ← order_targets effective targets;
  _ ← send request_id "ingress"
        (RouteResolved (map RoutingTarget.health_key ordered) (snd (build_strategy effective)));
  loop request_id policy deadline ordered (rounds_for ordered) initial_state.
End Execute.

(** ** The abstract loop

    What the loop does, without the monad: the facts of a run that matter
    (health checks, starts of hops, calls, token refreshes, registry
    operations, sleeps), one relation for the call of a target, one for a round
    and one for a whole run. *)

Section Spec.
Context `{Lowercase} `{GenRange} `{Gateway}.

Inductive fact :=
| FChecked (key : string) (healthy : bool)
| FStart (key : string)
| FCall (t : RoutingTarget) (r : result AppError (Response * option Z))
| FRefresh (key : string) (ok : bool)
| FReg (e : health_event)
| FSlept (ns : Z).

Definition fact_of (a : action) : option fact :=
  match a with
  | Sent e => match ev_payload e with HopStart key _ _ _ _ => Some (FStart key) | _ => None end
  | Checked key b => Some (FChecked key b)
  | Executed t r => Some (FCall t r)
  | Refreshed key ok => Some (FRefresh key ok)
  | Registry e => Some (FReg e)
  | Slept ns => Some (FSlept ns)
  | _ => None
  end.

Definition facts (l : list action) : list fact := omap fact_of l.

(** A call with its possible recovery. *)
Inductive Call (t : RoutingTarget) (recovered : gset string)
  : result AppError (Response * option Z) -> gset string -> list fact -> Prop :=
| call_once r : Call t recovered r recovered [FCall t r]
| call_refresh_failed e :
    AppError.http_status e = 401%Z -> RoutingTarget.health_key t ∉ recovered ->
    Call t recovered (Err e) ({[RoutingTarget.health_key t]} ∪ recovered)
      [FCall t (Err e); FRefresh (RoutingTarget.health_key t) false]
| call_twice e r :
    AppError.http_status e = 401%Z -> RoutingTarget.health_key t ∉ recovered ->
    Call t recovered r ({[RoutingTarget.health_key t]} ∪ recovered)
      [FCall t (Err e); FRefresh (RoutingTarget.health_key t) true; FCall t r].

(** The cooling after a rate limit. *)
Inductive RateCooling (key : string) (e : AppError) : list fact -> Prop :=
| cool_none :
    fallback_class (classification e) <> RateLimited \/ retry_after_header e = None ->
    RateCooling key e []
| cool_header rh now :
    fallback_class (classification e) = RateLimited -> retry_after_header e = Some rh ->
    RateCooling key e
      [FReg (EvCooling key now
               (default 30%Z (parse_u64 rh) * ns_per_sec) "rate_limited")].

Context (policy : DefaultFallbackPolicy) (ordered : list RoutingTarget).

Definition decision_for (attempt : nat) (e : AppError) : FallbackDecision :=
  classify policy (ERouting (ae_message e)) attempt (max_total_attempts policy) 0.

Definition may_sleep (st : LoopState) (f : list fact) : Prop :=
  if (0 <? attempt st)%nat && (target_index st <? attempt st)%nat
  then exists ns, f = [FSlept ns] else f = [].

Definition after_attempt (st : LoopState) (recovered : gset string) (index : nat) (e : AppError)
  : LoopState :=
  {| attempt := S (attempt st); hop := S (hop st); target_index := index;
     last_error := Some e; oauth_recovered := recovered |}.

Definition failure_facts (key : string) (now ms : Z) : list fact :=
  [FReg (EvFailure key now); FReg (EvLatency key ms)].

(** Where the loop goes after an error it does not give up on. *)
Definition next_index (t : RoutingTarget) (st : LoopState) (e : AppError) : nat :=
  let index := S (target_index st) in
  if decide (fallback_class (classification e) = Auth)
  then index + skip_same_account (account_label t) (drop index ordered) else index.

Definition auth_cooling (key : string) (now : Z) (e : AppError) : list fact :=
  if decide (fallback_class (classification e) = Auth)
  then [FReg (EvCooling key now (300 * ns_per_sec) "auth_broken")] else [].

Inductive Round (t : RoutingTarget) (st : LoopState)
  : LoopState + FallbackOutcome -> list fact -> Prop :=
| round_deadline : Round t st (inr (OutcomeFailed deadline_error RDeadlineExceeded)) []
| round_unhealthy :
    Round t st
      (inl {| attempt := attempt st; hop := S (hop st); target_index := S (target_index st);
              last_error := last_error st; oauth_recovered := oauth_recovered st |})
      [FChecked (RoutingTarget.health_key t) false]
| round_success response ttfb recovered slept calls ms :
    may_sleep st slept -> Call t (oauth_recovered st) (Ok (response, ttfb)) recovered calls ->
    Round t st (inr (OutcomeSuccess response ttfb))
      (FChecked (RoutingTarget.health_key t) true :: slept
       ++ FStart (RoutingTarget.health_key t) :: calls
       ++ [FReg (EvSuccess (RoutingTarget.health_key t));
           FReg (EvLatency (RoutingTarget.health_key t) ms)])
| round_failed e recovered slept calls cool now ms :
    may_sleep st slept -> Call t (oauth_recovered st) (Err e) recovered calls ->
    decision_for (S (attempt st)) e = Fail ->
    RateCooling (RoutingTarget.health_key t) e cool ->
    Round t st (inr (OutcomeFailed e (class (classification e))))
      (FChecked (RoutingTarget.health_key t) true :: slept
       ++ FStart (RoutingTarget.health_key t) :: calls
       ++ failure_facts (RoutingTarget.health_key t) now ms ++ cool)
| round_next e recovered slept calls cool now now' ms :
    may_sleep st slept -> Call t (oauth_recovered st) (Err e) recovered calls ->
    decision_for (S (attempt st)) e = TryNext ->
    RateCooling (RoutingTarget.health_key t) e cool ->
    Round t st (inl (after_attempt st recovered (next_index t st e) e))
      (FChecked (RoutingTarget.health_key t) true :: slept
       ++ FStart (RoutingTarget.health_key t) :: calls
       ++ failure_facts (RoutingTarget.health_key t) now ms ++ cool
       ++ auth_cooling (RoutingTarget.health_key t) now' e).

Inductive Run : LoopState -> FallbackOutcome -> list fact -> Prop :=
| run_end st :
    ordered !! target_index st = None \/ (max_total_attempts policy <= attempt st)%nat ->
    Run st (OutcomeExhausted (default exhausted_error (last_error st))) []
| run_stop st t o f :
    ordered !! target_index st = Some t -> (attempt st < max_total_attempts policy)%nat ->
    Round t st (inr o) f -> Run st o f
| run_step st t st' o f1 f2 :
    ordered !! target_index st = Some t -> (attempt st < max_total_attempts policy)%nat ->
    Round t st (inl st') f1 -> Run st' o f2 -> Run st o (f1 ++ f2).
End Spec.

(** ** From the monad to the facts

    [emits m P]: whenever [m] returns, it has appended to the log actions
    whose facts satisfy [P]. *)

Section Emits.
Context `{Lowercase} `{GenRange} `{Gateway}.

Definition emits {A} (m : M A) (P : A -> list fact -> Prop) : Prop :=
  forall w a w', m w = Ok (a, w') -> exists l, w_log w' = w_log w ++ l /\ P a (facts l).

Lemma emits_ret {A} (a : A) (P : A -> list fact -> Prop) : P a [] -> emits (mret a) P.
Proof. intros HP w a' w' [= <- <-]. exists []. by rewrite app_nil_r. Qed.

Lemma emits_bind {A B} (m : M A) (k : A -> M B) (P : B -> list fact -> Prop) :
  emits m (fun a f => emits (k a) (fun b f' => P b (f ++ f'))) -> emits (m ≫= k) P.
Proof.
  intros Hm w b w' E. unfold mbind, M_bind in E.
  destruct (m w) as [[a w1]|] eqn:Em; [|done].
  destruct (Hm _ _ _ Em) as (l1 & Hl1 & Hk). destruct (Hk _ _ _ E) as (l2 & Hl2 & HP).
  exists (l1 ++ l2). split; [by rewrite Hl2, Hl1, app_assoc|].
  unfold facts. rewrite omap_app. exact HP.
Qed.

Lemma emits_weaken {A} (m : M A) (P Q : A -> list fact -> Prop) :
  emits m P -> (forall a f, P a f -> Q a f) -> emits m Q.
Proof. intros Hm HPQ w a w' E. destruct (Hm _ _ _ E) as (l & ? & ?). eauto. Qed.

Lemma emits_gets {A} (g : World -> run A) (P : A -> list fact -> Prop) :
  (forall a, P a []) -> emits (gets g) P.
Proof.
  intros HP w a w' E. unfold gets in E. destruct (g w); [|done]. injection E as <- <-.
  exists []. by rewrite app_nil_r.
Qed.

Lemma emits_log a (P : unit -> list fact -> Prop) : P tt (facts [a]) -> emits (log a) P.
Proof. intros HP w u w' [= <- <-]. by exists [a]. Qed.

Lemma emits_interleave (P : unit -> list fact -> Prop) : P tt [] -> emits interleave P.
Proof.
  intros HP w u w' E. unfold interleave in E.
  destruct (env_step _ _ _) as [[e h] n]. injection E as <- <-.
  exists []. by rewrite app_nil_r.
Qed.

Lemma emits_set_health h (P : unit -> list fact -> Prop) : P tt [] -> emits (set_health h) P.
Proof. intros HP w u w' [= <- <-]. exists []. by rewrite app_nil_r. Qed.
Lemma emits_set_env e (P : unit -> list fact -> Prop) : P tt [] -> emits (set_env e) P.
Proof. intros HP w u w' [= <- <-]. exists []. by rewrite app_nil_r. Qed.
Lemma emits_set_rng g (P : unit -> list fact -> Prop) : P tt [] -> emits (set_rng g) P.
Proof. intros HP w u w' [= <- <-]. exists []. by rewrite app_nil_r. Qed.
End Emits.

(** [steps] follows a chain of binds through the primitives. *)
Ltac emit :=
  first
    [ apply emits_ret | apply emits_gets; intros ? | apply emits_log | apply emits_interleave
    | apply emits_set_health | apply emits_set_env | apply emits_set_rng
    | simple apply emits_bind ].
Ltac steps := repeat (emit; cbn [facts omap list_omap fact_of ev_payload app]).

Section Refinement.
Context `{Lowercase} `{GenRange} `{Gateway}.

Lemma emits_get_now (P : Z -> list fact -> Prop) : (forall n, P n []) -> emits get_now P.
Proof. intros. unfold get_now. steps. done. Qed.
Lemma emits_get_utc (P : Z -> list fact -> Prop) : (forall n, P n []) -> emits get_utc P.
Proof. intros. unfold get_utc. steps. done. Qed.

Lemma emits_send id stage p (P : unit -> list fact -> Prop) :
  match p with HopStart _ _ _ _ _ => False | _ => True end -> P tt [] -> emits (send id stage p) P.
Proof.
  intros Hp HP. unfold send. apply emits_bind, emits_get_utc. intros n. apply emits_log. cbn.
  by destruct p.
Qed.

Lemma emits_decision id key hop d (P : unit -> list fact -> Prop) :
  P tt [] -> emits (emit_hop_decision id key hop d) P.
Proof. intros. by apply emits_send. Qed.

Lemma emits_check key (P : bool -> list fact -> Prop) :
  (forall b, P b [FChecked key b]) -> emits (check_health key) P.
Proof. intros HP. unfold check_health. apply emits_bind, emits_get_now. intros n. steps. apply HP. Qed.

Lemma emits_registry e (P : unit -> list fact -> Prop) :
  P tt [FReg e] -> emits (registry e) P.
Proof. intros HP. unfold registry. steps. exact HP. Qed.

Lemma emits_record_success key (P : unit -> list fact -> Prop) :
  P tt [FReg (EvSuccess key)] -> emits (record_success key) P.
Proof. intros HP. unfold record_success. apply emits_bind, emits_interleave. by apply emits_registry. Qed.
Lemma emits_record_latency key ms (P : unit -> list fact -> Prop) :
  P tt [FReg (EvLatency key ms)] -> emits (record_latency_ms key ms) P.
Proof. intros HP. unfold record_latency_ms. apply emits_bind, emits_interleave. by apply emits_registry. Qed.
Lemma emits_record_failure key (P : unit -> list fact -> Prop) :
  (forall now, P tt [FReg (EvFailure key now)]) -> emits (record_failure key) P.
Proof.
  intros HP. unfold record_failure. apply emits_bind, emits_get_now. intros n.
  apply emits_registry, HP.
Qed.
Lemma emits_apply_cooling key d why (P : unit -> list fact -> Prop) :
  (forall now, P tt [FReg (EvCooling key now d why)]) -> emits (apply_cooling key d why) P.
Proof.
  intros HP. unfold apply_cooling. apply emits_bind, emits_get_now. intros n.
  apply emits_registry, HP.
Qed.

Lemma emits_call t (P : result AppError (Response * option Z) * option string -> list fact -> Prop) :
  (forall r token, P (r, token) [FCall t r]) -> emits (call t) P.
Proof. intros HP. unfold call. steps. destruct a as [[r token] e]. steps. apply HP. Qed.

Lemma emits_refresh t token (P : bool -> list fact -> Prop) :
  (forall b, P b [FRefresh (RoutingTarget.health_key t) b]) -> emits (refresh t token) P.
Proof. intros HP. unfold refresh. steps. destruct a as [r e]. steps. apply HP. Qed.

Lemma emits_recovery t recovered
    (P : result AppError (Response * option Z) * gset string -> list fact -> Prop) :
  (forall r rec f, Call t recovered r rec f -> P (r, rec) f) ->
  emits (execute_with_recovery t recovered) P.
Proof.
  intros HP. unfold execute_with_recovery. apply emits_bind, emits_call. intros r [token|].
  2: { apply emits_ret. cbn. apply HP. constructor. }
  destruct (_ && _) eqn:E; [|apply emits_ret; cbn; apply HP; constructor].
  apply andb_prop in E as [E1 E2]. apply negb_true_iff, bool_decide_eq_false in E2.
  destruct r as [|e]; [done|]. apply Z.eqb_eq in E1.
  apply emits_bind, emits_refresh. intros [].
  - apply emits_bind, emits_call. intros r' token'. apply emits_ret. cbn. apply HP.
    by constructor.
  - apply emits_ret. cbn. apply HP. by constructor.
Qed.
End Refinement.

Section RoundRefinement.
Context `{Lowercase} `{GenRange} `{Gateway}.
Context (request_id : string) (policy : DefaultFallbackPolicy) (deadline : Z).
Context (ordered : list RoutingTarget).

Lemma classify_never_retries e attempt max bytes : classify policy e attempt max bytes <> Retry.
Proof.
  unfold classify, decide_class. destruct (0 <? bytes)%Z; [done|].
  destruct (_ <=? attempt)%nat; [done|]. by destruct (fallback_class _).
Qed.

Lemma emits_cool key e (P : unit -> list fact -> Prop) :
  (forall f, RateCooling key e f -> P tt f) ->
  emits (cool_rate_limited key (classification e) e) P.
Proof.
  intros HP. unfold cool_rate_limited. destruct (decide _) as [Hc|Hc].
  2: { apply emits_ret, HP. constructor. by left. }
  destruct (retry_after_header e) as [rh|] eqn:Er.
  2: { apply emits_ret, HP. constructor. by right. }
  pose proof (fun now => cool_header key e rh now Hc Er) as Hh.
  destruct (parse_u64 rh); apply emits_apply_cooling; intros now; apply HP, Hh.
Qed.

Lemma emits_on_success key hop ms response ttfb
    (P : LoopState + FallbackOutcome -> list fact -> Prop) :
  P (inr (OutcomeSuccess response ttfb)) [FReg (EvSuccess key); FReg (EvLatency key ms)] ->
  emits (on_success request_id key hop ms response ttfb) P.
Proof.
  intros HP. unfold on_success. apply emits_bind, emits_record_success.
  apply emits_bind, emits_record_latency. apply emits_bind, emits_send; [done|].
  apply emits_bind, emits_decision. apply emits_bind, emits_log. by apply emits_ret.
Qed.

(** The outcome of a failed attempt in state [st], reached with the recovered
    keys [rec]. *)
Lemma emits_on_failure t st rec ms e (P : LoopState + FallbackOutcome -> list fact -> Prop) :
  let key := RoutingTarget.health_key t in
  (forall now cool, decision_for policy (S (attempt st)) e = Fail -> RateCooling key e cool ->
     P (inr (OutcomeFailed e (class (classification e)))) (failure_facts key now ms ++ cool)) ->
  (forall now now' cool,
     decision_for policy (S (attempt st)) e = TryNext -> RateCooling key e cool ->
     P (inl (after_attempt st rec (next_index ordered t st e) e))
       (failure_facts key now ms ++ cool ++ auth_cooling key now' e)) ->
  emits (on_failure request_id policy ordered t
           {| attempt := S (attempt st); hop := S (hop st); target_index := target_index st;
              last_error := last_error st; oauth_recovered := rec |} ms e) P.
Proof.
  intros key Hfail Hnext. unfold on_failure. apply emits_bind, emits_record_failure. intros now.
  apply emits_bind, emits_record_latency. apply emits_bind, emits_send; [done|].
  apply emits_bind, emits_cool. intros cool Hcool. cbn [attempt hop target_index].
  pose proof (classify_never_retries (ERouting (ae_message e)) (S (attempt st))
                (max_total_attempts policy) 0) as Hr.
  unfold decision_for in *. destruct (classify _ _ _ _ _) eqn:Ed; [|done|].
  - apply emits_bind, emits_decision. unfold next_index, auth_cooling in Hnext.
    destruct (decide _).
    + apply emits_bind, emits_apply_cooling. intros now'. apply emits_ret.
      exact (Hnext now now' cool eq_refl Hcool).
    + apply emits_ret. specialize (Hnext now now cool eq_refl Hcool).
      rewrite app_nil_r in *. exact Hnext.
  - apply emits_bind, emits_decision, emits_ret. specialize (Hfail now cool eq_refl Hcool).
    rewrite !app_nil_r. exact Hfail.
Qed.

Lemma emits_round t st (P : LoopState + FallbackOutcome -> list fact -> Prop) :
  (forall r f, Round policy ordered t st r f -> P r f) ->
  emits (round request_id policy deadline ordered t st) P.
Proof.
  intros HP. unfold round. apply emits_bind, emits_get_now. intros now.
  destruct (deadline <? now)%Z; [apply emits_ret, HP; constructor|].
  apply emits_bind, emits_check. intros [].
  2: { unfold skip_unhealthy. apply emits_bind, emits_send; [done|].
       apply emits_bind, emits_decision, emits_ret, HP. constructor. }
  unfold attempt_target. apply emits_bind.
  assert (forall Q : unit -> list fact -> Prop,
    (forall f, may_sleep st f -> Q tt f) ->
    emits (if (0 <? attempt st)%nat && (target_index st <? attempt st)%nat
           then backoff RetryPolicy_with_defaults (attempt st) else mret tt) Q) as Hsleep.
  { intros Q HQ. unfold may_sleep in HQ. destruct (_ && _); [|by apply emits_ret, HQ].
    unfold backoff. apply emits_bind, emits_interleave, emits_bind, emits_gets. intros d.
    apply emits_log, HQ. by exists d. }
  apply Hsleep. intros slept Hsl. clear Hsleep.
  apply emits_bind, emits_get_utc. intros started. apply emits_bind, emits_log.
  apply emits_bind, emits_log. apply emits_bind, emits_log.
  apply emits_bind, emits_recovery. intros r rec calls Hcall.
  apply emits_bind, emits_get_utc. intros ended. cbn [facts omap list_omap fact_of ev_payload app].
  destruct r as [[response ttfb]|e].
  - apply emits_on_success, HP.
    by apply round_success with (recovered := rec).
  - apply emits_on_failure.
    + intros now1 cool Hd Hc. apply HP. by apply round_failed with (recovered := rec).
    + intros now1 now' cool Hd Hc. apply HP. by apply round_next with (recovered := rec).
Qed.

Lemma round_progress t st st' f :
  Round policy ordered t st (inl st') f -> (target_index st < target_index st')%nat.
Proof.
  inversion 1; subst; cbn; [lia|]. unfold next_index. destruct (decide _); lia.
Qed.

(** The monadic loop refines [Run], and its rounds are enough. *)
Lemma emits_loop rounds st (P : option FallbackOutcome -> list fact -> Prop) :
  (length ordered <= target_index st + rounds)%nat ->
  (forall o f, Run policy ordered st o f -> P (Some o) f) ->
  emits (loop request_id policy deadline ordered rounds st) P.
Proof.
  revert st P. induction rounds as [|n IH]; intros st P Hn HP; cbn [loop].
  - rewrite (proj2 (lookup_ge_None _ _)) by lia. apply emits_ret, HP.
    constructor. left. apply lookup_ge_None. lia.
  - destruct (ordered !! target_index st) as [t|] eqn:Et.
    2: { apply emits_ret, HP. constructor. by left. }
    destruct (attempt st <? max_total_attempts policy)%nat eqn:Ea.
    2: { apply emits_ret, HP. constructor. right. by apply Nat.ltb_ge. }
    apply Nat.ltb_lt in Ea. apply emits_bind, emits_round. intros [st'|o] f Hr.
    + apply IH.
      * apply round_progress in Hr. lia.
      * intros o f' Hrun. apply HP. by eapply run_step.
    + apply emits_ret. rewrite app_nil_r. apply HP. by eapply run_stop.
Qed.
End RoundRefinement.
