(* ===== verification/FallbackProps.v ===== *)
(** * FallbackProps: what the multi-target loop guarantees

    The theorems on [Fallback]: the refinement of the abstract run, and what
    follows from it by induction on runs; totality; the panics and decisions
    that follow from the text of an error. *)

From stdpp Require Import base option list gmap sets strings.
From Stdlib Require Import ZArith Lia SpecFloat.
From S2P Require Import Prelude RustStr F64 Telemetry Protocol Classify Health Targets Errors Ir Strategy Fallback.

Local Open Scope string_scope.
Local Open Scope list_scope.

Section Observations.
Context `{Lowercase} `{GenRange} `{Gateway}.

(** The calls of a run with their results, its hops, its token refreshes. *)
Fixpoint calls (f : list fact) : list (RoutingTarget * result AppError (Response * option Z)) :=
  match f with
  | [] => []
  | FCall t r :: f => (t, r) :: calls f
  | _ :: f => calls f
  end.
Fixpoint starts (f : list fact) : list string :=
  match f with [] => [] | FStart k :: f => k :: starts f | _ :: f => starts f end.
Fixpoint refreshes (f : list fact) : list string :=
  match f with [] => [] | FRefresh k _ :: f => k :: refreshes f | _ :: f => refreshes f end.
Definition is_sleep (x : fact) : bool := match x with FSlept _ => true | _ => false end.

(** The hops, calls and token refreshes of a run. *)
Fixpoint trail (f : list fact) : list fact :=
  match f with
  | [] => []
  | (FStart _ | FCall _ _ | FRefresh _ _) as x :: f => x :: trail f
  | _ :: f => trail f
  end.

(** A hop to [t]: its start and one call; after a 401 a token refresh, and the
    second call only when the refresh succeeded. *)
Inductive a_hop (t : RoutingTarget) : list fact -> Prop :=
| hop_once r : a_hop t [FStart (RoutingTarget.health_key t); FCall t r]
| hop_unrefreshed e : AppError.http_status e = 401%Z ->
    a_hop t [FStart (RoutingTarget.health_key t); FCall t (Err e);
             FRefresh (RoutingTarget.health_key t) false]
| hop_twice e r : AppError.http_status e = 401%Z ->
    a_hop t [FStart (RoutingTarget.health_key t); FCall t (Err e);
             FRefresh (RoutingTarget.health_key t) true; FCall t r].

(** The hops go through the targets in their order, at most one for each. *)
Inductive walks : list RoutingTarget -> list fact -> Prop :=
| walks_end l : walks l []
| walks_skip t l f : walks l f -> walks (t :: l) f
| walks_hop t l h f : a_hop t h -> walks l f -> walks (t :: l) (h ++ f).

(** What every hop ended with; [cur] is the last call of the hop it is in. *)
Fixpoint hop_ends (cur : option (result AppError (Response * option Z))) (f : list fact)
    : list (result AppError (Response * option Z)) :=
  match f with
  | [] => option_list cur
  | FStart _ :: f => option_list cur ++ hop_ends None f
  | FCall _ r :: f => hop_ends (Some r) f
  | _ :: f => hop_ends cur f
  end.

(** The errors after which the next target is tried: those of these classes,
    while there are attempts left. *)
Definition passing_on (c : ErrorClass) : bool :=
  match c with Transient | RateLimited | Auth | DeadlineExceeded | Overloaded => true | _ => false end.
Definition passes (policy : DefaultFallbackPolicy) (attempts : nat) (e : AppError) : bool :=
  (attempts <? max_total_attempts policy)%nat
  && passing_on (fallback_class (classify_error (ERouting (ae_message e)))).

(** Hops that failed and passed on, after [n] attempts. *)
Fixpoint passed_on (policy : DefaultFallbackPolicy) (n : nat)
    (l : list (result AppError (Response * option Z))) : Prop :=
  match l with
  | [] => True
  | r :: l => (exists e, r = Err e /\ passes policy (S n) e = true) /\ passed_on policy (S n) l
  end.

(** Every call and every hop comes right after a positive health check of its
    own target: [last] is the last check before. *)
Fixpoint guarded (last : option (string * bool)) (f : list fact) : Prop :=
  match f with
  | [] => True
  | FChecked k b :: r => guarded (Some (k, b)) r
  | FCall t _ :: r => last = Some (RoutingTarget.health_key t, true) /\ guarded last r
  | FStart k :: r => last = Some (k, true) /\ guarded last r
  | _ :: r => guarded last r
  end.

Definition is_err {E A} (r : result E A) : Prop := match r with Err _ => True | Ok _ => False end.

(** What an outcome says about the facts that led to it: [n] attempts were made
    before them. *)
Definition outcome_matches (policy : DefaultFallbackPolicy) (n : nat) (last : option AppError)
    (o : FallbackOutcome) (f : list fact) : Prop :=
  match o with
  | OutcomeSuccess response ttfb =>
      (exists pre t, calls f = pre ++ [(t, Ok (response, ttfb))] /\ Forall (fun x => is_err (snd x)) pre)
      /\ exists q, hop_ends None f = q ++ [Ok (response, ttfb)] /\ passed_on policy n q
  | OutcomeExhausted e =>
      Forall (fun x => is_err (snd x)) (calls f)
      /\ match list.last (calls f) with
         | Some (_, r) => r = Err e
         | None => e = default exhausted_error last
         end
      /\ passed_on policy n (hop_ends None f)
  | OutcomeFailed e k =>
      Forall (fun x => is_err (snd x)) (calls f)
      /\ (e = deadline_error /\ k = RDeadlineExceeded /\ passed_on policy n (hop_ends None f)
          \/ k = class (classification e)
             /\ exists q, hop_ends None f = q ++ [Err e] /\ passed_on policy n q
                /\ passes policy (n + S (length q)) e = false)
  end.
End Observations.

(** ** Lemmas *)

Section Lemmas.
Context `{Lowercase} `{GenRange} `{Gateway}.

Lemma calls_app f1 f2 : calls (f1 ++ f2) = calls f1 ++ calls f2.
Proof. induction f1 as [|[] f1 IH]; cbn; by rewrite ?IH. Qed.
Lemma starts_app f1 f2 : starts (f1 ++ f2) = starts f1 ++ starts f2.
Proof. induction f1 as [|[] f1 IH]; cbn; by rewrite ?IH. Qed.
Lemma refreshes_app f1 f2 : refreshes (f1 ++ f2) = refreshes f1 ++ refreshes f2.
Proof. induction f1 as [|[] f1 IH]; cbn; by rewrite ?IH. Qed.

Lemma trail_app f1 f2 : trail (f1 ++ f2) = trail f1 ++ trail f2.
Proof. induction f1 as [|[] f1 IH]; cbn; by rewrite ?IH. Qed.
Lemma calls_trail f : calls (trail f) = calls f.
Proof. induction f as [|[] f IH]; cbn; by rewrite ?IH. Qed.
Lemma starts_trail f : starts (trail f) = starts f.
Proof. induction f as [|[] f IH]; cbn; by rewrite ?IH. Qed.
Lemma hop_ends_trail cur f : hop_ends cur (trail f) = hop_ends cur f.
Proof. revert cur. induction f as [|[] f IH]; intros cur; cbn; by rewrite ?IH. Qed.

Lemma walks_drop l f n : walks (drop n l) f -> walks l f.
Proof.
  revert l. induction n as [|n IH]; intros [|t l]; cbn; try done. intros Hf. constructor. auto.
Qed.

Lemma walks_calls l f : walks l f -> (length (calls f) <= 2 * length (starts f))%nat.
Proof.
  induction 1 as [| |t l h f Hh _ IH]; [done..|]. rewrite calls_app, starts_app, !length_app.
  destruct Hh; cbn; lia.
Qed.

(** A hop is over when the next one starts. *)
Lemma hop_ends_walk l f cur : walks l f -> hop_ends cur f = option_list cur ++ hop_ends None f.
Proof.
  intros Hw. induction Hw as [| |t l h f Hh _ _]; [by rewrite app_nil_r|done|]. by destruct Hh.
Qed.

Lemma hop_ends_hop t h l f :
  a_hop t h -> walks l f -> hop_ends None (h ++ f) = hop_ends None h ++ hop_ends None f.
Proof.
  intros Hh Hw. pose proof (fun cur => hop_ends_walk l f cur Hw) as He.
  by destruct Hh; cbn; rewrite He.
Qed.

Lemma decision_fail policy n e : decision_for policy n e = Fail -> passes policy n e = false.
Proof.
  unfold decision_for, classify, passes, decide_class. cbn [Z.ltb Z.compare].
  rewrite Nat.min_id, (Nat.leb_antisym n). destruct (n <? _)%nat; cbn [negb andb]; [|done].
  by destruct (fallback_class _).
Qed.
Lemma decision_next policy n e : decision_for policy n e = TryNext -> passes policy n e = true.
Proof.
  unfold decision_for, classify, passes, decide_class. cbn [Z.ltb Z.compare].
  rewrite Nat.min_id, (Nat.leb_antisym n). destruct (n <? _)%nat; cbn [negb andb]; [|done].
  by destruct (fallback_class _).
Qed.

(** The facts of one round, seen through the observations. *)
Lemma slept_silent st f : may_sleep st f -> calls f = [] /\ starts f = [] /\ refreshes f = []
  /\ (forall last r, guarded last (f ++ r) <-> guarded last r).
Proof. unfold may_sleep. destruct (_ && _); [intros [ns ->]|intros ->]; done. Qed.

Lemma cooling_silent k e f : RateCooling k e f -> calls f = [] /\ starts f = [] /\ refreshes f = []
  /\ existsb is_sleep f = false /\ (forall last r, guarded last (f ++ r) <-> guarded last r).
Proof. by destruct 1. Qed.

Lemma auth_silent k now e :
  let f := auth_cooling k now e in calls f = [] /\ starts f = [] /\ refreshes f = []
  /\ existsb is_sleep f = false /\ (forall last, guarded last f).
Proof. intros f. subst f. unfold auth_cooling. destruct (decide _); repeat split. Qed.

Lemma call_facts t recovered r rec f :
  Call t recovered r rec f ->
  starts f = [] /\ existsb is_sleep f = false
  /\ (forall g, guarded (Some (RoutingTarget.health_key t, true)) g ->
        guarded (Some (RoutingTarget.health_key t, true)) (f ++ g))
  /\ (exists pre, calls f = pre ++ [(t, r)] /\ Forall (fun x => is_err (snd x)) pre
        /\ Forall (fun x => fst x = t) pre /\ (length pre <= 1)%nat)
  /\ recovered ⊆ rec
  /\ (refreshes f = [] /\ rec = recovered
      \/ exists k, refreshes f = [k] /\ (k ∉ recovered) /\ k ∈ rec).
Proof.
  destruct 1 as [r|e He Hn|e r He Hn]; cbn;
    (split; [done|]); (split; [done|]); (split; [cbn; intros; tauto|]).
  - split; [exists []; cbn; split_and!; [done|constructor|constructor|lia]|]. split; [done|by left].
  - split; [exists []; cbn; split_and!; [done|constructor|constructor|lia]|]. split; [set_solver|].
    right. exists (RoutingTarget.health_key t). set_solver.
  - split; [exists [(t, Err e)]; cbn; split_and!; [done|by repeat constructor|by repeat constructor|lia]|]. split; [set_solver|].
    right. exists (RoutingTarget.health_key t). set_solver.
Qed.
End Lemmas.

(** [observe] collects what the parts of a round contribute. *)
Ltac observe :=
  repeat match goal with
  | Hs : may_sleep _ ?f |- _ =>
      lazymatch goal with
      | _ : calls f = [] |- _ => fail
      | _ => let G := fresh "Gs" in destruct (slept_silent _ _ Hs) as (? & ? & ? & G)
      end
  | Hc : RateCooling _ _ ?f |- _ =>
      lazymatch goal with
      | _ : calls f = [] |- _ => fail
      | _ => let G := fresh "Gc" in destruct (cooling_silent _ _ _ Hc) as (? & ? & ? & ? & G)
      end
  | Hk : Call _ _ _ _ ?f |- _ =>
      lazymatch goal with
      | _ : starts f = [] |- _ => fail
      | _ => let G := fresh "Gk" in
             destruct (call_facts _ _ _ _ _ Hk) as (? & ? & G & (? & ? & ? & ? & ?) & ? & ?)
      end
  | |- context [auth_cooling ?k ?n ?e] =>
      lazymatch goal with
      | _ : calls (auth_cooling k n e) = [] |- _ => fail
      | _ => let G := fresh "Ga" in destruct (auth_silent k n e) as (? & ? & ? & ? & G)
      end
  end.

Section RoundLemmas.
Context `{Lowercase} `{GenRange} `{Gateway}.
Context (policy : DefaultFallbackPolicy) (ordered : list RoutingTarget).

Lemma round_no_sleep t st r f :
  Round policy ordered t st r f -> (attempt st <= target_index st)%nat ->
  existsb is_sleep f = false
  /\ forall st', r = inl st' -> (attempt st' <= target_index st')%nat.
Proof.
  intros Hr Ha.
  assert (forall f, may_sleep st f -> f = []) as Hs.
  { intros g. unfold may_sleep. destruct (_ && _) eqn:E; [|done]. bool_prop. lia. }
  destruct Hr; observe; cbn.
  1-2: split; [done|intros st' [= <-]]; cbn; lia.
  all: rewrite (Hs slept) by done; cbn; rewrite ?existsb_app; cbn; rewrite ?existsb_app.
  all: repeat match goal with E : existsb _ _ = _ |- _ => rewrite E; clear E end.
  all: cbn; split; [done|]; intros st' [= <-]; cbn; unfold next_index.
  destruct (decide _); lia.
Qed.

Lemma trail_calls f : trail f = [] -> calls f = [] /\ hop_ends None f = [].
Proof. intros E. rewrite <- calls_trail, <- hop_ends_trail. by rewrite E. Qed.

Lemma silent_trail f : calls f = [] -> starts f = [] -> refreshes f = [] -> trail f = [].
Proof. induction f as [|[] f IH]; cbn; intros; try done; by apply IH. Qed.

Lemma call_hop t recovered r rec f :
  Call t recovered r rec f ->
  trail f = f /\ a_hop t (FStart (RoutingTarget.health_key t) :: f)
  /\ hop_ends None f = [r].
Proof. destruct 1; (split; [done|]); (split; [by constructor|done]). Qed.

(** What a round adds to the trail: nothing, or a hop to its target. *)
Lemma round_trail t st r f :
  Round policy ordered t st r f ->
  match r with
  | inl st' =>
      trail f = [] /\ attempt st' = attempt st /\ last_error st' = last_error st
      \/ a_hop t (trail f) /\ attempt st' = S (attempt st)
         /\ exists e, last_error st' = Some e /\ hop_ends None f = [Err e]
                   /\ passes policy (S (attempt st)) e = true
  | inr (OutcomeSuccess response ttfb) =>
      a_hop t (trail f) /\ hop_ends None f = [Ok (response, ttfb)]
  | inr (OutcomeFailed e k) =>
      trail f = [] /\ e = deadline_error /\ k = RDeadlineExceeded
      \/ a_hop t (trail f) /\ hop_ends None f = [Err e] /\ k = class (classification e)
         /\ passes policy (S (attempt st)) e = false
  | inr (OutcomeExhausted _) => False
  end.
Proof.
  intros Hr.
  assert (forall recovered r rec slept f tl,
    may_sleep st slept -> Call t recovered r rec f ->
    calls tl = [] -> starts tl = [] -> refreshes tl = [] ->
    let g := FChecked (RoutingTarget.health_key t) true :: slept
             ++ FStart (RoutingTarget.health_key t) :: f ++ tl in
    a_hop t (trail g) /\ hop_ends None g = [r]) as Hg.
  { intros recovered x rec slept c tl Hs Hc T1 T2 T3 g.
    destruct (call_hop _ _ _ _ _ Hc) as (Ht & Hh & He).
    assert (trail g = FStart (RoutingTarget.health_key t) :: c) as E.
    { unfold g. cbn. rewrite trail_app. cbn. rewrite trail_app, (silent_trail tl), Ht, app_nil_r by done.
      destruct (slept_silent _ _ Hs) as (S1 & S2 & S3 & _). by rewrite (silent_trail slept). }
    split; [by rewrite E|]. rewrite <- hop_ends_trail, E. exact He. }
  destruct Hr as [| |response ttfb rec slept c ms Hs Hc|e rec slept c cool now ms Hs Hc Hd Hcool
                 |e rec slept c cool now now' ms Hs Hc Hd Hcool].
  - by left.
  - by left.
  - by apply (Hg _ _ _ _ _ _ Hs Hc).
  - right. destruct (cooling_silent _ _ _ Hcool) as (C1 & C2 & C3 & _).
    destruct (Hg _ _ _ _ _ (failure_facts (RoutingTarget.health_key t) now ms ++ cool) Hs Hc) as [Hh He]; [done..|].
    split; [exact Hh|]. split; [exact He|]. split; [done|]. by apply decision_fail.
  - right. destruct (cooling_silent _ _ _ Hcool) as (C1 & C2 & C3 & _).
    destruct (auth_silent (RoutingTarget.health_key t) now' e) as (A1 & A2 & A3 & _).
    destruct (Hg _ _ _ _ _ (failure_facts (RoutingTarget.health_key t) now ms ++ cool
                 ++ auth_cooling (RoutingTarget.health_key t) now' e) Hs Hc) as [Hh He].
    { cbn. by rewrite calls_app, C1. } { cbn. by rewrite starts_app, C2. } { cbn. by rewrite refreshes_app, C3. }
    split; [exact Hh|]. split; [done|]. exists e. split; [done|]. split; [exact He|]. by apply decision_next.
Qed.

Lemma round_starts t st r f :
  Round policy ordered t st r f ->
  (length (starts f) <= 1)%nat
  /\ forall st', r = inl st' -> attempt st' = (attempt st + length (starts f))%nat.
Proof.
  intros Hr. destruct Hr; observe; cbn.
  1-2: split; [lia|]; intros st' [= <-]; cbn; lia.
  all: repeat (rewrite starts_app; cbn).
  all: repeat match goal with E : starts _ = _ |- _ => rewrite E; clear E end.
  all: cbn; (split; [lia|]); intros st' [= <-]; cbn; lia.
Qed.

Lemma guarded_any f : calls f = [] -> starts f = [] -> forall l1 l2, guarded l1 f -> guarded l2 f.
Proof.
  induction f as [|[] f IH]; cbn; intros Hc Hs l1 l2; try done; eauto.
Qed.

Lemma round_guarded t st r f last :
  Round policy ordered t st r f -> guarded last f.
Proof.
  intros Hr. destruct Hr; observe; cbn; try done.
  all: apply Gs; cbn; split; [done|]; apply Gk; cbn; try done.
  - rewrite <- (app_nil_r cool). by apply Gc.
  - apply Gc, Ga.
Qed.

Lemma round_refreshes t st r f :
  Round policy ordered t st r f ->
  (refreshes f = [] \/ exists k, refreshes f = [k] /\ k ∉ oauth_recovered st)
  /\ forall st', r = inl st' ->
       oauth_recovered st ⊆ oauth_recovered st'
       /\ forall k, k ∈ refreshes f -> k ∈ oauth_recovered st'.
Proof.
  intros Hr. destruct Hr; observe; cbn.
  1-2: split; [by left|]; intros st' [= <-]; cbn; set_solver.
  all: repeat (rewrite refreshes_app; cbn).
  all: repeat match goal with
       | E : refreshes ?f = [] |- _ => rewrite E; clear E
       end; cbn; rewrite ?app_nil_r.
  all: split;
    [match goal with Hor : _ \/ exists _, _ |- _ =>
       destruct Hor as [[E _]|(k' & E & Hn & _)]; rewrite E; eauto end|].
  all: intros st' [= <-]; cbn. split; [done|]. intros k Hk.
  match goal with Hor : _ \/ exists _, _ |- _ =>
    destruct Hor as [[E _]|(k' & E & _ & Hin)]; rewrite E in Hk; set_solver end.
Qed.

(** ** Runs *)

Lemma run_no_sleep st o f :
  Run policy ordered st o f -> (attempt st <= target_index st)%nat -> existsb is_sleep f = false.
Proof.
  induction 1 as [|st t o f _ _ Hr|st t st' o f1 f2 _ _ Hr _ IH]; intros Ha; [done|..].
  - by apply (round_no_sleep _ _ _ _ Hr).
  - destruct (round_no_sleep _ _ _ _ Hr Ha) as [Hs Hi].
    rewrite existsb_app, Hs. by apply IH, Hi.
Qed.

Lemma run_walks st o f :
  Run policy ordered st o f -> walks (drop (target_index st) ordered) (trail f).
Proof.
  induction 1 as [|st t o f Hl _ Hr|st t st' o f1 f2 Hl _ Hr _ IH]; [constructor|..].
  - apply round_trail in Hr. rewrite (drop_S _ _ _ Hl), <- (app_nil_r (trail f)).
    destruct o as [? ?|?|? ?]; [destruct Hr as [Hh _]|done|destruct Hr as [[-> _]|[Hh _]]];
      [|apply walks_end|]; (apply walks_hop; [done|constructor]).
  - pose proof (round_progress _ _ _ _ _ _ Hr) as Hlt. rewrite trail_app, (drop_S _ _ _ Hl).
    assert (walks (drop (S (target_index st)) ordered) (trail f2)) as Hf.
    { apply (walks_drop _ _ (target_index st' - S (target_index st))).
      rewrite drop_drop. by replace (S (target_index st) + _)%nat with (target_index st') by lia. }
    apply round_trail in Hr as [[-> _]|[Hh _]]; [by apply walks_skip|by apply walks_hop].
Qed.

Lemma run_starts st o f :
  Run policy ordered st o f ->
  (attempt st <= max_total_attempts policy)%nat ->
  (attempt st + length (starts f) <= max_total_attempts policy)%nat.
Proof.
  induction 1 as [|st t o f _ Ha Hr|st t st' o f1 f2 _ Ha Hr _ IH]; intros Hm; cbn; [lia|..].
  - apply round_starts in Hr as [Hs _]. lia.
  - apply round_starts in Hr as [Hs Heq]. rewrite starts_app, length_app.
    specialize (Heq _ eq_refl). lia.
Qed.

Lemma run_guarded st o f last : Run policy ordered st o f -> guarded last f.
Proof.
  intros Hr. revert last. assert (forall f1 f2 last, guarded last f1 ->
    (forall l, guarded l f2) -> guarded last (f1 ++ f2)) as Happ.
  { induction f1 as [|[] f1 IH]; cbn; intuition auto. }
  induction Hr as [|st t o f _ _ Hr|st t st' o f1 f2 _ _ Hr _ IH]; intros last; [done|..].
  - by eapply round_guarded.
  - apply Happ; [|done]. by eapply round_guarded.
Qed.

Lemma run_refreshes st o f :
  Run policy ordered st o f ->
  NoDup (refreshes f) /\ forall k, k ∈ refreshes f -> k ∉ oauth_recovered st.
Proof.
  induction 1 as [|st t o f _ _ Hr|st t st' o f1 f2 _ _ Hr _ [IH1 IH2]].
  - split; [constructor|]. intros k Hk. by apply elem_of_nil in Hk.
  - apply round_refreshes in Hr as [[->|(k & -> & Hk)] _].
    + split; [constructor|]. intros k Hk. by apply elem_of_nil in Hk.
    + split; [apply NoDup_singleton|]. intros k'. by intros ->%list_elem_of_singleton.
  - apply round_refreshes in Hr as [Hone Hst]. destruct (Hst _ eq_refl) as [Hsub Hin].
    rewrite refreshes_app. split.
    + apply NoDup_app. split; [|split; [|done]].
      * destruct Hone as [->|(k & -> & _)]; [constructor|apply NoDup_singleton].
      * intros k Hk Hk2. by apply (IH2 k Hk2), Hin.
    + intros k [Hk|Hk]%elem_of_app.
      * destruct Hone as [E|(k' & E & Hn)]; rewrite E in Hk; [by apply elem_of_nil in Hk|].
        by apply list_elem_of_singleton in Hk as ->.
      * intros Ho. apply (IH2 k Hk), Hsub, Ho.
Qed.

Lemma hop_errors t h r :
  a_hop t h -> hop_ends None h = [r] ->
  exists pre, calls h = pre ++ [(t, r)] /\ Forall (fun x => is_err (snd x)) pre.
Proof.
  destruct 1; intros [= <-]; cbn.
  - by exists [].
  - by exists [].
  - eexists [_]. split; [done|]. by repeat constructor.
Qed.

(** A hop that fails and passes on, before the rest of the run. *)
Lemma outcome_extend t f1 f2 e o n last l :
  a_hop t (trail f1) -> hop_ends None f1 = [Err e] -> passes policy (S n) e = true ->
  walks l (trail f2) ->
  outcome_matches policy (S n) (Some e) o f2 -> outcome_matches policy n last o (f1 ++ f2).
Proof.
  intros Hh He Hp Hw.
  assert (hop_ends None (f1 ++ f2) = Err e :: hop_ends None f2) as Hends.
  { rewrite <- hop_ends_trail, trail_app, (hop_ends_hop t _ l) by done. by rewrite !hop_ends_trail, He. }
  destruct (hop_errors t (trail f1) (Err e)) as (pre & Hc & Hpre); [done|by rewrite hop_ends_trail|].
  rewrite calls_trail in Hc. unfold outcome_matches. rewrite calls_app, Hc, Hends, <- app_assoc. cbn [app].
  assert (forall c : list (RoutingTarget * result AppError (Response * option Z)),
    Forall (fun x => is_err (snd x)) c -> Forall (fun x => is_err (snd x)) (pre ++ (t, Err e) :: c)) as Hall.
  { intros c Hf. apply Forall_app. split; [done|]. by constructor. }
  destruct o as [response ttfb|err|err k].
  - intros [(q & t' & -> & Hq) (q' & -> & Hq')]. split.
    + exists (pre ++ (t, Err e) :: q), t'. split; [by rewrite <- app_assoc|by apply Hall].
    + exists (Err e :: q'). split; [done|]. split; [by exists e|done].
  - intros (Hf & Hl & Hq). split; [by apply Hall|]. split; [|split; [by exists e|done]].
    rewrite last_app, last_cons. destruct (list.last (calls f2)) as [[t' r]|]; [done|]. by rewrite Hl.
  - intros [Hf Hor]. split; [by apply Hall|].
    destruct Hor as [(-> & -> & Hq)|(Hk & q & -> & Hq & Hx)]; [left; do 2 (split; [done|]); split; [by exists e|done]|].
    right. split; [done|]. exists (Err e :: q). split; [done|]. split; [split; [by exists e|done]|].
    cbn [length]. by rewrite <- Nat.add_succ_comm.
Qed.

Lemma run_outcome st o f :
  Run policy ordered st o f -> outcome_matches policy (attempt st) (last_error st) o f.
Proof.
  induction 1 as [st|st t o f _ _ Hr|st t st' o f1 f2 _ _ Hr Hrun IH].
  - split; [constructor|]. done.
  - apply round_trail in Hr. destruct o as [response ttfb|?|e k]; [|done|].
    + destruct Hr as [Hh He].
      destruct (hop_errors t (trail f) (Ok (response, ttfb))) as (pre & Hc & Hpre); [done|by rewrite hop_ends_trail|].
      rewrite calls_trail in Hc. split; [by exists pre, t|]. by exists [].
    + destruct Hr as [(Ht & -> & ->)|(Hh & He & -> & Hp)].
      * destruct (trail_calls _ Ht) as [Hc Hn]. unfold outcome_matches. rewrite Hc, Hn.
        split; [constructor|by left].
      * destruct (hop_errors t (trail f) (Err e)) as (pre & Hc & Hpre); [done|by rewrite hop_ends_trail|].
        rewrite calls_trail in Hc. unfold outcome_matches. rewrite Hc, He. split.
        { apply Forall_app. split; [done|]. by repeat constructor. }
        right. split; [done|]. exists []. split; [done|]. split; [done|]. cbn [length]. by rewrite Nat.add_1_r.
  - apply run_walks in Hrun. apply round_trail in Hr as [(Ht & Ha & Hl)|(Hh & Ha & e & Hl & He & Hp)].
    + rewrite Ha, Hl in IH. destruct (trail_calls _ Ht) as [Hc _].
      assert (hop_ends None (f1 ++ f2) = hop_ends None f2) as Hn.
      { rewrite <- (hop_ends_trail None (f1 ++ f2)), trail_app, Ht. apply hop_ends_trail. }
      unfold outcome_matches in *. by rewrite calls_app, Hc, Hn.
    + rewrite Ha, Hl in IH. by eapply outcome_extend.
Qed.
End RoundLemmas.

(** ** Totality

    [returns m Q]: from every world whose clock is not near the end of its
    range, [m] returns without panicking, with a result in [Q]. *)

Section Totality.
Context `{Lowercase} `{GenRange} `{Gateway}.

(** Half of the range of an [Instant], and the largest [Retry-After] that
    fits in the other half. *)
Definition clock_end : Z := (4611686018427387904 * ns_per_sec)%Z.

Definition clock_bounded : Prop :=
  forall e h n, (n < clock_end)%Z -> (snd (env_step e h n) < clock_end)%Z.
Definition retry_after_bounded : Prop :=
  forall env t e token env' rh secs,
    execute_one env t = Ok (Err e, token, env') -> retry_after_header e = Some rh ->
    parse_u64 rh = Some secs -> (secs < 4611686018427387904)%Z.
Definition calls_return : Prop :=
  (forall env t, exists x, execute_one env t = Ok x)
  /\ (forall env t token, exists x, refresh_after_unauthorized env t token = Ok x).

Context (Hclock : clock_bounded) (Hretry : retry_after_bounded) (Hcalls : calls_return).

Definition returns {A} (m : M A) (Q : A -> Prop) : Prop :=
  forall w, (w_now w < clock_end)%Z ->
    exists a w', m w = Ok (a, w') /\ (w_now w' < clock_end)%Z /\ Q a.

Lemma returns_ret {A} (a : A) (Q : A -> Prop) : Q a -> returns (mret a) Q.
Proof. intros HQ w Hw. by exists a, w. Qed.

Lemma returns_bind {A B} (m : M A) (k : A -> M B) (Q : B -> Prop) :
  returns m (fun a => returns (k a) Q) -> returns (m ≫= k) Q.
Proof.
  intros Hm w Hw. destruct (Hm w Hw) as (a & w1 & E & Hw1 & Hk).
  destruct (Hk w1 Hw1) as (b & w2 & E2 & Hw2 & HQ). exists b, w2.
  unfold mbind, M_bind. by rewrite E.
Qed.

Lemma returns_gets {A} (g : World -> run A) (Q : A -> Prop) :
  (forall w, (w_now w < clock_end)%Z -> exists a, g w = Ok a /\ Q a) -> returns (gets g) Q.
Proof. intros HQ w Hw. destruct (HQ w Hw) as (a & E & Ha). exists a, w. unfold gets. by rewrite E. Qed.

Lemma returns_log a (Q : unit -> Prop) : Q tt -> returns (log a) Q.
Proof. intros HQ w Hw. eexists tt, _. by split. Qed.
Lemma returns_set_health h (Q : unit -> Prop) : Q tt -> returns (set_health h) Q.
Proof. intros HQ w Hw. eexists tt, _. by split. Qed.
Lemma returns_set_env e (Q : unit -> Prop) : Q tt -> returns (set_env e) Q.
Proof. intros HQ w Hw. eexists tt, _. by split. Qed.
Lemma returns_set_rng g (Q : unit -> Prop) : Q tt -> returns (set_rng g) Q.
Proof. intros HQ w Hw. eexists tt, _. by split. Qed.

Lemma returns_interleave (Q : unit -> Prop) : Q tt -> returns interleave Q.
Proof using Hclock.
  intros HQ w Hw. unfold interleave.
  pose proof (Hclock (w_env w) (w_health w) (w_now w) Hw) as Hn.
  destruct (env_step _ _ _) as [[e h] n]. eexists tt, _. by split.
Qed.

Lemma returns_get_now (Q : Z -> Prop) :
  (forall n, (n < clock_end)%Z -> Q n) -> returns get_now Q.
Proof using Hclock.
  intros HQ. apply returns_bind, returns_interleave, returns_gets. intros w Hw. eauto.
Qed.
Lemma returns_get_utc (Q : Z -> Prop) : (forall n, Q n) -> returns get_utc Q.
Proof using Hclock.
  intros HQ. apply returns_bind, returns_interleave, returns_gets. intros w Hw. eauto.
Qed.
Lemma returns_send id stage p (Q : unit -> Prop) : Q tt -> returns (send id stage p) Q.
Proof using Hclock. intros. apply returns_bind, returns_get_utc. intros n. by apply returns_log. Qed.

Lemma returns_registry e (Q : unit -> Prop) :
  match e with EvCooling _ t d _ => (t + d < instant_limit)%Z | _ => True end ->
  Q tt -> returns (registry e) Q.
Proof.
  intros He HQ. apply returns_bind, returns_gets. intros w Hw.
  assert (exists h, health_step (w_health w) e = Ok h) as [h Hh].
  { destruct e; cbn; eauto. unfold HealthRegistry.apply_cooling, instant_add.
    rewrite (proj2 (Z.ltb_lt _ _)) by done. cbn. eauto. }
  exists h. split; [done|]. apply returns_bind, returns_set_health. by apply returns_log.
Qed.

Lemma returns_apply_cooling key d why (Q : unit -> Prop) :
  (d < 4611686018427387904 * ns_per_sec)%Z -> Q tt -> returns (apply_cooling key d why) Q.
Proof using Hclock.
  intros Hd HQ. apply returns_bind, returns_get_now. intros n Hn. apply returns_registry; [|done].
  unfold clock_end, instant_limit, ns_per_sec in *. lia.
Qed.

Lemma returns_call t
    (Q : result AppError (Response * option Z) * option string -> Prop) :
  (forall env r token env', execute_one env t = Ok (r, token, env') -> Q (r, token)) ->
  returns (call t) Q.
Proof using Hclock Hcalls.
  intros HQ. apply returns_bind, returns_interleave, returns_bind, returns_gets. intros w Hw.
  destruct (proj1 Hcalls (w_env w) t) as [[[r token] e] E]. rewrite E. eexists. split; [done|].
  apply returns_bind, returns_set_env, returns_bind, returns_log, returns_ret. eauto.
Qed.

(** An error whose [Retry-After] is in range. *)
Definition tame (r : result AppError (Response * option Z)) : Prop :=
  forall e rh secs, r = Err e -> retry_after_header e = Some rh ->
    parse_u64 rh = Some secs -> (secs < 4611686018427387904)%Z.

Lemma returns_recovery t rec (Q : result AppError (Response * option Z) * gset string -> Prop) :
  (forall r rec', tame r -> Q (r, rec')) -> returns (execute_with_recovery t rec) Q.
Proof using Hclock Hretry Hcalls.
  intros HQ. assert (forall env r token env', execute_one env t = Ok (r, token, env') -> tame r) as Ht.
  { intros env r token env' E e rh secs ->. by apply (Hretry env t e token env'). }
  apply returns_bind, returns_call. intros env r token env' E.
  destruct token as [token|]; [|apply returns_ret; eauto]. cbn beta iota zeta.
  match goal with |- context [if ?b then _ else _] => destruct b end; [|apply returns_ret; eauto].
  apply returns_bind. unfold refresh.
  apply returns_bind, returns_interleave, returns_bind, returns_gets. intros w Hw.
  destruct (proj2 Hcalls (w_env w) t token) as [[b e] ->]. eexists. split; [done|].
  apply returns_bind, returns_set_env, returns_bind, returns_log, returns_ret.
  match goal with |- context [if ?b then _ else _] => destruct b end; [|apply returns_ret; eauto].
  apply returns_bind, returns_call. intros env2 r2 token2 env2' E2. apply returns_ret. eauto.
Qed.

Context (request_id : string) (policy : DefaultFallbackPolicy) (deadline : Z).
Context (ordered : list RoutingTarget).

Lemma returns_round t st :
  (attempt st <= target_index st)%nat ->
  returns (round request_id policy deadline ordered t st) (fun _ => True).
Proof using Hclock Hretry Hcalls.
  intros Ha. apply returns_bind, returns_get_now. intros now _.
  destruct (deadline <? now)%Z; [by apply returns_ret|].
  apply returns_bind. apply returns_bind, returns_get_now. intros now' _.
  apply returns_bind, returns_gets. intros w Hw. eexists. split; [done|].
  apply returns_bind, returns_log, returns_ret.
  destruct (HealthRegistry.is_healthy _ _ _).
  2: { apply returns_bind, returns_send, returns_bind, returns_send. by apply returns_ret. }
  unfold attempt_target. assert ((0 <? attempt st)%nat && (target_index st <? attempt st)%nat = false)
    as -> by (apply andb_false_iff; right; by apply Nat.ltb_ge).
  apply returns_bind, returns_ret, returns_bind, returns_get_utc. intros started.
  apply returns_bind, returns_log, returns_bind, returns_log, returns_bind, returns_log.
  apply returns_bind, returns_recovery. intros r rec Htame.
  apply returns_bind, returns_get_utc. intros ended. destruct r as [[response ttfb]|e].
  - apply returns_bind. apply returns_bind, returns_interleave, returns_registry; [done|].
    apply returns_bind. apply returns_bind, returns_interleave, returns_registry; [done|].
    apply returns_bind, returns_send, returns_bind, returns_send, returns_bind, returns_log.
    by apply returns_ret.
  - apply returns_bind. apply returns_bind, returns_get_now. intros n _.
    apply returns_registry; [done|]. apply returns_bind.
    apply returns_bind, returns_interleave, returns_registry; [done|].
    apply returns_bind, returns_send, returns_bind.
    assert (forall Q : unit -> Prop, Q tt -> returns
      (cool_rate_limited (RoutingTarget.health_key t) (classification e) e) Q) as Hcool.
    { intros Q HQ. unfold cool_rate_limited. destruct (decide _); [|by apply returns_ret].
      destruct (retry_after_header e) as [rh|] eqn:Er; [|by apply returns_ret].
      destruct (parse_u64 rh) as [secs|] eqn:Ep; apply returns_apply_cooling; try done.
      specialize (Htame e rh secs eq_refl Er Ep). unfold ns_per_sec in *. lia. }
    apply Hcool. destruct (classify _ _ _ _ _).
    + apply returns_bind, returns_send. destruct (decide _); [|by apply returns_ret].
      apply returns_bind, returns_apply_cooling; [done|]. by apply returns_ret.
    + apply returns_bind, returns_send. by apply returns_ret.
    + apply returns_bind, returns_send. by apply returns_ret.
Qed.

Lemma returns_loop rounds st :
  (attempt st <= target_index st)%nat ->
  returns (loop request_id policy deadline ordered rounds st) (fun _ => True).
Proof using Hclock Hretry Hcalls.
  revert st. induction rounds as [|n IH]; intros st Ha; cbn [loop].
  - destruct (ordered !! _); [|by apply returns_ret]. destruct (_ <? _)%nat; by apply returns_ret.
  - destruct (ordered !! _) as [t|]; [|by apply returns_ret].
    destruct (_ <? _)%nat; [|by apply returns_ret].
    intros w Hw. destruct (returns_round t st Ha w Hw) as (r & w1 & E & Hw1 & _).
    destruct (emits_round request_id policy deadline ordered t st (Round policy ordered t st)
                (fun r f Hr => Hr) _ _ _ E) as (l & _ & Hr).
    unfold mbind, M_bind. rewrite E. destruct r as [st'|o].
    + apply IH; [|done]. by apply (round_no_sleep _ _ _ _ _ _ Hr Ha).
    + by exists (Some o), w1.
Qed.
End Totality.

Section Execute.
Context `{Lowercase} `{GenRange} `{Gateway}.

Lemma emits_order name ts (P : list RoutingTarget -> list fact -> Prop) :
  (forall out, out ≡ₚ ts -> P out []) -> emits (order_targets name ts) P.
Proof.
  intros HP w out w' E. unfold order_targets in E.
  assert (emits get_now (fun _ f => f = [])) as Hn by (apply emits_get_now; done).
  unfold mbind, M_bind in E. destruct (get_now w) as [[now w1]|] eqn:En; [|done].
  destruct (Hn _ _ _ En) as (l & Hl & Hf). unfold gets in E.
  destruct (fst (build_strategy name) (w_health w1) now (w_rng w1) ts) as [[out' g]|] eqn:Es;
    [|done].
  injection E as <- <-. exists l. split; [done|]. rewrite Hf. apply HP.
  by eapply strategy_permutes.
Qed.

Lemma execute_runs table def targets vm id (w w' : World) o :
  execute_with_fallback table def targets vm id w = Ok (o, w') ->
  exists ordered outcome l, o = Some outcome /\ ordered ≡ₚ targets
    /\ w_log w' = w_log w ++ l
    /\ Run DefaultFallbackPolicy_with_defaults ordered initial_state outcome (facts l).
Proof.
  intros E.
  assert (emits (execute_with_fallback table def targets vm id) (fun o f =>
    exists ordered outcome, o = Some outcome /\ ordered ≡ₚ targets
      /\ Run DefaultFallbackPolicy_with_defaults ordered initial_state outcome f)) as Hem.
  { unfold execute_with_fallback. apply emits_bind, emits_get_now. intros now.
    apply emits_bind, emits_gets. intros deadline. apply emits_bind, emits_order.
    intros ordered Hp. apply emits_bind, emits_send; [done|]. apply emits_loop; [done|].
    intros outcome f Hr. by exists ordered, outcome. }
  destruct (Hem _ _ _ E) as (l & Hl & ordered & outcome & ? & ? & ?). eauto 10.
Qed.

(** The actions of a run, and that only the given targets are called. *)
Lemma walks_elem l f t : walks l f -> t ∈ map fst (calls f) -> t ∈ l.
Proof.
  induction 1 as [| |u l h f Hh _ IH]; cbn; rewrite ?elem_of_cons, ?elem_of_nil; [tauto..|].
  rewrite calls_app, map_app, elem_of_app. destruct Hh; cbn; rewrite ?elem_of_cons, ?elem_of_nil; tauto.
Qed.

Lemma executed_call t r l : Executed t r ∈ l -> t ∈ map fst (calls (facts l)).
Proof.
  induction l as [|a l IH]; intros Hin; [by apply elem_of_nil in Hin|].
  apply elem_of_cons in Hin as [<-|Hin]; [by left|].
  destruct a as [e| | | | | | | |]; cbn; try (by apply IH); [|by right; apply IH].
  destruct (ev_payload e); cbn; by apply IH.
Qed.

Lemma executed_targets table def targets vm id (w w' : World) o :
  execute_with_fallback table def targets vm id w = Ok (o, w') ->
  exists l, w_log w' = w_log w ++ l /\ forall t r, Executed t r ∈ l -> t ∈ targets.
Proof.
  intros E. destruct (execute_runs _ _ _ _ _ _ _ _ E) as (ordered & o' & l & _ & Hp & Hl & Hr).
  exists l. split; [done|]. intros t r Hin. rewrite <- Hp.
  apply run_walks in Hr. rewrite drop_0 in Hr.
  eapply walks_elem; [exact Hr|]. rewrite calls_trail. by eapply executed_call.
Qed.

(** A strategy that never panics on these targets. *)
Definition strategy_total (name : RoutingStrategyName) (ts : list RoutingTarget) : Prop :=
  forall h now g, exists out g', fst (build_strategy name) h now g ts = Ok (out, g').
End Execute.

(** ** A scripted gateway for the witnesses

    Calls return the entries of a list, then 502; nothing else happens and the
    clock stands still. *)

Definition script : Type := list (result AppError (string * option Z) * option string).

Definition scripted_step (e : script) (h : HealthRegistry) (now : Z)
  : script * HealthRegistry * Z := (e, h, now).

Lemma scripted_time e h now : (now <= snd (scripted_step e h now))%Z.
Proof. cbn. lia. Defined.

Definition scripted (refresh_ok : bool) : Gateway :=
  {| Response := string; Env := script; env_step := scripted_step; env_time := scripted_time;
     utc_now _ := 0%Z; random_f64 _ := f64_zero;
     execute_one e t := match e with
                        | (r, token) :: e' => Ok (r, token, e')
                        | [] => Ok (Err (AppError.new 502 "down"), None, [])
                        end;
     refresh_after_unauthorized e t token := Ok (Ok refresh_ok, e) |}.

Definition start_world (e : script) : @World low_rng (scripted true) :=
  @Build_World low_rng (scripted true) e 0%Z sample_registry tt [].

Definition upstream_error_400 : AppError :=
  AppError.set_upstream_status (AppError.new 400 "Upstream error: bad schema") 400.

(** 401 with a token, a refresh, a 400 of a bad request, then a success on the
    second target. *)
Definition sample_script : script :=
  [(Err (AppError.new 401 "unauthorized"), Some "token"); (Err upstream_error_400, None);
   (Ok ("hello", None), None)].

Definition sample_table : RoutingTable :=
  RoutingTable.insert_entry RoutingTable.new "gpt"
    {| re_targets := chain; re_strategy := Some Priority |}.

Definition sample_run : run (option (@FallbackOutcome (scripted true)) * @World low_rng (scripted true)) :=
  @execute_with_fallback ascii_folding low_rng (scripted true) sample_table Weighted chain "gpt"
    "req-1" (start_world sample_script).

Definition sample_end : @World low_rng (scripted true) :=
  match sample_run with Ok (_, w) => w | Err _ => start_world [] end.

Lemma sample_run_ends :
  sample_run = Ok (Some (@OutcomeSuccess (scripted true) "hello" None), sample_end).
Proof. vm_compute. reflexivity. Defined.

(** ** Properties *)

(** C2: The executor implements its abstract run.  Whenever it returns, it has an
    outcome, it tried the targets in some order of exactly the given targets,
    and what it did (checks, calls, refreshes, registry operations) is a run of
    the abstract loop with the default policy. *)
Theorem fallback_refines_run `{Lowercase} `{GenRange} `{Gateway} table def targets vm id
    (w w' : World) o :
  execute_with_fallback table def targets vm id w = Ok (o, w') ->
  exists ordered outcome l, o = Some outcome /\ ordered ≡ₚ targets
    /\ w_log w' = w_log w ++ l
    /\ Run DefaultFallbackPolicy_with_defaults ordered initial_state outcome (facts l).
Proof. apply execute_runs. Qed.

Lemma fallback_refines_run_witness :
  sample_run = Ok (Some (@OutcomeSuccess (scripted true) "hello" None), sample_end)
  /\ exists ordered outcome l,
       Some (@OutcomeSuccess (scripted true) "hello" None) = Some outcome /\ ordered ≡ₚ chain
       /\ w_log sample_end = w_log (start_world sample_script) ++ l
       /\ @Run ascii_folding (scripted true) DefaultFallbackPolicy_with_defaults ordered
            initial_state outcome (facts l).
Proof.
  split; [exact sample_run_ends|].
  exact (@fallback_refines_run ascii_folding low_rng (scripted true) _ _ _ _ _ _ _ _ sample_run_ends).
Defined.

(** C1: The executor always returns.  With a clock that stays in the first half
    of its range, [Retry-After] values that fit in the other half, a strategy
    that orders the targets and calls that do not panic themselves, every
    request ends with an outcome: the loop terminates and nothing in it
    panics. *)
Theorem fallback_total `{Lowercase} `{GenRange} `{Gateway} table def targets vm id (w : World) :
  clock_bounded -> retry_after_bounded -> calls_return ->
  strategy_total (default def (RoutingTable.resolve_strategy table vm)) targets ->
  (w_now w < clock_end)%Z ->
  exists outcome w', execute_with_fallback table def targets vm id w = Ok (Some outcome, w').
Proof.
  intros Hclock Hretry Hcalls Hstrat Hw.
  assert (returns (execute_with_fallback table def targets vm id) (fun _ => True)) as Hr.
  { apply returns_bind, returns_get_now; [done|]. intros now Hnow.
    apply returns_bind, returns_gets. intros w1 Hw1. unfold instant_add.
    rewrite (proj2 (Z.ltb_lt _ _)).
    2: { change (deadline_ns _) with (120 * ns_per_sec)%Z.
         unfold clock_end, instant_limit, ns_per_sec in *. lia. }
    eexists. split; [done|]. apply returns_bind. unfold order_targets.
    apply returns_bind, returns_get_now; [done|]. intros now2 _.
    apply returns_bind, returns_gets. intros w2 Hw2.
    destruct (Hstrat (w_health w2) now2 (w_rng w2)) as (out & g & E).
    exists (out, g). split; [exact E|]. apply returns_bind, returns_set_rng, returns_ret.
    apply returns_bind, returns_send; [done|]. by apply returns_loop. }
  destruct (Hr w Hw) as (o & w' & E & _).
  destruct (execute_runs _ _ _ _ _ _ _ _ E) as (_ & outcome & _ & -> & _). eauto.
Qed.

(** A gateway whose targets are all down. *)
Definition down : Gateway :=
  {| Response := string; Env := unit; env_step e h now := (e, h, now);
     env_time _ _ now := Z.le_refl now; utc_now _ := 0%Z; random_f64 _ := f64_zero;
     execute_one _ _ := Ok (Err (AppError.new 502 "down"), None, tt);
     refresh_after_unauthorized _ _ _ := Ok (Err "no token", tt) |}.

Definition down_world : @World low_rng down :=
  @Build_World low_rng down tt 0%Z sample_registry tt [].

Lemma fallback_total_witness :
  exists outcome w', @execute_with_fallback ascii_folding low_rng down
    sample_table Weighted chain "gpt" "req-1" down_world = Ok (Some outcome, w').
Proof.
  apply (@fallback_total ascii_folding low_rng down).
  - intros e h n Hn. exact Hn.
  - intros env t e token env' rh secs Hx Hh Hp. injection Hx as <- _ _. discriminate Hh.
  - split; intros; eexists; reflexivity.
  - intros h now g. eexists _, _. reflexivity.
  - reflexivity.
Defined.

(** C8: The work of a request is bounded and goes forward.  The hops go through
    the ordered targets from first to last, at most one hop for each target and
    never back; a hop calls its target once, and a second time only after the
    call was answered 401 and a token refresh succeeded; a health key is
    refreshed at most once per request, and there are at most ten hops and
    twenty calls. *)
Theorem fallback_bounded `{Lowercase} `{GenRange} `{Gateway} table def targets vm id
    (w w' : World) o :
  execute_with_fallback table def targets vm id w = Ok (o, w') ->
  exists ordered l, ordered ≡ₚ targets /\ w_log w' = w_log w ++ l
    /\ walks ordered (trail (facts l))
    /\ (length (starts (facts l)) <= 10)%nat
    /\ NoDup (refreshes (facts l))
    /\ (length (calls (facts l)) <= 20)%nat.
Proof.
  intros E. destruct (execute_runs _ _ _ _ _ _ _ _ E) as (ordered & o' & l & _ & Hp & Hl & Hr).
  exists ordered, l. pose proof (run_walks _ _ _ _ _ Hr) as Hf. rewrite drop_0 in Hf.
  assert (length (starts (facts l)) <= 10)%nat as Hs by exact (run_starts _ _ _ _ _ Hr (Nat.le_0_l _)).
  split; [done|]. split; [done|]. split; [done|]. split; [done|].
  split; [apply (run_refreshes _ _ _ _ _ Hr)|].
  apply walks_calls in Hf. rewrite calls_trail, starts_trail in Hf. lia.
Qed.

Lemma fallback_bounded_witness :
  exists ordered l, ordered ≡ₚ chain /\ w_log sample_end = w_log (start_world sample_script) ++ l
    /\ @walks (scripted true) ordered (@trail (scripted true) (facts l))
    /\ (length (@starts (scripted true) (facts l)) <= 10)%nat
    /\ NoDup (@refreshes (scripted true) (facts l))
    /\ (length (calls (facts l)) <= 20)%nat.
Proof.
  exact (@fallback_bounded ascii_folding low_rng (scripted true) _ _ _ _ _ _ _ _ sample_run_ends).
Defined.

(** C9: No traffic to a target the registry refuses.  Every hop and every call of
    a request, retries after a token refresh included, follows a health check of
    that very target which answered that it is healthy, with no check of another
    target in between. *)
Theorem fallback_calls_only_healthy `{Lowercase} `{GenRange} `{Gateway} table def targets vm id
    (w w' : World) o :
  execute_with_fallback table def targets vm id w = Ok (o, w') ->
  exists l, w_log w' = w_log w ++ l /\ guarded None (facts l).
Proof.
  intros E. destruct (execute_runs _ _ _ _ _ _ _ _ E) as (ordered & o' & l & _ & Hp & Hl & Hr).
  exists l. split; [done|]. by eapply run_guarded.
Qed.

Lemma fallback_calls_only_healthy_witness :
  exists l, w_log sample_end = w_log (start_world sample_script) ++ l
    /\ @guarded (scripted true) None (facts l).
Proof.
  exact (@fallback_calls_only_healthy ascii_folding low_rng (scripted true) _ _ _ _ _ _ _ _ sample_run_ends).
Defined.

(** C10: The outcome is the truth about the calls.  A success carries the response
    of the last call and every call before failed; an exhausted request carries
    the error of its last call, or the gateway's own error when nothing was
    called; a failed one carries the deadline error, or the error of its last
    hop together with its class.  The loop gave up on that error, and on none
    before it: the error of every hop but the last of a failed or successful
    request is transient, a rate limit, an authentication failure, a deadline
    or an overload and came before the tenth attempt, and the one a request
    failed on is of another class or came on the tenth. *)
Theorem fallback_outcome_matches `{Lowercase} `{GenRange} `{Gateway} table def targets vm id
    (w w' : World) o :
  execute_with_fallback table def targets vm id w = Ok (o, w') ->
  exists outcome l, o = Some outcome /\ w_log w' = w_log w ++ l
    /\ outcome_matches DefaultFallbackPolicy_with_defaults 0 None outcome (facts l).
Proof.
  intros E. destruct (execute_runs _ _ _ _ _ _ _ _ E) as (ordered & o' & l & -> & Hp & Hl & Hr).
  exists o', l. split; [done|]. split; [done|]. exact (run_outcome _ _ _ _ _ Hr).
Qed.

Lemma fallback_outcome_matches_witness :
  exists outcome l, Some (@OutcomeSuccess (scripted true) "hello" None) = Some outcome
    /\ w_log sample_end = w_log (start_world sample_script) ++ l
    /\ @outcome_matches ascii_folding (scripted true) DefaultFallbackPolicy_with_defaults 0 None
         outcome (facts l).
Proof.
  exact (@fallback_outcome_matches ascii_folding low_rng (scripted true) _ _ _ _ _ _ _ _ sample_run_ends).
Defined.

(** The retry delay is dead code.  No request ever sleeps between two hops:
    the policy never answers [Retry], so the number of attempts never exceeds the
    index of the current target. *)
Theorem fallback_never_sleeps `{Lowercase} `{GenRange} `{Gateway} table def targets vm id
    (w w' : World) o :
  execute_with_fallback table def targets vm id w = Ok (o, w') ->
  exists l, w_log w' = w_log w ++ l /\ existsb is_sleep (facts l) = false.
Proof.
  intros E. destruct (execute_runs _ _ _ _ _ _ _ _ E) as (ordered & o' & l & _ & Hp & Hl & Hr).
  exists l. split; [done|]. by apply (run_no_sleep _ _ _ _ _ Hr).
Qed.

Lemma fallback_never_sleeps_witness :
  exists l, w_log sample_end = w_log (start_world sample_script) ++ l
    /\ existsb (@is_sleep (scripted true)) (facts l) = false.
Proof.
  exact (@fallback_never_sleeps ascii_folding low_rng (scripted true) _ _ _ _ _ _ _ _ sample_run_ends).
Defined.

(** A rejected account is skipped as far as its targets are adjacent.  After
    an authentication error the loop goes on at the first later target with
    another account label, or at the next one when the target has none. *)
Theorem auth_failure_skips_account `{Lowercase} ordered t (st : LoopState) e :
  fallback_class (classification e) = Auth ->
  let i := next_index ordered t st e in
  (target_index st < i)%nat
  /\ (forall j u, (target_index st < j < i)%nat -> ordered !! j = Some u ->
        account_label t <> None /\ account_label u = account_label t)
  /\ (forall u, ordered !! i = Some u ->
        account_label t = None \/ account_label u <> account_label t).
Proof.
  intros Hc i. set (k := skip_same_account (account_label t) (drop (S (target_index st)) ordered)).
  assert (i = (S (target_index st) + k)%nat) as Hi by (unfold i, next_index; by rewrite decide_True).
  clearbody i. subst i.
  assert (forall rest, let k := skip_same_account (account_label t) rest in
    (forall j u, (j < k)%nat -> rest !! j = Some u ->
       account_label t <> None /\ account_label u = account_label t)
    /\ (forall u, rest !! k = Some u ->
       account_label t = None \/ account_label u <> account_label t)) as Hskip.
  { induction rest as [|v rest [IH1 IH2]]; cbn; [split; [intros; lia|done]|].
    destruct (bool_decide_reflect (is_Some (account_label t))) as [Hs|Hs]; cbn.
    2: { split; [intros; lia|]. intros u _. left. by apply eq_None_not_Some. }
    destruct (bool_decide_reflect (account_label v = account_label t)) as [Hv|Hv]; cbn.
    - split; [|exact IH2]. intros [|j] u Hj Hu; [|apply (IH1 j); [lia|done]].
      injection Hu as ->. split; [|done]. by apply not_eq_None_Some.
    - split; [intros; lia|]. intros u [= <-]. by right. }
  destruct (Hskip (drop (S (target_index st)) ordered)) as [H1 H2]. fold k in H1, H2.
  split; [lia|]. split.
  - intros j u Hj Hu. apply (H1 (j - S (target_index st))%nat); [lia|].
    rewrite lookup_drop. by replace (S (target_index st) + (j - S (target_index st)))%nat with j by lia.
  - intros u Hu. apply H2. by rewrite lookup_drop.
Qed.

Definition auth_error : AppError := AppError.set_upstream_status (AppError.new 401 "denied") 401.

Definition two_accounts : list RoutingTarget :=
  [sample_target "a" "m" (Some "x") one; sample_target "b" "m" (Some "x") one;
   sample_target "c" "m" (Some "y") one].

Lemma auth_failure_skips_account_witness :
  @next_index ascii_folding two_accounts (sample_target "a" "m" (Some "x") one) initial_state
    auth_error = 2%nat
  /\ (0 < 2)%nat.
Proof.
  assert (Hc : fallback_class (@classification ascii_folding auth_error) = Auth) by reflexivity.
  pose proof (@auth_failure_skips_account ascii_folding two_accounts
    (sample_target "a" "m" (Some "x") one) initial_state auth_error Hc) as (H1 & _ & _).
  split; [reflexivity|exact H1].
Defined.

(** The words [classify_error] looks for. *)
Definition markers : list string :=
  ["429"; "rate limit"; "rate_limited"; "401"; "403"; "unauthorized"; "400"; "422";
   "bad request"; "lossy"; "capability"; "unsupported"].

(** The decision to fail over reads the message, not the status.  An upstream
    400, 422 or 404 is classified as terminal by its status, and logged so, but
    when its message holds none of the words the substring scan looks for, the
    request is sent to the next target; and an overloaded upstream (503) whose
    message mentions "400" is not failed over. *)
Theorem decision_ignores_upstream_status `{Lowercase} e attempt :
  (attempt < 10)%nat ->
  let message := to_lowercase ("routing error: " +:+ ae_message e) in
  (forallb (fun p => negb (contains p message)) markers = true ->
   upstream_status e = Some 400%Z \/ upstream_status e = Some 422%Z
     \/ upstream_status e = Some 404%Z ->
   decide_class (fallback_class (classification e)) = Fail
   /\ decision_for DefaultFallbackPolicy_with_defaults attempt e = TryNext)
  /\ (forallb (fun p => negb (contains p message)) (take 6 markers) = true ->
      contains "400" message = true -> upstream_status e = Some 503%Z ->
      decide_class (fallback_class (classification e)) = TryNext
      /\ decision_for DefaultFallbackPolicy_with_defaults attempt e = Fail).
Proof.
  intros Ha message. unfold decision_for, classify. cbn [Z.ltb Z.compare max_total_attempts
    DefaultFallbackPolicy_with_defaults Nat.min].
  assert ((10 <=? attempt)%nat = false) as Hle by (by apply Nat.leb_gt).
  change (Nat.min 10 10) with 10%nat. rewrite Hle. unfold classify_error. cbn [error_to_string].
  fold message. split.
  - intros Hm Hs. cbn in Hm. repeat rewrite andb_true_iff in Hm.
    repeat match type of Hm with _ /\ _ => let Hx := fresh in
      destruct Hm as [Hx Hm]; apply negb_true_iff in Hx; rewrite ?Hx end.
    split; [|reflexivity]. unfold classification. by destruct Hs as [->|[->| ->]].
  - intros Hm H4 Hs. cbn in Hm. repeat rewrite andb_true_iff in Hm.
    repeat match type of Hm with _ /\ _ => let Hx := fresh in
      destruct Hm as [Hx Hm]; apply negb_true_iff in Hx; rewrite ?Hx end.
    rewrite H4. split; [|reflexivity]. unfold classification. by rewrite Hs.
Qed.

Lemma decision_ignores_upstream_status_witness :
  decide_class (fallback_class (@classification ascii_folding upstream_error_400)) = Fail
  /\ @decision_for ascii_folding DefaultFallbackPolicy_with_defaults 1 upstream_error_400 = TryNext.
Proof.
  assert (Ha : (1 < 10)%nat) by lia.
  refine (proj1 (@decision_ignores_upstream_status ascii_folding upstream_error_400 1 Ha) _ _).
  - vm_compute. reflexivity.
  - left. reflexivity.
Defined.

(** An upstream can panic the gateway with one header.  When a rate-limited
    answer carries a [Retry-After] of 2^63 seconds or more, cooling the target
    adds it to the current instant, which is not representable, whatever the
    other tasks do in between. *)
Theorem huge_retry_after_panics `{Lowercase} `{GenRange} `{Gateway} key e rh secs (w : World) :
  fallback_class (classification e) = RateLimited ->
  retry_after_header e = Some rh -> parse_u64 rh = Some secs ->
  (9223372036854775808 <= secs)%Z -> (0 <= w_now w)%Z ->
  cool_rate_limited key (classification e) e w = Err InstantOverflow.
Proof.
  intros Hc Hr Hp Hs Hw. unfold cool_rate_limited. rewrite decide_True by done. rewrite Hr, Hp.
  unfold apply_cooling, registry, get_now, gets, mbind, M_bind, interleave.
  pose proof (env_time (w_env w) (w_health w) (w_now w)) as Ht.
  destruct (env_step _ _ _) as [[e' h] n]. cbn in *.
  unfold HealthRegistry.apply_cooling, instant_add.
  rewrite (proj2 (Z.ltb_ge _ _)); [done|]. unfold instant_limit, ns_per_sec in *. lia.
Qed.

Definition rate_limited_forever : AppError :=
  AppError.with_retry_after_header (AppError.set_upstream_status (AppError.new 429 "slow down") 429)
    "18446744073709551615".

Lemma huge_retry_after_panics_witness :
  @cool_rate_limited low_rng down "a:m"
    (@classification ascii_folding rate_limited_forever) rate_limited_forever down_world
  = Err InstantOverflow.
Proof.
  apply (@huge_retry_after_panics ascii_folding low_rng down "a:m" rate_limited_forever
           "18446744073709551615" 18446744073709551615%Z).
  - reflexivity.
  - reflexivity.
  - vm_compute. reflexivity.
  - discriminate.
  - discriminate.
Defined.
