(* ===== verification/Quota.v ===== *)
(** * Quota: per-key request and token budgets

    [crates/core/src/quota.rs]: the quota specification and the in-memory
    counter.  A call reads the system clock several times; [clock i] is the
    [i]-th reading in milliseconds, and nothing is assumed about it: it may
    even go backwards between two readings of one call. *)

From stdpp Require Import base option list countable gmap strings.
From Stdlib Require Import ZArith Lia.
From S2P Require Import Prelude Json.

Local Open Scope Z_scope.

Inductive QuotaKind := RequestsPerMinute | RequestsPerDay | TokensPerMinute | TokensPerDay.

#[export] Instance QuotaKind_eq_dec : EqDecision QuotaKind.
Proof. solve_decision. Defined.

Definition QuotaKind_to_nat (k : QuotaKind) : nat :=
  match k with
  | RequestsPerMinute => 0 | RequestsPerDay => 1 | TokensPerMinute => 2 | TokensPerDay => 3
  end.

Definition QuotaKind_of_nat (n : nat) : option QuotaKind :=
  match n with
  | 0%nat => Some RequestsPerMinute | 1%nat => Some RequestsPerDay
  | 2%nat => Some TokensPerMinute | 3%nat => Some TokensPerDay | _ => None
  end.

#[export] Instance QuotaKind_countable : Countable QuotaKind.
Proof. apply (inj_countable QuotaKind_to_nat QuotaKind_of_nat). by intros []. Defined.

(** Windows in milliseconds. *)
Definition window (k : QuotaKind) : Z :=
  match k with
  | RequestsPerMinute | TokensPerMinute => 60 * 1000
  | RequestsPerDay | TokensPerDay => 86400 * 1000
  end.

Inductive QuotaDecision :=
| Allow (remaining : option Z)
| Deny (retry_after limit : Z) (kind : QuotaKind).

Definition is_allowed (d : QuotaDecision) : bool :=
  match d with Allow _ => true | Deny _ _ _ => false end.

Record QuotaSpec := {
  requests_per_minute : option Z;
  requests_per_day : option Z;
  tokens_per_minute : option Z;
  tokens_per_day : option Z;
}.

Definition QuotaSpec_default : QuotaSpec :=
  {| requests_per_minute := None; requests_per_day := None; tokens_per_minute := None;
     tokens_per_day := None |}.

Module QuotaSpec.
Definition is_unlimited (s : QuotaSpec) : bool :=
  match requests_per_minute s, requests_per_day s, tokens_per_minute s, tokens_per_day s with
  | None, None, None, None => true
  | _, _, _, _ => false
  end.

(** One field of the derived deserialiser: absent and [null] are [None], a
    [u64] is kept, anything else is an error. *)
Definition field (k : string) (v : Value) : result unit (option Z) :=
  match get k v with
  | None | Some Null => Ok None
  | Some x => match as_u64 x with Some n => Ok (Some n) | None => Err tt end
  end.

Definition parse (v : Value) : result unit QuotaSpec :=
  if is_object v then
    rpm ← field "requests_per_minute" v;
    rpd ← field "requests_per_day" v;
    tpm ← field "tokens_per_minute" v;
    tpd ← field "tokens_per_day" v;
    mret {| requests_per_minute := rpm; requests_per_day := rpd; tokens_per_minute := tpm;
            tokens_per_day := tpd |}
  else Err tt.

Definition from_json (v : Value) : QuotaSpec :=
  match parse v with Ok s => s | Err _ => QuotaSpec_default end.
End QuotaSpec.

Record WindowCounter := { window_start_ms : Z; used : Z }.

Definition WindowCounter_default : WindowCounter := {| window_start_ms := 0; used := 0 |}.

(** [snapshot]: the counter, rolled over when its window has passed, the usage
    and the time to the end of the window. *)
Definition snapshot (c : WindowCounter) (now window_ms : Z) : WindowCounter * Z * Z :=
  let c' := if window_ms <=? sat_sub now (window_start_ms c)
            then {| window_start_ms := now; used := 0 |} else c in
  let elapsed := sat_sub now (window_start_ms c') in
  (c', used c', sat_sub window_ms elapsed).

Abbreviation Counters := (gmap QuotaKind WindowCounter).

Definition limit_of (s : QuotaSpec) (k : QuotaKind) : option Z :=
  match k with
  | RequestsPerMinute => requests_per_minute s
  | RequestsPerDay => requests_per_day s
  | TokensPerMinute => tokens_per_minute s
  | TokensPerDay => tokens_per_day s
  end.

Definition increment (tokens : Z) (k : QuotaKind) : Z :=
  match k with
  | RequestsPerMinute | RequestsPerDay => 1
  | TokensPerMinute | TokensPerDay => tokens
  end.

Definition some {A} (o : option A) : bool := match o with Some _ => true | None => false end.

(** The kinds a call looks at: both windows of a family as soon as one of them
    is limited. *)
Definition to_consume (s : QuotaSpec) : list QuotaKind :=
  (if some (requests_per_minute s) || some (requests_per_day s)
   then [RequestsPerMinute; RequestsPerDay] else [])
  ++ (if some (tokens_per_minute s) || some (tokens_per_day s)
      then [TokensPerMinute; TokensPerDay] else []).

Definition counter (m : Counters) (k : QuotaKind) : WindowCounter :=
  default WindowCounter_default (m !! k).

Section Calls.
Context (clock : nat -> Z).

(** Phase 1: the decision, the counters as the checks leave them, and the
    number of clock readings. *)
Fixpoint verify (s : QuotaSpec) (tokens : Z) (kinds : list QuotaKind) (m : Counters) (i : nat)
  : Counters * option QuotaDecision * nat :=
  match kinds with
  | [] => (m, None, i)
  | kind :: r =>
      let '(c, u, _) := snapshot (counter m kind) (clock i) (window kind) in
      let m := <[kind := c]> m in
      match limit_of s kind with
      | Some limit =>
          if limit <? wrap64 (u + increment tokens kind) then
            let '(c, _, retry_after) := snapshot c (clock (S i)) (window kind) in
            (<[kind := c]> m, Some (Deny retry_after limit kind), S (S i))
          else verify s tokens r m (S i)
      | None => verify s tokens r m (S i)
      end
  end.

(** Phase 2: every kind is rolled over if needed and charged. *)
Fixpoint commit (tokens : Z) (kinds : list QuotaKind) (m : Counters) (i : nat) : Counters :=
  match kinds with
  | [] => m
  | kind :: r =>
      let '(c, _, _) := snapshot (counter m kind) (clock i) (window kind) in
      let c := {| window_start_ms := window_start_ms c;
                  used := sat_add64 (used c) (increment tokens kind) |} in
      commit tokens r (<[kind := c]> m) (S i)
  end.

Abbreviation InMemoryQuota := (gmap string Counters).

Definition check_and_consume (q : InMemoryQuota) (key_id : string) (s : QuotaSpec) (tokens : Z)
  : InMemoryQuota * QuotaDecision :=
  let per_kind := default ∅ (q !! key_id) in
  let kinds := to_consume s in
  let '(m, denied, i) := verify s tokens kinds per_kind 0 in
  match denied with
  | Some d => (<[key_id := m]> q, d)
  | None => (<[key_id := commit tokens kinds m i]> q, Allow None)
  end.

(** [current_usage]: every counter of the key is rolled over and reported, in
    the iteration order of the map. *)
Fixpoint usage_loop (l : list (QuotaKind * WindowCounter)) (m : Counters) (i : nat)
  : Counters * gmap QuotaKind Z :=
  match l with
  | [] => (m, ∅)
  | (kind, c) :: r =>
      let '(c, u, _) := snapshot c (clock i) (window kind) in
      let '(m, out) := usage_loop r (<[kind := c]> m) (S i) in
      (m, <[kind := u]> out)
  end.

Definition current_usage (q : InMemoryQuota) (key_id : string)
  : InMemoryQuota * gmap QuotaKind Z :=
  let per_kind := default ∅ (q !! key_id) in
  let '(m, out) := usage_loop (map_to_list per_kind) per_kind 0 in
  (<[key_id := m]> q, out).
End Calls.

(** ** Lemmas *)

Definition counters (q : gmap string Counters) (key_id : string) : Counters :=
  default ∅ (q !! key_id).

(** What a key has used of a kind, before any window is rolled over. *)
Definition used_of (q : gmap string Counters) (key_id : string) (k : QuotaKind) : Z :=
  used (counter (counters q key_id) k).

Lemma snapshot_used c now w c' u r :
  snapshot c now w = (c', u, r) -> u = used c' /\ (used c' = used c \/ used c' = 0).
Proof. unfold snapshot. destruct (w <=? _); intros [= <- <- <-]; auto. Qed.

Lemma snapshot_remaining c now w c' u r :
  0 <= w -> snapshot c now w = (c', u, r) -> 0 <= r <= w.
Proof. unfold snapshot, sat_sub. destruct (w <=? _); intros ? [= <- <- <-]; cbn; lia. Qed.

Lemma counter_insert m k k' c :
  counter (<[k' := c]> m) k = if decide (k = k') then c else counter m k.
Proof.
  unfold counter. destruct (decide (k = k')) as [->|].
  - by rewrite lookup_insert_eq.
  - by rewrite lookup_insert_ne.
Qed.

Lemma to_consume_nodup s : NoDup (to_consume s).
Proof.
  unfold to_consume. destruct (_ || _), (_ || _); cbn; apply (bool_decide_unpack _); reflexivity.
Qed.

Lemma limited_in_to_consume s k : is_Some (limit_of s k) -> k ∈ to_consume s.
Proof.
  unfold to_consume. intros [l Hl]. apply elem_of_app.
  destruct k; cbn in Hl; rewrite Hl; cbn; rewrite ?orb_true_r;
    [left|left|right|right]; repeat (first [left|right]; try done); rewrite ?orb_true_r; set_solver.
Qed.

Lemma verify_spec clock s tokens kinds m i m' d j :
  NoDup kinds -> verify clock s tokens kinds m i = (m', d, j) ->
  (forall k, (used (counter m' k) = used (counter m k) \/ used (counter m' k) = 0)
             /\ (k ∉ kinds -> counter m' k = counter m k))
  /\ match d with
     | None => forall k l, k ∈ kinds -> limit_of s k = Some l ->
                 wrap64 (used (counter m' k) + increment tokens k) <= l
     | Some (Deny ra l k) => limit_of s k = Some l /\ 0 <= ra <= window k
         /\ exists u, (u = used (counter m k) \/ u = 0) /\ l < wrap64 (u + increment tokens k)
     | Some (Allow _) => False
     end.
Proof.
  intros Hnd. revert m i m' d j.
  induction Hnd as [|kind r Hnotin Hnd IH]; intros m i m' d j; cbn [verify].
  { intros [= <- <- <-]. split; [by auto|]. intros k l Hk. by apply elem_of_nil in Hk. }
  destruct (snapshot _ _ _) as [[c u] rem] eqn:Es. apply snapshot_used in Es as Hu.
  assert (forall m1 d1 j1, verify clock s tokens r (<[kind:=c]> m) (S i) = (m1, d1, j1) ->
    (forall k, (used (counter m1 k) = used (counter m k) \/ used (counter m1 k) = 0)
               /\ (k ∉ kind :: r -> counter m1 k = counter m k))
    /\ counter m1 kind = c) as Hrest.
  { intros m1 d1 j1 E. destruct (IH _ _ _ _ _ E) as [H1 _]. split.
    - intros k. destruct (H1 k) as [H2 H3]. rewrite counter_insert in H2, H3.
      destruct (decide (k = kind)) as [->|Hne].
      + split; [|intros Hn; exfalso; apply Hn; left].
        destruct Hu as [_ Hu]. destruct H2 as [->| ->]; auto.
      + split; [done|]. intros Hn. apply H3. intros Hin. apply Hn. by right.
    - destruct (H1 kind) as [_ H3]. rewrite H3 by done. rewrite counter_insert.
      by rewrite decide_True. }
  assert (forall m1 d1 j1, verify clock s tokens r (<[kind:=c]> m) (S i) = (m1, d1, j1) ->
    (forall l, limit_of s kind = Some l -> wrap64 (u + increment tokens kind) <= l) ->
    match d1 with
    | None => forall k l, k ∈ kind :: r -> limit_of s k = Some l ->
                wrap64 (used (counter m1 k) + increment tokens k) <= l
    | Some (Deny ra l k) => limit_of s k = Some l /\ 0 <= ra <= window k
        /\ exists u, (u = used (counter m k) \/ u = 0) /\ l < wrap64 (u + increment tokens k)
    | Some (Allow _) => False
    end) as Hdec.
  { intros m1 d1 j1 E Hlim. destruct (Hrest _ _ _ E) as [_ Hc]. destruct (IH _ _ _ _ _ E) as [_ H2].
    destruct d1 as [[|ra l k]|]; [done| |].
    - destruct H2 as (Hl & Hr & v & Hv & Hlt). split; [done|]. split; [done|].
      exists v. split; [|done]. rewrite counter_insert in Hv. destruct (decide (k = kind)) as [->|].
      + destruct Hu as [_ Hu]. destruct Hv as [->|]; auto.
      + done.
    - intros k l [->|Hk]%elem_of_cons Hl; [|by apply H2].
      rewrite Hc. destruct Hu as [<- _]. by apply Hlim. }
  destruct (limit_of s kind) as [limit|] eqn:El.
  - destruct (limit <? wrap64 _) eqn:Eq.
    + destruct (snapshot c _ _) as [[c2 u2] ra] eqn:E2. intros [= <- <- <-].
      apply snapshot_used in E2 as Hu2. apply snapshot_remaining in E2; [|by destruct kind].
      split.
      * intros k. rewrite !counter_insert. destruct (decide (k = kind)) as [->|]; [|by auto].
        split; [|intros Hn; exfalso; apply Hn; left].
        destruct Hu as [_ Hu], Hu2 as [_ Hu2]. destruct Hu2 as [->| ->]; auto.
      * split; [done|]. split; [done|]. exists u. destruct Hu as [-> Hu]. bool_prop. auto.
    + intros E. split; [apply (Hrest _ _ _ E)|]. apply (Hdec _ _ _ E).
      intros l [= <-]. by bool_prop.
  - intros E. split; [apply (Hrest _ _ _ E)|]. by apply (Hdec _ _ _ E).
Qed.

Lemma commit_spec clock tokens kinds m i :
  NoDup kinds ->
  forall k, if decide (k ∈ kinds)
    then exists base, (base = used (counter m k) \/ base = 0)
           /\ used (counter (commit clock tokens kinds m i) k) = sat_add64 base (increment tokens k)
    else counter (commit clock tokens kinds m i) k = counter m k.
Proof.
  intros Hnd. revert m i. induction Hnd as [|kind r Hnotin Hnd IH]; intros m i k; cbn [commit].
  { rewrite decide_False; [done|]. by intros ?%elem_of_nil. }
  destruct (snapshot _ _ _) as [[c u] rem] eqn:Es. apply snapshot_used in Es as [_ Hu].
  set (m1 := <[kind := _]> m). specialize (IH m1 (S i) k).
  destruct (decide (k = kind)) as [->|Hne].
  - rewrite decide_True by left. rewrite decide_False in IH by done. exists (used c).
    split; [done|]. rewrite IH. unfold m1. rewrite counter_insert. by rewrite decide_True.
  - assert (counter m1 k = counter m k) as Hm by (unfold m1; rewrite counter_insert; by rewrite decide_False).
    rewrite Hm in IH. destruct (decide (k ∈ r)).
    + rewrite decide_True by (by right). exact IH.
    + rewrite decide_False; [exact IH|]. by intros [?|?]%elem_of_cons.
Qed.

Lemma check_counters clock q key s tokens q' d :
  check_and_consume clock q key s tokens = (q', d) ->
  (forall key', key' <> key -> counters q' key' = counters q key')
  /\ exists m d1 j, verify clock s tokens (to_consume s) (counters q key) 0 = (m, d1, j)
     /\ counters q' key = match d1 with
                          | Some _ => m
                          | None => commit clock tokens (to_consume s) m j
                          end
     /\ d = default (Allow None) d1.
Proof.
  unfold check_and_consume. fold (counters q key).
  destruct (verify _ _ _ _ _ _) as [[m d1] j] eqn:E. intros H. split.
  - intros key' Hne. destruct d1; injection H as <- <-; unfold counters;
      by rewrite lookup_insert_ne.
  - exists m, d1, j. split; [done|].
    destruct d1; injection H as <- <-; unfold counters; by rewrite lookup_insert_eq.
Qed.


(** What an allowed call charges to a kind. *)
Definition charge (s : QuotaSpec) (tokens : Z) (k : QuotaKind) : Z :=
  if decide (k ∈ to_consume s) then increment tokens k else 0.

(** The counters are in range and the request does not overflow a limited
    one. *)
Definition fits (q : gmap string Counters) (key : string) (s : QuotaSpec) (tokens : Z) : Prop :=
  0 <= tokens <= u64_max
  /\ forall k, 0 <= used_of q key k <= u64_max
       /\ (is_Some (limit_of s k) -> used_of q key k + increment tokens k <= u64_max).


Lemma allow_charge clock q key s tokens q' r :
  fits q key s tokens -> check_and_consume clock q key s tokens = (q', Allow r) ->
  (forall k, exists base, (base = used_of q key k \/ base = 0)
     /\ used_of q' key k = sat_add64 base (charge s tokens k))
  /\ (forall k l, limit_of s k = Some l -> 0 <= used_of q' key k <= l)
  /\ (forall key', key' <> key -> counters q' key' = counters q key').
Proof.
  intros [Ht Hfit] E. destruct (check_counters _ _ _ _ _ _ _ E) as (Hframe & m & d1 & j & Ev & Hq & Hd).
  destruct (verify_spec _ _ _ _ _ _ _ _ _ (to_consume_nodup s) Ev) as [Hm Hdec].
  destruct d1 as [[|]|]; [done|done|]. unfold used_of in *. rewrite Hq.
  pose proof (commit_spec clock tokens (to_consume s) m j (to_consume_nodup s)) as Hc.
  assert (forall k, exists base, (base = used (counter (counters q key) k) \/ base = 0)
    /\ used (counter (commit clock tokens (to_consume s) m j) k)
       = sat_add64 base (charge s tokens k)
    /\ (k ∈ to_consume s -> base = used (counter m k) \/ base = 0)) as Hcharge.
  { intros k. specialize (Hc k). destruct (Hm k) as [Hk Hnot]. unfold charge.
    destruct (decide (k ∈ to_consume s)) as [Hin|Hin].
    - destruct Hc as (base & Hb & ->). exists base. split; [|split; [done|auto]].
      destruct Hb as [->|]; [|by right]. destruct Hk; auto.
    - exists (used (counter (counters q key) k)). split; [by left|]. split; [|done].
      rewrite Hc, Hnot by done. destruct (Hfit k) as [Hr _]. unfold sat_add64. lia. }
  split; [|split; [|done]].
  - intros k. destruct (Hcharge k) as (base & ? & ? & _). eauto.
  - intros k l Hl. destruct (Hcharge k) as (base & Hb & -> & Hb2).
    assert (k ∈ to_consume s) as Hin by (apply limited_in_to_consume; by rewrite Hl).
    specialize (Hdec k l Hin Hl). specialize (Hb2 Hin).
    destruct (Hfit k) as [Hr Hsum]. rewrite Hl in Hsum. specialize (Hsum ltac:(done)).
    destruct (Hm k) as [Hk _].
    assert (0 <= increment tokens k) by (destruct k; cbn; lia).
    rewrite wrap64_small in Hdec by (apply in_u64_iff; destruct Hk as [->| ->]; lia).
    unfold charge, sat_add64. rewrite decide_True by done.
    destruct Hb2 as [->| ->]; destruct Hk as [E1|E1]; rewrite ?E1 in *; lia.
Qed.

Lemma deny_charge clock q key s tokens q' retry_after limit kind :
  check_and_consume clock q key s tokens = (q', Deny retry_after limit kind) ->
  (forall k, used_of q' key k = used_of q key k \/ used_of q' key k = 0)
  /\ (forall key', key' <> key -> counters q' key' = counters q key')
  /\ limit_of s kind = Some limit /\ 0 <= retry_after <= window kind
  /\ exists u, (u = used_of q key kind \/ u = 0) /\ limit < wrap64 (u + increment tokens kind).
Proof.
  intros E. destruct (check_counters _ _ _ _ _ _ _ E) as (Hframe & m & d1 & j & Ev & Hq & Hd).
  destruct (verify_spec _ _ _ _ _ _ _ _ _ (to_consume_nodup s) Ev) as [Hm Hdec].
  destruct d1 as [[|ra l k]|]; [done| |done]. cbn in Hd. injection Hd as -> -> ->.
  unfold used_of. rewrite Hq. split; [intros k0; apply Hm|]. by split.
Qed.

(** *** A counter over time *)

(** Rollovers at readings of [clock]. *)
Definition rolls (clock : nat -> Z) (w : Z) (c c' : WindowCounter) : Prop :=
  exists i, w <= sat_sub (clock i) (window_start_ms c)
    /\ c' = {| window_start_ms := clock i; used := 0 |}.
Definition evolves (clock : nat -> Z) (w : Z) : WindowCounter -> WindowCounter -> Prop :=
  rtc (rolls clock w).

Definition charged (c : WindowCounter) (n : Z) : WindowCounter :=
  {| window_start_ms := window_start_ms c; used := sat_add64 (used c) n |}.

Lemma snapshot_evolves clock i c w c' u r :
  snapshot c (clock i) w = (c', u, r) -> evolves clock w c c'.
Proof.
  unfold snapshot. destruct (w <=? _) eqn:E; intros [= <- _ _]; [|apply rtc_refl].
  apply rtc_once. exists i. split; [by apply Z.leb_le|done].
Qed.

Lemma evolves_used clock w c c' : evolves clock w c c' -> used c' = used c \/ used c' = 0.
Proof. induction 1 as [|x y z (i & _ & ->) _ IH]; [by left|]. right. by destruct IH as [->| ->]. Qed.

Lemma verify_evolves clock s tokens kinds m i m' d j :
  verify clock s tokens kinds m i = (m', d, j) ->
  forall k, evolves clock (window k) (counter m k) (counter m' k).
Proof.
  revert m i m' d j. induction kinds as [|kind r IH]; intros m i m' d j; cbn [verify].
  { intros [= <- _ _] k. apply rtc_refl. }
  destruct (snapshot _ _ _) as [[c u] rem] eqn:Es. apply snapshot_evolves in Es as He.
  assert (forall m0 k, counter m0 k = counter (<[kind:=c]> m) k -> evolves clock (window k) (counter m k) (counter m0 k)) as Hone.
  { intros m0 k ->. rewrite counter_insert. destruct (decide (k = kind)) as [->|]; [done|apply rtc_refl]. }
  assert (verify clock s tokens r (<[kind:=c]> m) (S i) = (m', d, j) ->
    forall k, evolves clock (window k) (counter m k) (counter m' k)) as Hrest.
  { intros E k. etransitivity; [by apply Hone|by eapply IH]. }
  destruct (limit_of s kind); [|exact Hrest]. destruct (_ <? _); [|exact Hrest].
  destruct (snapshot c _ _) as [[c2 u2] ra] eqn:E2. apply snapshot_evolves in E2. intros [= <- _ _] k.
  rewrite !counter_insert. destruct (decide (k = kind)) as [->|]; [by etransitivity|apply rtc_refl].
Qed.

Lemma commit_evolves clock tokens kinds m i k :
  NoDup kinds ->
  if decide (k ∈ kinds)
  then exists c, evolves clock (window k) (counter m k) c
         /\ counter (commit clock tokens kinds m i) k = charged c (increment tokens k)
  else counter (commit clock tokens kinds m i) k = counter m k.
Proof.
  intros Hnd. revert m i. induction Hnd as [|kind r Hnotin Hnd IH]; intros m i; cbn [commit].
  { rewrite decide_False; [done|]. by intros ?%elem_of_nil. }
  destruct (snapshot _ _ _) as [[c u] rem] eqn:Es. apply snapshot_evolves in Es as He.
  set (m1 := <[kind := _]> m). specialize (IH m1 (S i)).
  destruct (decide (k = kind)) as [->|Hne].
  - rewrite decide_True by left. rewrite decide_False in IH by done. exists c. split; [done|].
    rewrite IH. unfold m1. rewrite counter_insert. by rewrite decide_True.
  - assert (counter m1 k = counter m k) as Hm by (unfold m1; rewrite counter_insert; by rewrite decide_False).
    rewrite Hm in IH. destruct (decide (k ∈ r)).
    + rewrite decide_True by (by right). exact IH.
    + rewrite decide_False; [exact IH|]. by intros [?|?]%elem_of_cons.
Qed.

(** One call, seen by one limited counter of its key. *)
Lemma check_counter clock q key s tokens q' d k m lim :
  check_and_consume clock q key s tokens = (q', d) ->
  limit_of s k = Some m -> m <= lim -> 0 <= tokens ->
  lim + increment tokens k <= u64_max -> 0 <= used_of q key k <= lim ->
  exists c, evolves clock (window k) (counter (counters q key) k) c
    /\ window_start_ms (counter (counters q' key) k) = window_start_ms c
    /\ used_of q' key k = used c + (if is_allowed d then increment tokens k else 0)
    /\ 0 <= used_of q' key k <= lim.
Proof.
  intros E Hm Hml Ht Hfit Hr.
  destruct (check_counters _ _ _ _ _ _ _ E) as (_ & m' & d1 & j & Ev & Hq & ->).
  destruct (verify_spec _ _ _ _ _ _ _ _ _ (to_consume_nodup s) Ev) as [_ Hdec].
  pose proof (verify_evolves _ _ _ _ _ _ _ _ _ Ev k) as Hv.
  pose proof (evolves_used _ _ _ _ Hv) as Hu. unfold used_of in *. rewrite Hq.
  assert (0 <= increment tokens k) as Hi by (destruct k; cbn; lia).
  destruct d1 as [[|]|]; [done| |]; unfold default; cbn [from_option id is_allowed].
  - exists (counter m' k). split; [exact Hv|]. split; [done|]. lia.
  - assert (k ∈ to_consume s) as Hk by (apply limited_in_to_consume; by rewrite Hm).
    specialize (Hdec k m Hk Hm).
    rewrite wrap64_small in Hdec by (apply in_u64_iff; destruct Hu as [->| ->]; lia).
    pose proof (commit_evolves clock tokens (to_consume s) m' j k (to_consume_nodup s)) as Hc.
    rewrite decide_True in Hc by done. destruct Hc as (c & Hc & ->).
    pose proof (evolves_used _ _ _ _ Hc) as Hu2. cbn [charged window_start_ms used].
    exists c. split; [by etransitivity|]. split; [done|]. unfold sat_add64. lia.
Qed.

(** ** Properties *)

(** An allowed request is charged exactly once and stays within the budget.
    Whatever the clock does, each kind the call charges goes from its usage, or
    from zero when its window was rolled over, up by one request or by the
    tokens; every limited kind is then at or below its limit; other kinds and
    other keys are untouched. *)
Theorem allow_charges_within_limit clock q key s tokens q' r :
  fits q key s tokens -> check_and_consume clock q key s tokens = (q', Allow r) ->
  (forall k, exists base, (base = used_of q key k \/ base = 0)
     /\ used_of q' key k = sat_add64 base (charge s tokens k))
  /\ (forall k l, limit_of s k = Some l -> 0 <= used_of q' key k <= l)
  /\ (forall key', key' <> key -> counters q' key' = counters q key').
Proof. apply allow_charge. Qed.

Definition sample_spec : QuotaSpec :=
  {| requests_per_minute := Some 2; requests_per_day := None; tokens_per_minute := Some 100;
     tokens_per_day := None |}.

Definition sample_clock (i : nat) : Z := 1700000000000 + Z.of_nat i.

Definition after_one : gmap string Counters :=
  fst (check_and_consume sample_clock ∅ "key" sample_spec 40).

Lemma allow_charges_within_limit_witness :
  check_and_consume sample_clock ∅ "key" sample_spec 40 = (after_one, Allow None)
  /\ 0 <= used_of after_one "key" TokensPerMinute <= 100.
Proof.
  assert (E : check_and_consume sample_clock ∅ "key" sample_spec 40 = (after_one, Allow None))
    by (vm_compute; reflexivity).
  assert (F : fits ∅ "key" sample_spec 40).
  { split; [vm_compute; split; discriminate|]. intros k.
    split; [|intros _]; destruct k; vm_compute; try split; discriminate. }
  split; [exact E|].
  exact (proj1 (proj2 (allow_charges_within_limit _ _ _ _ _ _ _ F E)) TokensPerMinute 100 eq_refl).
Defined.

(** A denied request costs nothing.  No usage of any key goes up, the reported
    limit is the one of the reported kind and would have been exceeded, and the
    caller is told to wait no longer than one window. *)
Theorem deny_charges_nothing clock q key s tokens q' retry_after limit kind :
  check_and_consume clock q key s tokens = (q', Deny retry_after limit kind) ->
  (forall k, used_of q' key k = used_of q key k \/ used_of q' key k = 0)
  /\ (forall key', key' <> key -> counters q' key' = counters q key')
  /\ limit_of s kind = Some limit /\ 0 <= retry_after <= window kind
  /\ exists u, (u = used_of q key kind \/ u = 0) /\ limit < wrap64 (u + increment tokens kind).
Proof. apply deny_charge. Qed.

Lemma deny_charges_nothing_witness :
  check_and_consume sample_clock after_one "key" sample_spec 70
    = (after_one, Deny 59999 100 TokensPerMinute)
  /\ limit_of sample_spec TokensPerMinute = Some 100.
Proof.
  assert (E : check_and_consume sample_clock after_one "key" sample_spec 70
              = (after_one, Deny 59999 100 TokensPerMinute)) by (vm_compute; reflexivity).
  split; [exact E|].
  exact (proj1 (proj2 (proj2 (deny_charges_nothing _ _ _ _ _ _ _ _ _ E)))).
Defined.

(** A call: its clock, its key, the specification of the key at that time, and
    its tokens. *)
Record QuotaCall := {
  qc_clock : nat -> Z;
  qc_key : string;
  qc_spec : QuotaSpec;
  qc_tokens : Z;
}.

Definition consume (q : gmap string Counters) (c : QuotaCall) : gmap string Counters * QuotaDecision :=
  check_and_consume (qc_clock c) q (qc_key c) (qc_spec c) (qc_tokens c).

Definition calls_of (q : gmap string Counters) (l : list QuotaCall) : gmap string Counters :=
  fold_left (fun q c => fst (consume q c)) l q.

(** The calls come one after the other: no clock of a later call is behind one
    of an earlier call. *)
Fixpoint in_order (l : list QuotaCall) : Prop :=
  match l with
  | [] => True
  | c :: l => Forall (fun d => forall i j, qc_clock c i <= qc_clock d j) l /\ in_order l
  end.

(** What the allowed calls of a key that run within an interval have used. *)
Definition runs_within (t w : Z) (c : QuotaCall) : Prop := forall i, t <= qc_clock c i < t + w.

Inductive spent (t w : Z) (key : string) (k : QuotaKind)
  : gmap string Counters -> list QuotaCall -> Z -> Prop :=
| spent_nil q : spent t w key k q [] 0
| spent_counts q c l n : qc_key c = key -> runs_within t w c -> is_allowed (snd (consume q c)) = true ->
    spent t w key k (fst (consume q c)) l n -> spent t w key k q (c :: l) (increment (qc_tokens c) k + n)
| spent_not q c l n : qc_key c <> key \/ ~ runs_within t w c \/ is_allowed (snd (consume q c)) = false ->
    spent t w key k (fst (consume q c)) l n -> spent t w key k q (c :: l) n.

(** The calls of a key are limited by [lim], and none is so large that its sum
    with the limit leaves 64 bits. *)
Definition limited_by (lim : Z) (k : QuotaKind) (c : QuotaCall) : Prop :=
  0 <= qc_tokens c /\ lim + increment (qc_tokens c) k <= u64_max
  /\ exists m, limit_of (qc_spec c) k = Some m /\ m <= lim.

(** What an interval that has seen [n] so far leaves for the calls [l], for a
    counter of a window of [w]: nothing yet, all of it in the window of the
    counter, in that and in one before it, or the interval is over. *)
Definition interval_state (t w lim : Z) (c : WindowCounter) (l : list QuotaCall) (n : Z) : Prop :=
  n = 0
  \/ Forall (fun d => forall i, t <= qc_clock d i) l
     /\ (n <= used c
         \/ t <= window_start_ms c /\ n <= lim + used c
         \/ n <= 2 * lim /\ Forall (fun d => forall i, t + w <= qc_clock d i) l).

Lemma evolves_since clock w c c' :
  0 < w -> evolves clock w c c' -> c' = c
  \/ used c' = 0 /\ (exists i, window_start_ms c' = clock i)
     /\ exists i, window_start_ms c + w <= clock i.
Proof.
  intros Hw He. induction He as [|x y z (i & Hi & ->) _ IH]; [by left|]. right.
  assert (window_start_ms x + w <= clock i) by (unfold sat_sub in Hi; lia).
  destruct IH as [->|(Hu & Hs & _)]; [split; [done|]; split; by exists i|].
  split; [done|]. split; [done|]. by exists i.
Qed.

(** One call of the key, and what it adds to the interval. *)
Lemma interval_step t w lim clock c cm c' l n add (inside : Prop) :
  0 < w -> evolves clock w c cm -> window_start_ms c' = window_start_ms cm ->
  used c' = used cm + add -> 0 <= used c <= lim -> 0 <= used c' <= lim -> 0 <= add ->
  Forall (fun d => forall i j, clock i <= qc_clock d j) l ->
  (inside -> forall i, t <= clock i < t + w) ->
  (n = 0 \/ (forall i, t <= clock i)
    /\ (n <= used c \/ t <= window_start_ms c /\ n <= lim + used c
        \/ n <= 2 * lim /\ forall i, t + w <= clock i)) ->
  interval_state t w lim c' l n /\ (inside -> interval_state t w lim c' l (n + add)).
Proof.
  intros Hw He Hs Hu Hc Hc' Ha Hl Hin Hn.
  assert (forall b, (exists i, b <= clock i) -> Forall (fun d => forall i, b <= qc_clock d i) l) as Hlater.
  { intros b [i Hi]. eapply Forall_impl; [exact Hl|]. intros d Hd j. specialize (Hd i j). lia. }
  destruct (evolves_since _ _ _ _ Hw He) as [->|(H0 & [i Hi] & [j Hj])].
  - split.
    + destruct Hn as [->|[Ht Hn]]; [by left|]. right. split; [apply Hlater; by exists O|].
      destruct Hn as [?|[[? ?]|[? Hd]]]; [left; lia|right; left; lia|].
      right. right. split; [done|]. apply Hlater. by exists O.
    + intros Hi. specialize (Hin Hi). right. split; [apply Hlater; exists O; apply Hin|].
      destruct Hn as [->|[Ht Hn]]; [left; lia|].
      destruct Hn as [?|[[? ?]|[? Hd]]]; [left; lia|right; left; lia|].
      specialize (Hd O). specialize (Hin O). lia.
  - split.
    + destruct Hn as [->|[Ht Hn]]; [by left|]. right. split; [apply Hlater; by exists O|].
      destruct Hn as [?|[[? ?]|[? Hd]]].
      * right. left. specialize (Ht i). lia.
      * right. right. split; [lia|]. apply Hlater. exists j. lia.
      * right. right. split; [done|]. apply Hlater. by exists O.
    + intros Hx. specialize (Hin Hx). right. split; [apply Hlater; exists O; apply Hin|].
      right. left. pose proof (Hin i). pose proof (Hin j).
      destruct Hn as [->|[Ht Hn]]; [lia|]. destruct Hn as [?|[[? ?]|[? Hd]]]; [lia|lia|].
      specialize (Hd O). specialize (Hin O). lia.
Qed.

Lemma window_positive k : 0 < window k.
Proof. by destruct k. Qed.

Lemma spent_bounded t key k lim q l n0 n :
  in_order l -> Forall (fun c => qc_key c = key -> limited_by lim k c) l ->
  0 <= used_of q key k <= lim ->
  interval_state t (window k) lim (counter (counters q key) k) l n0 ->
  spent t (window k) key k q l n -> n0 + n <= 2 * lim.
Proof.
  intros Ho Hl Hr Hn Hs. revert n0 Ho Hl Hr Hn.
  assert (forall q c l n0, in_order (c :: l) ->
    Forall (fun c => qc_key c = key -> limited_by lim k c) (c :: l) ->
    0 <= used_of q key k <= lim ->
    interval_state t (window k) lim (counter (counters q key) k) (c :: l) n0 ->
    0 <= used_of (fst (consume q c)) key k <= lim
    /\ interval_state t (window k) lim (counter (counters (fst (consume q c)) key) k) l n0
    /\ (qc_key c = key -> runs_within t (window k) c -> is_allowed (snd (consume q c)) = true ->
        interval_state t (window k) lim (counter (counters (fst (consume q c)) key) k) l
          (n0 + increment (qc_tokens c) k))) as Hstep.
  { clear. intros q c l n0 [Ho _] [Hc _]%Forall_cons Hr Hn.
    destruct (consume q c) as [q' d] eqn:E. cbn [fst snd]. unfold consume in E.
    destruct (decide (qc_key c = key)) as [<-|Hne].
    2: { destruct (check_counters _ _ _ _ _ _ _ E) as [Hf _]. unfold used_of. rewrite Hf by done.
         split; [exact Hr|]. split; [|done]. destruct Hn as [->|[[_ Ht]%Forall_cons Hn]]; [by left|]. right.
         split; [done|]. destruct Hn as [?|[?|[? [_ ?]%Forall_cons]]]; auto. }
    destruct (Hc eq_refl) as (Ht & Hfit & m & Hm & Hml).
    destruct (check_counter _ _ _ _ _ _ _ _ _ _ E Hm Hml Ht Hfit Hr) as (cm & He & Hs & Hu & Hr').
    assert (0 <= increment (qc_tokens c) k) by (destruct k; cbn; lia).
    split; [exact Hr'|].
    destruct (interval_step t (window k) lim (qc_clock c) (counter (counters q (qc_key c)) k) cm
                (counter (counters q' (qc_key c)) k) l n0 (if is_allowed d then increment (qc_tokens c) k else 0)
                (runs_within t (window k) c)) as [H1 H2]; try done.
    - apply window_positive.
    - destruct (is_allowed d); lia.
    - destruct Hn as [->|[[Hh _]%Forall_cons Hn]]; [by left|]. right. split; [done|].
      destruct Hn as [?|[?|[? [? _]%Forall_cons]]]; auto.
    - split; [exact H1|]. intros _ Hin Hd. specialize (H2 Hin). by rewrite Hd in H2. }
  induction Hs as [q|q c l n Hk Hw Hd _ IH|q c l n _ _ IH]; intros n0 Ho Hl Hr Hn.
  - destruct Hn as [->|[_ [?|[?|[? _]]]]]; unfold used_of in Hr; lia.
  - destruct (Hstep _ _ _ _ Ho Hl Hr Hn) as (Hr' & _ & Hn').
    specialize (IH _ (proj2 Ho) (Forall_inv_tail Hl) Hr' (Hn' Hk Hw Hd)). lia.
  - destruct (Hstep _ _ _ _ Ho Hl Hr Hn) as (Hr' & Hn' & _).
    exact (IH _ (proj2 Ho) (Forall_inv_tail Hl) Hr' Hn').
Qed.

Lemma calls_within_limit key k lim q l :
  Forall (fun c => qc_key c = key -> limited_by lim k c) l ->
  0 <= used_of q key k <= lim -> 0 <= used_of (calls_of q l) key k <= lim.
Proof.
  revert q. induction l as [|c l IH]; intros q Hl Hr; [done|]. cbn.
  apply Forall_cons in Hl as [Hc Hl]. apply IH; [done|].
  destruct (consume q c) as [q' d] eqn:E. cbn [fst]. unfold consume in E.
  destruct (decide (qc_key c = key)) as [<-|Hne].
  - destruct (Hc eq_refl) as (Ht & Hfit & m & Hm & Hml).
    destruct (check_counter _ _ _ _ _ _ _ _ _ _ E Hm Hml Ht Hfit Hr) as (cm & _ & _ & _ & Hr'). done.
  - destruct (check_counters _ _ _ _ _ _ _ E) as [Hf _]. unfold used_of. by rewrite Hf.
Qed.

(** C24: What a key uses is bounded by its budget.  After any history of calls of any keys, one
    after the other, whose clocks do not go back, with specifications that may
    change from call to call: for a kind the key is limited in by at most
    [lim], what the allowed calls of the key have used together in any
    interval of one window is at most twice [lim] (two windows of the counter
    can overlap it, and never three), and the stored usage is never above
    [lim].  No request may be so large that its sum with the limit leaves 64
    bits. *)
Theorem budget_never_exceeded l key k lim :
  in_order l -> Forall (fun c => qc_key c = key -> limited_by lim k c) l -> 0 <= lim ->
  0 <= used_of (calls_of ∅ l) key k <= lim
  /\ forall t n, spent t (window k) key k ∅ l n -> n <= 2 * lim.
Proof.
  intros Ho Hl Hlim. assert (0 <= used_of ∅ key k <= lim) as Hr by (split; [done|exact Hlim]).
  split; [by apply calls_within_limit|]. intros t n Hs.
  exact (spent_bounded t key k lim ∅ l 0 n Ho Hl Hr (or_introl eq_refl) Hs).
Qed.

Definition sample_call (t : Z) (key : string) (tokens : Z) : QuotaCall :=
  {| qc_clock _ := t; qc_key := key; qc_spec := sample_spec; qc_tokens := tokens |}.

Definition sample_calls : list QuotaCall :=
  [sample_call 1700000000000 "a" 60; sample_call 1700000059000 "b" 100; sample_call 1700000059999 "a" 40;
   sample_call 1700000060000 "a" 90].

(** The bound is met but for one: a hundred tokens just before the end of a
    window, ninety just after it. *)
Lemma sample_spent : spent 1700000000001 60000 "a" TokensPerMinute ∅ sample_calls 130.
Proof.
  apply spent_not; [right; left; intros Hw; by destruct (Hw O)|].
  apply spent_not; [by left|].
  refine (spent_counts _ _ _ _ _ (sample_call 1700000059999 "a" 40) _ 90 _ _ _ _);
    [done|by split|vm_compute; reflexivity|].
  refine (spent_counts _ _ _ _ _ (sample_call 1700000060000 "a" 90) _ 0 _ _ _ _);
    [done|by split|vm_compute; reflexivity|constructor].
Qed.

Lemma sample_in_order : in_order sample_calls.
Proof. repeat split; repeat apply Forall_cons_2; try apply Forall_nil_2; intros; vm_compute; discriminate. Qed.

Lemma sample_limited : Forall (fun c => qc_key c = "a"%string -> limited_by 100 TokensPerMinute c) sample_calls.
Proof.
  repeat apply Forall_cons_2; try apply Forall_nil_2; intros _;
    (split; [vm_compute; discriminate|]; split; [vm_compute; discriminate|]; exists 100; split; [done|lia]).
Qed.

Lemma budget_never_exceeded_witness :
  0 <= used_of (calls_of ∅ sample_calls) "a" TokensPerMinute <= 100 /\ 130 <= 2 * 100.
Proof.
  destruct (budget_never_exceeded sample_calls "a" TokensPerMinute 100 sample_in_order sample_limited)
    as [Hu Hs]; [lia|]. split; [exact Hu|]. exact (Hs _ _ sample_spent).
Defined.

(** A key without limits is never denied and never charged, and a malformed
    specification means exactly that. *)
Theorem unlimited_is_free clock q key s tokens :
  QuotaSpec.is_unlimited s = true ->
  snd (check_and_consume clock q key s tokens) = Allow None
  /\ (forall key' k, used_of (fst (check_and_consume clock q key s tokens)) key' k = used_of q key' k)
  /\ (forall v, QuotaSpec.parse v = Err tt -> QuotaSpec.is_unlimited (QuotaSpec.from_json v) = true).
Proof.
  intros Hs. assert (to_consume s = []) as Hk.
  { unfold to_consume. destruct s as [[] [] [] []]; done. }
  unfold check_and_consume. rewrite Hk. cbn. split; [done|]. split.
  - intros key' k. unfold used_of, counters. destruct (decide (key' = key)) as [->|].
    + by rewrite lookup_insert_eq.
    + by rewrite lookup_insert_ne.
  - intros v Hv. unfold QuotaSpec.from_json. by rewrite Hv.
Qed.

Lemma unlimited_is_free_witness :
  snd (check_and_consume sample_clock after_one "key" QuotaSpec_default 1000000) = Allow None.
Proof. exact (proj1 (unlimited_is_free sample_clock after_one "key" QuotaSpec_default 1000000 eq_refl)). Defined.

(** The check wraps.  The comparison with the limit is made on a 64-bit sum
    that overflows silently: a request that claims so many tokens that the sum
    with the current usage passes 2^64 is allowed whenever the wrapped sum is
    within the limit. *)
Theorem quota_check_wraps clock q key limit tokens :
  let s := {| requests_per_minute := None; requests_per_day := None;
              tokens_per_minute := Some limit; tokens_per_day := None |} in
  let c := counter (counters q key) TokensPerMinute in
  0 <= limit < u64_max -> tokens <= u64_max -> 1 <= used c <= limit + 1 ->
  sat_sub (clock 0%nat) (window_start_ms c) < window TokensPerMinute ->
  u64_max < used c + tokens ->
  snd (check_and_consume clock q key s tokens) = Allow None.
Proof.
  intros s c Hl Ht Hu Hw Hover. unfold check_and_consume. fold (counters q key).
  change (to_consume s) with [TokensPerMinute; TokensPerDay]. cbn [verify]. fold c.
  unfold snapshot at 1. rewrite (proj2 (Z.leb_gt _ _) Hw). cbn [limit_of tokens_per_minute s increment].
  assert (wrap64 (used c + tokens) = used c + tokens - 18446744073709551616) as ->.
  { unfold wrap64, u64_max in *. symmetry. apply (Z.mod_unique _ _ 1); lia. }
  rewrite (proj2 (Z.ltb_ge _ _)) by (unfold u64_max in *; lia).
  destruct (snapshot _ _ _) as [[c2 u2] r2]. reflexivity.
Qed.

Lemma quota_check_wraps_witness :
  snd (check_and_consume sample_clock after_one "key"
        {| requests_per_minute := None; requests_per_day := None;
           tokens_per_minute := Some 100; tokens_per_day := None |} u64_max) = Allow None.
Proof.
  apply (quota_check_wraps sample_clock after_one "key" 100 u64_max).
  - vm_compute. split; [discriminate|reflexivity].
  - discriminate.
  - vm_compute. split; discriminate.
  - vm_compute. reflexivity.
  - vm_compute. reflexivity.
Defined.
