(* ===== verification/BruteForce.v ===== *)
(** * BruteForce: lockout of clients that fail to authenticate

    [crates/admin/src/brute_force.rs]: the configuration and the in-memory
    limiter.  Instants are nanoseconds; a call reads the clock at the points
    where the code does, and the readings are an argument. *)

From stdpp Require Import base option list gmap strings.
From Stdlib Require Import ZArith Lia.
From S2P Require Import Prelude RustStr Classify Health.

Local Open Scope Z_scope.

Record BruteForceConfig := {
  max_failures : Z;
  lockout_secs : Z;
  max_lockouts : Z;
  escalated_lockout_secs : Z;
}.

Module BruteForceConfig.
Definition default : BruteForceConfig :=
  {| max_failures := 3; lockout_secs := 300; max_lockouts := 3;
     escalated_lockout_secs := 86400 |}.

(** [env_u32]/[env_u64]: the variable when it is set and parses. *)
Definition env_int (env : string -> option string) (max : Z) (key : string) (dflt : Z) : Z :=
  match env key ≫= from_str_radix 10 max with Some v => v | None => dflt end.

Definition from_env (env : string -> option string) : BruteForceConfig :=
  {| max_failures := env_int env u32_max "TIYGATE_ADMIN_BF_MAX_FAILURES" (max_failures default);
     lockout_secs := env_int env u64_max "TIYGATE_ADMIN_BF_LOCKOUT_SECS" (lockout_secs default);
     max_lockouts := env_int env u32_max "TIYGATE_ADMIN_BF_MAX_LOCKOUTS" (max_lockouts default);
     escalated_lockout_secs :=
       env_int env u64_max "TIYGATE_ADMIN_BF_ESCALATED_LOCKOUT_SECS"
         (escalated_lockout_secs default) |}.
End BruteForceConfig.

Record AttemptState := {
  bf_failures : Z;
  lockout_count : Z;
  locked_until : option Z;
}.

Definition AttemptState_default : AttemptState :=
  {| bf_failures := 0; lockout_count := 0; locked_until := None |}.

Abbreviation Attempts := (gmap string AttemptState).

(** [deadline > now] *)
Definition locked_at (st : AttemptState) (now : Z) : bool :=
  match locked_until st with Some deadline => now <? deadline | None => false end.

Definition retained (now : Z) (st : AttemptState) : bool :=
  locked_at st now || (0 <? bf_failures st) || (0 <? lockout_count st).

Definition purge_expired (m : Attempts) (now : Z) : Attempts :=
  filter (fun kv => retained now (snd kv) = true) m.

(** The readings of the clock in [record_failure], in the order of the code:
    in [purge_expired], at the two checks, and when a lockout starts. *)
Record readings := { t_purge : Z; t_check : Z; t_clear : Z; t_lock : Z }.

Section Limiter.
Context (config : BruteForceConfig).

Definition is_locked (m : Attempts) (client_id : string) (t_purge t_check : Z)
  : Attempts * bool :=
  let m := purge_expired m t_purge in
  (m, match m !! client_id with Some st => locked_at st t_check | None => false end).

Definition lockout_duration (lockouts : Z) : Z :=
  (if max_lockouts config <=? lockouts then escalated_lockout_secs config
   else lockout_secs config) * ns_per_sec.

Definition record_failure (m : Attempts) (client_id : string) (r : readings)
  : run (Attempts * bool) :=
  let m := purge_expired m (t_purge r) in
  let st := default AttemptState_default (m !! client_id) in
  if locked_at st (t_check r) then Ok (<[client_id := st]> m, false)
  else
    let until := match locked_until st with
                 | Some deadline => if deadline <=? t_clear r then None else Some deadline
                 | None => None
                 end in
    let failures := wrap32 (bf_failures st + 1) in
    if max_failures config <=? failures then
      let lockouts := wrap32 (lockout_count st + 1) in
      until ← instant_add (t_lock r) (lockout_duration lockouts);
      mret (<[client_id :=
              {| bf_failures := 0;
                 lockout_count := if max_lockouts config <=? lockouts then 0 else lockouts;
                 locked_until := Some until |}]> m, true)
    else
      Ok (<[client_id := {| bf_failures := failures; lockout_count := lockout_count st;
                            locked_until := until |}]> m, false).

Definition record_success (m : Attempts) (client_id : string) : Attempts :=
  match m !! client_id with
  | Some st => <[client_id := {| bf_failures := 0; lockout_count := 0;
                                 locked_until := locked_until st |}]> m
  | None => m
  end.
End Limiter.

(** ** Lemmas *)

Definition attempts_of (m : Attempts) (client_id : string) : AttemptState :=
  default AttemptState_default (m !! client_id).

(** Purging loses no counter and no running lockout. *)
Lemma purge_attempts m t c :
  let st := attempts_of m c in
  let st' := attempts_of (purge_expired m t) c in
  (0 <= bf_failures st -> 0 <= lockout_count st ->
   bf_failures st' = bf_failures st /\ lockout_count st' = lockout_count st)
  /\ (forall now, t <= now -> locked_at st' now = locked_at st now)
  /\ (locked_until st' = locked_until st
      \/ locked_until st' = None /\ locked_at st t = false).
Proof.
  cbn. unfold attempts_of, purge_expired.
  destruct (m !! c) as [st|] eqn:E.
  - destruct (retained t st) eqn:Er.
    + rewrite (proj2 (map_lookup_filter_Some _ _ c st)) by done. cbn. auto.
    + rewrite (proj2 (map_lookup_filter_None _ _ c)).
      2: { right. intros st' E'. rewrite E in E'. injection E' as <-. cbn. congruence. }
      cbn. unfold retained in Er. apply orb_false_elim in Er as [Er Hl].
      apply orb_false_elim in Er as [Hk Hf]. bool_prop. split; [lia|]. split.
      * intros now Ht. unfold locked_at in *. cbn. destruct (locked_until st); [|done].
        bool_prop. symmetry. apply Z.ltb_ge. lia.
      * right. done.
  - rewrite (proj2 (map_lookup_filter_None _ _ c)) by (by left). cbn. auto.
Qed.

Lemma attempts_insert m c c' st :
  attempts_of (<[c := st]> m) c' = if decide (c' = c) then st else attempts_of m c'.
Proof.
  unfold attempts_of. destruct (decide (c' = c)) as [->|].
  - by rewrite lookup_insert_eq.
  - by rewrite lookup_insert_ne.
Qed.

(** ** An attack, abstractly

    All that matters of a client that keeps failing is how many of its attempts
    were counted and when its last lockout ends. *)

Record attacker := { counted : Z; lock_end : option Z }.

Definition locked_out (a : attacker) (now : Z) : bool :=
  match lock_end a with Some e => now <? e | None => false end.

Section Attack.
Context (config : BruteForceConfig).
Context (HF : 1 <= max_failures config <= u32_max) (HL : 1 <= max_lockouts config <= u32_max).

(** The duration of the [k]-th lockout in a row. *)
Definition kth_lockout (k : Z) : Z :=
  (if k mod max_lockouts config =? 0 then escalated_lockout_secs config else lockout_secs config)
  * ns_per_sec.

Definition attack_step (a : attacker) (r : readings) : attacker * bool :=
  if locked_out a (t_check r) then (a, false)
  else
    let n := counted a + 1 in
    if n mod max_failures config =? 0
    then ({| counted := n; lock_end := Some (t_lock r + kth_lockout (n / max_failures config)) |}, true)
    else ({| counted := n; lock_end := lock_end a |}, false).

Definition in_order (now : Z) (r : readings) : Prop :=
  now <= t_purge r /\ t_purge r <= t_check r /\ t_check r <= t_clear r /\ t_clear r <= t_lock r.

(** From [now] on, the state of the limiter is that of the attacker. *)
Definition tracks (now : Z) (st : AttemptState) (a : attacker) : Prop :=
  0 <= counted a
  /\ bf_failures st = counted a mod max_failures config
  /\ lockout_count st = (counted a / max_failures config) mod max_lockouts config
  /\ forall t, now <= t -> locked_at st t = locked_out a t.

Lemma mod_succ n m : 1 <= m -> 0 <= n ->
  (n + 1) mod m = (if m <=? n mod m + 1 then 0 else n mod m + 1)
  /\ (n + 1) / m = (if m <=? n mod m + 1 then n / m + 1 else n / m).
Proof.
  intros Hm Hn. pose proof (Z.div_mod n m ltac:(lia)) as Hd.
  pose proof (Z.mod_pos_bound n m ltac:(lia)) as Hb.
  destruct (m <=? n mod m + 1) eqn:E; bool_prop; split.
  - symmetry. apply (Z.mod_unique _ _ (n / m + 1)); lia.
  - symmetry. apply (Z.div_unique _ _ _ 0); lia.
  - symmetry. apply (Z.mod_unique _ _ (n / m)); lia.
  - symmetry. apply (Z.div_unique _ _ _ (n mod m + 1)); lia.
Qed.

Lemma tracks_purge now m c a t :
  now <= t -> tracks now (attempts_of m c) a -> tracks t (attempts_of (purge_expired m t) c) a.
Proof using HF HL.
  intros Ht (Hn & Hf & Hl & Hk). destruct (purge_attempts m t c) as (H1 & H2 & _).
  destruct H1 as [E1 E2].
  - rewrite Hf. apply Z.mod_pos_bound. lia.
  - rewrite Hl. apply Z.mod_pos_bound. lia.
  - split; [done|]. split; [by rewrite E1|]. split; [by rewrite E2|].
    intros t' Ht'. rewrite H2 by done. apply Hk. lia.
Qed.

Lemma record_failure_tracks now m c r a m' b :
  in_order now r -> tracks now (attempts_of m c) a ->
  record_failure config m c r = Ok (m', b) ->
  let '(a', b') := attack_step a r in b = b' /\ tracks (t_lock r) (attempts_of m' c) a'.
Proof using HF HL.
  intros (O1 & O2 & O3 & O4) Htr. apply (tracks_purge _ _ _ _ (t_purge r) O1) in Htr.
  destruct Htr as (Hn & Hf & Hl & Hk). unfold record_failure, attack_step.
  fold (attempts_of (purge_expired m (t_purge r)) c).
  set (st := attempts_of _ _) in *. rewrite (Hk (t_check r)) by done.
  destruct (locked_out a (t_check r)) eqn:Elk.
  { intros [= <- <-]. split; [done|]. rewrite attempts_insert, decide_True by done.
    split; [done|]. split; [done|]. split; [done|]. intros t Ht. apply Hk. lia. }
  set (until := match locked_until st with Some _ => _ | None => None end).
  destruct (mod_succ (counted a) (max_failures config) ltac:(lia) Hn) as [Em Ed].
  destruct (mod_succ (counted a / max_failures config) (max_lockouts config) ltac:(lia)
              ltac:(apply Z.div_pos; lia)) as [Em2 _].
  pose proof (Z.mod_pos_bound (counted a) (max_failures config) ltac:(lia)) as B1.
  pose proof (Z.mod_pos_bound (counted a / max_failures config) (max_lockouts config) ltac:(lia)) as B2.
  rewrite Hf, Hl, !wrap32_small by (apply in_u32_iff; lia). rewrite Em, Ed.
  destruct (max_failures config <=? _) eqn:E1.
  - cbn [Z.eqb]. destruct (instant_add _ _) as [u|] eqn:Eu; [|done].
    apply instant_add_ok in Eu as ->. intros [= <- <-]. split; [done|].
    rewrite attempts_insert, decide_True by done. unfold tracks. cbn. rewrite Em, Ed, Em2.
    split; [lia|]. split; [done|]. split; [done|]. intros t Ht. unfold locked_at, locked_out. cbn.
    unfold lockout_duration, kth_lockout. rewrite Em2.
    destruct (max_lockouts config <=? _) eqn:E2; [done|].
    rewrite (proj2 (Z.eqb_neq _ _)) by lia. done.
  - assert ((counted a mod max_failures config + 1 =? 0) = false) as -> by (apply Z.eqb_neq; lia).
    intros [= <- <-]. split; [done|]. rewrite attempts_insert, decide_True by done.
    unfold tracks. cbn. rewrite Em, Ed. split; [lia|]. split; [done|]. split; [done|].
    intros t Ht. transitivity false.
    + unfold locked_at. cbn. unfold until. specialize (Hk (t_check r) O2). rewrite Elk in Hk.
      unfold locked_at in Hk. destruct (locked_until st) as [d|]; [|done]. bool_prop.
      rewrite (proj2 (Z.leb_le _ _)) by lia. done.
    + unfold locked_out in *. cbn. destruct (lock_end a); [|done]. bool_prop.
      symmetry. apply Z.ltb_ge. lia.
Qed.

(** The attempts of a client that the limiter counted, in order. *)
Fixpoint attack (m : Attempts) (c : string) (rs : list readings) : run (list readings) :=
  match rs with
  | [] => Ok []
  | r :: rest =>
      let ignored := locked_at (attempts_of (purge_expired m (t_purge r)) c) (t_check r) in
      '(m', _) ← record_failure config m c r;
      es ← attack m' c rest;
      mret (if ignored then es else r :: es)
  end.

Fixpoint all_in_order (now : Z) (rs : list readings) : Prop :=
  match rs with
  | [] => True
  | r :: rest => in_order now r /\ all_in_order (t_lock r) rest
  end.

(** Between the counted attempts, the lockouts have run their time. *)
Definition spaced (a : attacker) (es : list readings) : Prop :=
  (forall r, es !! 0%nat = Some r -> locked_out a (t_check r) = false)
  /\ forall i x y, es !! i = Some x -> es !! S i = Some y ->
       (counted a + Z.of_nat (S i)) mod max_failures config = 0 ->
       t_lock x + kth_lockout ((counted a + Z.of_nat (S i)) / max_failures config) <= t_check y.

Lemma attack_spaced now m c a rs es :
  all_in_order now rs -> tracks now (attempts_of m c) a -> attack m c rs = Ok es -> spaced a es.
Proof using HF HL.
  revert now m a es. induction rs as [|r rest IH]; intros now m a es Ho Htr; cbn.
  { intros [= <-]. split; [done|]. intros i x y Hx. by rewrite lookup_nil in Hx. }
  destruct Ho as [Hr Ho]. destruct (record_failure config m c r) as [[m' b]|] eqn:E; [|done].
  cbn. pose proof (record_failure_tracks _ _ _ _ _ _ _ Hr Htr E) as Hstep.
  assert (locked_at (attempts_of (purge_expired m (t_purge r)) c) (t_check r)
          = locked_out a (t_check r)) as ->.
  { destruct Hr as (O1 & O2 & _). apply (tracks_purge _ _ _ _ (t_purge r) O1) in Htr.
    by apply Htr. }
  destruct (attack m' c rest) as [es'|] eqn:Ea; [|done]. cbn. intros [= <-].
  unfold attack_step in Hstep. destruct (locked_out a (t_check r)) eqn:Elk.
  { destruct Hstep as [_ Hstep]. by eapply IH. }
  assert (exists a', counted a' = counted a + 1 /\ tracks (t_lock r) (attempts_of m' c) a'
    /\ ((counted a + 1) mod max_failures config = 0 ->
        lock_end a' = Some (t_lock r + kth_lockout ((counted a + 1) / max_failures config))))
    as (a' & Hc & Htr' & Hlock).
  { destruct (_ =? 0) eqn:Ez; destruct Hstep as [_ Hstep]; eexists; split_and!; try exact Hstep;
      [done|done|done|]. intros Hz. apply Z.eqb_neq in Ez. lia. }
  destruct (IH _ _ _ _ Ho Htr' Ea) as [IH1 IH2]. split.
  - by intros r' [= <-].
  - intros [|i] x y Hx Hy Hz; cbn in Hx, Hy.
    + injection Hx as <-. specialize (IH1 _ Hy). unfold locked_out in IH1.
      change (Z.of_nat 1) with 1 in *. rewrite Hlock in IH1 by done. by bool_prop.
    + specialize (IH2 i x y Hx Hy). rewrite Hc in IH2.
      replace (counted a + 1 + Z.of_nat (S i)) with (counted a + Z.of_nat (S (S i))) in IH2 by lia.
      by apply IH2.
Qed.
End Attack.

Lemma no_attempts_tracks config now c :
  1 <= max_failures config -> 1 <= max_lockouts config ->
  tracks config now (attempts_of ∅ c) {| counted := 0; lock_end := None |}.
Proof.
  intros HF HL. unfold tracks. cbn.
  rewrite Z.mod_0_l, Z.div_0_l, Z.mod_0_l by lia. done.
Qed.

(** What a client can observe of its own state at [t] or later. *)
Definition same_for (t : Z) (st st' : AttemptState) : Prop :=
  bf_failures st' = bf_failures st /\ lockout_count st' = lockout_count st
  /\ forall now, t <= now -> locked_at st' now = locked_at st now.

Definition counters_ok (m : Attempts) : Prop :=
  forall c, 0 <= bf_failures (attempts_of m c) /\ 0 <= lockout_count (attempts_of m c).

(** ** Properties *)

(** C27: The limiter counts and escalates as configured.  For a client that was
    counted [n] times since its last success, a failure during a lockout is
    ignored; any other failure is counted, and it starts a lockout exactly when
    the count becomes a multiple of [max_failures]: the long one for every
    [max_lockouts]-th lockout, the short one otherwise. *)
Theorem limiter_follows_policy config now m c r a m' b :
  1 <= max_failures config <= u32_max -> 1 <= max_lockouts config <= u32_max ->
  in_order now r -> tracks config now (attempts_of m c) a ->
  record_failure config m c r = Ok (m', b) ->
  b = snd (attack_step config a r)
  /\ tracks config (t_lock r) (attempts_of m' c) (fst (attack_step config a r)).
Proof.
  intros HF HL Ho Ht E.
  pose proof (record_failure_tracks config HF HL now m c r a m' b Ho Ht E) as H.
  by destruct (attack_step config a r).
Qed.

Definition at_time (t : Z) : readings :=
  {| t_purge := t; t_check := t; t_clear := t; t_lock := t |}.

Definition first_failure : Attempts :=
  <["c" := {| bf_failures := 1; lockout_count := 0; locked_until := None |}]> ∅.

Lemma limiter_follows_policy_witness :
  record_failure BruteForceConfig.default ∅ "c" (at_time 5) = Ok (first_failure, false)
  /\ false = snd (attack_step BruteForceConfig.default {| counted := 0; lock_end := None |} (at_time 5)).
Proof.
  assert (E : record_failure BruteForceConfig.default ∅ "c" (at_time 5) = Ok (first_failure, false))
    by (vm_compute; reflexivity).
  assert (HF : 1 <= max_failures BruteForceConfig.default <= u32_max)
    by (split; discriminate).
  assert (Ho : in_order 5 (at_time 5)) by (repeat split; discriminate).
  assert (Ht : tracks BruteForceConfig.default 5 (attempts_of ∅ "c")
                 {| counted := 0; lock_end := None |})
    by (split; [discriminate|]; split; [reflexivity|]; split; [reflexivity|]; intros; reflexivity).
  split; [exact E|]. exact (proj1 (limiter_follows_policy _ _ _ _ _ _ _ _ HF HF Ho Ht E)).
Defined.

(** Guessing is slow.  However a client times its attempts, the ones that the
    limiter counts are spaced: after every [max_failures] of them the next one
    comes no earlier than the end of the lockout, which is the long one after
    every [max_failures * max_lockouts]. *)
Theorem guesses_are_spaced config c rs es i x y :
  1 <= max_failures config <= u32_max -> 1 <= max_lockouts config <= u32_max ->
  all_in_order 0 rs -> attack config ∅ c rs = Ok es ->
  es !! i = Some x -> es !! S i = Some y -> Z.of_nat (S i) mod max_failures config = 0 ->
  t_lock x + kth_lockout config (Z.of_nat (S i) / max_failures config) <= t_check y.
Proof.
  intros HF HL Ho E Hx Hy Hz.
  destruct (attack_spaced config HF HL 0 ∅ c {| counted := 0; lock_end := None |} rs es Ho)
    as [_ Hs]; [apply no_attempts_tracks; lia|done|].
  by apply (Hs i).
Qed.

Definition hammering : list readings :=
  [at_time 1; at_time 2; at_time 3; at_time 4; at_time (300 * ns_per_sec);
   at_time (3 + 300 * ns_per_sec)].

Lemma guesses_are_spaced_witness :
  attack BruteForceConfig.default ∅ "c" hammering
    = Ok [at_time 1; at_time 2; at_time 3; at_time (3 + 300 * ns_per_sec)]
  /\ 3 + kth_lockout BruteForceConfig.default 1 <= 3 + 300 * ns_per_sec.
Proof.
  assert (E : attack BruteForceConfig.default ∅ "c" hammering
    = Ok [at_time 1; at_time 2; at_time 3; at_time (3 + 300 * ns_per_sec)])
    by (vm_compute; reflexivity).
  assert (HF : 1 <= max_failures BruteForceConfig.default <= u32_max)
    by (split; discriminate).
  assert (Ho : all_in_order 0 hammering) by (vm_compute; repeat split; discriminate).
  split; [exact E|].
  exact (guesses_are_spaced _ _ _ _ 2 _ _ HF HF Ho E eq_refl eq_refl eq_refl).
Defined.

(** A lockout holds.  Once a failure has started one, the client is locked
    until its end, a success in the meantime does not lift it, and neither the
    failure nor the success changes what the limiter knows of another client. *)
Theorem lockout_holds config m c r m' t1 t2 :
  counters_ok m -> record_failure config m c r = Ok (m', true) ->
  t1 <= t2 ->
  t2 < t_lock r + Z.min (lockout_secs config) (escalated_lockout_secs config) * ns_per_sec ->
  snd (is_locked m' c t1 t2) = true
  /\ snd (is_locked (record_success m' c) c t1 t2) = true
  /\ forall c', c' <> c ->
       same_for (t_purge r) (attempts_of m c') (attempts_of m' c')
       /\ attempts_of (record_success m' c) c' = attempts_of m' c'.
Proof.
  intros Hok E H12 Hend.
  assert (exists u lc, t2 < u /\ attempts_of m' c
    = {| bf_failures := 0; lockout_count := lc; locked_until := Some u |}
    /\ m' !! c = Some {| bf_failures := 0; lockout_count := lc; locked_until := Some u |}
    /\ forall c', c' <> c -> attempts_of m' c' = attempts_of (purge_expired m (t_purge r)) c')
    as (u & lc & Hu & Ha & Hm & Hother).
  { unfold record_failure in E. destruct (locked_at _ _); [done|].
    destruct (_ <=? wrap32 _); [|done].
    destruct (instant_add _ _) as [u|] eqn:Eu; [|done]. apply instant_add_ok in Eu as ->.
    injection E as <-. eexists _, _. split; [|split; [|split]].
    2: by rewrite attempts_insert, decide_True. 2: by rewrite lookup_insert_eq.
    - unfold lockout_duration. destruct (_ <=? _); unfold ns_per_sec in *; lia.
    - intros c' Hc. by rewrite attempts_insert, decide_False. }
  assert (forall m2 st, m2 !! c = Some st -> locked_until st = Some u ->
    snd (is_locked m2 c t1 t2) = true) as Hlocked.
  { intros m2 st Hm2 Hst. unfold is_locked, purge_expired. cbn.
    rewrite (proj2 (map_lookup_filter_Some _ _ c st)).
    - unfold locked_at. rewrite Hst. by apply Z.ltb_lt.
    - split; [done|]. cbn. unfold retained, locked_at. rewrite Hst.
      rewrite (proj2 (Z.ltb_lt t1 u)) by lia. done. }
  split; [by apply (Hlocked _ _ Hm)|]. split.
  - unfold record_success. rewrite Hm. by eapply Hlocked; [apply lookup_insert_eq|].
  - intros c' Hc. split.
    + rewrite Hother by done. destruct (purge_attempts m (t_purge r) c') as (H1 & H2 & _).
      destruct (Hok c') as [Hf Hl]. destruct (H1 Hf Hl) as [E1 E2]. by repeat split.
    + unfold record_success. rewrite Hm. by rewrite attempts_insert, decide_False.
Qed.

Definition two_failures : Attempts :=
  <["c" := {| bf_failures := 2; lockout_count := 0; locked_until := None |}]> ∅.
Definition locked_client : Attempts :=
  <["c" := {| bf_failures := 0; lockout_count := 1;
              locked_until := Some (7 + 300 * ns_per_sec) |}]> ∅.

Lemma lockout_holds_witness :
  record_failure BruteForceConfig.default two_failures "c" (at_time 7) = Ok (locked_client, true)
  /\ snd (is_locked locked_client "c" 8 (300 * ns_per_sec)) = true.
Proof.
  assert (E : record_failure BruteForceConfig.default two_failures "c" (at_time 7)
              = Ok (locked_client, true)) by (vm_compute; reflexivity).
  assert (Hok : counters_ok two_failures).
  { intros c. unfold two_failures. rewrite attempts_insert.
    destruct (decide (c = "c"%string)); (split; discriminate). }
  split; [exact E|].
  refine (proj1 (lockout_holds _ _ _ _ _ 8 (300 * ns_per_sec) Hok E _ _)).
  - discriminate.
  - reflexivity.
Defined.
