(* ===== verification/HeaderForward.v ===== *)
(** * HeaderForward: which headers cross the gateway

    [crates/core/src/header_forward.rs]: the deny lists of both directions,
    their extension by configuration, and the glob matcher. *)

From stdpp Require Import base option list gmap sets strings.
From Stdlib Require Import ZArith Lia Ascii.
From S2P Require Import Prelude RustStr.

Local Open Scope string_scope.
Local Open Scope list_scope.

Definition DEFAULT_REQUEST_DENY : list string :=
  ["authorization"; "proxy-authorization"; "x-api-key"; "x-goog-api-key"; "anthropic-version";
   "cookie"; "host"; "content-length"; "content-type"; "content-encoding"; "accept-encoding";
   "connection"; "keep-alive"; "proxy-connection"; "te"; "trailer"; "transfer-encoding";
   "upgrade"; "sec-websocket-*"; "traceparent"; "tracestate"; "expect"].

Definition DEFAULT_RESPONSE_DENY : list string :=
  ["connection"; "keep-alive"; "proxy-connection"; "te"; "trailer"; "transfer-encoding";
   "upgrade"; "sec-websocket-*"; "content-length"; "content-encoding"; "content-type"; "date";
   "*request-id"; "*requestid"; "server"; "via"; "nel"; "cf-*"; "eo-*"; "report-to";
   "access-control-*"; "strict-transport-security"; "*trace*"; "vary"].

Definition star : ascii := "*"%char.

(** The loop over the segments: the position after the last one found, or
    [None] where the code returns [false]. *)
Fixpoint glob_loop (value : string) (first : bool) (pos : nat) (parts : list string)
  : option nat :=
  match parts with
  | [] => Some pos
  | part :: r =>
      if is_empty part then glob_loop value false pos r
      else match find part (drop_bytes pos value) with
           | Some found =>
               if first && negb (Nat.eqb found 0) then None
               else glob_loop value false (pos + found + String.length part) r
           | None => None
           end
  end.

Definition glob_match (pattern value : string) : bool :=
  let parts := split star pattern in
  if Nat.eqb (length parts) 1 then String.eqb pattern value
  else match glob_loop value true 0 parts with
       | None => false
       | Some pos =>
           if negb (ends_with_char star pattern) then Nat.eqb pos (String.length value) else true
       end.

Record HeaderForwardPolicy := {
  request_deny_exact : gset string;
  request_deny_globs : list string;
  response_deny_exact : gset string;
  response_deny_globs : list string;
}.

Module HeaderForwardPolicy.
Section WithLower.
Context `{Lowercase}.

(** One entry into the exact names or the globs. *)
Definition add_entry (key : string) (acc : gset string * list string)
  : gset string * list string :=
  let '(exact, globs) := acc in
  if contains_char star key then (exact, globs ++ [key]) else ({[key]} ∪ exact, globs).

Definition partition_entries (entries : list string) : gset string * list string :=
  fold_left (fun acc e => add_entry (to_lowercase e) acc) entries (∅, []).

Definition with_defaults : HeaderForwardPolicy :=
  let '(req_exact, req_globs) := partition_entries DEFAULT_REQUEST_DENY in
  let '(resp_exact, resp_globs) := partition_entries DEFAULT_RESPONSE_DENY in
  {| request_deny_exact := req_exact; request_deny_globs := req_globs;
     response_deny_exact := resp_exact; response_deny_globs := resp_globs |}.

Definition empty : HeaderForwardPolicy :=
  {| request_deny_exact := ∅; request_deny_globs := []; response_deny_exact := ∅;
     response_deny_globs := [] |}.

Definition extend (names : list string) (acc : gset string * list string)
  : gset string * list string :=
  fold_left (fun acc n => let key := to_lowercase (trim n) in
                          if is_empty key then acc else add_entry key acc) names acc.

Definition with_request_deny_extra (p : HeaderForwardPolicy) (names : list string)
  : HeaderForwardPolicy :=
  let '(exact, globs) := extend names (request_deny_exact p, request_deny_globs p) in
  {| request_deny_exact := exact; request_deny_globs := globs;
     response_deny_exact := response_deny_exact p;
     response_deny_globs := response_deny_globs p |}.

Definition with_response_deny_extra (p : HeaderForwardPolicy) (names : list string)
  : HeaderForwardPolicy :=
  let '(exact, globs) := extend names (response_deny_exact p, response_deny_globs p) in
  {| request_deny_exact := request_deny_exact p; request_deny_globs := request_deny_globs p;
     response_deny_exact := exact; response_deny_globs := globs |}.

(** A name the two collections let through. *)
Definition passes (exact : gset string) (globs : list string) (name : string) : bool :=
  let lower := to_lowercase name in
  if bool_decide (lower ∈ exact) then false
  else if existsb (fun g => glob_match g lower) globs then false
  else true.

Definition should_forward_request (p : HeaderForwardPolicy) (name : string) : bool :=
  passes (request_deny_exact p) (request_deny_globs p) name.

Definition should_forward_response (p : HeaderForwardPolicy) (name : string) : bool :=
  passes (response_deny_exact p) (response_deny_globs p) name.
End WithLower.
End HeaderForwardPolicy.

(** ** What a glob means

    A pattern is its segments between stars: the value is the first segment,
    then for each further segment an arbitrary filler and the segment. *)

Fixpoint filled (parts : list string) (value rest : string) : Prop :=
  match parts with
  | [] => value = rest
  | part :: r => exists w value', value = w +:+ part +:+ value' /\ filled r value' rest
  end.

Definition glob_spec (pattern value : string) : Prop :=
  match split star pattern with
  | [] => False
  | p0 :: r => exists value', value = p0 +:+ value' /\ filled r value' ""
  end.

(** ** Lemmas *)

Lemma split_join c s : exists p0 r, split c s = p0 :: r.
Proof.
  destruct s as [|a s]; cbn; [eauto|]. destruct (Ascii.eqb a c); [eauto|].
  destruct (split c s); eauto.
Qed.

(** The last segment is empty exactly when the pattern ends with a star or is
    empty. *)
Lemma split_last c s :
  ends_with_char c s || is_empty s = is_empty (default "" (list.last (split c s))).
Proof.
  induction s as [|a s IH]; [done|]. cbn [split].
  destruct (split_join c s) as (p0 & r & E). rewrite E in IH |- *.
  destruct (Ascii.eqb a c) eqn:Ea.
  - rewrite last_cons. destruct s as [|b s].
    + injection E as <- <-. cbn. by rewrite Ea.
    + cbn [ends_with_char is_empty] in *. rewrite orb_false_r in *.
      change (ends_with_char c (String a (String b s))) with (ends_with_char c (String b s)).
      rewrite IH, last_cons. by destruct (list.last r).
  - destruct s as [|b s].
    + injection E as <- <-. cbn. by rewrite Ea.
    + change (ends_with_char c (String a (String b s))) with (ends_with_char c (String b s)).
      cbn [is_empty] in *. rewrite orb_false_r in *. rewrite IH, !last_cons.
      destruct (list.last r) eqn:El; [done|]. apply last_None in El as ->. cbn in *.
      destruct (Ascii.eqb b c); destruct (split_join c s) as (q & r' & E'); rewrite E' in E;
        [discriminate E|]. by injection E as <- ->.
Qed.

Lemma filled_prefix parts u v rest :
  parts <> [] -> filled parts v rest -> filled parts (u +:+ v) rest.
Proof.
  destruct parts as [|p r]; [done|]. intros _ (w & v' & -> & Hf). exists (u +:+ w), v'.
  by rewrite str_app_assoc.
Qed.

Lemma filled_absorb parts v rest :
  list.last parts = Some "" -> filled parts v rest -> filled parts v "".
Proof.
  revert v. induction parts as [|p r IH]; intros v Hl; [done|].
  intros (w & v' & -> & Hf). rewrite last_cons in Hl. destruct (list.last r) eqn:E.
  - injection Hl as ->. exists w, v'. split; [done|]. by apply IH.
  - injection Hl as ->. apply last_None in E as ->. exists (w +:+ v'), "". split; [|done].
    cbn. by rewrite !str_app_nil_r.
Qed.

Lemma find_starts p v : starts_with p v = true -> find p v = Some 0%nat.
Proof. intros Hs. destruct v; cbn; by rewrite Hs. Qed.

Lemma find_some_split p v i :
  find p v = Some i ->
  exists w rest, v = w +:+ p +:+ rest /\ String.length w = i
    /\ drop_bytes (i + String.length p) v = rest.
Proof.
  intros Hf. destruct (find_spec _ _ _ Hf) as (w & rest & -> & Hi). exists w, rest.
  split; [done|]. split; [done|]. rewrite <- drop_bytes_drop, <- Hi, !drop_bytes_app. done.
Qed.

Lemma drop_app_split w v n :
  (n <= String.length w)%nat -> exists u, drop_bytes n (w +:+ v) = u +:+ v.
Proof.
  revert n. induction w as [|a w IH]; intros n Hn; cbn in Hn.
  - assert (n = 0%nat) as -> by lia. exists "". by rewrite drop_bytes_0.
  - destruct n as [|n]; [by exists (String a w); rewrite drop_bytes_0|]. rewrite str_app_cons. cbn.
    apply IH. lia.
Qed.

Lemma drop_all s : drop_bytes (String.length s) s = "".
Proof. induction s; done. Qed.

Lemma glob_loop_sound value parts pos pos' :
  (pos <= String.length value)%nat -> glob_loop value false pos parts = Some pos' ->
  (pos' <= String.length value)%nat
  /\ filled parts (drop_bytes pos value) (drop_bytes pos' value).
Proof.
  revert pos. induction parts as [|p r IH]; intros pos Hpos; cbn [glob_loop].
  { by intros [= <-]. }
  destruct (is_empty p) eqn:Ep.
  - intros E. apply IH in E as [? Hf]; [|done]. split; [done|].
    destruct p; [|done]. by exists "", (drop_bytes pos value).
  - destruct (find p (drop_bytes pos value)) as [i|] eqn:Ef; [|done]. cbn.
    destruct (find_some_split _ _ _ Ef) as (w & rest & Ev & Hi & Hd).
    rewrite drop_bytes_drop in Hd. intros E.
    assert (pos + i + String.length p <= String.length value)%nat as Hle.
    { pose proof (drop_bytes_length pos value) as Hl. rewrite Ev, !str_length_app in Hl. lia. }
    apply IH in E as [? Hf]; [|done]. split; [done|].
    exists w, rest. split; [done|]. by rewrite <- Hd, Nat.add_assoc.
Qed.

Lemma glob_loop_complete value parts pos rest :
  filled parts (drop_bytes pos value) rest -> exists pos', glob_loop value false pos parts = Some pos'.
Proof.
  revert pos. induction parts as [|p r IH]; intros pos; cbn [glob_loop]; [eauto|].
  intros (w & v' & Ev & Hf). destruct (is_empty p) eqn:Ep.
  - destruct r as [|q r]; [cbn; eauto|]. apply IH. rewrite Ev. destruct p; [|done].
    change (filled (q :: r) (w +:+ v') rest). by apply filled_prefix.
  - destruct (find_first p w v') as (i & Hi & Hle). rewrite Ev, Hi. cbn.
    destruct r as [|q r]; [cbn; eauto|]. apply IH.
    rewrite <- Nat.add_assoc, <- drop_bytes_drop, Ev, <- str_app_assoc.
    destruct (drop_app_split (w +:+ p) v' (i + String.length p)) as [u ->];
      [rewrite str_length_app; lia|]. by apply filled_prefix.
Qed.

Lemma split_single c s p : split c s = [p] -> s = p /\ contains_char c s = false.
Proof.
  revert p. induction s as [|a s IH]; intros p; cbn; [by intros [= <-]|].
  destruct (split_join c s) as (q & r & E). rewrite E in IH |- *.
  destruct (Ascii.eqb a c); [done|]. intros [= <- ->]. by destruct (IH q eq_refl) as [-> ->].
Qed.

Lemma glob_match_sound pattern value : glob_match pattern value = true -> glob_spec pattern value.
Proof.
  unfold glob_match, glob_spec. destruct (split_join star pattern) as (p0 & r & E). rewrite E.
  destruct r as [|p1 r]; cbn [length Nat.eqb].
  { intros H%String.eqb_eq. apply split_single in E as [-> _]. exists "". by rewrite str_app_nil_r. }
  destruct (glob_loop value true 0 (p0 :: p1 :: r)) as [pos|] eqn:El; [|done]. intros Hend.
  assert (exists pos0, value = p0 +:+ drop_bytes pos0 value /\ (pos0 <= String.length value)%nat
    /\ glob_loop value false pos0 (p1 :: r) = Some pos) as (pos0 & Hp0 & Hle & Hl).
  { cbn [glob_loop] in El. destruct (is_empty p0) eqn:Ep.
    - destruct p0; [|done]. exists 0%nat. rewrite drop_bytes_0. split; [done|]. split; [lia|done].
    - rewrite drop_bytes_0 in El. destruct (find p0 value) as [i|] eqn:Ef; [|done].
      destruct i as [|i]; [|done]. cbn [Nat.eqb negb andb Nat.add] in El.
      destruct (find_some_split _ _ _ Ef) as (w & rest & Ev & Hi & Hd).
      destruct w; [|done]. exists (String.length p0). cbn in Hd. rewrite Hd.
      split; [done|]. split; [|done]. rewrite Ev. change ("" +:+ p0 +:+ rest) with (p0 +:+ rest).
      rewrite str_length_app. lia. }
  apply glob_loop_sound in Hl as [Hle' Hf]; [|done]. exists (drop_bytes pos0 value).
  split; [done|]. destruct (ends_with_char star pattern) eqn:Est; cbn in Hend.
  - eapply filled_absorb; [|exact Hf]. pose proof (split_last star pattern) as Hs.
    rewrite Est, E, last_cons in Hs. destruct (list.last (p1 :: r)) as [q|] eqn:Eq.
    + cbn in Hs. by destruct q.
    + by apply last_None in Eq.
  - apply Nat.eqb_eq in Hend as ->. by rewrite drop_all in Hf.
Qed.

Lemma glob_match_complete pattern value :
  ends_with_char star pattern = true -> glob_spec pattern value -> glob_match pattern value = true.
Proof.
  intros Est. unfold glob_match, glob_spec. rewrite Est. cbn [negb].
  destruct (split_join star pattern) as (p0 & r & E). rewrite E.
  destruct r as [|p1 r]; cbn [length Nat.eqb].
  { pose proof (split_last star pattern) as Hs. rewrite Est, E in Hs. cbn in Hs. destruct p0; [|done].
    apply split_single in E as [-> _]. discriminate Est. }
  intros (v' & -> & Hf). remember (p1 :: r) as l. cbn [glob_loop]. destruct (is_empty p0) eqn:Ep.
  - destruct p0; [|done]. change ("" +:+ v') with v'.
    destruct (glob_loop_complete v' l 0 "") as [pos' ->]; [by rewrite drop_bytes_0|done].
  - rewrite drop_bytes_0, find_starts by (apply starts_with_iff; eauto). cbn [negb Nat.eqb andb].
    destruct (glob_loop_complete (p0 +:+ v') l (0 + 0 + String.length p0) "") as [pos' ->];
      [|done]. cbn [Nat.add]. by rewrite drop_bytes_app.
Qed.

Section Policy.
Context `{Lowercase}.
Import HeaderForwardPolicy.

Definition grows (a b : gset string * list string) : Prop :=
  fst a ⊆ fst b /\ forall g, g ∈ snd a -> g ∈ snd b.

Lemma add_entry_grows key acc : grows acc (add_entry key acc).
Proof.
  destruct acc as [exact globs]. unfold add_entry, grows. destruct (contains_char _ _); cbn.
  - split; [done|]. intros g Hg. apply elem_of_app. by left.
  - split; [set_solver|done].
Qed.

Lemma grows_refl a : grows a a.
Proof. split; [done|auto]. Qed.

Lemma grows_trans a b c : grows a b -> grows b c -> grows a c.
Proof. intros [H1 H2] [H3 H4]. split; [set_solver|auto]. Qed.

Lemma extend_grows names acc : grows acc (extend names acc).
Proof.
  revert acc. induction names as [|n names IH]; intros acc; [apply grows_refl|].
  unfold extend. cbn [fold_left]. destruct (is_empty _); [apply IH|].
  eapply grows_trans; [apply add_entry_grows|apply IH].
Qed.

(** Where an entry ends up. *)
Definition holds (acc : gset string * list string) (key : string) : Prop :=
  if contains_char star key then key ∈ snd acc else key ∈ fst acc.

Lemma grows_holds a b key : grows a b -> holds a key -> holds b key.
Proof. unfold holds, grows. intros [H1 H2]. destruct (contains_char _ _); [auto|set_solver]. Qed.

Lemma add_entry_holds key acc : holds (add_entry key acc) key.
Proof.
  destruct acc as [exact globs]. unfold holds, add_entry.
  destruct (contains_char _ _); cbn; [|set_solver]. apply elem_of_app. right. left.
Qed.

Lemma extend_holds names acc n :
  n ∈ names -> to_lowercase (trim n) <> "" ->
  holds (extend names acc) (to_lowercase (trim n)).
Proof.
  intros Hn Hne. revert acc. induction Hn as [n names|n m names Hn IH]; intros acc;
    unfold extend; cbn [fold_left].
  - destruct (is_empty _) eqn:E; [by destruct (to_lowercase (trim n))|].
    eapply grows_holds; [apply extend_grows|apply add_entry_holds].
  - destruct (is_empty _); by apply IH.
Qed.

Lemma partition_holds entries acc e :
  e ∈ entries ->
  holds (fold_left (fun acc e => add_entry (to_lowercase e) acc) entries acc) (to_lowercase e).
Proof.
  intros He. assert (forall l acc,
    grows acc (fold_left (fun acc e => add_entry (to_lowercase e) acc) l acc)) as Hg.
  { induction l as [|x l IH]; intros a; [apply grows_refl|]. cbn.
    eapply grows_trans; [apply add_entry_grows|apply IH]. }
  revert acc. induction He as [e entries|e m entries He IH]; intros acc; cbn.
  - eapply grows_holds; [apply Hg|apply add_entry_holds].
  - apply IH.
Qed.

Lemma holds_denies acc key name :
  holds acc key -> (if contains_char star key then glob_match key (to_lowercase name) = true
                    else to_lowercase name = key) ->
  passes (fst acc) (snd acc) name = false.
Proof.
  unfold holds, passes. destruct (contains_char star key); intros Hin Hm.
  - destruct (bool_decide _); [done|].
    assert (existsb (fun g => glob_match g (to_lowercase name)) (snd acc) = true) as ->; [|done].
    apply existsb_exists. exists key. split; [by apply list_elem_of_In|done].
  - subst key. by rewrite bool_decide_true.
Qed.
End Policy.

Definition default_request_globs : list string := ["sec-websocket-*"].
Definition default_response_globs : list string :=
  ["sec-websocket-*"; "cf-*"; "eo-*"; "access-control-*"; "*trace*"].

Lemma lower_default `{Lowercase} e :
  e ∈ DEFAULT_REQUEST_DENY ++ DEFAULT_RESPONSE_DENY -> to_lowercase e = e.
Proof.
  intros He. assert (forallb (fun e => is_ascii e && String.eqb (ascii_lowercase e) e)
    (DEFAULT_REQUEST_DENY ++ DEFAULT_RESPONSE_DENY) = true) as Ha by (vm_compute; reflexivity).
  rewrite forallb_forall in Ha. apply list_elem_of_In in He. specialize (Ha e He).
  apply andb_prop in Ha as [H1 H2]. rewrite to_lowercase_ascii by done. by apply String.eqb_eq.
Qed.

Lemma default_self_match e :
  e ∈ DEFAULT_REQUEST_DENY ++ DEFAULT_RESPONSE_DENY ->
  if contains_char star e then glob_match e e = true else True.
Proof.
  intros He. assert (forallb (fun e => negb (contains_char star e) || glob_match e e)
    (DEFAULT_REQUEST_DENY ++ DEFAULT_RESPONSE_DENY) = true) as Ha by (vm_compute; reflexivity).
  rewrite forallb_forall in Ha. apply list_elem_of_In in He. specialize (Ha e He).
  destruct (contains_char star e); [|done]. exact Ha.
Qed.

(** ** Properties *)

(** The glob matcher never denies too much, and it is exact on the patterns
    that end with a star: a match means that the value is the segments of the
    pattern with something in between, and for such patterns the converse
    holds. *)
Theorem glob_match_correct pattern value :
  (glob_match pattern value = true -> glob_spec pattern value)
  /\ (ends_with_char star pattern = true ->
      glob_match pattern value = true <-> glob_spec pattern value).
Proof.
  split; [apply glob_match_sound|]. intros Hs. split; [apply glob_match_sound|].
  by apply glob_match_complete.
Qed.

Lemma glob_match_correct_witness : glob_match "access-control-*" "access-control-max-age" = true.
Proof.
  apply (proj2 (glob_match_correct "access-control-*" "access-control-max-age") eq_refl).
  exists "max-age". split; [reflexivity|]. exists "max-age", "". split; reflexivity.
Defined.

(** A suffix pattern misses names that repeat it.  The scan takes the first
    occurrence of the last segment and then wants the value to end there, so a
    name that begins with the segment and has more text is not matched even when
    it also ends with it, and the deny rule does not apply. *)
Theorem glob_suffix_incomplete seg u :
  seg <> "" -> contains_char star seg = false ->
  glob_spec (String star seg) (seg +:+ u +:+ seg)
  /\ glob_match (String star seg) (seg +:+ u +:+ seg) = false.
Proof.
  intros Hne Hstar. assert (split star (String star seg) = [""; seg]) as Hs.
  { cbn. f_equal. clear Hne. induction seg as [|a seg IH]; [done|]. cbn in *.
    apply orb_false_elim in Hstar as [-> Hstar]. by rewrite IH. }
  split.
  - unfold glob_spec. rewrite Hs. exists (seg +:+ u +:+ seg). split; [done|].
    exists (seg +:+ u), "". split; [|done]. by rewrite str_app_nil_r, str_app_assoc.
  - unfold glob_match. rewrite Hs. cbn [length Nat.eqb glob_loop is_empty].
    assert (is_empty seg = false) as -> by (by destruct seg).
    rewrite drop_bytes_0, find_starts by (apply starts_with_iff; eauto). cbn [andb].
    assert (ends_with_char star (String star seg) = false) as ->.
    { pose proof (split_last star (String star seg)) as Hl. rewrite Hs in Hl. cbn [is_empty] in Hl.
      rewrite orb_false_r in Hl. rewrite Hl. by destruct seg. }
    cbn [negb]. apply Nat.eqb_neq. rewrite !str_length_app.
    assert (0 < String.length seg)%nat by (destruct seg; [done|cbn; lia]). lia.
Qed.

Lemma glob_suffix_incomplete_witness :
  glob_match "*request-id" "request-id-for-request-id" = false.
Proof.
  refine (proj2 (glob_suffix_incomplete "request-id" "-for-" _ _)).
  - discriminate.
  - reflexivity.
Defined.

Lemma ends_with_contains c e : ends_with_char c e = true -> contains_char c e = true.
Proof.
  induction e as [|a e IH]; [done|]. intros Hst. cbn in *. destruct e as [|b e].
  - by rewrite Hst.
  - rewrite IH by done. apply orb_true_r.
Qed.

(** What a default entry denies as long as the policy still holds it. *)
Lemma default_denied `{Lowercase} e acc name :
  e ∈ DEFAULT_REQUEST_DENY ++ DEFAULT_RESPONSE_DENY -> holds acc (to_lowercase e) ->
  to_lowercase name = e \/ ends_with_char star e = true /\ glob_spec e (to_lowercase name) ->
  HeaderForwardPolicy.passes (fst acc) (snd acc) name = false.
Proof.
  intros He Hh Hor. rewrite lower_default in Hh by done.
  apply (holds_denies acc e); [done|]. pose proof (default_self_match e He) as Hself.
  destruct Hor as [->|[Hst Hsp]]; [by destruct (contains_char star e)|].
  rewrite ends_with_contains by done. by apply glob_match_complete.
Qed.

Lemma default_globs_listed :
  (forall g, g ∈ default_request_globs -> g ∈ DEFAULT_REQUEST_DENY /\ ends_with_char star g = true)
  /\ (forall g, g ∈ default_response_globs ->
        g ∈ DEFAULT_RESPONSE_DENY /\ ends_with_char star g = true).
Proof.
  split; intros g Hg.
  - apply list_elem_of_singleton in Hg as ->.
    split; [apply (bool_decide_unpack _); vm_compute; exact I|done].
  - repeat (apply elem_of_cons in Hg as [->|Hg];
      [split; [apply (bool_decide_unpack _); vm_compute; exact I|done]|]). by apply elem_of_nil in Hg.
Qed.

(** Configuration only adds to the deny lists.  Under any policy built from the
    defaults with extra entries, a request header whose lower-cased name is on
    the default list or begins with [sec-websocket-] is not forwarded, nor is a
    response header on its list or matching one of its open-ended patterns, and
    every extra request entry that is a plain name is denied in any spelling. *)
Theorem denied_headers_stay_denied `{Lowercase} extra_req extra_resp name :
  let p := HeaderForwardPolicy.with_response_deny_extra
             (HeaderForwardPolicy.with_request_deny_extra HeaderForwardPolicy.with_defaults extra_req)
             extra_resp in
  (to_lowercase name ∈ DEFAULT_REQUEST_DENY
   \/ (exists g, g ∈ default_request_globs /\ glob_spec g (to_lowercase name)) ->
   HeaderForwardPolicy.should_forward_request p name = false)
  /\ (to_lowercase name ∈ DEFAULT_RESPONSE_DENY
      \/ (exists g, g ∈ default_response_globs /\ glob_spec g (to_lowercase name)) ->
      HeaderForwardPolicy.should_forward_response p name = false)
  /\ (forall n, n ∈ extra_req -> to_lowercase (trim n) <> "" ->
        contains_char star (to_lowercase (trim n)) = false ->
        to_lowercase name = to_lowercase (trim n) ->
        HeaderForwardPolicy.should_forward_request p name = false).
Proof.
  intros p. unfold p, HeaderForwardPolicy.with_defaults.
  pose proof (partition_holds DEFAULT_REQUEST_DENY (∅, [])) as Hq.
  pose proof (partition_holds DEFAULT_RESPONSE_DENY (∅, [])) as Hs.
  unfold HeaderForwardPolicy.partition_entries.
  destruct (fold_left _ DEFAULT_REQUEST_DENY _) as [qe qg].
  destruct (fold_left _ DEFAULT_RESPONSE_DENY _) as [se sg].
  unfold HeaderForwardPolicy.with_request_deny_extra,
    HeaderForwardPolicy.with_response_deny_extra. cbn.
  pose proof (extend_grows extra_req (qe, qg)) as Gq.
  pose proof (extend_grows extra_resp (se, sg)) as Gs.
  pose proof (fun n => extend_holds extra_req (qe, qg) n) as He.
  destruct (HeaderForwardPolicy.extend extra_req _) as [qe' qg'].
  destruct (HeaderForwardPolicy.extend extra_resp _) as [se' sg']. cbn.
  destruct default_globs_listed as [Gqd Gsd].
  split; [|split].
  - intros [Hin|(g & Hg & Hsp)].
    + apply (default_denied (to_lowercase name) (qe', qg')); [apply elem_of_app; by left| |by left].
      eapply grows_holds; [exact Gq|by apply Hq].
    + apply Gqd in Hg as [Hg1 Hg2].
      apply (default_denied g (qe', qg')); [apply elem_of_app; by left| |by right].
      eapply grows_holds; [exact Gq|by apply Hq].
  - intros [Hin|(g & Hg & Hsp)].
    + apply (default_denied (to_lowercase name) (se', sg')); [apply elem_of_app; by right| |by left].
      eapply grows_holds; [exact Gs|by apply Hs].
    + apply Gsd in Hg as [Hg1 Hg2].
      apply (default_denied g (se', sg')); [apply elem_of_app; by right| |by right].
      eapply grows_holds; [exact Gs|by apply Hs].
  - intros n Hn Hne Hstar Hname. specialize (He n Hn Hne).
    apply (holds_denies (qe', qg') (to_lowercase (trim n)) name He). by rewrite Hstar.
Qed.

Lemma denied_headers_stay_denied_witness :
  @HeaderForwardPolicy.should_forward_request ascii_folding
    (@HeaderForwardPolicy.with_response_deny_extra ascii_folding
      (@HeaderForwardPolicy.with_request_deny_extra ascii_folding
         (@HeaderForwardPolicy.with_defaults ascii_folding) [" X-Tenant "]) []) "AUTHORIZATION"
  = false.
Proof.
  apply (@denied_headers_stay_denied ascii_folding [" X-Tenant "] [] "AUTHORIZATION").
  left. apply (bool_decide_unpack _). vm_compute. exact I.
Defined.
