(* ===== verification/Redaction.v ===== *)
(** * Redaction: credentials leave neither the log nor the envelope

    [crates/core/src/redaction.rs]: the redactor of header maps and JSON
    bodies. *)

From stdpp Require Import base option list gmap sets strings.
From Stdlib Require Import ZArith Lia.
From S2P Require Import Prelude RustStr F64 Json.

Local Open Scope string_scope.

Definition REDACTED : string := "[REDACTED]".

Definition DEFAULT_HEADER_PATTERNS : list string :=
  ["authorization"; "proxy-authorization"; "cookie"; "set-cookie"; "x-api-key";
   "x-goog-api-key"; "anthropic-api-key"; "openai-organization"; "openai-project";
   "tiygate-admin-token"].

Definition DEFAULT_HEADER_SUBSTRINGS : list string :=
  ["token"; "secret"; "password"; "credential"].

Definition DEFAULT_BODY_KEYS : list string :=
  ["api_key"; "apikey"; "token"; "access_token"; "refresh_token"; "client_secret"; "password"].

Record Redactor := {
  header_names : gset string;
  header_substrings : list string;
  body_keys : gset string;
}.

Module Redactor.
Section WithLower.
Context `{Lowercase}.

Definition with_defaults : Redactor :=
  {| header_names := list_to_set (map to_lowercase DEFAULT_HEADER_PATTERNS);
     header_substrings := map to_lowercase DEFAULT_HEADER_SUBSTRINGS;
     body_keys := list_to_set (map to_lowercase DEFAULT_BODY_KEYS) |}.

Definition empty : Redactor :=
  {| header_names := ∅; header_substrings := []; body_keys := ∅ |}.

Definition with_header_name (r : Redactor) (name : string) : Redactor :=
  {| header_names := {[to_lowercase name]} ∪ header_names r;
     header_substrings := header_substrings r; body_keys := body_keys r |}.

Definition with_header_substring (r : Redactor) (pat : string) : Redactor :=
  {| header_names := header_names r;
     header_substrings := (header_substrings r ++ [to_lowercase pat])%list;
     body_keys := body_keys r |}.

Definition with_body_key (r : Redactor) (key : string) : Redactor :=
  {| header_names := header_names r; header_substrings := header_substrings r;
     body_keys := {[to_lowercase key]} ∪ body_keys r |}.

Definition should_redact_header (r : Redactor) (header_name : string) : bool :=
  let lower := to_lowercase header_name in
  if bool_decide (lower ∈ header_names r) then true
  else existsb (fun p => contains p lower) (header_substrings r).

Definition should_redact_body_key (r : Redactor) (body_key : string) : bool :=
  bool_decide (to_lowercase body_key ∈ body_keys r).

Definition redact_headers (r : Redactor) (l : list (string * string)) : list (string * string) :=
  map (fun kv => if should_redact_header r (fst kv) then (fst kv, REDACTED) else kv) l.

Fixpoint redact_value (r : Redactor) (v : Value) : Value :=
  match v with
  | Obj m =>
      Obj (map (fun kv => if should_redact_body_key r (fst kv) then (fst kv, Str REDACTED)
                          else (fst kv, redact_value r (snd kv))) m)
  | Arr l => Arr (map (redact_value r) l)
  | _ => v
  end.
End WithLower.
End Redactor.

(** ** Two values that differ only in secrets

    [secret] says which keys are secret. *)

Section Public.
Context (secret : string -> bool).

Fixpoint same_public (v w : Value) : Prop :=
  match v, w with
  | Obj m, Obj m' =>
      (fix go m m' :=
         match m, m' with
         | [], [] => True
         | (k, x) :: m, (k', x') :: m' =>
             k = k' /\ (if secret k then True else same_public x x') /\ go m m'
         | _, _ => False
         end) m m'
  | Arr l, Arr l' =>
      (fix go l l' :=
         match l, l' with
         | [], [] => True
         | x :: l, x' :: l' => same_public x x' /\ go l l'
         | _, _ => False
         end) l l'
  | Obj _, _ | Arr _, _ => False
  | _, _ => v = w
  end.

(** Every value under a secret key, at any depth, is the marker. *)
Fixpoint all_redacted (v : Value) : bool :=
  match v with
  | Obj m => forallb (fun kv => if secret (fst kv)
                                then match snd kv with Str s => String.eqb s REDACTED | _ => false end
                                else all_redacted (snd kv)) m
  | Arr l => forallb all_redacted l
  | _ => true
  end.

Section Redacting.
Context `{Lowercase} (r : Redactor).
Context (Hsecret : forall k, Redactor.should_redact_body_key r k = secret k).

Lemma redact_same_public v : same_public v (Redactor.redact_value r v).
Proof.
  induction v as [|b|n|s|l IH|m IH] using Value_ind'; try done.
  - cbn. induction IH as [|x l Hx _ IHl]; cbn; [done|]. by split.
  - cbn. induction IH as [|[k x] m Hx _ IHm]; cbn; [done|].
    rewrite Hsecret. destruct (secret k) eqn:E; cbn; rewrite ?E; auto.
Qed.

Lemma same_public_redact v w : same_public v w -> Redactor.redact_value r v = Redactor.redact_value r w.
Proof.
  revert w. induction v as [|b|n|s|l IH|m IH] using Value_ind'; intros w Hs;
    try (by destruct w); try (cbn in Hs; by subst w).
  - destruct w as [| | | |l'|]; try done. cbn in Hs |- *. f_equal. revert l' Hs.
    induction IH as [|x l Hx _ IHl]; intros [|x' l']; try done. cbn. intros [H1 H2].
    f_equal; auto.
  - destruct w as [| | | | |m']; try done. cbn in Hs |- *. f_equal. revert m' Hs.
    induction IH as [|[k x] m Hx _ IHm]; intros [|[k' x'] m']; try done. cbn.
    intros (-> & H1 & H2). rewrite Hsecret. destruct (secret k') eqn:E.
    + f_equal. auto.
    + f_equal; [|auto]. f_equal. auto.
Qed.

Lemma redact_all_redacted v : all_redacted (Redactor.redact_value r v) = true.
Proof.
  induction v as [|b|n|s|l IH|m IH] using Value_ind'; try done; cbn.
  - induction IH as [|x l Hx _ IHl]; cbn; [done|]. by rewrite Hx.
  - induction IH as [|[k x] m Hx _ IHm]; cbn; [done|].
    rewrite Hsecret. destruct (secret k) eqn:E; cbn in *; rewrite E, ?Hx; exact IHm.
Qed.
End Redacting.
End Public.

(** Redactors grown from the defaults. *)
Inductive grown `{Lowercase} : Redactor -> Prop :=
| grown_defaults : grown Redactor.with_defaults
| grown_name r n : grown r -> grown (Redactor.with_header_name r n)
| grown_substring r p : grown r -> grown (Redactor.with_header_substring r p)
| grown_key r k : grown r -> grown (Redactor.with_body_key r k).

Lemma default_patterns_lower `{Lowercase} l :
  forallb (fun e => is_ascii e && String.eqb (ascii_lowercase e) e) l = true ->
  map to_lowercase l = l.
Proof.
  induction l as [|e l IH]; cbn; [done|]. intros [[H1 H2]%andb_prop Hl]%andb_prop.
  rewrite IH, to_lowercase_ascii by done. apply String.eqb_eq in H2. by rewrite H2.
Qed.

Lemma grown_keeps `{Lowercase} r :
  grown r ->
  (forall n, n ∈ DEFAULT_HEADER_PATTERNS -> n ∈ header_names r)
  /\ (forall p, p ∈ DEFAULT_HEADER_SUBSTRINGS -> p ∈ header_substrings r)
  /\ (forall k, k ∈ DEFAULT_BODY_KEYS -> k ∈ body_keys r).
Proof.
  induction 1 as [|r n _ (IH1 & IH2 & IH3)|r p _ (IH1 & IH2 & IH3)|r k _ (IH1 & IH2 & IH3)].
  - cbn -[DEFAULT_HEADER_PATTERNS DEFAULT_HEADER_SUBSTRINGS DEFAULT_BODY_KEYS].
    rewrite !default_patterns_lower by (vm_compute; reflexivity).
    split_and!; intros x Hx; [by apply elem_of_list_to_set|done|by apply elem_of_list_to_set].
  - cbn. split_and!; auto. intros x Hx. apply elem_of_union. auto.
  - cbn. split_and!; auto. intros x Hx. apply elem_of_app. auto.
  - cbn. split_and!; auto. intros x Hx. apply elem_of_union. auto.
Qed.

(** Redactors configured with further body keys. *)
Inductive configured `{Lowercase} : list string -> Redactor -> Prop :=
| configured_defaults : configured [] Redactor.with_defaults
| configured_name l r n : configured l r -> configured l (Redactor.with_header_name r n)
| configured_substring l r p : configured l r -> configured l (Redactor.with_header_substring r p)
| configured_key l r k : configured l r -> configured (k :: l) (Redactor.with_body_key r k).

(** The secret keys: the default ones and those configured, in any case. *)
Definition secret_key `{Lowercase} (extra : list string) (k : string) : bool :=
  existsb (fun p => String.eqb (to_lowercase p) (to_lowercase k)) (DEFAULT_BODY_KEYS ++ extra).

Lemma configured_secrets `{Lowercase} extra r k :
  configured extra r -> Redactor.should_redact_body_key r k = secret_key extra k.
Proof.
  intros Hc. unfold Redactor.should_redact_body_key.
  assert (to_lowercase k ∈ body_keys r
          <-> exists p, p ∈ (DEFAULT_BODY_KEYS ++ extra)%list /\ to_lowercase p = to_lowercase k) as Hin.
  { induction Hc as [|l r n _ IH|l r p _ IH|l r k' _ IH]; [|exact IH|exact IH|].
    - cbn [Redactor.with_defaults body_keys]. rewrite app_nil_r, elem_of_list_to_set, list_elem_of_fmap.
      split; intros (p & Hp & Hl); by exists p.
    - cbn [Redactor.with_body_key body_keys]. rewrite elem_of_union, elem_of_singleton, IH. split.
      + intros [Hk|(p & Hp & Hl)]; [exists k'|exists p]; (split; [|done]); apply elem_of_app; [right; left|].
        apply elem_of_app in Hp as [Hp|Hp]; [by left|right; by right].
      + intros (p & Hp & Hl). apply elem_of_app in Hp as [Hp|[->|Hp]%elem_of_cons]; [|by left|];
          right; exists p; (split; [|done]); apply elem_of_app; auto. }
  unfold secret_key. apply eq_true_iff_eq. rewrite bool_decide_eq_true, Hin, existsb_exists.
  split; intros (p & Hp & Hl); exists p; (split; [by apply list_elem_of_In|by apply String.eqb_eq]).
Qed.

(** ** Properties *)

(** C39: Redacting a body removes exactly the secrets.  Under a redactor made from
    the defaults and configured further, a key is secret if it is one of the
    default keys or of the configured ones, whatever the case of its letters.
    In the result every value under a secret key, at any depth and whatever
    its type, is the marker; nothing else changed; two bodies that differ only
    in secrets become equal, so the result carries no information about them;
    and redacting again changes nothing. *)
Theorem redact_value_removes_secrets `{Lowercase} extra r v :
  configured extra r ->
  all_redacted (secret_key extra) (Redactor.redact_value r v) = true
  /\ same_public (secret_key extra) v (Redactor.redact_value r v)
  /\ (forall w, same_public (secret_key extra) v w -> Redactor.redact_value r v = Redactor.redact_value r w)
  /\ Redactor.redact_value r (Redactor.redact_value r v) = Redactor.redact_value r v.
Proof.
  intros Hc. assert (forall k, Redactor.should_redact_body_key r k = secret_key extra k) as Hs
    by (intros k; by apply configured_secrets).
  split; [by apply redact_all_redacted|]. split; [by apply redact_same_public|].
  split; [intros w; by apply same_public_redact|].
  symmetry. by eapply same_public_redact, redact_same_public.
Qed.

Definition body_with (secret : string) : Value :=
  obj [("model", Str "gpt"); ("auth", obj [("Access_Token", Str secret); ("X-Pin", Str secret)])].

Definition sample_redactor : Redactor :=
  @Redactor.with_body_key ascii_folding (@Redactor.with_defaults ascii_folding) "x-pin".

Lemma redact_value_removes_secrets_witness :
  @Redactor.redact_value ascii_folding sample_redactor (body_with "alpha")
  = @Redactor.redact_value ascii_folding sample_redactor (body_with "beta").
Proof.
  destruct (@redact_value_removes_secrets ascii_folding ["x-pin"] sample_redactor (body_with "alpha"))
    as (_ & _ & Hw & _); [apply configured_key, configured_defaults|].
  apply Hw. vm_compute. repeat split.
Defined.

(** Strings are not the only values replaced, and not only at the top level. *)
Example redaction_replaces_any_value :
  @Redactor.redact_value ascii_folding (@Redactor.with_defaults ascii_folding)
    (obj [("a", Arr [obj [("token", json_u64 7); ("password", obj [])]])])
  = obj [("a", Arr [obj [("token", Str REDACTED); ("password", Str REDACTED)]])].
Proof. vm_compute. reflexivity. Qed.

(** No configuration uncovers a credential header.  Under every redactor grown
    from the defaults, a header whose lower-cased name is on the default list or
    contains one of the default words is logged with the marker, whatever its
    value; names, order and the values of all other headers are kept. *)
Theorem credential_headers_redacted `{Lowercase} r l i name value :
  grown r -> l !! i = Some (name, value) ->
  (to_lowercase name ∈ DEFAULT_HEADER_PATTERNS
   \/ (exists p, p ∈ DEFAULT_HEADER_SUBSTRINGS /\ contains p (to_lowercase name) = true) ->
   Redactor.redact_headers r l !! i = Some (name, REDACTED))
  /\ (Redactor.should_redact_header r name = false ->
      Redactor.redact_headers r l !! i = Some (name, value))
  /\ map fst (Redactor.redact_headers r l) = map fst l.
Proof.
  intros Hg Hl. destruct (grown_keeps r Hg) as (Hn & Hs & _).
  unfold Redactor.redact_headers. rewrite list_lookup_fmap, Hl. cbn. split; [|split].
  - intros Hor. assert (Redactor.should_redact_header r name = true) as ->; [|done].
    unfold Redactor.should_redact_header. destruct (bool_decide _) eqn:E; [done|].
    apply bool_decide_eq_false in E. destruct Hor as [Hin|(p & Hp & Hc)]; [by destruct E; auto|].
    apply existsb_exists. exists p. split; [|done]. apply list_elem_of_In. auto.
  - by intros ->.
  - rewrite map_map. apply map_ext. intros [k v]. cbn.
    by destruct (Redactor.should_redact_header r k).
Qed.

Lemma credential_headers_redacted_witness :
  @Redactor.redact_headers ascii_folding
    (@Redactor.with_header_name ascii_folding (@Redactor.with_defaults ascii_folding) "X-Mine")
    [("Accept", "json"); ("X-Session-Token", "s3cr3t")] !! 1%nat
  = Some ("X-Session-Token", REDACTED).
Proof.
  apply (@credential_headers_redacted ascii_folding _ _ 1 "X-Session-Token" "s3cr3t").
  - apply grown_name, grown_defaults.
  - reflexivity.
  - right. exists "token". split; [left|reflexivity].
Defined.
