(* ===== verification/TraceCtx.v ===== *)
(** * TraceCtx: W3C trace context

    [crates/core/src/tracing_ctx.rs]: parsing and printing of [traceparent],
    and the generator of trace identifiers.  Random bytes are arguments. *)

From stdpp Require Import base option list strings.
From Stdlib Require Import ZArith Lia Ascii.
From S2P Require Import Prelude RustStr.

Local Open Scope string_scope.
Local Open Scope Z_scope.

Definition TRACE_ID_LEN : nat := 32.
Definition SPAN_ID_LEN : nat := 16.

Record TraceContext := {
  trace_id : string;
  parent_span_id : string;
  flags : Z;
  tracestate : option string;
}.

Inductive TraceContextExtraction :=
| Present (c : TraceContext)
| Absent.

Definition hex_char (d : Z) : ascii := if d <=? 9 then chr (48 + d) else chr (87 + d).

Fixpoint hex_lower (bytes : list Z) : string :=
  match bytes with
  | [] => ""
  | b :: r => String (hex_char (Z.shiftr b 4)) (String (hex_char (Z.land b 15)) (hex_lower r))
  end.

Definition is_lower_hex_char (a : ascii) : bool :=
  is_ascii_digit a || ((97 <=? code a) && (code a <=? 102)).

Definition is_lower_hex (s : string) : bool := all_chars is_lower_hex_char s.

Definition dash : ascii := "-"%char.

Definition to_traceparent (c : TraceContext) : string :=
  "00-" +:+ trace_id c +:+ "-" +:+ parent_span_id c +:+ "-" +:+ hex_lower [flags c].

Definition extract_traceparent (value : string) : TraceContextExtraction :=
  match splitn 4 dash value with
  | [version; trace_id; parent_id; flags_hex] =>
      if negb (String.eqb version "00") then Absent
      else if negb (Nat.eqb (String.length trace_id) TRACE_ID_LEN) || negb (is_lower_hex trace_id)
      then Absent
      else if negb (Nat.eqb (String.length parent_id) SPAN_ID_LEN) || negb (is_lower_hex parent_id)
      then Absent
      else match from_str_radix 16 u8_max flags_hex with
           | Some f => Present {| trace_id := trace_id; parent_span_id := parent_id; flags := f;
                                  tracestate := None |}
           | None => Absent
           end
  | _ => Absent
  end.

Definition extract_from_headers (traceparent tracestate : option string)
  : TraceContextExtraction :=
  match traceparent with
  | Some raw =>
      if is_empty raw then Absent
      else match extract_traceparent raw with
           | Present ctx =>
               Present {| trace_id := trace_id ctx; parent_span_id := parent_span_id ctx;
                          flags := flags ctx; tracestate := tracestate |}
           | Absent => Absent
           end
  | None => Absent
  end.

Definition new_span_id (random : list Z) : string := hex_lower random.
Definition new_trace_id (random : list Z) : string := hex_lower random.

(** [TraceContext::from_raw] with the random bytes for a span and a trace. *)
Definition from_raw (raw : string) (span_bytes trace_bytes : list Z) : TraceContext :=
  match extract_traceparent raw with
  | Present ctx => {| trace_id := trace_id ctx; parent_span_id := new_span_id span_bytes;
                      flags := flags ctx; tracestate := tracestate ctx |}
  | Absent => {| trace_id := new_trace_id trace_bytes; parent_span_id := new_span_id span_bytes;
                 flags := 1; tracestate := None |}
  end.

(** ** The generator *)

Record TraceIdState := { last_random_bytes : list Z; initialized : bool }.

Definition zero_bytes : list Z := repeat 0 16.

Definition TraceIdState_default : TraceIdState :=
  {| last_random_bytes := zero_bytes; initialized := false |}.

(** The addition of one, from the last byte on; the flag says that the carry
    left the first byte. *)
Fixpoint bump (l : list Z) : list Z * bool :=
  match l with
  | [] => ([], true)
  | b :: r =>
      let '(r', carry) := bump r in
      if carry then ((b + 1) mod 256 :: r', b =? 255) else (b :: r', false)
  end.

(** [next] with the bytes the random source would fill in. *)
Definition next (s : TraceIdState) (random : list Z) : TraceIdState * string :=
  if initialized s then
    let '(bumped, carry) := bump (last_random_bytes s) in
    let bytes := if carry then zero_bytes else bumped in
    if decide (bytes = zero_bytes)
    then ({| last_random_bytes := random; initialized := true |}, hex_lower random)
    else ({| last_random_bytes := bumped; initialized := true |}, hex_lower bytes)
  else ({| last_random_bytes := random; initialized := true |}, hex_lower random).

(** The first [n] identifiers of a new generator. *)
Fixpoint ids (n : nat) (s : TraceIdState) (random : nat -> list Z) : list string :=
  match n with
  | O => []
  | S n => let '(s', id) := next s (random n) in id :: ids n s' random
  end.

(** ** Lemmas *)

Definition is_byte (b : Z) : Prop := 0 <= b <= 255.

(** The number a byte string stands for, most significant byte first. *)
Definition be_value (l : list Z) : Z := fold_left (fun acc b => acc * 256 + b) l 0.

Lemma fold_be_value l acc :
  fold_left (fun acc b => acc * 256 + b) l acc = acc * 256 ^ Z.of_nat (length l) + be_value l.
Proof.
  unfold be_value. revert acc. induction l as [|b l IH]; intros acc; cbn [fold_left length]; [cbn; lia|].
  rewrite (IH (acc * 256 + b)), (IH (0 * 256 + b)).
  rewrite Nat2Z.inj_succ, Z.pow_succ_r by lia. ring.
Qed.

Lemma be_value_cons b l : be_value (b :: l) = b * 256 ^ Z.of_nat (length l) + be_value l.
Proof. unfold be_value at 1. cbn [fold_left]. rewrite fold_be_value. ring. Qed.

Lemma be_value_bound l : Forall is_byte l -> 0 <= be_value l < 256 ^ Z.of_nat (length l).
Proof.
  induction 1 as [|b l Hb _ IH]; [cbn; lia|]. rewrite be_value_cons. cbn [length].
  rewrite Nat2Z.inj_succ, Z.pow_succ_r by lia. unfold is_byte in Hb. nia.
Qed.

Lemma be_value_inj l1 l2 :
  Forall is_byte l1 -> Forall is_byte l2 -> length l1 = length l2 -> be_value l1 = be_value l2 -> l1 = l2.
Proof.
  intros H1. revert l2. induction H1 as [|b l Hb Hl IH]; intros [|b' l'] H2 Hlen; try done.
  rewrite !be_value_cons. injection Hlen as Hlen. apply Forall_cons_1 in H2 as [Hb' Hl'].
  rewrite <- Hlen. pose proof (be_value_bound l Hl). pose proof (be_value_bound l' Hl') as Hv'.
  rewrite <- Hlen in Hv'. intros He. assert (b = b') as -> by nia.
  f_equal. apply IH; [done|done|lia].
Qed.

(** [bump] adds one, modulo the width. *)
Lemma bump_spec l :
  Forall is_byte l ->
  let '(l', carry) := bump l in
  Forall is_byte l' /\ length l' = length l
  /\ be_value l' + (if carry then 256 ^ Z.of_nat (length l) else 0) = be_value l + 1.
Proof.
  induction 1 as [|b l Hb _ IH]; [by cbn; repeat split|]. cbn [bump].
  destruct (bump l) as [l' carry]. destruct IH as (IH1 & IH2 & IH3). unfold is_byte in *.
  destruct carry; cbn [length]; rewrite !be_value_cons, ?IH2.
  - pose proof (Z.mod_pos_bound (b + 1) 256 ltac:(lia)) as Hm.
    split; [constructor; [lia|done]|]. split; [done|].
    rewrite Nat2Z.inj_succ, Z.pow_succ_r by lia.
    destruct (b =? 255) eqn:E; bool_prop.
    + subst b. change ((255 + 1) mod 256) with 0. lia.
    + rewrite Z.mod_small by lia. lia.
  - split; [by constructor|]. split; [done|]. lia.
Qed.

Lemma hex_digit_char d : 0 <= d <= 15 -> hex_digit (hex_char d) = Some d.
Proof.
  intros Hd. assert (d = 0 \/ d = 1 \/ d = 2 \/ d = 3 \/ d = 4 \/ d = 5 \/ d = 6 \/ d = 7 \/ d = 8
    \/ d = 9 \/ d = 10 \/ d = 11 \/ d = 12 \/ d = 13 \/ d = 14 \/ d = 15) as Hc by lia.
  repeat destruct Hc as [->|Hc]; try reflexivity. by subst.
Qed.

Lemma byte_nibbles b : is_byte b ->
  0 <= Z.shiftr b 4 <= 15 /\ 0 <= Z.land b 15 <= 15 /\ b = Z.shiftr b 4 * 16 + Z.land b 15.
Proof.
  unfold is_byte. intros Hb. change 15 with (Z.ones 4). rewrite Z.land_ones, Z.shiftr_div_pow2 by lia.
  change (2 ^ 4) with 16. pose proof (Z.div_mod b 16 ltac:(lia)).
  pose proof (Z.mod_pos_bound b 16 ltac:(lia)).
  change (Z.ones 4) with 15. split; [|split; lia]. split; [apply Z.div_pos; lia|].
  apply Z.lt_succ_r, Z.div_lt_upper_bound; lia.
Qed.

Lemma hex_lower_inj l1 l2 :
  Forall is_byte l1 -> Forall is_byte l2 -> hex_lower l1 = hex_lower l2 -> l1 = l2.
Proof.
  intros H1. revert l2. induction H1 as [|b l Hb _ IH]; intros [|b' l'] H2; try done.
  apply Forall_cons_1 in H2 as [Hb' Hl']. cbn. intros [= Eh El Er].
  destruct (byte_nibbles b Hb) as (B1 & B2 & ->), (byte_nibbles b' Hb') as (B3 & B4 & ->).
  apply (f_equal hex_digit) in Eh, El. rewrite !hex_digit_char in Eh, El by done.
  f_equal; [congruence|auto].
Qed.

Lemma hex_char_lower d : 0 <= d <= 15 -> is_lower_hex_char (hex_char d) = true.
Proof.
  intros Hd. assert (d = 0 \/ d = 1 \/ d = 2 \/ d = 3 \/ d = 4 \/ d = 5 \/ d = 6 \/ d = 7 \/ d = 8
    \/ d = 9 \/ d = 10 \/ d = 11 \/ d = 12 \/ d = 13 \/ d = 14 \/ d = 15) as Hc by lia.
  repeat destruct Hc as [->|Hc]; try reflexivity. by subst.
Qed.

Lemma hex_lower_shape l :
  Forall is_byte l ->
  String.length (hex_lower l) = (2 * length l)%nat /\ is_lower_hex (hex_lower l) = true.
Proof.
  induction 1 as [|b l Hb _ [IH1 IH2]]; [done|]. destruct (byte_nibbles b Hb) as (B1 & B2 & _).
  cbn. rewrite IH1, !hex_char_lower by done. split; [lia|exact IH2].
Qed.

Lemma lower_hex_no_dash s : is_lower_hex s = true -> contains_char dash s = false.
Proof. intros H. by apply (all_chars_contains is_lower_hex_char). Qed.

Lemma from_str_radix_byte f :
  is_byte f -> from_str_radix 16 u8_max (hex_lower [f]) = Some f.
Proof.
  intros Hf. destruct (byte_nibbles f Hf) as (B1 & B2 & E). unfold is_byte in Hf.
  cbn [hex_lower]. unfold from_str_radix.
  assert (forall d, 0 <= d <= 15 -> Ascii.eqb (hex_char d) "+" = false) as Hplus.
  { intros d Hd. destruct (Ascii.eqb_spec (hex_char d) "+") as [Eh|]; [|done].
    apply (f_equal hex_digit) in Eh. rewrite hex_digit_char in Eh by done. discriminate Eh. }
  rewrite Hplus by done. cbn [parse_digits]. unfold to_digit. rewrite !hex_digit_char by done.
  rewrite (proj2 (Z.ltb_lt _ _)) by lia. unfold u8_max.
  rewrite (proj2 (Z.leb_le _ _)) by lia. rewrite (proj2 (Z.ltb_lt _ _)) by lia.
  rewrite (proj2 (Z.leb_le _ _)) by lia. f_equal. lia.
Qed.

Definition valid_context (c : TraceContext) : Prop :=
  String.length (trace_id c) = TRACE_ID_LEN /\ is_lower_hex (trace_id c) = true
  /\ String.length (parent_span_id c) = SPAN_ID_LEN /\ is_lower_hex (parent_span_id c) = true
  /\ is_byte (flags c).

Lemma splitn_traceparent v t p f :
  contains_char dash v = false -> contains_char dash t = false -> contains_char dash p = false ->
  splitn 4 dash (v +:+ "-" +:+ t +:+ "-" +:+ p +:+ "-" +:+ f) = [v; t; p; f].
Proof.
  intros Hv Ht Hp. cbn [splitn].
  change (v +:+ "-" +:+ t +:+ "-" +:+ p +:+ "-" +:+ f)
    with (v +:+ String dash (t +:+ String dash (p +:+ String dash f))).
  by rewrite split_once_app, split_once_app, split_once_app.
Qed.

Lemma extract_parts t p fl f :
  String.length t = TRACE_ID_LEN -> is_lower_hex t = true ->
  String.length p = SPAN_ID_LEN -> is_lower_hex p = true ->
  from_str_radix 16 u8_max fl = Some f ->
  extract_traceparent ("00-" +:+ t +:+ "-" +:+ p +:+ "-" +:+ fl)
  = Present {| trace_id := t; parent_span_id := p; flags := f; tracestate := None |}.
Proof.
  intros Ht1 Ht2 Hp1 Hp2 Hf. unfold extract_traceparent.
  change ("00-" +:+ t +:+ "-" +:+ p +:+ "-" +:+ fl) with ("00" +:+ "-" +:+ t +:+ "-" +:+ p +:+ "-" +:+ fl).
  rewrite splitn_traceparent by (done || by apply lower_hex_no_dash).
  by rewrite Ht1, Ht2, Hp1, Hp2, Hf.
Qed.

Lemma parse_digits_bound radix max acc s v :
  0 <= radix -> 0 <= acc <= max -> parse_digits radix max acc s = Some v -> 0 <= v <= max.
Proof.
  intros Hr. revert acc. induction s as [|a s IH]; intros acc Ha; cbn [parse_digits]; [by intros [= <-]|].
  destruct (to_digit radix a) as [d|] eqn:E; [|done].
  destruct (acc * radix + d <=? max) eqn:Em; [|done]. apply IH. bool_prop. split; [|done].
  assert (0 <= d); [|nia]. unfold to_digit, hex_digit in E.
  repeat match goal with H : context [if ?b then _ else _] |- _ => destruct b eqn:? end;
    try done; injection E as <-; bool_prop; lia.
Qed.

Lemma from_str_radix_bound radix max s v :
  0 <= radix -> 0 <= max -> from_str_radix radix max s = Some v -> 0 <= v <= max.
Proof.
  intros Hr Hm. unfold from_str_radix. destruct s as [|a s]; [done|].
  destruct (Ascii.eqb a "+"); [destruct s; [done|]|]; apply parse_digits_bound; lia.
Qed.

Lemma ids_values n s random v :
  initialized s = true -> Forall is_byte (last_random_bytes s) ->
  length (last_random_bytes s) = 16%nat -> be_value (last_random_bytes s) = v ->
  v + Z.of_nat n < 256 ^ 16 ->
  NoDup (ids n s random)
  /\ forall id, id ∈ ids n s random -> exists l, id = hex_lower l /\ Forall is_byte l
       /\ length l = 16%nat /\ v < be_value l.
Proof.
  revert s v. induction n as [|n IH]; intros s v Hi Hb Hlen Hv Hn; cbn [ids].
  { split; [constructor|]. intros id Hid. by apply elem_of_nil in Hid. }
  unfold next. rewrite Hi. pose proof (bump_spec (last_random_bytes s) Hb) as Hbump.
  pose proof (be_value_bound _ Hb) as Hbv. rewrite Hlen in Hbv.
  destruct (bump (last_random_bytes s)) as [l carry]. destruct Hbump as (Hl & Hll & Hval).
  rewrite Hlen in Hll, Hval. pose proof (be_value_bound l Hl) as Hlb. rewrite Hll in Hlb.
  change (Z.of_nat 16) with 16 in *. destruct carry; [lia|].
  rewrite decide_False.
  2: { intros ->. change (be_value zero_bytes) with 0 in Hval. lia. }
  destruct (IH {| last_random_bytes := l; initialized := true |} (v + 1)) as [IH1 IH2];
    [done|done|done|cbn [last_random_bytes]; lia|lia|].
  split.
  - constructor; [|done]. intros Hin. destruct (IH2 _ Hin) as (l' & E & Hb' & Hl' & Hgt).
    apply hex_lower_inj in E as <-; [|done|done]. lia.
  - intros id [->|Hin]%elem_of_cons.
    + exists l. split_and!; [done|done|done|lia].
    + destruct (IH2 _ Hin) as (l' & -> & Hb' & Hl' & Hgt). exists l'. split_and!; [done|done|done|lia].
Qed.

(** ** Properties *)

(** A valid context survives the header: printing it and parsing the result
    gives the same identifiers and flags back, with the [tracestate] the request
    carried; and whatever is accepted is valid, so the contexts made from any
    header, or from none, always are. *)
Theorem traceparent_roundtrip c ts raw span_bytes trace_bytes :
  valid_context c -> Forall is_byte span_bytes -> length span_bytes = 8%nat ->
  Forall is_byte trace_bytes -> length trace_bytes = 16%nat ->
  extract_from_headers (Some (to_traceparent c)) ts
    = Present {| trace_id := trace_id c; parent_span_id := parent_span_id c; flags := flags c;
                 tracestate := ts |}
  /\ (forall c', extract_traceparent raw = Present c' -> valid_context c')
  /\ valid_context (from_raw raw span_bytes trace_bytes).
Proof.
  intros (H1 & H2 & H3 & H4 & H5) Hs Hsl Ht Htl.
  assert (forall c', extract_traceparent raw = Present c' -> valid_context c') as Hsound.
  { intros c'. unfold extract_traceparent.
    destruct (splitn 4 dash raw) as [|v [|t [|p [|f [|]]]]]; try done.
    destruct (negb (String.eqb v "00")); [done|].
    destruct (negb _ || negb _) eqn:E1; [done|]. destruct (negb (Nat.eqb (String.length p) _) || _) eqn:E2; [done|].
    destruct (from_str_radix _ _ _) as [fl|] eqn:Ef; [|done]. intros [= <-]. bool_prop.
    unfold valid_context. cbn. apply from_str_radix_bound in Ef; [|done|done].
    unfold is_byte, u8_max in *. repeat split; (done || lia). }
  split; [|split; [done|]].
  - unfold extract_from_headers. assert (is_empty (to_traceparent c) = false) as -> by done.
    unfold to_traceparent. by rewrite (extract_parts _ _ _ (flags c)) by (done || by apply from_str_radix_byte).
  - destruct (hex_lower_shape _ Hs) as [Hs1 Hs2], (hex_lower_shape _ Ht) as [Ht1 Ht2].
    rewrite Hsl in Hs1. rewrite Htl in Ht1. unfold from_raw, new_span_id, new_trace_id.
    destruct (extract_traceparent raw) as [c'|].
    + destruct (Hsound c' eq_refl) as (? & ? & _ & _ & ?). unfold valid_context. cbn. auto.
    + unfold valid_context, is_byte. cbn. repeat split; (done || lia).
Qed.

Definition sample_context : TraceContext :=
  {| trace_id := "4bf92f3577b34da6a3ce929d0e0e4736"; parent_span_id := "00f067aa0ba902b7";
     flags := 1; tracestate := None |}.

Lemma traceparent_roundtrip_witness :
  extract_from_headers (Some "00-4bf92f3577b34da6a3ce929d0e0e4736-00f067aa0ba902b7-01") (Some "a=b")
  = Present {| trace_id := "4bf92f3577b34da6a3ce929d0e0e4736"; parent_span_id := "00f067aa0ba902b7";
               flags := 1; tracestate := Some "a=b" |}.
Proof.
  refine (proj1 (traceparent_roundtrip sample_context (Some "a=b") "" (repeat 7 8) (repeat 7 16) _ _ _ _ _)).
  - repeat split; discriminate.
  - repeat constructor; discriminate.
  - reflexivity.
  - repeat constructor; discriminate.
  - reflexivity.
Defined.

(** The flags are read more loosely than a two-digit hexadecimal field: any
    number of leading zeros, a leading plus sign and a single digit are all
    accepted, so headers the standard calls malformed count as present. *)
Theorem flags_length_not_checked t p (n : nat) d f :
  String.length t = TRACE_ID_LEN -> is_lower_hex t = true ->
  String.length p = SPAN_ID_LEN -> is_lower_hex p = true ->
  hex_digit d = Some f ->
  let zeros := String.string_of_list_ascii (repeat "0"%char n) in
  extract_traceparent ("00-" +:+ t +:+ "-" +:+ p +:+ "-" +:+ ("+" +:+ zeros +:+ String d ""))
  = Present {| trace_id := t; parent_span_id := p; flags := f; tracestate := None |}.
Proof.
  intros Ht1 Ht2 Hp1 Hp2 Hd zeros. apply extract_parts; try done.
  assert (0 <= f <= 15) as Hf.
  { unfold hex_digit in Hd.
    repeat match goal with H : context [if ?b then _ else _] |- _ => destruct b eqn:? end;
      try done; injection Hd as <-; bool_prop; lia. }
  assert (parse_digits 16 u8_max 0 (zeros +:+ String d "") = Some f) as Hparse.
  { unfold zeros. induction n as [|n IH]; [|exact IH].
    change (parse_digits 16 u8_max 0 (String d "") = Some f). cbn [parse_digits].
    unfold to_digit. rewrite Hd.
    rewrite (proj2 (Z.ltb_lt _ _)) by lia. by rewrite (proj2 (Z.leb_le _ _)) by (unfold u8_max; lia). }
  unfold from_str_radix. change ("+" +:+ zeros +:+ String d "") with (String "+" (zeros +:+ String d "")).
  cbn [Ascii.eqb]. destruct (zeros +:+ String d "") eqn:E; [by destruct zeros|]. exact Hparse.
Qed.

Lemma flags_length_not_checked_witness :
  extract_traceparent "00-4bf92f3577b34da6a3ce929d0e0e4736-00f067aa0ba902b7-+0001"
  = Present sample_context.
Proof.
  refine (flags_length_not_checked "4bf92f3577b34da6a3ce929d0e0e4736" "00f067aa0ba902b7" 3 "1" 1 _ _ _ _ _);
    reflexivity.
Defined.

(** A process never mints a trace identifier twice: the identifiers of a
    generator are pairwise different, 32 lower-case hexadecimal digits each, for
    as long as the 128-bit counter that starts at the first random value does not
    run over. *)
Theorem trace_ids_distinct n random :
  Forall is_byte (random n) -> length (random n) = 16%nat ->
  be_value (random n) + Z.of_nat n < 256 ^ 16 ->
  NoDup (ids (S n) TraceIdState_default random)
  /\ forall id, id ∈ ids (S n) TraceIdState_default random ->
       String.length id = TRACE_ID_LEN /\ is_lower_hex id = true.
Proof.
  intros Hb Hl Hn. change (ids (S n) TraceIdState_default random)
    with (hex_lower (random n)
          :: ids n {| last_random_bytes := random n; initialized := true |} random).
  destruct (ids_values n {| last_random_bytes := random n; initialized := true |} random
              (be_value (random n))) as [Hnd Hids]; [done..|]. split.
  - constructor; [|done]. intros Hin. destruct (Hids _ Hin) as (l & E & Hb' & _ & Hgt).
    apply hex_lower_inj in E as <-; [lia|done|done].
  - intros id [->|Hin]%elem_of_cons.
    + destruct (hex_lower_shape _ Hb) as [H1 H2]. by rewrite H1, Hl.
    + destruct (Hids _ Hin) as (l & -> & Hb' & Hl' & _).
      destruct (hex_lower_shape _ Hb') as [H1 H2]. by rewrite H1, Hl'.
Qed.

Lemma trace_ids_distinct_witness :
  NoDup (ids 4 TraceIdState_default (fun _ => (repeat 7 14 ++ [254; 255])%list)).
Proof.
  refine (proj1 (trace_ids_distinct 3 (fun _ => (repeat 7 14 ++ [254; 255])%list) _ _ _)).
  - cbn. repeat constructor; discriminate.
  - reflexivity.
  - vm_compute. reflexivity.
Defined.
