(* ===== verification/StructuredOutput.v ===== *)
(** * StructuredOutput: JSON Schema compatibility of a target protocol

    [crates/core/src/protocol/structured_output.rs]: the walk over a JSON
    Schema that rejects the keywords and shapes a target documents as
    unsupported, and the JSON Pointer in its diagnostics.

    The walk of the source recurses through [object.get(keyword)]; here it
    takes fuel, [S (depth schema)], and [walk_schema_unfold] shows that this
    fuel never runs out: the function satisfies the source's recursion. *)

From stdpp Require Import base option list sets strings pretty.
From Stdlib Require Import ZArith Lia Ascii.
From S2P Require Import Prelude RustStr F64 Json Telemetry Protocol Classify Ir.

Local Open Scope string_scope.
Local Open Scope list_scope.

Inductive StructuredOutputError :=
| SchemaMustBeObject (pointer : string)
| UnsupportedKeyword (target : ProtocolSuite) (pointer keyword : string)
| InvalidSchemaContainer (pointer expected : string).

(** The [Debug] form of a string, for strings without a character that it
    escapes: the keywords and kinds printed by the gateway are such. *)
Definition debug_str (s : string) : string := String (chr 34) (s +:+ String (chr 34) "").

Definition schema_error_to_string (e : StructuredOutputError) : string :=
  match e with
  | SchemaMustBeObject pointer => "JSON Schema at " +:+ pointer +:+ " must be an object"
  | UnsupportedKeyword target pointer keyword =>
      "JSON Schema keyword " +:+ debug_str keyword +:+ " at " +:+ pointer
      +:+ " is not supported by " +:+ ProtocolSuite.label target
  | InvalidSchemaContainer pointer expected =>
      "JSON Schema value at " +:+ pointer +:+ " must be " +:+ expected
  end.

Definition pointer_for (parent token : string) : string :=
  let escaped := replace_char "/"%char "~1" (replace_char "~"%char "~0" token) in
  parent +:+ "/" +:+ escaped.

Definition display_pointer (pointer : string) : string :=
  if is_empty pointer then "/" else pointer.

Definition unsupported_keywords : list string :=
  ["minimum"; "maximum"; "exclusiveMinimum"; "exclusiveMaximum"; "multipleOf";
   "minLength"; "maxLength"].

Definition is_known_unsupported_keyword (target : ProtocolSuite) (keyword : string) : bool :=
  bool_decide (target = AnthropicMessages) && bool_decide (keyword ∈ unsupported_keywords).

(** ** The walk *)

Section Walk.
Context (target : ProtocolSuite).
Context (walk : Value -> string -> result StructuredOutputError unit).

Definition walk_schema_map (value : option Value) (pointer keyword : string)
    : result StructuredOutputError unit :=
  match value with
  | None => Ok tt
  | Some value =>
      match as_object value with
      | None => Err (InvalidSchemaContainer (pointer_for pointer keyword)
                       "an object containing schemas")
      | Some m =>
          try_for_each (fun '(name, schema) =>
            walk schema (pointer_for (pointer_for pointer keyword) name)) m
      end
  end.

Definition walk_schema_value (value : option Value) (pointer keyword : string)
    : result StructuredOutputError unit :=
  match value with
  | None => Ok tt
  | Some value =>
      if is_boolean value && String.eqb keyword "additionalProperties" then Ok tt
      else walk value (pointer_for pointer keyword)
  end.

Definition walk_schema_array (value : option Value) (pointer keyword : string)
    : result StructuredOutputError unit :=
  match value with
  | None => Ok tt
  | Some value =>
      match as_array value with
      | None => Err (InvalidSchemaContainer (pointer_for pointer keyword) "an array of schemas")
      | Some values =>
          try_for_each (fun '(index, schema) =>
            walk schema (pointer_for (pointer_for pointer keyword) (pretty index)))
            (imap pair values)
      end
  end.

(** One level of [walk_schema]. *)
Definition walk_schema_step (schema : Value) (pointer : string)
    : result StructuredOutputError unit :=
  match as_object schema with
  | None => Err (SchemaMustBeObject (display_pointer pointer))
  | Some object =>
      try_for_each (fun keyword =>
        if is_known_unsupported_keyword target keyword
        then Err (UnsupportedKeyword target (pointer_for pointer keyword) keyword)
        else Ok tt) object.*1 ;;
      walk_schema_map (assoc "properties" object) pointer "properties" ;;
      walk_schema_map (assoc "$defs" object) pointer "$defs" ;;
      walk_schema_map (assoc "definitions" object) pointer "definitions" ;;
      walk_schema_map (assoc "dependentSchemas" object) pointer "dependentSchemas" ;;
      walk_schema_value (assoc "items" object) pointer "items" ;;
      walk_schema_value (assoc "additionalProperties" object) pointer "additionalProperties" ;;
      try_for_each (fun keyword => walk_schema_value (assoc keyword object) pointer keyword)
        ["not"; "if"; "then"; "else"; "contains"; "propertyNames"] ;;
      try_for_each (fun keyword => walk_schema_array (assoc keyword object) pointer keyword)
        ["anyOf"; "allOf"; "oneOf"; "prefixItems"]
  end.
End Walk.

(** The nesting depth of a value, the measure of the walk. *)
Fixpoint depth (v : Value) : nat :=
  match v with
  | Arr l => S (list_max (map depth l))
  | Obj m => S (list_max (map (fun kv => depth (snd kv)) m))
  | _ => O
  end.

Fixpoint walk_schema_fuel (fuel : nat) (target : ProtocolSuite) (schema : Value)
    (pointer : string) : result StructuredOutputError unit :=
  match fuel with
  | O => Ok tt
  | S fuel => walk_schema_step target (walk_schema_fuel fuel target) schema pointer
  end.

Definition walk_schema (target : ProtocolSuite) (schema : Value) (pointer : string)
    : result StructuredOutputError unit :=
  walk_schema_fuel (S (depth schema)) target schema pointer.

Definition validate_schema_for_target (schema : Value) (target : ProtocolEndpoint)
    : result StructuredOutputError unit :=
  walk_schema (suite target) schema "".

Definition validate_response_format_for_target (format : option ResponseFormat)
    (target : ProtocolEndpoint) : result StructuredOutputError unit :=
  match format with
  | Some (JsonSchema _ schema _) => validate_schema_for_target schema target
  | _ => Ok tt
  end.

(** ** The walk as one table of keywords *)

Inductive shape := MapOf | ValueOf | ArrayOf.

Definition schema_keywords : list (string * shape) :=
  [("properties", MapOf); ("$defs", MapOf); ("definitions", MapOf);
   ("dependentSchemas", MapOf); ("items", ValueOf); ("additionalProperties", ValueOf);
   ("not", ValueOf); ("if", ValueOf); ("then", ValueOf); ("else", ValueOf);
   ("contains", ValueOf); ("propertyNames", ValueOf);
   ("anyOf", ArrayOf); ("allOf", ArrayOf); ("oneOf", ArrayOf); ("prefixItems", ArrayOf)].

Definition walk_member (walk : Value -> string -> result StructuredOutputError unit)
    (object : list (string * Value)) (pointer : string) (ks : string * shape)
    : result StructuredOutputError unit :=
  match ks.2 with
  | MapOf => walk_schema_map walk (assoc ks.1 object) pointer ks.1
  | ValueOf => walk_schema_value walk (assoc ks.1 object) pointer ks.1
  | ArrayOf => walk_schema_array walk (assoc ks.1 object) pointer ks.1
  end.

Lemma unit_eta {E} (r : result E unit) : match r with Ok _ => Ok tt | Err e => Err e end = r.
Proof. by destruct r as [[]|]. Qed.

Lemma walk_schema_step_obj target walk m pointer :
  walk_schema_step target walk (Obj m) pointer =
  match try_for_each (fun keyword =>
          if is_known_unsupported_keyword target keyword
          then Err (UnsupportedKeyword target (pointer_for pointer keyword) keyword)
          else Ok tt) m.*1 with
  | Ok _ => try_for_each (walk_member walk m pointer) schema_keywords
  | Err e => Err e
  end.
Proof.
  unfold walk_schema_step, mbind, result_bind, walk_member, schema_keywords.
  cbn [as_object try_for_each fst snd]. rewrite !unit_eta.
  repeat match goal with
  | |- context [match ?r with Ok _ => _ | Err _ => _ end] =>
      lazymatch r with context [match _ with Ok _ => _ | Err _ => _ end] => fail | _ => idtac end;
      destruct r as [[]|] eqn:?; [|reflexivity]
  end; congruence.
Qed.

(** ** Enough fuel *)

Lemma list_max_in n l : n ∈ l -> n <= list_max l.
Proof.
  intros Hn. assert (list_max l <= list_max l) as H by done.
  apply list_max_le in H. rewrite List.Forall_forall in H. apply H. by apply list_elem_of_In.
Qed.

Lemma depth_arr v l : v ∈ l -> depth v < depth (Arr l).
Proof. intros Hv. cbn. apply Nat.lt_succ_r, list_max_in. by apply list_elem_of_fmap_2. Qed.

Lemma depth_obj k v m : (k, v) ∈ m -> depth v < depth (Obj m).
Proof.
  intros Hv. cbn. apply Nat.lt_succ_r, list_max_in.
  by apply (list_elem_of_fmap_2 (fun kv => depth kv.2) m (k, v)).
Qed.

Lemma assoc_in {A} k (v : A) m : assoc k m = Some v -> (k, v) ∈ m.
Proof.
  induction m as [|[k' v'] r IH]; cbn; [done|].
  destruct (String.eqb_spec k k') as [->|]; [intros [= ->]; left|]. right. auto.
Qed.

Lemma imap_pair_in {A} (l : list A) i x : (i, x) ∈ imap pair l <-> l !! i = Some x.
Proof.
  rewrite list_elem_of_lookup. setoid_rewrite list_lookup_imap. split.
  - intros (j & Hj). destruct (l !! j) eqn:E; cbn in Hj; [|done]. by injection Hj as <- <-.
  - intros E. exists i. by rewrite E.
Qed.

Lemma walk_member_ext w1 w2 m pointer ks :
  (forall v q, depth v < depth (Obj m) -> w1 v q = w2 v q) ->
  walk_member w1 m pointer ks = walk_member w2 m pointer ks.
Proof.
  intros Hw. destruct ks as [k []]; cbn [walk_member fst snd];
    (destruct (assoc k m) as [v|] eqn:Ek; [|done]);
    apply assoc_in, depth_obj in Ek.
  - cbn [walk_schema_map]. destruct v as [| | | | |m']; try done. cbn [as_object].
    apply try_for_each_ext. intros [name s] Hs. apply Hw.
    apply depth_obj in Hs. lia.
  - cbn [walk_schema_value]. by rewrite Hw.
  - cbn [walk_schema_array]. destruct v as [| | | |l|]; try done. cbn [as_array].
    apply try_for_each_ext. intros [i s] Hs. apply Hw.
    apply imap_pair_in, list_elem_of_lookup_2, depth_arr in Hs. lia.
Qed.

Lemma walk_schema_step_ext target w1 w2 v pointer :
  (forall s q, depth s < depth v -> w1 s q = w2 s q) ->
  walk_schema_step target w1 v pointer = walk_schema_step target w2 v pointer.
Proof.
  intros Hw. destruct v as [| | | | |m]; try done. rewrite !walk_schema_step_obj.
  destruct (try_for_each _ m.*1); [|done].
  apply try_for_each_ext. intros ks _. by apply walk_member_ext.
Qed.

Lemma walk_schema_enough target n1 n2 v pointer :
  depth v < n1 -> depth v < n2 ->
  walk_schema_fuel n1 target v pointer = walk_schema_fuel n2 target v pointer.
Proof.
  revert n2 v pointer. induction n1 as [|n1 IH]; intros [|n2] v pointer H1 H2; try lia.
  cbn [walk_schema_fuel]. apply walk_schema_step_ext. intros s q Hs. apply IH; lia.
Qed.

Lemma walk_schema_eq target v pointer :
  walk_schema target v pointer = walk_schema_step target (walk_schema target) v pointer.
Proof.
  unfold walk_schema at 1. cbn [walk_schema_fuel]. apply walk_schema_step_ext.
  intros s q Hs. apply walk_schema_enough; lia.
Qed.

(** The schema walk satisfies the recursion of the source on every value:
    the fuel of the definition is always enough, so the walk terminates and
    no part of a schema is skipped. *)
Theorem walk_schema_unfold target v pointer :
  walk_schema target v pointer = walk_schema_step target (walk_schema target) v pointer.
Proof. apply walk_schema_eq. Qed.

(** ** What an accepted schema is *)

(** [conforms target v]: [v] is an object, none of its keywords is unsupported,
    and the values of the keywords that carry schemas have the right shape and
    hold conforming schemas only. *)
Inductive conforms (target : ProtocolSuite) : Value -> Prop :=
| conforms_obj m :
    (forall k, k ∈ m.*1 -> is_known_unsupported_keyword target k = false) ->
    (forall k sh v, (k, sh) ∈ schema_keywords -> assoc k m = Some v ->
       conforms_member target k sh v) ->
    conforms target (Obj m)
with conforms_member (target : ProtocolSuite) : string -> shape -> Value -> Prop :=
| member_map k m :
    (forall name s, (name, s) ∈ m -> conforms target s) -> conforms_member target k MapOf (Obj m)
| member_array k l :
    (forall s, s ∈ l -> conforms target s) -> conforms_member target k ArrayOf (Arr l)
| member_schema k v : conforms target v -> conforms_member target k ValueOf v
| member_boolean b : conforms_member target "additionalProperties" ValueOf (Bool b).

Lemma keywords_ok_iff target pointer (ks : list string) :
  try_for_each (fun keyword =>
    if is_known_unsupported_keyword target keyword
    then Err (UnsupportedKeyword target (pointer_for pointer keyword) keyword)
    else Ok tt) ks = Ok tt
  <-> forall k, k ∈ ks -> is_known_unsupported_keyword target k = false.
Proof.
  rewrite try_for_each_ok, Forall_forall.
  split; intros H k Hk; specialize (H k Hk); cbn in *;
    by destruct (is_known_unsupported_keyword target k).
Qed.

Lemma walk_member_ok_iff target walk m pointer k sh v :
  assoc k m = Some v ->
  (forall s q, depth s < depth (Obj m) -> walk s q = Ok tt <-> conforms target s) ->
  walk_member walk m pointer (k, sh) = Ok tt <-> conforms_member target k sh v.
Proof.
  intros Ek IH. unfold walk_member; cbn [fst snd]. rewrite Ek.
  apply assoc_in, depth_obj in Ek. destruct sh.
  - cbn [walk_schema_map].
    destruct v as [| | | | |m'];
      try (split; [done|by inversion 1]). cbn [as_object].
    rewrite try_for_each_ok, Forall_forall. split.
    + intros HF. constructor. intros name s Hs. eapply IH; [|apply (HF (name, s) Hs)].
      apply depth_obj in Hs. lia.
    + inversion 1 as [? ? Hm| | |]; subst. intros [name s] Hs. apply IH; [|eauto].
      apply depth_obj in Hs. lia.
  - cbn [walk_schema_value].
    destruct (is_boolean v && String.eqb k "additionalProperties") eqn:Eb.
    + apply andb_prop in Eb as [Hb ->%String.eqb_eq]. destruct v; try done.
      split; [by constructor|done].
    + rewrite IH by lia. split; [by constructor|]. inversion 1; subst; [done|].
      by rewrite String.eqb_refl in Eb.
  - cbn [walk_schema_array].
    destruct v as [| | | |l|]; try (split; [done|by inversion 1]). cbn [as_array].
    rewrite try_for_each_ok, Forall_forall. split.
    + intros HF. constructor. intros s [i Hi]%list_elem_of_lookup.
      apply imap_pair_in in Hi as Hp. eapply IH; [|apply (HF (i, s) Hp)].
      apply list_elem_of_lookup_2, depth_arr in Hi. lia.
    + inversion 1 as [|? ? Hl| |]; subst. intros [i s] Hi%imap_pair_in%list_elem_of_lookup_2.
      apply IH; [|eauto]. apply depth_arr in Hi. lia.
Qed.

Lemma walk_schema_ok_iff target v pointer :
  walk_schema target v pointer = Ok tt <-> conforms target v.
Proof.
  remember (depth v) as n eqn:En. revert v pointer En.
  induction (lt_wf n) as [n _ IH]. intros v pointer ->.
  rewrite walk_schema_eq. destruct v as [| | | | |m]; try (split; [done|by inversion 1]).
  rewrite walk_schema_step_obj.
  pose proof (keywords_ok_iff target pointer m.*1) as Hk.
  destruct (try_for_each _ m.*1) as [[]|e].
  - rewrite try_for_each_ok, Forall_forall. split.
    + intros HF. constructor; [by apply Hk|]. intros k sh v Hin Ev.
      eapply walk_member_ok_iff; [done| |apply (HF (k, sh) Hin)].
      intros s q Hs. by eapply IH.
    + inversion 1 as [? Hu Hm]; subst. intros [k sh] Hin.
      destruct (assoc k m) as [v|] eqn:Ev.
      * eapply walk_member_ok_iff; [done| |by eapply Hm]. intros s q Hs. by eapply IH.
      * unfold walk_member; cbn [fst snd]. rewrite Ev. by destruct sh.
  - split; [done|]. inversion 1 as [? Hu Hm]; subst. by apply Hk in Hu.
Qed.

(** A schema is accepted for a target exactly when it conforms to the
    target's dialect: every schema reachable from the root through the
    schema-bearing keywords is an object, uses no keyword the target is known
    not to support, and stores its subschemas in containers of the right
    shape. *)
Theorem accepted_schemas_conform schema endpoint :
  validate_schema_for_target schema endpoint = Ok tt <-> conforms (suite endpoint) schema.
Proof. apply walk_schema_ok_iff. Qed.

(** ** JSON Pointers (RFC 6901) *)

Fixpoint unescape (s : string) : string :=
  match s with
  | String a r =>
      if Ascii.eqb a "~" then
        match r with
        | String b r' =>
            if Ascii.eqb b "1" then String "/" (unescape r')
            else if Ascii.eqb b "0" then String "~" (unescape r')
            else String a (unescape r)
        | EmptyString => String a ""
        end
      else String a (unescape r)
  | EmptyString => ""
  end.

Definition parse_pointer (p : string) : option (list string) :=
  match p with
  | EmptyString => Some []
  | String a r => if Ascii.eqb a "/" then Some (map unescape (split "/"%char r)) else None
  end.

Definition step_into (v : Value) (token : string) : option Value :=
  match v with
  | Obj m => assoc token m
  | Arr l => snd <$> List.find (fun ix => String.eqb (pretty ix.1) token) (imap pair l)
  | _ => None
  end.

Fixpoint resolve_tokens (tokens : list string) (v : Value) : option Value :=
  match tokens with
  | [] => Some v
  | t :: r => step_into v t ≫= resolve_tokens r
  end.

Definition resolve (p : string) (v : Value) : option Value :=
  parse_pointer p ≫= fun tokens => resolve_tokens tokens v.

Definition escape (token : string) : string :=
  replace_char "/"%char "~1" (replace_char "~"%char "~0" token).

Lemma str_app_two a b s : String a (String b "") +:+ s = String a (String b s).
Proof. done. Qed.

Lemma unescape_escape s : unescape (escape s) = s.
Proof.
  unfold escape. induction s as [|a s IH]; [done|]. cbn [replace_char].
  destruct (Ascii.eqb_spec a "~") as [->|Hn].
  - rewrite str_app_two. cbn. by rewrite IH.
  - cbn [replace_char]. destruct (Ascii.eqb_spec a "/") as [->|Hs].
    + rewrite str_app_two. cbn. by rewrite IH.
    + cbn [unescape]. destruct (Ascii.eqb_spec a "~"); [done|]. by rewrite IH.
Qed.

Lemma escape_no_slash s : contains_char "/" (escape s) = false.
Proof.
  unfold escape. induction s as [|a s IH]; [done|]. cbn [replace_char].
  destruct (Ascii.eqb_spec a "~") as [->|Hn]; [by rewrite str_app_two|].
  cbn [replace_char]. destruct (Ascii.eqb_spec a "/") as [->|Hs]; [by rewrite str_app_two|].
  cbn [contains_char]. by destruct (Ascii.eqb_spec a "/").
Qed.

Lemma split_no_sep c s : contains_char c s = false -> split c s = [s].
Proof.
  induction s as [|a s IH]; cbn; [done|]. intros [Ha Hs]%orb_false_elim.
  by rewrite Ha, IH.
Qed.

Lemma split_snoc c s t :
  contains_char c t = false -> split c (s +:+ String c t) = split c s ++ [t].
Proof.
  intros Ht. induction s as [|a s IH].
  - change ("" +:+ String c t) with (String c t). cbn. rewrite Ascii.eqb_refl. cbn.
    by rewrite split_no_sep.
  - rewrite str_app_cons. cbn. rewrite IH. destruct (Ascii.eqb a c); [done|].
    destruct (split c s) as [|w r] eqn:E; [|done].
    exfalso. revert E. destruct s as [|b s]; cbn; [done|].
    destruct (Ascii.eqb b c); [done|]. by destruct (split c s).
Qed.

Lemma parse_pointer_for p ts t :
  parse_pointer p = Some ts -> parse_pointer (pointer_for p t) = Some (ts ++ [t]).
Proof.
  unfold pointer_for. fold (escape t). destruct p as [|a p].
  - intros [= <-]. change ("" +:+ "/" +:+ escape t) with (String "/" (escape t)).
    cbn [parse_pointer Ascii.eqb]. rewrite split_no_sep by apply escape_no_slash. cbn.
    by rewrite unescape_escape.
  - rewrite str_app_cons. cbn. destruct (Ascii.eqb a "/"); [|done]. intros [= <-].
    change ("/" +:+ escape t) with (String "/" (escape t)).
    rewrite split_snoc, map_app by apply escape_no_slash. cbn. by rewrite unescape_escape.
Qed.

Lemma resolve_tokens_snoc ts t v :
  resolve_tokens (ts ++ [t]) v = resolve_tokens ts v ≫= fun w => step_into w t.
Proof.
  revert v. induction ts as [|t' r IH]; intros v; cbn.
  - by destruct (step_into v t).
  - destruct (step_into v t') as [w|]; cbn; [apply IH|done].
Qed.

Lemma resolve_for p t root v w :
  resolve p root = Some v -> step_into v t = Some w -> resolve (pointer_for p t) root = Some w.
Proof.
  unfold resolve. destruct (parse_pointer p) as [ts|] eqn:E; [|done]. cbn. intros Hv Hw.
  rewrite (parse_pointer_for p ts t E). cbn. by rewrite resolve_tokens_snoc, Hv.
Qed.

(** ** Where the errors point *)

Lemma in_assoc {A} k (v : A) m : keys_sorted m = true -> (k, v) ∈ m -> assoc k m = Some v.
Proof.
  induction m as [|[k' v'] r IH]; intros Hs; [by intros ?%not_elem_of_nil|].
  apply keys_sorted_cons in Hs as Hk. destruct Hk as [Hr Hlt].
  intros [[= <- <-]|Hin]%elem_of_cons; cbn; [by rewrite String.eqb_refl|].
  destruct (String.eqb_spec k k') as [->|]; [|by apply IH].
  specialize (IH Hr Hin). assert (assoc k' r <> None) as H by by rewrite IH.
  apply Hlt in H. by rewrite compare_refl in H.
Qed.

Lemma wf_obj_member m k v : wf (Obj m) = true -> (k, v) ∈ m -> wf v = true /\ assoc k m = Some v.
Proof.
  intros [Hs Hf]%andb_prop Hin. split; [|by apply in_assoc].
  rewrite forallb_forall in Hf. apply (Hf (k, v)). by apply list_elem_of_In.
Qed.

Lemma wf_arr_member l i v :
  wf (Arr l) = true -> l !! i = Some v -> wf v = true /\ step_into (Arr l) (pretty i) = Some v.
Proof.
  intros Hf Hi. split.
  { cbn in Hf. rewrite forallb_forall in Hf. apply Hf.
    apply list_elem_of_In. by eapply list_elem_of_lookup_2. }
  cbn. destruct (List.find _ (imap pair l)) as [[j w]|] eqn:E.
  - apply List.find_some in E as [Hin Hj]. cbn in Hj.
    apply String.eqb_eq in Hj. apply (inj pretty) in Hj as ->.
    apply list_elem_of_In in Hin. apply imap_pair_in in Hin. cbn. congruence.
  - exfalso. apply imap_pair_in in Hi. apply list_elem_of_In in Hi.
    apply (List.find_none _ _ E) in Hi. cbn in Hi. by rewrite String.eqb_refl in Hi.
Qed.

(** [error_at target root e]: [e] describes [root] and its pointer leads to
    the offending part. *)
Definition error_at (target : ProtocolSuite) (root : Value) (e : StructuredOutputError) : Prop :=
  match e with
  | SchemaMustBeObject q =>
      (q = "/" /\ as_object root = None)
      \/ (exists v, resolve q root = Some v /\ as_object v = None)
  | UnsupportedKeyword t q k =>
      t = target /\ is_known_unsupported_keyword target k = true
      /\ exists parent v, q = pointer_for parent k /\ resolve q root = Some v
  | InvalidSchemaContainer q expected =>
      exists v, resolve q root = Some v
        /\ ((expected = "an object containing schemas" /\ as_object v = None)
            \/ (expected = "an array of schemas" /\ as_array v = None))
  end.

Lemma walk_member_error target walk m pointer ks root e :
  wf (Obj m) = true -> resolve pointer root = Some (Obj m) ->
  (forall v q, depth v < depth (Obj m) -> wf v = true -> resolve q root = Some v ->
     walk v q = Err e -> error_at target root e) ->
  walk_member walk m pointer ks = Err e -> error_at target root e.
Proof.
  intros Hwf Hp Hw. destruct ks as [k sh]. unfold walk_member; cbn [fst snd].
  destruct (assoc k m) as [v|] eqn:Ek; [|by destruct sh].
  pose proof (resolve_for pointer k root _ v Hp Ek) as Hq.
  apply assoc_in in Ek. pose proof (depth_obj _ _ _ Ek) as Hd.
  apply wf_obj_member in Ek as [Hv _]; [|done].
  destruct sh; cbn [walk_schema_map walk_schema_value walk_schema_array].
  - destruct (as_object v) as [m'|] eqn:Em; [|intros [= <-]; exists v; auto].
    destruct v; try done. injection Em as ->.
    intros (l1 & [name s] & l2 & -> & _ & Hs)%try_for_each_err.
    assert ((name, s) ∈ l1 ++ (name, s) :: l2) as Hin by set_solver.
    pose proof (depth_obj _ _ _ Hin). apply wf_obj_member in Hin as [Hws Ha]; [|done].
    eapply Hw; [| |by eapply resolve_for|exact Hs]; [lia|done].
  - destruct (is_boolean v && _); [done|]. intros Hs. by eapply Hw.
  - destruct (as_array v) as [l|] eqn:El; [|intros [= <-]; exists v; auto].
    destruct v; try done. injection El as ->.
    intros (l1 & [i s] & l2 & Hl & _ & Hs)%try_for_each_err.
    assert ((i, s) ∈ imap pair l) as Hin%imap_pair_in by (rewrite Hl; set_solver).
    pose proof (depth_arr _ _ (list_elem_of_lookup_2 _ _ _ Hin)).
    apply wf_arr_member in Hin as [Hws Ha]; [|done].
    eapply Hw; [| |by eapply resolve_for|exact Hs]; [lia|done].
Qed.

Lemma walk_schema_error target v pointer root e :
  wf v = true -> resolve pointer root = Some v ->
  walk_schema target v pointer = Err e -> error_at target root e.
Proof.
  remember (depth v) as n eqn:En. revert v pointer En.
  induction (lt_wf n) as [n _ IH]. intros v pointer -> Hwf Hp.
  rewrite walk_schema_eq. destruct (as_object v) as [m|] eqn:Em.
  - destruct v; try done. injection Em as ->. rewrite walk_schema_step_obj.
    destruct (try_for_each _ m.*1) as [[]|e'] eqn:Ek.
    + intros (l1 & ks & l2 & _ & _ & Hk)%try_for_each_err.
      eapply walk_member_error; [done..| |exact Hk]. intros v q Hd Hv Hq. by eapply IH.
    + intros [= ->]. apply try_for_each_err in Ek as (l1 & k & l2 & Hm & _ & Hk).
      destruct (is_known_unsupported_keyword target k) eqn:Hu; [|done].
      injection Hk as <-. cbn. split_and!; [done..|].
      assert (k ∈ m.*1) as [[k' w] [-> Hin]]%list_elem_of_fmap by (rewrite Hm; set_solver).
      exists pointer, w. split; [done|]. apply wf_obj_member in Hin as [_ Ha]; [|done].
      by eapply resolve_for.
  - unfold walk_schema_step. rewrite Em. intros [= <-]. cbn. unfold display_pointer.
    destruct pointer as [|a p]; cbn [is_empty]; [|by right; eauto].
    left. injection Hp as ->. done.
Qed.

(** The diagnostic of a rejected schema is accurate: the JSON Pointer of
    the error, read back by the rules of RFC 6901 in the schema the client
    sent, leads to an unsupported keyword of the target, to a container of the
    wrong shape, or to the non-object that stands where a schema belongs; only
    a root that is not an object is shown as ["/"]. *)
Theorem schema_error_points_at_cause schema endpoint e :
  wf schema = true ->
  validate_schema_for_target schema endpoint = Err e -> error_at (suite endpoint) schema e.
Proof. intros Hwf. by apply walk_schema_error. Qed.

(** A schema with a nested unsupported keyword under an escaped name. *)
Definition sample_schema : Value :=
  Obj [("properties", Obj [("a/b", Obj [("items", Obj [("minimum", Num (PosInt 1))])])]);
       ("type", Str "object")].

Lemma schema_error_points_at_cause_witness :
  let e := UnsupportedKeyword AnthropicMessages "/properties/a~1b/items/minimum" "minimum" in
  validate_schema_for_target sample_schema (ProtocolSuite.default_endpoint AnthropicMessages)
    = Err e
  /\ error_at AnthropicMessages sample_schema e.
Proof.
  split; [by vm_compute|].
  apply (schema_error_points_at_cause sample_schema
           (ProtocolSuite.default_endpoint AnthropicMessages)); by vm_compute.
Defined.
