(* ===== verification/Lossy.v ===== *)
(** * Lossy: rejection of lossy protocol conversions

    [crates/core/src/protocol/lossy.rs]: the check that a request can be
    expressed on the egress protocol, and the gate in front of the encoders
    ([encode_cross_protocol] of [crates/server/src/ingress/executors.rs]) with
    the capability tables the four chat codecs declare. *)

From stdpp Require Import base option list gmap sets strings.
From Stdlib Require Import ZArith Lia Ascii.
From S2P Require Import Prelude RustStr F64 Json Telemetry Protocol Classify Errors Ir StructuredOutput.

Local Open Scope string_scope.
Local Open Scope list_scope.

Inductive LossyDimension :=
| ToolCalling
| ParallelToolCalls
| ToolChoiceRequired
| ToolChoiceSpecific
| MediaSourceUnsupported
| StructuredOutput
| HostedTools
| CustomTools
| ProgrammaticToolCalling
| DVerbosity
| DPromptCacheBreakpoint
| ExtendedReasoning
| MultiAgent.

#[export] Instance LossyDimension_eq_dec : EqDecision LossyDimension.
Proof. solve_decision. Defined.

Module LossyDimension.
Definition label (d : LossyDimension) : string :=
  match d with
  | ToolCalling => "tool_calling"
  | ParallelToolCalls => "parallel_tool_calls"
  | ToolChoiceRequired => "tool_choice=required"
  | ToolChoiceSpecific => "tool_choice=specific_function"
  | MediaSourceUnsupported => "media_source"
  | StructuredOutput => "response_format (structured output)"
  | HostedTools => "hosted_tools"
  | CustomTools => "custom_tools"
  | ProgrammaticToolCalling => "programmatic_tool_calling"
  | DVerbosity => "verbosity"
  | DPromptCacheBreakpoint => "prompt_cache_breakpoint"
  | ExtendedReasoning => "extended_reasoning"
  | MultiAgent => "multi_agent"
  end.
End LossyDimension.

Definition lossy_error (dim : LossyDimension) (egress : ProtocolEndpoint) (hint : string)
    : Error :=
  ELossyRejection
    (LossyDimension.label dim +:+ " not supported by target protocol "
     +:+ ProtocolSuite.label (suite egress) +:+ " (egress=" +:+ pe_name egress +:+ "/"
     +:+ pe_version egress +:+ ", hint: " +:+ hint +:+ ")").

Definition media_kind (source : MediaSource) : string :=
  match source with
  | Inline _ => "inline"
  | Url _ => "url"
  | FileId _ => "file_id"
  end.

Definition media_source_dimension (source : MediaSource) (egress : ProtocolEndpoint)
    (caps : EndpointCapabilities) : option LossyDimension :=
  if negb (multimodal caps) then Some MediaSourceUnsupported
  else match source, suite egress with
       | Inline _, _ => None
       | Url _, AnthropicMessages => Some MediaSourceUnsupported
       | Url _, _ => None
       | FileId _, OpenAiResponses => None
       | FileId _, _ => Some MediaSourceUnsupported
       end.

(** ** What a request contains *)

Definition contents (r : IrRequest) : list Content := messages r ≫= content.

Definition has_required_choice (r : IrRequest) : bool :=
  match extensions r !! "tool_choice" ≫= as_str with
  | Some s => String.eqb s "required"
  | None => false
  end.

Definition has_specific_choice (r : IrRequest) : bool :=
  match (extensions r !! "tool_choice" ≫= get "type") ≫= as_str with
  | Some s => String.eqb s "function"
  | None => false
  end.

Definition is_constrained (f : option ResponseFormat) : bool :=
  match f with None | Some TextFormat => false | Some _ => true end.

Definition is_programmatic (c : Content) : bool :=
  match c with
  | CProgram _ _ _ _ | CProgramOutput _ _ _ _
  | CToolCall _ _ _ _ (Some _) _ | CToolResult _ _ _ _ (Some _) _ => true
  | _ => false
  end.

Definition uses_programmatic_callers (t : Tool) : bool :=
  Tool.is_function t
  && match tool_config t ≫= get "allowed_callers" with Some _ => true | None => false end.

Definition has_cache_breakpoint (c : Content) : bool :=
  match c with
  | CText _ _ (Some _) | CMedia _ _ _ (Some _) => true
  | _ => false
  end.

Definition is_reasoning (c : Content) : bool :=
  match c with CReasoning _ _ _ _ => true | _ => false end.

Definition has_responses_reasoning_controls (r : IrRequest) : bool :=
  match thinking (params r) with
  | Some th => bool_decide (is_Some (th_mode th)) || bool_decide (is_Some (th_context th))
  | None => false
  end.

Definition has_multi_agent_config (r : IrRequest) : bool :=
  match extensions r !! "responses_extra" ≫= get "multi_agent" with
  | Some _ => true
  | None => false
  end.

Definition has_multi_agent_items (r : IrRequest) : bool :=
  match extensions r !! "multi_agent_items" ≫= as_array with
  | Some (_ :: _) => true
  | _ => false
  end.

Definition openai_egress (egress : ProtocolEndpoint) : bool :=
  match suite egress with OpenAiCompatible | OpenAiResponses => true | _ => false end.

Definition responses_egress (egress : ProtocolEndpoint) : bool :=
  bool_decide (suite egress = OpenAiResponses).

(** ** The check *)

Section Check.
Context (request : IrRequest) (egress : ProtocolEndpoint) (egress_caps : EndpointCapabilities).

Abbreviation verdict := (result (LossyDimension * Error) unit).

Definition reject_if (b : bool) (dim : LossyDimension) (hint : string) : verdict :=
  if b then Err (dim, lossy_error dim egress hint) else Ok tt.

Definition check_media : verdict :=
  try_for_each (fun msg =>
    try_for_each (fun c =>
      match c with
      | CMedia source _ _ _ =>
          match media_source_dimension source egress egress_caps with
          | Some dim =>
              Err (dim, lossy_error dim egress
                          ("media part with kind " +:+ debug_str (media_kind source)))
          | None => Ok tt
          end
      | _ => Ok tt
      end) (content msg)) (messages request).

Definition check_schema : verdict :=
  match validate_response_format_for_target (response_format request) egress with
  | Err error =>
      Err (StructuredOutput, lossy_error StructuredOutput egress (schema_error_to_string error))
  | Ok _ => Ok tt
  end.

Definition check_lossy_conversion : verdict :=
  reject_if (negb (bool_decide (tools request = [])) && negb (function_calling egress_caps))
    ToolCalling "tools" ;;
  reject_if (existsb tool_required (tools request) && negb (parallel_tool_calls egress_caps))
    ParallelToolCalls "tools marked required (parallel_tool_calls)" ;;
  reject_if (has_required_choice request && negb (tool_choice_required egress_caps))
    ToolChoiceRequired "tool_choice=required" ;;
  reject_if (has_specific_choice request && negb (tool_choice_required egress_caps))
    ToolChoiceSpecific "tool_choice={type:function,name:...}" ;;
  check_media ;;
  reject_if (is_constrained (response_format request) && negb (structured_output egress_caps))
    StructuredOutput "response_format (json_schema/json_object)" ;;
  check_schema ;;
  reject_if (existsb Tool.is_hosted (tools request) && negb (hosted_tools egress_caps))
    HostedTools "non-function hosted tool definition" ;;
  reject_if (existsb Tool.is_custom (tools request) && negb (openai_egress egress))
    CustomTools "custom tool definition (OpenAI-only)" ;;
  reject_if ((existsb is_programmatic (contents request)
              || existsb uses_programmatic_callers (tools request))
             && negb (programmatic_tool_calling egress_caps))
    ProgrammaticToolCalling "program/program_output/caller relationship" ;;
  reject_if (bool_decide (is_Some (verbosity (params request))) && negb (openai_egress egress))
    DVerbosity "text verbosity" ;;
  reject_if (existsb has_cache_breakpoint (contents request) && negb (openai_egress egress))
    DPromptCacheBreakpoint "explicit content-block cache breakpoint" ;;
  reject_if (existsb is_reasoning (contents request) && negb (extended_reasoning egress_caps))
    ExtendedReasoning "reasoning content" ;;
  reject_if (has_responses_reasoning_controls request && negb (responses_egress egress))
    ExtendedReasoning "Responses-only reasoning.mode or reasoning.context" ;;
  reject_if ((has_multi_agent_config request || has_multi_agent_items request)
             && negb (responses_egress egress))
    MultiAgent "multi_agent config or multi_agent_call items (Responses-only)".
End Check.

(** ** The capability tables and the gate in front of the encoders *)

Definition sse_caps (flag : bool) : StreamCaps :=
  {| server_sent_events := true; usage_in_stream := true; requires_stream_flag := flag |}.

Definition ChatCompletionsCodec_capabilities : EndpointCapabilities := {|
  streaming := true; cap_tools := true; cap_reasoning := true; embeddings := false;
  force_upstream_stream := false; override_model_in_body := false;
  ingress_routes := [("POST", "/v1/chat/completions")];
  multimodal := true; structured_output := true; function_calling := true;
  parallel_tool_calls := true; hosted_tools := false; programmatic_tool_calling := false;
  extended_reasoning := false; deterministic_seed := true; tool_choice_required := true;
  cap_stream := sse_caps true; unknown_field_policy := DropUnknown;
  lossy_default_reject := true |}.

Definition MessagesCodec_capabilities : EndpointCapabilities := {|
  streaming := true; cap_tools := true; cap_reasoning := true; embeddings := false;
  force_upstream_stream := false; override_model_in_body := false;
  ingress_routes := [("POST", "/v1/messages")];
  multimodal := true; structured_output := true; function_calling := true;
  parallel_tool_calls := false; hosted_tools := false; programmatic_tool_calling := false;
  extended_reasoning := true; deterministic_seed := false; tool_choice_required := true;
  cap_stream := sse_caps true; unknown_field_policy := DropUnknown;
  lossy_default_reject := true |}.

Definition ResponsesCodec_capabilities : EndpointCapabilities := {|
  streaming := true; cap_tools := true; cap_reasoning := true; embeddings := false;
  force_upstream_stream := false; override_model_in_body := false;
  ingress_routes := [("POST", "/v1/responses")];
  multimodal := true; structured_output := true; function_calling := true;
  parallel_tool_calls := true; hosted_tools := true; programmatic_tool_calling := true;
  extended_reasoning := true; deterministic_seed := false; tool_choice_required := true;
  cap_stream := sse_caps true; unknown_field_policy := DropUnknown;
  lossy_default_reject := true |}.

Definition GeminiCodec_capabilities : EndpointCapabilities := {|
  streaming := true; cap_tools := true; cap_reasoning := true; embeddings := false;
  force_upstream_stream := false; override_model_in_body := false;
  ingress_routes := [("POST", "/v1beta/models/{model}:generateContent")];
  multimodal := true; structured_output := true; function_calling := true;
  parallel_tool_calls := false; hosted_tools := false; programmatic_tool_calling := false;
  extended_reasoning := true; deterministic_seed := false; tool_choice_required := true;
  cap_stream := sse_caps false; unknown_field_policy := DropUnknown;
  lossy_default_reject := true |}.

(** The capabilities of the codec that [get_egress_codec] picks for a suite. *)
Definition codec_capabilities (s : ProtocolSuite) : EndpointCapabilities :=
  match s with
  | OpenAiCompatible => ChatCompletionsCodec_capabilities
  | AnthropicMessages => MessagesCodec_capabilities
  | GoogleGemini => GeminiCodec_capabilities
  | OpenAiResponses => ResponsesCodec_capabilities
  end.

(** [encode_cross_protocol], for any encoder of the egress codec. *)
Definition encode_cross_protocol {Wire} (encode_request : ProtocolSuite -> IrRequest -> result Error Wire)
    (ingress_suite : ProtocolSuite) (egress_protocol : ProtocolEndpoint) (ir_request : IrRequest)
    : result AppError Wire :=
  let egress_caps := codec_capabilities (suite egress_protocol) in
  let encoded :=
    match encode_request (suite egress_protocol) ir_request with
    | Ok w => Ok w
    | Err e => Err (AppError.new 500 ("Encode error: " +:+ error_to_string e))
    end in
  if lossy_default_reject (codec_capabilities ingress_suite) || lossy_default_reject egress_caps
  then match check_lossy_conversion ir_request egress_protocol egress_caps with
       | Err (dim, err) =>
           Err (AppError.new 400 ("Lossy conversion rejected: " +:+ error_to_string err
                                  +:+ " (dimension: " +:+ LossyDimension.label dim +:+ ")"))
       | Ok _ => encoded
       end
  else encoded.

(** ** What it means to lose something *)

(** [carries egress caps source]: the egress protocol has a carrier for a
    media source of this kind. *)
Definition carries (egress : ProtocolEndpoint) (caps : EndpointCapabilities)
    (source : MediaSource) : Prop :=
  multimodal caps = true
  /\ match source with
     | Inline _ => True
     | Url _ => suite egress <> AnthropicMessages
     | FileId _ => suite egress = OpenAiResponses
     end.

Definition is_openai (s : ProtocolSuite) : Prop := s = OpenAiCompatible \/ s = OpenAiResponses.

(** [appears P r]: some content block of some message satisfies [P]. *)
Definition appears (P : Content -> Prop) (r : IrRequest) : Prop :=
  exists msg c, msg ∈ messages r /\ c ∈ content msg /\ P c.

(** [loses r e caps d]: converting [r] to [e] would lose dimension [d]. *)
Definition loses (r : IrRequest) (e : ProtocolEndpoint) (caps : EndpointCapabilities)
    (d : LossyDimension) : Prop :=
  match d with
  | ToolCalling => tools r <> [] /\ function_calling caps = false
  | ParallelToolCalls =>
      (exists t, t ∈ tools r /\ tool_required t = true) /\ parallel_tool_calls caps = false
  | ToolChoiceRequired =>
      extensions r !! "tool_choice" = Some (Str "required") /\ tool_choice_required caps = false
  | ToolChoiceSpecific =>
      (exists m, extensions r !! "tool_choice" = Some (Obj m)
                 /\ assoc "type" m = Some (Str "function"))
      /\ tool_choice_required caps = false
  | MediaSourceUnsupported =>
      appears (fun c => match c with
                        | CMedia source _ _ _ => ~ carries e caps source
                        | _ => False
                        end) r
  | StructuredOutput =>
      match response_format r with
      | Some (JsonSchema _ schema _) =>
          structured_output caps = false \/ ~ conforms (suite e) schema
      | Some JsonObject => structured_output caps = false
      | _ => False
      end
  | HostedTools =>
      (exists t, t ∈ tools r /\ Tool.is_hosted t = true) /\ hosted_tools caps = false
  | CustomTools =>
      (exists t, t ∈ tools r /\ tool_type t = Some "custom") /\ ~ is_openai (suite e)
  | ProgrammaticToolCalling =>
      (appears (fun c => is_programmatic c = true) r
       \/ exists t config v, t ∈ tools r /\ Tool.is_function t = true
            /\ tool_config t = Some (Obj config) /\ assoc "allowed_callers" config = Some v)
      /\ programmatic_tool_calling caps = false
  | DVerbosity => is_Some (verbosity (params r)) /\ ~ is_openai (suite e)
  | DPromptCacheBreakpoint =>
      appears (fun c => has_cache_breakpoint c = true) r /\ ~ is_openai (suite e)
  | ExtendedReasoning =>
      (appears (fun c => is_reasoning c = true) r /\ extended_reasoning caps = false)
      \/ (exists th, thinking (params r) = Some th /\ (is_Some (th_mode th) \/ is_Some (th_context th)))
         /\ suite e <> OpenAiResponses
  | MultiAgent =>
      ((exists m v, extensions r !! "responses_extra" = Some (Obj m)
                    /\ assoc "multi_agent" m = Some v)
       \/ (exists x l, extensions r !! "multi_agent_items" = Some (Arr (x :: l))))
      /\ suite e <> OpenAiResponses
  end.

(** The dimensions in the order of the check. *)
Definition all_dimensions : list LossyDimension :=
  [ToolCalling; ParallelToolCalls; ToolChoiceRequired; ToolChoiceSpecific;
   MediaSourceUnsupported; StructuredOutput; HostedTools; CustomTools;
   ProgrammaticToolCalling; DVerbosity; DPromptCacheBreakpoint; ExtendedReasoning; MultiAgent].

Lemma all_dimensions_in d : d ∈ all_dimensions.
Proof. destruct d; unfold all_dimensions; repeat (first [by left | right]). Qed.

Section CheckSpec.
Context (r : IrRequest) (e : ProtocolEndpoint) (caps : EndpointCapabilities).

(** The part of the check about one dimension. *)
Definition check_dimension (d : LossyDimension) : result (LossyDimension * Error) unit :=
  match d with
  | ToolCalling =>
      reject_if e (negb (bool_decide (tools r = [])) && negb (function_calling caps)) d "tools"
  | ParallelToolCalls =>
      reject_if e (existsb tool_required (tools r) && negb (parallel_tool_calls caps)) d
        "tools marked required (parallel_tool_calls)"
  | ToolChoiceRequired =>
      reject_if e (has_required_choice r && negb (tool_choice_required caps)) d
        "tool_choice=required"
  | ToolChoiceSpecific =>
      reject_if e (has_specific_choice r && negb (tool_choice_required caps)) d
        "tool_choice={type:function,name:...}"
  | MediaSourceUnsupported => check_media r e caps
  | StructuredOutput =>
      match reject_if e (is_constrained (response_format r) && negb (structured_output caps)) d
              "response_format (json_schema/json_object)" with
      | Ok _ => check_schema r e
      | Err x => Err x
      end
  | HostedTools =>
      reject_if e (existsb Tool.is_hosted (tools r) && negb (hosted_tools caps)) d
        "non-function hosted tool definition"
  | CustomTools =>
      reject_if e (existsb Tool.is_custom (tools r) && negb (openai_egress e)) d
        "custom tool definition (OpenAI-only)"
  | ProgrammaticToolCalling =>
      reject_if e ((existsb is_programmatic (contents r)
                    || existsb uses_programmatic_callers (tools r))
                   && negb (programmatic_tool_calling caps)) d
        "program/program_output/caller relationship"
  | DVerbosity =>
      reject_if e (bool_decide (is_Some (verbosity (params r))) && negb (openai_egress e)) d
        "text verbosity"
  | DPromptCacheBreakpoint =>
      reject_if e (existsb has_cache_breakpoint (contents r) && negb (openai_egress e)) d
        "explicit content-block cache breakpoint"
  | ExtendedReasoning =>
      match reject_if e (existsb is_reasoning (contents r) && negb (extended_reasoning caps)) d
              "reasoning content" with
      | Ok _ => reject_if e (has_responses_reasoning_controls r && negb (responses_egress e)) d
                  "Responses-only reasoning.mode or reasoning.context"
      | Err x => Err x
      end
  | MultiAgent =>
      reject_if e ((has_multi_agent_config r || has_multi_agent_items r)
                   && negb (responses_egress e)) d
        "multi_agent config or multi_agent_call items (Responses-only)"
  end.

Lemma check_by_dimension :
  check_lossy_conversion r e caps = try_for_each check_dimension all_dimensions.
Proof.
  unfold check_lossy_conversion, mbind, result_bind, all_dimensions.
  cbn [try_for_each check_dimension].
  repeat match goal with
  | |- context [match ?x with Ok _ => _ | Err _ => _ end] =>
      lazymatch x with context [match _ with Ok _ => _ | Err _ => _ end] => fail | _ => idtac end;
      destruct x as [[]|] eqn:?; [|reflexivity]
  end.
  reflexivity.
Qed.

(** [decides d v P]: the verdict [v] accepts when [P] is false and rejects
    for the dimension [d] when [P] holds. *)
Definition decides (d : LossyDimension) (v : result (LossyDimension * Error) unit) (P : Prop)
    : Prop :=
  (v = Ok tt /\ ~ P) \/ (exists hint, v = Err (d, lossy_error d e hint)) /\ P.

Lemma reject_if_decides b d h (P : Prop) :
  (b = true <-> P) -> decides d (reject_if e b d h) P.
Proof. unfold decides, reject_if. destruct b; naive_solver. Qed.

(** Two checks of one dimension in sequence. *)
Lemma decides_seq d v w (P Q : Prop) :
  decides d v P -> decides d w Q ->
  decides d (match v with Ok _ => w | Err x => Err x end) (P \/ Q).
Proof. unfold decides. intros [[-> ?]|[[h ->] ?]]; [|eauto]. intros [[-> ?]|[[h ->] ?]]; naive_solver. Qed.

Lemma decides_iff d v (P Q : Prop) : (P <-> Q) -> decides d v P -> decides d v Q.
Proof. unfold decides. tauto. Qed.

Lemma existsb_iff {A} (f : A -> bool) l : existsb f l = true <-> exists x, x ∈ l /\ f x = true.
Proof. rewrite existsb_exists. by setoid_rewrite list_elem_of_In. Qed.

Lemma contents_appears (f : Content -> bool) :
  existsb f (contents r) = true <-> appears (fun c => f c = true) r.
Proof.
  rewrite existsb_iff. unfold contents, appears. setoid_rewrite list_elem_of_bind.
  naive_solver.
Qed.

Lemma and_true_iff b1 b2 P Q :
  (b1 = true <-> P) -> (b2 = false <-> Q) -> b1 && negb b2 = true <-> P /\ Q.
Proof. destruct b1, b2; cbn; intuition congruence. Qed.

Lemma openai_egress_iff : openai_egress e = false <-> ~ is_openai (suite e).
Proof. unfold openai_egress, is_openai. destruct (suite e); naive_solver. Qed.

Lemma responses_egress_iff : responses_egress e = false <-> suite e <> OpenAiResponses.
Proof. unfold responses_egress. apply bool_decide_eq_false. Qed.

Lemma media_dimension_none source :
  media_source_dimension source e caps = None <-> carries e caps source.
Proof.
  unfold media_source_dimension, carries.
  destruct (multimodal caps), source, (suite e); cbn; naive_solver.
Qed.

Lemma media_dimension_some source d :
  media_source_dimension source e caps = Some d -> d = MediaSourceUnsupported.
Proof.
  unfold media_source_dimension. destruct (multimodal caps), source, (suite e); cbn; congruence.
Qed.

Lemma check_media_decides :
  decides MediaSourceUnsupported (check_media r e caps) (loses r e caps MediaSourceUnsupported).
Proof.
  unfold decides, loses, appears. destruct (check_media r e caps) as [[]|x] eqn:E.
  - left. split; [done|]. intros (msg & c & Hin & Hc & Hl). unfold check_media in E.
    rewrite try_for_each_ok, Forall_forall in E. specialize (E msg Hin). cbn in E.
    rewrite try_for_each_ok, Forall_forall in E. specialize (E c Hc). cbn in E.
    destruct c; try done. destruct (media_source_dimension _ _ _) eqn:Ed; [done|].
    by apply media_dimension_none in Ed.
  - right. apply try_for_each_err in E as (l1 & msg & l2 & Hm & _ & E).
    apply try_for_each_err in E as (k1 & c & k2 & Hc & _ & E).
    destruct c as [| | | | | | |source mime meta bp]; try done.
    destruct (media_source_dimension _ _ _) eqn:Ed; [|done].
    apply media_dimension_some in Ed as Hd. subst. injection E as <-. split; [by eauto|].
    exists msg, (CMedia source mime meta bp). rewrite Hm, Hc. split_and!; [set_solver..|].
    intros Hcar%media_dimension_none. congruence.
Qed.

Lemma check_schema_decides :
  decides StructuredOutput (check_schema r e)
    match response_format r with
    | Some (JsonSchema _ schema _) => ~ conforms (suite e) schema
    | _ => False
    end.
Proof.
  unfold check_schema, validate_response_format_for_target, validate_schema_for_target, decides.
  destruct (response_format r) as [[name schema strict| |]|]; [|by left; auto..].
  rewrite <- (walk_schema_ok_iff _ _ ""). destruct (walk_schema _ _ _) as [[]|].
  - left. tauto.
  - right. by eauto.
Qed.

Lemma required_choice_iff :
  has_required_choice r = true <-> extensions r !! "tool_choice" = Some (Str "required").
Proof.
  unfold has_required_choice. destruct (extensions r !! "tool_choice") as [[]|]; cbn;
    rewrite ?String.eqb_eq; naive_solver.
Qed.

Lemma specific_choice_iff :
  has_specific_choice r = true <->
  exists m, extensions r !! "tool_choice" = Some (Obj m) /\ assoc "type" m = Some (Str "function").
Proof.
  unfold has_specific_choice. destruct (extensions r !! "tool_choice") as [v|]; cbn.
  - destruct v as [| | | | |m]; cbn; try (split; [done|by intros (? & ? & ?)]).
    destruct (assoc "type" m) as [w|] eqn:E; cbn.
    + destruct (as_str w) as [s|] eqn:Ew; [destruct w; try done; injection Ew as ->|].
      * rewrite String.eqb_eq. split; [intros ->; eauto|]. intros (? & [= <-] & ?). congruence.
      * split; [done|]. intros (? & [= <-] & Ha). rewrite E in Ha. by injection Ha as ->.
    + split; [done|]. intros (? & [= <-] & ?). congruence.
  - split; [done|by intros (? & ? & ?)].
Qed.

Lemma custom_iff t : Tool.is_custom t = true <-> tool_type t = Some "custom".
Proof. unfold Tool.is_custom. destruct (tool_type t); rewrite ?String.eqb_eq; naive_solver. Qed.

Lemma programmatic_callers_iff t :
  uses_programmatic_callers t = true <->
  exists config v, Tool.is_function t = true /\ tool_config t = Some (Obj config)
                   /\ assoc "allowed_callers" config = Some v.
Proof.
  unfold uses_programmatic_callers. rewrite andb_true_iff. split.
  - intros [Hf Hc]. destruct (tool_config t) as [v|]; [|done]. cbn in Hc.
    destruct v as [| | | | |m]; try done. cbn in Hc.
    destruct (assoc "allowed_callers" m) as [w|] eqn:E; [|done]. eauto.
  - intros (m & v & Hf & -> & Hv). split; [done|]. cbn. by rewrite Hv.
Qed.

Lemma reasoning_controls_iff :
  has_responses_reasoning_controls r = true <->
  exists th, thinking (params r) = Some th /\ (is_Some (th_mode th) \/ is_Some (th_context th)).
Proof.
  unfold has_responses_reasoning_controls. destruct (thinking (params r)) as [th|]; [|naive_solver].
  rewrite orb_true_iff, !bool_decide_eq_true. naive_solver.
Qed.

Lemma multi_agent_iff :
  has_multi_agent_config r || has_multi_agent_items r = true <->
  (exists m v, extensions r !! "responses_extra" = Some (Obj m) /\ assoc "multi_agent" m = Some v)
  \/ (exists x l, extensions r !! "multi_agent_items" = Some (Arr (x :: l))).
Proof.
  rewrite orb_true_iff. apply Morphisms_Prop.or_iff_morphism.
  - unfold has_multi_agent_config.
    destruct (extensions r !! "responses_extra") as [[| | | | |m]|]; cbn; try naive_solver.
    destruct (assoc "multi_agent" m) eqn:E; naive_solver.
  - unfold has_multi_agent_items.
    destruct (extensions r !! "multi_agent_items") as [[| | | |[|x l]|]|]; cbn; naive_solver.
Qed.

Lemma check_dimension_decides d : decides d (check_dimension d) (loses r e caps d).
Proof.
  destruct d; cbn [check_dimension loses];
    try apply reject_if_decides, and_true_iff;
    rewrite ?orb_true_iff, ?contents_appears, ?existsb_iff, ?bool_decide_eq_true;
    try first [exact openai_egress_iff | exact responses_egress_iff | exact required_choice_iff
              | exact specific_choice_iff | exact check_media_decides | done].
  - rewrite negb_true_iff. apply bool_decide_eq_false.
  - eapply decides_iff;
      [|apply decides_seq; [by apply reject_if_decides|apply check_schema_decides]].
    destruct (response_format r) as [[name schema strict| |]|], (structured_output caps);
      cbn; naive_solver.
  - by setoid_rewrite custom_iff.
  - setoid_rewrite programmatic_callers_iff. naive_solver.
  - apply decides_seq; apply reject_if_decides, and_true_iff;
      [by rewrite contents_appears|done|apply reasoning_controls_iff|apply responses_egress_iff].
  - rewrite <- orb_true_iff. apply multi_agent_iff.
Qed.

Lemma check_lossy_cases :
  match check_lossy_conversion r e caps with
  | Ok _ => forall d, ~ loses r e caps d
  | Err (d, err) =>
      loses r e caps d /\ (exists hint, err = lossy_error d e hint)
      /\ exists before after, all_dimensions = before ++ d :: after
           /\ forall d', d' ∈ before -> ~ loses r e caps d'
  end.
Proof.
  assert (forall d, check_dimension d = Ok tt -> ~ loses r e caps d) as Hok.
  { intros d Hd. destruct (check_dimension_decides d) as [[_ ?]|[[h Hh] _]]; [done|congruence]. }
  rewrite check_by_dimension.
  destruct (try_for_each check_dimension all_dimensions) as [[]|[d' err]] eqn:E.
  - rewrite try_for_each_ok, Forall_forall in E. intros d. apply Hok, E.
    apply all_dimensions_in.
  - apply try_for_each_err in E as (l1 & d & l2 & Hl & HF & Hd).
    destruct (check_dimension_decides d) as [[Hn _]|[[h Hh] Hloses]]; [congruence|].
    rewrite Hh in Hd. injection Hd as <- <-. split_and!; [done|by eauto|].
    exists l1, l2. split; [done|]. intros d' Hin. apply Hok.
    by eapply Forall_forall in HF.
Qed.
End CheckSpec.

(** The lossy-conversion check is sound, complete and reports the first
    reason: it accepts a request exactly when no dimension would be lost on
    the egress protocol, and otherwise it names a dimension that is really
    lost, none of the earlier ones being lost, with the error built for it. *)
Theorem lossy_check_exact r e caps :
  match check_lossy_conversion r e caps with
  | Ok _ => forall d, ~ loses r e caps d
  | Err (d, err) =>
      loses r e caps d /\ (exists hint, err = lossy_error d e hint)
      /\ exists before after, all_dimensions = before ++ d :: after
           /\ forall d', d' ∈ before -> ~ loses r e caps d'
  end.
Proof. apply check_lossy_cases. Qed.

(** No lossy conversion reaches an upstream: whatever the encoders do, a
    body that [encode_cross_protocol] hands to the egress target was encoded
    from a request of which the target's protocol loses nothing. *)
Theorem encoded_requests_lose_nothing {Wire} (enc : ProtocolSuite -> IrRequest -> result Error Wire)
    ingress egress r w :
  encode_cross_protocol enc ingress egress r = Ok w ->
  enc (suite egress) r = Ok w
  /\ forall d, ~ loses r egress (codec_capabilities (suite egress)) d.
Proof.
  unfold encode_cross_protocol.
  assert (lossy_default_reject (codec_capabilities ingress) = true) as -> by by destruct ingress.
  cbn [orb]. pose proof (check_lossy_cases r egress (codec_capabilities (suite egress))) as Hc.
  destruct (check_lossy_conversion _ _ _) as [[]|[d err]]; [|done].
  destruct (enc _ _) as [w'|]; [|done]. intros [= ->]. done.
Qed.

(** A plain text request. *)
Definition sample_request : IrRequest := {|
  model := "virtual"; system := None;
  messages := [{| role := RUser; content := [CText "hi" None None] |}];
  tools := []; params := GenerationParams_default; response_format := None; stream := false;
  ingress_protocol := ProtocolSuite.default_endpoint OpenAiCompatible;
  metadata := None; extensions := ∅ |}.

Lemma encoded_requests_lose_nothing_witness :
  let egress := ProtocolSuite.default_endpoint AnthropicMessages in
  let enc (_ : ProtocolSuite) (r : IrRequest) := Ok (E := Error) (model r) in
  encode_cross_protocol enc OpenAiCompatible egress sample_request = Ok "virtual"
  /\ ~ loses sample_request egress MessagesCodec_capabilities ToolCalling.
Proof.
  split; [by vm_compute|].
  apply (encoded_requests_lose_nothing (fun _ r => Ok (model r)) OpenAiCompatible
           (ProtocolSuite.default_endpoint AnthropicMessages) sample_request "virtual").
  by vm_compute.
Defined.

(** The Responses protocol is the top of the capability matrix: converting
    to a Responses target loses nothing but an ill-formed output schema, so
    with a conforming schema (or none) the check never rejects. *)
Theorem responses_target_loses_only_bad_schemas r e d :
  suite e = OpenAiResponses ->
  loses r e ResponsesCodec_capabilities d <->
  d = StructuredOutput
  /\ exists name schema strict, response_format r = Some (JsonSchema name schema strict)
       /\ ~ conforms OpenAiResponses schema.
Proof.
  intros He.
  assert (forall source, carries e ResponsesCodec_capabilities source) as Hc.
  { intros source. unfold carries. rewrite He. by destruct source. }
  assert (is_openai (suite e)) as Ho by (by right).
  destruct d; cbn [loses ResponsesCodec_capabilities parallel_tool_calls tool_choice_required
    function_calling hosted_tools programmatic_tool_calling extended_reasoning structured_output];
    try (split; [intros Hl; exfalso; intuition congruence|by intros [? _]]).
  - split; [|by intros [? _]]. intros (? & c & _ & _ & Hl). destruct c; naive_solver.
  - rewrite He. destruct (response_format r) as [[name schema strict| |]|]; naive_solver.
Qed.

Lemma responses_target_loses_only_bad_schemas_witness :
  ~ loses sample_request (ProtocolSuite.default_endpoint OpenAiResponses)
      ResponsesCodec_capabilities ToolCalling.
Proof.
  intros H. apply (responses_target_loses_only_bad_schemas sample_request
    (ProtocolSuite.default_endpoint OpenAiResponses) ToolCalling eq_refl) in H as [? _]. done.
Defined.
