(* ===== verification/Utf8.v ===== *)
(** * Utf8: decoding bytes that may not be UTF-8

    [String::from_utf8_lossy] of the standard library: the maximal valid
    prefixes are kept, every maximal subpart of an ill-formed sequence becomes
    one replacement character.  A byte string is valid exactly when nothing
    is replaced. *)

From stdpp Require Import base option list strings.
From Stdlib Require Import ZArith Lia Ascii.
From S2P Require Import Prelude RustStr.

Local Open Scope string_scope.
Local Open Scope list_scope.
Local Open Scope Z_scope.

Definition within (lo hi : Z) (a : ascii) : bool := (lo <=? code a) && (code a <=? hi).

(** A continuation byte. *)
Definition cont (a : ascii) : bool := within 128 191 a.

(** The length of the character a first byte announces; [0] for a byte that
    starts none. *)
Definition char_width (a : ascii) : Z :=
  if within 0 127 a then 1
  else if within 194 223 a then 2
  else if within 224 239 a then 3
  else if within 240 244 a then 4
  else 0.

(** The second bytes a first byte of a long character admits. *)
Definition second3 (a b : ascii) : bool :=
  if code a =? 224 then within 160 191 b
  else if code a =? 237 then within 128 159 b
  else cont b.

Definition second4 (a b : ascii) : bool :=
  if code a =? 240 then within 144 191 b
  else if code a =? 244 then within 128 143 b
  else cont b.

(** U+FFFD *)
Definition replacement : string := String (chr 239) (String (chr 191) (String (chr 189) "")).

Fixpoint from_utf8_lossy (s : string) : string :=
  match s with
  | EmptyString => ""
  | String a r =>
      if char_width a =? 1 then String a (from_utf8_lossy r)
      else if char_width a =? 2 then
        match r with
        | String b r' =>
            if cont b then String a (String b (from_utf8_lossy r'))
            else replacement +:+ from_utf8_lossy r
        | EmptyString => replacement
        end
      else if char_width a =? 3 then
        match r with
        | String b r1 =>
            if second3 a b then
              match r1 with
              | String c r2 =>
                  if cont c then String a (String b (String c (from_utf8_lossy r2)))
                  else replacement +:+ from_utf8_lossy r1
              | EmptyString => replacement
              end
            else replacement +:+ from_utf8_lossy r
        | EmptyString => replacement
        end
      else if char_width a =? 4 then
        match r with
        | String b r1 =>
            if second4 a b then
              match r1 with
              | String c r2 =>
                  if cont c then
                    match r2 with
                    | String d r3 =>
                        if cont d
                        then String a (String b (String c (String d (from_utf8_lossy r3))))
                        else replacement +:+ from_utf8_lossy r2
                    | EmptyString => replacement
                    end
                  else replacement +:+ from_utf8_lossy r1
              | EmptyString => replacement
              end
            else replacement +:+ from_utf8_lossy r
        | EmptyString => replacement
        end
      else replacement +:+ from_utf8_lossy r
  end.

(** Valid UTF-8, character by character. *)
Inductive utf8 : string -> Prop :=
| utf8_nil : utf8 ""
| utf8_1 a r : char_width a = 1 -> utf8 r -> utf8 (String a r)
| utf8_2 a b r : char_width a = 2 -> cont b = true -> utf8 r -> utf8 (String a (String b r))
| utf8_3 a b c r : char_width a = 3 -> second3 a b = true -> cont c = true -> utf8 r ->
    utf8 (String a (String b (String c r)))
| utf8_4 a b c d r : char_width a = 4 -> second4 a b = true -> cont c = true -> cont d = true ->
    utf8 r -> utf8 (String a (String b (String c (String d r)))).

Create HintDb utf8.
#[export] Hint Constructors utf8 : utf8.

(** A valid prefix is kept, whatever follows it. *)
Lemma lossy_app p q : utf8 p -> from_utf8_lossy (p +:+ q) = p +:+ from_utf8_lossy q.
Proof.
  induction 1 as [|a r Ha _ IH|a b r Ha Hb _ IH|a b c r Ha Hb Hc _ IH|a b c d r Ha Hb Hc Hd _ IH];
    [done|..]; rewrite !str_app_cons; cbn [from_utf8_lossy]; rewrite Ha, ?Hb, ?Hc, ?Hd, IH; done.
Qed.

Lemma lossy_id p : utf8 p -> from_utf8_lossy p = p.
Proof. intros Hp. pose proof (lossy_app p "" Hp) as E. by rewrite !str_app_nil_r in E. Qed.

Lemma utf8_app p q : utf8 p -> utf8 q -> utf8 (p +:+ q).
Proof. intros Hp Hq. induction Hp; rewrite ?str_app_cons; auto with utf8. Qed.

Lemma utf8_replacement q : utf8 q -> utf8 (replacement +:+ q).
Proof. intros. apply utf8_app; [|done]. apply utf8_3; by try constructor. Qed.

(** What comes out is valid. *)
Lemma lossy_utf8 s : utf8 (from_utf8_lossy s).
Proof.
  induction s as [s IH] using (induction_ltof1 _ String.length).
  unfold ltof in IH. pose proof (utf8_replacement "" utf8_nil) as Hr.
  rewrite str_app_nil_r in Hr.
  destruct s as [|a r]; [constructor|]. cbn [from_utf8_lossy].
  assert (utf8 (from_utf8_lossy r)) as Hra by (apply IH; cbn; lia).
  destruct (char_width a =? 1) eqn:E1; bool_prop; [auto with utf8|].
  destruct (char_width a =? 2) eqn:E2; bool_prop.
  { destruct r as [|b r']; [done|]. destruct (cont b) eqn:?; [|by apply utf8_replacement].
    apply utf8_2; auto. apply IH; cbn; lia. }
  destruct (char_width a =? 3) eqn:E3; bool_prop.
  { destruct r as [|b r1]; [done|]. destruct (second3 a b) eqn:?; [|by apply utf8_replacement].
    assert (utf8 (from_utf8_lossy r1)) by (apply IH; cbn; lia).
    destruct r1 as [|c r2]; [done|]. destruct (cont c) eqn:?; [|by apply utf8_replacement].
    apply utf8_3; auto. apply IH; cbn; lia. }
  destruct (char_width a =? 4) eqn:E4; bool_prop; [|by apply utf8_replacement].
  destruct r as [|b r1]; [done|]. destruct (second4 a b) eqn:?; [|by apply utf8_replacement].
  assert (utf8 (from_utf8_lossy r1)) by (apply IH; cbn; lia).
  destruct r1 as [|c r2]; [done|]. destruct (cont c) eqn:?; [|by apply utf8_replacement].
  assert (utf8 (from_utf8_lossy r2)) by (apply IH; cbn; lia).
  destruct r2 as [|d r3]; [done|]. destruct (cont d) eqn:?; [|by apply utf8_replacement].
  apply utf8_4; auto. apply IH; cbn; lia.
Qed.

(** The executable test. *)
Definition is_utf8 (s : string) : bool := String.eqb (from_utf8_lossy s) s.

Lemma is_utf8_iff s : is_utf8 s = true <-> utf8 s.
Proof.
  unfold is_utf8. rewrite String.eqb_eq. split; [|apply lossy_id].
  intros <-. apply lossy_utf8.
Qed.

Lemma utf8_join l : Forall (fun s => is_utf8 s = true) l -> utf8 (join "" l).
Proof.
  induction 1 as [|s l Hs Hl IH]; [constructor|]. apply is_utf8_iff in Hs.
  destruct l as [|t l]; [done|].
  change (join "" (s :: t :: l)) with (s +:+ "" +:+ join "" (t :: l)).
  rewrite str_app_nil_l. by apply utf8_app.
Qed.
