(* ===== verification/ResponseModel.v ===== *)
(** * ResponseModel: the model identity of responses

    [crates/server/src/ingress/response_model.rs]: the concrete model an
    upstream reports is replaced by the model the client asked for, in
    complete bodies and in the [data:] lines of an SSE stream that arrives in
    arbitrary chunks.  A byte vector is the Rocq [string] of its bytes; a
    slice out of range panics ([OutOfBounds]).  JSON parsing and printing are
    those of [serde_json] (class [SerdeJson]). *)

From stdpp Require Import base option list strings.
From Stdlib Require Import ZArith Lia Ascii.
From S2P Require Import Prelude RustStr F64 Json Telemetry Protocol.

Local Open Scope string_scope.
Local Open Scope list_scope.

(** ** Byte slices *)

Fixpoint position (f : ascii -> bool) (s : string) : option nat :=
  match s with
  | EmptyString => None
  | String a r => if f a then Some O else S <$> position f r
  end.

Fixpoint rposition (f : ascii -> bool) (s : string) : option nat :=
  match s with
  | EmptyString => None
  | String a r =>
      match rposition f r with
      | Some i => Some (S i)
      | None => if f a then Some O else None
      end
  end.

(** [&s[a..b]] *)
Definition slice (a b : nat) (s : string) : run string :=
  if (a <=? b)%nat && (b <=? String.length s)%nat then Ok (take_bytes (b - a) (drop_bytes a s))
  else Err OutOfBounds.

(** [u8::is_ascii_whitespace]: space, tab, line feed, form feed, return. *)
Definition is_ascii_whitespace (a : ascii) : bool :=
  Ascii.eqb a " " || Ascii.eqb a (chr 9) || Ascii.eqb a LF || Ascii.eqb a (chr 12)
  || Ascii.eqb a CR.

Definition trim_ascii_whitespace (bytes : string) : run string :=
  let start := default (String.length bytes) (position (negb ∘ is_ascii_whitespace) bytes) in
  let end_ := match rposition (negb ∘ is_ascii_whitespace) bytes with
              | Some i => S i
              | None => start
              end in
  slice start end_ bytes.

Definition is_blank (a : ascii) : bool := Ascii.eqb a " " || Ascii.eqb a (chr 9).

(** The length of the leading run of spaces and tabs. *)
Fixpoint leading_blanks (s : string) : nat :=
  match s with
  | String a r => if is_blank a then S (leading_blanks r) else O
  | EmptyString => O
  end.

Definition data_line_bounds (line : string) : option (nat * nat) :=
  let prefix_end := leading_blanks line in
  if negb (starts_with "data:" (drop_bytes prefix_end line)) then None
  else
    let prefix_end := prefix_end + String.length "data:" in
    let prefix_end :=
      if starts_with " " (drop_bytes prefix_end line) then S prefix_end else prefix_end in
    let newline_start :=
      default (String.length line) (position (fun b => Ascii.eqb b CR || Ascii.eqb b LF) line) in
    Some (prefix_end, newline_start).

(** ** The model field *)

Record ResponseModelOverride := {
  rmo_suite : ProtocolSuite;
  rmo_model : string;
}.

Definition set_response_model (body : Value) (s : ProtocolSuite) (model : string) : Value :=
  match body with
  | Obj object =>
      match s with
      | OpenAiCompatible => Obj (insert "model" (Str model) object)
      | OpenAiResponses => Obj (insert "model" (Str model) object)
      | AnthropicMessages => Obj (insert "model" (Str model) object)
      | GoogleGemini => Obj (insert "modelVersion" (Str model) object)
      end
  | _ => body
  end.

(** [if let Some(v) = body.get_mut(k) { *v = f(v) }] *)
Fixpoint update_key (k : string) (f : Value -> Value) (m : list (string * Value))
    : list (string * Value) :=
  match m with
  | [] => []
  | (k', v) :: r => if String.eqb k k' then (k', f v) :: r else (k', v) :: update_key k f r
  end.

Definition update_member (k : string) (f : Value -> Value) (body : Value) : Value :=
  match body with Obj m => Obj (update_key k f m) | _ => body end.

(** [body.get("error").is_some_and(|error| !error.is_null())] *)
Definition is_error_frame (body : Value) : bool :=
  match get "error" body with Some error => negb (is_null error) | None => false end.

Definition set_stream_response_model (body : Value) (s : ProtocolSuite) (model : string)
    : Value :=
  if is_error_frame body then body
  else match s with
       | OpenAiResponses =>
           update_member "response" (fun response => set_response_model response s model) body
       | AnthropicMessages =>
           if bool_decide ((get "type" body ≫= as_str) = Some "message_start")
           then update_member "message" (fun message => set_response_model message s model) body
           else body
       | _ => set_response_model body s model
       end.

(** ** The rewriter *)

Section Rewriter.
Context `{SerdeJson}.

Definition apply_json (o : ResponseModelOverride) (body : Value) : Value :=
  set_response_model body (rmo_suite o) (rmo_model o).

(** Serialising a [Value] cannot fail. *)
Definition rewrite_sse_line (line : string) (o : ResponseModelOverride) : run string :=
  match data_line_bounds line with
  | None => Ok line
  | Some (prefix_end, newline_start) =>
      payload ← slice prefix_end newline_start line;
      trimmed ← trim_ascii_whitespace payload;
      match from_str trimmed with
      | None => Ok line
      | Some body =>
          let body := set_stream_response_model body (rmo_suite o) (rmo_model o) in
          let encoded := to_string body in
          before ← slice 0 prefix_end line;
          after ← slice newline_start (String.length line) line;
          Ok (before +:+ encoded +:+ after)
      end
  end.

Record SseModelRewriter := {
  override_ : ResponseModelOverride;
  pending : string;
}.

Definition sse_rewriter (o : ResponseModelOverride) : SseModelRewriter :=
  {| override_ := o; pending := "" |}.

(** The loop of [rewrite]: one complete line per turn, the output so far
    and the pending bytes. *)
Fixpoint drain_lines (fuel : nat) (o : ResponseModelOverride) (output pending : string)
    : run (string * string) :=
  match fuel with
  | O => Ok (output, pending)
  | S fuel =>
      match position (fun b => Ascii.eqb b LF) pending with
      | None => Ok (output, pending)
      | Some newline =>
          let line := take_bytes (S newline) pending in
          let pending := drop_bytes (S newline) pending in
          rewritten ← rewrite_sse_line line o;
          drain_lines fuel o (output +:+ rewritten) pending
      end
  end.

(** Each turn removes a byte at least: the length of the buffer is enough fuel. *)
Definition rewrite (r : SseModelRewriter) (bytes : string) : run (string * SseModelRewriter) :=
  let p := pending r +:+ bytes in
  '(output, rest) ← drain_lines (String.length p) (override_ r) "" p;
  Ok (output, {| override_ := override_ r; pending := rest |}).

Definition finish (r : SseModelRewriter) : run (string * SseModelRewriter) :=
  if is_empty (pending r) then Ok ("", r)
  else
    line ← rewrite_sse_line (pending r) (override_ r);
    Ok (line, {| override_ := override_ r; pending := "" |}).

(** A whole stream: its chunks in order, then the end of the stream. *)
Fixpoint rewrite_chunks (r : SseModelRewriter) (chunks : list string) : run string :=
  match chunks with
  | [] => '(last, _) ← finish r; Ok last
  | bytes :: rest =>
      '(out, r') ← rewrite r bytes;
      tail ← rewrite_chunks r' rest;
      Ok (out +:+ tail)
  end.
End Rewriter.

(** ** The line format, without offsets *)

(** The longest prefix of characters that satisfy [f], and the rest. *)
Fixpoint span (f : ascii -> bool) (s : string) : string * string :=
  match s with
  | EmptyString => ("", "")
  | String a r => if f a then let '(p, q) := span f r in (String a p, q) else ("", s)
  end.

Fixpoint trim_end_with (f : ascii -> bool) (s : string) : string :=
  match s with
  | EmptyString => ""
  | String a r =>
      match trim_end_with f r with
      | EmptyString => if f a then "" else String a ""
      | r' => String a r'
      end
  end.

Definition is_eol (a : ascii) : bool := Ascii.eqb a CR || Ascii.eqb a LF.

(** An SSE data line is [blanks data:[space] payload eol]. *)
Definition data_line (line : string) : option (string * string * string) :=
  let '(blanks, rest) := span is_blank line in
  match strip_prefix "data:" rest with
  | None => None
  | Some rest =>
      let '(space, rest) :=
        match strip_prefix " " rest with Some r => (" ", r) | None => ("", rest) end in
      let '(payload, eol) := span (negb ∘ is_eol) rest in
      Some (blanks +:+ "data:" +:+ space, payload, eol)
  end.

(** The lines of a stream, each with its line feed; the last one may lack it. *)
Fixpoint sse_lines (s : string) : list string :=
  match s with
  | EmptyString => []
  | String a r =>
      if Ascii.eqb a LF then String a "" :: sse_lines r
      else match sse_lines r with
           | [] => [String a ""]
           | w :: t => String a w :: t
           end
  end.

Section Reference.
Context `{SerdeJson}.

Definition line_rewritten (o : ResponseModelOverride) (line : string) : string :=
  match data_line line with
  | None => line
  | Some (prefix, payload, eol) =>
      match from_str (trim_end_with is_ascii_whitespace
                        (span is_ascii_whitespace payload).2) with
      | None => line
      | Some body =>
          prefix +:+ to_string (set_stream_response_model body (rmo_suite o) (rmo_model o))
          +:+ eol
      end
  end.

Definition stream_rewritten (o : ResponseModelOverride) (s : string) : string :=
  join "" (map (line_rewritten o) (sse_lines s)).
End Reference.

Lemma span_spec f s p q :
  span f s = (p, q) ->
  s = p +:+ q /\ all_chars f p = true /\ (forall a r, q = String a r -> f a = false).
Proof.
  revert p q. induction s as [|a s IH]; intros p q; cbn; [by intros [= <- <-]|].
  destruct (f a) eqn:Ea.
  - destruct (span f s) as [p' q'] eqn:E. intros [= <- <-].
    destruct (IH p' q' eq_refl) as (-> & Hp & Hq). cbn. by rewrite Ea.
  - intros [= <- <-]. split_and!; [done..|]. by intros ? ? [= <- <-].
Qed.

Lemma leading_blanks_span s p q : span is_blank s = (p, q) -> leading_blanks s = String.length p.
Proof.
  revert p q. induction s as [|a s IH]; intros p q; cbn; [by intros [= <- <-]|].
  destruct (is_blank a); [|by intros [= <- <-]].
  destruct (span is_blank s) as [p' q']. intros [= <- <-]. cbn. by erewrite IH.
Qed.

Lemma position_app f p q :
  all_chars (negb ∘ f) p = true ->
  position f (p +:+ q) = (fun i => String.length p + i)%nat <$> position f q.
Proof.
  induction p as [|a p IH]; cbn; [rewrite str_app_nil_l; by destruct (position f q)|].
  intros [Ha Hp]%andb_prop. change (negb (f a) = true) in Ha. rewrite str_app_cons. cbn.
  destruct (f a); [done|]. rewrite IH by done. by destruct (position f q).
Qed.

(** The offset of the first [f], or the end, is where the span stops. *)
Lemma position_span f s p q :
  span (negb ∘ f) s = (p, q) -> default (String.length s) (position f s) = String.length p.
Proof.
  intros (-> & Hp & Hq)%span_spec. rewrite position_app by done.
  destruct q as [|a q]; cbn.
  - by rewrite str_app_nil_r.
  - specialize (Hq a q eq_refl). cbn in Hq. apply negb_false_iff in Hq. rewrite Hq. cbn. lia.
Qed.

Lemma slice_app p m q :
  slice (String.length p) (String.length p + String.length m) (p +:+ m +:+ q) = Ok m.
Proof.
  unfold slice. rewrite !str_length_app, drop_bytes_app.
  rewrite (proj2 (Nat.leb_le _ _)) by lia. rewrite (proj2 (Nat.leb_le _ _)) by lia. cbn.
  by replace (String.length p + String.length m - String.length p)%nat
    with (String.length m) by lia; rewrite take_bytes_app.
Qed.

Lemma all_chars_weaken (f g : ascii -> bool) s :
  (forall a, f a = true -> g a = true) -> all_chars f s = true -> all_chars g s = true.
Proof.
  intros Hfg. induction s as [|a s IH]; cbn; [done|].
  intros [Ha Hs]%andb_prop. by rewrite (Hfg a Ha), IH.
Qed.

Lemma blank_not_eol a : is_blank a = true -> negb (is_eol a) = true.
Proof.
  unfold is_blank, is_eol. intros [E|E]%orb_prop; apply Ascii.eqb_eq in E as ->; by vm_compute.
Qed.

Lemma data_line_spec line p m q :
  data_line line = Some (p, m, q) ->
  line = p +:+ m +:+ q
  /\ data_line_bounds line = Some (String.length p, String.length p + String.length m)%nat.
Proof.
  unfold data_line, data_line_bounds.
  destruct (span is_blank line) as [blanks rest] eqn:Eb.
  rewrite (leading_blanks_span _ _ _ Eb).
  apply span_spec in Eb as (-> & Hb & _). rewrite drop_bytes_app. unfold starts_with at 1.
  destruct (strip_prefix "data:" rest) as [r|] eqn:Ed; [|done]. apply strip_prefix_spec in Ed as ->.
  cbn [negb]. rewrite <- str_length_app.
  replace (blanks +:+ "data:" +:+ r) with ((blanks +:+ "data:") +:+ r) by apply str_app_assoc.
  rewrite drop_bytes_app. unfold starts_with.
  assert (exists space r', r = space +:+ r' /\ all_chars (negb ∘ is_eol) space = true
    /\ match strip_prefix " " r with Some x => (" ", x) | None => ("", r) end = (space, r')
    /\ (if match strip_prefix " " r with Some _ => true | None => false end
        then S (String.length (blanks +:+ "data:")) else String.length (blanks +:+ "data:"))
       = String.length (blanks +:+ "data:" +:+ space)) as (space & r' & -> & Hs & Em & El).
  { destruct (strip_prefix " " r) as [x|] eqn:Es.
    - apply strip_prefix_spec in Es as ->. exists " ", x. split_and!; try done.
      rewrite !str_length_app. cbn. lia.
    - exists "", r. by rewrite str_app_nil_r. }
  rewrite Em, El. destruct (span (negb ∘ is_eol) r') as [payload eol] eqn:Ep.
  intros [= <- <- <-]. pose proof (position_span is_eol _ _ _ Ep) as Hpos.
  apply span_spec in Ep as (-> & Hp & _).
  split; [by rewrite !str_app_assoc|]. do 2 f_equal.
  replace ((blanks +:+ "data:") +:+ space +:+ payload +:+ eol)
    with ((blanks +:+ "data:" +:+ space) +:+ payload +:+ eol) by (by rewrite !str_app_assoc).
  rewrite (position_app is_eol).
  - rewrite str_length_app. rewrite <- Hpos.
    change (fun b => Ascii.eqb b CR || Ascii.eqb b LF) with is_eol.
    by destruct (position is_eol (payload +:+ eol)).
  - rewrite !all_chars_app, Hs. rewrite (all_chars_weaken is_blank) by (done || apply blank_not_eol).
    done.
Qed.

Lemma span_ext f g s : (forall a, f a = g a) -> span f s = span g s.
Proof. intros Hfg. induction s as [|a s IH]; cbn; [done|]. by rewrite Hfg, IH. Qed.

Lemma trim_end_prefix f s : exists u, s = trim_end_with f s +:+ u.
Proof.
  induction s as [|a s [u IH]]; cbn; [by exists ""|].
  destruct (trim_end_with f s) as [|b t] eqn:E.
  - destruct (f a); [by exists (String a s)|]. exists s. done.
  - exists u. rewrite str_app_cons. congruence.
Qed.

Lemma rposition_trim g s :
  match rposition g s with Some i => S i | None => O end
  = String.length (trim_end_with (negb ∘ g) s).
Proof.
  induction s as [|a s IH]; cbn; [done|].
  destruct (rposition g s) as [i|], (trim_end_with (negb ∘ g) s); cbn in *; try lia.
  by destruct (g a).
Qed.

Lemma rposition_app g p q :
  all_chars (negb ∘ g) p = true ->
  rposition g (p +:+ q) = (fun i => String.length p + i)%nat <$> rposition g q.
Proof.
  induction p as [|a p IH]; cbn.
  - intros _. rewrite str_app_nil_l. by destruct (rposition g q).
  - intros [Ha Hp]%andb_prop. change (negb (g a) = true) in Ha. rewrite str_app_cons. cbn.
    rewrite IH by done. destruct (rposition g q); cbn; [done|]. by destruct (g a).
Qed.

Lemma trim_ascii_whitespace_spec s :
  trim_ascii_whitespace s
  = Ok (trim_end_with is_ascii_whitespace (span is_ascii_whitespace s).2).
Proof.
  unfold trim_ascii_whitespace. set (g := negb ∘ is_ascii_whitespace).
  assert (forall a, is_ascii_whitespace a = (negb ∘ g) a) as Hext
    by (intros a; unfold g; cbn; by rewrite negb_involutive).
  destruct (span is_ascii_whitespace s) as [l r] eqn:E.
  rewrite (span_ext _ _ _ Hext) in E.
  rewrite (position_span g _ _ _ E). apply span_spec in E as (-> & Hl & _).
  rewrite rposition_app by done. cbn [snd].
  assert (trim_end_with is_ascii_whitespace r = trim_end_with (negb ∘ g) r) as ->.
  { clear -Hext. induction r as [|a r IH]; cbn [trim_end_with]; [done|]. by rewrite IH, Hext. }
  pose proof (rposition_trim g r) as Hr.
  destruct (trim_end_prefix (negb ∘ g) r) as [u Hu].
  set (t := trim_end_with (negb ∘ g) r) in *.
  assert (match (fun i => String.length l + i)%nat <$> rposition g r with
          | Some i => S i
          | None => String.length l
          end = String.length l + String.length t)%nat as ->
    by (destruct (rposition g r); cbn; lia).
  rewrite Hu. apply slice_app.
Qed.

Section RewriterLemmas.
Context `{SerdeJson}.
Context (o : ResponseModelOverride).

Lemma rewrite_sse_line_spec line : rewrite_sse_line line o = Ok (line_rewritten o line).
Proof.
  unfold rewrite_sse_line, line_rewritten.
  destruct (data_line line) as [[[p m] q]|] eqn:E.
  - apply data_line_spec in E as [-> ->]. unfold mbind, result_bind.
    rewrite slice_app, trim_ascii_whitespace_spec.
    destruct (from_str _) as [body|]; [|done].
    pose proof (slice_app "" p (m +:+ q)) as Hp. rewrite str_app_nil_l in Hp. cbn in Hp.
    rewrite Hp. pose proof (slice_app (p +:+ m) q "") as Hq.
    rewrite str_app_nil_r, str_app_assoc in Hq. rewrite str_length_app in Hq.
    replace (String.length (p +:+ m +:+ q))
      with (String.length p + String.length m + String.length q)%nat
      by (rewrite !str_length_app; lia).
    by rewrite Hq.
  - unfold data_line_bounds. unfold data_line in E.
    destruct (span is_blank line) as [blanks rest] eqn:Eb.
    rewrite (leading_blanks_span _ _ _ Eb). apply span_spec in Eb as (-> & _ & _).
    rewrite drop_bytes_app. unfold starts_with at 1.
    destruct (strip_prefix "data:" rest) as [r|]; [|done].
    destruct (match strip_prefix " " r with Some x => (" ", x) | None => ("", r) end) as [sp r'].
    by destruct (span (negb ∘ is_eol) r').
Qed.

(** The complete lines of a buffer, and the bytes after the last line feed. *)
Fixpoint split_lines (s : string) : list string * string :=
  match s with
  | EmptyString => ([], "")
  | String a r =>
      let '(ls, rest) := split_lines r in
      if Ascii.eqb a LF then (String a "" :: ls, rest)
      else match ls with
           | [] => ([], String a rest)
           | w :: t => (String a w :: t, rest)
           end
  end.

Lemma sse_lines_split s ls rest :
  split_lines s = (ls, rest) -> sse_lines s = ls ++ (if is_empty rest then [] else [rest]).
Proof.
  revert ls rest. induction s as [|a s IH]; intros ls rest; cbn; [by intros [= <- <-]|].
  destruct (split_lines s) as [ls' rest']. rewrite (IH ls' rest' eq_refl).
  destruct (Ascii.eqb a LF); [by intros [= <- <-]|].
  destruct ls' as [|w t]; [|by intros [= <- <-]]. intros [= <- <-]. by destruct rest'.
Qed.

Lemma split_lines_app p q ls rest ls' rest' :
  split_lines p = (ls, rest) -> split_lines (rest +:+ q) = (ls', rest') ->
  split_lines (p +:+ q) = (ls ++ ls', rest').
Proof.
  revert ls rest ls' rest'. induction p as [|a p IH]; intros ls rest ls' rest'; cbn.
  - intros [= <- <-]. by rewrite str_app_nil_l.
  - destruct (split_lines p) as [ls1 rest1] eqn:E. rewrite str_app_cons. cbn.
    destruct (Ascii.eqb a LF) eqn:Ea.
    + intros [= <- <-] Hq. by rewrite (IH _ _ _ _ eq_refl Hq).
    + destruct ls1 as [|w t]; intros [= <- <-] Hq.
      * rewrite str_app_cons in Hq. cbn in Hq. rewrite Ea in Hq.
        destruct (split_lines (rest1 +:+ q)) as [ls2 rest2] eqn:E2.
        rewrite (IH _ _ _ _ eq_refl E2). by destruct ls2; injection Hq as <- <-.
      * by rewrite (IH _ _ _ _ eq_refl Hq).
Qed.

Lemma split_lines_position s :
  split_lines s =
  match position (fun b => Ascii.eqb b LF) s with
  | None => ([], s)
  | Some n => let '(ls, rest) := split_lines (drop_bytes (S n) s) in
              (take_bytes (S n) s :: ls, rest)
  end.
Proof.
  induction s as [|a s IH]; [done|]. cbn [split_lines position].
  destruct (Ascii.eqb a LF) eqn:Ea.
  - cbn. rewrite ?drop_bytes_0. destruct (split_lines s). by destruct s.
  - rewrite IH. destruct (position _ s) as [n|]; cbn; [|done].
    destruct s as [|b s]; cbn.
    + by destruct n.
    + by destruct (split_lines (drop_bytes n s)).
Qed.

Lemma join_cons w r : join "" (w :: r) = w +:+ join "" r.
Proof. destruct r; cbn; [by rewrite str_app_nil_r|by rewrite str_app_nil_l]. Qed.

Lemma join_app l1 l2 : join "" (l1 ++ l2) = join "" l1 +:+ join "" l2.
Proof.
  induction l1 as [|w l1 IH]; [by rewrite str_app_nil_l|].
  cbn [app]. by rewrite !join_cons, IH, str_app_assoc.
Qed.

Lemma drain_lines_spec fuel out p ls rest :
  (String.length p <= fuel)%nat -> split_lines p = (ls, rest) ->
  drain_lines fuel o out p = Ok (out +:+ join "" (map (line_rewritten o) ls), rest).
Proof.
  revert out p ls rest. induction fuel as [|fuel IH]; intros out p ls rest Hf; cbn [drain_lines].
  - destruct p; [|cbn in Hf; lia]. intros [= <- <-]. cbn. by rewrite str_app_nil_r.
  - rewrite split_lines_position. destruct (position _ p) as [n|] eqn:E.
    + destruct (split_lines (drop_bytes (S n) p)) as [ls' rest'] eqn:Es. intros [= <- <-].
      unfold mbind, result_bind. rewrite rewrite_sse_line_spec.
      rewrite (IH _ _ ls' rest'); [| |exact Es].
      * cbn [map]. by rewrite join_cons, str_app_assoc.
      * rewrite drop_bytes_length. destruct p; cbn in Hf |- *; [|lia].
        by destruct fuel.
    + intros [= <- <-]. cbn. by rewrite str_app_nil_r.
Qed.

Lemma rewrite_spec r bytes ls rest :
  override_ r = o -> split_lines (pending r +:+ bytes) = (ls, rest) ->
  rewrite r bytes
  = Ok (join "" (map (line_rewritten o) ls), {| override_ := o; pending := rest |}).
Proof.
  intros Ho Hs. unfold rewrite, mbind, result_bind. rewrite Ho.
  rewrite (drain_lines_spec _ "" _ ls rest); [by rewrite str_app_nil_l|done|done].
Qed.

(** What is kept for later has no line feed, and is kept whole. *)
Lemma split_lines_rest s ls rest : split_lines s = (ls, rest) -> contains_char LF rest = false.
Proof.
  revert ls rest. induction s as [|a s IH]; intros ls rest; [by intros [= <- <-]|].
  cbn. destruct (split_lines s) as [ls' rest'] eqn:E. specialize (IH _ _ eq_refl).
  destruct (Ascii.eqb a LF) eqn:Ea; [by intros [= <- <-]|].
  destruct ls'; intros [= <- <-]; [|done]. cbn. by rewrite Ea.
Qed.

Lemma split_lines_partial s : contains_char LF s = false -> split_lines s = ([], s).
Proof.
  induction s as [|a s IH]; cbn; [done|]. intros [Ha Hs]%orb_false_elim.
  by rewrite (IH Hs), Ha.
Qed.

Lemma stream_rewritten_split s ls rest :
  split_lines s = (ls, rest) ->
  stream_rewritten o s
  = join "" (map (line_rewritten o) ls) +:+ stream_rewritten o rest.
Proof.
  intros Es. unfold stream_rewritten. rewrite (sse_lines_split _ _ _ Es).
  rewrite (sse_lines_split _ _ _ (split_lines_partial _ (split_lines_rest _ _ _ Es))).
  by rewrite map_app, join_app.
Qed.

Lemma finish_spec r :
  override_ r = o -> contains_char LF (pending r) = false ->
  exists r', finish r = Ok (stream_rewritten o (pending r), r') /\ pending r' = "".
Proof.
  intros Ho Hr. unfold finish, stream_rewritten, mbind, result_bind.
  rewrite (sse_lines_split _ _ _ (split_lines_partial _ Hr)).
  destruct (is_empty (pending r)) eqn:Ep.
  - exists r. split; [done|]. by destruct (pending r).
  - rewrite Ho, rewrite_sse_line_spec. by eexists.
Qed.

Lemma rewrite_chunks_spec r chunks :
  override_ r = o -> contains_char LF (pending r) = false ->
  rewrite_chunks r chunks = Ok (stream_rewritten o (pending r +:+ join "" chunks)).
Proof.
  revert r. induction chunks as [|bytes chunks IH]; intros r Ho Hr.
  - cbn. rewrite str_app_nil_r. destruct (finish_spec r Ho Hr) as (r' & E & _).
    unfold mbind, result_bind. by rewrite E.
  - rewrite join_cons, <- str_app_assoc. unfold stream_rewritten.
    destruct (split_lines (pending r +:+ bytes)) as [ls rest] eqn:Es. cbn [rewrite_chunks].
    rewrite (rewrite_spec r bytes ls rest Ho Es). unfold mbind, result_bind.
    rewrite IH; cbn [override_ pending]; [| |].
    + unfold stream_rewritten.
      destruct (split_lines (rest +:+ join "" chunks)) as [ls' rest'] eqn:E'.
      rewrite (sse_lines_split _ _ _ (split_lines_app _ _ _ _ _ _ Es E')).
      rewrite (sse_lines_split _ _ _ E'). by rewrite <- app_assoc, !map_app, !join_app.
    + done.
    + by eapply split_lines_rest.
Qed.
End RewriterLemmas.

(** The rewriter of a stream never panics and does not depend on how the
    network cut it: whatever the chunks, the bytes it emits until the end of
    the stream are those of rewriting the whole stream line by line, in which
    a line that is not a [data:] line, or whose payload is not JSON, is passed
    on unchanged. *)
Theorem sse_rewriter_chunk_independent `{SerdeJson} o chunks :
  rewrite_chunks (sse_rewriter o) chunks = Ok (stream_rewritten o (join "" chunks)).
Proof. by rewrite (rewrite_chunks_spec o). Qed.

(** ** The identity a client sees *)

(** Where the model of a stream event stands on the wire of a suite. *)
Definition model_path (s : ProtocolSuite) : list string :=
  match s with
  | OpenAiCompatible => ["model"]
  | GoogleGemini => ["modelVersion"]
  | OpenAiResponses => ["response"; "model"]
  | AnthropicMessages => ["message"; "model"]
  end.

Fixpoint get_path (path : list string) (v : Value) : option Value :=
  match path with
  | [] => Some v
  | k :: r => get k v ≫= get_path r
  end.

(** The events of a suite that carry a model. *)
Definition carries_model (s : ProtocolSuite) (body : Value) : bool :=
  match s with
  | OpenAiCompatible | GoogleGemini => is_object body
  | OpenAiResponses =>
      match get "response" body with Some v => is_object v | None => false end
  | AnthropicMessages =>
      bool_decide ((get "type" body ≫= as_str) = Some "message_start")
      && match get "message" body with Some v => is_object v | None => false end
  end.

Lemma assoc_update_key k k' f m :
  assoc k (update_key k' f m) = if String.eqb k k' then f <$> assoc k m else assoc k m.
Proof.
  induction m as [|[k2 v2] r IH]; cbn; [by destruct (String.eqb k k')|].
  destruct (String.eqb_spec k' k2) as [->|Hne]; cbn.
  - by destruct (String.eqb k k2).
  - rewrite IH. destruct (String.eqb_spec k k2) as [->|]; [|done].
    destruct (String.eqb_spec k2 k') as [->|]; [done|]. done.
Qed.

Lemma get_update_member k k' f body :
  get k (update_member k' f body) = if String.eqb k k' then f <$> get k body else get k body.
Proof.
  destruct body; cbn; try (by destruct (String.eqb k k')). apply assoc_update_key.
Qed.

Lemma get_set_response_model k body s model :
  get k (set_response_model body s model)
  = if is_object body && String.eqb k (match s with GoogleGemini => "modelVersion" | _ => "model" end)
    then Some (Str model) else get k body.
Proof. destruct body; try done. by destruct s; cbn; rewrite assoc_insert. Qed.

Lemma set_stream_frame body s model k :
  k <> hd "" (model_path s) ->
  get k (set_stream_response_model body s model) = get k body.
Proof.
  intros Hk. unfold set_stream_response_model. destruct (is_error_frame body); [done|].
  destruct s; cbn in Hk.
  1, 4: rewrite get_set_response_model, (proj2 (String.eqb_neq _ _) Hk);
        by rewrite andb_false_r.
  - rewrite get_update_member. by destruct (String.eqb_spec k "response").
  - case_bool_decide; [|done]. rewrite get_update_member. by destruct (String.eqb_spec k "message").
Qed.

Lemma update_member_id k f body :
  (forall v, get k body = Some v -> f v = v) -> update_member k f body = body.
Proof.
  destruct body as [| | | | |m]; try done. cbn. intros Hf. f_equal.
  induction m as [|[k' v] r IH]; cbn in *; [done|].
  destruct (String.eqb k k'); [by rewrite Hf|]. by rewrite IH.
Qed.

Lemma set_response_model_other body s model :
  is_object body = false -> set_response_model body s model = body.
Proof. by destruct body. Qed.

Lemma member_identity k s model body :
  s <> GoogleGemini ->
  if match get k body with Some v => is_object v | None => false end
  then (get k (update_member k (fun v => set_response_model v s model) body)
        ≫= fun v => get "model" v ≫= fun w => Some w) = Some (Str model)
  else update_member k (fun v => set_response_model v s model) body = body.
Proof.
  intros Hs. destruct (get k body) as [v|] eqn:Ev; [destruct (is_object v) eqn:Eo|].
  - rewrite get_update_member, String.eqb_refl, Ev. cbn.
    rewrite get_set_response_model, Eo. by destruct s.
  - apply update_member_id. intros w. rewrite Ev. intros [= <-].
    by apply set_response_model_other.
  - apply update_member_id. intros w. by rewrite Ev.
Qed.

(** The upstream's model id does not leak through a stream: an event that
    carries a model, and is not an error frame, carries the client's model
    after the rewriting, at the place its protocol keeps it, and every other
    member of the event is left alone; error frames and the events that carry
    no model are left as they are. *)
Theorem stream_model_identity s model body :
  (if negb (is_error_frame body) && carries_model s body
   then get_path (model_path s) (set_stream_response_model body s model) = Some (Str model)
   else set_stream_response_model body s model = body)
  /\ forall k, k <> hd "" (model_path s) ->
       get k (set_stream_response_model body s model) = get k body.
Proof.
  split; [|by intros k; apply set_stream_frame].
  unfold set_stream_response_model. destruct (is_error_frame body); cbn [negb andb]; [done|].
  destruct s; cbn [carries_model model_path get_path].
  - destruct (is_object body) eqn:Eo; [|by apply set_response_model_other].
    by rewrite get_set_response_model, Eo.
  - by apply member_identity.
  - case_bool_decide; cbn [andb]; [|done]. by apply member_identity.
  - destruct (is_object body) eqn:Eo; [|by apply set_response_model_other].
    by rewrite get_set_response_model, Eo.
Qed.
