(* ===== verification/Sse.v ===== *)
(** * Sse: lines of server-sent events

    What the streaming codecs share: trimming of [data:] lines, cutting bytes
    into lines, and feeding lines one after the other to a decoder. *)

From stdpp Require Import base option list strings.
From Stdlib Require Import ZArith Lia Ascii.
From S2P Require Import Prelude RustStr F64 Json Telemetry Protocol Classify Ir.

Local Open Scope string_scope.
Local Open Scope list_scope.

Definition blank_line : string := String LF (String LF "").

(** ** Trimming and lines *)

Lemma ends_with_app c w r :
  ends_with_char c (w +:+ r) = if is_empty r then ends_with_char c w else ends_with_char c r.
Proof.
  induction w as [|a w IH]; [rewrite str_app_nil_l; by destruct r|]. rewrite str_app_cons.
  destruct w as [|b w].
  - destruct r; done.
  - rewrite str_app_cons in IH |- *. cbn [ends_with_char] in *. done.
Qed.

Lemma ws_prefix_ends s r :
  ends_with_char "}" s = true -> ws_prefix s = Some r -> ends_with_char "}" r = true.
Proof.
  intros Hs. unfold ws_prefix.
  assert (Forall (fun w => ends_with_char "}" w = false) ws_encodings) as Hw
    by (repeat constructor).
  induction Hw as [|w l Hw _ IH]; cbn; [done|].
  destruct (strip_prefix w s) as [r'|] eqn:E; [|done]. intros [= <-].
  apply strip_prefix_spec in E as ->. rewrite ends_with_app in Hs.
  destruct r'; cbn in Hs; [congruence|done].
Qed.

Lemma trim_start_ends fuel s :
  ends_with_char "}" s = true -> ends_with_char "}" (trim_start_fuel fuel s) = true.
Proof.
  revert s. induction fuel as [|fuel IH]; intros s Hs; cbn [trim_start_fuel]; [done|].
  destruct (ws_prefix s) eqn:E; [|done]. apply IH. by eapply ws_prefix_ends.
Qed.

Lemma trim_end_ends s : ends_with_char "}" s = true -> trim_end s = s.
Proof.
  induction s as [|a s IH]; [done|]. intros Hs.
  assert (all_ws (String a s) = false) as Ha.
  { unfold all_ws, trim_start. pose proof (trim_start_ends (String.length (String a s)) _ Hs).
    by destruct (trim_start_fuel _ _). }
  cbn [trim_end]. rewrite Ha. f_equal. destruct s as [|b s]; [done|]. by apply IH.
Qed.

Lemma trim_data x : ends_with_char "}" x = true -> trim ("data: " +:+ x) = "data: " +:+ x.
Proof.
  intros Hx. unfold trim.
  assert (trim_start ("data: " +:+ x) = "data: " +:+ x) as ->.
  { unfold trim_start. rewrite str_length_app. cbn [String.length Nat.add trim_start_fuel].
    change ("data: " +:+ x) with (String "d" ("ata: " +:+ x)).
    by destruct ("ata: " +:+ x). }
  apply trim_end_ends. rewrite ends_with_app. by destruct x.
Qed.

Lemma split_line c l r :
  contains_char c l = false -> split c (l +:+ String c r) = l :: split c r.
Proof.
  induction l as [|a l IH]; cbn [contains_char].
  - intros _. rewrite str_app_nil_l. cbn. by rewrite Ascii.eqb_refl.
  - intros [Ha Hl]%orb_false_elim. rewrite str_app_cons. cbn [split]. rewrite Ha, IH by done. done.
Qed.

Lemma contains_app c s t : contains_char c (s +:+ t) = contains_char c s || contains_char c t.
Proof.
  induction s as [|a s IH]; [done|]. rewrite str_app_cons. cbn. by rewrite IH, orb_assoc.
Qed.

(** ** Feeding lines *)

Section Feed.
Context {D : Type} (feed : D -> string -> run (result Error (list StreamPart) * D)).

(** Feeding the lines of a stream one after the other. *)
Fixpoint feed_lines (d : D) (lines : list string)
    : run (result Error (list StreamPart) * D) :=
  match lines with
  | [] => Ok (Ok [], d)
  | l :: r =>
      '(res, d) ← feed d l;
      match res with
      | Err e => Ok (Err e, d)
      | Ok parts =>
          '(res, d) ← feed_lines d r;
          Ok (match res with Ok q => Ok (parts ++ q) | Err e => Err e end, d)
      end
  end.

Definition then_lines (first : run (result Error (list StreamPart) * D)) (rest : list string)
    : run (result Error (list StreamPart) * D) :=
  '(res, d) ← first;
  match res with
  | Err e => Ok (Err e, d)
  | Ok parts =>
      '(res, d) ← feed_lines d rest;
      Ok (match res with Ok q => Ok (parts ++ q) | Err e => Err e end, d)
  end.

Context (feed_empty : forall d, feed d "" = Ok (Ok [], d)).

Lemma feed_nothing d rest : then_lines (Ok (Ok [], d)) rest = feed_lines d rest.
Proof. unfold then_lines. cbn. by destruct (feed_lines d rest) as [[[]]|]. Qed.

(** A line the decoder skips. *)
Lemma feed_skip d line rest :
  feed d line = Ok (Ok [], d) -> contains_char LF line = false ->
  feed_lines d (split LF (line +:+ String LF rest)) = feed_lines d (split LF rest).
Proof.
  intros Hs Hl. rewrite split_line by done. cbn [feed_lines]. rewrite Hs. apply feed_nothing.
Qed.

Lemma feed_event d line rest :
  contains_char LF line = false ->
  feed_lines d (split LF (line +:+ blank_line +:+ rest)) = then_lines (feed d line) (split LF rest).
Proof.
  intros Hl. change (blank_line +:+ rest) with (String LF (String LF rest)).
  rewrite split_line by done.
  change (split LF (String LF rest)) with ("" :: split LF rest).
  cbn [feed_lines]. unfold then_lines, mbind, result_bind.
  destruct (feed d line) as [[[parts|e] d']|]; [|done..].
  rewrite feed_empty. destruct (feed_lines d' (split LF rest)) as [[[q|e] d'']|]; done.
Qed.
End Feed.
