(* ===== verification/ChatStream.v ===== *)
(** * ChatStream: the streaming codec of Chat Completions

    [ChatCompletionsStreamEncoder] and [ChatCompletionsStreamDecoder] of
    [crates/protocols/src/chat_completions.rs]: the server-sent events of a
    Chat Completions stream from and to the stream parts of the intermediate
    representation.  The encoder numbers tool calls in the order of their
    first delta, the decoder keeps one slot per number.  Both are state
    passing; a slot number too large for a vector panics. *)

From stdpp Require Import base option list gmap sets strings pretty.
From Stdlib Require Import ZArith Lia Ascii.
From S2P Require Import Prelude RustStr F64 Json Telemetry Protocol Classify Errors Ir Sse.

Local Open Scope string_scope.
Local Open Scope list_scope.
Local Open Scope Z_scope.

(** The table [error_type_for_class]. *)
Definition error_type_for_class (c : ErrorClass) : string :=
  match c with
  | Transient => "server_error"
  | RateLimited => "rate_limit_error"
  | Auth => "authentication_error"
  | BadRequest => "invalid_request_error"
  | LossyOrCapability => "invalid_request_error"
  | ModelNotFound => "not_found_error"
  | DeadlineExceeded => "server_error"
  | UpstreamExhausted => "server_error"
  | AuthMissing => "authentication_error"
  | AuthInvalid => "authentication_error"
  | AuthDisabled => "permission_error"
  | ModelAccessDenied => "permission_error"
  | Overloaded => "overloaded_error"
  end.

Definition done_line : string := "data: [DONE]".

(** ** The encoder *)

Record Encoder := {
  e_response_id : option string;
  tool_call_indices : gmap string Z;
}.

Definition Encoder_new : Encoder := {| e_response_id := None; tool_call_indices := ∅ |}.

(** The number of a tool call, and the state after asking for it. *)
Definition tool_call_index (e : Encoder) (id : string) : Z * Encoder :=
  let len := Z.of_nat (size (tool_call_indices e)) in
  if is_empty id then (sat_sub len 1, e)
  else match tool_call_indices e !! id with
       | Some i => (i, e)
       | None => (len, {| e_response_id := e_response_id e;
                          tool_call_indices := <[id := len]> (tool_call_indices e) |})
       end.

(** The frame all chunks share. *)
Definition chunk_json (id : string) (delta finish : Value) (more : list (string * Value)) : Value :=
  obj ([("id", Str id);
        ("object", Str "chat.completion.chunk");
        ("choices", Arr [obj [("index", json_u64 0); ("delta", delta);
                              ("finish_reason", finish)]])] ++ more).

Definition tool_call_json (index : Z) (id : string) (name : option string) (arguments : string)
    : Value :=
  obj [("tool_calls",
        Arr [obj [("index", json_u64 index); ("id", Str id); ("type", Str "function");
                  ("function", set_opt "name" (Str <$> name)
                                 (obj [("arguments", Str arguments)]))]])].

Definition positive_member (k : string) (o : option Z) (m : list (string * Value))
    : list (string * Value) :=
  match o with
  | Some n => if 0 <? n then Json.insert k (json_u64 n) m else m
  | None => m
  end.

Definition usage_json (u : Usage) : Value :=
  let cache_read := default 0 (cache_read_tokens u) in
  let cache_write := default 0 (cache_write_tokens u) in
  let prompt_for_openai := wrap64 (wrap64 (prompt_tokens u + cache_read) + cache_write) in
  let usage_obj :=
    obj [("prompt_tokens", json_u64 prompt_for_openai);
         ("completion_tokens", json_u64 (completion_tokens u));
         ("total_tokens", json_u64 (wrap64 (prompt_for_openai + completion_tokens u)))] in
  let prompt_details :=
    positive_member "cache_write_tokens" (cache_write_tokens u)
      (positive_member "cached_tokens" (cache_read_tokens u) []) in
  let usage_obj :=
    match prompt_details with
    | [] => usage_obj
    | _ => set "prompt_tokens_details" (Obj prompt_details) usage_obj
    end in
  match reasoning_tokens u with
  | Some rt =>
      if 0 <? rt
      then set "completion_tokens_details" (obj [("reasoning_tokens", json_u64 rt)]) usage_obj
      else usage_obj
  | None => usage_obj
  end.

Definition finish_str (r : FinishReason) : string :=
  match r with
  | Stop => "stop"
  | LengthReason => "length"
  | ContentFilter => "content_filter"
  | ToolCalls => "tool_calls"
  | OtherReason _ => "stop"
  end.

Definition error_json (message : string) (c : ErrorClass) (upstream_code : option string) : Value :=
  obj [("error", set_opt "code" (Str <$> upstream_code)
                   (obj [("message", Str message); ("type", Str (error_type_for_class c))]))].

Section Codec.
Context `{SerdeJson}.

Definition frame (v : Value) : string := "data: " +:+ to_string v +:+ blank_line.

Definition encode_part (e : Encoder) (part : StreamPart) : string * Encoder :=
  let id := default "" (e_response_id e) in
  match part with
  | ResponseStarted id =>
      ("", {| e_response_id := Some id; tool_call_indices := tool_call_indices e |})
  | TextDelta text => (frame (chunk_json id (obj [("content", Str text)]) Null []), e)
  | ReasoningDelta text _ _ =>
      (frame (chunk_json id (obj [("reasoning_content", Str text)]) Null []), e)
  | ToolCallDelta tc_id name arguments _ _ _ =>
      let '(tc_index, e) := tool_call_index e tc_id in
      (frame (chunk_json id (tool_call_json tc_index tc_id name arguments) Null []), e)
  | ProgramDelta _ _ _ _ | ProgramOutputDelta _ _ _ _ => ("", e)
  | UsagePart usage => (frame (chunk_json id (obj []) Null [("usage", usage_json usage)]), e)
  | FinishPart reason => (frame (chunk_json id (obj []) (Str (finish_str reason)) []), e)
  | ResponseCompleted _ _ _ _ => (done_line +:+ blank_line, e)
  | ErrorPart message class upstream_code => (frame (error_json message class upstream_code), e)
  end.

Definition encode_error (message : string) (c : ErrorClass) (upstream_code : option string)
    : string :=
  "data: " +:+ to_string (error_json message c upstream_code) +:+ blank_line
  +:+ done_line +:+ blank_line.

Definition encode_done : string := done_line +:+ blank_line.

(** ** The decoder *)

Record Decoder := {
  d_response_id : option string;
  d_tool_calls : list (string * string);
  saw_finish : bool;
  saw_tool_calls : bool;
}.

Definition Decoder_new : Decoder :=
  {| d_response_id := None; d_tool_calls := []; saw_finish := false; saw_tool_calls := false |}.

Definition with_calls (d : Decoder) (l : list (string * string)) : Decoder :=
  {| d_response_id := d_response_id d; d_tool_calls := l; saw_finish := saw_finish d;
     saw_tool_calls := true |}.

(** The size in memory of a [(String, String)]; a [Vec] holds at most
    [isize::MAX] bytes. *)
Definition slot_bytes : Z := 48.

(** [resize_with(index + 1, ..)] when [index] is not a slot yet. *)
Definition slot (l : list (string * string)) (index : Z) : run (list (string * string)) :=
  if index <? Z.of_nat (length l) then Ok l
  else
    let new_len := wrap64 (index + 1) in
    if i64_max <? new_len * slot_bytes then Err CapacityOverflow
    else
      let l := resize (Z.to_nat new_len) ("", "") l in
      if index <? Z.of_nat (length l) then Ok l else Err OutOfBounds.

(** [*self.slot(index) = f(..)] *)
Definition set_slot (l : list (string * string)) (index : Z)
    (f : string * string -> string * string) : run (list (string * string)) :=
  l ← slot l index; Ok (alter f (Z.to_nat index) l).

Definition tool_delta (id : string) (name : option string) (arguments : string) : StreamPart :=
  ToolCallDelta id name arguments None None None.

Definition nonempty (o : option string) : option string :=
  match o with Some s => if is_empty s then None else Some s | None => None end.

(** One element of [delta.tool_calls]. *)
Definition decode_tool_call (d : Decoder) (tc : Value) : run (list StreamPart * Decoder) :=
  let index := default 0 (as_u64 tc.["index"]) in
  let l := d_tool_calls d in
  l ← match nonempty (as_str tc.["id"]) with
      | Some tc_id => set_slot l index (fun s => (tc_id, snd s))
      | None => Ok l
      end;
  let tc_name := nonempty (as_str tc.["function"].["name"]) in
  l ← match tc_name with
      | Some n => set_slot l index (fun s => (fst s, n))
      | None => Ok l
      end;
  let tc_args := as_str tc.["function"].["arguments"] in
  l ← slot l index;
  let id := fst (default ("", "") (l !! Z.to_nat index)) in
  let parts :=
    match tc_name, tc_args with
    | Some n, Some args =>
        tool_delta id (Some n) ""
        :: (if is_empty args then [] else [tool_delta id None args])
    | Some n, None => [tool_delta id (Some n) ""]
    | None, Some args => [tool_delta id None args]
    | None, None => []
    end in
  Ok (parts, with_calls d l).

Fixpoint decode_tool_calls (d : Decoder) (l : list Value) : run (list StreamPart * Decoder) :=
  match l with
  | [] => Ok ([], d)
  | tc :: r =>
      '(parts, d) ← decode_tool_call d tc;
      '(rest, d) ← decode_tool_calls d r;
      Ok (parts ++ rest, d)
  end.

Definition finish_of_str (fr : string) : FinishReason :=
  if String.eqb fr "stop" then Stop
  else if String.eqb fr "length" then LengthReason
  else if String.eqb fr "content_filter" then ContentFilter
  else if String.eqb fr "tool_calls" || String.eqb fr "function_call" then ToolCalls
  else OtherReason fr.

Definition text_parts (delta : Value) : list StreamPart :=
  match as_str delta.["content"] with
  | Some text => if is_empty text then [] else [TextDelta text]
  | None => []
  end.

Definition reasoning_parts (delta : Value) : list StreamPart :=
  match (match as_str delta.["reasoning_content"] with
         | Some t => Some t
         | None => as_str delta.["reasoning"]
         end) with
  | Some text => if is_empty text then [] else [ReasoningDelta text None None]
  | None =>
      match get "reasoning_details" delta with
      | Some reasoning =>
          match as_str reasoning.["text"] with
          | Some text => [ReasoningDelta text None None]
          | None => []
          end
      | None => []
      end
  end.

(** One choice: its parts, its finish (kept back) and the state. *)
Definition decode_choice (d : Decoder) (choice : Value)
    : run (list StreamPart * list StreamPart * Decoder) :=
  let delta := choice.["delta"] in
  '(calls, d) ← match as_array delta.["tool_calls"] with
                | Some tool_calls => decode_tool_calls d tool_calls
                | None => Ok ([], d)
                end;
  let parts := text_parts delta ++ reasoning_parts delta ++ calls in
  match as_str choice.["finish_reason"] with
  | Some fr =>
      if String.eqb fr "null" || is_empty fr then Ok (parts, [], d)
      else Ok (parts, [FinishPart (finish_of_str fr)],
               {| d_response_id := d_response_id d; d_tool_calls := d_tool_calls d;
                  saw_finish := true; saw_tool_calls := saw_tool_calls d |})
  | None => Ok (parts, [], d)
  end.

Fixpoint decode_choices (d : Decoder) (l : list Value)
    : run (list StreamPart * list StreamPart * Decoder) :=
  match l with
  | [] => Ok ([], [], d)
  | choice :: r =>
      '(parts, fin, d) ← decode_choice d choice;
      '(parts', fin', d) ← decode_choices d r;
      Ok (parts ++ parts', fin ++ fin', d)
  end.

Definition usage_parts (chunk : Value) : list StreamPart :=
  match get "usage" chunk with
  | Some usage =>
      if is_object usage
         && (is_u64 usage.["prompt_tokens"] || is_u64 usage.["completion_tokens"]
             || is_u64 usage.["total_tokens"])
      then
        let raw_prompt := default 0 (as_u64 usage.["prompt_tokens"]) in
        let completion := default 0 (as_u64 usage.["completion_tokens"]) in
        let total := default (wrap64 (raw_prompt + completion)) (as_u64 usage.["total_tokens"]) in
        let cache_read := as_u64 usage.["prompt_tokens_details"].["cached_tokens"] in
        let cache_write := as_u64 usage.["prompt_tokens_details"].["cache_write_tokens"] in
        let reasoning := as_u64 usage.["completion_tokens_details"].["reasoning_tokens"] in
        let prompt := sat_sub (sat_sub raw_prompt (default 0 cache_read)) (default 0 cache_write) in
        [UsagePart {| prompt_tokens := prompt; completion_tokens := completion;
                      reasoning_tokens := reasoning; cache_read_tokens := cache_read;
                      cache_write_tokens := cache_write; total_tokens := total |}]
      else []
  | None => []
  end.

Context `{Lowercase}.

Definition error_part (error : Value) : StreamPart :=
  let code := match as_str error.["code"] with Some c => Some c | None => as_str error.["type"] end in
  ErrorPart (default "Unknown error" (as_str error.["message"]))
    (classify_upstream_error None code) code.

(** A chunk of the stream, or an object without the discriminator. *)
Definition decode_standard (d : Decoder) (chunk : Value) : run (list StreamPart * Decoder) :=
  let '(started, d) :=
    match as_str chunk.["id"], d_response_id d with
    | Some id, None =>
        ([ResponseStarted id],
         {| d_response_id := Some id; d_tool_calls := d_tool_calls d;
            saw_finish := saw_finish d; saw_tool_calls := saw_tool_calls d |})
    | _, _ => ([], d)
    end in
  match get "error" chunk ≫= as_object with
  | Some ((_ :: _) as error) => Ok (started ++ [error_part (Obj error)], d)
  | _ =>
      '(parts, pending_finishes, d) ← match as_array chunk.["choices"] with
                                      | Some choices => decode_choices d choices
                                      | None => Ok ([], [], d)
                                      end;
      Ok (started ++ parts ++ usage_parts chunk ++ pending_finishes, d)
  end.

Definition decode_chunk (d : Decoder) (chunk : Value) : run (list StreamPart * Decoder) :=
  match as_str chunk.["object"] with
  | Some o =>
      if String.eqb o "chat.completion.chunk" then decode_standard d chunk
      else if String.eqb o "error" then Ok ([error_part chunk.["error"]], d)
      else Ok ([], d)
  | None => decode_standard d chunk
  end.

Definition completed_parts (d : Decoder) : list StreamPart :=
  (if negb (saw_finish d) && saw_tool_calls d then [FinishPart ToolCalls] else [])
  ++ [ResponseCompleted (default "" (d_response_id d)) "completed" None ∅].

Definition feed (d : Decoder) (line : string) : run (result Error (list StreamPart) * Decoder) :=
  let line := trim line in
  if String.eqb line done_line then Ok (Ok (completed_parts d), d)
  else if is_empty line then Ok (Ok [], d)
  else match strip_prefix "data: " line with
       | None => Ok (Ok [], d)
       | Some data =>
           match from_str data with
           | None => Ok (Err (ECodec ("Failed to parse SSE data: " +:+ from_str_error data)), d)
           | Some chunk => '(parts, d) ← decode_chunk d chunk; Ok (Ok parts, d)
           end
       end.

Definition finish (d : Decoder) : result Error (list StreamPart) := Ok [].
End Codec.

(** ** What a stream becomes on its way through the wire *)

(** The state of the relay: the id the encoder knows, the one the decoder has
    announced, the tool calls in the order of their first delta. *)
Record Relay := {
  cur : string;
  sent : option string;
  seen : list string;
  fin_seen : bool;
  tools_seen : bool;
}.

Definition Relay_new : Relay :=
  {| cur := ""; sent := None; seen := []; fin_seen := false; tools_seen := false |}.

(** The first chunk announces the response. *)
Definition announce (st : Relay) : list StreamPart * Relay :=
  match sent st with
  | None => ([ResponseStarted (cur st)],
             {| cur := cur st; sent := Some (cur st); seen := seen st;
                fin_seen := fin_seen st; tools_seen := tools_seen st |})
  | Some _ => ([], st)
  end.

Definition drop_zero (o : option Z) : option Z :=
  match o with Some n => if 0 <? n then Some n else None | None => None end.

(** Zero details are not written, the total is recomputed. *)
Definition relayed_usage (u : Usage) : Usage := {|
  prompt_tokens := prompt_tokens u;
  completion_tokens := completion_tokens u;
  reasoning_tokens := drop_zero (reasoning_tokens u);
  cache_read_tokens := drop_zero (cache_read_tokens u);
  cache_write_tokens := drop_zero (cache_write_tokens u);
  total_tokens := prompt_tokens u + default 0 (cache_read_tokens u)
                  + default 0 (cache_write_tokens u) + completion_tokens u |}.

(** An anonymous delta belongs to the call opened last. *)
Definition owner (st : Relay) (id : string) : string :=
  if is_empty id then default "" (last (seen st)) else id.

Definition opened (st : Relay) (id : string) : list string :=
  if is_empty id || bool_decide (id ∈ seen st) then seen st else seen st ++ [id].

Definition relay_part `{Lowercase} (st : Relay) (p : StreamPart) : list StreamPart * Relay :=
  match p with
  | ResponseStarted id =>
      ([], {| cur := id; sent := sent st; seen := seen st; fin_seen := fin_seen st;
              tools_seen := tools_seen st |})
  | TextDelta t =>
      let '(a, st) := announce st in (a ++ (if is_empty t then [] else [TextDelta t]), st)
  | ReasoningDelta t _ _ =>
      let '(a, st) := announce st in
      (a ++ (if is_empty t then [] else [ReasoningDelta t None None]), st)
  | ToolCallDelta id name args _ _ _ =>
      let '(a, st) := announce st in
      let id' := owner st id in
      (a ++ match nonempty name with
            | Some n => tool_delta id' (Some n) ""
                        :: (if is_empty args then [] else [tool_delta id' None args])
            | None => [tool_delta id' None args]
            end,
       {| cur := cur st; sent := sent st; seen := opened st id; fin_seen := fin_seen st;
          tools_seen := true |})
  | ProgramDelta _ _ _ _ | ProgramOutputDelta _ _ _ _ => ([], st)
  | UsagePart u => let '(a, st) := announce st in (a ++ [UsagePart (relayed_usage u)], st)
  | FinishPart r =>
      let '(a, st) := announce st in
      (a ++ [FinishPart match r with OtherReason _ => Stop | r => r end],
       {| cur := cur st; sent := sent st; seen := seen st; fin_seen := true;
          tools_seen := tools_seen st |})
  | ResponseCompleted _ _ _ _ =>
      ((if negb (fin_seen st) && tools_seen st then [FinishPart ToolCalls] else [])
       ++ [ResponseCompleted (default "" (sent st)) "completed" None ∅], st)
  | ErrorPart message c code =>
      let code := default (error_type_for_class c) code in
      ([ErrorPart message (classify_upstream_error None (Some code)) (Some code)], st)
  end.

Fixpoint relay `{Lowercase} (st : Relay) (parts : list StreamPart) : list StreamPart :=
  match parts with
  | [] => []
  | p :: r => let '(out, st) := relay_part st p in out ++ relay st r
  end.

Section Wire.
Context `{SerdeJson} `{Lowercase}.

Fixpoint encode_parts (e : Encoder) (parts : list StreamPart) : string :=
  match parts with
  | [] => ""
  | p :: r => let '(out, e) := encode_part e p in out +:+ encode_parts e r
  end.

End Wire.

(** ** Framing *)

Section Framing.
Context `{J : SerdeJson} `{!SerdeJsonLaws J} `{Lowercase}.

Lemma feed_empty d : feed d "" = Ok (Ok [], d).
Proof. done. Qed.

Lemma feed_done d : feed d done_line = Ok (Ok (completed_parts d), d).
Proof. unfold feed. by rewrite (eq_refl : trim done_line = done_line). Qed.

Lemma feed_json d m :
  exact (Obj m) = true ->
  feed d ("data: " +:+ to_string (Obj m))
  = ('(parts, d) ← decode_chunk d (Obj m); Ok (Ok parts, d)).
Proof.
  intros Hm. destruct (to_string_braces m) as [s Hs].
  assert (ends_with_char "}" (to_string (Obj m)) = true) as He.
  { rewrite Hs, ends_with_app, ends_with_app. by destruct s. }
  unfold feed. rewrite trim_data by done.
  replace (String.eqb ("data: " +:+ to_string (Obj m)) done_line) with false.
  - change (is_empty ("data: " +:+ to_string (Obj m))) with false.
    rewrite strip_prefix_app, from_to_string by done. done.
  - symmetry. apply String.eqb_neq. intros E. rewrite Hs in E.
    apply (f_equal (strip_prefix "data: [")) in E. done.
Qed.

Lemma feed_frame d m rest :
  exact (Obj m) = true ->
  feed_lines feed d (split LF (frame (Obj m) +:+ rest))
  = then_lines feed ('(parts, d) ← decode_chunk d (Obj m); Ok (Ok parts, d)) (split LF rest).
Proof.
  intros Hm. unfold frame. rewrite !str_app_assoc.
  rewrite <- (str_app_assoc "data: "), (feed_event _ feed_empty).
  - by rewrite feed_json.
  - rewrite contains_app, to_string_one_line. done.
Qed.

Lemma feed_done_frame d rest :
  feed_lines feed d (split LF ((done_line +:+ blank_line) +:+ rest))
  = then_lines feed (Ok (Ok (completed_parts d), d)) (split LF rest).
Proof. rewrite str_app_assoc, (feed_event _ feed_empty) by done. by rewrite feed_done. Qed.

(** ** Decoding what the encoder writes *)

Definition announced (d : Decoder) (id : string) : list StreamPart * Decoder :=
  match d_response_id d with
  | None => ([ResponseStarted id],
             {| d_response_id := Some id; d_tool_calls := d_tool_calls d;
                saw_finish := saw_finish d; saw_tool_calls := saw_tool_calls d |})
  | Some _ => ([], d)
  end.

(** The literals the encoder builds, members in the order of their keys. *)
Definition choice_lit (delta finish : Value) : Value :=
  Obj [("delta", delta); ("finish_reason", finish); ("index", json_u64 0)].

Lemma chunk_json_lit id delta finish :
  chunk_json id delta finish []
  = Obj [("choices", Arr [choice_lit delta finish]); ("id", Str id);
         ("object", Str "chat.completion.chunk")].
Proof. reflexivity. Qed.

Lemma chunk_usage_lit id delta finish usage :
  chunk_json id delta finish [("usage", usage)]
  = Obj [("choices", Arr [choice_lit delta finish]); ("id", Str id);
         ("object", Str "chat.completion.chunk"); ("usage", usage)].
Proof. reflexivity. Qed.

Lemma decode_chunk_json d id delta finish :
  decode_chunk d (chunk_json id delta finish [])
  = let '(a, d) := announced d id in
    '(parts, fins, d) ← decode_choice d (choice_lit delta finish);
    Ok (a ++ parts ++ fins, d).
Proof.
  rewrite chunk_json_lit. unfold decode_chunk, decode_standard, announced.
  cbn -[decode_choice choice_lit usage_parts].
  destruct (d_response_id d); cbn -[decode_choice choice_lit];
    by destruct (decode_choice _ _) as [[[parts fins] d']|]; cbn; rewrite ?app_nil_r.
Qed.

Lemma decode_usage_json d id usage :
  decode_chunk d (chunk_json id (obj []) Null [("usage", usage)])
  = let '(a, d) := announced d id in Ok (a ++ usage_parts (Obj [("usage", usage)]), d).
Proof.
  rewrite chunk_usage_lit. unfold decode_chunk, decode_standard, announced.
  cbn -[usage_parts]. destruct (d_response_id d); cbn -[usage_parts];
    by rewrite app_nil_r.
Qed.
End Framing.

Lemma decode_text d t :
  decode_choice d (choice_lit (obj [("content", Str t)]) Null)
  = Ok (if is_empty t then [] else [TextDelta t], [], d).
Proof. cbn. by rewrite app_nil_r. Qed.

Lemma decode_reasoning d t :
  decode_choice d (choice_lit (obj [("reasoning_content", Str t)]) Null)
  = Ok (if is_empty t then [] else [ReasoningDelta t None None], [], d).
Proof. cbn. by rewrite app_nil_r. Qed.

Lemma decode_finish d r :
  decode_choice d (choice_lit (obj []) (Str (finish_str r)))
  = Ok ([], [FinishPart match r with OtherReason _ => Stop | r => r end],
        {| d_response_id := d_response_id d; d_tool_calls := d_tool_calls d;
           saw_finish := true; saw_tool_calls := saw_tool_calls d |}).
Proof. by destruct r. Qed.

(** ** Slots *)

Definition in_capacity (k : nat) : Prop := (Z.of_nat k + 1) * slot_bytes <= i64_max.

Lemma slot_ok l k :
  in_capacity k -> slot l (Z.of_nat k) = Ok (resize (Nat.max (length l) (S k)) ("", "") l).
Proof.
  unfold in_capacity, slot, slot_bytes, i64_max. intros Hk.
  destruct (Z.ltb_spec (Z.of_nat k) (Z.of_nat (length l))).
  - rewrite Nat.max_l by lia. by rewrite resize_all.
  - assert (wrap64 (Z.of_nat k + 1) = Z.of_nat k + 1) as ->
      by (unfold wrap64; apply Z.mod_small; lia).
    destruct (Z.ltb_spec 9223372036854775807 ((Z.of_nat k + 1) * 48)); [lia|].
    replace (Z.to_nat (Z.of_nat k + 1)) with (S k) by lia. rewrite Nat.max_r by lia.
    rewrite length_resize. destruct (Z.ltb_spec (Z.of_nat k) (Z.of_nat (S k))); [done|lia].
Qed.

Lemma fmap_resize {A B} (f : A -> B) n x l : f <$> resize n x l = resize n (f x) (f <$> l).
Proof.
  revert n. induction l as [|y l IH]; intros n.
  - change (f <$> []) with (@nil B). by rewrite !resize_nil, fmap_replicate.
  - destruct n; cbn; [done|]. f_equal. apply IH.
Qed.

Lemma resize_lookup_default {A} (x : A) l k :
  resize (Nat.max (length l) (S k)) x l !! k = Some (default x (l !! k)).
Proof.
  destruct (l !! k) eqn:E.
  - apply lookup_lt_Some in E as Hl. rewrite lookup_resize by lia. by rewrite E.
  - apply lookup_ge_None in E. rewrite lookup_resize_new by lia. done.
Qed.

(** The call ids of the slots when slot [k] is claimed by [id], or touched. *)
Definition claim (ids : list string) (k : nat) (id : string) : list string :=
  <[k := id]> (resize (Nat.max (length ids) (S k)) "" ids).

Definition touch (ids : list string) (k : nat) : list string :=
  resize (Nat.max (length ids) (S k)) "" ids.

Lemma touch_claim ids k id : touch (claim ids k id) k = claim ids k id.
Proof.
  unfold touch, claim. rewrite length_insert, length_resize. apply resize_all_alt.
  rewrite length_insert, length_resize. lia.
Qed.

Lemma touch_touch ids k : touch (touch ids k) k = touch ids k.
Proof.
  unfold touch. rewrite length_resize. apply resize_all_alt. rewrite length_resize. lia.
Qed.

Lemma claim_lookup ids k id : claim ids k id !! k = Some id.
Proof. unfold claim. apply list_lookup_insert_eq. rewrite length_resize. lia. Qed.

Lemma slot_ids l k :
  in_capacity k -> exists l', slot l (Z.of_nat k) = Ok l' /\ fst <$> l' = touch (fst <$> l) k.
Proof.
  intros Hk. rewrite slot_ok by done. eexists. split; [done|].
  unfold touch. by rewrite fmap_resize, length_fmap.
Qed.

Lemma fst_alter (f : string * string -> string * string) g (k : nat)
    (l : list (string * string)) :
  (forall x, fst (f x) = g (fst x)) -> fst <$> alter f k l = alter g k (fst <$> l).
Proof.
  intros Hf. revert k. induction l as [|y l IH]; intros [|k]; cbn; try done.
  - by rewrite Hf.
  - f_equal. apply IH.
Qed.

Lemma set_slot_id l k id :
  in_capacity k ->
  exists l', set_slot l (Z.of_nat k) (fun s => (id, snd s)) = Ok l'
    /\ fst <$> l' = claim (fst <$> l) k id.
Proof.
  intros Hk. destruct (slot_ids l k Hk) as (l' & Hs & Hl). unfold set_slot, mbind, result_bind.
  rewrite Hs, Nat2Z.id. eexists. split; [done|].
  rewrite (fst_alter _ (fun _ => id)) by done. rewrite Hl. unfold claim, touch.
  apply list_eq. intros n. destruct (decide (n = k)) as [->|].
  - rewrite list_lookup_alter_eq, resize_lookup_default.
    rewrite list_lookup_insert_eq by (rewrite length_resize; lia). done.
  - by rewrite list_lookup_alter_ne, list_lookup_insert_ne.
Qed.

Lemma set_slot_name l k n :
  in_capacity k ->
  exists l', set_slot l (Z.of_nat k) (fun s => (fst s, n)) = Ok l'
    /\ fst <$> l' = touch (fst <$> l) k.
Proof.
  intros Hk. destruct (slot_ids l k Hk) as (l' & Hs & Hl). unfold set_slot, mbind, result_bind.
  rewrite Hs, Nat2Z.id. eexists. split; [done|].
  rewrite (fst_alter _ (fun x => x)) by done. by rewrite list_alter_id.
Qed.

(** ** One tool call *)

Definition call_lit (k : nat) (id : string) (name : option string) (args : string) : Value :=
  Obj [("function", set_opt "name" (Str <$> name) (Obj [("arguments", Str args)]));
       ("id", Str id); ("index", json_u64 (Z.of_nat k)); ("type", Str "function")].

Definition call_parts (id : string) (name : option string) (args : string) : list StreamPart :=
  match nonempty name with
  | Some n => tool_delta id (Some n) "" :: (if is_empty args then [] else [tool_delta id None args])
  | None => [tool_delta id None args]
  end.

Lemma tool_call_json_lit k id name args :
  tool_call_json (Z.of_nat k) id name args
  = Obj [("tool_calls", Arr [call_lit k id name args])].
Proof. by destruct name. Qed.

(** The owner of a delta for slot [k] that claims [id]. *)
Definition claimed (ids : list string) (k : nat) (id : string) : string :=
  if is_empty id then default "" (ids !! k) else id.

Lemma decode_call d k id name args :
  in_capacity k ->
  let id' := claimed (fst <$> d_tool_calls d) k id in
  exists l, decode_tool_call d (call_lit k id name args) = Ok (call_parts id' name args, with_calls d l)
    /\ fst <$> l = claim (fst <$> d_tool_calls d) k id'.
Proof.
  intros Hk id'. unfold decode_tool_call, call_lit, call_parts, mbind, result_bind.
  cbv zeta. set (fn := set_opt _ _ _).
  change (default 0 (as_u64 _)) with (Z.of_nat k).
  change (as_str (Obj _).["id"]) with (Some id).
  change (as_str (Obj _).["function"].["name"]) with (as_str fn.["name"]).
  change (as_str (Obj _).["function"].["arguments"]) with (as_str fn.["arguments"]).
  assert (nonempty (as_str fn.["name"]) = nonempty name /\ as_str fn.["arguments"] = Some args)
    as [-> ->] by (by destruct name).
  set (l0 := d_tool_calls d) in *. set (ids := fst <$> l0) in *.
  assert (exists l1, (match nonempty (Some id) with
                      | Some tc_id => set_slot l0 (Z.of_nat k) (fun s => (tc_id, snd s))
                      | None => Ok l0
                      end) = Ok l1 /\ touch (fst <$> l1) k = claim ids k id') as (l1 & -> & H1).
  { unfold id', claimed, nonempty. destruct (is_empty id).
    - exists l0. split; [done|]. fold ids. unfold claim, touch. symmetry.
      apply list_insert_id. apply resize_lookup_default.
    - destruct (set_slot_id l0 k id Hk) as (l1 & -> & Hl1). exists l1. split; [done|].
      rewrite Hl1. apply touch_claim. }
  assert (exists l2, (match nonempty name with
                      | Some n => set_slot l1 (Z.of_nat k) (fun s => (fst s, n))
                      | None => Ok l1
                      end) = Ok l2 /\ touch (fst <$> l2) k = claim ids k id') as (l2 & E2 & H2).
  { destruct (nonempty name) as [n|].
    - destruct (set_slot_name l1 k n Hk) as (l2 & -> & Hl2). exists l2. split; [done|].
      by rewrite Hl2, touch_touch.
    - by exists l1. }
  destruct (slot_ids l2 k Hk) as (l3 & E3 & H3).
  exists l3. split; [|congruence]. rewrite E2, E3, Nat2Z.id.
  assert (fst (default ("", "") (l3 !! k)) = id') as ->.
  { assert ((fst <$> l3) !! k = Some id') as Hf by (rewrite H3, H2; apply claim_lookup).
    rewrite list_lookup_fmap in Hf. destruct (l3 !! k); [|done]. by injection Hf. }
  by destruct (nonempty name).
Qed.

Lemma decode_tool d k id name args :
  in_capacity k ->
  let id' := claimed (fst <$> d_tool_calls d) k id in
  exists l, decode_choice d (choice_lit (tool_call_json (Z.of_nat k) id name args) Null)
      = Ok (call_parts id' name args, [], with_calls d l)
    /\ fst <$> l = claim (fst <$> d_tool_calls d) k id'.
Proof.
  intros Hk id'. destruct (decode_call d k id name args Hk) as (l & Hd & Hl).
  exists l. split; [|done]. rewrite tool_call_json_lit. unfold decode_choice.
  change (as_array (choice_lit (Obj [("tool_calls", Arr [call_lit k id name args])]) Null).["delta"].["tool_calls"])
    with (Some [call_lit k id name args]).
  cbn [decode_tool_calls]. unfold mbind, result_bind. rewrite Hd.
  cbn -[call_parts]. by rewrite !app_nil_r.
Qed.

(** ** The relay invariant *)

Record linked (st : Relay) (e : Encoder) (d : Decoder) : Prop := {
  lk_cur : default "" (e_response_id e) = cur st;
  lk_sent : d_response_id d = sent st;
  lk_fin : saw_finish d = fin_seen st;
  lk_tools : saw_tool_calls d = tools_seen st;
  lk_named : ("" : string) ∉ seen st;
  lk_size : size (tool_call_indices e) = length (seen st);
  lk_nodup : NoDup (seen st);
  lk_index id z : tool_call_indices e !! id = Some z
                  <-> exists n, seen st !! n = Some id /\ z = Z.of_nat n;
  lk_slots : exists m, fst <$> d_tool_calls d = seen st ++ replicate m "";
}.

Lemma touch_full l m k :
  (k < length l)%nat -> touch (l ++ replicate m "") k = l ++ replicate m "".
Proof. intros Hk. unfold touch. apply resize_all_alt. rewrite length_app. lia. Qed.

Lemma resize_blank (l : list string) m n :
  (length l <= n)%nat -> resize n "" (l ++ replicate m "") = l ++ replicate (n - length l) "".
Proof. intros Hn. rewrite resize_app_ge by done. by rewrite resize_replicate. Qed.

(** The slot the encoder picks belongs to the owner of the delta. *)
Lemma pick_slot st e d id :
  linked st e d -> in_capacity (length (seen st)) ->
  exists k e', tool_call_index e id = (Z.of_nat k, e') /\ (k <= length (seen st))%nat
    /\ claimed (fst <$> d_tool_calls d) k id = owner st id
    /\ (exists m, claim (fst <$> d_tool_calls d) k (owner st id) = opened st id ++ replicate m "")
    /\ e_response_id e' = e_response_id e
    /\ size (tool_call_indices e') = length (opened st id)
    /\ (forall id' z, tool_call_indices e' !! id' = Some z
          <-> exists n, opened st id !! n = Some id' /\ z = Z.of_nat n).
Proof.
  intros [] Hcap. destruct lk_slots0 as [m Hm]. unfold tool_call_index, claimed, owner, opened.
  rewrite lk_size0, Hm. destruct (is_empty id) eqn:Eid.
  - exists (length (seen st) - 1)%nat, e. cbn [orb].
    destruct (decide (seen st = [])) as [Hs|Hs].
    + rewrite Hs in *. cbn. split_and!; try done.
      * by destruct m.
      * exists (Nat.max m 1). unfold claim. cbn. rewrite length_replicate.
        rewrite resize_replicate. destruct (Nat.max m 1) eqn:E; [lia|]. done.
    + assert (length (seen st) <> 0)%nat by (by destruct (seen st)).
      assert (seen st !! (length (seen st) - 1)%nat = last (seen st)) as Hlast
        by (rewrite last_lookup; f_equal; lia).
      destruct (last (seen st)) as [x|] eqn:El; [|by apply last_None in El].
      assert ((seen st ++ replicate m "") !! (length (seen st) - 1)%nat = Some x) as Hx
        by (by rewrite lookup_app_l by lia).
      split_and!; try done.
      * f_equal. unfold sat_sub. lia.
      * lia.
      * by rewrite Hx.
      * exists m. unfold claim. fold (touch (seen st ++ replicate m "") (length (seen st) - 1)).
        rewrite touch_full by lia. cbn [default]. by apply list_insert_id.
  - cbn [orb]. destruct (tool_call_indices e !! id) as [z|] eqn:Ei.
    + apply lk_index0 in Ei as (k & Hk & ->). exists k, e.
      pose proof (lookup_lt_Some _ _ _ Hk).
      rewrite bool_decide_true by (by eapply list_elem_of_lookup_2).
      split_and!; try done; [lia|]. exists m. unfold claim.
      fold (touch (seen st ++ replicate m "") k). rewrite touch_full by done.
      apply list_insert_id. by rewrite lookup_app_l.
    + assert (id ∉ seen st) as Hn.
      { intros (k & Hk)%list_elem_of_lookup.
        assert (tool_call_indices e !! id = Some (Z.of_nat k)) by (apply lk_index0; eauto).
        congruence. }
      rewrite bool_decide_false by done. exists (length (seen st)). eexists.
      split_and!; [done|done|done| |done| |].
      * exists (m - 1)%nat. unfold claim.
        rewrite resize_blank by lia. rewrite length_app, length_replicate.
        replace (Nat.max (length (seen st) + m) (S (length (seen st))) - length (seen st))%nat
          with (S (m - 1)) by lia. cbn [replicate].
        rewrite insert_app_r_alt, Nat.sub_diag by lia. cbn. by rewrite <- app_assoc.
      * cbn. rewrite map_size_insert_None by done. rewrite length_app. cbn. lia.
      * intros id' z. cbn. rewrite lookup_insert_Some. split.
        -- intros [[<- <-]|[Hne Hz]].
           ++ exists (length (seen st)). split; [|done]. by rewrite lookup_app_r, Nat.sub_diag.
           ++ apply lk_index0 in Hz as (n & Hn' & ->). exists n. split; [|done].
              apply lookup_app_Some. by left.
        -- intros (n & [Hn'|[Hge Hn']]%lookup_app_Some & ->).
           ++ right. split; [intros ->; by apply list_elem_of_lookup_2 in Hn'|].
              apply lk_index0. eauto.
           ++ left. apply list_lookup_singleton_Some in Hn' as [? <-]. split; [done|lia].
Qed.

(** ** Usage *)

(** The counters are unsigned and their sum fits in 64 bits. *)
Definition usage_ok (u : Usage) : Prop :=
  0 <= prompt_tokens u /\ 0 <= completion_tokens u
  /\ 0 <= default 0 (cache_read_tokens u) /\ 0 <= default 0 (cache_write_tokens u)
  /\ 0 <= default 0 (reasoning_tokens u) <= u64_max
  /\ prompt_tokens u + default 0 (cache_read_tokens u) + default 0 (cache_write_tokens u)
     + completion_tokens u <= u64_max.

Definition details_lit (cr cw : option Z) : list (string * Value) :=
  match drop_zero cw, drop_zero cr with
  | Some w, Some r => [("cache_write_tokens", json_u64 w); ("cached_tokens", json_u64 r)]
  | Some w, None => [("cache_write_tokens", json_u64 w)]
  | None, Some r => [("cached_tokens", json_u64 r)]
  | None, None => []
  end.

Definition usage_lit (p c t : Z) (rt cr cw : option Z) : Value :=
  Obj ([("completion_tokens", json_u64 c)]
       ++ match drop_zero rt with
          | Some n => [("completion_tokens_details", Obj [("reasoning_tokens", json_u64 n)])]
          | None => []
          end
       ++ [("prompt_tokens", json_u64 p)]
       ++ match details_lit cr cw with
          | [] => []
          | l => [("prompt_tokens_details", Obj l)]
          end
       ++ [("total_tokens", json_u64 t)]).

Lemma usage_json_lit u :
  usage_ok u ->
  usage_json u
  = usage_lit (prompt_tokens u + default 0 (cache_read_tokens u) + default 0 (cache_write_tokens u))
      (completion_tokens u) (total_tokens (relayed_usage u))
      (reasoning_tokens u) (cache_read_tokens u) (cache_write_tokens u).
Proof.
  intros (Hp & Hc & Hr & Hw & Ht & Hs). unfold usage_json. cbv zeta.
  assert (forall x, 0 <= x <= u64_max -> wrap64 x = x) as Hwrap
    by (intros x Hx; apply wrap64_small; by apply in_u64_iff).
  rewrite !Hwrap by (rewrite ?Hwrap; lia). unfold usage_lit, details_lit, relayed_usage, positive_member. cbn [total_tokens].
  unfold drop_zero. destruct (reasoning_tokens u) as [rt|], (cache_read_tokens u) as [cr|],
    (cache_write_tokens u) as [cw|];
    repeat match goal with |- context [0 <? ?x] => destruct (0 <? x) end; reflexivity.
Qed.

Lemma drop_zero_default o : 0 <= default 0 o -> default 0 (drop_zero o) = default 0 o.
Proof. destruct o as [n|]; cbn; [|done]. intros. destruct (Z.ltb_spec 0 n); cbn; lia. Qed.

Lemma decode_usage u :
  usage_ok u -> usage_parts (Obj [("usage", usage_json u)]) = [UsagePart (relayed_usage u)].
Proof.
  intros Hu. rewrite usage_json_lit by done.
  destruct Hu as (Hp & Hc & Hr & Hw & Ht & Hs).
  assert (forall p c t rt cr cw, usage_parts (Obj [("usage", usage_lit p c t rt cr cw)])
    = [UsagePart {| prompt_tokens := sat_sub (sat_sub p (default 0 (drop_zero cr)))
                                       (default 0 (drop_zero cw));
                    completion_tokens := c; reasoning_tokens := drop_zero rt;
                    cache_read_tokens := drop_zero cr; cache_write_tokens := drop_zero cw;
                    total_tokens := t |}]) as ->.
  { intros. unfold usage_lit, details_lit.
    by destruct (drop_zero rt), (drop_zero cr), (drop_zero cw). }
  do 2 f_equal. unfold relayed_usage. f_equal.
  rewrite !drop_zero_default by done. unfold sat_sub. lia.
Qed.

Lemma usage_exact u : usage_ok u -> exact (usage_json u) = true.
Proof.
  intros Hu. rewrite usage_json_lit by done.
  destruct Hu as (Hp & Hc & Hr & Hw & Ht & Hs).
  assert (forall x, 0 <= x <= u64_max -> (0 <=? x) && (x <=? u64_max) = true) as Hx
    by (intros x Hx; apply andb_true_intro; split; apply Z.leb_le; lia).
  unfold usage_lit, details_lit, relayed_usage, drop_zero. cbn [total_tokens].
  destruct (reasoning_tokens u) as [rt|], (cache_read_tokens u) as [cr|],
    (cache_write_tokens u) as [cw|]; cbn in *;
    repeat match goal with |- context [0 <? ?x] => destruct (Z.ltb_spec 0 x) end;
    cbn; rewrite ?Hx by lia; done.
Qed.

Lemma exact_chunk id delta finish :
  exact delta = true -> exact finish = true -> exact (chunk_json id delta finish []) = true.
Proof. intros Hd Hf. rewrite chunk_json_lit. cbn. by rewrite Hd, Hf. Qed.

Lemma exact_call k id name args :
  in_capacity k -> exact (tool_call_json (Z.of_nat k) id name args) = true.
Proof.
  unfold in_capacity, slot_bytes, i64_max. intros Hk. rewrite tool_call_json_lit.
  assert ((0 <=? Z.of_nat k) && (Z.of_nat k <=? u64_max) = true) as Hr
    by (apply andb_true_intro; unfold u64_max; split; apply Z.leb_le; lia).
  destruct name; cbn; by rewrite Hr.
Qed.

Section Roundtrip.
Context `{J : SerdeJson} `{!SerdeJsonLaws J} `{Lowercase}.

Lemma decode_error_json d message c code :
  decode_chunk d (error_json message c code)
  = let code := default (error_type_for_class c) code in
    Ok ([ErrorPart message (classify_upstream_error None (Some code)) (Some code)], d).
Proof. by destruct code. Qed.

(** What [linked] needs from the three states. *)
Lemma linked_ext st e d st' e' d' :
  linked st e d -> default "" (e_response_id e') = cur st' -> d_response_id d' = sent st' ->
  saw_finish d' = fin_seen st' -> saw_tool_calls d' = tools_seen st' ->
  tool_call_indices e' = tool_call_indices e -> seen st' = seen st ->
  d_tool_calls d' = d_tool_calls d -> linked st' e' d'.
Proof. intros [] ? ? ? ? He Hs Hd. constructor; rewrite ?He, ?Hs, ?Hd; auto. Qed.

Lemma linked_announce st e d :
  linked st e d ->
  let '(a, st') := announce st in
  seen st' = seen st
  /\ exists d', announced d (default "" (e_response_id e)) = (a, d') /\ linked st' e d'.
Proof.
  intros Hl. pose proof Hl as []. unfold announce, announced. rewrite lk_cur0, lk_sent0.
  destruct (sent st) eqn:E; (split; [done|]); eexists; (split; [done|]); [done|].
  by eapply linked_ext.
Qed.

Definition part_ok (p : StreamPart) : Prop :=
  match p with UsagePart u => usage_ok u | _ => True end.

(** A frame with one choice. *)
Lemma feed_choice d id delta finish a d1 parts fins d2 rest :
  exact delta = true -> exact finish = true ->
  announced d id = (a, d1) ->
  decode_choice d1 (choice_lit delta finish) = Ok (parts, fins, d2) ->
  feed_lines feed d (split LF (frame (chunk_json id delta finish []) +:+ rest))
  = then_lines feed (Ok (Ok (a ++ parts ++ fins), d2)) (split LF rest).
Proof.
  intros Hd Hf Ha Hc. pose proof (exact_chunk id _ _ Hd Hf) as Hx.
  pose proof (decode_chunk_json d id delta finish) as Hj.
  rewrite chunk_json_lit in *. rewrite feed_frame by done. rewrite Hj, Ha.
  unfold mbind, result_bind. by rewrite Hc.
Qed.

Definition step_ok (st : Relay) (e : Encoder) (d : Decoder) (p : StreamPart) : Prop :=
  let '(out, e') := encode_part e p in
  let '(parts, st') := relay_part st p in
  (length (seen st') <= S (length (seen st)))%nat
  /\ exists d', linked st' e' d'
       /\ forall rest, feed_lines feed d (split LF (out +:+ rest))
                       = then_lines feed (Ok (Ok parts, d')) (split LF rest).

Lemma step_silent st e d :
  linked st e d ->
  exists d', linked st e d'
    /\ forall rest, feed_lines feed d (split LF ("" +:+ rest)) = then_lines feed (Ok (Ok [], d')) (split LF rest).
Proof.
  intros Hl. exists d. split; [done|]. intros rest. rewrite str_app_nil_l. unfold then_lines. cbn.
  by destruct (feed_lines feed d (split LF rest)) as [[[]]|].
Qed.

Lemma step_text st e d t : linked st e d -> step_ok st e d (TextDelta t).
Proof.
  intros Hl. pose proof (linked_announce _ _ _ Hl) as Ha. unfold step_ok. cbn.
  destruct (announce st) as [a st1]. destruct Ha as (Hs & d1 & Ha & Hl1). rewrite Hs.
  split; [lia|]. exists d1. split; [done|]. intros rest.
  erewrite feed_choice; [|done|done|exact Ha|apply decode_text]. by rewrite app_nil_r.
Qed.

Lemma step_reasoning st e d t i en : linked st e d -> step_ok st e d (ReasoningDelta t i en).
Proof.
  intros Hl. pose proof (linked_announce _ _ _ Hl) as Ha. unfold step_ok. cbn.
  destruct (announce st) as [a st1]. destruct Ha as (Hs & d1 & Ha & Hl1). rewrite Hs.
  split; [lia|]. exists d1. split; [done|]. intros rest.
  erewrite feed_choice; [|done|done|exact Ha|apply decode_reasoning]. by rewrite app_nil_r.
Qed.

Lemma step_finish st e d r : linked st e d -> step_ok st e d (FinishPart r).
Proof.
  intros Hl. pose proof (linked_announce _ _ _ Hl) as Ha. unfold step_ok. cbn [encode_part relay_part].
  destruct (announce st) as [a st1]. destruct Ha as (Hs & d1 & Ha & Hl1). cbn [seen]. rewrite Hs.
  split; [lia|]. eexists. split; [|intros rest].
  2: { erewrite feed_choice; [|done|done|exact Ha|apply decode_finish]. done. }
  pose proof Hl1 as []. by eapply linked_ext.
Qed.

Lemma step_usage st e d u : linked st e d -> usage_ok u -> step_ok st e d (UsagePart u).
Proof.
  intros Hl Hu. pose proof (linked_announce _ _ _ Hl) as Ha. unfold step_ok. cbn [encode_part relay_part].
  destruct (announce st) as [a st1]. destruct Ha as (Hs & d1 & Ha & Hl1). rewrite Hs.
  split; [lia|]. exists d1. split; [done|]. intros rest.
  pose proof (decode_usage_json d (default "" (e_response_id e)) (usage_json u)) as Hj.
  rewrite chunk_usage_lit in Hj |- *. rewrite feed_frame.
  - by rewrite Hj, Ha, decode_usage.
  - cbn. by rewrite usage_exact.
Qed.

Lemma step_error st e d m c code : linked st e d -> step_ok st e d (ErrorPart m c code).
Proof.
  intros Hl. unfold step_ok. cbn [encode_part relay_part].
  split; [lia|]. exists d. split; [done|]. intros rest.
  pose proof (decode_error_json d m c code) as Hj.
  assert (exact (error_json m c code) = true) as Hx by (by destruct code).
  unfold error_json, obj in *. rewrite feed_frame by done. by rewrite Hj.
Qed.

Lemma step_tool st e d id name args wt it ca :
  linked st e d -> in_capacity (length (seen st)) ->
  step_ok st e d (ToolCallDelta id name args wt it ca).
Proof.
  intros Hl Hcap. pose proof (linked_announce _ _ _ Hl) as Ha. unfold step_ok.
  cbn [encode_part relay_part].
  destruct (announce st) as [a st1]. destruct Ha as (Hs & d1 & Ha & Hl1).
  rewrite <- Hs in Hcap |- *.
  destruct (pick_slot st1 e d1 id Hl1 Hcap) as (k & e' & -> & Hk & Ho & [m Hm] & He & Hsz & Hix).
  assert (in_capacity k) as Hkc by (unfold in_capacity, slot_bytes in *; lia).
  destruct (decode_tool d1 k id name args Hkc) as (l & Hd & Hf). rewrite Ho in Hd, Hf.
  cbn [seen]. split.
  { unfold opened. destruct (_ || _); [lia|]. rewrite length_app. cbn. lia. }
  exists (with_calls d1 l). split.
  - pose proof Hl1 as []. constructor; cbn; try done.
    + by rewrite He.
    + unfold opened. destruct (is_empty id || _) eqn:Eo; [done|].
      apply orb_false_elim in Eo as [Ei _]. intros [?|Hin]%elem_of_app; [done|].
      apply list_elem_of_singleton in Hin as <-. done.
    + unfold opened. destruct (is_empty id || _) eqn:Eo; [done|].
      apply orb_false_elim in Eo as [_ En%bool_decide_eq_false].
      apply NoDup_app. split_and!; [done| |apply NoDup_singleton].
      intros x Hx ->%list_elem_of_singleton. done.
    + exists m. by rewrite Hf, Hm.
  - intros rest. erewrite feed_choice;
      [|by apply exact_call|done|exact Ha|exact Hd].
    by rewrite app_nil_r.
Qed.

Lemma relay_step st e d p :
  linked st e d -> part_ok p -> in_capacity (length (seen st)) -> step_ok st e d p.
Proof.
  intros Hl Hp Hcap. pose proof (step_silent _ _ _ Hl) as Hsil.
  destruct p; eauto using step_text, step_reasoning, step_finish, step_usage, step_error, step_tool.
  - by split; [cbn; lia|].
  - by split; [cbn; lia|].
  - split; [cbn; lia|]. destruct (step_silent _ _ _ Hl) as (d' & Hl' & Hf). exists d'.
    split; [|done]. pose proof Hl' as []. by eapply linked_ext.
  - split; [cbn; lia|]. exists d. split; [done|]. intros rest.
    cbn [encode_part]. rewrite feed_done_frame.
    unfold completed_parts. destruct Hl. by rewrite lk_fin0, lk_tools0, lk_sent0.
Qed.
End Roundtrip.

Section Stream.
Context `{J : SerdeJson} `{!SerdeJsonLaws J} `{Lowercase}.

Lemma relay_stream parts st e d :
  linked st e d -> Forall part_ok parts ->
  in_capacity (length (seen st) + length parts) ->
  exists d', feed_lines feed d (split LF (encode_parts e parts)) = Ok (Ok (relay st parts), d').
Proof.
  revert st e d. induction parts as [|p parts IH]; intros st e d Hl Hp Hcap.
  - exists d. done.
  - apply Forall_cons in Hp as [Hp Hps].
    pose proof (relay_step st e d p Hl Hp) as Hstep. unfold step_ok in Hstep.
    cbn [encode_parts relay]. cbn [length] in Hcap.
    destruct (encode_part e p) as [out e']. destruct (relay_part st p) as [q st'].
    destruct Hstep as (Hlen & d1 & Hl1 & Hfeed).
    { unfold in_capacity, slot_bytes in *. lia. }
    rewrite Hfeed. destruct (IH st' e' d1 Hl1 Hps) as (d' & Hd').
    { unfold in_capacity, slot_bytes in *. lia. }
    exists d'. unfold then_lines, mbind, result_bind. by rewrite Hd'.
Qed.

Lemma linked_new : linked Relay_new Encoder_new Decoder_new.
Proof.
  constructor; cbn; try done.
  - by intros ?%elem_of_nil.
  - constructor.
  - intros id z. rewrite lookup_empty. split; [done|]. by intros (n & ? & _).
  - by exists 0%nat.
Qed.
End Stream.

(** C29: A Chat Completions stream survives the wire.  Whatever parts the
    encoder is given, the decoder fed with the lines of the produced bytes
    returns them in order: texts and reasoning deltas that are not empty, tool
    call deltas bound to the right call (an anonymous delta to the call opened
    last), the usage with the caches taken out of the prompt again, the finish
    reason, the error with its code, the announcement of the response before
    the first chunk and its completion at the end.  Nothing panics and nothing
    fails to parse, however many calls run in parallel. *)
Theorem chat_stream_roundtrip `{J : SerdeJson} `{Lowercase} parts :
  SerdeJsonLaws J -> Forall part_ok parts -> in_capacity (length parts) ->
  exists d, feed_lines feed Decoder_new (split LF (encode_parts Encoder_new parts))
            = Ok (Ok (relay Relay_new parts), d).
Proof. intros HJ Hp Hc. apply relay_stream; [apply linked_new|done|done]. Qed.

(** Two calls whose arguments are interleaved, an anonymous delta, usage. *)
Definition sample_parts : list StreamPart :=
  [ResponseStarted "resp-1";
   TextDelta "hello";
   ToolCallDelta "a" (Some "f") "" None None None;
   ToolCallDelta "b" (Some "g") "{" None None None;
   ToolCallDelta "a" None "1" None None None;
   ToolCallDelta "" None "}" None None None;
   UsagePart {| prompt_tokens := 7; completion_tokens := 2; reasoning_tokens := None;
                cache_read_tokens := Some 3; cache_write_tokens := Some 0; total_tokens := 0 |};
   FinishPart ToolCalls;
   ResponseCompleted "resp-1" "completed" None ∅].

Lemma chat_stream_roundtrip_witness :
  (exists d, feed_lines (@feed coded_json ascii_folding) Decoder_new
      (split LF (@encode_parts coded_json Encoder_new sample_parts))
    = Ok (Ok (@relay ascii_folding Relay_new sample_parts), d))
  /\ @relay ascii_folding Relay_new sample_parts
     = [ResponseStarted "resp-1"; TextDelta "hello";
        tool_delta "a" (Some "f") ""; tool_delta "b" (Some "g") ""; tool_delta "b" None "{";
        tool_delta "a" None "1"; tool_delta "b" None "}";
        UsagePart {| prompt_tokens := 7; completion_tokens := 2; reasoning_tokens := None;
                     cache_read_tokens := Some 3; cache_write_tokens := None;
                     total_tokens := 12 |};
        FinishPart ToolCalls; ResponseCompleted "resp-1" "completed" None ∅].
Proof.
  split; [|by vm_compute].
  apply (@chat_stream_roundtrip coded_json ascii_folding sample_parts).
  - apply coded_json_laws.
  - repeat (apply Forall_cons_2; [cbn; unfold usage_ok; cbn; unfold u64_max; try lia; done|]).
    apply Forall_nil_2.
  - unfold in_capacity, slot_bytes, i64_max. cbn. lia.
Defined.

(** A single frame of an upstream can crash the gateway: a tool call with
    an [index] of more than about 2 * 10^17 makes the decoder ask for a vector
    larger than the address space, which panics whatever its state, and in a
    release build a panic aborts the process. *)
Theorem huge_tool_index_panics d index name :
  i64_max < (index + 1) * slot_bytes -> index < u64_max ->
  Z.of_nat (length (d_tool_calls d)) <= index -> name <> "" ->
  decode_tool_call d (Obj [("function", Obj [("name", Str name)]); ("index", json_u64 index)])
  = Err CapacityOverflow.
Proof.
  unfold decode_tool_call, slot_bytes, i64_max, u64_max. intros Hi Hmax Hl Hn.
  change (as_str _.["id"]) with (@None string). cbn [nonempty].
  change (as_str _.["name"]) with (Some name). cbn [nonempty].
  destruct (is_empty name) eqn:En; [by destruct name|].
  change (default 0 (as_u64 _)) with index.
  unfold mbind, result_bind, set_slot, slot, slot_bytes, mbind, result_bind, i64_max.
  destruct (Z.ltb_spec index (Z.of_nat (length (d_tool_calls d)))); [lia|].
  assert (wrap64 (index + 1) = index + 1) as -> by (unfold wrap64; apply Z.mod_small; lia).
  destruct (Z.ltb_spec 9223372036854775807 ((index + 1) * 48)); [done|lia].
Qed.

Lemma huge_tool_index_panics_witness :
  decode_tool_call Decoder_new
    (Obj [("function", Obj [("name", Str "f")]); ("index", json_u64 (2 ^ 60))])
  = Err CapacityOverflow.
Proof.
  apply (huge_tool_index_panics Decoder_new (2 ^ 60) "f");
    unfold i64_max, slot_bytes, u64_max; cbn; try lia; discriminate.
Defined.
