(* ===== verification/Streaming.v ===== *)
(** * Streaming: the bridge from an upstream stream to the client

    [crates/server/src/ingress/streaming.rs]: [drive_upstream_stream] forwards
    the bytes of an upstream (verbatim, or decoded and encoded again between
    two protocols), watches the idle and the total timer, and ends the stream
    in the client's protocol; [StreamCaptureGuard] records the exchange and
    corrects the health of the target.

    The codecs are the interfaces [StreamDecoder] and [StreamEncoder] of
    [crates/core/src/protocol/mod.rs].  The asynchronous body is a
    state and panic monad over a [World]; the polls of the runtime, with what
    the upstream has ready at each of them, are its input, and the client may
    go away at every point where the body is suspended. *)

From stdpp Require Import base option list gmap strings.
From Stdlib Require Import ZArith Lia Ascii.
From S2P Require Import Prelude RustStr F64 Json Telemetry Protocol Classify Health Ir Utf8 ResponseModel.

Local Open Scope string_scope.
Local Open Scope list_scope.
Local Open Scope Z_scope.

(** ** The codec interfaces *)

Class StreamEncoder (E : Type) := {
  encode_part : E -> StreamPart -> run (result Error string * E);
  encode_error : E -> string -> ErrorClass -> option string -> run (string * E);
  encode_done : E -> run (string * E);
}.

Class StreamDecoder (D : Type) := {
  feed : D -> string -> run (result Error (list StreamPart) * D);
  finish : D -> run (result Error (list StreamPart) * D);
}.

(** ** Lines *)

(** The complete lines of a buffer, without their line feeds, and the rest. *)
Fixpoint split_sse_lines (buf : string) : list string * string :=
  match buf with
  | EmptyString => ([], "")
  | String a r =>
      let '(lines, remainder) := split_sse_lines r in
      if Ascii.eqb a LF then ("" :: lines, remainder)
      else match lines with
           | [] => ([], String a remainder)
           | w :: t => (String a w :: t, remainder)
           end
  end.

(** [str::lines]: a return before the line feed is dropped too. *)
Fixpoint strip_cr (s : string) : string :=
  match s with
  | EmptyString => ""
  | String a EmptyString => if Ascii.eqb a CR then "" else s
  | String a r => String a (strip_cr r)
  end.

Definition str_lines (s : string) : list string :=
  let '(lines, remainder) := split_sse_lines s in
  map strip_cr lines ++ (if is_empty remainder then [] else [remainder]).

Definition ends_with (p s : string) : bool :=
  (String.length p <=? String.length s)%nat
  && String.eqb (drop_bytes (String.length s - String.length p) s) p.

Definition LFLF : string := String LF (String LF "").
Definition CRLFCRLF : string := String CR (String LF (String CR (String LF ""))).

Definition tail_ends_on_frame_boundary (tail : string) : bool :=
  if is_empty tail then true else ends_with LFLF tail || ends_with CRLFCRLF tail.

Definition TAIL_CAP : nat := 512.

Definition push_tail (tail bytes : string) : string :=
  let t := tail +:+ bytes in drop_bytes (String.length t - TAIL_CAP) t.

(** A word between quotation marks. *)
Definition quoted (s : string) : string := String (chr 34) (s +:+ String (chr 34) "").

(** ** Signals in verbatim bytes *)

Section Signals.
Context `{SerdeJson} `{Lowercase}.

Definition terminal_type (t : string) : bool :=
  String.eqb t "response.completed" || String.eqb t "response.failed"
  || String.eqb t "response.incomplete" || String.eqb t "message_stop".

Definition note_error (error : Value) (a : UsageAccumulator) : UsageAccumulator :=
  let message := default "upstream stream error" (as_str error.["message"]) in
  let code := match as_str error.["type"] with Some c => Some c | None => as_str error.["code"] end in
  UsageAccumulator.set_upstream_error a message code.

Definition object_of (o : option Value) : option Value :=
  match o with Some e => if is_object e then Some e else None | None => None end.

(** A [data:] payload that has a member called [type] somewhere. *)
Definition typed_payload (has_error : bool) (json_str : string) (a : UsageAccumulator)
    : UsageAccumulator :=
  match from_str json_str with
  | None => a
  | Some value =>
      let a := match as_str value.["type"] with
               | Some t => if terminal_type t then UsageAccumulator.set_upstream_terminal a else a
               | None => a
               end in
      if has_error && contains (quoted "error") json_str then
        let error := match get "error" value with
                     | Some e => Some e
                     | None => get "response" value ≫= get "error"
                     end in
        match object_of error with Some error => note_error error a | None => a end
      else a
  end.

Definition untyped_payload (json_str : string) (a : UsageAccumulator) : UsageAccumulator :=
  match from_str json_str with
  | None => a
  | Some value =>
      match object_of (get "error" value) with Some error => note_error error a | None => a end
  end.

Definition scan_line (has_error has_type : bool) (a : UsageAccumulator) (line : string)
    : UsageAccumulator :=
  let trimmed := trim line in
  match strip_prefix "event:" trimmed with
  | Some ev =>
      if String.eqb (trim ev) "message_stop" then UsageAccumulator.set_upstream_terminal a else a
  | None =>
      match strip_prefix "data:" trimmed with
      | None => a
      | Some rest =>
          let json_str := trim rest in
          if String.eqb json_str "[DONE]" then UsageAccumulator.set_upstream_terminal a
          else if is_empty json_str then a
          else if has_type && contains (quoted "type") json_str
               then typed_payload has_error json_str a
          else if has_error && contains (quoted "error") json_str
               then untyped_payload json_str a
          else a
      end
  end.

Definition detect_verbatim_signals (bytes : string) (a : UsageAccumulator) : UsageAccumulator :=
  let has_error := contains (quoted "error") bytes in
  let has_done := contains "[DONE]" bytes in
  let has_type := contains (quoted "type") bytes in
  let has_event := contains "event:" bytes in
  if negb has_error && negb has_done && negb has_type && negb has_event then a
  else fold_left (scan_line has_error has_type) (str_lines (from_utf8_lossy bytes)) a.
End Signals.

(** ** The capture guard *)

Record StreamCapture := {
  sc_request_id : string;
  sc_egress_method : string;
  sc_egress_path : string;
  sc_egress_headers : list (string * string);
  sc_egress_body : option string;
  sc_upstream_status : option Z;
  sc_upstream_resp_headers : list (string * string);
  sc_client_resp_headers : list (string * string);
  sc_health : bool;                (* a registry is attached *)
  sc_health_key : option string;
}.

Record ExchangeCapture := {
  request_id : string;
  egress_method : string;
  egress_path : string;
  egress_headers : list (string * string);
  egress_body : option string;
  upstream_status : option Z;
  upstream_resp_headers : list (string * string);
  upstream_resp_body : option string;
  client_resp_headers : list (string * string);
  client_resp_body : option string;
  is_stream : bool;
  truncation_reason : option string;
  stream_duration_ms : option Z;
  capture_upstream_error : option string;
  capture_upstream_error_class : option string;
}.

(** [StreamCaptureState] with what else the guard holds. *)
Record Guard := {
  capture : option StreamCapture;
  upstream_body : string;
  client_body : string;
  started : Z;
  last_reason : option TruncationReason;
  finalized : bool;
  upstream_completed : bool;
  accum : UsageAccumulator;
  health : bool;
  health_key : option string;
}.

Definition StreamCaptureGuard_new (c : option StreamCapture) (a : UsageAccumulator) (now : Z)
    : Guard :=
  {| capture := c; upstream_body := ""; client_body := ""; started := now;
     last_reason := None; finalized := false; upstream_completed := false; accum := a;
     health := match c with Some c => sc_health c | None => false end;
     health_key := c ≫= sc_health_key |}.

Definition with_accum (f : UsageAccumulator -> UsageAccumulator) (g : Guard) : Guard :=
  {| capture := capture g; upstream_body := upstream_body g; client_body := client_body g;
     started := started g; last_reason := last_reason g; finalized := finalized g;
     upstream_completed := upstream_completed g; accum := f (accum g); health := health g;
     health_key := health_key g |}.

Definition append_upstream (bytes : string) (g : Guard) : Guard :=
  {| capture := capture g; upstream_body := upstream_body g +:+ bytes;
     client_body := client_body g; started := started g; last_reason := last_reason g;
     finalized := finalized g; upstream_completed := upstream_completed g; accum := accum g;
     health := health g; health_key := health_key g |}.

Definition append_client (bytes : string) (g : Guard) : Guard :=
  {| capture := capture g; upstream_body := upstream_body g;
     client_body := client_body g +:+ bytes; started := started g; last_reason := last_reason g;
     finalized := finalized g; upstream_completed := upstream_completed g; accum := accum g;
     health := health g; health_key := health_key g |}.

Definition set_reason (reason : option TruncationReason) (g : Guard) : Guard :=
  {| capture := capture g; upstream_body := upstream_body g; client_body := client_body g;
     started := started g; last_reason := reason; finalized := finalized g;
     upstream_completed := upstream_completed g; accum := accum g; health := health g;
     health_key := health_key g |}.

Definition mark_upstream_completed (g : Guard) : Guard :=
  {| capture := capture g; upstream_body := upstream_body g; client_body := client_body g;
     started := started g; last_reason := last_reason g; finalized := finalized g;
     upstream_completed := true; accum := accum g; health := health g;
     health_key := health_key g |}.

Definition saw_error (g : Guard) : bool := bool_decide (is_Some (upstream_error (accum g))).

(** [record_health_failure_if_needed], when it records one. *)
Definition should_fail (g : Guard) : bool :=
  match last_reason g with
  | Some UpstreamError | Some Idle | Some Total => true
  | _ => false
  end || saw_error g.

Definition drop_fallback_reason (g : Guard) : option TruncationReason :=
  if upstream_completed g || bool_decide (is_Some (last_reason g))
     || upstream_terminal (accum g) || saw_error g
  then None else Some ClientDisconnect.

Definition body_text (bytes : string) : option string :=
  if is_empty bytes then None else Some (from_utf8_lossy bytes).

Definition error_text (e : UpstreamStreamError) : string :=
  match use_code e with
  | Some code => use_message e +:+ " (" +:+ code +:+ ")"
  | None => use_message e
  end.

Definition exchange (g : Guard) (reason : option TruncationReason) (cap : StreamCapture) (now : Z)
    : ExchangeCapture :=
  {| request_id := sc_request_id cap;
     egress_method := sc_egress_method cap;
     egress_path := sc_egress_path cap;
     egress_headers := sc_egress_headers cap;
     egress_body := sc_egress_body cap;
     upstream_status := sc_upstream_status cap;
     upstream_resp_headers := sc_upstream_resp_headers cap;
     upstream_resp_body := body_text (upstream_body g);
     client_resp_headers := sc_client_resp_headers cap;
     client_resp_body := body_text (client_body g);
     is_stream := true;
     truncation_reason := TruncationReason.as_str <$> reason;
     stream_duration_ms := Some (wrap64 (duration_since now (started g) / 1000000));
     capture_upstream_error := error_text <$> upstream_error (accum g);
     capture_upstream_error_class :=
       (fun e => RequestErrorClass.as_str (ErrorClass.to_request_class (use_class e)))
         <$> upstream_error (accum g) |}.

(** The first call finalizes; it sends something if there is a capture. *)
Definition take_capture (fallback_reason : option TruncationReason) (now : Z) (g : Guard)
    : option ExchangeCapture * Guard :=
  if finalized g then (None, g)
  else
    let reason := match last_reason g with Some r => Some r | None => fallback_reason end in
    let sent := (fun cap => exchange g reason cap now) <$> capture g in
    (sent,
     {| capture := None; upstream_body := upstream_body g; client_body := client_body g;
        started := started g; last_reason := reason; finalized := true;
        upstream_completed := upstream_completed g; accum := accum g; health := health g;
        health_key := health_key g |}).

(** ** What the outside world sees, in order *)

Inductive effect :=
| Yielded (bytes : string)               (* to the client *)
| HealthFailure (key : string)           (* to the health registry *)
| CaptureSent (c : ExchangeCapture).     (* to the telemetry bus *)

#[export] Instance ExchangeCapture_eq_dec : EqDecision ExchangeCapture.
Proof. solve_decision. Defined.

#[export] Instance effect_eq_dec : EqDecision effect.
Proof. solve_decision. Defined.

Definition health_effect (g : Guard) : list effect :=
  if should_fail g && health g
  then match health_key g with Some key => [HealthFailure key] | None => [] end
  else [].

Definition sent_effect (o : option ExchangeCapture) : list effect :=
  match o with Some c => [CaptureSent c] | None => [] end.

(** [finalize_spawn]: the health first, then the capture. *)
Definition finalize_guard (now : Z) (g : Guard) : list effect * Guard :=
  let '(sent, g') := take_capture None now g in (health_effect g ++ sent_effect sent, g').

(** [Drop for StreamCaptureGuard] *)
Definition drop_guard (now : Z) (g : Guard) : list effect * Guard :=
  let disconnect_reason := drop_fallback_reason g in
  match take_capture disconnect_reason now g with
  | (None, g') => ([], g')
  | (Some c, g') =>
      (health_effect g' ++ [CaptureSent c],
       match disconnect_reason with
       | Some reason => with_accum (fun a => UsageAccumulator.mark_truncated a reason) g'
       | None => g'
       end)
  end.

(** ** The state of the body *)

Section Drive.
Context {D E : Type} `{StreamDecoder D} `{StreamEncoder E} `{SerdeJson} `{Lowercase}.

(** [StreamTranscode] *)
Record Transcode := {
  decoder : D;
  encoder : E;
}.

Record World := {
  guard : Guard;
  tail_buf : string;
  transcode : option Transcode;
  model_rewriter : option SseModelRewriter;
  frame_buf : string;
  saw_terminal : bool;
  idle_deadline : Z;
  log : list effect;
  pulls : nat;               (* how many frames the client still takes *)
}.

Definition with_guard (f : Guard -> Guard) (w : World) : World :=
  {| guard := f (guard w); tail_buf := tail_buf w; transcode := transcode w;
     model_rewriter := model_rewriter w; frame_buf := frame_buf w;
     saw_terminal := saw_terminal w; idle_deadline := idle_deadline w; log := log w;
     pulls := pulls w |}.

Definition with_tail (s : string) (w : World) : World :=
  {| guard := guard w; tail_buf := s; transcode := transcode w;
     model_rewriter := model_rewriter w; frame_buf := frame_buf w;
     saw_terminal := saw_terminal w; idle_deadline := idle_deadline w; log := log w;
     pulls := pulls w |}.

Definition with_codec (tc : Transcode) (terminal : bool) (buf : string) (a : UsageAccumulator)
    (w : World) : World :=
  {| guard := with_accum (fun _ => a) (guard w); tail_buf := tail_buf w; transcode := Some tc;
     model_rewriter := model_rewriter w; frame_buf := buf;
     saw_terminal := terminal; idle_deadline := idle_deadline w; log := log w;
     pulls := pulls w |}.

Definition with_rewriter (r : SseModelRewriter) (w : World) : World :=
  {| guard := guard w; tail_buf := tail_buf w; transcode := transcode w;
     model_rewriter := Some r; frame_buf := frame_buf w;
     saw_terminal := saw_terminal w; idle_deadline := idle_deadline w; log := log w;
     pulls := pulls w |}.

Definition with_deadline (t : Z) (w : World) : World :=
  {| guard := guard w; tail_buf := tail_buf w; transcode := transcode w;
     model_rewriter := model_rewriter w; frame_buf := frame_buf w;
     saw_terminal := saw_terminal w; idle_deadline := t; log := log w; pulls := pulls w |}.

Definition with_log (l : list effect) (n : nat) (w : World) : World :=
  {| guard := guard w; tail_buf := tail_buf w; transcode := transcode w;
     model_rewriter := model_rewriter w; frame_buf := frame_buf w;
     saw_terminal := saw_terminal w; idle_deadline := idle_deadline w; log := l; pulls := n |}.

(** A step of the body: it may panic; [None] means that it was dropped where
    it was suspended. *)
Definition M (A : Type) : Type := World -> run (option A * World).

#[export] Instance M_ret : MRet M := fun A a w => Ok (Some a, w).
#[export] Instance M_bind : MBind M := fun A B f m w =>
  match m w with
  | Ok (Some a, w) => f a w
  | Ok (None, w) => Ok (None, w)
  | Err p => Err p
  end.

Definition modify (f : World -> World) : M unit := fun w => Ok (Some tt, f w).
Definition gets {A} (f : World -> A) : M A := fun w => Ok (Some (f w), w).
Definition lift {A} (r : run A) : M A := fun w => a ← r; Ok (Some a, w).

(** [yield Ok(bytes)]: the client takes the frame; if it was the last one it
    takes, the body is not resumed. *)
Definition yield_ (bytes : string) : M unit := fun w =>
  let l := log w ++ [Yielded bytes] in
  match pulls w with
  | O => Ok (None, with_log l O w)
  | S n => Ok (Some tt, with_log l n w)
  end.

Definition emit (l : list effect) : M unit := modify (fun w => with_log (log w ++ l) (pulls w) w).

(** [capture_guard.append_client(..); yield ..], skipped for an empty frame. *)
Definition send (bytes : string) : M unit :=
  if is_empty bytes then mret tt
  else modify (with_guard (append_client bytes)) ;; yield_ bytes.

Definition finalize_spawn (now : Z) : M unit := fun w =>
  let '(l, g) := finalize_guard now (guard w) in
  Ok (Some tt, with_log (log w ++ l) (pulls w) (with_guard (fun _ => g) w)).

Definition rewrite_out (bytes : string) : M string :=
  r ← gets model_rewriter;
  match r with
  | None => mret bytes
  | Some r =>
      '(out, r) ← lift (rewrite r bytes);
      modify (with_rewriter r) ;; mret out
  end.

(** The flush of the model rewriter. *)
Definition flush_rewriter : M unit :=
  r ← gets model_rewriter;
  match r with
  | None => mret tt
  | Some r =>
      '(trailing, r) ← lift (ResponseModel.finish r);
      modify (with_rewriter r) ;; send trailing
  end.

(** ** Transcoding *)

(** The codecs with the flag and the accumulator they update. *)
Record Progress := {
  codec : Transcode;
  terminal : bool;
  usage : UsageAccumulator;
}.

Definition set_encoder (p : Progress) (e : E) : Progress :=
  {| codec := {| decoder := decoder (codec p); encoder := e |}; terminal := terminal p;
     usage := usage p |}.

Definition set_decoder (p : Progress) (d : D) : Progress :=
  {| codec := {| decoder := d; encoder := encoder (codec p) |}; terminal := terminal p;
     usage := usage p |}.

Definition is_terminal_part (part : StreamPart) : bool :=
  match part with FinishPart _ | ResponseCompleted _ _ _ _ => true | _ => false end.

(** What a part of the upstream changes besides the output. *)
Definition note_terminal (part : StreamPart) (p : Progress) : Progress :=
  {| codec := codec p; terminal := terminal p || is_terminal_part part; usage := usage p |}.

Definition note_upstream_error (part : StreamPart) (p : Progress) : Progress :=
  match part with
  | ErrorPart message _ code =>
      {| codec := codec p; terminal := terminal p;
         usage := UsageAccumulator.set_upstream_error (usage p) message code |}
  | _ => p
  end.

Definition error_frame (p : Progress) (message : string) : run (string * Progress) :=
  '(ef, e) ← encode_error (encoder (codec p)) message LossyOrCapability None;
  Ok (ef, set_encoder p e).

Definition transcode_part (p : Progress) (part : StreamPart) : run (string * Progress) :=
  let p := note_upstream_error part (note_terminal part p) in
  '(res, e) ← encode_part (encoder (codec p)) part;
  let p := set_encoder p e in
  match res with
  | Ok b => Ok (b, p)
  | Err err => error_frame p ("transcode encode error: " +:+ error_to_string err)
  end.

Fixpoint transcode_parts (p : Progress) (parts : list StreamPart) : run (string * Progress) :=
  match parts with
  | [] => Ok ("", p)
  | part :: r =>
      '(out, p) ← transcode_part p part;
      '(rest, p) ← transcode_parts p r;
      Ok (out +:+ rest, p)
  end.

Definition transcode_line (p : Progress) (line : string) : run (string * Progress) :=
  '(res, d) ← feed (decoder (codec p)) line;
  let p := set_decoder p d in
  match res with
  | Ok parts => transcode_parts p parts
  | Err err => error_frame p ("transcode decode error: " +:+ error_to_string err)
  end.

Fixpoint transcode_lines (p : Progress) (lines : list string) : run (string * Progress) :=
  match lines with
  | [] => Ok ("", p)
  | line :: r =>
      '(out, p) ← transcode_line p line;
      '(rest, p) ← transcode_lines p r;
      Ok (out +:+ rest, p)
  end.

(** At the end of the stream encoding errors are dropped, and an error part
    is not recorded. *)
Definition flush_part (p : Progress) (part : StreamPart) : run (string * Progress) :=
  '(res, e) ← encode_part (encoder (codec p)) part;
  Ok (match res with Ok b => b | Err _ => "" end, set_encoder p e).

Fixpoint flush_parts (note : bool) (p : Progress) (parts : list StreamPart)
    : run (string * Progress) :=
  match parts with
  | [] => Ok ("", p)
  | part :: r =>
      '(out, p) ← flush_part (if note then note_terminal part p else p) part;
      '(rest, p) ← flush_parts note p r;
      Ok (out +:+ rest, p)
  end.

(** The rest of the line buffer. *)
Definition flush_buffer (p : Progress) (buf : string) : run (string * Progress) :=
  if is_empty (trim buf) then Ok ("", p)
  else
    '(res, d) ← feed (decoder (codec p)) buf;
    match res with
    | Ok parts => flush_parts true (set_decoder p d) parts
    | Err _ => Ok ("", set_decoder p d)
    end.

(** [decoder.finish()], only after a terminal part. *)
Definition flush_decoder (p : Progress) : run (string * Progress) :=
  if terminal p then
    '(res, d) ← finish (decoder (codec p));
    match res with
    | Ok parts => flush_parts false (set_decoder p d) parts
    | Err _ => Ok ("", set_decoder p d)
    end
  else Ok ("", p).

(** [encode_done], only after an error without a terminal part. *)
Definition flush_done (p : Progress) : run (string * Progress) :=
  if negb (terminal p) && bool_decide (is_Some (upstream_error (usage p))) then
    '(out, e) ← encode_done (encoder (codec p));
    Ok (out, set_encoder p e)
  else Ok ("", p).

Definition flush_transcode (p : Progress) (buf : string) : run (string * Progress) :=
  '(out1, p) ← flush_buffer p buf;
  '(out2, p) ← flush_decoder p;
  '(out3, p) ← flush_done p;
  Ok (out1 +:+ out2 +:+ out3, p).

(** ** One poll of the body *)

Record Config := {
  end_marker : string;
  error_marker : string;
  idle_timeout : Z;
  total_timeout : Z;
}.

(** Zero means a day. *)
Definition effective_idle (c : Config) : Z :=
  if idle_timeout c =? 0 then 60 * 60 * 24 * ns_per_sec else idle_timeout c.

Definition set_deadline (c : Config) (now : Z) : M unit :=
  t ← lift (instant_add now (effective_idle c)); modify (with_deadline t).

(** The transcoder sees the text of the bytes, the other mode the bytes. *)
Definition transcode_chunk (tc : Transcode) (bytes : string) : M unit :=
  w ← gets id;
  let '(lines, remainder) := split_sse_lines (frame_buf w +:+ from_utf8_lossy bytes) in
  '(out, p) ← lift (transcode_lines {| codec := tc; terminal := saw_terminal w;
                                      usage := accum (guard w) |} lines);
  modify (with_codec (codec p) (terminal p) remainder (usage p)) ;;
  if is_empty out then mret tt else out ← rewrite_out out; send out.

Definition forward_chunk (bytes : string) : M unit :=
  modify (with_guard (with_accum (detect_verbatim_signals bytes))) ;;
  out ← rewrite_out bytes; send out.

Definition on_chunk (c : Config) (now : Z) (bytes : string) : M unit :=
  set_deadline c now ;;
  modify (with_guard (fun g => append_upstream bytes
            (with_accum (fun a => UsageAccumulator.record_chunk a (from_utf8_lossy bytes)) g))) ;;
  tc ← gets transcode;
  match tc with
  | Some tc => transcode_chunk tc bytes
  | None => modify (fun w => with_tail (push_tail (tail_buf w) bytes) w) ;; forward_chunk bytes
  end.

(** The frame that tells the client of a failure. *)
Definition send_failure (c : Config) (message : string) (class : ErrorClass) : M unit :=
  tc ← gets transcode;
  match tc with
  | Some tc =>
      '(ef, e) ← lift (encode_error (encoder tc) message class None);
      modify (fun w => with_codec {| decoder := decoder tc; encoder := e |} (saw_terminal w)
                         (frame_buf w) (accum (guard w)) w) ;;
      send ef
  | None =>
      if is_empty (error_marker c) then mret tt
      else
        tail ← gets tail_buf;
        (if tail_ends_on_frame_boundary tail then mret tt else yield_ LFLF) ;;
        send (error_marker c)
  end.

(** The three failures differ in the reason, the message and the class. *)
Definition on_failure (c : Config) (now : Z) (reason : TruncationReason) (message : string)
    (class : ErrorClass) : M unit :=
  modify (with_guard (set_reason (Some reason))) ;;
  modify (with_guard (with_accum (fun a => UsageAccumulator.mark_truncated a reason))) ;;
  flush_rewriter ;;
  send_failure c message class ;;
  finalize_spawn now.

Definition on_upstream_error (c : Config) (now : Z) : M unit :=
  on_failure c now UpstreamError "upstream stream truncated by gateway" Transient.
Definition on_idle (c : Config) (now : Z) : M unit :=
  on_failure c now Idle "upstream stream idle timeout" DeadlineExceeded.
Definition on_total (c : Config) (now : Z) : M unit :=
  on_failure c now Total "upstream stream exceeded gateway total budget" DeadlineExceeded.

Definition close_transcode (tc : Transcode) : M unit :=
  w ← gets id;
  '(out, p) ← lift (flush_transcode {| codec := tc; terminal := saw_terminal w;
                                      usage := accum (guard w) |} (frame_buf w));
  modify (with_codec (codec p) (terminal p) "" (usage p)) ;;
  if is_empty out then mret tt else out ← rewrite_out out; send out.

Definition close_verbatim (c : Config) : M unit :=
  a ← gets (fun w => accum (guard w));
  if bool_decide (is_Some (upstream_error a)) && negb (upstream_terminal a)
  then send (end_marker c) else mret tt.

Definition on_eof (c : Config) (now : Z) : M unit :=
  modify (with_guard (fun g => with_accum UsageAccumulator.mark_completed
                                 (mark_upstream_completed (set_reason None g)))) ;;
  tc ← gets transcode;
  match tc with
  | Some tc => close_transcode tc
  | None => close_verbatim c
  end ;;
  flush_rewriter ;;
  finalize_spawn now.

(** ** The loop *)

(** What a poll finds: bytes, a transport error, the end of the stream, or
    nothing yet. *)
Inductive item :=
| Bytes (b : string)
| Failed
| Closed.

(** Each poll happens at an instant.  The upstream is looked at first; the
    timers only when it has nothing.  The list ends when the client goes
    away. *)
Fixpoint polling (c : Config) (total_deadline : option Z) (polls : list (Z * option item))
    : M unit :=
  match polls with
  | [] => fun w => Ok (None, w)
  | (now, Some (Bytes b)) :: r => on_chunk c now b ;; polling c total_deadline r
  | (now, Some Failed) :: _ => on_upstream_error c now
  | (now, Some Closed) :: _ => on_eof c now
  | (now, None) :: r =>
      deadline ← gets idle_deadline;
      if deadline <=? now then on_idle c now
      else match total_deadline with
           | Some t => if t <=? now then on_total c now else polling c total_deadline r
           | None => polling c total_deadline r
           end
  end.

(** The statement after the loop, run at [last]. *)
Definition body (c : Config) (start last : Z) (polls : list (Z * option item)) : M unit :=
  set_deadline c start ;;
  total_deadline ← (if total_timeout c =? 0 then mret None
                    else t ← lift (instant_add start (total_timeout c)); mret (Some t));
  polling c total_deadline polls ;;
  finalize_spawn last.

Definition initial (cap : option StreamCapture) (a : UsageAccumulator) (tc : option Transcode)
    (o : option ResponseModelOverride) (start : Z) (n : nat) : World :=
  {| guard := StreamCaptureGuard_new cap a start; tail_buf := ""; transcode := tc;
     model_rewriter := sse_rewriter <$> o; frame_buf := ""; saw_terminal := false;
     idle_deadline := 0; log := []; pulls := n |}.

(** [drive_upstream_stream] from the first poll until the body is gone: run
    to its end or dropped, the guard is dropped with it. *)
Definition drive_upstream_stream (c : Config) (start last : Z) (polls : list (Z * option item))
    (w : World) : run World :=
  '(_, w) ← body c start last polls w;
  let '(l, g) := drop_guard last (guard w) in
  Ok (with_log (log w ++ l) (pulls w) (with_guard (fun _ => g) w)).
End Drive.

Arguments Transcode : clear implicits.
Arguments World : clear implicits.
Arguments Progress : clear implicits.
