(* ===== verification/StreamingProps.v ===== *)
(** * StreamingProps: what the client and the gateway get from a stream

    The bytes the client receives, related to a reference that knows neither
    chunks nor timers, for the transcoding and for the verbatim mode. *)

From stdpp Require Import base option list gmap sets strings.
From Stdlib Require Import ZArith Lia Ascii.
From S2P Require Import Prelude RustStr F64 Json Telemetry Protocol Classify Health Ir Utf8 ResponseModel ChatStream Streaming.

Local Open Scope string_scope.
Local Open Scope list_scope.
Local Open Scope Z_scope.

(** ** The bytes of the client *)

Fixpoint client_bytes (l : list effect) : string :=
  match l with
  | [] => ""
  | Yielded b :: r => b +:+ client_bytes r
  | _ :: r => client_bytes r
  end.

Lemma client_bytes_app l1 l2 : client_bytes (l1 ++ l2) = client_bytes l1 +:+ client_bytes l2.
Proof. induction l1 as [|[] l1 IH]; cbn [app client_bytes]; rewrite ?IH, ?str_app_assoc; done. Qed.

Lemma client_bytes_silent l :
  (forall b, Yielded b ∉ l) -> client_bytes l = "".
Proof.
  induction l as [|e l IH]; intros Hl; [done|].
  destruct e; cbn [client_bytes]; try (apply IH; intros b Hb; apply (Hl b); by right).
  destruct (Hl bytes). by left.
Qed.

Lemma finalize_silent now g l g' : finalize_guard now g = (l, g') -> client_bytes l = "".
Proof.
  intros E. apply client_bytes_silent. intros b Hb. revert E Hb.
  unfold finalize_guard. destruct (take_capture None now g) as [sent g1]. intros [= <- <-].
  unfold health_effect. rewrite elem_of_app.
  destruct (should_fail g && health g), (health_key g), sent; cbn;
    rewrite ?elem_of_cons, ?elem_of_nil; naive_solver.
Qed.

Lemma drop_silent now g l g' : drop_guard now g = (l, g') -> client_bytes l = "".
Proof.
  intros E. apply client_bytes_silent. intros b Hb. revert E Hb.
  unfold drop_guard. destruct (take_capture _ now g) as [[sent|] g1]; intros [= <- <-];
    [|by rewrite elem_of_nil].
  unfold health_effect. rewrite elem_of_app.
  destruct (should_fail g1 && health g1), (health_key g1); cbn;
    rewrite ?elem_of_cons, ?elem_of_nil; naive_solver.
Qed.

(** ** Polls no timer disturbs *)

(** The chunks of a stream that the upstream closes in time. *)
Fixpoint undisturbed (c : Config) (total : option Z) (deadline : Z)
    (polls : list (Z * option item)) : option (list string) :=
  match polls with
  | [] => None
  | (now, Some (Bytes b)) :: r =>
      if now + effective_idle c <? instant_limit
      then cons b <$> undisturbed c total (now + effective_idle c) r else None
  | (_, Some Closed) :: _ => Some []
  | (_, Some Failed) :: _ => None
  | (now, None) :: r =>
      if (deadline <=? now) || match total with Some t => t <=? now | None => false end
      then None else undisturbed c total deadline r
  end.

Definition total_of (c : Config) (start : Z) : option Z :=
  if total_timeout c =? 0 then None else Some (start + total_timeout c).

(** The whole stream: its timers can be set, and none fires. *)
Definition in_time (c : Config) (start : Z) (polls : list (Z * option item))
    : option (list string) :=
  if (start + effective_idle c <? instant_limit)
     && match total_of c start with Some t => t <? instant_limit | None => true end
  then undisturbed c (total_of c start) (start + effective_idle c) polls else None.

(** ** Delivering bytes *)

(** A stream rewritten, with [m] between its complete lines and its rest. *)
Definition marked `{SerdeJson} (o : ResponseModelOverride) (s m : string) : string :=
  let '(ls, rest) := split_lines s in
  join "" (map (line_rewritten o) ls) +:+ m +:+ stream_rewritten o rest.

Lemma marked_nil `{SerdeJson} o s : marked o s "" = stream_rewritten o s.
Proof.
  unfold marked. destruct (split_lines s) as [ls rest] eqn:Es.
  by rewrite (stream_rewritten_split o _ _ _ Es), str_app_nil_l.
Qed.

Lemma marked_app `{SerdeJson} o s1 s2 m ls rest :
  split_lines s1 = (ls, rest) ->
  marked o (s1 +:+ s2) m = join "" (map (line_rewritten o) ls) +:+ marked o (rest +:+ s2) m.
Proof.
  intros E1. unfold marked. destruct (split_lines (rest +:+ s2)) as [l2 r2] eqn:E2.
  by rewrite (split_lines_app _ _ _ _ _ _ E1 E2), map_app, join_app, str_app_assoc.
Qed.

Lemma marked_partial `{SerdeJson} o s m :
  contains_char LF s = false -> marked o s m = m +:+ stream_rewritten o s.
Proof. intros Hs. unfold marked. by rewrite (split_lines_partial _ Hs), str_app_nil_l. Qed.

Section Delivery.
Context {D E : Type} `{StreamDecoder D} `{StreamEncoder E} `{SerdeJson} `{Lowercase}.
Implicit Types (w : World D E) (p : Progress D E).

(** The model rewriter keeps a partial line. *)
Definition wf_rewriter w : Prop :=
  match model_rewriter w with
  | None => True
  | Some r => contains_char LF (pending r) = false
  end.

(** What the client will have once [out] has been delivered, the marker [m]
    sent and the stream is over. *)
Definition owed w (out m : string) : string :=
  client_bytes (log w)
  +:+ match model_rewriter w with
      | None => out +:+ m
      | Some r => marked (override_ r) (pending r +:+ out) m
      end.

(** [w'] is [w] after at most one frame; only the delivery has changed. *)
Record delivered w w' : Prop := {
  dl_tail : tail_buf w' = tail_buf w;
  dl_transcode : transcode w' = transcode w;
  dl_frame : frame_buf w' = frame_buf w;
  dl_terminal : saw_terminal w' = saw_terminal w;
  dl_deadline : idle_deadline w' = idle_deadline w;
  dl_accum : accum (guard w') = accum (guard w);
  dl_pulls : (pulls w <= S (pulls w'))%nat;
}.

Lemma send_spec w b :
  (0 < pulls w)%nat ->
  exists w', send b w = Ok (Some tt, w') /\ delivered w w'
             /\ model_rewriter w' = model_rewriter w
             /\ client_bytes (log w') = client_bytes (log w) +:+ b.
Proof.
  intros Hp. unfold send. destruct (is_empty b) eqn:Eb.
  - exists w. split; [done|]. repeat split; [lia|]. destruct b; [|done]. by rewrite str_app_nil_r.
  - unfold mbind, M_bind, modify, yield_. cbn [with_guard pulls log].
    destruct (pulls w) as [|n] eqn:Ep; [lia|]. eexists. split; [done|].
    repeat split; cbn [pulls with_log model_rewriter log]; [lia|].
    rewrite client_bytes_app. cbn. by rewrite str_app_nil_r.
Qed.

(** A frame that is rewritten and sent unless it is empty. *)
Definition deliver (b : string) : M (D:=D) (E:=E) unit := out ← rewrite_out b; send out.

Lemma deliver_spec w b :
  wf_rewriter w -> (0 < pulls w)%nat ->
  exists w', deliver b w = Ok (Some tt, w') /\ delivered w w' /\ wf_rewriter w'
             /\ forall out m, owed w' out m = owed w (b +:+ out) m.
Proof.
  intros Hwf Hp. unfold deliver, mbind, M_bind, rewrite_out, gets, lift, mret, M_ret, mbind, M_bind.
  unfold wf_rewriter, owed in *. destruct (model_rewriter w) as [r|] eqn:Er.
  - destruct (split_lines (pending r +:+ b)) as [ls rest] eqn:Es.
    rewrite (rewrite_spec (override_ r) r b ls rest eq_refl Es).
    unfold mbind, result_bind, modify.
    edestruct (send_spec (with_rewriter {| override_ := override_ r; pending := rest |} w))
      as (w' & E' & Hd & Hr & Hc); [done|].
    exists w'. rewrite E'. split; [done|].
    split; [by destruct Hd; constructor|]. rewrite Hr. cbn [with_rewriter model_rewriter pending].
    split; [by eapply split_lines_rest|]. intros out m. rewrite Hc. cbn [override_ pending with_rewriter log].
    rewrite str_app_assoc. f_equal. rewrite <- (str_app_assoc (pending r) b out).
    by rewrite (marked_app _ _ _ _ _ _ Es).
  - destruct (send_spec w b Hp) as (w' & E' & Hd & Hr & Hc). exists w'.
    rewrite E'. split; [done|]. split; [done|]. rewrite Hr, Er. split; [done|].
    intros out m. by rewrite Hc, !str_app_assoc.
Qed.

Lemma deliver_nonempty w b :
  wf_rewriter w -> (0 < pulls w)%nat ->
  exists w', (if is_empty b then mret tt else deliver b) w = Ok (Some tt, w') /\ delivered w w'
             /\ wf_rewriter w' /\ forall out m, owed w' out m = owed w (b +:+ out) m.
Proof.
  intros Hwf Hp. destruct b; [|by apply deliver_spec].
  exists w. split; [done|]. split; [by constructor; auto|]. split; [done|].
  intros out m. by rewrite str_app_nil_l.
Qed.

Lemma flush_spec w :
  wf_rewriter w -> (0 < pulls w)%nat ->
  exists w', flush_rewriter w = Ok (Some tt, w') /\ client_bytes (log w') = owed w "" "".
Proof.
  intros Hwf Hp. unfold flush_rewriter, mbind, M_bind, gets, lift, mbind, result_bind, mret, M_ret.
  unfold wf_rewriter, owed in *. destruct (model_rewriter w) as [r|] eqn:Er.
  - destruct (finish_spec (override_ r) r eq_refl Hwf) as (r' & E' & _). rewrite E'.
    unfold modify. destruct (send_spec (with_rewriter r' w) (stream_rewritten (override_ r) (pending r)))
      as (w' & E2 & _ & _ & Hc); [done|].
    exists w'. rewrite E2. split; [done|]. by rewrite Hc, marked_nil, str_app_nil_r.
  - exists w. by rewrite !str_app_nil_r.
Qed.
End Delivery.

(** ** Lines across chunks *)

Lemma split_sse_app s1 s2 ls rest ls' rest' :
  split_sse_lines s1 = (ls, rest) -> split_sse_lines (rest +:+ s2) = (ls', rest') ->
  split_sse_lines (s1 +:+ s2) = (ls ++ ls', rest').
Proof.
  revert ls rest ls' rest'. induction s1 as [|a s1 IH]; intros ls rest ls' rest'; cbn.
  - intros [= <- <-]. by rewrite str_app_nil_l.
  - destruct (split_sse_lines s1) as [l1 r1] eqn:E. rewrite str_app_cons. cbn.
    destruct (Ascii.eqb a LF) eqn:Ea.
    + intros [= <- <-] Hq. by rewrite (IH _ _ _ _ eq_refl Hq).
    + destruct l1 as [|x t]; intros [= <- <-] Hq.
      * rewrite str_app_cons in Hq. cbn in Hq. rewrite Ea in Hq.
        destruct (split_sse_lines (r1 +:+ s2)) as [l2 r2] eqn:E2.
        rewrite (IH _ _ _ _ eq_refl E2). by destruct l2; injection Hq as <- <-.
      * by rewrite (IH _ _ _ _ eq_refl Hq).
Qed.

Lemma split_sse_rest s ls rest :
  split_sse_lines s = (ls, rest) -> split_sse_lines rest = ([], rest).
Proof.
  revert ls rest. induction s as [|a s IH]; intros ls rest; cbn; [by intros [= <- <-]|].
  destruct (split_sse_lines s) as [l1 r1]. specialize (IH _ _ eq_refl).
  destruct (Ascii.eqb a LF) eqn:Ea; [by intros [= <- <-]|].
  destruct l1; intros [= <- <-]; [|done]. cbn. by rewrite IH, Ea.
Qed.

(** ** Transcoding without chunks *)

Section Reference.
Context {D E : Type} `{StreamDecoder D} `{StreamEncoder E} `{SerdeJson} `{Lowercase}.
Implicit Types (w : World D E) (p : Progress D E).

(** What the transcoder makes of a text that is complete. *)
Definition transcode_text p (text : string) : run string :=
  let '(lines, remainder) := split_sse_lines text in
  '(out, p) ← transcode_lines p lines;
  '(last, _) ← flush_transcode p remainder;
  Ok (out +:+ last).

(** Only the upstream error of the accumulator matters. *)
Definition erase p : Progress D E :=
  {| codec := codec p; terminal := terminal p;
     usage := {| chars_received := 0; control_chars := 0; completed := false; truncated := None;
                 upstream_error := upstream_error (usage p); upstream_terminal := false |} |}.

Definition erased (r : run (string * Progress D E)) : run (string * Progress D E) :=
  '(out, p) ← r; Ok (out, erase p).

Lemma erase_error p message : erased (error_frame p message) = error_frame (erase p) message.
Proof.
  unfold erased, error_frame, mbind, result_bind. cbn [erase codec].
  by destruct (encode_error _ _ _ _) as [[??]|].
Qed.

Lemma erase_note part p :
  erase (note_upstream_error part (note_terminal part p))
  = note_upstream_error part (note_terminal part (erase p)).
Proof.
  destruct part; try done. unfold note_upstream_error, note_terminal, erase.
  unfold UsageAccumulator.set_upstream_error. cbn.
  destruct (upstream_error (usage p)) eqn:Eu; cbn; by rewrite ?Eu.
Qed.

Lemma erase_part p part : erased (transcode_part p part) = transcode_part (erase p) part.
Proof.
  unfold transcode_part. rewrite <- erase_note. cbn [erase codec].
  destruct (encode_part _ _) as [[[b|err] e]|]; [done| |done].
  cbn [mbind result_bind]. by rewrite erase_error.
Qed.

Lemma erase_bind (m : run (string * Progress D E)) (k : Progress D E -> run (string * Progress D E)) :
  (forall p, erased (k p) = k (erase p)) ->
  erased ('(out, p) ← m; '(rest, p) ← k p; Ok (out +:+ rest, p))
  = '(out, p) ← erased m; '(rest, p) ← k p; Ok (out +:+ rest, p).
Proof.
  intros Hk. destruct m as [[out p]|]; [|done]. cbn. rewrite <- Hk. by destruct (k p) as [[??]|].
Qed.

Lemma erase_parts p parts : erased (transcode_parts p parts) = transcode_parts (erase p) parts.
Proof.
  revert p. induction parts as [|part r IH]; intros p; [done|]. cbn [transcode_parts].
  rewrite <- erase_part. by apply (erase_bind _ (fun p => transcode_parts p r)).
Qed.

Lemma erase_line p line : erased (transcode_line p line) = transcode_line (erase p) line.
Proof.
  unfold transcode_line. cbn [erase codec].
  destruct (feed _ _) as [[[parts|err] d]|]; [| |done]; cbn [mbind result_bind].
  - by rewrite erase_parts.
  - by rewrite erase_error.
Qed.

Lemma erase_lines p lines : erased (transcode_lines p lines) = transcode_lines (erase p) lines.
Proof.
  revert p. induction lines as [|line r IH]; intros p; [done|]. cbn [transcode_lines].
  rewrite <- erase_line. by apply (erase_bind _ (fun p => transcode_lines p r)).
Qed.

Lemma erase_flush_parts note p parts :
  erased (flush_parts note p parts) = flush_parts note (erase p) parts.
Proof.
  revert p. induction parts as [|part r IH]; intros p; [done|]. cbn [flush_parts].
  assert (forall q, erased (flush_part q part) = flush_part (erase q) part) as Hf.
  { intros q. unfold flush_part. cbn [erase codec]. by destruct (encode_part _ _) as [[??]|]. }
  replace (if note then note_terminal part (erase p) else erase p)
    with (erase (if note then note_terminal part p else p)) by (by destruct note).
  rewrite <- Hf. by apply (erase_bind _ (fun p => flush_parts note p r)).
Qed.

Lemma erase_flush_buffer p buf : erased (flush_buffer p buf) = flush_buffer (erase p) buf.
Proof.
  unfold flush_buffer. destruct (is_empty (trim buf)); [done|]. cbn [erase codec].
  destruct (feed _ _) as [[[parts|err] d]|]; [|done..]. cbn [mbind result_bind].
  by rewrite erase_flush_parts.
Qed.

Lemma erase_flush_decoder p : erased (flush_decoder p) = flush_decoder (erase p).
Proof.
  unfold flush_decoder. cbn [erase codec terminal]. destruct (terminal p); [|done].
  destruct (finish _) as [[[parts|err] d]|]; [|done..]. cbn [mbind result_bind].
  by rewrite erase_flush_parts.
Qed.

Lemma erase_flush_done p : erased (flush_done p) = flush_done (erase p).
Proof.
  unfold flush_done. cbn [erase codec terminal usage upstream_error].
  destruct (negb _ && _); [|done]. by destruct (encode_done _) as [[??]|].
Qed.

Lemma erase_flush p buf : erased (flush_transcode p buf) = flush_transcode (erase p) buf.
Proof.
  unfold flush_transcode. rewrite <- erase_flush_buffer.
  destruct (flush_buffer p buf) as [[o1 p1]|]; [|done]. cbn [mbind result_bind erased].
  rewrite <- erase_flush_decoder.
  destruct (flush_decoder p1) as [[o2 p2]|]; [|done]. cbn [mbind result_bind erased].
  rewrite <- erase_flush_done. by destruct (flush_done p2) as [[??]|].
Qed.

Lemma transcode_text_erase p q text : erase p = erase q -> transcode_text p text = transcode_text q text.
Proof.
  intros Hpq. assert (forall p, transcode_text p text = transcode_text (erase p) text) as Ht.
  { intros r. unfold transcode_text. destruct (split_sse_lines text) as [lines rest].
    rewrite <- erase_lines. destruct (transcode_lines r lines) as [[o1 p1]|]; [|done].
    cbn [mbind result_bind erased]. rewrite <- erase_flush.
    by destruct (flush_transcode p1 rest) as [[??]|]. }
  by rewrite Ht, Hpq, <- Ht.
Qed.

Lemma erased_lines p q lines :
  erase p = erase q -> erased (transcode_lines p lines) = erased (transcode_lines q lines).
Proof. intros E1. by rewrite !erase_lines, E1. Qed.

Lemma erased_flush p q buf :
  erase p = erase q -> erased (flush_transcode p buf) = erased (flush_transcode q buf).
Proof. intros E1. by rewrite !erase_flush, E1. Qed.

Lemma transcode_lines_app p l1 l2 :
  transcode_lines p (l1 ++ l2)
  = '(out, p) ← transcode_lines p l1; '(rest, p) ← transcode_lines p l2; Ok (out +:+ rest, p).
Proof.
  revert p. induction l1 as [|line r IH]; intros p; cbn [app transcode_lines mbind result_bind].
  - by destruct (transcode_lines p l2) as [[??]|].
  - destruct (transcode_line p line) as [[o p1]|]; [|done]. cbn. rewrite IH.
    destruct (transcode_lines p1 r) as [[o2 p2]|]; [|done]. cbn.
    destruct (transcode_lines p2 l2) as [[o3 p3]|]; [|done]. cbn. by rewrite str_app_assoc.
Qed.

(** The text in two parts, with what the first one leaves in the buffer. *)
Lemma transcode_text_split p s1 s2 lines rest :
  split_sse_lines s1 = (lines, rest) ->
  transcode_text p (s1 +:+ s2)
  = '(out, p) ← transcode_lines p lines; last ← transcode_text p (rest +:+ s2); Ok (out +:+ last).
Proof.
  intros E1. unfold transcode_text.
  destruct (split_sse_lines (rest +:+ s2)) as [l2 r2] eqn:E2.
  rewrite (split_sse_app _ _ _ _ _ _ E1 E2), transcode_lines_app.
  destruct (transcode_lines p lines) as [[o1 p1]|]; [|done]. cbn.
  destruct (transcode_lines p1 l2) as [[o2 p2]|]; [|done]. cbn.
  destruct (flush_transcode p2 r2) as [[o3 p3]|]; [|done]. cbn. by rewrite str_app_assoc.
Qed.
End Reference.

(** ** Transcoding a stream of chunks *)

Section Chunks.
Context {D E : Type} `{StreamDecoder D} `{StreamEncoder E} `{SerdeJson} `{Lowercase}.
Implicit Types (w : World D E) (p : Progress D E) (c : Config).

Definition progress w (tc : Transcode D E) : Progress D E :=
  {| codec := tc; terminal := saw_terminal w; usage := accum (guard w) |}.

(** The client's bytes after a step of the body. *)
Definition bytes_of (r : run (option unit * World D E)) : run string :=
  '(_, w) ← r; Ok (client_bytes (log w)).

Lemma bytes_of_finalize now w : bytes_of (finalize_spawn now w) = Ok (client_bytes (log w)).
Proof.
  unfold bytes_of, finalize_spawn. destruct (finalize_guard now (guard w)) as [l g] eqn:Ef.
  cbn. rewrite client_bytes_app, (finalize_silent _ _ _ _ Ef). by rewrite str_app_nil_r.
Qed.

Lemma set_deadline_spec c now w :
  now + effective_idle c < instant_limit ->
  set_deadline c now w = Ok (Some tt, with_deadline (now + effective_idle c) w).
Proof.
  intros Hn. unfold set_deadline, mbind, M_bind, lift, instant_add, mbind, result_bind.
  by rewrite (proj2 (Z.ltb_lt _ _) Hn).
Qed.

Lemma on_chunk_transcode c now b w tc lines rest :
  transcode w = Some tc -> wf_rewriter w -> (0 < pulls w)%nat ->
  now + effective_idle c < instant_limit ->
  split_sse_lines (frame_buf w +:+ from_utf8_lossy b) = (lines, rest) ->
  match erased (transcode_lines (progress w tc) lines) with
  | Err e => on_chunk c now b w = Err e
  | Ok (out, p) =>
      exists w', on_chunk c now b w = Ok (Some tt, w') /\ transcode w' = Some (codec p)
        /\ erase (progress w' (codec p)) = p /\ wf_rewriter w' /\ frame_buf w' = rest
        /\ idle_deadline w' = now + effective_idle c /\ (pulls w <= S (pulls w'))%nat
        /\ forall o m, owed w' o m = owed w (out +:+ o) m
  end.
Proof.
  intros Ht Hwf Hp Hn Es.
  unfold on_chunk, mbind, M_bind. rewrite (set_deadline_spec _ _ _ Hn). unfold modify, gets.
  cbn [with_guard with_deadline transcode]. rewrite Ht.
  unfold transcode_chunk, gets, mbind, M_bind, lift.
  cbn [with_guard with_deadline frame_buf id guard saw_terminal]. rewrite Es.
  set (p1 := {| codec := tc; terminal := saw_terminal w; usage := _ |}).
  rewrite (erased_lines (progress w tc) p1 lines) by done.
  destruct (transcode_lines p1 lines) as [[out p]|e]; [|done].
  cbn [erased mbind result_bind]. unfold modify.
  set (w1 := with_codec _ _ _ _ _).
  destruct (deliver_nonempty w1 out Hwf Hp) as (w' & Ed & Hd & Hwf' & Ho).
  exists w'. split; [exact Ed|]. destruct Hd as [? Htc Hfb Hst Hdl Hac Hpl].
  subst w1. cbn in Htc, Hfb, Hst, Hdl, Hac, Hpl.
  split; [exact Htc|]. split; [|by repeat split].
  unfold progress. rewrite Hst, Hac. by destruct p.
Qed.

Lemma on_eof_transcode c now w tc :
  transcode w = Some tc -> wf_rewriter w -> (2 <= pulls w)%nat ->
  bytes_of (on_eof c now w)
  = '(out, _) ← flush_transcode (progress w tc) (frame_buf w); Ok (owed w out "").
Proof.
  intros Ht Hwf Hp. unfold on_eof, mbind, M_bind, modify, gets. cbn [with_guard transcode].
  rewrite Ht. unfold close_transcode, gets, lift, mbind, M_bind.
  cbn [with_guard frame_buf id guard saw_terminal].
  set (p1 := {| codec := tc; terminal := saw_terminal w; usage := _ |}).
  pose proof (erased_flush (progress w tc) p1 (frame_buf w) eq_refl) as Ee.
  destruct (flush_transcode p1 (frame_buf w)) as [[out p]|e];
    destruct (flush_transcode (progress w tc) (frame_buf w)) as [[out' p']|e'];
    cbn in Ee; try discriminate; [|by injection Ee as ->].
  injection Ee as -> _. cbn [mbind result_bind]. unfold modify.
  set (w1 := with_codec _ _ _ _ _).
  destruct (deliver_nonempty w1 out Hwf) as (w' & Ed & Hd & Hwf' & Ho); [subst w1; cbn; lia|].
  unfold deliver, mbind, M_bind in Ed. rewrite Ed.
  destruct (flush_spec w' Hwf') as (w2 & Ef & Hc).
  { pose proof (dl_pulls _ _ Hd). subst w1. cbn in *. lia. }
  rewrite Ef. rewrite bytes_of_finalize, Hc, Ho, str_app_nil_r. done.
Qed.
(** Steps in sequence, as far as the client is concerned. *)
Lemma bytes_of_seq (m k : M unit) w :
  bytes_of ((m ;; k) w)
  = match m w with Ok (Some _, w') => bytes_of (k w') | r => bytes_of r end.
Proof. unfold mbind, M_bind. by destruct (m w) as [[[[]|] w']|]. Qed.

Lemma bytes_of_then_finalize (m : M unit) now w :
  bytes_of ((m ;; finalize_spawn now) w) = bytes_of (m w).
Proof.
  rewrite bytes_of_seq. destruct (m w) as [[[[]|] w']|]; [|done..]. by rewrite bytes_of_finalize.
Qed.

Lemma undisturbed_bytes c td d now b r chunks :
  undisturbed c td d ((now, Some (Bytes b)) :: r) = Some chunks ->
  now + effective_idle c < instant_limit
  /\ exists rest, chunks = b :: rest /\ undisturbed c td (now + effective_idle c) r = Some rest.
Proof.
  cbn. destruct (now + effective_idle c <? instant_limit) eqn:El; [|done]. bool_prop.
  destruct (undisturbed c td _ r) as [rest|]; [|done]. intros [= <-]. eauto.
Qed.

Lemma polling_quiet c td d now r w :
  idle_deadline w = d -> is_Some (undisturbed c td d ((now, None) :: r)) ->
  undisturbed c td d ((now, None) :: r) = undisturbed c td d r
  /\ polling (D:=D) (E:=E) c td ((now, None) :: r) w = polling c td r w.
Proof.
  intros Hd Hs. cbn [undisturbed] in *. destruct (_ || _) eqn:Eq; [by destruct Hs|].
  split; [done|]. apply orb_false_elim in Eq as [E1 E2].
  cbn [polling]. unfold mbind, M_bind, gets. rewrite Hd, E1.
  destruct td as [t|]; [|done]. by rewrite E2.
Qed.

Lemma polling_transcode c td polls chunks w tc :
  undisturbed c td (idle_deadline w) polls = Some chunks ->
  transcode w = Some tc -> wf_rewriter w -> (length chunks + 2 <= pulls w)%nat ->
  split_sse_lines (frame_buf w) = ([], frame_buf w) ->
  Forall (fun b => is_utf8 b = true) chunks ->
  bytes_of (polling c td polls w)
  = out ← transcode_text (progress w tc) (frame_buf w +:+ join "" chunks); Ok (owed w out "").
Proof.
  revert chunks w tc. induction polls as [|[now [[b| |]|]] r IH]; intros chunks w tc Hu Ht Hwf Hp Hf Hv.
  - done.
  - apply undisturbed_bytes in Hu as (Hn & rest & -> & Hu). apply Forall_cons in Hv as [Hb Hv].
    apply is_utf8_iff, lossy_id in Hb. cbn [length] in Hp.
    rewrite join_cons, <- str_app_assoc. cbn [polling]. rewrite bytes_of_seq.
    destruct (split_sse_lines (frame_buf w +:+ b)) as [lines rem] eqn:Es.
    rewrite (transcode_text_split _ _ _ _ _ Es).
    pose proof (on_chunk_transcode c now b w tc lines rem Ht Hwf ltac:(lia) Hn) as Hc.
    rewrite Hb in Hc. specialize (Hc Es).
    destruct (transcode_lines (progress w tc) lines) as [[out p]|e]; cbn in Hc |- *;
      [|by rewrite Hc].
    destruct Hc as (w' & -> & Htc & He & Hwf' & Hfb & Hdl & Hpl & Ho).
    rewrite (IH rest w' (codec p));
      [|by rewrite Hdl|done|done|lia|rewrite Hfb; by eapply split_sse_rest|done].
    rewrite (transcode_text_erase _ p) by done. rewrite Hfb.
    destruct (transcode_text p _) as [last|]; [|done]. cbn. by rewrite Ho.
  - done.
  - injection Hu as <-. cbn [polling join]. rewrite str_app_nil_r.
    rewrite (on_eof_transcode c now w tc) by (done || cbn in Hp; lia).
    unfold transcode_text. rewrite Hf. cbn.
    by destruct (flush_transcode _ _) as [[??]|].
  - pose proof (polling_quiet c td _ now r w eq_refl ltac:(by rewrite Hu)) as [E1 E2].
    rewrite E2. apply IH; try done. by rewrite <- E1.
Qed.

(** ** Forwarding a stream of chunks *)

(** What the accumulator learns from the chunks. *)
Definition observe (a : UsageAccumulator) (b : string) : UsageAccumulator :=
  detect_verbatim_signals b (UsageAccumulator.record_chunk a (from_utf8_lossy b)).

(** The end marker an error without a terminal signal calls for. *)
Definition closing_marker c (a : UsageAccumulator) : string :=
  if bool_decide (is_Some (upstream_error a)) && negb (upstream_terminal a)
  then end_marker c else "".

Lemma on_chunk_verbatim c now b w :
  transcode w = None -> wf_rewriter w -> (0 < pulls w)%nat ->
  now + effective_idle c < instant_limit ->
  exists w', on_chunk c now b w = Ok (Some tt, w') /\ transcode w' = None
    /\ accum (guard w') = observe (accum (guard w)) b /\ wf_rewriter w'
    /\ idle_deadline w' = now + effective_idle c /\ (pulls w <= S (pulls w'))%nat
    /\ forall o m, owed w' o m = owed w (b +:+ o) m.
Proof.
  intros Ht Hwf Hp Hn.
  unfold on_chunk, mbind, M_bind. rewrite (set_deadline_spec _ _ _ Hn). unfold modify, gets.
  cbn [with_guard with_deadline transcode]. rewrite Ht.
  unfold forward_chunk, modify, mbind, M_bind.
  match goal with |- context [rewrite_out b ?w1] =>
    destruct (deliver_spec w1 b Hwf Hp) as (w' & Ed & Hd & Hwf' & Ho) end.
  exists w'. split; [exact Ed|]. destruct Hd as [? Htc ? ? Hdl Hac Hpl].
  split; [by rewrite Htc|]. split; [exact Hac|]. split; [done|]. split; [exact Hdl|].
  split; [exact Hpl|exact Ho].
Qed.

Lemma on_eof_verbatim c now w :
  transcode w = None -> wf_rewriter w -> (2 <= pulls w)%nat ->
  bytes_of (on_eof c now w) = Ok (owed w "" (closing_marker c (accum (guard w)))).
Proof.
  intros Ht Hwf Hp. unfold on_eof, mbind, M_bind, modify, gets. cbn [with_guard transcode].
  rewrite Ht. unfold close_verbatim, gets, mbind, M_bind.
  set (w1 := with_guard _ w).
  assert (exists w2, send (closing_marker c (accum (guard w))) w1 = Ok (Some tt, w2)
            /\ delivered w1 w2 /\ model_rewriter w2 = model_rewriter w1
            /\ client_bytes (log w2)
               = client_bytes (log w1) +:+ closing_marker c (accum (guard w)))
    as (w2 & Es & Hd & Hr & Hc) by (apply send_spec; subst w1; cbn; lia).
  assert (wf_rewriter w2) as Hwf2 by (unfold wf_rewriter; by rewrite Hr).
  destruct (flush_spec w2 Hwf2) as (w3 & Ef & Hc3).
  { pose proof (dl_pulls _ _ Hd). subst w1. cbn in *. lia. }
  replace (if _ && _ then send (end_marker c) else mret tt) with
    (send (D:=D) (E:=E) (closing_marker c (accum (guard w)))).
  - rewrite Es, Ef. rewrite bytes_of_finalize, Hc3. unfold owed. rewrite Hr, Hc.
    change (model_rewriter w1) with (model_rewriter w). change (log w1) with (log w).
    rewrite str_app_assoc. do 2 f_equal.
    unfold wf_rewriter in Hwf. destruct (model_rewriter w) as [r|].
    + rewrite !str_app_nil_r, marked_nil. by rewrite marked_partial.
    + by rewrite str_app_nil_l, !str_app_nil_r.
  - unfold closing_marker. subst w1. cbn. by destruct (_ && _).
Qed.

Lemma polling_verbatim c td polls chunks w :
  undisturbed c td (idle_deadline w) polls = Some chunks ->
  transcode w = None -> wf_rewriter w -> (length chunks + 2 <= pulls w)%nat ->
  bytes_of (polling c td polls w)
  = Ok (owed w (join "" chunks)
          (closing_marker c (fold_left observe chunks (accum (guard w))))).
Proof.
  revert chunks w. induction polls as [|[now [[b| |]|]] r IH]; intros chunks w Hu Ht Hwf Hp.
  - done.
  - apply undisturbed_bytes in Hu as (Hn & rest & -> & Hu). cbn [length] in Hp.
    destruct (on_chunk_verbatim c now b w Ht Hwf ltac:(lia) Hn)
      as (w' & Ec & Ht' & Ha & Hwf' & Hdl & Hpl & Ho).
    cbn [polling]. rewrite bytes_of_seq, Ec.
    rewrite (IH rest w') by (done || lia || by rewrite Hdl).
    by rewrite Ho, join_cons, Ha.
  - done.
  - injection Hu as <-. cbn [polling]. apply on_eof_verbatim; [done..|]. cbn in Hp. lia.
  - pose proof (polling_quiet c td _ now r w eq_refl ltac:(by rewrite Hu)) as [E1 E2].
    rewrite E2. apply IH; try done. by rewrite <- E1.
Qed.

(** Up to the loop. *)
Lemma body_in_time c start last polls chunks w :
  in_time c start polls = Some chunks ->
  undisturbed c (total_of c start) (start + effective_idle c) polls = Some chunks
  /\ bytes_of (body c start last polls w)
     = bytes_of (polling c (total_of c start) polls (with_deadline (start + effective_idle c) w)).
Proof.
  unfold in_time. destruct (_ && _) eqn:Eb; [|done]. intros Hu. split; [done|].
  apply andb_prop in Eb as [Hs Ht]. bool_prop.
  unfold body. rewrite bytes_of_seq, (set_deadline_spec _ _ _ Hs).
  unfold mbind at 1, M_bind at 1. unfold total_of in *.
  destruct (total_timeout c =? 0) eqn:E0.
  { exact (bytes_of_then_finalize _ _ _). }
  unfold mbind at 1, M_bind at 1, lift, instant_add. rewrite Ht.
  exact (bytes_of_then_finalize _ _ _).
Qed.

Lemma bytes_of_drive c start last polls w :
  ((fun w => client_bytes (log w)) <$> drive_upstream_stream c start last polls w)
  = bytes_of (body c start last polls w).
Proof.
  unfold drive_upstream_stream, bytes_of. destruct (body c start last polls w) as [[o w']|]; [|done].
  cbn. destruct (drop_guard last (guard w')) as [l g] eqn:Ed. cbn.
  by rewrite client_bytes_app, (drop_silent _ _ _ _ Ed), str_app_nil_r.
Qed.
End Chunks.

(** What the client's model override makes of a complete output. *)
Definition overridden `{SerdeJson} (o : option ResponseModelOverride) (s : string) : string :=
  match o with Some o => stream_rewritten o s | None => s end.

(** C18: Transcoding between two protocols does not depend on how the network
    cut the upstream stream: when the chunks are valid UTF-8, no timer fires
    and the client stays, the client receives exactly the bytes obtained by
    feeding the lines of the whole text to the decoder, encoding the parts,
    closing the stream by its terminal state and putting the client's model
    into the data lines; a codec that panics does so in both. *)
Theorem transcoding_chunk_independent {D E} `{StreamDecoder D} `{StreamEncoder E} `{SerdeJson}
    `{Lowercase} c cap a (tc : Transcode D E) o start last polls chunks n :
  in_time c start polls = Some chunks ->
  Forall (fun b => is_utf8 b = true) chunks ->
  (length chunks + 2 <= n)%nat ->
  ((fun w => client_bytes (log w))
     <$> drive_upstream_stream c start last polls (initial cap a (Some tc) o start n))
  = overridden o
      <$> transcode_text {| codec := tc; terminal := false; usage := a |} (join "" chunks).
Proof.
  intros Hin Hv Hn. rewrite bytes_of_drive.
  destruct (body_in_time c start last polls chunks (initial cap a (Some tc) o start n) Hin)
    as [Hu ->].
  rewrite (polling_transcode c _ polls chunks _ tc); try done.
  - unfold progress, owed. cbn. rewrite str_app_nil_l.
    destruct (transcode_text _ _) as [out|]; [|done]. cbn.
    destruct o; cbn; by rewrite ?marked_nil, ?str_app_nil_l, ?str_app_nil_r.
  - by destruct o.
Qed.

(** C19: A stream of the client's own protocol is forwarded without loss: when
    no timer fires and the client stays, the client receives the upstream's
    bytes, whatever their encoding and their chunks, with the model of the
    data lines overridden if the route asks for it, and the end marker exactly
    when an upstream error was seen and no terminal signal.  The marker comes
    after the last complete line, in front of a partial one that the model
    rewriter holds back. *)
Theorem verbatim_stream_forwarded {D E} `{StreamDecoder D} `{StreamEncoder E} `{SerdeJson}
    `{Lowercase} c cap a o start last polls chunks n :
  in_time c start polls = Some chunks ->
  (length chunks + 2 <= n)%nat ->
  ((fun w : World D E => client_bytes (log w))
     <$> drive_upstream_stream c start last polls (initial cap a None o start n))
  = Ok (let m := closing_marker c (fold_left observe chunks a) in
        match o with
        | None => join "" chunks +:+ m
        | Some o =>
            let '(ls, rest) := split_lines (join "" chunks) in
            join "" (map (line_rewritten o) ls) +:+ m +:+ stream_rewritten o rest
        end).
Proof.
  intros Hin Hn. rewrite bytes_of_drive.
  destruct (body_in_time c start last polls chunks (initial cap a None o start n) Hin) as [Hu ->].
  rewrite (polling_verbatim c _ polls chunks); try done; [|by destruct o].
  unfold owed. cbn. rewrite str_app_nil_l. by destruct o.
Qed.

(** ** A stream that is always ready *)

(** The total budget does not bound a stream that has bytes at every
    poll, because the upstream is looked at before the timers: such a stream
    is forwarded to its end however late its chunks are. *)
Theorem ready_stream_outlives_budget {D E} `{StreamDecoder D} `{StreamEncoder E} `{SerdeJson}
    `{Lowercase} c cap a start last (arrivals : list (Z * string)) close n :
  start + effective_idle c < instant_limit ->
  start + total_timeout c < instant_limit ->
  Forall (fun tb => fst tb + effective_idle c < instant_limit) arrivals ->
  (length arrivals + 2 <= n)%nat ->
  upstream_error (fold_left observe (map snd arrivals) a) = None ->
  ((fun w : World D E => client_bytes (log w))
     <$> drive_upstream_stream c start last
           (map (fun tb => (fst tb, Some (Bytes (snd tb)))) arrivals ++ [(close, Some Closed)])
           (initial cap a None None start n))
  = Ok (join "" (map snd arrivals)).
Proof.
  intros Hi Ht Ha Hn He.
  assert (forall td d, undisturbed c td d
            (map (fun tb => (fst tb, Some (Bytes (snd tb)))) arrivals ++ [(close, Some Closed)])
          = Some (map snd arrivals)) as Hu.
  { intros td. clear -Ha. induction Ha as [|[t b] r Hb _ IH]; intros d; [done|]. cbn in *.
    rewrite (proj2 (Z.ltb_lt _ _) Hb), IH. done. }
  rewrite bytes_of_drive.
  edestruct (body_in_time c start last) as [Hu2 ->].
  { unfold in_time. rewrite (proj2 (Z.ltb_lt _ _) Hi). unfold total_of.
    destruct (total_timeout c =? 0); cbn; [apply Hu|].
    rewrite (proj2 (Z.ltb_lt _ _) Ht). apply Hu. }
  rewrite (polling_verbatim c _ _ (map snd arrivals)); try done.
  - unfold owed, closing_marker. cbn. rewrite He. cbn. by rewrite str_app_nil_l, str_app_nil_r.
  - by rewrite length_map.
Qed.

(** ** Concrete streams

    The Chat Completions codec on both sides, and a codec that passes lines
    on as text. *)

Module ChatTranscode.
#[export] Instance chat_decoder `{SerdeJson} `{Lowercase} : StreamDecoder ChatStream.Decoder := {|
  feed := ChatStream.feed;
  finish := fun d => Ok (ChatStream.finish d, d) |}.

#[export] Instance chat_encoder `{SerdeJson} : StreamEncoder ChatStream.Encoder := {|
  encode_part := fun e part => let '(out, e) := ChatStream.encode_part e part in Ok (Ok out, e);
  encode_error := fun e message class code => Ok (ChatStream.encode_error message class code, e);
  encode_done := fun e => Ok (ChatStream.encode_done, e) |}.

Definition start : Transcode ChatStream.Decoder ChatStream.Encoder :=
  {| decoder := ChatStream.Decoder_new; encoder := ChatStream.Encoder_new |}.
End ChatTranscode.

Module Echo.
#[export] Instance echo_decoder : StreamDecoder unit := {|
  feed := fun d line => Ok (Ok [TextDelta line], d);
  finish := fun d => Ok (Ok [], d) |}.

#[export] Instance echo_encoder : StreamEncoder unit := {|
  encode_part := fun e part => Ok (Ok match part with TextDelta t => t | _ => "" end, e);
  encode_error := fun e message _ _ => Ok (message, e);
  encode_done := fun e => Ok ("", e) |}.

Definition start : Transcode unit unit := {| decoder := tt; encoder := tt |}.
End Echo.

Definition sample_config : Config :=
  {| end_marker := "data: [DONE]" +:+ LFLF; error_marker := "data: {}" +:+ LFLF;
     idle_timeout := 120 * ns_per_sec; total_timeout := 600 * ns_per_sec |}.

Definition sample_capture : StreamCapture :=
  {| sc_request_id := "req-1"; sc_egress_method := "POST"; sc_egress_path := "/v1/chat/completions";
     sc_egress_headers := []; sc_egress_body := None; sc_upstream_status := Some 200;
     sc_upstream_resp_headers := []; sc_client_resp_headers := []; sc_health := true;
     sc_health_key := Some "p:m" |}.

(** The chunks arrive a second apart, with empty polls in between. *)
Fixpoint each_second (t : Z) (chunks : list string) : list (Z * option item) :=
  match chunks with
  | [] => [(t, None); (t, Some Closed)]
  | b :: r => (t, None) :: (t, Some (Bytes b)) :: each_second (t + ns_per_sec) r
  end.

Lemma transcoding_chunk_independent_witness :
  (exists polls, in_time sample_config 0 polls = Some ["data: {"; "}" +:+ LFLF; "data: [DONE]"]
    /\ ((fun w => client_bytes (log w))
         <$> @drive_upstream_stream _ _ (@ChatTranscode.chat_decoder coded_json ascii_folding)
               (@ChatTranscode.chat_encoder coded_json) coded_json ascii_folding
               sample_config 0 0 polls
               (initial None UsageAccumulator.new (Some ChatTranscode.start) None 0 5))
       = overridden (H:=coded_json) None
         <$> @transcode_text _ _ (@ChatTranscode.chat_decoder coded_json ascii_folding)
               (@ChatTranscode.chat_encoder coded_json) ascii_folding
               {| codec := ChatTranscode.start; terminal := false; usage := UsageAccumulator.new |}
               (join "" ["data: {"; "}" +:+ LFLF; "data: [DONE]"])).
Proof.
  exists (each_second 1 ["data: {"; "}" +:+ LFLF; "data: [DONE]"]).
  split; [by vm_compute|].
  apply (@transcoding_chunk_independent _ _ _ _ coded_json ascii_folding sample_config None
           UsageAccumulator.new ChatTranscode.start None 0 0 _ _ 5).
  - by vm_compute.
  - repeat constructor.
  - cbn. lia.
Defined.

Lemma verbatim_stream_forwarded_witness :
  ((fun w : World unit unit => client_bytes (log w))
     <$> @drive_upstream_stream _ _ Echo.echo_decoder Echo.echo_encoder coded_json ascii_folding
           sample_config 0 0 (each_second 1 ["data: {"; "}" +:+ LFLF])
           (initial None UsageAccumulator.new None None 0 5))
  = Ok ("data: {}" +:+ LFLF).
Proof.
  apply (@verbatim_stream_forwarded _ _ Echo.echo_decoder Echo.echo_encoder coded_json ascii_folding
           sample_config None UsageAccumulator.new None 0 0 _ ["data: {"; "}" +:+ LFLF] 5).
  - by vm_compute.
  - cbn. lia.
Defined.

Import Echo.

(** A character whose bytes arrive in two chunks is corrupted on the way
    between two protocols: every chunk is decoded on its own, so both halves
    become replacement characters, while the same bytes in one chunk reach the
    client unchanged. *)
Theorem split_character_corrupted `{SerdeJson} `{Lowercase} :
  let e_acute := String (chr 195) (String (chr 169) (String LF "")) in
  let relay chunks := (fun w => client_bytes (log w))
        <$> drive_upstream_stream sample_config 0 0 (each_second 1 chunks)
              (initial None UsageAccumulator.new (Some Echo.start) None 0 5) in
  relay [e_acute] = Ok (String (chr 195) (String (chr 169) ""))
  /\ relay [String (chr 195) ""; String (chr 169) (String LF "")]
     = Ok (replacement +:+ replacement).
Proof. split; by vm_compute. Qed.
