(* ===== verification/StreamingRecord.v ===== *)
(** * StreamingRecord: what is recorded about a stream

    Besides the frames a stream leaves a capture for the telemetry bus and
    failures in the health registry.  The shape of this record for every run,
    and what it means for the circuit breaker. *)

From stdpp Require Import base option list gmap sets strings.
From Stdlib Require Import ZArith Lia Ascii.
From S2P Require Import Prelude RustStr F64 Json Telemetry Protocol Classify Health Ir Utf8 ResponseModel ChatStream Streaming StreamingProps.

Local Open Scope string_scope.
Local Open Scope list_scope.
Local Open Scope Z_scope.

(** ** What is recorded about a stream *)

Section Recorded.
Context {D E : Type} `{StreamDecoder D} `{StreamEncoder E} `{SerdeJson} `{Lowercase}.
Implicit Types (w : World D E) (c : Config).

Definition is_yield (e : effect) : bool := match e with Yielded _ => true | _ => false end.

(** Everything but the frames. *)
Definition recorded (l : list effect) : list effect := filter (fun e => is_yield e = false) l.

(** Nothing has been recorded yet, and the guard still holds what it got. *)
Record unrecorded (cap : option StreamCapture) w : Prop := {
  ur_log : recorded (log w) = [];
  ur_capture : capture (guard w) = cap;
  ur_finalized : finalized (guard w) = false;
  ur_health : health (guard w) = match cap with Some x => sc_health x | None => false end;
  ur_key : health_key (guard w) = cap ≫= sc_health_key;
}.

(** Steps of the body that record nothing. *)
Definition silent {A} (m : M A) : Prop :=
  forall cap w r w', unrecorded cap w -> m w = Ok (r, w') -> unrecorded cap w'.

Lemma silent_ret {A} (x : A) : silent (mret x).
Proof. intros cap w r w' Hw [= _ <-]. done. Qed.

Lemma silent_bind {A B} (m : M A) (k : A -> M B) :
  silent m -> (forall x, silent (k x)) -> silent (m ≫= k).
Proof.
  intros Hm Hk cap w r w' Hw. unfold mbind, M_bind.
  destruct (m w) as [[[x|] w1]|] eqn:E1; [| |done].
  - apply Hk. by eapply Hm.
  - intros [= <- <-]. by eapply Hm.
Qed.

Lemma silent_gets {A} (f : World D E -> A) : silent (gets f).
Proof. intros cap w r w' Hw [= _ <-]. done. Qed.

Lemma silent_lift {A} (x : run A) : silent (lift x).
Proof.
  intros cap w r w' Hw. unfold lift. destruct x; [|done]. intros [= _ <-]. done.
Qed.

Lemma silent_modify (f : World D E -> World D E) :
  (forall cap w, unrecorded cap w -> unrecorded cap (f w)) -> silent (modify f).
Proof. intros Hf cap w r w' Hw [= _ <-]. by apply Hf. Qed.

Lemma silent_yield b : silent (yield_ b).
Proof.
  intros cap w r w' Hw. unfold yield_. assert (forall n,
    unrecorded cap (with_log (log w ++ [Yielded b]) n w)) as Hl.
  { intros n. destruct Hw. constructor; cbn; try done.
    unfold recorded in *. by rewrite filter_app, ur_log0. }
  destruct (pulls w); intros [= _ <-]; apply Hl.
Qed.

Lemma silent_if {A} (b : bool) (m k : M A) : silent m -> silent k -> silent (if b then m else k).
Proof. by destruct b. Qed.
End Recorded.

Ltac silence :=
  repeat first
    [ apply silent_ret | apply silent_bind; [|intros ?] | apply silent_gets | apply silent_lift
    | apply silent_yield | apply silent_if
    | apply silent_modify; intros ?cap ?w []; by constructor
    | match goal with |- silent (match ?x with _ => _ end) => destruct x end ].

Section Ends.
Context {D E : Type} `{StreamDecoder D} `{StreamEncoder E} `{SerdeJson} `{Lowercase}.
Implicit Types (w : World D E) (c : Config).

Lemma silent_flush : silent (D:=D) (E:=E) flush_rewriter.
Proof. unfold flush_rewriter. silence. Qed.

Lemma silent_chunk c now b : silent (D:=D) (E:=E) (on_chunk c now b).
Proof.
  unfold on_chunk, set_deadline, transcode_chunk, forward_chunk, rewrite_out. silence.
Qed.

Lemma silent_failure c message class : silent (D:=D) (E:=E) (send_failure c message class).
Proof. unfold send_failure. silence. Qed.
(** A step that, run to its end, ends with [fin], before which nothing is
    recorded. *)
Definition finalizes (fin : Z -> M unit) (m : M (D:=D) (E:=E) unit) : Prop :=
  forall cap w r w', unrecorded cap w -> m w = Ok (r, w') ->
  match r with
  | None => unrecorded cap w'
  | Some _ => exists w1 now, unrecorded cap w1 /\ fin now w1 = Ok (Some tt, w')
  end.

Lemma finalize_spawn_ok now w : exists w', finalize_spawn (D:=D) (E:=E) now w = Ok (Some tt, w').
Proof. unfold finalize_spawn. destruct (finalize_guard now (guard w)). by eexists. Qed.

Lemma finalizes_spawn now : finalizes finalize_spawn (finalize_spawn now).
Proof.
  intros cap w r w' Hw E1. destruct (finalize_spawn_ok now w) as [w2 E2].
  rewrite E2 in E1. injection E1 as <- <-. eauto.
Qed.

Lemma finalizes_bind {A} fin (m : M A) (k : A -> M unit) :
  silent m -> (forall x, finalizes fin (k x)) -> finalizes fin (m ≫= k).
Proof.
  intros Hm Hk cap w r w' Hw. unfold mbind, M_bind.
  destruct (m w) as [[[x|] w1]|] eqn:E1; [| |done].
  - apply Hk. by eapply Hm.
  - intros [= <- <-]. by eapply Hm.
Qed.

Lemma finalizes_again last (m : M unit) :
  finalizes finalize_spawn m ->
  finalizes (fun now => finalize_spawn now ;; finalize_spawn last) (m ;; finalize_spawn last).
Proof.
  intros Hm cap w r w' Hw. unfold mbind at 1, M_bind at 1.
  destruct (m w) as [[[[]|] w1]|] eqn:E1; [| |done].
  - destruct (Hm _ _ _ _ Hw E1) as (w2 & now & Hu2 & E2). intros E3.
    destruct (finalize_spawn_ok last w1) as [w3 E4]. rewrite E4 in E3. injection E3 as <- <-.
    exists w2, now. split; [done|]. unfold mbind, M_bind. by rewrite E2.
  - intros [= <- <-]. exact (Hm _ _ _ _ Hw E1).
Qed.

Lemma finalizes_failure c now reason message class :
  finalizes finalize_spawn (on_failure c now reason message class).
Proof.
  unfold on_failure.
  repeat (apply finalizes_bind; [silence; auto using silent_flush, silent_failure|intros _]).
  apply finalizes_spawn.
Qed.

Lemma finalizes_eof c now : finalizes finalize_spawn (on_eof c now).
Proof.
  unfold on_eof, close_transcode, close_verbatim.
  repeat (apply finalizes_bind;
    [unfold rewrite_out; silence; auto using silent_flush|intros ?]).
  apply finalizes_spawn.
Qed.

Lemma finalizes_polling c td polls : finalizes finalize_spawn (polling c td polls).
Proof.
  induction polls as [|[now [[b| |]|]] r IH]; cbn [polling].
  - by intros cap w r w' Hw [= <- <-].
  - apply finalizes_bind; [apply silent_chunk|done].
  - apply finalizes_failure.
  - apply finalizes_eof.
  - apply finalizes_bind; [silence|intros deadline].
    destruct (deadline <=? now); [apply finalizes_failure|].
    destruct td as [t|]; [|done]. destruct (t <=? now); [apply finalizes_failure|done].
Qed.
(** ** The record of a whole stream *)

(** The reason a capture reports. *)
Definition reported_reason (fallback : option TruncationReason) (g : Guard)
    : option TruncationReason :=
  match last_reason g with Some r => Some r | None => fallback end.

Definition capture_of (cap : option StreamCapture) (fallback : option TruncationReason) (g : Guard)
    (now : Z) : list effect :=
  sent_effect ((fun x => exchange g (reported_reason fallback g) x now) <$> cap).

Lemma take_capture_fresh fallback now g cap :
  finalized g = false -> capture g = cap ->
  exists g', take_capture fallback now g
             = ((fun x => exchange g (reported_reason fallback g) x now) <$> cap, g')
    /\ finalized g' = true /\ health_key g' = health_key g /\ health g' = health g
    /\ accum g' = accum g /\ last_reason g' = reported_reason fallback g.
Proof. intros Hf <-. unfold take_capture. rewrite Hf. eexists. split; [done|]. by repeat split. Qed.

Lemma health_effect_taken fallback g g' :
  (fallback = None \/ fallback = Some ClientDisconnect) ->
  health_key g' = health_key g -> health g' = health g -> accum g' = accum g ->
  last_reason g' = reported_reason fallback g -> health_effect g' = health_effect g.
Proof.
  intros Hb Hk Hh Ha Hl. unfold health_effect, should_fail, saw_error.
  rewrite Hk, Hh, Ha, Hl. unfold reported_reason.
  destruct (last_reason g); [done|]. by destruct Hb as [-> | ->].
Qed.

Lemma recorded_app l1 l2 : recorded (l1 ++ l2) = recorded l1 ++ recorded l2.
Proof. apply filter_app. Qed.

Lemma recorded_health g : recorded (health_effect g) = health_effect g.
Proof. unfold health_effect. destruct (_ && _); [|done]. by destruct (health_key g). Qed.

Lemma recorded_sent o : recorded (sent_effect o) = sent_effect o.
Proof. by destruct o. Qed.

Lemma finalizes_body c start last polls :
  finalizes (fun now => finalize_spawn now ;; finalize_spawn last) (body c start last polls).
Proof.
  unfold body, set_deadline. apply finalizes_bind; [silence|intros _].
  apply finalizes_bind; [silence|intros td]. apply finalizes_again, finalizes_polling.
Qed.

(** A stream run to its end records the health of the target twice, with its
    capture in between; a stream whose client goes away records both once,
    and nothing if there is no capture. *)
Lemma drive_record c cap a tc o start last polls n w :
  drive_upstream_stream c start last polls (initial (D:=D) (E:=E) cap a tc o start n) = Ok w ->
  exists g now,
    health g = match cap with Some x => sc_health x | None => false end
    /\ health_key g = cap ≫= sc_health_key
    /\ (recorded (log w) = health_effect g ++ capture_of cap None g now ++ health_effect g
        \/ recorded (log w) = match cap with Some _ => health_effect g | None => [] end
                              ++ capture_of cap (drop_fallback_reason g) g now).
Proof.
  unfold drive_upstream_stream. set (w0 := initial _ _ _ _ _ _).
  destruct (body c start last polls w0) as [[r w1]|] eqn:Eb; [|done]. cbn [mbind result_bind].
  apply (finalizes_body c start last polls cap) in Eb; [|by constructor].
  destruct r as [[]|]; cbn in Eb.
  - destruct Eb as (w2 & now & [Hl Hc Hf Hh Hk] & E2).
    unfold mbind, M_bind, finalize_spawn, finalize_guard in E2.
    destruct (take_capture_fresh None now _ _ Hf Hc) as (g1 & Et & Hf1 & Hk1 & Hh1 & Ha1 & Hl1).
    rewrite Et in E2. cbn in E2. unfold take_capture in E2. rewrite Hf1 in E2. injection E2 as <-.
    unfold drop_guard, take_capture. cbn. rewrite Hf1. intros [= <-]. cbn.
    exists (guard w2), now. split; [done|]. split; [done|]. left.
    rewrite !app_nil_r, !recorded_app, Hl, !recorded_health, recorded_sent.
    rewrite (health_effect_taken None (guard w2) g1 (or_introl eq_refl) Hk1 Hh1 Ha1 Hl1).
    cbn [app]. by rewrite <- app_assoc.
  - destruct Eb as [Hl Hc Hf Hh Hk]. unfold drop_guard.
    destruct (take_capture_fresh (drop_fallback_reason (guard w1)) last _ _ Hf Hc)
      as (g1 & Et & Hf1 & Hk1 & Hh1 & Ha1 & Hl1).
    rewrite Et. intros E3. exists (guard w1), last. split; [done|]. split; [done|]. right.
    unfold capture_of. destruct cap as [x|]; cbn in E3 |- *; injection E3 as <-; cbn.
    + rewrite !recorded_app, Hl, recorded_health.
      rewrite (health_effect_taken (drop_fallback_reason (guard w1)) (guard w1) g1); try done.
      unfold drop_fallback_reason. destruct (_ || _); auto.
    + rewrite app_nil_r. exact Hl.
Qed.
End Ends.

(** The captures in a log, and the failures it reports for a target. *)
Definition captures (l : list effect) : list ExchangeCapture :=
  omap (fun e => match e with CaptureSent c => Some c | _ => None end) l.

Definition failures (key : string) (l : list effect) : nat :=
  length (filter (fun e => e = HealthFailure key) l).

Lemma captures_recorded l : captures l = captures (recorded l).
Proof.
  induction l as [|[b|k|c] l IH]; [done|..]; unfold recorded in *; rewrite filter_cons.
  - exact IH.
  - exact IH.
  - exact (f_equal (cons c) IH).
Qed.

Lemma failures_recorded key l : failures key l = failures key (recorded l).
Proof.
  unfold failures, recorded. induction l as [|e l IH]; [done|].
  rewrite filter_cons, (filter_cons _ e l).
  destruct (decide (e = HealthFailure key)) as [->|Hne].
  - rewrite decide_True by done. rewrite filter_cons, decide_True by done. cbn. by rewrite IH.
  - destruct (decide (is_yield e = false)); [|done]. by rewrite filter_cons, decide_False.
Qed.

Lemma captures_app l1 l2 : captures (l1 ++ l2) = captures l1 ++ captures l2.
Proof. apply omap_app. Qed.

Lemma captures_health g : captures (health_effect g) = [].
Proof. unfold health_effect. destruct (_ && _); [|done]. by destruct (health_key g). Qed.

Lemma failures_app key l1 l2 : failures key (l1 ++ l2) = (failures key l1 + failures key l2)%nat.
Proof. unfold failures. by rewrite filter_app, length_app. Qed.

Lemma failures_health key g : (failures key (health_effect g) <= 1)%nat.
Proof.
  unfold failures, health_effect. destruct (_ && _); [|cbn; lia].
  destruct (health_key g); [|cbn; lia].
  rewrite filter_cons. destruct (decide _); cbn; lia.
Qed.

Lemma failures_capture key cap fallback g now : failures key (capture_of cap fallback g now) = 0%nat.
Proof. by destruct cap. Qed.

(** The captures of a run: the exchange, if one is recorded. *)
Lemma captures_of_run {D E} `{StreamDecoder D} `{StreamEncoder E} `{SerdeJson} `{Lowercase}
    c cap a tc o start last polls n (w : World D E) :
  drive_upstream_stream c start last polls (initial cap a tc o start n) = Ok w ->
  exists g reason now,
    captures (log w) = match cap with Some x => [exchange g reason x now] | None => [] end.
Proof.
  intros (g & now & _ & _ & Hr)%drive_record.
  destruct Hr as [Er|Er].
  - exists g, (reported_reason None g), now. rewrite captures_recorded, Er, !captures_app, !captures_health.
    by destruct cap.
  - exists g, (reported_reason (drop_fallback_reason g) g), now.
    rewrite captures_recorded, Er, !captures_app. destruct cap; [by rewrite captures_health|done].
Qed.

(** Whatever the upstream and the client do, a stream sends its capture
    to the telemetry bus exactly once, under the id of its request, and none
    if the exchange is not captured. *)
Theorem capture_sent_exactly_once {D E} `{StreamDecoder D} `{StreamEncoder E} `{SerdeJson}
    `{Lowercase} c cap a tc o start last polls n (w : World D E) :
  drive_upstream_stream c start last polls (initial cap a tc o start n) = Ok w ->
  map request_id (captures (log w)) = match cap with Some x => [sc_request_id x] | None => [] end.
Proof.
  intros (g & reason & now & ->)%captures_of_run. by destruct cap.
Qed.

(** ** Failing streams and the circuit breaker *)

(** What the registry makes of a log: the failures are recorded one after the
    other, at an instant each. *)
Fixpoint record_failures (r : HealthRegistry) (key : string) (times : list Z) : HealthRegistry :=
  match times with
  | [] => r
  | t :: ts => record_failures (HealthRegistry.record_failure r key t) key ts
  end.

(** One stream after the other on a target: the executor records the success
    of the response, then the stream records its failures. *)
Fixpoint after_streams (r : HealthRegistry) (key : string) (streams : list (list Z))
    : HealthRegistry :=
  match streams with
  | [] => r
  | times :: rest => after_streams (record_failures (HealthRegistry.record_success r key) key times) key rest
  end.

(** At most [k] failures since the last success, no cooling, threshold 3. *)
Definition calm (k : Z) (r : HealthRegistry) (key : string) : Prop :=
  hr_failure_threshold r = 3
  /\ match states r !! key with
     | None => True
     | Some s => 0 <= th_consecutive_failures s <= k /\ th_cooling_until s = None
     end.

Lemma calm_success k r key : calm k r key -> calm 0 (HealthRegistry.record_success r key) key.
Proof.
  intros [Ht Hs]. unfold calm, HealthRegistry.record_success.
  destruct (states r !! key) as [s|] eqn:E; cbn.
  - split; [done|]. rewrite lookup_insert_eq. cbn. split; [lia|done].
  - by rewrite E.
Qed.

Lemma calm_failure k r key t :
  0 <= k < 3 -> calm k r key -> calm (k + 1) (HealthRegistry.record_failure r key t) key.
Proof.
  intros Hk [Ht Hs]. unfold calm, HealthRegistry.record_failure. cbn. split; [done|].
  rewrite lookup_insert_eq. cbn. destruct (states r !! key) as [s|]; cbn.
  - destruct Hs as [Hs Hc]. rewrite wrap32_small by width. split; [lia|done].
  - split; [|done]. rewrite wrap32_small by done. lia.
Qed.

Lemma calm_healthy r key now : calm 2 r key -> HealthRegistry.is_healthy r key now = true.
Proof.
  intros [Ht Hs]. unfold HealthRegistry.is_healthy. destruct (states r !! key) as [s|]; [|done].
  destruct Hs as [Hs Hc]. unfold HealthRegistry.cooling_at. rewrite Hc, Ht.
  by rewrite (proj2 (Z.ltb_lt _ _)) by lia.
Qed.

Lemma calm_failures r key times :
  calm 0 r key -> (length times <= 2)%nat -> calm 2 (record_failures r key times) key.
Proof.
  intros Hr Hl. assert (forall k k' r, k <= k' -> calm k r key -> calm k' r key) as Hw.
  { intros k k' r' Hk [Ht Hs]. split; [done|]. destruct (states r' !! key); [|done].
    destruct Hs. split; [lia|done]. }
  destruct times as [|t1 [|t2 [|t3 ts]]]; cbn in Hl; [..|lia]; cbn [record_failures].
  - by apply (Hw 0); [lia|].
  - apply (Hw 1); [lia|]. by apply (calm_failure 0).
  - apply (calm_failure 1); [lia|]. by apply (calm_failure 0).
Qed.

(** Failures seen inside streams never open the circuit breaker of the
    default registry as long as the streams of the target follow one another:
    every stream starts with the success of its response, which sets the
    count to zero, and records two failures at most, below the threshold of
    three.  So a target all of whose streams break stays healthy for ever,
    although the guard means to drive the breaker with them. *)
Theorem stream_failures_never_open_breaker {D E} `{StreamDecoder D} `{StreamEncoder E}
    `{SerdeJson} `{Lowercase} key r0 (runs : list (World D E * list Z)) now :
  HealthRegistry.with_defaults = Ok r0 ->
  Forall (fun '(w, times) =>
    (exists c cap a tc o start last polls n,
        drive_upstream_stream c start last polls (initial cap a tc o start n) = Ok w)
    /\ length times = failures key (log w)) runs ->
  HealthRegistry.is_healthy (after_streams r0 key (map snd runs)) key now = true.
Proof.
  intros Hdef Hruns. apply calm_healthy.
  assert (calm 2 r0 key) as Hc.
  { injection Hdef as <-. split; [done|]. cbn. by rewrite lookup_empty. }
  clear Hdef. revert r0 Hc. induction Hruns as [|[w times] runs [Hrun Hl] _ IH]; intros r0 Hc; [done|].
  cbn [map snd after_streams]. apply IH, calm_failures; [by eapply calm_success|].
  destruct Hrun as (c & cap & a & tc & o & start & last & polls & n & Hrun).
  rewrite Hl, failures_recorded.
  destruct (drive_record _ _ _ _ _ _ _ _ _ _ Hrun) as (g & t & _ & _ & [-> | ->]);
    rewrite !failures_app, ?failures_capture; pose proof (failures_health key g); [lia|].
  destruct cap; [lia|]. cbn. lia.
Qed.

(** ** Concrete streams *)

Import Echo ChatTranscode.

Lemma capture_sent_exactly_once_witness :
  exists w : World unit unit,
    @drive_upstream_stream _ _ Echo.echo_decoder Echo.echo_encoder coded_json ascii_folding
      sample_config 0 0 (each_second 1 ["data: {}" +:+ LFLF])
      (initial (Some sample_capture) UsageAccumulator.new None None 0 0) = Ok w
    /\ map request_id (captures (log w)) = ["req-1"].
Proof.
  eexists. split; [by vm_compute|].
  eapply (@capture_sent_exactly_once _ _ Echo.echo_decoder Echo.echo_encoder coded_json
            ascii_folding sample_config (Some sample_capture) UsageAccumulator.new None None 0 0
            (each_second 1 ["data: {}" +:+ LFLF]) 0).
  by vm_compute.
Defined.

(** The upstream falls silent: the failure is recorded twice. *)
Definition silent_stream : run (World unit unit) :=
  @drive_upstream_stream _ _ Echo.echo_decoder Echo.echo_encoder coded_json ascii_folding
    sample_config 0 0 [(200 * ns_per_sec, None)]
    (initial (Some sample_capture) UsageAccumulator.new None None 0 5).

Example failure_counted_twice : (fun w => failures "p:m" (log w)) <$> silent_stream = Ok 2%nat.
Proof. by vm_compute. Qed.

Lemma stream_failures_never_open_breaker_witness :
  exists r0 w, HealthRegistry.with_defaults = Ok r0 /\ silent_stream = Ok w
    /\ HealthRegistry.is_healthy (after_streams r0 "p:m" (map snd [(w, [1; 1]); (w, [2; 2])])) "p:m" 3
       = true.
Proof.
  do 2 eexists. split; [done|]. split; [by vm_compute|].
  eapply (@stream_failures_never_open_breaker _ _ Echo.echo_decoder Echo.echo_encoder coded_json
            ascii_folding); [done|].
  repeat constructor;
    (exists sample_config, (Some sample_capture), UsageAccumulator.new, None, None, 0, 0,
       [(200 * ns_per_sec, None)], 5%nat; by vm_compute).
Defined.

(** A transcoded stream whose client leaves right after the final frame
    it was promised counts as a disconnect, because only the verbatim path
    tells the accumulator of the terminal signal; the same upstream without
    transcoding is recorded without a reason. *)
Theorem completed_transcode_counts_as_disconnect `{SerdeJson} `{Lowercase} :
  let finished mode := (fun w => (client_bytes (log w), map truncation_reason (captures (log w))))
        <$> drive_upstream_stream sample_config 0 1 [(1, Some (Bytes ChatStream.encode_done))]
              (initial (Some sample_capture) UsageAccumulator.new mode None 0 5) in
  finished (Some ChatTranscode.start) = Ok (ChatStream.encode_done, [Some "client_disconnect"])
  /\ finished None = Ok (ChatStream.encode_done, [None]).
Proof. split; by vm_compute. Qed.
