(* ===== verification/Keepalive.v ===== *)
(** * Keepalive: the wrapper that keeps a silent stream alive

    [SseKeepaliveStream] of [crates/server/src/ingress/streaming.rs]: while the
    wrapped stream has nothing to say, a comment goes to the client at every
    interval.  A poll is given the instant it happens at and what the wrapped
    stream answers. *)

From stdpp Require Import base option list gmap sets strings.
From Stdlib Require Import ZArith Lia Ascii.
From S2P Require Import Prelude RustStr Classify Health Streaming.

Local Open Scope string_scope.
Local Open Scope list_scope.
Local Open Scope Z_scope.

(** ** The keepalive wrapper *)

Record Keepalive := {
  interval : Z;
  emit_keepalive_at : Z;
  done : bool;
}.

Definition DEFAULT_SSE_KEEPALIVE_INTERVAL : Z := 30 * ns_per_sec.

(** The interval [drive_upstream_stream] passes. *)
Definition keepalive_interval (configured : Z) : Z :=
  if configured =? 0 then DEFAULT_SSE_KEEPALIVE_INTERVAL else configured.

Definition SseKeepaliveStream_new (interval now : Z) : run Keepalive :=
  let interval_for_timer :=
    if interval =? 0 then 60 * 60 * 24 * 365 * 1000 * ns_per_sec else interval in
  at_ ← instant_add now interval_for_timer;
  Ok {| interval := interval; emit_keepalive_at := at_; done := false |}.

Definition keepalive_frame : string := ":keepalive" +:+ LFLF.

(** What the wrapped stream answers to a poll. *)
Inductive polled :=
| Ready (bytes : string)
| ReadyErr (e : string)
| ReadyNone
| Pending.

Definition finished (k : Keepalive) : Keepalive :=
  {| interval := interval k; emit_keepalive_at := emit_keepalive_at k; done := true |}.

Definition rearm (k : Keepalive) (now : Z) : run Keepalive :=
  at_ ← instant_add now (interval k);
  Ok {| interval := interval k; emit_keepalive_at := at_; done := done k |}.

Definition poll_next (k : Keepalive) (now : Z) (inner : polled) : run (polled * Keepalive) :=
  if done k then Ok (ReadyNone, k)
  else match inner with
       | Ready event => k ← rearm k now; Ok (Ready event, k)
       | ReadyErr e => Ok (ReadyErr e, finished k)
       | ReadyNone => Ok (ReadyNone, finished k)
       | Pending =>
           if negb (interval k =? 0) && (emit_keepalive_at k <=? now) then
             k ← rearm k now; Ok (Ready keepalive_frame, k)
           else Ok (Pending, k)
       end.

(** A sequence of polls; the inner stream is not polled once it is over. *)
Fixpoint poll_all (k : Keepalive) (polls : list (Z * polled)) : run (list polled) :=
  match polls with
  | [] => Ok []
  | (now, inner) :: r =>
      '(out, k) ← poll_next k now inner;
      rest ← poll_all k r;
      Ok (out :: rest)
  end.

(** ** Keepalives *)

(** The wrapped stream on its own: over after its end or its error. *)
Fixpoint unwrapped (inner : list polled) : list polled :=
  match inner with
  | [] => []
  | ReadyNone :: r => ReadyNone :: map (fun _ => ReadyNone) r
  | ReadyErr e :: r => ReadyErr e :: map (fun _ => ReadyNone) r
  | x :: r => x :: unwrapped r
  end.

(** A poll answers what the inner stream answers; where that is nothing yet,
    it may answer with a keepalive. *)
Definition passes (inner out : polled) : Prop :=
  out = inner \/ inner = Pending /\ out = Ready keepalive_frame.

(** A keepalive comes an interval after the last frame at the earliest. *)
Fixpoint spaced (interval last : Z) (polls : list (Z * polled)) (outs : list polled) : Prop :=
  match polls, outs with
  | (t, Pending) :: r, Ready _ :: s => last + interval <= t /\ spaced interval t r s
  | (t, _) :: r, Ready _ :: s => spaced interval t r s
  | _ :: r, _ :: s => spaced interval last r s
  | _, _ => True
  end.

Lemma poll_all_done k polls :
  done k = true -> poll_all k polls = Ok (map (fun _ => ReadyNone) polls).
Proof.
  intros Hk. induction polls as [|[t x] r IH]; [done|]. cbn [poll_all]. unfold poll_next.
  rewrite Hk. cbn [mbind result_bind]. by rewrite IH.
Qed.

Lemma spaced_quiet interval last polls outs :
  Forall (fun o => o = ReadyNone) outs -> spaced interval last polls outs.
Proof.
  intros Ho. revert last polls. induction Ho as [|o outs -> _ IH]; intros last [|[t []] r]; cbn; auto.
Qed.

Lemma passes_done inner : Forall2 passes (map (fun _ : Z * polled => ReadyNone) inner)
                                         (map (fun _ => ReadyNone) inner).
Proof. induction inner; constructor; [by left|done]. Qed.

Lemma poll_all_spec k polls outs last :
  done k = false -> interval k <> 0 -> emit_keepalive_at k = last + interval k ->
  poll_all k polls = Ok outs ->
  Forall2 passes (unwrapped (map snd polls)) outs /\ spaced (interval k) last polls outs.
Proof.
  revert k outs last. induction polls as [|[t x] r IH]; intros k outs last Hd Hi He.
  { intros [= <-]. by split. }
  assert (forall k0, rearm k t = Ok k0 ->
            done k0 = false /\ interval k0 = interval k /\ emit_keepalive_at k0 = t + interval k) as Hr.
  { intros k0. unfold rearm, instant_add. destruct (_ <? _); [|done]. by intros [= <-]. }
  assert (forall e, Ok (E:=panic) (e :: map (fun _ => ReadyNone) r) = Ok outs ->
            Forall2 passes (e :: map (fun _ => ReadyNone) (map snd r)) outs
            /\ ((forall b, e <> Ready b) -> spaced (interval k) last ((t, x) :: r) outs)) as Hend.
  { intros e [= <-]. rewrite map_map. split; [constructor; [by left|apply passes_done]|].
    intros Hne. assert (Forall (fun o => o = ReadyNone) (map (fun _ : Z * polled => ReadyNone) r)) as Hn.
    { clear. induction r; by constructor. }
    destruct e; [by edestruct Hne|..]; destruct x; cbn; by apply spaced_quiet. }
  cbn [poll_all]. unfold poll_next. rewrite Hd.
  destruct x as [b|e| |]; cbn [map snd unwrapped].
  - destruct (rearm k t) as [k0|] eqn:Ek; [|done]. cbn [mbind result_bind].
    destruct (Hr _ eq_refl) as (Hd0 & Hi0 & He0).
    destruct (poll_all k0 r) as [rest|] eqn:Ep; [|done]. intros [= <-].
    destruct (IH k0 rest t) as [Hf Hs]; [done|congruence|congruence|done|].
    split; [constructor; [by left|done]|]. cbn. by rewrite <- Hi0.
  - cbn [mbind result_bind]. rewrite poll_all_done by done. intros Ho.
    destruct (Hend _ Ho) as [Hf Hs]. split; [done|]. by apply Hs.
  - cbn [mbind result_bind]. rewrite poll_all_done by done. intros Ho.
    destruct (Hend _ Ho) as [Hf Hs]. split; [done|]. by apply Hs.
  - rewrite (proj2 (Z.eqb_neq _ _) Hi). cbn [negb andb].
    destruct (emit_keepalive_at k <=? t) eqn:El; bool_prop.
    + destruct (rearm k t) as [k0|] eqn:Ek; [|done]. cbn [mbind result_bind].
      destruct (Hr _ eq_refl) as (Hd0 & Hi0 & He0).
      destruct (poll_all k0 r) as [rest|] eqn:Ep; [|done]. intros [= <-].
      destruct (IH k0 rest t) as [Hf Hs]; [done|congruence|congruence|done|].
      split; [constructor; [by right|done]|]. cbn. rewrite <- Hi0. split; [lia|done].
    + cbn [mbind result_bind]. destruct (poll_all k r) as [rest|] eqn:Ep; [|done]. intros [= <-].
      destruct (IH k rest last) as [Hf Hs]; try done. split; [constructor; [by left|done]|done].
Qed.

(** C20: The keepalive wrapper forwards every frame, error and end of the
    stream it wraps at the poll that produces it, never answers anything but
    the end after an end or an error, and adds nothing but keepalive comments
    at polls where the stream has nothing, each of them at least one interval
    after the previous frame. *)
Theorem keepalive_transparent configured start k polls outs :
  SseKeepaliveStream_new (keepalive_interval configured) start = Ok k ->
  poll_all k polls = Ok outs ->
  Forall2 passes (unwrapped (map snd polls)) outs
  /\ spaced (keepalive_interval configured) start polls outs.
Proof.
  assert (keepalive_interval configured <> 0) as Hi.
  { unfold keepalive_interval. destruct (configured =? 0) eqn:E; by bool_prop. }
  unfold SseKeepaliveStream_new. rewrite (proj2 (Z.eqb_neq _ _) Hi).
  unfold instant_add. destruct (_ <? _); [|done]. intros [= <-] Hp.
  eapply poll_all_spec in Hp; [exact Hp|done|exact Hi|done].
Qed.

Definition frame_in_two : list (Z * polled) :=
  [(0, Ready "data: {"); (31 * ns_per_sec, Pending); (32 * ns_per_sec, Ready ("}" +:+ LFLF))].

Lemma keepalive_transparent_witness :
  exists k, SseKeepaliveStream_new (keepalive_interval 0) 0 = Ok k
    /\ poll_all k frame_in_two
       = Ok [Ready "data: {"; Ready keepalive_frame; Ready ("}" +:+ LFLF)]
    /\ spaced (keepalive_interval 0) 0 frame_in_two
         [Ready "data: {"; Ready keepalive_frame; Ready ("}" +:+ LFLF)].
Proof.
  set (k := {| interval := 30 * ns_per_sec; emit_keepalive_at := 30 * ns_per_sec; done := false |}).
  exists k. split; [by vm_compute|]. split; [by vm_compute|].
  refine (proj2 (keepalive_transparent 0 0 k frame_in_two _ _ _)); by vm_compute.
Defined.

(** The same run: the comment lands inside the upstream's frame, whose data
    line the client can no longer parse. *)
Example keepalive_inside_frame :
  ('(k : Keepalive) ← SseKeepaliveStream_new (keepalive_interval 0) 0; poll_all k frame_in_two)
  = Ok [Ready "data: {"; Ready (":keepalive" +:+ LFLF); Ready ("}" +:+ LFLF)].
Proof. by vm_compute. Qed.
