(* ===== verification/ChatRequest.v ===== *)
(** * ChatRequest: requests of Chat Completions

    [decode_request] and [encode_request] of [ChatCompletionsCodec]
    ([crates/protocols/src/chat_completions.rs]): the JSON body of a request
    to and from the intermediate representation.  The two long functions are
    cut into the pieces their comments name. *)

From stdpp Require Import base option list gmap strings.
From Stdlib Require Import ZArith Lia Ascii SpecFloat.
From S2P Require Import Prelude RustStr F64 Json JsonBody Telemetry Protocol Classify Ir StructuredOutput.

Local Open Scope string_scope.
Local Open Scope list_scope.
Local Open Scope Z_scope.

(** ** Custom tool calls *)

Definition is_openai_custom_tool_call (wire_type : option string) : bool :=
  match wire_type with
  | Some t => String.eqb t "custom" || String.eqb t "custom_tool_call"
  | None => false
  end.

Definition custom_tool_input `{SerdeJson} (arguments : Value) : string :=
  default (to_string arguments) (or_else (get "input" arguments ≫= as_str) (as_str arguments)).

Definition ChatCompletionsCodec_id : ProtocolEndpoint :=
  mk_endpoint OpenAiCompatible "chat-completions" "v1".

(** ** Decoding messages *)

Definition decode_role (s : string) : Role :=
  if String.eqb s "system" || String.eqb s "developer" then RSystem
  else if String.eqb s "user" then RUser
  else if String.eqb s "assistant" then RAssistant
  else if String.eqb s "tool" || String.eqb s "function" then RTool
  else RUser.

Definition decode_chat_prompt_cache_breakpoint (item : Value) : option PromptCacheBreakpoint :=
  if bool_decide (as_str item.["prompt_cache_breakpoint"].["mode"] = Some "explicit")
  then Some {| pcb_mode := Explicit |} else None.

Definition plain_text (text : string) : Content := CText text None None.

(** An [image_url] part, in its object form or in the legacy string form. *)
Definition decode_image (item : Value) : Content :=
  let '(raw_url, detail) :=
    match as_str item.["image_url"] with
    | Some s => (s, None)
    | None => (str_or "" item.["image_url"].["url"], as_str item.["image_url"].["detail"])
    end in
  let '(source, mime_type) := MediaSource.from_data_url raw_url "image/*" in
  let metadata := match detail with
                  | Some d => <[IMAGE_DETAIL_KEY := Str d]> ∅
                  | None => ∅
                  end in
  CMedia source mime_type metadata (decode_chat_prompt_cache_breakpoint item).

Definition parse_content_item (role : Role) (item : Value) : Content :=
  match as_str item.["type"] with
  | Some t =>
      if String.eqb t "text"
      then CText (str_or "" item.["text"]) None (decode_chat_prompt_cache_breakpoint item)
      else if String.eqb t "image_url" then decode_image item
      else if String.eqb t "tool_use" || String.eqb t "tool_result" then
        if bool_decide (role = RTool)
        then CToolResult (str_or "" item.["tool_call_id"]) "" (str_or "" item.["content"])
                         None None None
        else plain_text (str_or "" item.["content"])
      else plain_text (str_or "" item.["text"])
  | None => plain_text (str_or "" item.["text"])
  end.

Definition parse_content_array (arr : list Value) (role : Role) : list Content :=
  map (parse_content_item role) arr.

(** The content of a message, by the role and the form of [content]. *)
Definition decode_content (role : Role) (msg : Value) : list Content :=
  if bool_decide (role = RTool) then
    match as_array msg.["content"] with
    | Some arr => parse_content_array arr role
    | None => [CToolResult (str_or "" msg.["tool_call_id"]) (str_or "" msg.["name"])
                           (str_or "" msg.["content"]) None None None]
    end
  else match as_str msg.["content"] with
       | Some text => if is_empty text then [] else [plain_text text]
       | None =>
           match as_array msg.["content"] with
           | Some arr => parse_content_array arr role
           | None => []
           end
       end.

(** The chain of thought, under the names the providers use. *)
Definition decode_thought (msg : Value) : list Content :=
  match or_else (as_str msg.["reasoning_content"])
          (or_else (as_str msg.["reasoning"]) (as_str msg.["thinking"])) with
  | Some rc => if is_empty rc then [] else [CReasoning rc None None None]
  | None => []
  end.

Section Decode.
Context `{SerdeJson}.

Definition decode_custom_call (tc : Value) : Content :=
  CToolCall (str_or "" tc.["id"]) (str_or "" tc.["custom"].["name"])
    (Str (str_or "" tc.["custom"].["input"])) None None (Some "custom").

(** The arguments of a function call are JSON text; text that is not JSON is
    kept as a string. *)
Definition decode_arguments (v : Value) : Value :=
  match v with
  | Str s => default (Str s) (from_str s)
  | Null => obj []
  | other => other
  end.

Definition decode_tool_call (tc : Value) : Content :=
  if bool_decide (as_str tc.["type"] = Some "custom") then decode_custom_call tc
  else CToolCall (str_or "" tc.["id"]) (str_or "" tc.["function"].["name"])
         (decode_arguments tc.["function"].["arguments"]) None None None.

Definition decode_message (msg : Value) : Message :=
  let r := decode_role (str_or "user" msg.["role"]) in
  let c := decode_thought msg ++ decode_content r msg in
  let c := match as_array msg.["tool_calls"] with
           | Some tool_calls => c ++ map decode_tool_call tool_calls
           | None => c
           end in
  {| role := r; content := match c with [] => [plain_text ""] | _ => c end |}.

Definition decode_messages (body : Value) : list Message :=
  match as_array body.["messages"] with Some arr => map decode_message arr | None => [] end.
End Decode.

(** ** System messages *)

Definition is_system (m : Message) : bool := bool_decide (role m = RSystem).

Definition has_breakpoint (c : Content) : bool :=
  match c with
  | CText _ _ (Some _) => true
  | CMedia _ _ _ (Some _) => true
  | _ => false
  end.

Definition any_system_breakpoint (messages : list Message) : bool :=
  existsb (fun m => is_system m && existsb has_breakpoint (content m)) messages.

Definition text_of (c : Content) : option string :=
  match c with CText t _ _ => Some t | _ => None end.

(** The system text, and the messages that stay in the list. *)
Definition extract_system (messages : list Message) : option string * list Message :=
  if any_system_breakpoint messages then (None, messages)
  else
    let system_chunks :=
      flat_map (fun m => omap text_of (content m)) (filter (fun m => is_system m = true) messages) in
    (match system_chunks with [] => None | _ => Some (join (String LF "") system_chunks) end,
     filter (fun m => is_system m = false) messages).

(** ** Decoding the rest of the request *)

(** [for (k, v) in obj { map.insert(k, v) }] for the keys that pass. *)
Definition collect (keep : string -> bool) (obj : list (string * Value)) : list (string * Value) :=
  fold_left (fun m kv => if keep (fst kv) then Json.insert (fst kv) (snd kv) m else m) obj [].

Definition nonempty_obj (m : list (string * Value)) : option Value :=
  match m with [] => None | _ => Some (Obj m) end.

Definition standard_tool_key (k : string) : bool :=
  String.eqb k "type" || String.eqb k "name" || String.eqb k "description"
  || String.eqb k "parameters".

Definition decode_tool (mark_required : bool) (t : Value) : Tool :=
  if String.eqb (str_or "function" t.["type"]) "custom" then
    {| tool_name := str_or "" t.["name"]; tool_description := as_str t.["description"];
       tool_parameters := get "parameters" t; tool_required := mark_required;
       tool_type := Some "custom";
       tool_config := nonempty_obj (collect (fun k => negb (standard_tool_key k))
                                      (default [] (as_object t))) |}
  else
    {| tool_name := str_or "" t.["function"].["name"];
       tool_description := as_str t.["function"].["description"];
       tool_parameters := Some t.["function"].["parameters"]; tool_required := mark_required;
       tool_type := None; tool_config := None |}.

Definition mark_required (body : Value) : bool :=
  default false (as_bool body.["parallel_tool_calls"])
  && negb (bool_decide ((get "tool_choice" body ≫= as_str) = Some "none")).

Definition decode_tools (body : Value) : list Tool :=
  map (decode_tool (mark_required body)) (default [] (as_array body.["tools"])).

Definition extra_keys : list string :=
  ["parallel_tool_calls"; "n"; "logit_bias"; "logprobs"; "top_logprobs"; "user";
   "reasoning_effort"; "stream_options"; "response_format"; "service_tier"; "store"; "metadata";
   "prompt_cache_key"; "prompt_cache_retention"; "prompt_cache_options"; "safety_identifier";
   "verbosity"].

Definition openai_extra (body : Value) : list (string * Value) :=
  fold_left (fun m k => match get k body with Some v => Json.insert k v m | None => m end)
    extra_keys [].

Definition insert_opt (k : string) (o : option Value) (m : JsonMap) : JsonMap :=
  match o with Some v => <[k := v]> m | None => m end.

(** A string or an object; other forms are dropped. *)
Definition decode_tool_choice (body : Value) : option Value :=
  match get "tool_choice" body with
  | Some (Str s) => Some (Str s)
  | Some (Obj m) => Some (Obj m)
  | _ => None
  end.

Definition decode_max_tokens_field (body : Value) : option Value :=
  match get "max_completion_tokens" body with
  | Some _ => Some (Str "max_completion_tokens")
  | None => match get "max_tokens" body with
            | Some _ => Some (Str "max_tokens")
            | None => None
            end
  end.

Definition decode_extensions (body : Value) : JsonMap :=
  insert_opt "openai.max_tokens_field" (decode_max_tokens_field body)
   (insert_opt "openai.prompt_cache_retention" (get "prompt_cache_retention" body)
    (insert_opt "openai.prompt_cache_key" (get "prompt_cache_key" body)
     (insert_opt "openai.prompt_cache_options" (get "prompt_cache_options" body)
      (insert_opt "openai.safety_identifier" (get "safety_identifier" body)
       (insert_opt "openai_extra" (nonempty_obj (openai_extra body))
        (insert_opt "tool_choice" (decode_tool_choice body) ∅)))))).

Definition decode_effort (s : string) : option ThinkingEffort :=
  if String.eqb s "none" then Some ENone
  else if String.eqb s "minimal" then Some EMinimal
  else if String.eqb s "low" then Some ELow
  else if String.eqb s "medium" then Some EMedium
  else if String.eqb s "high" then Some EHigh
  else if String.eqb s "xhigh" then Some EXHigh
  else if String.eqb s "max" then Some EMax
  else None.

Definition decode_verbosity (s : string) : option Verbosity :=
  if String.eqb s "low" then Some VLow
  else if String.eqb s "medium" then Some VMedium
  else if String.eqb s "high" then Some VHigh
  else None.

Definition effort_only (e : ThinkingEffort) : ThinkingConfig := {|
  effort := Some e; budget_tokens := None; display := None; include_thoughts := None;
  summary := None; th_mode := None; th_context := None |}.

Definition decode_params (body : Value) : GenerationParams := {|
  max_tokens := wrap32 <$> or_else (as_u64 body.["max_completion_tokens"])
                                   (as_u64 body.["max_tokens"]);
  temperature := f64_to_f32 <$> as_f64 body.["temperature"];
  top_p := f64_to_f32 <$> as_f64 body.["top_p"];
  top_k := None;
  gp_stop := omap as_str (default [] (as_array body.["stop"]));
  frequency_penalty := f64_to_f32 <$> as_f64 body.["frequency_penalty"];
  presence_penalty := f64_to_f32 <$> as_f64 body.["presence_penalty"];
  seed := as_i64 body.["seed"];
  thinking := effort_only <$> (as_str body.["reasoning_effort"] ≫= decode_effort);
  verbosity := as_str body.["verbosity"] ≫= decode_verbosity |}.

Definition decode_response_format (body : Value) : option ResponseFormat :=
  match get "response_format" body with
  | None => None
  | Some rf =>
      match as_str rf.["type"] with
      | Some t =>
          if String.eqb t "json_schema" then
            Some (JsonSchema (str_or "response" rf.["json_schema"].["name"])
                    rf.["json_schema"].["schema"] (as_bool rf.["json_schema"].["strict"]))
          else if String.eqb t "json_object" then Some JsonObject
          else None
      | None => None
      end
  end.

Definition decode_metadata (body : Value) : option (gmap string string) :=
  (fun obj => list_to_map (omap (fun kv => pair (fst kv) <$> as_str (snd kv)) obj))
    <$> (get "metadata" body ≫= as_object).

Definition decode_request `{SerdeJson} (body : Value) : result Error IrRequest :=
  let '(system, messages) := extract_system (decode_messages body) in
  Ok {| model := str_or "unknown" body.["model"];
        system := system;
        messages := messages;
        tools := decode_tools body;
        params := decode_params body;
        response_format := decode_response_format body;
        stream := default false (as_bool body.["stream"]);
        ingress_protocol := ChatCompletionsCodec_id;
        metadata := decode_metadata body;
        extensions := decode_extensions body |}.

(** ** Encoding messages *)

Definition json_breakpoint (b : PromptCacheBreakpoint) : Value :=
  match pcb_mode b with Explicit => obj [("mode", Str "explicit")] end.

Definition text_part (text : string) (b : option PromptCacheBreakpoint) : Value :=
  set_opt "prompt_cache_breakpoint" (json_breakpoint <$> b)
    (obj [("type", Str "text"); ("text", Str text)]).

Definition image_part (url : string) (metadata : JsonMap) (b : option PromptCacheBreakpoint)
    : Value :=
  let img := set_opt "detail" (metadata !! IMAGE_DETAIL_KEY) (obj [("url", Str url)]) in
  set_opt "prompt_cache_breakpoint" (json_breakpoint <$> b)
    (obj [("type", Str "image_url"); ("image_url", img)]).

(** What the parts of a message are sorted into. *)
Record Parts := {
  text_parts : list Value;
  reasoning_text : string;
  tool_calls_json : list Value;
  results : list Value;            (* messages of their own *)
}.

Definition no_parts : Parts :=
  {| text_parts := []; reasoning_text := ""; tool_calls_json := []; results := [] |}.

Definition add_text (v : Value) (p : Parts) : Parts :=
  {| text_parts := text_parts p ++ [v]; reasoning_text := reasoning_text p;
     tool_calls_json := tool_calls_json p; results := results p |}.

(** [text.push('\n')] between the pieces. *)
Definition push_line (acc text : string) : string :=
  (if is_empty acc then acc else acc +:+ String LF "") +:+ text.

Definition add_reasoning (text : string) (p : Parts) : Parts :=
  {| text_parts := text_parts p; reasoning_text := push_line (reasoning_text p) text;
     tool_calls_json := tool_calls_json p; results := results p |}.

Definition add_call (v : Value) (p : Parts) : Parts :=
  {| text_parts := text_parts p; reasoning_text := reasoning_text p;
     tool_calls_json := tool_calls_json p ++ [v]; results := results p |}.

Definition add_result (v : Value) (p : Parts) : Parts :=
  {| text_parts := text_parts p; reasoning_text := reasoning_text p;
     tool_calls_json := tool_calls_json p; results := results p ++ [v] |}.

Section Encode.
Context `{SerdeJson}.

Definition custom_call_json (wire_id name : string) (arguments : Value) : Value :=
  obj [("id", Str wire_id); ("type", Str "custom");
       ("custom", obj [("name", Str name); ("input", Str (custom_tool_input arguments))])].

Definition function_call_json (wire_id name arguments : string) : Value :=
  obj [("id", Str wire_id); ("type", Str "function");
       ("function", obj [("name", Str name); ("arguments", Str arguments)])].

Definition arguments_text (arguments : Value) : string :=
  match arguments with Str s => s | other => to_string other end.

Definition encode_content (p : Parts) (c : Content) : Parts :=
  match c with
  | CText text _ b => add_text (text_part text b) p
  | CReasoning text _ _ _ => add_reasoning text p
  | CToolCall id name arguments call_id _ wire_type =>
      let wire_id := default id call_id in
      if is_openai_custom_tool_call wire_type
      then add_call (custom_call_json wire_id name arguments) p
      else add_call (function_call_json wire_id name (arguments_text arguments)) p
  | CMedia (Url url) _ metadata b => add_text (image_part url metadata b) p
  | CMedia (Inline data) mime_type metadata b =>
      add_text (image_part ("data:" +:+ mime_type +:+ ";base64," +:+ data) metadata b) p
  | CMedia (FileId _) _ _ _ => p
  | CToolResult tool_call_id _ content _ _ _ =>
      add_result (obj [("role", Str "tool"); ("tool_call_id", Str tool_call_id);
                       ("content", Str content)]) p
  | CRefusal text _ => add_text (text_part text None) p
  | CProgram _ _ _ _ | CProgramOutput _ _ _ _ => p
  end.

Definition role_str (r : Role) : string :=
  match r with
  | RUser => "user"
  | RAssistant => "assistant"
  | RTool => "tool"
  | RSystem => "system"
  end.

(** The form of [content]: one plain text as a string, several parts as an
    array, nothing as [null] beside tool calls. *)
Definition content_json (p : Parts) : Value :=
  match text_parts p with
  | [part] =>
      if bool_decide (is_Some (get "text" part))
         && negb (bool_decide (is_Some (get "prompt_cache_breakpoint" part)))
      then part.["text"] else Arr [part]
  | _ :: _ => Arr (text_parts p)
  | [] => match tool_calls_json p with [] => Str "" | _ => Null end
  end.

Definition message_json (r : Role) (p : Parts) : Value :=
  let msg_json := set "content" (content_json p) (obj [("role", Str (role_str r))]) in
  let calls := match tool_calls_json p with [] => None | l => Some (Arr l) end in
  let reasoning := if is_empty (reasoning_text p) then None
                   else match calls with Some _ => Some (Str (reasoning_text p)) | None => None end in
  set_opt "tool_calls" calls (set_opt "reasoning_content" reasoning msg_json).

Definition has_real_content (p : Parts) : bool :=
  match text_parts p, tool_calls_json p with [], [] => false | _, _ => true end.

Definition encode_message (m : Message) : list Value :=
  let p := fold_left encode_content (content m) no_parts in
  results p
  ++ (if has_real_content p || match content m with [] => true | _ => false end
      then [message_json (role m) p] else []).

Definition encode_messages (ir : IrRequest) : list Value :=
  match system ir with
  | Some s => [obj [("role", Str "system"); ("content", Str s)]]
  | None => []
  end ++ flat_map encode_message (messages ir).

(** ** Encoding the rest of the request *)

Definition encode_tool (t : Tool) : Value :=
  if Tool.is_custom t then
    let o := obj [("type", Str "custom")] in
    let o := if is_empty (tool_name t) then o else set "name" (Str (tool_name t)) o in
    let o := set_opt "description" (Str <$> tool_description t) o in
    let o := set_opt "parameters" (tool_parameters t) o in
    match tool_config t with
    | Some (Obj cfg) =>
        fold_left (fun o kv => match get (fst kv) o with
                               | Some _ => o
                               | None => set (fst kv) (snd kv) o
                               end) cfg o
    | _ => o
    end
  else
    obj [("type", Str "function");
         ("function", obj [("name", Str (tool_name t));
                           ("description", json_opt_str (tool_description t));
                           ("parameters", default Null (tool_parameters t))])].

Definition encode_tools (ir : IrRequest) : option Value :=
  match map encode_tool (filter (fun t => Tool.is_function t || Tool.is_custom t = true) (tools ir)) with
  | [] => None
  | l => Some (Arr l)
  end.

Definition max_tokens_field (ir : IrRequest) : string :=
  match extensions ir !! "openai.max_tokens_field" ≫= as_str with
  | Some f => if String.eqb f "max_tokens" || String.eqb f "max_completion_tokens" then f
              else "max_tokens"
  | None => "max_tokens"
  end.

Definition effort_str (e : ThinkingEffort) : string :=
  match e with
  | ENone => "none"
  | EMinimal => "minimal"
  | ELow => "low"
  | EMedium => "medium"
  | EHigh => "high"
  | EXHigh => "xhigh"
  | EMax => "max"
  end.

Definition verbosity_str (v : Verbosity) : string :=
  match v with VLow => "low" | VMedium => "medium" | VHigh => "high" end.

Definition request_effort (p : GenerationParams) : option ThinkingEffort :=
  match thinking p with
  | Some t => or_else (effort t) (ThinkingConfig.budget_to_effort <$> budget_tokens t)
  | None => None
  end.

Definition encode_params (ir : IrRequest) (body : Value) : Value :=
  let p := params ir in
  let body := set_opt (max_tokens_field ir) (json_u64 <$> max_tokens p) body in
  let body := set_opt "temperature" (json_f32 <$> temperature p) body in
  let body := set_opt "top_p" (json_f32 <$> top_p p) body in
  let body := set_opt "frequency_penalty" (json_f32 <$> frequency_penalty p) body in
  let body := set_opt "presence_penalty" (json_f32 <$> presence_penalty p) body in
  let body := set_opt "seed" (json_i64 <$> seed p) body in
  let body := match gp_stop p with [] => body | l => set "stop" (Arr (map Str l)) body end in
  let body := set_opt "reasoning_effort" ((Str ∘ effort_str) <$> request_effort p) body in
  set_opt "verbosity" ((Str ∘ verbosity_str) <$> verbosity p) body.

Definition encode_metadata (m : gmap string string) : Value :=
  obj (map (fun kv => (fst kv, Str (snd kv))) (map_to_list m)).

Definition encode_response_format (f : option ResponseFormat) : option Value :=
  match f with
  | Some (JsonSchema name schema strict) =>
      Some (obj [("type", Str "json_schema");
                 ("json_schema", obj [("name", Str name); ("schema", schema);
                                      ("strict", Bool (default false strict))])])
  | Some JsonObject => Some (obj [("type", Str "json_object")])
  | _ => None
  end.

(** The fields kept at decode time; what is already there wins, except for
    [metadata]. *)
Definition replay_extra (ir : IrRequest) (body : Value) : Value :=
  match extensions ir !! "openai_extra" ≫= as_object with
  | Some extra =>
      fold_left (fun body kv =>
        if String.eqb (fst kv) "metadata" || negb (bool_decide (is_Some (get (fst kv) body)))
        then set (fst kv) (snd kv) body else body) extra body
  | None => body
  end.

Definition replay_shared (ir : IrRequest) (body : Value) : Value :=
  fold_left (fun body ef => set_opt (snd ef) (extensions ir !! fst ef) body)
    [("openai.safety_identifier", "safety_identifier");
     ("openai.prompt_cache_options", "prompt_cache_options");
     ("openai.prompt_cache_key", "prompt_cache_key");
     ("openai.prompt_cache_retention", "prompt_cache_retention")] body.

(** A streamed request asks for the usage in the last chunk. *)
Definition include_usage (ir : IrRequest) (body : Value) : Value :=
  if stream ir then
    if bool_decide (((get "stream_options" body ≫= get "include_usage") ≫= as_bool) = Some true)
    then body
    else match get "stream_options" body with
         | Some (Obj o) => set "stream_options" (Obj (Json.insert "include_usage" (Bool true) o)) body
         | _ => set "stream_options" (obj [("include_usage", Bool true)]) body
         end
  else body.

(** The fields the representation models. *)
Definition modelled_body (ir : IrRequest) : Value :=
  let body := obj [("model", Str (model ir)); ("stream", Bool (stream ir))] in
  let body := set "messages" (Arr (encode_messages ir)) body in
  let body := set_opt "tools" (encode_tools ir) body in
  let body := encode_params ir body in
  let body := match metadata ir with
              | Some m => if bool_decide (m = ∅) then body else set "metadata" (encode_metadata m) body
              | None => body
              end in
  set_opt "response_format" (encode_response_format (response_format ir)) body.

Definition encode_body (ir : IrRequest) : Value :=
  include_usage ir (replay_shared ir (replay_extra ir (modelled_body ir))).

(** The body and the headers. *)
Definition encode_request (ir : IrRequest) : result Error (Value * list (string * string)) :=
  match validate_response_format_for_target (response_format ir) ChatCompletionsCodec_id with
  | Ok _ => Ok (encode_body ir, [("content-type", "application/json")])
  | Err e => Err (ECodec (schema_error_to_string e))
  end.
End Encode.

(** ** Extensions *)

Lemma lookup_insert_opt k k' o (m : JsonMap) :
  insert_opt k' o m !! k = or_else (if String.eqb k k' then o else None) (m !! k).
Proof.
  destruct o; cbn; [|by destruct (String.eqb k k')].
  destruct (String.eqb_spec k k') as [->|]; cbn; [by rewrite lookup_insert_eq|].
  by rewrite lookup_insert_ne.
Qed.
