(* ===== verification/ChatRequestProps.v ===== *)
(** * ChatRequestProps: what Chat Completions requests keep

    The round trip of requests in the form the decoder produces, the shape of
    decoded and of encoded messages, and what the encoder loses. *)

From stdpp Require Import base option list gmap strings.
From Stdlib Require Import ZArith Lia Ascii SpecFloat.
From S2P Require Import Prelude RustStr F64 Json JsonBody Telemetry Protocol Classify Errors Ir StructuredOutput Lossy ChatRequest.

Local Open Scope string_scope.
Local Open Scope list_scope.
Local Open Scope Z_scope.

#[local] Arguments String.compare : simpl never.
#[local] Arguments MediaSource.from_data_url : simpl never.

(** ** Messages in the decoder's form *)

Section Messages.
Context `{SerdeJson}.

(** The wire form of a text-bearing part. *)
Definition part_json (c : Content) : Value :=
  match c with
  | CText t _ b => text_part t b
  | CMedia (Url url) _ metadata b => image_part url metadata b
  | CMedia (Inline data) mime metadata b =>
      image_part ("data:" +:+ mime +:+ ";base64," +:+ data) metadata b
  | _ => Null
  end.

Definition wire_url (source : MediaSource) (mime : string) : option string :=
  match source with
  | Url url => Some url
  | Inline data => Some ("data:" +:+ mime +:+ ";base64," +:+ data)
  | FileId _ => None
  end.

(** A text part, or an image whose URL is read back as it was. *)
Inductive chat_part : Content -> Prop :=
| part_text t b : chat_part (CText t None b)
| part_media source mime url detail b :
    wire_url source mime = Some url ->
    MediaSource.from_data_url url "image/*" = (source, mime) ->
    chat_part (CMedia source mime
                 (match detail with Some d => <[IMAGE_DETAIL_KEY := Str d]> ∅ | None => ∅ end) b).

(** A function call with JSON arguments or with text that is not JSON, or a
    custom call. *)
Inductive chat_call : Content -> Prop :=
| call_function id name arguments :
    as_str arguments = None -> from_str (to_string arguments) = Some arguments ->
    chat_call (CToolCall id name arguments None None None)
| call_text id name s :
    from_str s = None -> chat_call (CToolCall id name (Str s) None None None)
| call_custom id name s :
    chat_call (CToolCall id name (Str s) None None (Some "custom")).

Definition thought (o : option string) : list Content :=
  match o with Some t => [CReasoning t None None None] | None => [] end.

(** The parts are written as a text of their own only when it is not empty,
    or when there is nothing else. *)
Definition parts_ok (parts calls : list Content) : Prop :=
  match parts with
  | [] => calls <> []
  | [CText "" None None] => calls = []
  | _ => True
  end.

Inductive chat_message : Message -> Prop :=
| message_result id text :
    chat_message {| role := RTool; content := [CToolResult id "" text None None None] |}
| message_turn r o parts calls :
    r = RUser \/ r = RAssistant ->
    Forall chat_part parts -> Forall chat_call calls -> parts_ok parts calls ->
    (forall t, o = Some t -> t <> "" /\ calls <> []) ->
    chat_message {| role := r; content := thought o ++ parts ++ calls |}.

Lemma breakpoint_text t b : decode_chat_prompt_cache_breakpoint (text_part t b) = b.
Proof. by destruct b as [[[]]|]. Qed.

Lemma parse_part r c : chat_part c -> parse_content_item r (part_json c) = c.
Proof.
  destruct 1 as [t b|source mime url detail b Hw Hu].
  - by destruct b as [[[]]|].
  - assert (part_json (CMedia source mime
              (match detail with Some d => <[IMAGE_DETAIL_KEY := Str d]> ∅ | None => ∅ end) b)
            = image_part url (match detail with Some d => <[IMAGE_DETAIL_KEY := Str d]> ∅
                              | None => ∅ end) b) as ->.
    { destruct source; cbn in Hw |- *; [by injection Hw as <-..|done]. }
    unfold parse_content_item, image_part.
    replace (match detail with Some d => <[IMAGE_DETAIL_KEY := Str d]> ∅ | None => ∅ end
             !! IMAGE_DETAIL_KEY) with (Str <$> detail).
    2: { destruct detail; [by rewrite lookup_insert_eq|done]. }
    destruct detail as [d|], b as [[[]]|]; 
      unfold parse_content_item; compare_keys; unfold decode_image; compare_keys; by rewrite Hu.
Qed.

Lemma parse_parts r parts :
  Forall chat_part parts -> parse_content_array (map part_json parts) r = parts.
Proof.
  induction 1 as [|c parts Hc _ IH]; [done|]. cbn. unfold parse_content_array in IH.
  by rewrite parse_part, IH.
Qed.

Lemma fold_parts parts p :
  Forall chat_part parts ->
  fold_left encode_content parts p
  = {| text_parts := text_parts p ++ map part_json parts; reasoning_text := reasoning_text p;
       tool_calls_json := tool_calls_json p; results := results p |}.
Proof.
  intros Hp. revert p. induction Hp as [|c parts Hc _ IH]; intros p.
  - cbn. rewrite app_nil_r. by destruct p.
  - cbn [fold_left map]. rewrite IH.
    assert (encode_content p c = add_text (part_json c) p) as ->.
    { destruct Hc as [t b|[] mime url detail b Hw Hu]; done. }
    cbn. by rewrite <- app_assoc.
Qed.

(** The wire form of a tool call. *)
Definition call_json (c : Content) : Value :=
  match c with
  | CToolCall id name arguments _ _ wire_type =>
      if is_openai_custom_tool_call wire_type then custom_call_json id name arguments
      else function_call_json id name (arguments_text arguments)
  | _ => Null
  end.

Lemma parse_call c : chat_call c -> decode_tool_call (call_json c) = c.
Proof.
  destruct 1 as [id name arguments Hs Hj|id name s Hs|id name s]; cbn.
  - unfold decode_tool_call. compare_keys. f_equal. destruct arguments; try done; cbn in *; by rewrite Hj.
  - unfold decode_tool_call. compare_keys. by rewrite Hs.
  - done.
Qed.

Lemma parse_calls calls : Forall chat_call calls -> map decode_tool_call (map call_json calls) = calls.
Proof. induction 1 as [|c calls Hc _ IH]; [done|]. cbn [map]. by rewrite parse_call, IH. Qed.

Lemma fold_calls calls p :
  Forall chat_call calls ->
  fold_left encode_content calls p
  = {| text_parts := text_parts p; reasoning_text := reasoning_text p;
       tool_calls_json := tool_calls_json p ++ map call_json calls; results := results p |}.
Proof.
  intros Hp. revert p. induction Hp as [|c calls Hc _ IH]; intros p.
  - cbn. rewrite app_nil_r. by destruct p.
  - cbn [fold_left map]. rewrite IH.
    assert (encode_content p c = add_call (call_json c) p) as -> by (by destruct Hc).
    cbn. by rewrite <- app_assoc.
Qed.

Lemma fold_turn o parts calls :
  Forall chat_part parts -> Forall chat_call calls ->
  fold_left encode_content (thought o ++ parts ++ calls) no_parts
  = {| text_parts := map part_json parts; reasoning_text := default "" o;
       tool_calls_json := map call_json calls; results := [] |}.
Proof.
  intros Hp Hc. rewrite !fold_left_app, (fold_calls calls), (fold_parts parts) by done.
  destruct o; cbn; [|done]. unfold push_line. cbn. by rewrite str_app_nil_l.
Qed.
Lemma get_message k r p :
  get k (message_json r p)
  = or_else (if String.eqb k "tool_calls"
             then match tool_calls_json p with [] => None | l => Some (Arr l) end else None)
     (or_else (if String.eqb k "reasoning_content"
               then if is_empty (reasoning_text p) then None
                    else match tool_calls_json p with [] => None | _ => Some (Str (reasoning_text p)) end
               else None)
       (if String.eqb k "content" then Some (content_json p)
        else if String.eqb k "role" then Some (Str (role_str r)) else None)).
Proof.
  unfold message_json.
  assert (forall k' o b, is_object b = true ->
            get k (set_opt k' o b) = or_else (if String.eqb k k' then o else None) (get k b)) as Hg.
  { intros k' o b Hb. destruct o; cbn [set_opt].
    - rewrite get_set by (by rewrite Hb). by destruct (String.eqb k k').
    - by destruct (String.eqb k k'). }
  rewrite !Hg by auto with body. rewrite get_set, get_obj by done. cbn [rev app assoc].
  destruct (tool_calls_json p); destruct (is_empty (reasoning_text p)); done.
Qed.

Lemma decode_role_str r : decode_role (role_str r) = r.
Proof. by destruct r. Qed.

(** Reading back the content of a turn that has parts. *)
Lemma decode_turn_content r parts calls p v :
  r <> RTool -> Forall chat_part parts -> parts_ok parts calls ->
  text_parts p = map part_json parts -> tool_calls_json p = map call_json calls ->
  get "content" v = Some (content_json p) ->
  decode_content r v = match parts with [CText "" None None] => [] | _ => parts end.
Proof.
  intros Hr Hp Hok Ht Hc Hv. unfold decode_content, index. rewrite Hv. cbn [default].
  rewrite bool_decide_eq_false_2 by done.
  unfold content_json. rewrite Ht, Hc. destruct parts as [|c [|c2 parts]]; cbn [map].
  - destruct calls; [by destruct Hok|done].
  - assert (forall w, c <> plain_text "" -> w = Arr [part_json c] ->
              match as_str w with
              | Some text => if is_empty text then [] else [plain_text text]
              | None => match as_array w with
                        | Some arr => parse_content_array arr r | None => [] end
              end = [c]) as Harr.
    { intros w _ ->. exact (parse_parts r [c] Hp). }
    inversion Hp as [|? ? Hc1 _]; subst. destruct Hc1 as [t b|source mime url detail b Hw Hu].
    + destruct b as [b|].
      * rewrite Harr; [by destruct t|done|]. by destruct b as [[]].
      * compare_keys. by destruct t.
    + rewrite Harr; [done..|].
      destruct source; cbn in Hw; [..|done]; injection Hw as <-; destruct detail, b as [[[]]|];
        by cbn [part_json]; compare_keys.
  - transitivity (c :: c2 :: parts); [exact (parse_parts r (c :: c2 :: parts) Hp)|].
    by destruct c as [[|??] [?|] [?|]| | | | | | |].
Qed.

Lemma message_roundtrip m :
  chat_message m -> exists v, encode_message m = [v] /\ decode_message v = m.
Proof.
  destruct 1 as [id text|r o parts calls Hr Hp Hc Hok Ho].
  - eexists. split; [done|]. unfold decode_message, decode_thought, decode_content. by compare_keys.
  - unfold encode_message. cbn [content role]. rewrite fold_turn by done.
    set (p := {| text_parts := map part_json parts |}).
    assert (has_real_content p = true) as ->.
    { subst p. unfold has_real_content. cbn. destruct parts; [|done]. cbn in Hok. by destruct calls. }
    cbn [results p app orb]. eexists. split; [done|].
    set (v := message_json r p).
    assert (decode_role (str_or "user" v.["role"]) = r) as Hrole.
    { subst v. unfold index, str_or. rewrite get_message. cbn.
      rewrite <- (decode_role_str r) at 2. by destruct calls, (is_empty (default "" o)). }
    assert (decode_thought v = thought o) as Hth.
    { subst v. unfold decode_thought, index. rewrite !get_message. cbn.
      destruct o as [t|]; cbn; [|by destruct calls].
      destruct (Ho t eq_refl) as [Ht Hcs]. destruct calls; [done|]. by destruct t. }
    assert (as_array v.["tool_calls"]
            = match calls with [] => None | _ => Some (map call_json calls) end) as Hcalls.
    { subst v. unfold index. rewrite get_message. cbn. by destruct calls. }
    assert (decode_content r v = match parts with [CText "" None None] => [] | _ => parts end) as Hcont.
    { apply (decode_turn_content r parts calls p); try done; [by destruct Hr as [-> | ->]|].
      subst v. rewrite get_message. cbn. by destruct calls, (is_empty (default "" o)). }
    unfold decode_message. rewrite Hrole, Hth, Hcalls, Hcont.
    f_equal. destruct calls as [|c cs].
    + assert (o = None) as -> by (destruct o as [t|]; [by destruct (Ho t eq_refl)|done]).
      cbn [thought app]. rewrite app_nil_r.
      by destruct parts as [|[[] [] []| | | | | | |] []].
    + assert (match parts with [CText "" None None] => [] | _ => parts end = parts) as ->.
      { by destruct parts as [|[[] [] []| | | | | | |] []]. }
      rewrite (parse_calls (c :: cs) Hc), <- app_assoc.
      destruct (thought o); [|done]. by destruct parts.
Qed.

Lemma messages_roundtrip ms :
  Forall chat_message ms -> map decode_message (flat_map encode_message ms) = ms.
Proof.
  induction 1 as [|m ms Hm _ IH]; [done|]. cbn [flat_map].
  destruct (message_roundtrip m Hm) as (v & -> & Hv). cbn [app map]. by rewrite Hv, IH.
Qed.

Lemma chat_message_not_system m : chat_message m -> is_system m = false.
Proof. destruct 1 as [|r ? ? ? [-> | ->]]; done. Qed.

(** The system text comes back as the first message, which is extracted. *)
Lemma system_roundtrip ir :
  Forall chat_message (messages ir) ->
  extract_system (map decode_message (encode_messages ir)) = (system ir, messages ir).
Proof.
  intros Hm. unfold encode_messages. rewrite map_app, messages_roundtrip by done.
  assert (Forall (fun m => is_system m = false) (messages ir)) as Hs.
  { eapply Forall_impl; [exact Hm|]. apply chat_message_not_system. }
  assert (filter (fun m => is_system m = false) (messages ir) = messages ir
          /\ filter (fun m => is_system m = true) (messages ir) = []
          /\ any_system_breakpoint (messages ir) = false) as (Hf & Hn & Hb).
  { clear Hm. induction Hs as [|m ms Hm _ (IH1 & IH2 & IH3)]; [done|].
    rewrite !filter_cons, decide_True, decide_False, IH1, IH2 by congruence.
    unfold any_system_breakpoint in *. cbn [existsb]. by rewrite Hm, IH3. }
  destruct (system ir) as [s|]; cbn [map app].
  - assert (decode_message (obj [("role", Str "system"); ("content", Str s)])
            = {| role := RSystem; content := [plain_text s] |}) as ->.
    { unfold decode_message, decode_thought, decode_content. compare_keys. by destruct s. }
    unfold extract_system.
    change (any_system_breakpoint (_ :: messages ir)) with (any_system_breakpoint (messages ir)).
    rewrite Hb, !filter_cons, decide_True, decide_False, Hf, Hn by done. done.
  - unfold extract_system. by rewrite Hb, Hf, Hn.
Qed.
End Messages.

(** ** The fields of an encoded request *)

(** Fields the encoder writes on its own. *)
Definition body_keys : list string :=
  ["model"; "stream"; "messages"; "tools"; "temperature"; "top_p"; "frequency_penalty";
   "presence_penalty"; "seed"; "stop"; "max_tokens"; "max_completion_tokens"].

(** What a decoder leaves in the bag of extra fields: only names of its list,
    and the fields the representation models itself only beside their value. *)
Definition extra_ok (ir : IrRequest) : Prop :=
  match extensions ir !! "openai_extra" ≫= as_object with
  | None => True
  | Some extra =>
      Forall (fun kv => fst kv ∈ extra_keys) extra
      /\ (assoc "response_format" extra <> None -> encode_response_format (response_format ir) <> None)
      /\ (assoc "reasoning_effort" extra <> None -> request_effort (params ir) <> None)
      /\ (assoc "verbosity" extra <> None -> verbosity (params ir) <> None)
  end.

Section Fields.
Context `{SerdeJson}.
Implicit Types (ir : IrRequest) (body : Value).

Lemma is_object_encode_params ir body : is_object body = true -> is_object (encode_params ir body) = true.
Proof. intros Hb. unfold encode_params. destruct (gp_stop _); auto 20 with body. Qed.

Lemma replay_extra_get ir body k :
  is_object body = true -> k <> "metadata" ->
  is_object (replay_extra ir body) = true
  /\ (get k body <> None \/ match extensions ir !! "openai_extra" ≫= as_object with
                            | Some extra => assoc k extra = None | None => True end ->
      get k (replay_extra ir body) = get k body).
Proof.
  intros Hb Hk. unfold replay_extra. destruct (_ ≫= as_object) as [extra|]; [|done].
  revert body Hb. induction extra as [|[k' v] extra IH]; intros body Hb; [done|]. cbn [fold_left fst snd].
  set (b' := if _ || _ then _ else body).
  assert (is_object b' = true) as Hb' by (subst b'; destruct (_ || _); auto with body).
  destruct (IH b' Hb') as [IH1 IH2]. split; [done|]. intros Hor.
  assert (get k b' = get k body) as Hg.
  { subst b'. destruct (_ || _) eqn:E; [|done]. destruct (decide (k = k')) as [->|Hne].
    - rewrite (proj2 (String.eqb_neq _ _) Hk) in E. cbn in E.
      apply negb_true_iff, bool_decide_eq_false in E.
      destruct Hor as [Hor|Hor]; [by destruct E; destruct (get k' body)|].
      cbn in Hor. by rewrite String.eqb_refl in Hor.
    - by apply get_set_ne. }
  rewrite IH2; [done|]. rewrite Hg. destruct Hor as [Hor|Hor]; [by left|right].
  cbn in Hor. destruct (String.eqb_spec k k') as [->|]; [done|done].
Qed.
Definition late_keys : list string :=
  ["metadata"; "stream_options"; "safety_identifier"; "prompt_cache_options"; "prompt_cache_key";
   "prompt_cache_retention"].

Lemma is_object_modelled ir : is_object (modelled_body ir) = true.
Proof.
  unfold modelled_body. apply is_object_set_opt. destruct (metadata ir) as [m|].
  - destruct (bool_decide (m = ∅)); auto using is_object_encode_params with body.
  - auto using is_object_encode_params with body.
Qed.

(** The stages after the modelled fields leave the other fields alone. *)
Lemma get_encode_body ir k :
  k ∉ late_keys ->
  (get k (modelled_body ir) <> None
   \/ match extensions ir !! "openai_extra" ≫= as_object with
      | Some extra => assoc k extra = None | None => True end) ->
  get k (encode_body ir) = get k (modelled_body ir).
Proof.
  unfold late_keys. rewrite !not_elem_of_cons. intros (Hm & Hs & H1 & H2 & H3 & H4 & _) Hor.
  unfold encode_body.
  destruct (replay_extra_get ir (modelled_body ir) k (is_object_modelled ir) Hm) as [Ho Hg].
  set (b := replay_extra ir (modelled_body ir)) in *.
  assert (is_object (replay_shared ir b) = true /\ get k (replay_shared ir b) = get k b) as [Ho2 Hg2].
  { unfold replay_shared. cbn [fold_left fst snd]. split; [auto 20 with body|].
    by rewrite !get_set_opt_ne by auto 20 with body. }
  rewrite <- (Hg Hor), <- Hg2. unfold include_usage.
  destruct (stream ir); [|done]. case_bool_decide; [done|].
  destruct (get "stream_options" (replay_shared ir b)) as [[]|]; by apply get_set_ne.
Qed.

Lemma max_tokens_field_cases ir :
  max_tokens_field ir = "max_tokens" \/ max_tokens_field ir = "max_completion_tokens".
Proof.
  unfold max_tokens_field. destruct (_ ≫= as_str) as [f|]; [|by left].
  destruct (String.eqb_spec f "max_tokens") as [->|]; [by left|]. cbn.
  destruct (String.eqb_spec f "max_completion_tokens") as [->|]; [by right|by left].
Qed.
(** One field of the modelled body. *)
Definition modelled_field ir (k : string) : option Value :=
  let p := params ir in
  if String.eqb k "model" then Some (Str (model ir))
  else if String.eqb k "stream" then Some (Bool (stream ir))
  else if String.eqb k "messages" then Some (Arr (encode_messages ir))
  else if String.eqb k "tools" then encode_tools ir
  else if String.eqb k "max_tokens" || String.eqb k "max_completion_tokens"
  then if String.eqb k (max_tokens_field ir) then json_u64 <$> max_tokens p else None
  else if String.eqb k "seed" then json_i64 <$> seed p
  else if String.eqb k "stop"
  then match gp_stop p with [] => None | l => Some (Arr (map Str l)) end
  else if String.eqb k "reasoning_effort" then (Str ∘ effort_str) <$> request_effort p
  else if String.eqb k "verbosity" then (Str ∘ verbosity_str) <$> verbosity p
  else if String.eqb k "response_format" then encode_response_format (response_format ir)
  else None.

Lemma get_encode_params ir body k :
  is_object body = true ->
  get k (encode_params ir body)
  = or_else (if String.eqb k "verbosity" then (Str ∘ verbosity_str) <$> verbosity (params ir) else None)
    (or_else (if String.eqb k "reasoning_effort"
              then (Str ∘ effort_str) <$> request_effort (params ir) else None)
    (or_else (if String.eqb k "stop"
              then match gp_stop (params ir) with [] => None | l => Some (Arr (map Str l)) end else None)
    (or_else (if String.eqb k "seed" then json_i64 <$> seed (params ir) else None)
    (or_else (if String.eqb k "presence_penalty" then json_f32 <$> presence_penalty (params ir) else None)
    (or_else (if String.eqb k "frequency_penalty" then json_f32 <$> frequency_penalty (params ir) else None)
    (or_else (if String.eqb k "top_p" then json_f32 <$> top_p (params ir) else None)
    (or_else (if String.eqb k "temperature" then json_f32 <$> temperature (params ir) else None)
    (or_else (if String.eqb k (max_tokens_field ir) then json_u64 <$> max_tokens (params ir) else None)
       (get k body))))))))).
Proof.
  intros Hb. unfold encode_params.
  assert (forall b, match gp_stop (params ir) with [] => b | l => set "stop" (Arr (map Str l)) b end
            = set_opt "stop" (match gp_stop (params ir) with [] => None
                              | l => Some (Arr (map Str l)) end) b) as Hs
    by (intros b; by destruct (gp_stop (params ir))).
  rewrite Hs. by rewrite !get_set_opt_if by auto 20 with body.
Qed.

Lemma get_modelled_body ir k :
  k ∈ ["model"; "stream"; "messages"; "tools"; "max_tokens"; "max_completion_tokens"; "seed"; "stop";
       "reasoning_effort"; "verbosity"; "response_format"; "tool_choice"] ->
  get k (modelled_body ir) = modelled_field ir k.
Proof.
  intros Hk. unfold modelled_body.
  set (b := set_opt "tools" _ _).
  assert (is_object b = true) as Hb by (subst b; auto with body).
  assert (k <> "metadata") as Hkm by (rewrite !elem_of_cons, elem_of_nil in Hk; naive_solver).
  rewrite get_set_opt_if.
  2: { destruct (metadata ir) as [m|]; [destruct (bool_decide (m = ∅))|];
         auto using is_object_encode_params with body. }
  assert (get k (match metadata ir with
                 | Some m => if bool_decide (m = ∅) then encode_params ir b
                             else set "metadata" (encode_metadata m) (encode_params ir b)
                 | None => encode_params ir b
                 end) = get k (encode_params ir b)) as ->.
  { destruct (metadata ir) as [m|]; [|done]. case_bool_decide; [done|].
    apply get_set_ne; auto using is_object_encode_params. }
  rewrite get_encode_params by done. subst b.
  rewrite get_set_opt_if, get_set, get_obj by auto with body. cbn [rev app assoc].
  revert k Hk Hkm. apply (Forall_forall (fun k => k <> "metadata" -> _)).
  unfold modelled_field.
  destruct (max_tokens_field_cases ir) as [Hf|Hf]; rewrite Hf;
    repeat (apply Forall_cons; split; [intros _|]); try apply Forall_nil_2;
    lazy beta iota delta [String.eqb Ascii.eqb Bool.eqb orb or_else];
    try reflexivity;
    match goal with
    | |- context [gp_stop ?p] => by destruct (gp_stop p)
    | |- _ = ?o => by destruct o
    end.
Qed.
Lemma assoc_not_in {A} k (m : list (string * A)) (l : list string) :
  Forall (fun kv => fst kv ∈ l) m -> k ∉ l -> assoc k m = None.
Proof.
  intros Hm Hk. induction Hm as [|[k' v] m Hk' _ IH]; [done|]. cbn in *.
  destruct (String.eqb_spec k k') as [->|]; [done|exact IH].
Qed.

Definition checked_keys : list string :=
  ["model"; "stream"; "messages"; "tools"; "max_tokens"; "max_completion_tokens"; "seed"; "stop";
   "reasoning_effort"; "verbosity"; "response_format"; "tool_choice"].

Lemma get_body ir k :
  extra_ok ir -> k ∈ checked_keys -> get k (encode_body ir) = modelled_field ir k.
Proof.
  intros Hx Hk. rewrite <- get_modelled_body by done. apply get_encode_body.
  - clear Hx. revert k Hk. apply (Forall_forall (fun k => k ∉ late_keys)).
    by apply (bool_decide_unpack _).
  - rewrite (get_modelled_body ir k Hk). unfold extra_ok in Hx.
    destruct (_ ≫= as_object) as [extra|]; [|by right].
    destruct Hx as (Hks & Hr & He & Hv).
    destruct (decide (k ∈ ["reasoning_effort"; "verbosity"; "response_format"])) as [Hin|Hout].
    + assert (modelled_field ir k <> None \/ modelled_field ir k = None) as [Hs|Hs]
        by (destruct (modelled_field ir k); [left|right]; done); [by left|right].
      rewrite !elem_of_cons, elem_of_nil in Hin. destruct_or! Hin; try done; subst k; cbn in Hs.
      * destruct (assoc "reasoning_effort" extra); [|done].
        destruct (request_effort (params ir)); [done|]. by destruct He.
      * destruct (assoc "verbosity" extra); [|done].
        destruct (verbosity (params ir)); [done|]. by destruct Hv.
      * destruct (assoc "response_format" extra); [|done].
        rewrite Hs in Hr. by destruct Hr.
    + right. eapply assoc_not_in; [exact Hks|]. revert k Hk Hout.
      apply (Forall_forall (fun k => k ∉ ["reasoning_effort"; "verbosity"; "response_format"] -> k ∉ extra_keys)).
      by apply (bool_decide_unpack _).
Qed.
End Fields.

(** ** The round trip *)

(** A function tool, or a custom tool without further fields. *)
Definition chat_tool (t : Tool) : Prop :=
  tool_config t = None
  /\ (tool_type t = None /\ tool_parameters t <> None \/ tool_type t = Some "custom").

(** The tool but for the flag of parallel calls. *)
Definition same_tool (t u : Tool) : Prop :=
  tool_name t = tool_name u /\ tool_description t = tool_description u
  /\ tool_parameters t = tool_parameters u /\ tool_type t = tool_type u
  /\ tool_config t = tool_config u.

Definition normal_format (f : option ResponseFormat) : option ResponseFormat :=
  match f with
  | Some (JsonSchema name schema strict) => Some (JsonSchema name schema (Some (default false strict)))
  | Some JsonObject => Some JsonObject
  | _ => None
  end.

Section RoundTrip.
Context `{SerdeJson}.

Lemma tool_roundtrip mark t : chat_tool t -> same_tool t (decode_tool mark (encode_tool t)).
Proof.
  destruct t as [n d p r ty c]. unfold chat_tool. cbn. intros [-> [[-> Hp]| ->]].
  - destruct p as [p|]; [|done]. unfold decode_tool, encode_tool, same_tool. compare_keys.
    by destruct d.
  - unfold encode_tool, decode_tool, same_tool.
    destruct n, d, p; compare_keys; done.
Qed.

Lemma tools_roundtrip ir mark :
  Forall chat_tool (tools ir) ->
  Forall2 same_tool (tools ir)
    (map (decode_tool mark) (default [] (as_array (default Null (encode_tools ir))))).
Proof.
  intros Ht. assert (filter (fun t => Tool.is_function t || Tool.is_custom t = true) (tools ir) = tools ir) as Hf.
  { induction Ht as [|t l [_ Hc] _ IH]; [done|]. rewrite filter_cons, decide_True, IH; [done|].
    unfold Tool.is_function, Tool.is_custom. by destruct Hc as [[-> _]| ->]. }
  unfold encode_tools. rewrite Hf.
  assert (Forall2 same_tool (tools ir) (map (decode_tool mark) (map encode_tool (tools ir)))) as H2.
  { clear Hf. induction Ht as [|t l Hc _ IH]; constructor; [by apply tool_roundtrip|done]. }
  by destruct (map encode_tool (tools ir)).
Qed.

Lemma params_roundtrip ir :
  extra_ok ir ->
  (forall n, max_tokens (params ir) = Some n -> in_u32 n = true) ->
  (forall n, seed (params ir) = Some n -> -9223372036854775808 <= n <= i64_max) ->
  let p := decode_params (encode_body ir) in
  max_tokens p = max_tokens (params ir) /\ seed p = seed (params ir)
  /\ gp_stop p = gp_stop (params ir)
  /\ thinking p = effort_only <$> request_effort (params ir)
  /\ verbosity p = verbosity (params ir).
Proof.
  intros Hx Hm Hs. cbn [decode_params max_tokens seed gp_stop thinking verbosity]. unfold index.
  rewrite !get_body by (done || by apply (bool_decide_unpack _)). unfold modelled_field.
  lazy beta iota delta [String.eqb Ascii.eqb Bool.eqb orb].
  split_and!.
  - destruct (max_tokens (params ir)) as [n|].
    + specialize (Hm n eq_refl).
      destruct (max_tokens_field_cases ir) as [-> | ->];
        lazy beta iota delta [String.eqb Ascii.eqb Bool.eqb]; cbn; by rewrite wrap32_small.
    + destruct (max_tokens_field_cases ir) as [-> | ->]; done.
  - destruct (seed (params ir)) as [n|]; [|done]. specialize (Hs n eq_refl). cbn.
    unfold json_i64, as_i64. destruct (n <? 0) eqn:E; [done|].
    by rewrite (proj2 (Z.leb_le _ _)) by lia.
  - destruct (gp_stop (params ir)) as [|x l]; [done|]. cbn. f_equal.
    induction l as [|y l IH]; [done|]. cbn. by rewrite IH.
  - destruct (request_effort (params ir)) as [[]|]; done.
  - destruct (verbosity (params ir)) as [[]|]; done.
Qed.

Lemma format_roundtrip ir :
  extra_ok ir -> decode_response_format (encode_body ir) = normal_format (response_format ir).
Proof.
  intros Hx. unfold decode_response_format.
  rewrite get_body by (done || by apply (bool_decide_unpack _)).
  change (modelled_field ir "response_format") with (encode_response_format (response_format ir)).
  by destruct (response_format ir) as [[name schema strict| |]|].
Qed.
End RoundTrip.

(** C28: A request in the decoder's form survives Chat Completions: decoding
    the body the encoder writes gives back the model, the stream flag, the
    system text, every message with its parts, reasoning and tool calls in
    their order, the tools, the token limit whichever of the two fields it
    uses, the seed, the stop sequences, the verbosity, the effort (from the
    budget if there is no effort) and the response format. *)
Theorem chat_request_roundtrip `{SerdeJson} ir body headers :
  encode_request ir = Ok (body, headers) ->
  extra_ok ir -> Forall chat_message (messages ir) -> Forall chat_tool (tools ir) ->
  (forall n, max_tokens (params ir) = Some n -> in_u32 n = true) ->
  (forall n, seed (params ir) = Some n -> -9223372036854775808 <= n <= i64_max) ->
  exists ir', decode_request body = Ok ir'
    /\ model ir' = model ir /\ stream ir' = stream ir /\ system ir' = system ir
    /\ messages ir' = messages ir /\ Forall2 same_tool (tools ir) (tools ir')
    /\ max_tokens (params ir') = max_tokens (params ir) /\ seed (params ir') = seed (params ir)
    /\ gp_stop (params ir') = gp_stop (params ir)
    /\ verbosity (params ir') = verbosity (params ir)
    /\ thinking (params ir') = effort_only <$> request_effort (params ir)
    /\ response_format ir' = normal_format (response_format ir).
Proof.
  unfold encode_request. destruct (validate_response_format_for_target _ _); [|done].
  intros [= <- _] Hx Hms Hts Hm Hs.
  assert (forall k, k ∈ checked_keys -> (encode_body ir).[k] = default Null (modelled_field ir k)) as Hg.
  { intros k Hk. unfold index. by rewrite get_body. }
  eexists. split.
  { unfold decode_request.
    assert (decode_messages (encode_body ir) = map decode_message (encode_messages ir)) as ->.
    { unfold decode_messages. by rewrite (Hg "messages") by by apply (bool_decide_unpack _). }
    rewrite (system_roundtrip ir Hms). reflexivity. }
  cbn [model stream system messages tools params response_format].
  destruct (params_roundtrip ir Hx Hm Hs) as (H1 & H2 & H3 & H4 & H5).
  split_and!; try done.
  - unfold str_or. by rewrite Hg by by apply (bool_decide_unpack _).
  - by rewrite Hg by by apply (bool_decide_unpack _).
  - unfold decode_tools. rewrite (Hg "tools") by by apply (bool_decide_unpack _).
    by apply tools_roundtrip.
  - by apply format_roundtrip.
Qed.

(** ** What the decoder can produce *)

(** The contents a decoded message of a role can have. *)
Definition typed_content (r : Role) (c : Content) : Prop :=
  match c with
  | CText _ annotations _ => annotations = None
  | CReasoning text signature id encrypted =>
      text <> "" /\ signature = None /\ id = None /\ encrypted = None
  | CToolCall _ _ arguments call_id caller wire_type =>
      call_id = None /\ caller = None
      /\ (wire_type = None \/ wire_type = Some "custom" /\ as_str arguments <> None)
  | CToolResult _ _ _ id caller wire_type =>
      r = RTool /\ id = None /\ caller = None /\ wire_type = None
  | CMedia (FileId _) _ _ _ => False
  | CMedia _ _ _ _ => True
  | CProgram _ _ _ _ | CProgramOutput _ _ _ _ | CRefusal _ _ => False
  end.

Definition typed_message (m : Message) : Prop :=
  content m <> [] /\ Forall (typed_content (role m)) (content m).

Definition typed_tool (t : Tool) : Prop :=
  (tool_type t = None /\ tool_config t = None /\ tool_parameters t <> None)
  \/ tool_type t = Some "custom".

Section Typed.
Context `{SerdeJson}.

Lemma typed_item r item : typed_content r (parse_content_item r item).
Proof.
  unfold parse_content_item. destruct (as_str item.["type"]) as [t|]; [|done].
  destruct (String.eqb t "text"); [done|]. destruct (String.eqb t "image_url").
  - unfold decode_image. destruct (as_str item.["image_url"]) as [s|].
    + unfold MediaSource.from_data_url. by destruct (_ ≫= _) as [[??]|].
    + unfold MediaSource.from_data_url. by destruct (_ ≫= _) as [[??]|].
  - destruct (_ || _); [|done]. by case_bool_decide.
Qed.

Lemma typed_array r arr : Forall (typed_content r) (parse_content_array arr r).
Proof. apply Forall_map, Forall_true. intros. apply typed_item. Qed.

Lemma typed_decode_content r msg : Forall (typed_content r) (decode_content r msg).
Proof.
  unfold decode_content. case_bool_decide as Hr.
  - destruct (as_array _); [apply typed_array|by repeat constructor].
  - destruct (as_str msg.["content"]) as [t|]; [by destruct (is_empty t); repeat constructor|].
    destruct (as_array _); [apply typed_array|constructor].
Qed.

Lemma typed_thought r msg : Forall (typed_content r) (decode_thought msg).
Proof.
  unfold decode_thought. destruct (or_else _ _) as [t|]; [|constructor].
  by destruct t; repeat constructor.
Qed.

Lemma typed_call r tc : typed_content r (decode_tool_call tc).
Proof.
  unfold decode_tool_call, decode_custom_call. case_bool_decide; cbn; [|by auto].
  split; [done|]. split; [done|]. by right.
Qed.

Lemma typed_decode_message msg : typed_message (decode_message msg).
Proof.
  unfold decode_message. set (r := decode_role _).
  assert (Forall (typed_content r)
    (match as_array msg.["tool_calls"] with
     | Some tool_calls => (decode_thought msg ++ decode_content r msg) ++ map decode_tool_call tool_calls
     | None => decode_thought msg ++ decode_content r msg
     end)) as Hc.
  { assert (Forall (typed_content r) (decode_thought msg ++ decode_content r msg)) as H1
      by (apply Forall_app; split; [apply typed_thought|apply typed_decode_content]).
    destruct (as_array msg.["tool_calls"]) as [calls|]; [|done].
    apply Forall_app. split; [done|]. apply Forall_map, Forall_true. intros. apply typed_call. }
  unfold typed_message. cbn [role content].
  destruct (match as_array _ with Some _ => _ | None => _ end); [by repeat constructor|done].
Qed.

Lemma typed_extract ms :
  Forall typed_message ms -> Forall typed_message (snd (extract_system ms)).
Proof.
  intros Hm. unfold extract_system. destruct (any_system_breakpoint ms); [done|]. cbn.
  rewrite Forall_forall in Hm |- *. intros m [_ Hin]%list_elem_of_filter. by apply Hm.
Qed.
End Typed.

(** Every body is decoded, and to a well-typed request: no message is
    empty, tool results occur in tool messages only and tool calls are plain
    function calls or custom calls with text, no content of another protocol
    occurs, system messages stay in the list only when one of them has a
    cache breakpoint, tools are functions with parameters or custom tools, and
    the token limit fits its 32 bits. *)
Theorem decoded_requests_well_typed `{SerdeJson} body :
  exists ir, decode_request body = Ok ir
    /\ Forall typed_message (messages ir)
    /\ (existsb is_system (messages ir) = true ->
        any_system_breakpoint (messages ir) = true /\ system ir = None)
    /\ Forall typed_tool (tools ir)
    /\ (forall n, max_tokens (params ir) = Some n -> in_u32 n = true)
    /\ ingress_protocol ir = ChatCompletionsCodec_id.
Proof.
  unfold decode_request. set (ms := decode_messages body).
  assert (Forall typed_message ms) as Hms.
  { subst ms. unfold decode_messages. destruct (as_array _); [|constructor].
    apply Forall_map, Forall_true. intros. apply typed_decode_message. }
  pose proof (typed_extract ms Hms) as He.
  assert (existsb is_system (snd (extract_system ms)) = true ->
          any_system_breakpoint (snd (extract_system ms)) = true /\ fst (extract_system ms) = None) as Hs.
  { unfold extract_system. destruct (any_system_breakpoint ms) eqn:Eb; [done|]. cbn.
    intros Hx%existsb_exists. destruct Hx as (m & Hin & Hm).
    apply list_elem_of_In, list_elem_of_filter in Hin as [Hf _]. congruence. }
  destruct (extract_system ms) as [sys rest]. cbn in He, Hs.
  eexists. split; [done|]. cbn [messages system tools params ingress_protocol].
  split; [done|]. split; [done|]. split; [|split; [|done]].
  - unfold decode_tools. apply Forall_map, Forall_true. intros t. unfold decode_tool, typed_tool.
    destruct (String.eqb _ _); cbn; auto.
  - intros n. unfold decode_params. cbn. destruct (or_else _ _) as [z|]; [|done]. intros [= <-].
    unfold in_u32, wrap32, u32_max. pose proof (Z.mod_pos_bound z 4294967296 ltac:(lia)).
    apply andb_true_intro. rewrite !Z.leb_le. lia.
Qed.

(** ** What the encoder loses *)

(** The encoder drops [tool_choice]: the gate of cross-protocol requests
    accepts a request that requires a tool, or a certain tool, because the
    Chat codec declares that it can express this, but no body the encoder
    writes has the field. *)
Theorem tool_choice_is_dropped `{SerdeJson} ingress ir body :
  encode_cross_protocol (fun _ ir => fst <$> encode_request ir) ingress ChatCompletionsCodec_id ir
  = Ok body ->
  extra_ok ir -> get "tool_choice" body = None.
Proof.
  intros He Hx. assert (body = encode_body ir) as ->.
  { revert He. unfold encode_cross_protocol, encode_request.
    destruct (validate_response_format_for_target _ _); cbn;
      destruct (check_lossy_conversion _ _ _) as [|[??]]; try done;
      destruct (lossy_default_reject (codec_capabilities ingress)); cbn; congruence. }
  rewrite get_body by (done || by apply (bool_decide_unpack _)). done.
Qed.

Definition sample_params : GenerationParams := {|
  max_tokens := Some 256; temperature := None; top_p := None; top_k := None; gp_stop := ["END"];
  frequency_penalty := None; presence_penalty := None; seed := Some (-7);
  thinking := Some (effort_only EHigh); verbosity := Some VLow |}.

Definition sample_request : IrRequest := {|
  model := "gpt"; system := Some "be brief";
  messages :=
    [{| role := RUser; content := [plain_text "hi"; plain_text "there"] |};
     {| role := RAssistant;
        content := thought (Some "hm") ++ [plain_text "ok"]
                   ++ [CToolCall "c1" "f" (Obj [("x", Str "1")]) None None None] |};
     {| role := RTool; content := [CToolResult "c1" "" "42" None None None] |}];
  tools := [{| tool_name := "f"; tool_description := Some "a tool"; tool_parameters := Some (Obj []);
               tool_required := false; tool_type := None; tool_config := None |}];
  params := sample_params; response_format := Some JsonObject; stream := true;
  ingress_protocol := ChatCompletionsCodec_id; metadata := None;
  extensions := <["tool_choice" := Str "required"]> ∅ |}.

(** A request of an Anthropic client that requires a tool. *)
Definition choice_request : IrRequest := {|
  model := "gpt"; system := None;
  messages := [{| role := RUser; content := [plain_text "hi"] |}];
  tools := tools sample_request; params := GenerationParams_default; response_format := None;
  stream := false; ingress_protocol := mk_endpoint AnthropicMessages "messages" "v1";
  metadata := None; extensions := <["tool_choice" := Str "required"]> ∅ |}.

Lemma tool_choice_is_dropped_witness :
  exists body,
    encode_cross_protocol (fun _ ir => fst <$> @encode_request coded_json ir) AnthropicMessages
      ChatCompletionsCodec_id choice_request = Ok body
    /\ has_required_choice choice_request = true /\ get "tool_choice" body = None.
Proof.
  eexists. split; [by vm_compute|]. split; [done|].
  apply (@tool_choice_is_dropped coded_json AnthropicMessages choice_request); by vm_compute.
Defined.

Lemma chat_request_roundtrip_witness :
  exists ir', @decode_request coded_json (@encode_body coded_json sample_request) = Ok ir'
    /\ messages ir' = messages sample_request.
Proof.
  destruct (@chat_request_roundtrip coded_json sample_request (@encode_body coded_json sample_request)
              [("content-type", "application/json")]) as (ir' & Hd & _ & _ & _ & Hm & _).
  - by vm_compute.
  - done.
  - apply List.Forall_cons; [|apply List.Forall_cons; [|apply List.Forall_cons; [|constructor]]].
    + apply (message_turn RUser None [plain_text "hi"; plain_text "there"] []); try done; [by left|].
      repeat (apply List.Forall_cons; [apply part_text|]). constructor.
    + apply (message_turn RAssistant (Some "hm") [plain_text "ok"]
               [CToolCall "c1" "f" (Obj [("x", Str "1")]) None None None]); try done; [by right|..].
      * apply List.Forall_cons; [apply part_text|constructor].
      * apply List.Forall_cons; [by constructor; vm_compute|constructor].
      * by intros ? [= <-].
    + apply message_result.
  - apply List.Forall_cons; [by split; [done|left]|constructor].
  - by intros n [= <-].
  - intros n [= <-]. unfold i64_max. lia.
  - exists ir'. split; [exact Hd|exact Hm].
Defined.

(** A tool message whose content is an array of text parts loses the id
    of its call: the decoder keeps the text only, and the message written for
    another Chat upstream has the role tool and no [tool_call_id]. *)
Theorem tool_array_content_loses_id `{SerdeJson} id text :
  let msg := obj [("role", Str "tool"); ("tool_call_id", Str id);
                  ("content", Arr [obj [("type", Str "text"); ("text", Str text)]])] in
  let m := decode_message msg in
  m = {| role := RTool; content := [plain_text text] |}
  /\ map (get "tool_call_id") (encode_message m) = [None].
Proof. split; by lazy. Qed.
