(* ===== verification/ChatResponse.v ===== *)
(** * ChatResponse: responses of Chat Completions

    [encode_response] and [decode_response] of [ChatCompletionsCodec]
    ([crates/protocols/src/chat_completions.rs]): the body of a response that
    is not streamed, to and from the intermediate representation. *)

From stdpp Require Import base option list gmap strings pretty.
From Stdlib Require Import ZArith Lia Ascii.
From S2P Require Import Prelude RustStr F64 Json JsonBody Telemetry Protocol Classify Errors Ir StructuredOutput ChatStream ChatRequest.

Local Open Scope string_scope.
Local Open Scope list_scope.
Local Open Scope Z_scope.

(** ** Encoding *)

Definition annotation_json (a : Annotation) : Value :=
  match an_kind a with
  | UrlCitation =>
      let citation := set_opt "title" (Str <$> an_title a)
                        (set_opt "url" (Str <$> an_url a) (obj [])) in
      set_opt "end_index" (json_u64 <$> end_index a)
        (set_opt "start_index" (json_u64 <$> start_index a)
           (obj [("type", Str "url_citation"); ("url_citation", citation)]))
  | FileCitation =>
      obj [("type", Str "file_citation");
           ("file_citation", obj [("filename", json_opt_str (an_title a))])]
  end.

(** What the content of a response is collected into. *)
Record Answer := {
  message_content : string;
  message_refusal : string;
  message_annotations : list Value;
  answer_calls : list Value;
}.

Definition no_answer : Answer :=
  {| message_content := ""; message_refusal := ""; message_annotations := []; answer_calls := [] |}.

Section Encode.
Context `{SerdeJson}.

(** The arguments are written as JSON text, a string in its quotes. *)
Definition answer_call (id name : string) (arguments : Value) (call_id wire_type : option string)
    : Value :=
  let wire_id := default id call_id in
  if is_openai_custom_tool_call wire_type
  then custom_call_json wire_id name arguments
  else function_call_json wire_id name (to_string arguments).

Definition answer_content (a : Answer) (c : Content) : Answer :=
  match c with
  | CText text annotations _ =>
      {| message_content := message_content a +:+ text; message_refusal := message_refusal a;
         message_annotations := message_annotations a
                                ++ map annotation_json (default [] annotations);
         answer_calls := answer_calls a |}
  | CToolCall id name arguments call_id _ wire_type =>
      {| message_content := message_content a; message_refusal := message_refusal a;
         message_annotations := message_annotations a;
         answer_calls := answer_calls a ++ [answer_call id name arguments call_id wire_type] |}
  | CRefusal text _ =>
      {| message_content := message_content a;
         message_refusal := push_line (message_refusal a) text;
         message_annotations := message_annotations a; answer_calls := answer_calls a |}
  | _ => a
  end.

Definition nonempty_arr (l : list Value) : option Value :=
  match l with [] => None | _ => Some (Arr l) end.

Definition nonempty_str (s : string) : option Value := if is_empty s then None else Some (Str s).

Definition answer_message (a : Answer) : Value :=
  set_opt "annotations" (nonempty_arr (message_annotations a))
    (set_opt "refusal" (nonempty_str (message_refusal a))
       (set_opt "tool_calls" (nonempty_arr (answer_calls a))
          (obj [("role", Str "assistant"); ("content", Str (message_content a))]))).

Definition choice_json (a : Answer) (reason : option FinishReason) : Value :=
  obj [("index", json_u64 0); ("message", answer_message a);
       ("finish_reason", json_opt_str (finish_str <$> reason))].

(** Unlike the usage of a stream, the reasoning tokens are written even when
    there are none. *)
Definition response_usage_json (u : Usage) : Value :=
  let cache_read := default 0 (cache_read_tokens u) in
  let cache_write := default 0 (cache_write_tokens u) in
  let prompt_for_openai := wrap64 (wrap64 (prompt_tokens u + cache_read) + cache_write) in
  let total_for_openai := wrap64 (prompt_for_openai + completion_tokens u) in
  let usage := obj [("prompt_tokens", json_u64 prompt_for_openai);
                    ("completion_tokens", json_u64 (completion_tokens u));
                    ("total_tokens", json_u64 total_for_openai)] in
  let details := positive_member "cache_write_tokens" (Some cache_write)
                   (positive_member "cached_tokens" (Some cache_read) []) in
  set_opt "completion_tokens_details"
    ((fun rt => obj [("reasoning_tokens", json_u64 rt)]) <$> reasoning_tokens u)
    (set_opt "prompt_tokens_details" (nonempty_obj details) usage).

Definition encode_response (ir : IrResponse) : result Error Value :=
  let response := obj [("object", Str "chat.completion"); ("model", Str "")] in
  let response := set_opt "id" (Str <$> r_response_id ir) response in
  let a := fold_left answer_content (r_content ir) no_answer in
  let response := set "choices" (Arr [choice_json a (r_finish_reason ir)]) response in
  Ok (set_opt "usage" (response_usage_json <$> r_usage ir) response).
End Encode.

(** ** Decoding *)

Definition parse_annotation (a : Value) : option Annotation :=
  type_str ← as_str a.["type"];
  kind ← (if String.eqb type_str "url_citation" then Some UrlCitation
          else if String.eqb type_str "file_citation" then Some FileCitation
          else None);
  Some {| an_kind := kind;
          start_index := wrap32 <$> as_u64 a.["start_index"];
          end_index := wrap32 <$> as_u64 a.["end_index"];
          an_title := or_else (as_str a.["url_citation"].["title"])
                              (as_str a.["file_citation"].["filename"]);
          an_url := as_str a.["url_citation"].["url"] |}.

Definition parse_openai_annotations (annotations : Value) : option (list Annotation) :=
  arr ← as_array annotations;
  match omap parse_annotation arr with [] => None | l => Some l end.

Definition reasoning_of (text : string) : Content := CReasoning text None None None.

(** The first of the three names with a text that is not empty. *)
Definition response_thought (msg : Value) : list Content :=
  match list_find (fun k => is_Some (nonempty (as_str msg.[k])))
          ["reasoning_content"; "reasoning"; "thinking"] with
  | Some (_, k) => [reasoning_of (default "" (as_str msg.[k]))]
  | None => []
  end.

(** A count of reasoning tokens becomes a text of its own. *)
Definition counted_thought (body : Value) : list Content :=
  match as_object body.["usage"].["completion_tokens_details"] with
  | Some details =>
      match assoc "reasoning_tokens" details with
      | Some rt =>
          let n := default 0 (as_u64 rt) in
          if 0 <? n then [reasoning_of ("[" +:+ pretty n +:+ " reasoning tokens used]")] else []
      | None => []
      end
  | None => []
  end.

Section Decode.
Context `{SerdeJson}.

(** Unlike in a request, arguments that are not JSON are dropped. *)
Definition decode_answer_call (tc : Value) : Content :=
  if bool_decide (as_str tc.["type"] = Some "custom") then decode_custom_call tc
  else
    CToolCall (str_or "" tc.["id"]) (str_or "" tc.["function"].["name"])
      (default (obj []) (from_str (default "{}" (as_str tc.["function"].["arguments"]))))
      None None None.

Definition decode_answer (body msg : Value) : list Content :=
  (match as_str msg.["content"] with
   | Some text => if is_empty text then []
                  else [CText text (parse_openai_annotations msg.["annotations"]) None]
   | None => []
   end)
  ++ (match as_str msg.["refusal"] with
      | Some text => if is_empty text then [] else [CRefusal text None]
      | None => []
      end)
  ++ response_thought msg
  ++ map decode_answer_call (default [] (as_array msg.["tool_calls"]))
  ++ counted_thought body.

Definition first_choice (body : Value) : option Value := as_array body.["choices"] ≫= head.

Definition has_refusal (body : Value) : bool :=
  match first_choice body ≫= fun c => as_str c.["message"].["refusal"] with
  | Some r => negb (is_empty r)
  | None => false
  end.

(** [body["choices"][0]["finish_reason"].as_str()] *)
Definition finish_text (body : Value) : option string :=
  as_str (index_nat body.["choices"] 0).["finish_reason"].

(** A refusal is a content filter whatever the finish reason says. *)
Definition decode_finish_reason (body : Value) : option FinishReason :=
  (fun s => if has_refusal body then ContentFilter else finish_of_str s) <$> finish_text body.

Definition stop_details_of (reason : string) : StopDetails :=
  {| stop_reason := reason; stop_sequence := None; sd_kind := Some reason; sd_category := None;
     explanation := None |}.

Definition decode_stop_details (body : Value) : option StopDetails :=
  if has_refusal body then Some (stop_details_of "refusal")
  else if bool_decide (finish_text body = Some "content_filter")
       then Some (stop_details_of "content_filter")
       else None.

Definition decode_response_usage (body : Value) : option Usage :=
  match get "usage" body with
  | Some u =>
      if is_object u && (is_u64 u.["prompt_tokens"] || is_u64 u.["completion_tokens"]
                         || is_u64 u.["total_tokens"])
      then
        let cache_read := as_u64 u.["prompt_tokens_details"].["cached_tokens"] in
        let cache_write := as_u64 u.["prompt_tokens_details"].["cache_write_tokens"] in
        let raw_prompt := default 0 (as_u64 u.["prompt_tokens"]) in
        Some {| prompt_tokens := sat_sub (sat_sub raw_prompt (default 0 cache_read))
                                         (default 0 cache_write);
                completion_tokens := default 0 (as_u64 u.["completion_tokens"]);
                reasoning_tokens := as_u64 u.["completion_tokens_details"].["reasoning_tokens"];
                cache_read_tokens := cache_read; cache_write_tokens := cache_write;
                total_tokens := default 0 (as_u64 u.["total_tokens"]) |}
      else None
  | None => None
  end.

Definition decode_response (body : Value) : result Error IrResponse :=
  Ok {| r_content := match first_choice body with
                     | Some choice => decode_answer body choice.["message"]
                     | None => []
                     end;
        r_usage := decode_response_usage body;
        r_finish_reason := decode_finish_reason body;
        r_response_id := as_str body.["id"];
        r_stop_details := decode_stop_details body;
        r_extensions := ∅ |}.
End Decode.

(** The same suite on both sides: the body is forwarded as it is. *)
Definition pass_through_policy (ingress egress : ProtocolEndpoint) : PassThroughPolicy :=
  if bool_decide (suite ingress = suite egress) then Passthrough else Convert.

(** ** What a response keeps on the way through a Chat Completions body *)

Definition relayed_annotation (a : Annotation) : Annotation :=
  match an_kind a with
  | UrlCitation => a
  | FileCitation => {| an_kind := FileCitation; start_index := None; end_index := None;
                       an_title := an_title a; an_url := None |}
  end.

Definition annotations_of (c : Content) : list Annotation :=
  match c with CText _ annotations _ => default [] annotations | _ => [] end.

Definition refusal_of (c : Content) : option string :=
  match c with CRefusal t _ => Some t | _ => None end.

Definition answer_text (l : list Content) : string := String.concat "" (omap text_of l).
Definition answer_refusal (l : list Content) : string := fold_left push_line (omap refusal_of l) "".
Definition answer_annotations (l : list Content) : list Annotation := flat_map annotations_of l.

Definition relayed_call `{SerdeJson} (c : Content) : option Content :=
  match c with
  | CToolCall id name arguments call_id _ wire_type =>
      let id := default id call_id in
      if is_openai_custom_tool_call wire_type
      then Some (CToolCall id name (Str (custom_tool_input arguments)) None None (Some "custom"))
      else Some (CToolCall id name arguments None None None)
  | _ => None
  end.

(** The texts become one, then the refusals, then the tool calls in their
    order, then the count of reasoning tokens as a text. *)
Definition relayed_content `{SerdeJson} (ir : IrResponse) : list Content :=
  let l := r_content ir in
  (if is_empty (answer_text l) then []
   else [CText (answer_text l)
           (match answer_annotations l with [] => None | l => Some (map relayed_annotation l) end)
           None])
  ++ (if is_empty (answer_refusal l) then [] else [CRefusal (answer_refusal l) None])
  ++ omap relayed_call l
  ++ match r_usage ir ≫= reasoning_tokens with
     | Some n => if 0 <? n then [reasoning_of ("[" +:+ pretty n +:+ " reasoning tokens used]")]
                 else []
     | None => []
     end.

Definition relayed_response_usage (u : Usage) : Usage := {|
  prompt_tokens := prompt_tokens u;
  completion_tokens := completion_tokens u;
  reasoning_tokens := reasoning_tokens u;
  cache_read_tokens := drop_zero (cache_read_tokens u);
  cache_write_tokens := drop_zero (cache_write_tokens u);
  total_tokens := prompt_tokens u + default 0 (cache_read_tokens u)
                  + default 0 (cache_write_tokens u) + completion_tokens u |}.

Definition relayed_finish (r : FinishReason) : FinishReason :=
  match r with OtherReason _ => Stop | r => r end.

Definition relayed_response `{SerdeJson} (ir : IrResponse) : IrResponse :=
  let refused := negb (is_empty (answer_refusal (r_content ir))) in {|
  r_content := relayed_content ir;
  r_usage := relayed_response_usage <$> r_usage ir;
  r_finish_reason := (fun r => if refused then ContentFilter else relayed_finish r)
                       <$> r_finish_reason ir;
  r_response_id := r_response_id ir;
  r_stop_details :=
    if refused then Some (stop_details_of "refusal")
    else if bool_decide (r_finish_reason ir = Some ContentFilter)
         then Some (stop_details_of "content_filter") else None;
  r_extensions := ∅ |}.

(** ** Lemmas *)

Definition index_ok (o : option Z) : Prop := forall n, o = Some n -> in_u32 n = true.

Definition annotation_ok (a : Annotation) : Prop := index_ok (start_index a) /\ index_ok (end_index a).

Lemma parse_annotation_json a :
  annotation_ok a -> parse_annotation (annotation_json a) = Some (relayed_annotation a).
Proof.
  intros [Hs He]. destruct a as [[] s e t u]; unfold annotation_json, relayed_annotation; cbn in *.
  - assert (forall n, in_u32 n = true -> wrap32 n = n) as Hw by apply wrap32_small.
    destruct s, e, t, u; unfold parse_annotation; compare_keys;
      rewrite ?Hw by auto; done.
  - by destruct t.
Qed.

Lemma parse_annotations l :
  Forall annotation_ok l -> omap parse_annotation (map annotation_json l) = map relayed_annotation l.
Proof.
  induction 1 as [|a l Ha _ IH]; [done|]. cbn. rewrite parse_annotation_json by done. cbn. by f_equal.
Qed.

Lemma parse_annotations_arr l :
  Forall annotation_ok l ->
  parse_openai_annotations (Arr (map annotation_json l))
  = match l with [] => None | _ => Some (map relayed_annotation l) end.
Proof.
  intros Hl. unfold parse_openai_annotations. cbn [as_array mbind option_bind].
  rewrite parse_annotations by done. by destruct l.
Qed.

Section Relay.
Context `{SerdeJson}.

Definition call_json (c : Content) : option Value :=
  match c with
  | CToolCall id name arguments call_id _ wire_type =>
      Some (answer_call id name arguments call_id wire_type)
  | _ => None
  end.

Definition answer_of (l : list Content) : Answer := {|
  message_content := answer_text l; message_refusal := answer_refusal l;
  message_annotations := map annotation_json (answer_annotations l);
  answer_calls := omap call_json l |}.

Lemma concat_app l1 l2 :
  String.concat "" (l1 ++ l2) = String.concat "" l1 +:+ String.concat "" l2.
Proof.
  induction l1 as [|s l1 IH]; [done|]. cbn [app]. 
  assert (forall s l, String.concat "" (s :: l) = s +:+ String.concat "" l) as Hc.
  { intros u [|v l]; [by rewrite str_app_nil_r|]. done. }
  by rewrite !Hc, IH, str_app_assoc.
Qed.

Lemma answer_fold l : fold_left answer_content l no_answer = answer_of l.
Proof.
  induction l as [|c l IH] using rev_ind; [done|]. rewrite fold_left_app, IH. cbn [fold_left].
  unfold answer_of, answer_text, answer_refusal, answer_annotations, answer_content.
  rewrite !omap_app, concat_app, fold_left_app, flat_map_app, map_app.
  destruct c; cbn; rewrite ?app_nil_r, ?str_app_nil_r; done.
Qed.

Definition arguments_ok (c : Content) : Prop :=
  match c with
  | CToolCall _ _ arguments _ _ wire_type =>
      is_openai_custom_tool_call wire_type = false -> from_str (to_string arguments) = Some arguments
  | _ => True
  end.

Lemma decode_answer_calls l :
  Forall arguments_ok l -> map decode_answer_call (omap call_json l) = omap relayed_call l.
Proof.
  induction 1 as [|c l Hc _ IH]; [done|]. destruct c; cbn; try apply IH.
  rewrite IH. f_equal. unfold answer_call. cbn in Hc.
  destruct (is_openai_custom_tool_call _).
  - by unfold decode_answer_call, custom_call_json; compare_keys.
  - unfold decode_answer_call, function_call_json. compare_keys. by rewrite Hc.
Qed.

Lemma get_answer_message k a :
  get k (answer_message a)
  = if String.eqb k "annotations" then nonempty_arr (message_annotations a)
    else if String.eqb k "refusal" then nonempty_str (message_refusal a)
    else if String.eqb k "tool_calls" then nonempty_arr (answer_calls a)
    else if String.eqb k "content" then Some (Str (message_content a))
    else if String.eqb k "role" then Some (Str "assistant") else None.
Proof.
  unfold answer_message. rewrite !get_set_opt_if by auto with body. rewrite get_obj. cbn -[String.eqb].
  destruct (String.eqb_spec k "annotations") as [->|]; [by destruct (nonempty_arr _)|].
  destruct (String.eqb_spec k "refusal") as [->|]; [by destruct (nonempty_str _)|].
  destruct (String.eqb_spec k "tool_calls") as [->|]; [by destruct (nonempty_arr _)|]. done.
Qed.

Lemma get_response_usage k u :
  usage_ok u ->
  get k (response_usage_json u)
  = if String.eqb k "completion_tokens_details"
    then (fun rt => obj [("reasoning_tokens", json_u64 rt)]) <$> reasoning_tokens u
    else if String.eqb k "prompt_tokens_details" then nonempty_obj (details_lit (cache_read_tokens u) (cache_write_tokens u))
    else if String.eqb k "total_tokens"
    then Some (json_u64 (total_tokens (relayed_response_usage u)))
    else if String.eqb k "completion_tokens" then Some (json_u64 (completion_tokens u))
    else if String.eqb k "prompt_tokens"
    then Some (json_u64 (prompt_tokens u + default 0 (cache_read_tokens u)
                         + default 0 (cache_write_tokens u))) else None.
Proof.
  intros (Hp & Hc & Hr & Hw & Ht & Hs). unfold response_usage_json. cbv zeta.
  assert (forall x, 0 <= x <= u64_max -> wrap64 x = x) as Hwrap
    by (intros x Hx; apply wrap64_small; by apply in_u64_iff).
  rewrite !Hwrap by (rewrite ?Hwrap; lia).
  rewrite !get_set_opt_if by auto with body. rewrite get_obj. cbn -[String.eqb positive_member].
  assert (positive_member "cache_write_tokens" (Some (default 0 (cache_write_tokens u)))
            (positive_member "cached_tokens" (Some (default 0 (cache_read_tokens u))) [])
          = details_lit (cache_read_tokens u) (cache_write_tokens u)) as ->.
  { unfold details_lit, drop_zero, positive_member.
    destruct (cache_read_tokens u) as [r|], (cache_write_tokens u) as [w|]; cbn;
      repeat match goal with |- context [0 <? ?x] => destruct (0 <? x) end; done. }
  destruct (String.eqb_spec k "completion_tokens_details") as [->|]; [by destruct (reasoning_tokens u)|].
  destruct (String.eqb_spec k "prompt_tokens_details") as [->|]; [|done].
  by destruct (nonempty_obj _).
Qed.
End Relay.

(** ** Properties *)

Section Roundtrip.
Context `{SerdeJson}.

Lemma details_read cr cw :
  let v := default Null (nonempty_obj (details_lit cr cw)) in
  as_u64 v.["cached_tokens"] = drop_zero cr /\ as_u64 v.["cache_write_tokens"] = drop_zero cw.
Proof. unfold details_lit. by destruct (drop_zero cr), (drop_zero cw). Qed.

Lemma response_usage_roundtrip u body :
  usage_ok u -> get "usage" body = Some (response_usage_json u) ->
  decode_response_usage body = Some (relayed_response_usage u).
Proof.
  intros Hu Hb. unfold decode_response_usage. rewrite Hb. unfold index.
  rewrite !get_response_usage by done. cbn -[response_usage_json as_u64].
  assert (is_object (response_usage_json u) = true) as -> by (unfold response_usage_json; auto 6 with body).
  destruct (details_read (cache_read_tokens u) (cache_write_tokens u)) as [Hr Hw].
  unfold index in Hr, Hw. rewrite Hr, Hw. cbn. f_equal. unfold relayed_response_usage. f_equal.
  - destruct Hu as (Hp & Hc & Hcr & Hcw & Ht & Hs).
    rewrite !drop_zero_default by done. unfold sat_sub. lia.
  - by destruct (reasoning_tokens u).
Qed.

Definition body_of (ir : IrResponse) : Value :=
  match encode_response ir with Ok body => body | Err _ => Null end.

Lemma get_response_body k ir :
  get k (body_of ir)
  = if String.eqb k "usage" then response_usage_json <$> r_usage ir
    else if String.eqb k "choices"
    then Some (Arr [choice_json (answer_of (r_content ir)) (r_finish_reason ir)])
    else if String.eqb k "id" then Str <$> r_response_id ir
    else if String.eqb k "model" then Some (Str "")
    else if String.eqb k "object" then Some (Str "chat.completion") else None.
Proof.
  unfold body_of, encode_response. rewrite answer_fold.
  rewrite get_set_opt_if by auto with body.
  destruct (String.eqb_spec k "usage") as [->|]; [read_member; by destruct (r_usage ir)|].
  cbn [or_else].
  destruct (String.eqb_spec k "choices") as [->|]; [by rewrite get_set_eq by auto with body|].
  rewrite get_set_ne, get_set_opt_if, get_obj by auto with body. cbn -[String.eqb].
  destruct (String.eqb_spec k "id") as [->|]; [by destruct (r_response_id ir)|done].
Qed.

Lemma choice_member ir :
  (choice_json (answer_of (r_content ir)) (r_finish_reason ir)).["message"]
  = answer_message (answer_of (r_content ir))
  /\ as_str (choice_json (answer_of (r_content ir)) (r_finish_reason ir)).["finish_reason"]
     = finish_str <$> r_finish_reason ir.
Proof. unfold choice_json, index. rewrite !get_obj. split; [done|]. by destruct (r_finish_reason ir). Qed.

Lemma refusal_text ir :
  as_str (answer_message (answer_of (r_content ir))).["refusal"]
  = if is_empty (answer_refusal (r_content ir)) then None else Some (answer_refusal (r_content ir)).
Proof.
  unfold index. rewrite get_answer_message. cbn. unfold nonempty_str. by destruct (is_empty _).
Qed.

Lemma first_choice_body ir :
  first_choice (body_of ir) = Some (choice_json (answer_of (r_content ir)) (r_finish_reason ir)).
Proof. unfold first_choice, index. by rewrite get_response_body. Qed.

Lemma has_refusal_body ir :
  has_refusal (body_of ir) = negb (is_empty (answer_refusal (r_content ir))).
Proof.
  unfold has_refusal. rewrite first_choice_body. cbn [mbind option_bind].
  rewrite (proj1 (choice_member ir)), refusal_text.
  by destruct (is_empty (answer_refusal (r_content ir))) eqn:E; rewrite ?E.
Qed.

Lemma finish_text_body ir : finish_text (body_of ir) = finish_str <$> r_finish_reason ir.
Proof.
  unfold finish_text. unfold index at 2. rewrite get_response_body. apply (proj2 (choice_member ir)).
Qed.

Lemma counted_thought_body ir :
  (forall u, r_usage ir = Some u -> usage_ok u) ->
  counted_thought (body_of ir)
  = match r_usage ir ≫= reasoning_tokens with
    | Some n => if 0 <? n then [reasoning_of ("[" +:+ pretty n +:+ " reasoning tokens used]")]
                else []
    | None => []
    end.
Proof.
  intros Hu. unfold counted_thought. unfold index at 2. rewrite get_response_body. cbn -[response_usage_json].
  destruct (r_usage ir) as [u|]; [|done]. unfold index. cbn -[response_usage_json].
  rewrite get_response_usage by auto. cbn. by destruct (reasoning_tokens u).
Qed.

Lemma response_thought_body a : response_thought (answer_message a) = [].
Proof. unfold response_thought, index. cbn [list_find]. by rewrite !get_answer_message. Qed.
End Roundtrip.

(** What a response keeps on the way through a Chat Completions body: the
    texts become one text with all the annotations, the refusals one refusal,
    the tool calls stay in their order with their ids and arguments; reasoning
    is dropped, and only the count of its tokens comes back, as a text.  A
    refusal makes the finish reason a content filter.  The usage comes back
    with its cached tokens apart and its total computed again. *)
Theorem chat_response_roundtrip `{SerdeJson} ir body :
  encode_response ir = Ok body ->
  (forall u, r_usage ir = Some u -> usage_ok u) ->
  Forall arguments_ok (r_content ir) ->
  Forall annotation_ok (answer_annotations (r_content ir)) ->
  decode_response body = Ok (relayed_response ir).
Proof.
  intros Hb Hu Ha Hn. assert (body = body_of ir) as -> by (unfold body_of; by rewrite Hb).
  unfold decode_response, relayed_response. do 2 f_equal.
  - rewrite first_choice_body, (proj1 (choice_member ir)). unfold decode_answer, relayed_content.
    rewrite refusal_text, response_thought_body, counted_thought_body by done.
    unfold index. rewrite !get_answer_message. cbn -[is_empty answer_text answer_refusal].
    f_equal; [|f_equal; [by destruct (is_empty (answer_refusal _)) eqn:E; rewrite ?E|]].
    + destruct (is_empty _); [done|]. do 2 f_equal.
      destruct (answer_annotations _) as [|a l]; [done|].
      by apply (parse_annotations_arr (a :: l)).
    + f_equal. rewrite <- (decode_answer_calls _ Ha).
      by destruct (omap call_json (r_content ir)).
  - destruct (r_usage ir) as [u|] eqn:E.
    + cbn [fmap option_fmap option_map]. apply response_usage_roundtrip; [by apply Hu|].
      rewrite get_response_body. by rewrite E.
    + unfold decode_response_usage. rewrite get_response_body. by rewrite E.
  - unfold decode_finish_reason. rewrite has_refusal_body, finish_text_body.
    destruct (r_finish_reason ir) as [r|]; [|done]. cbn. by destruct (is_empty _), r.
  - unfold index. rewrite get_response_body. by destruct (r_response_id ir).
  - unfold decode_stop_details. rewrite has_refusal_body, finish_text_body.
    destruct (is_empty _); [|done]. cbn [negb].
    by destruct (r_finish_reason ir) as [[]|].
Qed.

Definition sample_response : IrResponse := {|
  r_content :=
    [CReasoning "hidden" None None None;
     CText "Rome, " (Some [{| an_kind := UrlCitation; start_index := Some 0; end_index := Some 4;
                              an_title := Some "Rome"; an_url := Some "https://example.org" |}])
       None;
     CText "Italy" None None;
     CToolCall "item_1" "lookup" (obj [("city", Str "Rome")]) (Some "call_1") None None];
  r_usage := Some {| prompt_tokens := 10; completion_tokens := 5; reasoning_tokens := Some 3;
                     cache_read_tokens := Some 7; cache_write_tokens := Some 0;
                     total_tokens := 0 |};
  r_finish_reason := Some ToolCalls;
  r_response_id := Some "resp_1";
  r_stop_details := None;
  r_extensions := ∅ |}.

Lemma chat_response_roundtrip_witness :
  decode_response (H := coded_json) (body_of (H := coded_json) sample_response)
  = Ok (relayed_response (H := coded_json) sample_response)
  /\ r_content (relayed_response (H := coded_json) sample_response)
     = [CText "Rome, Italy"
          (Some [{| an_kind := UrlCitation; start_index := Some 0; end_index := Some 4;
                    an_title := Some "Rome"; an_url := Some "https://example.org" |}]) None;
        CToolCall "call_1" "lookup" (obj [("city", Str "Rome")]) None None None;
        CReasoning "[3 reasoning tokens used]" None None None].
Proof.
  split; [|by vm_compute].
  apply (@chat_response_roundtrip coded_json sample_response).
  - reflexivity.
  - intros u [= <-]. unfold usage_ok, u64_max. cbn. lia.
  - apply List.Forall_cons; [done|]. apply List.Forall_cons; [done|].
    apply List.Forall_cons; [done|]. apply List.Forall_cons; [|constructor].
    intros _. by vm_compute.
  - apply List.Forall_cons; [|constructor]. split; by intros n [= <-].
Defined.

(** The offsets of annotations are relative to their own text; when the texts
    are joined they are kept as they are, and so point into the first text. *)
Lemma joined_annotations_keep_offsets `{SerdeJson} t1 t2 url s e :
  let a := {| an_kind := UrlCitation; start_index := Some s; end_index := Some e;
              an_title := None; an_url := Some url |} in
  answer_of [CText t1 None None; CText t2 (Some [a]) None]
  = {| message_content := t1 +:+ t2; message_refusal := "";
       message_annotations := [obj [("type", Str "url_citation");
                                    ("url_citation", obj [("url", Str url)]);
                                    ("start_index", json_u64 s); ("end_index", json_u64 e)]];
       answer_calls := [] |}.
Proof. reflexivity. Qed.

(** Arguments that are not JSON are kept when a request is decoded, and lost
    when a response is. *)
Lemma invalid_arguments_dropped `{SerdeJson} id name s :
  from_str s = None ->
  let tc := function_call_json id name s in
  decode_tool_call tc = CToolCall id name (Str s) None None None
  /\ decode_answer_call tc = CToolCall id name (obj []) None None None.
Proof.
  intros Hs. unfold decode_tool_call, decode_answer_call, function_call_json, decode_arguments.
  compare_keys. by rewrite Hs.
Qed.
