(* ===== verification/Messages.v ===== *)
(** * Messages: requests and responses of Anthropic Messages

    [MessagesCodec] of [crates/protocols/src/messages.rs]: the bodies of
    requests and of responses that are not streamed, to and from the
    intermediate representation.  The request encoder panics on a certain
    [tool_choice], so it is a [run]. *)

From stdpp Require Import base option list gmap strings.
From Stdlib Require Import ZArith Lia Ascii SpecFloat.
From S2P Require Import Prelude RustStr F64 Json JsonBody Telemetry Protocol Classify Ir StructuredOutput ChatRequest.

Local Open Scope string_scope.
Local Open Scope list_scope.
Local Open Scope Z_scope.

Definition MessagesCodec_id : ProtocolEndpoint :=
  mk_endpoint AnthropicMessages "messages" "2023-06-01".

(** ** Decoding a request *)

Section Flatten.
Context `{SerdeJson}.

Definition flatten_block (block : Value) : string :=
  match as_str block.["text"] with
  | Some text => text
  | None =>
      if bool_decide ((get "type" block ≫= as_str) = Some "text") then ""
      else if is_null block then "" else to_string block
  end.

Definition flatten_anthropic_content (value : Value) : string :=
  match value with
  | Str s => s
  | Arr arr => fold_left (fun out block => out +:+ flatten_block block) arr ""
  | _ => ""
  end.
End Flatten.

Definition decode_output_format (output_config : Value) : option ResponseFormat :=
  format ← get "format" output_config;
  if bool_decide ((get "type" format ≫= as_str) = Some "json_schema") then
    schema ← get "schema" format;
    if is_object schema then Some (JsonSchema "response" schema (Some true)) else None
  else None.

(** A text, or an array of text blocks. *)
Definition decode_system (body : Value) : option string :=
  sys ← get "system" body;
  match sys with
  | Str s => Some s
  | Arr arr => Some (join (String LF "") (omap (fun b => as_str b.["text"]) arr))
  | _ => None
  end.

Definition decode_wire_role (s : string) : Role :=
  if String.eqb s "user" then RUser else if String.eqb s "assistant" then RAssistant else RUser.

Definition decode_image_block (block : Value) : Content :=
  let source := block.["source"] in
  let mime := str_or "image/*" source.["media_type"] in
  if bool_decide (as_str source.["type"] = Some "url")
  then CMedia (Url (str_or "" source.["url"])) mime ∅ None
  else CMedia (Inline (str_or "" source.["data"])) mime ∅ None.

Section Decode.
Context `{SerdeJson}.

(** Blocks of unknown types are skipped. *)
Definition decode_block (block : Value) : option Content :=
  t ← as_str block.["type"];
  if String.eqb t "text" then Some (plain_text (str_or "" block.["text"]))
  else if String.eqb t "thinking" then
    Some (CReasoning (str_or "" block.["thinking"]) (as_str block.["signature"]) None None)
  else if String.eqb t "redacted_thinking" then
    Some (CReasoning (str_or "" block.["data"]) None None None)
  else if String.eqb t "tool_use" then
    Some (CToolCall (str_or "" block.["id"]) (str_or "" block.["name"])
            (if is_null block.["input"] then obj [] else block.["input"]) None None None)
  else if String.eqb t "tool_result" then
    Some (CToolResult (str_or "" block.["tool_use_id"]) ""
            (flatten_anthropic_content block.["content"]) None None None)
  else if String.eqb t "image" then Some (decode_image_block block)
  else None.

Definition decode_message_content (msg : Value) : list Content :=
  match msg.["content"] with
  | Arr arr => omap decode_block arr
  | Str text => [plain_text text]
  | _ => []
  end.

Definition decode_message (msg : Value) : Message :=
  {| role := decode_wire_role (str_or "user" msg.["role"]);
     content := decode_message_content msg |}.

Definition decode_messages (body : Value) : list Message :=
  map decode_message (default [] (as_array body.["messages"])).
End Decode.

Definition decode_tool (t : Value) : Tool := {|
  tool_name := str_or "" t.["name"]; tool_description := as_str t.["description"];
  tool_parameters := Some t.["input_schema"]; tool_required := false; tool_type := None;
  tool_config := None |}.

Definition decode_tools (body : Value) : list Tool :=
  map decode_tool (default [] (as_array body.["tools"])).

Definition decode_display (s : string) : ThinkingDisplay :=
  if String.eqb s "summarized" then Summarized
  else if String.eqb s "omitted" then Omitted else Summarized.

Definition shows_thoughts (d : ThinkingDisplay) : bool :=
  match d with Summarized => true | Omitted => false end.

Definition config_effort (v : Value) : option Value := get "output_config" v ≫= get "effort".

(** The effort is a sibling of [thinking], or, in the older form, inside it;
    it is read only when [thinking] is there. *)
Definition decode_thinking (body : Value) : option ThinkingConfig :=
  match get "thinking" body with
  | None => None
  | Some t =>
      let effort :=
        (or_else (config_effort body) (config_effort t) ≫= as_str) ≫= decode_effort in
      let budget_tokens := wrap32 <$> as_u64 t.["budget_tokens"] in
      let display := decode_display <$> as_str t.["display"] in
      if is_none effort && is_none budget_tokens && is_none display then None
      else Some {| effort := effort; budget_tokens := budget_tokens; display := display;
                   include_thoughts := shows_thoughts <$> display; summary := None;
                   th_mode := None; th_context := None |}
  end.

Definition decode_params (body : Value) : GenerationParams := {|
  max_tokens := wrap32 <$> as_u64 body.["max_tokens"];
  temperature := f64_to_f32 <$> as_f64 body.["temperature"];
  top_p := f64_to_f32 <$> as_f64 body.["top_p"];
  top_k := wrap32 <$> as_u64 body.["top_k"];
  gp_stop := omap as_str (default [] (as_array body.["stop_sequences"]));
  frequency_penalty := None; presence_penalty := None; seed := None;
  thinking := decode_thinking body; verbosity := None |}.

Definition decode_metadata (body : Value) : option (gmap string string) :=
  (fun s => <["user_id" := s]> ∅) <$> ((get "metadata" body ≫= get "user_id") ≫= as_str).

(** The native tool choice in the form the representation uses. *)
Definition normalize_tool_choice (tc : Value) : option Value :=
  tc_type ← as_str tc.["type"];
  Some (if String.eqb tc_type "auto" then Str "auto"
        else if String.eqb tc_type "any" then Str "required"
        else if String.eqb tc_type "none" then Str "none"
        else if String.eqb tc_type "tool" then
          obj [("type", Str "function"); ("function", obj [("name", Str (str_or "" tc.["name"]))])]
        else tc).

Definition decode_extensions (body : Value) : JsonMap :=
  insert_opt "tool_choice" (get "tool_choice" body ≫= normalize_tool_choice) ∅.

Definition decode_request `{SerdeJson} (body : Value) : result Error IrRequest :=
  Ok {| model := str_or "unknown" body.["model"];
        system := decode_system body;
        messages := decode_messages body;
        tools := decode_tools body;
        params := decode_params body;
        response_format := get "output_config" body ≫= decode_output_format;
        stream := default false (as_bool body.["stream"]);
        ingress_protocol := MessagesCodec_id;
        metadata := decode_metadata body;
        extensions := decode_extensions body |}.

(** ** Encoding a request *)

Definition encode_output_format (format : ResponseFormat) : option Value :=
  match format with
  | JsonSchema _ schema _ => Some (obj [("type", Str "json_schema"); ("schema", schema)])
  | JsonObject => Some (obj [("type", Str "json_schema");
                             ("schema", obj [("type", Str "object")])])
  | TextFormat => None
  end.

(** Requests of other protocols get cache breakpoints. *)
Definition inject_cache (ir : IrRequest) : bool :=
  negb (bool_decide (suite (ingress_protocol ir) = AnthropicMessages)).

Definition cache_mark : Value := obj [("type", Str "ephemeral")].

Definition with_cache (v : Value) : Value :=
  match v with Obj m => Obj (Json.insert "cache_control" cache_mark m) | _ => v end.

Definition on_last {A} (f : A -> A) (l : list A) : list A := alter f (pred (length l)) l.

Definition encode_system (ir : IrRequest) : option Value :=
  (fun sys => if inject_cache ir && negb (is_empty sys)
              then Arr [obj [("type", Str "text"); ("text", Str sys); ("cache_control", cache_mark)]]
              else Str sys) <$> system ir.

Definition wire_role (r : Role) : string :=
  match r with RAssistant => "assistant" | _ => "user" end.

Definition image_block (source : Value) : Value :=
  obj [("type", Str "image"); ("source", source)].

(** Reasoning without a signature is not replayed. *)
Definition encode_block (c : Content) : option Value :=
  match c with
  | CText text _ _ | CRefusal text _ => Some (obj [("type", Str "text"); ("text", Str text)])
  | CReasoning text signature _ _ =>
      (fun sig => obj [("type", Str "thinking"); ("thinking", Str text); ("signature", Str sig)])
        <$> signature
  | CToolCall id name arguments call_id _ _ =>
      Some (obj [("type", Str "tool_use"); ("id", Str (default id call_id)); ("name", Str name);
                 ("input", arguments)])
  | CToolResult tool_call_id _ content _ _ _ =>
      Some (obj [("type", Str "tool_result"); ("tool_use_id", Str tool_call_id);
                 ("content", Str content)])
  | CMedia (Url url) mime_type _ _ =>
      Some (image_block (obj [("type", Str "url"); ("url", Str url);
                              ("media_type", Str mime_type)]))
  | CMedia (Inline data) mime_type _ _ =>
      Some (image_block (obj [("type", Str "base64"); ("media_type", Str mime_type);
                              ("data", Str data)]))
  | CMedia (FileId _) _ _ _ => None
  | CProgram _ _ _ _ | CProgramOutput _ _ _ _ => None
  end.

Definition blocks_for (m : Message) : list Value := omap encode_block (content m).

Abbreviation Group := (string * list Value)%type.

(** Adjacent messages of one wire role are merged; empty ones are skipped. *)
Definition push_message (merged : list Group) (m : Message) : list Group :=
  let r := wire_role (role m) in
  match blocks_for m with
  | [] => merged
  | blocks =>
      match last merged with
      | Some (last_role, _) =>
          if String.eqb last_role r then on_last (fun g => (fst g, snd g ++ blocks)) merged
          else merged ++ [(r, blocks)]
      | None => merged ++ [(r, blocks)]
      end
  end.

Definition merge_messages (l : list Message) : list Group := fold_left push_message l [].

Definition group_json (g : Group) : Value :=
  obj [("role", Str (fst g)); ("content", Arr (snd g))].

Definition encode_messages (ir : IrRequest) : list Value :=
  let merged := merge_messages (messages ir) in
  map group_json
    (if inject_cache ir then on_last (fun g => (fst g, on_last with_cache (snd g))) merged
     else merged).

Definition encode_tool (t : Tool) : Value :=
  obj [("name", Str (tool_name t)); ("description", json_opt_str (tool_description t));
       ("input_schema", default Null (tool_parameters t))].

Definition function_tools (ir : IrRequest) : list Tool :=
  filter (fun t => Tool.is_function t = true) (tools ir).

Definition encode_tools (ir : IrRequest) : option Value :=
  match function_tools ir with
  | [] => None
  | _ => Some (Arr (let l := map encode_tool (function_tools ir) in
                    if inject_cache ir then on_last with_cache l else l))
  end.

Definition display_str (d : ThinkingDisplay) : string :=
  match d with Summarized => "summarized" | Omitted => "omitted" end.

Definition display_of (t : ThinkingConfig) : option ThinkingDisplay :=
  or_else (display t) ((fun i : bool => if i then Summarized else Omitted) <$> include_thoughts t).

(** There is no effort below [low]. *)
Definition messages_effort_str (e : ThinkingEffort) : string :=
  match e with
  | ENone | EMinimal | ELow => "low"
  | EMedium => "medium"
  | EHigh => "high"
  | EXHigh => "xhigh"
  | EMax => "max"
  end.

Definition some_effort (t : ThinkingConfig) : option ThinkingEffort :=
  match effort t with Some ENone => None | o => o end.

(** The [thinking] block and the effort of [output_config]. *)
Definition encode_thinking (t : ThinkingConfig) : option Value * option Value :=
  let shown := set_opt "display" ((Str ∘ display_str) <$> display_of t) in
  match some_effort t with
  | Some e => (Some (shown (obj [("type", Str "adaptive")])), Some (Str (messages_effort_str e)))
  | None =>
      match budget_tokens t with
      | Some budget => (Some (shown (obj [("type", Str "enabled");
                                          ("budget_tokens", json_u64 budget)])), None)
      | None => (None, None)
      end
  end.

(** The native form of the tool choice.  [obj] is a map here, so a function
    choice without [function] panics. *)
Definition encode_tool_choice (tc : Value) : run Value :=
  match tc with
  | Str s =>
      Ok (if String.eqb s "auto" then obj [("type", Str "auto")]
          else if String.eqb s "required" then obj [("type", Str "any")]
          else if String.eqb s "none" then obj [("type", Str "none")]
          else obj [("type", Str "auto")])
  | Obj m =>
      if bool_decide ((assoc "type" m ≫= as_str) = Some "function") then
        f ← map_index m "function";
        Ok (obj [("type", Str "tool"); ("name", Str (str_or "" f.["name"]))])
      else Ok tc
  | _ => Ok (obj [("type", Str "auto")])
  end.

Definition encode_params (ir : IrRequest) (body : Value) : Value :=
  let p := params ir in
  let body := set_opt "temperature" (json_f32 <$> temperature p) body in
  let body := set_opt "top_p" (json_f32 <$> top_p p) body in
  let body := set_opt "top_k" (json_u64 <$> top_k p) body in
  set_opt "stop_sequences" (match gp_stop p with [] => None | l => Some (Arr (map Str l)) end) body.

Definition thinking_json (ir : IrRequest) : option Value :=
  thinking (params ir) ≫= fun t => fst (encode_thinking t).

(** The format of the response and the effort share [output_config]. *)
Definition output_config (ir : IrRequest) : option Value :=
  nonempty_obj
    (insert_member "effort" (thinking (params ir) ≫= fun t => snd (encode_thinking t))
       (insert_member "format" (response_format ir ≫= encode_output_format) [])).

Definition encode_body (ir : IrRequest) : run Value :=
  let p := params ir in
  let body := obj [("model", Str (model ir)); ("stream", Bool (stream ir));
                   ("max_tokens", json_u64 (default 65536 (max_tokens p)))] in
  let body := set_opt "system" (encode_system ir) body in
  let body := set "messages" (Arr (encode_messages ir)) body in
  let body := set_opt "tools" (encode_tools ir) body in
  let body := encode_params ir body in
  let body := set_opt "thinking" (thinking_json ir) body in
  let body := set_opt "output_config" (output_config ir) body in
  body ← match extensions ir !! "tool_choice" with
         | Some tc => v ← encode_tool_choice tc; Ok (set "tool_choice" v body)
         | None => Ok body
         end;
  Ok (set_opt "metadata"
        ((fun user_id => obj [("user_id", Str user_id)]) <$> (metadata ir ≫= (.!! "user_id"))) body).

Definition request_headers : list (string * string) :=
  [("content-type", "application/json"); ("anthropic-version", "2023-06-01")].

Definition encode_request (ir : IrRequest)
    : run (result Error (Value * list (string * string))) :=
  match validate_response_format_for_target (response_format ir) MessagesCodec_id with
  | Ok _ => body ← encode_body ir; Ok (Ok (body, request_headers))
  | Err e => Ok (Err (ECodec (schema_error_to_string e)))
  end.

(** ** Responses *)

Definition stop_reason_str (r : FinishReason) : string :=
  match r with
  | Stop => "end_turn"
  | LengthReason => "max_tokens"
  | ToolCalls => "tool_use"
  | ContentFilter => "content_filter"
  | OtherReason _ => "end_turn"
  end.

Definition response_block (c : Content) : option Value :=
  match c with
  | CText text _ _ => Some (obj [("type", Str "text"); ("text", Str text)])
  | CReasoning text signature _ encrypted_content =>
      Some (match encrypted_content with
            | Some encrypted => obj [("type", Str "redacted_thinking"); ("data", Str encrypted)]
            | None => set_opt "signature" (Str <$> signature)
                        (obj [("type", Str "thinking"); ("thinking", Str text)])
            end)
  | CToolCall id name arguments call_id _ _ =>
      Some (obj [("type", Str "tool_use"); ("id", Str (default id call_id)); ("name", Str name);
                 ("input", arguments)])
  | _ => None
  end.

Definition stop_details_json (sd : StopDetails) : option Value :=
  if is_none (sd_kind sd) && is_none (sd_category sd) && is_none (explanation sd) then None
  else Some (set_opt "explanation" (Str <$> explanation sd)
               (set_opt "category" (Str <$> sd_category sd)
                  (set_opt "type" (Str <$> sd_kind sd) (obj [])))).

Definition usage_json (u : Usage) : Value :=
  set_opt "cache_creation_input_tokens" (json_u64 <$> cache_write_tokens u)
    (set_opt "cache_read_input_tokens" (json_u64 <$> cache_read_tokens u)
       (obj [("input_tokens", json_u64 (prompt_tokens u));
             ("output_tokens", json_u64 (completion_tokens u))])).

Definition encode_response (ir : IrResponse) : result Error Value :=
  let response := obj [("type", Str "message"); ("role", Str "assistant"); ("model", Str "")] in
  let response := set_opt "id" (Str <$> r_response_id ir) response in
  let response := set "content" (Arr (omap response_block (r_content ir))) response in
  let response := set_opt "stop_reason" ((Str ∘ stop_reason_str) <$> r_finish_reason ir) response in
  let response :=
    match r_stop_details ir with
    | Some sd =>
        set_opt "stop_details" (stop_details_json sd)
          (set_opt "stop_sequence" (Str <$> stop_sequence sd)
             (set "stop_reason" (Str (stop_reason sd)) response))
    | None => response
    end in
  Ok (set_opt "usage" (usage_json <$> r_usage ir) response).

Definition decode_response_block (block : Value) : option Content :=
  t ← as_str block.["type"];
  if String.eqb t "text" then Some (plain_text (str_or "" block.["text"]))
  else if String.eqb t "thinking" then
    Some (CReasoning (str_or "" block.["thinking"]) (as_str block.["signature"]) None None)
  else if String.eqb t "redacted_thinking" then
    Some (CReasoning "" None None (as_str block.["data"]))
  else if String.eqb t "tool_use" then
    Some (CToolCall (str_or "" block.["id"]) (str_or "" block.["name"]) block.["input"]
            None None None)
  else None.

Definition decode_stop_reason (s : string) : FinishReason :=
  if String.eqb s "end_turn" then Stop
  else if String.eqb s "stop_sequence" then Stop
  else if String.eqb s "max_tokens" then LengthReason
  else if String.eqb s "tool_use" then ToolCalls
  else if String.eqb s "content_filter" || String.eqb s "refusal" then ContentFilter
  else if String.eqb s "pause_turn" then Stop
  else OtherReason s.

(** A count that is missing is no count; one of another type is zero. *)
Definition present_u64 (k : string) (u : Value) : option Z :=
  (fun v => default 0 (as_u64 v)) <$> get k u.

Definition sum_tokens (input cache_creation cache_read output : Z) : Z :=
  wrap64 (wrap64 (wrap64 (input + cache_creation) + cache_read) + output).

Definition usage_of (u : Value) : Usage :=
  let input := default 0 (as_u64 u.["input_tokens"]) in
  let output := default 0 (as_u64 u.["output_tokens"]) in
  let cache_creation := default 0 (as_u64 u.["cache_creation_input_tokens"]) in
  let cache_read := default 0 (as_u64 u.["cache_read_input_tokens"]) in {|
  prompt_tokens := input;
  completion_tokens := output;
  reasoning_tokens := as_u64 u.["output_tokens_details"].["thinking_tokens"];
  cache_read_tokens := present_u64 "cache_read_input_tokens" u;
  cache_write_tokens := present_u64 "cache_creation_input_tokens" u;
  total_tokens := default (sum_tokens input cache_creation cache_read output)
                          (as_u64 u.["total_tokens"]) |}.

Definition decode_usage (body : Value) : option Usage :=
  match get "usage" body with
  | Some u =>
      if is_object u
         && (is_u64 u.["input_tokens"] || is_u64 u.["output_tokens"] || is_u64 u.["total_tokens"]
             || is_u64 u.["cache_creation_input_tokens"] || is_u64 u.["cache_read_input_tokens"])
      then Some (usage_of u) else None
  | None => None
  end.

Definition decode_stop_details (body : Value) : option StopDetails :=
  (fun s =>
     let sd := body.["stop_details"] in
     {| stop_reason := s; stop_sequence := as_str body.["stop_sequence"];
        sd_kind := as_str sd.["type"]; sd_category := as_str sd.["category"];
        explanation := as_str sd.["explanation"] |}) <$> as_str body.["stop_reason"].

Definition decode_response (body : Value) : result Error IrResponse :=
  Ok {| r_content := omap decode_response_block (default [] (as_array body.["content"]));
        r_usage := decode_usage body;
        r_finish_reason := decode_stop_reason <$> as_str body.["stop_reason"];
        r_response_id := as_str body.["id"];
        r_stop_details := decode_stop_details body;
        r_extensions := ∅ |}.
