(* ===== verification/MessagesProps.v ===== *)
(** * MessagesProps: what Anthropic Messages requests and responses keep

    The turns of a request and its cache breakpoints, the round trips of
    requests and responses, and the defects of the codec. *)

From stdpp Require Import base option list gmap strings.
From Stdlib Require Import ZArith Lia Ascii SpecFloat.
From S2P Require Import Prelude RustStr F64 Json JsonBody Telemetry Protocol Classify Errors Ir StructuredOutput ChatRequest Messages.

Local Open Scope string_scope.
Local Open Scope list_scope.
Local Open Scope Z_scope.

(** ** Turns *)

(** The blocks of a request, each with the role of its message. *)
Definition tagged (m : Message) : list (string * Value) :=
  map (pair (wire_role (role m))) (blocks_for m).

Definition spread (g : Group) : list (string * Value) := map (pair (fst g)) (snd g).

(** Reference definition: maximal runs of blocks of one role. *)
Fixpoint turns (l : list (string * Value)) : list Group :=
  match l with
  | [] => []
  | (r, b) :: rest =>
      match turns rest with
      | (r', bs) :: gs => if String.eqb r r' then (r, b :: bs) :: gs else (r, [b]) :: (r', bs) :: gs
      | [] => [(r, [b])]
      end
  end.

(** No turn is empty, and the roles alternate. *)
Fixpoint alternating (l : list Group) : Prop :=
  match l with
  | [] => True
  | (r, bs) :: rest =>
      bs <> [] /\ (forall g, head rest = Some g -> fst g <> r) /\ alternating rest
  end.

Lemma alternating_snoc l g :
  alternating (l ++ [g]) <->
  alternating l /\ snd g <> [] /\ (forall g', last l = Some g' -> fst g' <> fst g).
Proof.
  induction l as [|[r bs] l IH]; cbn.
  - destruct g as [r bs]. cbn. naive_solver.
  - rewrite IH. destruct l as [|g' l]; cbn.
    + naive_solver.
    + rewrite last_cons. naive_solver.
Qed.

Lemma on_last_snoc {A} (f : A -> A) l x : on_last f (l ++ [x]) = l ++ [f x].
Proof.
  unfold on_last. rewrite length_app. cbn. replace (length l + 1)%nat with (S (length l)) by lia. cbn.
  induction l as [|y l IH]; [done|]. cbn. by f_equal.
Qed.

Lemma last_snoc_cases {A} (l : list A) : l = [] \/ exists l' x, l = l' ++ [x].
Proof. induction l as [|x l' _] using rev_ind; eauto. Qed.

Lemma push_message_spec merged m :
  alternating merged ->
  alternating (push_message merged m)
  /\ flat_map spread (push_message merged m) = flat_map spread merged ++ tagged m.
Proof.
  intros Ha. unfold push_message, tagged. destruct (blocks_for m) as [|b bs] eqn:Eb.
  - by rewrite app_nil_r.
  - set (blocks := b :: bs). destruct (last_snoc_cases merged) as [->|(l & [r0 bs0] & ->)].
    + cbn. by rewrite app_nil_r.
    + rewrite last_snoc. apply alternating_snoc in Ha as (Hl & Hne & Hd).
      destruct (String.eqb_spec r0 (wire_role (role m))) as [->|Hr].
      * rewrite on_last_snoc. split.
        -- apply alternating_snoc. split_and!; [done| |done]. by destruct bs0.
        -- rewrite !flat_map_app. cbn. rewrite !app_nil_r. unfold spread. cbn.
           by rewrite map_app, app_assoc.
      * split.
        -- apply alternating_snoc. split_and!; [|done|].
           { apply alternating_snoc. done. }
           { intros g'. rewrite last_snoc. intros [= <-]. done. }
        -- rewrite !flat_map_app. cbn. by rewrite !app_nil_r, <- app_assoc.
Qed.

Lemma merge_messages_spec l :
  alternating (merge_messages l)
  /\ flat_map spread (merge_messages l) = flat_map tagged l.
Proof.
  unfold merge_messages. induction l as [|m l IH] using rev_ind; [done|].
  rewrite fold_left_app, flat_map_app. cbn [fold_left flat_map]. rewrite app_nil_r.
  destruct IH as [Ha Hf]. rewrite <- Hf. by apply push_message_spec.
Qed.

Lemma turns_same r b bs rest gs :
  turns rest = (r, bs) :: gs -> turns ((r, b) :: rest) = (r, b :: bs) :: gs.
Proof. intros Ht. cbn. by rewrite Ht, String.eqb_refl. Qed.

(** Alternating turns are the only ones with their blocks. *)
Lemma turns_spread gs : alternating gs -> turns (flat_map spread gs) = gs.
Proof.
  induction gs as [|[r bs] gs IH]; [done|]. cbn [alternating flat_map]. intros (Hne & Hd & Ha).
  specialize (IH Ha). unfold spread at 1. cbn [fst snd].
  destruct bs as [|b bs]; [done|]. clear Hne. revert b.
  induction bs as [|b' bs IHb]; intros b.
  - cbn. rewrite IH. destruct gs as [|[r' bs'] gs]; [done|].
    specialize (Hd _ eq_refl). cbn in Hd. by destruct (String.eqb_spec r r').
  - apply turns_same, IHb.
Qed.

Lemma merge_turns l : merge_messages l = turns (flat_map tagged l).
Proof. destruct (merge_messages_spec l) as [Ha <-]. by rewrite turns_spread. Qed.

(** ** Cache breakpoints *)

Definition marked (v : Value) : bool := bool_decide (is_Some (get "cache_control" v)).

Lemma get_with_cache k v : k <> "cache_control" -> get k (with_cache v) = get k v.
Proof.
  intros Hk. destruct v; try done. cbn. rewrite assoc_insert.
  by rewrite (proj2 (String.eqb_neq _ _) Hk).
Qed.

Lemma marked_with_cache v : is_object v = true -> marked (with_cache v) = true.
Proof.
  destruct v; try done. intros _. unfold marked. cbn. rewrite assoc_insert, String.eqb_refl.
  by apply bool_decide_eq_true.
Qed.

Lemma block_is_object c v : encode_block c = Some v -> is_object v = true /\ marked v = false.
Proof.
  destruct c as [| ? [] | | | | | |[]]; cbn; try done; intros [= <-]; done.
Qed.

Definition count_marked (l : list Value) : nat := length (List.filter marked l).

Lemma count_on_last l :
  Forall (fun v => is_object v = true /\ marked v = false) l ->
  count_marked (on_last with_cache l) = if decide (l = []) then 0%nat else 1%nat.
Proof.
  intros Hl. destruct (last_snoc_cases l) as [->|(l' & x & ->)]; [done|].
  rewrite on_last_snoc. apply Forall_app in Hl as [Hl [Hx _]%Forall_cons].
  rewrite decide_False by (by destruct l'). unfold count_marked. rewrite List.filter_app.
  cbn. rewrite marked_with_cache by apply Hx. rewrite length_app. cbn.
  enough (List.filter marked l' = []) as -> by done.
  induction Hl as [|y l' [_ Hy] _ IH]; [done|]. cbn. by rewrite Hy.
Qed.

Lemma count_unmarked l : Forall (fun v => is_object v = true /\ marked v = false) l -> count_marked l = 0%nat.
Proof. unfold count_marked. induction 1 as [|y l' [_ Hy] _ IH]; [done|]. cbn. by rewrite Hy. Qed.

Lemma count_app l1 l2 : count_marked (l1 ++ l2) = (count_marked l1 + count_marked l2)%nat.
Proof. unfold count_marked. by rewrite List.filter_app, length_app. Qed.

Lemma blocks_plain m : Forall (fun v => is_object v = true /\ marked v = false) (blocks_for m).
Proof.
  unfold blocks_for. induction (content m) as [|c l IH]; [constructor|]. cbn.
  destruct (encode_block c) eqn:E; cbn; [|done]. constructor; [|done]. by eapply block_is_object.
Qed.

Lemma merged_plain l :
  Forall (fun g => Forall (fun v => is_object v = true /\ marked v = false) (snd g)) (merge_messages l).
Proof.
  destruct (merge_messages_spec l) as [_ Hf].
  assert (Forall (fun rv => is_object (snd rv) = true /\ marked (snd rv) = false)
            (flat_map spread (merge_messages l))) as Hall.
  { rewrite Hf. clear Hf. induction l as [|m l IH]; [constructor|]. cbn.
    apply Forall_app. split; [|done]. unfold tagged. apply Forall_map. apply blocks_plain. }
  clear Hf. induction (merge_messages l) as [|g gs IH]; [constructor|].
  cbn in Hall. apply Forall_app in Hall as [Hg Hgs]. constructor; [|by apply IH].
  unfold spread in Hg. by apply Forall_map in Hg.
Qed.

(** ** The members of a request body *)

Definition choice_member (ir : IrRequest) (choice : option Value) : Prop :=
  match extensions ir !! "tool_choice" with
  | Some tc => exists v, encode_tool_choice tc = Ok v /\ choice = Some v
  | None => choice = None
  end.

Definition request_member (ir : IrRequest) (choice : option Value) (k : string) : option Value :=
  if String.eqb k "metadata"
  then (fun user_id => obj [("user_id", Str user_id)]) <$> (metadata ir ≫= (.!! "user_id"))
  else if String.eqb k "tool_choice" then choice
  else if String.eqb k "output_config" then output_config ir
  else if String.eqb k "thinking" then thinking_json ir
  else if String.eqb k "stop_sequences"
  then match gp_stop (params ir) with [] => None | l => Some (Arr (map Str l)) end
  else if String.eqb k "top_k" then json_u64 <$> top_k (params ir)
  else if String.eqb k "top_p" then json_f32 <$> top_p (params ir)
  else if String.eqb k "temperature" then json_f32 <$> temperature (params ir)
  else if String.eqb k "tools" then encode_tools ir
  else if String.eqb k "messages" then Some (Arr (encode_messages ir))
  else if String.eqb k "system" then encode_system ir
  else if String.eqb k "max_tokens" then Some (json_u64 (default 65536 (max_tokens (params ir))))
  else if String.eqb k "stream" then Some (Bool (stream ir))
  else if String.eqb k "model" then Some (Str (model ir)) else None.

Lemma get_request_body ir body :
  encode_body ir = Ok body ->
  exists choice, choice_member ir choice /\ forall k, get k body = request_member ir choice k.
Proof.
  unfold encode_body, choice_member. intros Hb.
  destruct (match extensions ir !! "tool_choice" with
            | Some tc => Some <$> encode_tool_choice tc | None => Ok None end) as [choice|] eqn:Ec.
  2: { destruct (extensions ir !! "tool_choice") as [tc|]; [|done]. cbn in Ec, Hb.
       by destruct (encode_tool_choice tc). }
  exists choice. split.
  { destruct (extensions ir !! "tool_choice") as [tc|]; [|by injection Ec].
    destruct (encode_tool_choice tc) as [v|]; [|done]. injection Ec as <-. eauto. }
  intros k.
  assert (body = set_opt "metadata"
    ((fun user_id => obj [("user_id", Str user_id)]) <$> (metadata ir ≫= (.!! "user_id")))
    (set_opt "tool_choice" choice
      (set_opt "output_config" (output_config ir)
        (set_opt "thinking" (thinking_json ir)
          (encode_params ir
            (set_opt "tools" (encode_tools ir)
              (set "messages" (Arr (encode_messages ir))
                (set_opt "system" (encode_system ir)
                  (obj [("model", Str (model ir)); ("stream", Bool (stream ir));
                        ("max_tokens", json_u64 (default 65536 (max_tokens (params ir))))]))))))))) as ->.
  { destruct (extensions ir !! "tool_choice") as [tc|]; cbn in Hb.
    - destruct (encode_tool_choice tc) as [v|]; [|done]. injection Ec as <-. by injection Hb as <-.
    - injection Ec as <-. by injection Hb as <-. }
  clear. unfold encode_params.
  rewrite !get_set_opt_if, get_set_if, get_set_opt_if, get_obj by auto 12 with body.
  unfold request_member. rewrite !or_else_if; try done; try last_key.
Qed.

(** ** Round trip of requests *)

Section Roundtrip.
Context `{SerdeJson}.

(** Contents in the decoder's form. *)
Inductive message_part : Content -> Prop :=
| part_text t : message_part (CText t None None)
| part_thinking t sig : message_part (CReasoning t (Some sig) None None)
| part_call id name arguments :
    is_null arguments = false -> message_part (CToolCall id name arguments None None None)
| part_result id text : message_part (CToolResult id "" text None None None)
| part_url url mime : message_part (CMedia (Url url) mime ∅ None)
| part_inline data mime : message_part (CMedia (Inline data) mime ∅ None).

(** Turns of the user and of the assistant that are not empty. *)
Inductive message_turns : list Message -> Prop :=
| turns_nil : message_turns []
| turns_cons r parts rest :
    r = RUser \/ r = RAssistant ->
    parts <> [] -> Forall message_part parts ->
    (forall m, head rest = Some m -> role m <> r) ->
    message_turns rest ->
    message_turns ({| role := r; content := parts |} :: rest).

Lemma part_block c : message_part c -> exists v, encode_block c = Some v /\ decode_block v = Some c.
Proof.
  destruct 1 as [| |id name a Ha| | |]; eexists; (split; [reflexivity|]); try reflexivity.
  unfold decode_block. compare_keys. by rewrite Ha.
Qed.

Lemma index_with_cache k v : k <> "cache_control" -> (with_cache v).[k] = v.[k].
Proof. intros Hk. unfold index. by rewrite get_with_cache. Qed.

Lemma decode_with_cache v : decode_block (with_cache v) = decode_block v.
Proof.
  unfold decode_block, decode_image_block. by rewrite !index_with_cache by discriminate.
Qed.

Lemma parts_blocks l :
  Forall message_part l -> omap decode_block (omap encode_block l) = l.
Proof.
  induction 1 as [|c l Hc _ IH]; [done|]. destruct (part_block c Hc) as (v & Hv & Hd).
  cbn. rewrite Hv. cbn. rewrite Hd. cbn. by rewrite IH.
Qed.

Lemma decode_on_last b l :
  omap decode_block (if b : bool then on_last with_cache l else l) = omap decode_block l.
Proof.
  destruct b; [|done]. destruct (last_snoc_cases l) as [->|(l' & x & ->)]; [done|].
  rewrite on_last_snoc, !omap_app. cbn. by rewrite decode_with_cache.
Qed.

Lemma wire_role_inj r1 r2 :
  (r1 = RUser \/ r1 = RAssistant) -> (r2 = RUser \/ r2 = RAssistant) ->
  wire_role r1 = wire_role r2 -> r1 = r2.
Proof. by intros [->| ->] [->| ->]. Qed.

Definition group_of (m : Message) : Group := (wire_role (role m), blocks_for m).

Lemma turn_blocks r parts :
  parts <> [] -> Forall message_part parts -> blocks_for {| role := r; content := parts |} <> [].
Proof.
  intros Hne Hp. destruct Hp as [|c l Hc _]; [done|]. unfold blocks_for. cbn.
  destruct (part_block c Hc) as (v & -> & _). done.
Qed.

Lemma turns_groups l : message_turns l -> merge_messages l = map group_of l.
Proof.
  intros Hl. rewrite merge_turns.
  assert (flat_map tagged l = flat_map spread (map group_of l)) as ->.
  { clear. induction l as [|m l IH]; [done|]. cbn. by rewrite IH. }
  apply turns_spread. induction Hl as [|r parts rest Hr Hne Hp Hd Hrest IH]; [done|]. cbn.
  split_and!; [by apply (turn_blocks r parts)| |done].
  intros g Hg. destruct rest as [|m rest]; [done|]. injection Hg as <-. cbn.
  intros E. apply (Hd m eq_refl). apply wire_role_inj; [|done|done].
  inversion Hrest; subst; done.
Qed.

Lemma decode_group r bs b :
  r = RUser \/ r = RAssistant ->
  decode_message (group_json (wire_role r, if b : bool then on_last with_cache bs else bs))
  = {| role := r; content := omap decode_block bs |}.
Proof.
  intros Hr. unfold decode_message, decode_message_content, group_json. compare_keys.
  rewrite decode_on_last. by destruct Hr as [-> | ->].
Qed.

Lemma turns_roundtrip ir :
  message_turns (messages ir) -> map decode_message (encode_messages ir) = messages ir.
Proof.
  intros Hl. unfold encode_messages. rewrite turns_groups by done.
  assert (forall l, message_turns l ->
            map decode_message (map group_json (map group_of l)) = l) as Hplain.
  { clear. induction 1 as [|r parts rest Hr Hne Hp Hd Hrest IH]; [done|]. cbn [map].
    rewrite IH. f_equal. unfold group_of. rewrite (decode_group r _ false) by done. cbn [role].
    f_equal. by apply parts_blocks. }
  destruct (inject_cache ir); [|by apply Hplain].
  induction Hl as [|r parts rest Hr Hne Hp Hd Hrest IH]; [done|].
  destruct rest as [|m rest].
  - cbn -[decode_message group_json blocks_for]. unfold group_of. cbn [fst snd role].
    rewrite (decode_group r _ true) by done. do 2 f_equal. by apply parts_blocks.
  - change (map group_of ({| role := r; content := parts |} :: m :: rest))
      with (group_of {| role := r; content := parts |} :: map group_of (m :: rest)).
    assert (forall g (l : list Group) f, l <> [] -> on_last f (g :: l) = g :: on_last f l) as Hon.
    { intros g l f Hne'. destruct l; [done|]. reflexivity. }
    rewrite Hon by done. cbn [map] in IH |- *. rewrite IH. f_equal.
    unfold group_of. rewrite (decode_group r _ false) by done. cbn [role].
    f_equal. by apply parts_blocks.
Qed.
End Roundtrip.

(** What a tool, a thinking configuration, a response format and a tool choice
    become on the way through a body. *)
Definition relayed_tool (t : Tool) : Tool := {|
  tool_name := tool_name t; tool_description := tool_description t;
  tool_parameters := Some (default Null (tool_parameters t)); tool_required := false;
  tool_type := None; tool_config := None |}.

Definition raised_effort (e : ThinkingEffort) : ThinkingEffort :=
  match e with EMinimal => ELow | e => e end.

Definition relayed_thinking (t : ThinkingConfig) : option ThinkingConfig :=
  let shown := display_of t in
  let config e b := Some {| effort := e; budget_tokens := b; display := shown;
                            include_thoughts := shows_thoughts <$> shown; summary := None;
                            th_mode := None; th_context := None |} in
  match some_effort t, budget_tokens t with
  | Some e, _ => config (Some (raised_effort e)) None
  | None, Some b => config None (Some b)
  | None, None => None
  end.

Definition relayed_format (f : ResponseFormat) : option ResponseFormat :=
  match f with
  | JsonSchema _ schema _ =>
      if is_object schema then Some (JsonSchema "response" schema (Some true)) else None
  | JsonObject => Some (JsonSchema "response" (obj [("type", Str "object")]) (Some true))
  | TextFormat => None
  end.

Definition chosen_tool (name : string) : Value :=
  obj [("type", Str "function"); ("function", obj [("name", Str name)])].

Definition choice_ok (tc : Value) : Prop :=
  tc = Str "auto" \/ tc = Str "required" \/ tc = Str "none" \/ exists name, tc = chosen_tool name.

Lemma thinking_roundtrip ir body :
  (forall k, k = "thinking" \/ k = "output_config" ->
     get k body = request_member ir None k) ->
  (forall t b, thinking (params ir) = Some t -> budget_tokens t = Some b -> in_u32 b = true) ->
  decode_thinking body = thinking (params ir) ≫= relayed_thinking.
Proof.
  intros Hg Hb. unfold decode_thinking, config_effort. rewrite !Hg by auto.
  cbn -[output_config thinking_json]. unfold thinking_json, output_config.
  destruct (thinking (params ir)) as [t|] eqn:Et; [|done]. cbn [mbind option_bind].
  specialize (Hb t). unfold encode_thinking, relayed_thinking.
  destruct (some_effort t) as [e|] eqn:Ee.
  - cbn [fst snd]. 
    assert (e <> ENone) as Hne by (intros ->; unfold some_effort in Ee; by destruct (effort t) as [[]|]).
    destruct (display_of t) as [[]|] eqn:Ed; destruct (response_format ir ≫= encode_output_format);
      destruct e; done.
  - destruct (budget_tokens t) as [b|] eqn:Eb; [|done]. cbn [fst snd].
    specialize (Hb b eq_refl eq_refl).
    destruct (response_format ir ≫= encode_output_format);
      destruct (display_of t) as [[]|] eqn:Ed; lazy -[wrap32]; by rewrite wrap32_small.
Qed.

Lemma output_format_roundtrip ir body :
  get "output_config" body = output_config ir ->
  get "output_config" body ≫= decode_output_format = response_format ir ≫= relayed_format.
Proof.
  intros ->. unfold output_config.
  destruct (thinking (params ir) ≫= fun t => snd (encode_thinking t)) as [e|];
    destruct (response_format ir) as [[name schema strict| |]|]; try done; cbn;
    unfold decode_output_format; cbn; by destruct (is_object schema).
Qed.

Lemma decode_tool_marked v : decode_tool (with_cache v) = decode_tool v.
Proof. unfold decode_tool. by rewrite !index_with_cache by discriminate. Qed.

Lemma decode_encode_tool t : decode_tool (encode_tool t) = relayed_tool t.
Proof.
  unfold decode_tool, encode_tool, relayed_tool. compare_keys. by destruct (tool_description t).
Qed.

Lemma map_on_last {A B} (f : A -> A) (g : A -> B) (b : bool) l :
  (forall x, g (f x) = g x) -> map g (if b then on_last f l else l) = map g l.
Proof.
  intros Hf. destruct b; [|done]. destruct (last_snoc_cases l) as [->|(l' & x & ->)]; [done|].
  rewrite on_last_snoc, !map_app. cbn. by rewrite Hf.
Qed.

Lemma function_tools_roundtrip ir :
  map decode_tool (default [] (as_array (default Null (encode_tools ir))))
  = map relayed_tool (function_tools ir).
Proof.
  assert (map decode_tool (map encode_tool (function_tools ir)) = map relayed_tool (function_tools ir))
    as <- by (rewrite map_map; apply map_ext, decode_encode_tool).
  rewrite <- (map_on_last with_cache decode_tool (inject_cache ir) (map encode_tool (function_tools ir)))
    by apply decode_tool_marked.
  unfold encode_tools. by destruct (function_tools ir), (inject_cache ir).
Qed.

Lemma choice_roundtrip tc v :
  choice_ok tc -> encode_tool_choice tc = Ok v -> normalize_tool_choice v = Some tc.
Proof. by intros [->|[->|[->|[name ->]]]] [= <-]. Qed.

(** C30: A request in the decoder's form (turns of user and assistant in
    alternation, none empty, with blocks as its decoder makes them; counts of 32
    bits; a tool choice that is auto, required, none or one function) survives
    a Messages body: the model, the stream flag, the system text, every
    message with its blocks in their order, the function tools, the token
    limit (or the default that the wire demands), temperature and top_p where
    they are finite 32-bit floats, top_k, the stop sequences, thinking, the
    response schema, the user id and the tool choice. This holds with and
    without the cache breakpoints that are injected for other protocols. *)
Theorem messages_request_roundtrip `{SerdeJson} ir body headers :
  encode_request ir = Ok (Ok (body, headers)) ->
  message_turns (messages ir) ->
  (forall n, max_tokens (params ir) = Some n -> in_u32 n = true) ->
  (forall n, top_k (params ir) = Some n -> in_u32 n = true) ->
  (forall t b, thinking (params ir) = Some t -> budget_tokens t = Some b -> in_u32 b = true) ->
  (forall tc, extensions ir !! "tool_choice" = Some tc -> choice_ok tc) ->
  exists ir', decode_request body = Ok ir'
    /\ model ir' = model ir /\ stream ir' = stream ir /\ system ir' = system ir
    /\ messages ir' = messages ir
    /\ tools ir' = map relayed_tool (function_tools ir)
    /\ max_tokens (params ir') = Some (default 65536 (max_tokens (params ir)))
    /\ (finite_f32 (temperature (params ir)) -> temperature (params ir') = temperature (params ir))
    /\ (finite_f32 (top_p (params ir)) -> top_p (params ir') = top_p (params ir))
    /\ top_k (params ir') = top_k (params ir) /\ gp_stop (params ir') = gp_stop (params ir)
    /\ thinking (params ir') = thinking (params ir) ≫= relayed_thinking
    /\ response_format ir' = response_format ir ≫= relayed_format
    /\ metadata ir' = (fun id => <["user_id" := id]> ∅) <$> (metadata ir ≫= (.!! "user_id"))
    /\ extensions ir' !! "tool_choice" = extensions ir !! "tool_choice".
Proof.
  unfold encode_request. destruct (validate_response_format_for_target _ _); [|done].
  destruct (encode_body ir) as [body'|] eqn:Eb; [|done]. intros [= -> _] Hms Hmax Hk Hth Htc.
  destruct (get_request_body _ _ Eb) as (choice & Hc & Hg).
  eexists. split; [reflexivity|]. cbn [model stream system messages tools params max_tokens temperature top_p top_k
    gp_stop thinking response_format metadata extensions decode_params].
  unfold index. rewrite !Hg. split_and!.
  - done.
  - done.
  - unfold decode_system. rewrite Hg. cbn. unfold encode_system.
    destruct (system ir) as [s|]; [|done]. cbn. by destruct (inject_cache ir && negb (is_empty s)).
  - unfold decode_messages, index. rewrite Hg. by apply turns_roundtrip.
  - unfold decode_tools, index. rewrite Hg. cbn. by apply function_tools_roundtrip.
  - cbn -[wrap32]. destruct (max_tokens (params ir)) as [n|] eqn:E; cbn -[wrap32]; [|done].
    by rewrite wrap32_small by auto.
  - apply json_f32_roundtrip.
  - apply json_f32_roundtrip.
  - cbn -[wrap32]. destruct (top_k (params ir)) as [n|] eqn:E; cbn -[wrap32]; [|done].
    by rewrite wrap32_small by auto.
  - cbn. destruct (gp_stop (params ir)) as [|s l]; [done|]. apply (omap_str (s :: l)).
  - apply (thinking_roundtrip ir); [|done]. intros k Hk'. rewrite Hg. by destruct Hk' as [-> | ->].
  - rewrite <- Hg. apply (output_format_roundtrip ir). by rewrite Hg.
  - unfold decode_metadata. rewrite Hg. cbn. by destruct (metadata ir ≫= (.!! "user_id")).
  - unfold decode_extensions, insert_opt. rewrite Hg. cbn. unfold choice_member in Hc.
    destruct (extensions ir !! "tool_choice") as [tc|] eqn:E.
    + destruct Hc as (v & Hv & ->). cbn. rewrite (choice_roundtrip tc v) by auto.
      by rewrite lookup_insert_eq.
    + by rewrite Hc.
Qed.

Definition sample_messages : list Message :=
  [{| role := RUser; content := [CText "weather in Rome?" None None] |};
   {| role := RAssistant;
      content := [CReasoning "look it up" (Some "sig") None None;
                  CToolCall "toolu_1" "weather" (obj [("city", Str "Rome")]) None None None] |};
   {| role := RUser; content := [CToolResult "toolu_1" "" "sunny" None None None;
                                 CMedia (Url "https://example.org/map.png") "image/png" ∅ None] |}].

Definition sample_ir (from : ProtocolEndpoint) : IrRequest := {|
  model := "claude"; system := Some "be brief"; messages := sample_messages;
  tools := [{| tool_name := "weather"; tool_description := None; tool_parameters := Some (obj []);
               tool_required := true; tool_type := None; tool_config := None |}];
  params := {| max_tokens := None; temperature := None; top_p := None; top_k := Some 40;
               gp_stop := ["END"]; frequency_penalty := None; presence_penalty := None;
               seed := None; thinking := Some (effort_only EMinimal); verbosity := None |};
  response_format := Some JsonObject; stream := true; ingress_protocol := from;
  metadata := Some (<["user_id" := "u1"]> ∅);
  extensions := <["tool_choice" := chosen_tool "weather"]> ∅ |}.

Definition sent_body (ir : IrRequest) : Value :=
  match encode_request ir with Ok (Ok (body, _)) => body | _ => Null end.

Lemma sample_turns : message_turns sample_messages.
Proof.
  constructor; [auto|done|repeat constructor|by intros m [= <-]|].
  constructor; [auto|done|repeat constructor|by intros m [= <-]|].
  constructor; [auto|done|repeat constructor|done|constructor].
Qed.

Lemma messages_request_roundtrip_witness :
  exists ir', decode_request (H := coded_json) (sent_body (sample_ir ChatCompletionsCodec_id)) = Ok ir'
    /\ messages ir' = sample_messages /\ system ir' = Some "be brief"
    /\ max_tokens (params ir') = Some 65536.
Proof.
  destruct (@messages_request_roundtrip coded_json (sample_ir ChatCompletionsCodec_id)
              (sent_body (sample_ir ChatCompletionsCodec_id)) request_headers)
    as (ir' & Hd & _ & _ & Hs & Hm & _ & Hx & _).
  - by vm_compute.
  - apply sample_turns.
  - done.
  - by intros n [= <-].
  - by intros t b [= <-].
  - cbn. intros tc. rewrite lookup_insert_eq. intros [= <-]. right. right. right. by eexists.
  - by exists ir'.
Defined.

(** The messages of a body are the blocks of the request in their order,
    grouped into the maximal runs of one wire role: the roles alternate and no
    message is empty, whatever the roles of the request were.  The breakpoint
    for other protocols goes to the last block. *)
Theorem messages_alternate ir :
  let runs := turns (flat_map tagged (messages ir)) in
  alternating runs
  /\ encode_messages ir
     = map group_json
         (if inject_cache ir then on_last (fun g => (fst g, on_last with_cache (snd g))) runs
          else runs).
Proof.
  cbv zeta. rewrite <- merge_turns. split; [apply merge_messages_spec|done].
Qed.

(** The blocks of a body that may carry a cache breakpoint. *)
Definition cacheable (body : Value) : list Value :=
  default [] (as_array body.["system"]) ++ default [] (as_array body.["tools"])
  ++ flat_map (fun m => default [] (as_array m.["content"])) (default [] (as_array body.["messages"])).

Definition has_blocks (ir : IrRequest) : bool :=
  match flat_map blocks_for (messages ir) with [] => false | _ => true end.

Definition has_tools (ir : IrRequest) : bool :=
  match function_tools ir with [] => false | _ => true end.

Definition one_if (b : bool) : nat := if b then 1%nat else 0%nat.

Lemma count_groups gs :
  Forall (fun g => Forall (fun v => is_object v = true /\ marked v = false) (snd g)) gs ->
  count_marked (flat_map (fun m => default [] (as_array m.["content"])) (map group_json gs)) = 0%nat.
Proof.
  induction 1 as [|g gs Hg _ IH]; [done|]. cbn [map flat_map]. rewrite count_app, IH.
  change (default [] (as_array (group_json g).["content"])) with (snd g).
  by rewrite count_unmarked.
Qed.

Lemma messages_marks ir :
  count_marked (flat_map (fun m => default [] (as_array m.["content"])) (encode_messages ir))
  = one_if (inject_cache ir && has_blocks ir).
Proof.
  unfold encode_messages, has_blocks. destruct (merge_messages_spec (messages ir)) as [Ha Hf].
  pose proof (merged_plain (messages ir)) as Hp. destruct (inject_cache ir); [|by apply count_groups].
  assert (flat_map blocks_for (messages ir) = flat_map snd (merge_messages (messages ir))) as ->.
  { assert (forall l, map snd (flat_map tagged l) = flat_map blocks_for l) as Ht.
    { induction l as [|m l IH]; [done|]. cbn. rewrite map_app, IH. f_equal.
      unfold tagged. rewrite map_map. apply map_id. }
    rewrite <- Ht, <- Hf. clear. induction (merge_messages _) as [|g gs IH]; [done|].
    cbn. rewrite map_app, IH. f_equal. unfold spread. rewrite map_map. apply map_id. }
  destruct (last_snoc_cases (merge_messages (messages ir))) as [->|(l & g & E)]; [done|].
  rewrite E in *. rewrite on_last_snoc, map_app, flat_map_app, count_app.
  apply Forall_app in Hp as [Hl [Hg _]%Forall_cons]. rewrite count_groups by done.
  apply alternating_snoc in Ha as (_ & Hne & _). cbn [map flat_map]. rewrite app_nil_r.
  change (default [] (as_array (group_json (fst g, on_last with_cache (snd g))).["content"]))
    with (on_last with_cache (snd g)).
  rewrite count_on_last, decide_False by done. rewrite flat_map_app. cbn. rewrite app_nil_r.
  destruct (snd g) as [|v vs]; [done|]. by destruct (flat_map snd l).
Qed.

(** A body has at most three cache breakpoints (the provider accepts
    four): one on a system text that is not empty, one on the last tool and
    one on the last block; a request that came as Messages gets none. *)
Theorem cache_breakpoints ir body headers :
  encode_request ir = Ok (Ok (body, headers)) ->
  count_marked (cacheable body)
  = if inject_cache ir
    then (one_if (negb (is_empty (default "" (system ir))))
          + one_if (has_tools ir)
          + one_if (has_blocks ir))%nat
    else 0%nat.
Proof.
  unfold encode_request. destruct (validate_response_format_for_target _ _); [|done].
  destruct (encode_body ir) as [body'|] eqn:Eb; [|done]. intros [= -> _].
  destruct (get_request_body _ _ Eb) as (choice & _ & Hg).
  unfold cacheable, index. rewrite !Hg. cbn. rewrite !count_app, messages_marks.
  assert (count_marked (default [] (as_array (default Null (encode_system ir))))
          = one_if (inject_cache ir && negb (is_empty (default "" (system ir))))) as ->.
  { unfold encode_system. destruct (system ir) as [s|]; cbn; [|by rewrite andb_false_r].
    by destruct (inject_cache ir && negb (is_empty s)). }
  assert (count_marked (default [] (as_array (default Null (encode_tools ir))))
          = one_if (inject_cache ir && has_tools ir)) as ->.
  { unfold encode_tools, has_tools. destruct (function_tools ir) as [|t l] eqn:E.
    { by rewrite andb_false_r. }
    assert (Forall (fun v => is_object v = true /\ marked v = false) (map encode_tool (t :: l))) as Ht.
    { apply Forall_map, Forall_true. by intros []. }
    cbn [default as_array id from_option]. cbv zeta.
    destruct (inject_cache ir).
    - unfold id. cbn [as_array default]. by rewrite count_on_last.
    - unfold id. cbn [as_array default]. by rewrite count_unmarked. }
  destruct (inject_cache ir); [|done]. cbn. lia.
Qed.

Lemma cache_breakpoints_witness :
  count_marked (cacheable (sent_body (sample_ir ChatCompletionsCodec_id))) = 3%nat
  /\ count_marked (cacheable (sent_body (sample_ir MessagesCodec_id))) = 0%nat.
Proof.
  split.
  - rewrite (cache_breakpoints (sample_ir ChatCompletionsCodec_id) _ request_headers) by (by vm_compute).
    by vm_compute.
  - rewrite (cache_breakpoints (sample_ir MessagesCodec_id) _ request_headers) by (by vm_compute).
    by vm_compute.
Defined.

(** ** Defects of the request codec *)

(** The encoder panics exactly on a tool choice that is an object of type
    [function] without the member [function]: it indexes the map instead of
    the value.  The Responses API writes its tool choice in this form. *)
Theorem flat_tool_choice_panics ir p :
  encode_request ir = Err p <->
  p = MissingKey
  /\ is_ok (validate_response_format_for_target (response_format ir) MessagesCodec_id) = true
  /\ exists m, extensions ir !! "tool_choice" = Some (Obj m)
       /\ (assoc "type" m ≫= as_str) = Some "function" /\ assoc "function" m = None.
Proof.
  unfold encode_request. destruct (validate_response_format_for_target _ _); cbn [is_ok]; [|naive_solver].
  unfold encode_body. destruct (extensions ir !! "tool_choice") as [tc|]; cbn [mbind result_bind]; [|naive_solver].
  unfold encode_tool_choice, map_index.
  destruct tc as [| | | | |m]; cbn [mbind result_bind]; try naive_solver.
  destruct (bool_decide _) eqn:E.
  - apply bool_decide_eq_true in E. destruct (assoc "function" m) eqn:Ef; cbn; naive_solver.
  - apply bool_decide_eq_false in E. cbn. naive_solver.
Qed.

Lemma flat_tool_choice_panics_witness :
  encode_request
    {| model := "m"; system := None; messages := []; tools := [];
       params := GenerationParams_default; response_format := None; stream := false;
       ingress_protocol := ProtocolSuite.default_endpoint OpenAiResponses; metadata := None;
       extensions := <["tool_choice" := obj [("type", Str "function"); ("name", Str "f")]]> ∅ |}
  = Err MissingKey.
Proof.
  apply (proj2 (flat_tool_choice_panics _ MissingKey)). split; [done|]. split; [done|].
  eexists. cbn [extensions]. rewrite lookup_insert_eq. by split_and!.
Defined.

(** A conversation from another protocol whose last text is empty gets its
    cache breakpoint on that empty text, which the provider refuses; the
    guard exists for the system text only. *)
Theorem empty_text_gets_breakpoint `{SerdeJson} :
  let body := obj [("messages", Arr [obj [("role", Str "user"); ("content", Str "")]])] in
  match ChatRequest.decode_request body with
  | Ok ir => encode_messages ir
             = [obj [("role", Str "user");
                     ("content", Arr [obj [("type", Str "text"); ("text", Str "");
                                           ("cache_control", cache_mark)]])]]
  | Err _ => False
  end.
Proof. by lazy. Qed.

(** A redacted thinking block of a request is kept as reasoning without a
    signature, which the encoder then drops. *)
Lemma redacted_thinking_is_dropped `{SerdeJson} data :
  decode_block (obj [("type", Str "redacted_thinking"); ("data", Str data)])
  = Some (CReasoning data None None None)
  /\ encode_block (CReasoning data None None None) = None.
Proof. by split. Qed.

(** ** Responses *)

Definition relayed_block (c : Content) : option Content :=
  match c with
  | CText text _ _ => Some (plain_text text)
  | CReasoning text signature _ None => Some (CReasoning text signature None None)
  | CReasoning _ _ _ (Some encrypted) => Some (CReasoning "" None None (Some encrypted))
  | CToolCall id name arguments call_id _ _ =>
      Some (CToolCall (default id call_id) name arguments None None None)
  | _ => None
  end.

Definition relayed_usage (u : Usage) : Usage := {|
  prompt_tokens := prompt_tokens u; completion_tokens := completion_tokens u;
  reasoning_tokens := None; cache_read_tokens := cache_read_tokens u;
  cache_write_tokens := cache_write_tokens u;
  total_tokens := sum_tokens (prompt_tokens u) (default 0 (cache_write_tokens u))
                    (default 0 (cache_read_tokens u)) (completion_tokens u) |}.

(** The reason a response carries: its stop details decide if it has any. *)
Definition sent_stop_reason (ir : IrResponse) : option string :=
  match r_stop_details ir with
  | Some sd => Some (stop_reason sd)
  | None => stop_reason_str <$> r_finish_reason ir
  end.

Lemma decode_blocks (l : list Content) :
  omap decode_response_block (omap response_block l) = omap relayed_block l.
Proof.
  induction l as [|c l IH]; [done|].
  destruct c as [|t [sig|] ? [enc|]| | | | | |]; cbn -[decode_response_block]; rewrite <- IH; done.
Qed.

Definition response_member (ir : IrResponse) (k : string) : option Value :=
  if String.eqb k "usage" then usage_json <$> r_usage ir
  else if String.eqb k "stop_details" then r_stop_details ir ≫= stop_details_json
  else if String.eqb k "stop_sequence"
  then Str <$> (r_stop_details ir ≫= stop_sequence)
  else if String.eqb k "stop_reason" then Str <$> sent_stop_reason ir
  else if String.eqb k "content" then Some (Arr (omap response_block (r_content ir)))
  else if String.eqb k "id" then Str <$> r_response_id ir
  else if String.eqb k "model" then Some (Str "")
  else if String.eqb k "role" then Some (Str "assistant")
  else if String.eqb k "type" then Some (Str "message") else None.

Lemma get_encode_response ir body k :
  encode_response ir = Ok body -> get k body = response_member ir k.
Proof.
  unfold encode_response, response_member, sent_stop_reason. intros [= <-].
  destruct (r_stop_details ir) as [sd|]; cbn [mbind option_bind fmap option_fmap option_map].
  - rewrite !get_set_opt_if, get_set_if, get_set_opt_if, get_set_if, get_set_opt_if, get_obj
      by auto 12 with body.
    rewrite !or_else_if; try done; try last_key.
    by destruct (String.eqb k "stop_reason").
  - rewrite !get_set_opt_if, get_set_if, get_set_opt_if, get_obj by auto 12 with body.
    rewrite !or_else_if; try done; try last_key.
    destruct (String.eqb_spec k "usage") as [->|]; [done|].
    destruct (String.eqb_spec k "stop_reason") as [->|]; [by destruct (r_finish_reason ir)|].
    destruct (String.eqb_spec k "content") as [->|]; [done|].
    destruct (String.eqb_spec k "stop_details") as [->|]; [done|].
    destruct (String.eqb_spec k "stop_sequence") as [->|]; done.
Qed.

Lemma usage_roundtrip u body :
  get "usage" body = Some (usage_json u) -> Messages.decode_usage body = Some (relayed_usage u).
Proof.
  intros Hb. unfold decode_usage. rewrite Hb. unfold usage_json.
  assert (forall o o' p c,
    let j := set_opt "cache_creation_input_tokens" (json_u64 <$> o')
               (set_opt "cache_read_input_tokens" (json_u64 <$> o)
                  (obj [("input_tokens", json_u64 p); ("output_tokens", json_u64 c)])) in
    (if is_object j && (is_u64 j.["input_tokens"] || is_u64 j.["output_tokens"]
        || is_u64 j.["total_tokens"] || is_u64 j.["cache_creation_input_tokens"]
        || is_u64 j.["cache_read_input_tokens"]) then Some (usage_of j) else None)
    = Some {| prompt_tokens := p; completion_tokens := c; reasoning_tokens := None;
              cache_read_tokens := o; cache_write_tokens := o';
              total_tokens := sum_tokens p (default 0 o') (default 0 o) c |}) as Hj.
  { intros [r|] [w|] p c; lazy -[sum_tokens]; done. }
  cbv zeta in Hj. by rewrite Hj.
Qed.

(** What a response keeps on the way through a Messages body: every text,
    thinking block and tool call in its order, with signatures, redacted data
    and call ids; the stop reason and the structured stop details; the usage
    with both cache counts and the total computed again.  Refusals, media and
    the other kinds of content are dropped. *)
Theorem messages_response_roundtrip ir body :
  encode_response ir = Ok body ->
  exists ir', decode_response body = Ok ir'
    /\ r_content ir' = omap relayed_block (r_content ir)
    /\ r_usage ir' = relayed_usage <$> r_usage ir
    /\ r_finish_reason ir' = decode_stop_reason <$> sent_stop_reason ir
    /\ r_response_id ir' = r_response_id ir
    /\ (forall sd, r_stop_details ir = Some sd -> r_stop_details ir' = Some sd).
Proof.
  intros Hb. eexists. split; [reflexivity|].
  cbn [r_content r_usage r_finish_reason r_response_id r_stop_details].
  unfold index. rewrite !(get_encode_response _ _ _ Hb). split_and!.
  - cbn. apply decode_blocks.
  - destruct (r_usage ir) as [u|] eqn:E.
    + apply usage_roundtrip. rewrite (get_encode_response _ _ _ Hb). cbn. by rewrite E.
    + unfold decode_usage. rewrite (get_encode_response _ _ _ Hb). cbn. by rewrite E.
  - cbn. by destruct (sent_stop_reason ir).
  - cbn. by destruct (r_response_id ir).
  - intros sd Hsd. unfold decode_stop_details, index. rewrite !(get_encode_response _ _ _ Hb).
    unfold response_member, sent_stop_reason. rewrite Hsd.
    destruct sd as [reason [q|] [k|] [c|] [e|]]; done.
Qed.

Lemma messages_response_roundtrip_witness :
  exists ir', decode_response (match encode_response
    {| r_content := [CReasoning "" None None (Some "opaque"); CText "hi" None None;
                     CToolCall "fc_1" "f" (obj []) (Some "call_1") None None];
       r_usage := Some Usage_default; r_finish_reason := Some ContentFilter;
       r_response_id := Some "msg_1";
       r_stop_details := Some {| stop_reason := "refusal"; stop_sequence := None;
                                 sd_kind := Some "refusal"; sd_category := None;
                                 explanation := Some "policy" |};
       r_extensions := ∅ |} with Ok b => b | Err _ => Null end) = Ok ir'
    /\ r_content ir' = [CReasoning "" None None (Some "opaque"); CText "hi" None None;
                        CToolCall "call_1" "f" (obj []) None None None]
    /\ r_finish_reason ir' = Some ContentFilter.
Proof.
  match goal with |- context [encode_response ?r] =>
    destruct (messages_response_roundtrip r _ eq_refl) as (ir' & Hd & Hc & _ & Hf & _);
    exists ir'; split; [exact Hd|]; split; [exact Hc|exact Hf]
  end.
Defined.
