(* ===== verification/MessagesStream.v ===== *)
(** * MessagesStream: the streaming codec of Anthropic Messages

    [MessagesStreamEncoder] and [MessagesStreamDecoder] of
    [crates/protocols/src/messages.rs]: the server-sent events of a Messages
    stream from and to the stream parts.  The encoder keeps one content block
    open at a time; the decoder keeps the id of the tool call of each block.
    Events are pairs of a name and a body until they are written. *)

From stdpp Require Import base option list gmap strings.
From Stdlib Require Import ZArith Lia Ascii.
From S2P Require Import Prelude RustStr F64 Json JsonBody Telemetry Protocol Classify Ir StructuredOutput Sse ChatRequest Messages.

Local Open Scope string_scope.
Local Open Scope list_scope.
Local Open Scope Z_scope.

(** The table [error_type_for_class]. *)
Definition error_type_for_class (c : ErrorClass) : string :=
  match c with
  | Transient => "api_error"
  | RateLimited => "rate_limit_error"
  | Auth => "authentication_error"
  | BadRequest => "invalid_request_error"
  | LossyOrCapability => "invalid_request_error"
  | ModelNotFound => "not_found_error"
  | DeadlineExceeded => "timeout_error"
  | UpstreamExhausted => "overloaded_error"
  | AuthMissing => "authentication_error"
  | AuthInvalid => "authentication_error"
  | AuthDisabled => "permission_error"
  | ModelAccessDenied => "permission_error"
  | Overloaded => "overloaded_error"
  end.

(** ** The encoder *)

Abbreviation Event := (string * Value)%type.

Record Encoder := {
  message_started : bool;
  current_index : option Z;
  current_kind : option string;
  next_index : Z;
  last_usage : option Usage;
  pending_stop_reason : option string;
}.

Definition Encoder_new : Encoder := {|
  message_started := false; current_index := None; current_kind := None; next_index := 0;
  last_usage := None; pending_stop_reason := None |}.

Definition block_stop (idx : Z) : Event :=
  ("content_block_stop", obj [("type", Str "content_block_stop"); ("index", json_u64 idx)]).

Definition block_start (idx : Z) (content_block : Value) : Event :=
  ("content_block_start",
   obj [("type", Str "content_block_start"); ("index", json_u64 idx);
        ("content_block", content_block)]).

Definition block_delta (idx : Z) (delta : Value) : Event :=
  ("content_block_delta",
   obj [("type", Str "content_block_delta"); ("index", json_u64 idx); ("delta", delta)]).

Definition message_delta (stop_reason : option string) (usage : Value) : Event :=
  ("message_delta",
   obj [("type", Str "message_delta");
        ("delta", obj [("stop_reason", json_opt_str stop_reason); ("stop_sequence", Null)]);
        ("usage", usage)]).

Definition message_stop : Event := ("message_stop", obj [("type", Str "message_stop")]).

Definition close_block (e : Encoder) : list Event * Encoder :=
  match current_index e with
  | Some idx =>
      ([block_stop idx],
       {| message_started := message_started e; current_index := None; current_kind := None;
          next_index := next_index e; last_usage := last_usage e;
          pending_stop_reason := pending_stop_reason e |})
  | None => ([], e)
  end.

Definition open_block (kind : string) (content_block : Value) (e : Encoder)
    : list Event * Encoder :=
  let idx := next_index e in
  ([block_start idx content_block],
   {| message_started := message_started e; current_index := Some idx; current_kind := Some kind;
      next_index := wrap64 (idx + 1); last_usage := last_usage e;
      pending_stop_reason := pending_stop_reason e |}).

Definition ensure_block (kind : string) (content_block : Value) (e : Encoder)
    : list Event * Encoder :=
  if bool_decide (current_kind e = Some kind) then ([], e)
  else
    let '(out, e) := close_block e in
    let '(out', e) := open_block kind content_block e in
    (out ++ out', e).

Definition usage_delta (usage : Usage) (stop_reason : option string) : Event :=
  let usage_obj := obj [("output_tokens", json_u64 (completion_tokens usage))] in
  let usage_obj := if 0 <? prompt_tokens usage
                   then set "input_tokens" (json_u64 (prompt_tokens usage)) usage_obj
                   else usage_obj in
  let usage_obj := set_opt "cache_creation_input_tokens"
                     (json_u64 <$> cache_write_tokens usage) usage_obj in
  let usage_obj := set_opt "cache_read_input_tokens"
                     (json_u64 <$> cache_read_tokens usage) usage_obj in
  message_delta stop_reason usage_obj.

Definition with_usage (u : option Usage) (pending : option string) (e : Encoder) : Encoder :=
  {| message_started := message_started e; current_index := current_index e;
     current_kind := current_kind e; next_index := next_index e; last_usage := u;
     pending_stop_reason := pending |}.

Definition stream_stop_reason (r : FinishReason) : string :=
  match r with
  | Stop => "end_turn"
  | LengthReason => "max_tokens"
  | ToolCalls => "tool_use"
  | _ => "end_turn"
  end.

Definition text_delta (text : string) : Value := obj [("type", Str "text_delta"); ("text", Str text)].
Definition thinking_delta (text : string) : Value :=
  obj [("type", Str "thinking_delta"); ("thinking", Str text)].
Definition json_delta (text : string) : Value :=
  obj [("type", Str "input_json_delta"); ("partial_json", Str text)].

Definition text_block : Value := obj [("type", Str "text"); ("text", Str "")].
Definition thinking_block : Value := obj [("type", Str "thinking"); ("thinking", Str "")].
Definition tool_block (id name : string) : Value :=
  obj [("type", Str "tool_use"); ("id", Str id); ("name", Str name); ("input", obj [])].

Definition error_event (message : string) (c : ErrorClass) : Event :=
  ("error", obj [("type", Str "error");
                 ("error", obj [("type", Str (error_type_for_class c)); ("message", Str message)])]).

Definition start_event (id : string) : Event :=
  ("message_start",
   obj [("type", Str "message_start");
        ("message", obj [("id", Str id); ("type", Str "message"); ("role", Str "assistant");
                         ("model", Str ""); ("content", Arr [])])]).

(** The events of one part. *)
Definition part_events (e : Encoder) (part : StreamPart) : list Event * Encoder :=
  match part with
  | ResponseStarted id =>
      ([start_event id],
       {| message_started := true; current_index := current_index e;
          current_kind := current_kind e; next_index := next_index e;
          last_usage := last_usage e; pending_stop_reason := pending_stop_reason e |})
  | TextDelta text =>
      let '(out, e) := ensure_block "text" text_block e in
      (out ++ [block_delta (default 0 (current_index e)) (text_delta text)], e)
  | ReasoningDelta text _ _ =>
      let '(out, e) := ensure_block "thinking" thinking_block e in
      (out ++ [block_delta (default 0 (current_index e)) (thinking_delta text)], e)
  | ToolCallDelta id (Some n) arguments _ _ _ =>
      let '(out, e) := close_block e in
      let '(out', e) := open_block "tool_use" (tool_block id n) e in
      (out ++ out'
       ++ (if is_empty arguments then []
           else [block_delta (default 0 (current_index e)) (json_delta arguments)]), e)
  | ToolCallDelta _ None arguments _ _ _ =>
      ([block_delta (default 0 (current_index e)) (json_delta arguments)], e)
  | ProgramDelta _ _ _ _ | ProgramOutputDelta _ _ _ _ => ([], e)
  | UsagePart usage =>
      ([usage_delta usage (pending_stop_reason e)], with_usage (Some usage) None e)
  | FinishPart reason =>
      let stop_reason := stream_stop_reason reason in
      let '(out, e) := close_block e in
      match last_usage e with
      | Some u => (out ++ [usage_delta u (Some stop_reason)], e)
      | None => (out, with_usage None (Some stop_reason) e)
      end
  | ResponseCompleted _ _ _ _ =>
      let '(out, e) := close_block e in
      let pending := match pending_stop_reason e with
                     | Some r => [message_delta (Some r) (obj [("output_tokens", json_u64 0)])]
                     | None => []
                     end in
      (out ++ pending ++ [message_stop], with_usage (last_usage e) None e)
  | ErrorPart message class _ => ([error_event message class], e)
  end.

Section Write.
Context `{SerdeJson}.

Definition render (ev : Event) : string :=
  "event: " +:+ fst ev +:+ String LF ("data: " +:+ to_string (snd ev) +:+ blank_line).

Definition render_all (l : list Event) : string := String.concat "" (map render l).

Definition encode_part (e : Encoder) (part : StreamPart) : string * Encoder :=
  let '(out, e) := part_events e part in (render_all out, e).

Definition encode_error (message : string) (c : ErrorClass) : string :=
  render (error_event message c).
End Write.

Definition quote : string := String (chr 34) "".

Definition encode_done : string :=
  "event: message_stop" +:+ String LF ("data: {" +:+ quote +:+ "type" +:+ quote +:+ ":"
    +:+ quote +:+ "message_stop" +:+ quote +:+ "}" +:+ blank_line).

(** ** The decoder *)

Record Decoder := {
  response_id : option string;
  current_block_type : option string;
  tool_use_ids : list string;
  saw_finish : bool;
  saw_tool_use : bool;
  usage_acc : option Usage;
}.

Definition Decoder_new : Decoder := {|
  response_id := None; current_block_type := None; tool_use_ids := []; saw_finish := false;
  saw_tool_use := false; usage_acc := None |}.

(** The size in memory of a [String]. *)
Definition string_bytes : Z := 24.

Definition set_tool_use_id (l : list string) (index : Z) (id : string) : run (list string) :=
  l ← (if Z.of_nat (length l) <=? index then
         let new_len := wrap64 (index + 1) in
         if i64_max <? new_len * string_bytes then Err CapacityOverflow
         else Ok (resize (Z.to_nat new_len) "" l)
       else Ok l);
  if index <? Z.of_nat (length l) then Ok (<[Z.to_nat index := id]> l) else Err OutOfBounds.

Definition tool_use_id (l : list string) (index : Z) : string :=
  default "" (if index <? Z.of_nat (length l) then l !! Z.to_nat index else None).

Definition merge_usage (acc : option Usage) (incoming : Usage) : Usage :=
  let merged := default Usage_default acc in
  let prompt := if (0 <? prompt_tokens incoming) || (prompt_tokens merged =? 0)
                then prompt_tokens incoming else prompt_tokens merged in
  let completion := if (0 <? completion_tokens incoming) || (completion_tokens merged =? 0)
                    then completion_tokens incoming else completion_tokens merged in
  let cache_read := or_else (cache_read_tokens incoming) (cache_read_tokens merged) in
  let cache_write := or_else (cache_write_tokens incoming) (cache_write_tokens merged) in {|
  prompt_tokens := prompt; completion_tokens := completion;
  reasoning_tokens := or_else (reasoning_tokens incoming) (reasoning_tokens merged);
  cache_read_tokens := cache_read; cache_write_tokens := cache_write;
  total_tokens := sum_tokens prompt (default 0 cache_write) (default 0 cache_read) completion |}.

(** The usage of a frame, whose total is not used. *)
Definition frame_usage (u : Value) : Usage :=
  let input := default 0 (as_u64 u.["input_tokens"]) in
  let output := default 0 (as_u64 u.["output_tokens"]) in
  let cache_creation := default 0 (as_u64 u.["cache_creation_input_tokens"]) in
  let cache_read := default 0 (as_u64 u.["cache_read_input_tokens"]) in {|
  prompt_tokens := input; completion_tokens := output;
  reasoning_tokens := as_u64 u.["output_tokens_details"].["thinking_tokens"];
  cache_read_tokens := present_u64 "cache_read_input_tokens" u;
  cache_write_tokens := present_u64 "cache_creation_input_tokens" u;
  total_tokens := sum_tokens input cache_creation cache_read output |}.

Definition with_frame_usage (d : Decoder) (u : Value) : list StreamPart * Decoder :=
  if is_object u then
    let usage := merge_usage (usage_acc d) (frame_usage u) in
    ([UsagePart usage],
     {| response_id := response_id d; current_block_type := current_block_type d;
        tool_use_ids := tool_use_ids d; saw_finish := saw_finish d;
        saw_tool_use := saw_tool_use d; usage_acc := Some usage |})
  else ([], d).

Definition set_block_type (d : Decoder) (t : option string) : Decoder := {|
  response_id := response_id d; current_block_type := t; tool_use_ids := tool_use_ids d;
  saw_finish := saw_finish d; saw_tool_use := saw_tool_use d; usage_acc := usage_acc d |}.

Definition set_finished (d : Decoder) : Decoder := {|
  response_id := response_id d; current_block_type := current_block_type d;
  tool_use_ids := tool_use_ids d; saw_finish := true; saw_tool_use := saw_tool_use d;
  usage_acc := usage_acc d |}.

(** Unlike [decode_stop_reason] of a whole response. *)
Definition stream_finish (reason : string) : FinishReason :=
  if String.eqb reason "end_turn" then Stop
  else if String.eqb reason "stop_sequence" then Stop
  else if String.eqb reason "max_tokens" then LengthReason
  else if String.eqb reason "tool_use" then ToolCalls
  else OtherReason reason.

Definition call_delta (id : string) (name : option string) (arguments : string) : StreamPart :=
  ToolCallDelta id name arguments None None None.

Definition decode_message_start (d : Decoder) (event : Value) : list StreamPart * Decoder :=
  let '(started, d) :=
    match as_str event.["message"].["id"] with
    | Some id =>
        ([ResponseStarted id],
         {| response_id := Some id; current_block_type := current_block_type d;
            tool_use_ids := tool_use_ids d; saw_finish := saw_finish d;
            saw_tool_use := saw_tool_use d; usage_acc := usage_acc d |})
    | None => ([], d)
    end in
  let '(parts, d) := with_frame_usage d event.["message"].["usage"] in
  (started ++ parts, d).

Definition text_of_block (o : option string) (part : string -> StreamPart) : list StreamPart :=
  match o with Some t => [part t] | None => [] end.

Definition reasoning_delta (text : string) : StreamPart := ReasoningDelta text None None.

Definition decode_block_start (d : Decoder) (event : Value) : run (list StreamPart * Decoder) :=
  let block := event.["content_block"] in
  let index := default 0 (as_u64 event.["index"]) in
  let d := set_block_type d (as_str block.["type"]) in
  match as_str block.["type"] with
  | Some t =>
      if String.eqb t "tool_use" then
        let id := str_or "" block.["id"] in
        ids ← set_tool_use_id (tool_use_ids d) index id;
        Ok ([call_delta id (as_str block.["name"]) ""],
            {| response_id := response_id d; current_block_type := current_block_type d;
               tool_use_ids := ids; saw_finish := saw_finish d; saw_tool_use := true;
               usage_acc := usage_acc d |})
      else if String.eqb t "text" then Ok (text_of_block (as_str block.["text"]) TextDelta, d)
      else if String.eqb t "thinking" then
        Ok (text_of_block (as_str block.["thinking"]) reasoning_delta, d)
      else Ok ([], d)
  | None => Ok ([], d)
  end.

Definition decode_block_delta (d : Decoder) (event : Value) : list StreamPart :=
  let delta := event.["delta"] in
  let index := default 0 (as_u64 event.["index"]) in
  match as_str delta.["type"] with
  | Some t =>
      if String.eqb t "text_delta" then text_of_block (as_str delta.["text"]) TextDelta
      else if String.eqb t "thinking_delta" then
        text_of_block (as_str delta.["thinking"]) reasoning_delta
      else if String.eqb t "input_json_delta" then
        text_of_block (as_str delta.["partial_json"])
          (call_delta (tool_use_id (tool_use_ids d) index) None)
      else []
  | None => []
  end.

Definition decode_message_delta (d : Decoder) (event : Value) : list StreamPart * Decoder :=
  let '(parts, d) := with_frame_usage d event.["usage"] in
  match as_str event.["delta"].["stop_reason"] with
  | Some reason => (parts ++ [FinishPart (stream_finish reason)], set_finished d)
  | None => (parts, d)
  end.

Definition decode_message_stop (d : Decoder) : list StreamPart * Decoder :=
  let '(parts, d) :=
    if saw_finish d then ([], d)
    else ([FinishPart (if saw_tool_use d then ToolCalls else Stop)], set_finished d) in
  (parts ++ [ResponseCompleted (default "" (response_id d)) "completed" None ∅], d).

Section Read.
Context `{SerdeJson} `{Lowercase}.

Definition decode_error (event : Value) : StreamPart :=
  let code := as_str event.["error"].["type"] in
  ErrorPart (str_or "Unknown error" event.["error"].["message"])
    (classify_upstream_error None code) code.

Definition decode_event (d : Decoder) (event : Value) : run (list StreamPart * Decoder) :=
  match as_str event.["type"] with
  | Some t =>
      if String.eqb t "message_start" then Ok (decode_message_start d event)
      else if String.eqb t "content_block_start" then decode_block_start d event
      else if String.eqb t "content_block_delta" then Ok (decode_block_delta d event, d)
      else if String.eqb t "content_block_stop" then Ok ([], set_block_type d None)
      else if String.eqb t "message_delta" then Ok (decode_message_delta d event)
      else if String.eqb t "message_stop" then Ok (decode_message_stop d)
      else if String.eqb t "error" then Ok ([decode_error event], d)
      else Ok ([], d)
  | None => Ok ([], d)
  end.

Definition feed (d : Decoder) (line : string) : run (result Error (list StreamPart) * Decoder) :=
  let line := trim line in
  match strip_prefix "data: " line with
  | None => Ok (Ok [], d)
  | Some data =>
      match from_str data with
      | None => Ok (Err (ECodec ("Failed to parse Anthropic SSE: " +:+ from_str_error data)), d)
      | Some event => '(parts, d) ← decode_event d event; Ok (Ok parts, d)
      end
  end.

Definition finish (d : Decoder) : result Error (list StreamPart) := Ok [].
End Read.
