(* ===== verification/MessagesStreamProps.v ===== *)
(** * MessagesStreamProps: what a Messages stream keeps

    Reading what the encoder writes, the discipline of its content blocks, and
    the defects of the two halves. *)

From stdpp Require Import base option list gmap strings.
From Stdlib Require Import ZArith Lia Ascii.
From S2P Require Import Prelude RustStr F64 Json JsonBody Telemetry Protocol Classify Ir StructuredOutput Sse ChatRequest Messages MessagesStream.

Local Open Scope string_scope.
Local Open Scope list_scope.
Local Open Scope Z_scope.

Fixpoint stream_events (e : Encoder) (parts : list StreamPart) : list Event :=
  match parts with
  | [] => []
  | p :: r => let '(out, e) := part_events e p in out ++ stream_events e r
  end.

Definition encode_parts `{SerdeJson} (parts : list StreamPart) : string :=
  render_all (stream_events Encoder_new parts).

(** ** The discipline of the blocks *)

(** A client that follows the protocol: the open block, and the number of the
    next one. *)
Record Client := { open_at : option (Z * string); expected : Z }.

Definition Client_new : Client := {| open_at := None; expected := 0 |}.

(** The deltas a kind of block takes. *)
Definition delta_of_kind (kind : string) : string :=
  if String.eqb kind "text" then "text_delta"
  else if String.eqb kind "thinking" then "thinking_delta" else "input_json_delta".

Definition accept (c : Client) (ev : Event) : option Client :=
  let v := snd ev in
  let idx := default (-1) (as_u64 v.["index"]) in
  if String.eqb (fst ev) "content_block_start" then
    if bool_decide (open_at c = None) && (idx =? expected c) then
      Some {| open_at := Some (idx, str_or "" v.["content_block"].["type"]);
              expected := wrap64 (expected c + 1) |}
    else None
  else if String.eqb (fst ev) "content_block_delta" then
    match open_at c with
    | Some (i, kind) =>
        if (i =? idx) && String.eqb (str_or "" v.["delta"].["type"]) (delta_of_kind kind)
        then Some c else None
    | None => None
    end
  else if String.eqb (fst ev) "content_block_stop" then
    match open_at c with
    | Some (i, _) => if i =? idx then Some {| open_at := None; expected := expected c |} else None
    | None => None
    end
  else if String.eqb (fst ev) "message_delta" then
    if is_null v.["delta"].["stop_reason"] || bool_decide (open_at c = None) then Some c else None
  else if String.eqb (fst ev) "message_stop" then
    if bool_decide (open_at c = None) then Some c else None
  else Some c.

Fixpoint accept_all (c : Client) (l : list Event) : option Client :=
  match l with [] => Some c | ev :: r => accept c ev ≫= fun c => accept_all c r end.

(** Fragments of arguments come while a call is open, and no content comes
    after the finish reason. *)
Fixpoint in_sequence (call ended : bool) (parts : list StreamPart) : bool :=
  match parts with
  | [] => true
  | p :: r =>
      match p with
      | TextDelta _ | ReasoningDelta _ _ _ => negb ended && in_sequence false ended r
      | ToolCallDelta _ (Some _) _ _ _ _ => negb ended && in_sequence true ended r
      | ToolCallDelta _ None _ _ _ _ => call && negb ended && in_sequence call ended r
      | FinishPart _ => in_sequence false true r
      | ResponseCompleted _ _ _ _ => in_sequence false ended r
      | _ => in_sequence call ended r
      end
  end.

(** The client and the encoder agree, and a stop reason waits only after the
    end of the content. *)
Definition agree (call ended : bool) (e : Encoder) (c : Client) : Prop :=
  expected c = next_index e
  /\ open_at c = match current_index e, current_kind e with
                 | Some i, Some k => Some (i, k)
                 | _, _ => None
                 end
  /\ (current_index e = None <-> current_kind e = None)
  /\ (call = true -> exists i, current_index e = Some i /\ current_kind e = Some "tool_use")
  /\ (pending_stop_reason e <> None -> ended = true)
  /\ (ended = true -> current_index e = None).

Ltac agree_solve :=
  unfold agree, with_usage in *; cbn in *; destruct_and?; split_and!; try done; auto;
  intros; try done; try congruence; auto;
  repeat match goal with H : current_index _ = _ |- _ => rewrite ?H; clear H end; auto.

Lemma accept_app c l1 l2 : accept_all c (l1 ++ l2) = accept_all c l1 ≫= fun c => accept_all c l2.
Proof. revert c. induction l1 as [|ev l1 IH]; intros c; [done|]. cbn. destruct (accept c ev); [apply IH|done]. Qed.

Lemma accept_start c idx block :
  accept c (block_start idx block)
  = if bool_decide (open_at c = None) && (idx =? expected c) then
      Some {| open_at := Some (idx, str_or "" block.["type"]); expected := wrap64 (expected c + 1) |}
    else None.
Proof. reflexivity. Qed.

Lemma accept_delta c idx delta :
  accept c (block_delta idx delta)
  = match open_at c with
    | Some (i, kind) =>
        if (i =? idx) && String.eqb (str_or "" delta.["type"]) (delta_of_kind kind)
        then Some c else None
    | None => None
    end.
Proof. reflexivity. Qed.

Lemma accept_stop c idx :
  accept c (block_stop idx)
  = match open_at c with
    | Some (i, _) => if i =? idx then Some {| open_at := None; expected := expected c |} else None
    | None => None
    end.
Proof. reflexivity. Qed.

Lemma accept_message_delta c reason usage :
  accept c (message_delta reason usage)
  = if is_none reason || bool_decide (open_at c = None) then Some c else None.
Proof. by destruct reason. Qed.

Lemma close_agree call ended e c :
  agree call ended e c ->
  exists c', accept_all c (fst (close_block e)) = Some c'
    /\ agree false ended (snd (close_block e)) c' /\ current_index (snd (close_block e)) = None.
Proof.
  intros (Hn & Ho & Hk & Hc & Hp & He). unfold close_block.
  destruct (current_index e) as [i|] eqn:Ei.
  - destruct (current_kind e) as [k|] eqn:Ek; [|by pose proof (proj2 Hk eq_refl)].
    exists {| open_at := None; expected := expected c |}. cbn [fst snd accept_all].
    rewrite accept_stop, Ho, Z.eqb_refl. agree_solve.
  - exists c. cbn [fst snd]. rewrite Ei. agree_solve.
Qed.

Lemma open_agree kind block e c call :
  agree call false e c -> current_index e = None -> str_or "" block.["type"] = kind ->
  exists c', accept_all c (fst (open_block kind block e)) = Some c'
    /\ agree (String.eqb kind "tool_use") false (snd (open_block kind block e)) c'.
Proof.
  intros (Hn & Ho & Hk & Hc & Hp & He) Hi Hb. unfold open_block. cbn [fst snd].
  exists {| open_at := Some (next_index e, kind); expected := wrap64 (next_index e + 1) |}.
  cbn [accept_all]. rewrite accept_start, Ho, Hi, Hn, Hb, Z.eqb_refl. split; [done|].
  unfold agree. cbn -[wrap64 String.eqb]. split_and!; try done.
  intros ->%String.eqb_eq. eauto.
Qed.

Lemma ensure_agree kind block e c call :
  agree call false e c -> str_or "" block.["type"] = kind -> kind <> "tool_use" ->
  let '(out, e') := ensure_block kind block e in
  exists c', accept_all c out = Some c' /\ agree false false e' c'
    /\ exists i, current_index e' = Some i /\ current_kind e' = Some kind.
Proof.
  intros Ha Hb Hk. unfold ensure_block. destruct (bool_decide _) eqn:E.
  - apply bool_decide_eq_true in E. exists c. split; [done|].
    destruct Ha as (Hn & Ho & Hk' & Hc & Hp & He).
    destruct (current_index e) as [i|] eqn:Ei; [|by rewrite (proj1 Hk' eq_refl) in E].
    split; [|eauto]. rewrite ?Ei. agree_solve.
  - destruct (close_agree _ _ _ _ Ha) as (c1 & H1 & Ha1 & Hi).
    destruct (close_block e) as [out e1]. cbn [fst snd] in *.
    destruct (open_agree kind block e1 c1 false Ha1 Hi Hb) as (c2 & H2 & Ha2).
    unfold open_block in *. cbn [fst snd] in *. exists c2. split_and!.
    + by rewrite accept_app, H1.
    + by rewrite (proj2 (String.eqb_neq _ _) Hk) in Ha2.
    + cbn. eauto.
Qed.

Lemma delta_agree call ended e c delta i kind :
  agree call ended e c -> current_index e = Some i -> current_kind e = Some kind ->
  str_or "" delta.["type"] = delta_of_kind kind ->
  accept_all c [block_delta (default 0 (current_index e)) delta] = Some c.
Proof.
  intros (_ & Ho & _) Hi Hk Hd. cbn [accept_all]. rewrite accept_delta, Ho, Hi, Hk, Hd. cbn [default].
  unfold id. by rewrite Z.eqb_refl, String.eqb_refl.
Qed.

Lemma text_agree call e c kind block delta :
  agree call false e c -> str_or "" block.["type"] = kind -> kind <> "tool_use" ->
  str_or "" delta.["type"] = delta_of_kind kind ->
  let '(out, e') := ensure_block kind block e in
  exists c', accept_all c (out ++ [block_delta (default 0 (current_index e')) delta]) = Some c'
    /\ agree false false e' c'.
Proof.
  intros Ha Hb Hk Hd. pose proof (ensure_agree kind block e c call Ha Hb Hk) as He.
  destruct (ensure_block kind block e) as [out e']. destruct He as (c1 & H1 & Ha1 & i & Hi & Hki).
  exists c1. split; [|done]. rewrite accept_app, H1. cbn [mbind option_bind].
  by eapply delta_agree.
Qed.

Lemma tool_agree call e c id n args :
  agree call false e c ->
  let '(out, e') := part_events e (ToolCallDelta id (Some n) args None None None) in
  exists c', accept_all c out = Some c' /\ agree true false e' c'.
Proof.
  intros Ha. cbn [part_events].
  destruct (close_agree _ _ _ _ Ha) as (c1 & H1 & Ha1 & Hi).
  destruct (close_block e) as [out e1]. cbn [fst snd] in *.
  destruct (open_agree "tool_use" (tool_block id n) e1 c1 false Ha1 Hi eq_refl) as (c2 & H2 & Ha2).
  unfold open_block in *. cbn [fst snd] in *. exists c2. split; [|done].
  rewrite accept_app, H1. cbn [mbind option_bind]. rewrite accept_app, H2. cbn [mbind option_bind].
  destruct (is_empty args); [done|]. by eapply delta_agree.
Qed.

Lemma event_step call ended e c p :
  agree call ended e c -> in_sequence call ended [p] = true ->
  let '(out, e') := part_events e p in
  exists c' call' ended', accept_all c out = Some c' /\ agree call' ended' e' c'
    /\ forall r, in_sequence call ended (p :: r) = true -> in_sequence call' ended' r = true.
Proof.
  intros Ha Hs. destruct p as [t|t i en|id [n|] args wt it ca| | |u|id|r|rid status u x|m cl code].
  - cbn in Hs. rewrite andb_true_r in Hs. apply negb_true_iff in Hs as ->. cbn [part_events].
    pose proof (text_agree call e c "text" text_block (text_delta t) Ha eq_refl
                  ltac:(discriminate) eq_refl) as Ht.
    destruct (ensure_block _ _ _) as [out e']. destruct Ht as (c' & ? & ?).
    exists c', false, false. auto.
  - cbn in Hs. rewrite andb_true_r in Hs. apply negb_true_iff in Hs as ->. cbn [part_events].
    pose proof (text_agree call e c "thinking" thinking_block (thinking_delta t) Ha eq_refl
                  ltac:(discriminate) eq_refl) as Ht.
    destruct (ensure_block _ _ _) as [out e']. destruct Ht as (c' & ? & ?).
    exists c', false, false. auto.
  - cbn in Hs. rewrite andb_true_r in Hs. apply negb_true_iff in Hs as ->.
    pose proof (tool_agree call e c id n args Ha) as Ht. cbn [part_events] in *.
    destruct (close_block e) as [out e1]. destruct (open_block _ _ _) as [out' e2].
    destruct Ht as (c' & ? & ?). exists c', true, false. auto.
  - cbn in Hs. rewrite andb_true_r in Hs. apply andb_prop in Hs as [-> ->%negb_true_iff].
    cbn [part_events]. exists c, true, false. split; [|auto].
    destruct Ha as (? & ? & ? & Hc & ?). destruct (Hc eq_refl) as (i & Hi & Hk).
    eapply (delta_agree true false); [|done|done|done]. agree_solve.
  - exists c, call, ended. auto.
  - exists c, call, ended. auto.
  - cbn [part_events]. exists c, call, ended. split; [|split; [|auto]].
    + cbn [accept_all usage_delta]. unfold usage_delta. rewrite accept_message_delta.
      destruct Ha as (_ & Ho & _ & _ & Hp & He). destruct (pending_stop_reason e) as [s|]; [|done].
      rewrite bool_decide_eq_true_2; [done|]. rewrite Ho, He by (by apply Hp). done.
    + agree_solve.
  - cbn [part_events]. exists c, call, ended. split; [done|]. split; [|auto].
    agree_solve.
  - cbn [part_events]. destruct (close_agree _ _ _ _ Ha) as (c1 & H1 & Ha1 & Hi).
    destruct (close_block e) as [out e1]. cbn [fst snd] in *.
    destruct (last_usage e1) as [u|].
    + exists c1, false, true. split_and!; [| |auto].
      * rewrite accept_app, H1. cbn [mbind option_bind accept_all]. unfold usage_delta.
        rewrite accept_message_delta. destruct Ha1 as (_ & Ho & _). rewrite Ho, Hi. done.
      * agree_solve.
    + exists c1, false, true. split_and!; [done| |auto]. agree_solve.
  - cbn [part_events]. destruct (close_agree _ _ _ _ Ha) as (c1 & H1 & Ha1 & Hi).
    destruct (close_block e) as [out e1]. cbn [fst snd] in *.
    exists c1, false, ended. split_and!; [| |auto].
    + rewrite accept_app, H1. cbn [mbind option_bind].
      assert (accept_all c1 [message_stop] = Some c1) as Hstop.
      { destruct Ha1 as (_ & Ho & _). cbn [accept_all]. unfold accept. cbn. by rewrite Ho, Hi. }
      destruct (pending_stop_reason e1) as [s|]; [|done].
      change (accept_all c1 ([message_delta (Some s) (obj [("output_tokens", json_u64 0)])]
                             ++ [message_stop]) = Some c1).
      rewrite accept_app. cbn [accept_all]. rewrite accept_message_delta, bool_decide_eq_true_2.
      { done. }
      destruct Ha1 as (_ & Ho & _). by rewrite Ho, Hi.
    + agree_solve.
  - exists c, call, ended. auto.
Qed.

Lemma events_accepted parts call ended e c :
  agree call ended e c -> in_sequence call ended parts = true ->
  exists c', accept_all c (stream_events e parts) = Some c'.
Proof.
  revert call ended e c. induction parts as [|p r IH]; intros call ended e c Ha Hs; [by exists c|].
  assert (in_sequence call ended [p] = true) as Hp.
  { destruct p as [| |? [] ? ? ? ?| | | | | | |]; cbn in *; bool_prop; subst; try done;
      try (by destruct ended); by destruct call, ended. }
  pose proof (event_step call ended e c p Ha Hp) as Hstep. cbn [stream_events].
  destruct (part_events e p) as [out e']. destruct Hstep as (c1 & call' & ended' & H1 & Ha1 & Hr).
  destruct (IH call' ended' e' c1 Ha1 (Hr r Hs)) as [c' Hc']. exists c'.
  rewrite accept_app, H1. cbn [mbind option_bind]. done.
Qed.

Lemma agree_new : agree false false Encoder_new Client_new.
Proof. unfold agree. cbn. split_and!; done. Qed.

(** C32: The events of a stream follow the protocol's discipline: blocks are
    numbered from zero without a gap, at most one is open, every delta names
    the open block and has its kind, and the stop reason and the end of the
    message come only when no block is open.  The parts may come in any order,
    with any number of tool calls, as long as fragments of arguments come
    while a call is open and no content comes after the finish reason. *)
Theorem messages_stream_disciplined parts :
  in_sequence false false parts = true ->
  exists c, accept_all Client_new (stream_events Encoder_new parts) = Some c.
Proof. apply events_accepted, agree_new. Qed.

Definition sample_parts : list StreamPart :=
  [ResponseStarted "msg_1"; ReasoningDelta "think" None None; TextDelta "hel"; TextDelta "lo";
   ToolCallDelta "a" (Some "f") "{" None None None; ToolCallDelta "a" None "}" None None None;
   ToolCallDelta "b" (Some "g") "" None None None; FinishPart ToolCalls;
   UsagePart {| prompt_tokens := 7; completion_tokens := 2; reasoning_tokens := None;
                cache_read_tokens := Some 3; cache_write_tokens := None; total_tokens := 12 |};
   ResponseCompleted "msg_1" "completed" None ∅].

Lemma messages_stream_disciplined_witness :
  (exists c, accept_all Client_new (stream_events Encoder_new sample_parts) = Some c)
  /\ map fst (stream_events Encoder_new sample_parts)
     = ["message_start"; "content_block_start"; "content_block_delta"; "content_block_stop";
        "content_block_start"; "content_block_delta"; "content_block_delta"; "content_block_stop";
        "content_block_start"; "content_block_delta"; "content_block_delta"; "content_block_stop";
        "content_block_start"; "content_block_stop"; "message_delta"; "message_stop"].
Proof. split; [|by vm_compute]. by apply (messages_stream_disciplined sample_parts). Defined.

(** Fragments of two calls that are interleaved, as other protocols send
    them, go to the call opened last whatever id they carry; and a fragment
    after a text goes into the text block. *)
Theorem interleaved_fragments_misattributed a b x y :
  a <> b ->
  stream_events Encoder_new
    [call_delta a (Some "f") ""; call_delta b (Some "g") ""; call_delta a None x]
  = [block_start 0 (tool_block a "f"); block_stop 0; block_start 1 (tool_block b "g");
     block_delta 1 (json_delta x)]
  /\ accept_all Client_new
       (stream_events Encoder_new [call_delta a (Some "f") ""; TextDelta y; call_delta a None x])
     = None.
Proof. by split. Qed.

Lemma interleaved_fragments_misattributed_witness :
  stream_events Encoder_new
    [call_delta "a" (Some "f") ""; call_delta "b" (Some "g") ""; call_delta "a" None "{}"]
  = [block_start 0 (tool_block "a" "f"); block_stop 0; block_start 1 (tool_block "b" "g");
     block_delta 1 (json_delta "{}")].
Proof. by apply (interleaved_fragments_misattributed "a" "b" "{}" ""). Defined.

(** A refusal that is streamed loses its reason, in both halves; in a whole
    response it is kept. *)
Lemma streamed_refusal_lost :
  stream_finish "refusal" = OtherReason "refusal" /\ decode_stop_reason "refusal" = ContentFilter
  /\ stream_stop_reason ContentFilter = "end_turn" /\ stop_reason_str ContentFilter = "content_filter".
Proof. done. Qed.

(** ** Reading the events *)

Section Reading.
Context `{J : SerdeJson} `{!SerdeJsonLaws J} `{Lowercase}.

Fixpoint decode_events (d : Decoder) (l : list Event) : run (list StreamPart * Decoder) :=
  match l with
  | [] => Ok ([], d)
  | ev :: r =>
      '(parts, d) ← decode_event d (snd ev);
      '(rest, d) ← decode_events d r;
      Ok (parts ++ rest, d)
  end.

Lemma decode_events_app d l1 l2 :
  decode_events d (l1 ++ l2)
  = '(p1, d) ← decode_events d l1; '(p2, d) ← decode_events d l2; Ok (p1 ++ p2, d).
Proof.
  revert d. induction l1 as [|ev l1 IH]; intros d; cbn.
  - by destruct (decode_events d l2) as [[]|].
  - destruct (decode_event d (snd ev)) as [[p d1]|]; [|done]. cbn. rewrite IH.
    destruct (decode_events d1 l1) as [[p1 d2]|]; [|done]. cbn.
    destruct (decode_events d2 l2) as [[p2 d3]|]; [|done]. cbn. by rewrite app_assoc.
Qed.

(** An event the printer writes exactly, with a name that is skipped. *)
Definition event_ok (ev : Event) : bool :=
  is_object (snd ev) && exact (snd ev) && negb (contains_char LF (fst ev))
  && match strip_prefix "data: " (trim ("event: " +:+ fst ev)) with Some _ => false | None => true end.

Lemma feed_name d name :
  strip_prefix "data: " (trim ("event: " +:+ name)) = None -> feed d ("event: " +:+ name) = Ok (Ok [], d).
Proof. intros Hn. unfold feed. by rewrite Hn. Qed.

Lemma feed_nothing_new d : feed d "" = Ok (Ok [], d).
Proof. done. Qed.

Lemma feed_rendered d ev rest :
  event_ok ev = true ->
  feed_lines feed d (split LF (render ev +:+ rest))
  = then_lines feed ('(parts, d) ← decode_event d (snd ev); Ok (Ok parts, d)) (split LF rest).
Proof.
  destruct ev as [name v]. unfold event_ok. cbn [fst snd].
  destruct (strip_prefix "data: " (trim _)) eqn:En; [by rewrite andb_false_r|].
  rewrite andb_true_r. intros [[Ho Hx]%andb_prop Hn%negb_true_iff]%andb_prop.
  destruct v as [| | | | |m]; try done. destruct (to_string_braces m) as [s Hs].
  unfold render. cbn [fst snd].
  replace (("event: " +:+ name +:+ String LF ("data: " +:+ to_string (Obj m) +:+ blank_line)) +:+ rest)
    with (("event: " +:+ name) +:+ String LF (("data: " +:+ to_string (Obj m)) +:+ blank_line +:+ rest)).
  2: { rewrite !str_app_assoc. by rewrite (str_app_cons LF), !str_app_assoc. }
  rewrite feed_skip; [|by apply feed_name|].
  2: { rewrite contains_app, Hn. done. }
  rewrite (feed_event _ feed_nothing_new).
  2: { rewrite contains_app, to_string_one_line. done. }
  f_equal. unfold feed. rewrite trim_data.
  2: { rewrite Hs, ends_with_app, ends_with_app. by destruct s. }
  by rewrite strip_prefix_app, from_to_string.
Qed.

Lemma render_all_cons ev l rest :
  render_all (ev :: l) +:+ rest = render ev +:+ (render_all l +:+ rest).
Proof.
  unfold render_all. cbn [map]. rewrite <- str_app_assoc. f_equal.
  destruct (map render l); [by rewrite str_app_nil_r|done].
Qed.

Lemma feed_events d l rest :
  forallb event_ok l = true ->
  feed_lines feed d (split LF (render_all l +:+ rest))
  = then_lines feed ('(parts, d) ← decode_events d l; Ok (Ok parts, d)) (split LF rest).
Proof.
  revert d. induction l as [|ev l IH]; intros d.
  - intros _. cbn [decode_events mbind result_bind]. by rewrite feed_nothing.
  - cbn [forallb]. intros [Hev Hl]%andb_prop. rewrite render_all_cons, feed_rendered by done.
    cbn [decode_events]. destruct (decode_event d (snd ev)) as [[p d1]|]; [|done].
    unfold then_lines at 1. cbn [mbind result_bind]. rewrite IH by done.
    destruct (decode_events d1 l) as [[q d2]|]; [|done]. unfold then_lines. cbn [mbind result_bind].
    destruct (feed_lines feed d2 (split LF rest)) as [[[q'|] d3]|]; [|done..]. cbn.
    by rewrite app_assoc.
Qed.
End Reading.

(** ** What a stream becomes on its way through the wire *)

(** The id of each block (empty for a text), the kind of the open one, and
    what both halves remember. *)
Record Relay := {
  blocks : list string;
  opened : option string;
  known : option string;
  acc : option Usage;
  last_sent : option Usage;
  waiting : option string;
  finished : bool;
  tools_seen : bool;
}.

Definition Relay_new : Relay := {|
  blocks := []; opened := None; known := None; acc := None; last_sent := None; waiting := None;
  finished := false; tools_seen := false |}.

Definition open_relay (kind id : string) (tool : bool) (st : Relay) : Relay := {|
  blocks := blocks st ++ [id]; opened := Some kind; known := known st; acc := acc st;
  last_sent := last_sent st; waiting := waiting st; finished := finished st;
  tools_seen := tools_seen st || tool |}.

Definition close_relay (st : Relay) : Relay := {|
  blocks := blocks st; opened := None; known := known st; acc := acc st;
  last_sent := last_sent st; waiting := waiting st; finished := finished st;
  tools_seen := tools_seen st |}.

(** The number of the block a fragment is sent to. *)
Definition target (st : Relay) : nat :=
  match opened st with Some _ => pred (length (blocks st)) | None => 0%nat end.

(** The usage as the frame carries it. *)
Definition sent_usage (u : Usage) : Usage := {|
  prompt_tokens := prompt_tokens u; completion_tokens := completion_tokens u;
  reasoning_tokens := None; cache_read_tokens := cache_read_tokens u;
  cache_write_tokens := cache_write_tokens u;
  total_tokens := sum_tokens (prompt_tokens u) (default 0 (cache_write_tokens u))
                    (default 0 (cache_read_tokens u)) (completion_tokens u) |}.

(** A usage frame, with the stop reason it carries. *)
Definition relay_usage (u : Usage) (reason : option string) (st : Relay)
    : list StreamPart * Relay :=
  let merged := merge_usage (acc st) (sent_usage u) in
  (UsagePart merged :: match reason with Some r => [FinishPart (stream_finish r)] | None => [] end,
   {| blocks := blocks st; opened := opened st; known := known st; acc := Some merged;
      last_sent := last_sent st; waiting := waiting st;
      finished := match reason with Some _ => true | None => finished st end;
      tools_seen := tools_seen st |}).

Definition remember (u : option Usage) (reason : option string) (st : Relay) : Relay := {|
  blocks := blocks st; opened := opened st; known := known st; acc := acc st; last_sent := u;
  waiting := reason; finished := finished st; tools_seen := tools_seen st |}.

Definition relay_delta (kind : string) (empty part : StreamPart) (st : Relay)
    : list StreamPart * Relay :=
  if bool_decide (opened st = Some kind) then ([part], st)
  else ([empty; part], open_relay kind "" false st).

Definition relay_part `{Lowercase} (st : Relay) (p : StreamPart) : list StreamPart * Relay :=
  match p with
  | ResponseStarted id =>
      ([ResponseStarted id],
       {| blocks := blocks st; opened := opened st; known := Some id; acc := acc st;
          last_sent := last_sent st; waiting := waiting st; finished := finished st;
          tools_seen := tools_seen st |})
  | TextDelta t => relay_delta "text" (TextDelta "") (TextDelta t) st
  | ReasoningDelta t _ _ => relay_delta "thinking" (reasoning_delta "") (reasoning_delta t) st
  | ToolCallDelta id (Some n) args _ _ _ =>
      (call_delta id (Some n) "" :: (if is_empty args then [] else [call_delta id None args]),
       open_relay "tool_use" id true st)
  | ToolCallDelta _ None args _ _ _ =>
      ([call_delta (default "" (blocks st !! target st)) None args], st)
  | ProgramDelta _ _ _ _ | ProgramOutputDelta _ _ _ _ => ([], st)
  | UsagePart u =>
      let '(out, st') := relay_usage u (waiting st) st in (out, remember (Some u) None st')
  | FinishPart r =>
      let reason := stream_stop_reason r in
      let st := close_relay st in
      match last_sent st with
      | Some u => relay_usage u (Some reason) st
      | None => ([], remember None (Some reason) st)
      end
  | ResponseCompleted _ _ _ _ =>
      let st := close_relay st in
      let '(out, st') := match waiting st with
                         | Some r => relay_usage Usage_default (Some r) st
                         | None => ([], st)
                         end in
      (out ++ (if finished st' then []
               else [FinishPart (if tools_seen st' then ToolCalls else Stop)])
       ++ [ResponseCompleted (default "" (known st')) "completed" None ∅],
       {| blocks := blocks st'; opened := None; known := known st'; acc := acc st';
          last_sent := last_sent st'; waiting := None; finished := true;
          tools_seen := tools_seen st' |})
  | ErrorPart message c _ =>
      let code := error_type_for_class c in
      ([ErrorPart message (classify_upstream_error None (Some code)) (Some code)], st)
  end.

Fixpoint relay `{Lowercase} (st : Relay) (parts : list StreamPart) : list StreamPart :=
  match parts with
  | [] => []
  | p :: r => let '(out, st) := relay_part st p in out ++ relay st r
  end.

Record linked (st : Relay) (e : Encoder) (d : Decoder) : Prop := {
  lk_index : current_index e = match opened st with
                               | Some _ => Some (Z.of_nat (pred (length (blocks st))))
                               | None => None
                               end;
  lk_kind : current_kind e = opened st;
  lk_next : next_index e = Z.of_nat (length (blocks st));
  lk_last : last_usage e = last_sent st;
  lk_pending : pending_stop_reason e = waiting st;
  lk_known : response_id d = known st;
  lk_ids : forall i, default "" (tool_use_ids d !! i) = default "" (blocks st !! i);
  lk_finish : saw_finish d = finished st;
  lk_tools : saw_tool_use d = tools_seen st;
  lk_acc : usage_acc d = acc st;
}.

Definition in_capacity (k : nat) : Prop := (Z.of_nat k + 1) * string_bytes <= i64_max.

Lemma set_id_ok l k id :
  in_capacity k ->
  set_tool_use_id l (Z.of_nat k) id = Ok (<[k := id]> (resize (Nat.max (length l) (S k)) "" l)).
Proof.
  unfold in_capacity, set_tool_use_id, string_bytes, i64_max. intros Hk.
  destruct (Z.leb_spec (Z.of_nat (length l)) (Z.of_nat k)).
  - assert (wrap64 (Z.of_nat k + 1) = Z.of_nat k + 1) as ->
      by (unfold wrap64; apply Z.mod_small; lia).
    destruct (Z.ltb_spec 9223372036854775807 ((Z.of_nat k + 1) * 24)); [lia|].
    cbn [mbind result_bind]. rewrite length_resize.
    replace (Z.to_nat (Z.of_nat k + 1)) with (S k) by lia. rewrite Nat.max_r by lia.
    destruct (Z.ltb_spec (Z.of_nat k) (Z.of_nat (S k))); [|lia]. by rewrite Nat2Z.id.
  - cbn [mbind result_bind]. rewrite Nat.max_l by lia. rewrite resize_all.
    destruct (Z.ltb_spec (Z.of_nat k) (Z.of_nat (length l))); [|lia]. by rewrite Nat2Z.id.
Qed.

Lemma ids_lookup l k id i :
  default "" (<[k := id]> (resize (Nat.max (length l) (S k)) "" l) !! i)
  = if decide (i = k) then id else default "" (l !! i).
Proof.
  destruct (decide (i = k)) as [->|Hi].
  - rewrite list_lookup_insert_eq; [done|]. rewrite length_resize. lia.
  - rewrite list_lookup_insert_ne by done.
    destruct (decide (i < length l)%nat) as [Hlt|Hge].
    + by rewrite lookup_resize by lia.
    + rewrite (lookup_ge_None_2 l) by lia.
      destruct (decide (i < Nat.max (length l) (S k))%nat).
      * by rewrite lookup_resize_new by lia.
      * by rewrite lookup_resize_old by lia.
Qed.

Lemma blocks_lookup (l : list string) id i :
  default "" ((l ++ [id]) !! i) = if decide (i = length l) then id else default "" (l !! i).
Proof.
  destruct (decide (i = length l)) as [->|Hi]; [by rewrite list_lookup_middle|].
  destruct (decide (i < length l)%nat).
  - by rewrite lookup_app_l.
  - rewrite lookup_app_r by lia. rewrite (lookup_ge_None_2 l) by lia.
    rewrite lookup_ge_None_2; [done|]. cbn. lia.
Qed.

Definition usage_fits (u : Usage) : Prop :=
  in_u64 (prompt_tokens u) = true /\ in_u64 (completion_tokens u) = true
  /\ (forall n, cache_read_tokens u = Some n -> in_u64 n = true)
  /\ (forall n, cache_write_tokens u = Some n -> in_u64 n = true).

Definition part_fits (p : StreamPart) : Prop :=
  match p with UsagePart u => usage_fits u | _ => True end.

Section Link.
Context `{J : SerdeJson} `{!SerdeJsonLaws J} `{Lowercase}.

Lemma decode_start d idx kind block part :
  (kind, block, part) ∈ [("text", text_block, TextDelta "");
                         ("thinking", thinking_block, reasoning_delta "")] ->
  decode_event d (snd (block_start idx block)) = Ok ([part], set_block_type d (Some kind)).
Proof. intros [[= -> -> ->]|[[= -> -> ->]|[]%elem_of_nil]%elem_of_cons]%elem_of_cons; reflexivity. Qed.

Lemma decode_tool_start d idx id n :
  decode_event d (snd (block_start idx (tool_block id n)))
  = ids ← set_tool_use_id (tool_use_ids d) idx id;
    Ok ([call_delta id (Some n) ""],
        {| response_id := response_id d; current_block_type := Some "tool_use";
           tool_use_ids := ids; saw_finish := saw_finish d; saw_tool_use := true;
           usage_acc := usage_acc d |}).
Proof. reflexivity. Qed.

Lemma decode_text_delta d idx t : decode_event d (snd (block_delta idx (text_delta t))) = Ok ([TextDelta t], d).
Proof. reflexivity. Qed.

Lemma decode_thinking_delta d idx t :
  decode_event d (snd (block_delta idx (thinking_delta t))) = Ok ([reasoning_delta t], d).
Proof. reflexivity. Qed.

Lemma decode_fragment d idx t :
  decode_event d (snd (block_delta idx (json_delta t)))
  = Ok ([call_delta (tool_use_id (tool_use_ids d) idx) None t], d).
Proof. reflexivity. Qed.

Lemma decode_stop d idx : decode_event d (snd (block_stop idx)) = Ok ([], set_block_type d None).
Proof. reflexivity. Qed.

Definition usage_body (u : Usage) : Value :=
  set_opt "cache_read_input_tokens" (json_u64 <$> cache_read_tokens u)
    (set_opt "cache_creation_input_tokens" (json_u64 <$> cache_write_tokens u)
       (if 0 <? prompt_tokens u
        then set "input_tokens" (json_u64 (prompt_tokens u))
               (obj [("output_tokens", json_u64 (completion_tokens u))])
        else obj [("output_tokens", json_u64 (completion_tokens u))])).

Lemma read_usage u : 0 <= prompt_tokens u -> frame_usage (usage_body u) = sent_usage u.
Proof.
  intros Hp. unfold usage_body, sent_usage. 
  destruct u as [p c rt [r|] [w|] t]; cbn [prompt_tokens completion_tokens cache_read_tokens
    cache_write_tokens] in *; destruct (Z.ltb_spec 0 p);
    try (assert (p = 0) as -> by lia); lazy -[sum_tokens]; reflexivity.
Qed.

Lemma usage_body_object u : is_object (usage_body u) = true.
Proof. unfold usage_body. destruct (0 <? prompt_tokens u); auto 6 with body. Qed.

Lemma decode_usage_delta d st u reason :
  0 <= prompt_tokens u -> usage_acc d = acc st ->
  decode_event d (snd (usage_delta u reason))
  = Ok (fst (relay_usage u reason st),
        {| response_id := response_id d; current_block_type := current_block_type d;
           tool_use_ids := tool_use_ids d;
           saw_finish := match reason with Some _ => true | None => saw_finish d end;
           saw_tool_use := saw_tool_use d;
           usage_acc := acc (snd (relay_usage u reason st)) |}).
Proof.
  intros Hp Ha.
  change (decode_event d (snd (usage_delta u reason)))
    with (Ok (E := panic) (decode_message_delta d
            (obj [("type", Str "message_delta");
                  ("delta", obj [("stop_reason", json_opt_str reason); ("stop_sequence", Null)]);
                  ("usage", usage_body u)]))).
  unfold decode_message_delta, with_frame_usage.
  change (index (obj _) "usage") with (usage_body u).
  rewrite usage_body_object, read_usage, Ha by done. by destruct reason.
Qed.

Lemma linked_block_type st e d t : linked st e d -> linked st e (set_block_type d t).
Proof. by destruct 1. Qed.

(** A number of a block is written exactly. *)
Lemma small_exact k : in_capacity k -> (0 <=? Z.of_nat k) && (Z.of_nat k <=? u64_max) = true.
Proof.
  unfold in_capacity, string_bytes, i64_max, u64_max. intros Hk.
  apply andb_true_intro. split; apply Z.leb_le; lia.
Qed.

Lemma capacity_le k n : in_capacity n -> (k <= n)%nat -> in_capacity k.
Proof. unfold in_capacity, string_bytes. lia. Qed.

Lemma start_ok k block :
  in_capacity k -> exact block = true -> event_ok (block_start (Z.of_nat k) block) = true.
Proof.
  intros Hk Hb.
  change (block_start (Z.of_nat k) block)
    with ("content_block_start", Obj [("content_block", block); ("index", json_u64 (Z.of_nat k));
                                      ("type", Str "content_block_start")]).
  unfold event_ok. cbn -[Z.leb u64_max]. by rewrite Hb, small_exact.
Qed.

Lemma delta_ok k delta :
  in_capacity k -> exact delta = true -> event_ok (block_delta (Z.of_nat k) delta) = true.
Proof.
  intros Hk Hb.
  change (block_delta (Z.of_nat k) delta)
    with ("content_block_delta", Obj [("delta", delta); ("index", json_u64 (Z.of_nat k));
                                      ("type", Str "content_block_delta")]).
  unfold event_ok. cbn -[Z.leb u64_max]. by rewrite Hb, small_exact.
Qed.

Lemma stop_ok k : in_capacity k -> event_ok (block_stop (Z.of_nat k)) = true.
Proof.
  intros Hk.
  change (block_stop (Z.of_nat k))
    with ("content_block_stop", Obj [("index", json_u64 (Z.of_nat k));
                                     ("type", Str "content_block_stop")]).
  unfold event_ok. cbn -[Z.leb u64_max]. by rewrite small_exact.
Qed.

Lemma usage_body_exact u : usage_fits u -> exact (usage_body u) = true.
Proof.
  intros (Hp & Hc & Hr & Hw). unfold usage_body.
  destruct u as [p c rt r w t]; cbn [prompt_tokens completion_tokens
    cache_read_tokens cache_write_tokens] in *.
  assert (forall n, in_u64 n = true -> exact (json_u64 n) = true) as Hn by done.
  apply Hn in Hp, Hc. clear Hn.
  assert (forall a b c d, exact b = true -> (forall v, a = Some v -> exact v = true) ->
            (forall v, c = Some v -> exact v = true) -> (forall v, d = Some v -> exact v = true) ->
            exact (set_opt "cache_read_input_tokens" a (set_opt "cache_creation_input_tokens" c
                     (set_opt "input_tokens" d (obj [("output_tokens", b)])))) = true) as Hset.
  { intros [a|] b [c'|] [d|] Hb Ha Hc' Hd; 
      first [specialize (Ha _ eq_refl)|clear Ha]; first [specialize (Hc' _ eq_refl)|clear Hc'];
      first [specialize (Hd _ eq_refl)|clear Hd];
      lazy -[exact andb]; cbn [exact forallb snd];
      repeat match goal with E : exact _ = true |- _ => rewrite E; clear E end; reflexivity. }
  assert (forall (o : option Z) v, (forall n, o = Some n -> in_u64 n = true) ->
            json_u64 <$> o = Some v -> exact v = true) as Ho.
  { intros [n|] v Hn [= <-]. exact (Hn n eq_refl). }
  destruct (0 <? p).
  - apply (Hset _ _ _ (Some _)); eauto. by intros v [= <-].
  - apply (Hset _ _ _ None); eauto. done.
Qed.

Lemma usage_event_ok u reason : usage_fits u -> event_ok (usage_delta u reason) = true.
Proof.
  intros Hu. apply usage_body_exact in Hu.
  change (usage_delta u reason)
    with ("message_delta",
          Obj [("delta", Obj [("stop_reason", json_opt_str reason); ("stop_sequence", Null)]);
               ("type", Str "message_delta"); ("usage", usage_body u)]).
  unfold event_ok. cbn -[usage_body]. rewrite Hu. by destruct reason.
Qed.

(** Closing the open block. *)
Lemma close_linked st e d :
  linked st e d -> in_capacity (length (blocks st)) ->
  exists d', decode_events d (fst (close_block e)) = Ok ([], d')
    /\ linked (close_relay st) (snd (close_block e)) d'
    /\ forallb event_ok (fst (close_block e)) = true.
Proof.
  intros Hl Hcap. pose proof Hl as []. unfold close_block. rewrite lk_index0.
  destruct (opened st) as [k|] eqn:Eo; cbn [fst snd].
  - exists (set_block_type d None). split; [done|]. split; [by constructor|].
    cbn [forallb]. rewrite stop_ok; [done|]. eapply capacity_le; [done|lia].
  - exists d. split; [done|]. split; [|done]. by constructor.
Qed.

Lemma open_linked st e d kind block id tool part :
  linked st e d -> opened st = None -> in_capacity (length (blocks st)) -> exact block = true ->
  (exists ids b t, decode_event d (snd (block_start (next_index e) block))
     = Ok ([part], {| response_id := response_id d; current_block_type := t;
                      tool_use_ids := ids; saw_finish := saw_finish d; saw_tool_use := b;
                      usage_acc := usage_acc d |})
     /\ b = tools_seen st || tool
     /\ forall i, default "" (ids !! i)
                  = if decide (i = length (blocks st)) then id else default "" (blocks st !! i)) ->
  exists d', decode_events d (fst (open_block kind block e)) = Ok ([part], d')
    /\ linked (open_relay kind id tool st) (snd (open_block kind block e)) d'
    /\ forallb event_ok (fst (open_block kind block e)) = true.
Proof.
  intros Hl Ho Hcap Hx (ids & b & t & Hd & Hb & Hids). pose proof Hl as [].
  unfold open_block. cbn [fst snd]. eexists. split; [|split].
  - cbn [decode_events mbind result_bind]. rewrite Hd. cbn [mbind result_bind]. done.
  - constructor; cbn; try done.
    + rewrite lk_next0, length_app. cbn. do 2 f_equal. lia.
    + rewrite lk_next0, length_app. cbn. unfold wrap64. rewrite Z.mod_small; [lia|].
      unfold in_capacity, string_bytes, i64_max in Hcap. lia.
    + intros i. by rewrite Hids, blocks_lookup.
  - cbn [forallb]. rewrite lk_next0, start_ok by done. done.
Qed.

Definition step_ok (st : Relay) (e : Encoder) (d : Decoder) (p : StreamPart) : Prop :=
  let '(out, e') := part_events e p in
  let '(parts, st') := relay_part st p in
  (length (blocks st') <= S (length (blocks st)))%nat
  /\ forallb event_ok out = true
  /\ exists d', linked st' e' d' /\ decode_events d out = Ok (parts, d').

Lemma target_capacity st : in_capacity (length (blocks st)) -> in_capacity (target st).
Proof. intros Hc. eapply capacity_le; [done|]. unfold target. destruct (opened st); lia. Qed.

Lemma index_target st e d :
  linked st e d -> default 0 (current_index e) = Z.of_nat (target st).
Proof. intros []. unfold target. rewrite lk_index0. by destruct (opened st). Qed.

(** A delta of a text or of a thought, in its block. *)
Lemma step_delta st e d kind block empty part delta :
  linked st e d -> in_capacity (length (blocks st)) ->
  (kind, block, empty) ∈ [("text", text_block, TextDelta "");
                          ("thinking", thinking_block, reasoning_delta "")] ->
  exact delta = true ->
  (forall d idx, decode_event d (snd (block_delta idx delta)) = Ok ([part], d)) ->
  let '(out, e') := ensure_block kind block e in
  let '(parts, st') := relay_delta kind empty part st in
  (length (blocks st') <= S (length (blocks st)))%nat
  /\ forallb event_ok (out ++ [block_delta (default 0 (current_index e')) delta]) = true
  /\ exists d', linked st' e' d'
       /\ decode_events d (out ++ [block_delta (default 0 (current_index e')) delta])
         = Ok (parts, d').
Proof.
  intros Hl Hcap Hin Hx Hd. unfold ensure_block, relay_delta.
  rewrite (lk_kind _ _ _ Hl). destruct (bool_decide _) eqn:E.
  - split; [lia|]. rewrite (index_target _ _ _ Hl). split.
    + cbn [app forallb]. by rewrite delta_ok by auto using target_capacity.
    + exists d. split; [done|]. cbn [app decode_events]. by rewrite Hd.
  - destruct (close_linked st e d Hl Hcap) as (d1 & Hd1 & Hl1 & Ho1).
    destruct (close_block e) as [out1 e1]. cbn [fst snd] in *.
    destruct (open_linked (close_relay st) e1 d1 kind block "" false empty Hl1 eq_refl Hcap)
      as (d2 & Hd2 & Hl2 & Ho2).
    { apply elem_of_cons in Hin as [[= -> -> ->]|Hin]; [done|].
      apply elem_of_cons in Hin as [[= -> -> ->]|[]%elem_of_nil]. done. }
    { exists (tool_use_ids d1), (saw_tool_use d1), (Some kind). split_and!.
      - rewrite (decode_start _ _ kind _ empty Hin). by destruct d1.
      - rewrite orb_false_r. apply Hl1.
      - intros i. destruct Hl1. rewrite lk_ids0. cbn.
        destruct (decide (i = length (blocks st))) as [->|]; [|done].
        by rewrite lookup_ge_None_2. }
    destruct (open_block kind block e1) as [out2 e2]. cbn [fst snd] in *.
    assert (in_capacity (length (blocks st)) -> blocks (open_relay kind "" false st) = blocks st ++ [""]) by done.
    split; [cbn; rewrite length_app; cbn; lia|]. rewrite (index_target _ _ _ Hl2). split.
    + rewrite !forallb_app, Ho1, Ho2. cbn [forallb].
      rewrite delta_ok; [done| |done]. eapply capacity_le; [done|]. cbn. rewrite length_app. cbn. lia.
    + exists d2. split; [done|]. rewrite !decode_events_app, Hd1. cbn [mbind result_bind].
      rewrite Hd2. cbn [mbind result_bind decode_events]. rewrite Hd. done.
Qed.

Lemma linked_id st e d k :
  linked st e d -> tool_use_id (tool_use_ids d) (Z.of_nat k) = default "" (blocks st !! k).
Proof.
  intros []. rewrite <- lk_ids0. unfold tool_use_id. rewrite Nat2Z.id.
  destruct (Z.ltb_spec (Z.of_nat k) (Z.of_nat (length (tool_use_ids d)))); [done|].
  by rewrite lookup_ge_None_2 by lia.
Qed.

Lemma step_call st e d id n args wt it ca :
  linked st e d -> in_capacity (length (blocks st)) ->
  step_ok st e d (ToolCallDelta id (Some n) args wt it ca).
Proof.
  intros Hl Hcap. unfold step_ok. cbn [part_events relay_part].
  destruct (close_linked st e d Hl Hcap) as (d1 & Hd1 & Hl1 & Ho1).
  destruct (close_block e) as [out1 e1]. cbn [fst snd] in *.
  destruct (open_linked (close_relay st) e1 d1 "tool_use" (tool_block id n) id true
              (call_delta id (Some n) "") Hl1 eq_refl Hcap) as (d2 & Hd2 & Hl2 & Ho2); [done| |].
  { pose proof Hl1 as []. eexists _, true, (Some "tool_use"). split_and!.
    - rewrite decode_tool_start, lk_next0, set_id_ok by done. reflexivity.
    - by rewrite orb_true_r.
    - intros i. rewrite ids_lookup. destruct (decide _); [done|]. apply lk_ids0. }
  destruct (open_block _ _ e1) as [out2 e2]. cbn [fst snd] in *.
  split; [cbn; rewrite length_app; cbn; lia|]. rewrite (index_target _ _ _ Hl2).
  assert (target (open_relay "tool_use" id true (close_relay st)) = length (blocks st)) as Ht.
  { cbn. rewrite length_app. cbn. lia. }
  rewrite Ht. split.
  - rewrite !forallb_app, Ho1, Ho2. destruct (is_empty args); [done|]. cbn [forallb].
    by rewrite delta_ok.
  - exists d2. split; [done|]. rewrite !decode_events_app, Hd1. cbn [mbind result_bind].
    rewrite decode_events_app, Hd2. cbn [mbind result_bind].
    destruct (is_empty args); [done|]. cbn [decode_events].
    rewrite decode_fragment, (linked_id _ _ _ _ Hl2). cbn [mbind result_bind app].
    cbn [blocks open_relay close_relay]. by rewrite list_lookup_middle.
Qed.

Lemma step_fragment st e d id args wt it ca :
  linked st e d -> in_capacity (length (blocks st)) ->
  step_ok st e d (ToolCallDelta id None args wt it ca).
Proof.
  intros Hl Hcap. unfold step_ok. cbn [part_events relay_part].
  rewrite (index_target _ _ _ Hl). split; [lia|]. split.
  - cbn [forallb]. by rewrite delta_ok by auto using target_capacity.
  - exists d. split; [done|]. cbn [decode_events].
    by rewrite decode_fragment, (linked_id _ _ _ _ Hl).
Qed.

Lemma step_counts st e d u :
  linked st e d -> usage_fits u -> step_ok st e d (UsagePart u).
Proof.
  intros Hl Hu. unfold step_ok. cbn [part_events relay_part]. pose proof Hl as [].
  rewrite lk_pending0. rewrite (surjective_pairing (relay_usage u (waiting st) st)).
  split; [cbn; lia|]. split; [cbn [forallb]; by rewrite usage_event_ok|].
  assert (0 <= prompt_tokens u) as Hp by (destruct Hu as (Hp & _); apply in_u64_iff in Hp; lia).
  eexists. split; [|cbn [decode_events]; rewrite (decode_usage_delta d st u (waiting st)) by done;
    cbn [mbind result_bind]; rewrite app_nil_r; reflexivity].
  constructor; cbn; try done. by destruct (waiting st).
Qed.

(** A usage frame that ends the message, when the block is closed. *)
Lemma finish_usage st e d u r :
  linked st e d -> usage_fits u ->
  event_ok (usage_delta u (Some r)) = true
  /\ exists d', linked (snd (relay_usage u (Some r) st)) e d'
       /\ decode_event d (snd (usage_delta u (Some r))) = Ok (fst (relay_usage u (Some r) st), d').
Proof.
  intros Hl Hu. split; [by apply usage_event_ok|]. pose proof Hl as [].
  assert (0 <= prompt_tokens u) as Hp by (destruct Hu as (Hp & _); apply in_u64_iff in Hp; lia).
  eexists. split; [|by apply decode_usage_delta]. by constructor.
Qed.

Definition last_fits (st : Relay) : Prop := forall u, last_sent st = Some u -> usage_fits u.

Lemma step_stop st e d r :
  linked st e d -> in_capacity (length (blocks st)) -> last_fits st ->
  step_ok st e d (FinishPart r).
Proof.
  intros Hl Hcap Hlast. unfold step_ok. cbn [part_events relay_part].
  destruct (close_linked st e d Hl Hcap) as (d1 & Hd1 & Hl1 & Ho1).
  destruct (close_block e) as [out1 e1]. cbn [fst snd] in *.
  rewrite (lk_last _ _ _ Hl1). change (last_sent (close_relay st)) with (last_sent st).
  destruct (last_sent st) as [u|] eqn:Eu.
  - destruct (finish_usage (close_relay st) e1 d1 u (stream_stop_reason r) Hl1 (Hlast u Eu))
      as (Hok & d2 & Hl2 & Hd2). cbn [relay_usage fst snd] in *.
    split; [cbn; lia|]. split; [rewrite forallb_app, Ho1; cbn [forallb]; by rewrite Hok|].
    exists d2. split; [done|]. rewrite decode_events_app, Hd1. cbn [mbind result_bind decode_events].
    by rewrite Hd2.
  - split; [cbn; lia|]. split; [done|]. exists d1. split; [|done].
    destruct Hl1. by constructor.
Qed.

Lemma zero_usage_event r :
  message_delta (Some r) (obj [("output_tokens", json_u64 0)]) = usage_delta Usage_default (Some r).
Proof. reflexivity. Qed.

Lemma step_completed st e d id s u x :
  linked st e d -> in_capacity (length (blocks st)) ->
  step_ok st e d (ResponseCompleted id s u x).
Proof.
  intros Hl Hcap. unfold step_ok. cbn [part_events relay_part].
  destruct (close_linked st e d Hl Hcap) as (d1 & Hd1 & Hl1 & Ho1).
  destruct (close_block e) as [out1 e1]. cbn [fst snd] in *.
  rewrite (lk_pending _ _ _ Hl1). change (waiting (close_relay st)) with (waiting st).
  assert (forall st2 e2 d2, linked st2 e2 d2 -> opened st2 = None ->
    exists d3, linked {| blocks := blocks st2; opened := None; known := known st2; acc := acc st2;
                         last_sent := last_sent st2; waiting := None; finished := true;
                         tools_seen := tools_seen st2 |} (with_usage (last_usage e2) None e2) d3
      /\ decode_event d2 (snd message_stop)
        = Ok ((if finished st2 then [] else [FinishPart (if tools_seen st2 then ToolCalls else Stop)])
              ++ [ResponseCompleted (default "" (known st2)) "completed" None ∅], d3)) as Hstop.
  { intros st2 e2 d2 [] Ho. 
    change (decode_event d2 (snd message_stop)) with (Ok (E := panic) (decode_message_stop d2)).
    unfold decode_message_stop. rewrite lk_finish0, lk_tools0.
    rewrite Ho in lk_index0, lk_kind0.
    destruct (finished st2) eqn:Ef; (eexists; split; [|by rewrite <- lk_known0]); by constructor. }
  assert (event_ok message_stop = true) as Hokstop by done.
  destruct (waiting st) as [r|] eqn:Ew.
  - rewrite zero_usage_event.
    destruct (finish_usage (close_relay st) e1 d1 Usage_default r Hl1) as (Hok & d2 & Hl2 & Hd2).
    { unfold usage_fits. cbn. split_and!; done. }
    destruct (Hstop _ _ _ Hl2 eq_refl) as (d3 & Hl3 & Hd3). cbn [relay_usage fst snd] in *.
    split; [cbn; lia|]. split.
    { rewrite !forallb_app, Ho1. cbn [forallb]. by rewrite Hok, Hokstop. }
    exists d3. split; [done|]. rewrite decode_events_app, Hd1. cbn [mbind result_bind app].
    cbn [decode_events]. rewrite Hd2. cbn [mbind result_bind]. rewrite Hd3. done.
  - destruct (Hstop _ _ _ Hl1 eq_refl) as (d3 & Hl3 & Hd3).
    split; [cbn; lia|]. split.
    { rewrite !forallb_app, Ho1. done. }
    exists d3. split; [done|]. rewrite decode_events_app, Hd1. cbn [mbind result_bind app].
    cbn [decode_events]. rewrite Hd3. cbn [mbind result_bind]. by rewrite app_nil_r.
Qed.
Lemma step_content kind block empty part delta st e d p :
  (forall e, part_events e p
     = let '(out, e) := ensure_block kind block e in
       (out ++ [block_delta (default 0 (current_index e)) delta], e)) ->
  (forall st, relay_part st p = relay_delta kind empty part st) ->
  linked st e d -> in_capacity (length (blocks st)) ->
  (kind, block, empty) ∈ [("text", text_block, TextDelta "");
                          ("thinking", thinking_block, reasoning_delta "")] ->
  exact delta = true ->
  (forall d idx, decode_event d (snd (block_delta idx delta)) = Ok ([part], d)) ->
  step_ok st e d p.
Proof.
  intros He Hr Hl Hcap Hin Hx Hd. unfold step_ok. rewrite He, Hr.
  pose proof (step_delta st e d kind block empty part delta Hl Hcap Hin Hx Hd) as Hs.
  by destruct (ensure_block kind block e), (relay_delta kind empty part st).
Qed.

Lemma step st e d p :
  linked st e d -> part_fits p -> in_capacity (length (blocks st)) -> last_fits st ->
  step_ok st e d p /\ last_fits (snd (relay_part st p)).
Proof.
  intros Hl Hp Hcap Hlast. split.
  - destruct p as [t|t i en|id [n|] args wt it ca| | |u|id|r|id s u x|m cl code];
      eauto using step_call, step_fragment, step_counts, step_stop, step_completed.
    + apply (step_content "text" text_block (TextDelta "") (TextDelta t) (text_delta t));
        [done..|by left|done|intros; apply decode_text_delta].
    + apply (step_content "thinking" thinking_block (reasoning_delta "") (reasoning_delta t)
               (thinking_delta t)); [done..|by right; left|done|intros; apply decode_thinking_delta].
    + split; [lia|]. split; [done|]. by exists d.
    + split; [lia|]. split; [done|]. by exists d.
    + split; [cbn; lia|]. split; [done|]. eexists. split; [|reflexivity].
      destruct Hl. by constructor.
    + split; [lia|]. split; [by destruct cl|]. exists d. split; [done|]. by destruct cl.
  - unfold last_fits in *.
    destruct p as [t|t i en|id [n|] args wt it ca| | |u|id|r|id s u x|m cl code]; cbn; try done.
    + unfold relay_delta. by destruct (bool_decide _).
    + unfold relay_delta. by destruct (bool_decide _).
    + intros u' [= <-]. done.
    + destruct (last_sent st) eqn:E; cbn; [|done]. by rewrite E.
    + by destruct (waiting st).
Qed.

Lemma relay_events parts st e d :
  linked st e d -> Forall part_fits parts -> last_fits st ->
  in_capacity (length (blocks st) + length parts) ->
  forallb event_ok (stream_events e parts) = true
  /\ exists d', decode_events d (stream_events e parts) = Ok (relay st parts, d').
Proof.
  revert st e d. induction parts as [|p parts IH]; intros st e d Hl Hp Hlast Hcap.
  - split; [done|]. by exists d.
  - apply Forall_cons in Hp as [Hp Hps]. cbn [length] in Hcap.
    destruct (step st e d p Hl Hp) as [Hstep Hlast']; [eapply capacity_le; [exact Hcap|lia]|done|].
    unfold step_ok in Hstep. cbn [stream_events relay].
    destruct (part_events e p) as [out e']. destruct (relay_part st p) as [q st'].
    destruct Hstep as (Hlen & Hok & d1 & Hl1 & Hd1).
    destruct (IH st' e' d1 Hl1 Hps Hlast') as (Hoks & d' & Hd'); [eapply capacity_le; [exact Hcap|lia]|].
    split; [by rewrite forallb_app, Hok|]. exists d'.
    rewrite decode_events_app, Hd1. cbn [mbind result_bind]. by rewrite Hd'.
Qed.

Lemma linked_start : linked Relay_new Encoder_new Decoder_new.
Proof. by constructor. Qed.
End Link.

(** C31: A Messages stream survives the wire up to what the wire can say. For
    parts whose usage counts fit 64 bits and that open fewer blocks than an
    index can number, the decoder fed with the lines of the produced bytes
    returns in order: texts and thoughts (with an empty delta where a block
    opens), tool calls with their ids, names and fragments (bound to the block
    that is open), the usage merged with what was sent before, the finish
    reason with the first usage that follows it, the error with its type, and
    the end of the message. A finish reason is Stop, LengthReason or
    ToolCalls; every other one, a content filter included, comes back as Stop,
    which is reported as a defect. Nothing panics and nothing fails to parse. *)
Theorem messages_stream_roundtrip `{J : SerdeJson} `{Lowercase} parts :
  SerdeJsonLaws J -> Forall part_fits parts -> in_capacity (length parts) ->
  exists d, feed_lines feed Decoder_new (split LF (encode_parts parts))
            = Ok (Ok (relay Relay_new parts), d).
Proof.
  intros HJ Hp Hc.
  destruct (relay_events parts Relay_new Encoder_new Decoder_new linked_start Hp) as (Hok & d & Hd);
    [done|done|]. exists d.
  pose proof (feed_events Decoder_new (stream_events Encoder_new parts) "" Hok) as Hf.
  rewrite str_app_nil_r in Hf. unfold encode_parts. rewrite Hf, Hd.
  unfold then_lines. cbn. by rewrite app_nil_r.
Qed.

Lemma messages_stream_roundtrip_witness :
  (exists d, feed_lines (@feed coded_json ascii_folding) Decoder_new
      (split LF (@encode_parts coded_json sample_parts))
    = Ok (Ok (@relay ascii_folding Relay_new sample_parts), d))
  /\ @relay ascii_folding Relay_new sample_parts
     = [ResponseStarted "msg_1"; reasoning_delta ""; reasoning_delta "think";
        TextDelta ""; TextDelta "hel"; TextDelta "lo";
        call_delta "a" (Some "f") ""; call_delta "a" None "{"; call_delta "a" None "}";
        call_delta "b" (Some "g") "";
        UsagePart {| prompt_tokens := 7; completion_tokens := 2; reasoning_tokens := None;
                     cache_read_tokens := Some 3; cache_write_tokens := None;
                     total_tokens := 12 |};
        FinishPart ToolCalls; ResponseCompleted "msg_1" "completed" None ∅].
Proof.
  split; [|by vm_compute].
  apply (@messages_stream_roundtrip coded_json ascii_folding sample_parts).
  - apply coded_json_laws.
  - repeat (apply Forall_cons_2; [cbn; try done|]); [|apply Forall_nil_2].
    unfold usage_fits. cbn. split_and!; try done; by intros n [= <-].
  - unfold in_capacity, string_bytes, i64_max. cbn. lia.
Defined.

(** A block number out of range panics the decoder, as in Chat Completions. *)
Lemma huge_block_index_panics d index id :
  i64_max < (index + 1) * string_bytes -> index < u64_max ->
  Z.of_nat (length (tool_use_ids d)) <= index ->
  decode_block_start d (snd (block_start index (tool_block id "f"))) = Err CapacityOverflow.
Proof.
  unfold string_bytes, i64_max, u64_max. intros Hi Hmax Hl.
  unfold decode_block_start. change (default 0 (as_u64 _)) with index.
  change (as_str _.["content_block"].["type"]) with (Some "tool_use"). cbn -[set_tool_use_id].
  unfold set_tool_use_id, string_bytes, i64_max.
  destruct (Z.leb_spec (Z.of_nat (length (tool_use_ids d))) index); [|lia].
  assert (wrap64 (index + 1) = index + 1) as -> by (unfold wrap64; apply Z.mod_small; lia).
  destruct (Z.ltb_spec 9223372036854775807 ((index + 1) * 24)); [done|lia].
Qed.
