(* ===== verification/GeminiSchema.v ===== *)
(** * GeminiSchema: JSON Schema to Gemini's OpenAPI subset

    [convert_json_schema_to_openapi] of [crates/protocols/src/gemini.rs], by
    recursion on a fuel of the depth of the schema ([convert_unfold] shows that
    it satisfies the recursion of the source), and what its results look
    like. *)

From stdpp Require Import base option list strings.
From Stdlib Require Import ZArith Lia Ascii.
From S2P Require Import Prelude RustStr F64 Json JsonBody Telemetry Protocol Classify Ir StructuredOutput.

Local Open Scope string_scope.
Local Open Scope list_scope.

Definition has_key (k : string) (m : list (string * Value)) : bool := negb (is_none (assoc k m)).

Definition type_is (t : string) (v : Value) : bool :=
  bool_decide ((as_object v ≫= assoc "type") ≫= as_str = Some t).

(** An object without properties. *)
Definition is_empty_object (obj : list (string * Value)) : bool :=
  bool_decide (assoc "type" obj ≫= as_str = Some "object")
  && match assoc "properties" obj with
     | Some p => match as_object p with Some [] | None => true | Some _ => false end
     | None => true
     end
  && negb (has_key "additionalProperties" obj).

Definition empty_object (obj : list (string * Value)) : Value :=
  Obj (insert_member "description" (assoc "description" obj) [("type", Str "object")]).

Definition is_null_name (t : Value) : bool := bool_decide (as_str t = Some "null").

Definition mark_nullable (types : list Value) (result : list (string * Value))
    : list (string * Value) :=
  if existsb is_null_name types then Json.insert "nullable" (Bool true) result else result.

(** The member [type], which may be a list of names. *)
Definition convert_type (obj result : list (string * Value)) : list (string * Value) :=
  match assoc "type" obj with
  | Some (Str s) => Json.insert "type" (Str s) result
  | Some (Arr l) =>
      match List.filter (fun t => negb (is_null_name t)) l with
      | [] => Json.insert "type" (Str "null") result
      | [t] => mark_nullable l (Json.insert "type" t result)
      | non_null =>
          mark_nullable l
            (Json.insert "anyOf" (Arr (map (fun t => Json.obj [("type", t)]) non_null)) result)
      end
  | _ => result
  end.

Section Step.
Context (convert : Value -> Value).

Definition convert_members (k : string) (obj result : list (string * Value)) : list (string * Value) :=
  insert_member k ((fun l => Arr (map convert l)) <$> (assoc k obj ≫= as_array)) result.

Definition convert_properties (obj result : list (string * Value)) : list (string * Value) :=
  insert_member "properties"
    ((fun props => Obj (map (fun kv => (fst kv, convert (snd kv))) props))
       <$> (assoc "properties" obj ≫= as_object)) result.

Definition convert_items (obj result : list (string * Value)) : list (string * Value) :=
  insert_member "items"
    ((fun items => match items with Arr l => Arr (map convert l) | _ => convert items end)
       <$> assoc "items" obj) result.

(** A null alternative becomes [nullable]; a single other alternative is merged
    into the schema itself. *)
Definition convert_any_of (obj result : list (string * Value)) : list (string * Value) :=
  match assoc "anyOf" obj ≫= as_array with
  | Some any_of =>
      if existsb (type_is "null") any_of then
        match List.filter (fun s => negb (type_is "null" s)) any_of with
        | [s] =>
            let merged := match as_object (convert s) with
                          | Some conv =>
                              fold_left (fun r kv => Json.insert (fst kv) (snd kv) r) conv result
                          | None => result
                          end in
            Json.insert "nullable" (Bool true) merged
        | non_null =>
            Json.insert "nullable" (Bool true)
              (Json.insert "anyOf" (Arr (map convert non_null)) result)
        end
      else Json.insert "anyOf" (Arr (map convert any_of)) result
  | None => result
  end.

Definition convert_object (obj : list (string * Value)) : Value :=
  if is_empty_object obj then empty_object obj
  else
    let result := insert_member "description" (assoc "description" obj) [] in
    let result := insert_member "required" (assoc "required" obj) result in
    let result := insert_member "format" (assoc "format" obj) result in
    let result := insert_member "minLength" (assoc "minLength" obj) result in
    let result := insert_member "enum" ((fun c => Arr [c]) <$> assoc "const" obj) result in
    let result := convert_type obj result in
    let result := insert_member "enum" (assoc "enum" obj) result in
    let result := convert_properties obj result in
    let result := convert_items obj result in
    let result := convert_members "allOf" obj result in
    let result := convert_any_of obj result in
    Obj (convert_members "oneOf" obj result).

Definition convert_step (schema : Value) : Value :=
  match schema with
  | Bool true => obj []
  | Bool false => obj [("not", obj [])]
  | Obj m => convert_object m
  | other => other
  end.
End Step.

Fixpoint convert_fuel (fuel : nat) (schema : Value) : Value :=
  match fuel with O => schema | S fuel => convert_step (convert_fuel fuel) schema end.

Definition convert_json_schema_to_openapi (schema : Value) : Value :=
  convert_fuel (S (depth schema)) schema.

(** ** Enough fuel *)

Definition elements (k : string) (m : list (string * Value)) : list Value :=
  default [] (assoc k m ≫= as_array).

(** The schemas inside a schema. *)
Definition sub_schemas (m : list (string * Value)) : list Value :=
  map snd (default [] (assoc "properties" m ≫= as_object))
  ++ match assoc "items" m with Some (Arr l) => l | Some v => [v] | None => [] end
  ++ elements "allOf" m ++ elements "anyOf" m ++ elements "oneOf" m.

Lemma member_depth k m v w :
  assoc k m = Some w -> v ∈ default [] (as_array w) -> (depth v < depth (Obj m))%nat.
Proof.
  intros E%assoc_in%depth_obj. destruct w as [| | | |l|]; try by intros ?%elem_of_nil.
  intros Hv. apply (depth_arr _ l) in Hv. lia.
Qed.

Lemma elements_depth k m v : v ∈ elements k m -> (depth v < depth (Obj m))%nat.
Proof.
  unfold elements. destruct (assoc k m) as [w|] eqn:E; [|by intros ?%elem_of_nil].
  by apply member_depth with (k := k).
Qed.

Lemma sub_schemas_depth m v : v ∈ sub_schemas m -> (depth v < depth (Obj m))%nat.
Proof.
  unfold sub_schemas. rewrite !elem_of_app. intros [H|[H|H]].
  - destruct (assoc "properties" m) as [w|] eqn:E; [|by apply elem_of_nil in H].
    apply assoc_in, depth_obj in E. destruct w as [| | | | |l]; try by apply elem_of_nil in H.
    apply list_elem_of_fmap in H as ([k w] & -> & Hk). apply (depth_obj _ _ l) in Hk. cbn [snd]. lia.
  - destruct (assoc "items" m) as [w|] eqn:E; [|by apply elem_of_nil in H].
    pose proof (member_depth _ _ v _ E) as Ha. apply assoc_in, depth_obj in E.
    destruct w as [| | | |l|]; try (apply list_elem_of_singleton in H as ->; done). by apply Ha.
  - destruct H as [H|[H|H]]; eauto using elements_depth.
Qed.

Lemma map_ext_elem {A B} (f g : A -> B) l :
  (forall x, x ∈ l -> f x = g x) -> map f l = map g l.
Proof.
  intros Hfg. apply List.map_ext_in. intros x Hx. by apply Hfg, list_elem_of_In.
Qed.

Lemma filter_elem {A} (f : A -> bool) l x : x ∈ List.filter f l -> x ∈ l.
Proof. by rewrite !list_elem_of_In, List.filter_In; intros [? _]. Qed.

Lemma convert_object_ext f g m :
  (forall v, v ∈ sub_schemas m -> f v = g v) -> convert_object f m = convert_object g m.
Proof.
  intros Hfg. unfold sub_schemas in Hfg.
  assert (forall k l, (k = "allOf" \/ k = "anyOf" \/ k = "oneOf") ->
            assoc k m ≫= as_array = Some l -> forall v, v ∈ l -> f v = g v) as Hel.
  { intros k l Hk Hl v Hv. apply Hfg. rewrite !elem_of_app. do 2 right. unfold elements.
    destruct Hk as [->|[->| ->]]; rewrite Hl; auto. }
  assert (forall k r, k = "allOf" \/ k = "oneOf" ->
            convert_members f k m r = convert_members g k m r) as Hm.
  { intros k r Hk. unfold convert_members.
    destruct (assoc k m ≫= as_array) as [l|] eqn:E; [|done]. cbn [fmap option_fmap option_map].
    by rewrite (map_ext_elem f g) by (intros v; apply (Hel k); [naive_solver|done]). }
  assert (forall r, convert_any_of f m r = convert_any_of g m r) as Ha.
  { intros r. unfold convert_any_of. destruct (assoc "anyOf" m ≫= as_array) as [l|] eqn:E; [|done].
    assert (forall v, v ∈ l -> f v = g v) as Hl by (apply (Hel "anyOf"); auto).
    destruct (existsb (type_is "null") l); [|by rewrite (map_ext_elem f g)].
    assert (forall v, v ∈ List.filter (fun s => negb (type_is "null" s)) l -> f v = g v) as Hn
      by eauto using filter_elem.
    destruct (List.filter _ l) as [|x [|y r']] eqn:Ef; [done|by rewrite Hn by left|].
    by rewrite (map_ext_elem f g). }
  assert (forall r, convert_properties f m r = convert_properties g m r) as Hp.
  { intros r. unfold convert_properties.
    destruct (assoc "properties" m ≫= as_object) as [l|] eqn:E; [|done].
    cbn [fmap option_fmap option_map]. rewrite (map_ext_elem _ (fun kv => (kv.1, g kv.2))); [done|].
    intros [k v] Hv. cbn. f_equal. apply Hfg, elem_of_app. left.
    by apply (list_elem_of_fmap_2 snd l (k, v)). }
  assert (forall r, convert_items f m r = convert_items g m r) as Hi.
  { intros r. unfold convert_items. destruct (assoc "items" m) as [w|]; [|done].
    assert (forall v, v ∈ match w with Arr l => l | v => [v] end -> f v = g v) as Hw.
    { intros v Hv. apply Hfg. rewrite !elem_of_app. by right; left. }
    cbn [fmap option_fmap option_map]. destruct w; try (by rewrite Hw by left).
    by rewrite (map_ext_elem f g). }
  unfold convert_object. by rewrite Hp, Hi, !Hm, Ha by auto.
Qed.

Lemma convert_enough n1 n2 v :
  (depth v < n1)%nat -> (depth v < n2)%nat -> convert_fuel n1 v = convert_fuel n2 v.
Proof.
  revert n2 v. induction n1 as [|n1 IH]; intros [|n2] v H1 H2; try lia.
  destruct v as [| | | | |m]; try done. apply convert_object_ext.
  intros w Hw%sub_schemas_depth. apply IH; lia.
Qed.

Lemma convert_eq v :
  convert_json_schema_to_openapi v = convert_step convert_json_schema_to_openapi v.
Proof.
  destruct v as [| | | | |m]; try done. apply convert_object_ext.
  intros w Hw%sub_schemas_depth. apply convert_enough; lia.
Qed.

(** ** The results are schemas of the subset *)

Definition plain_keys : list string := ["description"; "required"; "format"; "minLength"; "enum"].

Definition schema_list_keys : list string := ["allOf"; "anyOf"; "oneOf"].

(** A schema of the subset: no boolean schema, [type] one name, [nullable]
    where null is allowed, no [const], none of the keywords that are not
    listed, and the same for every schema inside. *)
Inductive openapi : Value -> Prop :=
| openapi_obj m : (forall k v, (k, v) ∈ m -> openapi_member k v) -> openapi (Obj m)
with openapi_member : string -> Value -> Prop :=
| plain_member k v : k ∈ plain_keys -> openapi_member k v
| type_member t : openapi_member "type" (Str t)
| nullable_member : openapi_member "nullable" (Bool true)
| not_member : openapi_member "not" (Obj [])
| properties_member m : (forall v, v ∈ map snd m -> openapi v) -> openapi_member "properties" (Obj m)
| item_member v : openapi v -> openapi_member "items" v
| items_member l : (forall v, v ∈ l -> openapi v) -> openapi_member "items" (Arr l)
| list_member k l :
    k ∈ schema_list_keys -> (forall v, v ∈ l -> openapi v) -> openapi_member k (Arr l).

(** The names of [type] are strings, and what stands for a schema is a boolean
    or an object. *)
Definition type_names (m : list (string * Value)) : Prop :=
  forall t, t ∈ elements "type" m -> exists s, t = Str s.

Inductive json_schema : Value -> Prop :=
| schema_bool b : json_schema (Bool b)
| schema_obj m :
    type_names m -> (forall v, v ∈ sub_schemas m -> json_schema v) -> json_schema (Obj m).

Definition openapi_members (m : list (string * Value)) : Prop :=
  forall k v, (k, v) ∈ m -> openapi_member k v.

Lemma openapi_nil : openapi_members [].
Proof. by intros k v ?%elem_of_nil. Qed.

Lemma openapi_insert k v m :
  openapi_member k v -> openapi_members m -> openapi_members (Json.insert k v m).
Proof.
  intros Hv Hm k' v' [[= -> ->]|Hin]%elem_of_json_insert; [done|by apply Hm].
Qed.

Lemma openapi_insert_member k o m :
  (forall v, o = Some v -> openapi_member k v) -> openapi_members m ->
  openapi_members (insert_member k o m).
Proof. destruct o as [v|]; [|done]. intros Hv. apply openapi_insert. by apply Hv. Qed.

Lemma openapi_inserts l m :
  openapi_members l -> openapi_members m ->
  openapi_members (fold_left (fun r kv => Json.insert (fst kv) (snd kv) r) l m).
Proof.
  revert m. induction l as [|[k v] l IH]; intros m Hl Hm; [done|]. cbn [fold_left].
  apply IH; [intros ???; apply Hl; by right|]. apply openapi_insert; [|done]. apply Hl. by left.
Qed.

Create HintDb openapi.
#[export] Hint Resolve openapi_nil openapi_insert openapi_insert_member openapi_inserts : openapi.
#[export] Hint Constructors openapi_member : openapi.
#[export] Hint Extern 1 (_ ∈ plain_keys) => apply (bool_decide_unpack _); exact I : openapi.
#[export] Hint Extern 1 (_ ∈ schema_list_keys) => apply (bool_decide_unpack _); exact I : openapi.

Lemma openapi_plain k o m :
  k ∈ plain_keys -> openapi_members m -> openapi_members (insert_member k o m).
Proof. intros Hk. apply openapi_insert_member. intros v _. by constructor. Qed.

Lemma openapi_type obj result :
  type_names obj -> openapi_members result -> openapi_members (convert_type obj result).
Proof.
  unfold type_names, elements, convert_type.
  destruct (assoc "type" obj) as [w|]; [|done]. destruct w as [| | |s|l|]; try done; intros Ht Hr.
  { auto with openapi. }
  change (forall t, t ∈ l -> exists s, t = Str s) in Ht.
  assert (forall r, openapi_members r -> openapi_members (mark_nullable l r)) as Hn.
  { intros r Hm. unfold mark_nullable. destruct (existsb _ l); auto with openapi. }
  destruct (List.filter _ l) as [|t [|u r]] eqn:Ef.
  - auto with openapi.
  - destruct (Ht t) as [s ->]; [|auto with openapi].
    apply (filter_elem (fun t => negb (is_null_name t))). rewrite Ef. by left.
  - apply Hn, openapi_insert; [|done]. apply list_member; [auto with openapi|].
    intros v Hv. apply list_elem_of_fmap in Hv as (w & -> & Hw). rewrite <- Ef in Hw.
    apply filter_elem in Hw. destruct (Ht w Hw) as [s ->].
    constructor. intros k v [= -> ->]%list_elem_of_singleton. apply type_member.
Qed.

Section Members.
Context (convert : Value -> Value) (obj : list (string * Value)).
Context (Hc : forall v, v ∈ sub_schemas obj -> openapi (convert v)).

Lemma elements_converted k v :
  k ∈ schema_list_keys -> v ∈ elements k obj -> openapi (convert v).
Proof using Hc.
  intros Hk Hv. apply Hc. unfold sub_schemas. rewrite !elem_of_app.
  unfold schema_list_keys in Hk. rewrite !elem_of_cons, elem_of_nil in Hk.
  destruct Hk as [->|[->|[->|[]]]]; auto.
Qed.

Lemma map_converted k l :
  k ∈ schema_list_keys -> (forall v, v ∈ l -> v ∈ elements k obj) ->
  openapi_member k (Arr (map convert l)).
Proof using Hc.
  intros Hk Hl. apply list_member; [done|]. intros v (w & -> & Hw)%list_elem_of_fmap.
  eauto using elements_converted.
Qed.

Lemma openapi_lists k r :
  k ∈ schema_list_keys -> openapi_members r -> openapi_members (convert_members convert k obj r).
Proof using Hc.
  intros Hk. apply openapi_insert_member. intros v.
  destruct (assoc k obj ≫= as_array) as [l|] eqn:E; intros [= <-].
  apply map_converted; [done|]. intros v. unfold elements. by rewrite E.
Qed.

Lemma openapi_properties r :
  openapi_members r -> openapi_members (convert_properties convert obj r).
Proof using Hc.
  apply openapi_insert_member. intros v.
  destruct (assoc "properties" obj ≫= as_object) as [l|] eqn:E; intros [= <-].
  apply properties_member. intros v. rewrite List.map_map. cbn [snd].
  intros (kv & -> & Hkv)%list_elem_of_fmap. apply Hc, elem_of_app. left. rewrite E.
  by apply list_elem_of_fmap_2.
Qed.

Lemma openapi_items r : openapi_members r -> openapi_members (convert_items convert obj r).
Proof using Hc.
  apply openapi_insert_member. intros v. destruct (assoc "items" obj) as [w|] eqn:E; intros [= <-].
  assert (forall u, u ∈ match w with Arr l => l | v => [v] end -> openapi (convert u)) as Hw.
  { intros u Hu. apply Hc. unfold sub_schemas. rewrite !elem_of_app, E. by right; left. }
  destruct w as [| | | |l|]; try (apply item_member, Hw; by left).
  apply items_member. intros u (x & -> & Hx)%list_elem_of_fmap. by apply Hw.
Qed.

Lemma openapi_any_of r : openapi_members r -> openapi_members (convert_any_of convert obj r).
Proof using Hc.
  unfold convert_any_of. intros Hr.
  destruct (assoc "anyOf" obj ≫= as_array) as [l|] eqn:E; [|done].
  assert (forall v, v ∈ l -> v ∈ elements "anyOf" obj) as Hl by (intros v; unfold elements; by rewrite E).
  assert ("anyOf" ∈ schema_list_keys) as Hk by auto with openapi.
  destruct (existsb _ l); [|apply openapi_insert; [by apply map_converted|done]].
  assert (forall v, v ∈ List.filter (fun s => negb (type_is "null" s)) l -> v ∈ elements "anyOf" obj)
    as Hn by eauto using filter_elem.
  destruct (List.filter _ l) as [|v [|w r']] eqn:Ef.
  - apply openapi_insert; [apply nullable_member|]. apply openapi_insert; [|done].
    by apply list_member; [|intros ? ?%elem_of_nil].
  - apply openapi_insert; [apply nullable_member|].
    assert (openapi (convert v)) as Hv by (apply (elements_converted "anyOf"); [done|]; apply Hn; left).
    destruct Hv as [m Hm]. by apply openapi_inserts.
  - apply openapi_insert; [apply nullable_member|]. apply openapi_insert; [|done]. by apply map_converted.
Qed.

Lemma openapi_object : type_names obj -> openapi (convert_object convert obj).
Proof using Hc.
  intros Ht. unfold convert_object. destruct (is_empty_object obj).
  { constructor. change (openapi_members (insert_member "description" (assoc "description" obj)
                             (Json.insert "type" (Str "object") []))).
    apply openapi_plain; auto with openapi. }
  constructor.
  apply openapi_lists; [auto with openapi|]. apply openapi_any_of.
  apply openapi_lists; [auto with openapi|]. apply openapi_items, openapi_properties.
  apply openapi_plain; [auto with openapi|]. apply openapi_type; [done|].
  repeat (apply openapi_plain; [auto with openapi|]). apply openapi_nil.
Qed.
End Members.

(** Whatever JSON Schema a request carries (schemas are booleans or objects,
    and a list under [type] holds names), the converted one is in the subset
    Gemini accepts: at every depth there is no boolean schema, [type] is a
    single name, null is expressed by [nullable], and no keyword occurs but
    those of the subset. *)
Theorem openapi_subset schema :
  json_schema schema -> openapi (convert_json_schema_to_openapi schema).
Proof.
  induction 1 as [[]|m Ht _ IH]; rewrite convert_eq.
  - constructor. intros k v []%elem_of_nil.
  - constructor. intros k v [= -> ->]%list_elem_of_singleton. apply not_member.
  - by apply openapi_object.
Qed.

(** A nullable date in a closed object. *)
Definition sample_schema : Value :=
  obj [("type", Str "object"); ("additionalProperties", Bool false);
       ("properties",
         obj [("due", obj [("anyOf", Arr [obj [("type", Str "string"); ("format", Str "date")];
                                          obj [("type", Str "null")]])]);
              ("kind", obj [("type", Arr [Str "string"; Str "null"]); ("const", Str "task")]);
              ("rest", Bool true)])].

Example convert_sample :
  convert_json_schema_to_openapi sample_schema
  = obj [("type", Str "object");
         ("properties",
           obj [("due", obj [("type", Str "string"); ("format", Str "date"); ("nullable", Bool true)]);
                ("kind", obj [("type", Str "string"); ("nullable", Bool true);
                              ("enum", Arr [Str "task"])]);
                ("rest", obj [])])].
Proof. vm_compute. reflexivity. Qed.

Lemma schema_obj_forall m :
  Forall (fun t => exists s, t = Str s) (elements "type" m) -> Forall json_schema (sub_schemas m) ->
  json_schema (Obj m).
Proof. rewrite !Forall_forall. by constructor. Qed.

Ltac is_schema :=
  first
    [ apply schema_bool
    | apply schema_obj_forall; vm_compute;
      [ repeat (apply List.Forall_cons; [by eexists|]); apply List.Forall_nil
      | repeat (apply List.Forall_cons; [is_schema|]); apply List.Forall_nil ] ].

Lemma sample_is_schema : json_schema sample_schema.
Proof. vm_compute. is_schema. Qed.

Lemma openapi_subset_witness :
  openapi (convert_json_schema_to_openapi sample_schema).
Proof. apply (openapi_subset sample_schema), sample_is_schema. Defined.
