(* ===== verification/Gemini.v ===== *)
(** * Gemini: requests and responses of Google generateContent

    [GeminiCodec] of [crates/protocols/src/gemini.rs]: the bodies of requests
    and of responses that are not streamed, to and from the intermediate
    representation.  The request encoder fails on a tool result without a
    function name and panics on a certain [tool_choice]. *)

From stdpp Require Import base option list gmap strings.
From Stdlib Require Import ZArith Lia Ascii SpecFloat.
From S2P Require Import Prelude RustStr F64 Json JsonBody Telemetry Protocol Classify Ir StructuredOutput ChatRequest GeminiSchema.

Local Open Scope string_scope.
Local Open Scope list_scope.
Local Open Scope Z_scope.

Definition GeminiCodec_id : ProtocolEndpoint :=
  mk_endpoint GoogleGemini "generateContent" "v1beta".

(** ** Helpers *)

Definition GEMINI_THINKING_BUDGET_MAX : Z := 24576.

Definition synth_prefix : string := "gemini_call_".

Definition synth_gemini_call_id (name : string) : string :=
  if is_empty name then "" else synth_prefix +:+ name.

(** The name of the first matching call of a message. *)
Definition named_call (tool_call_id : string) (c : Content) : option string :=
  match c with
  | CToolCall id name _ _ _ _ =>
      if String.eqb id tool_call_id && negb (is_empty name) then Some name else None
  | _ => None
  end.

Definition calls_of (messages : list Message) : list Content :=
  flat_map (fun m => match role m with RAssistant => content m | _ => [] end) (rev messages).

Definition lookup_tool_call_name (messages : list Message) (tool_call_id : string) : option string :=
  let found := if is_empty tool_call_id then None
               else head (omap (named_call tool_call_id) (calls_of messages)) in
  or_else found
    (name ← strip_prefix synth_prefix tool_call_id;
     if is_empty name then None else Some name).

Definition SKIP_THOUGHT_SIGNATURE_VALIDATOR : string := "skip_thought_signature_validator".

Definition is_gemini3_model (model : string) : bool := contains "gemini-3" (ascii_lowercase model).

Fixpoint take_digits (s : string) : string :=
  match s with
  | String a s => if is_ascii_digit a then String a (take_digits s) else ""
  | EmptyString => ""
  end.

Definition supports_gemini_thinking_level (model : string) : bool :=
  let lower := ascii_lowercase model in
  match find "gemini-" lower with
  | Some start =>
      let version := drop_bytes (start + String.length "gemini-") lower in
      match from_str_radix 10 u32_max (take_digits version) with
      | Some major => 3 <=? major
      | None => false
      end
  | None => false
  end.

(** ** Decoding a request *)

Definition decode_system (body : Value) : option string :=
  (fun parts => join (String LF "") (omap (fun p => as_str p.["text"]) parts))
    <$> as_array body.["system_instruction"].["parts"].

Definition decode_wire_role (s : string) : Role :=
  if String.eqb s "user" then RUser
  else if String.eqb s "model" then RAssistant
  else if String.eqb s "function" then RTool
  else RUser.

(** The id of a call, or one made from the name of the function. *)
Definition call_id_or (v : Value) (synth : string) : string :=
  match as_str v.["id"] with
  | Some s => if is_empty s then synth else s
  | None => synth
  end.

Definition plain_reasoning (text : string) : Content := CReasoning text None None None.

Definition decode_function_call (fc : Value) : Content :=
  let name := str_or "" fc.["name"] in
  CToolCall (call_id_or fc (synth_gemini_call_id name)) name fc.["args"] None None None.

Definition is_thought (part : Value) : bool :=
  bool_decide (as_bool part.["thought"] = Some true).

Definition octet_stream : string := "application/octet-stream".

Section Decode.
Context `{SerdeJson}.

Definition decode_function_response (fr : Value) : Content :=
  let name := str_or "" fr.["name"] in
  CToolResult (call_id_or fr (synth_gemini_call_id name)) name
    (match as_object fr.["response"] with Some o => to_string (Obj o) | None => "" end)
    None None None.

(** Parts of other kinds are skipped, and so is a thought without text. *)
Definition decode_part (part : Value) : option Content :=
  if is_thought part then plain_reasoning <$> as_str part.["text"]
  else match as_str part.["text"] with
  | Some text => Some (plain_text text)
  | None =>
  match get "functionCall" part with
  | Some fc => Some (decode_function_call fc)
  | None =>
  match get "functionResponse" part with
  | Some fr => Some (decode_function_response fr)
  | None =>
  match get "inlineData" part with
  | Some d => Some (CMedia (Inline (str_or "" d.["data"])) (str_or octet_stream d.["mimeType"]) ∅ None)
  | None =>
  match get "fileData" part with
  | Some d => Some (CMedia (Url (str_or "" d.["fileUri"])) (str_or octet_stream d.["mimeType"]) ∅ None)
  | None => None
  end end end end end.

Definition decode_message (item : Value) : Message := {|
  role := decode_wire_role (str_or "user" item.["role"]);
  content := match as_array item.["parts"] with
             | Some parts => omap decode_part parts
             | None => [plain_text ""]
             end |}.

Definition decode_messages (body : Value) : list Message :=
  map decode_message (default [] (as_array body.["contents"])).
End Decode.

Definition decode_tool (fd : Value) : Tool := {|
  tool_name := str_or "" fd.["name"]; tool_description := as_str fd.["description"];
  tool_parameters := Obj <$> as_object fd.["parameters"]; tool_required := false;
  tool_type := None; tool_config := None |}.

Definition decode_tools (body : Value) : list Tool :=
  flat_map (fun t => map decode_tool (default [] (as_array t.["functionDeclarations"])))
    (default [] (as_array body.["tools"])).

Definition decode_level (s : string) : option ThinkingEffort :=
  if String.eqb s "none" then Some ENone
  else if String.eqb s "minimal" then Some EMinimal
  else if String.eqb s "low" then Some ELow
  else if String.eqb s "medium" then Some EMedium
  else if String.eqb s "high" then Some EHigh
  else None.

Definition decode_thinking (gc : Value) : option ThinkingConfig :=
  tc ← get "thinkingConfig" gc;
  let include_thoughts := as_bool tc.["includeThoughts"] in
  let budget_tokens := wrap32 <$> as_u64 tc.["thinkingBudget"] in
  let effort := as_str tc.["thinkingLevel"] ≫= decode_level in
  if is_none include_thoughts && is_none budget_tokens && is_none effort then None
  else Some {| effort := effort; budget_tokens := budget_tokens;
               display := (fun i : bool => if i then Summarized else Omitted) <$> include_thoughts;
               include_thoughts := include_thoughts; summary := None; th_mode := None;
               th_context := None |}.

Definition decode_params (gc : Value) : GenerationParams := {|
  max_tokens := wrap32 <$> as_u64 gc.["maxOutputTokens"];
  temperature := f64_to_f32 <$> as_f64 gc.["temperature"];
  top_p := f64_to_f32 <$> as_f64 gc.["topP"];
  top_k := wrap32 <$> as_u64 gc.["topK"];
  gp_stop := omap as_str (default [] (as_array gc.["stopSequences"]));
  frequency_penalty := None; presence_penalty := None; seed := None;
  thinking := decode_thinking gc; verbosity := None |}.

Definition decode_response_format (gc : Value) : option ResponseFormat :=
  match get "responseSchema" gc with
  | Some schema => if is_null schema then None else Some (JsonSchema "response" schema None)
  | None => if bool_decide (as_str gc.["responseMimeType"] = Some "application/json")
            then Some JsonObject else None
  end.

Definition top_level_keys : list string := ["safetySettings"; "toolConfig"; "cachedContent"; "labels"].

Definition gemini_top_level (body : Value) : list (string * Value) :=
  fold_left (fun m k => insert_member k (get k body) m) top_level_keys [].

Definition pinned_tool (name : string) : Value :=
  obj [("type", Str "function"); ("function", obj [("name", Str name)])].

(** The calling mode in the form the representation uses; a list of allowed
    functions is reduced to its first name. *)
Definition normalize_tool_choice (body : Value) : option Value :=
  let config := body.["toolConfig"].["functionCallingConfig"] in
  mode ← as_str config.["mode"];
  if String.eqb mode "AUTO" then Some (Str "auto")
  else if String.eqb mode "NONE" then Some (Str "none")
  else if String.eqb mode "ANY" then
    Some (match (as_array config.["allowedFunctionNames"] ≫= head) ≫= as_str with
          | Some first => pinned_tool first
          | None => Str "required"
          end)
  else None.

Definition decode_extensions (body : Value) : JsonMap :=
  insert_opt "tool_choice" (normalize_tool_choice body)
    (insert_opt "gemini_top_level" (nonempty_obj (gemini_top_level body)) ∅).

Definition decode_labels (body : Value) : option (gmap string string) :=
  (fun obj => list_to_map (omap (fun kv => pair (fst kv) <$> as_str (snd kv)) obj))
    <$> (get "labels" body ≫= as_object).

Definition decode_request `{SerdeJson} (body : Value) : result Error IrRequest :=
  let gc := body.["generationConfig"] in
  Ok {| model := str_or "unknown" body.["model"];
        system := decode_system body;
        messages := decode_messages body;
        tools := decode_tools body;
        params := decode_params gc;
        response_format := decode_response_format gc;
        stream := default false (get "_stream" body ≫= as_bool);
        ingress_protocol := GeminiCodec_id;
        metadata := decode_labels body;
        extensions := decode_extensions body |}.

(** ** Encoding a request *)

Definition wire_role (r : Role) : string :=
  match r with RUser | RSystem => "user" | RAssistant => "model" | RTool => "function" end.

Definition text_json (text : string) : Value := obj [("text", Str text)].
Definition thought_json (text : string) : Value := obj [("text", Str text); ("thought", Bool true)].
Definition call_json (name : string) (arguments : Value) : Value :=
  obj [("functionCall", obj [("name", Str name); ("args", arguments)])].

Definition thought_signatures (ir : IrRequest) : list Value :=
  default [] (extensions ir !! "gemini_thought_signatures" ≫= as_array).

(** The signature for the call number [sig_idx], and whether it is counted. *)
Definition next_signature (ir : IrRequest) (sig_idx : nat) : option Value :=
  match thought_signatures ir !! sig_idx with
  | Some sig => Some sig
  | None => if is_gemini3_model (model ir) then Some (Str SKIP_THOUGHT_SIGNATURE_VALIDATOR) else None
  end.

Definition missing_name (tool_call_id : string) : Error :=
  ECodec ("Gemini functionResponse.name is required but missing; no prior ToolCall matched tool_call_id '"
          +:+ tool_call_id +:+ "'").

Definition resolve_name (ir : IrRequest) (tool_call_id name : string) : result Error string :=
  if is_empty name then
    match lookup_tool_call_name (messages ir) tool_call_id with
    | Some n => Ok n
    | None => Err (missing_name tool_call_id)
    end
  else Ok name.

Section Encode.
Context `{SerdeJson}.

(** A result that is not JSON is wrapped in an object. *)
Definition response_value (content : string) : Value :=
  default (obj [("output", Str content)]) (from_str content).

(** The part of a content and the next signature index. *)
Definition encode_part (ir : IrRequest) (sig_idx : nat) (c : Content)
    : result Error (option Value * nat) :=
  match c with
  | CText text _ _ | CRefusal text _ => Ok (Some (text_json text), sig_idx)
  | CReasoning text _ _ _ => Ok (Some (thought_json text), sig_idx)
  | CToolCall _ name arguments _ _ _ =>
      let sig := next_signature ir sig_idx in
      Ok (Some (set_opt "thoughtSignature" sig (call_json name arguments)),
          if is_none sig then sig_idx else S sig_idx)
  | CToolResult tool_call_id name content _ _ _ =>
      resolved_name ← resolve_name ir tool_call_id name;
      Ok (Some (obj [("functionResponse",
                      obj [("name", Str resolved_name); ("response", response_value content)])]),
          sig_idx)
  | CMedia (Url url) mime_type _ _ =>
      Ok (Some (obj [("fileData", obj [("fileUri", Str url); ("mimeType", Str mime_type)])]), sig_idx)
  | CMedia (Inline data) mime_type _ _ =>
      Ok (Some (obj [("inlineData", obj [("mimeType", Str mime_type); ("data", Str data)])]), sig_idx)
  | CMedia (FileId _) _ _ _ => Ok (None, sig_idx)
  | CProgram _ _ _ _ | CProgramOutput _ _ _ _ => Ok (None, sig_idx)
  end.

Fixpoint encode_parts (ir : IrRequest) (sig_idx : nat) (l : list Content)
    : result Error (list Value * nat) :=
  match l with
  | [] => Ok ([], sig_idx)
  | c :: l =>
      r ← encode_part ir sig_idx c;
      rest ← encode_parts ir (snd r) l;
      Ok (option_list (fst r) ++ fst rest, snd rest)
  end.

(** A message without parts is skipped. *)
Fixpoint encode_contents (ir : IrRequest) (sig_idx : nat) (l : list Message)
    : result Error (list Value) :=
  match l with
  | [] => Ok []
  | m :: l =>
      r ← encode_parts ir sig_idx (content m);
      rest ← encode_contents ir (snd r) l;
      Ok (match fst r with
          | [] => rest
          | parts => obj [("role", Str (wire_role (role m))); ("parts", Arr parts)] :: rest
          end)
  end.
End Encode.

Definition level_str (e : ThinkingEffort) : string :=
  match e with
  | ENone | EMinimal => "minimal"
  | ELow => "low"
  | EMedium => "medium"
  | EHigh | EXHigh | EMax => "high"
  end.

Definition derived_thoughts (t : ThinkingConfig) : option bool :=
  or_else (include_thoughts t)
    ((fun d => match d with Summarized => true | Omitted => false end) <$> display t).

Definition derived_effort (t : ThinkingConfig) : option ThinkingEffort :=
  or_else (effort t) (ThinkingConfig.budget_to_effort <$> budget_tokens t).

Definition derived_budget (t : ThinkingConfig) : option Z :=
  or_else (budget_tokens t) (ThinkingConfig.effort_to_budget <$> derived_effort t).

(** A level for newer models, a budget for the others. *)
Definition thinking_config (model : string) (t : ThinkingConfig) : list (string * Value) :=
  let tc := insert_member "includeThoughts" (Bool <$> derived_thoughts t) [] in
  if supports_gemini_thinking_level model
  then insert_member "thinkingLevel" ((Str ∘ level_str) <$> derived_effort t) tc
  else insert_member "thinkingBudget"
         ((fun b => json_u64 (Z.min b GEMINI_THINKING_BUDGET_MAX)) <$> derived_budget t) tc.

Definition response_schema (ir : IrRequest) : option Value :=
  match response_format ir with
  | Some (JsonSchema _ schema _) => Some (convert_json_schema_to_openapi schema)
  | _ => None
  end.

Definition response_mime_type (ir : IrRequest) : option Value :=
  match response_format ir with
  | Some (JsonSchema _ _ _) | Some JsonObject => Some (Str "application/json")
  | _ => None
  end.

Definition generation_config (ir : IrRequest) : list (string * Value) :=
  let p := params ir in
  let gc := insert_member "maxOutputTokens" (json_u64 <$> max_tokens p) [] in
  let gc := insert_member "temperature" (json_f32 <$> temperature p) gc in
  let gc := insert_member "topP" (json_f32 <$> top_p p) gc in
  let gc := insert_member "topK" (json_u64 <$> top_k p) gc in
  let gc := insert_member "stopSequences"
              (match gp_stop p with [] => None | l => Some (Arr (map Str l)) end) gc in
  let gc := insert_member "thinkingConfig"
              (thinking p ≫= fun t => nonempty_obj (thinking_config (model ir) t)) gc in
  let gc := insert_member "responseSchema" (response_schema ir) gc in
  insert_member "responseMimeType" (response_mime_type ir) gc.

Definition encode_tool (t : Tool) : Value :=
  obj [("name", Str (tool_name t)); ("description", json_opt_str (tool_description t));
       ("parameters", default Null (convert_json_schema_to_openapi <$> tool_parameters t))].

Definition function_tools (ir : IrRequest) : list Tool :=
  filter (fun t => Tool.is_function t = true) (tools ir).

Definition encode_tools (ir : IrRequest) : option Value :=
  match function_tools ir with
  | [] => None
  | l => Some (Arr [obj [("functionDeclarations", Arr (map encode_tool l))]])
  end.

(** The calling mode.  [obj] is a map here, so a function choice without
    [function] panics. *)
Definition calling_config (tc : Value) : run (option Value) :=
  match tc with
  | Str s =>
      Ok (if String.eqb s "auto" then Some (obj [("mode", Str "AUTO")])
          else if String.eqb s "none" then Some (obj [("mode", Str "NONE")])
          else if String.eqb s "required" then Some (obj [("mode", Str "ANY")])
          else None)
  | Obj m =>
      if bool_decide ((assoc "type" m ≫= as_str) = Some "function") then
        f ← map_index m "function";
        name ← match as_str f.["name"] with
               | Some name => Ok name
               | None => n ← map_index m "name"; Ok (str_or "" n)
               end;
        Ok (Some (obj [("mode", Str "ANY"); ("allowedFunctionNames", Arr [Str name])]))
      else Ok None
  | _ => Ok None
  end.

Definition with_config (fcc : option Value) : option Value :=
  (fun c => obj [("functionCallingConfig", c)]) <$> fcc.

(** The body has no [toolConfig] when the source tests for it. *)
Definition encode_tool_config (ir : IrRequest) : run (option Value) :=
  match extensions ir !! "tool_choice" with
  | Some tc => fcc ← calling_config tc; Ok (with_config fcc)
  | None => Ok None
  end.

(** The members captured from the wire, where the body has none yet. *)
Definition replay_top_level (ir : IrRequest) (body : Value) : Value :=
  fold_left (fun b kv => if is_none (get (fst kv) b) then set (fst kv) (snd kv) b else b)
    (default [] (extensions ir !! "gemini_top_level" ≫= as_object)) body.

Definition labels_json (m : gmap string string) : Value :=
  obj (map (fun kv => (fst kv, Str (snd kv))) (map_to_list m)).

Definition encode_labels (ir : IrRequest) (body : Value) : Value :=
  match metadata ir with
  | Some m => if negb (bool_decide (m = ∅)) && is_none (get "labels" body)
              then set "labels" (labels_json m) body else body
  | None => body
  end.

Section EncodeRequest.
Context `{SerdeJson}.

Definition encode_body (ir : IrRequest) : run (result Error Value) :=
  let body := set_opt "system_instruction"
                ((fun sys => obj [("parts", Arr [text_json sys])]) <$> system ir) (obj []) in
  match encode_contents ir 0 (messages ir) with
  | Err e => Ok (Err e)
  | Ok contents =>
      let body := set "contents" (Arr contents) body in
      let body := set_opt "generationConfig" (nonempty_obj (generation_config ir)) body in
      let body := set_opt "tools" (encode_tools ir) body in
      config ← encode_tool_config ir;
      let body := set_opt "toolConfig" config body in
      Ok (Ok (encode_labels ir (replay_top_level ir body)))
  end.

Definition request_headers : list (string * string) := [("content-type", "application/json")].

Definition encode_request (ir : IrRequest) : run (result Error (Value * list (string * string))) :=
  match validate_response_format_for_target (response_format ir) GeminiCodec_id with
  | Ok _ =>
      body ← encode_body ir;
      Ok (match body with Ok b => Ok (b, request_headers) | Err e => Err e end)
  | Err e => Ok (Err (ECodec (schema_error_to_string e)))
  end.
End EncodeRequest.

(** ** Encoding a response *)

Definition answer_part (c : Content) : option Value :=
  match c with
  | CText text _ _ => Some (text_json text)
  | CReasoning text _ _ _ => Some (thought_json text)
  | CToolCall _ name arguments _ _ _ => Some (call_json name arguments)
  | _ => None
  end.

Definition finish_reason_str (r : FinishReason) : string :=
  match r with
  | Stop => "STOP"
  | LengthReason => "MAX_TOKENS"
  | ContentFilter => "SAFETY"
  | ToolCalls => "STOP"
  | OtherReason _ => "STOP"
  end.

(** The prompt count of the wire includes the cached tokens. *)
Definition prompt_for_gemini (u : Usage) : Z :=
  wrap64 (wrap64 (prompt_tokens u + default 0 (cache_read_tokens u))
          + default 0 (cache_write_tokens u)).

Definition positive (o : option Z) : option Z :=
  match o with Some n => if 0 <? n then Some n else None | None => None end.

Definition counts_json (u : Usage) (reasoning cached : option Z) : Value :=
  set_opt "cachedContentTokenCount" (json_u64 <$> cached)
    (set_opt "thoughtsTokenCount" (json_u64 <$> reasoning)
       (obj [("promptTokenCount", json_u64 (prompt_for_gemini u));
             ("candidatesTokenCount", json_u64 (completion_tokens u));
             ("totalTokenCount", json_u64 (wrap64 (prompt_for_gemini u + completion_tokens u)))])).

Definition usage_json (u : Usage) : Value :=
  counts_json u (reasoning_tokens u) (positive (cache_read_tokens u)).

Definition encode_response (ir : IrResponse) : result Error Value :=
  let parts := omap answer_part (r_content ir) in
  let candidate := obj [("content", obj [("role", Str "model"); ("parts", Arr parts)])] in
  let candidate :=
    set_opt "finishReason" ((Str ∘ finish_reason_str) <$> r_finish_reason ir) candidate in
  let response := obj [("candidates", Arr [candidate])] in
  let response := set_opt "responseId" (Str <$> r_response_id ir) response in
  Ok (set_opt "usageMetadata" (usage_json <$> r_usage ir) response).

(** ** Decoding a response *)

Definition candidates (body : Value) : list Value := default [] (as_array body.["candidates"]).

Definition first_candidate (body : Value) : option Value :=
  as_array body.["candidates"] ≫= head.

Definition answer_parts (body : Value) : list Value :=
  flat_map (fun c => match get "content" c with
                     | Some content => default [] (as_array content.["parts"])
                     | None => []
                     end) (candidates body).

(** The forms of a thought besides the flagged text. *)
Definition stray_thought (part : Value) : option string :=
  or_else (as_str part.["thought"]) (as_str part.["thought"].["text"]).

Definition decode_answer_part (part : Value) : option Content :=
  if is_thought part then plain_reasoning <$> as_str part.["text"]
  else match as_str part.["text"] with
  | Some text => Some (plain_text text)
  | None =>
  match stray_thought part with
  | Some t => Some (plain_reasoning t)
  | None => decode_function_call <$> get "functionCall" part
  end end.

Definition decode_citation (chunk : Value) : option Annotation :=
  (fun web => {| an_kind := UrlCitation; start_index := None; end_index := None;
                 an_title := as_str web.["title"]; an_url := as_str web.["uri"] |})
    <$> get "web" chunk.

Definition grounding_metadata (body : Value) : option Value :=
  grounding ← first_candidate body ≫= get "groundingMetadata";
  if is_null grounding then None else Some grounding.

(** Every text without annotations gets all the citations. *)
Definition annotate (l : list Annotation) (c : Content) : Content :=
  match c with
  | CText text None b => CText text (Some l) b
  | c => c
  end.

Definition annotate_all (body : Value) (content : list Content) : list Content :=
  match grounding_metadata body with
  | Some grounding =>
      match omap decode_citation (default [] (as_array grounding.["groundingChunks"])) with
      | [] => content
      | l => map (annotate l) content
      end
  | None => content
  end.

Definition is_tool_call (c : Content) : bool :=
  match c with CToolCall _ _ _ _ _ _ => true | _ => false end.

Definition wire_finish (body : Value) : option string :=
  first_candidate body ≫= fun c => as_str c.["finishReason"].

Definition finish_of_str (s : string) : FinishReason :=
  if String.eqb s "STOP" then Stop
  else if String.eqb s "MAX_TOKENS" then LengthReason
  else if String.eqb s "SAFETY" then ContentFilter
  else OtherReason s.

(** [STOP] after a function call stands for tool calls. *)
Definition with_calls (has_calls : bool) (r : FinishReason) : FinishReason :=
  match r with Stop => if has_calls then ToolCalls else Stop | r => r end.

Definition safety_details : StopDetails := {|
  stop_reason := "safety"; stop_sequence := None; sd_kind := Some "safety"; sd_category := None;
  explanation := None |}.

Definition usage_of (u : Value) : Usage :=
  let cache_read := as_u64 u.["cachedContentTokenCount"] in {|
  prompt_tokens := sat_sub (default 0 (as_u64 u.["promptTokenCount"])) (default 0 cache_read);
  completion_tokens := default 0 (as_u64 u.["candidatesTokenCount"]);
  reasoning_tokens := as_u64 u.["thoughtsTokenCount"];
  cache_read_tokens := cache_read; cache_write_tokens := None;
  total_tokens := default 0 (as_u64 u.["totalTokenCount"]) |}.

Definition decode_usage (body : Value) : option Usage :=
  u ← get "usageMetadata" body;
  if is_object u
     && (is_u64 u.["promptTokenCount"] || is_u64 u.["candidatesTokenCount"]
         || is_u64 u.["totalTokenCount"])
  then Some (usage_of u) else None.

(** The signatures of all parts, in their order. *)
Definition collected_signatures (body : Value) : option Value :=
  match omap (get "thoughtSignature") (answer_parts body) with
  | [] => None
  | l => Some (Arr l)
  end.

Definition decode_response (body : Value) : result Error IrResponse :=
  let content := omap decode_answer_part (answer_parts body) in
  Ok {| r_content := annotate_all body content;
        r_usage := decode_usage body;
        r_finish_reason := with_calls (existsb is_tool_call content)
                             <$> (finish_of_str <$> wire_finish body);
        r_response_id := as_str body.["responseId"];
        r_stop_details := if bool_decide (wire_finish body = Some "SAFETY")
                          then Some safety_details else None;
        r_extensions := insert_opt "gemini_grounding_metadata" (grounding_metadata body)
                          (insert_opt "gemini_thought_signatures" (collected_signatures body) ∅) |}.
