(* ===== verification/GeminiProps.v ===== *)
(** * GeminiProps: what Gemini requests and responses keep

    When the request encoder fails, which signature a function call is sent
    with, the round trips of requests and responses, and the defects of the
    codec. *)

From stdpp Require Import base option list sets gmap strings.
From Stdlib Require Import ZArith Lia Ascii SpecFloat.
From S2P Require Import Prelude RustStr F64 Json JsonBody Telemetry Protocol Classify Errors Ir StructuredOutput ChatRequest GeminiSchema Gemini.

Local Open Scope string_scope.
Local Open Scope list_scope.
Local Open Scope Z_scope.

(** ** The parts of a request *)

Definition tool_calls (l : list Content) : list Content := List.filter is_tool_call l.

(** The signature of the function call number [i] of a request. *)
Definition expected_signature (ir : IrRequest) (i : nat) : option Value :=
  match thought_signatures ir !! i with
  | Some sig => Some sig
  | None => if is_gemini3_model (model ir) then Some (Str SKIP_THOUGHT_SIGNATURE_VALIDATOR) else None
  end.

(** A result whose function cannot be found. *)
Definition nameless (ir : IrRequest) (c : Content) : bool :=
  match c with
  | CToolResult id name _ _ _ _ => is_empty name && is_none (lookup_tool_call_name (messages ir) id)
  | _ => false
  end.

Section Parts.
Context `{SerdeJson} (ir : IrRequest).

(** The name a result is sent with. *)
Definition resolved (tool_call_id name : string) : string :=
  if is_empty name then default "" (lookup_tool_call_name (messages ir) tool_call_id) else name.

Definition result_json (tool_call_id name content : string) : Value :=
  obj [("functionResponse",
        obj [("name", Str (resolved tool_call_id name)); ("response", response_value content)])].

(** The part of a content that is not a function call. *)
Definition plain_part (c : Content) : option Value :=
  match c with
  | CText text _ _ | CRefusal text _ => Some (text_json text)
  | CReasoning text _ _ _ => Some (thought_json text)
  | CToolCall _ name arguments _ _ _ => Some (call_json name arguments)
  | CToolResult id name content _ _ _ => Some (result_json id name content)
  | CMedia (Url url) mime _ _ =>
      Some (obj [("fileData", obj [("fileUri", Str url); ("mimeType", Str mime)])])
  | CMedia (Inline data) mime _ _ =>
      Some (obj [("inlineData", obj [("mimeType", Str mime); ("data", Str data)])])
  | _ => None
  end.

Definition signed (i : nat) (c : Content) (v : Value) : Value :=
  if is_tool_call c then set_opt "thoughtSignature" (expected_signature ir i) v else v.

(** The parts from call number [i] on. *)
Fixpoint parts_from (i : nat) (l : list Content) : list Value :=
  match l with
  | [] => []
  | c :: l =>
      option_list (signed i c <$> plain_part c)
      ++ parts_from (if is_tool_call c then S i else i) l
  end.

(** [sig_idx] stops counting when there are no signatures any more. *)
Definition in_step (i sig_idx : nat) : Prop :=
  i = sig_idx \/ (sig_idx <= i)%nat /\ next_signature ir sig_idx = None.

Lemma in_step_signature i sig_idx :
  in_step i sig_idx -> next_signature ir sig_idx = expected_signature ir i.
Proof using.
  intros [->|[Hle Hn]]; [done|]. rewrite Hn. unfold expected_signature, next_signature in *.
  destruct (thought_signatures ir !! sig_idx) as [sig|] eqn:E; [done|].
  apply lookup_ge_None in E. rewrite lookup_ge_None_2 by lia. done.
Qed.

Lemma in_step_next i sig_idx :
  in_step i sig_idx -> in_step (S i) (if is_none (next_signature ir sig_idx) then sig_idx else S sig_idx).
Proof using.
  intros Hi. destruct (next_signature ir sig_idx) eqn:E; cbn [is_none].
  - destruct Hi as [->|[_ Hn]]; [by left|congruence].
  - right. split; [|done]. destruct Hi as [->|[? _]]; lia.
Qed.

Lemma encode_part_spec i sig_idx c :
  in_step i sig_idx ->
  if nameless ir c then exists e, encode_part ir sig_idx c = Err e
  else exists sig_idx',
    encode_part ir sig_idx c = Ok (signed i c <$> plain_part c, sig_idx')
    /\ in_step (if is_tool_call c then S i else i) sig_idx'.
Proof using.
  intros Hi. destruct c as [| | |id name text| | | |[]]; cbn [nameless is_tool_call]; try by (eexists; split; [reflexivity|done]).
  - eexists. split; [|by apply in_step_next]. cbn. by rewrite (in_step_signature i).
  - cbn. unfold resolve_name, result_json, resolved.
    destruct (is_empty name); cbn; [|by eauto].
    destruct (lookup_tool_call_name (messages ir) id); cbn; eauto.
Qed.

Lemma encode_parts_spec i sig_idx l :
  in_step i sig_idx ->
  if existsb (nameless ir) l then exists e, encode_parts ir sig_idx l = Err e
  else exists sig_idx',
    encode_parts ir sig_idx l = Ok (parts_from i l, sig_idx')
    /\ in_step (i + length (tool_calls l)) sig_idx'.
Proof using.
  revert i sig_idx. induction l as [|c l IH]; intros i sig_idx Hi.
  { eexists. split; [done|]. cbn. by rewrite Nat.add_0_r. }
  cbn [existsb encode_parts]. pose proof (encode_part_spec i sig_idx c Hi) as Hc.
  destruct (nameless ir c); cbn [orb].
  { destruct Hc as [e ->]. by eexists. }
  destruct Hc as (sig_idx' & -> & Hi'). specialize (IH _ _ Hi'). cbn [mbind result_bind snd fst].
  destruct (existsb (nameless ir) l).
  - destruct IH as [e ->]. by eexists.
  - destruct IH as (sig_idx2 & -> & Hi2). eexists. split; [done|]. cbn [tool_calls List.filter].
    revert Hi2. destruct (is_tool_call c); cbn [length]; [|done].
    cbn [snd]. unfold tool_calls.
    by replace (i + S (length (List.filter is_tool_call l)))%nat
      with (S i + length (List.filter is_tool_call l))%nat by lia.
Qed.

(** The messages from call number [i] on. *)
Fixpoint contents_from (i : nat) (l : list Message) : list Value :=
  match l with
  | [] => []
  | m :: l =>
      let rest := contents_from (i + length (tool_calls (content m))) l in
      match parts_from i (content m) with
      | [] => rest
      | parts => obj [("role", Str (wire_role (role m))); ("parts", Arr parts)] :: rest
      end
  end.

Lemma encode_contents_spec i sig_idx l :
  in_step i sig_idx ->
  if existsb (fun m => existsb (nameless ir) (content m)) l
  then exists e, encode_contents ir sig_idx l = Err e
  else encode_contents ir sig_idx l = Ok (contents_from i l).
Proof using.
  revert i sig_idx. induction l as [|m l IH]; intros i sig_idx Hi; [done|].
  cbn [existsb encode_contents]. pose proof (encode_parts_spec i sig_idx (content m) Hi) as Hm.
  destruct (existsb (nameless ir) (content m)); cbn [orb].
  { destruct Hm as [e ->]. by eexists. }
  destruct Hm as (sig_idx' & -> & Hi'). specialize (IH _ _ Hi'). cbn [mbind result_bind snd fst].
  destruct (existsb _ l).
  - destruct IH as [e ->]. by eexists.
  - rewrite IH. cbn [mbind result_bind]. cbn [contents_from]. by destruct (parts_from i (content m)).
Qed.

Definition all_named : bool := negb (existsb (fun m => existsb (nameless ir) (content m)) (messages ir)).

Lemma encode_contents_named :
  all_named = true -> encode_contents ir 0 (messages ir) = Ok (contents_from 0 (messages ir)).
Proof using.
  unfold all_named. pose proof (encode_contents_spec 0 0 (messages ir) (or_introl eq_refl)) as Hs.
  by destruct (existsb _ (messages ir)).
Qed.

Lemma encode_contents_nameless :
  all_named = false -> exists e, encode_contents ir 0 (messages ir) = Err e.
Proof using.
  unfold all_named. pose proof (encode_contents_spec 0 0 (messages ir) (or_introl eq_refl)) as Hs.
  by destruct (existsb _ (messages ir)).
Qed.

Lemma encode_contents_ok l :
  encode_contents ir 0 (messages ir) = Ok l -> all_named = true /\ l = contents_from 0 (messages ir).
Proof using.
  intros Hl. destruct all_named eqn:E.
  - split; [done|]. rewrite encode_contents_named in Hl by done. congruence.
  - apply encode_contents_nameless in E as [e E]. congruence.
Qed.
End Parts.

(** ** The members of a request body *)

(** What a request captured from the wire: the decoder keeps these members. *)
Definition captured (ir : IrRequest) : list (string * Value) :=
  default [] (extensions ir !! "gemini_top_level" ≫= as_object).

Definition labels_of (ir : IrRequest) : option Value :=
  m ← metadata ir; if bool_decide (m = ∅) then None else Some (labels_json m).

Definition built_member (ir : IrRequest) (contents : list Value) (config : option Value) (k : string)
    : option Value :=
  if String.eqb k "toolConfig" then config
  else if String.eqb k "tools" then encode_tools ir
  else if String.eqb k "generationConfig" then nonempty_obj (generation_config ir)
  else if String.eqb k "contents" then Some (Arr contents)
  else if String.eqb k "system_instruction"
  then (fun sys => obj [("parts", Arr [text_json sys])]) <$> system ir
  else None.

(** What is built comes first, then what was captured, then the labels. *)
Definition request_member (ir : IrRequest) (contents : list Value) (config : option Value)
    (k : string) : option Value :=
  or_else (or_else (built_member ir contents config k) (assoc k (captured ir)))
    (if String.eqb k "labels" then labels_of ir else None).

Lemma or_else_assoc {A} (a b c : option A) : or_else (or_else a b) c = or_else a (or_else b c).
Proof. by destruct a. Qed.

Lemma get_labelled ir b k :
  is_object b = true ->
  get k (encode_labels ir b)
  = or_else (get k b) (if String.eqb k "labels" then labels_of ir else None).
Proof.
  intros Hb. unfold encode_labels, labels_of. destruct (metadata ir) as [m|]; cbn [mbind option_bind].
  2:{ destruct (String.eqb k "labels"); by rewrite or_else_none. }
  destruct (bool_decide (m = ∅)); cbn [negb andb].
  { destruct (String.eqb k "labels"); by rewrite or_else_none. }
  destruct (get "labels" b) as [w|] eqn:E; cbn [is_none].
  - destruct (String.eqb_spec k "labels") as [->|]; [by rewrite E|by rewrite or_else_none].
  - rewrite get_set_if by done. destruct (String.eqb_spec k "labels") as [->|]; [by rewrite E|].
    by rewrite or_else_none.
Qed.

Lemma gemini_get_request_body `{SerdeJson} ir body :
  encode_body ir = Ok (Ok body) ->
  exists config, encode_tool_config ir = Ok config /\ all_named ir = true
    /\ forall k, get k body = request_member ir (contents_from ir 0 (messages ir)) config k.
Proof.
  unfold encode_body. intros Hb.
  destruct (encode_contents ir 0 (messages ir)) as [contents|e] eqn:Ec; [|done].
  apply encode_contents_ok in Ec as [Hn ->].
  destruct (encode_tool_config ir) as [config|p]; [|done]. exists config. split_and!; [done..|].
  cbn [mbind result_bind] in Hb. injection Hb as <-. intros k.
  rewrite get_labelled; [|by apply get_replayed; auto 10 with body].
  unfold replay_top_level. 
  edestruct (get_replayed (captured ir)) as [_ Hg]; [|rewrite Hg]; [by auto 10 with body|].
  rewrite !get_set_opt_if, get_set_if, get_set_opt_if, get_obj by auto 10 with body.
  unfold request_member, built_member. rewrite !or_else_if; try done; last_key.
Qed.

Lemma encode_request_body `{SerdeJson} ir body headers :
  encode_request ir = Ok (Ok (body, headers)) -> encode_body ir = Ok (Ok body).
Proof.
  unfold encode_request. destruct (validate_response_format_for_target _ _); [|done].
  destruct (encode_body ir) as [[b|e]|]; by intros [= -> _].
Qed.

(** ** Round trip of requests *)

Section Relayed.
Context `{SerdeJson} (ir : IrRequest).

(** The text a result comes back with: a JSON object is printed again, other
    JSON is lost, and a text that is not JSON comes back in an object. *)
Definition relayed_result (content : string) : string :=
  match response_value content with Obj o => to_string (Obj o) | _ => "" end.

Definition relayed_part (c : Content) : option Content :=
  match c with
  | CText text _ _ | CRefusal text _ => Some (plain_text text)
  | CReasoning text _ _ _ => Some (plain_reasoning text)
  | CToolCall _ name arguments _ _ _ =>
      Some (CToolCall (synth_gemini_call_id name) name arguments None None None)
  | CToolResult id name text _ _ _ =>
      let name := resolved ir id name in
      Some (CToolResult (synth_gemini_call_id name) name (relayed_result text) None None None)
  | CMedia (FileId _) _ _ _ => None
  | CMedia source mime _ _ => Some (CMedia source mime ∅ None)
  | CProgram _ _ _ _ | CProgramOutput _ _ _ _ => None
  end.

Definition relayed_role (r : Role) : Role := match r with RSystem => RUser | r => r end.

Definition relayed_message (m : Message) : option Message :=
  match omap relayed_part (content m) with
  | [] => None
  | l => Some {| role := relayed_role (role m); content := l |}
  end.

Lemma decode_plain_part c i v :
  plain_part ir c = Some v -> decode_part (signed ir i c v) = relayed_part c.
Proof using.
  unfold signed. destruct c as [| |? ? a|id name text| | | |[]]; cbn [is_tool_call plain_part]; try done;
    intros [= <-]; try reflexivity.
  - destruct (expected_signature ir i); reflexivity.
  - unfold result_json, relayed_part, relayed_result. cbv zeta.
    generalize (response_value text) as w. generalize (resolved ir id name) as n. intros n w. destruct w; reflexivity.
Qed.

Lemma plain_part_relayed c : plain_part ir c = None <-> relayed_part c = None.
Proof using. by destruct c as [| | | | | | |[]]. Qed.

Lemma decode_parts_from i l : omap decode_part (parts_from ir i l) = omap relayed_part l.
Proof using.
  revert i. induction l as [|c l IH]; intros i; [done|]. cbn [parts_from]. rewrite omap_app, IH.
  cbn [omap list_omap]. destruct (plain_part ir c) as [v|] eqn:E; cbn.
  - rewrite (decode_plain_part c i v E). by destruct (relayed_part c).
  - apply plain_part_relayed in E. by rewrite E.
Qed.

Lemma parts_from_nil i l : parts_from ir i l = [] <-> omap relayed_part l = [].
Proof using.
  revert i. induction l as [|c l IH]; intros i; [done|]. cbn.
  destruct (plain_part ir c) as [v|] eqn:E; cbn.
  - destruct (relayed_part c) eqn:Er; [done|]. apply plain_part_relayed in Er. congruence.
  - apply plain_part_relayed in E. by rewrite E.
Qed.

Lemma decode_contents_from i l :
  map decode_message (contents_from ir i l) = omap relayed_message l.
Proof using.
  revert i. induction l as [|m l IH]; intros i; [done|]. cbn [contents_from omap list_omap].
  unfold relayed_message at 1. pose proof (parts_from_nil i (content m)) as Hnil.
  pose proof (decode_parts_from i (content m)) as Hd.
  destruct (parts_from ir i (content m)) as [|v parts] eqn:E.
  { rewrite (proj1 Hnil eq_refl). apply IH. }
  destruct (omap relayed_part (content m)) as [|c cs] eqn:Er; [by pose proof (proj2 Hnil eq_refl)|].
  cbn [map]. rewrite IH. f_equal. unfold decode_message.
  change ((obj [("role", Str (wire_role (role m))); ("parts", Arr (v :: parts))]).["role"])
    with (Str (wire_role (role m))).
  change ((obj [("role", Str (wire_role (role m))); ("parts", Arr (v :: parts))]).["parts"])
    with (Arr (v :: parts)).
  cbn [as_array]. rewrite Hd. by destruct (role m).
Qed.
End Relayed.

(** What a tool, a thinking configuration, a response format and the labels
    become on the way through a body. *)
Definition relayed_tool (t : Tool) : Tool := {|
  tool_name := tool_name t; tool_description := tool_description t;
  tool_parameters := Obj <$> ((convert_json_schema_to_openapi <$> tool_parameters t) ≫= as_object);
  tool_required := false; tool_type := None; tool_config := None |}.

Definition relayed_level (e : ThinkingEffort) : ThinkingEffort :=
  match e with ENone => EMinimal | EXHigh | EMax => EHigh | e => e end.

(** Newer models get a level and the others a budget, of at most 24576. *)
Definition relayed_thinking (model : string) (t : ThinkingConfig) : option ThinkingConfig :=
  let shown := derived_thoughts t in
  let level := if supports_gemini_thinking_level model
               then relayed_level <$> derived_effort t else None in
  let budget := if supports_gemini_thinking_level model then None
                else (fun b => Z.min b GEMINI_THINKING_BUDGET_MAX) <$> derived_budget t in
  if is_none shown && is_none budget && is_none level then None
  else Some {| effort := level; budget_tokens := budget;
               display := (fun i : bool => if i then Summarized else Omitted) <$> shown;
               include_thoughts := shown; summary := None; th_mode := None; th_context := None |}.

Definition relayed_format (f : ResponseFormat) : option ResponseFormat :=
  match f with
  | JsonSchema _ schema _ =>
      if is_null schema then None
      else Some (JsonSchema "response" (convert_json_schema_to_openapi schema) None)
  | JsonObject => Some JsonObject
  | TextFormat => None
  end.

Definition relayed_labels (m : gmap string string) : option (gmap string string) :=
  if bool_decide (m = ∅) then None else Some m.

Definition choice_ok (tc : Value) : Prop :=
  tc = Str "auto" \/ tc = Str "required" \/ tc = Str "none" \/ exists name, tc = pinned_tool name.

Lemma index_nonempty m k : (default Null (nonempty_obj m)).[k] = default Null (assoc k m).
Proof. by destruct m. Qed.

Lemma get_nonempty m k : get k (default Null (nonempty_obj m)) = assoc k m.
Proof. by destruct m. Qed.

Definition config_member (ir : IrRequest) (k : string) : option Value :=
  let p := params ir in
  if String.eqb k "responseMimeType" then response_mime_type ir
  else if String.eqb k "responseSchema" then response_schema ir
  else if String.eqb k "thinkingConfig"
  then thinking p ≫= fun t => nonempty_obj (thinking_config (model ir) t)
  else if String.eqb k "stopSequences"
  then match gp_stop p with [] => None | l => Some (Arr (map Str l)) end
  else if String.eqb k "topK" then json_u64 <$> top_k p
  else if String.eqb k "topP" then json_f32 <$> top_p p
  else if String.eqb k "temperature" then json_f32 <$> temperature p
  else if String.eqb k "maxOutputTokens" then json_u64 <$> max_tokens p
  else None.

Lemma assoc_generation_config ir k : assoc k (generation_config ir) = config_member ir k.
Proof.
  unfold generation_config, config_member. rewrite !assoc_insert_member.
  rewrite !or_else_if; try done; last_key.
Qed.

Lemma gemini_decode_encode_tool t : decode_tool (encode_tool t) = relayed_tool t.
Proof.
  unfold decode_tool, encode_tool, relayed_tool. destruct (tool_parameters t) as [p|]; cbn [fmap option_fmap option_map default].
  - generalize (convert_json_schema_to_openapi p) as v. intros v.
    destruct (tool_description t); by destruct v.
  - by destruct (tool_description t).
Qed.

Lemma gemini_tools_roundtrip ir :
  (flat_map (fun t => map decode_tool (default [] (as_array t.["functionDeclarations"])))
    (default [] (as_array (default Null (encode_tools ir)))))
  = map relayed_tool (function_tools ir).
Proof.
  unfold encode_tools. destruct (function_tools ir) as [|t l]; [done|].
  cbn [default from_option id as_array flat_map].
  change ((obj [("functionDeclarations", Arr (map encode_tool (t :: l)))]).["functionDeclarations"])
    with (Arr (map encode_tool (t :: l))).
  cbn [as_array default from_option id]. rewrite app_nil_r, map_map. apply map_ext, gemini_decode_encode_tool.
Qed.

Lemma wrap32_budget b : in_u32 b = true -> wrap32 (Z.min b GEMINI_THINKING_BUDGET_MAX) = Z.min b GEMINI_THINKING_BUDGET_MAX.
Proof. intros Hb. apply wrap32_small. unfold GEMINI_THINKING_BUDGET_MAX. width. Qed.

Lemma derived_budget_u32 t b :
  (forall b, budget_tokens t = Some b -> in_u32 b = true) ->
  derived_budget t = Some b -> in_u32 b = true.
Proof.
  intros Hb. unfold derived_budget, derived_effort. destruct (budget_tokens t) as [b'|]; cbn.
  - intros [= <-]. by apply Hb.
  - destruct (effort t) as [[]|]; cbn; [intros [= <-]; done..|done].
Qed.

Lemma gemini_thinking_roundtrip ir gc :
  get "thinkingConfig" gc = config_member ir "thinkingConfig" ->
  (forall t b, thinking (params ir) = Some t -> budget_tokens t = Some b -> in_u32 b = true) ->
  decode_thinking gc = thinking (params ir) ≫= relayed_thinking (model ir).
Proof.
  intros Hg Hb. unfold decode_thinking. rewrite Hg. cbn -[nonempty_obj thinking_config].
  destruct (thinking (params ir)) as [t|] eqn:Et; [|done]. cbn [mbind option_bind].
  pose proof (derived_budget_u32 t) as Hd. specialize (Hb t).
  unfold thinking_config, relayed_thinking. cbv zeta.
  destruct (supports_gemini_thinking_level (model ir)).
  - destruct (derived_thoughts t) as [[]|], (derived_effort t) as [[]|]; reflexivity.
  - destruct (derived_budget t) as [b|].
    + specialize (Hd b ltac:(auto) eq_refl). apply wrap32_budget in Hd.
      destruct (derived_thoughts t) as [[]|]; lazy -[wrap32 GEMINI_THINKING_BUDGET_MAX Z.min];
        by rewrite Hd.
    + by destruct (derived_thoughts t) as [[]|].
Qed.

Lemma convert_is_null v : is_null (convert_json_schema_to_openapi v) = is_null v.
Proof.
  rewrite convert_eq. destruct v as [|[]| | | |m]; try done. cbn [convert_step]. unfold convert_object.
  by destruct (is_empty_object m).
Qed.

Lemma gemini_format_roundtrip ir gc :
  (forall k, get k gc = config_member ir k) ->
  decode_response_format gc = response_format ir ≫= relayed_format.
Proof.
  intros Hg. unfold decode_response_format, index. rewrite !Hg.
  cbn -[response_schema response_mime_type]. unfold response_schema, response_mime_type, relayed_format.
  destruct (response_format ir) as [[name schema strict| |]|]; try done.
  cbn -[convert_json_schema_to_openapi]. rewrite convert_is_null. by destruct (is_null schema).
Qed.

Lemma gemini_choice_roundtrip tc config body :
  choice_ok tc -> calling_config tc = Ok config -> get "toolConfig" body = with_config config ->
  normalize_tool_choice body = Some tc.
Proof.
  intros Htc Hc Hb. unfold normalize_tool_choice.
  replace (body.["toolConfig"]) with (default Null (with_config config)) by (unfold index; by rewrite Hb).
  destruct Htc as [->|[->|[->|[name ->]]]]; injection Hc as <-; reflexivity.
Qed.

Lemma gather_top_level body k :
  assoc k (gemini_top_level body) = if bool_decide (k ∈ top_level_keys) then get k body else None.
Proof.
  unfold gemini_top_level, top_level_keys. cbn [fold_left]. rewrite !assoc_insert_member.
  destruct (String.eqb_spec k "labels") as [->|H1]; [by destruct (get "labels" body)|].
  destruct (String.eqb_spec k "cachedContent") as [->|H2]; [by destruct (get "cachedContent" body)|].
  destruct (String.eqb_spec k "toolConfig") as [->|H3]; [by destruct (get "toolConfig" body)|].
  destruct (String.eqb_spec k "safetySettings") as [->|H4]; [by destruct (get "safetySettings" body)|].
  rewrite bool_decide_false; [done|]. rewrite !elem_of_cons, elem_of_nil. tauto.
Qed.

(** The members the wire carries beside those of the representation. *)
Definition captures_only (l : list string) (ir : IrRequest) : Prop :=
  forall k v, assoc k (captured ir) = Some v -> k ∈ l.

Lemma captures_none l k ir : captures_only l ir -> k ∉ l -> assoc k (captured ir) = None.
Proof. intros Hc Hk. destruct (assoc k (captured ir)) as [v|] eqn:E; [|done]. by apply Hc in E. Qed.

Definition kept_keys : list string := ["safetySettings"; "cachedContent"].

Lemma tool_choice_roundtrip ir config body :
  encode_tool_config ir = Ok config -> get "toolConfig" body = config ->
  (forall tc, extensions ir !! "tool_choice" = Some tc -> choice_ok tc) ->
  decode_extensions body !! "tool_choice" = extensions ir !! "tool_choice".
Proof.
  unfold encode_tool_config, decode_extensions. intros Hconf Hb Htc.
  rewrite !lookup_insert_opt, lookup_empty. cbn [String.eqb Ascii.eqb Bool.eqb or_else].
  rewrite or_else_none. destruct (extensions ir !! "tool_choice") as [tc|].
  - destruct (calling_config tc) as [fcc|] eqn:Ec; [|done]. injection Hconf as <-.
    eapply gemini_choice_roundtrip; eauto.
  - injection Hconf as <-. unfold normalize_tool_choice.
    replace (body.["toolConfig"]) with Null by (unfold index; by rewrite Hb). done.
Qed.

Lemma captured_roundtrip ir' body k :
  extensions ir' = decode_extensions body -> k ∈ top_level_keys -> assoc k (captured ir') = get k body.
Proof.
  intros He Hk. unfold captured. rewrite He. unfold decode_extensions.
  rewrite !lookup_insert_opt, lookup_empty. cbn [String.eqb Ascii.eqb Bool.eqb or_else].
  rewrite or_else_none.
  transitivity (assoc k (gemini_top_level body)).
  - by destruct (gemini_top_level body).
  - rewrite gather_top_level. by rewrite bool_decide_true.
Qed.

(** C37: What a request becomes on the way through a Gemini body, for every
    request the encoder accepts whose captured members are at most
    safetySettings and cachedContent (a captured toolConfig or labels takes
    the place of its own), whose tool choice is auto, required, none or one
    function, and whose counts fit 32 bits: each message with its contents in
    their order, where a function call is known by its name alone, system
    messages turn into user messages and messages without contents vanish; the
    function tools with their schemas converted; temperature and top_p where
    they are finite 32-bit floats, top_k, the token limit and the stop
    sequences; thinking as the level or the clamped budget the model takes;
    the response schema; the labels; the tool choice; and the captured
    members. *)
Theorem gemini_request_roundtrip `{SerdeJson} ir body headers :
  encode_request ir = Ok (Ok (body, headers)) ->
  captures_only kept_keys ir ->
  (forall n, max_tokens (params ir) = Some n -> in_u32 n = true) ->
  (forall n, top_k (params ir) = Some n -> in_u32 n = true) ->
  (forall t b, thinking (params ir) = Some t -> budget_tokens t = Some b -> in_u32 b = true) ->
  (forall tc, extensions ir !! "tool_choice" = Some tc -> choice_ok tc) ->
  exists ir', decode_request body = Ok ir'
    /\ system ir' = system ir
    /\ messages ir' = omap (relayed_message ir) (messages ir)
    /\ tools ir' = map relayed_tool (function_tools ir)
    /\ max_tokens (params ir') = max_tokens (params ir)
    /\ (finite_f32 (temperature (params ir)) -> temperature (params ir') = temperature (params ir))
    /\ (finite_f32 (top_p (params ir)) -> top_p (params ir') = top_p (params ir))
    /\ top_k (params ir') = top_k (params ir)
    /\ gp_stop (params ir') = gp_stop (params ir)
    /\ thinking (params ir') = thinking (params ir) ≫= relayed_thinking (model ir)
    /\ response_format ir' = response_format ir ≫= relayed_format
    /\ metadata ir' = metadata ir ≫= relayed_labels
    /\ extensions ir' !! "tool_choice" = extensions ir !! "tool_choice"
    /\ (forall k, k ∈ kept_keys -> assoc k (captured ir') = assoc k (captured ir)).
Proof.
  intros Hb%encode_request_body Hcap Hmax Hk Hth Htc.
  destruct (gemini_get_request_body _ _ Hb) as (config & Hconf & _ & Hg). clear Hb.
  assert (forall k, k ∉ kept_keys -> assoc k (captured ir) = None) as Hnone
    by (intros k; by apply captures_none).
  set (gc := body.["generationConfig"]).
  assert (forall k, get k gc = config_member ir k) as Hgc.
  { intros k. unfold gc, index. rewrite Hg. unfold request_member.
    rewrite Hnone by (apply (bool_decide_unpack _); exact I).
    cbn -[nonempty_obj generation_config]. rewrite !or_else_none, get_nonempty.
    apply assoc_generation_config. }
  eexists. split; [reflexivity|]. cbn [system messages tools params max_tokens temperature top_p top_k gp_stop thinking
    response_format metadata extensions decode_params]. fold gc.
  split_and!.
  - unfold decode_system, index. rewrite Hg. unfold request_member.
    rewrite Hnone by (apply (bool_decide_unpack _); exact I).
    cbn. destruct (system ir) as [s|]; [|done]. reflexivity.
  - unfold decode_messages, index. rewrite Hg. cbn. apply decode_contents_from.
  - unfold decode_tools, index at 2. rewrite Hg. unfold request_member.
    rewrite Hnone by (apply (bool_decide_unpack _); exact I). cbn -[encode_tools].
    rewrite !or_else_none. apply gemini_tools_roundtrip.
  - unfold index. rewrite Hgc. cbn. destruct (max_tokens (params ir)) as [n|]; [|done].
    cbn -[wrap32]. by rewrite wrap32_small by auto.
  - unfold index. rewrite Hgc. apply json_f32_roundtrip.
  - unfold index. rewrite Hgc. apply json_f32_roundtrip.
  - unfold index. rewrite Hgc. cbn. destruct (top_k (params ir)) as [n|]; [|done].
    cbn -[wrap32]. by rewrite wrap32_small by auto.
  - unfold index. rewrite Hgc. cbn. destruct (gp_stop (params ir)) as [|s l]; [done|].
    cbn. f_equal. apply omap_str.
  - by apply gemini_thinking_roundtrip.
  - by apply gemini_format_roundtrip.
  - unfold decode_labels. rewrite Hg. unfold request_member.
    rewrite Hnone by (apply (bool_decide_unpack _); exact I). cbn. unfold labels_of, relayed_labels.
    destruct (metadata ir) as [m|]; [|done]. cbn. destruct (bool_decide (m = ∅)); [done|].
    apply string_map_roundtrip.
  - apply (tool_choice_roundtrip _ config); [done| |done]. rewrite Hg. unfold request_member.
    rewrite Hnone by (apply (bool_decide_unpack _); exact I). cbn. by rewrite !or_else_none.
  - intros k Hk'. rewrite (captured_roundtrip _ body) by (done || set_solver).
    rewrite Hg. unfold request_member, kept_keys in *.
    rewrite !elem_of_cons, elem_of_nil in Hk'. destruct Hk' as [->|[->|[]]]; cbn; apply or_else_none.
Qed.

(** ** When a request is refused *)

(** An assistant message calls the function [name] under the id [id]. *)
Definition calls_function (ir : IrRequest) (id name : string) : Prop :=
  exists m arguments call_id caller wire_type,
    m ∈ messages ir /\ role m = RAssistant
    /\ CToolCall id name arguments call_id caller wire_type ∈ content m.

Lemma elem_of_calls l c :
  c ∈ calls_of l <-> exists m, m ∈ l /\ role m = RAssistant /\ c ∈ content m.
Proof.
  unfold calls_of. rewrite list_elem_of_In, in_flat_map. split.
  - intros (m & Hm & Hc). rewrite <- in_rev, <- list_elem_of_In in Hm. exists m.
    destruct (role m); try done. by rewrite <- list_elem_of_In in Hc.
  - intros (m & Hm & Hr & Hc). exists m. rewrite <- in_rev, Hr. by rewrite <- !list_elem_of_In.
Qed.

Lemma head_omap_none {A B} (f : A -> option B) (l : list A) :
  head (omap f l) = None <-> forall x, x ∈ l -> f x = None.
Proof.
  induction l as [|x l IH]; cbn.
  - split; [|done]. by intros _ y ?%elem_of_nil.
  - destruct (f x) eqn:E; cbn.
    + split; [done|]. intros Hl. by rewrite Hl in E by left.
    + rewrite IH. split; [by intros Hl y [->|Hy]%elem_of_cons; auto|]. intros Hl y Hy. apply Hl. by right.
Qed.

Lemma lookup_none ir id :
  lookup_tool_call_name (messages ir) id = None <->
  (id = "" \/ forall name, calls_function ir id name -> name = "")
  /\ (forall name, id = synth_gemini_call_id name -> name = "").
Proof.
  unfold lookup_tool_call_name.
  assert ((name ← strip_prefix synth_prefix id; if is_empty name then None else Some name) = None
          <-> forall name, id = synth_gemini_call_id name -> name = "") as Hp.
  { unfold synth_gemini_call_id. split.
    - intros Hs name ->. destruct (is_empty name) eqn:E; [by apply is_empty_eq|].
      rewrite strip_prefix_app in Hs. cbn in Hs. by rewrite E in Hs.
    - intros Hn. destruct (strip_prefix synth_prefix id) as [name|] eqn:E; [|done]. cbn.
      apply strip_prefix_spec in E. destruct (is_empty name) eqn:En; [done|].
      rewrite (Hn name) in En by (by rewrite En). done. }
  destruct (is_empty id) eqn:E.
  - apply is_empty_eq in E as ->. cbn [or_else]. rewrite Hp. tauto.
  - assert (id <> "") by (intros ->; done).
    assert (head (omap (named_call id) (calls_of (messages ir))) = None
            <-> forall name, calls_function ir id name -> name = "") as Hc.
    { rewrite head_omap_none. split.
      - intros Hl name (m & a & ci & ca & w & Hm & Hr & Hin).
        specialize (Hl (CToolCall id name a ci ca w)). cbn in Hl. rewrite String.eqb_refl in Hl.
        apply is_empty_eq. destruct (is_empty name); [done|].
        discriminate Hl. apply elem_of_calls. eauto.
      - intros Hn c Hc%elem_of_calls. destruct c as [| |i name a ci ca w| | | | |]; try done. cbn.
        destruct (String.eqb_spec i id) as [->|]; [|done].
        rewrite (Hn name); [done|]. destruct Hc as (m & Hm & Hr & Hin). by exists m, a, ci, ca, w. }
    destruct (head _) as [n|].
    + cbn [or_else]. split; [done|]. intros [[?|Hn] _]; [done|]. by apply Hc in Hn.
    + cbn [or_else]. rewrite Hp. naive_solver.
Qed.

Lemma all_named_spec ir :
  all_named ir = false <->
  exists m id text i caller wire_type,
    m ∈ messages ir /\ CToolResult id "" text i caller wire_type ∈ content m
    /\ lookup_tool_call_name (messages ir) id = None.
Proof.
  unfold all_named. rewrite negb_false_iff, existsb_exists. setoid_rewrite existsb_exists.
  setoid_rewrite <- list_elem_of_In. split.
  - intros (m & Hm & c & Hc & Hn). destruct c as [| | |id name text i ca w| | | |]; try done.
    cbn in Hn. apply andb_prop in Hn as [->%is_empty_eq Hl]. exists m, id, text, i, ca, w.
    by destruct (lookup_tool_call_name (messages ir) id).
  - intros (m & id & text & i & ca & w & Hm & Hc & Hl). exists m. split; [done|].
    eexists. split; [exact Hc|]. cbn. by rewrite Hl.
Qed.

(** Gemini knows results by the name of their function.  A request whose
    schema is accepted fails exactly when it has a result without a name whose
    id belongs to no named call of the assistant and does not hold a name
    itself; the error is reported before anything can panic. *)
Theorem gemini_result_needs_name `{SerdeJson} ir :
  is_ok (validate_response_format_for_target (response_format ir) GeminiCodec_id) = true ->
  (exists e, encode_request ir = Ok (Err e)) <->
  exists m id text i caller wire_type,
    m ∈ messages ir /\ CToolResult id "" text i caller wire_type ∈ content m
    /\ (id = "" \/ forall name, calls_function ir id name -> name = "")
    /\ (forall name, id = synth_gemini_call_id name -> name = "").
Proof.
  intros Hv. setoid_rewrite <- lookup_none. rewrite <- all_named_spec.
  unfold encode_request. destruct (validate_response_format_for_target _ _); [|done].
  unfold encode_body. destruct (all_named ir) eqn:E.
  - rewrite encode_contents_named by done. split; [|done].
    destruct (encode_tool_config ir); by intros [? ?].
  - destruct (encode_contents_nameless ir E) as [e ->]. split; [done|]. intros _. by exists e.
Qed.

(** ** Thought signatures *)

(** The function calls of a request body. *)
Definition sent_calls (body : Value) : list Value :=
  List.filter (fun p => negb (is_none (get "functionCall" p)))
    (flat_map (fun m => default [] (as_array m.["parts"])) (default [] (as_array body.["contents"]))).

Definition request_calls (ir : IrRequest) : list Content :=
  flat_map (fun m => tool_calls (content m)) (messages ir).

Section Signatures.
Context `{SerdeJson} (ir : IrRequest).

Definition signatures (l : list Value) : list (option Value) :=
  map (get "thoughtSignature") (List.filter (fun p => negb (is_none (get "functionCall" p))) l).

Lemma signatures_app l1 l2 : signatures (l1 ++ l2) = signatures l1 ++ signatures l2.
Proof using. unfold signatures. by rewrite List.filter_app, map_app. Qed.

Lemma part_signature i c :
  signatures (option_list (signed ir i c <$> plain_part ir c))
  = if is_tool_call c then [expected_signature ir i] else [].
Proof using.
  destruct c as [| |? name a| | | | |[]]; try reflexivity. unfold signed. cbn.
  by destruct (expected_signature ir i).
Qed.

Lemma parts_signatures i l :
  signatures (parts_from ir i l) = map (expected_signature ir) (seq i (length (tool_calls l))).
Proof using.
  revert i. induction l as [|c l IH]; intros i; [done|]. cbn [parts_from].
  rewrite signatures_app, part_signature, IH. unfold tool_calls. cbn [List.filter].
  by destruct (is_tool_call c).
Qed.

Lemma contents_signatures i l :
  signatures (flat_map (fun m => default [] (as_array m.["parts"])) (contents_from ir i l))
  = map (expected_signature ir) (seq i (length (flat_map (fun m => tool_calls (content m)) l))).
Proof using.
  revert i. induction l as [|m l IH]; intros i; [done|]. cbn [contents_from flat_map].
  rewrite length_app, seq_app, map_app, <- parts_signatures, <- IH.
  destruct (parts_from ir i (content m)) as [|v parts]; [done|]. cbn [flat_map].
  by rewrite signatures_app.
Qed.
End Signatures.

(** The function calls of a body carry, over all messages and in their
    order, the stashed thought signatures one by one; when there are no more,
    a model that demands them gets the marker that skips the check, and the
    calls for other models get none. *)
Theorem thought_signatures_replayed `{SerdeJson} ir body headers :
  encode_request ir = Ok (Ok (body, headers)) ->
  map (get "thoughtSignature") (sent_calls body)
  = map (expected_signature ir) (seq 0 (length (request_calls ir))).
Proof.
  intros Hb%encode_request_body. destruct (gemini_get_request_body _ _ Hb) as (config & _ & _ & Hg).
  unfold sent_calls, index at 2. rewrite Hg. apply contents_signatures.
Qed.

(** ** Responses *)

Definition relayed_answer (c : Content) : option Content :=
  match c with
  | CText text _ _ => Some (plain_text text)
  | CReasoning text _ _ _ => Some (plain_reasoning text)
  | CToolCall _ name arguments _ _ _ =>
      Some (CToolCall (synth_gemini_call_id name) name arguments None None None)
  | _ => None
  end.

Definition relayed_finish (r : FinishReason) : FinishReason :=
  match r with OtherReason _ | ToolCalls => Stop | r => r end.

Definition relayed_usage (u : Usage) : Usage := {|
  prompt_tokens := prompt_tokens u + default 0 (cache_write_tokens u);
  completion_tokens := completion_tokens u;
  reasoning_tokens := reasoning_tokens u;
  cache_read_tokens := positive (cache_read_tokens u);
  cache_write_tokens := None;
  total_tokens := prompt_for_gemini u + completion_tokens u |}.

(** The counts are natural numbers and their sum is a [u64]. *)
Definition counts_ok (u : Usage) : Prop :=
  0 <= prompt_tokens u /\ 0 <= completion_tokens u
  /\ 0 <= default 0 (cache_read_tokens u) /\ 0 <= default 0 (cache_write_tokens u)
  /\ prompt_tokens u + default 0 (cache_read_tokens u) + default 0 (cache_write_tokens u)
     + completion_tokens u <= u64_max.

Lemma prompt_sum u :
  counts_ok u ->
  prompt_for_gemini u
  = prompt_tokens u + default 0 (cache_read_tokens u) + default 0 (cache_write_tokens u)
  /\ wrap64 (prompt_for_gemini u + completion_tokens u) = prompt_for_gemini u + completion_tokens u.
Proof.
  intros (? & ? & ? & ? & ?). unfold prompt_for_gemini, wrap64, u64_max in *.
  rewrite !Z.mod_small by (rewrite ?Z.mod_small by lia; lia). lia.
Qed.

Lemma usage_members u r c k :
  get k (counts_json u r c)
  = if String.eqb k "cachedContentTokenCount" then json_u64 <$> c
    else if String.eqb k "thoughtsTokenCount" then json_u64 <$> r
    else if String.eqb k "totalTokenCount"
    then Some (json_u64 (wrap64 (prompt_for_gemini u + completion_tokens u)))
    else if String.eqb k "candidatesTokenCount" then Some (json_u64 (completion_tokens u))
    else if String.eqb k "promptTokenCount" then Some (json_u64 (prompt_for_gemini u)) else None.
Proof.
  unfold counts_json. rewrite !get_set_opt_if, get_obj by auto with body.
  rewrite !or_else_if; try done; last_key.
Qed.

Lemma as_u64_json o : as_u64 (default Null (json_u64 <$> o)) = o.
Proof. by destruct o. Qed.

Lemma usage_of_counts u r c :
  counts_ok u -> default 0 (cache_read_tokens u) = default 0 c ->
  usage_of (counts_json u r c)
  = {| prompt_tokens := prompt_tokens u + default 0 (cache_write_tokens u);
       completion_tokens := completion_tokens u; reasoning_tokens := r; cache_read_tokens := c;
       cache_write_tokens := None; total_tokens := prompt_for_gemini u + completion_tokens u |}.
Proof.
  intros Hu Hc. destruct (prompt_sum u Hu) as [Hp Ht]. destruct Hu as (? & ? & ? & ? & _).
  unfold usage_of, index. rewrite !usage_members.
  cbn [String.eqb Ascii.eqb Bool.eqb]. rewrite !as_u64_json. cbn [default from_option id as_u64 json_u64].
  rewrite Ht. f_equal. rewrite Hp, Hc. unfold sat_sub. lia.
Qed.

Lemma positive_default o : 0 <= default 0 o -> default 0 o = default 0 (positive o).
Proof. destruct o as [n|]; [|done]. cbn. destruct (Z.ltb_spec 0 n); cbn; lia. Qed.

Lemma decode_answers (l : list Content) :
  omap decode_answer_part (omap answer_part l) = omap relayed_answer l.
Proof.
  induction l as [|c l IH]; [done|].
  destruct c as [| |id name a| | | | |]; cbn -[decode_answer_part]; rewrite <- IH; reflexivity.
Qed.

Definition response_candidate (ir : IrResponse) : Value :=
  set_opt "finishReason" ((Str ∘ finish_reason_str) <$> r_finish_reason ir)
    (obj [("content", obj [("role", Str "model"); ("parts", Arr (omap answer_part (r_content ir)))])]).

Lemma gemini_get_encode_response ir body k :
  encode_response ir = Ok body ->
  get k body
  = if String.eqb k "usageMetadata" then usage_json <$> r_usage ir
    else if String.eqb k "responseId" then Str <$> r_response_id ir
    else if String.eqb k "candidates" then Some (Arr [response_candidate ir]) else None.
Proof.
  unfold encode_response. intros [= <-].
  rewrite !get_set_opt_if, get_obj by auto with body.
  rewrite !or_else_if; try done; last_key.
Qed.

Lemma candidate_members ir :
  get "content" (response_candidate ir)
  = Some (obj [("role", Str "model"); ("parts", Arr (omap answer_part (r_content ir)))])
  /\ get "groundingMetadata" (response_candidate ir) = None
  /\ as_str (response_candidate ir).["finishReason"] = finish_reason_str <$> r_finish_reason ir.
Proof. unfold response_candidate. by destruct (r_finish_reason ir). Qed.

Lemma existsb_relayed (l : list Content) :
  existsb is_tool_call (omap relayed_answer l) = existsb is_tool_call l.
Proof.
  induction l as [|c l IH]; [done|].
  destruct c as [| | | | | | |]; cbn -[is_tool_call]; rewrite ?IH; done.
Qed.

(** What a response becomes on the way through a Gemini body: every text,
    thought and function call in its order, a call known by its name alone;
    the id; the reason it ended, which is tool calls exactly when it was a
    normal end and there are calls; the counts, with the tokens written to
    the cache now part of the prompt.  Refusals, media, signatures and the
    other kinds of content are lost. *)
Theorem gemini_response_roundtrip ir body :
  encode_response ir = Ok body ->
  (forall u, r_usage ir = Some u -> counts_ok u) ->
  exists ir', decode_response body = Ok ir'
    /\ r_content ir' = omap relayed_answer (r_content ir)
    /\ r_response_id ir' = r_response_id ir
    /\ r_finish_reason ir'
       = (fun r => with_calls (existsb is_tool_call (r_content ir)) (relayed_finish r))
           <$> r_finish_reason ir
    /\ r_usage ir' = relayed_usage <$> r_usage ir
    /\ r_extensions ir' = ∅.
Proof.
  intros Hb Hu. destruct (candidate_members ir) as (Hc & Hg & Hf).
  pose proof (fun k => gemini_get_encode_response ir body k Hb) as Hk.
  assert (body.["candidates"] = Arr [response_candidate ir]) as Hcand
    by (unfold index; by rewrite Hk).
  assert (answer_parts body = omap answer_part (r_content ir)) as Hparts.
  { unfold answer_parts, candidates. rewrite Hcand. cbn -[response_candidate]. rewrite Hc.
    by rewrite app_nil_r. }
  assert (grounding_metadata body = None) as Hground.
  { unfold grounding_metadata, first_candidate. rewrite Hcand. cbn -[response_candidate]. by rewrite Hg. }
  eexists. split; [reflexivity|].
  cbn [r_content r_usage r_finish_reason r_response_id r_extensions].
  unfold annotate_all. rewrite Hground, Hparts, decode_answers, existsb_relayed. split_and!.
  - done.
  - unfold index. rewrite Hk. cbn. by destruct (r_response_id ir).
  - unfold wire_finish, first_candidate. rewrite Hcand. cbn -[response_candidate]. rewrite Hf.
    by destruct (r_finish_reason ir) as [[]|].
  - unfold decode_usage. rewrite Hk. cbn -[usage_json]. destruct (r_usage ir) as [u|]; [|done].
    cbn [fmap option_fmap option_map mbind option_bind].
    assert (is_u64 (usage_json u).["promptTokenCount"] = true) as ->.
    { unfold usage_json, index. by rewrite usage_members. }
    assert (is_object (usage_json u) = true) as -> by (unfold usage_json, counts_json; auto with body).
    specialize (Hu u eq_refl). unfold usage_json. cbn [andb orb]. f_equal.
    apply usage_of_counts; [done|]. apply positive_default. apply Hu.
  - unfold collected_signatures. rewrite Hparts.
    assert (omap (get "thoughtSignature") (omap answer_part (r_content ir)) = []) as ->; [|done].
    clear. induction (r_content ir) as [|c l IH]; [done|]. by destruct c as [| | | | | | |].
Qed.

(** ** Defects of the codec *)

(** A tool result whose text is JSON but no object (a number, a list) is sent
    as a [response] that is no object, against the wire format, and reading
    it back gives the empty text: only a text that is not JSON is wrapped. *)
Theorem json_result_is_no_object `{SerdeJson} ir text v m id name :
  from_str text = Some v -> is_object v = false -> is_empty name = false ->
  encode_parts ir 0 [CToolResult id name text m None None]
  = Ok ([obj [("functionResponse", obj [("name", Str name); ("response", v)])]], 0%nat)
  /\ relayed_result text = "".
Proof.
  intros Hv Ho Hn. unfold relayed_result, response_value. cbn. unfold resolve_name, response_value.
  rewrite Hn. cbn. rewrite Hv. split; [done|]. by destruct v.
Qed.

Lemma json_result_is_no_object_witness :
  @relayed_result coded_json (@to_string coded_json (json_u64 42)) = "".
Proof.
  apply (@json_result_is_no_object coded_json (@Build_IrRequest "" None [] [] GenerationParams_default
           None false GeminiCodec_id None ∅) _ (json_u64 42) None "" "f"); try done.
Defined.

(** The signatures of a response are collected from all its parts, and those
    of a request are handed to its function calls: a signed text before a
    signed call gives the call the signature of the text. *)
Theorem text_signature_reaches_call sig_text sig_call :
  let body := obj [("candidates", Arr [obj [("content", obj [("parts", Arr
                [obj [("text", Str "hm"); ("thoughtSignature", Str sig_text)];
                 obj [("functionCall", obj [("name", Str "f")]);
                      ("thoughtSignature", Str sig_call)]])])]])] in
  match decode_response body with
  | Ok answer =>
      let ir := {| model := "gemini-3"; system := None;
                   messages := [{| role := RAssistant; content := r_content answer |}];
                   tools := []; params := GenerationParams_default; response_format := None;
                   stream := false; ingress_protocol := GeminiCodec_id; metadata := None;
                   extensions := r_extensions answer |} in
      tool_calls (r_content answer) = [CToolCall "gemini_call_f" "f" Null None None None]
      /\ expected_signature ir 0 = Some (Str sig_text)
  | Err _ => False
  end.
Proof. by split. Qed.

(** All the texts of a response get the citations; the comment says the last
    one. *)
Theorem every_text_is_annotated url :
  let body := obj [("candidates", Arr [obj
                [("content", obj [("parts", Arr [text_json "a"; text_json "b"])]);
                 ("groundingMetadata",
                   obj [("groundingChunks", Arr [obj [("web", obj [("uri", Str url)])]])])]])] in
  let citation := {| an_kind := UrlCitation; start_index := None; end_index := None;
                     an_title := None; an_url := Some url |} in
  match decode_response body with
  | Ok answer => r_content answer = [CText "a" (Some [citation]) None; CText "b" (Some [citation]) None]
  | Err _ => False
  end.
Proof. done. Qed.

(** A list of allowed functions is cut to its first name: the tool choice made
    from it is written first, and the captured [toolConfig] is then skipped,
    where the comment gives the captured one priority. *)
Theorem allowed_functions_are_cut `{SerdeJson} a b :
  let config names := obj [("functionCallingConfig",
                            obj [("mode", Str "ANY"); ("allowedFunctionNames", Arr names)])] in
  match decode_request (obj [("contents", Arr []); ("toolConfig", config [Str a; Str b])]) with
  | Ok ir => match encode_body ir with
             | Ok (Ok body) => get "toolConfig" body = Some (config [Str a])
             | _ => False
             end
  | Err _ => False
  end.
Proof. by lazy. Qed.

(** Two parallel calls of one function without native ids get the same id. *)
Lemma parallel_calls_share_id `{SerdeJson} name a1 a2 :
  let call a := obj [("functionCall", obj [("name", Str name); ("args", a)])] in
  omap decode_part [call a1; call a2]
  = [CToolCall (synth_gemini_call_id name) name a1 None None None;
     CToolCall (synth_gemini_call_id name) name a2 None None None].
Proof. done. Qed.

(** The system instruction is read under its proto name only: the camel-case
    member of the documented JSON form is ignored. *)
Lemma camel_case_system_is_ignored `{SerdeJson} parts contents :
  match decode_request (obj [("systemInstruction", obj [("parts", parts)]); ("contents", contents)]) with
  | Ok ir => system ir = None
  | Err _ => False
  end.
Proof. by lazy. Qed.

(** ** Witnesses *)

Definition sample_request : IrRequest := {|
  model := "gemini-3-pro"; system := Some "be brief";
  messages :=
    [{| role := RUser; content := [plain_text "weather in Oslo?"] |};
     {| role := RAssistant;
        content := [plain_reasoning "look it up";
                    CToolCall "call_1" "weather" (obj [("city", Str "Oslo")]) None None None;
                    CToolCall "call_2" "time" (obj []) None None None] |};
     {| role := RTool; content := [CToolResult "call_1" "" "rain" None None None] |}];
  tools := [{| tool_name := "weather"; tool_description := None; tool_parameters := Some sample_schema;
               tool_required := true; tool_type := None; tool_config := None |}];
  params := {| max_tokens := Some 100; temperature := Some (SpecFloat.S754_finite false 11744051 (-24)); top_p := None; top_k := Some 40;
               gp_stop := ["END"]; frequency_penalty := None; presence_penalty := None;
               seed := None; thinking := Some (effort_only EMax); verbosity := None |};
  response_format := Some JsonObject; stream := true; ingress_protocol := ChatCompletionsCodec_id;
  metadata := Some (<["team" := "a"]> ∅);
  extensions := <["tool_choice" := pinned_tool "weather"]>
                  (<["gemini_thought_signatures" := Arr [Str "sig"]]> ∅) |}.

Definition sent_body (ir : IrRequest) : Value :=
  match @encode_request coded_json ir with Ok (Ok (body, _)) => body | _ => Null end.

Lemma gemini_request_roundtrip_witness :
  exists ir', @decode_request coded_json (sent_body sample_request) = Ok ir'
    /\ system ir' = Some "be brief" /\ length (messages ir') = 3%nat
    /\ temperature (params ir') = Some (SpecFloat.S754_finite false 11744051 (-24))
    /\ thinking (params ir') = Some (effort_only EHigh)
    /\ metadata ir' = Some (<["team" := "a"]> ∅).
Proof.
  destruct (@gemini_request_roundtrip coded_json sample_request (sent_body sample_request)
              request_headers) as (ir' & Hd & Hs & Hm & _ & _ & Htemp & _ & _ & _ & Ht & _ & Hl & _).
  - by vm_compute.
  - by intros k v Hk.
  - by intros n [= <-].
  - by intros n [= <-].
  - by intros t b [= <-].
  - cbn. intros tc. rewrite lookup_insert_eq. intros [= <-]. right. right. right. by eexists.
  - exists ir'. split; [exact Hd|]. split; [exact Hs|]. split; [by rewrite Hm|]. split.
    { apply Htemp. by intros x [= <-]. }
    split.
    + rewrite Ht. by vm_compute.
    + rewrite Hl. by vm_compute.
Defined.

Lemma gemini_result_needs_name_witness :
  exists e, @encode_request coded_json
    {| model := "gemini"; system := None;
       messages := [{| role := RTool; content := [CToolResult "call_9" "" "rain" None None None] |}];
       tools := []; params := GenerationParams_default; response_format := None; stream := false;
       ingress_protocol := ChatCompletionsCodec_id; metadata := None; extensions := ∅ |} = Ok (Err e).
Proof.
  apply (@gemini_result_needs_name coded_json); [done|].
  eexists _, "call_9", "rain", None, None, None. split; [by left|]. split; [by left|]. split.
  - right. intros name (m & a & ci & ca & w & Hm & Hr & _).
    apply list_elem_of_singleton in Hm as ->. done.
  - intros name. unfold synth_gemini_call_id. destruct name as [|x name]; [done|]. cbn. done.
Defined.

Lemma thought_signatures_replayed_witness :
  map (get "thoughtSignature") (sent_calls (sent_body sample_request))
  = [Some (Str "sig"); Some (Str SKIP_THOUGHT_SIGNATURE_VALIDATOR)].
Proof.
  rewrite (@thought_signatures_replayed coded_json sample_request _ request_headers) by (by vm_compute).
  by vm_compute.
Defined.

Lemma gemini_response_roundtrip_witness :
  exists ir', decode_response (match encode_response
    {| r_content := [CReasoning "hm" (Some "sig") None None; CText "hi" None None;
                     CToolCall "call_1" "f" (obj []) None None None];
       r_usage := Some {| prompt_tokens := 5; completion_tokens := 7; reasoning_tokens := Some 2;
                          cache_read_tokens := Some 3; cache_write_tokens := Some 1;
                          total_tokens := 16 |};
       r_finish_reason := Some ToolCalls; r_response_id := Some "r1"; r_stop_details := None;
       r_extensions := ∅ |} with Ok b => b | Err _ => Null end) = Ok ir'
    /\ r_finish_reason ir' = Some ToolCalls
    /\ r_usage ir' = Some {| prompt_tokens := 6; completion_tokens := 7; reasoning_tokens := Some 2;
                             cache_read_tokens := Some 3; cache_write_tokens := None;
                             total_tokens := 16 |}.
Proof.
  match goal with |- context [encode_response ?r] =>
    destruct (gemini_response_roundtrip r _ eq_refl) as (ir' & Hd & _ & _ & Hf & Hu & _);
    [|exists ir'; split; [exact Hd|]; split; [exact Hf|exact Hu]]
  end.
  intros u [= <-]. unfold counts_ok, u64_max. cbn. lia.
Defined.
