(* ===== verification/GeminiStream.v ===== *)
(** * GeminiStream: the streaming codec of Gemini

    [GeminiStreamEncoder] and [GeminiStreamDecoder] of
    [crates/protocols/src/gemini.rs].  The encoder has no state; the decoder
    keeps the id of the response, whether a finish reason and a function call
    were seen, and the thought signatures.  Then what is read of what the
    encoder writes, and the defects of the two halves. *)

From stdpp Require Import base option list gmap strings.
From Stdlib Require Import ZArith Lia Ascii.
From S2P Require Import Prelude RustStr F64 Json JsonBody Telemetry Protocol Classify Errors Ir StructuredOutput Sse ChatStream ChatRequest GeminiSchema Gemini GeminiProps.

Local Open Scope string_scope.
Local Open Scope list_scope.
Local Open Scope Z_scope.

(** The table [error_status_for_class]. *)
Definition error_status_for_class (c : ErrorClass) : string :=
  match c with
  | Transient => "INTERNAL"
  | RateLimited => "RESOURCE_EXHAUSTED"
  | Auth => "UNAUTHENTICATED"
  | BadRequest => "INVALID_ARGUMENT"
  | LossyOrCapability => "FAILED_PRECONDITION"
  | ModelNotFound => "NOT_FOUND"
  | DeadlineExceeded => "DEADLINE_EXCEEDED"
  | UpstreamExhausted => "UNAVAILABLE"
  | AuthMissing => "UNAUTHENTICATED"
  | AuthInvalid => "UNAUTHENTICATED"
  | AuthDisabled => "PERMISSION_DENIED"
  | ModelAccessDenied => "PERMISSION_DENIED"
  | Overloaded => "UNAVAILABLE"
  end.

(** ** The encoder *)

Definition candidate_json (candidate : Value) : Value := obj [("candidates", Arr [candidate])].

Definition text_chunk (text : string) : Value :=
  candidate_json (obj [("content", obj [("role", Str "model"); ("parts", Arr [text_json text])])]).

Definition part_chunk (part : Value) : Value :=
  candidate_json (obj [("content", obj [("parts", Arr [part])])]).

Definition stream_usage_json (u : Usage) : Value :=
  counts_json u (positive (reasoning_tokens u)) (positive (cache_read_tokens u)).

Definition error_chunk (message : string) (c : ErrorClass) : Value :=
  obj [("error", obj [("message", Str message); ("status", Str (error_status_for_class c))])].

Section Encoder.
Context `{SerdeJson}.

(** Arguments that are not JSON become an empty object. *)
Definition call_args (arguments : string) : Value :=
  if is_empty (trim arguments) then obj [] else default (obj []) (from_str arguments).

(** The body of the event of a part; the parts of programs have none. *)
Definition part_body (part : StreamPart) : option Value :=
  match part with
  | TextDelta text => Some (text_chunk text)
  | ReasoningDelta text _ _ => Some (part_chunk (thought_json text))
  | ToolCallDelta _ name arguments _ _ _ =>
      let fc := set_opt "name" (Str <$> name) (obj [("args", call_args arguments)]) in
      Some (part_chunk (obj [("functionCall", fc)]))
  | ProgramDelta _ _ _ _ | ProgramOutputDelta _ _ _ _ => None
  | UsagePart usage => Some (obj [("usageMetadata", stream_usage_json usage)])
  | FinishPart reason => Some (candidate_json (obj [("finishReason", Str (finish_reason_str reason))]))
  | ErrorPart message class _ => Some (error_chunk message class)
  | ResponseStarted id => Some (obj [("responseId", Str id)])
  | ResponseCompleted id _ _ _ => Some (obj [("responseId", Str id); ("done", Bool true)])
  end.

Definition event (v : Value) : string := "data: " +:+ to_string v +:+ blank_line.

Definition encode_part (part : StreamPart) : string :=
  match part_body part with Some v => event v | None => "" end.

Definition encode_error (message : string) (c : ErrorClass) : string := event (error_chunk message c).

Definition encode_done : string := "".
End Encoder.

(** ** The decoder *)

Record Decoder := {
  response_id : option string;
  saw_finish : bool;
  saw_tool_calls : bool;
  signatures : list Value;
}.

Definition Decoder_new : Decoder :=
  {| response_id := None; saw_finish := false; saw_tool_calls := false; signatures := [] |}.

Definition finished (d : Decoder) : Decoder := {|
  response_id := response_id d; saw_finish := true; saw_tool_calls := saw_tool_calls d;
  signatures := signatures d |}.

Section Decoder.
Context `{SerdeJson}.

Definition call_delta (fc : Value) : StreamPart :=
  let name := as_str fc.["name"] in
  ToolCallDelta (call_id_or fc (default "" (synth_gemini_call_id <$> name))) name
    (match get "args" fc with
     | Some args => if is_null args then "{}" else to_string args
     | None => "{}"
     end) None None None.

(** Texts and thoughts of a part. *)
Definition text_parts (p : Value) : list StreamPart :=
  if is_thought p then option_list ((fun t => ReasoningDelta t None None) <$> as_str p.["text"])
  else option_list (TextDelta <$> as_str p.["text"])
       ++ option_list ((fun t => ReasoningDelta t None None) <$> stray_thought p).

Definition decode_stream_part (d : Decoder) (p : Value) : list StreamPart * Decoder :=
  match get "functionCall" p with
  | Some fc =>
      (text_parts p ++ [call_delta fc],
       {| response_id := response_id d; saw_finish := saw_finish d; saw_tool_calls := true;
          signatures := signatures d ++ option_list (get "thoughtSignature" p) |})
  | None => (text_parts p, d)
  end.

Fixpoint decode_stream_parts (d : Decoder) (l : list Value) : list StreamPart * Decoder :=
  match l with
  | [] => ([], d)
  | p :: l =>
      let '(parts, d) := decode_stream_part d p in
      let '(rest, d) := decode_stream_parts d l in
      (parts ++ rest, d)
  end.

Definition decode_candidate (d : Decoder) (c : Value) : list StreamPart * Decoder :=
  let '(parts, d) := decode_stream_parts d (default [] (as_array c.["content"].["parts"])) in
  match as_str c.["finishReason"] with
  | Some fr => (parts ++ [FinishPart (Gemini.with_calls (saw_tool_calls d) (finish_of_str fr))], finished d)
  | None => (parts, d)
  end.

Fixpoint decode_candidates (d : Decoder) (l : list Value) : list StreamPart * Decoder :=
  match l with
  | [] => ([], d)
  | c :: l =>
      let '(parts, d) := decode_candidate d c in
      let '(rest, d) := decode_candidates d l in
      (parts ++ rest, d)
  end.

Definition count_keys : list string :=
  ["promptTokenCount"; "candidatesTokenCount"; "totalTokenCount"; "cachedContentTokenCount";
   "thoughtsTokenCount"].

(** The usage, and an end of the stream where none was seen. *)
Definition decode_usage_metadata (d : Decoder) (event : Value) : list StreamPart * Decoder :=
  match get "usageMetadata" event with
  | Some usage =>
      if existsb (fun k => negb (is_none (get k usage))) count_keys then
        if saw_finish d then ([UsagePart (usage_of usage)], d)
        else ([UsagePart (usage_of usage); FinishPart (Gemini.with_calls (saw_tool_calls d) Stop)],
              finished d)
      else ([], d)
  | None => ([], d)
  end.

Context `{Lowercase}.

Definition error_part (error : Value) : StreamPart :=
  let code := get "status" error ≫= as_str in
  ErrorPart (default "Unknown" (get "message" error ≫= as_str))
    (classify_upstream_error None code) code.

Definition decode_event (d : Decoder) (event : Value) : list StreamPart * Decoder :=
  let '(started, d) :=
    match response_id d, as_str event.["responseId"] with
    | None, Some id =>
        ([ResponseStarted id],
         {| response_id := Some id; saw_finish := saw_finish d; saw_tool_calls := saw_tool_calls d;
            signatures := signatures d |})
    | _, _ => ([], d)
    end in
  match get "error" event ≫= as_object with
  | Some ((_ :: _) as error) => (started ++ [error_part (Obj error)], d)
  | _ =>
      let '(parts, d) := decode_candidates d (default [] (as_array event.["candidates"])) in
      let '(usage, d) := decode_usage_metadata d event in
      (started ++ parts ++ usage, d)
  end.

(** The first element of an array stands for the event. *)
Definition event_text (data : string) : string :=
  if starts_with "[" data then
    match from_str data ≫= as_array with
    | Some (v :: _) => to_string v
    | _ => ""
    end
  else data.

Definition feed (d : Decoder) (line : string) : run (result Error (list StreamPart) * Decoder) :=
  let line := trim line in
  if is_empty line then Ok (Ok [], d)
  else match strip_prefix "data: " line with
       | None => Ok (Ok [], d)
       | Some data =>
           let data := event_text data in
           match from_str data with
           | None => Ok (Err (ECodec ("Gemini SSE: " +:+ from_str_error data)), d)
           | Some event => let '(parts, d) := decode_event d event in Ok (Ok parts, d)
           end
       end.
End Decoder.

Definition finish (d : Decoder) : list StreamPart * Decoder :=
  match response_id d with
  | Some id =>
      let extensions : JsonMap :=
        insert_opt "gemini_thought_signatures"
          (match signatures d with [] => None | l => Some (Arr l) end) ∅ in
      ([ResponseCompleted id "completed" None extensions],
       {| response_id := None; saw_finish := saw_finish d; saw_tool_calls := saw_tool_calls d;
          signatures := [] |})
  | None => ([], d)
  end.

(** ** What a stream becomes on its way through the wire *)

(** The id that was announced, whether the end and whether a call was seen. *)
Record Relay := { sent : option string; ended : bool; calls : bool }.

Definition Relay_new : Relay := {| sent := None; ended := false; calls := false |}.

Definition announce (id : string) (st : Relay) : list StreamPart * Relay :=
  match sent st with
  | None => ([ResponseStarted id], {| sent := Some id; ended := ended st; calls := calls st |})
  | Some _ => ([], st)
  end.

Definition end_seen (st : Relay) : Relay := {| sent := sent st; ended := true; calls := calls st |}.

(** Zero counts are not written, the tokens written to the cache are part of
    the prompt. *)
Definition relayed_stream_usage (u : Usage) : Usage := {|
  prompt_tokens := prompt_tokens u + default 0 (cache_write_tokens u);
  completion_tokens := completion_tokens u;
  reasoning_tokens := positive (reasoning_tokens u);
  cache_read_tokens := positive (cache_read_tokens u);
  cache_write_tokens := None;
  total_tokens := prompt_for_gemini u + completion_tokens u |}.

Section Relay.
Context `{SerdeJson} `{Lowercase}.

Definition relayed_args (arguments : string) : string :=
  let v := call_args arguments in if is_null v then "{}" else to_string v.

(** A call is known by its name alone. *)
Definition relayed_call (name : option string) (arguments : string) : StreamPart :=
  ToolCallDelta (default "" (synth_gemini_call_id <$> name)) name (relayed_args arguments)
    None None None.

Definition relay_part (st : Relay) (p : StreamPart) : list StreamPart * Relay :=
  match p with
  | TextDelta t => ([TextDelta t], st)
  | ReasoningDelta t _ _ => ([ReasoningDelta t None None], st)
  | ToolCallDelta _ name arguments _ _ _ =>
      ([relayed_call name arguments], {| sent := sent st; ended := ended st; calls := true |})
  | ProgramDelta _ _ _ _ | ProgramOutputDelta _ _ _ _ => ([], st)
  | UsagePart u =>
      (UsagePart (relayed_stream_usage u)
       :: (if ended st then [] else [FinishPart (Gemini.with_calls (calls st) Stop)]), end_seen st)
  | FinishPart r => ([FinishPart (Gemini.with_calls (calls st) (relayed_finish r))], end_seen st)
  | ResponseStarted id | ResponseCompleted id _ _ _ => announce id st
  | ErrorPart message c _ =>
      let status := error_status_for_class c in
      ([ErrorPart message (classify_upstream_error None (Some status)) (Some status)], st)
  end.

Fixpoint relay (st : Relay) (parts : list StreamPart) : list StreamPart * Relay :=
  match parts with
  | [] => ([], st)
  | p :: r =>
      let '(out, st) := relay_part st p in
      let '(rest, st) := relay st r in
      (out ++ rest, st)
  end.

Definition encode_parts (parts : list StreamPart) : string :=
  String.concat "" (map encode_part parts).
End Relay.

(** ** Framing *)

Section Framing.
Context `{J : SerdeJson} `{!SerdeJsonLaws J} `{Lowercase}.

Lemma gemini_feed_empty d : GeminiStream.feed d "" = Ok (Ok [], d).
Proof. done. Qed.

Lemma gemini_feed_json d m :
  exact (Obj m) = true ->
  GeminiStream.feed d ("data: " +:+ to_string (Obj m))
  = Ok (let '(parts, d) := decode_event d (Obj m) in (Ok parts, d)).
Proof.
  intros Hm. destruct (to_string_braces m) as [s Hs].
  assert (ends_with_char "}" (to_string (Obj m)) = true) as He.
  { rewrite Hs, ends_with_app, ends_with_app. by destruct s. }
  unfold GeminiStream.feed. rewrite trim_data by done.
  change (is_empty ("data: " +:+ to_string (Obj m))) with false.
  rewrite strip_prefix_app. unfold event_text.
  replace (starts_with "[" (to_string (Obj m))) with false by (by rewrite Hs).
  rewrite from_to_string by done. by destruct (decode_event d (Obj m)).
Qed.

Lemma gemini_feed_frame d m rest :
  exact (Obj m) = true ->
  feed_lines GeminiStream.feed d (split LF (event (Obj m) +:+ rest))
  = then_lines GeminiStream.feed (Ok (let '(parts, d) := decode_event d (Obj m) in (Ok parts, d)))
      (split LF rest).
Proof.
  intros Hm. unfold event. rewrite !str_app_assoc, <- (str_app_assoc "data: ").
  rewrite (feed_event _ gemini_feed_empty).
  - by rewrite gemini_feed_json.
  - rewrite contains_app, to_string_one_line. done.
Qed.

(** ** Decoding what the encoder writes *)

(** What can be written exactly: arguments without doubles, counts of 64 bits. *)
Definition part_fits (p : StreamPart) : Prop :=
  match p with
  | ToolCallDelta _ _ arguments _ _ _ => exact (call_args arguments) = true
  | UsagePart u =>
      counts_ok u /\ forall n, reasoning_tokens u = Some n -> 0 <= n <= u64_max
  | _ => True
  end.

Definition linked (st : Relay) (d : GeminiStream.Decoder) : Prop :=
  response_id d = sent st /\ saw_finish d = ended st /\ saw_tool_calls d = calls st
  /\ signatures d = [].

Definition body_ok (v : Value) : Prop := exists m, v = Obj m /\ exact (Obj m) = true.

Lemma decode_call_chunk d name v :
  let fc := set_opt "name" (Str <$> name) (obj [("args", v)]) in
  decode_event d (part_chunk (obj [("functionCall", fc)]))
  = ([ToolCallDelta (default "" (synth_gemini_call_id <$> name)) name
        (if is_null v then "{}" else to_string v) None None None],
     {| response_id := response_id d; saw_finish := saw_finish d; saw_tool_calls := true;
        signatures := signatures d ++ [] |}).
Proof using Type. destruct d as [[id|] ? ? ?], name as [n|]; reflexivity. Qed.

Lemma usage_count_seen u r c :
  existsb (fun k => negb (is_none (get k (counts_json u r c)))) count_keys = true.
Proof using Type.
  unfold count_keys. cbn [existsb]. by rewrite usage_members.
Qed.

Lemma decode_usage_chunk d u :
  counts_ok u ->
  decode_event d (obj [("usageMetadata", stream_usage_json u)])
  = (UsagePart (relayed_stream_usage u)
     :: (if saw_finish d then [] else [FinishPart (Gemini.with_calls (saw_tool_calls d) Stop)]),
     finished d).
Proof using Type.
  intros Hu. unfold decode_event.
  change (as_str (obj [("usageMetadata", stream_usage_json u)]).["responseId"]) with (@None string).
  change (get "error" (obj [("usageMetadata", stream_usage_json u)])) with (@None Value).
  change (as_array (obj [("usageMetadata", stream_usage_json u)]).["candidates"])
    with (@None (list Value)).
  assert (decode_usage_metadata d (obj [("usageMetadata", stream_usage_json u)])
          = (UsagePart (relayed_stream_usage u)
             :: (if saw_finish d then [] else [FinishPart (Gemini.with_calls (saw_tool_calls d) Stop)]),
             finished d)) as Hd.
  { unfold decode_usage_metadata.
    change (get "usageMetadata" (obj [("usageMetadata", stream_usage_json u)]))
      with (Some (stream_usage_json u)).
    unfold stream_usage_json. rewrite usage_count_seen, usage_of_counts; [|done|].
    - destruct d as [rid [] calls sigs]; done.
    - apply positive_default, Hu. }
  by destruct (response_id d); cbn -[decode_usage_metadata obj]; rewrite Hd.
Qed.

Lemma gemini_exact_call name v :
  exact v = true ->
  body_ok (part_chunk (obj [("functionCall", set_opt "name" (Str <$> name) (obj [("args", v)]))])).
Proof using Type.
  intros Hv. destruct name as [n|]; (eexists; split; [lazy; reflexivity|]); cbn; by rewrite Hv.
Qed.

Lemma exact_count n : 0 <= n <= u64_max -> exact (json_u64 n) = true.
Proof using Type. intros Hn. cbn. apply andb_true_intro. by rewrite !Z.leb_le. Qed.

Lemma positive_u64 o n :
  (forall m, o = Some m -> 0 <= m <= u64_max) -> positive o = Some n -> 0 <= n <= u64_max.
Proof using Type.
  intros Ho. destruct o as [m|]; [|done]. cbn. destruct (Z.ltb_spec 0 m); [|done]. intros [= <-]. auto.
Qed.

Lemma exact_usage u :
  part_fits (UsagePart u) -> body_ok (obj [("usageMetadata", stream_usage_json u)]).
Proof using Type.
  intros [Hu Hr]. pose proof (prompt_sum u Hu) as [Hp Ht]. pose proof Hu as (? & ? & ? & ? & ?).
  assert (exact (json_u64 (prompt_for_gemini u)) = true) as E1 by (apply exact_count; lia).
  assert (exact (json_u64 (completion_tokens u)) = true) as E2 by (apply exact_count; lia).
  assert (exact (json_u64 (wrap64 (prompt_for_gemini u + completion_tokens u))) = true) as E3
    by (apply exact_count; lia).
  assert (forall n, positive (reasoning_tokens u) = Some n -> exact (json_u64 n) = true) as E4
    by (intros n Hn; eapply exact_count, positive_u64; eauto).
  assert (forall n, positive (cache_read_tokens u) = Some n -> exact (json_u64 n) = true) as E5.
  { intros n Hn. eapply exact_count, positive_u64; [|exact Hn].
    intros m Hm. rewrite Hm in *. cbn in *. lia. }
  unfold stream_usage_json, counts_json. revert E1 E2 E3 E4 E5.
  generalize (json_u64 (prompt_for_gemini u)) (json_u64 (completion_tokens u))
    (json_u64 (wrap64 (prompt_for_gemini u + completion_tokens u))).
  intros p c t E1 E2 E3 E4 E5.
  destruct (positive (reasoning_tokens u)) as [r|], (positive (cache_read_tokens u)) as [k|];
    cbn [fmap option_fmap option_map];
    try (specialize (E4 _ eq_refl); revert E4); try (specialize (E5 _ eq_refl); revert E5);
    repeat match goal with |- context [json_u64 ?n] => generalize (json_u64 n) end;
    intros; (eexists; split; [lazy; reflexivity|]); cbn; by repeat match goal with H : _ = true |- _ => rewrite H; clear H end.
Qed.

Lemma gemini_step st d p v :
  linked st d -> part_fits p -> part_body p = Some v ->
  body_ok v
  /\ let '(out, st') := relay_part st p in
     exists d', decode_event d v = (out, d') /\ linked st' d'.
Proof using Type.
  intros Hl Hp. destruct p as [t|t i en|id name args wt it ca| | |u|id|r|id s u x|m cl code];
    intros [= <-].
  - split; [by eexists|]. destruct d as [[rid|] ? ? ?]; by eexists.
  - split; [by eexists|]. destruct d as [[rid|] ? ? ?]; by eexists.
  - split; [by apply gemini_exact_call|]. cbn [relay_part]. eexists. split; [apply decode_call_chunk|].
    destruct Hl as (? & ? & ? & Hs). unfold linked. cbn. rewrite Hs. by split_and!.
  - split; [by apply exact_usage|]. cbn [relay_part]. eexists.
    destruct Hl as (Hi & Hf & Hc & Hs). rewrite <- Hf, <- Hc. split; [apply decode_usage_chunk, Hp|done].
  - split; [by eexists|]. destruct Hl as (Hi & Hf & Hc & Hs). cbn [relay_part announce].
    unfold announce. rewrite <- Hi. destruct d as [[rid|] ? ? ?]; (eexists; split; [reflexivity|by split_and!]).
  - split; [by destruct r; eexists|]. destruct Hl as (Hi & Hf & Hc & Hs). cbn [relay_part].
    rewrite <- Hc. exists (finished d). split; [|by split_and!].
    destruct d as [[rid|] ? ? ?], r; reflexivity.
  - split; [by eexists|]. destruct Hl as (Hi & Hf & Hc & Hs). cbn [relay_part announce].
    unfold announce. rewrite <- Hi. destruct d as [[rid|] ? ? ?]; (eexists; split; [reflexivity|by split_and!]).
  - split; [by destruct cl; eexists|]. cbn [relay_part]. exists d. split; [|done].
    destruct d as [[rid|] ? ? ?], cl; reflexivity.
Qed.

Lemma gemini_relay_stream parts st d :
  linked st d -> Forall part_fits parts ->
  let '(out, st') := relay st parts in
  exists d', feed_lines GeminiStream.feed d (split LF (encode_parts parts)) = Ok (Ok out, d')
    /\ linked st' d'.
Proof using All.
  intros Hl Hp. revert st d Hl. induction Hp as [|p parts Hp _ IH]; intros st d Hl.
  { exists d. by split. }
  cbn [relay]. assert (encode_parts (p :: parts) = encode_part p +:+ encode_parts parts) as ->.
  { unfold encode_parts. cbn [map String.concat]. destruct parts; [|done].
    cbn [map String.concat]. by rewrite str_app_nil_r. }
  unfold encode_part. destruct (part_body p) as [v|] eqn:Eb.
  - destruct (gemini_step st d p v Hl Hp Eb) as [(m & -> & Hm) Hstep].
    destruct (relay_part st p) as [out st1]. destruct Hstep as (d1 & Hd & Hl1).
    specialize (IH st1 d1 Hl1). destruct (relay st1 parts) as [rest st2].
    destruct IH as (d2 & Hf & Hl2). exists d2. split; [|done].
    rewrite gemini_feed_frame by done. rewrite Hd. unfold then_lines. cbn [mbind result_bind].
    by rewrite Hf.
  - assert (relay_part st p = ([], st)) as -> by (by destruct p).
    specialize (IH st d Hl). by destruct (relay st parts).
Qed.
End Framing.

(** The end of the upstream: the response is completed if it was announced. *)
Definition relay_end (st : Relay) : list StreamPart :=
  match sent st with Some id => [ResponseCompleted id "completed" None ∅] | None => [] end.

(** C38: A Gemini stream survives the wire up to what the wire can say. For
    parts whose usage counts fit 64 bits and whose call arguments hold no
    doubles, the decoder fed with the lines of the produced bytes returns in
    order: texts and thoughts; a function call for every fragment of a call,
    known by its name, with the fragment's arguments if they parse and with {}
    if they do not, so that a call streamed in several fragments is lost,
    which is reported as a defect; the usage, the end with tool calls when a
    call was seen before it, and one end made up at a usage that comes before
    any; the response is announced once and completed when the upstream
    closes. *)
Theorem gemini_stream_roundtrip `{J : SerdeJson} `{Lowercase} parts :
  SerdeJsonLaws J -> Forall part_fits parts ->
  exists d, feed_lines GeminiStream.feed Decoder_new (split LF (encode_parts parts))
            = Ok (Ok (fst (relay Relay_new parts)), d)
    /\ fst (GeminiStream.finish d) = relay_end (snd (relay Relay_new parts)).
Proof.
  intros HJ Hp. pose proof (gemini_relay_stream parts Relay_new Decoder_new ltac:(done) Hp) as Hr.
  destruct (relay Relay_new parts) as [out st]. destruct Hr as (d & Hf & Hi & _ & _ & Hs).
  exists d. split; [exact Hf|]. unfold GeminiStream.finish, relay_end. rewrite Hi, Hs. cbn [fst snd].
  by destruct (sent st).
Qed.

Definition sample_parts : list StreamPart :=
  [ResponseStarted "resp-1"; ReasoningDelta "hm" None None; TextDelta "hello";
   ToolCallDelta "call_1" (Some "f") "" None None None; FinishPart ToolCalls;
   UsagePart {| prompt_tokens := 7; completion_tokens := 2; reasoning_tokens := None;
                cache_read_tokens := Some 3; cache_write_tokens := Some 1; total_tokens := 0 |};
   ResponseCompleted "resp-1" "completed" None ∅].

Lemma gemini_stream_roundtrip_witness :
  (exists d, feed_lines (@GeminiStream.feed coded_json ascii_folding) Decoder_new
      (split LF (@encode_parts coded_json sample_parts))
    = Ok (Ok (fst (@relay coded_json ascii_folding Relay_new sample_parts)), d)
    /\ fst (GeminiStream.finish d) = [ResponseCompleted "resp-1" "completed" None ∅])
  /\ fst (@relay coded_json ascii_folding Relay_new sample_parts)
     = [ResponseStarted "resp-1"; ReasoningDelta "hm" None None; TextDelta "hello";
        ToolCallDelta "gemini_call_f" (Some "f") (@to_string coded_json (obj [])) None None None;
        FinishPart ToolCalls;
        UsagePart {| prompt_tokens := 8; completion_tokens := 2; reasoning_tokens := None;
                     cache_read_tokens := Some 3; cache_write_tokens := None;
                     total_tokens := 13 |}].
Proof.
  split; [|by vm_compute].
  destruct (@gemini_stream_roundtrip coded_json ascii_folding sample_parts) as (d & Hf & He).
  - apply coded_json_laws.
  - repeat (apply Forall_cons_2; [cbn; done|]). apply Forall_nil_2.
  - exists d. split; [exact Hf|]. rewrite He. vm_compute. reflexivity.
Defined.

(** ** Defects of the streaming codec *)

Lemma json_event_ok (n : Z) chunk :
  0 <= n <= u64_max -> (exact (json_u64 n) = true -> body_ok chunk) -> body_ok chunk.
Proof. intros Hn Hc. by apply Hc, exact_count. Qed.

Definition partial_usage (n : Z) : Usage := {|
  prompt_tokens := n; completion_tokens := 0; reasoning_tokens := None; cache_read_tokens := None;
  cache_write_tokens := None; total_tokens := 0 |}.

(** An event of an upstream: a text, maybe a finish reason, and the count. *)
Definition upstream_event (t : string) (reason : option string) (n : Z) : Value :=
  obj [("candidates", Arr [set_opt "finishReason" (Str <$> reason)
                             (obj [("content", obj [("parts", Arr [text_json t])])])]);
       ("usageMetadata", obj [("promptTokenCount", json_u64 n)])].

Lemma upstream_event_ok t reason n : 0 <= n <= u64_max -> body_ok (upstream_event t reason n).
Proof.
  intros Hn%exact_count. destruct reason as [r|]; (eexists; split; [lazy -[json_u64]; reflexivity|]);
    cbn -[json_u64]; by rewrite Hn.
Qed.

Lemma decode_upstream_event `{SerdeJson} `{Lowercase} d t reason n :
  0 <= n ->
  decode_event d (upstream_event t reason n)
  = (TextDelta t
     :: match reason with
        | Some r => [FinishPart (Gemini.with_calls (saw_tool_calls d) (finish_of_str r));
                     UsagePart (partial_usage n)]
        | None => UsagePart (partial_usage n)
                  :: (if saw_finish d then []
                      else [FinishPart (Gemini.with_calls (saw_tool_calls d) Stop)])
        end, finished d).
Proof.
  intros Hn. assert (usage_of (obj [("promptTokenCount", json_u64 n)]) = partial_usage n) as Hu.
  { unfold usage_of, partial_usage. cbn. f_equal. unfold sat_sub. lia. }
  destruct d as [[rid|] [] c s], reason as [r|]; lazy -[usage_of finish_of_str partial_usage]; 
    rewrite <- Hu; reflexivity.
Qed.

(** Gemini repeats [usageMetadata] on the events of a stream.  The decoder
    takes the first one before a finish reason for the end: the end comes out
    before the rest of the text, and a second end after it, with the real
    reason. *)
Theorem usage_ends_stream_early `{J : SerdeJson} `{Lowercase} t1 t2 n m :
  SerdeJsonLaws J -> 0 <= n <= u64_max -> 0 <= m <= u64_max ->
  exists d, feed_lines GeminiStream.feed Decoder_new
      (split LF (event (upstream_event t1 None n)
                 +:+ event (upstream_event t2 (Some "MAX_TOKENS") m)))
    = Ok (Ok [TextDelta t1; UsagePart (partial_usage n); FinishPart Stop;
              TextDelta t2; FinishPart LengthReason; UsagePart (partial_usage m)], d).
Proof.
  intros HJ Hn Hm. eexists.
  destruct (upstream_event_ok t1 None n Hn) as (b1 & E1 & X1).
  destruct (upstream_event_ok t2 (Some "MAX_TOKENS") m Hm) as (b2 & E2 & X2).
  rewrite E1, gemini_feed_frame by done. rewrite <- E1, decode_upstream_event by lia.
  unfold then_lines at 1. cbn [mbind result_bind].
  rewrite <- (str_app_nil_r (event (upstream_event t2 _ m))), E2, gemini_feed_frame by done.
  rewrite <- E2, decode_upstream_event by lia. reflexivity.
Qed.

Lemma usage_ends_stream_early_witness :
  exists d, feed_lines (@GeminiStream.feed coded_json ascii_folding) Decoder_new
      (split LF (@event coded_json (upstream_event "Hel" None 5)
                 +:+ @event coded_json (upstream_event "lo" (Some "MAX_TOKENS") 5)))
    = Ok (Ok [TextDelta "Hel"; UsagePart (partial_usage 5); FinishPart Stop;
              TextDelta "lo"; FinishPart LengthReason; UsagePart (partial_usage 5)], d).
Proof.
  apply (@usage_ends_stream_early coded_json ascii_folding "Hel" "lo" 5 5 coded_json_laws);
    unfold u64_max; lia.
Defined.

Definition call_chunk (members : list (string * Value)) : Value :=
  part_chunk (obj [("functionCall", obj members)]).

(** The stream decoders of the other protocols open a call with its name
    and send its arguments in fragments after it.  This encoder makes a whole
    call of each part: a call of a Chat Completions upstream comes out as one
    call with its name and no arguments, and one with the arguments and no
    name. *)
Theorem streamed_arguments_lose_call `{SerdeJson} d id name args :
  is_empty id = false -> is_empty name = false -> is_empty args = false ->
  exists parts d',
    ChatStream.decode_tool_call d (call_lit 0 id (Some name) args) = Ok (parts, d')
    /\ map part_body parts
       = [Some (call_chunk [("args", obj []); ("name", Str name)]);
          Some (call_chunk [("args", call_args args)])].
Proof.
  intros Hi Hn Ha. destruct (ChatStream.decode_call d 0 id (Some name) args) as (l & -> & _).
  { unfold in_capacity, slot_bytes, i64_max. lia. }
  eexists _, _. split; [reflexivity|]. unfold call_parts, claimed, nonempty. rewrite Hi, Hn, Ha. done.
Qed.

Lemma streamed_arguments_lose_call_witness :
  let args := @to_string coded_json (obj [("x", json_u64 1)]) in
  exists parts d',
    ChatStream.decode_tool_call ChatStream.Decoder_new (call_lit 0 "call_1" (Some "f") args)
    = Ok (parts, d')
    /\ map (@part_body coded_json) parts
       = [Some (call_chunk [("args", obj []); ("name", Str "f")]);
          Some (call_chunk [("args", obj [("x", json_u64 1)])])].
Proof.
  destruct (@streamed_arguments_lose_call coded_json ChatStream.Decoder_new "call_1" "f"
              (@to_string coded_json (obj [("x", json_u64 1)]))) as (parts & d' & Hd & Hp);
    [done..|].
  exists parts, d'. split; [exact Hd|]. rewrite Hp. by vm_compute.
Defined.
