(* ===== verification/ResponsesInput.v ===== *)
(** * ResponsesInput: the input items of the Responses API

    The helpers of [crates/protocols/src/responses.rs] and the two halves of
    its request codec that deal with the [input] array: typed items to and
    from messages, unique call ids, media parts, and the opaque items that are
    replayed at their places. *)

From stdpp Require Import base option list gmap sets strings pretty.
From Stdlib Require Import ZArith Lia Ascii SpecFloat.
From S2P Require Import Prelude RustStr F64 Json JsonBody Telemetry Protocol Classify Ir StructuredOutput ChatRequest.

Local Open Scope string_scope.
Local Open Scope list_scope.

(** ** Helpers *)

(** [item["type"] == t] *)
Definition has_type (t : string) (item : Value) : bool :=
  bool_decide (as_str item.["type"] = Some t).

Definition type_in (l : list string) (item : Value) : bool :=
  match as_str item.["type"] with Some t => bool_decide (t ∈ l) | None => false end.

Definition nonempty_str (v : Value) : option string :=
  match as_str v with Some s => if is_empty s then None else Some s | None => None end.

Definition responses_call_id (item : Value) : option string :=
  or_else (nonempty_str item.["call_id"]) (nonempty_str item.["id"]).

Definition concat_texts (parts : list Value) : string :=
  join "" (omap (fun part => as_str part.["text"]) parts).

Definition not_empty (o : option string) : option string :=
  match o with Some s => if is_empty s then None else Some s | None => None end.

Definition responses_reasoning_text (item : Value) : string :=
  let content_text :=
    (fun l => concat_texts (List.filter (has_type "reasoning_text") l))
      <$> as_array item.["content"] in
  let summary_text := concat_texts <$> as_array item.["summary"] in
  let text := not_empty (or_else (not_empty content_text) summary_text) in
  default "" (or_else text (as_str item.["text"])).

Definition json_caller (c : ToolCaller) : Value :=
  match c with
  | DirectCaller => obj [("type", Str "direct")]
  | ProgramCaller caller_id => obj [("type", Str "program"); ("caller_id", Str caller_id)]
  end.

Definition decode_tool_caller (item : Value) : option ToolCaller :=
  t ← get "caller" item ≫= fun caller => as_str caller.["type"];
  if String.eqb t "direct" then Some DirectCaller
  else if String.eqb t "program" then ProgramCaller <$> as_str item.["caller"].["caller_id"]
  else None.

Definition decode_prompt_cache_breakpoint (part : Value) : option PromptCacheBreakpoint :=
  if bool_decide (as_str part.["prompt_cache_breakpoint"].["mode"] = Some "explicit")
  then Some {| pcb_mode := Explicit |} else None.

Definition is_responses_custom_tool_call (wire_type : option string) : bool :=
  bool_decide (wire_type = Some "custom") || bool_decide (wire_type = Some "custom_tool_call").

Definition responses_custom_tool_input `{SerdeJson} (arguments : Value) : string :=
  default (to_string arguments) (or_else (get "input" arguments ≫= as_str) (as_str arguments)).

(** ** Media parts *)

Definition is_image_mime (mime_type : string) : bool :=
  starts_with "image/" mime_type || String.eqb mime_type "image/*" || is_empty mime_type.

Definition file_part (k : string) (v : string) (metadata : JsonMap) : Value :=
  set_opt "filename" (Str <$> (metadata !! "filename" ≫= as_str))
    (obj [("type", Str "input_file"); (k, Str v)]).

Definition image_input (k : string) (v : string) : Value :=
  obj [("type", Str "input_image"); (k, Str v)].

Definition data_url (mime_type data : string) : string :=
  "data:" +:+ mime_type +:+ ";base64," +:+ data.

Definition encode_responses_media_part (source : MediaSource) (mime_type : string)
    (metadata : JsonMap) (b : option PromptCacheBreakpoint) : Value :=
  let image := is_image_mime mime_type in
  let part :=
    match source with
    | Url url => if image then image_input "image_url" url else file_part "file_url" url metadata
    | Inline data =>
        if image then image_input "image_url" (data_url mime_type data)
        else file_part "file_data" (data_url mime_type data) metadata
    | FileId id => if image then image_input "file_id" id else file_part "file_id" id metadata
    end in
  let part := if has_type "input_image" part
              then set_opt "detail" (metadata !! IMAGE_DETAIL_KEY) part else part in
  set_opt "prompt_cache_breakpoint" (json_breakpoint <$> b) part.

Definition decode_input_image (part : Value) : option Content :=
  let detail := or_else (as_str part.["detail"]) (as_str part.["image_url"].["detail"]) in
  let metadata : JsonMap := insert_opt IMAGE_DETAIL_KEY (Str <$> detail) ∅ in
  let b := decode_prompt_cache_breakpoint part in
  match nonempty_str part.["file_id"] with
  | Some file_id => Some (CMedia (FileId file_id) "image/*" metadata b)
  | None =>
      let raw_url := default "" (or_else (as_str part.["image_url"])
                                   (as_str part.["image_url"].["url"])) in
      if is_empty raw_url then None
      else let '(source, mime_type) := MediaSource.from_data_url raw_url "image/*" in
           Some (CMedia source mime_type metadata b)
  end.

Definition octet_stream : string := "application/octet-stream".

Definition decode_input_file (part : Value) : option Content :=
  let metadata : JsonMap := insert_opt "filename" (Str <$> nonempty_str part.["filename"]) ∅ in
  let b := decode_prompt_cache_breakpoint part in
  match nonempty_str part.["file_id"] with
  | Some file_id => Some (CMedia (FileId file_id) octet_stream metadata b)
  | None =>
  match nonempty_str part.["file_url"] with
  | Some url => Some (CMedia (Url url) octet_stream metadata b)
  | None =>
  match nonempty_str part.["file_data"] with
  | Some data =>
      let '(source, mime_type) := MediaSource.from_data_url data octet_stream in
      Some (CMedia source mime_type metadata b)
  | None => None
  end end end.

Definition decode_responses_media_part (part : Value) : option Content :=
  if has_type "input_image" part then decode_input_image part
  else if has_type "input_file" part then decode_input_file part
  else None.

(** ** Unique call ids *)

Definition base_id (raw_id : string) (occurrence : nat) : string :=
  if is_empty raw_id then "call_tiygate_" +:+ pretty occurrence
  else match occurrence with O => raw_id | _ => raw_id +:+ "_" +:+ pretty occurrence end.

(** The loop over the collision number. *)
Fixpoint first_free (fuel collision : nat) (base candidate : string) (used_ids : gset string)
    : string :=
  match fuel with
  | O => candidate
  | S fuel =>
      if bool_decide (candidate ∈ used_ids)
      then first_free fuel (S collision) base (base +:+ "_" +:+ pretty collision) used_ids
      else candidate
  end.

(** Among one more candidate than there are used ids, one is free. *)
Definition unique_responses_call_id (raw_id : string) (occurrence : nat) (used_ids : gset string)
    : string * gset string :=
  let base := base_id raw_id occurrence in
  let candidate := first_free (S (size used_ids)) 1 base base used_ids in
  (candidate, {[candidate]} ∪ used_ids).

(** How often each raw id was called, the new ids that wait for their outputs,
    and the ids in use. *)
Record CallIds := {
  call_id_counts : gmap string nat;
  call_id_remap : gmap string (list string);
  used_call_ids : gset string;
}.

Definition CallIds_new : CallIds :=
  {| call_id_counts := ∅; call_id_remap := ∅; used_call_ids := ∅ |}.

(** A call: its unique id. *)
Definition register_call (ids : CallIds) (raw_id : string) : string * CallIds :=
  let occurrence := default O (call_id_counts ids !! raw_id) in
  let '(id, used) := unique_responses_call_id raw_id occurrence (used_call_ids ids) in
  (id, {| call_id_counts := <[raw_id := S occurrence]> (call_id_counts ids);
          call_id_remap :=
            <[raw_id := default [] (call_id_remap ids !! raw_id) ++ [id]]> (call_id_remap ids);
          used_call_ids := used |}).

(** An output: the id of the oldest call that waits for one. *)
Definition resolve_output (ids : CallIds) (raw_id : string) : string * CallIds :=
  match call_id_remap ids !! raw_id with
  | Some (id :: rest) =>
      (id, {| call_id_counts := call_id_counts ids;
              call_id_remap := <[raw_id := rest]> (call_id_remap ids);
              used_call_ids := used_call_ids ids |})
  | _ => (raw_id, ids)
  end.

(** ** Decoding the input *)

Definition codex_types : list string :=
  ["tool_search_call"; "tool_search_output"; "agent_message"; "compaction"; "compaction_trigger";
   "context_compaction"].

Definition multi_agent_types : list string := ["multi_agent_call"; "multi_agent_call_output"].

Definition call_types : list string :=
  ["function_call"; "program"; "reasoning"; "local_shell_call"; "custom_tool_call"].

Definition output_types : list string :=
  ["function_call_output"; "program_output"; "local_shell_call_output"; "custom_tool_call_output"].

Definition decode_wire_role (s : string) : Role :=
  if String.eqb s "system" || String.eqb s "developer" then RSystem
  else if String.eqb s "user" then RUser
  else if String.eqb s "assistant" then RAssistant
  else if String.eqb s "tool" then RTool
  else RUser.

(** The role of an item: by its type, then by its [role]. *)
Definition item_role (item : Value) : Role :=
  if type_in call_types item then RAssistant
  else if type_in output_types item then RTool
  else decode_wire_role (str_or "user" item.["role"]).

Definition decode_content_part (part : Value) : option Content :=
  if has_type "input_text" part || has_type "output_text" part then
    Some (CText (str_or "" part.["text"]) None (decode_prompt_cache_breakpoint part))
  else decode_responses_media_part part.

Section Decode.
Context `{SerdeJson}.

Definition decode_reasoning (item : Value) : Content :=
  CReasoning (responses_reasoning_text item) None (as_str item.["id"])
    (as_str item.["encrypted_content"]).

(** An output that is no string is serialized. *)
Definition output_text (item : Value) : string :=
  match item.["output"] with
  | Str s => s
  | Null => ""
  | other => to_string other
  end.

Definition decode_arguments (item : Value) : Value :=
  default (obj []) (from_str (str_or "{}" item.["arguments"])).

Definition decode_function_call (ids : CallIds) (item : Value) : Content * CallIds :=
  let '(id, ids) := register_call ids (default "" (responses_call_id item)) in
  let '(ir_id, ir_call_id) :=
    match as_str item.["id"], as_str item.["call_id"] with
    | Some item_ref, Some _ => (item_ref, Some id)
    | _, _ => (id, None)
    end in
  (CToolCall ir_id (str_or "" item.["name"]) (decode_arguments item) ir_call_id
     (decode_tool_caller item) None, ids).

Definition decode_function_output (ids : CallIds) (item : Value) : Content * CallIds :=
  let '(tool_call_id, ids) := resolve_output ids (default "" (responses_call_id item)) in
  (CToolResult tool_call_id "" (output_text item) (as_str item.["id"]) (decode_tool_caller item) None,
   ids).

(** A call or an output of another kind keeps its wire type. *)
Definition other_call (item : Value) (name : string) (arguments : Value) (wire_type : string)
    : Content :=
  let id := default "" (responses_call_id item) in
  CToolCall id name arguments (Some id) None (Some wire_type).

Definition other_output (item : Value) (wire_type : string) : Content :=
  CToolResult (default "" (responses_call_id item)) "" (output_text item) None None (Some wire_type).

Definition decode_program (item : Value) : Content :=
  CProgram (str_or "" item.["id"]) (str_or "" item.["call_id"]) (str_or "" item.["code"])
    (str_or "" item.["fingerprint"]).

Definition decode_program_output (item : Value) : Content :=
  CProgramOutput (str_or "" item.["id"]) (str_or "" item.["call_id"]) (str_or "" item.["result"])
    (str_or "completed" item.["status"]).

(** An item without [content]. *)
Definition decode_typed_item (ids : CallIds) (item : Value) : Content * CallIds :=
  if has_type "program" item then (decode_program item, ids)
  else if has_type "program_output" item then (decode_program_output item, ids)
  else if has_type "function_call" item then decode_function_call ids item
  else if has_type "function_call_output" item then decode_function_output ids item
  else if has_type "reasoning" item then (decode_reasoning item, ids)
  else if has_type "local_shell_call" item then
    (other_call item "local_shell" (default (obj []) (get "action" item)) "local_shell_call", ids)
  else if has_type "local_shell_call_output" item then
    (other_output item "local_shell_call_output", ids)
  else if has_type "custom_tool_call" item then
    (other_call item (str_or "" item.["name"])
       (obj [("input", Str (str_or "" item.["input"]))]) "custom_tool_call", ids)
  else if has_type "custom_tool_call_output" item then
    (other_output item "custom_tool_call_output", ids)
  else (plain_text "", ids).

Definition is_opaque (item : Value) : bool :=
  type_in codex_types item || type_in multi_agent_types item.

(** The contents of an item; opaque items have none. *)
Definition decode_item (ids : CallIds) (item : Value) : list Content * CallIds :=
  if is_opaque item then ([], ids)
  else match item.["content"] with
  | Str text => ([plain_text text], ids)
  | Arr parts =>
      (if has_type "reasoning" item then [decode_reasoning item]
       else omap decode_content_part parts, ids)
  | _ => let '(c, ids) := decode_typed_item ids item in ([c], ids)
  end.

(** The messages so far, whether the next item starts a message of its own, and
    the call ids. *)
Record Input := { in_messages : list Message; break_role_merge : bool; in_ids : CallIds }.

Definition Input_new : Input :=
  {| in_messages := []; break_role_merge := false; in_ids := CallIds_new |}.

(** Consecutive items of one role are merged, unless something came between. *)
Definition add_item (preserve : bool) (r : Role) (content' : list Content) (brk : bool)
    (l : list Message) : list Message :=
  match last l with
  | Some m =>
      if bool_decide (role m = r) && negb brk && negb preserve
      then removelast l ++ [{| role := role m; content := content m ++ content' |}]
      else l ++ [{| role := r; content := content' |}]
  | None => l ++ [{| role := r; content := content' |}]
  end.

Definition input_step (preserve : bool) (st : Input) (item : Value) : Input :=
  let '(content', ids) := decode_item (in_ids st) item in
  match content' with
  | [] => {| in_messages := in_messages st; break_role_merge := true; in_ids := ids |}
  | _ =>
      {| in_messages := add_item preserve (item_role item) content' (break_role_merge st)
                          (in_messages st);
         break_role_merge := false; in_ids := ids |}
  end.

Definition decode_input (body : Value) : list Message :=
  match body.["input"] with
  | Arr arr => in_messages (fold_left (input_step (existsb is_opaque arr)) arr Input_new)
  | Str text => [{| role := RUser; content := [plain_text text] |}]
  | _ => []
  end.
End Decode.

Definition input_items (body : Value) : list Value := default [] (as_array body.["input"]).

(** The opaque items with their indices. *)
Definition opaque_input_items (body : Value) : list Value :=
  omap (fun ix => if is_opaque (snd ix)
                  then Some (obj [("index", json_u64 (Z.of_nat (fst ix))); ("item", snd ix)])
                  else None) (imap pair (input_items body)).

Definition codex_opaque_items (body : Value) : list Value :=
  List.filter (type_in codex_types) (input_items body).

Definition multi_agent_items (body : Value) : list Value :=
  List.filter (type_in multi_agent_types) (input_items body).

(** ** Encoding the input *)

Definition input_text (text : string) (b : option PromptCacheBreakpoint) : Value :=
  set_opt "prompt_cache_breakpoint" (json_breakpoint <$> b)
    (obj [("type", Str "input_text"); ("text", Str text)]).

Definition developer_part (c : Content) : option Value :=
  match c with
  | CText text _ b => Some (input_text text b)
  | CMedia source mime_type metadata b =>
      Some (encode_responses_media_part source mime_type metadata b)
  | _ => None
  end.

(** A buffered run of parts becomes a message; a single plain text is a string. *)
Definition flush_text_message (role_str : string) (text_parts : list Value) : list Value :=
  match text_parts with
  | [] => []
  | [part] =>
      if has_type "input_text" part && is_none (get "prompt_cache_breakpoint" part)
      then [obj [("role", Str role_str); ("content", part.["text"])]]
      else [obj [("role", Str role_str); ("content", Arr [part])]]
  | parts => [obj [("role", Str role_str); ("content", Arr parts)]]
  end.

Definition reasoning_item (text : string) (id encrypted_content : option string) : Value :=
  let summary := if is_empty text then Arr []
                 else Arr [obj [("type", Str "summary_text"); ("text", Str text)]] in
  set_opt "encrypted_content" (Str <$> encrypted_content)
    (set_opt "id" (Str <$> id) (obj [("type", Str "reasoning"); ("summary", summary)])).

Definition responses_function_call_output (tool_call_id content : string) (item_id : option string)
    (caller : option ToolCaller) : Value :=
  set_opt "caller" (json_caller <$> caller)
    (set_opt "id" (Str <$> item_id)
       (obj [("type", Str "function_call_output"); ("call_id", Str tool_call_id);
             ("output", Str content)])).

Definition typed_output (t tool_call_id content : string) (item_id : option string) : Value :=
  set_opt "id" (Str <$> item_id)
    (obj [("type", Str t); ("call_id", Str tool_call_id); ("output", Str content)]).

Definition result_item (tool_call_id content : string) (id : option string)
    (caller : option ToolCaller) (wire_type : option string) : Value :=
  if bool_decide (wire_type = Some "custom_tool_call_output")
  then typed_output "custom_tool_call_output" tool_call_id content id
  else if bool_decide (wire_type = Some "local_shell_call_output")
  then typed_output "local_shell_call_output" tool_call_id content id
  else responses_function_call_output tool_call_id content id caller.

Definition program_item (id call_id code fingerprint : string) : Value :=
  obj [("type", Str "program"); ("id", Str id); ("call_id", Str call_id); ("code", Str code);
       ("fingerprint", Str fingerprint)].

Definition program_output_item (id call_id result status : string) : Value :=
  obj [("type", Str "program_output"); ("id", Str id); ("call_id", Str call_id);
       ("result", Str result); ("status", Str status)].

Section Encode.
Context `{SerdeJson}.

Definition call_item (id name : string) (arguments : Value) (call_id : option string)
    (caller : option ToolCaller) (wire_type : option string) : Value :=
  let wire_call_id := default id call_id in
  let fc :=
    if is_responses_custom_tool_call wire_type then
      obj [("type", Str "custom_tool_call"); ("call_id", Str wire_call_id); ("name", Str name);
           ("input", Str (responses_custom_tool_input arguments))]
    else if String.eqb (default "function_call" wire_type) "local_shell_call" then
      obj [("type", Str "local_shell_call"); ("call_id", Str wire_call_id); ("action", arguments)]
    else
      obj [("type", Str "function_call"); ("call_id", Str wire_call_id); ("name", Str name);
           ("arguments", Str (arguments_text arguments))] in
  set_opt "caller" (json_caller <$> caller)
    (set_opt "id" ((fun _ => Str id) <$> call_id) fc).

(** A part that is buffered, or an item of its own. *)
Definition content_item (c : Content) : Value + Value :=
  match c with
  | CText text _ b => inl (input_text text b)
  | CMedia source mime_type metadata b =>
      inl (encode_responses_media_part source mime_type metadata b)
  | CRefusal text _ => inl (input_text text None)
  | CReasoning text _ id encrypted_content => inr (reasoning_item text id encrypted_content)
  | CToolCall id name arguments call_id caller wire_type =>
      inr (call_item id name arguments call_id caller wire_type)
  | CToolResult tool_call_id _ content id caller wire_type =>
      inr (result_item tool_call_id content id caller wire_type)
  | CProgram id call_id code fingerprint => inr (program_item id call_id code fingerprint)
  | CProgramOutput id call_id result status => inr (program_output_item id call_id result status)
  end.

Fixpoint encode_turn (role_str : string) (text_parts : list Value) (l : list Content) : list Value :=
  match l with
  | [] => flush_text_message role_str text_parts
  | c :: l =>
      match content_item c with
      | inl part => encode_turn role_str (text_parts ++ [part]) l
      | inr item => flush_text_message role_str text_parts ++ item :: encode_turn role_str [] l
      end
  end.

Definition tool_item (c : Content) : option Value :=
  match c with
  | CToolResult tool_call_id _ content id caller wire_type =>
      Some (result_item tool_call_id content id caller wire_type)
  | CProgramOutput id call_id result status => Some (program_output_item id call_id result status)
  | _ => None
  end.

(** A system message that stays an input item. *)
Definition is_developer_item (preserve : bool) (m : Message) : bool :=
  existsb has_breakpoint (content m) || preserve.

Definition encode_message (preserve : bool) (m : Message) : list Value :=
  match role m with
  | RSystem =>
      if is_developer_item preserve m then
        match omap developer_part (content m) with
        | [] => []
        | parts => [obj [("role", Str "developer"); ("content", Arr parts)]]
        end
      else []
  | RUser => encode_turn "user" [] (content m)
  | RAssistant => encode_turn "assistant" [] (content m)
  | RTool => omap tool_item (content m)
  end.
End Encode.

(** [preserve_input_item_boundaries] *)
Definition has_opaque_items (ir : IrRequest) : bool :=
  match extensions ir !! "responses_opaque_input_items" ≫= as_array with
  | Some (_ :: _) => true
  | _ => false
  end.

(** The text of a system message that is added to the instructions. *)
Definition instruction_texts (preserve : bool) (m : Message) : list string :=
  match role m with
  | RSystem =>
      if is_developer_item preserve m then []
      else omap (fun c => match c with CText text _ _ => Some text | _ => None end) (content m)
  | _ => []
  end.

Definition instructions (ir : IrRequest) : option string :=
  fold_left (fun existing text => Some (default "" existing +:+ String LF "" +:+ text))
    (flat_map (instruction_texts (has_opaque_items ir)) (messages ir)) (system ir).

(** The opaque items of a request with their indices; those of older requests
    come after the others. *)
Definition ordered_opaque (ir : IrRequest) (modeled : nat) : list (Z * Value) :=
  match extensions ir !! "responses_opaque_input_items" ≫= as_array with
  | Some entries =>
      omap (fun entry => index ← get "index" entry ≫= as_u64;
                         item ← get "item" entry; Some (index, item)) entries
  | None =>
      imap (fun i item => (Z.of_nat (modeled + i), item))
        (default [] (extensions ir !! "codex_opaque_items" ≫= as_array)
         ++ default [] (extensions ir !! "multi_agent_items" ≫= as_array))
  end.

(** Every opaque item goes to its index, or to the end; the cursor counts the
    items so far.  Each round takes an item of one of the two lists. *)
Fixpoint merge_opaque (fuel : nat) (cursor : Z) (opaque : list (Z * Value)) (modeled : list Value)
    : list Value :=
  match fuel with
  | O => []
  | S fuel =>
      match opaque, modeled with
      | [], [] => []
      | (index, item) :: rest, [] => item :: merge_opaque fuel (cursor + 1) rest []
      | (index, item) :: rest, m :: ms =>
          if (index =? cursor)%Z then item :: merge_opaque fuel (cursor + 1) rest modeled
          else m :: merge_opaque fuel (cursor + 1) opaque ms
      | [], m :: ms => m :: merge_opaque fuel (cursor + 1) [] ms
      end
  end.

Definition encode_input `{SerdeJson} (ir : IrRequest) : list Value :=
  let items := flat_map (encode_message (has_opaque_items ir)) (messages ir) in
  let opaque := ordered_opaque ir (length items) in
  merge_opaque (length opaque + length items) 0 opaque items.
