(* ===== verification/ResponsesInputProps.v ===== *)
(** * ResponsesInputProps: what the input items of the Responses API keep

    Call ids are unique and outputs find their calls, opaque items return to
    their places, and messages survive the array of items. *)

From stdpp Require Import base option list gmap sets strings pretty.
From Stdlib Require Import ZArith Lia Ascii SpecFloat.
From S2P Require Import Prelude RustStr F64 Json JsonBody Telemetry Protocol Classify Ir StructuredOutput ChatRequest ResponsesInput.

Local Open Scope string_scope.
Local Open Scope list_scope.

(** ** Unique call ids *)

(** The candidates for a base: itself, then numbered ones. *)
Definition candidate (base : string) (k : nat) : string :=
  match k with O => base | S _ => base +:+ "_" +:+ pretty k end.

Lemma str_app_inj s t1 t2 : s +:+ t1 = s +:+ t2 -> t1 = t2.
Proof. induction s as [|a s IH]; [done|]. rewrite !str_app_cons. by intros [= E%IH]. Qed.

Lemma candidate_inj base k1 k2 : candidate base k1 = candidate base k2 -> k1 = k2.
Proof.
  assert (forall k, candidate base (S k) <> base) as Hne.
  { intros k E. apply (f_equal String.length) in E. unfold candidate in E.
    rewrite !str_length_app in E. cbn in E. lia. }
  destruct k1 as [|k1], k2 as [|k2]; [done| | |].
  - intros E. by destruct (Hne k2).
  - intros E. by destruct (Hne k1).
  - cbn [candidate]. intros E%str_app_inj%str_app_inj. by apply (inj pretty) in E.
Qed.

Lemma first_free_spec fuel k base used :
  let c := first_free fuel (S k) base (candidate base k) used in
  exists j, c = candidate base j /\ (k <= j)%nat
    /\ (forall i, (k <= i < j)%nat -> candidate base i ∈ used)
    /\ (c ∉ used \/ j = (k + fuel)%nat).
Proof.
  revert k. induction fuel as [|fuel IH]; intros k; cbn [first_free].
  - exists k. split_and!; [done|lia|intros; lia|right; lia].
  - destruct (bool_decide _) eqn:E.
    + apply bool_decide_eq_true in E.
      destruct (IH (S k)) as (j & Hc & Hj & Hall & Hf). cbn [candidate] in Hc, Hf |- *.
      exists j. split_and!; [done|lia| |].
      * intros i Hi. destruct (decide (i = k)) as [->|]; [done|]. apply Hall. lia.
      * destruct Hf as [?|?]; [by left|right; lia].
    + apply bool_decide_eq_false in E. exists k. split_and!; [done|lia|intros; lia|by left].
Qed.

(** The loop ends: with one round more than there are used ids, the candidate
    it leaves is free. *)
Lemma first_free_fresh base used :
  let c := first_free (S (size used)) 1 base base used in
  (c ∉ used) /\ (base ∉ used -> c = base).
Proof.
  cbv zeta. destruct (first_free_spec (S (size used)) 0 base used) as (j & Hc & _ & Hall & Hf).
  cbn [candidate] in Hc, Hf. split.
  - destruct Hf as [?|Hj]; [done|]. exfalso.
    set (l := map (candidate base) (seq 0 j)).
    assert (NoDup l) as Hl.
    { apply NoDup_fmap_2_strong; [|apply NoDup_seq]. intros x y _ _. apply candidate_inj. }
    assert (list_to_set l ⊆ used) as Hsub.
    { intros x [i [-> Hi]]%elem_of_list_to_set%list_elem_of_fmap. apply elem_of_seq in Hi. apply Hall. lia. }
    apply subseteq_size in Hsub. rewrite size_list_to_set in Hsub by done.
    unfold l in Hsub. rewrite length_map, length_seq in Hsub. lia.
  - intros Hb. cbn [first_free]. by rewrite bool_decide_false.
Qed.

Lemma unique_id_spec raw occ used :
  let '(id, used') := unique_responses_call_id raw occ used in
  (id ∉ used) /\ used' = {[id]} ∪ used /\ (base_id raw occ ∉ used -> id = base_id raw occ).
Proof.
  unfold unique_responses_call_id. pose proof (first_free_fresh (base_id raw occ) used) as [? ?].
  by split_and!.
Qed.

(** The id a function call is paired by; the calls of other kinds keep theirs. *)
Definition function_call_id (c : Content) : option string :=
  match c with
  | CToolCall id _ _ call_id _ None => Some (default id call_id)
  | _ => None
  end.

Definition function_call_ids (l : list Message) : list string :=
  flat_map (fun m => omap function_call_id (content m)) l.

Section Ids.
Context `{SerdeJson}.

Lemma register_call_spec ids raw :
  let '(id, ids') := register_call ids raw in
  (id ∉ used_call_ids ids) /\ used_call_ids ids' = {[id]} ∪ used_call_ids ids.
Proof using.
  unfold register_call.
  pose proof (unique_id_spec raw (default O (call_id_counts ids !! raw)) (used_call_ids ids)) as Hu.
  destruct (unique_responses_call_id _ _ _) as [id used]. cbn. tauto.
Qed.

Lemma resolve_output_used ids raw : used_call_ids (snd (resolve_output ids raw)) = used_call_ids ids.
Proof using. unfold resolve_output. by destruct (call_id_remap ids !! raw) as [[]|]. Qed.

(** The calls of an item are new, and they are recorded. *)
Lemma decode_item_ids ids item :
  let '(l, ids') := decode_item ids item in
  NoDup (omap function_call_id l)
  /\ (forall id, id ∈ omap function_call_id l -> id ∉ used_call_ids ids)
  /\ (forall id, id ∈ omap function_call_id l \/ id ∈ used_call_ids ids -> id ∈ used_call_ids ids').
Proof using.
  assert (forall (l : list Content), omap function_call_id l = [] ->
    NoDup (omap function_call_id l)
    /\ (forall id, id ∈ omap function_call_id l -> id ∉ used_call_ids ids)
    /\ (forall id, id ∈ omap function_call_id l \/ id ∈ used_call_ids ids -> id ∈ used_call_ids ids)) as Hnone.
  { intros l ->. split_and!; [constructor|by intros ? ?%elem_of_nil|].
    by intros ? [?%elem_of_nil|]. }
  unfold decode_item. destruct (is_opaque item); [by apply Hnone|].
  assert (let '(c, ids') := decode_typed_item ids item in
    NoDup (omap function_call_id [c])
    /\ (forall id, id ∈ omap function_call_id [c] -> id ∉ used_call_ids ids)
    /\ (forall id, id ∈ omap function_call_id [c] \/ id ∈ used_call_ids ids -> id ∈ used_call_ids ids'))
    as Htyped.
  { unfold decode_typed_item.
    repeat match goal with |- context [has_type ?t item] => destruct (has_type t item) end;
      try (by apply Hnone).
    - unfold decode_function_call.
      pose proof (register_call_spec ids (default "" (responses_call_id item))) as Hr.
      destruct (register_call _ _) as [id ids']. destruct Hr as [Hf Hu].
      assert (forall ir_id ir_call name a ca, (default ir_id ir_call = id) ->
        omap function_call_id [CToolCall ir_id name a ir_call ca None] = [id]) as Hone
        by (intros; cbn; congruence).
      destruct (as_str item.["id"]), (as_str item.["call_id"]); rewrite Hone by done;
        (split_and!; [apply NoDup_singleton|by intros ? ->%list_elem_of_singleton|]);
        intros i [->%list_elem_of_singleton|Hi]; set_solver.
    - unfold decode_function_output.
      pose proof (resolve_output_used ids (default "" (responses_call_id item))) as Hr.
      destruct (resolve_output _ _) as [id ids']. cbn in *.
      split_and!; [constructor|by intros ? ?%elem_of_nil|]. rewrite Hr. by intros ? [?%elem_of_nil|]. }
  assert (forall t, omap function_call_id [plain_text t] = []) as Ht by done.
  destruct item.["content"] as [| | |t|parts|]; try (destruct (decode_typed_item ids item); done).
  - by apply Hnone.
  - apply Hnone. destruct (has_type "reasoning" item); [done|]. clear.
    induction parts as [|p parts IH]; [done|]. cbn.
    destruct (decode_content_part p) as [c|] eqn:E; cbn; [|done].
    assert (function_call_id c = None) as ->; [|done].
    unfold decode_content_part, decode_responses_media_part, decode_input_image, decode_input_file in E.
    repeat match type of E with
           | context [match ?x with _ => _ end] => destruct x; try done
           end; by injection E as <-.
Qed.

Lemma calls_of_add_item preserve r l brk ms :
  function_call_ids (add_item preserve r l brk ms) = function_call_ids ms ++ omap function_call_id l.
Proof using.
  unfold add_item, function_call_ids. destruct (last ms) as [m|] eqn:E.
  2:{ rewrite flat_map_app. cbn. by rewrite app_nil_r. }
  destruct (_ && _ && _).
  - apply last_Some in E as [ms' ->]. rewrite removelast_last, !flat_map_app. cbn.
    by rewrite !app_nil_r, omap_app, app_assoc.
  - rewrite flat_map_app. cbn. by rewrite app_nil_r.
Qed.

Definition ids_inv (st : Input) : Prop :=
  NoDup (function_call_ids (in_messages st))
  /\ forall id, id ∈ function_call_ids (in_messages st) -> id ∈ used_call_ids (in_ids st).

Lemma input_step_ids preserve st item : ids_inv st -> ids_inv (input_step preserve st item).
Proof using.
  intros [Hn Hu]. unfold input_step. pose proof (decode_item_ids (in_ids st) item) as Hd.
  destruct (decode_item (in_ids st) item) as [l ids]. destruct Hd as (Hl & Hf & Hr).
  destruct l as [|c l].
  { split; cbn; [done|]. intros id Hid. apply Hr. right. auto. }
  unfold ids_inv. cbn [in_messages in_ids]. rewrite calls_of_add_item. split.
  - apply NoDup_app. split_and!; [done| |done]. intros id Hid Hid'. by apply (Hf id Hid'), Hu.
  - intros id [Hid|Hid]%elem_of_app; apply Hr; auto.
Qed.
End Ids.

(** However often a client repeats an id, and whether or not it sends one,
    the function calls of a decoded request have pairwise different ids, as
    the other protocols demand. *)
Theorem function_call_ids_unique `{SerdeJson} body :
  NoDup (function_call_ids (decode_input body)).
Proof.
  assert (forall preserve arr st, ids_inv st -> ids_inv (fold_left (input_step preserve) arr st)) as Hf.
  { intros preserve arr. induction arr as [|item arr IH]; [done|]. intros st Hst.
    apply IH. by apply input_step_ids. }
  unfold decode_input. destruct body.["input"]; try constructor.
  apply Hf. split; [constructor|by intros ? ?%elem_of_nil].
Qed.

(** ** Outputs find their calls *)

Fixpoint register_all (ids : CallIds) (raws : list string) : list string * CallIds :=
  match raws with
  | [] => ([], ids)
  | raw :: raws =>
      let '(id, ids) := register_call ids raw in
      let '(rest, ids) := register_all ids raws in
      (id :: rest, ids)
  end.

Fixpoint resolve_all (ids : CallIds) (raws : list string) : list string * CallIds :=
  match raws with
  | [] => ([], ids)
  | raw :: raws =>
      let '(id, ids) := resolve_output ids raw in
      let '(rest, ids) := resolve_all ids raws in
      (id :: rest, ids)
  end.

(** The ids that stand beside the raw id [raw]. *)
Definition ids_of (raw : string) (l : list (string * string)) : list string :=
  omap (fun p => if String.eqb (fst p) raw then Some (snd p) else None) l.

Lemma ids_of_cons r raw id l :
  ids_of r ((raw, id) :: l) = if String.eqb raw r then id :: ids_of r l else ids_of r l.
Proof. unfold ids_of. cbn. by destruct (String.eqb raw r). Qed.

Definition pending (ids : CallIds) (raw : string) : list string :=
  default [] (call_id_remap ids !! raw).

Definition occurrences (raw : string) (l : list string) : nat :=
  length (List.filter (String.eqb raw) l).

Lemma pending_register ids raw r :
  let '(id, ids') := register_call ids raw in
  pending ids' r = pending ids r ++ (if String.eqb raw r then [id] else []).
Proof.
  unfold register_call. destruct (unique_responses_call_id _ _ _) as [id used].
  unfold pending. cbn [call_id_remap]. destruct (String.eqb_spec raw r) as [->|].
  - by rewrite lookup_insert_eq.
  - by rewrite lookup_insert_ne, app_nil_r.
Qed.

Lemma pending_register_all raws ids r :
  let '(l, ids') := register_all ids raws in
  pending ids' r = pending ids r ++ ids_of r (zip raws l).
Proof.
  revert ids. induction raws as [|raw raws IH]; intros ids; cbn [register_all].
  - by rewrite app_nil_r.
  - pose proof (pending_register ids raw r) as Hr. destruct (register_call ids raw) as [id ids1].
    specialize (IH ids1). destruct (register_all ids1 raws) as [l ids2].
    rewrite IH, Hr. cbn. by destruct (String.eqb raw r); rewrite <- app_assoc.
Qed.

Lemma pending_resolve ids raw r :
  let '(id, ids') := resolve_output ids raw in
  match pending ids raw with
  | next :: rest =>
      id = next /\ pending ids' r = if String.eqb raw r then rest else pending ids r
  | [] => True
  end.
Proof.
  unfold resolve_output, pending. destruct (call_id_remap ids !! raw) as [[|next rest]|] eqn:E; [done| |done].
  cbn. split; [done|]. destruct (String.eqb_spec raw r) as [->|].
  - by rewrite lookup_insert_eq.
  - by rewrite lookup_insert_ne.
Qed.

Lemma ids_resolve_all raws ids r :
  (forall r, (occurrences r raws <= length (pending ids r))%nat) ->
  ids_of r (zip raws (fst (resolve_all ids raws))) = take (occurrences r raws) (pending ids r).
Proof.
  revert ids. induction raws as [|raw raws IH]; intros ids Hle; [done|]. cbn [resolve_all].
  assert (0 < length (pending ids raw))%nat as Hpos.
  { specialize (Hle raw). unfold occurrences in Hle. cbn in Hle. rewrite String.eqb_refl in Hle.
    cbn in Hle. lia. }
  pose proof (fun r => pending_resolve ids raw r) as Hr.
  destruct (resolve_output ids raw) as [id ids1].
  destruct (pending ids raw) as [|next rest] eqn:Ep; [cbn in Hpos; lia|].
  assert (forall r, pending ids1 r = if String.eqb raw r then rest else pending ids r) as Hp
    by (intros r'; apply (Hr r')).
  destruct (Hr raw) as [-> _].
  assert (forall r, (occurrences r raws <= length (pending ids1 r))%nat) as Hle1.
  { intros r'. specialize (Hle r'). rewrite Hp. unfold occurrences in *. cbn in Hle.
    rewrite (String.eqb_sym r' raw) in Hle. destruct (String.eqb_spec raw r') as [->|]; [|done].
    rewrite Ep in Hle. cbn in Hle. lia. }
  specialize (IH ids1 Hle1). destruct (resolve_all ids1 raws) as [l ids2]. cbn [fst] in *.
  unfold occurrences in *. cbn. rewrite (String.eqb_sym r raw).
  rewrite Hp in IH. destruct (String.eqb_spec raw r) as [<-|].
  - rewrite Ep. cbn. f_equal. exact IH.
  - exact IH.
Qed.

(** The outputs of duplicated calls go to the calls in their order.  After
    any number of calls with any raw ids, let outputs follow, no more of a raw
    id than there were calls of it: the outputs of a raw id carry the ids that
    were given to the first calls of that raw id, one by one. *)
Theorem outputs_answer_calls calls outputs raw :
  (forall r, (occurrences r outputs <= occurrences r calls)%nat) ->
  let '(ids, st) := register_all CallIds_new calls in
  ids_of raw (zip outputs (fst (resolve_all st outputs)))
  = take (occurrences raw outputs) (ids_of raw (zip calls ids)).
Proof.
  intros Hle. pose proof (fun r => pending_register_all calls CallIds_new r) as Hp.
  destruct (register_all CallIds_new calls) as [ids st] eqn:E.
  assert (forall r, pending st r = ids_of r (zip calls ids)) as Hp' by (intros r; apply (Hp r)).
  rewrite ids_resolve_all, Hp'; [done|]. intros r. rewrite Hp'.
  assert (length ids = length calls) as Hlen.
  { clear -E. revert E. generalize CallIds_new as s. revert ids st.
    induction calls as [|c calls IH]; intros ids st s; cbn [register_all]; [by intros [= <- <-]|].
    destruct (register_call s c) as [id s1]. destruct (register_all s1 calls) as [l s2] eqn:E.
    intros [= <- <-]. cbn. f_equal. by eapply IH. }
  specialize (Hle r). enough (length (ids_of r (zip calls ids)) = occurrences r calls) as -> by done.
  clear -Hlen. revert ids Hlen. induction calls as [|c calls IH]; intros [|id ids] Hlen; try done.
  injection Hlen as Hlen. cbn [zip zip_with]. rewrite ids_of_cons. unfold occurrences in *.
  cbn [List.filter]. rewrite (String.eqb_sym r c).
  destruct (String.eqb c r); cbn [length]; by rewrite IH.
Qed.

Lemma outputs_answer_calls_witness :
  fst (resolve_all (snd (register_all CallIds_new ["a"; ""; "a"])) ["a"; "a"; ""])
  = ["a"; "a_1"; "call_tiygate_0"].
Proof.
  assert (forall r, (occurrences r ["a"; "a"; ""] <= occurrences r ["a"; ""; "a"])%nat) as Hle.
  { intros r. unfold occurrences. cbn. destruct (String.eqb r "a"), (String.eqb r ""); cbn; lia. }
  pose proof (outputs_answer_calls _ _ "a" Hle) as Ha.
  pose proof (outputs_answer_calls _ _ "" Hle) as He.
  vm_compute in Ha, He. vm_compute. done.
Defined.

(** ** Opaque items *)

(** The opaque items of a list whose first item has the index [i]. *)
Fixpoint opaque_from (i : Z) (l : list Value) : list (Z * Value) :=
  match l with
  | [] => []
  | v :: l => if is_opaque v then (i, v) :: opaque_from (i + 1) l else opaque_from (i + 1) l
  end.

Lemma opaque_from_ge i l j v rest : opaque_from i l = (j, v) :: rest -> (i <= j)%Z.
Proof.
  revert i. induction l as [|w l IH]; intros i; cbn; [done|].
  destruct (is_opaque w); [intros [= -> _ _]; lia|]. intros ?%IH. lia.
Qed.

Lemma merge_restores fuel i l :
  (length l <= fuel)%nat ->
  merge_opaque fuel i (opaque_from i l) (List.filter (fun v => negb (is_opaque v)) l) = l.
Proof.
  revert fuel i. induction l as [|v l IH]; intros fuel i Hf; [by destruct fuel|].
  destruct fuel as [|fuel]; [cbn in Hf; lia|]. cbn [length] in Hf.
  cbn [opaque_from List.filter]. destruct (is_opaque v) eqn:E; cbn [negb].
  - cbn [merge_opaque]. specialize (IH fuel (i + 1)%Z ltac:(lia)).
    destruct (List.filter _ l); [|rewrite Z.eqb_refl]; by rewrite IH.
  - cbn [merge_opaque]. destruct (opaque_from (i + 1) l) as [|[j w] rest] eqn:Eo.
    + f_equal. rewrite <- Eo. apply IH. lia.
    + apply opaque_from_ge in Eo as Hj. destruct (Z.eqb_spec j i); [lia|].
      f_equal. rewrite <- Eo. apply IH. lia.
Qed.

Lemma opaque_from_entries i l :
  omap (fun entry => index ← get "index" entry ≫= as_u64;
                     item ← get "item" entry; Some (index, item))
    (omap (fun ix => if is_opaque (snd ix)
                     then Some (obj [("index", json_u64 (Z.of_nat (fst ix))); ("item", snd ix)])
                     else None) (imap (fun k v => ((i + k)%nat, v)) l))
  = opaque_from (Z.of_nat i) l.
Proof.
  revert i. induction l as [|v l IH]; intros i; [done|]. cbn [imap]. rewrite Nat.add_0_r.
  assert (imap ((fun k v => ((i + k)%nat, v)) ∘ S) l = imap (fun k v => ((S i + k)%nat, v)) l) as ->.
  { apply imap_ext. intros k x _. cbn. f_equal. lia. }
  cbn [omap list_omap snd fst opaque_from].
  replace (Z.of_nat i + 1)%Z with (Z.of_nat (S i)) by lia. rewrite <- IH.
  by destruct (is_opaque v).
Qed.

Lemma opaque_from_body body :
  omap (fun entry => index ← get "index" entry ≫= as_u64;
                     item ← get "item" entry; Some (index, item)) (opaque_input_items body)
  = opaque_from 0 (input_items body).
Proof. apply (opaque_from_entries 0). Qed.

(** ** Items that are read back *)

(** The parts that share an item. *)
Definition image_metadata (detail : option string) : JsonMap :=
  insert_opt IMAGE_DETAIL_KEY (Str <$> detail) ∅.

Definition file_metadata (filename : option string) : JsonMap :=
  insert_opt "filename" (Str <$> filename) ∅.

(** Texts, and media whose source can be told from the part. *)
Inductive input_part : Content -> Prop :=
| input_part_text t b : input_part (CText t None b)
| input_part_image_id id detail b :
    id <> "" -> input_part (CMedia (FileId id) "image/*" (image_metadata detail) b)
| input_part_image_url url detail b :
    url <> "" -> MediaSource.from_data_url url "image/*" = (Url url, "image/*") ->
    input_part (CMedia (Url url) "image/*" (image_metadata detail) b)
| input_part_image_data data mime detail b :
    is_image_mime mime = true ->
    MediaSource.from_data_url (data_url mime data) "image/*" = (Inline data, mime) ->
    input_part (CMedia (Inline data) mime (image_metadata detail) b)
| input_part_file_id id filename b :
    id <> "" -> filename <> Some "" ->
    input_part (CMedia (FileId id) octet_stream (file_metadata filename) b)
| input_part_file_url url filename b :
    url <> "" -> filename <> Some "" ->
    input_part (CMedia (Url url) octet_stream (file_metadata filename) b)
| input_part_file_data data mime filename b :
    is_image_mime mime = false -> filename <> Some "" ->
    MediaSource.from_data_url (data_url mime data) octet_stream = (Inline data, mime) ->
    input_part (CMedia (Inline data) mime (file_metadata filename) b).

Definition part_of (c : Content) : Value := default Null (developer_part c).

Lemma is_empty_ne s : s <> "" -> is_empty s = false.
Proof. by destruct s. Qed.

Lemma nonempty_filename filename :
  filename <> Some "" -> nonempty_str (default Null (Str <$> filename)) = filename.
Proof. by destruct filename as [[]|]. Qed.

Lemma filename_str filename :
  (file_metadata filename) !! "filename" ≫= as_str = filename.
Proof. unfold file_metadata. rewrite lookup_insert_opt. by destruct filename. Qed.

Lemma detail_value detail : image_metadata detail !! IMAGE_DETAIL_KEY = Str <$> detail.
Proof. unfold image_metadata. rewrite lookup_insert_opt. by destruct detail. Qed.

(** An image part has no other members than these. *)
Lemma decode_image_part k v detail b source mime :
  v <> "" -> k = "file_id" /\ source = FileId v /\ mime = "image/*"
             \/ k = "image_url" /\ MediaSource.from_data_url v "image/*" = (source, mime) ->
  decode_content_part
    (set_opt "prompt_cache_breakpoint" (json_breakpoint <$> b)
       (set_opt "detail" (Str <$> detail) (image_input k v)))
  = Some (CMedia source mime (image_metadata detail) b).
Proof.
  intros Hv%is_empty_ne Hk.
  unfold decode_content_part, decode_responses_media_part, decode_input_image,
    decode_prompt_cache_breakpoint, has_type, index, image_input.
  rewrite !get_set_opt_if, !get_obj by auto with body. cbn.
  destruct Hk as [(-> & -> & ->)|[-> Hd]]; destruct detail as [d|], b as [[[]]|]; simpl;
    unfold nonempty_str; simpl; by rewrite Hv, ?Hd.
Qed.

Lemma decode_file_part k v filename b source mime :
  v <> "" -> filename <> Some "" ->
  k = "file_id" /\ source = FileId v /\ mime = octet_stream
  \/ k = "file_url" /\ source = Url v /\ mime = octet_stream
  \/ k = "file_data" /\ MediaSource.from_data_url v octet_stream = (source, mime) ->
  decode_content_part
    (set_opt "prompt_cache_breakpoint" (json_breakpoint <$> b) (file_part k v (file_metadata filename)))
  = Some (CMedia source mime (file_metadata filename) b).
Proof.
  intros Hv%is_empty_ne Hf%nonempty_filename Hk.
  unfold decode_content_part, decode_responses_media_part, decode_input_file, file_part,
    decode_prompt_cache_breakpoint, has_type, index.
  rewrite filename_str, !get_set_opt_if, !get_obj by auto with body. cbn.
  destruct Hk as [(-> & -> & ->)|[(-> & -> & ->)|[-> Hd]]];
    destruct filename as [fn|], b as [[[]]|]; simpl in *; rewrite ?Hf;
    unfold nonempty_str; simpl; by rewrite Hv, ?Hd.
Qed.

Lemma file_part_type k v metadata : has_type "input_image" (file_part k v metadata) = false \/ k = "type".
Proof.
  destruct (String.eqb_spec "type" k) as [->|Hk]; [by right|left].
  unfold has_type, index, file_part. rewrite get_set_opt_if, get_obj by done. cbn -[String.eqb].
  by rewrite (proj2 (String.eqb_neq _ _) Hk).
Qed.

Lemma decode_part_of c : input_part c -> decode_content_part (part_of c) = Some c.
Proof.
  destruct 1 as [t b|id detail b Hid|url detail b Hurl Hd|data mime detail b Hm Hd
                |id fn b Hid Hf|url fn b Hurl Hf|data mime fn b Hm Hf Hd];
    cbn [part_of developer_part default from_option];
    unfold Datatypes.id, encode_responses_media_part; rewrite ?detail_value.
  - by destruct b as [[[]]|].
  - apply (decode_image_part "file_id"); auto.
  - apply (decode_image_part "image_url"); auto.
  - rewrite Hm. apply (decode_image_part "image_url"); auto. 
  - change (is_image_mime octet_stream) with false. 
    destruct (file_part_type "file_id" id (file_metadata fn)) as [->|]; [|done].
    apply (decode_file_part "file_id"); auto.
  - change (is_image_mime octet_stream) with false.
    destruct (file_part_type "file_url" url (file_metadata fn)) as [->|]; [|done].
    apply (decode_file_part "file_url"); auto.
  - rewrite Hm. destruct (file_part_type "file_data" (data_url mime data) (file_metadata fn)) as [->|]; [|done].
    apply (decode_file_part "file_data"); auto 6.
Qed.

(** ** Items of their own *)

(** Reads the members of an item. *)
Ltac item_members :=
  unfold index, responses_call_id, nonempty_str;
  rewrite ?get_set_opt_if, ?get_obj by auto with body; cbn.

Section Items.
Context `{SerdeJson}.

(** The contents of assistant and tool turns that are items, in the decoder's
    form. *)
Inductive own_item : Role -> Content -> Prop :=
| own_reasoning t id enc : own_item RAssistant (CReasoning t None id enc)
| own_call id name arguments call_id caller :
    as_str arguments = None -> from_str (to_string arguments) = Some arguments ->
    default id call_id <> "" ->
    own_item RAssistant (CToolCall id name arguments call_id caller None)
| own_shell id action :
    own_item RAssistant (CToolCall id "local_shell" action (Some id) None (Some "local_shell_call"))
| own_custom id name input :
    own_item RAssistant
      (CToolCall id name (obj [("input", Str input)]) (Some id) None (Some "custom_tool_call"))
| own_program id call_id code fingerprint :
    own_item RAssistant (CProgram id call_id code fingerprint)
| own_result id text item_id caller :
    id <> "" -> own_item RTool (CToolResult id "" text item_id caller None)
| own_typed_result id text t :
    t ∈ ["local_shell_call_output"; "custom_tool_call_output"] ->
    own_item RTool (CToolResult id "" text None None (Some t))
| own_program_output id call_id result status :
    own_item RTool (CProgramOutput id call_id result status).

(** The wire ids of function calls. *)
Definition call_wire (c : Content) : list string :=
  match c with
  | CToolCall id _ _ call_id _ None => [default id call_id]
  | _ => []
  end.

(** What the decoder knows after calls with the ids [seen], all distinct. *)
Definition ids_seen (seen : list string) (ids : CallIds) : Prop :=
  (forall r l, call_id_remap ids !! r = Some l -> Forall (eq r) l)
  /\ (forall r, is_Some (call_id_counts ids !! r) -> r ∈ seen)
  /\ (forall r, r ∈ used_call_ids ids -> r ∈ seen).

Lemma ids_seen_new : ids_seen [] CallIds_new.
Proof using. by repeat split; intros ?; [intros ?|intros [??]|intros ?%elem_of_empty]. Qed.

Lemma register_fresh seen ids w :
  ids_seen seen ids -> w <> "" -> w ∉ seen ->
  exists ids', register_call ids w = (w, ids') /\ ids_seen (w :: seen) ids'.
Proof using.
  intros (Hr & Hc & Hu) Hw Hs. unfold register_call, unique_responses_call_id.
  destruct (call_id_counts ids !! w) as [n|] eqn:Ec; [by destruct Hs; apply Hc; eexists|].
  cbn [default from_option]. unfold base_id. rewrite (is_empty_ne w Hw). cbn [first_free].
  rewrite bool_decide_eq_false_2 by (intros Hin; by apply Hs, Hu).
  eexists. split; [done|]. split_and!; cbn.
  - intros r l. destruct (decide (w = r)) as [<-|Hne].
    + rewrite lookup_insert_eq. intros [= <-]. apply Forall_app. split; [|by constructor].
      destruct (call_id_remap ids !! w) eqn:E; [by apply Hr|constructor].
    + rewrite lookup_insert_ne by done. apply Hr.
  - intros r. destruct (decide (w = r)) as [<-|Hne]; [by left|].
    rewrite lookup_insert_ne by done. right. by apply Hc.
  - set_solver.
Qed.

Lemma resolve_same seen ids w :
  ids_seen seen ids -> exists ids', resolve_output ids w = (w, ids') /\ ids_seen seen ids'.
Proof using.
  intros (Hr & Hc & Hu). unfold resolve_output.
  destruct (call_id_remap ids !! w) as [[|id rest]|] eqn:E; [by eexists| |by eexists].
  pose proof (Hr _ _ E) as Hf. inversion Hf; subst. eexists. split; [done|].
  split_and!; cbn; [|done..]. intros r l. destruct (decide (id = r)) as [<-|Hne].
  - rewrite lookup_insert_eq. by intros [= <-].
  - rewrite lookup_insert_ne by done. apply Hr.
Qed.

Lemma decode_json_caller caller v :
  get "caller" v = json_caller <$> caller -> decode_tool_caller v = caller.
Proof using. intros E. unfold decode_tool_caller, index. rewrite E. by destruct caller as [[]|]. Qed.

Definition own_json (c : Content) : Value :=
  match content_item c with inr v => v | inl _ => Null end.

(** An item is read back, whatever the ids before it. *)
Definition item_reads (seen : list string) (r : Role) (item : Value) (l : list Content) : Prop :=
  is_opaque item = false /\ item_role item = r /\ l <> [] /\
  forall ids, ids_seen seen ids ->
    exists ids', decode_item ids item = (l, ids') /\ ids_seen (flat_map call_wire l ++ seen) ids'.

(** What tells the kind of an item: its type, and that it has no content. *)
Lemma typed_item_reads seen r item l t :
  get "type" item = Some (Str t) -> get "content" item = None ->
  t ∈ (match r with RAssistant => call_types | _ => output_types end) ->
  r = RAssistant \/ r = RTool ->
  (forall ids, ids_seen seen ids -> exists ids',
     decode_typed_item ids item = (l, ids') /\ ids_seen (call_wire l ++ seen) ids') ->
  item_reads seen r item [l].
Proof using.
  intros Ht Hc Hin Hr Hd.
  assert (is_opaque item = false) as Ho.
  { unfold is_opaque, type_in, index. rewrite Ht. cbn [default from_option Datatypes.id as_str].
    destruct Hr as [-> | ->]; repeat (apply elem_of_cons in Hin as [->|Hin]; [done|]);
      by apply elem_of_nil in Hin. }
  split_and!; [done| |done|].
  - unfold item_role, type_in, index. rewrite Ht. cbn [default from_option Datatypes.id as_str].
    destruct Hr as [-> | ->]; repeat (apply elem_of_cons in Hin as [->|Hin]; [done|]);
      by apply elem_of_nil in Hin.
  - intros ids Hids. destruct (Hd ids Hids) as (ids' & E & Hs). exists ids'.
    unfold decode_item. rewrite Ho. unfold index. rewrite Hc. cbn [default from_option Datatypes.id].
    rewrite E. cbn [flat_map]. by rewrite app_nil_r.
Qed.

Lemma has_type_of t u item : get "type" item = Some (Str t) -> has_type u item = String.eqb t u.
Proof using.
  intros E. unfold has_type, index. rewrite E. cbn [default from_option Datatypes.id as_str].
  destruct (String.eqb_spec t u) as [->|Hne]; [by apply bool_decide_eq_true_2|].
  apply bool_decide_eq_false_2. congruence.
Qed.

Lemma call_id_member item w :
  w <> "" -> get "call_id" item = Some (Str w) -> responses_call_id item = Some w.
Proof using.
  intros Hw E. unfold responses_call_id, nonempty_str, index. rewrite E. cbn. by rewrite is_empty_ne.
Qed.

Lemma call_id_only item w :
  get "call_id" item = Some (Str w) -> or_else (get "id" item) (Some (Str w)) = Some (Str w) ->
  default "" (responses_call_id item) = w.
Proof using.
  intros E Ei. unfold responses_call_id, nonempty_str, index. rewrite E. cbn.
  destruct w as [|x w]; [|done]. by destruct (get "id" item) as [v|]; [injection Ei as ->|].
Qed.

Ltac typed_item ty :=
  eapply (typed_item_reads _ _ _ _ ty); [item_members; reflexivity..|set_solver|auto|];
  intros ids Hids; unfold decode_typed_item;
  repeat (erewrite has_type_of by (item_members; reflexivity)); cbn [String.eqb Ascii.eqb Bool.eqb].

Lemma own_item_reads seen r c :
  own_item r c -> (forall w, w ∈ call_wire c -> w ∉ seen) -> item_reads seen r (own_json c) [c].
Proof using.
  intros Hc Hw. destruct Hc as [t i enc|i name a ci caller Ha Hj Hi|i a|i name s|i ci code fp|i t ii caller Hi|i t wt Hwt|i ci res st];
   cbn [own_json content_item].
  - unfold reasoning_item. typed_item "reasoning". exists ids. split; [|done].
    unfold decode_reasoning, responses_reasoning_text. item_members.
    destruct t, i, enc; reflexivity.
  - unfold call_item. cbn [is_responses_custom_tool_call bool_decide default from_option].
    change (is_responses_custom_tool_call None) with false.
    change (String.eqb "function_call" "local_shell_call") with false. cbn iota.
    typed_item "function_call".
    destruct (register_fresh seen ids (default i ci) Hids Hi) as (ids' & Er & Hs); [apply Hw; left|].
    exists ids'. split; [|done]. unfold decode_function_call.
    erewrite call_id_member by (done || by item_members). cbn [default from_option Datatypes.id].
    rewrite Er. item_members.
    erewrite decode_json_caller by (item_members; by destruct caller).
    unfold decode_arguments. item_members.
    replace (arguments_text a) with (to_string a) by (by destruct a). rewrite Hj. by destruct ci.
  - typed_item "local_shell_call". exists ids. split; [|done]. unfold other_call.
    erewrite call_id_only by (by item_members). by item_members.
  - typed_item "custom_tool_call". exists ids. split; [|done]. unfold other_call.
    erewrite call_id_only by (by item_members). by item_members.
  - typed_item "program". by exists ids.
  - unfold result_item, responses_function_call_output.
    rewrite !bool_decide_eq_false_2 by done. typed_item "function_call_output".
    destruct (resolve_same seen ids i Hids) as (ids' & Er & Hs).
    exists ids'. split; [|done]. unfold decode_function_output.
    erewrite call_id_member by (done || by item_members). cbn [default from_option Datatypes.id].
    rewrite Er. erewrite decode_json_caller by (item_members; by destruct caller).
    unfold output_text. item_members. by destruct ii.
  - unfold result_item. repeat (apply elem_of_cons in Hwt as [->|Hwt]).
    + rewrite bool_decide_eq_false_2, bool_decide_eq_true_2 by done. unfold typed_output.
      typed_item "local_shell_call_output". exists ids. split; [|done]. unfold other_output.
      erewrite call_id_only by (by item_members). unfold output_text. by item_members.
    + rewrite bool_decide_eq_true_2 by done. unfold typed_output.
      typed_item "custom_tool_call_output". exists ids. split; [|done]. unfold other_output.
      erewrite call_id_only by (by item_members). unfold output_text. by item_members.
    + by apply elem_of_nil in Hwt.
  - typed_item "program_output". by exists ids.
Qed.

(** ** Turns *)

Lemma part_item c : input_part c -> content_item c = inl (part_of c) /\ call_wire c = [] /\ is_Some (developer_part c).
Proof. by destruct 1; (split; [|split]); try by eexists. Qed.

Lemma own_item_json r c : own_item r c -> content_item c = inr (own_json c).
Proof. by destruct 1. Qed.

Lemma parts_no_calls l : Forall input_part l -> flat_map call_wire l = [].
Proof. induction 1 as [|c l Hc _ IH]; [done|]. cbn. by rewrite (proj1 (proj2 (part_item c Hc))). Qed.

Lemma decode_parts l : Forall input_part l -> omap decode_content_part (map part_of l) = l.
Proof. induction 1 as [|c l Hc _ IH]; [done|]. cbn. by rewrite decode_part_of, IH. Qed.

(** A message item, of several parts or of a text. *)
Lemma message_item_reads seen r role_str v l :
  decode_wire_role role_str = r -> l <> [] -> Forall input_part l ->
  v = Arr (map part_of l) \/ (exists t, v = Str t /\ l = [plain_text t]) ->
  item_reads seen r (obj [("role", Str role_str); ("content", v)]) l.
Proof.
  intros Hr Hne Hl Hv.
  assert (get "type" (obj [("role", Str role_str); ("content", v)]) = None) as Ht by done.
  assert (forall ts, type_in ts (obj [("role", Str role_str); ("content", v)]) = false) as Hty.
  { intros ts. unfold type_in, index. by rewrite Ht. }
  assert (is_opaque (obj [("role", Str role_str); ("content", v)]) = false) as Ho.
  { unfold is_opaque. by rewrite !Hty. }
  split_and!; [done| |done|].
  - unfold item_role. by rewrite !Hty.
  - intros ids Hids. exists ids. split; [|by rewrite parts_no_calls]. unfold decode_item. rewrite Ho.
    change ((obj [("role", Str role_str); ("content", v)]).["content"]) with v.
    destruct Hv as [->|(t & -> & ->)]; [|done].
    unfold has_type, index. rewrite Ht. cbn [default from_option as_str bool_decide].
    rewrite decode_parts by done. done.
Qed.

Lemma flush_reads seen r role_str l :
  decode_wire_role role_str = r -> l <> [] -> Forall input_part l ->
  exists item, flush_text_message role_str (map part_of l) = [item] /\ item_reads seen r item l.
Proof.
  intros Hr Hne Hl. destruct l as [|c [|c' l]]; [done| |].
  - cbn [map flush_text_message]. destruct (_ && _) eqn:E.
    + eexists. split; [done|]. apply message_item_reads; try done.
      right. apply andb_true_iff in E as [Ht Hb].
      pose proof (decode_part_of c (Forall_inv Hl)) as Hd.
      unfold decode_content_part in Hd. rewrite Ht in Hd. cbn [orb] in Hd.
      unfold decode_prompt_cache_breakpoint, index in Hd.
      destruct (get "prompt_cache_breakpoint" (part_of c)); [done|]. cbn in Hd.
      injection Hd as <-. by eexists.
    + eexists. split; [done|]. apply message_item_reads; try done. by left.
  - eexists. split; [done|]. apply message_item_reads; try done. by left.
Qed.

(** Items one after the other, all of one role. *)
Inductive items_read : list string -> Role -> list Value -> list Content -> Prop :=
| read_nil seen r : items_read seen r [] []
| read_item seen r item l items l' :
    item_reads seen r item l -> items_read (flat_map call_wire l ++ seen) r items l' ->
    items_read seen r (item :: items) (l ++ l').

Definition turn_content (r : Role) (c : Content) : Prop := input_part c \/ own_item r c.

Lemma turn_reads seen r role_str pending l :
  decode_wire_role role_str = r -> Forall input_part pending -> Forall (turn_content r) l ->
  NoDup (flat_map call_wire l) -> (forall w, w ∈ flat_map call_wire l -> w ∉ seen) ->
  items_read seen r (encode_turn role_str (map part_of pending) l) (pending ++ l).
Proof.
  intros Hr. revert seen pending. induction l as [|c l IH]; intros seen pending Hp Hl Hnd Hw.
  - rewrite app_nil_r. cbn [encode_turn]. destruct pending as [|p ps]; [constructor|].
    destruct (flush_reads seen r role_str (p :: ps)) as (item & -> & Hi); [done..|].
    rewrite <- (app_nil_r (p :: ps)). econstructor; [done|constructor].
  - apply Forall_cons in Hl as [Hc Hl]. cbn [encode_turn flat_map] in *. destruct Hc as [Hc|Hc].
    + destruct (part_item c Hc) as (-> & Hn & _). rewrite Hn in *. cbn [app] in *.
      change [part_of c] with (map part_of [c]). rewrite <- map_app.
      replace (pending ++ c :: l) with ((pending ++ [c]) ++ l) by (by rewrite <- app_assoc).
      apply IH; try done. apply Forall_app. by repeat constructor.
    + rewrite (own_item_json r c Hc).
      apply NoDup_app in Hnd as (_ & Hdis & Hnd).
      assert (items_read seen r (own_json c :: encode_turn role_str [] l) ([c] ++ l)) as Hrest.
      { econstructor; [apply own_item_reads; [done|]; intros w Hin; apply Hw, elem_of_app; auto|].
        cbn [flat_map]. rewrite app_nil_r. apply (IH _ []); try done.
        intros w Hin [Hin'|Hin']%elem_of_app; [by eapply Hdis|].
        eapply Hw; [apply elem_of_app; right; exact Hin|done]. }
      destruct pending as [|p ps]; [done|].
      destruct (flush_reads seen r role_str (p :: ps)) as (item & -> & Hi); [done..|].
      econstructor; [done|]. by rewrite parts_no_calls.
Qed.

(** Results and program outputs. *)
Lemma tool_turn_reads seen l :
  Forall (own_item RTool) l -> items_read seen RTool (omap tool_item l) l.
Proof.
  revert seen. induction l as [|c l IH]; intros seen Hl; [constructor|].
  apply Forall_cons in Hl as [Hc Hl].
  assert (tool_item c = Some (own_json c) /\ call_wire c = []) as [Ht Hn] by (inversion Hc; done).
  cbn. rewrite Ht. change (c :: l) with ([c] ++ l).
  econstructor; [apply own_item_reads; [done|by rewrite Hn; intros ? ?%elem_of_nil]|].
  cbn. rewrite Hn. by apply IH.
Qed.

Lemma developer_parts l : Forall input_part l -> omap developer_part l = map part_of l.
Proof.
  induction 1 as [|c l Hc _ IH]; [done|]. cbn. unfold part_of.
  destruct (proj2 (proj2 (part_item c Hc))) as [v ->]. by rewrite IH.
Qed.

(** The messages of a conversation in the decoder's form: turns of one role
    after the other, a system message only with a cache breakpoint. *)
Definition input_message (m : Message) : Prop :=
  content m <> [] /\
  match role m with
  | RSystem => Forall input_part (content m) /\ existsb has_breakpoint (content m) = true
  | RTool => Forall (own_item RTool) (content m)
  | r => Forall (turn_content r) (content m)
  end.

Lemma message_reads seen m :
  input_message m -> NoDup (flat_map call_wire (content m)) ->
  (forall w, w ∈ flat_map call_wire (content m) -> w ∉ seen) ->
  items_read seen (role m) (encode_message false m) (content m).
Proof.
  intros [Hne Hm] Hnd Hw. unfold encode_message. destruct (role m) eqn:Er.
  - destruct Hm as [Hp Hb]. unfold is_developer_item. rewrite Hb. cbn [orb].
    rewrite developer_parts by done.
    destruct (content m) as [|c l] eqn:El; [done|]. cbn [map].
    rewrite <- (app_nil_r (c :: l)). econstructor; [|constructor].
    apply message_item_reads; try done. by left.
  - by apply (turn_reads _ RUser _ []).
  - by apply (turn_reads _ RAssistant _ []).
  - by apply tool_turn_reads.
Qed.

(** ** The conversation *)

Lemma ids_seen_mono seen seen' ids : seen ⊆ seen' -> ids_seen seen ids -> ids_seen seen' ids.
Proof using. intros Hs (Hr & Hc & Hu). split_and!; auto. Qed.

Lemma fold_more seen r items l ms l0 ids :
  items_read seen r items l -> ids_seen seen ids ->
  exists ids',
    fold_left (input_step false) items
      {| in_messages := ms ++ [{| role := r; content := l0 |}]; break_role_merge := false; in_ids := ids |}
    = {| in_messages := ms ++ [{| role := r; content := l0 ++ l |}]; break_role_merge := false;
         in_ids := ids' |}
    /\ ids_seen (flat_map call_wire l ++ seen) ids'.
Proof.
  intros Hi. revert l0 ids. induction Hi as [seen r|seen r item l items l' Hi _ IH]; intros l0 ids Hs.
  - exists ids. rewrite app_nil_r. done.
  - destruct Hi as (_ & Hr & Hne & Hd). destruct (Hd ids Hs) as (ids1 & E & Hs1).
    destruct (IH (l0 ++ l) ids1 Hs1) as (ids2 & E2 & Hs2). exists ids2. split.
    + cbn [fold_left]. rewrite app_assoc, <- E2. f_equal. unfold input_step. cbn [in_ids in_messages break_role_merge].
      rewrite E, Hr. destruct l as [|c l]; [done|]. f_equal. unfold add_item.
      rewrite last_snoc. cbn [role content]. rewrite bool_decide_eq_true_2 by done.
      cbn [andb negb]. by rewrite removelast_last.
    + rewrite flat_map_app. eapply ids_seen_mono; [|exact Hs2]. set_solver.
Qed.

Lemma fold_input_turn seen r items l ms ids :
  items_read seen r items l -> l <> [] -> ids_seen seen ids ->
  (forall m, last ms = Some m -> role m <> r) ->
  exists ids',
    fold_left (input_step false) items
      {| in_messages := ms; break_role_merge := false; in_ids := ids |}
    = {| in_messages := ms ++ [{| role := r; content := l |}]; break_role_merge := false;
         in_ids := ids' |}
    /\ ids_seen (flat_map call_wire l ++ seen) ids'.
Proof.
  intros Hi Hne Hs Hlast. destruct Hi as [seen r|seen r item l items l' Hi Hl']; [done|].
  destruct Hi as (_ & Hr & Hne' & Hd). destruct (Hd ids Hs) as (ids1 & E & Hs1).
  destruct (fold_more _ r items l' ms l ids1 Hl' Hs1) as (ids2 & E2 & Hs2). exists ids2. split.
  - cbn [fold_left]. rewrite <- E2. f_equal. unfold input_step. cbn [in_ids in_messages break_role_merge].
    rewrite E, Hr. destruct l as [|c l]; [done|]. f_equal. unfold add_item.
    destruct (last ms) as [m|]; [|done]. by rewrite bool_decide_eq_false_2 by auto.
  - rewrite flat_map_app. eapply ids_seen_mono; [|exact Hs2]. set_solver.
Qed.

Definition wires (ms : list Message) : list string := flat_map (fun m => flat_map call_wire (content m)) ms.

(** A message joins the one before it if they have one role: on the wire they
    cannot be told apart. *)
Definition add_turn (ms : list Message) (m : Message) : list Message :=
  match last ms with
  | Some m0 =>
      if bool_decide (role m0 = role m)
      then removelast ms ++ [{| role := role m; content := content m0 ++ content m |}]
      else ms ++ [m]
  | None => ms ++ [m]
  end.

Definition merged_turns (ms : list Message) : list Message := fold_left add_turn ms [].

(** Neighbours have different roles. *)
Fixpoint alternate (ms : list Message) : Prop :=
  match ms with
  | m :: ((m' :: _) as rest) => role m <> role m' /\ alternate rest
  | _ => True
  end.

(** Nothing is merged where the roles alternate. *)
Lemma merged_alternate ms : alternate ms -> merged_turns ms = ms.
Proof.
  unfold merged_turns. change (alternate ms -> fold_left add_turn ms [] = [] ++ ms).
  assert (forall m m' : Message, last (@nil Message) = Some m -> head ms = Some m' -> role m <> role m') as Hl by done.
  revert Hl. generalize (@nil Message). induction ms as [|m ms IH]; intros done_ Hl Ha; cbn [fold_left].
  { by rewrite app_nil_r. }
  assert (add_turn done_ m = done_ ++ [m]) as ->.
  { unfold add_turn. destruct (last done_) as [m0|]; [|done]. by rewrite bool_decide_eq_false_2 by auto. }
  rewrite IH.
  - by rewrite <- app_assoc.
  - intros m1 m2. rewrite last_snoc. intros [= <-] Hh. destruct ms as [|m3 ms]; [done|].
    injection Hh as <-. by destruct Ha.
  - by destruct ms; [|destruct Ha].
Qed.

Lemma fold_turn_items seen m items ms ids :
  items_read seen (role m) items (content m) -> content m <> [] -> ids_seen seen ids ->
  exists ids',
    fold_left (input_step false) items
      {| in_messages := ms; break_role_merge := false; in_ids := ids |}
    = {| in_messages := add_turn ms m; break_role_merge := false; in_ids := ids' |}
    /\ ids_seen (flat_map call_wire (content m) ++ seen) ids'.
Proof.
  intros Hi Hne Hs. unfold add_turn. destruct (last ms) as [m0|] eqn:El.
  - case_bool_decide as Hr.
    + apply last_Some in El as [ms' ->]. rewrite removelast_last.
      destruct m0 as [r0 l0]. cbn [role content] in *. subst r0. by apply fold_more.
    + destruct m as [r l]. apply fold_input_turn; try done. intros m1. rewrite El. by intros [= <-].
  - destruct m as [r l]. apply fold_input_turn; try done. intros m1. by rewrite El.
Qed.

Lemma fold_conversation seen l ms ids :
  Forall input_message l -> NoDup (wires l) ->
  (forall w, w ∈ wires l -> w ∉ seen) -> ids_seen seen ids ->
  in_messages (fold_left (input_step false) (flat_map (encode_message false) l)
    {| in_messages := ms; break_role_merge := false; in_ids := ids |}) = fold_left add_turn l ms.
Proof.
  revert seen ms ids. induction l as [|m l IH]; intros seen ms ids Hl Hnd Hw Hs; [done|].
  apply Forall_cons in Hl as [Hm Hl]. cbn [flat_map wires] in *.
  apply NoDup_app in Hnd as (Hnd1 & Hdis & Hnd2). rewrite fold_left_app.
  destruct (fold_turn_items seen m (encode_message false m) ms ids) as (ids' & -> & Hs').
  - apply message_reads; [done..|]. intros w Hin. apply Hw, elem_of_app. by left.
  - by destruct Hm.
  - done.
  - cbn [fold_left]. eapply IH; [done|done| |exact Hs'].
    intros w Hin [Hin'|Hin']%elem_of_app; [by eapply Hdis|].
    eapply Hw; [apply elem_of_app; right; exact Hin|done].
Qed.

Lemma items_not_opaque seen r items l :
  items_read seen r items l -> existsb is_opaque items = false.
Proof. induction 1 as [|seen r item l items l' [Ho _] _ IH]; [done|]. cbn. by rewrite Ho, IH. Qed.

Lemma conversation_not_opaque l :
  Forall input_message l -> NoDup (wires l) ->
  existsb is_opaque (flat_map (encode_message false) l) = false.
Proof.
  induction 1 as [|m l Hm _ IH]; [done|]. cbn [flat_map wires].
  intros (Hnd1 & _ & Hnd2)%NoDup_app. rewrite existsb_app, IH by done.
  erewrite (items_not_opaque []); [done|]. apply message_reads; [done..|]. by intros w _ ?%elem_of_nil.
Qed.

(** No opaque items. *)
Definition no_opaque (ir : IrRequest) : Prop :=
  extensions ir !! "responses_opaque_input_items" = None
  /\ extensions ir !! "codex_opaque_items" = None /\ extensions ir !! "multi_agent_items" = None.

Lemma merge_none fuel cursor modeled :
  (length modeled <= fuel)%nat -> merge_opaque fuel cursor [] modeled = modeled.
Proof.
  revert cursor modeled. induction fuel as [|fuel IH]; intros cursor [|m ms] Hf; cbn in *; try done; [lia|].
  by rewrite IH by lia.
Qed.

Lemma encode_input_plain ir :
  no_opaque ir -> encode_input ir = flat_map (encode_message false) (messages ir).
Proof.
  intros (Ho & Hc & Hm). unfold encode_input, has_opaque_items, ordered_opaque. rewrite Ho, Hc, Hm. cbn.
  by rewrite merge_none by lia.
Qed.

(** The messages of a request are read back from its input. *)
Lemma conversation_roundtrip ir body :
  no_opaque ir -> Forall input_message (messages ir) ->
  NoDup (wires (messages ir)) -> body.["input"] = Arr (encode_input ir) ->
  decode_input body = merged_turns (messages ir).
Proof.
  intros Ho Hm Hnd Hb. unfold decode_input. rewrite Hb, encode_input_plain by done.
  rewrite conversation_not_opaque by done.
  apply (fold_conversation [] (messages ir) []); try done.
  - by intros w _ ?%elem_of_nil.
  - apply ids_seen_new.
Qed.

(** ** Items that return to their places *)

(** An item in the encoder's form and the message it is decoded to. *)
Inductive replayed : Value -> Message -> Prop :=
| replayed_parts r item l :
    r = RUser \/ r = RAssistant -> l <> [] -> Forall input_part l ->
    flush_text_message (if bool_decide (r = RUser) then "user" else "assistant") (map part_of l) = [item] ->
    replayed item {| role := r; content := l |}
| replayed_developer l :
    l <> [] -> Forall input_part l ->
    replayed (obj [("role", Str "developer"); ("content", Arr (map part_of l))])
      {| role := RSystem; content := l |}
| replayed_own r c : own_item r c -> replayed (own_json c) {| role := r; content := [c] |}.

(** An array of opaque items and of others, with new call ids. *)
Inductive mixed_input : list string -> list Value -> Prop :=
| mixed_nil seen : mixed_input seen []
| mixed_opaque seen v arr : is_opaque v = true -> mixed_input seen arr -> mixed_input seen (v :: arr)
| mixed_modelled seen v m arr :
    replayed v m -> (forall w, w ∈ flat_map call_wire (content m) -> w ∉ seen) ->
    mixed_input (flat_map call_wire (content m) ++ seen) arr -> mixed_input seen (v :: arr).

Lemma encode_parts_turn role_str pending l :
  Forall input_part l -> encode_turn role_str pending l = flush_text_message role_str (pending ++ map part_of l).
Proof.
  intros Hl. revert pending. induction Hl as [|c l Hc _ IH]; intros pending; cbn [encode_turn map].
  - by rewrite app_nil_r.
  - by rewrite (proj1 (part_item c Hc)), IH, <- app_assoc.
Qed.

Lemma replayed_encode v m : replayed v m -> encode_message true m = [v].
Proof.
  destruct 1 as [r item l Hr Hne Hl Hf|l Hne Hl|r c Hc].
  - destruct Hr as [-> | ->]; unfold encode_message; cbn [role content];
      rewrite encode_parts_turn by done; exact Hf.
  - unfold encode_message, is_developer_item. cbn [role content]. rewrite orb_true_r, developer_parts by done.
    by destruct l.
  - destruct Hc; try done. 
Qed.

Lemma replayed_reads seen v m :
  replayed v m -> (forall w, w ∈ flat_map call_wire (content m) -> w ∉ seen) ->
  item_reads seen (role m) v (content m).
Proof.
  destruct 1 as [r item l Hr Hne Hl Hf|l Hne Hl|r c Hc]; cbn [role content]; intros Hw.
  - destruct (flush_reads seen r (if bool_decide (r = RUser) then "user" else "assistant") l)
      as (item' & E & Hi); [by destruct Hr as [-> | ->]|done..|]. rewrite Hf in E. by injection E as ->.
  - apply message_item_reads; try done. by left.
  - apply own_item_reads; [done|]. cbn in Hw. by rewrite app_nil_r in Hw.
Qed.

Lemma add_item_apart r l brk ms :
  add_item true r l brk ms = ms ++ [{| role := r; content := l |}].
Proof using. unfold add_item. destruct (last ms); [|done]. by rewrite andb_false_r. Qed.

Lemma fold_mixed seen arr ms brk ids :
  mixed_input seen arr -> ids_seen seen ids ->
  flat_map (encode_message true)
    (in_messages (fold_left (input_step true) arr
       {| in_messages := ms; break_role_merge := brk; in_ids := ids |}))
  = flat_map (encode_message true) ms ++ List.filter (fun v => negb (is_opaque v)) arr.
Proof.
  intros Hi. revert ms brk ids. induction Hi as [seen|seen v arr Ho _ IH|seen v m arr Hv Hw _ IH]; intros ms brk ids Hs.
  - by rewrite app_nil_r.
  - cbn [fold_left List.filter]. rewrite Ho. unfold input_step at 2, decode_item. cbn [in_ids]. rewrite Ho.
    by rewrite IH.
  - cbn [fold_left List.filter]. destruct (replayed_reads seen v m Hv Hw) as (Ho & Hr & Hne & Hd).
    destruct (Hd ids Hs) as (ids' & E & Hs'). rewrite Ho. unfold input_step at 2. cbn [in_ids in_messages break_role_merge].
    rewrite E, Hr. destruct (content m) as [|c l] eqn:Ec; [done|]. rewrite IH by done.
    rewrite add_item_apart, <- Ec, flat_map_app. cbn [flat_map].
    replace {| role := role m; content := content m |} with m by (by destruct m).
    rewrite (replayed_encode v m Hv), app_nil_r, <- app_assoc. done.
Qed.

Lemma opaque_lengths i arr :
  (length (opaque_from i arr) + length (List.filter (fun v => negb (is_opaque v)) arr) = length arr)%nat.
Proof.
  revert i. induction arr as [|v arr IH]; intros i; [done|]. cbn [opaque_from List.filter].
  specialize (IH (i + 1)%Z). destruct (is_opaque v); cbn [length negb]; lia.
Qed.

Lemma opaque_items_none body : opaque_input_items body = [] -> existsb is_opaque (input_items body) = false.
Proof.
  unfold opaque_input_items. generalize (input_items body). intros arr.
  rewrite (imap_ext _ (fun k v => ((0 + k)%nat, v)) arr) by done. generalize 0%nat.
  induction arr as [|v arr IH]; intros i; [done|]. cbn [imap existsb]. rewrite Nat.add_0_r.
  rewrite (imap_ext _ (fun k v => ((S i + k)%nat, v)) arr) by (intros; cbn; f_equal; lia).
  cbn. destruct (is_opaque v); [done|]. apply (IH (S i)).
Qed.

(** The array is restored item for item. *)
Lemma opaque_replay body ir :
  mixed_input [] (input_items body) -> existsb is_opaque (input_items body) = true ->
  messages ir = decode_input body ->
  extensions ir !! "responses_opaque_input_items" = Some (Arr (opaque_input_items body)) ->
  encode_input ir = input_items body.
Proof.
  intros Hi Ho Hm He. unfold encode_input.
  assert (has_opaque_items ir = true) as ->.
  { unfold has_opaque_items. rewrite He. cbn.
    destruct (opaque_input_items body) eqn:E; [|done]. apply opaque_items_none in E. congruence. }
  unfold ordered_opaque. rewrite He. cbn [mbind option_bind as_array].
  rewrite opaque_from_body, Hm. unfold decode_input, input_items in *.
  destruct (body.["input"]) as [| | | |arr|]; try done. cbn [as_array default from_option Datatypes.id] in *.
  rewrite Ho. unfold Input_new. rewrite (fold_mixed []) by (done || apply ids_seen_new).
  cbn [flat_map app]. apply merge_restores. by rewrite opaque_lengths.
Qed.
End Items.
