(* ===== verification/ResponsesRequest.v ===== *)
(** * ResponsesRequest: requests of the Responses API

    [ResponsesCodec::decode_request] and [ResponsesCodec::encode_request] of
    [crates/protocols/src/responses.rs] around the input array of
    [ResponsesInput]: tools, parameters, the [text] and [reasoning] objects,
    and the fields that are kept for a request of the same protocol.  Then what
    a request keeps that is decoded and encoded again, or the reverse. *)

From stdpp Require Import base option list gmap sets strings pretty.
From Stdlib Require Import ZArith Lia Ascii SpecFloat.
From S2P Require Import Prelude RustStr F64 Json JsonBody Telemetry Protocol Classify Errors Ir StructuredOutput ChatRequest ResponsesInput ResponsesInputProps.

Local Open Scope string_scope.
Local Open Scope list_scope.

Definition ResponsesCodec_id : ProtocolEndpoint :=
  mk_endpoint OpenAiResponses "responses" "v1".

(** ** Decoding *)

(** [config.remove(key)] for every key. *)
Definition remove_keys (keys : list string) (m : list (string * Value)) : list (string * Value) :=
  List.filter (fun kv => negb (bool_decide (fst kv ∈ keys))) m.

Definition standard_tool_keys : list string := ["type"; "name"; "description"; "parameters"].

Definition object_members (v : Value) : list (string * Value) := default [] (as_object v).

Definition decode_function_tool (t : Value) (tool_type : option string) : Tool := {|
  tool_name := str_or "" t.["name"];
  tool_description := as_str t.["description"];
  tool_parameters := Obj <$> as_object t.["parameters"];
  tool_required := false;
  tool_type := if bool_decide (tool_type = Some "function") then Some "function" else None;
  tool_config := nonempty_obj (remove_keys standard_tool_keys (object_members t)) |}.

Definition decode_custom_tool (t : Value) : Tool := {|
  tool_name := str_or "" t.["name"];
  tool_description := as_str t.["description"];
  tool_parameters := get "parameters" t;
  tool_required := false;
  tool_type := Some "custom";
  tool_config := nonempty_obj (collect (fun k => negb (standard_tool_key k)) (object_members t)) |}.

(** A tool the provider runs: its type and all its fields. *)
Definition decode_hosted_tool (t : Value) (tool_type : option string) : Tool :=
  let config := object_members t in {|
  tool_name := default "" (assoc "name" config ≫= as_str);
  tool_description := assoc "description" config ≫= as_str;
  tool_parameters := assoc "parameters" config;
  tool_required := false;
  tool_type := tool_type;
  tool_config := nonempty_obj (remove_keys standard_tool_keys config) |}.

Definition decode_tool (t : Value) : Tool :=
  match as_str t.["type"] with
  | None => decode_function_tool t None
  | Some ty =>
      if String.eqb ty "function" then decode_function_tool t (Some ty)
      else if String.eqb ty "custom" then decode_custom_tool t
      else decode_hosted_tool t (Some ty)
  end.

Definition decode_tools (body : Value) : list Tool :=
  map decode_tool (default [] (as_array body.["tools"])).

Definition decode_thinking (body : Value) : option ThinkingConfig :=
  match get "reasoning" body with
  | None => None
  | Some r =>
  let effort' := (get "effort" r ≫= as_str) ≫= decode_effort in
  let summary' := get "summary" r ≫= as_str in
  let mode := get "mode" r ≫= as_str in
  let context := get "context" r in
  if is_none effort' && is_none summary' && is_none mode && is_none context then None
  else Some {| effort := effort'; budget_tokens := None; display := None; include_thoughts := None;
               summary := summary'; th_mode := mode; th_context := context |}
  end.

Definition decode_params (body : Value) : GenerationParams := {|
  max_tokens := wrap32 <$> as_u64 body.["max_output_tokens"];
  temperature := f64_to_f32 <$> as_f64 body.["temperature"];
  top_p := f64_to_f32 <$> as_f64 body.["top_p"];
  top_k := None;
  gp_stop := omap as_str (default [] (as_array body.["stop"]));
  frequency_penalty := None;
  presence_penalty := None;
  seed := None;
  thinking := decode_thinking body;
  verbosity := as_str body.["text"].["verbosity"] ≫= decode_verbosity |}.

(** The name, the schema and the flag are members of the format, or of a
    [json_schema] member as in Chat Completions. *)
Definition format_schema (format : Value) : option Value :=
  match get "schema" format with
  | Some s => if is_null s then None else Some s
  | None => None
  end.

Definition decode_text_format (text : Value) : option ResponseFormat :=
  match get "format" text with
  | None => None
  | Some format =>
  match as_str format.["type"] with
  | None => None
  | Some t =>
      if String.eqb t "json_schema" then
        let name := default "response" (or_else (as_str format.["name"])
                                          (as_str format.["json_schema"].["name"])) in
        match or_else (format_schema format) (get "json_schema" format ≫= format_schema) with
        | Some schema =>
            if is_object schema
            then Some (JsonSchema name schema (or_else (as_bool format.["strict"])
                                                 (as_bool format.["json_schema"].["strict"])))
            else None
        | None => None
        end
      else if String.eqb t "json_object" then Some JsonObject
      else if String.eqb t "text" then Some TextFormat
      else None
  end end.

Definition responses_extra_keys : list string :=
  ["metadata"; "previous_response_id"; "store"; "parallel_tool_calls"; "service_tier"; "user";
   "truncation"; "include"; "prompt_cache_key"; "prompt_cache_retention"; "prompt_cache_options";
   "client_metadata"; "multi_agent"].

(** The members with the given names. *)
Definition gather (keys : list string) (body : Value) : list (string * Value) :=
  fold_left (fun m k => insert_member k (get k body) m) keys [].

Definition nonempty_arr (l : list Value) : option Value :=
  match l with [] => None | _ => Some (Arr l) end.

Definition decode_extensions (body : Value) : JsonMap :=
  let ext := insert_opt "tool_choice" (get "tool_choice" body) ∅ in
  let ext := insert_opt "text" (get "text" body) ext in
  let ext := insert_opt "reasoning_effort"
               (Str <$> ((get "reasoning" body ≫= get "effort") ≫= as_str)) ext in
  let ext := insert_opt "reasoning_full" (get "reasoning" body) ext in
  let ext := insert_opt "openai.safety_identifier" (get "safety_identifier" body) ext in
  let ext := insert_opt "openai.prompt_cache_options" (get "prompt_cache_options" body) ext in
  let ext := insert_opt "openai.prompt_cache_key" (get "prompt_cache_key" body) ext in
  let ext := insert_opt "openai.prompt_cache_retention" (get "prompt_cache_retention" body) ext in
  let ext := insert_opt "responses_extra" (nonempty_obj (gather responses_extra_keys body)) ext in
  let ext := insert_opt "responses_opaque_input_items" (nonempty_arr (opaque_input_items body)) ext in
  let ext := insert_opt "codex_opaque_items" (nonempty_arr (codex_opaque_items body)) ext in
  insert_opt "multi_agent_items" (nonempty_arr (multi_agent_items body)) ext.

Definition decode_request `{SerdeJson} (body : Value) : result Error IrRequest :=
  Ok {| model := str_or "unknown" body.["model"];
        system := as_str body.["instructions"];
        messages := decode_input body;
        tools := decode_tools body;
        params := decode_params body;
        response_format := get "text" body ≫= decode_text_format;
        stream := default false (as_bool body.["stream"]);
        ingress_protocol := ResponsesCodec_id;
        metadata := decode_metadata body;
        extensions := decode_extensions body |}.

(** ** Encoding *)

(** [map.entry(key).or_insert_with(value)] for the members of the config. *)
Definition or_insert (config : option Value) (o : Value) : Value :=
  match config with
  | Some (Obj cfg) =>
      fold_left (fun o kv => if is_none (get (fst kv) o) then set (fst kv) (snd kv) o else o) cfg o
  | _ => o
  end.

Definition encode_tool (t : Tool) : Value :=
  or_insert (tool_config t)
    (if Tool.is_function t then
       obj [("type", Str "function"); ("name", Str (tool_name t));
            ("description", json_opt_str (tool_description t));
            ("parameters", default Null (tool_parameters t))]
     else
       set_opt "parameters" (tool_parameters t)
         (set_opt "description" (Str <$> tool_description t)
            (set_opt "name" (if is_empty (tool_name t) then None else Some (Str (tool_name t)))
               (set_opt "type" (Str <$> tool_type t) (obj []))))).

Definition encode_text_format (format : ResponseFormat) : Value :=
  match format with
  | JsonSchema name schema strict =>
      set_opt "strict" (Bool <$> strict)
        (obj [("type", Str "json_schema"); ("name", Str name); ("schema", schema)])
  | JsonObject => obj [("type", Str "json_object")]
  | TextFormat => obj [("type", Str "text")]
  end.

(** [body["text"]] is made an object where a member is set. *)
Definition text_object (text : option Value) : Value :=
  match text with Some (Obj m) => Obj m | _ => obj [] end.

Definition with_format (format : option ResponseFormat) (text : option Value) : option Value :=
  match format with
  | None => text
  | Some format =>
      let t := text_object text in
      Some (if is_none (get "format" t) then set "format" (encode_text_format format) t else t)
  end.

Definition with_verbosity (v : option Verbosity) (text : option Value) : option Value :=
  match v with
  | None => text
  | Some v => Some (set "verbosity" (Str (verbosity_str v)) (text_object text))
  end.

Definition text_json (ir : IrRequest) : option Value :=
  with_verbosity (verbosity (params ir))
    (with_format (response_format ir) (extensions ir !! "text")).

(** [ensure_reasoning_obj] and the member. *)
Definition with_member (k : string) (v : option Value) (r : option Value) : option Value :=
  match v with
  | Some v => Some (set k v (default (obj []) r))
  | None => r
  end.

Definition thinking_json (th : ThinkingConfig) : option Value :=
  let effort' := or_else (effort th) (ThinkingConfig.budget_to_effort <$> budget_tokens th) in
  with_member "context" (th_context th)
    (with_member "mode" (Str <$> th_mode th)
       (with_member "summary" (Str <$> summary th)
          ((fun e => obj [("effort", Str (effort_str e))]) <$> effort'))).

Definition reasoning_json (ir : IrRequest) : option Value :=
  match extensions ir !! "reasoning_full" with
  | Some re_full => Some re_full
  | None =>
      match thinking (params ir) with
      | Some th => thinking_json th
      | None => (fun e => obj [("effort", Str e)])
                  <$> (extensions ir !! "reasoning_effort" ≫= as_str)
      end
  end.

Definition metadata_json (ir : IrRequest) : option Value :=
  match metadata ir with
  | Some m => if bool_decide (m = ∅) then None else Some (encode_metadata m)
  | None => None
  end.

(** The fields that were kept at decode time; what is already there wins,
    except for [metadata]. *)
Definition replay_responses_extra (ir : IrRequest) (body : Value) : Value :=
  match extensions ir !! "responses_extra" ≫= as_object with
  | Some extra =>
      fold_left (fun body kv =>
        if String.eqb (fst kv) "metadata" || is_none (get (fst kv) body)
        then set (fst kv) (snd kv) body else body) extra body
  | None => body
  end.

Definition encode_body `{SerdeJson} (ir : IrRequest) : Value :=
  let body := obj [("model", Str (model ir)); ("stream", Bool (stream ir))] in
  let body := set_opt "instructions" (Str <$> instructions ir) body in
  let body := set "input" (Arr (encode_input ir)) body in
  let body := set_opt "tools" (nonempty_arr (map encode_tool (tools ir))) body in
  let body := set_opt "max_output_tokens" (json_u64 <$> max_tokens (params ir)) body in
  let body := set_opt "temperature" (json_f32 <$> temperature (params ir)) body in
  let body := set_opt "top_p" (json_f32 <$> top_p (params ir)) body in
  let body := set_opt "stop" (nonempty_arr (map Str (gp_stop (params ir)))) body in
  let body := set_opt "metadata" (metadata_json ir) body in
  let body := set_opt "tool_choice" (extensions ir !! "tool_choice") body in
  let body := set_opt "text" (text_json ir) body in
  let body := replay_shared ir body in
  let body := set_opt "reasoning" (reasoning_json ir) body in
  replay_responses_extra ir body.

(** The body and the headers. *)
Definition encode_request `{SerdeJson} (ir : IrRequest)
    : result Error (Value * list (string * string)) :=
  match validate_response_format_for_target (response_format ir) ResponsesCodec_id with
  | Ok _ => Ok (encode_body ir, [("content-type", "application/json")])
  | Err e => Err (ECodec (schema_error_to_string e))
  end.

(** ** Members of the body *)

Definition kept_extra (ir : IrRequest) : list (string * Value) :=
  default [] (extensions ir !! "responses_extra" ≫= as_object).

(** A member before the kept fields are replayed. *)
Definition modelled_member `{SerdeJson} (ir : IrRequest) (k : string) : option Value :=
  let p := params ir in let ext := extensions ir in
  if String.eqb k "reasoning" then reasoning_json ir
  else if String.eqb k "prompt_cache_retention" then ext !! "openai.prompt_cache_retention"
  else if String.eqb k "prompt_cache_key" then ext !! "openai.prompt_cache_key"
  else if String.eqb k "prompt_cache_options" then ext !! "openai.prompt_cache_options"
  else if String.eqb k "safety_identifier" then ext !! "openai.safety_identifier"
  else if String.eqb k "text" then text_json ir
  else if String.eqb k "tool_choice" then ext !! "tool_choice"
  else if String.eqb k "metadata" then metadata_json ir
  else if String.eqb k "stop" then nonempty_arr (map Str (gp_stop p))
  else if String.eqb k "top_p" then json_f32 <$> top_p p
  else if String.eqb k "temperature" then json_f32 <$> temperature p
  else if String.eqb k "max_output_tokens" then json_u64 <$> max_tokens p
  else if String.eqb k "tools" then nonempty_arr (map encode_tool (tools ir))
  else if String.eqb k "input" then Some (Arr (encode_input ir))
  else if String.eqb k "instructions" then Str <$> instructions ir
  else if String.eqb k "stream" then Some (Bool (stream ir))
  else if String.eqb k "model" then Some (Str (model ir))
  else None.

(** The kept [metadata] wins, of the others the modelled member. *)
Definition responses_member `{SerdeJson} (ir : IrRequest) (k : string) : option Value :=
  if String.eqb k "metadata" then or_else (assoc k (kept_extra ir)) (modelled_member ir k)
  else or_else (modelled_member ir k) (assoc k (kept_extra ir)).

Lemma get_replayed_extra l b k :
  is_object b = true -> NoDup l.*1 ->
  get k (fold_left (fun body kv =>
           if String.eqb (fst kv) "metadata" || is_none (get (fst kv) body)
           then set (fst kv) (snd kv) body else body) l b)
  = if String.eqb k "metadata" then or_else (assoc k l) (get k b)
    else or_else (get k b) (assoc k l).
Proof.
  revert b. induction l as [|[k' v] l IH]; intros b Hb Hnd.
  { cbn. destruct (String.eqb k "metadata"); [done|]. by rewrite or_else_none. }
  apply NoDup_cons in Hnd as [Hk' Hnd]. cbn [fold_left fst snd assoc].
  assert (assoc k' l = None) as Hn.
  { destruct (assoc k' l) as [w|] eqn:E; [|done]. apply assoc_nodup in E; [|done].
    destruct Hk'. apply list_elem_of_fmap. by exists (k', w). }
  destruct (String.eqb_spec k' "metadata") as [->|Hm]; cbn [orb].
  - rewrite IH by (auto with body || done). rewrite get_set_if by done.
    destruct (String.eqb k "metadata") eqn:E; [|done]. apply String.eqb_eq in E as ->. by rewrite Hn.
  - destruct (get k' b) as [w|] eqn:E; cbn [is_none]; rewrite IH by (auto with body || done).
    + destruct (String.eqb_spec k k') as [->|]; [|done].
      by rewrite (proj2 (String.eqb_neq _ _) Hm), E.
    + rewrite get_set_if by done. destruct (String.eqb_spec k k') as [->|]; [|done].
      by rewrite (proj2 (String.eqb_neq _ _) Hm), E.
Qed.

Lemma get_responses_body `{SerdeJson} ir k :
  NoDup (kept_extra ir).*1 -> get k (encode_body ir) = responses_member ir k.
Proof.
  intros Hnd. unfold encode_body. cbv zeta.
  set (b := set_opt "reasoning" _ _).
  assert (is_object b = true) as Hb.
  { subst b. unfold replay_shared. cbn [fold_left fst snd]. auto 40 with body. }
  assert (get k b = modelled_member ir k) as Hg.
  { subst b. unfold replay_shared. cbn [fold_left fst snd].
    rewrite !get_set_opt_if, get_set_if, get_set_opt_if, get_obj by auto 40 with body.
    unfold modelled_member. rewrite !or_else_if; try done; last_key. }
  unfold responses_member, kept_extra in *. rewrite <- Hg. unfold replay_responses_extra.
  destruct (_ ≫= as_object) as [extra|]; [by apply get_replayed_extra|].
  cbn. destruct (String.eqb k "metadata"); [done|]. by rewrite or_else_none.
Qed.

(** ** Fields that are replayed *)

Lemma assoc_gather keys body k m :
  assoc k (fold_left (fun m k => insert_member k (get k body) m) keys m)
  = or_else (if bool_decide (k ∈ keys) then get k body else None) (assoc k m).
Proof.
  revert m. induction keys as [|k' keys IH]; intros m; [done|]. cbn [fold_left].
  rewrite IH, assoc_insert_member. destruct (String.eqb_spec k k') as [->|Hne].
  - rewrite (bool_decide_eq_true_2 (k' ∈ k' :: keys)) by by left.
    destruct (bool_decide (k' ∈ keys)); [|done]. by destruct (get k' body).
  - rewrite (bool_decide_ext (k ∈ k' :: keys) (k ∈ keys)); [done|].
    rewrite elem_of_cons. naive_solver.
Qed.

Lemma gather_sorted keys body m :
  keys_sorted m = true ->
  keys_sorted (fold_left (fun m k => insert_member k (get k body) m) keys m) = true.
Proof.
  revert m. induction keys as [|k keys IH]; intros m Hm; [done|]. apply IH.
  destruct (get k body); [by apply keys_sorted_insert|done].
Qed.

Lemma nonempty_members m : default [] (nonempty_obj m ≫= as_object) = m.
Proof. by destruct m. Qed.

(** An extension of a decoded request. *)
Definition decoded_extension (body : Value) (k : string) : option Value :=
  if String.eqb k "multi_agent_items" then nonempty_arr (multi_agent_items body)
  else if String.eqb k "codex_opaque_items" then nonempty_arr (codex_opaque_items body)
  else if String.eqb k "responses_opaque_input_items" then nonempty_arr (opaque_input_items body)
  else if String.eqb k "responses_extra" then nonempty_obj (gather responses_extra_keys body)
  else if String.eqb k "openai.prompt_cache_retention" then get "prompt_cache_retention" body
  else if String.eqb k "openai.prompt_cache_key" then get "prompt_cache_key" body
  else if String.eqb k "openai.prompt_cache_options" then get "prompt_cache_options" body
  else if String.eqb k "openai.safety_identifier" then get "safety_identifier" body
  else if String.eqb k "reasoning_full" then get "reasoning" body
  else if String.eqb k "reasoning_effort"
  then Str <$> ((get "reasoning" body ≫= get "effort") ≫= as_str)
  else if String.eqb k "text" then get "text" body
  else if String.eqb k "tool_choice" then get "tool_choice" body
  else None.

Lemma lookup_decoded body k : decode_extensions body !! k = decoded_extension body k.
Proof.
  unfold decode_extensions. rewrite !lookup_insert_opt, lookup_empty. unfold decoded_extension.
  rewrite !or_else_if; try done; last_key.
Qed.

Section Replay.
Context `{SerdeJson}.
Implicit Types (ir : IrRequest) (body : Value).

Lemma kept_decoded body ir :
  decode_request body = Ok ir -> kept_extra ir = gather responses_extra_keys body.
Proof using.
  intros [= <-]. unfold kept_extra. cbn [extensions]. rewrite lookup_decoded.
  by rewrite <- (nonempty_members (gather responses_extra_keys body)).
Qed.

Lemma kept_nodup body ir : decode_request body = Ok ir -> NoDup (kept_extra ir).*1.
Proof using. intros Hd. rewrite (kept_decoded body ir Hd). by apply keys_sorted_nodup, gather_sorted. Qed.

Lemma kept_member body ir k :
  decode_request body = Ok ir ->
  assoc k (kept_extra ir) = if bool_decide (k ∈ responses_extra_keys) then get k body else None.
Proof using.
  intros Hd. rewrite (kept_decoded body ir Hd). unfold gather. rewrite assoc_gather. apply or_else_none.
Qed.

Lemma encoded_body ir body headers : encode_request ir = Ok (body, headers) -> body = encode_body ir.
Proof using. unfold encode_request. by destruct (validate_response_format_for_target _ _); intros [=]. Qed.

(** Fields that are replayed as they came. *)
Definition replayed_keys : list string :=
  ["tool_choice"; "reasoning"; "safety_identifier"] ++ responses_extra_keys.

Lemma decoded_lookup body ir k :
  decode_request body = Ok ir -> extensions ir !! k = decoded_extension body k.
Proof using. intros [= <-]. apply lookup_decoded. Qed.

(** The object is kept whole, so that what was read of it does not matter. *)
Lemma reasoning_replayed body ir : decode_request body = Ok ir -> reasoning_json ir = get "reasoning" body.
Proof using.
  intros Hd. unfold reasoning_json. rewrite !(decoded_lookup body ir) by done.
  change (decoded_extension body "reasoning_full") with (get "reasoning" body).
  change (decoded_extension body "reasoning_effort")
    with (Str <$> ((get "reasoning" body ≫= get "effort") ≫= as_str)).
  injection Hd as <-. cbn [params thinking decode_params]. unfold decode_thinking.
  by destruct (get "reasoning" body).
Qed.

Lemma modelled_replayed body ir k :
  decode_request body = Ok ir -> k ∈ replayed_keys -> k <> "metadata" ->
  or_else (modelled_member ir k) (assoc k (kept_extra ir)) = get k body.
Proof.
  intros Hd Hk Hm. rewrite (kept_member body ir k Hd). unfold modelled_member. cbv zeta.
  rewrite (reasoning_replayed body ir Hd), !(decoded_lookup body ir) by done.
  revert k Hk Hm. apply (Forall_forall (fun k => k <> "metadata" -> _)).
  unfold replayed_keys, responses_extra_keys. cbn [app].
  repeat (apply Forall_cons; split; [intros Hm|]); try apply Forall_nil_2; [| | |done|..];
    lazy beta iota delta [decoded_extension String.eqb Ascii.eqb Bool.eqb];
    (rewrite bool_decide_eq_true_2 by (by apply (bool_decide_unpack _)))
    || (rewrite bool_decide_eq_false_2 by (by apply (bool_decide_unpack _))).
  all: try done; by destruct (get _ body).
Qed.

Lemma verbosity_str_decode s v : decode_verbosity s = Some v -> verbosity_str v = s.
Proof using.
  unfold decode_verbosity. destruct (String.eqb_spec s "low") as [->|]; [by intros [= <-]|].
  destruct (String.eqb_spec s "medium") as [->|]; [by intros [= <-]|].
  destruct (String.eqb_spec s "high") as [->|]; [by intros [= <-]|done].
Qed.

Lemma text_replayed body ir :
  decode_request body = Ok ir ->
  match get "text" body with
  | None => text_json ir = None
  | Some t => exists t', text_json ir = Some t' /\ forall m, get m t' = get m t
  end.
Proof using.
  intros Hd. unfold text_json. rewrite (decoded_lookup body ir) by done.
  change (decoded_extension body "text") with (get "text" body). injection Hd as <-.
  cbn [params verbosity decode_params response_format]. unfold index.
  destruct (get "text" body) as [t|] eqn:Et; [|done]. cbn [default from_option Datatypes.id mbind option_bind].
  assert (exists t1, with_format (decode_text_format t) (Some t) = Some t1
                     /\ (is_object t = true -> t1 = t) /\ (is_object t = false -> t1 = t)) as (t1 & -> & H1 & H2).
  { destruct (decode_text_format t) as [f|] eqn:Ef; [|by exists t]. cbn [with_format].
    unfold decode_text_format in Ef. destruct (get "format" t) as [g|] eqn:Eg; [|done].
    destruct t as [| | | | |m]; try done. cbn [text_object]. rewrite Eg. by eexists. }
  assert (t1 = t) as -> by (destruct (is_object t); auto). clear H1 H2.
  destruct (as_str (default Null (get "verbosity" t))) as [s|] eqn:Es; [|by exists t].
  cbn [mbind option_bind]. destruct (decode_verbosity s) as [v|] eqn:Ev; [|by exists t].
  cbn [with_verbosity]. destruct t as [| | | | |m]; try done. eexists. split; [done|]. intros k.
  cbn [text_object]. rewrite get_set_if by done. destruct (String.eqb_spec k "verbosity") as [->|]; [|done].
  destruct (get "verbosity" (Obj m)) as [w|]; [|done]. destruct w; try done. injection Es as ->.
  by rewrite (verbosity_str_decode s v).
Qed.
End Replay.

(** What the representation does not model comes back.  A Responses
    request that is decoded and encoded again has the tool choice, the
    reasoning object, the metadata and the other named fields exactly as they
    came, a text object with the same members, the model, the stop sequences
    and the token limit when it fits 32 bits. *)
Theorem responses_fields_replayed `{SerdeJson} body ir body' headers :
  decode_request body = Ok ir -> encode_request ir = Ok (body', headers) ->
  (forall k, k ∈ replayed_keys -> get k body' = get k body)
  /\ match get "text" body with
     | None => get "text" body' = None
     | Some t => exists t', get "text" body' = Some t' /\ forall m, get m t' = get m t
     end
  /\ (forall s, get "model" body = Some (Str s) -> get "model" body' = Some (Str s))
  /\ (forall l, l <> [] -> get "stop" body = Some (Arr (map Str l)) -> get "stop" body' = Some (Arr (map Str l)))
  /\ (forall n, get "max_output_tokens" body = Some (json_u64 n) -> in_u32 n = true ->
        get "max_output_tokens" body' = Some (json_u64 n)).
Proof.
  intros Hd ->%encoded_body. pose proof (kept_nodup body ir Hd) as Hnd.
  assert (forall k, k ∉ responses_extra_keys -> k <> "metadata" ->
    get k (encode_body ir) = modelled_member ir k) as Hg.
  { intros k Hk Hm. rewrite (get_responses_body ir k Hnd). unfold responses_member.
    rewrite (proj2 (String.eqb_neq _ _) Hm), (kept_member body ir k Hd), bool_decide_eq_false_2 by done.
    apply or_else_none. }
  split_and!.
  - intros k Hk. rewrite (get_responses_body ir k Hnd). unfold responses_member.
    destruct (String.eqb_spec k "metadata") as [->|Hm]; [|by eapply modelled_replayed].
    rewrite (kept_member body ir _ Hd), bool_decide_eq_true_2 by by apply (bool_decide_unpack _).
    destruct (get "metadata" body) eqn:E; [done|]. cbn [or_else modelled_member].
    injection Hd as <-. unfold modelled_member, metadata_json. cbn. unfold decode_metadata. by rewrite E.
  - rewrite (Hg "text") by (done || by apply (bool_decide_unpack _)). by apply (text_replayed body ir).
  - intros s Hs. rewrite (Hg "model") by (done || by apply (bool_decide_unpack _)).
    injection Hd as <-. unfold modelled_member. cbn. unfold str_or, index. by rewrite Hs.
  - intros l Hl Hs. rewrite (Hg "stop") by (done || by apply (bool_decide_unpack _)).
    injection Hd as <-. unfold modelled_member. cbn. unfold index. rewrite Hs. cbn.
    rewrite omap_str. by destruct l.
  - intros n Hn Hu. rewrite (Hg "max_output_tokens") by (done || by apply (bool_decide_unpack _)).
    injection Hd as <-. unfold modelled_member. cbn. unfold index. rewrite Hn. cbn. by rewrite wrap32_small.
Qed.

(** Opaque items return to their places.  When the input of a Responses
    request has items the representation does not model (Codex tool searches,
    compactions, agent messages, multi-agent calls) between items in the
    encoder's form, and no call id occurs twice, the request that is encoded
    from the decoded one has the same input, item for item, and the same
    instructions. *)
Theorem opaque_items_replayed `{SerdeJson} body ir body' headers arr :
  decode_request body = Ok ir -> encode_request ir = Ok (body', headers) ->
  get "input" body = Some (Arr arr) -> mixed_input [] arr -> existsb is_opaque arr = true ->
  get "input" body' = Some (Arr arr)
  /\ get "instructions" body' = Str <$> as_str body.["instructions"].
Proof.
  intros Hd ->%encoded_body Ha Hm Ho. pose proof (kept_nodup body ir Hd) as Hnd.
  assert (input_items body = arr) as Ei by (unfold input_items, index; by rewrite Ha).
  assert (extensions ir !! "responses_opaque_input_items" = Some (Arr (opaque_input_items body))) as He.
  { rewrite (decoded_lookup body ir) by done.
    change (nonempty_arr (opaque_input_items body) = Some (Arr (opaque_input_items body))).
    destruct (opaque_input_items body) eqn:E; [|done].
    apply opaque_items_none in E. rewrite Ei in E. congruence. }
  assert (has_opaque_items ir = true) as Hop.
  { unfold has_opaque_items. rewrite He. cbn. destruct (opaque_input_items body) eqn:E; [|done].
    apply opaque_items_none in E. rewrite Ei in E. congruence. }
  rewrite !(get_responses_body ir) by done. unfold responses_member.
  rewrite !(kept_member body ir) by done. rewrite !bool_decide_eq_false_2 by by apply (bool_decide_unpack _).
  cbn [String.eqb Ascii.eqb Bool.eqb]. rewrite !or_else_none. split.
  - change (Some (Arr (encode_input ir)) = Some (Arr arr)). rewrite (opaque_replay body ir).
    + by rewrite Ei.
    + by rewrite Ei.
    + by rewrite Ei.
    + by injection Hd as <-.
    + done.
  - change (Str <$> instructions ir = Str <$> as_str body.["instructions"]). f_equal.
    unfold instructions. rewrite Hop.
    assert (flat_map (instruction_texts true) (messages ir) = []) as ->.
    { clear. induction (messages ir) as [|m ms IH]; [done|]. cbn [flat_map]. rewrite IH, app_nil_r.
      unfold instruction_texts, is_developer_item. destruct (role m); by rewrite ?orb_true_r. }
    by injection Hd as <-.
Qed.

(** ** Requests of other protocols *)

(** Nothing was kept from a Responses request. *)
Definition from_elsewhere (ir : IrRequest) : Prop :=
  no_opaque ir /\ extensions ir !! "responses_extra" = None
  /\ extensions ir !! "reasoning_full" = None /\ extensions ir !! "text" = None.

Definition config_member (t : Tool) (k : string) : option Value := tool_config t ≫= get k.

(** A function tool with an object for its parameters, or a custom or hosted
    tool; its further fields have names of their own. *)
Definition responses_tool (t : Tool) : Prop :=
  (forall k, k ∈ standard_tool_keys -> config_member t k = None)
  /\ (Tool.is_function t = true -> forall p, tool_parameters t = Some p -> is_object p = true).

Definition relayed_tool (t u : Tool) : Prop :=
  tool_name u = tool_name t /\ tool_description u = tool_description t
  /\ tool_parameters u = tool_parameters t /\ tool_required u = false
  /\ tool_type u = (if Tool.is_function t then Some "function" else tool_type t)
  /\ forall k, config_member u k = config_member t k.

Lemma or_insert_get config o k :
  is_object o = true -> is_object (or_insert config o) = true
  /\ get k (or_insert config o) = or_else (get k o) (config ≫= get k).
Proof.
  intros Ho. unfold or_insert. destruct config as [[]|]; cbn [mbind option_bind get];
    rewrite ?or_else_none; try done. by apply get_replayed.
Qed.

Lemma assoc_remove keys m k :
  assoc k (remove_keys keys m) = if bool_decide (k ∈ keys) then None else assoc k m.
Proof.
  unfold remove_keys. induction m as [|[k' v] m IH]; cbn [List.filter fst]; [by case_bool_decide|].
  destruct (String.eqb_spec k k') as [->|Hne].
  - case_bool_decide as Hk; cbn [negb]; [by rewrite IH|]. cbn. by rewrite String.eqb_refl.
  - apply String.eqb_neq in Hne. cbn [assoc]. rewrite Hne.
    destruct (negb _); cbn [assoc]; [by rewrite Hne|done].
Qed.

Lemma assoc_collect keep m k :
  keys_sorted m = true ->
  assoc k (collect keep m) = if keep k then assoc k m else None.
Proof.
  unfold collect. intros Hs%keys_sorted_nodup.
  enough (forall acc, assoc k (fold_left (fun m kv => if keep (fst kv) then Json.insert (fst kv) (snd kv) m else m) m acc)
    = or_else (if keep k then assoc k m else None) (assoc k acc)) as Hf by (rewrite Hf; apply or_else_none).
  induction m as [|[k' v] m IH]; intros acc; [by destruct (keep k)|].
  apply NoDup_cons in Hs as [Hk Hs]. cbn [fold_left fst snd assoc]. rewrite IH by done.
  destruct (String.eqb k k') eqn:E.
  - apply String.eqb_eq in E as ->. assert (assoc k' m = None) as ->.
    { destruct (assoc k' m) as [w|] eqn:E; [|done]. apply assoc_nodup in E; [|done].
      destruct Hk. apply list_elem_of_fmap. by exists (k', w). }
    destruct (keep k'); [|done]. by rewrite assoc_insert, String.eqb_refl.
  - destruct (keep k') eqn:Ek; [|done]. by rewrite assoc_insert, E.
Qed.

Lemma member_nonempty m k : nonempty_obj m ≫= get k = assoc k m.
Proof. by destruct m. Qed.

Definition sorted_object (v : Value) : bool := match v with Obj m => keys_sorted m | _ => false end.

Lemma sorted_set k v o : sorted_object o = true -> sorted_object (set k v o) = true.
Proof. destruct o; try done. apply keys_sorted_insert. Qed.

Lemma sorted_set_opt k v o : sorted_object o = true -> sorted_object (set_opt k v o) = true.
Proof. destruct v; [apply sorted_set|done]. Qed.

Lemma sorted_or_insert config o : sorted_object o = true -> sorted_object (or_insert config o) = true.
Proof.
  unfold or_insert. destruct config as [[]|]; try done. revert o.
  match goal with |- context [fold_left _ ?m _] => induction m as [|[k v] m IH] end; intros o Ho; [done|].
  apply IH. cbn [fst snd]. destruct (is_none _); [by apply sorted_set|done].
Qed.

(** A member of a tool before the further fields. *)
Definition tool_member (t : Tool) (k : string) : option Value :=
  if Tool.is_function t then
    if String.eqb k "parameters" then Some (default Null (tool_parameters t))
    else if String.eqb k "description" then Some (json_opt_str (tool_description t))
    else if String.eqb k "name" then Some (Str (tool_name t))
    else if String.eqb k "type" then Some (Str "function") else None
  else
    if String.eqb k "parameters" then tool_parameters t
    else if String.eqb k "description" then Str <$> tool_description t
    else if String.eqb k "name" then (if is_empty (tool_name t) then None else Some (Str (tool_name t)))
    else if String.eqb k "type" then Str <$> tool_type t else None.

Lemma get_encoded_tool t k :
  get k (encode_tool t) = or_else (tool_member t k) (config_member t k)
  /\ sorted_object (encode_tool t) = true.
Proof.
  unfold encode_tool. split.
  - edestruct or_insert_get as [_ ->]; [destruct (Tool.is_function t); auto with body|].
    unfold config_member. f_equal. unfold tool_member. destruct (Tool.is_function t).
    + by rewrite get_obj.
    + rewrite !get_set_opt_if, get_obj by auto with body. rewrite !or_else_if; try done; last_key.
  - apply sorted_or_insert. destruct (Tool.is_function t); [done|]. by repeat apply sorted_set_opt.
Qed.

Lemma standard_key k : standard_tool_key k = bool_decide (k ∈ standard_tool_keys).
Proof.
  unfold standard_tool_key, standard_tool_keys. symmetry.
  destruct (String.eqb_spec k "type") as [->|]; [done|]. destruct (String.eqb_spec k "name") as [->|]; [done|].
  destruct (String.eqb_spec k "description") as [->|]; [done|].
  destruct (String.eqb_spec k "parameters") as [->|]; [done|].
  apply bool_decide_eq_false_2. rewrite !elem_of_cons, elem_of_nil. naive_solver.
Qed.

Lemma responses_tool_roundtrip t : responses_tool t -> relayed_tool t (decode_tool (encode_tool t)).
Proof.
  intros [Hc Hp].
  assert (forall k, get k (encode_tool t) = or_else (tool_member t k) (config_member t k)) as Hg
    by (intros k; apply get_encoded_tool).
  destruct (get_encoded_tool t "") as [_ Hs].
  destruct (encode_tool t) as [| | | | |m] eqn:Em; try done. cbn [get] in Hg.
  assert (forall k, k ∈ standard_tool_keys -> assoc k m = tool_member t k) as Hstd.
  { intros k Hk. rewrite Hg, Hc by done. apply or_else_none. }
  assert (forall k, k ∉ standard_tool_keys -> assoc k m = config_member t k) as Hcfg.
  { intros k Hk. rewrite Hg. unfold standard_tool_keys in Hk. rewrite !not_elem_of_cons in Hk.
    destruct Hk as (H1 & H2 & H3 & H4 & _). unfold tool_member.
    rewrite !(proj2 (String.eqb_neq _ _)) by done. by destruct (Tool.is_function t). }
  assert (forall k, (if bool_decide (k ∈ standard_tool_keys) then None else assoc k m) = config_member t k) as Hrest.
  { intros k. case_bool_decide as Hk; [by rewrite Hc|by apply Hcfg]. }
  pose proof (Hstd "type" ltac:(set_solver)) as Ht. pose proof (Hstd "name" ltac:(set_solver)) as Hn.
  pose proof (Hstd "description" ltac:(set_solver)) as Hd.
  pose proof (Hstd "parameters" ltac:(set_solver)) as Hpr. clear Hg Hstd Hcfg.
  unfold tool_member in Ht, Hn, Hd, Hpr. cbn [String.eqb Ascii.eqb Bool.eqb] in Ht, Hn, Hd, Hpr.
  unfold decode_tool, index. cbn [get]. rewrite Ht. unfold relayed_tool. clear Em.
  destruct (Tool.is_function t) eqn:Ef.
  - cbn. unfold str_or, index. cbn [get]. rewrite Hn, Hd, Hpr. cbn. split_and!; try done.
    + by destruct (tool_description t).
    + destruct (tool_parameters t) as [p|]; [|done]. specialize (Hp eq_refl p eq_refl). by destruct p.
    + intros k. change (nonempty_obj (remove_keys standard_tool_keys m) ≫= get k = config_member t k).
      by rewrite member_nonempty, assoc_remove, Hrest.
  - unfold Tool.is_function in Ef. destruct (tool_type t) as [ty|] eqn:Ety; [|done]. cbn.
    rewrite Ef. destruct (String.eqb_spec ty "custom") as [->|Hcu]; cbn.
    + unfold str_or, index. cbn [get]. rewrite Hn, Hd, Hpr. split_and!; try done.
      * destruct (is_empty (tool_name t)) eqn:E; [|done]. by apply is_empty_eq in E as ->.
      * by destruct (tool_description t).
      * intros k. change (nonempty_obj (collect (fun k => negb (standard_tool_key k)) m) ≫= get k
                             = config_member t k).
        rewrite member_nonempty, assoc_collect, <- Hrest, standard_key by done. by case_bool_decide.
    + rewrite Hn, Hd, Hpr. split_and!; try done.
      * destruct (is_empty (tool_name t)) eqn:E; [|done]. by apply is_empty_eq in E as ->.
      * by destruct (tool_description t).
      * intros k. change (nonempty_obj (remove_keys standard_tool_keys m) ≫= get k = config_member t k).
      by rewrite member_nonempty, assoc_remove, Hrest.
Qed.

(** The effort, from the budget when there is none, and the members the
    Responses API has beside it. *)
Definition relayed_thinking (ir : IrRequest) : option ThinkingConfig :=
  match thinking (params ir) with
  | Some t =>
      let e := or_else (effort t) (ThinkingConfig.budget_to_effort <$> budget_tokens t) in
      if is_none e && is_none (summary t) && is_none (th_mode t) && is_none (th_context t) then None
      else Some {| effort := e; budget_tokens := None; display := None; include_thoughts := None;
                   summary := summary t; th_mode := th_mode t; th_context := th_context t |}
  | None => effort_only <$> ((extensions ir !! "reasoning_effort" ≫= as_str) ≫= decode_effort)
  end.

Definition relayed_format (f : ResponseFormat) : option ResponseFormat :=
  match f with
  | JsonSchema _ schema _ => if is_object schema then Some f else None
  | _ => Some f
  end.

Definition relayed_metadata (m : gmap string string) : option (gmap string string) :=
  if bool_decide (m = ∅) then None else Some m.

Lemma format_text_roundtrip f : get "format" (obj [("format", encode_text_format f)]) = Some (encode_text_format f).
Proof. done. Qed.

Lemma text_format_roundtrip f t :
  get "format" t = Some (encode_text_format f) -> decode_text_format t = relayed_format f.
Proof.
  intros E. unfold decode_text_format. rewrite E. destruct f as [name schema strict| |]; [|done..].
  unfold encode_text_format, format_schema, index. rewrite !get_set_opt_if, !get_obj by auto with body. cbn.
  destruct schema; cbn; try done. by destruct strict.
Qed.

Lemma effort_str_decode e : decode_effort (effort_str e) = Some e.
Proof. by destruct e. Qed.

Section Fields.
Context `{SerdeJson}.
Implicit Types (ir : IrRequest) (body : Value).

Lemma responses_format_roundtrip ir body :
  from_elsewhere ir -> get "text" body = text_json ir ->
  get "text" body ≫= decode_text_format = (response_format ir ≫= relayed_format)
  /\ as_str body.["text"].["verbosity"] ≫= decode_verbosity = verbosity (params ir).
Proof using.
  intros (_ & _ & _ & Ht) E. unfold index. rewrite E. unfold text_json. rewrite Ht. clear E Ht.
  destruct (response_format ir) as [f|], (verbosity (params ir)) as [v|];
    cbn [with_format with_verbosity text_object mbind option_bind default from_option].
  - split; [|by destruct v]. apply text_format_roundtrip. by destruct v.
  - split; [by apply text_format_roundtrip|done].
  - split; by destruct v.
  - done.
Qed.

Lemma responses_thinking_roundtrip ir body :
  from_elsewhere ir -> get "reasoning" body = reasoning_json ir ->
  decode_thinking body = relayed_thinking ir.
Proof using.
  intros (_ & _ & Hr & _) E. unfold decode_thinking. rewrite E. unfold reasoning_json, relayed_thinking.
  rewrite Hr. clear E Hr. destruct (thinking (params ir)) as [t|].
  - unfold thinking_json. set (e := or_else _ _).
    destruct e as [e|], (summary t) as [s|], (th_mode t) as [m|], (th_context t) as [c|];
      cbn [with_member fmap option_fmap option_map default from_option is_none andb];
      unfold Datatypes.id;
      rewrite ?get_set_if, ?get_obj by auto with body; cbn; rewrite ?effort_str_decode; done.
  - destruct (_ ≫= as_str) as [s|]; [|done]. cbn. by destruct (decode_effort s).
Qed.

Lemma responses_tools_roundtrip (l : list Tool) :
  Forall responses_tool l -> Forall2 relayed_tool l (map decode_tool (map encode_tool l)).
Proof using. induction 1; constructor; [by apply responses_tool_roundtrip|done]. Qed.

Lemma instructions_system ir :
  from_elsewhere ir -> Forall input_message (messages ir) -> instructions ir = system ir.
Proof.
  intros ((Ho & _) & _) Hm. unfold instructions, has_opaque_items. rewrite Ho. cbn [mbind option_bind].
  assert (flat_map (instruction_texts false) (messages ir) = []) as ->; [|done].
  induction Hm as [|m l [_ Hm] _ IH]; [done|]. cbn [flat_map]. rewrite IH, app_nil_r.
  unfold instruction_texts, is_developer_item. destruct (role m); try done.
  destruct Hm as [_ ->]. done.
Qed.
End Fields.

(** C33: A request of another protocol survives the Responses API: decoding
    the body the encoder writes gives back the model, the stream flag, the
    system text, the messages - texts, images and files, reasoning, calls with
    their ids and callers, results, programs - where neighbouring messages of
    one role come back as one message, so that all come back as they were if
    the roles alternate; the tools with their fields, the token limit,
    temperature and top_p where they are finite 32-bit floats, the stop
    sequences, the verbosity, the effort (from the budget if there is none),
    the response format, the metadata and the tool choice. The request: no
    message is empty, contents and tools are of the forms the wire has (a
    system message only with a cache breakpoint, image and file sources that
    can be told from the part, function parameters that are objects, no tool
    field named like a standard one), no two calls share a wire id, and the
    token limit fits 32 bits. *)
Theorem responses_request_roundtrip `{SerdeJson} ir body headers :
  encode_request ir = Ok (body, headers) -> from_elsewhere ir ->
  Forall input_message (messages ir) -> NoDup (wires (messages ir)) ->
  Forall responses_tool (tools ir) ->
  (forall n, max_tokens (params ir) = Some n -> in_u32 n = true) ->
  exists ir', decode_request body = Ok ir'
    /\ model ir' = model ir /\ stream ir' = stream ir /\ system ir' = system ir
    /\ messages ir' = merged_turns (messages ir) /\ (alternate (messages ir) -> messages ir' = messages ir)
    /\ Forall2 relayed_tool (tools ir) (tools ir')
    /\ max_tokens (params ir') = max_tokens (params ir)
    /\ (finite_f32 (temperature (params ir)) -> temperature (params ir') = temperature (params ir))
    /\ (finite_f32 (top_p (params ir)) -> top_p (params ir') = top_p (params ir))
    /\ gp_stop (params ir') = gp_stop (params ir)
    /\ verbosity (params ir') = verbosity (params ir)
    /\ thinking (params ir') = relayed_thinking ir
    /\ response_format ir' = (response_format ir ≫= relayed_format)
    /\ metadata ir' = (metadata ir ≫= relayed_metadata)
    /\ extensions ir' !! "tool_choice" = extensions ir !! "tool_choice".
Proof.
  intros ->%encoded_body He Hm Hnd Ht Hu. pose proof He as (Ho & Hx & _).
  assert (kept_extra ir = []) as Hk by (unfold kept_extra; by rewrite Hx).
  assert (forall k, get k (encode_body ir) = modelled_member ir k) as Hg.
  { intros k. rewrite get_responses_body by (rewrite Hk; constructor). unfold responses_member. rewrite Hk.
    cbn [assoc or_else]. destruct (String.eqb k "metadata"); [done|]. apply or_else_none. }
  assert (forall k, (encode_body ir).[k] = default Null (modelled_member ir k)) as Hi
    by (intros k; unfold index; by rewrite Hg).
  eexists. split; [reflexivity|].
  cbn [model stream system messages tools params response_format metadata extensions decode_params max_tokens temperature top_p gp_stop verbosity thinking].
  assert (decode_input (encode_body ir) = merged_turns (messages ir)) as Hturns by (by apply conversation_roundtrip).
  split_and!.
  - unfold str_or. by rewrite Hi.
  - by rewrite Hi.
  - rewrite Hi. change (as_str (default Null (Str <$> instructions ir)) = system ir).
    rewrite instructions_system by done. by destruct (system ir).
  - exact Hturns.
  - intros Ha. by rewrite Hturns, merged_alternate.
  - unfold decode_tools. rewrite Hi.
    change (Forall2 relayed_tool (tools ir)
      (map decode_tool (default [] (as_array (default Null (nonempty_arr (map encode_tool (tools ir)))))))).
    pose proof (responses_tools_roundtrip (tools ir) Ht) as H2. by destruct (map encode_tool (tools ir)).
  - rewrite Hi. change (wrap32 <$> as_u64 (default Null (json_u64 <$> max_tokens (params ir))) = max_tokens (params ir)).
    destruct (max_tokens (params ir)) as [n|]; [|done]. specialize (Hu n eq_refl). cbn. by rewrite wrap32_small.
  - rewrite Hi. apply json_f32_roundtrip.
  - rewrite Hi. apply json_f32_roundtrip.
  - rewrite Hi. change (omap as_str (default [] (as_array (default Null (nonempty_arr (map Str (gp_stop (params ir)))))))
                        = gp_stop (params ir)).
    pose proof (omap_str (gp_stop (params ir))). by destruct (gp_stop (params ir)).
  - apply responses_format_roundtrip; [done|]. apply Hg.
  - apply responses_thinking_roundtrip; [done|]. apply Hg.
  - apply responses_format_roundtrip; [done|]. apply Hg.
  - unfold decode_metadata. rewrite Hg. change (modelled_member ir "metadata") with (metadata_json ir).
    unfold metadata_json, relayed_metadata. destruct (metadata ir) as [m|]; [|done]. cbn [mbind option_bind].
    case_bool_decide; [done|]. apply string_map_roundtrip.
  - rewrite lookup_decoded. change (get "tool_choice" (encode_body ir) = extensions ir !! "tool_choice").
    apply Hg.
Qed.

(** ** Examples *)

Definition sample_turns : list Message :=
  [{| role := RUser;
      content := [plain_text "what is on the picture?";
                  CMedia (Url "https://example.com/a.png") "image/*" (image_metadata (Some "low")) None] |};
   {| role := RAssistant;
      content := [CReasoning "look it up" None (Some "rs_1") (Some "sealed");
                  plain_text "one moment";
                  CToolCall "fc_1" "lookup" (obj [("q", Str "a")]) (Some "call_1") (Some DirectCaller) None;
                  CToolCall "call_2" "grep" (obj [("input", Str "x")]) (Some "call_2") None
                    (Some "custom_tool_call")] |};
   {| role := RTool;
      content := [CToolResult "call_1" "" "a cat" None (Some (ProgramCaller "prog_1")) None;
                  CToolResult "call_2" "" "none" None None (Some "custom_tool_call_output")] |}].

(** Two results in messages of their own come back as one message. *)
Example results_are_merged :
  let result id := CToolResult id "" "ok" None None None in
  merged_turns [{| role := RTool; content := [result "a"] |}; {| role := RTool; content := [result "b"] |}]
  = [{| role := RTool; content := [result "a"; result "b"] |}].
Proof. reflexivity. Qed.

Definition sample_tool : Tool := {|
  tool_name := "lookup"; tool_description := Some "finds"; tool_parameters := Some (obj [("type", Str "object")]);
  tool_required := false; tool_type := None; tool_config := Some (obj [("strict", Bool true)]) |}.

Definition sample_request : IrRequest := {|
  model := "gpt-5"; system := Some "be brief"; messages := sample_turns; tools := [sample_tool];
  params := {| max_tokens := Some 100%Z; temperature := None; top_p := None; top_k := None; gp_stop := ["END"];
               frequency_penalty := None; presence_penalty := None; seed := None;
               thinking := Some (effort_only EHigh); verbosity := Some VLow |};
  response_format := Some JsonObject; stream := true; ingress_protocol := ChatCompletionsCodec_id;
  metadata := Some (<["team" := "a"]> ∅); extensions := <["tool_choice" := Str "auto"]> ∅ |}.

Definition sent_body (ir : IrRequest) : Value :=
  match @encode_request coded_json ir with Ok (body, _) => body | Err _ => Null end.

Definition json_headers : list (string * string) := [("content-type", "application/json")].

Lemma sample_turns_ok :
  Forall (@input_message coded_json) sample_turns.
Proof.
  repeat (apply Forall_cons; split); try apply Forall_nil_2; (split; [done|]); cbn [role content sample_turns];
    repeat (apply Forall_cons; split); try apply Forall_nil_2.
  - left. constructor.
  - left. by apply (input_part_image_url _ (Some "low") None).
  - right. constructor.
  - left. constructor.
  - right. apply own_call; [done|by vm_compute|done].
  - right. apply (own_custom "call_2" "grep" "x").
  - by constructor.
  - constructor. set_solver.
Qed.

Lemma responses_request_roundtrip_witness :
  exists ir', @decode_request coded_json (sent_body sample_request) = Ok ir'
    /\ system ir' = Some "be brief" /\ messages ir' = sample_turns
    /\ thinking (params ir') = Some (effort_only EHigh)
    /\ metadata ir' = Some (<["team" := "a"]> ∅).
Proof.
  destruct (@responses_request_roundtrip coded_json sample_request (sent_body sample_request) json_headers)
    as (ir' & Hd & _ & _ & Hs & _ & Hm & _ & _ & _ & _ & _ & _ & Ht & _ & Hmd & _).
  - by vm_compute.
  - by repeat split.
  - apply sample_turns_ok.
  - cbn. repeat constructor; set_solver.
  - repeat constructor; [|by intros _ p [= <-]].
    intros k Hk. unfold standard_tool_keys in Hk. set_unfold in Hk. by destruct_or! Hk; subst k.
  - by intros n [= <-].
  - exists ir'. split_and!; [exact Hd|exact Hs|by apply Hm| |].
    + rewrite Ht. by vm_compute.
    + rewrite Hmd. by vm_compute.
Defined.

(** A request with an item the representation does not model. *)
Definition opaque_input : list Value :=
  [obj [("role", Str "user"); ("content", Str "hi")];
   obj [("type", Str "compaction"); ("encrypted_content", Str "sealed")];
   obj [("role", Str "user"); ("content", Str "go on")]].

Definition opaque_body : Value :=
  obj [("model", Str "gpt-5"); ("input", Arr opaque_input); ("instructions", Str "be brief");
       ("store", Bool false); ("reasoning", obj [("effort", Str "high"); ("summary", Str "auto")]);
       ("text", obj [("verbosity", Str "low"); ("future", Bool true)])].

Definition opaque_request : IrRequest :=
  match @decode_request coded_json opaque_body with Ok ir => ir | Err _ => sample_request end.

Lemma responses_fields_replayed_witness :
  get "store" (sent_body opaque_request) = Some (Bool false)
  /\ get "reasoning" (sent_body opaque_request) = Some (obj [("effort", Str "high"); ("summary", Str "auto")]).
Proof.
  destruct (@responses_fields_replayed coded_json opaque_body opaque_request (sent_body opaque_request)
              json_headers) as [Hk _].
  - reflexivity.
  - by vm_compute.
  - split; rewrite Hk by (by apply (bool_decide_unpack _)); by vm_compute.
Defined.

Lemma opaque_items_replayed_witness :
  get "input" (sent_body opaque_request) = Some (Arr opaque_input)
  /\ get "instructions" (sent_body opaque_request) = Some (Str "be brief").
Proof.
  apply (@opaque_items_replayed coded_json opaque_body opaque_request (sent_body opaque_request)
           json_headers opaque_input).
  - reflexivity.
  - by vm_compute.
  - by vm_compute.
  - eapply (mixed_modelled _ _ {| role := RUser; content := [plain_text "hi"] |}).
    + apply (replayed_parts RUser); [by left|done|by repeat constructor|reflexivity].
    + by intros w ?%elem_of_nil.
    + apply mixed_opaque; [by vm_compute|].
      eapply (mixed_modelled _ _ {| role := RUser; content := [plain_text "go on"] |}).
      * apply (replayed_parts RUser); [by left|done|by repeat constructor|reflexivity].
      * by intros w ?%elem_of_nil.
      * constructor.
  - by vm_compute.
Defined.
