(* ===== verification/ResponsesResponse.v ===== *)
(** * ResponsesResponse: responses of the Responses API

    [encode_response] and [decode_response] of [ResponsesCodec]
    ([crates/protocols/src/responses.rs]): the body of a response that is not
    streamed, what it keeps of the representation, and the items that are
    replayed as they came. *)

From stdpp Require Import base option list gmap sets strings pretty.
From Stdlib Require Import ZArith Lia Ascii.
From S2P Require Import Prelude RustStr F64 Json JsonBody Telemetry Protocol Classify Errors Ir StructuredOutput ChatStream ChatRequest ChatResponse ResponsesInput ResponsesInputProps ResponsesRequest.

Local Open Scope string_scope.
Local Open Scope list_scope.
Local Open Scope Z_scope.

(** ** Encoding *)

(** A message of the text so far; its id has the number of the item. *)
Definition flush_text (response_id : option string) (pending : string) (output : list Value)
    : list Value :=
  if is_empty pending then output
  else output ++ [obj [("id", Str (default "msg" response_id +:+ "_msg_" +:+ pretty (length output)));
                       ("type", Str "message"); ("role", Str "assistant");
                       ("content", Arr [obj [("type", Str "output_text"); ("text", Str pending)]])]].

Section Encode.
Context `{SerdeJson}.

Definition output_call (id name : string) (arguments : Value) (call_id : option string)
    (caller : option ToolCaller) (wire_type : option string) : Value :=
  let wire_call_id := default id call_id in
  let tc :=
    if is_responses_custom_tool_call wire_type then
      obj [("type", Str "custom_tool_call"); ("call_id", Str wire_call_id); ("name", Str name);
           ("input", Str (responses_custom_tool_input arguments)); ("status", Str "completed")]
    else if String.eqb (default "function_call" wire_type) "local_shell_call" then
      obj [("type", Str "local_shell_call"); ("call_id", Str wire_call_id); ("action", arguments);
           ("status", Str "completed")]
    else
      obj [("type", Str "function_call"); ("call_id", Str wire_call_id); ("name", Str name);
           ("arguments", Str (to_string arguments)); ("status", Str "completed")] in
  set_opt "caller" (json_caller <$> caller) (set_opt "id" ((fun _ => Str id) <$> call_id) tc).

(** The item of a content that is not text. *)
Definition output_item (c : Content) : option Value :=
  match c with
  | CReasoning text _ id encrypted_content => Some (reasoning_item text id encrypted_content)
  | CToolCall id name arguments call_id caller wire_type =>
      Some (output_call id name arguments call_id caller wire_type)
  | CProgram id call_id code fingerprint => Some (program_item id call_id code fingerprint)
  | CProgramOutput id call_id result status => Some (program_output_item id call_id result status)
  | CRefusal text _ => Some (obj [("type", Str "refusal"); ("refusal", Str text)])
  | CText _ _ _ | CToolResult _ _ _ _ _ _ | CMedia _ _ _ _ => None
  end.

(** Consecutive texts are joined; contents without an item are skipped. *)
Definition output_step (response_id : option string) (st : string * list Value) (c : Content)
    : string * list Value :=
  let '(pending, output) := st in
  match c with
  | CText text _ _ => (pending +:+ text, output)
  | _ =>
      match output_item c with
      | Some item => ("", flush_text response_id pending output ++ [item])
      | None => (pending, output)
      end
  end.

Definition output_items (ir : IrResponse) : list Value :=
  let '(pending, output) := fold_left (output_step (r_response_id ir)) (r_content ir) ("", []) in
  flush_text (r_response_id ir) pending output.

Definition status_str (r : FinishReason) : string :=
  match r with
  | Stop => "completed"
  | LengthReason => "incomplete"
  | ContentFilter => "incomplete"
  | ToolCalls => "completed"
  | OtherReason _ => "completed"
  end.

Definition responses_usage_json (u : Usage) : Value :=
  let cache_read := default 0 (cache_read_tokens u) in
  let cache_write := default 0 (cache_write_tokens u) in
  let prompt_for_responses := wrap64 (wrap64 (prompt_tokens u + cache_read) + cache_write) in
  let total_for_responses := wrap64 (prompt_for_responses + completion_tokens u) in
  let usage := obj [("input_tokens", json_u64 prompt_for_responses);
                    ("output_tokens", json_u64 (completion_tokens u));
                    ("total_tokens", json_u64 total_for_responses)] in
  let input_details := positive_member "cache_write_tokens" (Some cache_write)
                         (positive_member "cached_tokens" (Some cache_read) []) in
  set_opt "output_tokens_details"
    ((fun rt => obj [("reasoning_tokens", json_u64 rt)]) <$> reasoning_tokens u)
    (set_opt "input_tokens_details" (nonempty_obj input_details) usage).

Definition encode_response (ir : IrResponse) : result Error Value :=
  let response := obj [("object", Str "response"); ("model", Str "")] in
  let response := set_opt "id" (Str <$> r_response_id ir) response in
  let output := match r_extensions ir !! "responses_original_output" ≫= as_array with
                | Some original_output => original_output
                | None => output_items ir
                end in
  let response := set "output" (Arr output) response in
  let response := set_opt "status" ((Str ∘ status_str) <$> r_finish_reason ir) response in
  Ok (set_opt "usage" (responses_usage_json <$> r_usage ir) response).
End Encode.

(** ** Decoding *)

(** An [output_text] part with its annotations. *)
Definition decode_output_text (part : Value) : option Content :=
  if has_type "output_text" part then
    text ← as_str part.["text"];
    Some (CText text (get "annotations" part ≫= parse_openai_annotations) None)
  else None.

Section Decode.
Context `{SerdeJson}.

Definition decode_output_call (item : Value) : Content :=
  CToolCall (str_or "" item.["id"]) (str_or "" item.["name"]) (decode_arguments item)
    (as_str item.["call_id"]) (decode_tool_caller item) None.

(** A reasoning item is kept only when there is something to replay. *)
Definition decode_output_reasoning (item : Value) : list Content :=
  let text := responses_reasoning_text item in
  let encrypted_content := as_str item.["encrypted_content"] in
  if negb (is_empty text) || negb (is_none encrypted_content)
  then [CReasoning text None (as_str item.["id"]) encrypted_content] else [].

Definition decode_refusal (item : Value) : list Content :=
  match as_str item.["refusal"] with
  | Some text => if is_empty text then [] else [CRefusal text None]
  | None => []
  end.

(** The contents of an item; [None] for an item that is kept as it is. *)
Definition decode_output_item (item : Value) : option (list Content) :=
  if has_type "message" item then
    Some (omap decode_output_text (default [] (as_array item.["content"])))
  else if has_type "program" item then Some [decode_program item]
  else if has_type "program_output" item then Some [decode_program_output item]
  else if has_type "function_call" item then Some [decode_output_call item]
  else if has_type "reasoning" item then Some (decode_output_reasoning item)
  else if has_type "refusal" item then Some (decode_refusal item)
  else if has_type "local_shell_call" item then
    Some [other_call item "local_shell" (default (obj []) (get "action" item)) "local_shell_call"]
  else if has_type "custom_tool_call" item then
    Some [other_call item (str_or "" item.["name"])
            (obj [("input", Str (str_or "" item.["input"]))]) "custom_tool_call"]
  else None.

Definition decode_output (output : list Value) : list Content :=
  flat_map (fun item => default [] (decode_output_item item)) output.

Definition opaque_output_items (output : list Value) : list Value :=
  omap (fun ix => match decode_output_item (snd ix) with
                  | None => Some (obj [("index", json_u64 (Z.of_nat (fst ix))); ("item", snd ix)])
                  | Some _ => None
                  end) (imap pair output).
End Decode.

Definition calls_tool (c : Content) : bool :=
  match c with CToolCall _ _ _ _ _ _ | CProgram _ _ _ _ => true | _ => false end.

(** The status says nothing of tool calls. *)
Definition finish_of_status (has_tool_call : bool) (s : string) : FinishReason :=
  if String.eqb s "completed" then if has_tool_call then ToolCalls else Stop
  else if String.eqb s "incomplete" then if has_tool_call then ToolCalls else LengthReason
  else OtherReason s.

Definition incomplete_reason (body : Value) : string :=
  default "incomplete" (get "incomplete_details" body ≫= fun d => as_str d.["reason"]).

Definition decode_status_details (body : Value) : option StopDetails :=
  if bool_decide (as_str body.["status"] = Some "incomplete")
  then Some (stop_details_of (incomplete_reason body)) else None.

Definition decode_responses_usage (body : Value) : option Usage :=
  match get "usage" body with
  | Some u =>
      if is_object u && (is_u64 u.["input_tokens"] || is_u64 u.["output_tokens"]
                         || is_u64 u.["total_tokens"])
      then
        let cache_read := as_u64 u.["input_tokens_details"].["cached_tokens"] in
        let cache_write := as_u64 u.["input_tokens_details"].["cache_write_tokens"] in
        let raw_input := default 0 (as_u64 u.["input_tokens"]) in
        Some {| prompt_tokens := sat_sub (sat_sub raw_input (default 0 cache_read))
                                         (default 0 cache_write);
                completion_tokens := default 0 (as_u64 u.["output_tokens"]);
                reasoning_tokens := as_u64 u.["output_tokens_details"].["reasoning_tokens"];
                cache_read_tokens := cache_read; cache_write_tokens := cache_write;
                total_tokens := default 0 (as_u64 u.["total_tokens"]) |}
      else None
  | None => None
  end.

(** The whole output is kept when an item of it is. *)
Definition response_extensions `{SerdeJson} (body : Value) : JsonMap :=
  let output := default [] (as_array body.["output"]) in
  match opaque_output_items output with
  | [] => ∅
  | items => <["responses_original_output" := body.["output"]]>
               (<["responses_opaque_output_items" := Arr items]> ∅)
  end.

Definition decode_response `{SerdeJson} (body : Value) : result Error IrResponse :=
  let content := decode_output (default [] (as_array body.["output"])) in
  Ok {| r_content := content;
        r_usage := decode_responses_usage body;
        r_finish_reason := finish_of_status (existsb calls_tool content) <$> as_str body.["status"];
        r_response_id := as_str body.["id"];
        r_stop_details := decode_status_details body;
        r_extensions := response_extensions body |}.

(** The same suite on both sides: the body is forwarded as it is. *)
Definition pass_through_policy (ingress egress : ProtocolEndpoint) : PassThroughPolicy :=
  if bool_decide (suite ingress = suite egress) then Passthrough else Convert.

(** ** What a response keeps on the way through a Responses body *)

Section Relay.
Context `{SerdeJson}.

Definition relayed_text (pending : string) : list Content :=
  if is_empty pending then [] else [plain_text pending].

(** The wire id of a call that is not a function call. *)
Definition other_id (id : string) (call_id : option string) : string :=
  if is_empty (default id call_id) then id else default id call_id.

Definition relayed_output_call (id name : string) (arguments : Value) (call_id : option string)
    (caller : option ToolCaller) (wire_type : option string) : Content :=
  if is_responses_custom_tool_call wire_type then
    CToolCall (other_id id call_id) name (obj [("input", Str (responses_custom_tool_input arguments))])
      (Some (other_id id call_id)) None (Some "custom_tool_call")
  else if String.eqb (default "function_call" wire_type) "local_shell_call" then
    CToolCall (other_id id call_id) "local_shell" arguments (Some (other_id id call_id)) None
      (Some "local_shell_call")
  else CToolCall (match call_id with Some _ => id | None => "" end) name arguments
         (Some (default id call_id)) caller None.

(** What an item is read as; [None] for contents without an item. *)
Definition relayed_item (c : Content) : option (list Content) :=
  match c with
  | CReasoning text _ id enc =>
      Some (if negb (is_empty text) || negb (is_none enc) then [CReasoning text None id enc] else [])
  | CToolCall id name arguments call_id caller wire_type =>
      Some [relayed_output_call id name arguments call_id caller wire_type]
  | CProgram _ _ _ _ | CProgramOutput _ _ _ _ => Some [c]
  | CRefusal text _ => Some (if is_empty text then [] else [CRefusal text None])
  | CText _ _ _ | CToolResult _ _ _ _ _ _ | CMedia _ _ _ _ => None
  end.

Fixpoint relayed_contents (pending : string) (l : list Content) : list Content :=
  match l with
  | [] => relayed_text pending
  | CText text _ _ :: l => relayed_contents (pending +:+ text) l
  | c :: l =>
      match relayed_item c with
      | Some cs => relayed_text pending ++ cs ++ relayed_contents "" l
      | None => relayed_contents pending l
      end
  end.

(** The arguments of function calls are read back. *)
Definition call_arguments_ok (c : Content) : Prop :=
  match c with
  | CToolCall _ _ arguments _ _ _ => from_str (to_string arguments) = Some arguments
  | _ => True
  end.

Ltac output_members :=
  unfold decode_output_item; repeat (erewrite has_type_of by (item_members; reflexivity));
  cbn [String.eqb Ascii.eqb Bool.eqb].

Lemma flushed_item response_id n pending :
  decode_output_item
    (obj [("id", Str (default "msg" response_id +:+ "_msg_" +:+ pretty (n : nat)));
          ("type", Str "message"); ("role", Str "assistant");
          ("content", Arr [obj [("type", Str "output_text"); ("text", Str pending)]])])
  = Some [plain_text pending].
Proof using. reflexivity. Qed.

Lemma other_call_id item id call_id :
  get "call_id" item = Some (Str (default id call_id)) ->
  get "id" item = (fun _ => Str id) <$> call_id ->
  default "" (responses_call_id item) = other_id id call_id.
Proof using.
  intros Hc Hi. unfold responses_call_id, nonempty_str, index, other_id. rewrite Hc, Hi. cbn.
  destruct (is_empty (default id call_id)) eqn:E; [|done]. destruct call_id; cbn in *.
  - destruct (is_empty id) eqn:E2; [|done]. by apply is_empty_eq in E2 as ->.
  - by apply is_empty_eq in E as ->.
Qed.

Lemma output_item_read c item :
  call_arguments_ok c -> output_item c = Some item -> decode_output_item item = relayed_item c.
Proof.
  intros Hc. destruct c as [|text sig id enc|id name a ci caller wt|tid nm ct i0 cl0 wt0
                            |id ci code fp|id ci res st|text cat|]; cbn [output_item relayed_item]; try done; intros [= <-].
  - unfold reasoning_item. output_members. unfold decode_output_reasoning, responses_reasoning_text.
    item_members. destruct text, id, enc; reflexivity.
  - unfold output_call, relayed_output_call. destruct (is_responses_custom_tool_call wt).
    { output_members. unfold other_call. erewrite other_call_id by (item_members; by destruct ci).
      by item_members. }
    destruct (String.eqb (default "function_call" wt) "local_shell_call").
    { output_members. unfold other_call. erewrite other_call_id by (item_members; by destruct ci).
      by item_members. }
    output_members. unfold decode_output_call. erewrite decode_json_caller by (item_members; by destruct caller).
    unfold decode_arguments. item_members. cbn in Hc. rewrite Hc. by destruct ci.
  - reflexivity.
  - reflexivity.
  - output_members. unfold decode_refusal. item_members. by destruct (is_empty text).
Qed.

Lemma output_item_some c : is_Some (output_item c) <-> is_Some (relayed_item c).
Proof using. destruct c; cbn; split; intros [? ?]; try done; by eexists. Qed.

Lemma decode_flushed response_id pending output :
  decode_output (flush_text response_id pending output) = decode_output output ++ relayed_text pending.
Proof using.
  unfold flush_text, relayed_text. destruct (is_empty pending); [by rewrite app_nil_r|].
  unfold decode_output. by rewrite flat_map_app.
Qed.

Lemma decode_output_step response_id pending output l :
  Forall call_arguments_ok l ->
  (let '(p, o) := fold_left (output_step response_id) l (pending, output) in
   decode_output (flush_text response_id p o)) = decode_output output ++ relayed_contents pending l.
Proof.
  intros Hl. revert pending output. induction Hl as [|c l Hc _ IH]; intros pending output.
  { apply decode_flushed. }
  cbn [fold_left]. destruct (output_item c) as [item|] eqn:Ei.
  - assert (output_step response_id (pending, output) c = ("", flush_text response_id pending output ++ [item])) as ->.
    { unfold output_step. destruct c; try done; by rewrite Ei. }
    rewrite IH. unfold decode_output at 1. rewrite flat_map_app. cbn [flat_map]. rewrite app_nil_r.
    fold (decode_output (flush_text response_id pending output)). rewrite decode_flushed.
    rewrite (output_item_read c item Hc Ei), <- !app_assoc.
    destruct c; done.
  - assert (relayed_item c = None) as Hr.
    { destruct (relayed_item c) eqn:E; [|done].
      destruct (proj2 (output_item_some c)); [by eexists|congruence]. }
    destruct c; try done; cbn [output_step relayed_contents]; try rewrite Ei; apply IH.
Qed.
End Relay.

Lemma get_responses_usage k u :
  usage_ok u ->
  get k (responses_usage_json u)
  = if String.eqb k "output_tokens_details"
    then (fun rt => obj [("reasoning_tokens", json_u64 rt)]) <$> reasoning_tokens u
    else if String.eqb k "input_tokens_details"
    then nonempty_obj (details_lit (cache_read_tokens u) (cache_write_tokens u))
    else if String.eqb k "total_tokens"
    then Some (json_u64 (total_tokens (relayed_response_usage u)))
    else if String.eqb k "output_tokens" then Some (json_u64 (completion_tokens u))
    else if String.eqb k "input_tokens"
    then Some (json_u64 (prompt_tokens u + default 0 (cache_read_tokens u)
                         + default 0 (cache_write_tokens u))) else None.
Proof.
  intros (Hp & Hc & Hr & Hw & Ht & Hs). unfold responses_usage_json. cbv zeta.
  assert (forall x, 0 <= x <= u64_max -> wrap64 x = x) as Hwrap
    by (intros x Hx; apply wrap64_small; by apply in_u64_iff).
  rewrite !Hwrap by (rewrite ?Hwrap; lia).
  assert (positive_member "cache_write_tokens" (Some (default 0 (cache_write_tokens u)))
            (positive_member "cached_tokens" (Some (default 0 (cache_read_tokens u))) [])
          = details_lit (cache_read_tokens u) (cache_write_tokens u)) as ->.
  { unfold details_lit, drop_zero, positive_member.
    destruct (cache_read_tokens u) as [r|], (cache_write_tokens u) as [w|]; cbn;
      repeat match goal with |- context [0 <? ?x] => destruct (0 <? x) end; done. }
  rewrite !get_set_opt_if, get_obj by auto with body. rewrite !or_else_if; try done; last_key.
Qed.

Lemma responses_usage_roundtrip u body :
  usage_ok u -> get "usage" body = Some (responses_usage_json u) ->
  decode_responses_usage body = Some (relayed_response_usage u).
Proof.
  intros Hu Hb. unfold decode_responses_usage. rewrite Hb. unfold index.
  rewrite !get_responses_usage by done. cbn -[responses_usage_json as_u64].
  assert (is_object (responses_usage_json u) = true) as -> by (unfold responses_usage_json; auto 6 with body).
  destruct (details_read (cache_read_tokens u) (cache_write_tokens u)) as [Hr Hw].
  unfold index in Hr, Hw. rewrite Hr, Hw. cbn. f_equal. unfold relayed_response_usage. f_equal.
  - destruct Hu as (Hp & Hc & Hcr & Hcw & Ht & Hs).
    rewrite !drop_zero_default by done. unfold sat_sub. lia.
  - by destruct (reasoning_tokens u).
Qed.

Section Roundtrip.
Context `{SerdeJson}.

Lemma get_encoded_response ir body k :
  encode_response ir = Ok body ->
  get k body
  = if String.eqb k "usage" then responses_usage_json <$> r_usage ir
    else if String.eqb k "status" then (Str ∘ status_str) <$> r_finish_reason ir
    else if String.eqb k "output"
    then Some (Arr (default (output_items ir) (r_extensions ir !! "responses_original_output" ≫= as_array)))
    else if String.eqb k "id" then Str <$> r_response_id ir
    else if String.eqb k "model" then Some (Str "")
    else if String.eqb k "object" then Some (Str "response") else None.
Proof.
  unfold encode_response. intros [= <-].
  assert (forall o : option (list Value), match o with Some l => l | None => output_items ir end
          = default (output_items ir) o) as Hd by (by intros []).
  rewrite Hd. rewrite !get_set_opt_if, get_set_if, get_set_opt_if, get_obj by auto with body.
  rewrite !or_else_if; try done; last_key.
Qed.

Definition relayed_finish (has_tool_call : bool) (r : FinishReason) : FinishReason :=
  if has_tool_call then ToolCalls
  else match r with LengthReason | ContentFilter => LengthReason | _ => Stop end.

Definition cut_short (r : option FinishReason) : bool :=
  match r with Some LengthReason | Some ContentFilter => true | _ => false end.

Definition relayed_response (ir : IrResponse) : IrResponse := {|
  r_content := relayed_contents "" (r_content ir);
  r_usage := relayed_response_usage <$> r_usage ir;
  r_finish_reason := relayed_finish (existsb calls_tool (r_content ir)) <$> r_finish_reason ir;
  r_response_id := r_response_id ir;
  r_stop_details := if cut_short (r_finish_reason ir) then Some (stop_details_of "incomplete") else None;
  r_extensions := ∅ |}.

Lemma calls_relayed pending l :
  existsb calls_tool (relayed_contents pending l) = existsb calls_tool l.
Proof.
  revert pending. induction l as [|c l IH]; intros pending.
  { cbn. unfold relayed_text. by destruct (is_empty pending). }
  assert (forall p, existsb calls_tool (relayed_text p) = false) as Hp
    by (intros p; unfold relayed_text; by destruct (is_empty p)).
  destruct c as [|text sig id enc|id name a ci caller wt| | | |text cat|]; cbn [relayed_contents relayed_item existsb calls_tool orb];
    rewrite ?existsb_app, ?Hp, ?IH; try done.
  - by destruct (is_empty text), enc.
  - cbn. unfold relayed_output_call. by destruct (is_responses_custom_tool_call wt), (String.eqb (default "function_call" wt) "local_shell_call").
  - by destruct (is_empty text).
Qed.

Lemma output_decoded ir :
  Forall call_arguments_ok (r_content ir) ->
  decode_output (output_items ir) = relayed_contents "" (r_content ir).
Proof.
  intros Hl. unfold output_items.
  pose proof (decode_output_step (r_response_id ir) "" [] (r_content ir) Hl) as Hd.
  by destruct (fold_left _ _ _).
Qed.

(** Every item the encoder writes is modelled. *)
Lemma encoded_items_modelled ir :
  Forall call_arguments_ok (r_content ir) ->
  Forall (fun item => is_Some (decode_output_item item)) (output_items ir).
Proof.
  intros Hl. unfold output_items.
  assert (forall p o, Forall (fun item => is_Some (decode_output_item item)) o ->
            Forall (fun item => is_Some (decode_output_item item)) (flush_text (r_response_id ir) p o)) as Hf.
  { intros p o Ho. unfold flush_text. destruct (is_empty p); [done|].
    apply Forall_app. split; [done|]. constructor; [|constructor]. by rewrite flushed_item. }
  enough (forall st, Forall (fun item => is_Some (decode_output_item item)) (snd st) ->
    Forall (fun item => is_Some (decode_output_item item))
      (snd (fold_left (output_step (r_response_id ir)) (r_content ir) st))) as Hs.
  { specialize (Hs ("", []) ltac:(constructor)). destruct (fold_left _ _ _) as [p o]. by apply Hf. }
  induction Hl as [|c l Hc _ IH]; intros [p o] Ho; [done|]. cbn [fold_left]. apply IH.
  assert (forall item, output_item c = Some item -> is_Some (decode_output_item item)) as Hi.
  { intros item E. rewrite (output_item_read c item Hc E). apply output_item_some. by eexists. }
  destruct c; cbn [output_step snd]; try done;
    (destruct (output_item _) as [item|]; cbn [snd]; [|done]);
    (apply Forall_app; split; [by apply Hf|]; constructor; [by apply Hi|constructor]).
Qed.

Lemma no_opaque_outputs output :
  Forall (fun item => is_Some (decode_output_item item)) output -> opaque_output_items output = [].
Proof.
  unfold opaque_output_items. intros Ho.
  assert (forall f : nat -> Value -> nat * Value, (forall i v, snd (f i v) = v) ->
    omap (fun ix => match decode_output_item (snd ix) with
                    | None => Some (obj [("index", json_u64 (Z.of_nat (fst ix))); ("item", snd ix)])
                    | Some _ => None
                    end) (imap f output) = []) as Hf; [|by apply Hf].
  induction Ho as [|v l [cs Hv] _ IH]; intros f Hs; [done|]. cbn. rewrite Hs, Hv. apply IH.
  intros i w. apply Hs.
Qed.
End Roundtrip.

(** C34: What a response keeps on the way through a Responses body.  Texts
    that follow each other become one text, without their annotations;
    reasoning with a text or with encrypted content, tool calls with the two
    ids and the arguments, custom and shell calls, programs and refusals come
    back in their order.  A tool call makes the finish reason a tool call, a
    content filter becomes a cut at the length.  The usage comes back with its
    cached tokens apart and its total computed again. *)
Theorem responses_response_roundtrip `{SerdeJson} ir body :
  encode_response ir = Ok body ->
  (forall u, r_usage ir = Some u -> usage_ok u) ->
  Forall call_arguments_ok (r_content ir) ->
  r_extensions ir !! "responses_original_output" = None ->
  decode_response body = Ok (relayed_response ir).
Proof.
  intros Hb Hu Ha Hx.
  assert (default [] (as_array body.["output"]) = output_items ir) as Ho.
  { unfold index. rewrite (get_encoded_response ir body _ Hb). cbn. by rewrite Hx. }
  unfold decode_response, relayed_response. rewrite Ho, output_decoded by done. do 2 f_equal.
  - destruct (r_usage ir) as [u|] eqn:E.
    + apply responses_usage_roundtrip; [by apply Hu|]. rewrite (get_encoded_response ir body _ Hb).
      by rewrite E.
    + unfold decode_responses_usage. rewrite (get_encoded_response ir body _ Hb). by rewrite E.
  - rewrite calls_relayed. unfold index. rewrite (get_encoded_response ir body _ Hb). cbn -[existsb].
    destruct (r_finish_reason ir) as [r|]; [|done]. cbn -[existsb]. f_equal.
    destruct r; cbn -[existsb]; unfold finish_of_status, relayed_finish; cbn -[existsb]; by destruct (existsb _ _).
  - unfold index. rewrite (get_encoded_response ir body _ Hb). by destruct (r_response_id ir).
  - unfold decode_status_details, incomplete_reason, index. rewrite !(get_encoded_response ir body _ Hb).
    by destruct (r_finish_reason ir) as [[]|].
  - unfold response_extensions. rewrite Ho, no_opaque_outputs; [done|]. by apply encoded_items_modelled.
Qed.

Definition sample_answer : IrResponse := {|
  r_content :=
    [CReasoning "" None (Some "rs_1") (Some "sealed"); CText "Rome, " None None; CText "Italy" None None;
     CToolCall "fc_1" "lookup" (obj [("city", Str "Rome")]) (Some "call_1") None None;
     CRefusal "no" None];
  r_usage := Some {| prompt_tokens := 10; completion_tokens := 5; reasoning_tokens := Some 3;
                     cache_read_tokens := Some 7; cache_write_tokens := Some 0; total_tokens := 0 |};
  r_finish_reason := Some ToolCalls; r_response_id := Some "resp_1"; r_stop_details := None;
  r_extensions := ∅ |}.

Definition answer_body (ir : IrResponse) : Value :=
  match @encode_response coded_json ir with Ok body => body | Err _ => Null end.

Lemma responses_response_roundtrip_witness :
  @decode_response coded_json (answer_body sample_answer) = Ok (relayed_response (H := coded_json) sample_answer)
  /\ r_content (relayed_response (H := coded_json) sample_answer)
     = [CReasoning "" None (Some "rs_1") (Some "sealed"); CText "Rome, Italy" None None;
        CToolCall "fc_1" "lookup" (obj [("city", Str "Rome")]) (Some "call_1") None None;
        CRefusal "no" None].
Proof.
  split; [|by vm_compute]. apply (@responses_response_roundtrip coded_json sample_answer).
  - reflexivity.
  - intros u [= <-]. unfold usage_ok, u64_max. cbn. lia.
  - do 3 (apply List.Forall_cons; [done|]). apply List.Forall_cons; [by vm_compute|].
    apply List.Forall_cons; [done|constructor].
  - done.
Defined.

(** An output with items the representation does not model comes back as it
    came: a response of the Responses API that is decoded and encoded again has
    the same output, item for item. *)
Theorem responses_output_replayed `{SerdeJson} body ir body' output :
  decode_response body = Ok ir -> encode_response ir = Ok body' ->
  get "output" body = Some (Arr output) ->
  Exists (fun item => decode_output_item item = None) output ->
  get "output" body' = Some (Arr output).
Proof.
  intros [= <-] He Ho Hex. rewrite (get_encoded_response _ _ _ He). cbn [String.eqb Ascii.eqb Bool.eqb r_extensions].
  unfold response_extensions, index. rewrite Ho. cbn [default from_option id as_array].
  destruct (opaque_output_items output) eqn:E; [|by rewrite lookup_insert_eq].
  exfalso. revert E. unfold opaque_output_items.
  assert (forall f : nat -> Value -> nat * Value, (forall i v, snd (f i v) = v) ->
    omap (fun ix => match decode_output_item (snd ix) with
                    | None => Some (obj [("index", json_u64 (Z.of_nat (fst ix))); ("item", snd ix)])
                    | Some _ => None
                    end) (imap f output) <> []) as Hf; [|by apply Hf].
  clear Ho He. induction Hex as [v l Hv|v l _ IH]; intros f Hs; cbn; rewrite Hs.
  - by rewrite Hv.
  - destruct (decode_output_item v); [|done]. apply IH. intros i w. apply Hs.
Qed.

Definition searched_body : Value :=
  obj [("output", Arr [obj [("type", Str "web_search_call"); ("id", Str "ws_1")];
                       obj [("type", Str "message");
                            ("content", Arr [obj [("type", Str "output_text"); ("text", Str "found")]])]])].

Definition searched_answer : IrResponse :=
  match @decode_response coded_json searched_body with Ok ir => ir | Err _ => sample_answer end.

Lemma responses_output_replayed_witness :
  get "output" (answer_body searched_answer) = get "output" searched_body
  /\ length (r_content searched_answer) = 1%nat.
Proof.
  split; [|by vm_compute].
  apply (@responses_output_replayed coded_json searched_body searched_answer (answer_body searched_answer)).
  - reflexivity.
  - reflexivity.
  - reflexivity.
  - left. reflexivity.
Defined.
