(* ===== verification/ResponsesStream.v ===== *)
(** * ResponsesStream: the streaming codec of the Responses API

    [ResponsesStreamEncoder] and [ResponsesStreamDecoder] of
    [crates/protocols/src/responses.rs].  The encoder keeps the items it has
    opened with their output indices and what was streamed into them, for the
    snapshot in the terminal event; the decoder keeps which call an item
    belongs to and the payload of the reasoning item.  Events are values until
    they are numbered and written. *)

From stdpp Require Import base option list gmap sets strings.
From Stdlib Require Import ZArith Lia Ascii.
From S2P Require Import Prelude RustStr F64 Json JsonBody Telemetry Protocol Classify Errors Ir StructuredOutput Sse ChatStream ChatRequest ChatResponse ResponsesInput ResponsesRequest ResponsesResponse.

Local Open Scope string_scope.
Local Open Scope list_scope.
Local Open Scope Z_scope.

(** The table [error_type_for_class]. *)
Definition error_type_for_class (c : ErrorClass) : string :=
  match c with
  | Transient => "server_error"
  | RateLimited => "rate_limit_error"
  | Auth => "authentication_error"
  | BadRequest => "invalid_request_error"
  | LossyOrCapability => "invalid_request_error"
  | ModelNotFound => "not_found_error"
  | DeadlineExceeded => "server_error"
  | UpstreamExhausted => "server_error"
  | AuthMissing => "authentication_error"
  | AuthInvalid => "authentication_error"
  | AuthDisabled => "permission_error"
  | ModelAccessDenied => "permission_error"
  | Overloaded => "overloaded_error"
  end.

(** ** The encoder *)

(** The calls: their output indices, the order they were opened in, what is
    known of each, and which are closed. *)
Record Calls := {
  tool_output_indices : gmap string Z;
  tool_output_order : list string;
  tool_names : gmap string string;
  tool_arguments : gmap string string;
  tool_done : gset string;
  tool_wire_types : gmap string string;
  tool_item_ids : gmap string string;
  tool_callers : gmap string ToolCaller;
}.

Record ReasoningItem := {
  reasoning_output_index : option Z;
  reasoning_text : string;
  reasoning_id : option string;
  reasoning_encrypted : option string;
}.

Record TextItem := { text_output_index : option Z; text_acc : string }.

Record Encoder := {
  response_id : option string;
  next_output_index : Z;
  sequence_number : Z;
  pending_usage : option Usage;
  completed_sent : bool;
  pending_finish_status : option string;
  text_item : TextItem;
  reasoning : ReasoningItem;
  calls : Calls;
  program_items : list (Z * Value);
}.

Definition Calls_new : Calls := {|
  tool_output_indices := ∅; tool_output_order := []; tool_names := ∅; tool_arguments := ∅;
  tool_done := ∅; tool_wire_types := ∅; tool_item_ids := ∅; tool_callers := ∅ |}.

Definition Encoder_new : Encoder := {|
  response_id := None; next_output_index := 0; sequence_number := 0; pending_usage := None;
  completed_sent := false; pending_finish_status := None;
  text_item := {| text_output_index := None; text_acc := "" |};
  reasoning := {| reasoning_output_index := None; reasoning_text := ""; reasoning_id := None;
                  reasoning_encrypted := None |};
  calls := Calls_new; program_items := [] |}.

(** Assignments to groups of fields. *)
Definition set_response_id (id : string) (e : Encoder) : Encoder := {|
  response_id := Some id; next_output_index := next_output_index e;
  sequence_number := sequence_number e; pending_usage := pending_usage e;
  completed_sent := completed_sent e; pending_finish_status := pending_finish_status e;
  text_item := text_item e; reasoning := reasoning e; calls := calls e;
  program_items := program_items e |}.

Definition set_sequence (n : Z) (e : Encoder) : Encoder := {|
  response_id := response_id e; next_output_index := next_output_index e;
  sequence_number := n; pending_usage := pending_usage e;
  completed_sent := completed_sent e; pending_finish_status := pending_finish_status e;
  text_item := text_item e; reasoning := reasoning e; calls := calls e;
  program_items := program_items e |}.

Definition set_terminal (u : option Usage) (sent : bool) (status : option string) (e : Encoder)
    : Encoder := {|
  response_id := response_id e; next_output_index := next_output_index e;
  sequence_number := sequence_number e; pending_usage := u; completed_sent := sent;
  pending_finish_status := status; text_item := text_item e; reasoning := reasoning e;
  calls := calls e; program_items := program_items e |}.

(** The items, and the next index. *)
Definition set_items (next : Z) (t : TextItem) (r : ReasoningItem) (c : Calls)
    (programs : list (Z * Value)) (e : Encoder) : Encoder := {|
  response_id := response_id e; next_output_index := next; sequence_number := sequence_number e;
  pending_usage := pending_usage e; completed_sent := completed_sent e;
  pending_finish_status := pending_finish_status e; text_item := t; reasoning := r; calls := c;
  program_items := programs |}.

Definition set_calls (c : Calls) (e : Encoder) : Encoder :=
  set_items (next_output_index e) (text_item e) (reasoning e) c (program_items e) e.

(** [map.entry(k).or_insert(v)] *)
Definition or_insert_key {A} (k : string) (v : A) (m : gmap string A) : gmap string A :=
  match m !! k with Some _ => m | None => <[k := v]> m end.

Definition or_insert_opt {A} (k : string) (o : option A) (m : gmap string A) : gmap string A :=
  match o with Some v => or_insert_key k v m | None => m end.

Definition reasoning_item_id (e : Encoder) : string :=
  default (default "" (response_id e) +:+ "_rs") (reasoning_id (reasoning e)).

Definition message_item_id (e : Encoder) : string := default "" (response_id e) +:+ "_msg".

Definition item_added (idx : Z) (item : Value) : Value :=
  obj [("type", Str "response.output_item.added"); ("output_index", json_u64 idx); ("item", item)].

Definition item_done (idx : Z) (item : Value) : Value :=
  obj [("type", Str "response.output_item.done"); ("output_index", json_u64 idx); ("item", item)].

(** The kind of a call that is announced. *)
Definition opened_type (wire_type : option string) : string :=
  if is_responses_custom_tool_call wire_type then "custom_tool_call"
  else default "function_call" wire_type.

Definition wire_item_id (c : Calls) (id : string) : string := default id (tool_item_ids c !! id).

Definition opened_item (item_id id name wire_type : string) : Value :=
  if String.eqb wire_type "custom_tool_call" then
    obj [("id", Str item_id); ("call_id", Str id); ("type", Str "custom_tool_call");
         ("name", Str name); ("input", Str ""); ("status", Str "in_progress")]
  else if String.eqb wire_type "local_shell_call" then
    obj [("id", Str item_id); ("call_id", Str id); ("type", Str "local_shell_call");
         ("action", obj []); ("status", Str "in_progress")]
  else
    obj [("id", Str item_id); ("call_id", Str id); ("type", Str "function_call");
         ("name", Str name); ("arguments", Str ""); ("status", Str "in_progress")].

(** The wire type that is remembered. *)
Definition kept_wire_type (wire_type : option string) : option string :=
  if is_responses_custom_tool_call wire_type then Some "custom_tool_call" else wire_type.

Definition open_tool_call (id name : string) (wire_type item_id : option string)
    (caller : option ToolCaller) (e : Encoder) : list Value * Encoder :=
  let c := calls e in
  let known := tool_output_indices c !! id in
  let idx := default (next_output_index e) known in
  let next := match known with Some _ => next_output_index e
                             | None => wrap32 (next_output_index e + 1) end in
  let c := {|
    tool_output_indices := or_insert_key id idx (tool_output_indices c);
    tool_output_order := match known with Some _ => tool_output_order c
                                        | None => tool_output_order c ++ [id] end;
    tool_names := or_insert_key id name (tool_names c);
    tool_arguments := or_insert_key id "" (tool_arguments c);
    tool_done := tool_done c;
    tool_wire_types := or_insert_opt id (kept_wire_type wire_type) (tool_wire_types c);
    tool_item_ids := or_insert_opt id (not_empty item_id) (tool_item_ids c);
    tool_callers := or_insert_opt id caller (tool_callers c) |} in
  let e := set_items next (text_item e) (reasoning e) c (program_items e) e in
  match known with
  | Some _ => ([], e)
  | None =>
      let item := opened_item (wire_item_id c id) id name (opened_type wire_type) in
      ([item_added idx (set_opt "caller" (json_caller <$> (tool_callers c !! id)) item)], e)
  end.

Definition append_tool_arguments (id arguments : string) (e : Encoder) : list Value * Encoder :=
  let c := calls e in
  let c := {|
    tool_output_indices := tool_output_indices c; tool_output_order := tool_output_order c;
    tool_names := tool_names c;
    tool_arguments := <[id := default "" (tool_arguments c !! id) +:+ arguments]> (tool_arguments c);
    tool_done := tool_done c; tool_wire_types := tool_wire_types c;
    tool_item_ids := tool_item_ids c; tool_callers := tool_callers c |} in
  let event_type :=
    if String.eqb (default "function_call" (tool_wire_types c !! id)) "custom_tool_call"
    then "response.custom_tool_call_input.delta" else "response.function_call_arguments.delta" in
  ([obj [("type", Str event_type); ("item_id", Str (wire_item_id c id));
         ("output_index", json_u64 (default 0 (tool_output_indices c !! id)));
         ("delta", Str arguments)]], set_calls c e).

Definition sum_usage (u : Usage) : Usage := {|
  prompt_tokens := prompt_tokens u; completion_tokens := completion_tokens u;
  reasoning_tokens := drop_zero (reasoning_tokens u); cache_read_tokens := cache_read_tokens u;
  cache_write_tokens := cache_write_tokens u; total_tokens := total_tokens u |}.

(** [sort_by_key], which is stable. *)
Definition sort_by_index (l : list (Z * Value)) : list (Z * Value) :=
  sort_by (fun a b => fst a <=? fst b) l.

Section Encoder.
Context `{SerdeJson}.

(** The input of a closed custom call: what JSON text holds, or the text. *)
Definition closed_input (arguments : string) : string :=
  default arguments (responses_custom_tool_input <$> from_str arguments).

Definition shell_action (arguments : string) : Value := default (obj []) (from_str arguments).

(** The events that close a call. *)
Definition close_tool_call (c : Calls) (status call_id : string) : list Value :=
  let idx := default 0 (tool_output_indices c !! call_id) in
  let name := default "" (tool_names c !! call_id) in
  let arguments := default "" (tool_arguments c !! call_id) in
  let item_type := default "function_call" (tool_wire_types c !! call_id) in
  let item_id := wire_item_id c call_id in
  let caller := json_caller <$> (tool_callers c !! call_id) in
  (if String.eqb item_type "function_call" then
     [obj [("type", Str "response.function_call_arguments.done"); ("item_id", Str item_id);
           ("output_index", json_u64 idx); ("arguments", Str arguments)]]
   else [])
  ++
  if String.eqb item_type "custom_tool_call" then
    let input := closed_input arguments in
    [obj [("type", Str "response.custom_tool_call_input.done"); ("item_id", Str item_id);
          ("output_index", json_u64 idx); ("input", Str input)];
     item_done idx (set_opt "caller" caller
       (obj [("id", Str item_id); ("call_id", Str call_id); ("type", Str "custom_tool_call");
             ("name", Str name); ("input", Str input); ("status", Str status)]))]
  else if String.eqb item_type "local_shell_call" then
    [item_done idx (set_opt "caller" caller
       (obj [("id", Str item_id); ("call_id", Str call_id); ("type", Str "local_shell_call");
             ("action", shell_action arguments); ("status", Str status)]))]
  else
    [item_done idx (set_opt "caller" caller
       (obj [("id", Str item_id); ("call_id", Str call_id); ("type", Str "function_call");
             ("name", Str name); ("arguments", Str arguments); ("status", Str status)]))].

Definition close_tool_calls (status : string) (e : Encoder) : list Value * Encoder :=
  let c := calls e in
  let open_calls := List.filter (fun id => negb (bool_decide (id ∈ tool_done c))) (tool_output_order c) in
  (flat_map (close_tool_call c status) open_calls,
   set_calls {|
     tool_output_indices := tool_output_indices c; tool_output_order := tool_output_order c;
     tool_names := tool_names c; tool_arguments := tool_arguments c;
     tool_done := list_to_set open_calls ∪ tool_done c; tool_wire_types := tool_wire_types c;
     tool_item_ids := tool_item_ids c; tool_callers := tool_callers c |} e).

Definition summary_parts (text : string) : Value :=
  if is_empty text then Arr []
  else Arr [obj [("type", Str "summary_text"); ("text", Str text)]].

Definition closed_reasoning (status : string) (e : Encoder) : Value :=
  set_opt "encrypted_content" (Str <$> reasoning_encrypted (reasoning e))
    (obj [("id", Str (reasoning_item_id e)); ("type", Str "reasoning"); ("status", Str status);
          ("summary", summary_parts (reasoning_text (reasoning e)))]).

Definition closed_message (status item_id text : string) : Value :=
  obj [("id", Str item_id); ("type", Str "message"); ("role", Str "assistant");
       ("status", Str status);
       ("content", Arr [obj [("type", Str "output_text"); ("text", Str text);
                             ("annotations", Arr [])]])].

(** The item of a call in the snapshot: its input is read in another way. *)
Definition snapshot_call (c : Calls) (status call_id : string) : Value :=
  let name := default "" (tool_names c !! call_id) in
  let arguments := default "" (tool_arguments c !! call_id) in
  let item_type := default "function_call" (tool_wire_types c !! call_id) in
  let item_id := wire_item_id c call_id in
  set_opt "caller" (json_caller <$> (tool_callers c !! call_id))
    (if String.eqb item_type "custom_tool_call" then
       let input := default arguments ((from_str arguments ≫= get "input") ≫= as_str) in
       obj [("type", Str "custom_tool_call"); ("id", Str item_id); ("call_id", Str call_id);
            ("name", Str name); ("input", Str input); ("status", Str status)]
     else if String.eqb item_type "local_shell_call" then
       obj [("type", Str "local_shell_call"); ("id", Str item_id); ("call_id", Str call_id);
            ("action", shell_action arguments); ("status", Str status)]
     else
       obj [("type", Str "function_call"); ("id", Str item_id); ("call_id", Str call_id);
            ("name", Str name); ("arguments", Str arguments); ("status", Str status)]).

Definition indexed_output (status : string) (e : Encoder) : list (Z * Value) :=
  (match reasoning_output_index (reasoning e) with
   | Some index => [(index, closed_reasoning status e)]
   | None => []
   end)
  ++ (match text_output_index (text_item e) with
      | Some index => [(index, closed_message status (message_item_id e) (text_acc (text_item e)))]
      | None => []
      end)
  ++ program_items e
  ++ map (fun call_id => (default u32_max (tool_output_indices (calls e) !! call_id),
                          snapshot_call (calls e) status call_id)) (tool_output_order (calls e)).

Definition snapshot (status : string) (e : Encoder) : list Value :=
  map snd (sort_by_index (indexed_output status e)).

Definition completed_event (status : string) (e : Encoder) : list Value * Encoder :=
  let response := obj [("id", Str (default "" (response_id e))); ("status", Str status)] in
  let response := set_opt "usage" ((responses_usage_json ∘ sum_usage) <$> pending_usage e) response in
  let response := set_opt "output" (nonempty_arr (snapshot status e)) response in
  ([obj [("type", Str "response.completed"); ("response", response)]],
   set_terminal None true (pending_finish_status e) e).

(** A frame: an event, or the end marker. *)
Inductive Frame := EventFrame (v : Value) | DoneFrame.

Definition lifecycle (t id : string) : Value :=
  obj [("type", Str t);
       ("response", obj [("id", Str id); ("object", Str "response"); ("status", Str "in_progress")])].

Definition text_delta (e : Encoder) (text : string) : list Value * Encoder :=
  let item_id := message_item_id e in
  let t := text_item e in
  let idx := default (next_output_index e) (text_output_index t) in
  let opening :=
    match text_output_index t with
    | Some _ => []
    | None =>
        [item_added idx (obj [("id", Str item_id); ("type", Str "message"); ("role", Str "assistant");
                              ("status", Str "in_progress"); ("content", Arr [])]);
         obj [("type", Str "response.content_part.added"); ("output_index", json_u64 idx);
              ("item_id", Str item_id); ("content_index", json_u64 0);
              ("part", obj [("type", Str "output_text"); ("text", Str "")])]]
    end in
  let next := match text_output_index t with Some _ => next_output_index e
                                           | None => wrap32 (next_output_index e + 1) end in
  (opening ++ [obj [("type", Str "response.output_text.delta"); ("item_id", Str item_id);
                    ("output_index", json_u64 idx); ("content_index", json_u64 0);
                    ("delta", Str text)]],
   set_items next {| text_output_index := Some idx; text_acc := text_acc t +:+ text |}
     (reasoning e) (calls e) (program_items e) e).

Definition reasoning_delta (e : Encoder) (text : string) (id encrypted_content : option string)
    : list Value * Encoder :=
  let r := reasoning e in
  let r := {| reasoning_output_index := reasoning_output_index r; reasoning_text := reasoning_text r;
              reasoning_id := or_else (reasoning_id r) id;
              reasoning_encrypted := or_else (reasoning_encrypted r) encrypted_content |} in
  let e := set_items (next_output_index e) (text_item e) r (calls e) (program_items e) e in
  let item_id := reasoning_item_id e in
  let idx := default (next_output_index e) (reasoning_output_index r) in
  let opening :=
    match reasoning_output_index r with
    | Some _ => []
    | None =>
        [item_added idx (obj [("id", Str item_id); ("type", Str "reasoning");
                              ("status", Str "in_progress"); ("summary", Arr [])]);
         obj [("type", Str "response.reasoning_summary_part.added"); ("output_index", json_u64 idx);
              ("item_id", Str item_id); ("summary_index", json_u64 0);
              ("part", obj [("type", Str "summary_text"); ("text", Str "")])]]
    end in
  let next := match reasoning_output_index r with Some _ => next_output_index e
                                                | None => wrap32 (next_output_index e + 1) end in
  (opening
   ++ (if is_empty text then []
       else [obj [("type", Str "response.reasoning_summary_text.delta"); ("item_id", Str item_id);
                  ("output_index", json_u64 idx); ("summary_index", json_u64 0);
                  ("delta", Str text)]]),
   set_items next (text_item e)
     {| reasoning_output_index := Some idx; reasoning_text := reasoning_text r +:+ text;
        reasoning_id := reasoning_id r; reasoning_encrypted := reasoning_encrypted r |}
     (calls e) (program_items e) e).

(** Items that come complete. *)
Definition whole_item (e : Encoder) (item : Value) : list Value * Encoder :=
  let idx := next_output_index e in
  ([item_added idx item; item_done idx item],
   set_items (wrap32 (idx + 1)) (text_item e) (reasoning e) (calls e)
     (program_items e ++ [(idx, item)]) e).

Definition close_reasoning (status : string) (e : Encoder) : list Value :=
  match reasoning_output_index (reasoning e) with
  | Some idx =>
      let item_id := reasoning_item_id e in
      [obj [("type", Str "response.reasoning_summary_text.done"); ("output_index", json_u64 idx);
            ("item_id", Str item_id); ("summary_index", json_u64 0)];
       obj [("type", Str "response.reasoning_summary_part.done"); ("output_index", json_u64 idx);
            ("item_id", Str item_id); ("summary_index", json_u64 0)];
       item_done idx (closed_reasoning status e)]
  | None => []
  end.

(** The message is closed as completed whatever the status. *)
Definition close_text (e : Encoder) : list Value :=
  match text_output_index (text_item e) with
  | Some idx =>
      let item_id := message_item_id e in
      let text := text_acc (text_item e) in
      [obj [("type", Str "response.output_text.done"); ("output_index", json_u64 idx);
            ("item_id", Str item_id); ("content_index", json_u64 0); ("text", Str text)];
       obj [("type", Str "response.content_part.done"); ("output_index", json_u64 idx);
            ("item_id", Str item_id); ("content_index", json_u64 0);
            ("part", obj [("type", Str "output_text"); ("text", Str text); ("annotations", Arr [])])];
       item_done idx (closed_message "completed" item_id text)]
  | None => []
  end.

Definition finish_part (e : Encoder) (reason : FinishReason) : list Value * Encoder :=
  if completed_sent e || negb (is_none (pending_finish_status e)) then ([], e)
  else
    let status := status_str reason in
    let out := close_reasoning status e ++ close_text e in
    let '(closed, e) := close_tool_calls status e in
    if is_none (pending_usage e)
    then (out ++ closed, set_terminal (pending_usage e) (completed_sent e) (Some status) e)
    else let '(terminal, e) := completed_event status e in (out ++ closed ++ terminal, e).

Definition usage_part (e : Encoder) (usage : Usage) : list Value * Encoder :=
  if completed_sent e
  then ([], set_terminal (Some usage) (completed_sent e) (pending_finish_status e) e)
  else match pending_finish_status e with
       | Some status => completed_event status (set_terminal (Some usage) (completed_sent e) None e)
       | None => ([], set_terminal (Some usage) (completed_sent e) None e)
       end.

Definition completed_part (e : Encoder) : list Value * Encoder :=
  if completed_sent e then ([], e)
  else
    let status := default "completed" (pending_finish_status e) in
    let e := set_terminal (pending_usage e) (completed_sent e) None e in
    let '(closed, e) := close_tool_calls status e in
    let '(terminal, e) := completed_event status e in
    (closed ++ terminal, e).

Definition error_event (message : string) (c : ErrorClass) (upstream_code : option string) : Value :=
  obj [("type", Str "error");
       ("error", set_opt "code" (Str <$> upstream_code)
                   (obj [("message", Str message); ("type", Str (error_type_for_class c))]))].

(** The events of a part before they are numbered. *)
Definition part_events (e : Encoder) (part : StreamPart) : list Value * Encoder :=
  match part with
  | ResponseStarted id =>
      ([lifecycle "response.created" id; lifecycle "response.in_progress" id], set_response_id id e)
  | TextDelta text => text_delta e text
  | ReasoningDelta text id encrypted_content => reasoning_delta e text id encrypted_content
  | ToolCallDelta id (Some n) arguments wire_type item_id caller =>
      let '(opened, e) := open_tool_call id n wire_type item_id caller e in
      if is_empty arguments then (opened, e)
      else let '(delta, e) := append_tool_arguments id arguments e in (opened ++ delta, e)
  | ToolCallDelta id None arguments _ _ _ => append_tool_arguments id arguments e
  | ProgramDelta id call_id code fingerprint => whole_item e (program_item id call_id code fingerprint)
  | ProgramOutputDelta id call_id result status =>
      whole_item e (program_output_item id call_id result status)
  | UsagePart usage => usage_part e usage
  | FinishPart reason => finish_part e reason
  | ResponseCompleted _ _ _ _ => completed_part e
  | ErrorPart message class upstream_code => ([error_event message class upstream_code], e)
  end.

(** Every event gets the next number. *)
Fixpoint stamp (n : Z) (l : list Value) : list Value :=
  match l with
  | [] => []
  | v :: l => set "sequence_number" (json_u64 n) v :: stamp (wrap64 (n + 1)) l
  end.

Definition after_events (n : Z) (l : list Value) : Z := wrap64 (n + Z.of_nat (length l)).

Definition part_frames (e : Encoder) (part : StreamPart) : list Frame * Encoder :=
  let '(out, e) := part_events e part in
  (map EventFrame (stamp (sequence_number e) out)
   ++ (match part with ResponseCompleted _ _ _ _ => [DoneFrame] | _ => [] end),
   set_sequence (after_events (sequence_number e) out) e).

Definition render (f : Frame) : string :=
  match f with
  | EventFrame v => "data: " +:+ to_string v +:+ blank_line
  | DoneFrame => "data: [DONE]" +:+ blank_line
  end.

Definition render_all (l : list Frame) : string := String.concat "" (map render l).

Definition encode_part (e : Encoder) (part : StreamPart) : string * Encoder :=
  let '(out, e) := part_frames e part in (render_all out, e).

Definition encode_error (message : string) (c : ErrorClass) (upstream_code : option string) : string :=
  render_all [EventFrame (error_event message c upstream_code); DoneFrame].

Definition encode_done : string := render_all [DoneFrame].
End Encoder.

(** ** The decoder *)

Record Decoder := {
  d_response_id : option string;
  function_calls : gmap string (string * option string);
  current_call_id : option string;
  saw_function_call : bool;
  pending_reasoning_id : option string;
  pending_reasoning_encrypted : option string;
  custom_tool_inputs : gmap string string;
}.

Definition Decoder_new : Decoder := {|
  d_response_id := None; function_calls := ∅; current_call_id := None; saw_function_call := false;
  pending_reasoning_id := None; pending_reasoning_encrypted := None; custom_tool_inputs := ∅ |}.

Definition set_started (id : string) (d : Decoder) : Decoder := {|
  d_response_id := Some id; function_calls := function_calls d; current_call_id := current_call_id d;
  saw_function_call := saw_function_call d; pending_reasoning_id := pending_reasoning_id d;
  pending_reasoning_encrypted := pending_reasoning_encrypted d;
  custom_tool_inputs := custom_tool_inputs d |}.

(** The calls that are known, the current one, and the latch. *)
Definition set_known (fc : gmap string (string * option string)) (current : option string) (saw : bool)
    (d : Decoder) : Decoder := {|
  d_response_id := d_response_id d; function_calls := fc; current_call_id := current;
  saw_function_call := saw; pending_reasoning_id := pending_reasoning_id d;
  pending_reasoning_encrypted := pending_reasoning_encrypted d;
  custom_tool_inputs := custom_tool_inputs d |}.

Definition set_pending (id encrypted_content : option string) (d : Decoder) : Decoder := {|
  d_response_id := d_response_id d; function_calls := function_calls d;
  current_call_id := current_call_id d; saw_function_call := saw_function_call d;
  pending_reasoning_id := id; pending_reasoning_encrypted := encrypted_content;
  custom_tool_inputs := custom_tool_inputs d |}.

Definition set_inputs (inputs : gmap string string) (d : Decoder) : Decoder := {|
  d_response_id := d_response_id d; function_calls := function_calls d;
  current_call_id := current_call_id d; saw_function_call := saw_function_call d;
  pending_reasoning_id := pending_reasoning_id d;
  pending_reasoning_encrypted := pending_reasoning_encrypted d; custom_tool_inputs := inputs |}.

(** The item id when it is not the call id. *)
Definition dual_item_id (item_id call_id : string) : option string :=
  if negb (is_empty item_id) && negb (String.eqb item_id call_id) then Some item_id else None.

Definition take_reasoning (d : Decoder) (text : string) : list StreamPart * Decoder :=
  ([ReasoningDelta text (pending_reasoning_id d) (pending_reasoning_encrypted d)],
   set_pending None None d).

(** What a reasoning item says of itself. *)
Definition stash_reasoning (d : Decoder) (item : Value) : Decoder :=
  set_pending (or_else (as_str item.["id"]) (pending_reasoning_id d))
    (or_else (as_str item.["encrypted_content"]) (pending_reasoning_encrypted d)) d.

Definition function_call_added (d : Decoder) (item : Value) : list StreamPart * Decoder :=
  let item_id := str_or "" item.["id"] in
  let call_id := default "" (or_else (not_empty (as_str item.["call_id"])) (as_str item.["id"])) in
  let name := as_str item.["name"] in
  ([ToolCallDelta call_id name "" None (dual_item_id item_id call_id) (decode_tool_caller item)],
   set_known (<[item_id := (call_id, name)]> (function_calls d)) (Some call_id) true d).

Definition custom_call_added (d : Decoder) (item : Value) : list StreamPart * Decoder :=
  let item_id := str_or "" item.["id"] in
  let id := default "" (responses_call_id item) in
  let name := str_or "" item.["name"] in
  let input_text := str_or "" item.["input"] in
  let d := set_known (<[item_id := (id, Some name)]> (function_calls d)) (Some id) true d in
  let d := if is_empty input_text then d
           else set_inputs (<[id := input_text]> (custom_tool_inputs d)) d in
  ([ToolCallDelta id (Some name) input_text (Some "custom_tool_call") (dual_item_id item_id id)
      (decode_tool_caller item)], d).

Section Decoder.
Context `{SerdeJson} `{Lowercase}.

Definition shell_call_added (d : Decoder) (item : Value) : list StreamPart * Decoder :=
  let id := default "" (responses_call_id item) in
  let action := default (obj []) (get "action" item) in
  ([ToolCallDelta id (Some "local_shell") (to_string action) (Some "local_shell_call") None None],
   set_known (function_calls d) (Some id) true d).

(** [response.output_item.added] *)
Definition decode_item_added (d : Decoder) (item : Value) : list StreamPart * Decoder :=
  if has_type "function_call" item then function_call_added d item
  else if has_type "reasoning" item then ([], stash_reasoning d item)
  else if has_type "program" item then
    ([ProgramDelta (str_or "" item.["id"]) (str_or "" item.["call_id"]) (str_or "" item.["code"])
        (str_or "" item.["fingerprint"])],
     set_known (function_calls d) (current_call_id d) true d)
  else if has_type "program_output" item then
    ([ProgramOutputDelta (str_or "" item.["id"]) (str_or "" item.["call_id"])
        (str_or "" item.["result"]) (str_or "completed" item.["status"])], d)
  else if has_type "local_shell_call" item then shell_call_added d item
  else if has_type "custom_tool_call" item then custom_call_added d item
  else ([], d).

(** The call a fragment belongs to: by its item id, or the current one. *)
Definition fragment_call (d : Decoder) (event : Value) : string :=
  default "" (or_else (fst <$> (as_str event.["item_id"] ≫= fun item_id => function_calls d !! item_id))
                      (current_call_id d)).

Definition fragment (id arguments : string) (wire_type : option string) : StreamPart :=
  ToolCallDelta id None arguments wire_type None None.

Definition input_delta (d : Decoder) (event : Value) : list StreamPart * Decoder :=
  match as_str event.["delta"] with
  | Some input =>
      let id := fragment_call d event in
      ([fragment id input (Some "custom_tool_call")],
       set_inputs (<[id := default "" (custom_tool_inputs d !! id) +:+ input]> (custom_tool_inputs d)) d)
  | None => ([], d)
  end.

(** Only what was not delivered yet is passed on. *)
Definition input_done (d : Decoder) (event : Value) : list StreamPart * Decoder :=
  match as_str event.["input"] with
  | Some input =>
      let id := fragment_call d event in
      let delivered := default "" (custom_tool_inputs d !! id) in
      let remaining := default input (strip_prefix delivered input) in
      ((if is_empty remaining then [] else [fragment id remaining (Some "custom_tool_call")]),
       set_inputs (delete id (custom_tool_inputs d)) d)
  | None => ([], d)
  end.

(** [response.output_item.done] *)
Definition decode_item_done (d : Decoder) (item : Value) : list StreamPart * Decoder :=
  let '(parts, d) :=
    if has_type "reasoning" item then
      let d := stash_reasoning d item in
      if is_none (pending_reasoning_id d) && is_none (pending_reasoning_encrypted d) then ([], d)
      else take_reasoning d ""
    else ([], d) in
  let fc := if has_type "function_call" item || has_type "custom_tool_call" item
            then match as_str item.["id"] with
                 | Some item_id => delete item_id (function_calls d)
                 | None => function_calls d
                 end
            else function_calls d in
  (parts, set_known fc None (saw_function_call d) d).

(** Members of the usage object. *)
Definition stream_usage (usage : Value) : Usage :=
  let details := get "input_tokens_details" usage in
  let cache_read := details ≫= fun d => as_u64 d.["cached_tokens"] in
  let cache_write := details ≫= fun d => as_u64 d.["cache_write_tokens"] in
  let raw_input := default 0 (get "input_tokens" usage ≫= as_u64) in {|
  prompt_tokens := sat_sub (sat_sub raw_input (default 0 cache_read)) (default 0 cache_write);
  completion_tokens := default 0 (get "output_tokens" usage ≫= as_u64);
  reasoning_tokens := get "output_tokens_details" usage ≫= fun d => as_u64 d.["reasoning_tokens"];
  cache_read_tokens := cache_read; cache_write_tokens := cache_write;
  total_tokens := default 0 (get "total_tokens" usage ≫= as_u64) |}.

Definition end_part (d : Decoder) (status : string) : StreamPart :=
  ResponseCompleted (default "" (d_response_id d)) status None ∅.

(** The end of a response; the finish reason says whether a call was seen. *)
Definition decode_completed (d : Decoder) (response : Value) : list StreamPart :=
  let usage := response.["usage"] in
  (if is_object usage then [UsagePart (stream_usage usage)] else [])
  ++ [FinishPart (finish_of_status (saw_function_call d) (str_or "completed" response.["status"]));
      end_part d "completed"].

(** Unlike [decode_completed], without the usage. *)
Definition decode_incomplete (d : Decoder) : list StreamPart :=
  [FinishPart (if saw_function_call d then ToolCalls else LengthReason); end_part d "incomplete"].

Definition stream_error (event : Value) : StreamPart :=
  let err := if is_none (get "error" event) then event.["response"].["error"] else event.["error"] in
  let code := as_str err.["type"] in
  ErrorPart (str_or "Unknown" err.["message"]) (classify_upstream_error None code) code.

Definition decode_event (d : Decoder) (event : Value) : list StreamPart * Decoder :=
  match as_str event.["type"] with
  | None => ([], d)
  | Some t =>
      if String.eqb t "response.created" then
        match as_str event.["response"].["id"] with
        | Some id => ([ResponseStarted id], set_started id d)
        | None => ([], d)
        end
      else if String.eqb t "response.output_text.delta" then
        (option_list (TextDelta <$> as_str event.["delta"]), d)
      else if String.eqb t "response.reasoning_text.delta"
              || String.eqb t "response.reasoning_summary_text.delta" then
        match as_str event.["delta"] with
        | Some text => take_reasoning d text
        | None => ([], d)
        end
      else if String.eqb t "response.output_item.added" then decode_item_added d event.["item"]
      else if String.eqb t "response.function_call_arguments.delta" then
        (option_list ((fun args => fragment (fragment_call d event) args None)
                        <$> as_str event.["delta"]), d)
      else if String.eqb t "response.custom_tool_call_input.delta" then input_delta d event
      else if String.eqb t "response.custom_tool_call_input.done" then input_done d event
      else if String.eqb t "response.output_item.done" then decode_item_done d event.["item"]
      else if String.eqb t "response.completed" || String.eqb t "response.done" then
        (decode_completed d event.["response"], d)
      else if String.eqb t "error" || String.eqb t "response.failed" then ([stream_error event], d)
      else if String.eqb t "response.incomplete" then (decode_incomplete d, d)
      else ([], d)
  end.

Definition feed (d : Decoder) (line : string) : run (result Error (list StreamPart) * Decoder) :=
  let line := trim line in
  if is_empty line then Ok (Ok [], d)
  else if String.eqb line "data: [DONE]" then Ok (Ok [end_part d "completed"], d)
  else match strip_prefix "data: " line with
       | None => Ok (Ok [], d)
       | Some data =>
           match from_str data with
           | None => Ok (Err (ECodec ("Responses SSE: " +:+ from_str_error data)), d)
           | Some event => let '(parts, d) := decode_event d event in Ok (Ok parts, d)
           end
       end.

Definition finish (d : Decoder) : result Error (list StreamPart) := Ok [].
End Decoder.
