(* ===== verification/ResponsesStreamProps.v ===== *)
(** * ResponsesStreamProps: what a Responses stream keeps

    The discipline of the encoder's events (one terminal event, whose output
    lists the items that were announced), reading what the encoder writes, and
    the defects of the two halves. *)

From stdpp Require Import base option list gmap sets strings sorting.
From Stdlib Require Import ZArith Lia Ascii.
From S2P Require Import Prelude RustStr F64 Json JsonBody Telemetry Protocol Classify Errors Ir StructuredOutput Sse ChatStream ChatRequest ChatResponse ResponsesInput ResponsesInputProps ResponsesRequest ResponsesResponse ResponsesStream.

Local Open Scope string_scope.
Local Open Scope list_scope.
Local Open Scope Z_scope.

(** ** The events of a stream *)

Section Events.
Context `{SerdeJson}.

Fixpoint stream_events (e : Encoder) (parts : list StreamPart) : list Value :=
  match parts with
  | [] => []
  | p :: r => let '(out, e) := part_events e p in out ++ stream_events e r
  end.

Definition is_terminal (event : Value) : bool := has_type "response.completed" event.

(** What names an item: the id of a call, the type of the others. *)
Definition label (item : Value) : string := default (str_or "" item.["type"]) (as_str item.["call_id"]).

(** The items that are announced, with their indices. *)
Definition announced_by (event : Value) : list (Z * string) :=
  if has_type "response.output_item.added" event
  then [(default 0 (as_u64 event.["output_index"]), label event.["item"])] else [].

Definition announced (l : list Value) : list (Z * string) := flat_map announced_by l.

(** The items the terminal event lists. *)
Definition listed (event : Value) : list string :=
  map label (default [] (as_array event.["response"].["output"])).

(** The items of the state with their indices. *)
Definition labelled (e : Encoder) : list (Z * string) :=
  (match reasoning_output_index (reasoning e) with Some i => [(i, "reasoning")] | None => [] end)
  ++ (match text_output_index (text_item e) with Some i => [(i, "message")] | None => [] end)
  ++ map (prod_map id label) (program_items e)
  ++ map (fun id => (default u32_max (tool_output_indices (calls e) !! id), id))
       (tool_output_order (calls e)).

Definition numbered (seen : list string) : list (Z * string) :=
  imap (fun i s => (Z.of_nat i, s)) seen.

(** The items of the state are those that were announced, each with its
    position as its index, and the open calls are those that have an index. *)
Record tracks (e : Encoder) (seen : list string) : Prop := {
  tr_next : next_output_index e = Z.of_nat (length seen);
  tr_items : labelled e ≡ₚ numbered seen;
  tr_order : forall id, id ∈ tool_output_order (calls e) <-> is_Some (tool_output_indices (calls e) !! id);
}.

(** The indices are 32-bit numbers. *)
Definition few (seen : list string) : Prop := Z.of_nat (length seen) <= u32_max.

Lemma announced_app l1 l2 : announced (l1 ++ l2) = announced l1 ++ announced l2.
Proof. unfold announced. apply flat_map_app. Qed.

Lemma announced_added idx item : announced_by (item_added idx item) = [(idx, label item)].
Proof. reflexivity. Qed.

Lemma label_set_opt k o item :
  k <> "call_id" -> k <> "type" -> is_object item = true -> label (set_opt k o item) = label item.
Proof.
  intros Hc Ht Ho. unfold label, str_or, index. by rewrite !get_set_opt_ne by done.
Qed.

Lemma label_opened item_id id name wire_type : label (opened_item item_id id name wire_type) = id.
Proof.
  unfold opened_item. destruct (String.eqb wire_type "custom_tool_call"); [done|].
  by destruct (String.eqb wire_type "local_shell_call").
Qed.

Lemma opened_item_object item_id id name wire_type :
  is_object (opened_item item_id id name wire_type) = true.
Proof.
  unfold opened_item. destruct (String.eqb wire_type "custom_tool_call"); [done|].
  by destruct (String.eqb wire_type "local_shell_call").
Qed.

Lemma label_snapshot c status id : label (snapshot_call c status id) = id.
Proof.
  unfold snapshot_call.
  destruct (String.eqb _ "custom_tool_call"); [|destruct (String.eqb _ "local_shell_call")];
    by rewrite label_set_opt.
Qed.

Lemma label_closed_reasoning status e : label (closed_reasoning status e) = "reasoning".
Proof. unfold closed_reasoning. by rewrite label_set_opt. Qed.

Lemma indexed_labelled status e : map (prod_map id label) (indexed_output status e) = labelled e.
Proof.
  unfold indexed_output, labelled. rewrite !map_app, map_map.
  f_equal; [|f_equal; [by destruct (text_output_index _)|f_equal]].
  - destruct (reasoning_output_index _); [|done]. cbn. by rewrite label_closed_reasoning.
  - apply map_ext. intros id. cbn. by rewrite label_snapshot.
Qed.

Lemma numbered_app seen x : numbered (seen ++ [x]) = numbered seen ++ [(Z.of_nat (length seen), x)].
Proof. unfold numbered. rewrite imap_app. cbn. by rewrite Nat.add_0_r. Qed.

Lemma numbered_snd seen : map snd (numbered seen) = seen.
Proof.
  unfold numbered. induction seen as [|x seen IH] using rev_ind; [done|].
  rewrite imap_app, map_app, IH. done.
Qed.

Lemma numbered_key seen x y : x ∈ numbered seen -> y ∈ numbered seen -> fst x = fst y -> x = y.
Proof.
  unfold numbered. intros (i & s & -> & Hi)%elem_of_lookup_imap (j & u & -> & Hj)%elem_of_lookup_imap.
  cbn. intros ->%Nat2Z.inj. congruence.
Qed.

Lemma numbered_sorted seen : StronglySorted (fun a b => (fst a <=? fst b) = true) (numbered seen).
Proof.
  induction seen as [|x seen IH] using rev_ind; [constructor|]. rewrite numbered_app.
  apply StronglySorted_app. split_and!; [|done|repeat constructor].
  intros a b Ha ->%list_elem_of_singleton. unfold numbered in Ha.
  apply elem_of_lookup_imap in Ha as (i & s & -> & Hi%lookup_lt_Some). cbn. apply Z.leb_le. lia.
Qed.

(** The snapshot of a state lists the items that were announced, in order. *)
Lemma snapshot_labels status e seen : tracks e seen -> map label (snapshot status e) = seen.
Proof.
  intros Ht. unfold snapshot. rewrite map_map.
  set (l := sort_by_index (indexed_output status e)).
  assert (Permutation (map (prod_map id label) l) (numbered seen)) as Hp.
  { subst l. unfold sort_by_index. rewrite sort_by_perm, indexed_labelled. apply (tr_items _ _ Ht). }
  assert (map (prod_map id label) l = numbered seen) as E.
  { eapply (StronglySorted_unique_strong (fun a b => (fst a <=? fst b) = true)); [| |apply numbered_sorted|done].
    - intros a b Ha Hb Hab%Z.leb_le Hba%Z.leb_le. eapply numbered_key; [|done|lia]. by rewrite <- Hp.
    - assert (StronglySorted (fun a b => (fst a <=? fst b) = true) l) as Hl.
      { apply sort_by_sorted; intros; rewrite ?Z.leb_le in *; lia. }
      clear -Hl. induction Hl as [|x l _ IH Hx]; cbn; constructor; [done|]. by apply Forall_map. }
  rewrite <- (numbered_snd seen), <- E, map_map. apply map_ext. by intros [].
Qed.
(** ** One part *)

Definition terminals (l : list Value) : list Value := List.filter is_terminal l.

(** Events between the announcements and the end. *)
Definition inner (event : Value) : Prop := announced_by event = [] /\ is_terminal event = false.

Lemma inner_announced l : Forall inner l -> announced l = [].
Proof. induction 1 as [|v l [Hv _] _ IH]; [done|]. unfold announced in *. cbn [flat_map]. by rewrite Hv, IH. Qed.

Lemma inner_terminals l : Forall inner l -> terminals l = [].
Proof. induction 1 as [|v l [_ Hv] _ IH]; [done|]. unfold terminals in *. cbn [List.filter]. by rewrite Hv, IH. Qed.

Lemma inner_closed c status id : Forall inner (close_tool_call c status id).
Proof.
  unfold close_tool_call. apply Forall_app. split.
  - destruct (String.eqb _ "function_call"); repeat constructor.
  - destruct (String.eqb _ "custom_tool_call"); [|destruct (String.eqb _ "local_shell_call")];
      repeat constructor.
Qed.

Lemma inner_close_calls status e : Forall inner (fst (close_tool_calls status e)).
Proof.
  unfold close_tool_calls. cbn [fst]. induction (List.filter _ _) as [|id l IH]; [constructor|].
  cbn. apply Forall_app. split; [apply inner_closed|done].
Qed.

Lemma inner_close_items status e : Forall inner (close_reasoning status e ++ close_text e).
Proof.
  apply Forall_app. unfold close_reasoning, close_text. split.
  - destruct (reasoning_output_index _); repeat constructor.
  - destruct (text_output_index _); repeat constructor.
Qed.

(** The items of the state and their numbers. *)
Definition same_items (e e' : Encoder) : Prop :=
  next_output_index e' = next_output_index e /\ labelled e' = labelled e
  /\ tool_output_order (calls e') = tool_output_order (calls e)
  /\ tool_output_indices (calls e') = tool_output_indices (calls e).

Lemma tracks_same e e' seen : same_items e e' -> tracks e seen -> tracks e' seen.
Proof. intros (Hn & Hl & Ho & Hi) [? ? ?]. split; [by rewrite Hn|by rewrite Hl|]. by rewrite Ho, Hi. Qed.

(** What a part does: it announces the next item or none, or it ends the
    response with the list of the items. *)
Definition part_step (e : Encoder) (seen : list string) (out : list Value) (e' : Encoder) : Prop :=
  (terminals out = [] /\ completed_sent e' = completed_sent e
   /\ ((announced out = [] /\ same_items e e')
       \/ exists x, announced out = [(Z.of_nat (length seen), x)]
                    /\ (few (seen ++ [x]) -> tracks e' (seen ++ [x]))))
  \/ (completed_sent e = false /\ completed_sent e' = true /\ same_items e e'
      /\ exists pre v, out = pre ++ [v] /\ Forall inner pre /\ is_terminal v = true
                      /\ announced_by v = [] /\ listed v = seen).

Lemma step_quiet e seen out e' :
  Forall inner out -> completed_sent e' = completed_sent e -> same_items e e' ->
  part_step e seen out e'.
Proof. intros Ho Hc Hs. left. split; [by apply inner_terminals|]. split; [done|]. left. split; [by apply inner_announced|done]. Qed.

Lemma step_item e seen idx item rest e' :
  tracks e seen -> idx = next_output_index e -> Forall inner rest ->
  completed_sent e' = completed_sent e ->
  next_output_index e' = wrap32 (idx + 1) ->
  labelled e' ≡ₚ (idx, label item) :: labelled e ->
  (forall id, id ∈ tool_output_order (calls e') <-> is_Some (tool_output_indices (calls e') !! id)) ->
  part_step e seen (item_added idx item :: rest) e'.
Proof.
  intros [Hn Hl Ho] -> Hr Hc Hn' Hl' Ho'. left. split; [by apply inner_terminals in Hr|]. split; [done|].
  right. exists (label item). split.
  - change (announced_by (item_added (next_output_index e) item) ++ announced rest
            = [(Z.of_nat (length seen), label item)]).
    by rewrite announced_added, Hn, (inner_announced _ Hr).
  - unfold few, u32_max. rewrite length_app. cbn [length]. intros Hf. split; [|rewrite Hl', numbered_app, Hl, Hn|done].
    + rewrite Hn', Hn, length_app. unfold wrap32. rewrite Z.mod_small by lia. cbn. lia.
    + by rewrite Permutation_app_comm.
Qed.

Lemma step_then e seen out e1 q e2 :
  part_step e seen out e1 -> completed_sent e1 = completed_sent e -> Forall inner q ->
  completed_sent e2 = completed_sent e1 -> same_items e1 e2 -> part_step e seen (out ++ q) e2.
Proof.
  intros [(Ht & Hc & Ha)|(? & ? & _)] Hc1 Hq Hc2 Hs; [|congruence]. left.
  pose proof (inner_terminals _ Hq) as Hq'. unfold terminals in *.
  rewrite List.filter_app, Ht, Hq', announced_app, (inner_announced _ Hq), !app_nil_r. split; [done|]. split; [congruence|].
  destruct Ha as [[Ha Hi]|(x & Ha & Hx)]; [left|right].
  - split; [done|]. unfold same_items in *. intuition congruence.
  - exists x. split; [done|]. intros Hf. eapply tracks_same; [exact Hs|auto].
Qed.

Lemma follow_text e seen text :
  tracks e seen -> part_step e seen (fst (text_delta e text)) (snd (text_delta e text)).
Proof.
  intros Ht. unfold text_delta. destruct (text_output_index (text_item e)) as [i|] eqn:Ei; cbn [fst snd].
  - apply step_quiet; [repeat constructor|done|]. unfold same_items, labelled. cbn. rewrite Ei. by split_and!.
  - eapply step_item; [done|done|repeat constructor|done|done| |apply (tr_order _ _ Ht)].
    unfold labelled. cbn. rewrite Ei. cbn. symmetry. apply Permutation_middle.
Qed.

Lemma follow_reasoning e seen text rid enc :
  tracks e seen ->
  part_step e seen (fst (reasoning_delta e text rid enc)) (snd (reasoning_delta e text rid enc)).
Proof.
  intros Ht. unfold reasoning_delta. cbn [reasoning reasoning_output_index].
  destruct (reasoning_output_index (reasoning e)) as [i|] eqn:Ei; cbn [fst snd app].
  - apply step_quiet; [destruct (is_empty text); repeat constructor|done|].
    unfold same_items, labelled. cbn. rewrite Ei. by split_and!.
  - eapply step_item; [done|done|destruct (is_empty text); repeat constructor|done|done| |apply (tr_order _ _ Ht)].
    unfold labelled. cbn. by rewrite Ei.
Qed.

Lemma step_whole e seen item :
  tracks e seen -> part_step e seen (fst (whole_item e item)) (snd (whole_item e item)).
Proof.
  intros Ht. unfold whole_item. cbn [fst snd].
  eapply step_item; [done|done|repeat constructor|done|done| |apply (tr_order _ _ Ht)].
  unfold labelled. cbn. rewrite map_app. cbn.
  rewrite <- !app_assoc. cbn. by rewrite !(Permutation_middle _ _ (next_output_index e, label item)), !app_assoc.
Qed.

Lemma calls_renumbered id idx (m : gmap string Z) order :
  m !! id = None -> (forall k, k ∈ order -> is_Some (m !! k)) ->
  map (fun k => (default u32_max (<[id := idx]> m !! k), k)) order
  = map (fun k => (default u32_max (m !! k), k)) order.
Proof.
  intros Hid Ho. apply map_ext_in. intros k Hk%list_elem_of_In%Ho.
  rewrite lookup_insert_ne; [done|]. intros <-. rewrite Hid in Hk. by destruct Hk.
Qed.

Lemma step_open e seen id name wt item caller :
  tracks e seen ->
  part_step e seen (fst (open_tool_call id name wt item caller e)) (snd (open_tool_call id name wt item caller e))
  /\ completed_sent (snd (open_tool_call id name wt item caller e)) = completed_sent e.
Proof.
  intros Ht. unfold open_tool_call. destruct (tool_output_indices (calls e) !! id) as [i|] eqn:Ei; cbn [fst snd].
  - split; [|done]. apply step_quiet; [constructor|done|].
    unfold same_items, labelled. cbn. unfold or_insert_key. rewrite Ei. by split_and!.
  - split; [|done].
    eapply step_item; [done|done|constructor|done|done| |].
    + rewrite label_set_opt, label_opened by (done || apply opened_item_object). unfold labelled. cbn. unfold or_insert_key. rewrite Ei, map_app.
      rewrite calls_renumbered by (auto; intros k; apply (tr_order _ _ Ht)). cbn. rewrite lookup_insert_eq. cbn.
      by rewrite !app_assoc, <- Permutation_cons_append.
    + intros k. cbn. unfold or_insert_key. rewrite Ei, elem_of_app, list_elem_of_singleton, (tr_order _ _ Ht).
      rewrite lookup_insert_is_Some. destruct (decide (k = id)); naive_solver.
Qed.

Lemma append_inner e id args :
  Forall inner (fst (append_tool_arguments id args e))
  /\ completed_sent (snd (append_tool_arguments id args e)) = completed_sent e
  /\ same_items e (snd (append_tool_arguments id args e)).
Proof.
  unfold append_tool_arguments. cbn [fst snd]. split; [|done].
  destruct (String.eqb _ _); repeat constructor.
Qed.

(** The terminal event. *)
Definition final (e : Encoder) (seen : list string) (out : list Value) (e' : Encoder) : Prop :=
  completed_sent e' = true /\ same_items e e'
  /\ exists pre v, out = pre ++ [v] /\ Forall inner pre /\ is_terminal v = true
     /\ announced_by v = [] /\ listed v = seen.

Lemma completed_lists status e seen :
  tracks e seen -> final e seen (fst (completed_event status e)) (snd (completed_event status e)).
Proof.
  intros Ht. unfold completed_event. cbn [fst snd]. split; [done|]. split; [done|].
  eexists [], _. split; [reflexivity|]. split; [constructor|]. split; [done|]. split; [done|].
  unfold listed. set (r := set_opt "output" _ _).
  change ((obj [("type", Str "response.completed"); ("response", r)]).["response"]) with r.
  rewrite <- (snapshot_labels status e seen Ht). subst r. unfold index.
  rewrite get_set_opt_eq, get_set_opt_ne by auto with body.
  by destruct (snapshot status e).
Qed.

Lemma final_after e e1 seen pre out e' :
  same_items e e1 -> Forall inner pre -> final e1 seen out e' -> final e seen (pre ++ out) e'.
Proof.
  intros Hs Hp (Hc & Hs' & q & v & -> & Hq & Hv). split; [done|].
  split; [unfold same_items in *; intuition congruence|].
  exists (pre ++ q), v. split; [by rewrite app_assoc|]. split; [by apply Forall_app|done].
Qed.

Lemma final_step e seen out e' : completed_sent e = false -> final e seen out e' -> part_step e seen out e'.
Proof. intros Hc (Hc' & Hs & Hv). by right. Qed.

Lemma follow_usage e seen usage :
  tracks e seen -> part_step e seen (fst (usage_part e usage)) (snd (usage_part e usage)).
Proof.
  intros Ht. unfold usage_part. destruct (completed_sent e) eqn:Ec; [by apply step_quiet|].
  destruct (pending_finish_status e) as [status|]; [|by apply step_quiet].
  apply final_step; [done|].
  assert (same_items e (set_terminal (Some usage) false None e)) as Hs by done.
  apply (final_after e _ seen [] _ _ Hs); [constructor|]. apply completed_lists. by eapply tracks_same.
Qed.

Lemma close_calls_same status e :
  same_items e (snd (close_tool_calls status e))
  /\ completed_sent (snd (close_tool_calls status e)) = completed_sent e.
Proof. done. Qed.

Lemma follow_finish e seen reason :
  tracks e seen -> part_step e seen (fst (finish_part e reason)) (snd (finish_part e reason)).
Proof.
  intros Ht. unfold finish_part. destruct (completed_sent e) eqn:Ec; [by apply step_quiet|].
  cbn [orb]. destruct (negb (is_none (pending_finish_status e))); [by apply step_quiet|].
  pose proof (inner_close_calls (status_str reason) e) as Hi.
  destruct (close_calls_same (status_str reason) e) as [Hs Hc].
  destruct (close_tool_calls (status_str reason) e) as [closed e1]. cbn [fst snd] in *.
  pose proof (inner_close_items (status_str reason) e) as Hi'.
  destruct (is_none (pending_usage e1)); cbn [fst snd].
  - apply step_quiet; [by apply Forall_app|by cbn; rewrite Hc|done].
  - pose proof (completed_lists (status_str reason) e1 seen (tracks_same _ _ _ Hs Ht)) as Hf.
    destruct (completed_event (status_str reason) e1) as [terminal e2]. cbn [fst snd] in *.
    apply final_step; [done|]. rewrite app_assoc. eapply final_after; [done|by apply Forall_app|done].
Qed.

Lemma follow_completed e seen :
  tracks e seen -> part_step e seen (fst (completed_part e)) (snd (completed_part e)).
Proof.
  intros Ht. unfold completed_part. destruct (completed_sent e) eqn:Ec; [by apply step_quiet|].
  set (status := default "completed" _). set (e0 := set_terminal _ _ _ _).
  pose proof (inner_close_calls status e0) as Hi.
  destruct (close_calls_same status e0) as [Hs _].
  destruct (close_tool_calls status e0) as [closed e1]. cbn [fst snd] in *.
  assert (same_items e e0) as H0 by done.
  pose proof (completed_lists status e1 seen (tracks_same _ _ _ Hs (tracks_same _ _ _ H0 Ht))) as Hf.
  destruct (completed_event status e1) as [terminal e2]. cbn [fst snd] in *.
  apply final_step; [done|]. eapply final_after; [|done|done].
  clear -H0 Hs. unfold same_items in *. intuition congruence.
Qed.

Lemma part_follows e seen p :
  tracks e seen -> part_step e seen (fst (part_events e p)) (snd (part_events e p)).
Proof.
  intros Ht. destruct p as [t|t i en|id [n|] args wt it ca|id ci code fp|id ci r s|u|id|r|rid status u x|m cl code];
    cbn [part_events].
  - by apply follow_text.
  - by apply follow_reasoning.
  - destruct (step_open e seen id n wt it ca Ht) as [Hs Hc].
    destruct (open_tool_call id n wt it ca e) as [out e1]. cbn [fst snd] in *.
    destruct (is_empty args); [done|]. destruct (append_inner e1 id args) as (Hi & Hc' & Hs').
    destruct (append_tool_arguments id args e1) as [q e2]. cbn [fst snd] in *.
    by eapply step_then.
  - destruct (append_inner e id args) as (Hi & Hc' & Hs'). by apply step_quiet.
  - by apply step_whole.
  - by apply step_whole.
  - by apply follow_usage.
  - apply step_quiet; [repeat constructor|done|done].
  - by apply follow_finish.
  - by apply follow_completed.
  - apply step_quiet; [repeat constructor|done|done].
Qed.

(** ** The whole stream *)

Definition completes (p : StreamPart) : bool :=
  match p with ResponseCompleted _ _ _ _ => true | _ => false end.

(** At most one terminal event, which lists what was announced before it;
    one at least if [must]. *)
Definition ends_once (seen : list string) (must : bool) (evs : list Value) : Prop :=
  (must = false /\ terminals evs = [])
  \/ exists before v after,
       evs = before ++ v :: after /\ terminals before = [] /\ terminals after = []
       /\ is_terminal v = true /\ listed v = seen ++ map snd (announced before).

Lemma completed_part_ends e : completed_sent (snd (completed_part e)) = true.
Proof. unfold completed_part. by destruct (completed_sent e) eqn:E. Qed.

Lemma follows_items e seen out e' :
  tracks e seen -> part_step e seen out e' -> few (seen ++ map snd (announced out)) ->
  tracks e' (seen ++ map snd (announced out))
  /\ numbered (seen ++ map snd (announced out)) = numbered seen ++ announced out.
Proof.
  intros Ht [(_ & _ & [[-> Hs]|(x & -> & Hx)])|(_ & _ & Hs & pre & v & -> & Hp & _ & Hv & _)].
  - intros _. cbn. rewrite !app_nil_r. split; [by eapply tracks_same|done].
  - cbn. intros Hf. split; [auto|apply numbered_app].
  - intros _. rewrite announced_app, (inner_announced _ Hp). cbn. rewrite Hv. cbn.
    rewrite !app_nil_r. split; [by eapply tracks_same|done].
Qed.

Lemma few_app l1 l2 : few (l1 ++ l2) -> few l1.
Proof. unfold few. rewrite length_app. lia. Qed.

Lemma stream_follows parts e seen :
  tracks e seen -> few (seen ++ map snd (announced (stream_events e parts))) ->
  numbered (seen ++ map snd (announced (stream_events e parts)))
    = numbered seen ++ announced (stream_events e parts)
  /\ if completed_sent e then terminals (stream_events e parts) = []
     else ends_once seen (existsb completes parts) (stream_events e parts).
Proof.
  revert e seen. induction parts as [|p parts IH]; intros e seen Ht Hf.
  { cbn in *. rewrite !app_nil_r. split; [done|]. destruct (completed_sent e); [done|by left]. }
  cbn [stream_events existsb] in *. pose proof (part_follows e seen p Ht) as Hp.
  assert (completes p = true -> completed_sent (snd (part_events e p)) = true) as Hend
    by (destruct p; try done; intros _; apply completed_part_ends).
  destruct (part_events e p) as [out e'] eqn:E. cbn [fst snd] in *.
  rewrite announced_app, map_app, app_assoc in *.
  destruct (follows_items e seen out e' Ht Hp (few_app _ _ Hf)) as [Ht' Hn].
  destruct (IH e' _ Ht' Hf) as [IHn IHe]. split; [by rewrite IHn, Hn, app_assoc|].
  destruct Hp as [(Hq & Hc & _)|(Hc & Hc' & _ & pre & v & -> & Hpre & Hv & Ha & Hl)].
  - rewrite Hc in *. unfold terminals in *. rewrite List.filter_app, Hq.
    destruct (completed_sent e) eqn:Ec; [done|]. unfold ends_once, terminals in *.
    destruct IHe as [[Hm Hr]|(b & v & a & E' & Hb & Ha & Hv & Hl)].
    + left. rewrite Hm, List.filter_app, Hq, Hr.
      destruct (completes p); [by specialize (Hend eq_refl)|done].
    + right. exists (out ++ b), v, a. rewrite E', <- app_assoc. split_and!; try done.
      * by rewrite List.filter_app, Hq.
      * by rewrite Hl, announced_app, map_app, app_assoc.
  - rewrite Hc, Hc' in *. right. exists pre, v, (stream_events e' parts).
    rewrite <- app_assoc. split_and!; try done; [by apply inner_terminals|].
    by rewrite (inner_announced _ Hpre), app_nil_r.
Qed.

Lemma tracks_new : tracks Encoder_new [].
Proof. split; [done|done|]. intros id. cbn. rewrite elem_of_nil, lookup_empty. by split; [|intros []]. Qed.

(** C36: A Responses stream announces its items with the indices 0, 1, 2, ...
    whatever the parts and their order, and ends at most once: if a
    [response.completed] event is written, its output lists the items that
    were announced before it, each at the position of its index (calls and
    programs by their call ids, the message and the reasoning by their types).
    It is written when the response is completed, even if no finish reason came. *)
Theorem responses_stream_ends_once parts :
  few (map snd (announced (stream_events Encoder_new parts))) ->
  announced (stream_events Encoder_new parts)
    = numbered (map snd (announced (stream_events Encoder_new parts)))
  /\ ends_once [] (existsb completes parts) (stream_events Encoder_new parts).
Proof.
  intros Hf. destruct (stream_follows parts Encoder_new [] tracks_new Hf) as [Hn He].
  split; [by symmetry|exact He].
Qed.

End Events.

Definition no_usage : Usage := Usage_default.

(** A response whose finish reason never came. *)
Definition unfinished_parts : list StreamPart :=
  [ResponseStarted "resp_1"; ReasoningDelta "think" (Some "rs_1") None; TextDelta "hel"; TextDelta "lo";
   ToolCallDelta "a" (Some "f") "{" None (Some "fc_1") None;
   ToolCallDelta "b" (Some "g") "" None None None; ToolCallDelta "a" None "}" None None None;
   ProgramDelta "p" "call_p" "code" "fp"; UsagePart no_usage;
   ResponseCompleted "resp_1" "completed" None ∅; FinishPart Stop].

Lemma responses_stream_ends_once_witness :
  (announced (@stream_events coded_json Encoder_new unfinished_parts)
     = [(0, "reasoning"); (1, "message"); (2, "a"); (3, "b"); (4, "call_p")]
   /\ ends_once [] true (@stream_events coded_json Encoder_new unfinished_parts))
  /\ map listed (terminals (@stream_events coded_json Encoder_new unfinished_parts))
     = [["reasoning"; "message"; "a"; "b"; "call_p"]].
Proof.
  split; [|by vm_compute]. apply (@responses_stream_ends_once coded_json unfinished_parts).
  vm_compute. discriminate.
Defined.
