(* ===== verification/ResponsesStreamRoundtrip.v ===== *)
(** * ResponsesStreamRoundtrip: reading a Responses stream

    The bytes of the encoder, fed line by line to the decoder, give the parts
    back: texts, reasoning with its id and encrypted payload, parallel calls
    with their item ids, programs, the usage and the finish reason. *)

From stdpp Require Import base option list gmap sets strings.
From Stdlib Require Import ZArith Lia Ascii.
From S2P Require Import Prelude RustStr F64 Json JsonBody Telemetry Protocol Classify Errors Ir StructuredOutput Sse ChatStream ChatRequest ChatResponse ResponsesInput ResponsesInputProps ResponsesRequest ResponsesResponse ResponsesStream ResponsesStreamProps.

Local Open Scope string_scope.
Local Open Scope list_scope.
Local Open Scope Z_scope.

(** ** Framing *)

Section Framing.
Context `{J : SerdeJson} `{!SerdeJsonLaws J} `{Lowercase}.

Fixpoint stream_frames (e : Encoder) (parts : list StreamPart) : list Frame :=
  match parts with
  | [] => []
  | p :: r => let '(out, e) := part_frames e p in out ++ stream_frames e r
  end.

Definition encode_parts (parts : list StreamPart) : string := render_all (stream_frames Encoder_new parts).

Definition decode_frame (d : Decoder) (f : Frame) : list StreamPart * Decoder :=
  match f with EventFrame v => decode_event d v | DoneFrame => ([end_part d "completed"], d) end.

Fixpoint decode_frames (d : Decoder) (l : list Frame) : list StreamPart * Decoder :=
  match l with
  | [] => ([], d)
  | f :: r =>
      let '(parts, d) := decode_frame d f in
      let '(rest, d) := decode_frames d r in
      (parts ++ rest, d)
  end.

Fixpoint decode_events (d : Decoder) (l : list Value) : list StreamPart * Decoder :=
  match l with
  | [] => ([], d)
  | v :: r =>
      let '(parts, d) := decode_event d v in
      let '(rest, d) := decode_events d r in
      (parts ++ rest, d)
  end.

(** An event the printer writes exactly. *)
Definition event_ok (v : Value) : bool := is_object v && exact v.

Definition frame_ok (f : Frame) : bool := match f with EventFrame v => event_ok v | DoneFrame => true end.

Lemma feed_blank d : feed d "" = Ok (Ok [], d).
Proof. done. Qed.

Lemma feed_written d f rest :
  frame_ok f = true ->
  feed_lines feed d (split LF (render f +:+ rest))
  = then_lines feed (let '(parts, d) := decode_frame d f in Ok (Ok parts, d)) (split LF rest).
Proof.
  destruct f as [v|]; intros Hf.
  - apply andb_prop in Hf as [Ho Hx]. destruct v as [| | | | |m]; try done.
    destruct (to_string_braces m) as [s Hs]. unfold render.
    rewrite !str_app_assoc, <- (str_app_assoc "data: "). rewrite (feed_event _ feed_blank).
    2: { rewrite contains_app, to_string_one_line. done. }
    f_equal. unfold feed. rewrite trim_data.
    2: { rewrite Hs, ends_with_app, ends_with_app. by destruct s. }
    change (is_empty ("data: " +:+ to_string (Obj m))) with false.
    rewrite strip_prefix_app, from_to_string by done.
    replace (String.eqb ("data: " +:+ to_string (Obj m)) "data: [DONE]") with false by (by rewrite Hs).
    done.
  - unfold render. rewrite str_app_assoc. by rewrite (feed_event _ feed_blank).
Qed.

Lemma render_frames_cons f l rest : render_all (f :: l) +:+ rest = render f +:+ (render_all l +:+ rest).
Proof.
  unfold render_all. cbn [map]. rewrite <- str_app_assoc. f_equal.
  destruct (map render l); [by rewrite str_app_nil_r|done].
Qed.

Lemma feed_frames d l :
  forallb frame_ok l = true ->
  feed_lines feed d (split LF (render_all l)) = Ok (let '(parts, d) := decode_frames d l in (Ok parts, d)).
Proof.
  rewrite <- (str_app_nil_r (render_all l)). revert d. induction l as [|f l IH]; intros d; [done|].
  cbn [forallb]. intros [Hf Hl]%andb_prop. rewrite render_frames_cons, feed_written by done.
  cbn [decode_frames]. destruct (decode_frame d f) as [p d1]. unfold then_lines. cbn [mbind result_bind].
  rewrite IH by done. by destruct (decode_frames d1 l).
Qed.

(** The number of an event is not read. *)
Lemma decode_numbered d n v :
  is_object v = true -> decode_event d (set "sequence_number" (json_u64 n) v) = decode_event d v.
Proof using Type.
  intros Hv. unfold decode_event, decode_completed, input_delta, input_done, stream_error, fragment_call, index.
  by rewrite !get_set_ne by done.
Qed.

Lemma decode_frames_app d l1 l2 :
  decode_frames d (l1 ++ l2)
  = let '(p1, d) := decode_frames d l1 in let '(p2, d) := decode_frames d l2 in (p1 ++ p2, d).
Proof using Type.
  revert d. induction l1 as [|f l1 IH]; intros d; cbn; [by destruct (decode_frames d l2)|].
  destruct (decode_frame d f) as [p d1]. rewrite IH. destruct (decode_frames d1 l1) as [p1 d2].
  destruct (decode_frames d2 l2) as [p2 d3]. by rewrite app_assoc.
Qed.

Lemma decode_responses_app d l1 l2 :
  decode_events d (l1 ++ l2)
  = let '(p1, d) := decode_events d l1 in let '(p2, d) := decode_events d l2 in (p1 ++ p2, d).
Proof using Type.
  revert d. induction l1 as [|v l1 IH]; intros d; cbn; [by destruct (decode_events d l2)|].
  destruct (decode_event d v) as [p d1]. rewrite IH. destruct (decode_events d1 l1) as [p1 d2].
  destruct (decode_events d2 l2) as [p2 d3]. by rewrite app_assoc.
Qed.

Lemma decode_stamped d n l :
  forallb event_ok l = true -> decode_frames d (map EventFrame (stamp n l)) = decode_events d l.
Proof using Type.
  revert d n. induction l as [|v l IH]; intros d n; [done|]. cbn [forallb].
  intros [[Ho _]%andb_prop Hl]%andb_prop. cbn [stamp map decode_frames decode_frame decode_events].
  rewrite decode_numbered by done. destruct (decode_event d v) as [p d1]. by rewrite IH.
Qed.

Lemma stamped_ok n l :
  in_u64 n = true -> forallb event_ok l = true -> forallb frame_ok (map EventFrame (stamp n l)) = true.
Proof using Type.
  revert n. induction l as [|v l IH]; intros n Hn; [done|]. cbn [forallb stamp map].
  intros [[Ho Hx]%andb_prop Hl]%andb_prop. apply andb_true_intro. split; [|apply IH; [|done]].
  - cbn [frame_ok]. unfold event_ok. rewrite is_object_set by done. by apply exact_set.
  - apply in_u64_iff. unfold wrap64, u64_max. pose proof (Z.mod_pos_bound (n + 1) 18446744073709551616). lia.
Qed.
End Framing.

(** ** What a stream becomes on its way through the wire *)

(** The calls with their wire ids, the reasoning item (whether it is open, its
    id and payload, the id that its next delta carries), and whether a call
    was seen. *)
Record Relay := {
  wires : list (string * string);
  thinking : bool;
  thought_id : option string;
  thought_payload : option string;
  unsaid_id : option string;
  tools : bool;
}.

Definition Relay_new : Relay := {|
  wires := []; thinking := false; thought_id := None; thought_payload := None; unsaid_id := None;
  tools := false |}.

(** The id an announced reasoning item has. *)
Definition thought_name (rid : string) (st : Relay) : string := default (rid +:+ "_rs") (thought_id st).

Definition think (rid : string) (id payload : option string) (st : Relay) : Relay :=
  let st := {| wires := wires st; thinking := thinking st; thought_id := or_else (thought_id st) id;
               thought_payload := or_else (thought_payload st) payload;
               unsaid_id := unsaid_id st; tools := tools st |} in
  {| wires := wires st; thinking := true; thought_id := thought_id st;
     thought_payload := thought_payload st;
     unsaid_id := if thinking st then unsaid_id st else Some (thought_name rid st); tools := tools st |}.

Definition said (st : Relay) : Relay := {|
  wires := wires st; thinking := thinking st; thought_id := thought_id st;
  thought_payload := thought_payload st; unsaid_id := None; tools := tools st |}.

Definition with_wire (id : string) (item_id : option string) (st : Relay) : Relay := {|
  wires := wires st ++ [(id, default id (not_empty item_id))]; thinking := thinking st;
  thought_id := thought_id st; thought_payload := thought_payload st; unsaid_id := unsaid_id st;
  tools := true |}.

Definition with_program (st : Relay) : Relay := {|
  wires := wires st; thinking := thinking st; thought_id := thought_id st;
  thought_payload := thought_payload st; unsaid_id := unsaid_id st; tools := true |}.

(** A part of the content.  The first reasoning delta with a text carries the
    id of the item; a call is opened before its arguments. *)
Definition relay_part (rid : string) (st : Relay) (p : StreamPart) : list StreamPart * Relay :=
  match p with
  | TextDelta t => ([TextDelta t], st)
  | ReasoningDelta t id payload =>
      let st := think rid id payload st in
      if is_empty t then ([], st) else ([ReasoningDelta t (unsaid_id st) None], said st)
  | ToolCallDelta id (Some n) args _ item_id caller =>
      (ToolCallDelta id (Some n) "" None (dual_item_id (default id (not_empty item_id)) id) caller
       :: (if is_empty args then [] else [fragment id args None]), with_wire id item_id st)
  | ToolCallDelta id None args _ _ _ => ([fragment id args None], st)
  | ProgramDelta _ _ _ _ => ([p], with_program st)
  | _ => ([p], st)
  end.

Fixpoint relay (rid : string) (st : Relay) (parts : list StreamPart) : list StreamPart * Relay :=
  match parts with
  | [] => ([], st)
  | p :: r =>
      let '(out, st) := relay_part rid st p in
      let '(rest, st) := relay rid st r in
      (out ++ rest, st)
  end.

(** Content parts whose calls can be told apart: a function call is opened
    once, with an item id of its own, before its fragments. *)
Definition part_fits (st : Relay) (p : StreamPart) : bool :=
  match p with
  | TextDelta _ | ReasoningDelta _ _ _ | ProgramDelta _ _ _ _ | ProgramOutputDelta _ _ _ _ => true
  | ToolCallDelta id (Some _) _ wire_type item_id _ =>
      is_none wire_type && negb (is_empty id)
      && negb (bool_decide (id ∈ map fst (wires st)))
      && negb (bool_decide (default id (not_empty item_id) ∈ map snd (wires st)))
  | ToolCallDelta id None _ _ _ _ => bool_decide (id ∈ map fst (wires st))
  | _ => false
  end.

Fixpoint parts_fit (rid : string) (st : Relay) (parts : list StreamPart) : bool :=
  match parts with
  | [] => true
  | p :: r => part_fits st p && parts_fit rid (snd (relay_part rid st p)) r
  end.

(** The end: the reasoning item with its payload, the usage, the finish
    reason, and the end of the response, once for the event and once for the
    end marker. *)
Definition relay_end (rid : string) (usage : option Usage) (reason : FinishReason) (st : Relay)
    : list StreamPart :=
  (if thinking st then [ReasoningDelta "" (Some (thought_name rid st)) (thought_payload st)] else [])
  ++ option_list ((UsagePart ∘ relayed_usage) <$> usage)
  ++ [FinishPart (relayed_finish (tools st) reason); ResponseCompleted rid "completed" None ∅;
      ResponseCompleted rid "completed" None ∅].

(** ** Encoder, decoder and relay agree *)

Definition index_ok (n : Z) : Prop := 0 <= n <= u64_max.

Record linked (rid : string) (st : Relay) (e : Encoder) (d : Decoder) : Prop := {
  lk_encoder_id : response_id e = Some rid;
  lk_decoder_id : d_response_id d = Some rid;
  lk_running : completed_sent e = false /\ pending_usage e = None /\ pending_finish_status e = None;
  lk_plain : tool_wire_types (calls e) = ∅;
  lk_known : forall id w, (id, w) ∈ wires st ->
    is_Some (tool_output_indices (calls e) !! id) /\ wire_item_id (calls e) id = w
    /\ fst <$> function_calls d !! w = Some id;
  lk_fresh : forall id, id ∉ map fst (wires st) ->
    tool_output_indices (calls e) !! id = None /\ tool_item_ids (calls e) !! id = None
    /\ tool_callers (calls e) !! id = None;
  lk_thinking : is_Some (reasoning_output_index (reasoning e)) <-> thinking st = true;
  lk_thought : reasoning_id (reasoning e) = thought_id st
    /\ reasoning_encrypted (reasoning e) = thought_payload st;
  lk_unsaid : pending_reasoning_id d = unsaid_id st /\ pending_reasoning_encrypted d = None;
  lk_tools : saw_function_call d = tools st;
  lk_sequence : in_u64 (sequence_number e) = true;
  lk_next : index_ok (next_output_index e);
  lk_indices : forall i, reasoning_output_index (reasoning e) = Some i
    \/ text_output_index (text_item e) = Some i
    \/ (exists id, tool_output_indices (calls e) !! id = Some i) -> index_ok i;
  lk_programs : forallb (fun x => exact (snd x)) (program_items e) = true;
}.

Lemma exact_index n : index_ok n -> exact (json_u64 n) = true.
Proof. intros Hn. cbn. apply andb_true_intro. rewrite !Z.leb_le. exact Hn. Qed.

Lemma event_ok_obj l : forallb (fun kv => exact (snd kv)) l = true -> event_ok (obj l) = true.
Proof. intros Hl. unfold event_ok. by rewrite exact_obj. Qed.

Lemma index_zero : index_ok 0.
Proof. unfold index_ok, u64_max. lia. Qed.

Lemma exact_caller c : exact (json_caller c) = true.
Proof. by destruct c. Qed.

(** Literals whose indices and items are exact. *)
Ltac events_fit :=
  repeat match goal with
  | |- forallb _ [] = true => reflexivity
  | |- forallb _ (_ :: _) = true => cbn [forallb]
  | |- _ && _ = true => apply andb_true_intro; split
  | |- true = true => reflexivity
  | |- exact (snd (_, ?v)) = true => change (exact v = true)
  | |- event_ok (obj _) = true => apply event_ok_obj
  | |- event_ok (item_added _ _) = true => apply event_ok_obj
  | |- event_ok (item_done _ _) = true => apply event_ok_obj
  | |- event_ok (lifecycle _ _) = true => apply event_ok_obj
  | |- exact (Str _) = true => reflexivity
  | |- exact (json_u64 0) = true => reflexivity
  | |- exact (json_u64 _) = true => apply exact_index; eauto
  | |- exact (obj _) = true => apply exact_obj
  | |- exact (Arr ?l) = true => change (forallb exact l = true)
  end.

Section Steps.
Context `{J : SerdeJson} `{!SerdeJsonLaws J} `{Lowercase}.

(** The events of a part are written exactly and read as the relay says. *)
Definition part_step (rid : string) (st : Relay) (d : Decoder) (p : StreamPart)
    (out : list Value) (e' : Encoder) : Prop :=
  forallb event_ok out = true
  /\ exists d', decode_events d out = (fst (relay_part rid st p), d')
     /\ linked rid (snd (relay_part rid st p)) e' d'.

Lemma wrap32_ok n : index_ok (wrap32 n).
Proof.
  unfold index_ok, wrap32, u64_max. pose proof (Z.mod_pos_bound n 4294967296 ltac:(lia)). lia.
Qed.

Lemma known_index rid st e d id :
  linked rid st e d -> index_ok (default 0 (tool_output_indices (calls e) !! id)).
Proof.
  intros Hl. destruct (tool_output_indices (calls e) !! id) eqn:E; [|apply index_zero].
  eapply lk_indices; eauto.
Qed.

Lemma decode_text_opened d t i name :
  decode_events d
    [item_added i (obj [("id", Str name); ("type", Str "message"); ("role", Str "assistant");
                        ("status", Str "in_progress"); ("content", Arr [])]);
     obj [("type", Str "response.content_part.added"); ("output_index", json_u64 i);
          ("item_id", Str name); ("content_index", json_u64 0);
          ("part", obj [("type", Str "output_text"); ("text", Str "")])];
     obj [("type", Str "response.output_text.delta"); ("item_id", Str name);
          ("output_index", json_u64 i); ("content_index", json_u64 0); ("delta", Str t)]]
  = ([TextDelta t], d).
Proof. reflexivity. Qed.

Lemma text_step rid st e d t :
  linked rid st e d -> part_step rid st d (TextDelta t) (fst (text_delta e t)) (snd (text_delta e t)).
Proof.
  intros Hl. unfold text_delta. pose proof (lk_next _ _ _ _ Hl) as Hn.
  pose proof (lk_indices _ _ _ _ Hl) as Hi.
  destruct (text_output_index (text_item e)) as [i|] eqn:Ei; cbn [fst snd app default].
  - split; [events_fit|]. exists d. split; [reflexivity|]. destruct Hl. by split.
  - split; [events_fit|]. exists d. split; [apply decode_text_opened|].
    destruct Hl. split; try done; cbn; [apply wrap32_ok|].
    intros i [Hr|[[= <-]|Hc]]; eauto.
Qed.

Definition thought_opening (i : Z) (name : string) : list Value :=
  [item_added i (obj [("id", Str name); ("type", Str "reasoning"); ("status", Str "in_progress");
                      ("summary", Arr [])]);
   obj [("type", Str "response.reasoning_summary_part.added"); ("output_index", json_u64 i);
        ("item_id", Str name); ("summary_index", json_u64 0);
        ("part", obj [("type", Str "summary_text"); ("text", Str "")])]].

Definition thought_said (i : Z) (name t : string) : list Value :=
  if is_empty t then []
  else [obj [("type", Str "response.reasoning_summary_text.delta"); ("item_id", Str name);
             ("output_index", json_u64 i); ("summary_index", json_u64 0); ("delta", Str t)]].

Lemma decode_opening d i name :
  decode_events d (thought_opening i name)
  = ([], set_pending (Some name) (pending_reasoning_encrypted d) d).
Proof. by destruct d. Qed.

Lemma decode_said d i name t :
  decode_events d (thought_said i name t)
  = if is_empty t then ([], d)
    else ([ReasoningDelta t (pending_reasoning_id d) (pending_reasoning_encrypted d)],
          set_pending None None d).
Proof. unfold thought_said. by destruct (is_empty t). Qed.

Lemma said_linked rid st e d :
  linked rid st e d -> linked rid (said st) e (set_pending None None d).
Proof. by destruct 1. Qed.

Lemma reasoning_step rid st e d t id payload :
  linked rid st e d ->
  part_step rid st d (ReasoningDelta t id payload)
    (fst (reasoning_delta e t id payload)) (snd (reasoning_delta e t id payload)).
Proof.
  intros Hl. unfold reasoning_delta. cbn [reasoning reasoning_output_index].
  set (e1 := set_items _ _ _ _ _ e).
  assert (reasoning_item_id e1 = thought_name rid (think rid id payload st)) as Hname.
  { unfold reasoning_item_id, thought_name. cbn. destruct (lk_thought _ _ _ _ Hl) as [-> _].
    by rewrite (lk_encoder_id _ _ _ _ Hl). }
  rewrite Hname. set (st' := think rid id payload st) in *. set (name := thought_name rid st').
  change (next_output_index e1) with (next_output_index e).
  assert (forall i e' d', index_ok i -> linked rid st' e' d' ->
    part_step rid st d' (ReasoningDelta t id payload) (thought_said i name t) e') as Hsaid.
  { intros i e' d' Hi Hl'. split; [unfold thought_said; destruct (is_empty t); events_fit|].
    rewrite decode_said. cbn [relay_part]. fold st'. destruct (lk_unsaid _ _ _ _ Hl') as [Hu Hp].
    rewrite Hu, Hp. destruct (is_empty t); eexists; (split; [reflexivity|]); [done|].
    by apply said_linked. }
  destruct (reasoning_output_index (reasoning e)) as [i|] eqn:Ei; cbn [fst snd app default].
  - apply Hsaid; [eapply lk_indices; eauto|].
    assert (thinking st = true) as Ht by (apply (lk_thinking _ _ _ _ Hl); by rewrite Ei).
    subst st'. unfold think. cbn. rewrite Ht.
    destruct Hl as [? ? ? ? ? ? ? [Hi He] ? ? ? ? Hall ?].
    split; try done; cbn; rewrite ?Hi, ?He; try done.
    + intros j [[= <-]|[Hx|Hx]]; eauto.
  - assert (thinking st = false) as Ht.
    { destruct (thinking st) eqn:E; [|done]. apply (lk_thinking _ _ _ _ Hl) in E.
      rewrite Ei in E. by destruct E. }
    pose proof (lk_next _ _ _ _ Hl) as Hn. set (e2 := set_items _ _ _ _ _ _).
    assert (linked rid st' e2 (set_pending (Some name) (pending_reasoning_encrypted d) d)) as Hl'.
    { subst st' name e2. unfold think in *. cbn. rewrite Ht.
      destruct Hl as [? ? ? ? ? ? ? [Hi He] [? ?] ? ? ? Hall ?].
      split; try done; cbn; rewrite ?Hi, ?He; try done; [apply wrap32_ok|].
      intros j [[= <-]|[Hx|Hx]]; eauto. }
    destruct (Hsaid _ _ _ Hn Hl') as (Hok & d' & Hd & Hl2).
    split.
    { change (forallb event_ok (thought_opening (next_output_index e) name
                ++ thought_said (next_output_index e) name t) = true).
      rewrite forallb_app, Hok, andb_true_r. unfold thought_opening. events_fit. }
    exists d'. split; [|exact Hl2].
    change (decode_events d (thought_opening (next_output_index e) name
              ++ thought_said (next_output_index e) name t)
            = (fst (relay_part rid st (ReasoningDelta t id payload)), d')).
    by rewrite decode_responses_app, decode_opening, Hd.
Qed.

Lemma linked_known rid st e d current :
  linked rid st e d -> linked rid st e (set_known (function_calls d) current (saw_function_call d) d).
Proof. by destruct 1. Qed.

Lemma whole_linked rid st e d item :
  exact item = true -> linked rid st e d ->
  linked rid st (snd (whole_item e item)) d
  /\ forallb event_ok (fst (whole_item e item)) = true.
Proof.
  intros Hx Hl. pose proof (lk_next _ _ _ _ Hl) as Hn. unfold whole_item. cbn [fst snd]. split.
  - destruct Hl. split; try done; cbn; [apply wrap32_ok|].
    rewrite forallb_app. by apply andb_true_intro; split; [|cbn; rewrite Hx].
  - events_fit; done.
Qed.

Lemma program_step rid st e d p item :
  (exists id ci code fp, p = ProgramDelta id ci code fp /\ item = program_item id ci code fp)
  \/ (exists id ci r s, p = ProgramOutputDelta id ci r s /\ item = program_output_item id ci r s) ->
  linked rid st e d -> part_step rid st d p (fst (whole_item e item)) (snd (whole_item e item)).
Proof.
  intros Hp Hl. destruct Hp as [(id & ci & x & y & -> & ->)|(id & ci & x & y & -> & ->)].
  - destruct (whole_linked rid st e d (program_item id ci x y) eq_refl Hl) as [Hl' Hok].
    split; [exact Hok|]. eexists. split; [reflexivity|]. by destruct Hl'.
  - destruct (whole_linked rid st e d (program_output_item id ci x y) eq_refl Hl) as [Hl' Hok].
    split; [exact Hok|]. eexists. split; [reflexivity|]. by destruct Hl'.
Qed.

Lemma lookup_or_insert_opt {A} id (o : option A) (m : gmap string A) k :
  m !! id = None -> (or_insert_opt id o m) !! k = if decide (k = id) then o else m !! k.
Proof.
  intros Hm. unfold or_insert_opt, or_insert_key. destruct o as [v|]; [rewrite Hm|];
    destruct (decide (k = id)) as [->|Hk]; rewrite ?lookup_insert_eq, ?lookup_insert_ne by done; done.
Qed.

Lemma append_step rid st e d id args name :
  linked rid st e d -> function_calls d !! wire_item_id (calls e) id = Some (id, name) ->
  forallb event_ok (fst (append_tool_arguments id args e)) = true
  /\ decode_events d (fst (append_tool_arguments id args e)) = ([fragment id args None], d)
  /\ linked rid st (snd (append_tool_arguments id args e)) d.
Proof.
  intros Hl Hw. pose proof (known_index _ _ _ _ id Hl) as Hi. pose proof (lk_plain _ _ _ _ Hl) as Hp.
  unfold append_tool_arguments. cbn [fst snd]. split_and!.
  - destruct (String.eqb _ _); events_fit; done.
  - cbn [tool_wire_types]. rewrite Hp, lookup_empty. change (wire_item_id _ id) with (wire_item_id (calls e) id).
    change (String.eqb (default "function_call" None) "custom_tool_call") with false. cbn iota.
    set (w := wire_item_id (calls e) id) in *. cbn [decode_events].
    match goal with |- context [decode_event d ?v] =>
      change (decode_event d v) with ([fragment (fragment_call d v) args None], d);
      assert (fragment_call d v = id) as -> end; [|done].
    unfold fragment_call. match goal with |- context [as_str ?v] => change (as_str v) with (Some w) end.
    cbn [mbind option_bind]. by rewrite Hw.
  - by destruct Hl.
Qed.

Lemma decode_opened d idx id w n caller :
  id <> "" ->
  decode_event d (item_added idx (set_opt "caller" (json_caller <$> caller)
                                    (opened_item w id n "function_call")))
  = ([ToolCallDelta id (Some n) "" None (dual_item_id w id) caller],
     set_known (<[w := (id, Some n)]> (function_calls d)) (Some id) true d).
Proof. intros Hid. destruct id as [|a s]; [done|]. by destruct caller as [[|cid]|]. Qed.

Definition opens (st : Relay) (id : string) (item_id : option string) : Prop :=
  id <> "" /\ (id ∉ map fst (wires st)) /\ (default id (not_empty item_id) ∉ map snd (wires st)).

Lemma open_step rid st e d id n item_id caller :
  linked rid st e d -> opens st id item_id ->
  let w := default id (not_empty item_id) in
  let e' := snd (open_tool_call id n None item_id caller e) in
  let d' := set_known (<[w := (id, Some n)]> (function_calls d)) (Some id) true d in
  forallb event_ok (fst (open_tool_call id n None item_id caller e)) = true
  /\ decode_events d (fst (open_tool_call id n None item_id caller e))
     = ([ToolCallDelta id (Some n) "" None (dual_item_id w id) caller], d')
  /\ linked rid (with_wire id item_id st) e' d' /\ wire_item_id (calls e') id = w.
Proof.
  intros Hl (Hid & Hf & Hw) w e' d'. pose proof (lk_next _ _ _ _ Hl) as Hn.
  destruct (lk_fresh _ _ _ _ Hl id Hf) as (Hx & Hi & Hc).
  assert (wire_item_id (calls e') id = w) as Hwire.
  { subst e'. unfold open_tool_call, wire_item_id. rewrite Hx. cbn.
    rewrite lookup_or_insert_opt by done. by rewrite decide_True. }
  assert (fst (open_tool_call id n None item_id caller e)
          = [item_added (next_output_index e)
               (set_opt "caller" (json_caller <$> caller) (opened_item w id n "function_call"))]) as ->.
  { unfold open_tool_call, wire_item_id. rewrite Hx. cbn [fst tool_item_ids tool_callers].
    by rewrite !lookup_or_insert_opt, !decide_True by done. }
  split_and!; [| | |exact Hwire].
  - events_fit. apply exact_set_opt; [done|reflexivity|].
    intros v. destruct caller as [c|]; [|done]. intros [= <-]. apply exact_caller.
  - cbn [decode_events]. by rewrite decode_opened.
  - subst e'. unfold open_tool_call in *. rewrite Hx in *. cbn [snd] in *.
    destruct Hl as [H1 H2 H3 H4 H5 H6 H7 H8 H9 H10 H11 H12 H13 H14]. split; try done; cbn.
    + intros k v [Hk|Hk%list_elem_of_singleton]%elem_of_app.
      * destruct (H5 k v Hk) as (Ha & Hb & Hd).
        assert (k <> id) as Hki by (intros ->; by apply Hf, (list_elem_of_fmap_2 fst _ _ Hk)).
        assert (v <> w) as Hvw by (intros ->; by apply Hw, (list_elem_of_fmap_2 snd _ _ Hk)).
        unfold or_insert_key, wire_item_id in *. cbn. rewrite Hx, !lookup_insert_ne, lookup_or_insert_opt by done.
        by rewrite decide_False.
      * injection Hk as -> ->. unfold or_insert_key. rewrite Hx, !lookup_insert_eq. by split_and!.
    + intros k Hk. rewrite map_app, not_elem_of_app in Hk. destruct Hk as [Hk Hne].
      cbn in Hne. rewrite list_elem_of_singleton in Hne. destruct (H6 k Hk) as (Ha & Hb & Hd).
      unfold or_insert_key. rewrite Hx, lookup_insert_ne, !lookup_or_insert_opt, !decide_False by done. done.
    + apply wrap32_ok.
    + intros j [Hj|[Hj|(k & Hj)]]; [eauto..|]. unfold or_insert_key in Hj. rewrite Hx in Hj.
      apply lookup_insert_Some in Hj as [[_ <-]|[_ Hj]]; eauto.
Qed.

Lemma content_step rid st e d p :
  linked rid st e d -> part_fits st p = true ->
  part_step rid st d p (fst (part_events e p)) (snd (part_events e p)).
Proof.
  intros Hl Hp. destruct p as [t|t i en|id [n|] args wt it ca|id ci code fp|id ci r s| | | | |]; try done;
    cbn [part_events].
  - by apply text_step.
  - by apply reasoning_step.
  - cbn in Hp. apply andb_prop in Hp as [Hp Hw%negb_true_iff%bool_decide_eq_false].
    apply andb_prop in Hp as [Hp Hf%negb_true_iff%bool_decide_eq_false].
    apply andb_prop in Hp as [Hwt Hid%negb_true_iff]. destruct wt; [done|].
    assert (id <> "") as Hid' by (by intros ->).
    destruct (open_step rid st e d id n it ca Hl (conj Hid' (conj Hf Hw))) as (Hok & Hd & Hl' & Hwire).
    destruct (open_tool_call id n None it ca e) as [out e1]. cbn [fst snd] in *.
    unfold part_step. cbn [relay_part fst snd]. destruct (is_empty args); [split; [done|eauto]|].
    destruct (append_step rid _ e1 _ id args (Some n) Hl') as (Hok' & Hd' & Hl2).
    { rewrite Hwire. cbn. by rewrite lookup_insert_eq. }
    destruct (append_tool_arguments id args e1) as [q e2]. cbn [fst snd] in *.
    rewrite forallb_app, Hok, Hok'. split; [done|]. eexists. split; [|exact Hl2].
    by rewrite decode_responses_app, Hd, Hd'.
  - cbn in Hp. apply bool_decide_eq_true in Hp.
    apply list_elem_of_fmap in Hp as ((k & w) & Hk & Hin). cbn in Hk. subst k.
    destruct (lk_known _ _ _ _ Hl id w Hin) as (_ & Hw & Hfc).
    destruct (function_calls d !! w) as [[k nm]|] eqn:Efc; [|done]. cbn in Hfc. injection Hfc as ->.
    destruct (append_step rid st e d id args nm Hl) as (Hok & Hd & Hl2); [by rewrite Hw|].
    split; [done|]. eauto.
  - apply program_step; [left; by eexists _, _, _, _|done].
  - apply program_step; [right; by eexists _, _, _, _|done].
Qed.

Lemma linked_numbered rid st e d n :
  in_u64 n = true -> linked rid st e d -> linked rid st (set_sequence n e) d.
Proof. intros Hn []. by split. Qed.

Lemma after_events_ok n l : in_u64 (after_events n l) = true.
Proof.
  apply in_u64_iff. unfold after_events, wrap64, u64_max.
  pose proof (Z.mod_pos_bound (n + Z.of_nat (length l)) 18446744073709551616). lia.
Qed.

(** The frames of the parts are written exactly, and read as [q]. *)
Definition reads (d : Decoder) (e : Encoder) (parts : list StreamPart) (q : list StreamPart) : Prop :=
  forallb frame_ok (stream_frames e parts) = true
  /\ exists d', decode_frames d (stream_frames e parts) = (q, d').

Lemma reads_cons d e p rest out e1 q d1 q' :
  part_events e p = (out, e1) -> forallb event_ok out = true -> decode_events d out = (q, d1) ->
  in_u64 (sequence_number e1) = true ->
  reads d1 (set_sequence (after_events (sequence_number e1) out) e1) rest q' ->
  reads d e (p :: rest) (q ++ (if completes p then [end_part d1 "completed"] else []) ++ q').
Proof.
  intros Hp Hok Hd Hn (Hr & d2 & Hd2). unfold reads. cbn [stream_frames]. unfold part_frames. rewrite Hp.
  split.
  - rewrite !forallb_app, Hr, stamped_ok by done. by destruct p.
  - exists d2. rewrite !decode_frames_app, decode_stamped, Hd by done.
    by destruct p; cbn; rewrite Hd2, ?app_nil_r, <- ?app_assoc.
Qed.

Lemma reads_content rid st e d parts rest q :
  linked rid st e d -> parts_fit rid st parts = true ->
  (forall e' d', linked rid (snd (relay rid st parts)) e' d' -> reads d' e' rest q) ->
  reads d e (parts ++ rest) (fst (relay rid st parts) ++ q).
Proof.
  revert st e d. induction parts as [|p parts IH]; intros st e d Hl Hp Hr; [by apply Hr|].
  cbn [parts_fit] in Hp. apply andb_prop in Hp as [Hp Hps].
  destruct (content_step rid st e d p Hl Hp) as (Hok & d1 & Hd & Hl1).
  assert (completes p = false) as Hdone by (by destruct p).
  cbn [relay app] in *. destruct (part_events e p) as [out e1] eqn:Ep.
  destruct (relay_part rid st p) as [q1 st1]. cbn [fst snd] in *.
  pose proof (IH st1 _ d1 (linked_numbered _ _ _ _ _ (after_events_ok (sequence_number e1) out) Hl1) Hps) as IH1.
  destruct (relay rid st1 parts) as [q2 st2]. cbn [fst snd] in *. rewrite <- app_assoc.
  pose proof (reads_cons d e p (parts ++ rest) out e1 q1 d1 (q2 ++ q) Ep Hok Hd
                (lk_sequence _ _ _ _ Hl1) (IH1 Hr)) as Hc.
  by rewrite Hdone in Hc.
Qed.

(** ** The end of the stream *)

Record closing (rid : string) (saw : bool) (e : Encoder) (d : Decoder) : Prop := {
  cl_id : d_response_id d = Some rid;
  cl_tools : saw_function_call d = saw;
  cl_plain : tool_wire_types (calls e) = ∅;
  cl_sequence : in_u64 (sequence_number e) = true;
  cl_reasoning : forall i, reasoning_output_index (reasoning e) = Some i -> index_ok i;
  cl_text : forall i, text_output_index (text_item e) = Some i -> index_ok i;
  cl_indices : forall id i, tool_output_indices (calls e) !! id = Some i -> index_ok i;
  cl_programs : forallb (fun x => exact (snd x)) (program_items e) = true;
}.

Lemma linked_closing rid st e d : linked rid st e d -> closing rid (tools st) e d.
Proof.
  intros Hl. pose proof (lk_indices _ _ _ _ Hl). destruct Hl. split; eauto.
Qed.

Lemma close_call_read d c status id :
  tool_wire_types c = ∅ ->
  exists fc, decode_events d (close_tool_call c status id)
             = ([], set_known fc None (saw_function_call d) d).
Proof.
  intros Hp. unfold close_tool_call. rewrite Hp, lookup_empty. cbn [default from_option].
  destruct (tool_callers c !! id) as [[]|]; eexists; reflexivity.
Qed.

Lemma close_calls_read d status e :
  tool_wire_types (calls e) = ∅ ->
  exists d', decode_events d (fst (close_tool_calls status e)) = ([], d')
    /\ d_response_id d' = d_response_id d /\ saw_function_call d' = saw_function_call d.
Proof.
  intros Hp. unfold close_tool_calls. cbn [fst]. revert d.
  induction (List.filter _ _) as [|id l IH]; intros d; [by exists d|].
  cbn [flat_map]. destruct (close_call_read d (calls e) status id Hp) as [fc Hd].
  destruct (IH (set_known fc None (saw_function_call d) d)) as (d' & Hd' & H1 & H2).
  exists d'. split; [|done]. by rewrite decode_responses_app, Hd, Hd'.
Qed.

Lemma close_call_ok rid saw e d status id :
  closing rid saw e d -> forallb event_ok (close_tool_call (calls e) status id) = true.
Proof.
  intros Hc. unfold close_tool_call. rewrite (cl_plain _ _ _ _ Hc), lookup_empty. cbn [default from_option].
  assert (index_ok (default 0 (tool_output_indices (calls e) !! id))) as Hi.
  { destruct (tool_output_indices (calls e) !! id) eqn:E; [by eapply cl_indices|apply index_zero]. }
  cbn [String.eqb Ascii.eqb Bool.eqb app]. events_fit.
  apply exact_set_opt; [done|reflexivity|]. intros v.
  destruct (tool_callers (calls e) !! id); [|done]. intros [= <-]. apply exact_caller.
Qed.

Lemma close_calls_ok rid saw e d status :
  closing rid saw e d -> forallb event_ok (fst (close_tool_calls status e)) = true.
Proof.
  intros Hc. unfold close_tool_calls. cbn [fst]. induction (List.filter _ _) as [|id l IH]; [done|].
  cbn [flat_map]. rewrite forallb_app, IH. by erewrite close_call_ok.
Qed.

Lemma closed_calls rid saw e d status :
  closing rid saw e d -> closing rid saw (snd (close_tool_calls status e)) d.
Proof. by destruct 1. Qed.

(** What the reasoning item says at its end. *)
Definition last_thought (rid : string) (st : Relay) : list StreamPart :=
  if thinking st then [ReasoningDelta "" (Some (thought_name rid st)) (thought_payload st)] else [].

Lemma exact_closed_reasoning status e : exact (closed_reasoning status e) = true.
Proof.
  apply exact_set_opt; [done| |].
  - unfold summary_parts. by destruct (is_empty _).
  - intros v. destruct (reasoning_encrypted (reasoning e)); [|done]. by intros [= <-].
Qed.

Lemma close_items_ok rid saw e d status :
  closing rid saw e d -> forallb event_ok (close_reasoning status e ++ close_text e) = true.
Proof.
  intros Hc. rewrite forallb_app. apply andb_true_intro. unfold close_reasoning, close_text. split.
  - destruct (reasoning_output_index (reasoning e)) as [i|] eqn:Ei; [|done].
    pose proof (cl_reasoning _ _ _ _ Hc i Ei). events_fit. apply exact_closed_reasoning.
  - destruct (text_output_index (text_item e)) as [i|] eqn:Ei; [|done].
    pose proof (cl_text _ _ _ _ Hc i Ei). by events_fit.
Qed.

Lemma close_items_read rid st e d status :
  linked rid st e d ->
  exists d', decode_events d (close_reasoning status e ++ close_text e) = (last_thought rid st, d')
    /\ d_response_id d' = d_response_id d /\ saw_function_call d' = saw_function_call d.
Proof.
  intros Hl. assert (forall d0, exists d', decode_events d0 (close_text e) = ([], d')
    /\ d_response_id d' = d_response_id d0 /\ saw_function_call d' = saw_function_call d0) as Ht.
  { intros d0. unfold close_text. destruct (text_output_index (text_item e)); by eexists. }
  unfold last_thought. destruct (lk_thought _ _ _ _ Hl) as [Hi He].
  destruct (lk_unsaid _ _ _ _ Hl) as [Hu Hp]. unfold close_reasoning.
  destruct (reasoning_output_index (reasoning e)) as [i|] eqn:Ei.
  - replace (thinking st) with true by (symmetry; apply (lk_thinking _ _ _ _ Hl); by rewrite Ei).
    assert (reasoning_item_id e = thought_name rid st) as Hn.
    { unfold reasoning_item_id, thought_name. by rewrite Hi, (lk_encoder_id _ _ _ _ Hl). }
    rewrite Hn. set (d1 := set_known (function_calls d) None (saw_function_call d) (set_pending None None d)).
    destruct (Ht d1) as (d' & Hd' & H1 & H2). exists d'. split; [|done].
    rewrite decode_responses_app.
    assert (decode_events d
      [obj [("type", Str "response.reasoning_summary_text.done"); ("output_index", json_u64 i);
            ("item_id", Str (thought_name rid st)); ("summary_index", json_u64 0)];
       obj [("type", Str "response.reasoning_summary_part.done"); ("output_index", json_u64 i);
            ("item_id", Str (thought_name rid st)); ("summary_index", json_u64 0)];
       item_done i (closed_reasoning status e)]
      = ([ReasoningDelta "" (Some (thought_name rid st)) (thought_payload st)], d1)) as ->.
    { unfold closed_reasoning. rewrite Hn, <- He. subst d1. unfold summary_parts.
      destruct d as [? ? ? ? pid penc ?]. cbn in Hp. rewrite Hp in *.
      by destruct (is_empty _), (reasoning_encrypted (reasoning e)). }
    by rewrite Hd'.
  - replace (thinking st) with false.
    { destruct (Ht d) as (d' & Hd' & Hx). by exists d'. }
    destruct (thinking st) eqn:E; [|done]. apply (lk_thinking _ _ _ _ Hl) in E.
    rewrite Ei in E. by destruct E.
Qed.

Lemma sum_usage_ok u : usage_ok u -> usage_ok (sum_usage u).
Proof.
  unfold usage_ok, sum_usage, u64_max. cbn. intros (? & ? & ? & ? & Hr & ?). split_and!; try done;
    unfold drop_zero; destruct (reasoning_tokens u) as [n|]; cbn in *; try lia;
    destruct (Z.ltb_spec 0 n); cbn; lia.
Qed.

Lemma stream_usage_read u : usage_ok u -> stream_usage (responses_usage_json (sum_usage u)) = relayed_usage u.
Proof.
  intros Hu%sum_usage_ok. unfold stream_usage. rewrite !get_responses_usage by done.
  cbn [String.eqb Ascii.eqb Bool.eqb sum_usage prompt_tokens completion_tokens reasoning_tokens
       cache_read_tokens cache_write_tokens total_tokens relayed_response_usage].
  assert (forall r w, nonempty_obj (details_lit r w) ≫= (fun d => as_u64 d.["cached_tokens"]) = drop_zero r
                      /\ nonempty_obj (details_lit r w) ≫= (fun d => as_u64 d.["cache_write_tokens"]) = drop_zero w) as Hd
    by (intros r w; unfold details_lit; by destruct (drop_zero w), (drop_zero r)).
  destruct (Hd (cache_read_tokens u) (cache_write_tokens u)) as [-> ->].
  destruct Hu as (Hp & Hc & Hr & Hw & _). cbn in Hp, Hc, Hr, Hw.
  unfold relayed_usage. f_equal.
  - cbn. rewrite !drop_zero_default by done. unfold sat_sub. lia.
  - by destruct (drop_zero (reasoning_tokens u)).
Qed.

Lemma exact_responses_usage u : usage_ok u -> exact (responses_usage_json u) = true.
Proof.
  intros (Hp & Hc & Hr & Hw & Ht & Hs). unfold responses_usage_json. cbv zeta.
  assert (forall x, index_ok (wrap64 x)) as Hwrap.
  { intros x. unfold index_ok, wrap64, u64_max. pose proof (Z.mod_pos_bound x 18446744073709551616). lia. }
  apply exact_set_opt; [auto 6 with body| |].
  - apply exact_set_opt; [auto with body| |].
    + events_fit. unfold index_ok. lia.
    + intros v. unfold positive_member.
      assert (index_ok (default 0 (cache_read_tokens u)) /\ index_ok (default 0 (cache_write_tokens u))) as [H1 H2]
        by (unfold index_ok; lia).
      apply exact_index in H1, H2. cbn in H1, H2.
      destruct (0 <? default 0 (cache_read_tokens u)), (0 <? default 0 (cache_write_tokens u)); cbn;
        try done; intros [= <-]; cbn; by rewrite ?H1, ?H2.
  - intros v. destruct (reasoning_tokens u) as [n|]; [|done]. intros [= <-].
    cbn in Ht. by events_fit.
Qed.

Lemma exact_snapshot_call c status id :
  tool_wire_types c = ∅ -> exact (snapshot_call c status id) = true.
Proof.
  intros Hp. unfold snapshot_call. rewrite Hp, lookup_empty. cbn [default from_option].
  apply exact_set_opt; [done|reflexivity|]. intros v.
  destruct (tool_callers c !! id); [|done]. intros [= <-]. apply exact_caller.
Qed.

Lemma exact_snapshot rid saw e d status :
  closing rid saw e d -> forallb exact (snapshot status e) = true.
Proof.
  intros Hc. unfold snapshot, sort_by_index.
  assert (Forall (fun x => exact (snd x) = true) (indexed_output status e)) as Hall.
  { unfold indexed_output. rewrite !Forall_app. split_and!.
    - destruct (reasoning_output_index _); [|done]. constructor; [apply exact_closed_reasoning|done].
    - destruct (text_output_index _); [|done]. by constructor.
    - pose proof (cl_programs _ _ _ _ Hc) as Hp. clear -Hp.
      induction (program_items e) as [|x l IH]; [done|]. cbn in Hp. apply andb_prop in Hp as [? ?].
      constructor; auto.
    - apply Forall_map, Forall_forall. intros id _. cbn. apply exact_snapshot_call, Hc. }
  apply forallb_forall. intros v Hv. apply list_elem_of_In, list_elem_of_fmap in Hv as (x & -> & Hx).
  rewrite sort_by_perm in Hx. by eapply Forall_forall in Hall.
Qed.

Lemma terminal_ok rid saw e d status :
  closing rid saw e d -> (forall u, pending_usage e = Some u -> usage_ok u) ->
  forallb event_ok (fst (completed_event status e)) = true.
Proof.
  intros Hc Hu. unfold completed_event. cbn [fst]. events_fit.
  apply exact_set_opt; [auto with body| |].
  - apply exact_set_opt; [done|reflexivity|]. intros v.
    destruct (pending_usage e) as [u|]; [|done]. intros [= <-]. by apply exact_responses_usage, sum_usage_ok, Hu.
  - intros v. unfold nonempty_arr. pose proof (exact_snapshot _ _ _ _ status Hc).
    destruct (snapshot status e); [done|]. by intros [= <-].
Qed.

Lemma finish_status saw reason : finish_of_status saw (status_str reason) = relayed_finish saw reason.
Proof. by destruct saw, reason. Qed.

Lemma terminal_read rid saw e d reason :
  closing rid saw e d -> (forall u, pending_usage e = Some u -> usage_ok u) ->
  decode_events d (fst (completed_event (status_str reason) e))
  = (option_list ((UsagePart ∘ relayed_usage) <$> pending_usage e)
     ++ [FinishPart (relayed_finish saw reason); ResponseCompleted rid "completed" None ∅], d).
Proof.
  intros Hc Hu. unfold completed_event. cbn [fst decode_events]. set (r := set_opt "output" _ _).
  change (decode_event d (obj [("type", Str "response.completed"); ("response", r)]))
    with (decode_completed d r, d). cbn iota.
  unfold decode_completed, end_part, index. subst r.
  rewrite !get_set_opt_if, get_obj by auto with body. cbn [String.eqb Ascii.eqb Bool.eqb rev app].
  cbn [or_else assoc String.eqb Ascii.eqb Bool.eqb].
  rewrite (cl_tools _ _ _ _ Hc), (cl_id _ _ _ _ Hc). cbn [default from_option id].
  match goal with |- context [str_or "completed" ?v] =>
    change (str_or "completed" v) with (status_str reason) end.
  rewrite finish_status, app_nil_r.
  destruct (pending_usage e) as [u|]; [|done]. cbn -[responses_usage_json stream_usage is_object].
  rewrite stream_usage_read by auto.
  replace (is_object (responses_usage_json (sum_usage u))) with true; [done|].
  symmetry. unfold responses_usage_json. auto 6 with body.
Qed.

Lemma closing_later rid saw e d u sent status n :
  closing rid saw e d -> in_u64 n = true -> closing rid saw (set_sequence n (set_terminal u sent status e)) d.
Proof. intros [] Hn. by split. Qed.

Lemma closing_read rid saw e d d' :
  closing rid saw e d -> d_response_id d' = d_response_id d -> saw_function_call d' = saw_function_call d ->
  closing rid saw e d'.
Proof. intros [] H1 H2. split; try done; congruence. Qed.

(** The parts that end a response. *)
Definition ends_with (usage : option Usage) (reason : FinishReason) (l : list StreamPart) : Prop :=
  match usage with
  | Some u => usage_ok u /\ (l = [FinishPart reason; UsagePart u] \/ l = [UsagePart u; FinishPart reason])
  | None => l = [FinishPart reason]
  end.

(** The events that close the items, in one. *)
Lemma closings rid st e d reason :
  linked rid st e d ->
  let status := status_str reason in
  let out := (close_reasoning status e ++ close_text e) ++ fst (close_tool_calls status e) in
  forallb event_ok out = true
  /\ exists d', decode_events d out = (last_thought rid st, d')
     /\ closing rid (tools st) (snd (close_tool_calls status e)) d'.
Proof.
  intros Hl status out. pose proof (linked_closing _ _ _ _ Hl) as Hc. subst out. split.
  - rewrite forallb_app. erewrite close_items_ok, close_calls_ok by done. done.
  - destruct (close_items_read rid st e d status Hl) as (d1 & Hd1 & H1 & H2).
    destruct (close_calls_read d1 status e (lk_plain _ _ _ _ Hl)) as (d2 & Hd2 & H3 & H4).
    exists d2. rewrite decode_responses_app, Hd1, Hd2, app_nil_r. split; [done|].
    apply closed_calls. eapply closing_read; [done|congruence..].
Qed.

Lemma reads_done rid saw e d i s u x :
  closing rid saw e d -> completed_sent e = true ->
  reads d e [ResponseCompleted i s u x] [ResponseCompleted rid "completed" None ∅].
Proof.
  intros Hc Hs.
  replace [ResponseCompleted rid "completed" None ∅]
    with ([] ++ [end_part d "completed"] ++ []) by (unfold end_part; by rewrite (cl_id _ _ _ _ Hc)).
  apply (reads_cons d e (ResponseCompleted i s u x) [] [] e [] d []); [|done|done|apply Hc|].
  - cbn. unfold completed_part. by rewrite Hs.
  - split; [done|by exists d].
Qed.

Lemma reads_eq d e l q q' : reads d e l q -> q = q' -> reads d e l q'.
Proof. by intros ? <-. Qed.

(** The finish reason, before the usage is known. *)
Lemma finish_waits e reason :
  completed_sent e = false -> pending_usage e = None -> pending_finish_status e = None ->
  part_events e (FinishPart reason)
  = ((close_reasoning (status_str reason) e ++ close_text e) ++ fst (close_tool_calls (status_str reason) e),
     set_terminal None false (Some (status_str reason)) (snd (close_tool_calls (status_str reason) e))).
Proof. intros Hs Hu Hp. cbn [part_events]. unfold finish_part. rewrite Hs, Hp. cbn. by rewrite Hu, Hs. Qed.

Lemma usage_ends e u reason :
  completed_sent e = false -> pending_finish_status e = Some reason ->
  part_events e (UsagePart u) = completed_event reason (set_terminal (Some u) false None e).
Proof. intros Hs Hp. cbn [part_events]. unfold usage_part. by rewrite Hs, Hp. Qed.

Lemma completes_sent status e :
  completed_event status e
  = (fst (completed_event status e), set_terminal None true (pending_finish_status e) e).
Proof. done. Qed.

Lemma reads_finish_usage rid st e d reason u i s uu x :
  linked rid st e d -> usage_ok u ->
  reads d e [FinishPart reason; UsagePart u; ResponseCompleted i s uu x]
    (last_thought rid st ++ [UsagePart (relayed_usage u)]
     ++ [FinishPart (relayed_finish (tools st) reason); ResponseCompleted rid "completed" None ∅;
         ResponseCompleted rid "completed" None ∅]).
Proof.
  intros Hl Hu. destruct (lk_running _ _ _ _ Hl) as (Hs & Hpu & Hpf).
  destruct (closings rid st e d reason Hl) as (Hok & d1 & Hd & Hc).
  set (e1 := snd (close_tool_calls (status_str reason) e)) in *.
  eapply reads_eq; [eapply reads_cons; [by apply finish_waits|exact Hok|exact Hd|apply Hc|]|].
  - set (e2 := set_sequence _ _).
    set (e3 := set_terminal (Some u) false None e2).
    assert (closing rid (tools st) e3 d1) as Hc3 by (by destruct Hc; split; try done; apply after_events_ok).
    assert (forall v, pending_usage e3 = Some v -> usage_ok v) as Hv by (by intros v [= <-]).
    eapply reads_cons.
    + by rewrite (usage_ends e2 u (status_str reason)), completes_sent.
    + by eapply terminal_ok.
    + by eapply terminal_read.
    + apply Hc3.
    + eapply reads_done; [|done]. destruct Hc3; split; try done; apply after_events_ok.
  - done.
Qed.

Lemma reads_usage_finish rid st e d reason u i s uu x :
  linked rid st e d -> usage_ok u ->
  reads d e [UsagePart u; FinishPart reason; ResponseCompleted i s uu x]
    (last_thought rid st ++ [UsagePart (relayed_usage u)]
     ++ [FinishPart (relayed_finish (tools st) reason); ResponseCompleted rid "completed" None ∅;
         ResponseCompleted rid "completed" None ∅]).
Proof.
  intros Hl Hu. destruct (lk_running _ _ _ _ Hl) as (Hs & Hpu & Hpf).
  destruct (closings rid st e d reason Hl) as (Hok & d1 & Hd & Hc).
  eapply reads_eq; [eapply (reads_cons d e _ _ [] (set_terminal (Some u) false None e) [] d)|].
  - cbn [part_events]. unfold usage_part. by rewrite Hs, Hpf.
  - done.
  - done.
  - apply (lk_sequence _ _ _ _ Hl).
  - set (e1 := set_sequence _ _). set (e2 := snd (close_tool_calls (status_str reason) e1)).
    assert (closing rid (tools st) e2 d1) as Hc2 by (destruct Hc; split; try done; apply after_events_ok).
    assert (forall v, pending_usage e2 = Some v -> usage_ok v) as Hv by (by intros v [= <-]).
    eapply reads_cons with (out := ((close_reasoning (status_str reason) e ++ close_text e)
        ++ fst (close_tool_calls (status_str reason) e)) ++ fst (completed_event (status_str reason) e2)).
    + cbn [part_events]. unfold finish_part. cbn -[completed_event]. by rewrite <- app_assoc.
    + rewrite forallb_app, Hok. by eapply terminal_ok.
    + by rewrite decode_responses_app, Hd, (terminal_read _ _ _ _ reason Hc2 Hv).
    + apply Hc2.
    + eapply reads_done; [|done]. destruct Hc2; split; try done; apply after_events_ok.
  - cbn. by rewrite <- app_assoc.
Qed.

Lemma reads_finish rid st e d reason i s uu x :
  linked rid st e d ->
  reads d e [FinishPart reason; ResponseCompleted i s uu x]
    (last_thought rid st
     ++ [FinishPart (relayed_finish (tools st) reason); ResponseCompleted rid "completed" None ∅;
         ResponseCompleted rid "completed" None ∅]).
Proof.
  intros Hl. destruct (lk_running _ _ _ _ Hl) as (Hs & Hpu & Hpf).
  destruct (closings rid st e d reason Hl) as (Hok & d1 & Hd & Hc).
  set (e1 := snd (close_tool_calls (status_str reason) e)) in *.
  set (e2 := set_terminal None false (Some (status_str reason)) e1).
  destruct (close_calls_read d1 (status_str reason) e2 (cl_plain _ _ _ _ Hc)) as (d2 & Hd2 & H1 & H2).
  eapply reads_eq; [eapply reads_cons; [by apply finish_waits|exact Hok|exact Hd|apply Hc|]|].
  - set (e3 := set_sequence _ _).
    set (e4 := snd (close_tool_calls (status_str reason) (set_terminal None false None e3))).
    assert (closing rid (tools st) e4 d2) as Hc4.
    { eapply closing_read; [|exact H1|exact H2]. destruct Hc; split; try done; apply after_events_ok. }
    assert (forall v, pending_usage e4 = Some v -> usage_ok v) as Hv by done.
    eapply reads_cons with (out := fst (close_tool_calls (status_str reason) e2)
                                   ++ fst (completed_event (status_str reason) e4)).
    + done.
    + rewrite forallb_app. erewrite (close_calls_ok rid (tools st) e2 d1) by (by destruct Hc).
      by eapply terminal_ok.
    + by rewrite decode_responses_app, Hd2, (terminal_read _ _ _ _ reason Hc4 Hv).
    + apply Hc4.
    + split; [done|by eexists].
  - cbn. unfold end_part. by rewrite H1, (cl_id _ _ _ _ Hc).
Qed.

End Steps.

Lemma linked_response rid n :
  in_u64 n = true ->
  linked rid Relay_new (set_sequence n (set_response_id rid Encoder_new)) (set_started rid Decoder_new).
Proof.
  intros Hn. split; try done; cbn.
  - by intros id w ?%not_elem_of_nil.
  - by split; [intros []|].
  - intros j [?|[?|(? & ?)]]; done.
Qed.

Lemma reads_end `{J : SerdeJson} `{!SerdeJsonLaws J} `{Lowercase} rid st e d usage reason ending i s uu x :
  linked rid st e d -> ends_with usage reason ending ->
  reads d e (ending ++ [ResponseCompleted i s uu x]) (relay_end rid usage reason st).
Proof.
  intros Hl. destruct usage as [u|]; cbn.
  - intros [Hu [->| ->]]; [by apply reads_finish_usage|by apply reads_usage_finish].
  - intros ->. by apply reads_finish.
Qed.

(** C35: A Responses stream survives the wire.  A response made of texts,
    reasoning, programs and parallel function calls whose fragments may be
    interleaved, ended by a finish reason, with its usage before or after it or
    without one, is encoded to bytes; the decoder fed with their lines returns
    the parts in order.  Calls keep their ids, item ids and callers, fragments
    the call they belong to; the reasoning id comes with the first reasoning
    text and again, with the encrypted payload, at the end of the item; the
    finish reason says that a tool is called if one is; the end is reported
    once for [response.completed] and once for the end marker. *)
Theorem responses_stream_roundtrip `{J : SerdeJson} `{Lowercase} rid body usage reason ending i s uu x :
  SerdeJsonLaws J -> parts_fit rid Relay_new body = true -> ends_with usage reason ending ->
  exists d, feed_lines feed Decoder_new
      (split LF (encode_parts (ResponseStarted rid :: body ++ ending ++ [ResponseCompleted i s uu x])))
    = Ok (Ok (ResponseStarted rid :: fst (relay rid Relay_new body)
              ++ relay_end rid usage reason (snd (relay rid Relay_new body))), d).
Proof.
  intros HJ Hb He.
  assert (reads Decoder_new Encoder_new (ResponseStarted rid :: body ++ ending ++ [ResponseCompleted i s uu x])
    ([ResponseStarted rid] ++ [] ++ fst (relay rid Relay_new body)
     ++ relay_end rid usage reason (snd (relay rid Relay_new body)))) as (Hok & d & Hd).
  { apply (reads_cons Decoder_new Encoder_new (ResponseStarted rid) _
      [lifecycle "response.created" rid; lifecycle "response.in_progress" rid] (set_response_id rid Encoder_new)
      [ResponseStarted rid] (set_started rid Decoder_new)); [done|done|done|done|].
    eapply reads_content; [by apply linked_response|done|]. intros e' d' Hl. by apply reads_end. }
  exists d. unfold encode_parts. by rewrite feed_frames, Hd.
Qed.

(** Two calls with interleaved arguments, a reasoning item with a payload. *)
Definition sample_body : list StreamPart :=
  [ReasoningDelta "hm" (Some "rs_1") None; ReasoningDelta "" None (Some "payload");
   TextDelta "hel"; ToolCallDelta "a" (Some "f") "{" None (Some "fc_1") None;
   ToolCallDelta "b" (Some "g") "" None None (Some DirectCaller); TextDelta "lo";
   ToolCallDelta "a" None "}" None None None; ToolCallDelta "b" None "[]" None None None;
   ProgramOutputDelta "po" "call_p" "4" "completed"].

Definition sample_usage : Usage := {|
  prompt_tokens := 7; completion_tokens := 2; reasoning_tokens := Some 1; cache_read_tokens := Some 3;
  cache_write_tokens := None; total_tokens := 0 |}.

Lemma responses_stream_roundtrip_witness :
  (exists d, feed_lines (@feed coded_json ascii_folding) Decoder_new
      (split LF (@encode_parts coded_json (ResponseStarted "resp_1" :: sample_body
         ++ [FinishPart Stop; UsagePart sample_usage] ++ [ResponseCompleted "resp_1" "completed" None ∅])))
    = Ok (Ok (ResponseStarted "resp_1" :: fst (relay "resp_1" Relay_new sample_body)
              ++ relay_end "resp_1" (Some sample_usage) Stop (snd (relay "resp_1" Relay_new sample_body))), d))
  /\ fst (relay "resp_1" Relay_new sample_body)
     = [ReasoningDelta "hm" (Some "rs_1") None; TextDelta "hel";
        ToolCallDelta "a" (Some "f") "" None (Some "fc_1") None; fragment "a" "{" None;
        ToolCallDelta "b" (Some "g") "" None None (Some DirectCaller); TextDelta "lo";
        fragment "a" "}" None; fragment "b" "[]" None;
        ProgramOutputDelta "po" "call_p" "4" "completed"]
  /\ relay_end "resp_1" (Some sample_usage) Stop (snd (relay "resp_1" Relay_new sample_body))
     = [ReasoningDelta "" (Some "rs_1") (Some "payload");
        UsagePart {| prompt_tokens := 7; completion_tokens := 2; reasoning_tokens := Some 1;
                     cache_read_tokens := Some 3; cache_write_tokens := None; total_tokens := 12 |};
        FinishPart ToolCalls; ResponseCompleted "resp_1" "completed" None ∅;
        ResponseCompleted "resp_1" "completed" None ∅].
Proof.
  split; [|split; by vm_compute].
  apply (@responses_stream_roundtrip coded_json ascii_folding "resp_1" sample_body).
  - apply coded_json_laws.
  - by vm_compute.
  - split; [|by left]. unfold usage_ok, u64_max. cbn. lia.
Defined.

(** ** Defects of the two halves *)

Section Defects.
Context `{J : SerdeJson} `{Lowercase}.

(** The input of a custom tool is free text; if it happens to be JSON with an
    [input] member (or JSON of another spelling), the events that close the
    call repeat it in another form, and the decoder, which has delivered the
    text already, delivers that as one more piece. *)
Lemma custom_json_input_delivered_twice c status id name args v d :
  tool_wire_types c !! id = Some "custom_tool_call" -> tool_arguments c !! id = Some args ->
  from_str args = Some v -> responses_custom_tool_input v <> "" ->
  strip_prefix args (responses_custom_tool_input v) = None ->
  function_calls d !! wire_item_id c id = Some (id, name) -> custom_tool_inputs d !! id = Some args ->
  fst (decode_events d (close_tool_call c status id))
  = [fragment id (responses_custom_tool_input v) (Some "custom_tool_call")].
Proof.
  intros Hw Ha Hv Hne Hp Hf Hi. unfold close_tool_call. rewrite Hw, Ha. cbn [default from_option].
  change (String.eqb (Datatypes.id "custom_tool_call") "function_call") with false.
  change (String.eqb (Datatypes.id "custom_tool_call") "custom_tool_call") with true. cbn iota.
  change (Datatypes.id args) with args. cbn [app].
  replace (closed_input args) with (responses_custom_tool_input v) by (unfold closed_input; by rewrite Hv).
  set (input := responses_custom_tool_input v) in *. cbn [decode_events].
  match goal with |- context [decode_event d ?ev] =>
    change (decode_event d ev) with (input_done d ev);
    assert (fragment_call d ev = id) as Hc end.
  { unfold fragment_call. match goal with |- context [as_str ?x] => change (as_str x) with (Some (wire_item_id c id)) end.
    cbn [mbind option_bind]. by rewrite Hf. }
  unfold input_done. rewrite Hc.
  match goal with |- context [as_str ?x] => change (as_str x) with (Some input) end.
  rewrite Hi. cbn [default from_option]. change (Datatypes.id args) with args. rewrite Hp. cbn [default from_option].
  change (Datatypes.id input) with input. replace (is_empty input) with false by (by destruct input).
  by destruct (tool_callers c !! id) as [[]|].
Qed.

(** The call of a shell is announced with an empty action, which the decoder
    takes for its arguments: the real ones are appended to it. *)
Lemma shell_arguments_prefixed id args :
  id <> "" -> args <> "" ->
  fst (decode_events Decoder_new
    (stream_events Encoder_new
       [ToolCallDelta id (Some "local_shell") args (Some "local_shell_call") None None]))
  = [ToolCallDelta id (Some "local_shell") (to_string (obj [])) (Some "local_shell_call") None None;
     fragment id args None].
Proof.
  intros Hid Ha. cbn [stream_events part_events].
  replace (is_empty args) with false by (by destruct args).
  unfold open_tool_call, append_tool_arguments. cbn -[decode_events String.eqb].
  rewrite lookup_empty. cbn -[decode_events String.eqb]. 
  change (kept_wire_type (Some "local_shell_call")) with (Some "local_shell_call").
  unfold or_insert_opt, or_insert_key, wire_item_id. cbn -[decode_events String.eqb].
  rewrite !lookup_empty, !lookup_insert_eq. destruct id as [|a0 s0]; [done|].
  reflexivity.
Qed.

(** A response that ends with a text and without a finish reason leaves the
    message open: no item is done. *)
Lemma unfinished_message_left_open t i s u x :
  existsb (has_type "response.output_item.done")
    (stream_events Encoder_new [TextDelta t; ResponseCompleted i s u x]) = false.
Proof. reflexivity. Qed.

(** The usage of an incomplete response is dropped, whatever the response. *)
Lemma incomplete_usage_dropped d response :
  decode_event d (obj [("type", Str "response.incomplete"); ("response", response)])
  = ([FinishPart (if saw_function_call d then ToolCalls else LengthReason); end_part d "incomplete"], d).
Proof. reflexivity. Qed.

(** An id of the reasoning that comes with a later delta renames the item
    after it was announced. *)
Lemma late_reasoning_id_renames rid a b :
  a <> "" -> b <> "" ->
  omap (fun ev => as_str ev.["item_id"])
    (stream_events Encoder_new [ReasoningDelta a None None; ReasoningDelta b (Some rid) None])
  = ["_rs"; "_rs"; rid].
Proof. intros Ha Hb. by destruct a, b. Qed.

(** Fragments of a call that was never opened go to the first item. *)
Lemma unopened_fragment_goes_first id args :
  map (fun ev => as_u64 ev.["output_index"])
    (stream_events Encoder_new [TextDelta "x"; fragment id args None])
  = [Some 0; Some 0; Some 0; Some 0].
Proof. by cbn; rewrite !lookup_empty. Qed.
End Defects.
