(* ===== verification/Encryption.v ===== *)
(** * Encryption: credentials at rest

    [crates/store/src/encryption.rs] and [crates/store/src/keys.rs]: the
    AES-256-GCM envelope of a credential, one subkey per purpose, and the
    wrappers the stores call.  The ciphers, HKDF, base64 and hex are crates:
    they are the operations of the class [Crypto], whose laws [CryptoLaws] are
    what GCM and base64 document; the nonce of a call, drawn from the random
    generator, is an argument. *)

From stdpp Require Import base option list strings.
From Stdlib Require Import ZArith Lia Ascii.
From S2P Require Import Prelude RustStr Utf8.

Local Open Scope string_scope.

Definition NONCE_LEN : nat := 12.
#[global] Arguments NONCE_LEN : simpl never.
Definition KEY_LEN : nat := 32.
Definition HKDF_INFO_PREFIX : string := "tiygate/v1/".

Inductive EncryptionError :=
| BadKeyLength (n : nat)
| BadKeyEncoding (e : string)
| CiphertextTooShort
| DecryptFailed (e : string)
| EncryptFailed (e : string).

(** What the crates compute; an [inl] is the [Display] text of an error. *)
Class Crypto := {
  hkdf_expand : string -> string -> string + string;
  aes_gcm_encrypt : string -> string -> string -> string + string;
  aes_gcm_decrypt : string -> string -> string -> string + string;
  base64_encode : string -> string;
  base64_decode : string -> string + string;
  hex_decode : string -> string + string;
  utf8_error : string -> string;
}.

(** GCM gives the plaintext back and appends a tag; standard base64 gives the
    bytes back and its alphabet has no white space.  HKDF only fails for
    outputs of more than 255 blocks. *)
Class CryptoLaws (C : Crypto) : Prop := {
  expand_total m i : exists k, hkdf_expand m i = inr k;
  decrypt_encrypt k n p c :
    String.length n = NONCE_LEN -> aes_gcm_encrypt k n p = inr c -> aes_gcm_decrypt k n c = inr p;
  encrypt_tag k n p c :
    aes_gcm_encrypt k n p = inr c -> String.length c = (String.length p + 16)%nat;
  base64_roundtrip b : base64_decode (base64_encode b) = inr b;
  encode_trimmed b : trim (base64_encode b) = base64_encode b;
  encode_empty : base64_encode "" = "";
}.

(** [result.map_err(f)] *)
Definition map_err {A} (f : string -> EncryptionError) (r : string + A)
    : result EncryptionError A :=
  match r with inl e => Err (f e) | inr a => Ok a end.

(** ** [KeyEncryption] *)

Record KeyEncryption := { master : string }.

Module KeyEncryption.
Section WithCrypto.
Context `{Crypto}.

Definition from_bytes (b : string) : KeyEncryption := {| master := b |}.

(** The array of [KEY_LEN] bytes, or the length found. *)
Definition key_bytes (v : string) : result EncryptionError string :=
  if Nat.eqb (String.length v) KEY_LEN then Ok v else Err (BadKeyLength (String.length v)).

Definition from_secret (secret : string) : result EncryptionError KeyEncryption :=
  let trimmed := trim secret in
  bytes ← (if Nat.eqb (String.length trimmed) (KEY_LEN * 2) && is_ascii trimmed
           then v ← map_err BadKeyEncoding (hex_decode trimmed); key_bytes v
           else v ← map_err BadKeyEncoding (base64_decode trimmed); key_bytes v);
  Ok (from_bytes bytes).

(** [from_env], over the value of the variable if it is set. *)
Definition from_env (var : option string) : option (result EncryptionError KeyEncryption) :=
  raw ← var;
  let trimmed := trim raw in
  if is_empty trimmed then None else Some (from_secret trimmed).

Definition cipher_for (self : KeyEncryption) (purpose : string) : result EncryptionError string :=
  map_err (fun e => DecryptFailed ("hkdf: " +:+ e))
    (hkdf_expand (master self) (HKDF_INFO_PREFIX +:+ purpose)).

Definition encrypt (self : KeyEncryption) (purpose nonce plaintext : string)
    : result EncryptionError string :=
  cipher ← cipher_for self purpose;
  ct ← map_err EncryptFailed (aes_gcm_encrypt cipher nonce plaintext);
  Ok (base64_encode (nonce +:+ ct)).

Definition decrypt (self : KeyEncryption) (purpose blob : string)
    : result EncryptionError string :=
  cipher ← cipher_for self purpose;
  raw ← map_err (fun e => DecryptFailed ("base64: " +:+ e)) (base64_decode (trim blob));
  if (String.length raw <=? NONCE_LEN)%nat then Err CiphertextTooShort
  else
    let nonce := take_bytes NONCE_LEN raw in
    let ct := drop_bytes NONCE_LEN raw in
    pt ← map_err DecryptFailed (aes_gcm_decrypt cipher nonce ct);
    if is_utf8 pt then Ok pt else Err (DecryptFailed ("utf8: " +:+ utf8_error pt)).
End WithCrypto.

(** [&blob[..12]] panics when byte 12 is inside a character. *)
Definition redact (blob : string) : run string :=
  if is_empty blob then Ok ""
  else if (String.length blob <=? 12)%nat then Ok "[encrypted: <short>]"
  else match drop_bytes 12 blob with
       | String a _ => if cont a then Err OutOfBounds
                       else Ok ("[encrypted: " +:+ take_bytes 12 blob +:+ "…]")
       | EmptyString => Ok ("[encrypted: " +:+ blob +:+ "…]")
       end.
End KeyEncryption.

(** ** The purposes of [keys.rs] *)

Definition PURPOSE_PROVIDER_API_KEY : string := "provider-api-key".
Definition PURPOSE_USAGE_MANAGEMENT_KEY : string := "usage-management-key".
Definition PURPOSE_OAUTH_REFRESH_TOKEN : string := "oauth-refresh-token".
Definition PURPOSE_OAUTH_ACCESS_TOKEN : string := "oauth-access-token".
Definition PURPOSE_SETTINGS : string := "settings".

Section Keys.
Context `{Crypto}.

Definition encrypt_api_key (enc : KeyEncryption) (nonce api_key : string) :=
  KeyEncryption.encrypt enc PURPOSE_PROVIDER_API_KEY nonce api_key.
Definition decrypt_api_key (enc : KeyEncryption) (blob : string) :=
  KeyEncryption.decrypt enc PURPOSE_PROVIDER_API_KEY blob.
Definition encrypt_usage_management_key (enc : KeyEncryption) (nonce key : string) :=
  KeyEncryption.encrypt enc PURPOSE_USAGE_MANAGEMENT_KEY nonce key.
Definition decrypt_usage_management_key (enc : KeyEncryption) (blob : string) :=
  KeyEncryption.decrypt enc PURPOSE_USAGE_MANAGEMENT_KEY blob.
Definition encrypt_oauth_meta (enc : KeyEncryption) (nonce meta_json : string) :=
  KeyEncryption.encrypt enc PURPOSE_OAUTH_REFRESH_TOKEN nonce meta_json.
Definition decrypt_oauth_meta (enc : KeyEncryption) (blob : string) :=
  KeyEncryption.decrypt enc PURPOSE_OAUTH_REFRESH_TOKEN blob.
Definition encrypt_oauth_access_token (enc : KeyEncryption) (nonce access_token : string) :=
  KeyEncryption.encrypt enc PURPOSE_OAUTH_ACCESS_TOKEN nonce access_token.
Definition decrypt_oauth_access_token (enc : KeyEncryption) (blob : string) :=
  KeyEncryption.decrypt enc PURPOSE_OAUTH_ACCESS_TOKEN blob.
Definition encrypt_settings (enc : KeyEncryption) (nonce value : string) :=
  KeyEncryption.encrypt enc PURPOSE_SETTINGS nonce value.
Definition decrypt_settings (enc : KeyEncryption) (blob : string) :=
  KeyEncryption.decrypt enc PURPOSE_SETTINGS blob.
End Keys.

(** ** Lemmas *)

(** What is written under a purpose is read back under it. *)
Lemma decrypt_of_encrypt `{C : Crypto} {L : CryptoLaws C} enc purpose nonce plain blob :
  String.length nonce = NONCE_LEN -> is_utf8 plain = true ->
  KeyEncryption.encrypt enc purpose nonce plain = Ok blob ->
  KeyEncryption.decrypt enc purpose blob = Ok plain.
Proof.
  intros Hn Hu. unfold KeyEncryption.encrypt, KeyEncryption.decrypt.
  destruct (KeyEncryption.cipher_for enc purpose) as [k|e]; [|done]. cbn.
  destruct (aes_gcm_encrypt k nonce plain) as [e|ct] eqn:Ec; [done|]. cbn. intros [= <-].
  rewrite encode_trimmed, base64_roundtrip. cbn [map_err mbind result_bind].
  rewrite str_length_app, (encrypt_tag _ _ _ _ Ec), Hn.
  destruct (Nat.leb_spec (NONCE_LEN + (String.length plain + 16)) NONCE_LEN); [lia|].
  rewrite <- Hn, take_bytes_app, drop_bytes_app, (decrypt_encrypt _ _ _ _ Hn Ec).
  cbn. by rewrite Hu.
Qed.

(** A blob is never empty: the columns write the absence of a credential as
    the empty string. *)
Lemma encrypted_nonempty `{C : Crypto} {L : CryptoLaws C} enc purpose nonce plain blob :
  String.length nonce = NONCE_LEN ->
  KeyEncryption.encrypt enc purpose nonce plain = Ok blob -> blob <> "".
Proof.
  intros Hn. unfold KeyEncryption.encrypt.
  destruct (KeyEncryption.cipher_for enc purpose) as [k|e]; [|done]. cbn.
  destruct (aes_gcm_encrypt k nonce plain) as [e|ct] eqn:Ec; [done|]. cbn. intros [= <-] Hb.
  pose proof (base64_roundtrip (nonce +:+ ct)) as H1. pose proof (base64_roundtrip "") as H2.
  rewrite Hb in H1. rewrite encode_empty, H1 in H2. injection H2 as H2.
  apply (f_equal String.length) in H2. rewrite str_length_app, Hn in H2. done.
Qed.

(** ** An instance of the laws

    Neither a cipher nor base64: the ciphertext is the plaintext with sixteen
    bytes after it, and bytes are written as two letters each. *)

Definition nibble (z : Z) : ascii := chr (97 + z).

Fixpoint letters (s : string) : string :=
  match s with
  | EmptyString => ""
  | String a r => String (nibble (code a / 16)) (String (nibble (code a mod 16)) (letters r))
  end.

Fixpoint of_letters (s : string) : string :=
  match s with
  | String a (String b r) => String (chr ((code a - 97) * 16 + (code b - 97))) (of_letters r)
  | _ => ""
  end.

Definition fake_tag : string := "0123456789abcdef".

Definition letter_crypto : Crypto := {|
  hkdf_expand m i := inr (m +:+ i);
  aes_gcm_encrypt _ _ p := inr (p +:+ fake_tag);
  aes_gcm_decrypt _ _ c := inr (take_bytes (String.length c - 16) c);
  base64_encode := letters;
  base64_decode s := inr (of_letters s);
  hex_decode s := inr (of_letters s);
  utf8_error _ := "invalid utf-8";
|}.

Lemma of_letters_letters s : of_letters (letters s) = s.
Proof.
  induction s as [|a s IH]; [done|]. cbn [letters of_letters]. rewrite IH. f_equal.
  clear IH s. destruct a as [[] [] [] [] [] [] [] []]; vm_compute; reflexivity.
Qed.

Lemma nibble_no_ws a r :
  ws_prefix (String (nibble (code a / 16)) r) = None /\
  ws_prefix (String (nibble (code a mod 16)) r) = None.
Proof. destruct a as [[] [] [] [] [] [] [] []]; split; reflexivity. Qed.

Lemma trim_start_stuck s : ws_prefix s = None -> trim_start s = s.
Proof. intros H. unfold trim_start. destruct s; [done|]. cbn [String.length trim_start_fuel]. by rewrite H. Qed.

Lemma letters_trimmed s : trim (letters s) = letters s.
Proof.
  unfold trim. assert (trim_start (letters s) = letters s) as ->.
  { destruct s as [|a s]; [done|]. apply trim_start_stuck. apply nibble_no_ws. }
  induction s as [|a s IH]; [done|]. cbn [letters].
  destruct (nibble_no_ws a (String (nibble (code a mod 16)) (letters s))) as [E1 _].
  destruct (nibble_no_ws a (letters s)) as [_ E2].
  cbn [trim_end]. unfold all_ws. rewrite (trim_start_stuck _ E1), (trim_start_stuck _ E2). cbn.
  by rewrite IH.
Qed.

Lemma letter_crypto_laws : CryptoLaws letter_crypto.
Proof.
  split.
  - intros m i. by exists (m +:+ i).
  - intros k n p c _ [= <-]. cbn. rewrite str_length_app.
    replace (String.length p + String.length fake_tag - 16)%nat with (String.length p) by (cbn; lia).
    by rewrite take_bytes_app.
  - intros k n p c [= <-]. by rewrite str_length_app.
  - intros b. cbn. by rewrite of_letters_letters.
  - apply letters_trimmed.
  - done.
Qed.
