(* ===== verification/ProviderConfig.v ===== *)
(** * ProviderConfig: providers as stored and as read

    [crates/store/src/models.rs] (providers, authentication modes, credential
    status), and from [crates/store/src/config_store.rs] the reading of a row,
    the OAuth configuration of a provider and the metadata that records the
    health of its credential.  Instants are nanoseconds since the epoch;
    their RFC 3339 text belongs to the [chrono] crate: the class [Chrono],
    with its laws in [ChronoLaws]. *)

From stdpp Require Import base option list strings.
From Stdlib Require Import ZArith Lia Ascii.
From S2P Require Import Prelude RustStr F64 Json JsonBody Protocol Targets Encryption.

Local Open Scope string_scope.
Local Open Scope list_scope.

(** ** Timestamps *)

Class Chrono := {
  to_rfc3339 : Z -> string;
  parse_from_rfc3339 : string -> string + Z;
}.

(** The years 0 to 9999, which RFC 3339 writes with four digits. *)
Definition four_digit_year (t : Z) : bool :=
  ((-62167219200000000000 <=? t) && (t <? 253402300800000000000))%Z.

(** The text of an instant is read back, and with the fixed offset of UTC
    the order of the texts is the order of the instants. *)
Class ChronoLaws (C : Chrono) : Prop := {
  parse_to_rfc3339 t : four_digit_year t = true -> parse_from_rfc3339 (to_rfc3339 t) = inr t;
  compare_to_rfc3339 t u :
    four_digit_year t = true -> four_digit_year u = true ->
    String.compare (to_rfc3339 t) (to_rfc3339 u) = Z.compare t u;
}.

(** ** [models.rs] *)

Inductive AuthMode := ApiKeyAuth | OAuthAuth | IamAuth | NoAuth.

#[export] Instance AuthMode_eq_dec : EqDecision AuthMode.
Proof. solve_decision. Defined.

Module AuthMode.
Definition as_str (m : AuthMode) : string :=
  match m with
  | ApiKeyAuth => "api_key" | OAuthAuth => "oauth" | IamAuth => "iam" | NoAuth => "none"
  end.

Definition parse (s : string) : option AuthMode :=
  if String.eqb s "api_key" then Some ApiKeyAuth
  else if String.eqb s "oauth" then Some OAuthAuth
  else if String.eqb s "iam" then Some IamAuth
  else if String.eqb s "none" then Some NoAuth
  else None.
End AuthMode.

Inductive OAuthCredentialStatus := Healthy | Invalid | Error.

Module OAuthCredentialStatus.
Definition as_str (s : OAuthCredentialStatus) : string :=
  match s with Healthy => "healthy" | Invalid => "invalid" | Error => "error" end.
End OAuthCredentialStatus.

Record Provider := {
  id : string;
  name : string;
  vendor : string;
  api_base : string;
  models_endpoint : string;
  encrypted_api_key : string;
  encrypted_usage_management_key : string;
  auth_mode : AuthMode;
  encrypted_oauth_meta : string;
  metadata_json : Value;
  enabled : bool;
  created_at : Z;
  updated_at : Z;
  api_key_cleartext : option string;
  usage_management_key_cleartext : option string;
  oauth_meta_cleartext : option string;
}.

(** A row of the table [providers]. *)
Record ProviderRow := {
  row_name : string;
  row_vendor : string;
  row_api_base : string;
  row_models_endpoint : string;
  row_api_key : string;
  row_auth_mode : string;
  row_usage_key : string;
  row_oauth_meta : string;
  row_metadata : string;
  row_enabled : Z;
  row_created_at : string;
  row_updated_at : string;
}.

(** [self.field = v] *)
Module Provider.
Definition set_oauth_cleartext (o : option string) (p : Provider) : Provider :=
  {| id := id p; name := name p; vendor := vendor p; api_base := api_base p;
     models_endpoint := models_endpoint p; encrypted_api_key := encrypted_api_key p;
     encrypted_usage_management_key := encrypted_usage_management_key p;
     auth_mode := auth_mode p; encrypted_oauth_meta := encrypted_oauth_meta p;
     metadata_json := metadata_json p; enabled := enabled p; created_at := created_at p;
     updated_at := updated_at p; api_key_cleartext := api_key_cleartext p;
     usage_management_key_cleartext := usage_management_key_cleartext p;
     oauth_meta_cleartext := o |}.

Definition set_usage_cleartext (o : option string) (p : Provider) : Provider :=
  {| id := id p; name := name p; vendor := vendor p; api_base := api_base p;
     models_endpoint := models_endpoint p; encrypted_api_key := encrypted_api_key p;
     encrypted_usage_management_key := encrypted_usage_management_key p;
     auth_mode := auth_mode p; encrypted_oauth_meta := encrypted_oauth_meta p;
     metadata_json := metadata_json p; enabled := enabled p; created_at := created_at p;
     updated_at := updated_at p; api_key_cleartext := api_key_cleartext p;
     usage_management_key_cleartext := o; oauth_meta_cleartext := oauth_meta_cleartext p |}.
End Provider.

(** ** Errors of the store *)

Inductive StoreError :=
| DbError (e : string)
| DbLayer (e : string)
| Decrypt (e : string)
| Serde (e : string)
| NotFound (e : string)
| InvalidInput (e : string).

Definition store_error_text (e : StoreError) : string :=
  match e with
  | DbError e => "database error: " +:+ e
  | DbLayer e => "store database error: " +:+ e
  | Decrypt e => "decryption error: " +:+ e
  | Serde e => "serialization error: " +:+ e
  | NotFound e => "not found: " +:+ e
  | InvalidInput e => "invalid input: " +:+ e
  end.

Definition encryption_error_text (e : EncryptionError) : string :=
  match e with
  | BadKeyLength n => "master key must be 32 bytes (got " +:+ pretty.pretty n +:+ ")"
  | BadKeyEncoding e => "master key is not valid hex or base64: " +:+ e
  | CiphertextTooShort => "ciphertext too short"
  | DecryptFailed e => "decryption failed: " +:+ e
  | EncryptFailed e => "encryption failed: " +:+ e
  end.

(** [s.eq_ignore_ascii_case(t)] *)
Definition eq_ignore_ascii_case (s t : string) : bool :=
  String.eqb (ascii_lowercase s) (ascii_lowercase t).

Definition XAI_API_KEY_ONLY_ERROR : string :=
  "xAI OAuth is temporarily disabled; configure xAI with auth_mode 'api_key'".

Definition validate_provider_auth_mode (vendor : string) (m : AuthMode) : result string unit :=
  if eq_ignore_ascii_case vendor "xai" && negb (bool_decide (m = ApiKeyAuth))
  then Err XAI_API_KEY_ONLY_ERROR else Ok tt.

Definition OPENAI_CODEX_DESKTOP_ORIGINATOR : string := "Codex Desktop".
Definition OPENAI_CODEX_DESKTOP_USER_AGENT : string :=
  "Codex Desktop/0.144.0-alpha.4 (Mac OS 26.5.2; arm64) unknown (Codex Desktop; 26.707.51957)".

(** ** The OAuth configuration of a provider *)

(** The unit variant of a serde enum: its name, or an object with the name as
    its only key and [null] as its value. *)
Definition unit_variant (v : Value) : option string :=
  match v with
  | Str s => Some s
  | Obj [(k, Null)] => Some k
  | _ => None
  end.

(** [serde_json::from_value::<UpstreamTransport>] *)
Definition transport_of_value (v : Value) : option UpstreamTransport :=
  s ← unit_variant v;
  if String.eqb s "http" then Some Http
  else if String.eqb s "codex_responses_websocket" then Some CodexResponsesWebSocket
  else None.

(** [meta.get(k).and_then(|v| v.as_str())] *)
Definition get_str (k : string) (v : Value) : option string := get k v ≫= as_str.

Definition string_array (v : option Value) : list string :=
  match v ≫= as_array with Some arr => omap as_str arr | None => [] end.

Definition extra_header (entry : Value) : option (string * string) :=
  n ← get_str "name" entry; v ← get_str "value" entry; Some (n, v).

Definition has_header (n : string) (hs : list (string * string)) : bool :=
  existsb (fun h => eq_ignore_ascii_case (fst h) n) hs.

(** [if !extra_headers.iter().any(..) { extra_headers.push(..) }] *)
Definition push_missing (n v : string) (hs : list (string * string)) : list (string * string) :=
  if has_header n hs then hs else hs ++ [(n, v)].

(** The headers of the configuration and the ones the vendor requires. *)
Definition anthropic_headers (vendor : string) (hs : list (string * string)) :=
  if String.eqb vendor "anthropic" && negb (existsb (fun h => String.eqb (fst h) "anthropic-beta") hs)
  then hs ++ [("anthropic-beta", "oauth-2025-04-20")] else hs.

Definition openai_headers (vendor : string) (account : option string)
    (hs : list (string * string)) : list (string * string) :=
  if String.eqb vendor "openai" then
    let hs := match account with
              | Some a => push_missing "chatgpt-account-id" a hs
              | None => hs
              end in
    push_missing "user-agent" OPENAI_CODEX_DESKTOP_USER_AGENT
      (push_missing "originator" OPENAI_CODEX_DESKTOP_ORIGINATOR hs)
  else hs.

Section WithJson.
Context `{SerdeJson}.

(** The members of the decrypted metadata that a target needs. *)
Definition stored_refresh_token (cleartext : option string) : string :=
  default "" ((cleartext ≫= from_str) ≫= get_str "refresh_token").

Definition stored_account_id (cleartext : option string) : option string :=
  s ← (cleartext ≫= from_str) ≫= get_str "account_id";
  if is_empty s then None else Some s.

Definition egress_profile_of (vendor : string) : OAuthEgressProfile :=
  if String.eqb vendor "openai" then OpenAiCodex
  else if String.eqb vendor "anthropic" then AnthropicOAuth
  else Standard.

Definition token_style_of (vendor : string) (oauth_meta : Value) : TokenRequestStyle :=
  let named := style ← get_str "token_request_style" oauth_meta;
               if String.eqb style "form" then Some Form
               else if String.eqb style "json" then Some Targets.Json
               else None in
  default (if String.eqb vendor "anthropic" then Targets.Json else Form) named.

Definition build_oauth_target_config (p : Provider) : option OAuthTargetConfig :=
  match validate_provider_auth_mode (vendor p) (auth_mode p) with
  | Err _ => None
  | Ok _ =>
      oauth_meta ← get "oauth" (metadata_json p);
      let token_url := default "" (get_str "token_url" oauth_meta) in
      let client_id := default "" (get_str "client_id" oauth_meta) in
      let account := stored_account_id (oauth_meta_cleartext p) in
      let hs := match get "extra_headers" oauth_meta ≫= as_array with
                | Some arr => omap extra_header arr
                | None => []
                end in
      let hs := openai_headers (vendor p) account (anthropic_headers (vendor p) hs) in
      if is_empty token_url || is_empty client_id then None
      else Some {|
        upstream_transport :=
          default Http (get "upstream_transport" (metadata_json p) ≫= transport_of_value);
        egress_profile := egress_profile_of (vendor p);
        token_url := token_url;
        client_id := client_id;
        client_secret := None;
        refresh_token := stored_refresh_token (oauth_meta_cleartext p);
        scopes := string_array (get "scopes" oauth_meta);
        token_request_style := token_style_of (vendor p) oauth_meta;
        authorization_header := get_str "authorization_header" oauth_meta;
        authorization_prefix := get_str "authorization_prefix" oauth_meta;
        extra_headers := hs;
        account_id := account;
      |}
  end.

(** The metadata with the outcome of an observation at instant [now]. *)
Definition oauth_status_metadata `{Chrono} (now : Z) (p : Provider)
    (status : OAuthCredentialStatus) (reason : option string) : result StoreError string :=
  raw ← match oauth_meta_cleartext p with
        | Some meta => if is_empty (trim meta) then Err (InvalidInput "provider has no OAuth metadata")
                       else Ok meta
        | None => Err (InvalidInput "provider has no OAuth metadata")
        end;
  match from_str raw with
  | None => Err (Serde (from_str_error raw))
  | Some (Obj m) =>
      let m := Json.insert "status" (Str (OAuthCredentialStatus.as_str status)) m in
      let m := Json.insert "status_checked_at" (Str (to_rfc3339 now)) m in
      let m := match reason with
               | Some r => if is_empty r then remove_member "status_reason" m
                           else Json.insert "status_reason" (Str r) m
               | None => remove_member "status_reason" m
               end in
      Ok (to_string (Obj m))
  | Some _ => Err (InvalidInput "provider OAuth metadata must be a JSON object")
  end.
End WithJson.

(** ** Reading a row *)

Section Rows.
Context `{Crypto, SerdeJson, Chrono}.

Definition parse_dt (s : string) : result StoreError Z :=
  match parse_from_rfc3339 s with
  | inr t => Ok t
  | inl e => Err (InvalidInput ("bad datetime '" +:+ s +:+ "': " +:+ e))
  end.

Definition row_to_provider (pid : string) (r : ProviderRow) : result StoreError Provider :=
  mode ← match AuthMode.parse (row_auth_mode r) with
         | Some m => Ok m
         | None => Err (InvalidInput ("unknown auth_mode: " +:+ row_auth_mode r))
         end;
  metadata ← (if is_empty (row_metadata r) then Ok (Obj [])
              else match from_str (row_metadata r) with
                   | Some v => Ok v
                   | None => Err (Serde (from_str_error (row_metadata r)))
                   end);
  created ← parse_dt (row_created_at r);
  updated ← parse_dt (row_updated_at r);
  Ok {| id := pid; name := row_name r; vendor := row_vendor r; api_base := row_api_base r;
        models_endpoint := row_models_endpoint r; encrypted_api_key := row_api_key r;
        auth_mode := mode; encrypted_usage_management_key := row_usage_key r;
        encrypted_oauth_meta := row_oauth_meta r; metadata_json := metadata;
        enabled := negb (row_enabled r =? 0)%Z; created_at := created; updated_at := updated;
        api_key_cleartext := None; usage_management_key_cleartext := None;
        oauth_meta_cleartext := None |}.

(** The cleartext of a column, when there is a master key and when there is
    not. *)
Definition column_cleartext (decrypt : KeyEncryption -> string -> result EncryptionError string)
    (encryption : option KeyEncryption) (column : string) : option string :=
  if is_empty column then Some ""
  else match encryption with
       | Some enc => match decrypt enc column with Ok plain => Some plain | Err _ => None end
       | None => Some column
       end.

Definition populate_provider_oauth_cleartext (encryption : option KeyEncryption) (p : Provider)
    : Provider :=
  match auth_mode p with
  | OAuthAuth =>
      Provider.set_oauth_cleartext
        (column_cleartext decrypt_oauth_meta encryption (encrypted_oauth_meta p)) p
  | _ => p
  end.

Definition populate_provider_usage_management_key_cleartext (encryption : option KeyEncryption)
    (p : Provider) : Provider :=
  Provider.set_usage_cleartext
    (column_cleartext decrypt_usage_management_key encryption (encrypted_usage_management_key p)) p.

(** What [get_provider] makes of the row it found. *)
Definition read_provider (encryption : option KeyEncryption) (pid : string)
    (row : option ProviderRow) : result StoreError (option Provider) :=
  match row with
  | None => Ok None
  | Some r =>
      p ← row_to_provider pid r;
      Ok (Some (populate_provider_usage_management_key_cleartext encryption
                  (populate_provider_oauth_cleartext encryption p)))
  end.

(** The column for a plaintext: encrypted when there is a master key. *)
Definition column_of (encrypt : KeyEncryption -> string -> string -> result EncryptionError string)
    (encryption : option KeyEncryption) (nonce plain : string) : result StoreError string :=
  match encryption with
  | Some enc => match encrypt enc nonce plain with
                | Ok blob => Ok blob
                | Err e => Err (Decrypt (encryption_error_text e))
                end
  | None => Ok plain
  end.
End Rows.

(** ** An instance of the laws of [Chrono]

    Not RFC 3339: nanoseconds since the year 0, as seventy binary digits. *)

Fixpoint binary (n : nat) (x : Z) : string :=
  match n with
  | 0%nat => ""
  | S n' => let b := (2 ^ Z.of_nat n')%Z in
            if (b <=? x)%Z then String "1" (binary n' (x - b)) else String "0" (binary n' x)
  end.

Fixpoint of_binary (acc : Z) (s : string) : Z :=
  match s with
  | EmptyString => acc
  | String a r => of_binary (2 * acc + (if Ascii.eqb a "1" then 1 else 0)) r
  end.

Definition year_zero : Z := 62167219200000000000.

Definition binary_chrono : Chrono := {|
  to_rfc3339 t := binary 70 (t + year_zero);
  parse_from_rfc3339 s := inr (of_binary 0 s - year_zero)%Z;
|}.

Lemma of_binary_binary n x acc :
  (0 <= x < 2 ^ Z.of_nat n)%Z -> of_binary acc (binary n x) = (acc * 2 ^ Z.of_nat n + x)%Z.
Proof.
  revert x acc. induction n as [|n IH]; intros x acc Hx; cbn [binary].
  - change (2 ^ Z.of_nat 0)%Z with 1%Z in *. cbn [of_binary]. lia.
  - rewrite Nat2Z.inj_succ, Z.pow_succ_r in * by lia.
    destruct (Z.leb_spec (2 ^ Z.of_nat n) x); cbn [of_binary Ascii.eqb Bool.eqb]; rewrite IH by lia; lia.
Qed.

Lemma compare_binary n x y :
  (0 <= x < 2 ^ Z.of_nat n)%Z -> (0 <= y < 2 ^ Z.of_nat n)%Z ->
  String.compare (binary n x) (binary n y) = Z.compare x y.
Proof.
  revert x y. induction n as [|n IH]; intros x y Hx Hy; cbn [binary].
  - change (2 ^ Z.of_nat 0)%Z with 1%Z in *. symmetry. apply Z.compare_eq_iff. lia.
  - rewrite Nat2Z.inj_succ, Z.pow_succ_r in * by lia.
    destruct (Z.leb_spec (2 ^ Z.of_nat n) x), (Z.leb_spec (2 ^ Z.of_nat n) y).
    + change (String.compare (binary n (x - 2 ^ Z.of_nat n)) (binary n (y - 2 ^ Z.of_nat n)) = Z.compare x y).
      rewrite IH by lia. destruct (Z.compare_spec x y), (Z.compare_spec (x - 2 ^ Z.of_nat n) (y - 2 ^ Z.of_nat n)); done || lia.
    + change (Gt = Z.compare x y). symmetry. apply Z.compare_gt_iff. lia.
    + change (Lt = Z.compare x y). symmetry. apply Z.compare_lt_iff. lia.
    + change (String.compare (binary n x) (binary n y) = Z.compare x y). apply IH; lia.
Qed.

Lemma binary_chrono_laws : ChronoLaws binary_chrono.
Proof.
  assert (forall t, four_digit_year t = true -> (0 <= t + year_zero < 2 ^ Z.of_nat 70)%Z) as Hr.
  { intros t [?%Z.leb_le ?%Z.ltb_lt]%andb_prop. unfold year_zero.
    change (2 ^ Z.of_nat 70)%Z with 1180591620717411303424%Z. lia. }
  split.
  - intros t Ht. cbn [parse_from_rfc3339 to_rfc3339 binary_chrono].
    rewrite of_binary_binary by auto. f_equal. lia.
  - intros t u Ht Hu. cbn [to_rfc3339 binary_chrono]. rewrite compare_binary by auto.
    destruct (Z.compare_spec t u), (Z.compare_spec (t + year_zero) (u + year_zero)); done || lia.
Qed.
