(* ===== verification/OAuthTokens.v ===== *)
(** * OAuthTokens: the requests to a token endpoint and their answers

    The part of [crates/auth/src/provider_oauth.rs] without state: PKCE, the
    presets of the supported providers, the authorization URL, the bodies of
    the exchange and refresh requests, the reading of the answer, and the
    classification of a failed refresh.

    SHA-256, URL-safe base64, form encoding and the phrases of HTTP status
    codes are crates: the class [OAuthCrates].  An HTTP exchange is an
    [HttpRequest] and an [HttpAnswer]. *)

From stdpp Require Import base option list strings.
From Stdlib Require Import ZArith Lia Ascii.
From S2P Require Import Prelude RustStr F64 Json JsonBody Targets ProviderConfig.

Local Open Scope string_scope.
Local Open Scope list_scope.

Class OAuthCrates := {
  sha256 : string -> string;
  url_safe_encode : string -> string;
  url_safe_decode : string -> option string;
  form_urlencode : list (string * string) -> string;
  status_phrase : Z -> string;   (* [Display] of a [StatusCode] *)
  decode_error : string -> string;   (* [Display] of reqwest's error for a body *)
}.

(** ** Failures *)

Inductive OAuthRefreshFailureKind := CredentialInvalid | Transient.

#[export] Instance OAuthRefreshFailureKind_eq_dec : EqDecision OAuthRefreshFailureKind.
Proof. solve_decision. Defined.

Definition status_reason (k : OAuthRefreshFailureKind) : string :=
  match k with CredentialInvalid => "credential_rejected" | Transient => "refresh_failed" end.

Definition rejection_markers : list string :=
  ["401 unauthorized"; "403 forbidden"; "invalid_grant"; "invalid refresh token";
   "refresh_token_reused"; "refresh token has expired"; "refresh token is expired";
   "token revoked"].

Definition classify_refresh_failure (error : string) : OAuthRefreshFailureKind :=
  let error := ascii_lowercase error in
  if existsb (fun m => contains m error) rejection_markers then CredentialInvalid else Transient.

(** ** Presets *)

Record OAuthProviderPreset := {
  preset_vendor : string;
  auth_url : string;
  preset_token_url : string;
  preset_client_id : string;
  redirect_url : string;
  preset_scopes : list string;
  exchange_request_style : TokenRequestStyle;
  refresh_request_style : TokenRequestStyle;
  send_scopes_in_exchange_request : bool;
  send_state_in_exchange_request : bool;
  refresh_scopes : list string;
  extra_authorize_params : list (string * string);
}.

Definition codex_preset : OAuthProviderPreset := {|
  preset_vendor := "openai";
  auth_url := "https://auth.openai.com/oauth/authorize";
  preset_token_url := "https://auth.openai.com/oauth/token";
  preset_client_id := "app_EMoamEEZ73f0CkXaXp7hrann";
  redirect_url := "http://localhost:1455/auth/callback";
  preset_scopes := ["openid"; "email"; "profile"; "offline_access"];
  exchange_request_style := Form;
  refresh_request_style := Form;
  send_scopes_in_exchange_request := false;
  send_state_in_exchange_request := false;
  refresh_scopes := ["openid"; "profile"; "email"];
  extra_authorize_params :=
    [("prompt", "login"); ("id_token_add_organizations", "true");
     ("codex_cli_simplified_flow", "true")];
|}.

Definition claude_scopes : list string :=
  ["user:profile"; "user:inference"; "user:sessions:claude_code"; "user:mcp_servers";
   "user:file_upload"].

Definition claude_preset : OAuthProviderPreset := {|
  preset_vendor := "anthropic";
  auth_url := "https://claude.ai/oauth/authorize";
  preset_token_url := "https://api.anthropic.com/v1/oauth/token";
  preset_client_id := "9d1c250a-e61b-44d9-88ed-5944d1962f5e";
  redirect_url := "http://localhost:54545/callback";
  preset_scopes := claude_scopes;
  exchange_request_style := Targets.Json;
  refresh_request_style := Targets.Json;
  send_scopes_in_exchange_request := true;
  send_state_in_exchange_request := true;
  refresh_scopes := claude_scopes;
  extra_authorize_params := [("code", "true")];
|}.

Definition preset_for_vendor (vendor : string) : option OAuthProviderPreset :=
  if String.eqb vendor "openai" then Some codex_preset
  else if String.eqb vendor "anthropic" then Some claude_preset
  else None.

(** ** Requests *)

Inductive HttpBody :=
| FormBody (params : list (string * string))
| JsonBody (v : Value).

Record HttpRequest := {
  post_url : string;
  post_headers : list (string * string);
  post_body : HttpBody;
}.

(** What comes back: the transport failed, or a status and a body. *)
Inductive HttpAnswer :=
| Failed (e : string)
| Response (status : Z) (body : string).

Definition json_headers : list (string * string) :=
  [("Content-Type", "application/json"); ("Accept", "application/json")].

Section Requests.
Context `{OAuthCrates}.

(** [generate_pkce] over its 96 random bytes. *)
Definition pkce_challenge (verifier : string) : string := url_safe_encode (sha256 verifier).
Definition generate_pkce (bytes : string) : string * string :=
  let verifier := url_safe_encode bytes in (verifier, pkce_challenge verifier).

Definition build_authorize_url (p : OAuthProviderPreset) (state challenge : string) : string :=
  auth_url p +:+ "?" +:+ form_urlencode
    ([("response_type", "code"); ("client_id", preset_client_id p);
      ("redirect_uri", redirect_url p); ("scope", join " " (preset_scopes p));
      ("state", state); ("code_challenge", challenge); ("code_challenge_method", "S256")]
     ++ extra_authorize_params p).

Definition exchange_request (p : OAuthProviderPreset) (code verifier : string)
    (csrf_state : option string) : HttpRequest :=
  let scopes := join " " (preset_scopes p) in
  match exchange_request_style p with
  | Form =>
      {| post_url := preset_token_url p; post_headers := [];
         post_body := FormBody
           ([("grant_type", "authorization_code"); ("code", code);
             ("client_id", preset_client_id p); ("redirect_uri", redirect_url p);
             ("code_verifier", verifier)]
            ++ (if send_scopes_in_exchange_request p then [("scope", scopes)] else [])) |}
  | Targets.Json =>
      let body := obj [("grant_type", Str "authorization_code"); ("code", Str code);
                       ("client_id", Str (preset_client_id p));
                       ("redirect_uri", Str (redirect_url p)); ("code_verifier", Str verifier)] in
      let body := if send_scopes_in_exchange_request p then set "scope" (Str scopes) body else body in
      let body := if send_state_in_exchange_request p
                  then match csrf_state with
                       | Some s => if is_empty s then body else set "state" (Str s) body
                       | None => body
                       end
                  else body in
      {| post_url := preset_token_url p; post_headers := json_headers; post_body := JsonBody body |}
  end.

(** The request of [do_refresh_token]. *)
Definition refresh_request (token_url client_id refresh_token : string) (scopes : list string)
    (style : TokenRequestStyle) : HttpRequest :=
  let scopes_str := join " " scopes in
  match style with
  | Form =>
      {| post_url := token_url; post_headers := [];
         post_body := FormBody
           ([("grant_type", "refresh_token"); ("refresh_token", refresh_token);
             ("client_id", client_id)]
            ++ (if is_empty scopes_str then [] else [("scope", scopes_str)])) |}
  | Targets.Json =>
      let body := obj [("grant_type", Str "refresh_token"); ("refresh_token", Str refresh_token);
                       ("client_id", Str client_id)] in
      let body := if is_empty scopes_str then body else set "scope" (Str scopes_str) body in
      {| post_url := token_url; post_headers := json_headers; post_body := JsonBody body |}
  end.
End Requests.

(** The refresh token that a request presents. *)
Definition presented_refresh_token (r : HttpRequest) : option string :=
  match post_body r with
  | FormBody params => assoc "refresh_token" params
  | JsonBody v => get "refresh_token" v ≫= as_str
  end.

(** ** Answers *)

Record TokenResult := {
  access_token : string;
  new_refresh_token : option string;
  expires_in : option Z;   (* seconds *)
  account_id : option string;
  account_email : option string;
  organization_id : option string;
  organization_name : option string;
}.

Record AnthropicAccount := { account_uuid : option string; email_address : option string }.
Record AnthropicOrganization := { org_uuid : option string; org_name : option string }.

Record TokenResponseRaw := {
  raw_access_token : string;
  raw_refresh_token : option string;
  raw_expires_in : option Z;
  raw_id_token : option string;
  raw_account_id : option string;
  raw_email : option string;
  raw_account_email : option string;
  raw_account : option AnthropicAccount;
  raw_organization : option AnthropicOrganization;
}.

(** A struct derived with serde: the members of an object, or the elements of
    an array in the order of the fields, which must all be there.  (A member
    that occurs twice is an error of the deserializer; a [Value] keeps the
    last one.) *)
Definition struct_fields (names : list string) (v : Value) : option (string -> option Value) :=
  match v with
  | Obj m => Some (fun k => assoc k m)
  | Arr l => if Nat.eqb (length l) (length names)
             then Some (fun k => assoc k (zip names l)) else None
  | _ => None
  end.

(** A field of type [Option<T>]: [None] when it is absent or [null]; the
    outer option is the failure of the deserializer. *)
Definition optional {A} (f : Value -> option A) (v : option Value) : option (option A) :=
  match v with
  | None | Some Null => Some None
  | Some v => Some <$> f v
  end.

Definition de_account (v : Value) : option AnthropicAccount :=
  f ← struct_fields ["uuid"; "email_address"] v;
  u ← optional as_str (f "uuid"); e ← optional as_str (f "email_address");
  Some {| account_uuid := u; email_address := e |}.

Definition de_organization (v : Value) : option AnthropicOrganization :=
  f ← struct_fields ["uuid"; "name"] v;
  u ← optional as_str (f "uuid"); n ← optional as_str (f "name");
  Some {| org_uuid := u; org_name := n |}.

Definition de_token_response (v : Value) : option TokenResponseRaw :=
  f ← struct_fields ["access_token"; "refresh_token"; "expires_in"; "id_token"; "account_id";
                     "email"; "account_email"; "account"; "organization"] v;
  a ← f "access_token" ≫= as_str;
  r ← optional as_str (f "refresh_token");
  e ← optional as_u64 (f "expires_in");
  i ← optional as_str (f "id_token");
  d ← optional as_str (f "account_id");
  m ← optional as_str (f "email");
  n ← optional as_str (f "account_email");
  c ← optional de_account (f "account");
  o ← optional de_organization (f "organization");
  Some {| raw_access_token := a; raw_refresh_token := r; raw_expires_in := e; raw_id_token := i;
          raw_account_id := d; raw_email := m; raw_account_email := n; raw_account := c;
          raw_organization := o |}.

(** [value.filter(|v| !v.is_empty())] *)
Definition nonempty (o : option string) : option string :=
  s ← o; if is_empty s then None else Some s.

Section Answers.
Context `{OAuthCrates, SerdeJson}.

Definition jwt_claims (id_token : string) : option Value :=
  payload ← split "."%char id_token !! 1%nat;
  bytes ← url_safe_decode payload;
  from_str bytes.

Definition chatgpt_account_id (id_token : string) : option string :=
  claims ← jwt_claims id_token;
  nonempty (or_else (get "https://api.openai.com/auth" claims ≫= get "chatgpt_account_id")
                    (get "chatgpt_account_id" claims) ≫= as_str).

Definition chatgpt_account_email (id_token : string) : option string :=
  claims ← jwt_claims id_token;
  nonempty (or_else (get "email" claims)
             (or_else (get "https://api.openai.com/profile" claims ≫= get "email")
                      (get "https://api.openai.com/auth" claims ≫= get "email")) ≫= as_str).

Definition token_result (raw : TokenResponseRaw) : TokenResult := {|
  access_token := raw_access_token raw;
  new_refresh_token := raw_refresh_token raw;
  expires_in := raw_expires_in raw;
  account_id :=
    or_else (nonempty (raw_account_id raw))
      (or_else (nonempty (raw_account raw ≫= account_uuid))
               (raw_id_token raw ≫= chatgpt_account_id));
  account_email :=
    or_else (nonempty (or_else (raw_account_email raw) (raw_email raw)))
      (or_else (nonempty (raw_account raw ≫= email_address))
               (raw_id_token raw ≫= chatgpt_account_email));
  organization_id := nonempty (raw_organization raw ≫= org_uuid);
  organization_name := nonempty (raw_organization raw ≫= org_name);
|}.

Definition parse_token_response (status : Z) (body : string) : result string TokenResult :=
  if negb ((200 <=? status) && (status <? 300))%Z
  then Err ("token endpoint returned " +:+ status_phrase status +:+ ": " +:+ body)
  else match from_str body ≫= de_token_response with
       | Some raw => Ok (token_result raw)
       | None => Err ("failed to parse token response: " +:+ decode_error body)
       end.

(** [what] is "exchange" or "refresh". *)
Definition token_answer (what : string) (a : HttpAnswer) : result string TokenResult :=
  match a with
  | Failed e => Err ("token " +:+ what +:+ " request failed: " +:+ e)
  | Response status body => parse_token_response status body
  end.
End Answers.

(** ** Lemmas *)

Lemma presented_by_refresh u c t ss style :
  presented_refresh_token (refresh_request u c t ss style) = Some t.
Proof.
  destruct style; unfold refresh_request, presented_refresh_token; cbn [post_body].
  - done.
  - destruct (is_empty (join " " ss)); reflexivity.
Qed.
