(* ===== verification/Providers.v ===== *)
(** * Providers: the upstream services the gateway knows

    The [Provider] and [AuthApplier] traits of
    [crates/core/src/provider/mod.rs] as records and data, the appliers of
    [crates/auth/src], every provider of [crates/providers/src] and of
    [crates/provider-bedrock/src/lib.rs], and the registry.  The digest behind
    OpenCode's session ids is of the classes [OAuthCrates] and [TextCrates]. *)

From stdpp Require Import base option list gmap strings.
From Stdlib Require Import ZArith Lia Ascii Permutation.
From S2P Require Import Prelude RustStr Http F64 Json Protocol Targets ProviderConfig OAuthTokens.

Local Open Scope string_scope.
Local Open Scope list_scope.

(** ** [core/src/provider/mod.rs] *)

Inductive AuthMode :=
| Bearer
| ApiKey (header_name : string)
| OAuth2
| AwsSigV4
| Custom.

Record ProviderMetadata := {
  display_name : string;
  base_url : string;
  auth_mode : AuthMode;
  channels : list string;
  protocols : list ProtocolEndpoint;
  defaults : Value;
}.

(** The implementations of [AuthApplier]. *)
Inductive AuthApplier :=
| BearerAuthApplier
| HeaderApiKeyAuthApplier (header_name : string)
| BedrockAuthApplier.

Record Provider := {
  pv_id : string;
  metadata : ProviderMetadata;
  auth : AuthApplier;
  egress_protocol_for_model : string -> ProtocolEndpoint;
  egress_api_base : string -> ProtocolEndpoint -> string;
  extra_headers : string -> list (string * string);
}.

Definition supported_protocols (p : Provider) : list ProtocolEndpoint := protocols (metadata p).

(** The methods a provider inherits. *)
Definition default_egress_protocol (m : ProviderMetadata) (model_id : string) : ProtocolEndpoint :=
  default (ProtocolSuite.default_endpoint OpenAiCompatible) (head (protocols m)).
Definition default_egress_api_base (raw_base : string) (endpoint : ProtocolEndpoint) : string :=
  raw_base.
Definition default_extra_headers (caller_key_id : string) : list (string * string) := [].

Definition find_provider (registered : list Provider) (id : string) : option Provider :=
  List.find (fun p => String.eqb (pv_id p) id) registered.

(** ** [auth/src/bearer.rs], [auth/src/api_key.rs], [BedrockAuthApplier] *)

Section Appliers.
Context `{HttpHeaders}.

Definition auth_error (e : string) : Protocol.Error := EAuth e.

Definition bearer_apply (hs : HeaderMap) (t : RoutingTarget) : result Protocol.Error HeaderMap :=
  match header_value_of ("Bearer " +:+ RoutingTarget.effective_api_key t) with
  | inl e => Err (auth_error ("Invalid header value: " +:+ e))
  | inr v => Ok (<["authorization" := v]> hs)
  end.

Definition api_key_apply (name : string) (hs : HeaderMap) (t : RoutingTarget)
    : result Protocol.Error HeaderMap :=
  match header_name_of name with
  | inl e => Err (auth_error ("Invalid header name: " +:+ e))
  | inr n =>
      match header_value_of (RoutingTarget.effective_api_key t) with
      | inl e => Err (auth_error ("Invalid header value: " +:+ e))
      | inr v => Ok (<[n := v]> hs)
      end
  end.

Definition bedrock_apply (hs : HeaderMap) (t : RoutingTarget) : result Protocol.Error HeaderMap :=
  Ok (if contains_key "authorization" hs then hs
      else <["authorization" := "AWS4-HMAC-SHA256 placeholder"]> hs).

Definition apply (a : AuthApplier) (hs : HeaderMap) (t : RoutingTarget)
    : result Protocol.Error HeaderMap :=
  match a with
  | BearerAuthApplier => bearer_apply hs t
  | HeaderApiKeyAuthApplier name => api_key_apply name hs t
  | BedrockAuthApplier => bedrock_apply hs t
  end.
End Appliers.

(** ** Model ids and API bases *)

(** [maker/model:provider] without its maker and provider, in lower case. *)
Definition normalized_model_id (model_id : string) : string :=
  let body := default model_id (head (split ":"%char model_id)) in
  ascii_lowercase (default body (list.last (split "/"%char body))).

Definition is_image_model (model_id : string) : bool :=
  let body := normalized_model_id model_id in contains "image" body || contains "dall-e" body.

Definition images_generations : ProtocolEndpoint :=
  mk_endpoint OpenAiCompatible "images-generations" "v1".
Definition images_edits : ProtocolEndpoint := mk_endpoint OpenAiCompatible "images-edits" "v1".
Definition chat_completions : ProtocolEndpoint :=
  mk_endpoint OpenAiCompatible "chat-completions" "v1".

Definition SLASH : ascii := "/"%char.

(** ** The providers *)

Definition bearer_metadata (name base : string) (ps : list ProtocolEndpoint) : ProviderMetadata :=
  {| display_name := name; base_url := base; auth_mode := Bearer; channels := ["default"];
     protocols := ps; defaults := Obj [] |}.

(** A provider that talks Chat Completions only. *)
Definition chat_only (id name base : string) : Provider :=
  {| pv_id := id; metadata := bearer_metadata name base [chat_completions];
     auth := BearerAuthApplier;
     egress_protocol_for_model _ := ProtocolSuite.default_endpoint OpenAiCompatible;
     egress_api_base := default_egress_api_base; extra_headers := default_extra_headers |}.

Definition MoonshotProvider : Provider :=
  chat_only "moonshot" "Moonshot AI" "https://api.moonshot.cn/v1".
Definition OllamaProvider : Provider := chat_only "ollama" "Ollama" "http://localhost:11434/v1".
Definition XaiProvider : Provider := chat_only "xai" "xAI" "https://api.x.ai/v1".
Definition ZhipuProvider : Provider :=
  chat_only "zhipu" "Zhipu AI" "https://open.bigmodel.cn/api/paas/v4".

Definition OpenAiProvider : Provider :=
  {| pv_id := "openai";
     metadata := bearer_metadata "OpenAI" "https://api.openai.com/v1"
       [ProtocolSuite.default_endpoint OpenAiResponses; images_generations; images_edits];
     auth := BearerAuthApplier;
     egress_protocol_for_model m :=
       if is_image_model m then images_generations
       else ProtocolSuite.default_endpoint OpenAiResponses;
     egress_api_base := default_egress_api_base; extra_headers := default_extra_headers |}.

(** [from_env], and what is registered without the variable. *)
Definition OpenAiCompatibleProvider (env : string -> option string) : Provider :=
  {| pv_id := "openai-compatible";
     metadata := bearer_metadata "OpenAI Compatible"
       (default "http://localhost:8080/v1" (env "OPENAI_COMPATIBLE_BASE_URL"))
       [chat_completions; images_generations; images_edits];
     auth := BearerAuthApplier;
     egress_protocol_for_model m :=
       if is_image_model m then images_generations
       else ProtocolSuite.default_endpoint OpenAiCompatible;
     egress_api_base := default_egress_api_base; extra_headers := default_extra_headers |}.

Definition anthropic_metadata : ProviderMetadata :=
  {| display_name := "Anthropic"; base_url := "https://api.anthropic.com/v1";
     auth_mode := ApiKey "x-api-key"; channels := ["default"];
     protocols := [mk_endpoint AnthropicMessages "messages" "2023-06-01"];
     defaults := obj [("anthropic_version", Str "2023-06-01")] |}.

Definition AnthropicProvider : Provider :=
  {| pv_id := "anthropic"; metadata := anthropic_metadata;
     auth := HeaderApiKeyAuthApplier "x-api-key";
     egress_protocol_for_model := default_egress_protocol anthropic_metadata;
     egress_api_base := default_egress_api_base; extra_headers := default_extra_headers |}.

Definition GEMINI_VENDOR_ID : string := "gemini".
Definition GEMINI_DEFAULT_BASE_URL : string := "https://generativelanguage.googleapis.com/v1beta".
Definition GEMINI_API_KEY_HEADER : string := "x-goog-api-key".
Definition GEMINI_API_KEY_QUERY_PARAM : string := "key".

Definition gemini_endpoint : ProtocolEndpoint := mk_endpoint GoogleGemini "generateContent" "v1beta".

Definition GeminiProvider : Provider :=
  {| pv_id := GEMINI_VENDOR_ID;
     metadata := {| display_name := "Google Gemini"; base_url := GEMINI_DEFAULT_BASE_URL;
                    auth_mode := ApiKey GEMINI_API_KEY_HEADER; channels := ["default"];
                    protocols := [gemini_endpoint]; defaults := Obj [] |};
     auth := HeaderApiKeyAuthApplier GEMINI_API_KEY_HEADER;
     egress_protocol_for_model _ := gemini_endpoint;
     egress_api_base := default_egress_api_base; extra_headers := default_extra_headers |}.

Definition openrouter_metadata : ProviderMetadata :=
  bearer_metadata "OpenRouter" "https://openrouter.ai/api/v1"
    [ProtocolSuite.default_endpoint OpenAiResponses].

Definition OpenRouterProvider : Provider :=
  {| pv_id := "openrouter"; metadata := openrouter_metadata; auth := BearerAuthApplier;
     egress_protocol_for_model := default_egress_protocol openrouter_metadata;
     egress_api_base := default_egress_api_base; extra_headers := default_extra_headers |}.

(** [deepseek.rs] *)
Definition deepseek_responses_endpoint : ProtocolEndpoint :=
  mk_endpoint OpenAiResponses "deepseek-responses" "v1".

Definition uses_chat_completions (model_id : string) : bool :=
  let m := normalized_model_id model_id in
  String.eqb m "deepseek-chat" || String.eqb m "deepseek-reasoner".

Definition deepseek_api_base (raw_base : string) (s : ProtocolSuite) : string :=
  let base := trim_end_matches SLASH raw_base in
  let base := trim_end_matches SLASH (default base (strip_suffix "/v1" base)) in
  match s with
  | OpenAiResponses => base
  | OpenAiCompatible => base +:+ "/v1"
  | _ => trim_end_matches SLASH raw_base
  end.

Definition DeepSeekProvider : Provider :=
  {| pv_id := "deepseek";
     metadata := bearer_metadata "DeepSeek" "https://api.deepseek.com"
       [deepseek_responses_endpoint; chat_completions];
     auth := BearerAuthApplier;
     egress_protocol_for_model m :=
       if uses_chat_completions m then ProtocolSuite.default_endpoint OpenAiCompatible
       else deepseek_responses_endpoint;
     egress_api_base raw_base e := deepseek_api_base raw_base (suite e);
     extra_headers := default_extra_headers |}.

(** [zenmux.rs] *)
Definition multi_protocols : list ProtocolEndpoint :=
  [chat_completions; mk_endpoint OpenAiResponses "responses" "v1";
   mk_endpoint AnthropicMessages "messages" "v1"; gemini_endpoint].

Definition zenmux_suite_for_model (model_id : string) : ProtocolSuite :=
  let body := normalized_model_id model_id in
  if contains "image" body || contains "dall-e" body then OpenAiCompatible
  else if contains "gpt" body then OpenAiResponses
  else if contains "claude" body || contains "minimax" body then AnthropicMessages
  else if contains "gemini" body then GoogleGemini
  else OpenAiResponses.

Definition api_base_for_suite (raw_base : string) (s : ProtocolSuite) : string :=
  let base := trim_end_matches SLASH raw_base in
  let base :=
    match strip_suffix "/anthropic/v1" base with
    | Some stripped => trim_end_matches SLASH stripped
    | None =>
        match strip_suffix "/v1" base with
        | Some stripped => trim_end_matches SLASH stripped
        | None =>
            match strip_suffix "/v1beta" base with
            | Some stripped => trim_end_matches SLASH stripped
            | None => base
            end
        end
    end in
  match s with
  | AnthropicMessages => base +:+ "/anthropic/v1"
  | GoogleGemini => base +:+ "/vertex-ai"
  | _ => base +:+ "/v1"
  end.

Definition ZenMuxProvider : Provider :=
  {| pv_id := "zenmux";
     metadata := bearer_metadata "ZenMux" "https://zenmux.ai/api" multi_protocols;
     auth := BearerAuthApplier;
     egress_protocol_for_model m :=
       if is_image_model m then images_generations
       else ProtocolSuite.default_endpoint (zenmux_suite_for_model m);
     egress_api_base raw_base e := api_base_for_suite raw_base (suite e);
     extra_headers := default_extra_headers |}.

(** [opencode.rs] *)
Definition opencode_suite_for_model (model_id : string) : ProtocolSuite :=
  let body := normalized_model_id model_id in
  if contains "image" body || contains "dall-e" body then OpenAiCompatible
  else if contains "gpt" body then OpenAiResponses
  else if contains "claude" body || contains "minimax" body || contains "qwen" body
  then AnthropicMessages
  else if contains "gemini" body then GoogleGemini
  else OpenAiCompatible.

Definition opencode_egress_protocol_for_model (model_id : string) : ProtocolEndpoint :=
  if is_image_model model_id then images_generations
  else ProtocolSuite.default_endpoint (opencode_suite_for_model model_id).

(** [hex::encode], and [Uuid::from_bytes(..).to_string()] *)
Class TextCrates := {
  hex_encode : string -> string;
  uuid_string : string -> string;
}.

Section Registry.
Context `{OAuthCrates} `{TextCrates}.

Definition opencode_session_id (caller_key_id : string) : string := hex_encode (sha256 caller_key_id).

Definition opencode (id name base : string) : Provider :=
  {| pv_id := id; metadata := bearer_metadata name base multi_protocols;
     auth := BearerAuthApplier;
     egress_protocol_for_model := opencode_egress_protocol_for_model;
     egress_api_base := default_egress_api_base;
     extra_headers caller_key_id := [("x-opencode-session", opencode_session_id caller_key_id)] |}.

Definition OpenCodeZenProvider : Provider :=
  opencode "opencode-zen" "OpenCodeZen" "https://opencode.ai/zen/v1".
Definition OpenCodeGoProvider : Provider :=
  opencode "opencode-go" "OpenCodeGo" "https://opencode.ai/zen/go/v1".

Definition bedrock_metadata : ProviderMetadata :=
  {| display_name := "AWS Bedrock"; base_url := "https://bedrock-runtime.us-east-1.amazonaws.com";
     auth_mode := AwsSigV4; channels := ["default"];
     protocols := [mk_endpoint AnthropicMessages "messages" "2023-06-01"]; defaults := Obj [] |}.

Definition BedrockProvider : Provider :=
  {| pv_id := "bedrock"; metadata := bedrock_metadata; auth := BedrockAuthApplier;
     egress_protocol_for_model := default_egress_protocol bedrock_metadata;
     egress_api_base := default_egress_api_base; extra_headers := default_extra_headers |}.

(** What the [submit!] calls register, in no particular order; [bedrock] is
    the feature of the build. *)
Definition registrations (env : string -> option string) (bedrock : bool) : list Provider :=
  [OpenAiProvider; AnthropicProvider; GeminiProvider; OpenAiCompatibleProvider env;
   OpenRouterProvider; DeepSeekProvider; MoonshotProvider; OllamaProvider; XaiProvider;
   ZhipuProvider; ZenMuxProvider; OpenCodeZenProvider; OpenCodeGoProvider]
  ++ (if bedrock then [BedrockProvider] else []).
End Registry.

(** [append_api_key_query] of [gemini.rs] *)
Definition unreserved (a : ascii) : bool :=
  let c := code a in
  (((65 <=? c) && (c <=? 90)) || ((97 <=? c) && (c <=? 122)) || ((48 <=? c) && (c <=? 57))
   || (c =? 45) || (c =? 46) || (c =? 95) || (c =? 126))%Z.

Definition hex_upper (d : Z) : ascii := if (d <=? 9)%Z then chr (48 + d) else chr (55 + d).

Fixpoint percent_encode_query_value (s : string) : string :=
  match s with
  | EmptyString => EmptyString
  | String a r =>
      if unreserved a then String a (percent_encode_query_value r)
      else String "%"%char (String (hex_upper (Z.shiftr (code a) 4))
             (String (hex_upper (Z.land (code a) 15)) (percent_encode_query_value r)))
  end.

Definition append_api_key_query (base_url api_key : string) : option string :=
  let separator := if contains_char "?"%char base_url then "&" else "?" in
  Some (base_url +:+ separator +:+ GEMINI_API_KEY_QUERY_PARAM +:+ "="
        +:+ percent_encode_query_value api_key).

(** [hex::encode] writes two ASCII digits for a byte. *)
Class TextCratesLaws (T : TextCrates) : Prop := {
  hex_encode_length s : String.length (hex_encode s) = (2 * String.length s)%nat;
  hex_encode_ascii s : is_ascii (hex_encode s) = true;
}.

(** An instance. *)
Definition hex_digit_of (d : Z) : ascii := if (d <=? 9)%Z then chr (48 + d) else chr (87 + d).

Fixpoint hex_text (s : string) : string :=
  match s with
  | EmptyString => EmptyString
  | String a r => String (hex_digit_of (Z.shiftr (code a) 4))
                    (String (hex_digit_of (Z.land (code a) 15)) (hex_text r))
  end.

Definition hex_crates : TextCrates := {| hex_encode := hex_text; uuid_string := hex_text |}.

Lemma hex_digits_ascii a :
  is_ascii_char (hex_digit_of (Z.shiftr (code a) 4)) = true
  /\ is_ascii_char (hex_digit_of (Z.land (code a) 15)) = true.
Proof. destruct a as [[] [] [] [] [] [] [] []]; split; reflexivity. Qed.

Lemma hex_crates_laws : TextCratesLaws hex_crates.
Proof.
  constructor; cbn.
  - induction s as [|a s IH]; cbn; [done|]. rewrite IH. lia.
  - unfold is_ascii. induction s as [|a s IH]; cbn; [done|].
    destruct (hex_digits_ascii a) as [-> ->]. exact IH.
Qed.

(** ** The registry

    [inventory] hands out the registrations in no particular order; the ids
    are distinct, so that a lookup does not depend on it. *)

Lemma find_provider_in (l : list Provider) id p :
  NoDup (map pv_id l) -> In p l -> pv_id p = id -> find_provider l id = Some p.
Proof.
  unfold find_provider. induction l as [|q l IH]; [done|]. cbn. intros [Hq Hn]%NoDup_cons [->|Hin] Ep.
  - by rewrite Ep, String.eqb_refl.
  - destruct (String.eqb_spec (pv_id q) id) as [E|_]; [|by apply IH].
    exfalso. apply Hq. rewrite E, <- Ep. by apply list_elem_of_In, in_map.
Qed.

Lemma find_provider_order (l l' : list Provider) id :
  NoDup (map pv_id l) -> Permutation l l' -> find_provider l' id = find_provider l id.
Proof.
  intros Hn Hp. assert (NoDup (map pv_id l')) as Hn' by (by rewrite <- Hp).
  destruct (find_provider l id) as [p|] eqn:E.
  - apply find_some in E as [Hin Ei]. apply String.eqb_eq in Ei. apply find_provider_in; [done| |done].
    by rewrite <- Hp.
  - unfold find_provider in *. destruct (List.find _ l') as [p|] eqn:E'; [|done].
    apply find_some in E' as [Hin Ei]. rewrite <- Hp in Hin. by rewrite (find_none _ _ E _ Hin) in Ei.
Qed.

Lemma registrations_distinct `{OAuthCrates} `{TextCrates} env bedrock :
  NoDup (map pv_id (registrations env bedrock)).
Proof. apply (bool_decide_unpack _). by destruct bedrock. Qed.

(** ** API bases *)

Lemma trim_end_matches_idem c s : trim_end_matches c (trim_end_matches c s) = trim_end_matches c s.
Proof.
  induction s as [|a s IH]; [done|]. cbn. destruct (trim_end_matches c s) as [|b t] eqn:E.
  - destruct (Ascii.eqb a c) eqn:Ea; cbn; [done|]. by rewrite Ea.
  - cbn [trim_end_matches] in *. by rewrite IH.
Qed.
