(* ===== verification/OAuthEffects.v ===== *)
(** * OAuthEffects: what the token manager does to the world

    The manager, its cache and its store run on the runtime: SQL statements
    on the shared database, process-local mutexes, a process-local cache,
    clocks, and requests to a token endpoint.  A task is a tree of such
    actions ([prog]); the world is the database with the open transactions,
    the advisory locks of PostgreSQL, the memory of every process and the
    tasks; [step] runs one action of one task, with what the environment
    decides (the answer of a server, the failure of a statement, the time) in
    a [Choice], and [reach] interleaves the tasks in any order.

    A transaction is the list of its writes so far, applied to the database
    when it commits; its statements see the committed database with its own
    writes. *)

From stdpp Require Import base option list gmap strings.
From Stdlib Require Import ZArith Lia Ascii.
From S2P Require Import Prelude RustStr F64 Json JsonBody Targets ProviderConfig OAuthTokens.

Local Open Scope string_scope.
Local Open Scope list_scope.

(** ** The database *)

Inductive DbKind := Sqlite | Postgres.

#[export] Instance DbKind_eq_dec : EqDecision DbKind.
Proof. solve_decision. Defined.

(** A row of [oauth_access_tokens]. *)
Record TokenRow := {
  t_access_token : string;
  t_expires_at : option string;
  t_version : Z;
  t_last_refresh_at : option string;
  t_next_keepalive_at : option string;
  t_next_retry_at : option string;
  t_failure_count : Z;
  t_updated_at : string;
}.

Record Db := {
  providers : gmap string ProviderRow;
  tokens : gmap string TokenRow;
  settings : gmap string string;
}.

(** The statements that write. *)
Inductive Write :=
| SetMeta (pid meta now : string)
| SetMetaIf (pid expected meta now : string)
| PutProvider (pid : string) (row : ProviderRow)
| PutToken (pid access : string) (expires : option string) (now keepalive : string)
| PutFailure (pid retry now : string)
| DeleteToken (pid : string).

(** [UPDATE providers SET encrypted_oauth_meta, updated_at] *)
Definition with_meta (meta now : string) (r : ProviderRow) : ProviderRow :=
  {| row_name := row_name r; row_vendor := row_vendor r; row_api_base := row_api_base r;
     row_models_endpoint := row_models_endpoint r; row_api_key := row_api_key r;
     row_auth_mode := row_auth_mode r; row_usage_key := row_usage_key r;
     row_oauth_meta := meta; row_metadata := row_metadata r; row_enabled := row_enabled r;
     row_created_at := row_created_at r; row_updated_at := now |}.

(** [ON CONFLICT(id) DO UPDATE]: every column but [created_at]. *)
Definition overwrite (old new : ProviderRow) : ProviderRow :=
  {| row_name := row_name new; row_vendor := row_vendor new; row_api_base := row_api_base new;
     row_models_endpoint := row_models_endpoint new; row_api_key := row_api_key new;
     row_auth_mode := row_auth_mode new; row_usage_key := row_usage_key new;
     row_oauth_meta := row_oauth_meta new; row_metadata := row_metadata new;
     row_enabled := row_enabled new; row_created_at := row_created_at old;
     row_updated_at := row_updated_at new |}.

Definition committed_token (access : string) (expires : option string) (now keepalive : string)
    (old : option TokenRow) : TokenRow :=
  {| t_access_token := access; t_expires_at := expires;
     t_version := match old with Some t => t_version t + 1 | None => 1 end;
     t_last_refresh_at := Some now; t_next_keepalive_at := Some keepalive;
     t_next_retry_at := None; t_failure_count := 0; t_updated_at := now |}%Z.

Definition failed_token (retry now : string) (old : option TokenRow) : TokenRow :=
  match old with
  | Some t =>
      {| t_access_token := t_access_token t; t_expires_at := t_expires_at t;
         t_version := t_version t; t_last_refresh_at := t_last_refresh_at t;
         t_next_keepalive_at := t_next_keepalive_at t; t_next_retry_at := Some retry;
         t_failure_count := t_failure_count t + 1; t_updated_at := now |}
  | None =>
      {| t_access_token := ""; t_expires_at := None; t_version := 0; t_last_refresh_at := None;
         t_next_keepalive_at := None; t_next_retry_at := Some retry; t_failure_count := 1;
         t_updated_at := now |}
  end%Z.

Definition put_provider (d : Db) (pid : string) (r : ProviderRow) : Db :=
  {| providers := <[pid := r]> (providers d); tokens := tokens d; settings := settings d |}.
Definition put_token (d : Db) (pid : string) (t : TokenRow) : Db :=
  {| providers := providers d; tokens := <[pid := t]> (tokens d); settings := settings d |}.
Definition delete_token (d : Db) (pid : string) : Db :=
  {| providers := providers d; tokens := delete pid (tokens d); settings := settings d |}.

(** A statement: the database after it and the number of rows it changed;
    a token row needs its provider (the foreign key). *)
Definition run_write (d : Db) (w : Write) : option (Db * Z) :=
  match w with
  | SetMeta pid meta now =>
      Some match providers d !! pid with
           | Some r => (put_provider d pid (with_meta meta now r), 1)
           | None => (d, 0)
           end
  | SetMetaIf pid expected meta now =>
      Some match providers d !! pid with
           | Some r => if String.eqb (row_oauth_meta r) expected
                       then (put_provider d pid (with_meta meta now r), 1) else (d, 0)
           | None => (d, 0)
           end
  | PutProvider pid row =>
      Some (put_provider d pid
              match providers d !! pid with Some old => overwrite old row | None => row end, 1)
  | PutToken pid access expires now keepalive =>
      match providers d !! pid with
      | Some _ => Some (put_token d pid
                          (committed_token access expires now keepalive (tokens d !! pid)), 1)
      | None => None
      end
  | PutFailure pid retry now =>
      match providers d !! pid with
      | Some _ => Some (put_token d pid (failed_token retry now (tokens d !! pid)), 1)
      | None => None
      end
  | DeleteToken pid =>
      Some (delete_token d pid, match tokens d !! pid with Some _ => 1 | None => 0 end)
  end%Z.

Definition apply_write (d : Db) (w : Write) : Db :=
  match run_write d w with Some (d', _) => d' | None => d end.

Definition apply_writes (d : Db) (ws : list Write) : Db := fold_left apply_write ws d.

(** The statements that read. *)
Inductive Query :=
| GetProvider (pid : string)
| GetToken (pid : string)
| GetSetting (key : string)
| GetDue (now : string) (limit : Z).

Definition rows (q : Query) : Set :=
  match q with
  | GetProvider _ => option ProviderRow
  | GetToken _ => option TokenRow
  | GetSetting _ => option string
  | GetDue _ _ => list string
  end.

(** Text comparison of the SQL engines on ASCII timestamps. *)
Definition text_le (a b : string) : bool :=
  match String.compare a b with Gt => false | _ => true end.

(** The condition of [list_due_provider_ids] on a joined row. *)
Definition due (now : string) (p : ProviderRow) (t : option TokenRow) : bool :=
  (row_enabled p =? 1)%Z && String.eqb (row_auth_mode p) "oauth"
  && negb (String.eqb (ascii_lowercase (row_vendor p)) "xai")
  && match t ≫= t_next_keepalive_at with Some k => text_le k now | None => true end
  && match t ≫= t_next_retry_at with Some r => text_le r now | None => true end.

Definition due_key (d : Db) (kv : string * ProviderRow) : string :=
  default (row_updated_at (snd kv)) (tokens d !! fst kv ≫= t_next_keepalive_at).

Definition due_ids (d : Db) (now : string) (limit : Z) : list string :=
  let rows := List.filter (fun kv => due now (snd kv) (tokens d !! fst kv))
                (map_to_list (providers d)) in
  take (Z.to_nat limit) (map fst (sort_by (fun a b => text_le (due_key d a) (due_key d b)) rows)).

Definition answer_query (d : Db) (q : Query) : rows q :=
  match q with
  | GetProvider pid => providers d !! pid
  | GetToken pid => tokens d !! pid
  | GetSetting key => settings d !! key
  | GetDue now limit => due_ids d now limit
  end.

(** ** The memory of a process *)

Record CachedToken := {
  c_access_token : string;
  c_refresh_token : string;
  c_expires_at : option Z;   (* an [Instant] *)
  c_account_id : option string;
  c_account_email : option string;
}.

(** The cache, the mutexes of its slow path by key, and the next mutex. *)
Record Memory := {
  cache : gmap string CachedToken;
  inflight : gmap string nat;
  next_mutex : nat;
}.

(** A mutex: the refresh lock of a provider, which is never dropped, or one
    of the mutexes of the cache. *)
Abbreviation LockName := (string + nat)%type.

(** ** Tasks *)

Inductive act :=
| Lock (l : string + nat)
| Unlock (l : string + nat)
| MutexFor (key : string)
| CacheRead (key : string)
| CacheWrite (key : string) (t : CachedToken)
| CacheSeed (key refresh : string)
| CacheReject (key rejected : string)
| CacheForget (prefix : string)
| Begin
| TryAdvisory (key : Z)
| Select (intx : bool) (q : Query)
| Execute (intx : bool) (w : Write)
| Commit
| Rollback
| DropTx
| RefreshSnapshot
| UtcNow
| InstantNow
| Sleep (d : Z)
| Nonce
| Send (pid : string) (r : HttpRequest)
| Receive (timeout : bool)
| Panics (p : panic)
| OutOfFuel.

Definition resp (a : act) : Set :=
  match a with
  | MutexFor _ => nat
  | CacheRead _ => option CachedToken
  | Begin | Commit | Rollback | RefreshSnapshot => result StoreError unit
  | TryAdvisory _ => result StoreError bool
  | Select _ q => result StoreError (rows q)
  | Execute _ _ => result StoreError Z
  | UtcNow | InstantNow => Z
  | Nonce => string
  | Receive _ => option HttpAnswer
  | Panics _ | OutOfFuel => Empty_set
  | _ => unit
  end.

Inductive prog (A : Type) : Type :=
| Ret (a : A)
| Vis (a : act) (k : resp a -> prog A).
Arguments Ret {A} a.
Arguments Vis {A} a k.

Definition call (a : act) : prog (resp a) := Vis a Ret.

Fixpoint prog_bind {A B} (f : A -> prog B) (m : prog A) : prog B :=
  match m with
  | Ret a => f a
  | Vis a k => Vis a (fun r => prog_bind f (k r))
  end.

#[export] Instance prog_mret : MRet prog := fun A a => Ret a.
#[export] Instance prog_mbind : MBind prog := fun A B f m => prog_bind f m.

(** [let x = m?;] in a function that returns a [Result]: the error is
    returned, converted by [f]. *)
Definition try_bind {E F A B} (f : E -> F) (m : prog (result E A)) (k : A -> prog (result F B))
    : prog (result F B) :=
  prog_bind (fun r => match r with Ok a => k a | Err e => Ret (Err (f e)) end) m.

Declare Scope task_scope.
Delimit Scope task_scope with task.
Notation "x <-? m ; k" := (try_bind (fun e => e) m (fun x => k%task))
  (at level 20, m at level 100, k at level 200, right associativity) : task_scope.
(** [m.map_err(|e| e.to_string())?] *)
Notation "x <-! m ; k" := (try_bind store_error_text m (fun x => k%task))
  (at level 20, m at level 100, k at level 200, right associativity) : task_scope.

(** ** The world *)

Record Task := {
  process : nat;
  tx : option (list Write);   (* the transaction it has open *)
  todo : prog unit;
}.

Record World := {
  db : Db;
  advisory : gmap Z nat;              (* key ↦ task *)
  locks : gmap (nat * LockName) nat;  (* process and mutex ↦ task *)
  memory : gmap nat Memory;
  clock : Z;                          (* the monotonic clock *)
  outstanding : list (nat * string);  (* requests in flight: task and provider *)
  sent : list (string * option string * Db);  (* provider, token presented, database then *)
  tasks : list Task;
}.

(** What the environment decides for one action. *)
Inductive Choice :=
| Done
| Fails (e : string) (applied : bool)
| Time (t : Z)
| Bytes (s : string)
| Answer (a : option HttpAnswer).

Definition empty_memory : Memory := {| cache := ∅; inflight := ∅; next_mutex := 0 |}.
Definition memory_of (w : World) (p : nat) : Memory := default empty_memory (memory w !! p).

Definition set_db (d : Db) (w : World) : World :=
  {| db := d; advisory := advisory w; locks := locks w; memory := memory w; clock := clock w;
     outstanding := outstanding w; sent := sent w; tasks := tasks w |}.
Definition set_advisory (a : gmap Z nat) (w : World) : World :=
  {| db := db w; advisory := a; locks := locks w; memory := memory w; clock := clock w;
     outstanding := outstanding w; sent := sent w; tasks := tasks w |}.
Definition set_locks (l : gmap (nat * LockName) nat) (w : World) : World :=
  {| db := db w; advisory := advisory w; locks := l; memory := memory w; clock := clock w;
     outstanding := outstanding w; sent := sent w; tasks := tasks w |}.
Definition set_memory (p : nat) (m : Memory) (w : World) : World :=
  {| db := db w; advisory := advisory w; locks := locks w; memory := <[p := m]> (memory w);
     clock := clock w; outstanding := outstanding w; sent := sent w; tasks := tasks w |}.
Definition set_clock (t : Z) (w : World) : World :=
  {| db := db w; advisory := advisory w; locks := locks w; memory := memory w; clock := t;
     outstanding := outstanding w; sent := sent w; tasks := tasks w |}.
Definition set_requests (o : list (nat * string)) (s : list (string * option string * Db))
    (w : World) : World :=
  {| db := db w; advisory := advisory w; locks := locks w; memory := memory w; clock := clock w;
     outstanding := o; sent := s; tasks := tasks w |}.
Definition set_tasks (l : list Task) (w : World) : World :=
  {| db := db w; advisory := advisory w; locks := locks w; memory := memory w; clock := clock w;
     outstanding := outstanding w; sent := sent w; tasks := l |}.

Definition set_cache (c : gmap string CachedToken) (m : Memory) : Memory :=
  {| cache := c; inflight := inflight m; next_mutex := next_mutex m |}.

(** The keys of [m] that do not start with [prefix]. *)
Definition forget {A} (prefix : string) (m : gmap string A) : gmap string A :=
  filter (fun kv => starts_with prefix (fst kv) = false) m.

Definition seeded (refresh : string) (old : option CachedToken) : CachedToken :=
  match old with
  | None => {| c_access_token := ""; c_refresh_token := refresh; c_expires_at := None;
               c_account_id := None; c_account_email := None |}
  | Some t => if is_empty (c_refresh_token t)
              then {| c_access_token := c_access_token t; c_refresh_token := refresh;
                      c_expires_at := c_expires_at t; c_account_id := c_account_id t;
                      c_account_email := c_account_email t |}
              else t
  end.

Definition rejected_token (t : CachedToken) : CachedToken :=
  {| c_access_token := ""; c_refresh_token := c_refresh_token t; c_expires_at := None;
     c_account_id := c_account_id t; c_account_email := c_account_email t |}.

Definition cache_reject (key rejected : string) (c : gmap string CachedToken)
    : gmap string CachedToken :=
  match c !! key with
  | Some t => if String.eqb (c_access_token t) rejected then <[key := rejected_token t]> c else c
  | None => c
  end.

(** What a task sees of the database inside its transaction. *)
Definition view (w : World) (open : option (list Write)) : Db :=
  apply_writes (db w) (default [] open).

(** The locks of task [t] given back. *)
Definition release_advisory (t : nat) (w : World) : World :=
  set_advisory (filter (fun kv => snd kv <> t) (advisory w)) w.

(** One action of task [t] of process [p], whose transaction is [open]: the
    world, the transaction and the response.  It does not run where it would
    block (a mutex that is held), where the environment's choice does not
    fit, and where there is nothing to run: a panic waits to be unwound. *)
Definition exec (w : World) (t p : nat) (open : option (list Write)) (a : act) (c : Choice)
    : option (World * option (list Write) * resp a) :=
  let m := memory_of w p in
  match a return option (World * option (list Write) * resp a) with
  | Lock l =>
      match locks w !! (p, l) with
      | None => Some (set_locks (<[(p, l) := t]> (locks w)) w, open, tt)
      | Some _ => None
      end
  | Unlock l => Some (set_locks (delete (p, l) (locks w)) w, open, tt)
  | MutexFor key =>
      match inflight m !! key with
      | Some n => Some (w, open, n)
      | None =>
          Some (set_memory p {| cache := cache m; inflight := <[key := next_mutex m]> (inflight m);
                                next_mutex := S (next_mutex m) |} w, open, next_mutex m)
      end
  | CacheRead key => Some (w, open, cache m !! key)
  | CacheWrite key tok => Some (set_memory p (set_cache (<[key := tok]> (cache m)) m) w, open, tt)
  | CacheSeed key refresh =>
      Some (set_memory p (set_cache (<[key := seeded refresh (cache m !! key)]> (cache m)) m) w,
            open, tt)
  | CacheReject key rejected =>
      Some (set_memory p (set_cache (cache_reject key rejected (cache m)) m) w, open, tt)
  | CacheForget prefix =>
      Some (set_memory p {| cache := forget prefix (cache m);
                            inflight := forget prefix (inflight m);
                            next_mutex := next_mutex m |} w, open, tt)
  | Begin =>
      match c with
      | Fails e _ => Some (w, open, Err (DbError e))
      | _ => Some (w, Some [], Ok tt)
      end
  | TryAdvisory key =>
      match open, c with
      | None, _ => None
      | Some _, Fails e _ => Some (w, open, Err (DbError e))
      | Some _, _ =>
          match advisory w !! key with
          | None => Some (set_advisory (<[key := t]> (advisory w)) w, open, Ok true)
          | Some o => Some (w, open, Ok (Nat.eqb o t))
          end
      end
  | Select intx q =>
      match c with
      | Fails e _ => Some (w, open, Err (DbError e))
      | _ => Some (w, open, Ok (answer_query (view w (if intx then open else None)) q))
      end
  | Execute false u =>
      match c, run_write (db w) u with
      | Fails e applied, _ =>
          Some (if applied then set_db (apply_write (db w) u) w else w, open, Err (DbError e))
      | _, None => Some (w, open, Err (DbError "FOREIGN KEY constraint failed"))
      | _, Some (d, n) => Some (set_db d w, open, Ok n)
      end
  | Execute true u =>
      match open, c with
      | None, _ => None
      | Some _, Fails e _ => Some (w, open, Err (DbError e))
      | Some ws, _ =>
          match run_write (view w open) u with
          | None => Some (w, open, Err (DbError "FOREIGN KEY constraint failed"))
          | Some (_, n) => Some (w, Some (ws ++ [u]), Ok n)
          end
      end
  | Commit =>
      let done := release_advisory t (set_db (view w open) w) in
      match c with
      | Fails e applied =>
          Some (if applied then done else release_advisory t w, None, Err (DbError e))
      | _ => Some (done, None, Ok tt)
      end
  | Rollback =>
      match c with
      | Fails e _ => Some (release_advisory t w, None, Err (DbError e))
      | _ => Some (release_advisory t w, None, Ok tt)
      end
  | DropTx => Some (release_advisory t w, None, tt)
  | RefreshSnapshot =>
      match c with Fails e _ => Some (w, open, Err (DbError e)) | _ => Some (w, open, Ok tt) end
  | UtcNow => match c with Time x => Some (w, open, x) | _ => None end
  | InstantNow =>
      match c with
      | Time x => if (clock w <=? x)%Z then Some (set_clock x w, open, x) else None
      | _ => None
      end
  | Sleep d =>
      match c with
      | Time x => if (clock w + d <=? x)%Z then Some (set_clock x w, open, tt) else None
      | _ => None
      end
  | Nonce =>
      match c with
      | Bytes s => if Nat.eqb (String.length s) 12 then Some (w, open, s) else None
      | _ => None
      end
  | Send pid r =>
      Some (set_requests (outstanding w ++ [(t, pid)])
              (sent w ++ [(pid, presented_refresh_token r, db w)]) w, open, tt)
  | Receive timeout =>
      let back := set_requests (List.filter (fun o => negb (Nat.eqb (fst o) t)) (outstanding w))
                    (sent w) w in
      match c with
      | Answer (Some a) => Some (back, open, Some a)
      | Answer None => if timeout then Some (back, open, None) else None
      | _ => None
      end
  | Panics _ | OutOfFuel => None
  end.

(** Task [t] runs one action. *)
Definition step_task (w : World) (t : nat) (c : Choice) : option World :=
  thr ← tasks w !! t;
  match todo thr with
  | Ret _ => None
  | Vis a k =>
      '(w', open, r) ← exec w t (process thr) (tx thr) a c;
      Some (set_tasks (<[t := {| process := process thr; tx := open; todo := k r |}]> (tasks w)) w')
  end.

(** Task [t] is dropped before it is done, or unwinds from a panic: its
    guards and its transaction are dropped with it, and nobody waits for its
    request. *)
Definition cancel_task (w : World) (t : nat) : option World :=
  thr ← tasks w !! t;
  match todo thr with
  | Ret _ => None
  | Vis _ _ =>
      let w := release_advisory t w in
      let w := set_locks (filter (fun kv => snd kv <> t) (locks w)) w in
      let w := set_requests (List.filter (fun o => negb (Nat.eqb (fst o) t)) (outstanding w))
                 (sent w) w in
      Some (set_tasks (<[t := {| process := process thr; tx := None; todo := Ret tt |}]> (tasks w)) w)
  end.

Inductive step : World -> World -> Prop :=
| step_runs w t c w' : step_task w t c = Some w' -> step w w'
| step_cancels w t w' : cancel_task w t = Some w' -> step w w'.

Inductive reach (w0 : World) : World -> Prop :=
| reach_start : reach w0 w0
| reach_step w w' : reach w0 w -> step w w' -> reach w0 w'.

(** Nothing has run: no locks, no open transaction, no request. *)
Definition initial (d : Db) (now : Z) (ts : list (nat * prog unit)) : World :=
  {| db := d; advisory := ∅; locks := ∅; memory := ∅; clock := now; outstanding := []; sent := [];
     tasks := map (fun pc => {| process := fst pc; tx := None; todo := snd pc |}) ts |}.

(** A schedule: which task runs and what the environment decides. *)
Fixpoint run_schedule (w : World) (s : list (nat * Choice)) : option World :=
  match s with
  | [] => Some w
  | (t, c) :: s' => step_task w t c ≫= fun w' => run_schedule w' s'
  end.

(** A task whose result nobody reads. *)
Definition task_of {A} (m : prog A) : prog unit := prog_bind (fun _ => Ret tt) m.

(** ** Guards *)

(** [let _guard = mutex.lock().await; body] *)
Definition with_lock {A} (l : LockName) (body : prog A) : prog A :=
  prog_bind (fun _ => prog_bind (fun r => prog_bind (fun _ => Ret r) (call (Unlock l))) body)
    (call (Lock l)).

(** The transaction of [body] is dropped when [body] returns. *)
Definition with_tx {A} (body : prog A) : prog A :=
  prog_bind (fun r => prog_bind (fun _ => Ret r) (call DropTx)) body.

(** ** Lemmas *)

Lemma reach_schedule w s w' : run_schedule w s = Some w' -> reach w w'.
Proof.
  intros H. assert (forall u, reach w u -> run_schedule u s = Some w' -> reach w w') as Hs.
  { clear H. induction s as [|[t c] s IH]; intros u Hu; cbn.
    - by intros [= <-].
    - destruct (step_task u t c) as [v|] eqn:E; [|done]. cbn. apply IH.
      apply (reach_step _ u v Hu). by apply (step_runs u t c). }
  apply (Hs w); [constructor|done].
Qed.
