(* ===== verification/OAuthStore.v ===== *)
(** * OAuthStore: shared access tokens and stored credentials

    [crates/store/src/oauth_token.rs], and the operations of
    [crates/store/src/config_store.rs] that read and write the OAuth metadata
    of a provider, as tasks: one action per SQL statement. *)

From stdpp Require Import base option list gmap strings.
From Stdlib Require Import ZArith Lia Ascii.
From S2P Require Import Prelude RustStr F64 Json JsonBody Encryption.
From S2P Require Import ProviderConfig OAuthTokens OAuthEffects.

Local Open Scope string_scope.
Local Open Scope list_scope.
Local Open Scope task_scope.

Record OAuthAccessTokenState := {
  s_provider_id : string;
  s_access_token : string;
  s_access_expires_at : option Z;
  s_credential_version : Z;
  s_last_refresh_at : option Z;
  s_next_keepalive_at : option Z;
  s_next_retry_at : option Z;
  s_failure_count : Z;
}.

Record OAuthTokenCommit := {
  commit_provider_id : string;
  commit_access_token : string;
  commit_expires_at : option Z;
  commit_meta_plain : string;
  commit_next_keepalive_at : Z;
}.

(** [i64::from_be_bytes] of the first eight bytes. *)
Fixpoint be_bytes (n : nat) (acc : Z) (s : string) : Z :=
  match n, s with
  | S n', String a r => be_bytes n' (acc * 256 + code a) r
  | _, _ => acc
  end.

Definition i64_of_be (s : string) : Z :=
  let x := be_bytes 8 0 s in if (x <=? i64_max)%Z then x else (x - 18446744073709551616)%Z.

Definition advisory_lock_key `{OAuthCrates} (provider_id : string) : Z :=
  i64_of_be (sha256 ("tiygate/oauth-refresh/" +:+ provider_id)).

Section Store.
Context `{Crypto, SerdeJson, Chrono, OAuthCrates}.
(** The backend and the master key of the process. *)
Context (kind : DbKind) (encryption : option KeyEncryption).

(** [f()?] for a computation without effects *)
Definition pure {E A} (r : result E A) : prog (result E A) := Ret r.

(** ** Columns *)

Definition parse_optional_timestamp (value : option string) : result StoreError (option Z) :=
  match value with
  | None => Ok None
  | Some raw =>
      match parse_from_rfc3339 raw with
      | inr t => Ok (Some t)
      | inl e => Err (InvalidInput ("invalid OAuth timestamp: " +:+ e))
      end
  end.

Definition decrypt_access_token (value : string) : result StoreError string :=
  if is_empty value then Ok ""
  else match encryption with
       | Some enc => match decrypt_oauth_access_token enc value with
                     | Ok plain => Ok plain
                     | Err e => Err (Decrypt (encryption_error_text e))
                     end
       | None => Ok value
       end.

(** A column encrypted with a fresh nonce. *)
Definition seal (encrypt : KeyEncryption -> string -> string -> result EncryptionError string)
    (plain : string) : prog (result StoreError string) :=
  match encryption with
  | Some _ => prog_bind (fun nonce => Ret (column_of encrypt encryption nonce plain)) (call Nonce)
  | None => Ret (Ok plain)
  end.

Definition encrypt_access_token : string -> prog (result StoreError string) :=
  seal encrypt_oauth_access_token.
Definition encrypt_meta : string -> prog (result StoreError string) := seal encrypt_oauth_meta.

Definition row_to_state (pid : string) (r : TokenRow) : result StoreError OAuthAccessTokenState :=
  token ← decrypt_access_token (t_access_token r);
  expires ← parse_optional_timestamp (t_expires_at r);
  last ← parse_optional_timestamp (t_last_refresh_at r);
  keepalive ← parse_optional_timestamp (t_next_keepalive_at r);
  retry ← parse_optional_timestamp (t_next_retry_at r);
  Ok {| s_provider_id := pid; s_access_token := token; s_access_expires_at := expires;
        s_credential_version := t_version r; s_last_refresh_at := last;
        s_next_keepalive_at := keepalive; s_next_retry_at := retry;
        s_failure_count := t_failure_count r |}.

(** ** [OAuthTokenStore] *)

(** [load] and [load_in_transaction] *)
Definition load_token (intx : bool) (pid : string)
    : prog (result StoreError (option OAuthAccessTokenState)) :=
  row <-? call (Select intx (GetToken pid));
  match row with
  | Some r => Ret (s ← row_to_state pid r; Ok (Some s))
  | None => Ret (Ok None)
  end.

Definition load : string -> prog (result StoreError (option OAuthAccessTokenState)) :=
  load_token false.
Definition load_in_transaction : string -> prog (result StoreError (option OAuthAccessTokenState)) :=
  load_token true.

(** [Some] transaction is [true]: it stays open. *)
Definition try_begin_postgres_refresh (pid : string) : prog (result StoreError bool) :=
  match kind with
  | Sqlite => Ret (Err (InvalidInput
      "PostgreSQL OAuth advisory lock requested for a non-PostgreSQL database"))
  | Postgres =>
      _ <-? call Begin;
      prog_bind (fun acquired =>
        match acquired with
        | Ok true => Ret (Ok true)
        | Ok false => _ <-? call Rollback; Ret (Ok false)
        | Err e => prog_bind (fun _ => Ret (Err e)) (call DropTx)
        end) (call (TryAdvisory (advisory_lock_key pid)))
  end.

Definition commit_success_in_transaction (c : OAuthTokenCommit) : prog (result StoreError Z) :=
  let pid := commit_provider_id c in
  access <-? encrypt_access_token (commit_access_token c);
  meta <-? encrypt_meta (commit_meta_plain c);
  prog_bind (fun t =>
    let now := to_rfc3339 t in
    let expires := to_rfc3339 <$> commit_expires_at c in
    let keepalive := to_rfc3339 (commit_next_keepalive_at c) in
    affected <-? call (Execute true (SetMeta pid meta now));
    if (affected =? 0)%Z then Ret (Err (NotFound ("provider " +:+ pid)))
    else
      _ <-? call (Execute true (PutToken pid access expires now keepalive));
      row <-? call (Select true (GetToken pid));
      match row with
      | Some r => Ret (Ok (t_version r))
      | None => Ret (Err (DbError "no rows returned by a query that expected to return at least one row"))
      end) (call UtcNow).

Definition commit_success (c : OAuthTokenCommit) : prog (result StoreError Z) :=
  _ <-? call Begin;
  with_tx (version <-? commit_success_in_transaction c; _ <-? call Commit; Ret (Ok version)).

Definition reset_in_transaction (pid : string) (oauth_meta_plain : option string)
    : prog (result StoreError unit) :=
  _ <-? match oauth_meta_plain with
        | Some plain =>
            meta <-? encrypt_meta plain;
            prog_bind (fun t =>
              affected <-? call (Execute true (SetMeta pid meta (to_rfc3339 t)));
              if (affected =? 0)%Z then Ret (Err (NotFound ("provider " +:+ pid)))
              else Ret (Ok tt)) (call UtcNow)
        | None => Ret (Ok tt)
        end;
  _ <-? call (Execute true (DeleteToken pid));
  Ret (Ok tt).

Definition reset (pid : string) (oauth_meta_plain : option string)
    : prog (result StoreError unit) :=
  _ <-? call Begin;
  with_tx (_ <-? reset_in_transaction pid oauth_meta_plain; _ <-? call Commit; Ret (Ok tt)).

Definition record_failure_in_transaction (pid : string) (next_retry_at : Z)
    : prog (result StoreError unit) :=
  prog_bind (fun t =>
    _ <-? call (Execute true (PutFailure pid (to_rfc3339 next_retry_at) (to_rfc3339 t)));
    Ret (Ok tt)) (call UtcNow).

Definition record_failure (pid : string) (next_retry_at : Z) : prog (result StoreError unit) :=
  _ <-? call Begin;
  with_tx (_ <-? record_failure_in_transaction pid next_retry_at; _ <-? call Commit; Ret (Ok tt)).

Definition list_due_provider_ids (now limit : Z) : prog (result StoreError (list string)) :=
  call (Select false (GetDue (to_rfc3339 now) (Z.max limit 1))).

(** ** [DbConfigStore] *)

(** [get_provider] and [get_provider_in_transaction] *)
Definition select_provider (intx : bool) (pid : string)
    : prog (result StoreError (option Provider)) :=
  row <-? call (Select intx (GetProvider pid));
  Ret (read_provider encryption pid row).

Definition get_provider : string -> prog (result StoreError (option Provider)) :=
  select_provider false.
Definition get_provider_in_transaction : string -> prog (result StoreError (option Provider)) :=
  select_provider true.

(** [settings_keys::get_u64] *)
Definition get_u64 (key : string) (d : Z) : prog Z :=
  prog_bind (fun r => match r with
                      | Ok (Some v) => Ret (default d (parse_u64 v))
                      | _ => Ret d
                      end) (call (Select false (GetSetting key))).

Definition set_provider_oauth_meta (pid plain : string) : prog (result StoreError unit) :=
  meta <-? encrypt_meta plain;
  prog_bind (fun t =>
    affected <-? call (Execute false (SetMeta pid meta (to_rfc3339 t)));
    if (affected =? 0)%Z then Ret (Err (NotFound ("provider " +:+ pid)))
    else _ <-? call RefreshSnapshot; Ret (Ok tt)) (call UtcNow).

Definition set_provider_oauth_meta_if_unchanged (pid expected plain : string)
    : prog (result StoreError bool) :=
  meta <-? encrypt_meta plain;
  prog_bind (fun t =>
    affected <-? call (Execute false (SetMetaIf pid expected meta (to_rfc3339 t)));
    Ret (Ok (affected =? 1)%Z)) (call UtcNow).

(** [oauth_status_metadata] reads the clock itself. *)
Definition status_metadata (p : Provider) (status : OAuthCredentialStatus)
    (reason : option string) : prog (result StoreError string) :=
  prog_bind (fun t => Ret (oauth_status_metadata t p status reason)) (call UtcNow).

Definition set_provider_oauth_status_if_unchanged (p : Provider) (status : OAuthCredentialStatus)
    (reason : option string) : prog (result StoreError bool) :=
  serialized <-? status_metadata p status reason;
  updated <-? set_provider_oauth_meta_if_unchanged (id p) (encrypted_oauth_meta p) serialized;
  if updated : bool then _ <-? call RefreshSnapshot; Ret (Ok true) else Ret (Ok false).

Definition MAX_CAS_ATTEMPTS : nat := 4.

Fixpoint set_status_attempts (n : nat) (pid : string) (status : OAuthCredentialStatus)
    (reason : option string) : prog (result StoreError unit) :=
  match n with
  | 0%nat => Ret (Err (InvalidInput ("provider " +:+ pid +:+
                     " OAuth metadata changed repeatedly while updating status")))
  | S n' =>
      found <-? get_provider pid;
      match found with
      | None => Ret (Err (NotFound ("provider " +:+ pid)))
      | Some p =>
          serialized <-? status_metadata p status reason;
          updated <-? set_provider_oauth_meta_if_unchanged pid (encrypted_oauth_meta p) serialized;
          if updated : bool then _ <-? call RefreshSnapshot; Ret (Ok tt)
          else set_status_attempts n' pid status reason
      end
  end.

Definition set_provider_oauth_status : string -> OAuthCredentialStatus -> option string ->
    prog (result StoreError unit) := set_status_attempts MAX_CAS_ATTEMPTS.

(** The fields an upsert is called with. *)
Record ProviderUpsert := {
  u_name : string;
  u_vendor : string;
  u_api_base : string;
  u_models_endpoint : string;
  u_api_key : option string;
  u_auth_mode : AuthMode;
  u_oauth_meta : option string;
  u_metadata : Value;
  u_enabled : bool;
  u_usage_key : option string;
}.

(** A column of an upsert: the new plaintext, or what the row held. *)
Definition upsert_column
    (encrypt : KeyEncryption -> string -> string -> result EncryptionError string)
    (plain : option string) (old : option string) : prog (result StoreError string) :=
  match plain with
  | Some s => seal encrypt s
  | None => Ret (Ok (default "" old))
  end.

Definition usage_column (plain : option string) (old : option string)
    : prog (result StoreError string) :=
  match plain with
  | Some s => if is_empty (trim s) then Ret (Ok "") else seal encrypt_usage_management_key (trim s)
  | None => Ret (Ok (default "" old))
  end.

Definition upsert_provider_with_usage_management_key (pid : string) (u : ProviderUpsert)
    : prog (result StoreError Provider) :=
  match validate_provider_auth_mode (u_vendor u) (u_auth_mode u) with
  | Err e => Ret (Err (InvalidInput e))
  | Ok _ =>
      prog_bind (fun t =>
        let now := to_rfc3339 t in
        existing <-? get_provider pid;
        api_key <-? upsert_column encrypt_api_key (u_api_key u) (encrypted_api_key <$> existing);
        meta <-? upsert_column encrypt_oauth_meta (u_oauth_meta u) (encrypted_oauth_meta <$> existing);
        usage <-? usage_column (u_usage_key u) (encrypted_usage_management_key <$> existing);
        _ <-? call (Execute false (PutProvider pid
          {| row_name := u_name u; row_vendor := u_vendor u; row_api_base := u_api_base u;
             row_models_endpoint := u_models_endpoint u; row_api_key := api_key;
             row_auth_mode := AuthMode.as_str (u_auth_mode u); row_usage_key := usage;
             row_oauth_meta := meta; row_metadata := to_string (u_metadata u);
             row_enabled := if u_enabled u then 1 else 0;
             row_created_at := match existing with
                               | Some p => to_rfc3339 (created_at p)
                               | None => now
                               end;
             row_updated_at := now |}));
        _ <-? call RefreshSnapshot;
        found <-? get_provider pid;
        match found with
        | Some p => Ret (Ok p)
        | None => Ret (Err (NotFound ("provider " +:+ pid +:+ " disappeared post-upsert")))
        end) (call UtcNow)
  end.
End Store.
