(* ===== verification/OAuthCache.v ===== *)
(** * OAuthCache: the process-local token cache

    [OAuthTokenCache] and [inject_token] of
    [crates/auth/src/provider_oauth.rs].  Header names and values are checked
    by the [http] crate: the class [HttpHeaders] of [Http].  Durations and instants are
    nanoseconds. *)

From stdpp Require Import base option list gmap strings.
From Stdlib Require Import ZArith Lia Ascii.
From S2P Require Import Prelude RustStr F64 Json JsonBody Classify Targets Http.
From S2P Require Import Health ProviderConfig OAuthTokens OAuthEffects.

Local Open Scope string_scope.
Local Open Scope list_scope.
Local Open Scope task_scope.

Definition REFRESH_LEEWAY : Z := 60 * ns_per_sec.

(** [Instant::now() + duration] *)
Definition instant_after (duration : Z) : prog Z :=
  prog_bind (fun now =>
    match instant_add now duration with
    | Ok t => Ret t
    | Err e => Vis (Panics e) (fun r : Empty_set => match r with end)
    end) (call InstantNow).

Record OAuthTokenIdentity := { i_account_id : option string; i_account_email : option string }.

Definition cache_key (provider_id label : string) : string := provider_id +:+ ":" +:+ label.

(** [CachedToken::is_expiring]; [saturating_duration_since] is zero for an
    instant that has passed. *)
Definition is_expiring (t : CachedToken) (now : Z) : bool :=
  match c_expires_at t with
  | Some e => (sat_sub e now <=? REFRESH_LEEWAY)%Z
  | None => false
  end.

(** [!cached.is_expiring() && !cached.access_token.is_empty()]: the clock is
    read for a token that expires. *)
Definition usable (t : CachedToken) : prog bool :=
  match c_expires_at t with
  | Some _ =>
      prog_bind (fun now => Ret (negb (is_expiring t now) && negb (is_empty (c_access_token t))))
        (call InstantNow)
  | None => Ret (negb (is_empty (c_access_token t)))
  end.

Section Inject.
Context `{HttpHeaders}.

Definition named_header (what : string) (name value : string) (hs : HeaderMap)
    : result string HeaderMap :=
  match header_value_of value with
  | inl e => Err ("invalid header value for " +:+ what +:+ ": " +:+ e)
  | inr v =>
      match header_name_of name with
      | inl e => Err ("invalid header name " +:+ what +:+ ": " +:+ e)
      | inr n => Ok (<[n := v]> hs)
      end
  end.

Fixpoint insert_extra (extra : list (string * string)) (hs : HeaderMap) : result string HeaderMap :=
  match extra with
  | [] => Ok hs
  | (name, value) :: r =>
      hs' ← named_header ("'" +:+ name +:+ "'") name value hs;
      insert_extra r hs'
  end.

Definition inject_token (hs : HeaderMap) (access_token : string) (account : option string)
    (oauth : OAuthTargetConfig) : result string HeaderMap :=
  hs ← match header_value_of (OAuthTargetConfig.bearer_prefix oauth +:+ access_token) with
       | inl e => Err ("invalid header value for OAuth token: " +:+ e)
       | inr v =>
           match header_name_of (OAuthTargetConfig.header_name oauth) with
           | inl e => Err ("invalid header name for OAuth token: " +:+ e)
           | inr n => Ok (<[n := v]> hs)
           end
       end;
  hs ← insert_extra (extra_headers oauth) hs;
  if has_header "chatgpt-account-id" (extra_headers oauth) then
    match nonempty account with
    | None => Ok hs
    | Some a =>
        match header_value_of a with
        | inl e => Err ("invalid ChatGPT account header value: " +:+ e)
        | inr v => Ok (<["chatgpt-account-id" := v]> hs)
        end
    end
  else Ok hs.

(** ** Operations of the cache *)

Definition seed (provider_id label refresh : string) : prog unit :=
  call (CacheSeed (cache_key provider_id label) refresh).

Definition seed_tokens_with_identity (provider_id label access refresh : string)
    (expires_in : option Z) (identity : OAuthTokenIdentity) : prog unit :=
  prog_bind (fun expires =>
    call (CacheWrite (cache_key provider_id label)
      {| c_access_token := access; c_refresh_token := refresh; c_expires_at := expires;
         c_account_id := i_account_id identity; c_account_email := i_account_email identity |}))
  (match expires_in with
   | Some d => prog_bind (fun t => Ret (Some t)) (instant_after d)
   | None => Ret None
   end).

Definition seed_tokens (provider_id label access refresh : string) (expires_in : option Z)
    : prog unit :=
  seed_tokens_with_identity provider_id label access refresh expires_in
    {| i_account_id := None; i_account_email := None |}.

Definition get_from {A} (f : CachedToken -> option A) (provider_id label : string) : prog (option A) :=
  prog_bind (fun o => Ret (o ≫= f)) (call (CacheRead (cache_key provider_id label))).

Definition get_refresh_token := get_from (fun t => Some (c_refresh_token t)).
Definition get_account_email := get_from c_account_email.
Definition get_account_id := get_from c_account_id.
Definition get_access_token := get_from (fun t => nonempty (Some (c_access_token t))).

Definition invalidate_access_token_if_matches (provider_id label rejected : string) : prog unit :=
  call (CacheReject (cache_key provider_id label) rejected).

Definition invalidate_provider (provider_id : string) : prog unit :=
  call (CacheForget (provider_id +:+ ":")).

(** [None] is [Ok(false)]: the headers are untouched. *)
Definition apply_cached (hs : HeaderMap) (provider_id label : string) (oauth : OAuthTargetConfig)
    : prog (result string (option HeaderMap)) :=
  prog_bind (fun found =>
    match found with
    | None => Ret (Ok None)
    | Some t =>
        prog_bind (fun ok : bool =>
          if ok then
            Ret (hs' ← inject_token hs (c_access_token t) (or_else (c_account_id t) (Targets.account_id oauth)) oauth;
                 Ok (Some hs'))
          else Ret (Ok None)) (usable t)
    end) (call (CacheRead (cache_key provider_id label))).

Context `{OAuthCrates, SerdeJson}.

(** [do_refresh_token]; the outer option is the timeout around it. *)
Definition do_refresh_token (timeout : bool) (provider_id refresh : string)
    (oauth : OAuthTargetConfig) : prog (option (result string TokenResult)) :=
  prog_bind (fun _ =>
    prog_bind (fun a => Ret (token_answer "refresh" <$> a)) (call (Receive timeout)))
  (call (Send provider_id
    (refresh_request (token_url oauth) (client_id oauth) refresh (scopes oauth)
       (token_request_style oauth)))).

(** Seconds of a token response as a duration. *)
Definition lifetime (r : TokenResult) : option Z := (fun s => s * ns_per_sec)%Z <$> expires_in r.

(** The refresh under the mutex of the key. *)
Definition refresh_into_cache (hs : HeaderMap) (provider_id label : string)
    (oauth : OAuthTargetConfig) : prog (result string HeaderMap) :=
  let key := cache_key provider_id label in
  prog_bind (fun cached =>
    let refresh := match cached with
                   | Some t => c_refresh_token t
                   | None => refresh_token oauth
                   end in
    if is_empty refresh then
      Ret (Err ("no refresh_token available for OAuth key " +:+ key +:+
                "; run the admin OAuth flow first"))
    else
      prog_bind (fun answer =>
        match answer with
        | None => Ret (Err "")   (* no timeout here *)
        | Some (Err e) => Ret (Err e)
        | Some (Ok r) =>
            prog_bind (fun expires =>
              prog_bind (fun email =>
                prog_bind (fun account =>
                  let account := or_else account (Targets.account_id oauth) in
                  prog_bind (fun _ => Ret (inject_token hs (access_token r) account oauth))
                    (call (CacheWrite key
                      {| c_access_token := access_token r;
                         c_refresh_token := default refresh (new_refresh_token r);
                         c_expires_at := expires; c_account_id := account;
                         c_account_email := email |})))
                (match OAuthTokens.account_id r with
                 | Some a => Ret (Some a)
                 | None => get_account_id provider_id label
                 end))
              (match account_email r with
               | Some e => Ret (Some e)
               | None => get_account_email provider_id label
               end))
            (match lifetime r with
             | Some d => prog_bind (fun t => Ret (Some t)) (instant_after d)
             | None => Ret None
             end)
        end) (do_refresh_token false provider_id refresh oauth))
  (call (CacheRead key)).

(** [OAuthTokenCache::apply] *)
Definition apply_oauth (hs : HeaderMap) (provider_id label : string) (oauth : OAuthTargetConfig)
    : prog (result string HeaderMap) :=
  fast <-? apply_cached hs provider_id label oauth;
  match fast with
  | Some hs' => Ret (Ok hs')
  | None =>
      prog_bind (fun mutex =>
        with_lock (inr mutex)
          (again <-? apply_cached hs provider_id label oauth;
           match again with
           | Some hs' => Ret (Ok hs')
           | None => refresh_into_cache hs provider_id label oauth
           end)) (call (MutexFor (cache_key provider_id label)))
  end.
End Inject.
