(* ===== verification/OAuthManager.v ===== *)
(** * OAuthManager: the token lifecycle

    [OAuthTokenManager] of [crates/server/src/oauth_manager.rs], every method
    as a task: the cached fast path, the shared state in the database, and the
    refresh coordinated by the process-local mutex of the provider and, on
    PostgreSQL, by its advisory lock. *)

From stdpp Require Import base option list gmap strings.
From stdpp Require Import pretty.
From Stdlib Require Import ZArith Lia Ascii.
From S2P Require Import Prelude RustStr Http F64 Json JsonBody Classify Targets Health Encryption.
From S2P Require Import ProviderConfig OAuthTokens OAuthEffects OAuthStore OAuthCache.

Local Open Scope string_scope.
Local Open Scope list_scope.
Local Open Scope task_scope.

Definition ACCESS_TOKEN_LEEWAY : Z := 60 * ns_per_sec.
Definition DEFAULT_KEEPALIVE_INTERVAL_SECS : Z := 7 * 24 * 60 * 60.
Definition REFRESH_LOCK_WAIT : Z := 5 * ns_per_sec.
Definition REFRESH_LOCK_POLL : Z := 25 * 1000000.
Definition OAUTH_KEEPALIVE_INTERVAL_SECS : string := "gateway.oauth.keepalive.interval_secs".

(** The attempts of the longest wait: one per [REFRESH_LOCK_POLL] of
    [REFRESH_LOCK_WAIT], and the one after the deadline. *)
Definition LOCK_POLLS : nat := 201.

Inductive OAuthRefreshMode := IfNeeded | Force | Keepalive.
Inductive OAuthRefreshOutcome := Refreshed | ReusedShared | Skipped.

#[export] Instance OAuthRefreshMode_eq_dec : EqDecision OAuthRefreshMode.
Proof. solve_decision. Defined.

(** ** Instants of the wall clock *)

(** The last instant chrono represents: the end of the year 262142. *)
Definition utc_limit : Z := 8210266876799 * ns_per_sec + 999999999.

(** [Utc::now() + d] *)
Definition utc_after (d : Z) : prog Z :=
  prog_bind (fun now =>
    if (now + d <=? utc_limit)%Z then Ret (now + d)%Z
    else Vis (Panics DateTimeOverflow) (fun r : Empty_set => match r with end)) (call UtcNow).

(** [chrono::Duration::from_std]: at most [i64::MAX] milliseconds. *)
Definition from_std (d : Z) : option Z := if (d <=? i64_max * 1000000)%Z then Some d else None.

(** [(t - Utc::now()).to_std().ok()] *)
Definition remaining (t : Z) : prog (option Z) :=
  prog_bind (fun now => Ret (if (now <=? t)%Z then Some (t - now)%Z else None)) (call UtcNow).

(** [o.is_some_and(|t| t > Utc::now())]: the clock is read for a [Some]. *)
Definition still_ahead (o : option Z) : prog bool :=
  match o with
  | Some t => prog_bind (fun now => Ret (now <? t)%Z) (call UtcNow)
  | None => Ret false
  end.

Definition refresh_backoff_is_active (s : OAuthAccessTokenState) : prog bool :=
  still_ahead (s_next_retry_at s).

(** [state.as_ref().is_some_and(refresh_backoff_is_active)] *)
Definition backoff_active (s : option OAuthAccessTokenState) : prog bool :=
  match s with Some s => refresh_backoff_is_active s | None => Ret false end.

Definition shared_token_is_usable (s : OAuthAccessTokenState) (rejected : option string)
    : prog bool :=
  if is_empty (s_access_token s)
     || match rejected with Some r => String.eqb r (s_access_token s) | None => false end
  then Ret false
  else match s_access_expires_at s with
       | None => Ret true
       | Some e => prog_bind (fun t => Ret (t <? e)%Z) (utc_after ACCESS_TOKEN_LEEWAY)
       end.

(** [1_i64 << n] of a release build: the amount modulo 64. *)
Definition shl_one (n : Z) : Z := Z.shiftl 1 (Z.land n 63).

Definition backoff_minutes (failure_count : Z) : Z :=
  Z.min (Z.min (5 * shl_one (Z.min failure_count 6)) i64_max) 360.

Definition ns_per_min : Z := 60 * ns_per_sec.

Definition next_retry_at (kind : OAuthRefreshFailureKind) (failure_count : Z) : prog Z :=
  match kind with
  | CredentialInvalid => utc_after (3650 * 24 * 60 * ns_per_min)
  | Transient => utc_after (backoff_minutes failure_count * ns_per_min)
  end.

Definition refresh_backoff_error : string :=
  "OAuth credential refresh is temporarily backed off; reconnect the credential or use the manual refresh action".

(** ** The metadata after a successful exchange *)

Section Meta.
Context `{Chrono, SerdeJson}.

Definition opt_insert (k : string) (o : option string) (m : list (string * Value)) :=
  insert_member k (Str <$> o) m.

(** The members written by [persist_token_result]; [now] is the instant it
    reads for [status_checked_at]. *)
Definition updated_members (config : OAuthTargetConfig) (r : TokenResult) (now : Z)
    (m : list (string * Value)) : list (string * Value) :=
  let m := Json.insert "refresh_token"
             (Str (default (refresh_token config) (new_refresh_token r))) m in
  let m := opt_insert "account_id"
             (or_else (OAuthTokens.account_id r) (Targets.account_id config)) m in
  let m := opt_insert "account_email" (account_email r) m in
  let m := opt_insert "organization_id" (organization_id r) m in
  let m := opt_insert "organization_name" (organization_name r) m in
  let m := Json.insert "expires_in_s"
             (match expires_in r with Some s => json_u64 s | None => Null end) m in
  let m := Json.insert "status" (Str (OAuthCredentialStatus.as_str Healthy)) m in
  let m := Json.insert "status_checked_at" (Str (to_rfc3339 now)) m in
  remove_member "status_reason" m.

(** The stored metadata; what does not parse counts as empty. *)
Definition stored_members (p : Provider) : result string (list (string * Value)) :=
  match oauth_meta_cleartext p ≫= from_str with
  | Some (Obj m) => Ok m
  | Some _ => Err "stored OAuth metadata is not an object"
  | None => Ok []
  end.
End Meta.

(** ** The manager *)

Section Manager.
Context `{Crypto, SerdeJson, Chrono, OAuthCrates, HttpHeaders}.
(** Whether there is a database, which backend it is, the master key, and
    the timeout of a token request in seconds. *)
Context (managed : bool) (kind : DbKind) (encryption : option KeyEncryption) (timeout_secs : Z).

Definition no_store {A} : prog (result string A) := Ret (Err "OAuth config store is unavailable").
Definition no_token_store {A} : prog (result string A) :=
  Ret (Err "OAuth token store is unavailable").

Definition load_oauth_provider (pid : string)
    : prog (result string (Provider * OAuthTargetConfig)) :=
  if negb managed then no_store else
  found <-! get_provider encryption pid;
  match found with
  | None => Ret (Err ("provider " +:+ pid +:+ " not found"))
  | Some p =>
      match build_oauth_target_config p with
      | None => Ret (Err ("provider " +:+ pid +:+ " has no usable OAuth configuration"))
      | Some c => Ret (Ok (p, c))
      end
  end.

Definition load_oauth_config (pid : string) : prog (result string OAuthTargetConfig) :=
  pc <-? load_oauth_provider pid; Ret (Ok (snd pc)).

Definition keepalive_interval : prog Z :=
  if negb managed then Ret (DEFAULT_KEEPALIVE_INTERVAL_SECS * ns_per_sec)%Z
  else prog_bind (fun s => Ret (Z.max s 60 * ns_per_sec)%Z)
         (get_u64 OAUTH_KEEPALIVE_INTERVAL_SECS DEFAULT_KEEPALIVE_INTERVAL_SECS).

Definition seed_shared (pid : string) (c : OAuthTargetConfig) (s : OAuthAccessTokenState)
    : prog unit :=
  prog_bind (fun expires =>
    seed_tokens_with_identity pid (OAuthTargetConfig.cache_label c) (s_access_token s)
      (refresh_token c) expires
      {| i_account_id := Targets.account_id c; i_account_email := None |})
  (match s_access_expires_at s with Some e => remaining e | None => Ret None end).

Definition reuse_shared_token (pid : string) (c : OAuthTargetConfig) (rejected : option string)
    : prog (result string bool) :=
  if negb managed then Ret (Ok false) else
  found <-! load encryption pid;
  match found with
  | None => Ret (Ok false)
  | Some s =>
      prog_bind (fun ok : bool =>
        if ok then prog_bind (fun _ => Ret (Ok true)) (seed_shared pid c s) else Ret (Ok false))
      (shared_token_is_usable s rejected)
  end.

(** [if mode == IfNeeded && self.reuse_shared_token(..).await?] *)
Definition reuse_if_needed (mode : OAuthRefreshMode) (pid : string) (c : OAuthTargetConfig)
    (rejected : option string) : prog (result string bool) :=
  match mode with IfNeeded => reuse_shared_token pid c rejected | _ => Ret (Ok false) end.

(** The failure counted and the next attempt put off: in the transaction of
    the caller, which is committed, or in one of its own. *)
Definition record_backoff (kind : OAuthRefreshFailureKind) (pid : string) (intx : bool)
    : prog (result StoreError unit) :=
  if intx then
    with_tx (found <-? load_in_transaction encryption pid;
             prog_bind (fun at_ =>
               _ <-? record_failure_in_transaction pid at_;
               _ <-? call Commit;
               Ret (Ok tt)) (next_retry_at kind (match found with Some s => s_failure_count s | None => 0 end)))
  else
    found <-? load encryption pid;
    prog_bind (fun at_ => record_failure pid at_)
      (next_retry_at kind (match found with Some s => s_failure_count s | None => 0 end)).

Definition record_refresh_failure (p : Provider) (kind : OAuthRefreshFailureKind) (intx : bool)
    : prog unit :=
  if negb managed then Ret tt else
  prog_bind (fun _ =>
    prog_bind (fun _ => Ret tt)
      (set_provider_oauth_status_if_unchanged encryption p
         (match kind with CredentialInvalid => Invalid | Transient => Error end)
         (Some (status_reason kind))))
  (record_backoff kind (id p) intx).

(** [intx]: the caller's advisory-lock transaction is open, and is committed
    here. *)
Definition persist_token_result (pid : string) (p : Provider) (config : OAuthTargetConfig)
    (r : TokenResult) (interval : Z) (intx : bool)
    : prog (result string (OAuthTargetConfig * OAuthRefreshOutcome)) :=
  if negb managed then no_store else
  members <-? pure (stored_members p);
  prog_bind (fun checked =>
    let meta := to_string (Obj (updated_members config r checked members)) in
    prog_bind (fun expires =>
      prog_bind (fun keepalive =>
        let c := {| commit_provider_id := pid; commit_access_token := access_token r;
                    commit_expires_at := expires; commit_meta_plain := meta;
                    commit_next_keepalive_at := keepalive |} in
        _ <-! (if intx then commit_success_in_transaction encryption c
               else commit_success encryption c);
        _ <-! (if intx then call Commit else Ret (Ok tt));
        prog_bind (fun _ =>
          refreshed <-? load_oauth_config pid;
          prog_bind (fun _ => Ret (Ok (refreshed, Refreshed)))
            (seed_tokens_with_identity pid (OAuthTargetConfig.cache_label refreshed)
               (access_token r) (default (refresh_token config) (new_refresh_token r)) (lifetime r)
               {| i_account_id := or_else (OAuthTokens.account_id r) (Targets.account_id config);
                  i_account_email := account_email r |}))
        (call RefreshSnapshot))
      (utc_after (default (7 * 24 * 60 * ns_per_min)%Z (from_std interval))))
    (match lifetime r ≫= from_std with
     | Some d => prog_bind (fun t => Ret (Some t)) (utc_after d)
     | None => Ret None
     end)) (call UtcNow).

Definition refresh_timeout_error : string :=
  "OAuth token refresh timed out after " +:+ pretty timeout_secs +:+ " seconds".

Definition perform_refresh (pid : string) (p : Provider) (config : OAuthTargetConfig)
    (interval : Z) (intx : bool) : prog (result string (OAuthTargetConfig * OAuthRefreshOutcome)) :=
  if is_empty (refresh_token config)
  then Ret (Err ("provider " +:+ pid +:+ " has no refresh token"))
  else
    prog_bind (fun answer =>
      match default (Err refresh_timeout_error) answer with
      | Ok r => persist_token_result pid p config r interval intx
      | Err e =>
          let kind := classify_refresh_failure e in
          prog_bind (fun _ =>
            Ret (Err ("OAuth credential refresh failed: " +:+ status_reason kind)))
          (record_refresh_failure p kind intx)
      end) (do_refresh_token true pid (refresh_token config) config).

(** The tests on the shared state that end a coordinated refresh early:
    [Some] result is returned by the caller. *)
Definition early_exit (mode : OAuthRefreshMode) (c : OAuthTargetConfig)
    (state : option OAuthAccessTokenState)
    : prog (option (result string (OAuthTargetConfig * OAuthRefreshOutcome))) :=
  prog_bind (fun backed_off : bool =>
    if backed_off then
      Ret (Some (match mode with Keepalive => Ok (c, Skipped) | _ => Err refresh_backoff_error end))
    else
      prog_bind (fun early : bool => Ret (if early then Some (Ok (c, Skipped)) else None))
      (match mode with
       | Keepalive => still_ahead (state ≫= s_next_keepalive_at)
       | _ => Ret false
       end))
  (match mode with Force => Ret false | _ => backoff_active state end).

Definition coordination_timeout (what pid : string) : string :=
  "timed out " +:+ what +:+ " for provider " +:+ pid.

(** The branch of PostgreSQL once the advisory lock is held: everything is
    read again inside the transaction. *)
Definition refresh_locked (pid : string) (mode : OAuthRefreshMode) (rejected : option string)
    (interval : Z) : prog (result string (OAuthTargetConfig * OAuthRefreshOutcome)) :=
  if negb managed then no_store else
  found <-! get_provider_in_transaction encryption pid;
  match found with
  | None => Ret (Err ("provider " +:+ pid +:+ " not found"))
  | Some p =>
      match build_oauth_target_config p with
      | None => Ret (Err ("provider " +:+ pid +:+ " has no usable OAuth configuration"))
      | Some c =>
          state <-! load_in_transaction encryption pid;
          prog_bind (fun shared : option OAuthAccessTokenState =>
            match shared with
            | Some s =>
                _ <-! call Commit;
                prog_bind (fun _ => Ret (Ok (c, ReusedShared))) (seed_shared pid c s)
            | None =>
                prog_bind (fun exit =>
                  match exit with
                  | Some r => _ <-! call Commit; Ret r
                  | None => perform_refresh pid p c interval true
                  end) (early_exit mode c state)
            end)
          (match mode, state with
           | IfNeeded, Some s =>
               prog_bind (fun ok : bool => Ret (if ok then Some s else None))
                 (shared_token_is_usable s rejected)
           | _, _ => Ret None
           end)
      end
  end.

(** The loop over [try_begin_postgres_refresh]. *)
Fixpoint poll_refresh (fuel : nat) (deadline : Z) (pid : string) (mode : OAuthRefreshMode)
    (rejected : option string) (c : OAuthTargetConfig) (interval : Z) (wait_for_lock : bool)
    : prog (result string (OAuthTargetConfig * OAuthRefreshOutcome)) :=
  match fuel with
  | 0%nat => Vis OutOfFuel (fun r : Empty_set => match r with end)
  | S fuel' =>
      acquired <-! try_begin_postgres_refresh kind pid;
      if acquired : bool then with_tx (refresh_locked pid mode rejected interval)
      else if negb wait_for_lock then Ret (Ok (c, Skipped))
      else
        reused <-? reuse_shared_token pid c rejected;
        if reused : bool then Ret (Ok (c, ReusedShared))
        else
          prog_bind (fun now =>
            if (deadline <=? now)%Z
            then Ret (Err (coordination_timeout "waiting for OAuth refresh coordination" pid))
            else prog_bind (fun _ =>
                   poll_refresh fuel' deadline pid mode rejected c interval wait_for_lock)
                 (call (Sleep REFRESH_LOCK_POLL))) (call InstantNow)
  end.

Definition refresh_coordinated (pid : string) (mode : OAuthRefreshMode) (rejected : option string)
    (wait_for_lock : bool) : prog (result string (OAuthTargetConfig * OAuthRefreshOutcome)) :=
  if negb managed then Ret (Err "OAuth shared token store is unavailable") else
  with_lock (inl pid)
    (pc <-? load_oauth_provider pid;
     let '(p, c) := pc : Provider * OAuthTargetConfig in
     reused <-? reuse_if_needed mode pid c rejected;
     if reused : bool then Ret (Ok (c, ReusedShared))
     else prog_bind (fun interval =>
       match kind with
       | Sqlite =>
           state <-! load encryption pid;
           prog_bind (fun exit =>
             match exit with
             | Some r => Ret r
             | None => perform_refresh pid p c interval false
             end) (early_exit mode c state)
       | Postgres =>
           prog_bind (fun deadline =>
             poll_refresh LOCK_POLLS deadline pid mode rejected c interval wait_for_lock)
             (instant_after REFRESH_LOCK_WAIT)
       end) keepalive_interval).

Definition ensure_provider_token (pid : string) (mode : OAuthRefreshMode)
    (rejected : option string) : prog (result string OAuthTargetConfig) :=
  c <-? load_oauth_config pid;
  reused <-? reuse_if_needed mode pid c rejected;
  if reused : bool then Ret (Ok c)
  else co <-? refresh_coordinated pid mode rejected true; Ret (Ok (fst co)).

(** [remember_applied_access_token]: the token in the header, which
    [HeaderValue::to_str] reads when it is visible ASCII. *)
Definition remember_applied_access_token (hs : HeaderMap) (c : OAuthTargetConfig)
    : option string :=
  value ← hs !! ascii_lowercase (OAuthTargetConfig.header_name c);
  if all_chars visible value then strip_prefix (OAuthTargetConfig.bearer_prefix c) value else None.

(** [apply]: [None] where the target is not OAuth; otherwise the headers and
    the token remembered for the attempt. *)
Definition apply (t : RoutingTarget) (hs : HeaderMap)
    : prog (result string (option (HeaderMap * option string))) :=
  match oauth t with
  | None => Ret (Ok None)
  | Some o =>
      let pid := provider_id t in
      let label := OAuthTargetConfig.cache_label o in
      fast <-? apply_cached hs pid label o;
      match fast with
      | Some hs' => Ret (Ok (Some (hs', remember_applied_access_token hs' o)))
      | None =>
          if negb managed then
            prog_bind (fun _ =>
              hs' <-? apply_oauth hs pid label o;
              Ret (Ok (Some (hs', remember_applied_access_token hs' o))))
            (seed pid label (refresh_token o))
          else
            c <-? ensure_provider_token pid IfNeeded None;
            applied <-? apply_cached hs pid (OAuthTargetConfig.cache_label c) c;
            match applied with
            | None => Ret (Err "OAuth refresh completed without a usable access token")
            | Some hs' => Ret (Ok (Some (hs', remember_applied_access_token hs' c)))
            end
      end
  end.

Definition refresh_after_unauthorized (t : RoutingTarget) (rejected : string)
    : prog (result string bool) :=
  match oauth t with
  | None => Ret (Ok false)
  | Some o =>
      let pid := provider_id t in
      let label := OAuthTargetConfig.cache_label o in
      prog_bind (fun current =>
        if match current with Some c => negb (String.eqb c rejected) | None => false end
        then Ret (Ok true)
        else prog_bind (fun _ =>
          if negb managed then
            applied <-? apply t ∅;
            Ret (Ok match applied with Some _ => true | None => false end)
          else
            _ <-? ensure_provider_token pid IfNeeded (Some rejected);
            Ret (Ok true)) (invalidate_access_token_if_matches pid label rejected))
      (get_access_token pid label)
  end.

Definition refresh_summary (pid : string) : prog (result string (option Z)) :=
  if negb managed then no_token_store else
  found <-! load encryption pid;
  match found ≫= s_access_expires_at with
  | Some e => prog_bind (fun d => Ret (Ok d)) (remaining e)
  | None => Ret (Ok None)
  end.

Definition force_refresh (pid : string) : prog (result string (option Z)) :=
  _ <-? ensure_provider_token pid Force None;
  refresh_summary pid.

(** The wait of [mutate_credentials_locked] and of [install_tokens]: true
    when the transaction is open and holds the lock. *)
Fixpoint poll_lock (fuel : nat) (deadline : Z) (pid what : string) : prog (result string unit) :=
  match fuel with
  | 0%nat => Vis OutOfFuel (fun r : Empty_set => match r with end)
  | S fuel' =>
      acquired <-! try_begin_postgres_refresh kind pid;
      if acquired : bool then Ret (Ok tt)
      else prog_bind (fun now =>
             if (deadline <=? now)%Z then Ret (Err (coordination_timeout what pid))
             else prog_bind (fun _ => poll_lock fuel' deadline pid what)
                    (call (Sleep REFRESH_LOCK_POLL))) (call InstantNow)
  end.

Definition wait_for_advisory (pid what : string) : prog (result string unit) :=
  prog_bind (fun deadline => poll_lock LOCK_POLLS deadline pid what) (instant_after REFRESH_LOCK_WAIT).

Definition mutate_credentials_locked (pid : string) (mutation : prog (result string unit))
    : prog (result string unit) :=
  if negb managed then no_token_store else
  with_lock (inl pid)
    (outcome <-? match kind with
       | Sqlite =>
           prog_bind (fun mutated => _ <-! reset encryption pid None; Ret (Ok mutated)) mutation
       | Postgres =>
           _ <-? wait_for_advisory pid "coordinating OAuth credential update";
           with_tx (_ <-! reset_in_transaction encryption pid None;
                    prog_bind (fun mutated => _ <-! call Commit; Ret (Ok mutated)) mutation)
       end;
     prog_bind (fun _ => _ <-! call RefreshSnapshot; Ret outcome) (invalidate_provider pid)).

Definition install_tokens (pid : string) (r : TokenResult) : prog (result string (option Z)) :=
  if negb managed then no_token_store else
  with_lock (inl pid)
    (pc <-? load_oauth_provider pid;
     let '(p, c) := pc : Provider * OAuthTargetConfig in
     prog_bind (fun interval =>
       match kind with
       | Postgres =>
           _ <-? wait_for_advisory pid "coordinating OAuth token installation";
           _ <-? with_tx (persist_token_result pid p c r interval true);
           Ret (Ok (lifetime r))
       | Sqlite =>
           _ <-? persist_token_result pid p c r interval false;
           Ret (Ok (lifetime r))
       end) keepalive_interval).

Definition apply_provider_by_id (pid : string) (hs : HeaderMap)
    : prog (result string (HeaderMap * option string)) :=
  c <-? ensure_provider_token pid IfNeeded None;
  applied <-? apply_cached hs pid (OAuthTargetConfig.cache_label c) c;
  match applied with
  | None => Ret (Err "OAuth access token is unavailable after refresh")
  | Some hs' => Ret (Ok (hs', remember_applied_access_token hs' c))
  end.

Definition provider_has_usable_oauth_credentials (p : Provider) : bool :=
  match build_oauth_target_config p with
  | Some c => negb (is_empty (trim (refresh_token c)))
  | None => false
  end.

(** The body of [ensure_keepalive_preflight_backoff] after the provider is
    read; [intx] tells the transaction of PostgreSQL, which every exit
    commits. *)
Definition preflight_backoff (pid : string) (p : Provider) (intx : bool)
    : prog (result string unit) :=
  let finish := if intx then _ <-! call Commit; Ret (Ok tt) else Ret (Ok tt) in
  if provider_has_usable_oauth_credentials p then finish
  else
    state <-! load_token encryption intx pid;
    prog_bind (fun active : bool =>
      if active then finish
      else prog_bind (fun at_ =>
             if intx then _ <-! record_failure_in_transaction pid at_; finish
             else _ <-! record_failure pid at_; Ret (Ok tt))
           (next_retry_at Transient (match state with Some s => s_failure_count s | None => 0 end)))
    (backoff_active state).

Definition ensure_keepalive_preflight_backoff (pid : string) : prog (result string unit) :=
  if negb managed then no_token_store else
  with_lock (inl pid)
    (match kind with
     | Sqlite =>
         found <-! get_provider encryption pid;
         match found with
         | None => Ret (Ok tt)
         | Some p => preflight_backoff pid p false
         end
     | Postgres =>
         acquired <-! try_begin_postgres_refresh kind pid;
         if negb acquired then Ret (Ok tt)
         else with_tx (found <-! get_provider_in_transaction encryption pid;
                       match found with
                       | None => _ <-! call Commit; Ret (Ok tt)
                       | Some p => preflight_backoff pid p true
                       end)
     end).

Definition try_keepalive_provider (pid : string) : prog (result string OAuthRefreshOutcome) :=
  if negb managed then Ret (Ok Skipped) else
  prog_bind (fun r =>
    match r with
    | Ok (_, outcome) => Ret (Ok outcome)
    | Err e => prog_bind (fun _ => Ret (Err e)) (ensure_keepalive_preflight_backoff pid)
    end) (refresh_coordinated pid Keepalive None false).

Definition due_keepalive_provider_ids (limit : Z) : prog (result string (list string)) :=
  if negb managed then Ret (Ok []) else
  prog_bind (fun now =>
    ids <-! list_due_provider_ids now limit;
    Ret (Ok ids)) (call UtcNow).
End Manager.
