(* ===== verification/OAuthGhost.v ===== *)
(** * OAuthGhost: a program logic for the tasks of the token manager

    What a task holds and knows is its ghost state: the mutex it holds, its
    transaction and the advisory lock of it, the refresh token it has read
    under the lock of a provider, and the request it waits for.  [wp] asks of
    every action of a task that it respects the discipline [pre]: the OAuth
    metadata of a provider is only written under the lock of the provider, or
    by a compare-and-set that keeps its refresh token; a request to a token
    endpoint is made under the lock, with the token read under it.
    [inv_reach] shows that tasks with a [wp] keep the invariant of the world
    whatever the interleaving, the answers and the failures. *)

From stdpp Require Import base option list gmap strings.
From Stdlib Require Import ZArith Lia Ascii.
From S2P Require Import Prelude RustStr Http F64 Json JsonBody Classify Targets Health.
From S2P Require Import Encryption ProviderConfig OAuthTokens OAuthEffects OAuthStore.

Local Open Scope string_scope.
Local Open Scope list_scope.

Record Ghost := {
  g_lock : option LockName;
  g_tx : option (option Z);
  g_dirty : bool;
  g_seen : option (string * string);
  g_wait : option string;
  g_clock : Z;
}.

(** The requests of the other tasks. *)
Lemma others_elem t (l : list (nat * string)) t' p :
  (t', p) ∈ List.filter (fun o => negb (Nat.eqb (fst o) t)) l <-> (t', p) ∈ l /\ t' <> t.
Proof.
  rewrite !list_elem_of_In, List.filter_In. cbn. destruct (Nat.eqb_spec t' t); naive_solver.
Qed.

Lemma others_once t (l : list (nat * string)) :
  NoDup l.*1 -> NoDup (List.filter (fun o => negb (Nat.eqb (fst o) t)) l).*1.
Proof.
  intros Hl. induction l as [|[t' p] l IH]; [done|]. cbn in *.
  apply NoDup_cons in Hl as [Hn Hl]. destruct (negb _); cbn; [|auto].
  apply NoDup_cons. split; [|auto]. intros Hx. apply Hn.
  apply list_elem_of_fmap in Hx as ([t2 p2] & E & Hx). apply list_elem_of_fmap.
  exists (t2, p2). split; [done|]. rewrite list_elem_of_In in Hx |- *.
  by apply List.filter_In in Hx as [Hx _].
Qed.

Section Ghost.
Context `{Crypto, SerdeJson, Chrono, OAuthCrates}.
Context (kind : DbKind) (encryption : option KeyEncryption).

(** The refresh token in a column, and the one that a target of the row is
    configured with. *)
Definition blob_token (blob : string) : string :=
  stored_refresh_token (column_cleartext decrypt_oauth_meta encryption blob).

Definition row_token (r : ProviderRow) : string :=
  match AuthMode.parse (row_auth_mode r) with
  | Some OAuthAuth => blob_token (row_oauth_meta r)
  | _ => ""
  end.

Definition db_token (d : Db) (pid : string) : option string := row_token <$> providers d !! pid.

(** The lock of a provider: the advisory lock where there is one. *)
Definition holds (g : Ghost) (pid : string) : Prop :=
  match kind with
  | Postgres => g_tx g = Some (Some (advisory_lock_key pid))
  | Sqlite => g_lock g = Some (inl pid)
  end.

#[global] Instance holds_dec g pid : Decision (holds g pid).
Proof. unfold holds. destruct kind; apply _. Defined.

Definition with_lock_g (l : option LockName) (g : Ghost) : Ghost :=
  {| g_lock := l; g_tx := g_tx g; g_dirty := false; g_seen := None; g_wait := g_wait g;
     g_clock := g_clock g |}.
Definition with_tx_g (o : option (option Z)) (g : Ghost) : Ghost :=
  {| g_lock := g_lock g; g_tx := o; g_dirty := false; g_seen := None; g_wait := g_wait g;
     g_clock := g_clock g |}.
Definition with_key (k : Z) (g : Ghost) : Ghost :=
  {| g_lock := g_lock g; g_tx := Some (Some k); g_dirty := g_dirty g; g_seen := None;
     g_wait := g_wait g; g_clock := g_clock g |}.
Definition with_seen (s : option (string * string)) (g : Ghost) : Ghost :=
  {| g_lock := g_lock g; g_tx := g_tx g; g_dirty := g_dirty g; g_seen := s; g_wait := g_wait g;
     g_clock := g_clock g |}.
Definition with_dirty (b : bool) (g : Ghost) : Ghost :=
  {| g_lock := g_lock g; g_tx := g_tx g; g_dirty := b; g_seen := None; g_wait := g_wait g;
     g_clock := g_clock g |}.
Definition with_wait (o : option string) (g : Ghost) : Ghost :=
  {| g_lock := g_lock g; g_tx := g_tx g; g_dirty := g_dirty g; g_seen := g_seen g; g_wait := o;
     g_clock := g_clock g |}.
Definition with_clock (t : Z) (g : Ghost) : Ghost :=
  {| g_lock := g_lock g; g_tx := g_tx g; g_dirty := g_dirty g; g_seen := g_seen g;
     g_wait := g_wait g; g_clock := t |}.

(** Nothing held, nothing open, nothing awaited. *)
Definition idle (g : Ghost) : Prop := g_lock g = None /\ g_tx g = None /\ g_wait g = None.

(** The writes that may change a refresh token, and their provider. *)
Definition sets_meta (u : Write) : option string :=
  match u with SetMeta pid _ _ | PutProvider pid _ => Some pid | _ => None end.

(** The discipline. *)
Definition pre (g : Ghost) (a : act) : Prop :=
  match a with
  | Lock _ => g_lock g = None /\ g_tx g = None /\ g_wait g = None
  | Unlock l => g_lock g = Some l /\ g_tx g = None /\ g_wait g = None
  | Begin => g_tx g = None /\ g_wait g = None
  | TryAdvisory _ => g_tx g = Some None /\ g_wait g = None
  | Select true (GetProvider _) => g_dirty g = false
  | Execute intx u =>
      g_wait g = None /\ (intx = true -> g_tx g <> None)
      /\ (forall pid, sets_meta u = Some pid -> holds g pid)
      /\ (forall pid e m now, u = SetMetaIf pid e m now ->
            intx = false /\ blob_token m = blob_token e)
  | Commit | Rollback | DropTx => g_wait g = None
  | Send pid r =>
      g_wait g = None /\
      exists tok, presented_refresh_token r = Some tok /\ g_seen g = Some (pid, tok)
  | Sleep d => (0 <= d)%Z
  | OutOfFuel => False
  | _ => True
  end.

(** The responses there can be. *)
Definition possible (g : Ghost) (a : act) : resp a -> Prop :=
  match a with
  | InstantNow => fun t => (g_clock g <= t)%Z
  | Nonce => fun s => String.length s = NONCE_LEN
  | _ => fun _ => True
  end.

Definition post (g : Ghost) (a : act) : resp a -> Ghost :=
  match a with
  | Lock l => fun _ => with_lock_g (Some l) g
  | Unlock _ => fun _ => with_lock_g None g
  | Begin => fun r => match r with Ok _ => with_tx_g (Some None) g | Err _ => g end
  | TryAdvisory k => fun r =>
      match r with Ok true => with_key k g | _ => g end
  | Select _ (GetProvider pid) => fun r =>
      match r with
      | Ok (Some row) =>
          if decide (holds g pid) then with_seen (Some (pid, row_token row)) g else g
      | _ => g
      end
  | Execute intx u => fun _ =>
      match sets_meta u with Some _ => with_dirty (intx || g_dirty g) g | None => g end
  | Commit | Rollback | DropTx => fun _ => with_tx_g None g
  | InstantNow => fun t => with_clock t g
  | Sleep d => fun _ => with_clock (g_clock g + d) g
  | Send pid _ => fun _ => with_wait (Some pid) g
  | Receive _ => fun _ => with_wait None g
  | _ => fun _ => g
  end.

Fixpoint wp {A} (m : prog A) (g : Ghost) (Q : Ghost -> A -> Prop) : Prop :=
  match m with
  | Ret a => Q g a
  | Vis a k => pre g a /\ forall r, possible g a r -> wp (k r) (post g a r) Q
  end.

Lemma wp_bind {A B} (f : A -> prog B) m g Q :
  wp m g (fun g' a => wp (f a) g' Q) -> wp (prog_bind f m) g Q.
Proof.
  revert g. induction m as [a|a k IH]; intros g; cbn; [done|].
  intros [Hp Hk]. split; [done|]. intros r Hr. apply IH, Hk, Hr.
Qed.

Lemma wp_mono {A} (m : prog A) g (P Q : Ghost -> A -> Prop) :
  (forall g a, P g a -> Q g a) -> wp m g P -> wp m g Q.
Proof.
  intros HPQ. revert g. induction m as [a|a k IH]; intros g; cbn; [auto|].
  intros [Hp Hk]. split; [done|]. intros r Hr. by apply IH, Hk.
Qed.

(** ** The invariant of the world *)

(** What the world holds for task [t]. *)
Record owned (w : World) (t : nat) (thr : Task) (g : Ghost) : Prop := {
  own_lock p l : locks w !! (p, l) = Some t <-> p = process thr /\ g_lock g = Some l;
  own_tx : is_Some (tx thr) <-> is_Some (g_tx g);
  own_advisory k : g_tx g = Some (Some k) <-> advisory w !! k = Some t;
  own_writes ws u : tx thr = Some ws -> u ∈ ws ->
    (forall pid, sets_meta u = Some pid -> holds g pid)
    /\ (forall pid e m now, u <> SetMetaIf pid e m now);
  own_clean ws u : tx thr = Some ws -> g_dirty g = false -> u ∈ ws -> sets_meta u = None;
  own_seen pid tok : g_seen g = Some (pid, tok) -> holds g pid /\ db_token (db w) pid = Some tok;
  own_wait pid : (t, pid) ∈ outstanding w <-> g_wait g = Some pid;
  own_wait_holds pid : g_wait g = Some pid -> holds g pid;
  own_clock : (g_clock g <= clock w)%Z;
}.

Record inv (w : World) (gs : list Ghost) : Prop := {
  inv_owned t thr : tasks w !! t = Some thr ->
    exists g, gs !! t = Some g /\ owned w t thr g /\ wp (todo thr) g (fun g' _ => idle g');
  inv_locks k t : locks w !! k = Some t -> is_Some (tasks w !! t);
  inv_advisory k t : advisory w !! k = Some t -> is_Some (tasks w !! t);
  inv_outstanding t pid : (t, pid) ∈ outstanding w -> is_Some (tasks w !! t);
  inv_once : NoDup (outstanding w).*1;
  inv_sent : Forall (fun s => s.1.2 <> None /\ s.1.2 = db_token s.2 s.1.1) (sent w);
  inv_process : kind = Sqlite -> forall t thr t' thr',
    tasks w !! t = Some thr -> tasks w !! t' = Some thr' -> process thr = process thr';
}.

(** One task at most holds the lock of a provider. *)
Lemma holds_unique w t thr g t' thr' g' pid :
  (kind = Sqlite -> process thr = process thr') ->
  owned w t thr g -> owned w t' thr' g' -> holds g pid -> holds g' pid -> t = t'.
Proof.
  intros Hp Ho Ho' Hh Hh'. unfold holds in *. destruct kind.
  - assert (locks w !! (process thr, inl pid) = Some t) as E by (by apply (own_lock _ _ _ _ Ho)).
    assert (locks w !! (process thr', inl pid) = Some t') as E' by (by apply (own_lock _ _ _ _ Ho')).
    rewrite Hp in E by done. congruence.
  - apply (own_advisory _ _ _ _ Ho) in Hh. apply (own_advisory _ _ _ _ Ho') in Hh'. congruence.
Qed.

(** ** One action *)

(** What an action of task [t], in ghost state [g], leaves to the others. *)
Record frame (t : nat) (g : Ghost) (w w' : World) : Prop := {
  fr_locks p l t' : t' <> t -> locks w !! (p, l) = Some t' <-> locks w' !! (p, l) = Some t';
  fr_advisory k t' : t' <> t -> advisory w !! k = Some t' <-> advisory w' !! k = Some t';
  fr_outstanding t' pid : t' <> t -> (t', pid) ∈ outstanding w <-> (t', pid) ∈ outstanding w';
  fr_clock : (clock w <= clock w')%Z;
  fr_db pid : ~ holds g pid -> db_token (db w') pid = db_token (db w) pid;
  fr_tasks : tasks w' = tasks w;
  fr_once : NoDup (outstanding w').*1;
  fr_sent : Forall (fun s => s.1.2 <> None /\ s.1.2 = db_token s.2 s.1.1) (sent w');
}.

Definition requests_ok (w : World) : Prop :=
  NoDup (outstanding w).*1 /\
  Forall (fun s => s.1.2 <> None /\ s.1.2 = db_token s.2 s.1.1) (sent w).

Lemma owned_frame w w' t g t' thr' g' :
  t' <> t -> frame t g w w' -> owned w t' thr' g' ->
  (forall pid, holds g' pid -> ~ holds g pid) -> owned w' t' thr' g'.
Proof.
  intros Ht F O Hx. destruct F, O. split; eauto.
  - intros p l. rewrite <- own_lock0. symmetry. by apply fr_locks0.
  - intros k. rewrite own_advisory0. by apply fr_advisory0.
  - intros pid tok Hs. destruct (own_seen0 _ _ Hs) as [Hh Hd]. split; [done|].
    rewrite fr_db0; auto.
  - intros pid. by rewrite <- fr_outstanding0.
  - lia.
Qed.

(** An action that leaves the database, the locks and the requests alone. *)
Lemma frame_memory t g w w' :
  requests_ok w -> locks w' = locks w -> advisory w' = advisory w ->
  outstanding w' = outstanding w -> sent w' = sent w -> (clock w <= clock w')%Z ->
  db w' = db w -> tasks w' = tasks w -> frame t g w w'.
Proof.
  intros [Hq1 Hq2] E1 E2 E3 E4 E5 E6 E7.
  split; rewrite ?E1, ?E2, ?E3, ?E4, ?E6, ?E7; done.
Qed.

Lemma owned_memory w w' t thr g k :
  owned w t thr g -> locks w' = locks w -> advisory w' = advisory w ->
  outstanding w' = outstanding w -> (clock w <= clock w')%Z -> db w' = db w ->
  owned w' t {| process := process thr; tx := tx thr; todo := k |} g.
Proof.
  intros [] E1 E2 E3 E5 E6. split; cbn; rewrite ?E1, ?E2, ?E3, ?E6; eauto. lia.
Qed.

(** ** Writes *)

(** A write that obeys the discipline only changes the refresh token of a
    provider whose lock is held. *)
Lemma write_db_token d u pid :
  sets_meta u <> Some pid ->
  (forall pid' e m now, u = SetMetaIf pid' e m now -> blob_token m = blob_token e) ->
  db_token (apply_write d u) pid = db_token d pid.
Proof.
  intros Hs Hc. unfold apply_write, db_token.
  destruct u as [p m now|p e m now|p row|p a ex now k|p r now|p]; cbn in *.
  - destruct (providers d !! p) eqn:E; [|done]. cbn. rewrite lookup_insert_ne; [done|congruence].
  - destruct (providers d !! p) as [r|] eqn:E; [|done].
    destruct (String.eqb_spec (row_oauth_meta r) e) as [Heq|]; [|done]. cbn.
    destruct (decide (p = pid)) as [->|Hne]; [|by rewrite lookup_insert_ne].
    rewrite lookup_insert, decide_True, E by done. cbn. f_equal. unfold row_token. cbn.
    rewrite (Hc _ _ _ _ eq_refl), Heq. done.
  - rewrite lookup_insert_ne; [done|congruence].
  - by destruct (providers d !! p).
  - by destruct (providers d !! p).
  - done.
Qed.

Lemma writes_db_token ws d pid :
  (forall u, u ∈ ws -> sets_meta u <> Some pid /\ (forall p e m now, u <> SetMetaIf p e m now)) ->
  db_token (apply_writes d ws) pid = db_token d pid.
Proof.
  unfold apply_writes. revert d. induction ws as [|u ws IH]; intros d Hws; cbn; [done|].
  rewrite IH by (intros u' Hu'; apply Hws; by right).
  destruct (Hws u) as [Hs1 Hs2]; [by left|]. apply write_db_token; [done|].
  intros p e m now ->. by destruct (Hs2 p e m now).
Qed.

Lemma run_write_apply d u d' n : run_write d u = Some (d', n) -> d' = apply_write d u.
Proof. unfold apply_write. by intros ->. Qed.

(** ** The actions keep the discipline *)

Definition sound_at (w : World) (t : nat) (thr : Task) (g : Ghost) (a : act) (c : Choice) : Prop :=
  forall w' open r k, exec w t (process thr) (tx thr) a c = Some (w', open, r) ->
    frame t g w w' /\ possible g a r
    /\ owned w' t {| process := process thr; tx := open; todo := k |} (post g a r).

Section Actions.
Context (w : World) (t : nat) (thr : Task) (g : Ghost) (c : Choice).
Context (O : owned w t thr g) (R : requests_ok w).

Lemma frame_refl : frame t g w w.
Proof using R. by apply frame_memory. Qed.

Lemma owned_tx k : owned w t {| process := process thr; tx := tx thr; todo := k |} g.
Proof using O. by eapply owned_memory. Qed.

Ltac memory_only :=
  split_and!; [apply frame_memory; try done; cbn; lia|done
              |eapply owned_memory; [exact O|..]; try done; cbn; lia].

Lemma sound_memory a :
  match a with
  | MutexFor _ | CacheRead _ | CacheWrite _ _ | CacheSeed _ _ | CacheReject _ _ | CacheForget _
  | RefreshSnapshot | UtcNow | Nonce => True
  | _ => False
  end -> sound_at w t thr g a c.
Proof using O R.
  intros Ha w' open r k. destruct a; try done; cbn.
  - destruct (inflight _ !! key); intros [= <- <- <-]; memory_only.
  - intros [= <- <- <-]; memory_only.
  - intros [= <- <- <-]; memory_only.
  - intros [= <- <- <-]; memory_only.
  - intros [= <- <- <-]; memory_only.
  - intros [= <- <- <-]; memory_only.
  - destruct c; intros [= <- <- <-]; memory_only.
  - destruct c; try done. intros [= <- <- <-]. memory_only.
  - destruct c; try done. destruct (Nat.eqb_spec (String.length s) 12) as [Hl|]; [|done].
    intros [= <- <- <-]. memory_only.
Qed.

Lemma owned_clock w' x k :
  owned w' t {| process := process thr; tx := tx thr; todo := k |} g ->
  (x <= clock w')%Z -> owned w' t {| process := process thr; tx := tx thr; todo := k |} (with_clock x g).
Proof. intros [] Hx. split; cbn in *; eauto. Qed.

Lemma sound_clock a :
  match a with InstantNow | Sleep _ => True | _ => False end -> pre g a -> sound_at w t thr g a c.
Proof using O R.
  intros Ha Hp w' open r k. pose proof (own_clock _ _ _ _ O).
  destruct a; try done; cbn in *; destruct c; try done.
  - destruct (Z.leb_spec (clock w) t0) as [Hx|]; [|done]. intros [= <- <- <-].
    split_and!; [by apply frame_memory|lia|].
    apply owned_clock; [eapply owned_memory; [exact O|done..]|done].
  - destruct (Z.leb_spec (clock w + d) t0) as [Hx|]; [|done]. intros [= <- <- <-].
    split_and!; [apply frame_memory; try done; cbn; lia|done|].
    apply owned_clock; [eapply owned_memory; [exact O|..]; try done; cbn; lia|cbn; lia].
Qed.

(** A transaction without writes to the metadata sees the committed tokens. *)
Lemma view_providers intx pid :
  (intx = true -> g_dirty g = false) ->
  db_token (view w (if intx : bool then tx thr else None)) pid = db_token (db w) pid.
Proof using O.
  intros Hc. unfold view. destruct intx; [|done]. destruct (tx thr) as [ws|] eqn:E; [|done].
  apply writes_db_token. intros u Hu. split.
  - by rewrite (own_clean _ _ _ _ O _ _ E (Hc eq_refl) Hu).
  - apply (own_writes _ _ _ _ O _ _ E Hu).
Qed.

Lemma owned_seen k pid tok :
  holds g pid -> db_token (db w) pid = Some tok ->
  owned w t {| process := process thr; tx := tx thr; todo := k |} (with_seen (Some (pid, tok)) g).
Proof using O.
  intros Hh Hd. pose proof (owned_tx k) as []. split; cbn in *; eauto.
  intros pid' tok' [= <- <-]. done.
Qed.

Lemma sound_select intx q : pre g (Select intx q) -> sound_at w t thr g (Select intx q) c.
Proof using O R.
  intros Hp w' open r k. cbn.
  destruct c; intros [= <- <- <-]; (split_and!; [apply frame_refl|done|]);
    destruct q as [pid|pid|key|now limit]; cbn; try apply owned_tx;
    (destruct (providers _ !! pid) as [row|] eqn:E; [|apply owned_tx]);
    (destruct (decide (holds g pid)); [|apply owned_tx]); apply owned_seen; try done;
    rewrite <- (view_providers intx pid) by (intros ->; exact Hp);
    unfold db_token; by rewrite E.
Qed.

Lemma owned_seen_none w' o k g' :
  owned w' t {| process := process thr; tx := o; todo := k |} g' ->
  owned w' t {| process := process thr; tx := o; todo := k |} (with_seen None g').
Proof. intros []. split; cbn in *; eauto; done. Qed.

(** No transaction in the ghost state, none in the world. *)
Lemma no_tx : g_tx g = None -> tx thr = None.
Proof using O.
  intros E. destruct (tx thr) eqn:Et; [|done].
  assert (is_Some (g_tx g)) as [x Hx] by (apply (own_tx _ _ _ _ O); rewrite Et; eauto). congruence.
Qed.

Lemma sound_lock a :
  match a with Lock _ | Unlock _ => True | _ => False end -> pre g a -> sound_at w t thr g a c.
Proof using O R.
  intros Ha Hp w' open r k. destruct R as [R1 R2]. destruct a; try done; cbn in *.
  - destruct (locks w !! (process thr, l)) eqn:E; [done|]. intros [= <- <- <-].
    destruct Hp as (Hl & Ht & Hw). pose proof (no_tx Ht) as Hn. split_and!; [|done|].
    + split; cbn; try done. intros p l' t' Ht'. rewrite lookup_insert_Some.
      split; [intros El'; right; split; [intros [= Ep E']; subst p l'; congruence|done]|].
      intros [[_ E']|[_ E']]; [congruence|done].
    + pose proof (owned_tx k) as []. split; cbn in *; eauto; try done; try congruence.
      intros p l'. rewrite lookup_insert_Some. split.
      * intros [[[= <- <-] _]|[_ E']]; [done|]. apply own_lock0 in E' as [-> E']. congruence.
      * intros [-> [= ->]]. by left.
  - intros [= <- <- <-]. destruct Hp as (Hl & Ht & Hw). pose proof (no_tx Ht) as Hn.
    assert (locks w !! (process thr, l) = Some t) as El by (by apply (own_lock _ _ _ _ O)).
    split_and!; [|done|].
    + split; cbn; try done. intros p l' t' Ht'. rewrite lookup_delete_Some.
      split; [intros El'; split; [intros [= Ep E']; subst p l'; congruence|done]|by intros [_ ?]].
    + pose proof (owned_tx k) as []. split; cbn in *; eauto; try done; try congruence.
      intros p l'. rewrite lookup_delete_Some. split; [|by intros [_ ?]].
      intros [Hne E']. apply own_lock0 in E' as [-> E']. congruence.
Qed.

(** Every lock of [t] given back, and nobody else's. *)
Lemma release_lookup (m : gmap Z nat) k t' :
  filter (fun kv : Z * nat => snd kv <> t) m !! k = Some t' <-> m !! k = Some t' /\ t' <> t.
Proof. rewrite map_lookup_filter_Some. cbn. tauto. Qed.

Lemma sound_release w1 k :
  g_wait g = None -> locks w1 = locks w -> advisory w1 = advisory w ->
  outstanding w1 = outstanding w -> sent w1 = sent w -> clock w1 = clock w -> tasks w1 = tasks w ->
  (forall pid, ~ holds g pid -> db_token (db w1) pid = db_token (db w) pid) ->
  frame t g w (release_advisory t w1)
  /\ owned (release_advisory t w1) t {| process := process thr; tx := None; todo := k |} (with_tx_g None g).
Proof using O R.
  intros Hw E1 E2 E3 E4 E5 E6 Hdb. destruct R as [R1 R2]. split.
  - split; cbn; rewrite ?E1, ?E2, ?E3, ?E4, ?E5, ?E6; try done.
    intros k' t' Ht'. rewrite release_lookup. tauto.
  - pose proof (owned_tx k) as []. split; cbn in *; rewrite ?E1, ?E2, ?E3, ?E5; eauto; try done.
    + intros k'. rewrite release_lookup. naive_solver.
    + rewrite Hw. done.
Qed.

Lemma sound_tx a :
  match a with Begin | TryAdvisory _ | Commit | Rollback | DropTx => True | _ => False end ->
  pre g a -> sound_at w t thr g a c.
Proof using O R.
  intros Ha Hp w' open r k.
  assert (forall pid, ~ holds g pid -> db_token (view w (tx thr)) pid = db_token (db w) pid) as Hview.
  { intros pid Hh. unfold view. destruct (tx thr) as [ws|] eqn:E; [|done]. cbn.
    apply writes_db_token. intros u Hu. destruct (own_writes _ _ _ _ O _ _ E Hu) as [Hs Hc].
    split; [|done]. intros Hp'. by apply Hh, Hs. }
  destruct a; try done; cbn in *.
  - destruct Hp as [Ht Hw]. pose proof (no_tx Ht) as Hn.
    assert (owned w t {| process := process thr; tx := Some []; todo := k |} (with_tx_g (Some None) g)).
    { pose proof (owned_tx k) as []. split; cbn in *; eauto; try done; try congruence.
      - intros k'. rewrite <- own_advisory0. split; congruence.
      - intros ws u [= <-] Hu. by apply elem_of_nil in Hu.
      - intros ws u [= <-] _ Hu. by apply elem_of_nil in Hu. }
    destruct c; intros [= <- <- <-]; cbn; auto using frame_refl, owned_tx.
  - destruct Hp as [Ht Hw]. destruct (tx thr) as [ws|] eqn:Et; [|done].
    assert (forall o, owned w t {| process := process thr; tx := Some ws; todo := k |} g
              /\ (advisory w !! key = Some o -> o <> t)) as Hkeep.
    { intros o. split; [rewrite <- Et; apply owned_tx|]. intros Ek ->.
      apply (own_advisory _ _ _ _ O) in Ek. congruence. }
    assert (forall w1, advisory w !! key = None -> set_advisory (<[key:=t]> (advisory w)) w = w1 ->
      frame t g w w1 /\ owned w1 t {| process := process thr; tx := Some ws; todo := k |} (with_key key g))
      as Hget.
    { intros w1 Ek <-. destruct R as [R1 R2]. split.
      - split; cbn; try done. intros k' t' Ht'. destruct (decide (key = k')) as [<-|Hne].
        + rewrite lookup_insert, decide_True by done. rewrite Ek. split; congruence.
        + by rewrite lookup_insert_ne.
      - destruct (Hkeep 0%nat) as [[] _]. split; cbn in *; eauto; try done; try congruence.
        + intros k'. rewrite lookup_insert_Some. split; [intros [= <-]; auto|].
          intros [[-> _]|[Hne Hk']]; [done|]. apply own_advisory0 in Hk'. congruence.
        + intros ws' u Ew Hu. destruct (own_writes0 _ _ Ew Hu) as [Hs Hc]. split; [|done].
          intros pid Hpid. specialize (Hs pid Hpid). unfold holds in *. cbn. destruct kind; congruence. }
    destruct (advisory w !! key) as [o|] eqn:Ek.
    + destruct c; intros [= <- <- <-]; cbn; try (destruct (Nat.eqb_spec o t) as [->|];
        [by destruct (Hkeep t) as [_ []]|]); (split_and!; [apply frame_refl|done|apply (Hkeep 0%nat)]).
    + destruct c; intros [= <- <- <-]; cbn;
        try (destruct (Hget _ eq_refl eq_refl); done);
        (split_and!; [apply frame_refl|done|apply (Hkeep 0%nat)]).
  - destruct (sound_release (set_db (view w (tx thr)) w) k Hp); try done.
    destruct (sound_release w k Hp); try done.
    destruct c as [|e []| | |]; intros [= <- <- <-]; done.
  - destruct (sound_release w k Hp); try done. destruct c; intros [= <- <- <-]; done.
  - destruct (sound_release w k Hp); try done. intros [= <- <- <-]; done.
Qed.

Lemma frame_write u :
  pre g (Execute false u) -> frame t g w (set_db (apply_write (db w) u) w).
Proof using R.
  destruct R as [R1 R2]. intros (_ & _ & Hs & Hc). split; cbn; try done.
  intros pid Hh. apply write_db_token.
  - intros E. by apply Hh, Hs.
  - intros pid' e m now E. by destruct (Hc _ _ _ _ E).
Qed.

(** The ghost state after a write; [intx] tells where it goes. *)
Definition written (intx : bool) (u : Write) : Ghost :=
  match sets_meta u with Some _ => with_dirty (intx || g_dirty g) g | None => g end.

(** The task's own knowledge after its write. *)
Lemma owned_write u k :
  pre g (Execute false u) ->
  owned (set_db (apply_write (db w) u) w) t {| process := process thr; tx := tx thr; todo := k |}
    (written false u).
Proof using O.
  intros (_ & _ & Hs & Hc). unfold written. cbn. pose proof (owned_tx k) as [].
  destruct (sets_meta u) as [pid|] eqn:Eu; split; cbn in *; eauto; try done.
  intros pid tok Hseen. destruct (own_seen0 _ _ Hseen) as [Hh Hd]. split; [done|].
  rewrite write_db_token; [done|by rewrite Eu|]. intros p e m now E. by destruct (Hc _ _ _ _ E).
Qed.

(** Nothing written: the ghost state only forgets. *)
Lemma owned_unwritten intx u k :
  owned w t {| process := process thr; tx := tx thr; todo := k |} (written intx u).
Proof using O.
  unfold written. pose proof (owned_tx k) as [].
  destruct (sets_meta u); split; cbn in *; eauto; try done.
  intros ws u' E [_ Hd]%orb_false_elim Hu. eauto.
Qed.

(** A write staged in the transaction. *)
Lemma owned_staged ws u k :
  pre g (Execute true u) -> tx thr = Some ws ->
  owned w t {| process := process thr; tx := Some (ws ++ [u]); todo := k |} (written true u).
Proof using O.
  intros (_ & _ & Hs & Hc) Et. unfold written.
  assert (forall u', u' ∈ ws ++ [u] -> (forall pid, sets_meta u' = Some pid -> holds g pid)
            /\ (forall pid e m now, u' <> SetMetaIf pid e m now)) as Hall.
  { intros u' [Hu|Hu]%elem_of_app; [by apply (own_writes _ _ _ _ O _ _ Et)|].
    apply list_elem_of_singleton in Hu as ->. split; [done|]. intros pid e m now ->.
    by destruct (Hc _ _ _ _ eq_refl). }
  destruct O. rewrite Et in *.
  destruct (sets_meta u) eqn:Eu; split; cbn in *; eauto; try done.
  - rewrite <- own_tx0. split; eauto.
  - intros ws' u' [= <-] Hu. by apply Hall.
  - rewrite <- own_tx0. split; eauto.
  - intros ws' u' [= <-] Hu. by apply Hall.
  - intros ws' u' [= <-] Hd [Hu|Hu]%elem_of_app; [by eapply own_clean0|].
    by apply list_elem_of_singleton in Hu as ->.
Qed.

Lemma sound_execute intx u : pre g (Execute intx u) -> sound_at w t thr g (Execute intx u) c.
Proof using O R.
  intros Hp w' open r k. destruct intx; cbn [exec].
  - destruct (tx thr) as [ws|] eqn:Et; [|done].
    assert (owned w t {| process := process thr; tx := Some ws; todo := k |} (written true u)) as Hun
      by (rewrite <- Et; apply owned_unwritten).
    pose proof (owned_staged ws u k Hp Et) as Hst.
    destruct c, (run_write (view w (Some ws)) u) as [[d n]|]; intros [= <- <- <-];
      (split_and!; [apply frame_refl|done|done]).
  - assert (pre g (Execute false u)) as Hp' by done.
    pose proof (frame_write u Hp') as Hf. pose proof (owned_write u k Hp') as Ho.
    pose proof (owned_unwritten false u k) as Hun.
    destruct c as [|e []| | |], (run_write (db w) u) as [[d n]|] eqn:Eu; intros [= <- <- <-];
      try rewrite (run_write_apply _ _ _ _ Eu);
      (split_and!; [first [exact Hf|apply frame_refl]|done|first [exact Ho|exact Hun]]).
Qed.

Lemma sound_request a :
  match a with Send _ _ | Receive _ => True | _ => False end -> pre g a -> sound_at w t thr g a c.
Proof using O R.
  intros Ha Hp w' open r k. destruct R as [R1 R2]. destruct a as [| | | | | | | | | | | | | | | | | | | |pid q|tm| |];
    try done; cbn in *.
  - intros [= <- <- <-]. destruct Hp as (Hw & tok & Hq & Hs).
    destruct (own_seen _ _ _ _ O _ _ Hs) as [Hh Hd].
    assert (forall p, (t, p) ∉ outstanding w) as Hno.
    { intros p Hin. apply (own_wait _ _ _ _ O) in Hin. congruence. }
    split_and!; [|done|].
    + split; cbn; try done.
      * intros t' p Ht'. rewrite elem_of_app, list_elem_of_singleton. naive_solver.
      * rewrite fmap_app. apply NoDup_app. split_and!; [done| |apply NoDup_singleton].
        intros x Hx%list_elem_of_fmap. cbn. rewrite list_elem_of_singleton. intros ->.
        destruct Hx as ([t' p] & E & Hin). cbn in E. subst. by destruct (Hno p).
      * apply Forall_app. split; [done|]. apply Forall_singleton. cbn. rewrite Hq. done.
    + pose proof (owned_tx k) as []. split; cbn in *; eauto; try done.
      * intros p. rewrite elem_of_app, list_elem_of_singleton. split; [|intros [= ->]; auto].
        intros [Hin|[= ->]]; [by destruct (Hno p)|done].
      * intros p [= <-]. done.
  - assert (frame t g w (set_requests (List.filter (fun o => negb (Nat.eqb (fst o) t)) (outstanding w)) (sent w) w)
      /\ owned (set_requests (List.filter (fun o => negb (Nat.eqb (fst o) t)) (outstanding w)) (sent w) w)
           t {| process := process thr; tx := tx thr; todo := k |} (with_wait None g)) as [Hf Ho].
    { split.
      - split; cbn; try done.
        + intros t' p Ht'. rewrite others_elem. tauto.
        + by apply others_once.
      - pose proof (owned_tx k) as []. split; cbn in *; eauto; try done.
        intros p. rewrite others_elem. split; [by intros [_ []]|done]. }
    destruct c as [| | | |[a|]]; try done; [|destruct tm; [|done]]; intros [= <- <- <-]; done.
Qed.

Lemma exec_sound a : pre g a -> sound_at w t thr g a c.
Proof using O R.
  intros Hp. destruct a; auto using sound_memory, sound_clock, sound_lock, sound_tx, sound_select,
    sound_execute, sound_request; by intros w' open r k.
Qed.
End Actions.

(** ** Every reachable world *)

(** A task of the world replaced, with its ghost state. *)
Lemma inv_update w w' gs t thr g thr' g' :
  inv w gs -> tasks w !! t = Some thr -> gs !! t = Some g -> owned w t thr g ->
  frame t g w w' -> process thr' = process thr -> owned w' t thr' g' ->
  wp (todo thr') g' (fun g2 _ => idle g2) ->
  (forall k t', advisory w' !! k = Some t' -> t' = t \/ advisory w !! k = Some t') ->
  (forall k t', locks w' !! k = Some t' -> t' = t \/ locks w !! k = Some t') ->
  inv (set_tasks (<[t := thr']> (tasks w)) w') (<[t := g']> gs).
Proof.
  intros I Ht Hg Ho F Hproc Ho' Hwp Hadv Hlocks.
  assert (t < length (tasks w))%nat as Hlt by (by eapply lookup_lt_Some).
  assert (t < length gs)%nat as Hlg by (by eapply lookup_lt_Some).
  assert (forall t', is_Some (tasks w !! t') -> is_Some (<[t:=thr']> (tasks w) !! t')) as Hsome.
  { intros t' [x Hx]. destruct (decide (t = t')) as [<-|Hne].
    - rewrite list_lookup_insert_eq; eauto.
    - rewrite list_lookup_insert_ne; eauto. }
  assert (forall t2 thr2, <[t:=thr']> (tasks w) !! t2 = Some thr2 ->
            exists thr0, tasks w !! t2 = Some thr0 /\ process thr2 = process thr0) as Hold.
  { intros t2 thr2 E. destruct (decide (t = t2)) as [<-|Hne].
    - rewrite list_lookup_insert_eq in E by done. injection E as <-. eauto.
    - rewrite list_lookup_insert_ne in E by done. eauto. }
  split; cbn.
  - intros t2 thr2 E. destruct (decide (t = t2)) as [<-|Hne].
    + rewrite list_lookup_insert_eq in E by done. injection E as <-.
      exists g'. rewrite list_lookup_insert_eq by done. split_and!; [done| |done]. by destruct Ho'; split.
    + rewrite list_lookup_insert_ne in E by done. rewrite list_lookup_insert_ne by done.
      destruct (inv_owned _ _ I _ _ E) as (g2 & Hg2 & Ho2 & Hwp2). exists g2.
      split_and!; [done| |done].
      assert (owned w' t2 thr2 g2) as []; [|by split].
      eapply (owned_frame w w' t g); [by auto|done|done|].
      intros pid H2' Hh. apply Hne.
      refine (holds_unique w t thr g t2 thr2 g2 pid _ Ho Ho2 Hh H2').
      intros Hk. by eapply (inv_process _ _ I Hk).
  - intros k t2 E. apply Hsome. destruct (Hlocks _ _ E) as [->|E2]; [by exists thr|].
    by eapply inv_locks.
  - intros k t2 E. apply Hsome. destruct (Hadv _ _ E) as [->|E2]; [by exists thr|].
    by eapply inv_advisory.
  - intros t2 pid Hin. apply Hsome. destruct (decide (t2 = t)) as [->|Hne]; [by exists thr|].
    apply (inv_outstanding _ _ I t2 pid). by eapply fr_outstanding.
  - by apply F.
  - by apply F.
  - intros Hk t1 thr1 t2 thr2 E1 E2.
    destruct (Hold _ _ E1) as (x1 & X1 & ->). destruct (Hold _ _ E2) as (x2 & X2 & ->).
    by eapply (inv_process _ _ I Hk).
Qed.

Lemma frame_advisory t g w w' k t' :
  frame t g w w' -> advisory w' !! k = Some t' -> t' = t \/ advisory w !! k = Some t'.
Proof.
  intros F E. destruct (decide (t' = t)) as [->|Hne]; [by left|]. right. by eapply fr_advisory.
Qed.

Lemma frame_locks t g w w' k t' :
  frame t g w w' -> locks w' !! k = Some t' -> t' = t \/ locks w !! k = Some t'.
Proof.
  intros F E. destruct (decide (t' = t)) as [->|Hne]; [by left|]. right. destruct k as [p l].
  by eapply fr_locks.
Qed.

Lemma inv_runs w gs t c w' : inv w gs -> step_task w t c = Some w' -> exists gs', inv w' gs'.
Proof.
  intros I. unfold step_task. destruct (tasks w !! t) as [thr|] eqn:Ht; [|done]. cbn.
  destruct (inv_owned _ _ I _ _ Ht) as (g & Hg & Ho & Hwp).
  destruct (todo thr) as [a|a k] eqn:Ecode; [done|]. cbn in Hwp. destruct Hwp as [Hp Hk].
  destruct (exec w t (process thr) (tx thr) a c) as [[[w1 open] r]|] eqn:Ex; [|done].
  cbn. intros [= <-].
  assert (requests_ok w) as R by (split; [apply (inv_once _ _ I)|apply (inv_sent _ _ I)]).
  destruct (exec_sound w t thr g c Ho R a Hp w1 open r (k r) Ex) as (F & Hposs & Ho').
  exists (<[t := post g a r]> gs). eapply inv_update; eauto using frame_advisory, frame_locks.
Qed.

Lemma inv_cancels w gs t w' : inv w gs -> cancel_task w t = Some w' -> exists gs', inv w' gs'.
Proof.
  intros I. unfold cancel_task. destruct (tasks w !! t) as [thr|] eqn:Ht; [|done]. cbn.
  destruct (todo thr) as [|a0 k0]; [done|]. intros [= <-].
  destruct (inv_owned _ _ I _ _ Ht) as (g & Hg & Ho & Hwp).
  set (g' := {| g_lock := None; g_tx := None; g_dirty := false; g_seen := None; g_wait := None;
                g_clock := g_clock g |}).
  exists (<[t := g']> gs).
  eapply (inv_update w _ gs t thr g); eauto.
  - split; cbn; try done.
    + intros p l t' Hne. rewrite map_lookup_filter_Some. cbn. tauto.
    + intros k t' Hne. rewrite release_lookup. tauto.
    + intros t' p Hne. rewrite others_elem. tauto.
    + apply others_once, (inv_once _ _ I).
    + apply (inv_sent _ _ I).
  - split; cbn; try done.
    + intros p l. rewrite map_lookup_filter_Some. cbn. split; [by intros [_ []]|by intros [_ ?]].
    + intros k. rewrite release_lookup. split; [done|by intros [_ []]].
    + intros p. rewrite others_elem. split; [by intros [_ []]|done].
    + apply (own_clock _ _ _ _ Ho).
  - done.
  - cbn. intros k t'. rewrite release_lookup. tauto.
  - cbn. intros k t'. rewrite map_lookup_filter_Some. tauto.
Qed.

Lemma inv_reach w0 gs0 w : inv w0 gs0 -> reach w0 w -> exists gs, inv w gs.
Proof.
  intros I0. induction 1 as [|w w' _ [gs I] Hs]; [eauto|].
  destruct Hs as [w t c w'|w t w']; eauto using inv_runs, inv_cancels.
Qed.

(** The ghost state of a task that has not started. *)
Definition fresh (now : Z) : Ghost :=
  {| g_lock := None; g_tx := None; g_dirty := false; g_seen := None; g_wait := None;
     g_clock := now |}.

Lemma inv_initial d now ts :
  (kind = Sqlite -> forall p q, p ∈ ts.*1 -> q ∈ ts.*1 -> p = q) ->
  Forall (fun pc => wp (snd pc) (fresh now) (fun g _ => idle g)) ts ->
  inv (initial d now ts) (map (fun _ => fresh now) ts).
Proof.
  intros Hproc Hwp. split; cbn; try done.
  - intros t thr. rewrite list_lookup_fmap. destruct (ts !! t) as [[p m]|] eqn:E; [|done].
    cbn. intros [= <-]. exists (fresh now). rewrite list_lookup_fmap, E. split_and!; [done| |].
    + split; cbn; try done; [by intros p' l; split; [|intros [_ ?]]|].
      intros pid. by rewrite elem_of_nil.
    + rewrite Forall_forall in Hwp. cbn. apply (Hwp (p, m)). by eapply list_elem_of_lookup_2.
  - intros t pid Hin. by apply elem_of_nil in Hin.
  - constructor.
  - intros Hk t thr t' thr'. rewrite !list_lookup_fmap.
    destruct (ts !! t) as [[p m]|] eqn:E; [|done]. destruct (ts !! t') as [[p' m']|] eqn:E'; [|done].
    cbn. intros [= <-] [= <-]. cbn. apply (Hproc Hk); apply list_elem_of_fmap.
    + exists (p, m). split; [done|]. by eapply list_elem_of_lookup_2.
    + exists (p', m'). split; [done|]. by eapply list_elem_of_lookup_2.
Qed.
End Ghost.
