(* ===== verification/OAuthSafety.v ===== *)
(** * OAuthSafety: the coordination of token refreshes

    Every operation of the manager obeys the discipline of [OAuthGhost]; so
    whatever the interleaving of their tasks, on either backend: one refresh
    request at most is in flight for a provider, it presents the refresh
    token that is stored at that moment, the waits for the lock end, and no
    task waits for ever. *)

From stdpp Require Import base option list gmap strings.
From Stdlib Require Import ZArith Lia Ascii.
From S2P Require Import Prelude RustStr Http F64 Utf8 Json JsonBody Classify Targets Health Encryption.
From S2P Require Import ProviderConfig OAuthTokens OAuthEffects OAuthStore OAuthCache OAuthManager OAuthGhost.

Local Open Scope string_scope.
Local Open Scope list_scope.

(** What the metadata relies on beyond [SerdeJsonLaws]: a printed value is
    text, and an object that is printed and parsed again keeps the strings
    among its members (a double may change). *)
Class SerdeObjectLaws (J : SerdeJson) : Prop := {
  to_string_utf8 v : is_utf8 (to_string v) = true;
  reread_object m : exists m', from_str (to_string (Obj m)) = Some (Obj m')
    /\ forall k, assoc k m' ≫= as_str = assoc k m ≫= as_str;
}.

Section Safety.
Context `{C : Crypto} {CL : CryptoLaws C} `{J : SerdeJson} {JL : SerdeJsonLaws J}
  {JO : SerdeObjectLaws J} `{Chrono} `{OAuthCrates} `{HttpHeaders}.
Context (kind : DbKind) (encryption : option KeyEncryption) (timeout_secs : Z).

Abbreviation wp := (wp kind encryption).
Abbreviation holds := (holds kind).
Abbreviation blob_token := (blob_token encryption).

(** ** Ghost states that differ little *)

(** Nothing happened but the passing of time. *)
Record keeps (g g' : Ghost) : Prop := {
  k_lock : g_lock g' = g_lock g;
  k_tx : g_tx g' = g_tx g;
  k_dirty : g_dirty g' = g_dirty g;
  k_seen : g_seen g' = g_seen g;
  k_wait : g_wait g' = g_wait g;
  k_clock : (g_clock g <= g_clock g')%Z;
}.

(** The same, but for what is known of the stored tokens. *)
Record calm (g g' : Ghost) : Prop := {
  c_lock : g_lock g' = g_lock g;
  c_tx : g_tx g' = g_tx g;
  c_dirty : g_dirty g' = g_dirty g;
  c_wait : g_wait g' = g_wait g;
  c_clock : (g_clock g <= g_clock g')%Z;
}.

#[local] Instance keeps_refl : Reflexive keeps.
Proof. by split. Qed.
#[local] Instance keeps_trans : Transitive keeps.
Proof. intros g1 g2 g3 [] []. split; try congruence. lia. Qed.
#[local] Instance calm_refl : Reflexive calm.
Proof. by split. Qed.
#[local] Instance calm_trans : Transitive calm.
Proof. intros g1 g2 g3 [] []. split; try congruence. lia. Qed.

Lemma keeps_calm g g' : keeps g g' -> calm g g'.
Proof. by intros []. Qed.

Lemma holds_lock_tx g g' pid :
  g_lock g' = g_lock g -> g_tx g' = g_tx g -> holds g pid -> holds g' pid.
Proof. unfold OAuthGhost.holds. by intros -> ->. Qed.

Definition quiet {A} (m : prog A) : Prop :=
  forall g Q, (forall g' r, keeps g g' -> Q g' r) -> wp m g Q.

Definition calmly {A} (m : prog A) : Prop :=
  forall g Q, (forall g' r, calm g g' -> Q g' r) -> g_dirty g = false -> wp m g Q.

Lemma quiet_calmly {A} (m : prog A) : quiet m -> calmly m.
Proof. intros Hm g Q HQ _. apply Hm. intros g' r Hk. by apply HQ, keeps_calm. Qed.

Lemma wp_try {E F A B} (f : E -> F) (m : prog (result E A)) (k : A -> prog (result F B)) g Q :
  wp m g (fun g' r => match r with Ok a => wp (k a) g' Q | Err e => Q g' (Err (f e)) end) ->
  wp (try_bind f m k) g Q.
Proof. intros Hm. apply wp_bind. eapply wp_mono; [|exact Hm]. by intros g' [a|e]. Qed.

(** ** Quiet programs *)

Lemma quiet_ret {A} (a : A) : quiet (Ret a).
Proof. intros g Q HQ. by apply HQ. Qed.

Lemma quiet_bind {A B} (f : A -> prog B) m :
  quiet m -> (forall a, quiet (f a)) -> quiet (prog_bind f m).
Proof.
  intros Hm Hf g Q HQ. apply wp_bind, Hm. intros g' a Hk. apply Hf.
  intros g2 r Hk2. apply HQ. by etrans.
Qed.

Lemma quiet_try {E F A B} (f : E -> F) (m : prog (result E A)) (k : A -> prog (result F B)) :
  quiet m -> (forall a, quiet (k a)) -> quiet (try_bind f m k).
Proof. intros Hm Hk. apply quiet_bind; [done|]. intros [a|e]; [done|apply quiet_ret]. Qed.

Lemma quiet_panic {A} p (k : Empty_set -> prog A) : quiet (Vis (Panics p) k).
Proof. intros g Q HQ. by split; [|intros []]. Qed.

Lemma quiet_call a :
  match a with
  | MutexFor _ | CacheRead _ | CacheWrite _ _ | CacheSeed _ _ | CacheReject _ _ | CacheForget _
  | RefreshSnapshot | UtcNow | Nonce | InstantNow => True
  | Select _ q => match q with GetProvider _ => False | _ => True end
  | _ => False
  end -> quiet (call a).
Proof.
  intros Ha g Q HQ. destruct a as [| | | | | | | | | |[] []| | | | | | | | | | | | |]; try done; cbn;
    (split; [done|]); intros r Hr; apply HQ; try done; by split.
Qed.

Lemma calmly_bind {A B} (f : A -> prog B) m :
  calmly m -> (forall a, calmly (f a)) -> calmly (prog_bind f m).
Proof.
  intros Hm Hf g Q HQ Hd. apply wp_bind, Hm; [|done]. intros g' a Hk. apply Hf.
  - intros g2 r Hk2. apply HQ. by etrans.
  - by rewrite (c_dirty _ _ Hk).
Qed.

Lemma calmly_try {E F A B} (f : E -> F) (m : prog (result E A)) (k : A -> prog (result F B)) :
  calmly m -> (forall a, calmly (k a)) -> calmly (try_bind f m k).
Proof. intros Hm Hk. apply calmly_bind; [done|]. intros [a|e]; [done|apply quiet_calmly, quiet_ret]. Qed.

Create HintDb quiet.
#[local] Hint Resolve quiet_ret quiet_panic : quiet.

(** Follows the program: sequences, calls, and every case of a test. *)
Ltac quiet :=
  repeat first
    [ solve [eauto with quiet]
    | match goal with |- quiet (call ?a) => exact (quiet_call a I) end
    | apply quiet_bind; [|intro]
    | apply quiet_try; [|intro]
    | match goal with
      | |- quiet (match ?x with _ => _ end) => destruct x
      | |- quiet (prog_bind _ (match ?x with _ => _ end)) => destruct x
      end
    | progress cbv beta iota zeta ].

Lemma quiet_load intx pid : quiet (load_token encryption intx pid).
Proof. unfold load_token. quiet. Qed.
Lemma quiet_seal enc plain : quiet (seal encryption enc plain).
Proof. unfold seal. quiet. Qed.
Lemma quiet_status_metadata p status reason : quiet (status_metadata p status reason).
Proof. unfold status_metadata. quiet. Qed.
Lemma quiet_instant_after d : quiet (instant_after d).
Proof. unfold instant_after. quiet. Qed.
Lemma quiet_utc_after d : quiet (utc_after d).
Proof. unfold utc_after. quiet. Qed.
Lemma quiet_remaining t : quiet (remaining t).
Proof. unfold remaining. quiet. Qed.
Lemma quiet_still_ahead o : quiet (still_ahead o).
Proof. unfold still_ahead. quiet. Qed.
Lemma quiet_usable t : quiet (usable t).
Proof. unfold usable. quiet. Qed.
#[local] Hint Resolve quiet_load quiet_seal quiet_status_metadata quiet_instant_after
  quiet_utc_after quiet_remaining quiet_still_ahead quiet_usable : quiet.

Lemma quiet_seed_tokens pid label access refresh expires i :
  quiet (seed_tokens_with_identity pid label access refresh expires i).
Proof. unfold seed_tokens_with_identity. quiet. Qed.
Lemma quiet_get_from {A} (f : CachedToken -> option A) pid label : quiet (get_from f pid label).
Proof. unfold get_from. quiet. Qed.
Lemma quiet_invalidate pid label rejected :
  quiet (invalidate_access_token_if_matches pid label rejected).
Proof. unfold invalidate_access_token_if_matches. quiet. Qed.
Lemma quiet_invalidate_provider pid : quiet (invalidate_provider pid).
Proof. unfold invalidate_provider. quiet. Qed.
Lemma quiet_apply_cached hs pid label o : quiet (apply_cached hs pid label o).
Proof. unfold apply_cached. quiet. Qed.
Lemma quiet_backoff_active s : quiet (backoff_active s).
Proof. unfold backoff_active, refresh_backoff_is_active. quiet. Qed.
Lemma quiet_shared_usable s rejected : quiet (shared_token_is_usable s rejected).
Proof. unfold shared_token_is_usable. quiet. Qed.
Lemma quiet_next_retry k n : quiet (next_retry_at k n).
Proof. unfold next_retry_at. quiet. Qed.
#[local] Hint Resolve quiet_seed_tokens quiet_get_from quiet_invalidate quiet_invalidate_provider
  quiet_apply_cached quiet_backoff_active quiet_shared_usable quiet_next_retry : quiet.

Lemma quiet_seed_shared pid c s : quiet (seed_shared pid c s).
Proof. unfold seed_shared. quiet. Qed.
#[local] Hint Resolve quiet_seed_shared : quiet.
Lemma quiet_reuse pid c rejected : quiet (reuse_shared_token true encryption pid c rejected).
Proof. unfold reuse_shared_token, load. quiet. Qed.
#[local] Hint Resolve quiet_reuse : quiet.
Lemma quiet_reuse_if_needed mode pid c rejected :
  quiet (reuse_if_needed true encryption mode pid c rejected).
Proof. unfold reuse_if_needed. quiet. Qed.
Lemma quiet_interval : quiet (keepalive_interval true).
Proof. unfold keepalive_interval, get_u64. quiet. Qed.
Lemma quiet_early_exit mode c s : quiet (early_exit mode c s).
Proof. unfold early_exit. quiet. Qed.
Lemma quiet_due limit : quiet (due_keepalive_provider_ids true limit).
Proof. unfold due_keepalive_provider_ids, list_due_provider_ids. quiet. Qed.
Lemma quiet_summary pid : quiet (refresh_summary true encryption pid).
Proof. unfold refresh_summary, load. quiet. Qed.
#[local] Hint Resolve quiet_reuse_if_needed quiet_interval quiet_early_exit quiet_due
  quiet_summary : quiet.

(** ** The stored tokens *)

(** A provider as [get_provider] builds it. *)
Definition read_ok (p : Provider) : Prop :=
  oauth_meta_cleartext p = match auth_mode p with
                           | OAuthAuth => column_cleartext decrypt_oauth_meta encryption (encrypted_oauth_meta p)
                           | _ => None
                           end.

Definition provider_token (p : Provider) : string := stored_refresh_token (oauth_meta_cleartext p).

Lemma read_provider_ok pid row p :
  read_provider encryption pid (Some row) = Ok (Some p) ->
  read_ok p /\ id p = pid /\ provider_token p = row_token encryption row.
Proof using.
  unfold read_provider, row_to_provider, row_token.
  destruct (AuthMode.parse (row_auth_mode row)) as [mode|]; [|done]. cbn.
  destruct (if is_empty (row_metadata row) then _ else _) as [md|]; [|done]. cbn.
  destruct (parse_dt (row_created_at row)) as [t1|]; [|done]. cbn.
  destruct (parse_dt (row_updated_at row)) as [t2|]; [|done]. cbn.
  intros [= <-]. unfold read_ok, provider_token. by destruct mode.
Qed.

Lemma config_token p c :
  build_oauth_target_config p = Some c -> refresh_token c = provider_token p.
Proof using.
  unfold build_oauth_target_config. destruct (validate_provider_auth_mode _ _); [|done].
  destruct (get "oauth" (metadata_json p)); [|done]. cbn.
  destruct (_ || _); [done|]. by intros [= <-].
Qed.

(** A column that was sealed is read back. *)
Lemma sealed_token plain blob nonce :
  String.length nonce = NONCE_LEN -> is_utf8 plain = true -> plain <> "" ->
  column_of encrypt_oauth_meta encryption nonce plain = Ok blob ->
  column_cleartext decrypt_oauth_meta encryption blob = Some plain.
Proof using CL.
  intros Hn Hu He. unfold column_of, column_cleartext. destruct encryption as [enc|].
  - destruct (encrypt_oauth_meta enc nonce plain) as [b|] eqn:E; [|done]. intros [= <-].
    destruct (is_empty b) eqn:Eb.
    + apply is_empty_eq in Eb. by destruct (encrypted_nonempty _ _ _ _ _ Hn E).
    + unfold decrypt_oauth_meta. by rewrite (decrypt_of_encrypt _ _ _ _ _ Hn Hu E).
  - intros [= <-]. destruct (is_empty plain) eqn:Eb; [|done]. by apply is_empty_eq in Eb.
Qed.

Lemma object_text_nonempty m : to_string (Obj m) <> "".
Proof using JL. intros E. destruct (to_string_braces m) as [s Hs]. by rewrite E in Hs. Qed.

(** The refresh token of a printed object. *)
Lemma object_token m :
  stored_refresh_token (Some (to_string (Obj m)))
  = default "" (assoc "refresh_token" m ≫= as_str).
Proof using JO.
  unfold stored_refresh_token. destruct (reread_object m) as (m' & E & Hm). cbn. rewrite E. cbn.
  unfold get_str. cbn. by rewrite Hm.
Qed.

Lemma assoc_other_member k k' m :
  k <> k' -> assoc k (remove_member k' m) = assoc k m.
Proof using. intros Hk. rewrite assoc_remove_member. by destruct (String.eqb_spec k k'). Qed.

(** Recording the health of a credential keeps its refresh token. *)
Lemma status_metadata_token now p status reason text :
  oauth_status_metadata now p status reason = Ok text ->
  is_utf8 text = true /\ text <> "" /\ stored_refresh_token (Some text) = provider_token p.
Proof using JL JO.
  unfold oauth_status_metadata, provider_token. destruct (oauth_meta_cleartext p) as [raw|]; [|done].
  cbn. destruct (is_empty (trim raw)); [done|]. cbn.
  destruct (from_str raw) as [v|] eqn:Eraw; [|done]. destruct v as [| | | | |m]; try done.
  intros [= <-]. split_and!; [apply to_string_utf8|apply object_text_nonempty|].
  etrans; [apply object_token|].
  transitivity (default "" (assoc "refresh_token" m ≫= as_str)); [|reflexivity]. do 2 f_equal.
  destruct reason as [r|]; [destruct (is_empty r)|];
    rewrite ?assoc_other_member, !assoc_insert by done; reflexivity.
Qed.

(** ** Reading and writing providers *)

Lemma wp_get_provider intx pid g Q :
  (intx = true -> g_dirty g = false) ->
  (forall g' r, calm g g' ->
     (forall p, r = Ok (Some p) -> read_ok p /\ id p = pid
        /\ (holds g pid -> g_seen g' = Some (pid, provider_token p))) -> Q g' r) ->
  wp (select_provider encryption intx pid) g Q.
Proof using.
  intros Hd HQ. split; [by destruct intx; cbn; auto|]. intros [[row|]|e] _; cbn.
  - apply HQ; [by destruct (decide _)|]. intros p Hp.
    destruct (read_provider_ok _ _ _ Hp) as (Hr & Hi & ->). split_and!; [done..|].
    intros Hh. by rewrite decide_True.
  - by apply HQ; [|intros p [=]].
  - by apply HQ; [|intros p [=]].
Qed.

Lemma wp_load_provider pid g Q :
  (forall g' r, calm g g' ->
     (forall p c, r = Ok (p, c) -> read_ok p /\ id p = pid
        /\ (holds g pid -> g_seen g' = Some (pid, refresh_token c))) -> Q g' r) ->
  wp (load_oauth_provider true encryption pid) g Q.
Proof using.
  intros HQ. unfold load_oauth_provider. cbn [negb]. apply wp_try, wp_get_provider; [done|].
  intros g' [[p|]|e] Hc Hp; cbn; [|by apply HQ; [|intros ?? [=]]..].
  destruct (build_oauth_target_config p) as [c|] eqn:Ec; cbn; [|by apply HQ; [|intros ?? [=]]].
  apply HQ; [done|]. intros p' c' [= <- <-]. rewrite (config_token _ _ Ec). by apply Hp.
Qed.

Lemma wp_load_config pid g Q :
  (forall g' r, calm g g' -> Q g' r) -> wp (load_oauth_config true encryption pid) g Q.
Proof using.
  intros HQ. unfold load_oauth_config. apply wp_try, wp_load_provider.
  intros g' [[p c]|e] Hc _; by apply HQ.
Qed.

Lemma wp_seal enc plain g Q :
  (forall g' r, keeps g g' ->
     (forall blob, r = Ok blob -> exists nonce, String.length nonce = NONCE_LEN
        /\ column_of enc encryption nonce plain = Ok blob) -> Q g' r) ->
  wp (seal encryption enc plain) g Q.
Proof using.
  intros HQ. unfold seal. destruct encryption as [e|] eqn:E.
  - split; [done|]. intros nonce Hn. cbn. apply HQ; [done|]. intros blob Hb. eauto.
  - apply HQ; [done|]. intros blob [= <-]. by exists (String.concat "" (repeat "0" 12)).
Qed.

Lemma sealed_blob_token plain blob nonce :
  String.length nonce = NONCE_LEN -> is_utf8 plain = true -> plain <> "" ->
  column_of encrypt_oauth_meta encryption nonce plain = Ok blob ->
  blob_token blob = stored_refresh_token (Some plain).
Proof using CL.
  intros Hn Hu He Hc. unfold OAuthGhost.blob_token. by rewrite (sealed_token _ _ _ Hn Hu He Hc).
Qed.

(** A compare-and-set that keeps the refresh token. *)
Lemma wp_cas pid expected plain g Q :
  is_utf8 plain = true -> plain <> "" -> stored_refresh_token (Some plain) = blob_token expected ->
  g_wait g = None -> (forall g' r, keeps g g' -> Q g' r) ->
  wp (set_provider_oauth_meta_if_unchanged encryption pid expected plain) g Q.
Proof using CL.
  intros Hu He Ht Hw HQ. unfold set_provider_oauth_meta_if_unchanged, encrypt_meta.
  apply wp_try, wp_seal. intros g1 [blob|e] Hk Hb; [|by apply HQ].
  destruct (Hb blob eq_refl) as (nonce & Hn & Hc). split; [done|]. intros t _. cbn.
  split; [split_and!; [by rewrite (k_wait _ _ Hk)|done|done|]|].
  - intros p e m now [= <- <- <- <-]. split; [done|]. by rewrite (sealed_blob_token _ _ _ Hn Hu He Hc).
  - intros [n|e] _; by apply HQ.
Qed.

Lemma status_text now p status reason text :
  read_ok p -> oauth_status_metadata now p status reason = Ok text ->
  is_utf8 text = true /\ text <> ""
  /\ stored_refresh_token (Some text) = blob_token (encrypted_oauth_meta p).
Proof using JL JO.
  intros Hr Et. destruct (status_metadata_token _ _ _ _ _ Et) as (Hu & He & ->).
  split_and!; [done..|]. unfold provider_token, read_ok in *. unfold oauth_status_metadata in Et.
  rewrite Hr in *. by destruct (auth_mode p).
Qed.

Lemma wp_status_if_unchanged p status reason g Q :
  read_ok p -> g_wait g = None -> (forall g' r, keeps g g' -> Q g' r) ->
  wp (set_provider_oauth_status_if_unchanged encryption p status reason) g Q.
Proof using CL JL JO.
  intros Hr Hw HQ. unfold set_provider_oauth_status_if_unchanged, status_metadata.
  apply wp_try. split; [done|]. intros now _. cbn.
  destruct (oauth_status_metadata now p status reason) as [text|e] eqn:Et; [|by apply HQ].
  destruct (status_text _ _ _ _ _ Hr Et) as (Hu & He & Hb).
  apply wp_try, wp_cas; [done..|]. intros g1 [[]|e] Hk; try by apply HQ.
  split; [done|]. intros [u|e] _; by apply HQ.
Qed.

Lemma wp_set_status pid status reason g Q :
  g_wait g = None -> (forall g' r, calm g g' -> Q g' r) ->
  wp (set_provider_oauth_status encryption pid status reason) g Q.
Proof using CL JL JO.
  unfold set_provider_oauth_status. generalize MAX_CAS_ATTEMPTS as n. intros n.
  revert g. induction n as [|n IH]; intros g Hw HQ; cbn [set_status_attempts]; [by apply HQ|].
  apply wp_try, wp_get_provider; [done|]. intros g1 [[p|]|e] Hc Hp; [|by apply HQ..].
  destruct (Hp p eq_refl) as (Hr & Hi & _).
  apply wp_try. split; [done|]. intros now _. cbn.
  destruct (oauth_status_metadata now p status reason) as [text|e] eqn:Et; [|by apply HQ].
  destruct (status_text _ _ _ _ _ Hr Et) as (Hu & He & Hb).
  apply wp_try, wp_cas; [done..|by rewrite (c_wait _ _ Hc)|]. intros g2 [[]|e] Hk%keeps_calm.
  - split; [done|]. intros [u|e] _; apply HQ; by etrans.
  - apply IH; [by rewrite (c_wait _ _ Hk), (c_wait _ _ Hc)|]. intros g3 r Hc3. apply HQ.
    etrans; [done|]. by etrans.
  - apply HQ. by etrans.
Qed.

(** ** Transactions *)

(** A program that starts and ends with no request in flight, and may end
    the transaction. *)
Record ends (g g' : Ghost) : Prop := {
  e_lock : g_lock g' = g_lock g;
  e_tx : g_tx g' = g_tx g \/ g_tx g' = None;
  e_wait : g_wait g' = None;
  e_clock : (g_clock g <= g_clock g')%Z;
}.

(** The same inside the transaction. *)
Record stays (g g' : Ghost) : Prop := {
  st_lock : g_lock g' = g_lock g;
  st_tx : g_tx g' = g_tx g;
  st_wait : g_wait g' = None;
  st_clock : (g_clock g <= g_clock g')%Z;
}.

#[local] Instance ends_trans : Transitive ends.
Proof. intros g1 g2 g3 [] []. split; try congruence; [|lia]. intuition congruence. Qed.
#[local] Instance stays_trans : Transitive stays.
Proof. intros g1 g2 g3 [] []. split; try congruence. lia. Qed.

Lemma stays_ends g g' : stays g g' -> ends g g'.
Proof. intros []. split; auto. Qed.
Lemma calm_stays g g' : g_wait g = None -> calm g g' -> stays g g'.
Proof. intros Hw []. split; congruence || lia. Qed.
Lemma keeps_stays g g' : g_wait g = None -> keeps g g' -> stays g g'.
Proof. intros Hw Hk. by apply calm_stays, keeps_calm. Qed.
Lemma holds_stays g g' pid : stays g g' -> holds g pid -> holds g' pid.
Proof. intros []. by apply holds_lock_tx. Qed.

(** Statements of a transaction. *)
Lemma wp_execute intx u g Q :
  g_wait g = None -> (intx = true -> g_tx g <> None) ->
  (forall pid, sets_meta u = Some pid -> holds g pid) ->
  (forall pid e m now, u <> SetMetaIf pid e m now) ->
  (forall g' r, stays g g' -> Q g' r) -> wp (call (Execute intx u)) g Q.
Proof using.
  intros Hw Ht Hs Hc HQ. split.
  - split_and!; [done..|]. intros pid e m now ->. by destruct (Hc pid e m now).
  - intros r _. apply HQ. cbn. by destruct (sets_meta u).
Qed.

Lemma wp_commit_in_tx c g Q :
  g_wait g = None -> g_tx g <> None -> holds g (commit_provider_id c) ->
  (forall g' r, stays g g' -> Q g' r) ->
  wp (commit_success_in_transaction encryption c) g Q.
Proof using.
  intros Hw Ht Hh HQ. unfold commit_success_in_transaction, encrypt_access_token, encrypt_meta.
  apply wp_try, quiet_seal. intros g1 [access|e] Hk1; [|by apply HQ, keeps_stays].
  apply wp_try, quiet_seal. intros g2 [meta|e] Hk2; (assert (stays g g2) as H2 by (apply keeps_stays; [done|by etrans]));
    [|by apply HQ].
  split; [done|]. intros t _. cbn [post].
  apply wp_try, wp_execute; try done.
  { by rewrite (st_wait _ _ H2). } { by rewrite (st_tx _ _ H2). }
  { intros pid [= <-]. by eapply holds_stays. }
  intros g3 [n|e] H3; (assert (stays g g3) as H3' by (by etrans)); [|by apply HQ].
  destruct (n =? 0)%Z; [by apply HQ|].
  apply wp_try, wp_execute; try done.
  { by rewrite (st_wait _ _ H3'). } { by rewrite (st_tx _ _ H3'). }
  intros g4 [n'|e] H4; (assert (stays g g4) as H4' by (by etrans)); [|by apply HQ].
  split; [done|]. intros [[row|]|e] _; by apply HQ.
Qed.

(** A transaction around a body that [ends] it or not. *)
Lemma wp_with_tx {A} (body : prog A) g Q :
  wp body g (fun g' r => g_wait g' = None /\ Q (with_tx_g None g') r) -> wp (with_tx body) g Q.
Proof using.
  intros Hb. apply wp_bind. eapply wp_mono; [|exact Hb]. intros g' r [Hw HQ]. by split.
Qed.

Definition dropped (g g' : Ghost) : Prop :=
  g_lock g' = g_lock g /\ g_tx g' = None /\ g_wait g' = None
  /\ (g_clock g <= g_clock g')%Z.

Lemma ends_dropped g g' : ends g g' -> dropped g (with_tx_g None g').
Proof. by intros []. Qed.

Lemma wp_commit_call g Q :
  g_wait g = None -> (forall r, Q (with_tx_g None g) r) -> wp (call Commit) g Q.
Proof using. intros Hw HQ. split; [done|]. intros r _. apply HQ. Qed.

(** The transactions of SQLite, which the process-local lock protects: a
    body that stays in the transaction, and the commit. *)
Lemma wp_own_tx {A B} (body : prog (result StoreError A)) (f : A -> B) g Q :
  g_wait g = None -> g_tx g = None ->
  (forall g1 P, g1 = with_tx_g (Some None) g -> (forall g' r, stays g1 g' -> P g' r) -> wp body g1 P) ->
  (forall g' r, dropped g g' -> Q g' r) ->
  wp (_ <-? call Begin; with_tx (a <-? body; _ <-? call Commit; Ret (Ok (f a))))%task g Q.
Proof using.
  intros Hw Ht Hb HQ. apply wp_try. split; [done|]. intros [[]|e] _; cbn [post].
  - apply wp_with_tx, wp_try, Hb; [done|]. intros g2 r Hs.
    assert (dropped g (with_tx_g None g2)) as Hg by (by destruct Hs).
    destruct Hs as [S1 S2 S3 S4]. destruct r as [a|e]; [|by split; [|apply HQ]].
    apply wp_try, wp_commit_call; [done|]. intros [[]|e]; (split; [done|apply HQ]); done.
  - by apply HQ.
Qed.

Lemma dropped_ends g g' : dropped g g' -> ends g g'.
Proof. intros (H1' & H2' & H3' & H4'). split; auto. Qed.

Lemma holds_sqlite g g' pid :
  kind = Sqlite -> g_lock g' = g_lock g -> holds g pid -> holds g' pid.
Proof. unfold OAuthGhost.holds. by intros -> ->. Qed.

Lemma wp_commit_success c g Q :
  kind = Sqlite -> g_wait g = None -> g_tx g = None ->
  holds g (commit_provider_id c) -> (forall g' r, dropped g g' -> Q g' r) ->
  wp (commit_success encryption c) g Q.
Proof using.
  intros Hk Hw Ht Hh HQ. unfold commit_success. apply (wp_own_tx _ (fun v => v)); try done.
  intros g1 P -> HP. apply wp_commit_in_tx; try done. by apply (holds_sqlite g).
Qed.

Lemma wp_failure_in_tx pid at_ g Q :
  g_wait g = None -> g_tx g <> None -> (forall g' r, stays g g' -> Q g' r) ->
  wp (record_failure_in_transaction pid at_) g Q.
Proof using.
  intros Hw Ht HQ. unfold record_failure_in_transaction. split; [done|]. intros t _. cbn [post].
  apply wp_try, wp_execute; try done. intros g' [n|e] Hs; by apply HQ.
Qed.

Lemma wp_record_failure pid at_ g Q :
  g_wait g = None -> g_tx g = None -> (forall g' r, dropped g g' -> Q g' r) ->
  wp (record_failure pid at_) g Q.
Proof using.
  intros Hw Ht HQ. unfold record_failure. apply (wp_own_tx _ (fun _ => tt)); try done.
  intros g1 P -> HP. by apply wp_failure_in_tx.
Qed.

Lemma wp_reset_in_tx pid g Q :
  g_wait g = None -> g_tx g <> None -> (forall g' r, stays g g' -> Q g' r) ->
  wp (reset_in_transaction encryption pid None) g Q.
Proof using.
  intros Hw Ht HQ. unfold reset_in_transaction. apply wp_try. cbn [OAuthGhost.wp].
  apply wp_try, wp_execute; try done. intros g' [n|e] Hs; by apply HQ.
Qed.

Lemma wp_reset pid g Q :
  g_wait g = None -> g_tx g = None -> (forall g' r, dropped g g' -> Q g' r) ->
  wp (reset encryption pid None) g Q.
Proof using.
  intros Hw Ht HQ. unfold reset. apply (wp_own_tx _ (fun _ => tt)); try done.
  intros g1 P -> HP. by apply wp_reset_in_tx.
Qed.

(** Whether the caller's transaction is open. *)
Definition tx_is (intx : bool) (g : Ghost) : Prop :=
  g_wait g = None /\ if intx then g_tx g <> None else g_tx g = None /\ g_dirty g = false.

Lemma tx_is_keeps intx g g' : keeps g g' -> tx_is intx g -> tx_is intx g'.
Proof. intros []. unfold tx_is. by rewrite k_wait0, k_tx0, k_dirty0. Qed.
Lemma tx_is_calm intx g g' : calm g g' -> tx_is intx g -> tx_is intx g'.
Proof. intros []. unfold tx_is. by rewrite c_wait0, c_tx0, c_dirty0. Qed.

Lemma keeps_ends g g' : g_wait g = None -> keeps g g' -> ends g g'.
Proof. intros Hw Hk. by apply stays_ends, keeps_stays. Qed.

Lemma wp_record_backoff fk pid intx g Q :
  tx_is intx g -> (forall g' r, dropped g g' -> Q g' r) -> (intx = false -> forall g' r, keeps g g' -> Q g' r) ->
  wp (record_backoff encryption fk pid intx) g Q.
Proof using.
  intros [Hw Ht] HQ HQ'. unfold record_backoff. destruct intx.
  - apply wp_with_tx, wp_try, quiet_load. intros g1 r Hk.
    pose proof (keeps_stays _ _ Hw Hk) as S1.
    destruct r as [s|e]; [|split; [apply S1|by apply HQ, ends_dropped, stays_ends]].
    apply wp_bind, quiet_next_retry. intros g2 at_ Hk2.
    assert (stays g g2) as S2 by (etrans; [done|apply keeps_stays; [apply S1|done]]).
    apply wp_try, wp_failure_in_tx; [apply S2|by rewrite (st_tx _ _ S2)|].
    intros g3 r S3. assert (stays g g3) as S3' by (by etrans).
    destruct r as [[]|e]; [|split; [apply S3'|by apply HQ, ends_dropped, stays_ends]].
    apply wp_try, wp_commit_call; [apply S3'|].
    intros [[]|e]; (split; [apply S3'|apply HQ; by destruct S3']).
  - destruct Ht as [Ht Hd]. apply wp_try, quiet_load. intros g1 r Hk.
    destruct r as [s|e]; [|by apply HQ'].
    apply wp_bind, quiet_next_retry. intros g2 at_ Hk2.
    assert (keeps g g2) as [] by (by etrans).
    apply wp_record_failure; try congruence. intros g3 r (? & ? & ? & ?). apply HQ.
    split_and!; try congruence; lia.
Qed.

Lemma wp_refresh_failure p fk intx g Q :
  read_ok p -> tx_is intx g -> (forall g' r, ends g g' -> g_tx g' = None -> Q g' r) ->
  wp (record_refresh_failure true encryption p fk intx) g Q.
Proof using CL JL JO.
  intros Hr Hi HQ. unfold record_refresh_failure. cbn [negb]. apply wp_bind, wp_record_backoff; [done|..].
  - intros g1 r Hd. apply dropped_ends in Hd as E1. destruct Hd as (_ & Ht & Hw & _).
    apply wp_bind, wp_status_if_unchanged; [done..|]. intros g2 r2 Hk. apply HQ.
    + etrans; [done|]. by apply keeps_ends.
    + by rewrite (k_tx _ _ Hk).
  - intros -> g1 r Hk. destruct (tx_is_keeps _ _ _ Hk Hi) as [Hw [Ht _]]. destruct Hi as [Hw0 _].
    apply wp_bind, wp_status_if_unchanged; [done..|]. intros g2 r2 Hk2. apply HQ.
    + etrans; [by apply keeps_ends|]. by apply keeps_ends.
    + by rewrite (k_tx _ _ Hk2).
Qed.

(** ** The refresh *)

Lemma wp_persist pid p c r interval intx g Q :
  tx_is intx g -> (intx = false -> kind = Sqlite) -> holds g pid ->
  (forall g' x, ends g g' -> Q g' x) ->
  wp (persist_token_result true encryption pid p c r interval intx) g Q.
Proof using.
  intros Hi Hk Hh HQ. unfold persist_token_result. cbn [negb]. apply wp_try.
  destruct (stored_members p) as [m|e]; cbn [pure OAuthGhost.wp];
    [|apply HQ; destruct Hi; by split; auto].
  apply wp_bind, (quiet_call UtcNow I). intros g0 checked Hk0. apply wp_bind.
  assert (quiet (match lifetime r ≫= from_std with
                 | Some d => prog_bind (fun t => Ret (Some t)) (utc_after d)
                 | None => Ret None
                 end)) as Hexp by quiet.
  apply Hexp. intros g1 expires Hk1. apply wp_bind, quiet_utc_after. intros g2 keepalive Hk2.
  assert (keeps g g2) as Hk3 by (etrans; [done|]; by etrans).
  pose proof (tx_is_keeps _ _ _ Hk3 Hi) as [Hw2 Ht2].
  assert (holds g2 pid) as Hh2 by (destruct Hk3; by eapply holds_lock_tx).
  assert (ends g g2) as E2 by (apply keeps_ends; [apply Hi|done]).
  assert (forall g3 Q', ends g g3 -> (forall g' x, ends g g' -> Q' g' x) ->
    wp (prog_bind (fun _ =>
          refreshed <-? load_oauth_config true encryption pid;
          prog_bind (fun _ => Ret (Ok (refreshed, Refreshed)))
            (seed_tokens_with_identity pid (OAuthTargetConfig.cache_label refreshed)
               (access_token r) (default (refresh_token c) (new_refresh_token r)) (lifetime r)
               {| i_account_id := or_else (OAuthTokens.account_id r) (Targets.account_id c);
                  i_account_email := account_email r |}))
        (call RefreshSnapshot))%task g3 Q') as Hrest.
  { intros g3 Q' E3 HQ'. apply wp_bind, (quiet_call RefreshSnapshot I). intros g3' x Hk3'.
    assert (ends g g3') as E3' by (etrans; [done|apply keeps_ends; [apply E3|done]]).
    apply wp_try, wp_load_config. intros g4 [cfg|e] Hc4; (assert (ends g g4) as E4
      by (etrans; [done|apply stays_ends, calm_stays; [apply E3'|done]])); [|by apply HQ'].
    apply wp_bind, quiet_seed_tokens. intros g5 u Hk5. apply HQ'.
    etrans; [done|]. apply keeps_ends; [apply E4|done]. }
  apply wp_try. destruct intx.
  - apply wp_commit_in_tx; [done..|]. intros g3 [v|e] S3;
      (assert (ends g g3) as E3 by (etrans; [done|by apply stays_ends])); [|by apply HQ].
    apply wp_try, wp_commit_call; [apply S3|]. intros y.
    assert (ends g (with_tx_g None g3)) as E4 by (destruct E3; split; auto).
    destruct y as [[]|e]; [|by apply HQ]. by apply Hrest.
  - destruct Ht2 as [Ht2 Hd2]. apply wp_commit_success; auto. intros g3 [v|e] Hd3;
      (assert (ends g g3) as E3 by (etrans; [done|by apply dropped_ends])); [|by apply HQ].
    apply wp_try. cbn [OAuthGhost.wp]. by apply Hrest.
Qed.

Lemma wp_do_refresh pid tok c g Q :
  g_wait g = None -> g_seen g = Some (pid, tok) -> (forall g' x, keeps g g' -> Q g' x) ->
  wp (do_refresh_token true pid tok c) g Q.
Proof using.
  intros Hw Hs HQ. split.
  { split; [done|]. exists tok. split; [apply presented_by_refresh|done]. }
  intros [] _. split; [done|]. intros answer _. apply HQ. by split.
Qed.

Lemma wp_perform pid p c interval intx g Q :
  tx_is intx g -> (intx = false -> kind = Sqlite) -> holds g pid ->
  g_seen g = Some (pid, refresh_token c) -> read_ok p ->
  (forall g' x, ends g g' -> Q g' x) ->
  wp (perform_refresh true encryption timeout_secs pid p c interval intx) g Q.
Proof using CL JL JO.
  intros Hi Hk Hh Hs Hr HQ. unfold perform_refresh. destruct (is_empty (refresh_token c)).
  { apply HQ. destruct Hi. by split; auto. }
  apply wp_bind, wp_do_refresh; [apply Hi|done|]. intros g1 answer Hk1.
  pose proof (tx_is_keeps _ _ _ Hk1 Hi) as Hi1.
  assert (ends g g1) as E1 by (apply keeps_ends; [apply Hi|done]).
  destruct (default (Err (refresh_timeout_error timeout_secs)) answer) as [r|e].
  - apply wp_persist; [done|done|by destruct Hk1; eapply holds_lock_tx|].
    intros g' x E. apply HQ. by etrans.
  - apply wp_bind, wp_refresh_failure; [done..|]. intros g' [] E _. apply HQ. by etrans.
Qed.

Lemma wp_refresh_locked pid mode rejected interval g Q :
  tx_is true g -> g_dirty g = false -> holds g pid ->
  (forall g' x, ends g g' -> Q g' x) ->
  wp (refresh_locked true encryption timeout_secs pid mode rejected interval) g Q.
Proof using CL JL JO.
  intros Hi Hd Hh HQ. unfold refresh_locked. cbn [negb]. apply wp_try, wp_get_provider; [done|].
  intros g1 found Hc1 Hp. pose proof (tx_is_calm _ _ _ Hc1 Hi) as Hi1.
  assert (ends g g1) as E1 by (apply stays_ends, calm_stays; [apply Hi|done]).
  destruct found as [[p|]|e]; [|by apply HQ..]. destruct (Hp p eq_refl) as (Hr & _ & Hs).
  specialize (Hs Hh). destruct (build_oauth_target_config p) as [c|] eqn:Ec; [|by apply HQ].
  rewrite <- (config_token _ _ Ec) in Hs. apply wp_try, quiet_load. intros g2 state Hk2.
  destruct state as [state|e]; [|apply HQ; etrans; [done|apply keeps_ends; [apply Hi1|done]]].
  assert (forall s, quiet (match mode, s with
      | IfNeeded, Some s => prog_bind (fun ok : bool => Ret (if ok then Some s else None))
                              (shared_token_is_usable s rejected)
      | _, _ => Ret None
      end)) as Hq by (intros s; quiet).
  apply wp_bind, Hq. intros g3 shared Hk3. clear Hq.
  assert (keeps g1 g3) as K3 by (by etrans). pose proof (tx_is_keeps _ _ _ K3 Hi1) as Hi3.
  assert (ends g g3) as E3 by (etrans; [exact E1|apply keeps_ends; [apply Hi1|done]]).
  assert (ends g (with_tx_g None g3)) as E4 by (destruct E3; split; auto).
  destruct shared as [s|].
  - apply wp_try, wp_commit_call; [apply Hi3|]. intros [[]|e]; [|by apply HQ].
    apply wp_bind, quiet_seed_shared. intros g4 u Hk4. apply HQ.
    etrans; [exact E4|]. apply keeps_ends; [apply E4|done].
  - apply wp_bind, quiet_early_exit. intros g4 exit Hk4.
    assert (keeps g1 g4) as K4 by (by etrans). pose proof (tx_is_keeps _ _ _ K4 Hi1) as Hi4.
    assert (ends g g4) as E5 by (etrans; [exact E1|apply keeps_ends; [apply Hi1|done]]).
    destruct exit as [x|].
    + apply wp_try, wp_commit_call; [apply Hi4|].
      assert (ends g (with_tx_g None g4)) as E6 by (destruct E5; split; auto).
      intros [[]|e]; by apply HQ.
    + apply wp_perform; [done|done| | |done|].
      * destruct K4, Hc1. eapply holds_lock_tx; [| |exact Hh]; congruence.
      * by rewrite (k_seen _ _ K4).
      * intros g' y E. apply HQ. by etrans.
Qed.

(** ** The lock *)

(** What an attempt at the advisory lock leaves: the transaction open with
    the lock, or no transaction. *)
Definition attempted (pid : string) (g g' : Ghost) (r : result StoreError bool) : Prop :=
  g_lock g' = g_lock g /\ g_wait g' = None /\ g_dirty g' = false /\ (g_clock g <= g_clock g')%Z
  /\ g_tx g' = match r with Ok true => Some (Some (advisory_lock_key pid)) | _ => None end.

(** Outside every transaction and request. *)
Definition outside (g : Ghost) : Prop := g_tx g = None /\ g_wait g = None /\ g_dirty g = false.

Lemma outside_keeps g g' : keeps g g' -> outside g -> outside g'.
Proof. intros []. unfold outside. by rewrite k_tx0, k_wait0, k_dirty0. Qed.
Lemma outside_calm g g' : calm g g' -> outside g -> outside g'.
Proof. intros []. unfold outside. by rewrite c_tx0, c_wait0, c_dirty0. Qed.

Lemma wp_try_begin pid g Q :
  outside g -> (forall g' r, attempted pid g g' r -> Q g' r) ->
  wp (try_begin_postgres_refresh kind pid) g Q.
Proof using.
  intros (Ht & Hw & Hd) HQ. unfold try_begin_postgres_refresh. generalize kind at 2 as k.
  intros [|]; [by apply HQ|].
  apply wp_try. split; [done|]. intros [[]|e] _; cbn [post]; [|by apply HQ].
  apply wp_bind. split; [done|]. intros [[]|e] _; cbn [post].
  - by apply HQ.
  - apply wp_try. split; [done|]. intros [[]|e] _; by apply HQ.
  - apply wp_bind. split; [done|]. intros [] _. by apply HQ.
Qed.

(** With the lock of the provider on PostgreSQL. *)
Lemma attempted_held pid g g' : kind = Postgres -> attempted pid g g' (Ok true) ->
  tx_is true g' /\ g_dirty g' = false /\ holds g' pid.
Proof using.
  intros Hk (H1' & H2' & H3' & H4' & H5'). unfold tx_is, OAuthGhost.holds. rewrite Hk, H5'.
  split_and!; done.
Qed.

Lemma attempted_ends pid g g' r : attempted pid g g' r -> (r <> Ok true) -> ends g g'.
Proof using. intros (H1' & H2' & H3' & H4' & H5') Hr. split; auto. destruct r as [[]|]; auto. done. Qed.

Lemma attempted_outside pid g g' r : attempted pid g g' r -> (r <> Ok true) -> outside g'.
Proof using. intros (H1' & H2' & H3' & H4' & H5') Hr. split_and!; auto. destruct r as [[]|]; auto. done. Qed.

(** The end of a coordinated section: no transaction, no request. *)
Definition finished (g g' : Ghost) : Prop :=
  g_lock g' = g_lock g /\ g_tx g' = None /\ g_wait g' = None /\ (g_clock g <= g_clock g')%Z.

Lemma ends_finished g g' : ends g g' -> g_tx g = None -> finished g g'.
Proof. intros [] Ht. split_and!; try done. destruct e_tx0; congruence. Qed.

Lemma finished_lock g1 g2 g : finished g1 g2 -> g_lock g1 = g_lock g -> (g_clock g <= g_clock g1)%Z ->
  finished g g2.
Proof. intros (? & ? & ? & ?) ??. split_and!; try done; [congruence|lia]. Qed.

Lemma wp_held_tx {A} (body : prog A) pid g g1 Q :
  kind = Postgres -> attempted pid g g1 (Ok true) ->
  (forall P, (forall g' x, ends g1 g' -> P g' x) -> wp body g1 P) ->
  (forall g' x, finished g g' -> Q g' x) ->
  wp (with_tx body) g1 Q.
Proof using.
  intros Hk Ha Hb HQ. apply wp_with_tx, Hb. intros g2 x E. split; [apply E|].
  apply HQ. destruct Ha as (A1 & A2 & A3 & A4 & A5), E. split_and!; try done; cbn; [congruence|lia].
Qed.

Lemma wp_instant g Q :
  (forall now, (g_clock g <= now)%Z -> Q (with_clock now g) now) -> wp (call InstantNow) g Q.
Proof using. intros HQ. split; [done|]. intros now Hn. by apply HQ. Qed.

Lemma wp_sleep d g Q :
  (0 <= d)%Z -> Q (with_clock (g_clock g + d) g) tt -> wp (call (Sleep d)) g Q.
Proof using. intros Hd HQ. split; [done|]. by intros [] _. Qed.

Lemma wp_poll_refresh n deadline pid mode rejected c interval wait g Q :
  kind = Postgres -> outside g ->
  (deadline <= g_clock g + Z.of_nat n * REFRESH_LOCK_POLL)%Z ->
  (forall g' x, finished g g' -> Q g' x) ->
  wp (poll_refresh true kind encryption timeout_secs (S n) deadline pid mode rejected c interval wait)
    g Q.
Proof using CL JL JO.
  intros Hk. revert g. induction n as [|n IH]; intros g Ho Hd HQ; cbn [poll_refresh];
    (apply wp_try, wp_try_begin; [done|]); intros g1 r Ha.
  all: destruct r as [[]|e];
    [eapply wp_held_tx; [done|exact Ha| |exact HQ]; intros P HP;
     destruct (attempted_held _ _ _ Hk Ha) as (Hi & Hd1 & Hh);
     apply wp_refresh_locked; done
    | |by apply HQ, ends_finished; [by apply (attempted_ends _ _ _ _ Ha)|apply Ho]].
  all: assert (ends g g1) as E1 by (by apply (attempted_ends _ _ _ _ Ha));
    pose proof (attempted_outside _ _ _ _ Ha ltac:(done)) as Ho1;
    destruct wait; cbn [negb]; [|by apply HQ, ends_finished; [|apply Ho]];
    apply wp_try, quiet_reuse; intros g2 reused Hk2;
    pose proof (outside_keeps _ _ Hk2 Ho1) as Ho2;
    (assert (ends g g2) as E2 by (etrans; [done|apply keeps_ends; [apply Ho1|done]]));
    destruct reused as [[]|e]; try (by apply HQ, ends_finished; [|apply Ho]);
    apply wp_bind, wp_instant; intros now Hnow;
    (assert (ends g (with_clock now g2)) as E3 by (destruct E2; split; cbn; auto; lia)).
  - destruct (Z.leb_spec deadline now) as [Hle|Hgt]; [by apply HQ, ends_finished; [|apply Ho]|].
    destruct E2. lia.
  - destruct (Z.leb_spec deadline now) as [Hle|Hgt]; [by apply HQ, ends_finished; [|apply Ho]|].
    apply wp_bind, wp_sleep; [done|]. apply IH; [done| |].
    + destruct E2. cbn. unfold REFRESH_LOCK_POLL in *. lia.
    + intros g' x Hf. apply HQ. destruct E3. eapply finished_lock; [done|done|].
      cbn in *. unfold REFRESH_LOCK_POLL. lia.
Qed.

(** ** The operations *)

Lemma wp_kind {A} (a b : prog A) g Q :
  (kind = Sqlite -> wp a g Q) -> (kind = Postgres -> wp b g Q) ->
  wp (match kind with Sqlite => a | Postgres => b end) g Q.
Proof using. destruct kind; auto. Qed.

(** A section under the process-local lock. *)
Lemma wp_with_lock {A} l (body : prog A) g Q :
  idle g ->
  (forall g1 P, g_lock g1 = Some l -> outside g1 -> (g_clock g <= g_clock g1)%Z ->
     (forall g' x, finished g1 g' -> P g' x) -> wp body g1 P) ->
  (forall g' x, idle g' -> Q g' x) ->
  wp (with_lock l body) g Q.
Proof using.
  intros (Hl & Ht & Hw) Hb HQ. unfold with_lock. apply wp_bind. split; [done|].
  intros [] _. cbn [post]. apply wp_bind, Hb; [done|done|done|].
  intros g' x (F1 & F2 & F3 & F4). apply wp_bind. split; [done|]. intros [] _.
  apply HQ. split_and!; done.
Qed.

Lemma wp_instant_after d g Q :
  (forall g', calm g g' -> g_seen g' = g_seen g -> Q g' (g_clock g' + d)%Z) ->
  wp (instant_after d) g Q.
Proof using.
  intros HQ. unfold instant_after. apply wp_bind, wp_instant. intros now Hn.
  unfold instant_add. destruct (_ <? _)%Z; [|by split; [|intros []]].
  apply (HQ (with_clock now g)); done.
Qed.

Lemma finished_keeps g g' : outside g -> keeps g g' -> finished g g'.
Proof. intros (Ht & Hw & Hd) []. split_and!; congruence || lia. Qed.
Lemma finished_calm g g' : outside g -> calm g g' -> finished g g'.
Proof. intros (Ht & Hw & Hd) []. split_and!; congruence || lia. Qed.
Lemma calm_finished g g1 g' : calm g g1 -> finished g1 g' -> finished g g'.
Proof. intros [] (? & ? & ? & ?). split_and!; congruence || lia. Qed.

Lemma holds_local g pid : kind = Sqlite -> g_lock g = Some (inl pid) -> holds g pid.
Proof using. unfold OAuthGhost.holds. by intros ->. Qed.

Definition safe {A} (m : prog A) : Prop :=
  forall g Q, idle g -> (forall g' x, idle g' -> Q g' x) -> wp m g Q.

Lemma safe_coordinated pid mode rejected wait :
  safe (refresh_coordinated true kind encryption timeout_secs pid mode rejected wait).
Proof using CL JL JO.
  intros g Q Hidle HQ. unfold refresh_coordinated. cbn [negb].
  apply wp_with_lock; [done| |done]. clear Q HQ. intros g0 Q Hl Ho _ HQ.
  clear g Hidle. rename g0 into g.
  apply wp_try, wp_load_provider. intros g1 r Hc Hp.
  pose proof (outside_calm _ _ Hc Ho) as Ho1.
  destruct r as [[p c]|e]; [|by apply HQ, finished_calm].
  destruct (Hp p c eq_refl) as (Hr & Hid & Hs). apply wp_try, quiet_reuse_if_needed.
  intros g2 reused Hk2. assert (calm g g2) as Hc2 by (etrans; [done|by apply keeps_calm]).
  destruct reused as [[]|e]; [by apply HQ, finished_calm| |by apply HQ, finished_calm].
  apply wp_bind, quiet_interval. intros g3 interval Hk3.
  assert (keeps g1 g3) as Hk13 by (by etrans).
  assert (calm g g3) as Hc3 by (etrans; [done|by apply keeps_calm]).
  pose proof (outside_calm _ _ Hc3 Ho) as Ho3. apply wp_kind; intros Hkind.
  - apply wp_try, quiet_load. intros g4 state Hk4.
    assert (keeps g1 g4) as Hk14 by (by etrans).
    assert (calm g g4) as Hc4 by (etrans; [done|by apply keeps_calm]).
    destruct state as [state|e]; [|by apply HQ, finished_calm].
    apply wp_bind, quiet_early_exit. intros g5 exit Hk5.
    assert (keeps g1 g5) as Hk15 by (by etrans).
    assert (calm g g5) as Hc5 by (etrans; [done|by apply keeps_calm]).
    pose proof (outside_calm _ _ Hc5 Ho) as (Ht5 & Hw5 & Hd5).
    destruct exit as [x|]; [by apply HQ, finished_calm|].
    apply wp_perform; [by split|done| | |done|].
    + apply holds_local; [done|]. by rewrite (c_lock _ _ Hc5).
    + rewrite (k_seen _ _ Hk15). apply Hs. by apply holds_local.
    + intros g' y E. apply HQ. eapply calm_finished; [done|]. by apply ends_finished.
  - apply wp_bind, wp_instant_after. intros g4 Hc4 _.
    assert (calm g g4) as Hc5 by (by etrans). apply (wp_poll_refresh 200); [done| |done|].
    + by eapply outside_calm.
    + intros g' x Hf. apply HQ. by eapply calm_finished.
Qed.

Lemma idle_keeps g g' : idle g -> keeps g g' -> idle g'.
Proof. intros (Hl & Ht & Hw) []. split_and!; congruence. Qed.
Lemma idle_calm g g' : idle g -> calm g g' -> idle g'.
Proof. intros (Hl & Ht & Hw) []. split_and!; congruence. Qed.

Lemma safe_quiet {A} (m : prog A) : quiet m -> safe m.
Proof. intros Hm g Q Hi HQ. apply Hm. intros g' x Hk. apply HQ. by eapply idle_keeps. Qed.

Lemma safe_ret {A} (a : A) : safe (Ret a).
Proof. apply safe_quiet, quiet_ret. Qed.

Lemma safe_bind {A B} (f : A -> prog B) m :
  safe m -> (forall a, safe (f a)) -> safe (prog_bind f m).
Proof.
  intros Hm Hf g Q Hi HQ. apply wp_bind, Hm; [done|]. intros g' a Hi'. by apply Hf.
Qed.

Lemma safe_try {E F A B} (f : E -> F) (m : prog (result E A)) (k : A -> prog (result F B)) :
  safe m -> (forall a, safe (k a)) -> safe (try_bind f m k).
Proof. intros Hm Hk. apply safe_bind; [done|]. intros [a|e]; [done|apply safe_ret]. Qed.

Lemma safe_config pid : safe (load_oauth_config true encryption pid).
Proof using. intros g Q Hi HQ. apply wp_load_config. intros g' r Hc. apply HQ. by eapply idle_calm. Qed.

Create HintDb safe.
#[local] Hint Resolve safe_ret safe_config safe_coordinated : safe.

(** Follows a program made of safe and quiet ones. *)
Ltac safe :=
  repeat first
    [ solve [eauto with safe]
    | solve [apply safe_quiet; eauto with quiet]
    | match goal with |- safe (call ?a) => exact (safe_quiet _ (quiet_call a I)) end
    | apply safe_bind; [|intro]
    | apply safe_try; [|intro]
    | match goal with
      | |- safe (match ?x with _ => _ end) => destruct x
      end
    | progress cbv beta iota zeta; cbn [negb] ].

Lemma safe_ensure pid mode rejected :
  safe (ensure_provider_token true kind encryption timeout_secs pid mode rejected).
Proof using CL JL JO. unfold ensure_provider_token. safe. Qed.
#[local] Hint Resolve safe_ensure : safe.

Lemma safe_apply t hs : safe (apply true kind encryption timeout_secs t hs).
Proof using CL JL JO. unfold apply. safe. Qed.

Lemma safe_unauthorized t rejected :
  safe (refresh_after_unauthorized true kind encryption timeout_secs t rejected).
Proof using CL JL JO. unfold refresh_after_unauthorized, get_access_token. safe. Qed.

Lemma safe_force pid : safe (force_refresh true kind encryption timeout_secs pid).
Proof using CL JL JO. unfold force_refresh. safe. Qed.

Lemma safe_by_id pid hs : safe (apply_provider_by_id true kind encryption timeout_secs pid hs).
Proof using CL JL JO. unfold apply_provider_by_id. safe. Qed.

Lemma safe_status pid status reason : safe (set_provider_oauth_status encryption pid status reason).
Proof using CL JL JO.
  intros g Q Hi HQ. apply wp_set_status; [apply Hi|]. intros g' r Hc. apply HQ. by eapply idle_calm.
Qed.

(** ** Operations that write under the lock *)

Lemma wp_poll_lock n deadline pid what g Q :
  outside g -> (deadline <= g_clock g + Z.of_nat n * REFRESH_LOCK_POLL)%Z ->
  (forall g', attempted pid g g' (Ok true) -> Q g' (Ok tt)) ->
  (forall g' e, finished g g' -> Q g' (Err e)) ->
  wp (poll_lock kind (S n) deadline pid what) g Q.
Proof using.
  revert g. induction n as [|n IH]; intros g Ho Hd HQ HE; cbn [poll_lock];
    (apply wp_try, wp_try_begin; [done|]); intros g1 r Ha.
  all: destruct r as [[]|e];
    [by apply HQ| |by apply HE, ends_finished; [by apply (attempted_ends _ _ _ _ Ha)|apply Ho]].
  all: assert (ends g g1) as E1 by (by apply (attempted_ends _ _ _ _ Ha));
    pose proof (attempted_outside _ _ _ _ Ha ltac:(done)) as Ho1;
    apply wp_bind, wp_instant; intros now Hnow;
    (assert (ends g (with_clock now g1)) as E3 by (destruct E1; split; cbn; auto; lia)).
  - destruct (Z.leb_spec deadline now) as [Hle|Hgt]; [by apply HE, ends_finished; [|apply Ho]|].
    destruct E1. lia.
  - destruct (Z.leb_spec deadline now) as [Hle|Hgt]; [by apply HE, ends_finished; [|apply Ho]|].
    apply wp_bind, wp_sleep; [done|]. apply IH; [done| | |].
    + destruct E1. cbn. unfold REFRESH_LOCK_POLL in *. lia.
    + intros g' (A1 & A2 & A3 & A4 & A5). apply HQ. destruct E3. cbn in *.
      split_and!; try done; [congruence|unfold REFRESH_LOCK_POLL in *; lia].
    + intros g' e Hf. apply HE. destruct E3. eapply finished_lock; [done|done|].
      cbn in *. unfold REFRESH_LOCK_POLL. lia.
Qed.

Lemma attempted_calm pid g g1 g' r : calm g g1 -> attempted pid g1 g' r -> attempted pid g g' r.
Proof. intros [] (A1 & A2 & A3 & A4 & A5). split_and!; try done; [congruence|lia]. Qed.

Lemma wp_wait_for_advisory pid what g Q :
  outside g ->
  (forall g', attempted pid g g' (Ok true) -> Q g' (Ok tt)) ->
  (forall g' e, finished g g' -> Q g' (Err e)) ->
  wp (wait_for_advisory kind pid what) g Q.
Proof using.
  intros Ho HQ HE. unfold wait_for_advisory. apply wp_bind, wp_instant_after. intros g1 Hc _.
  apply (wp_poll_lock 200); [by eapply outside_calm|done| |].
  - intros g' Ha. apply HQ. by eapply attempted_calm.
  - intros g' e Hf. apply HE. by eapply calm_finished.
Qed.

Lemma safe_install pid r : safe (install_tokens true kind encryption pid r).
Proof using CL JL JO.
  intros g Q Hidle HQ. unfold install_tokens. cbn [negb].
  apply wp_with_lock; [done| |done]. clear Q HQ. intros g0 Q Hl Ho _ HQ.
  clear g Hidle. rename g0 into g. apply wp_try, wp_load_provider. intros g1 x Hc Hp.
  destruct x as [[p c]|e]; [|by apply HQ, finished_calm].
  apply wp_bind, quiet_interval. intros g2 interval Hk2.
  assert (calm g g2) as Hc2 by (etrans; [done|by apply keeps_calm]).
  pose proof (outside_calm _ _ Hc2 Ho) as (Ht2 & Hw2 & Hd2). apply wp_kind; intros Hkind.
  - apply wp_try, wp_persist; [by split|done|apply holds_local; [done|by rewrite (c_lock _ _ Hc2)]|].
    intros g3 y E. assert (finished g g3) as F
      by (eapply calm_finished; [done|]; by apply ends_finished).
    destruct y as [y|e]; by apply HQ.
  - apply wp_try, wp_wait_for_advisory; [done| |].
    + intros g3 Ha. apply wp_try.
      destruct (attempted_held _ _ _ Hkind Ha) as (Hi & _ & Hh).
      eapply wp_held_tx; [done|exact Ha| |].
      * intros P HP. by apply wp_persist.
      * intros g4 y F. assert (finished g g4) by (by eapply calm_finished).
        destruct y as [y|e]; by apply HQ.
    + intros g3 e F. apply HQ. by eapply calm_finished.
Qed.

(** A mutation that only touches its provider, under its lock. *)
Definition guarded (pid : string) (m : prog (result string unit)) : Prop :=
  forall g Q, holds g pid -> g_wait g = None ->
    (forall g' r, stays g g' -> Q g' r) -> wp m g Q.

Lemma safe_mutate pid m :
  guarded pid m -> safe (mutate_credentials_locked true kind encryption pid m).
Proof using.
  intros Hm g Q Hidle HQ. unfold mutate_credentials_locked. cbn [negb].
  apply wp_with_lock; [done| |done]. clear Q HQ. intros g0 Q Hl Ho _ HQ.
  clear g Hidle. rename g0 into g. apply wp_try.
  assert (forall outcome g1, finished g g1 ->
    wp (prog_bind (fun _ => _ <-! call RefreshSnapshot; Ret outcome) (invalidate_provider pid))%task
      g1 Q) as Hend.
  { intros outcome g1 F. apply wp_bind, quiet_invalidate_provider. intros g2 u Hk.
    apply wp_try, (quiet_call RefreshSnapshot I). intros g3 v Hk2.
    assert (finished g g3) as F3. { assert (keeps g1 g3) as [] by (by etrans).
      destruct F as (F1 & F2 & F3 & F4). split_and!; congruence || lia. }
    destruct v; by apply HQ. }
  destruct Ho as (Ht & Hw & Hd). apply wp_kind; intros Hkind.
  - apply wp_bind, Hm; [by apply holds_local|done|]. intros g1 mutated S1.
    apply wp_try, wp_reset; [apply S1|by rewrite (st_tx _ _ S1)|]. intros g2 r Hd2.
    assert (finished g g2) as F.
    { apply ends_finished; [|done]. etrans; [by apply stays_ends|by apply dropped_ends]. }
    destruct r as [[]|e]; [|by apply HQ]. by apply Hend.
  - apply wp_try, wp_wait_for_advisory; [done| |intros g1 e F; by apply HQ].
    intros g1 Ha. destruct (attempted_held _ _ _ Hkind Ha) as (Hi & _ & Hh).
    eapply wp_held_tx; [done|exact Ha| |].
    + intros P HP. destruct Hi as [Hw1 Ht1]. apply wp_try, wp_reset_in_tx; [done..|].
      intros g2 r S2. destruct r as [[]|e]; [|by apply HP, stays_ends].
      apply wp_bind, Hm; [by eapply holds_stays|apply S2|]. intros g3 mutated S3.
      assert (stays g1 g3) as S13 by (by etrans).
      apply wp_try, wp_commit_call; [apply S13|]. intros [[]|e]; apply HP; destruct S13; by split; auto.
    + intros g2 r F. destruct r as [mutated|e]; [|by apply HQ]. by apply Hend.
Qed.

Lemma wp_preflight pid p intx g Q :
  tx_is intx g -> (forall g' x, ends g g' -> Q g' x) ->
  wp (preflight_backoff encryption pid p intx) g Q.
Proof using.
  intros Hi HQ. unfold preflight_backoff.
  assert (forall g1 Q', tx_is intx g1 -> (forall g' x, ends g1 g' -> Q' g' x) ->
    wp (if intx then _ <-! call Commit; Ret (Ok tt) else Ret (Ok tt))%task g1 Q') as Hend.
  { intros g1 Q' [Hw1 Ht1] HQ'. destruct intx; [|apply HQ'; by split; auto].
    apply wp_try, wp_commit_call; [done|]. intros [[]|e]; apply HQ'; by split; auto. }
  destruct (provider_has_usable_oauth_credentials p); [by apply Hend|].
  apply wp_try, quiet_load. intros g1 state Hk1. pose proof (tx_is_keeps _ _ _ Hk1 Hi) as Hi1.
  destruct state as [state|e]; [|apply HQ, keeps_ends; [apply Hi|done]].
  apply wp_bind, quiet_backoff_active. intros g2 active Hk2.
  pose proof (tx_is_keeps _ _ _ Hk2 Hi1) as Hi2. assert (keeps g g2) as K2 by (by etrans).
  destruct active.
  { apply Hend; [done|]. intros g' x E. apply HQ. etrans; [|exact E]. apply keeps_ends; [apply Hi|done]. }
  apply wp_bind, quiet_next_retry. intros g3 at_ Hk3.
  pose proof (tx_is_keeps _ _ _ Hk3 Hi2) as Hi3. assert (keeps g g3) as K3 by (by etrans).
  assert (ends g g3) as E3 by (apply keeps_ends; [apply Hi|done]).
  destruct intx.
  - destruct Hi3 as [Hw3 Ht3]. apply wp_try, wp_failure_in_tx; [done..|]. intros g4 r S4.
    assert (ends g g4) as E4 by (etrans; [done|by apply stays_ends]). destruct r as [[]|e]; [|by apply HQ].
    apply Hend; [split; [apply S4|by rewrite (st_tx _ _ S4)]|]. intros g' x E. apply HQ. by etrans.
  - destruct Hi3 as [Hw3 [Ht3 _]]. apply wp_try, wp_record_failure; [done..|]. intros g4 r D4.
    apply dropped_ends in D4. destruct r; apply HQ; by etrans.
Qed.

Lemma safe_preflight pid : safe (ensure_keepalive_preflight_backoff true kind encryption pid).
Proof using.
  intros g Q Hidle HQ. unfold ensure_keepalive_preflight_backoff. cbn [negb].
  apply wp_with_lock; [done| |done]. clear Q HQ. intros g0 Q Hl Ho _ HQ.
  clear g Hidle. rename g0 into g. apply wp_kind; intros Hkind.
  - apply wp_try, wp_get_provider; [done|]. intros g1 r Hc _.
    pose proof (outside_calm _ _ Hc Ho) as (Ht1 & Hw1 & Hd1).
    destruct r as [[p|]|e]; [|by apply HQ, finished_calm..].
    apply wp_preflight; [by split|]. intros g' x E. apply HQ.
    eapply calm_finished; [done|]. by apply ends_finished.
  - apply wp_try, wp_try_begin; [done|]. intros g1 r Ha.
    destruct r as [[]|e]; cbn [negb]; [| |]; try (apply HQ, ends_finished; [|apply Ho];
      by apply (attempted_ends _ _ _ _ Ha)).
    destruct (attempted_held _ _ _ Hkind Ha) as (Hi & Hd1 & Hh).
    eapply wp_held_tx; [done|exact Ha| |exact HQ]. intros P HP.
    apply wp_try, wp_get_provider; [done|]. intros g2 x Hc _.
    assert (stays g1 g2) as S2 by (apply calm_stays; [apply Hi|done]).
    destruct x as [[p|]|e].
    + apply wp_preflight; [by eapply tx_is_calm|]. intros g' y E. apply HP.
      etrans; [by apply stays_ends|done].
    + apply wp_try, wp_commit_call; [apply S2|]. intros [[]|e]; apply HP; destruct S2; by split; auto.
    + by apply HP, stays_ends.
Qed.
#[local] Hint Resolve safe_preflight : safe.

Lemma safe_keepalive pid : safe (try_keepalive_provider true kind encryption timeout_secs pid).
Proof using CL JL JO.
  unfold try_keepalive_provider. cbn [negb]. apply safe_bind; [apply safe_coordinated|].
  intros [[c o]|e]; safe.
Qed.

(** The upsert of a provider is such a mutation. *)
Definition upsert_mutation (pid : string) (u : ProviderUpsert) : prog (result string unit) :=
  (_ <-! upsert_provider_with_usage_management_key encryption pid u; Ret (Ok tt))%task.

Lemma quiet_upsert_column enc plain old : quiet (upsert_column encryption enc plain old).
Proof. unfold upsert_column. quiet. Qed.
Lemma quiet_usage_column plain old : quiet (usage_column encryption plain old).
Proof. unfold usage_column. quiet. Qed.

Lemma guarded_upsert pid u : guarded pid (upsert_mutation pid u).
Proof using.
  intros g Q Hh Hw HQ. unfold upsert_mutation. apply wp_try.
  unfold upsert_provider_with_usage_management_key.
  destruct (validate_provider_auth_mode _ _); [|by apply HQ; split].
  apply wp_bind, (quiet_call UtcNow I). intros g1 t Hk1. apply wp_try, wp_get_provider; [done|].
  intros g2 existing Hc2 _.
  assert (stays g g2) as S2 by (apply calm_stays; [done|]; etrans; [by apply keeps_calm|done]).
  destruct existing as [existing|e]; [|by apply HQ].
  apply wp_try, quiet_upsert_column. intros g3 [c1|e] Hk3;
    (assert (stays g g3) as S3 by (etrans; [done|apply keeps_stays; [apply S2|done]])); [|by apply HQ].
  apply wp_try, quiet_upsert_column. intros g4 [c2|e] Hk4;
    (assert (stays g g4) as S4 by (etrans; [done|apply keeps_stays; [apply S3|done]])); [|by apply HQ].
  apply wp_try, quiet_usage_column. intros g5 [c3|e] Hk5;
    (assert (stays g g5) as S5 by (etrans; [done|apply keeps_stays; [apply S4|done]])); [|by apply HQ].
  apply wp_try, wp_execute; [apply S5|done| |done|].
  { intros pid' [= <-]. by eapply holds_stays. }
  intros g6 [n|e] S6; (assert (stays g g6) as S6' by (by etrans)); [|by apply HQ].
  apply wp_try, (quiet_call RefreshSnapshot I). intros g7 [[]|e] Hk7;
    (assert (stays g g7) as S7 by (etrans; [done|apply keeps_stays; [apply S6'|done]])); [|by apply HQ].
  apply wp_try, wp_get_provider; [done|]. intros g8 found Hc8 _.
  assert (stays g g8) as S8 by (etrans; [done|apply calm_stays; [apply S7|done]]).
  destruct found as [[p|]|e]; by apply HQ.
Qed.

(** ** The tasks of a gateway *)

(** The calls that the data plane, the control plane and the keepalive
    worker make. *)
Inductive ManagerCall :=
| CallApply (t : RoutingTarget) (hs : HeaderMap)
| CallUnauthorized (t : RoutingTarget) (rejected : string)
| CallForce (pid : string)
| CallById (pid : string) (hs : HeaderMap)
| CallKeepalive (pid : string)
| CallDue (limit : Z)
| CallInstall (pid : string) (r : TokenResult)
| CallUpsert (pid : string) (u : ProviderUpsert)
| CallStatus (pid : string) (status : OAuthCredentialStatus) (reason : option string).

Definition run_call (c : ManagerCall) : prog unit :=
  match c with
  | CallApply t hs => task_of (apply true kind encryption timeout_secs t hs)
  | CallUnauthorized t rejected =>
      task_of (refresh_after_unauthorized true kind encryption timeout_secs t rejected)
  | CallForce pid => task_of (force_refresh true kind encryption timeout_secs pid)
  | CallById pid hs => task_of (apply_provider_by_id true kind encryption timeout_secs pid hs)
  | CallKeepalive pid => task_of (try_keepalive_provider true kind encryption timeout_secs pid)
  | CallDue limit => task_of (due_keepalive_provider_ids true limit)
  | CallInstall pid r => task_of (install_tokens true kind encryption pid r)
  | CallUpsert pid u =>
      task_of (mutate_credentials_locked true kind encryption pid (upsert_mutation pid u))
  | CallStatus pid status reason => task_of (set_provider_oauth_status encryption pid status reason)
  end.

(** A task makes calls one after the other. *)
Definition run_calls (cs : list ManagerCall) : prog unit :=
  foldr (fun c m => prog_bind (fun _ => m) (run_call c)) (Ret tt) cs.

Lemma safe_task {A} (m : prog A) : safe m -> safe (task_of m).
Proof. intros Hm. apply safe_bind; [done|]. intros a. apply safe_ret. Qed.

Lemma safe_call c : safe (run_call c).
Proof using CL JL JO.
  destruct c; apply safe_task; auto using safe_apply, safe_unauthorized, safe_force, safe_by_id,
    safe_keepalive, safe_install, safe_status.
  - apply safe_quiet, quiet_due.
  - apply safe_mutate, guarded_upsert.
Qed.

Lemma safe_calls cs : safe (run_calls cs).
Proof using CL JL JO.
  induction cs as [|c cs IH]; [apply safe_ret|]. apply safe_bind; [apply safe_call|]. by intros [].
Qed.

(** The world in which the processes start, each task with its calls. *)
Definition gateway (d : Db) (now : Z) (ts : list (nat * list ManagerCall)) : World :=
  initial d now (map (fun pc => (fst pc, run_calls (snd pc))) ts).

Lemma gateway_inv d now ts :
  (kind = Sqlite -> forall p q, p ∈ ts.*1 -> q ∈ ts.*1 -> p = q) ->
  exists gs, inv kind encryption (gateway d now ts) gs.
Proof using CL JL JO.
  intros Hone. eexists. apply inv_initial.
  - intros Hk p q. rewrite <- !list_fmap_compose. by apply Hone.
  - apply Forall_forall. intros [p m] ([p' cs] & [= -> ->] & _)%list_elem_of_fmap.
    apply safe_calls; [by split_and!|done].
Qed.
End Safety.
