(* ===== verification/OAuthRefresh.v ===== *)
(** * OAuthRefresh: what the coordination of refreshes guarantees

    The theorems on every execution of a gateway whose tasks call the token
    manager, and the executions in which a rotated refresh token is lost
    because the code leaves the coordination. *)

From stdpp Require Import base option list gmap strings.
From Stdlib Require Import ZArith Lia Ascii.
From S2P Require Import Prelude RustStr Http F64 Utf8 Json JsonBody Classify Targets Health Encryption ProviderConfig.
From S2P Require Import OAuthTokens OAuthEffects OAuthStore OAuthCache OAuthManager OAuthGhost OAuthSafety.

Local Open Scope string_scope.
Local Open Scope list_scope.

(** ** Executions end *)

(** The rest of a task after one of its actions, or after it is dropped. *)
Definition later (m' m : prog unit) : Prop :=
  match m with
  | Ret _ => False
  | Vis a k => m' = Ret tt \/ exists r, m' = k r
  end.

Lemma later_wf m : Acc later m.
Proof.
  induction m as [a|a k IH]; constructor; intros m'; cbn; [done|].
  intros [->|[r ->]]; [by constructor|apply IH].
Qed.

(** One of the tasks gets ahead. *)
Definition ahead (l' l : list Task) : Prop :=
  exists t thr thr', l !! t = Some thr /\ l' = <[t := thr']> l /\ later (todo thr') (todo thr).

Lemma ahead_wf l : Acc ahead l.
Proof.
  induction l as [|x l IHl]; [constructor; by intros l' (t & ? & ? & ? & _)|].
  remember (todo x) as m eqn:Hm. revert x l IHl Hm.
  induction (later_wf m) as [m _ IHm]. intros x l Hl. induction Hl as [l Hl IHl]. intros ->.
  constructor. intros l' (t & thr & thr' & Ht & -> & Hlater). destruct t as [|t]; cbn in *.
  - injection Ht as ->. eapply IHm; [done|by constructor|done].
  - apply IHl; [|done]. by exists t, thr, thr'.
Qed.

Lemma exec_tasks w t p open a c w' open' r :
  exec w t p open a c = Some (w', open', r) -> tasks w' = tasks w.
Proof.
  destruct a; cbn; intros; repeat case_match; simplify_eq; done.
Qed.

Lemma step_ahead w w' : step w w' -> ahead (tasks w') (tasks w).
Proof.
  destruct 1 as [w t c w' E|w t w' E].
  - unfold step_task in E. destruct (tasks w !! t) as [thr|] eqn:Ht; [|done]. cbn in E.
    destruct (todo thr) as [|a k] eqn:Em; [done|].
    destruct (exec w t _ _ a c) as [[[w1 o] r]|]; [|done]. cbn in E. injection E as <-.
    eexists t, thr, _. split; [done|]. split; [reflexivity|]. cbn. rewrite Em. right. by exists r.
  - unfold cancel_task in E. destruct (tasks w !! t) as [thr|] eqn:Ht; [|done]. cbn in E.
    destruct (todo thr) as [|a k] eqn:Em; [done|]. injection E as <-.
    eexists t, thr, _. split; [done|]. split; [reflexivity|]. cbn. rewrite Em. by left.
Qed.

Lemma executions_end w : Acc (fun w' w => step w w') w.
Proof.
  remember (tasks w) as l eqn:Hl. revert w Hl. induction (ahead_wf l) as [l _ IH].
  intros w ->. constructor. intros w' Hs. eapply IH; [by apply step_ahead|done].
Qed.

(** ** Progress *)

Definition can_run (w : World) (t : nat) : Prop := exists c w', step_task w t c = Some w'.

Definition panicking (thr : Task) : Prop := exists p k, todo thr = Vis (Panics p) k.

Section Theorems.
Context `{C : Crypto} {CL : CryptoLaws C} `{J : SerdeJson} {JL : SerdeJsonLaws J}
  {JO : SerdeObjectLaws J} `{Chrono} `{OAuthCrates} `{HttpHeaders}.
Context (kind : DbKind) (encryption : option KeyEncryption) (timeout_secs : Z).

(** An action runs unless it waits for a mutex or unwinds. *)
Lemma exec_progress w t thr g a :
  owned kind encryption w t thr g -> pre kind encryption g a ->
  (exists c x, exec w t (process thr) (tx thr) a c = Some x)
  \/ (exists l t', a = Lock l /\ locks w !! (process thr, l) = Some t')
  \/ (exists p, a = Panics p).
Proof using.
  intros O Hp.
  assert (is_Some (g_tx g) -> exists ws, tx thr = Some ws) as Htx.
  { intros Hs. by apply (own_tx _ _ _ _ _ _ O) in Hs. }
  destruct a; cbn [exec pre] in *;
    try (left; exists Done; eexists; reflexivity); try done.
  - destruct (locks w !! (process thr, l)) as [t'|] eqn:E; [right; left; by exists l, t'|].
    left. exists Done. eexists; reflexivity.
  - left. exists Done. destruct (inflight _ !! key); eexists; reflexivity.
  - left. exists Done. destruct Hp as [Ht _]. destruct Htx as [ws ->]; [by rewrite Ht|].
    destruct (advisory w !! key); eexists; reflexivity.
  - left. exists Done. destruct intx.
    + destruct Hp as (_ & Ht & _). destruct Htx as [ws ->].
      { destruct (g_tx g); [by eexists|]. by destruct (Ht eq_refl). }
      case_match; [case_match|]; eexists; reflexivity.
    + case_match; [case_match|]; eexists; reflexivity.
  - left. exists (Time 0). eexists; reflexivity.
  - left. exists (Time (clock w)). rewrite Z.leb_refl. eexists; reflexivity.
  - left. exists (Time (clock w + d)). rewrite Z.leb_refl. eexists; reflexivity.
  - left. exists (Bytes "000000000000"). eexists; reflexivity.
  - left. exists (Answer (Some (Failed ""))). eexists; reflexivity.
  - right. right. eauto.
Qed.

(** A task is done, runs, unwinds, or waits for a mutex whose holder runs or
    unwinds. *)
Lemma task_progress w gs t thr :
  inv kind encryption w gs -> tasks w !! t = Some thr ->
  todo thr = Ret tt \/ can_run w t \/ panicking thr
  \/ exists t' thr', tasks w !! t' = Some thr' /\ (can_run w t' \/ panicking thr').
Proof using.
  intros I Ht.
  assert (forall t thr, tasks w !! t = Some thr ->
    todo thr = Ret tt \/ can_run w t \/ panicking thr
    \/ exists l t', locks w !! (process thr, l) = Some t' /\ exists k, todo thr = Vis (Lock l) k) as Hone.
  { clear t thr Ht. intros t thr Ht. destruct (inv_owned _ _ _ _ I _ _ Ht) as (g & Hg & Ho & Hwp).
    destruct (todo thr) as [[]|a k] eqn:Em; [by left|right].
    destruct Hwp as [Hp _]. destruct (exec_progress _ _ _ _ _ Ho Hp) as [(c & x & E)|[(l & t' & -> & E)|[p ->]]].
    - left. exists c. unfold step_task. rewrite Ht. cbn. rewrite Em, E. destruct x as [[w1 o] r]. eauto.
    - right. right. exists l, t'. eauto.
    - right. left. by exists p, k. }
  destruct (Hone _ _ Ht) as [?|[?|[?|(l & t' & El & k & Em)]]]; auto.
  right. right. right. destruct (inv_locks _ _ _ _ I _ _ El) as [thr' Ht'].
  destruct (inv_owned _ _ _ _ I _ _ Ht') as (g' & Hg' & Ho' & Hwp').
  apply (own_lock _ _ _ _ _ _ Ho') in El as [_ El].
  exists t', thr'. split; [done|].
  destruct (Hone _ _ Ht') as [E'|[?|[?|(l' & t2 & _ & k' & E')]]]; auto.
  - rewrite E' in Hwp'. destruct Hwp' as [Hl _]. congruence.
  - rewrite E' in Hwp'. destruct Hwp' as [[Hl _] _]. congruence.
Qed.

Context (d : Db) (now : Z) (ts : list (nat * list ManagerCall)).
(** SQLite is the backend of a single process. *)
Context (one_process : kind = Sqlite -> forall p q, p ∈ ts.*1 -> q ∈ ts.*1 -> p = q).

(** C21: Whatever the interleaving of the tasks of all processes, their
    failures and their cancellations, two refresh requests for the same
    provider are never in flight at the same time. *)
Theorem refresh_single_flight w :
  reach (gateway kind encryption timeout_secs d now ts) w -> NoDup (outstanding w).*2.
Proof using CL JL JO one_process.
  intros Hr. destruct (gateway_inv kind encryption timeout_secs d now ts one_process) as [gs0 I0].
  destruct (inv_reach _ _ _ _ _ I0 Hr) as [gs I].
  assert (forall t p, (t, p) ∈ outstanding w -> exists thr g, tasks w !! t = Some thr
            /\ owned kind encryption w t thr g /\ holds kind g p) as Hown.
  { intros t p Hin. destruct (inv_outstanding _ _ _ _ I _ _ Hin) as [thr Ht].
    destruct (inv_owned _ _ _ _ I _ _ Ht) as (g & _ & Ho & _). exists thr, g. split_and!; [done..|].
    apply (own_wait_holds _ _ _ _ _ _ Ho). by apply (own_wait _ _ _ _ _ _ Ho). }
  pose proof (inv_once _ _ _ _ I) as Hnd. induction (outstanding w) as [|[t p] l IH]; [constructor|].
  cbn in *. apply NoDup_cons in Hnd as [Hn Hl]. apply NoDup_cons. split.
  - intros ([t' p'] & Ep & Hin)%list_elem_of_fmap. cbn in Ep. subst p'.
    destruct (Hown t p) as (thr & g & Ht & Ho & Hh); [by left|].
    destruct (Hown t' p) as (thr' & g' & Ht' & Ho' & Hh'); [by right|].
    assert (t = t') as <-.
    { eapply holds_unique; [|exact Ho|exact Ho'|done|done].
      intros Hk. by eapply (inv_process _ _ _ _ I Hk). }
    apply Hn, list_elem_of_fmap. by exists (t, p).
  - apply IH; [|done]. intros t' p' Hin. apply Hown. by right.
Qed.


(** C23: Every execution ends, and where no task can run and none unwinds
    from a panic, all the calls have returned: the waits for the locks are
    bounded and the tasks never wait for each other. *)
Theorem refreshes_complete :
  Acc (fun w' w => step w w') (gateway kind encryption timeout_secs d now ts) /\
  forall w, reach (gateway kind encryption timeout_secs d now ts) w ->
    (forall t c, step_task w t c = None) ->
    (forall t thr, tasks w !! t = Some thr -> ~ panicking thr) ->
    forall t thr, tasks w !! t = Some thr -> todo thr = Ret tt.
Proof using CL JL JO one_process.
  split; [apply executions_end|]. intros w Hr Hstep Hpanic t thr Ht.
  destruct (gateway_inv kind encryption timeout_secs d now ts one_process) as [gs0 I0].
  destruct (inv_reach _ _ _ _ _ I0 Hr) as [gs I].
  assert (forall t, ~ can_run w t) as Hno by (intros t' (c & w' & E); by rewrite Hstep in E).
  destruct (task_progress _ _ _ _ I Ht) as [?|[Hc|[Hp|(t' & thr' & Ht' & [Hc|Hp])]]]; [done|..].
  - by destruct (Hno t).
  - by destruct (Hpanic t thr).
  - by destruct (Hno t').
  - by destruct (Hpanic t' thr').
Qed.
End Theorems.

(** ** What a refresh leaves stored *)

Section Stored.
Context `{C : Crypto} {CL : CryptoLaws C} `{J : SerdeJson} {JL : SerdeJsonLaws J}
  {JO : SerdeObjectLaws J} `{Chrono} `{OAuthCrates}.
Context (encryption : option KeyEncryption).

Lemma assoc_opt_insert k k' o m :
  assoc k (opt_insert k' o m) = or_else (if String.eqb k k' then Str <$> o else None) (assoc k m).
Proof. apply assoc_insert_member. Qed.

(** The string members of the updated metadata that a target reads. *)
Lemma updated_refresh_token c r now m :
  assoc "refresh_token" (updated_members c r now m)
  = Some (Str (default (refresh_token c) (new_refresh_token r))).
Proof.
  unfold updated_members. rewrite assoc_other_member by done.
  rewrite !assoc_insert, !assoc_opt_insert, assoc_insert. reflexivity.
Qed.

Lemma updated_account_id c r now m :
  assoc "account_id" (updated_members c r now m)
  = or_else (Str <$> or_else (OAuthTokens.account_id r) (Targets.account_id c)) (assoc "account_id" m).
Proof.
  unfold updated_members. rewrite assoc_other_member by done.
  rewrite !assoc_insert, !assoc_opt_insert, assoc_insert. reflexivity.
Qed.

(** A provider whose metadata column is replaced. *)
Lemma reread_provider pid row p blob stamp t :
  read_provider encryption pid (Some row) = Ok (Some p) -> parse_from_rfc3339 stamp = inr t ->
  exists p', read_provider encryption pid (Some (with_meta blob stamp row)) = Ok (Some p')
    /\ vendor p' = vendor p /\ auth_mode p' = auth_mode p /\ metadata_json p' = metadata_json p
    /\ (auth_mode p = OAuthAuth ->
          oauth_meta_cleartext p' = column_cleartext decrypt_oauth_meta encryption blob).
Proof.
  unfold read_provider, row_to_provider. cbn [with_meta row_auth_mode row_metadata row_created_at
    row_updated_at row_name row_vendor row_api_base row_models_endpoint row_api_key row_usage_key
    row_enabled row_oauth_meta]. intros Hr Ht.
  assert (parse_dt stamp = Ok t) as -> by (unfold parse_dt; by rewrite Ht).
  destruct (AuthMode.parse (row_auth_mode row)) as [mode|]; [|done].
  destruct (if is_empty (row_metadata row) then _ else _) as [md|]; [|done].
  destruct (parse_dt (row_created_at row)) as [t1|]; [|done].
  destruct (parse_dt (row_updated_at row)) as [t2|]; [|done]. cbn in Hr |- *. injection Hr as <-.
  eexists. split; [reflexivity|]. by destruct mode.
Qed.

(** After a refresh is persisted, the provider read back from the
    database, decrypted, is configured with the rotated refresh token, or the
    one presented when the server did not rotate it, and with the account the
    server named, or else the one it had; its endpoint, client and scopes are
    unchanged. *)
Theorem rotated_token_reread pid row p c r now m nonce blob stamp t :
  read_provider encryption pid (Some row) = Ok (Some p) -> auth_mode p = OAuthAuth ->
  build_oauth_target_config p = Some c -> stored_members p = Ok m ->
  String.length nonce = NONCE_LEN ->
  column_of encrypt_oauth_meta encryption nonce (to_string (Obj (updated_members c r now m))) = Ok blob ->
  parse_from_rfc3339 stamp = inr t ->
  exists p' c', read_provider encryption pid (Some (with_meta blob stamp row)) = Ok (Some p')
    /\ build_oauth_target_config p' = Some c'
    /\ refresh_token c' = default (refresh_token c) (new_refresh_token r)
    /\ (OAuthTokens.account_id r <> Some "" ->
          Targets.account_id c' = or_else (OAuthTokens.account_id r) (Targets.account_id c))
    /\ token_url c' = token_url c /\ client_id c' = client_id c /\ scopes c' = scopes c.
Proof.
  intros Hr Hmode Hc Hm Hn Hb Ht.
  destruct (reread_provider _ _ _ blob _ _ Hr Ht) as (p' & Hr' & Ev & Ea & Em & Eclear).
  specialize (Eclear Hmode).
  rewrite (sealed_token encryption _ _ _ Hn (to_string_utf8 _) (object_text_nonempty _) Hb) in Eclear.
  assert (exists c', build_oauth_target_config p' = Some c' /\ token_url c' = token_url c
            /\ client_id c' = client_id c /\ scopes c' = scopes c
            /\ Targets.account_id c' = stored_account_id (oauth_meta_cleartext p')) as (c' & Hc' & Eu & Ei & Es & Eacc).
  { unfold build_oauth_target_config in *. rewrite Ev, Ea, Em.
    destruct (validate_provider_auth_mode _ _); [|done].
    destruct (get "oauth" (metadata_json p)) as [o|]; [|done]. cbn in *.
    destruct (_ || _); [done|]. injection Hc as <-. eexists. split; [reflexivity|]. done. }
  exists p', c'. split_and!; [done|done| | |done..].
  - rewrite (config_token _ _ Hc'). unfold provider_token. rewrite Eclear.
    etrans; [apply object_token|]. by rewrite updated_refresh_token.
  - intros Hne. rewrite Eacc, Eclear. unfold stored_account_id.
    destruct (reread_object (updated_members c r now m)) as (m' & E & Hm'). cbn. rewrite E. cbn.
    unfold get_str. cbn. rewrite Hm', updated_account_id.
    assert (Targets.account_id c = stored_account_id (oauth_meta_cleartext p)) as Ec.
    { unfold build_oauth_target_config in Hc.
      destruct (validate_provider_auth_mode _ _); [|done].
      destruct (get "oauth" (metadata_json p)) as [o|]; [|done]. cbn in *.
      destruct (_ || _); [done|]. by injection Hc as <-. }
    destruct (OAuthTokens.account_id r) as [a|] eqn:Er; cbn.
    + destruct (is_empty a) eqn:Eae; [|done]. apply is_empty_eq in Eae as ->. congruence.
    + rewrite Ec. unfold stored_account_id, stored_members in *.
      destruct (oauth_meta_cleartext p) as [raw|]; cbn in *; [|by injection Hm as <-].
      destruct (from_str raw) as [v|]; cbn in *; [|by injection Hm as <-].
      destruct v as [| | | | |m0]; try done. injection Hm as <-. unfold get_str. cbn.
      destruct (assoc "account_id" m0 ≫= as_str) as [a|] eqn:E0; cbn.
      * destruct (is_empty a) eqn:Eae; cbn; [|by rewrite Eae]. by rewrite E0; cbn; rewrite Eae.
      * by rewrite E0.
Qed.
End Stored.

(** ** A gateway of two processes *)

Definition sample_crates : OAuthCrates := {|
  sha256 s := drop_bytes 22 s;
  url_safe_encode s := s;
  url_safe_decode s := Some s;
  form_urlencode l := join "&" (map (fun kv => fst kv +:+ "=" +:+ snd kv) l);
  status_phrase _ := "500 Internal Server Error";
  decode_error _ := "error decoding response body";
|}.

Definition sample_headers : HttpHeaders := {|
  header_name_of s := inr (ascii_lowercase s);
  header_value_of s := inr s;
|}.

Lemma coded_object_laws : SerdeObjectLaws coded_json.
Proof.
  assert (forall p, utf8 (bits p)) as Hbits.
  { induction p as [p IH|p IH|]; (apply utf8_1; [reflexivity|]); [done|done|constructor]. }
  split.
  - intros v. apply is_utf8_iff. apply utf8_1; [reflexivity|apply Hbits].
  - intros m. exists (map (fun kv => (fst kv, of_tree (to_tree (snd kv)))) m). split.
    + unfold coded_json. cbn [from_str to_string]. rewrite of_bits_bits. cbn [mbind option_bind].
      rewrite countable.decode_encode. cbn. f_equal. f_equal. rewrite map_map. apply map_ext. by intros [k v].
    + intros k. induction m as [|[k' v] m IH]; [done|]. cbn. destruct (String.eqb k k'); [|done].
      cbn. destruct v as [|b|[]|s0|l|m']; done.
Qed.

Definition text (l : list (string * Value)) : string := @to_string coded_json (obj l).

(** An OAuth provider whose stored refresh token is "r1", without a master
    key. *)
Definition sample_row : ProviderRow := {|
  row_name := "acme"; row_vendor := "acme"; row_api_base := ""; row_models_endpoint := "";
  row_api_key := ""; row_auth_mode := "oauth"; row_usage_key := "";
  row_oauth_meta := text [("refresh_token", Str "r1")];
  row_metadata := text [("oauth", obj [("token_url", Str "https://acme/token"); ("client_id", Str "gate")])];
  row_enabled := 1; row_created_at := ""; row_updated_at := "";
|}.

Definition sample_db : Db := {| providers := {["acme" := sample_row]}; tokens := ∅; settings := ∅ |}.

Abbreviation sample_gateway kind ts :=
  (@gateway letter_crypto coded_json binary_chrono sample_crates sample_headers kind None 30
     sample_db 0 ts).

(** A forced refresh up to its request; the sixth choice is the time. *)
Definition until_sent (t : nat) : list (nat * Choice) :=
  [(t, Done); (t, Done); (t, Done); (t, Done); (t, Time 0); (t, Done); (t, Done); (t, Done);
   (t, Done); (t, Done)].

(** The other process at the same time: it does not get the advisory lock. *)
Definition until_refused (t : nat) : list (nat * Choice) :=
  [(t, Done); (t, Done); (t, Done); (t, Done); (t, Time 0); (t, Done); (t, Done); (t, Done)].

Definition two_forced : list (nat * list ManagerCall) :=
  [(0%nat, [CallForce "acme"]); (1%nat, [CallForce "acme"])].

Lemma two_forced_run :
  match run_schedule (sample_gateway Postgres two_forced) (until_sent 0 ++ until_refused 1) with
  | Some w => map snd (outstanding w) = ["acme"] /\ map (fun s => s.1.2) (sent w) = [Some "r1"]
              /\ match tasks w !! 1%nat with Some thr => tx thr = None | None => False end
  | None => False
  end.
Proof. vm_compute. done. Qed.
 

(** The same provider under a master key. *)
Definition sample_key : option KeyEncryption := Some {| master := "k" |}.
Definition sample_nonce : string := "123456789012".

Definition ok_or {E A} (d : A) (r : result E A) : A := match r with Ok a => a | Err _ => d end.

Definition sealed_row : ProviderRow :=
  with_meta (ok_or "" (@column_of (@encrypt_oauth_meta letter_crypto) sample_key sample_nonce
                         (text [("refresh_token", Str "r1"); ("account_id", Str "u1")])))
    "" sample_row.

Definition sealed_provider : Provider :=
  match @read_provider letter_crypto coded_json binary_chrono sample_key "acme" (Some sealed_row) with
  | Ok (Some p) => p
  | _ => {| id := ""; name := ""; vendor := ""; api_base := ""; models_endpoint := "";
            encrypted_api_key := ""; encrypted_usage_management_key := ""; auth_mode := NoAuth;
            encrypted_oauth_meta := ""; metadata_json := Null; enabled := false; created_at := 0;
            updated_at := 0; api_key_cleartext := None; usage_management_key_cleartext := None;
            oauth_meta_cleartext := None |}
  end.

Definition rotated : TokenResult := {|
  access_token := "a2"; new_refresh_token := Some "r2"; expires_in := Some 3600%Z;
  OAuthTokens.account_id := None; account_email := None; organization_id := None;
  organization_name := None |}.

Lemma rotated_token_reread_witness :
  exists m c blob p' c',
    @column_of (@encrypt_oauth_meta letter_crypto) sample_key sample_nonce
      (@to_string coded_json (Obj (@updated_members binary_chrono c rotated 0 m))) = Ok blob
    /\ @read_provider letter_crypto coded_json binary_chrono sample_key "acme"
         (Some (with_meta blob "" sealed_row)) = Ok (Some p')
    /\ @build_oauth_target_config coded_json p' = Some c' /\ refresh_token c' = "r2".
Proof.
  set (m := ok_or [] (@stored_members coded_json sealed_provider)).
  destruct (@build_oauth_target_config coded_json sealed_provider) as [c|] eqn:Ec;
    [|vm_compute in Ec; discriminate Ec].
  set (plain := @to_string coded_json (Obj (@updated_members binary_chrono c rotated 0 m))).
  set (blob := letters (sample_nonce +:+ (plain +:+ fake_tag))).
  assert (@column_of (@encrypt_oauth_meta letter_crypto) sample_key sample_nonce plain = Ok blob)
    as Eb by reflexivity.
  destruct (@rotated_token_reread letter_crypto letter_crypto_laws coded_json coded_json_laws
    coded_object_laws binary_chrono sample_key "acme" sealed_row sealed_provider c rotated 0 m
    sample_nonce blob "" (- year_zero)%Z) as (p' & c' & Hp & Hc & Hr & _);
    [vm_compute; reflexivity|vm_compute; reflexivity|exact Ec|vm_compute; reflexivity|reflexivity
    |exact Eb|reflexivity|].
  exists m, c, blob, p', c'. split; [exact Eb|]. split; [exact Hp|]. split; [exact Hc|]. exact Hr.
Defined.

Lemma refresh_single_flight_witness :
  exists w, reach (sample_gateway Postgres two_forced) w /\ map snd (outstanding w) = ["acme"]
    /\ NoDup (outstanding w).*2.
Proof.
  pose proof two_forced_run as H. destruct (run_schedule _ _) as [w|] eqn:E; [|destruct H].
  exists w. pose proof (reach_schedule _ _ _ E) as Hr. split; [exact Hr|]. split; [apply H|].
  apply (@refresh_single_flight letter_crypto letter_crypto_laws coded_json coded_json_laws
           coded_object_laws binary_chrono sample_crates sample_headers Postgres None 30
           sample_db 0 two_forced); [discriminate|exact Hr].
Defined.


Lemma refreshes_complete_witness :
  Acc (fun w' w => step w w') (sample_gateway Postgres two_forced)
  /\ exists w', step (sample_gateway Postgres two_forced) w'.
Proof.
  pose proof (@refreshes_complete letter_crypto letter_crypto_laws coded_json coded_json_laws
             coded_object_laws binary_chrono sample_crates sample_headers Postgres None 30
             sample_db 0 two_forced (fun e => ltac:(discriminate e))) as [H _].
  split; [exact H|].
  assert (match step_task (sample_gateway Postgres two_forced) 0 Done with
          | Some _ => True | None => False end) as Hs
    by (vm_compute; exact I).
  destruct (step_task _ 0 Done) as [w'|] eqn:E; [|destruct Hs].
  exists w'. exact (step_runs _ _ _ _ E).
Defined.

(** ** Executions that lose a rotated token *)

(** The token endpoint answers with a new refresh token. *)
Definition rotating_answer : HttpAnswer :=
  Response 200 (text [("access_token", Str "a2"); ("refresh_token", Str "r2")]).

(** From the answer to the commit. *)
Definition until_committed (t : nat) : list (nat * Choice) :=
  [(t, Answer (Some rotating_answer)); (t, Time 0); (t, Time 0); (t, Time 0); (t, Done); (t, Done);
   (t, Done); (t, Done)].

Definition token_of (w : World) : option string :=
  @db_token letter_crypto coded_json None (db w) "acme".

(** A task that is dropped between the answer and the commit, as a client
    that disconnects or the worker's [stop] does: the token endpoint has
    replaced "r1", and "r1" is what stays stored. *)
Lemma cancelled_refresh_loses_rotation :
  exists w, reach (sample_gateway Postgres two_forced) w /\ outstanding w = []
    /\ map (fun s => s.1.2) (sent w) = [Some "r1"] /\ token_of w = Some "r1"
    /\ locks w !! (0%nat, inl "acme") = None.
Proof.
  assert (match run_schedule (sample_gateway Postgres two_forced)
                  (until_sent 0 ++ [(0%nat, Answer (Some rotating_answer))])
                ≫= fun w => cancel_task w 0 with
          | Some w => outstanding w = [] /\ map (fun s => s.1.2) (sent w) = [Some "r1"]
                      /\ token_of w = Some "r1" /\ locks w !! (0%nat, inl "acme") = None
          | None => False
          end) as H by (vm_compute; done).
  destruct (run_schedule _ _) as [w|] eqn:E; [|destruct H]. cbn in H.
  destruct (cancel_task w 0) as [w'|] eqn:Ec; [|destruct H]. exists w'.
  split; [|exact H]. exact (reach_step _ _ _ (reach_schedule _ _ _ E) (step_cancels _ _ _ Ec)).
Qed.

(** The upsert of [update_provider] when the credential is not edited: it
    runs without the lock and writes back the metadata it read. *)
Definition rename : ProviderUpsert := {|
  u_name := "Acme"; u_vendor := "acme"; u_api_base := ""; u_models_endpoint := "";
  u_api_key := None; u_auth_mode := OAuthAuth; u_oauth_meta := None;
  u_metadata := obj [("oauth", obj [("token_url", Str "https://acme/token"); ("client_id", Str "gate")])];
  u_enabled := true; u_usage_key := None;
|}.

Definition with_rename : World :=
  initial sample_db 0
    [(0%nat, @run_calls letter_crypto coded_json binary_chrono sample_crates sample_headers
               Postgres None 30 [CallForce "acme"]);
     (1%nat, task_of (@upsert_provider_with_usage_management_key letter_crypto coded_json
                        binary_chrono None "acme" rename))].

Lemma unlocked_upsert_loses_rotation :
  exists w1 w2, reach with_rename w1 /\ reach w1 w2
    /\ token_of w1 = Some "r2" /\ token_of w2 = Some "r1".
Proof.
  assert (match run_schedule with_rename ([(1%nat, Time 0); (1%nat, Done)] ++ until_sent 0 ++ until_committed 0) with
          | Some w1 => token_of w1 = Some "r2" /\
              match run_schedule w1 [(1%nat, Done)] with
              | Some w2 => token_of w2 = Some "r1"
              | None => False
              end
          | None => False
          end) as H by (vm_compute; done).
  destruct (run_schedule with_rename _) as [w1|] eqn:E1; [|destruct H]. destruct H as [H1 H].
  destruct (run_schedule w1 _) as [w2|] eqn:E2; [|destruct H].
  exists w1, w2.
  exact (conj (reach_schedule _ _ _ E1) (conj (reach_schedule _ _ _ E2) (conj H1 H))).
Qed.

(** [install_tokens] reads the provider before it has the advisory lock: when
    the login returns no refresh token, it puts back the one it read. *)
Definition login : TokenResult := {|
  access_token := "a3"; new_refresh_token := None; expires_in := None;
  OAuthTokens.account_id := None; account_email := None; organization_id := None;
  organization_name := None |}.

Definition install_and_force : list (nat * list ManagerCall) :=
  [(0%nat, [CallInstall "acme" login]); (1%nat, [CallForce "acme"])].

Lemma install_restores_stale_token :
  exists w1 w2, reach (sample_gateway Postgres install_and_force) w1 /\ reach w1 w2
    /\ token_of w1 = Some "r2" /\ token_of w2 = Some "r1".
Proof.
  assert (match run_schedule (sample_gateway Postgres install_and_force)
                  ([(0%nat, Done); (0%nat, Done); (0%nat, Done); (0%nat, Time 0)]
                   ++ until_sent 1 ++ until_committed 1) with
          | Some w1 => token_of w1 = Some "r2" /\
              match run_schedule w1 [(0%nat, Done); (0%nat, Done); (0%nat, Time 0); (0%nat, Time 0);
                                     (0%nat, Time 0); (0%nat, Done); (0%nat, Done); (0%nat, Done);
                                     (0%nat, Done)] with
              | Some w2 => token_of w2 = Some "r1"
              | None => False
              end
          | None => False
          end) as H by (vm_compute; done).
  destruct (run_schedule (sample_gateway _ _) _) as [w1|] eqn:E1; [|destruct H]. destruct H as [H1 H].
  destruct (run_schedule w1 _) as [w2|] eqn:E2; [|destruct H].
  exists w1, w2.
  exact (conj (reach_schedule _ _ _ E1) (conj (reach_schedule _ _ _ E2) (conj H1 H))).
Qed.
