(* ===== verification/Egress.v ===== *)
(** * Egress: headers, credentials and URLs of upstream requests

    The header part of [crates/server/src/ingress/headers.rs],
    [apply_provider_auth] of [crates/server/src/ingress/mod.rs] and the URL
    builders of [crates/server/src/ingress/executors.rs].  The registered
    providers are a list, since the registry has no order. *)

From stdpp Require Import base option list gmap sets strings.
From Stdlib Require Import ZArith Lia Ascii.
From S2P Require Import Prelude RustStr Http F64 Json JsonBody Telemetry Protocol Classify Targets Health.
From S2P Require Import Errors HeaderForward TraceCtx Encryption ProviderConfig OAuthTokens Providers.
From S2P Require Import OAuthEffects OAuthStore OAuthCache OAuthManager.

Local Open Scope string_scope.
Local Open Scope list_scope.
Local Open Scope task_scope.

(** ** Snapshots of header maps *)

(** [header_map_to_vec], [reqwest_headers_to_vec]: values that are not
    visible ASCII become empty. *)
Definition header_map_to_vec (hs : Headers) : list (string * string) :=
  map (fun nv => (fst nv, default "" (to_str (snd nv)))) hs.
Definition reqwest_headers_to_vec : Headers -> list (string * string) := header_map_to_vec.

(** ** Request headers *)

Section Merge.
Context `{Lowercase}.

Definition merge_one (policy : HeaderForwardPolicy) (upstream : HeaderMap) (nv : string * string)
    : HeaderMap :=
  let '(name, value) := nv in
  if negb (HeaderForwardPolicy.should_forward_request policy name) then upstream
  else if contains_key name upstream then upstream
  else <[name := value]> upstream.

Definition merge_client_headers (client : Headers) (upstream : HeaderMap)
    (policy : HeaderForwardPolicy) : HeaderMap :=
  fold_left (merge_one policy) client upstream.

Definition GATEWAY_IDENTITY_HEADERS : list (string * string) :=
  [("x-title", "TiyGate"); ("http-referer", "https://tiy.ai/gateway")].

(** An OAuth configuration with a client profile of its own. *)
Definition native_oauth (o : option OAuthTargetConfig) : option OAuthTargetConfig :=
  c ← o; match egress_profile c with Standard => None | _ => Some c end.

Definition identity_one (client : Headers) (policy : HeaderForwardPolicy)
    (o : option OAuthTargetConfig) (upstream : HeaderMap) (nv : string * string) : HeaderMap :=
  let '(name, default_value) := nv in
  if negb (HeaderForwardPolicy.should_forward_request policy name) then delete name upstream
  else
    match native_oauth o with
    | Some c => if has_header name (Targets.extra_headers c) then upstream else delete name upstream
    | None =>
        match get_header name client with
        | Some v => <[name := v]> upstream
        | None => if contains_key name upstream then upstream
                  else <[name := default_value]> upstream
        end
    end.

Definition apply_gateway_identity_headers (client : Headers) (upstream : HeaderMap)
    (policy : HeaderForwardPolicy) (o : option OAuthTargetConfig) : HeaderMap :=
  fold_left (identity_one client policy o) GATEWAY_IDENTITY_HEADERS upstream.
End Merge.

Section Provider.
Context `{HttpHeaders}.

Definition extra_one (upstream : HeaderMap) (nv : string * string) : HeaderMap :=
  match header_name_of (fst nv), header_value_of (snd nv) with
  | inr n, inr v => if contains_key n upstream then upstream else <[n := v]> upstream
  | _, _ => upstream
  end.

Definition inject_provider_extra_headers (p : Providers.Provider) (caller_key_id : string)
    (upstream : HeaderMap) : HeaderMap :=
  let effective_key := if is_empty caller_key_id || String.eqb caller_key_id "anonymous"
                       then "tiygate-anonymous" else caller_key_id in
  fold_left extra_one (Providers.extra_headers p effective_key) upstream.

(** [apply_provider_auth]; [oauth_apply] is the manager's [apply], whose
    [None] means that the target is not OAuth. *)
Definition auth_failed (e : Protocol.Error) : AppError :=
  AppError.new 500 ("Provider auth applier failed: " +:+ error_to_string e).

Definition lookup_key (t : RoutingTarget) : string := default (Targets.provider_id t) (Targets.vendor t).

Definition static_auth (registered : list Providers.Provider) (t : RoutingTarget)
    (upstream : HeaderMap) (caller_key_id : string) : result AppError HeaderMap :=
  match find_provider registered (lookup_key t) with
  | Some p =>
      match Providers.apply (auth p) upstream t with
      | Ok hs => Ok (inject_provider_extra_headers p caller_key_id hs)
      | Err e => Err (auth_failed e)
      end
  | None =>
      let applier :=
        match suite (api_protocol t) with
        | AnthropicMessages => HeaderApiKeyAuthApplier "x-api-key"
        | GoogleGemini => HeaderApiKeyAuthApplier "x-goog-api-key"
        | _ => BearerAuthApplier
        end in
      match Providers.apply applier upstream t with
      | Ok hs =>
          Ok (match suite (api_protocol t) with
              | AnthropicMessages => <["anthropic-version" := "2023-06-01"]> hs
              | _ => hs
              end)
      | Err e => Err (auth_failed e)
      end
  end.

(** The second part is the access token the call applied. *)
Definition apply_provider_auth
    (oauth_apply : RoutingTarget -> HeaderMap -> prog (result string (option (HeaderMap * option string))))
    (registered : list Providers.Provider) (t : RoutingTarget) (upstream : HeaderMap)
    (caller_key_id : string) : prog (result AppError HeaderMap * option string) :=
  prog_bind (fun applied =>
    match applied with
    | Ok (Some (hs, token)) =>
        Ret (Ok (match find_provider registered (lookup_key t) with
                 | Some p => inject_provider_extra_headers p caller_key_id hs
                 | None => hs
                 end), token)
    | Ok None => Ret (static_auth registered t upstream caller_key_id, None)
    | Err e => Ret (Err (AppError.new 500 ("OAuth token error: " +:+ e)), None)
    end) (oauth_apply t upstream).
End Provider.

(** ** Response headers *)

Definition GATEWAY_REQUEST_ID_HEADER : string := "x-request-id".

Section Response.
Context `{Lowercase} `{HttpHeaders}.

Definition set_gateway_request_id_header (hs : HeaderMap) (request_id : string) : HeaderMap :=
  match header_value_of request_id with
  | inr v => <[GATEWAY_REQUEST_ID_HEADER := v]> hs
  | inl _ => hs
  end.

Definition forward_one (policy : HeaderForwardPolicy) (hs : HeaderMap) (nv : string * string)
    : HeaderMap :=
  if negb (HeaderForwardPolicy.should_forward_response policy (fst nv)) then hs
  else match header_name_of (fst nv), header_value_of (snd nv) with
       | inr n, inr v => <[n := v]> hs
       | _, _ => hs
       end.

Definition forward_upstream_resp_headers (hs : HeaderMap) (upstream : list (string * string))
    (policy : HeaderForwardPolicy) (request_id : string) : HeaderMap :=
  set_gateway_request_id_header (fold_left (forward_one policy) upstream hs) request_id.

Definition forwarded_resp_headers_for_capture (upstream : list (string * string))
    (policy : HeaderForwardPolicy) (request_id : string) : list (string * string) :=
  List.filter (fun nv => negb (eq_ignore_ascii_case (fst nv) GATEWAY_REQUEST_ID_HEADER))
    (List.filter (fun nv => HeaderForwardPolicy.should_forward_response policy (fst nv)) upstream)
  ++ [("content-type", "text/event-stream"); ("cache-control", "no-cache");
      ("x-accel-buffering", "no"); (GATEWAY_REQUEST_ID_HEADER, request_id)].
End Response.

Definition extract_retry_after (hs : Headers) : option string :=
  get_header "retry-after" hs ≫= to_str.

Definition rate_limit_names : list string :=
  ["x-ratelimit-limit"; "x-ratelimit-remaining"; "x-ratelimit-reset";
   "x-ratelimit-limit-requests"; "x-ratelimit-limit-tokens"; "x-ratelimit-remaining-requests";
   "x-ratelimit-remaining-tokens"; "x-ratelimit-reset-tokens"].

Definition extract_rate_limit_headers (hs : Headers) : list (string * string) :=
  omap (fun name => (fun v => (name, v)) <$> (get_header name hs ≫= to_str)) rate_limit_names.

(** ** URLs *)

Definition upstream_url_for_suite (t : RoutingTarget) (s : ProtocolSuite) : option string :=
  (fun suffix => trim_end_matches SLASH (RoutingTarget.effective_api_base t) +:+ suffix)
    <$> ProtocolSuite.upstream_path_suffix s.

Definition gemini_url (t : RoutingTarget) (method : string) : string :=
  trim_end_matches SLASH (RoutingTarget.effective_api_base t) +:+ "/v1beta/models/"
  +:+ Targets.model_id t +:+ method.

Definition gemini_aware_upstream_url (t : RoutingTarget) (s : ProtocolSuite) : option string :=
  match s with
  | GoogleGemini => Some (gemini_url t ":generateContent")
  | _ => upstream_url_for_suite t s
  end.

Definition upstream_stream_url_for_suite (t : RoutingTarget) (s : ProtocolSuite) : option string :=
  match s with
  | GoogleGemini => Some (gemini_url t ":streamGenerateContent?alt=sse")
  | _ => upstream_url_for_suite t s
  end.

(** ** The version in the base of Gemini

    The base of the provider ends in the version that the URL builders add. *)
Lemma gemini_default_base_doubles_version t :
  RoutingTarget.effective_api_base t = GEMINI_DEFAULT_BASE_URL -> Targets.model_id t = "gemini-2.5-pro" ->
  gemini_aware_upstream_url t GoogleGemini
  = Some "https://generativelanguage.googleapis.com/v1beta/v1beta/models/gemini-2.5-pro:generateContent".
Proof. intros E1 E2. unfold gemini_aware_upstream_url, gemini_url. by rewrite E1, E2. Qed.
