(* ===== verification/EgressBody.v ===== *)
(** * EgressBody: what the gateway changes in a request body

    The body part of [crates/server/src/ingress/headers.rs]: the model of the
    target, the cache key of OpenAI targets, the reasoning effort, and the
    compatibility profile of DeepSeek's Responses endpoint.  Every function
    returns the body and whether it changed it, since a body that is
    unchanged is forwarded byte for byte. *)

From stdpp Require Import base option list strings.
From Stdlib Require Import ZArith Lia Ascii.
From S2P Require Import Prelude RustStr F64 Json JsonBody Protocol Targets ProviderConfig Providers.

Local Open Scope string_scope.
Local Open Scope list_scope.

(** ** Model, cache key, reasoning effort *)

Definition override_model_in_body (body : Value) (model_id : string) : Value * bool :=
  match body with
  | Obj m =>
      match assoc "model" m with
      | Some existing =>
          if bool_decide (as_str existing = Some model_id) then (body, false)
          else (Obj (Json.insert "model" (Str model_id) m), true)
      | None => (body, false)
      end
  | _ => (body, false)
  end.

Definition dominated_by_openai (s : ProtocolSuite) : bool :=
  match s with OpenAiCompatible | OpenAiResponses => true | _ => false end.

Definition maybe_inject_prompt_cache_key (body : Value) (egress_suite : ProtocolSuite)
    (caller_key_id : string) : run (Value * bool) :=
  if negb (dominated_by_openai egress_suite) then Ok (body, false)
  else if is_some (get "prompt_cache_key" body) then Ok (body, false)
  else if String.eqb caller_key_id "anonymous" then Ok (body, false)
  else body' ← index_set "prompt_cache_key" (Str caller_key_id) body; Ok (body', true).

Definition supports_reasoning_max (model_id : string) : bool :=
  let model := normalized_model_id model_id in
  String.eqb model "gpt-5.6" || starts_with "gpt-5.6-" model
  || String.eqb model "deepseek-v4-flash" || String.eqb model "deepseek-v4-pro"
  || String.eqb model "deepseek-v4-flash-vision-exp".

(** [max] becomes [xhigh]. *)
Definition lower_effort (effort : Value) : Value * bool :=
  if bool_decide (as_str effort = Some "max") then (Str "xhigh", true) else (effort, false).

Definition normalize_openai_reasoning_for_target (body : Value) (egress_suite : ProtocolSuite)
    (target_model_id : string) : Value * bool :=
  if supports_reasoning_max target_model_id then (body, false)
  else match egress_suite with
       | OpenAiCompatible => on_member "reasoning_effort" lower_effort body
       | OpenAiResponses => on_member "reasoning" (on_member "effort" lower_effort) body
       | _ => (body, false)
       end.

(** ** DeepSeek *)

Definition is_meaningful (v : Value) : bool :=
  match v with
  | Null => false
  | Bool b => b
  | Str s => negb (is_empty s)
  | Arr l => match l with [] => false | _ => true end
  | Obj m => match m with [] => false | _ => true end
  | Num _ => true
  end.

Class UrlHost := {
  (** [Url::parse(s).ok()?.host_str()] *)
  host_str : string -> option string;
}.

Definition is_official_deepseek_responses_target `{UrlHost} (t : RoutingTarget)
    (egress_suite : ProtocolSuite) : bool :=
  match egress_suite with
  | OpenAiResponses =>
      String.eqb (provider_id t) "deepseek" || String.eqb (pe_name (api_protocol t)) "deepseek-responses"
      || match host_str (RoutingTarget.effective_api_base t) with
         | Some host => eq_ignore_ascii_case host "api.deepseek.com"
         | None => false
         end
  | _ => false
  end.

Definition deepseek_capability_error {A} (detail : string) : result string A :=
  Err ("DeepSeek Responses capability rejected: " +:+ detail).

(** The check of one part of a message and of one part of a tool output. *)
Definition content_part_ok (part : Value) : result string unit :=
  match get_str "type" part with
  | Some ty =>
      if existsb (String.eqb ty) ["input_text"; "output_text"; "input_image"] then Ok tt
      else if String.eqb ty "input_file"
      then deepseek_capability_error "input_file content is not supported"
      else deepseek_capability_error ("message content type " +:+ ty +:+ " is not supported")
  | None => Ok tt
  end.

Definition output_part_ok (part : Value) : result string unit :=
  match get_str "type" part with
  | Some ty =>
      if existsb (String.eqb ty) ["input_text"; "input_image"] then Ok tt
      else deepseek_capability_error ("tool output content type " +:+ ty +:+ " is not supported")
  | None => Ok tt
  end.

Definition validate_parts (k : string) (check : Value -> result string unit) (item : Value)
    : result string unit :=
  match get k item ≫= as_array with
  | Some parts => try_for_each check parts
  | None => Ok tt
  end.

Definition validate_deepseek_message_content : Value -> result string unit :=
  validate_parts "content" content_part_ok.
Definition validate_deepseek_tool_output : Value -> result string unit :=
  validate_parts "output" output_part_ok.

Inductive PreparedReasoningItem := Keep (changed : bool) | Drop.

(** A non-empty array, a non-empty string. *)
Definition has_parts (k : string) (item : Value) : bool :=
  match get k item ≫= as_array with Some (_ :: _) => true | _ => false end.
Definition has_text (k : string) (item : Value) : bool :=
  match get_str k item with Some s => negb (is_empty s) | None => false end.

Definition reasoning_part_ok (part : Value) : result string unit :=
  if bool_decide (get_str "type" part = Some "reasoning_text") then Ok tt
  else deepseek_capability_error "reasoning content only supports reasoning_text parts".

(** [summary_text] *)
Definition plain_text (item : Value) : option string :=
  or_else
    (parts ← get "summary" item ≫= as_array;
     let text := RustStr.join "" (omap (get_str "text") parts) in
     if is_empty text then None else Some text)
    (get_str "text" item).

Definition reasoning_text_part (text : string) : Value :=
  obj [("type", Str "reasoning_text"); ("text", Str text)].

Definition prepare_deepseek_reasoning_item (item : Value)
    : result string (Value * PreparedReasoningItem) :=
  let encrypted := match get "encrypted_content" item with Some v => is_meaningful v | None => false end in
  if encrypted && negb (has_parts "content" item || has_parts "summary" item || has_text "text" item)
  then Ok (item, Drop)
  else
    _ ← validate_parts "content" reasoning_part_ok item;
    let has_content := has_parts "content" item in
    item' ← (if has_content then Ok item
             else match plain_text item with
                  | Some text => Ok (set "content" (Arr [reasoning_text_part text]) item)
                  | None => deepseek_capability_error "reasoning input must contain reasoning_text content"
                  end);
    match item' with
    | Obj _ =>
        let '(item'', removed) := remove_fields ["summary"; "text"; "encrypted_content"] item' in
        Ok (item'', Keep (negb has_content || removed))
    | _ => deepseek_capability_error "reasoning input item must be a JSON object"
    end.

(** [container] is the key without the slash of the pointer. *)
Definition strip_ignored_deepseek_control (body : Value) (container field : string) : Value * bool :=
  let '(body', mutated) := on_member container (remove_field field) body in
  match get container body' with
  | Some (Obj []) => also (remove_field container) (body', mutated)
  | _ => (body', mutated)
  end.

Definition deepseek_stripped : list string :=
  ["prompt_cache_key"; "prompt_cache_retention"; "prompt_cache_options"; "metadata"; "include"].

Definition deepseek_rejected : list string :=
  ["previous_response_id"; "conversation"; "background"; "max_tool_calls"; "prompt"; "service_tier";
   "safety_identifier"; "context_management"; "stream_options"; "client_metadata"; "multi_agent";
   "stop"; "presence_penalty"; "frequency_penalty"; "seed"; "n"; "logprobs"].

Definition meaningful_member (k : string) (v : Value) : bool :=
  match get k v with Some x => is_meaningful x | None => false end.

Definition field_ok (body : Value) (field : string) : result string unit :=
  if meaningful_member field body then deepseek_capability_error (field +:+ " is not supported")
  else Ok tt.

(** The checks between the stripping of the fields and of the controls. *)
Definition deepseek_controls_ok (body : Value) : result string unit :=
  _ ← try_for_each (field_ok body) deepseek_rejected;
  if bool_decide (get "store" body ≫= as_bool = Some true)
  then deepseek_capability_error "store=true is not supported"
  else if bool_decide (get "parallel_tool_calls" body ≫= as_bool = Some false)
  then deepseek_capability_error
         "parallel_tool_calls=false is not supported; DeepSeek always enables it"
  else match get_str "truncation" body with
       | Some s => if String.eqb s "disabled" then Ok tt
                   else deepseek_capability_error "automatic truncation is not supported"
       | None => Ok tt
       end.

Definition deepseek_tool_ok (tool : Value) : result string unit :=
  match get_str "type" tool with
  | None => deepseek_capability_error "tool type is required"
  | Some ty =>
      if String.eqb ty "function" then Ok tt
      else if String.eqb ty "web_search" || String.eqb ty "web_search_2025_08_26" then
        if meaningful_member "search_context_size" tool || meaningful_member "user_location" tool
        then deepseek_capability_error "web_search search_context_size and user_location are ignored"
        else Ok tt
      else if String.eqb ty "custom" then
        if bool_decide (get_str "name" tool = Some "apply_patch") then Ok tt
        else deepseek_capability_error "only the apply_patch custom tool is supported"
      else deepseek_capability_error ("tool type " +:+ ty +:+ " is not supported")
  end.

Definition keep_if (item : Value) (r : result string unit)
    : result string (Value * PreparedReasoningItem) :=
  match r with Ok _ => Ok (item, Keep false) | Err e => Err e end.

(** One item of the input: the item, and whether to keep it. *)
Definition prepare_deepseek_item (item : Value) : result string (Value * PreparedReasoningItem) :=
  let unchanged (r : result string unit) := keep_if item r in
  let has_role := is_some (get "role" item) in
  match get_str "type" item with
  | Some ty =>
      if String.eqb ty "reasoning" then prepare_deepseek_reasoning_item item
      else if String.eqb ty "message" && has_role
      then unchanged (validate_deepseek_message_content item)
      else if existsb (String.eqb ty) ["function_call"; "web_search_call"] then unchanged (Ok tt)
      else if existsb (String.eqb ty) ["function_call_output"; "custom_tool_call_output"]
      then unchanged (validate_deepseek_tool_output item)
      else if String.eqb ty "custom_tool_call" then
        unchanged (if bool_decide (get_str "name" item = Some "apply_patch") then Ok tt
                   else deepseek_capability_error "only apply_patch custom_tool_call items are supported")
      else deepseek_capability_error ("input item type " +:+ ty +:+ " is not supported")
  | None =>
      if has_role then unchanged (validate_deepseek_message_content item)
      else deepseek_capability_error "input item must have a supported type or role"
  end.

(** The loop over the input; the dropped items are removed after it. *)
Fixpoint prepare_deepseek_items (items : list Value) : result string (list Value * bool) :=
  match items with
  | [] => Ok ([], false)
  | item :: r =>
      p ← prepare_deepseek_item item;
      rest ← prepare_deepseek_items r;
      Ok match snd p with
         | Keep changed => (fst p :: fst rest, changed || snd rest)
         | Drop => (fst rest, true)
         end
  end.

Definition prepare_deepseek_input (body : Value) : result string (Value * bool) :=
  match body with
  | Obj m =>
      match assoc "input" m with
      | Some (Arr items) =>
          r ← prepare_deepseek_items items;
          Ok (Obj (replace "input" (Arr (fst r)) m), snd r)
      | _ => Ok (body, false)
      end
  | _ => Ok (body, false)
  end.

Definition prepare_deepseek_responses_request (body : Value) : result string (Value * bool) :=
  let '(body, stripped) := remove_fields deepseek_stripped body in
  _ ← deepseek_controls_ok body;
  let '(body, text) := strip_ignored_deepseek_control body "text" "verbosity" in
  let '(body, reasoning) := strip_ignored_deepseek_control body "reasoning" "summary" in
  _ ← match get "tools" body ≫= as_array with
      | Some tools => try_for_each deepseek_tool_ok tools
      | None => Ok tt
      end;
  r ← prepare_deepseek_input body;
  Ok (fst r, stripped || text || reasoning || snd r).

Definition prepare_provider_request_body `{UrlHost} (body : Value) (t : RoutingTarget)
    (egress_suite : ProtocolSuite) (api_key_id : string) : run (result string (Value * bool)) :=
  let deepseek_responses := is_official_deepseek_responses_target t egress_suite in
  injected ← (if deepseek_responses then Ok (body, false)
              else maybe_inject_prompt_cache_key body egress_suite api_key_id);
  let '(body, key) := injected : Value * bool in
  let '(body, effort) := normalize_openai_reasoning_for_target body egress_suite (model_id t) in
  Ok (if deepseek_responses then
        r ← prepare_deepseek_responses_request body; Ok (fst r, key || effort || snd r)
      else Ok (body, key || effort)).

(** ** A body that is reported unchanged is unchanged *)

Lemma override_honest m : honest (fun v => override_model_in_body v m).
Proof.
  intros v. destruct v as [| | | | |o]; try done. cbn. destruct (assoc _ _); [|done].
  by case_bool_decide.
Qed.

Lemma lower_effort_honest : honest lower_effort.
Proof. intros v. unfold lower_effort. by case_bool_decide. Qed.

Lemma normalize_honest s m : honest (fun v => normalize_openai_reasoning_for_target v s m).
Proof.
  intros v. unfold normalize_openai_reasoning_for_target. destruct (supports_reasoning_max m); [done|].
  destruct s; try done.
  - apply on_member_honest, lower_effort_honest.
  - apply on_member_honest, on_member_honest, lower_effort_honest.
Qed.

Lemma strip_control_honest c f : honest (fun v => strip_ignored_deepseek_control v c f).
Proof.
  intros v. unfold strip_ignored_deepseek_control.
  pose proof (on_member_honest c _ (remove_field_honest f) v) as Hm.
  destruct (on_member c (remove_field f) v) as [v' b]. cbn in Hm.
  destruct (get c v') as [[| | | | |[|]]|] eqn:E; try exact Hm.
  unfold also. cbn. pose proof (remove_field_honest c v') as Hr.
  destruct (remove_field c v') as [v'' b']. cbn in *. intros [-> ->]%orb_false_iff.
  by rewrite Hr, Hm.
Qed.

(** ** The members each step leaves alone *)

Lemma get_strip_control k c f v :
  k <> c -> get k (fst (strip_ignored_deepseek_control v c f)) = get k v.
Proof.
  intros Hne. unfold strip_ignored_deepseek_control.
  pose proof (get_on_member c k (remove_field f) v) as Hm.
  destruct (on_member c (remove_field f) v) as [v' b]. cbn in Hm.
  rewrite (proj2 (String.eqb_neq k c) Hne) in Hm.
  destruct (get c v') as [[| | | | |[|]]|]; try exact Hm.
  unfold also. cbn. pose proof (get_remove_field c k v') as Hr.
  destruct (remove_field c v') as [v'' b']. cbn in *.
  rewrite (proj2 (String.eqb_neq k c) Hne) in Hr. by rewrite Hr.
Qed.

(** The control of a container that is missing, no object, or an object with
    other members only. *)
Definition control_free (c f : string) (v : Value) : Prop :=
  match get c v with
  | Some (Obj m) => m <> [] /\ assoc f m = None
  | _ => True
  end.

Lemma strip_control_free c f v : control_free c f (fst (strip_ignored_deepseek_control v c f)).
Proof.
  unfold strip_ignored_deepseek_control, control_free.
  pose proof (get_on_member c c (remove_field f) v) as Hm. rewrite String.eqb_refl in Hm.
  destruct (on_member c (remove_field f) v) as [v' b]. cbn in Hm.
  destruct (get c v) as [x|] eqn:Ex; cbn in Hm; rewrite Hm; cbn; [|by rewrite Hm].
  pose proof (get_remove_field f f x) as Hf. rewrite String.eqb_refl in Hf.
  destruct (fst (remove_field f x)) as [| | | | |[|kv m]] eqn:Er; cbn; rewrite ?Hm; try done.
  unfold also. cbn. pose proof (get_remove_field c c v') as Hr. rewrite String.eqb_refl in Hr.
  destruct (remove_field c v') as [v'' b']. cbn in *. by rewrite Hr.
Qed.

Lemma strip_control_stable c f v :
  control_free c f v -> strip_ignored_deepseek_control v c f = (v, false).
Proof.
  unfold control_free, strip_ignored_deepseek_control. intros Hc.
  destruct v as [| | | | |m]; try done. cbn in *. destruct (assoc c m) as [x|] eqn:E.
  - destruct x as [| | | | |o]; cbn; rewrite ?(replace_same _ _ _ E); cbn; rewrite ?E; try done.
    destruct Hc as [Ho Hf]. rewrite Hf. cbn. rewrite (replace_same _ _ _ E). cbn. rewrite E.
    by destruct o.
  - cbn. by rewrite E.
Qed.

Lemma controls_ok_ext v v' :
  (forall k, In k (["store"; "parallel_tool_calls"; "truncation"] ++ deepseek_rejected) ->
     get k v' = get k v) ->
  deepseek_controls_ok v' = deepseek_controls_ok v.
Proof.
  intros Hg. unfold deepseek_controls_ok, get_str.
  assert (forall ks, (forall k, In k ks -> get k v' = get k v) ->
            try_for_each (field_ok v') ks = try_for_each (field_ok v) ks) as Hks.
  { induction ks as [|k ks IH]; intros Hk; [done|]. cbn. unfold field_ok at 1 3, meaningful_member.
    rewrite (Hk k (or_introl eq_refl)). rewrite IH; [done|]. intros k' Hin. apply Hk. by right. }
  rewrite Hks; [|intros k Hk; apply Hg, in_or_app; by right].
  by rewrite !Hg; [|cbn; auto 6..].
Qed.

(** ** Preparing a DeepSeek request twice *)

Lemma get_set_obj_ne k k' x (m : list (string * Value)) :
  k <> k' -> get k (set k' x (Obj m)) = get k (Obj m).
Proof. intros Hne. by apply get_set_ne. Qed.

Lemma reasoning_content_kept item item' c :
  prepare_deepseek_reasoning_item item = Ok (item', Keep c) ->
  is_object item' = true /\ get "type" item' = get "type" item
  /\ has_parts "content" item' = true /\ validate_parts "content" reasoning_part_ok item' = Ok tt
  /\ forall k, In k ["summary"; "text"; "encrypted_content"] -> get k item' = None.
Proof.
  unfold prepare_deepseek_reasoning_item. destruct (_ && negb _); [discriminate|].
  destruct (validate_parts _ _ item) as [[]|] eqn:Ev; [|discriminate]. cbn.
  set (filled := if has_parts "content" item then _ else _).
  destruct filled as [item1|] eqn:Ef; [|discriminate]. cbn.
  destruct item1 as [| | | | |m]; try discriminate.
  pose proof (get_remove_fields ["summary"; "text"; "encrypted_content"]) as Hg.
  destruct (remove_fields ["summary"; "text"; "encrypted_content"] (Obj m)) as [item2 removed] eqn:Er. intros [= <- _].
  specialize (fun k => Hg k (Obj m)) as Hg'. rewrite Er in Hg'. cbn [fst] in Hg'.
  assert (is_object item2 = true) as Hobj.
  { revert Er. unfold remove_fields. cbn. unfold also. cbn.
    repeat match goal with |- context [is_some ?o] => destruct (is_some o); cbn end;
      by intros [= <- _]. }
  assert (get "type" (Obj m) = get "type" item /\ has_parts "content" (Obj m) = true
          /\ validate_parts "content" reasoning_part_ok (Obj m) = Ok tt) as (Ht & Hp & Hv).
  { revert Ef. unfold filled. destruct (has_parts "content" item) eqn:Hp; [by intros [= <-]|].
    destruct (plain_text item) as [text|]; [|discriminate]. destruct item as [| | | | |m0]; try discriminate.
    - intros [= <-]. done.
    - intros [= <-]. unfold has_parts, validate_parts. cbn. by rewrite !assoc_insert. }
  split; [done|]. split; [by rewrite Hg'|]. unfold has_parts, validate_parts in *.
  rewrite (Hg' "content"). split; [done|]. split; [done|].
  intros k Hk. rewrite Hg'. cbn in *. destruct Hk as [<-|[<-|[<-|[]]]]; done.
Qed.

Lemma reasoning_item_stable item :
  is_object item = true -> has_parts "content" item = true ->
  validate_parts "content" reasoning_part_ok item = Ok tt ->
  (forall k, In k ["summary"; "text"; "encrypted_content"] -> get k item = None) ->
  prepare_deepseek_reasoning_item item = Ok (item, Keep false).
Proof.
  intros Hobj Hp Hv Hn. unfold prepare_deepseek_reasoning_item.
  rewrite (Hn "encrypted_content"); [|cbn; auto]. cbn. rewrite Hv. cbn. rewrite Hp. cbn.
  destruct item as [| | | | |m]; try discriminate. by rewrite remove_fields_absent.
Qed.

Lemma keep_if_ok item r item' c : keep_if item r = Ok (item', Keep c) -> item' = item.
Proof. destruct r; [by intros [= -> _]|discriminate]. Qed.

Lemma keep_if_again item r item' c :
  keep_if item r = Ok (item', Keep c) -> keep_if item r = Ok (item', Keep false).
Proof. destruct r; [by intros [= -> _]|discriminate]. Qed.

Lemma item_stable item item' c :
  prepare_deepseek_item item = Ok (item', Keep c) ->
  prepare_deepseek_item item' = Ok (item', Keep false).
Proof.
  intros Hp. assert (item' = item \/ get_str "type" item = Some "reasoning") as [->|Er].
  - revert Hp. unfold prepare_deepseek_item. destruct (get_str "type" item) as [ty|]; cbv zeta.
    + destruct (String.eqb_spec ty "reasoning") as [->|]; [by right|]. intros Hp. left. revert Hp.
      split_ifs; (apply keep_if_ok || discriminate).
    + intros Hp. left. revert Hp. split_ifs; (apply keep_if_ok || discriminate).
  - revert Hp. unfold prepare_deepseek_item. destruct (get_str "type" item) as [ty|]; cbv zeta.
    + destruct (String.eqb_spec ty "reasoning") as [->|].
      * intros (Hobj & Ht & Hp & Hv & Hn)%reasoning_content_kept. by apply reasoning_item_stable.
      * split_ifs; (apply keep_if_again || discriminate).
    + split_ifs; (apply keep_if_again || discriminate).
  - revert Hp. unfold prepare_deepseek_item. rewrite Er.
    cbn -[prepare_deepseek_reasoning_item]. intros (Hobj & Ht & Hp & Hv & Hn)%reasoning_content_kept.
    assert (get_str "type" item' = Some "reasoning") as -> by (unfold get_str in *; by rewrite Ht).
    cbn -[prepare_deepseek_reasoning_item]. by apply reasoning_item_stable.
Qed.

Lemma items_stable items items' b :
  prepare_deepseek_items items = Ok (items', b) -> prepare_deepseek_items items' = Ok (items', false).
Proof.
  revert items' b. induction items as [|item r IH]; intros items' b; cbn; [by intros [= <- _]|].
  destruct (prepare_deepseek_item item) as [[item' p]|] eqn:Ei; [|discriminate]. cbn.
  destruct (prepare_deepseek_items r) as [[r' b']|] eqn:Er; [|discriminate]. cbn.
  specialize (IH _ _ eq_refl). destruct p as [c|]; intros [= <- _]; [|done]. cbn.
  rewrite (item_stable _ _ _ Ei). cbn. by rewrite IH.
Qed.

Lemma get_prepare_input k v r :
  prepare_deepseek_input v = Ok r -> k <> "input" -> get k (fst r) = get k v.
Proof.
  destruct v as [| | | | |m]; cbn; try (by intros [= <-]).
  destruct (assoc "input" m) as [[| | | |items|]|] eqn:E; try (by intros [= <-]).
  destruct (prepare_deepseek_items items) as [[items' b]|]; [|discriminate]. cbn.
  intros [= <-] Hne. cbn. rewrite assoc_replace. by rewrite (proj2 (String.eqb_neq _ _) Hne).
Qed.

Lemma input_stable v r :
  prepare_deepseek_input v = Ok r -> prepare_deepseek_input (fst r) = Ok (fst r, false).
Proof.
  destruct v as [| | | | |m]; cbn; try (by intros [= <-]).
  destruct (assoc "input" m) as [[| | | |items|]|] eqn:E; try (by intros [= <-]; cbn; rewrite E).
  destruct (prepare_deepseek_items items) as [[items' b]|] eqn:Ei; [|discriminate]. cbn.
  intros [= <-]. cbn. rewrite assoc_replace, E. cbn. rewrite (items_stable _ _ _ Ei). cbn.
  rewrite replace_same; [done|]. by rewrite assoc_replace, E.
Qed.

#[local] Arguments deepseek_controls_ok : simpl never.
#[local] Arguments strip_ignored_deepseek_control : simpl never.
#[local] Arguments prepare_deepseek_input : simpl never.

(** Preparing a request for DeepSeek is done once: what it produces is
    accepted as it is and not changed by a second preparation, as in a retry
    or behind another gateway. *)
Theorem deepseek_preparation_idempotent body body' changed :
  prepare_deepseek_responses_request body = Ok (body', changed) ->
  prepare_deepseek_responses_request body' = Ok (body', false).
Proof.
  unfold prepare_deepseek_responses_request.
  pose proof (get_remove_fields deepseek_stripped) as H1.
  specialize (fun k => H1 k body) as H1'. destruct (remove_fields deepseek_stripped body) as [b1 c1]. cbn in H1'.
  destruct (deepseek_controls_ok b1) as [[]|] eqn:Ec; [|discriminate]. cbn.
  pose proof (fun k => get_strip_control k "text" "verbosity" b1) as H2.
  pose proof (strip_control_free "text" "verbosity" b1) as F2.
  destruct (strip_ignored_deepseek_control b1 "text" "verbosity") as [b2 c2]. cbn in H2, F2.
  pose proof (fun k => get_strip_control k "reasoning" "summary" b2) as H3.
  pose proof (strip_control_free "reasoning" "summary" b2) as F3.
  destruct (strip_ignored_deepseek_control b2 "reasoning" "summary") as [b3 c3]. cbn in H3, F3.
  set (tools := match get "tools" b3 ≫= as_array with Some _ => _ | None => _ end).
  destruct tools as [[]|] eqn:Et; [|discriminate]. cbn.
  destruct (prepare_deepseek_input b3) as [[b4 c4]|] eqn:Ei; [|discriminate]. cbn. intros [= <- _].
  pose proof (fun k Hk => get_prepare_input k _ _ Ei Hk) as H4. cbn in H4.
  assert (forall k, k <> "input" -> k <> "reasoning" -> k <> "text" -> get k b4 = get k b1) as Hsame.
  { intros k Hi Hr Hx. by rewrite H4, H3, H2. }
  rewrite remove_fields_absent.
  2: { intros k Hk. cbn in Hk. rewrite Hsame by (intros ->; intuition discriminate). rewrite H1'.
       destruct Hk as [<-|[<-|[<-|[<-|[<-|[]]]]]]; reflexivity. }
  cbv beta iota. rewrite (controls_ok_ext b1), Ec; [|intros k Hk; apply Hsame; intros ->; cbn in Hk; intuition discriminate].
  change (mbind ?f (Ok tt)) with (f tt). cbv beta.
  rewrite (strip_control_stable "text" "verbosity" b4);
    [|unfold control_free in *; by rewrite H4, H3].
  cbv beta iota. rewrite (strip_control_stable "reasoning" "summary" b4);
    [|unfold control_free in *; by rewrite H4].
  cbv beta iota. rewrite (H4 "tools") by done. fold tools. rewrite Et.
  apply input_stable in Ei. cbn in Ei |- *. by rewrite Ei.
Qed.

(** A request of a Codex client. *)
Definition codex_style_request : Value :=
  obj [("model", Str "deepseek-v4-pro"); ("metadata", obj []); ("text", obj [("verbosity", Str "low")]);
       ("input", Arr [obj [("type", Str "reasoning"); ("id", Str "rs_1");
                           ("summary", Arr [obj [("type", Str "summary_text"); ("text", Str "t")]]);
                           ("encrypted_content", Str "x")];
                      obj [("type", Str "reasoning"); ("encrypted_content", Str "y")]])].

Definition deepseek_style_request : Value :=
  match prepare_deepseek_responses_request codex_style_request with Ok (v, _) => v | Err _ => Null end.

Lemma deepseek_preparation_idempotent_witness :
  prepare_deepseek_responses_request codex_style_request = Ok (deepseek_style_request, true)
  /\ prepare_deepseek_responses_request deepseek_style_request = Ok (deepseek_style_request, false).
Proof.
  assert (prepare_deepseek_responses_request codex_style_request = Ok (deepseek_style_request, true)) as E
    by (vm_compute; reflexivity).
  split; [exact E|]. exact (deepseek_preparation_idempotent _ _ _ E).
Defined.
