(* ===== verification/CodexOAuth.v ===== *)
(** * CodexOAuth: the egress profile of OpenAI Codex credentials

    [crates/server/src/openai_codex_oauth.rs]: what the profile changes in a
    Responses body and in the headers, the answers of the Codex back end over
    HTTP, and the events of its WebSocket. *)

From stdpp Require Import base option list gmap strings pretty.
From Stdlib Require Import ZArith Lia Ascii.
From S2P Require Import Prelude RustStr Http F64 Json JsonBody Telemetry Protocol Classify Targets Errors Ir.
From S2P Require Import Encryption ProviderConfig OAuthTokens Providers.

Local Open Scope string_scope.
Local Open Scope list_scope.

(** [Url::parse], [set_scheme] and the engine [URL_SAFE] of base64. *)
Class CodexCrates := {
  url_scheme : string -> string + string;
  url_with_scheme : string -> string -> option string;
  url_text : string -> string;
  url_safe_padded_decode : string -> option string;
}.

Definition RESPONSES_WEBSOCKET_BETA : string := "responses_websockets=2026-02-06".
Definition CODEX_TOOL_NAME_MAX_BYTES : Z := 64.

Definition is_enabled (t : RoutingTarget) (egress_suite : ProtocolSuite) : bool :=
  match egress_suite, oauth t with
  | OpenAiResponses, Some o => match egress_profile o with OpenAiCodex => true | _ => false end
  | _, _ => false
  end.

Definition uses_websocket (t : RoutingTarget) : bool :=
  match upstream_transport <$> oauth t with Some CodexResponsesWebSocket => true | _ => false end.

(** ** The body *)

(** [if !ok(object.get(k)) { object.insert(k, x); changed = true }] *)
Definition ensure_member (k : string) (ok : option Value -> bool) (x : Value) (v : Value)
    : Value * bool :=
  if ok (get k v) then (v, false) else (set k x v, true).

Definition is_bool (b : bool) (o : option Value) : bool := bool_decide (o ≫= as_bool = Some b).
Definition not_null (o : option Value) : bool :=
  match o with Some v => negb (is_null v) | None => false end.

Definition include_value : Value := Arr [Str "reasoning.encrypted_content"].
Definition is_include (o : option Value) : bool :=
  match o with
  | Some (Arr [Str s]) => String.eqb s "reasoning.encrypted_content"
  | _ => false
  end.

Definition codex_removed : list string :=
  ["metadata"; "prompt_cache_retention"; "safety_identifier"; "max_output_tokens";
   "max_completion_tokens"; "temperature"; "top_p"; "stop"; "user"; "truncation";
   "prompt_cache_options"; "context_management"; "generate"].

Definition normalize_codex_input_shape (body : Value) : Value * bool :=
  match get_str "input" body with
  | Some text =>
      (set "input" (Arr [obj [("type", Str "message"); ("role", Str "user");
         ("content", Arr [obj [("type", Str "input_text"); ("text", Str text)]])]]) body, true)
  | None => (body, false)
  end.

Definition system_role (item : Value) : Value * bool :=
  if bool_decide (get_str "role" item = Some "system")
  then (set "role" (Str "developer") item, true) else (item, false).

Definition normalize_codex_system_roles : Value -> Value * bool :=
  on_member "input" (on_items system_role).

Definition normalize_codex_service_tier (body : Value) : Value * bool :=
  match get "service_tier" body with
  | Some v => if bool_decide (as_str v = Some "priority") then (body, false)
              else remove_field "service_tier" body
  | None => (body, false)
  end.

Definition strip_prompt_cache_breakpoints : Value -> Value * bool :=
  on_member "input" (on_items (on_member "content" (on_items (remove_field "prompt_cache_breakpoint")))).

(** ** Ids of at most 64 characters *)

(** [s.chars().count()], [s.chars().take(n)]: a character starts at every
    byte that does not continue one. *)
Definition continues (a : ascii) : bool := ((128 <=? code a) && (code a <? 192))%Z.

Fixpoint chars_count (s : string) : nat :=
  match s with
  | EmptyString => 0
  | String a r => if continues a then chars_count r else S (chars_count r)
  end.

Fixpoint chars_take (n : nat) (s : string) : string :=
  match s with
  | EmptyString => EmptyString
  | String a r =>
      if continues a then String a (chars_take n r)
      else match n with O => EmptyString | S n' => String a (chars_take n' r) end
  end.

Section Ids.
Context `{OAuthCrates} `{TextCrates}.

Definition shorten_codex_id (id : string) (id_map : gmap string string)
    : string * gmap string string :=
  if (chars_count id <=? 64)%nat then (id, id_map)
  else match id_map !! id with
       | Some mapped => (mapped, id_map)
       | None =>
           let suffix := "_" +:+ hex_encode (take_bytes 8 (sha256 id)) in
           let shortened := chars_take (64 - chars_count suffix) id +:+ suffix in
           (shortened, <[id := shortened]> id_map)
       end.

(** One of the keys [id] and [call_id] of an item. *)
Definition shorten_member (st : Value * bool * gmap string string) (key : string)
    : Value * bool * gmap string string :=
  let '(item, changed, id_map) := st in
  match get_str key item with
  | Some value =>
      let '(shortened, id_map) := shorten_codex_id value id_map in
      if String.eqb shortened value then (item, changed, id_map)
      else (set key (Str shortened) item, true, id_map)
  | None => st
  end.

Definition shorten_item (item : Value) (changed : bool) (id_map : gmap string string)
    : Value * bool * gmap string string :=
  fold_left shorten_member ["id"; "call_id"] (item, changed, id_map).

Fixpoint shorten_items (items : list Value) (changed : bool) (id_map : gmap string string)
    : list Value * bool :=
  match items with
  | [] => ([], changed)
  | item :: r =>
      let '(item', changed', id_map') := shorten_item item changed id_map in
      let '(r', changed'') := shorten_items r changed' id_map' in
      (item' :: r', changed'')
  end.

Definition shorten_array (v : Value) : Value * bool :=
  match v with
  | Arr items => let '(items', changed) := shorten_items items false ∅ in (Arr items', changed)
  | _ => (v, false)
  end.

Definition normalize_codex_input_ids : Value -> Value * bool := on_member "input" shorten_array.

Definition prepare_object (websocket : bool) (body : Value) : Value * bool :=
  let vb := ensure_member "stream" (is_bool true) (Bool true) body in
  let vb := also (ensure_member "instructions" not_null (Str "")) vb in
  let vb := also (ensure_member "store" (is_bool false) (Bool false)) vb in
  let vb := also (remove_fields codex_removed) vb in
  let vb := also (ensure_member "include" is_include include_value) vb in
  let vb := also (ensure_member "parallel_tool_calls" (is_bool true) (Bool true)) vb in
  if websocket then vb else also (remove_fields ["previous_response_id"; "stream_options"]) vb.

Definition prepare_body (body : Value) (websocket : bool) : Value * bool :=
  match body with
  | Obj _ =>
      let vb := prepare_object websocket body in
      let vb := also normalize_codex_input_shape vb in
      let vb := also normalize_codex_system_roles vb in
      let vb := also normalize_codex_service_tier vb in
      let vb := also strip_prompt_cache_breakpoints vb in
      also normalize_codex_input_ids vb
  | _ => (body, false)
  end.
End Ids.

(** ** Tool names *)

Definition validate_codex_tool_name (value : option Value) (path : string) : result AppError unit :=
  match value ≫= as_str with
  | None => Ok tt
  | Some name =>
      if (Z.of_nat (String.length name) <=? CODEX_TOOL_NAME_MAX_BYTES)%Z then Ok tt
      else Err (AppError.with_upstream_code (AppError.with_class
             (AppError.new 400 ("Codex tool name at " +:+ path +:+ " exceeds 64-byte limit"))
             LossyOrCapability) "unsupported_tool_name")
  end.

(** [value.pointer("/function/name")] *)
Definition function_name (v : Value) : option Value := get "function" v ≫= get "name".

Fixpoint check_indexed (check : string -> Value -> result AppError unit) (prefix : string)
    (i : nat) (l : list Value) : result AppError unit :=
  match l with
  | [] => Ok tt
  | v :: r =>
      _ ← check (prefix +:+ "[" +:+ pretty i +:+ "]") v;
      check_indexed check prefix (S i) r
  end.

Definition check_name (path : string) (v : Value) : result AppError unit :=
  validate_codex_tool_name (get "name" v) (path +:+ ".name").
Definition check_tool (path : string) (v : Value) : result AppError unit :=
  _ ← check_name path v;
  validate_codex_tool_name (function_name v) (path +:+ ".function.name").

Definition check_array (check : string -> Value -> result AppError unit) (prefix : string)
    (o : option Value) : result AppError unit :=
  match o ≫= as_array with Some l => check_indexed check prefix 0 l | None => Ok tt end.

Definition validate_codex_tool_names (body : Value) : result AppError unit :=
  _ ← check_array check_tool "tools" (get "tools" body);
  _ ← check_array check_name "input" (get "input" body);
  match get "tool_choice" body with
  | Some choice =>
      _ ← check_tool "tool_choice" choice;
      check_array check_name "tool_choice.tools" (get "tools" choice)
  | None => Ok tt
  end.

(** ** Reasoning *)

(** [is_ascii_alphanumeric], [is_ascii_hexdigit] *)
Definition is_ascii_alphanumeric (a : ascii) : bool :=
  let c := code a in
  (((48 <=? c) && (c <=? 57)) || ((65 <=? c) && (c <=? 90)) || ((97 <=? c) && (c <=? 122)))%Z.
Definition is_ascii_hexdigit (a : ascii) : bool :=
  let c := code a in
  (((48 <=? c) && (c <=? 57)) || ((65 <=? c) && (c <=? 70)) || ((97 <=? c) && (c <=? 102)))%Z.

Section Reasoning.
Context `{OAuthCrates} `{TextCrates} `{CodexCrates}.

Definition signature_char (a : ascii) : bool :=
  is_ascii_alphanumeric a || ((code a =? 45) || (code a =? 95) || (code a =? 61))%Z.

Definition is_valid_gpt_reasoning_signature (signature : string) : bool :=
  String.eqb (trim signature) signature
  && negb (is_empty signature || (33554432 <? Z.of_nat (String.length signature))%Z
           || negb (starts_with "gAAAA" signature))
  && all_chars signature_char signature
  && match or_else (url_safe_decode signature) (url_safe_padded_decode signature) with
     | None => false
     | Some decoded =>
         let len := Z.of_nat (String.length decoded) in
         (73 <=? len)%Z
         && match decoded with String a _ => (code a =? 128)%Z | EmptyString => false end
         && let ciphertext_len := sat_sub len 57 in
            (0 <? ciphertext_len)%Z && (ciphertext_len mod 16 =? 0)%Z
     end.

(** The signatures of the reasoning of a Messages request. *)
Definition content_signature (c : Content) : option (option string) :=
  match c with CReasoning _ signature _ _ => Some signature | _ => None end.

Definition is_anthropic (s : ProtocolSuite) : bool :=
  match s with AnthropicMessages => true | _ => false end.

Definition reasoning_signatures (request : IrRequest) : list (option string) :=
  if is_anthropic (suite (ingress_protocol request))
  then omap content_signature (concat (map content (messages request)))
  else [].

(** An item whose reasoning cannot be replayed keeps its summary without
    the id: the item, whether to keep it, whether it was changed. *)
Definition drop_identity (anthropic : bool) (item : Value) : Value * bool * bool :=
  match item with
  | Obj _ =>
      let '(item', removed) := remove_field "id" item in
      let has_summary := match get "summary" item' ≫= as_array with Some (_ :: _) => true | _ => false end in
      if negb has_summary && negb anthropic then (item', false, true) else (item', true, removed)
  | _ => (item, true, false)
  end.

(** A reasoning item; [signature] is the one at its place in a Messages
    request. *)
Definition normalize_reasoning (anthropic : bool) (signature : option string) (item : Value)
    : Value * bool * bool :=
  let valid := match get_str "encrypted_content" item with
               | Some s => is_valid_gpt_reasoning_signature s
               | None => false
               end in
  if anthropic then
    match signature with
    | Some s =>
        if is_valid_gpt_reasoning_signature s
        then (set "encrypted_content" (Str s) (set "summary" (Arr []) item), true, true)
        else (item, false, true)
    | None => (item, false, true)
    end
  else
    let '(item, cleared) :=
      if is_some (get "encrypted_content" item) && negb valid
      then (fst (remove_field "encrypted_content" item), true) else (item, false) in
    if valid then (item, true, cleared)
    else let '(item, keep, changed) := drop_identity anthropic item in (item, keep, cleared || changed).

Fixpoint normalize_items (anthropic : bool) (signatures : list (option string)) (index : nat)
    (items : list Value) (id_map : gmap string string) : list Value * bool :=
  match items with
  | [] => ([], false)
  | item :: r =>
      let reasoning := bool_decide (get_str "type" item = Some "reasoning") in
      let '(item, keep, changed) :=
        if reasoning then normalize_reasoning anthropic (mjoin (signatures !! index)) item
        else (item, true, false) in
      let index := if reasoning && anthropic then S index else index in
      if keep then
        let '(item, changed, id_map) := shorten_item item changed id_map in
        let '(r', changed') := normalize_items anthropic signatures index r id_map in
        (item :: r', changed || changed')
      else (fst (normalize_items anthropic signatures index r id_map), true)
  end.

Definition normalize_reasoning_and_ids (body : Value) (request : IrRequest) : Value * bool :=
  let anthropic := is_anthropic (suite (ingress_protocol request)) in
  on_member "input" (fun v =>
    match v with
    | Arr items =>
        let '(items', changed) := normalize_items anthropic (reasoning_signatures request) 0 items ∅ in
        (Arr items', changed)
    | _ => (v, false)
    end) body.
End Reasoning.

(** ** The cache identity of a Claude session *)

Definition first_header (hs : Headers) (names : list string) : option string :=
  head
    (omap (fun name => v ← get_header name hs ≫= to_str; nonempty (Some (trim v))) names).

(** [s.rsplit_once(p)] *)
Fixpoint rsplit_once (p s : string) : option (string * string) :=
  match s with
  | EmptyString => if is_empty p then Some ("", "") else None
  | String a r =>
      match rsplit_once p r with
      | Some (l, t) => Some (String a l, t)
      | None => (fun t => ("", t)) <$> strip_prefix p s
      end
  end.

Section Session.
Context `{SerdeJson} `{OAuthCrates} `{TextCrates}.

Definition claude_session_from_user_id (v : string) : option string :=
  let value := trim v in
  if is_empty value then None
  else or_else
    (if starts_with "{" value
     then session ← from_str value ≫= get_str "session_id"; nonempty (Some (trim session))
     else None)
    ('(_, rest) ← rsplit_once "_session_" value;
     let session := trim rest in
     if negb (is_empty session)
        && all_chars (fun a => is_ascii_hexdigit a || (code a =? 45)%Z) session
     then Some session else None).

(** The two bytes of a digest that say version and variant of a UUID. *)
Definition with_byte (i : nat) (f : Z -> Z) (s : string) : string :=
  take_bytes i s
  +:+ match drop_bytes i s with
      | String a r => String (chr (f (code a))) r
      | EmptyString => EmptyString
      end.

Definition digest_uuid (identity : string) : string :=
  let bytes := take_bytes 16 (sha256 identity) in
  let bytes := with_byte 6 (fun b => Z.lor (Z.land b 15) 80) bytes in
  uuid_string (with_byte 8 (fun b => Z.lor (Z.land b 63) 128) bytes).

Definition NUL : string := String (chr 0) EmptyString.

Definition claude_prompt_cache_key (ingress_protocol : ProtocolEndpoint) (request : IrRequest)
    (client_headers : Headers) (model : string) : option string :=
  if negb (is_anthropic (suite ingress_protocol)) then None
  else
    session ← or_else
      (first_header client_headers
         ["x-claude-code-session-id"; "x-session-id"; "session-id"; "session_id"])
      (m ← Ir.metadata request; m !! "user_id" ≫= claude_session_from_user_id);
    let agent := default "main" (first_header client_headers ["x-claude-code-agent-id"]) in
    Some (digest_uuid ("tiygate:codex:claude-code" +:+ NUL +:+ trim model +:+ NUL +:+ session
                       +:+ NUL +:+ agent)).
End Session.

Definition set_prompt_cache_key (body : Value) (key : string) : run (Value * bool) :=
  if bool_decide (get_str "prompt_cache_key" body = Some key) then Ok (body, false)
  else body' ← index_set "prompt_cache_key" (Str key) body; Ok (body', true).

Definition says_true (s : string) : bool := eq_ignore_ascii_case (trim s) "true".

Definition lite_from_body (body : Value) : bool :=
  match get "client_metadata" body ≫= get "ws_request_header_x_openai_internal_codex_responses_lite" with
  | Some v => bool_decide (as_bool v = Some true) || match as_str v with Some t => says_true t | None => false end
  | None => false
  end.

Definition lite_from_header (hs : Headers) : bool :=
  match get_header "x-openai-internal-codex-responses-lite" hs ≫= to_str with
  | Some v => says_true v
  | None => false
  end.

Definition normalize_parallel_tool_calls (body : Value) (hs : Headers) : run (Value * bool) :=
  if lite_from_header hs || lite_from_body body then
    if is_bool false (get "parallel_tool_calls" body) then Ok (body, false)
    else body' ← index_set "parallel_tool_calls" (Bool false) body; Ok (body', true)
  else
    Ok match get "tools" body ≫= as_array with
       | Some (_ :: _) => (body, false)
       | _ => remove_field "parallel_tool_calls" body
       end.

(** ** Headers *)

Section RequestHeaders.
Context `{HttpHeaders}.

Definition set_header (name value : string) (hs : HeaderMap) : HeaderMap :=
  match header_value_of value with inr v => <[name := v]> hs | inl _ => hs end.

Definition insert_header_if_missing (name value : string) (hs : HeaderMap) : HeaderMap :=
  if contains_key name hs then hs else set_header name value hs.

(** [now_v7] is the identifier [Uuid::now_v7] would give. *)
Definition codex_session (hs : HeaderMap) (session_key : option string) (now_v7 : string)
    : option string :=
  or_else (nonempty session_key)
    (let has_session := contains_key "session_id" hs || contains_key "session-id" hs in
     let desktop_user_agent := match hs !! "user-agent" ≫= to_str with
                               | Some v => contains "Mac OS" v
                               | None => false
                               end in
     if negb has_session && desktop_user_agent then Some now_v7 else None).

Definition apply_request_headers (hs : HeaderMap) (is_stream websocket : bool) (request_id : string)
    (session_key account_id : option string) (now_v7 : string) : HeaderMap :=
  let hs := if websocket then hs
            else set_header "accept" (if is_stream then "text/event-stream" else "application/json") hs in
  let hs := if is_empty request_id then hs
            else insert_header_if_missing "x-client-request-id" request_id hs in
  let hs := match codex_session hs session_key now_v7 with
            | Some key =>
                if websocket then set_header "conversation_id" key hs
                else set_header "session-id" key (delete "session-id" (delete "session_id" hs))
            | None => hs
            end in
  let hs := match nonempty account_id with
            | Some a => insert_header_if_missing "chatgpt-account-id" a hs
            | None => hs
            end in
  insert_header_if_missing "user-agent" "Codex Desktop"
    (insert_header_if_missing "originator" "Codex Desktop" hs).

Definition prepare_websocket_headers (hs : HeaderMap) : HeaderMap :=
  <["openai-beta" := RESPONSES_WEBSOCKET_BETA]>
    (delete "transfer-encoding" (delete "content-length" (delete "content-type" hs))).
End RequestHeaders.

(** ** Answers *)

(** [s.lines()] *)
Fixpoint drop_last_empty (l : list string) : list string :=
  match l with
  | [] => []
  | [s] => if is_empty s then [] else [s]
  | s :: r => s :: drop_last_empty r
  end.
Definition lines (s : string) : list string :=
  map (fun l => default l (strip_suffix (String CR EmptyString) l)) (drop_last_empty (split LF s)).

Section Answers.
Context `{SerdeJson} `{CodexCrates}.

(** The loop over the lines: the response found, or the last error event. *)
Fixpoint scan_lines (ls : list string) (terminal_error : option Value) : Value + option Value :=
  match ls with
  | [] => inr terminal_error
  | line :: r =>
      match strip_prefix "data:" line with
      | None => scan_lines r terminal_error
      | Some rest =>
          let data := trim rest in
          if is_empty data || String.eqb data "[DONE]" then scan_lines r terminal_error
          else match from_str data with
               | None => scan_lines r terminal_error
               | Some event =>
                   match get_str "type" event with
                   | Some ty =>
                       if existsb (String.eqb ty) ["response.completed"; "response.done"] then
                         match get "response" event with
                         | Some response => inl response
                         | None => scan_lines r terminal_error
                         end
                       else if existsb (String.eqb ty) ["response.failed"; "response.incomplete"; "error"]
                       then scan_lines r (Some event)
                       else scan_lines r terminal_error
                   | None => scan_lines r terminal_error
                   end
               end
      end
  end.

Definition parse_http_response (body : string) : result AppError Value :=
  match from_str body with
  | Some value => Ok value
  | None =>
      match scan_lines (lines body) None with
      | inl response => Ok response
      | inr (Some error) => Err (AppError.new 502 ("Codex terminal error: " +:+ to_string error))
      | inr None => Err (AppError.new 502 "Codex response did not contain response.completed")
      end
  end.

Definition websocket_url (upstream_url : string) : result AppError string :=
  match url_scheme upstream_url with
  | inl error => Err (AppError.new 500 ("invalid Codex upstream URL: " +:+ error))
  | inr scheme =>
      if String.eqb scheme "https" then
        match url_with_scheme upstream_url "wss" with
        | Some url => Ok url
        | None => Err (AppError.new 500 "failed to convert Codex HTTPS URL to WSS")
        end
      else if String.eqb scheme "http" then
        match url_with_scheme upstream_url "ws" with
        | Some url => Ok url
        | None => Err (AppError.new 500 "failed to convert Codex HTTP URL to WS")
        end
      else if String.eqb scheme "ws" || String.eqb scheme "wss" then Ok (url_text upstream_url)
      else Err (AppError.new 500 ("unsupported Codex WebSocket URL scheme: " +:+ scheme))
  end.

Definition websocket_request_body (body : Value) : result AppError Value :=
  match body with
  | Obj m => Ok (Obj (Json.insert "type" (Str "response.create") m))
  | _ => Err (AppError.new 500 "Codex Responses request body must be a JSON object")
  end.

Definition normalize_websocket_event (text : string) : string * bool :=
  match from_str text with
  | None => (text, false)
  | Some event =>
      match get_str "type" event with
      | None => (text, false)
      | Some ty =>
          if String.eqb ty "response.done"
          then (to_string (set "type" (Str "response.completed") event), true)
          else (text, existsb (String.eqb ty)
                        ["response.completed"; "response.failed"; "response.incomplete"; "error"])
      end
  end.
End Answers.
