(* ===== verification/CodexProps.v ===== *)
(** * CodexProps: what the Codex profile guarantees

    A prepared body meets the contract of the Codex back end; preparing it once
    more changes nothing, and for a retry over HTTP after the WebSocket was
    refused it removes what only the WebSocket understands. *)

From stdpp Require Import base option list gmap strings pretty.
From Stdlib Require Import ZArith Lia Ascii.
From S2P Require Import Prelude RustStr Http F64 Json JsonBody Telemetry Protocol Classify Targets Errors Ir.
From S2P Require Import Encryption ProviderConfig OAuthTokens Providers CodexOAuth.

Local Open Scope string_scope.
Local Open Scope list_scope.

(** ** Steps *)

(** A step keeps objects and the members outside [ks]. *)
Definition only (ks : list string) (f : Value -> Value * bool) : Prop :=
  forall v, is_object v = true ->
    is_object (fst (f v)) = true /\ forall k, existsb (String.eqb k) ks = false -> get k (fst (f v)) = get k v.

Lemma fst_also g vb : fst (also g vb) = fst (g (fst vb)).
Proof. unfold also. by destruct (g (fst vb)). Qed.

Lemma snd_also g vb : snd (also g vb) = snd vb || snd (g (fst vb)).
Proof. unfold also. by destruct (g (fst vb)). Qed.

Lemma only_ensure k ok x : only [k] (ensure_member k ok x).
Proof.
  intros v Hv. unfold ensure_member. destruct (ok (get k v)); cbn; [done|].
  split; [by apply is_object_set|]. intros k' Hk. cbn in Hk. rewrite orb_false_r in Hk. apply String.eqb_neq in Hk.
  by apply get_set_ne.
Qed.

Lemma is_object_remove k v : is_object v = true -> is_object (fst (remove_field k v)) = true.
Proof. destruct v as [| | | | |m]; try done. intros _. cbn. by destruct (is_some _). Qed.

Lemma is_object_removes ks v : is_object v = true -> is_object (fst (remove_fields ks v)) = true.
Proof.
  revert v. induction ks as [|k ks IH]; intros v Hv; [done|]. rewrite remove_fields_cons. cbn.
  by apply IH, is_object_remove.
Qed.

Lemma only_removes ks : only ks (remove_fields ks).
Proof.
  intros v Hv. split; [by apply is_object_removes|]. intros k Hk. by rewrite get_remove_fields, Hk.
Qed.

Lemma only_on_member k f : only [k] (on_member k f).
Proof.
  intros v Hv. destruct v as [| | | | |m]; try discriminate Hv. split.
  - cbn. destruct (assoc k m) as [x|]; [|done]. by destruct (f x).
  - intros k' Hk. cbn in Hk. rewrite orb_false_r in Hk. by rewrite get_on_member, Hk.
Qed.

Lemma only_shape : only ["input"] normalize_codex_input_shape.
Proof.
  intros v Hv. unfold normalize_codex_input_shape. destruct (get_str "input" v); [|done]. cbn [fst].
  split; [by apply is_object_set|]. intros k Hk. cbn in Hk. rewrite orb_false_r in Hk.
  apply String.eqb_neq in Hk. by apply get_set_ne.
Qed.

Lemma only_tier : only ["service_tier"] normalize_codex_service_tier.
Proof.
  intros v Hv. unfold normalize_codex_service_tier. destruct (get "service_tier" v); [|done].
  case_bool_decide; [done|]. split; [by apply is_object_remove|]. intros k Hk.
  cbn in Hk. rewrite orb_false_r in Hk. by rewrite get_remove_field, Hk.
Qed.

(** ** Ids *)

Section Ids.
Context `{C : OAuthCrates} `{T : TextCrates} {L : TextCratesLaws T}.

Definition short_id (id : string) : string :=
  if (chars_count id <=? 64)%nat then id
  else let suffix := "_" +:+ hex_encode (take_bytes 8 (sha256 id)) in
       chars_take (64 - chars_count suffix) id +:+ suffix.

(** The map of ids remembers what the function gives. *)
Definition remembers (m : gmap string string) : Prop := map_Forall (fun id s => s = short_id id /\ (64 < chars_count id)%nat) m.

Lemma shorten_short id m :
  remembers m ->
  fst (shorten_codex_id id m) = short_id id /\ remembers (snd (shorten_codex_id id m)).
Proof.
  intros Hm. unfold shorten_codex_id, short_id. destruct (Nat.leb_spec (chars_count id) 64) as [|Hl]; [done|].
  destruct (m !! id) as [s|] eqn:E; cbn.
  - destruct (Hm _ _ E) as [-> _]. unfold short_id. by rewrite (proj2 (Nat.leb_gt _ _) Hl).
  - split; [done|]. apply map_Forall_insert_2; [|done]. split; [|done]. unfold short_id.
    by rewrite (proj2 (Nat.leb_gt _ _) Hl).
Qed.

Lemma chars_count_app s t : chars_count (s +:+ t) = (chars_count s + chars_count t)%nat.
Proof. induction s as [|a s IH]; [done|]. rewrite str_app_cons. cbn. destruct (continues a); lia. Qed.

Lemma chars_count_take n s : (chars_count (chars_take n s) <= n)%nat.
Proof.
  revert n. induction s as [|a s IH]; intros n; cbn; [lia|].
  destruct (continues a) eqn:E; cbn; [rewrite E; apply IH|]. destruct n as [|n]; cbn; [lia|].
  rewrite E. specialize (IH n). lia.
Qed.

Lemma chars_count_ascii s : is_ascii s = true -> chars_count s = String.length s.
Proof.
  unfold is_ascii. induction s as [|a s IH]; cbn; [done|]. intros [Ha Hs]%andb_true_iff.
  unfold is_ascii_char in Ha. apply Z.ltb_lt in Ha. unfold continues.
  rewrite (proj2 (Z.leb_gt 128 _) Ha). cbn. by rewrite IH.
Qed.

Lemma take_bytes_length n s : (String.length (take_bytes n s) <= n)%nat.
Proof.
  revert s. induction n as [|n IH]; intros s; destruct s as [|a s]; cbn; try lia.
  specialize (IH s). lia.
Qed.

Lemma short_id_short id : (chars_count (short_id id) <= 64)%nat.
Proof.
  unfold short_id. destruct (Nat.leb_spec (chars_count id) 64) as [|Hl]; [done|].
  set (h := hex_encode _).
  assert (chars_count h <= 16)%nat as Hh.
  { unfold h. rewrite chars_count_ascii by apply hex_encode_ascii. rewrite hex_encode_length.
    pose proof (take_bytes_length 8 (sha256 id)). lia. }
  rewrite chars_count_app. pose proof (chars_count_take (64 - chars_count ("_" +:+ h)) id).
  rewrite chars_count_app in *. change (chars_count "_") with 1%nat in *. lia.
Qed.

Lemma short_id_idem id : short_id (short_id id) = short_id id.
Proof. unfold short_id at 1. by rewrite (proj2 (Nat.leb_le _ _) (short_id_short id)). Qed.
End Ids.

(** ** Input items *)

(** What the back end asks of an input item. *)
Definition codex_item (item : Value) : Prop :=
  get_str "role" item <> Some "system"
  /\ (forall p, In p (default [] (get "content" item ≫= as_array)) -> get "prompt_cache_breakpoint" p = None)
  /\ forall k s, In k ["id"; "call_id"] -> get_str k item = Some s -> (chars_count s <= 64)%nat.

Lemma system_role_spec item :
  get_str "role" (fst (system_role item)) <> Some "system"
  /\ forall k, k <> "role" -> get k (fst (system_role item)) = get k item.
Proof.
  unfold system_role, get_str. case_bool_decide as E; cbn [fst]; [|done].
  destruct item as [| | | | |m]; try discriminate E. split.
  - by rewrite get_set_eq.
  - intros k Hk. by rewrite get_set_ne.
Qed.

Lemma breakpoints_spec item :
  let item' := fst (on_member "content" (on_items (remove_field "prompt_cache_breakpoint")) item) in
  (forall p, In p (default [] (get "content" item' ≫= as_array)) -> get "prompt_cache_breakpoint" p = None)
  /\ forall k, k <> "content" -> get k item' = get k item.
Proof.
  cbn zeta. split.
  - intros p. rewrite get_on_member, String.eqb_refl. destruct (get "content" item) as [[| | | |l|]|]; try done.
    cbn. intros (x & <- & _)%in_map_iff. by rewrite get_remove_field, String.eqb_refl.
  - intros k Hk. by rewrite get_on_member, (proj2 (String.eqb_neq _ _) Hk).
Qed.

Section Items.
Context `{C : OAuthCrates} `{T : TextCrates} {L : TextCratesLaws T}.

Lemma shorten_member_spec item changed m key :
  remembers m ->
  let '(item', _, m') := shorten_member (item, changed, m) key in
  remembers m' /\ get_str key item' = short_id <$> get_str key item
  /\ forall k, k <> key -> get k item' = get k item.
Proof.
  intros Hm. cbn. destruct (get_str key item) as [value|] eqn:Ev; [|by rewrite Ev].
  pose proof (shorten_short value m Hm) as [Hs Hm'].
  destruct (shorten_codex_id value m) as [s m'] eqn:Es. cbn in Hs, Hm'. subst s.
  destruct (String.eqb_spec (short_id value) value) as [E|_].
  - rewrite Ev. cbn. by rewrite E.
  - split; [done|]. destruct item as [| | | | |o]; try discriminate Ev. split.
    + unfold get_str. by rewrite get_set_eq.
    + intros k Hk. by rewrite get_set_ne.
Qed.

Lemma shorten_item_spec item changed m :
  remembers m ->
  let '(item', _, m') := shorten_item item changed m in
  remembers m'
  /\ (forall k, In k ["id"; "call_id"] -> get_str k item' = short_id <$> get_str k item)
  /\ forall k, ~ In k ["id"; "call_id"] -> get k item' = get k item.
Proof.
  intros Hm. unfold shorten_item. cbn [fold_left].
  pose proof (shorten_member_spec item changed m "id" Hm) as H1.
  destruct (shorten_member (item, changed, m) "id") as [[item1 c1] m1]. destruct H1 as (Hm1 & E1 & O1).
  pose proof (shorten_member_spec item1 c1 m1 "call_id" Hm1) as H2.
  destruct (shorten_member (item1, c1, m1) "call_id") as [[item2 c2] m2]. destruct H2 as (Hm2 & E2 & O2).
  split; [done|]. split.
  - intros k [<-|[<-|[]]].
    + unfold get_str in *. by rewrite O2.
    + rewrite E2. unfold get_str in *. by rewrite O1.
  - intros k Hk. cbn in Hk. rewrite O2, O1; intuition congruence.
Qed.

#[local] Arguments shorten_item : simpl never.

Lemma shorten_items_codex items changed m :
  remembers m ->
  Forall (fun item => get_str "role" item <> Some "system"
            /\ forall p, In p (default [] (get "content" item ≫= as_array)) ->
                 get "prompt_cache_breakpoint" p = None) items ->
  Forall codex_item (fst (shorten_items items changed m)).
Proof.
  intros Hm Hf. revert changed m Hm. induction Hf as [|item r [Hr Hp] _ IH]; intros changed m Hm; [constructor|].
  cbn. pose proof (shorten_item_spec item changed m Hm) as Hs.
  destruct (shorten_item item changed m) as [[item' c'] m']. destruct Hs as (Hm' & Hid & Ho).
  specialize (IH c' m' Hm'). destruct (shorten_items r c' m') as [r' c'']. cbn in *. constructor; [|done].
  split_and!.
  - unfold get_str in *. rewrite (Ho "role") by (intuition discriminate). done.
  - rewrite (Ho "content") by (intuition discriminate). done.
  - intros k s Hk Es. rewrite (Hid k Hk) in Es. destruct (get_str k item); [|discriminate].
    injection Es as <-. apply short_id_short.
Qed.

Lemma shorten_items_stable items changed m :
  Forall codex_item items -> shorten_items items changed m = (items, changed).
Proof.
  intros Hf. revert changed m. induction Hf as [|item r Hi _ IH]; intros changed m; [done|]. cbn.
  assert (forall key, In key ["id"; "call_id"] ->
            shorten_member (item, changed, m) key = (item, changed, m)) as Hk.
  { intros key Hin. cbn. destruct (get_str key item) as [s|] eqn:E; [|done].
    destruct Hi as (_ & _ & Hi). specialize (Hi _ _ Hin E). unfold shorten_codex_id.
    rewrite (proj2 (Nat.leb_le _ _) Hi). by rewrite String.eqb_refl. }
  unfold shorten_item. cbn [fold_left]. rewrite !Hk by (cbn; auto). by rewrite IH.
Qed.
End Items.

Lemma existsb_false {A} (f : A -> bool) l : (forall x, In x l -> f x = false) -> existsb f l = false.
Proof.
  induction l as [|x l IH]; intros Hf; [done|]. cbn. rewrite (Hf x) by (by left). apply IH.
  intros y Hy. apply Hf. by right.
Qed.

Lemma remove_absent k v : get k v = None -> remove_field k v = (v, false).
Proof. destruct v as [| | | | |m]; try done. cbn. by intros ->. Qed.

(** A step that finds nothing to change. *)
Lemma on_input_stable f v :
  honest f -> (forall x, get "input" v = Some x -> snd (f x) = false) -> on_member "input" f v = (v, false).
Proof.
  intros Hf Hx. destruct v as [| | | | |m]; try done. cbn in *. destruct (assoc "input" m) as [x|] eqn:E; [|done].
  specialize (Hx _ eq_refl). specialize (Hf x Hx). destruct (f x) as [x' b]. cbn in *. subst.
  by rewrite replace_same.
Qed.

Lemma system_role_honest : honest system_role.
Proof. intros v. unfold system_role. by case_bool_decide. Qed.

Lemma roles_stable items :
  Forall codex_item items -> snd (on_items system_role (Arr items)) = false.
Proof.
  intros Hf. cbn. apply existsb_false. intros x Hx. rewrite Forall_forall in Hf.
  destruct (Hf x) as [Hr _]; [by apply list_elem_of_In|]. unfold system_role.
  by rewrite bool_decide_eq_false_2.
Qed.

Lemma breakpoints_stable items :
  Forall codex_item items ->
  snd (on_items (on_member "content" (on_items (remove_field "prompt_cache_breakpoint"))) (Arr items)) = false.
Proof.
  intros Hf. cbn. apply existsb_false. intros x Hx. rewrite Forall_forall in Hf.
  destruct (Hf x) as (_ & Hp & _); [by apply list_elem_of_In|].
  destruct x as [| | | | |m]; try done. cbn in *. destruct (assoc "content" m) as [[| | | |l|]|]; try done.
  cbn in *. apply existsb_false. intros p Hin. by rewrite remove_absent by apply (Hp p Hin).
Qed.

(** ** The contract *)

(** What the Codex back end asks of a request. *)
Record codex_contract (websocket : bool) (v : Value) : Prop := {
  cc_object : is_object v = true;
  cc_stream : is_bool true (get "stream" v) = true;
  cc_instructions : not_null (get "instructions" v) = true;
  cc_store : is_bool false (get "store" v) = true;
  cc_removed k : In k codex_removed -> get k v = None;
  cc_include : is_include (get "include" v) = true;
  cc_parallel : is_bool true (get "parallel_tool_calls" v) = true;
  cc_http k : websocket = false -> In k ["previous_response_id"; "stream_options"] -> get k v = None;
  cc_input : get_str "input" v = None;
  cc_tier : from_option (fun x => as_str x = Some "priority") True (get "service_tier" v);
  cc_items items : get "input" v = Some (Arr items) -> Forall codex_item items;
}.

(** The members the profile may touch. *)
Definition codex_owned : list string :=
  ["stream"; "instructions"; "store"; "include"; "parallel_tool_calls"; "previous_response_id";
   "stream_options"; "input"; "service_tier"] ++ codex_removed.

Lemma get_ensure k k' ok x v :
  is_object v = true ->
  get k' (fst (ensure_member k ok x v))
  = if String.eqb k' k then (if ok (get k v) then get k v else Some x) else get k' v.
Proof.
  intros Hv. unfold ensure_member. destruct (String.eqb_spec k' k) as [->|Hne].
  - destruct (ok (get k v)); cbn; [done|]. by rewrite get_set_eq.
  - destruct (ok (get k v)); cbn; [done|]. by rewrite get_set_ne.
Qed.

Lemma is_object_ensure k ok x v : is_object v = true -> is_object (fst (ensure_member k ok x v)) = true.
Proof. intros Hv. by apply (only_ensure k ok x v Hv). Qed.

Create HintDb codex.
#[export] Hint Resolve is_object_ensure is_object_removes is_object_remove : codex.

Lemma only_also ks ks' f g :
  only ks f -> only ks' g -> only (ks ++ ks') (fun v => also g (f v)).
Proof.
  intros Hf Hg v Hv. rewrite fst_also. destruct (Hf v Hv) as [Ho Hk]. destruct (Hg _ Ho) as [Ho' Hk'].
  split; [done|]. intros k Hn. rewrite existsb_app in Hn. apply orb_false_iff in Hn as [Hn Hn'].
  by rewrite Hk', Hk.
Qed.

Lemma only_weaken ks ks' f :
  (forall k, In k ks -> In k ks') -> only ks f -> only ks' f.
Proof.
  intros Hsub Hf v Hv. destruct (Hf v Hv) as [Ho Hk]. split; [done|]. intros k Hn. apply Hk.
  apply not_true_iff_false. rewrite existsb_exists. intros (x & Hx & ->%String.eqb_eq).
  apply not_true_iff_false in Hn. apply Hn, existsb_exists. exists x. split; [by apply Hsub|apply String.eqb_refl].
Qed.

Definition object_owned : list string :=
  ["stream"; "instructions"; "store"] ++ codex_removed
  ++ ["include"; "parallel_tool_calls"; "previous_response_id"; "stream_options"].

Lemma only_prepare_object websocket : only object_owned (prepare_object websocket).
Proof.
  set (f1 := fun v => also (ensure_member "instructions" not_null (Str ""))
                        (ensure_member "stream" (is_bool true) (Bool true) v)).
  assert (only ["stream"; "instructions"] f1) as H1 by (apply (only_also ["stream"]); apply only_ensure).
  set (f2 := fun v => also (ensure_member "store" (is_bool false) (Bool false)) (f1 v)).
  assert (only ["stream"; "instructions"; "store"] f2) as H2
    by (apply (only_also ["stream"; "instructions"]); [done|apply only_ensure]).
  set (f3 := fun v => also (remove_fields codex_removed) (f2 v)).
  assert (only (["stream"; "instructions"; "store"] ++ codex_removed) f3) as H3
    by (apply only_also; [done|apply only_removes]).
  set (f4 := fun v => also (ensure_member "include" is_include include_value) (f3 v)).
  assert (only _ f4) as H4 by (apply only_also; [exact H3|apply (only_ensure "include")]).
  set (f5 := fun v => also (ensure_member "parallel_tool_calls" (is_bool true) (Bool true)) (f4 v)).
  assert (only _ f5) as H5 by (apply only_also; [exact H4|apply (only_ensure "parallel_tool_calls")]).
  destruct websocket.
  - eapply only_weaken; [|exact H5]. intros k. unfold object_owned. cbn. intuition.
  - assert (only _ (fun v => also (remove_fields ["previous_response_id"; "stream_options"]) (f5 v))) as H6
      by (apply only_also; [exact H5|apply only_removes]).
    eapply only_weaken; [|exact H6]. intros k. unfold object_owned. cbn. intuition.
Qed.

(** The value of a member after the steps, the last one first. *)
Ltac read_step :=
  repeat (first [rewrite get_ensure by auto 10 with codex | rewrite get_remove_fields]; cbn).

#[local] Arguments is_bool : simpl never.
#[local] Arguments not_null : simpl never.
#[local] Arguments is_include : simpl never.

Lemma prepare_object_spec websocket v :
  is_object v = true ->
  let v' := fst (prepare_object websocket v) in
  is_bool true (get "stream" v') = true
  /\ not_null (get "instructions" v') = true
  /\ is_bool false (get "store" v') = true
  /\ is_include (get "include" v') = true
  /\ is_bool true (get "parallel_tool_calls" v') = true
  /\ (forall k, In k codex_removed -> get k v' = None)
  /\ (forall k, websocket = false -> In k ["previous_response_id"; "stream_options"] -> get k v' = None).
Proof.
  intros Hv. cbv zeta.
  assert (exists v6, is_object v6 = true
            /\ fst (prepare_object websocket v)
               = (if websocket then v6 else fst (remove_fields ["previous_response_id"; "stream_options"] v6))
            /\ forall k, get k v6 = get k
                 (fst (ensure_member "parallel_tool_calls" (is_bool true) (Bool true)
                 (fst (ensure_member "include" is_include include_value
                 (fst (remove_fields codex_removed
                 (fst (ensure_member "store" (is_bool false) (Bool false)
                 (fst (ensure_member "instructions" not_null (Str "")
                 (fst (ensure_member "stream" (is_bool true) (Bool true) v)))))))))))))
    as (v6 & Ho & E & Hg).
  { eexists. split; [|split; [unfold prepare_object; cbv zeta; destruct websocket; rewrite !fst_also; reflexivity|done]].
    auto 10 with codex. }
  assert (forall k, existsb (String.eqb k) ["previous_response_id"; "stream_options"] = false ->
            get k (fst (prepare_object websocket v)) = get k v6) as Hk.
  { intros k Hn. rewrite E. destruct websocket; [done|]. by rewrite get_remove_fields, Hn. }
  split_and!.
  - rewrite Hk, Hg by done. read_step. by destruct (is_bool true (get "stream" v)) eqn:Eb.
  - rewrite Hk, Hg by done. read_step. by destruct (not_null (get "instructions" v)) eqn:Eb.
  - rewrite Hk, Hg by done. read_step. by destruct (is_bool false (get "store" v)) eqn:Eb.
  - rewrite Hk, Hg by done. read_step. by destruct (is_include (get "include" v)) eqn:Eb.
  - rewrite Hk, Hg by done. read_step. by destruct (is_bool true (get "parallel_tool_calls" v)) eqn:Eb.
  - intros k Hin. rewrite Hk, Hg; [|cbn in Hin; intuition (subst; reflexivity)].
    cbn in Hin. intuition (subst; read_step; reflexivity).
  - intros k -> Hin. rewrite E, get_remove_fields. cbn in Hin. intuition (subst; reflexivity).
Qed.

Section Contract.
Context `{C : OAuthCrates} `{T : TextCrates} {L : TextCratesLaws T}.

Lemma only_ids : only ["input"] normalize_codex_input_ids.
Proof. apply only_on_member. Qed.

Lemma fst_prepare_body websocket m :
  fst (prepare_body (Obj m) websocket)
  = fst (normalize_codex_input_ids (fst (strip_prompt_cache_breakpoints (fst (normalize_codex_service_tier
      (fst (normalize_codex_system_roles (fst (normalize_codex_input_shape
        (fst (prepare_object websocket (Obj m)))))))))))).
Proof. unfold prepare_body. cbv zeta. by rewrite !fst_also. Qed.

(** The input after the profile, from the input it is given. *)
Lemma shaped_input v :
  is_object v = true -> get_str "input" (fst (normalize_codex_input_shape v)) = None.
Proof.
  intros Hv. unfold normalize_codex_input_shape. destruct (get_str "input" v) eqn:E; cbn [fst]; [|done].
  unfold get_str. by rewrite get_set_eq.
Qed.

Lemma items_conform l :
  Forall codex_item
    (fst (shorten_items
       (map (fun x => fst (on_member "content" (on_items (remove_field "prompt_cache_breakpoint")) x))
          (map (fun x => fst (system_role x)) l)) false ∅)).
Proof.
  apply shorten_items_codex; [apply map_Forall_empty|]. rewrite map_map.
  apply Forall_forall. intros x (y & <- & _)%list_elem_of_In%in_map_iff.
  destruct (system_role_spec y) as [Hr Ho]. set (z := fst (system_role y)) in *.
  destruct (breakpoints_spec z) as [Hb Hob]. split; [|done].
  unfold get_str in *. by rewrite Hob.
Qed.

Lemma prepared_input v :
  get_str "input" v = None ->
  let v' := fst (normalize_codex_input_ids (fst (strip_prompt_cache_breakpoints
              (fst (normalize_codex_service_tier (fst (normalize_codex_system_roles v))))))) in
  is_object v = true ->
  get_str "input" v' = None /\ forall items, get "input" v' = Some (Arr items) -> Forall codex_item items.
Proof.
  intros Hs v' Hv. unfold v'.
  assert (is_object (fst (normalize_codex_system_roles v)) = true) as H1 by apply (only_on_member "input" _ v Hv).
  destruct (only_tier _ H1) as [H2 Ht].
  unfold normalize_codex_input_ids, strip_prompt_cache_breakpoints, get_str in *.
  rewrite !get_on_member, Ht by done. unfold normalize_codex_system_roles.
  rewrite get_on_member, String.eqb_refl. destruct (get "input" v) as [[| | | |l|]|]; try done.
  cbn [fmap option_fmap option_map on_items fst shorten_array as_str mbind option_bind].
  pose proof (items_conform l) as Hc. destruct (shorten_items _ false ∅) as [items' b] eqn:E. cbn.
  split; [done|]. intros items [= <-]. exact Hc.
Qed.

Lemma prepared_tier v :
  from_option (fun x => as_str x = Some "priority") True
    (get "service_tier" (fst (normalize_codex_service_tier v))).
Proof.
  unfold normalize_codex_service_tier. destruct (get "service_tier" v) as [x|] eqn:E; [|cbn [fst]; by rewrite E].
  case_bool_decide; [cbn [fst]; by rewrite E|]. by rewrite get_remove_field, String.eqb_refl.
Qed.

Lemma also_stable g v : g v = (v, false) -> also g (v, false) = (v, false).
Proof. unfold also. cbn. by intros ->. Qed.

Lemma ensure_stable k ok x v : ok (get k v) = true -> ensure_member k ok x v = (v, false).
Proof. unfold ensure_member. by intros ->. Qed.

Lemma contract_stable websocket v : codex_contract websocket v -> prepare_body v websocket = (v, false).
Proof.
  intros [Ho Hs Hi Hst Hr Hin Hp Hh Hinp Ht Hit]. destruct v as [| | | | |m]; try discriminate Ho.
  unfold prepare_body, prepare_object. cbv zeta.
  assert (forall f, honest f -> (forall items, Forall codex_item items -> snd (f (Arr items)) = false) ->
            (forall x, (forall l, x <> Arr l) -> snd (f x) = false) ->
            on_member "input" f (Obj m) = (Obj m, false)) as Hon.
  { intros f Hf Hl Hx. apply on_input_stable; [done|]. intros x Ex.
    destruct x as [| | | |l|]; try (apply Hx; congruence). apply Hl, (Hit _ Ex). }
  assert (forall vb, vb = (Obj m, false) ->
            also normalize_codex_input_ids (also strip_prompt_cache_breakpoints
              (also normalize_codex_service_tier (also normalize_codex_system_roles
                 (also normalize_codex_input_shape vb)))) = (Obj m, false)) as Hrest.
  { intros vb ->.
    rewrite (also_stable normalize_codex_input_shape) by (unfold normalize_codex_input_shape; by rewrite Hinp).
    rewrite (also_stable normalize_codex_system_roles).
    2: { apply Hon; [apply on_items_honest, system_role_honest|apply roles_stable|].
         intros x Hx. destruct x as [| | | |l|]; try done. by destruct (Hx l). }
    rewrite (also_stable normalize_codex_service_tier).
    2: { unfold normalize_codex_service_tier. destruct (get "service_tier" (Obj m)); [|done]. cbn in Ht.
         by rewrite bool_decide_eq_true_2. }
    rewrite (also_stable strip_prompt_cache_breakpoints).
    2: { apply Hon; [apply on_items_honest, on_member_honest, on_items_honest, remove_field_honest
                    |apply breakpoints_stable|].
         intros x Hx. destruct x as [| | | |l|]; try done. by destruct (Hx l). }
    apply also_stable. unfold normalize_codex_input_ids. cbn.
    destruct (assoc "input" m) as [x|] eqn:E; [|done].
    destruct x as [| | | |l|]; cbn; try (by rewrite replace_same).
    rewrite shorten_items_stable by (by apply Hit). by rewrite replace_same. }
  apply Hrest.
  rewrite ensure_stable by done.
  rewrite (also_stable (ensure_member "instructions" _ _)) by (by apply ensure_stable).
  rewrite (also_stable (ensure_member "store" _ _)) by (by apply ensure_stable).
  rewrite (also_stable (remove_fields _)) by (by apply remove_fields_absent).
  rewrite (also_stable (ensure_member "include" _ _)) by (by apply ensure_stable).
  rewrite (also_stable (ensure_member "parallel_tool_calls" _ _)) by (by apply ensure_stable).
  destruct websocket; [done|]. apply also_stable, remove_fields_absent. intros k Hk. by apply Hh.
Qed.

(** What only the WebSocket understands. *)
Definition socket_only : list string := ["previous_response_id"; "stream_options"].

Lemma object_stable v : codex_contract true v -> fst (prepare_object true v) = v.
Proof.
  intros [Ho Hs Hi Hst Hr Hin Hp _ _ _ _]. unfold prepare_object. cbv zeta.
  rewrite (ensure_stable "stream") by done.
  rewrite (also_stable (ensure_member "instructions" _ _)) by (by apply ensure_stable).
  rewrite (also_stable (ensure_member "store" _ _)) by (by apply ensure_stable).
  rewrite (also_stable (remove_fields _)) by (by apply remove_fields_absent).
  rewrite (also_stable (ensure_member "include" _ _)) by (by apply ensure_stable).
  by rewrite (also_stable (ensure_member "parallel_tool_calls" _ _)) by (by apply ensure_stable).
Qed.

Lemma contract_over_http v :
  codex_contract true v -> codex_contract false (fst (remove_fields socket_only v)).
Proof.
  intros [Ho Hs Hi Hst Hr Hin Hp _ Hinp Ht Hit].
  assert (forall k, existsb (String.eqb k) socket_only = false -> get k (fst (remove_fields socket_only v)) = get k v) as Hg
    by (intros k Hk; by rewrite get_remove_fields, Hk).
  constructor; try (rewrite Hg by done; done).
  - by apply is_object_removes.
  - intros k Hk. rewrite get_remove_fields. destruct (existsb _ _); [done|by apply Hr].
  - intros k _ Hk. rewrite get_remove_fields. destruct (existsb _ socket_only) eqn:E; [done|].
    apply not_true_iff_false in E. destruct E. apply existsb_exists. exists k. by rewrite String.eqb_refl.
  - unfold get_str. by rewrite Hg.
Qed.

(** The retry over HTTP of a body that was prepared for the WebSocket. *)
Lemma prepared_again_for_http v :
  codex_contract true v -> fst (prepare_body v false) = fst (remove_fields socket_only v).
Proof.
  intros Hc. pose proof (contract_over_http v Hc) as Hc'.
  pose proof (contract_stable false _ Hc') as Hs. apply (f_equal fst) in Hs. cbn [fst] in Hs.
  set (v' := fst (remove_fields socket_only v)) in *.
  assert (forall x, fst (prepare_object false x) = fst (remove_fields socket_only (fst (prepare_object true x)))) as Hh.
  { intros x. unfold prepare_object. cbv zeta. apply fst_also. }
  assert (codex_contract true v') as Hc2 by (destruct Hc'; by constructor).
  assert (fst (prepare_object false v) = fst (prepare_object false v')) as E.
  { rewrite !Hh, (object_stable v), (object_stable v') by done. fold v'.
    rewrite remove_fields_absent; [done|]. intros k Hk. by apply (cc_http _ _ Hc'). }
  destruct Hc as [Ho _ _ _ _ _ _ _ _ _ _]. destruct Hc' as [Ho' _ _ _ _ _ _ _ _ _ _].
  destruct v as [| | | | |m]; try discriminate Ho. destruct v' as [| | | | |m']; try discriminate Ho'.
  rewrite fst_prepare_body in Hs |- *. by rewrite E.
Qed.

End Contract.

(** ** A request of a client that knows nothing of Codex *)

Definition plain_crates : OAuthCrates := {|
  sha256 s := s; url_safe_encode s := s; url_safe_decode s := Some s;
  form_urlencode _ := ""; status_phrase _ := ""; decode_error s := s;
|}.

Definition client_request : Value :=
  obj [("model", Str "gpt-5"); ("temperature", json_u64 1); ("service_tier", Str "flex");
       ("input", Arr [obj [("type", Str "message"); ("role", Str "system");
                           ("content", Arr [obj [("type", Str "input_text"); ("text", Str "hi");
                              ("prompt_cache_breakpoint", obj [])]])];
                      obj [("type", Str "function_call");
                           ("call_id", Str "call_0123456789012345678901234567890123456789012345678901234567890123456789")]])].

