(* ===== verification/AnthropicOAuth.v ===== *)
(** * AnthropicOAuth: the egress profile of Anthropic OAuth credentials

    [crates/server/src/anthropic_oauth.rs]: the default display of thinking,
    the signature of a billing header that is already in the system prompt,
    and the headers of the profile.  The hash is of the class [AnthropicCrates]. *)

From stdpp Require Import base option list gmap strings.
From Stdlib Require Import ZArith Lia Ascii.
From S2P Require Import Prelude RustStr Http F64 Json JsonBody Protocol Targets Ir.
From S2P Require Import ProviderConfig OAuthTokens Providers CodexOAuth.

Local Open Scope string_scope.
Local Open Scope list_scope.

Class AnthropicCrates := {
  (** [XxHash64::oneshot(seed, bytes)] *)
  xxhash64 : Z -> string -> Z;
  (** the [Display] text of the error of [HeaderValue::to_str] *)
  to_str_error : string;
}.

Definition ANTHROPIC_OAUTH_BETAS : list string :=
  ["claude-code-20250219"; "oauth-2025-04-20"; "interleaved-thinking-2025-05-14"].
Definition CCH_SEED : Z := 7949543194721944350.

Definition is_enabled (t : RoutingTarget) (egress_suite : ProtocolSuite) : bool :=
  match egress_suite, oauth t with
  | AnthropicMessages, Some o =>
      match egress_profile o with AnthropicOAuth => true | _ => false end
  | _, _ => false
  end.

(** ** The body *)

Definition thinking_display (thinking : Value) : Value * bool :=
  match thinking, get_str "type" thinking with
  | Obj m, Some kind =>
      if negb (existsb (String.eqb kind) ["enabled"; "adaptive"; "auto"]) || is_some (assoc "display" m)
      then (thinking, false)
      else (Obj (Json.insert "display" (Str "summarized") m), true)
  | _, _ => (thinking, false)
  end.

Definition ensure_thinking_display : Value -> Value * bool := on_member "thinking" thinking_display.

(** [value.pointer("/system/0/text")], and the assignment through it. *)
Definition first_element (v : Value) : option Value :=
  match v with
  | Arr l => head l
  | Obj m => assoc "0" m
  | _ => None
  end.

Definition system_text (body : Value) : option string :=
  (get "system" body ≫= first_element) ≫= get_str "text".

Definition on_first (f : Value -> Value * bool) (v : Value) : Value * bool :=
  match v with
  | Arr (x :: l) => let '(x', b) := f x in (Arr (x' :: l), b)
  | Obj _ => on_member "0" f v
  | _ => (v, false)
  end.

Definition set_system_text (text : string) (body : Value) : Value :=
  fst (on_member "system" (on_first (on_member "text" (fun _ => (Str text, true)))) body).

(** The header with a zero hash, when it has the form [cch=hhhhh;]. *)
Definition zero_cch (text : string) : option string :=
  at_ ← find "cch=" text;
  let start := (at_ + 4)%nat in
  let value := take_bytes 5 (drop_bytes start text) in
  let rest := drop_bytes (start + 5) text in
  if Nat.eqb (String.length value) 5 && all_chars is_ascii_hexdigit value && starts_with ";" rest
  then Some (take_bytes start text +:+ "00000" +:+ rest) else None.

(** [format!("{:05x}", n)] *)
Definition hex5 (n : Z) : string :=
  let digit i := hex_digit_of (Z.land (Z.shiftr n (4 * i)) 15) in
  String (digit 4%Z) (String (digit 3%Z) (String (digit 2%Z) (String (digit 1%Z)
    (String (digit 0%Z) EmptyString)))).

(** [s.replacen(p, q, 1)] *)
Definition replace_first (p q s : string) : string :=
  match find p s with
  | Some i => take_bytes i s +:+ q +:+ drop_bytes (i + String.length p) s
  | None => s
  end.

Section Body.
Context `{SerdeJson} `{AnthropicCrates}.

Definition sign_existing_billing_header (body : Value) : Value * bool :=
  match system_text body with
  | None => (body, false)
  | Some text =>
      if negb (starts_with "x-anthropic-billing-header:" text) then (body, false)
      else match zero_cch text with
           | None => (body, false)
           | Some unsigned =>
               let unsigned_body := set_system_text unsigned body in
               let cch := hex5 (Z.land (xxhash64 CCH_SEED (to_string unsigned_body)) 1048575) in
               (set_system_text (replace_first "cch=00000;" ("cch=" +:+ cch +:+ ";") unsigned) unsigned_body,
                true)
           end
  end.

Definition prepare_body (body : Value) : Value * bool :=
  also sign_existing_billing_header (ensure_thinking_display body).
End Body.

(** ** The headers *)

Section Headers.
Context `{HttpHeaders} `{OAuthCrates} `{TextCrates} `{AnthropicCrates}.

(** [seen.insert(beta)] and [betas.push(beta)] *)
Definition push_beta (betas : list string) (beta : string) : list string :=
  if existsb (String.eqb beta) betas then betas else betas ++ [beta].

Definition header_betas (value : string) : list string :=
  List.filter (fun b => negb (is_empty b)) (map trim (split ","%char value)).

Definition merge_required_betas (hs : HeaderMap) : result string HeaderMap :=
  caller ← match hs !! "anthropic-beta" with
           | None => Ok []
           | Some v => match to_str v with
                       | Some s => Ok (header_betas s)
                       | None => Err ("invalid Anthropic beta header: " +:+ to_str_error)
                       end
           end;
  let betas := fold_left push_beta ANTHROPIC_OAUTH_BETAS (fold_left push_beta caller []) in
  match header_value_of (RustStr.join "," betas) with
  | inl e => Err ("invalid merged Anthropic beta header: " +:+ e)
  | inr v => Ok (<["anthropic-beta" := v]> hs)
  end.

Definition stable_session_id (provider_id : string) : string :=
  digest_uuid ("tiygate/anthropic-oauth-session/" +:+ provider_id).

Definition static_headers (hs : HeaderMap) : HeaderMap :=
  <["x-stainless-timeout" := "600"]> (<["x-stainless-lang" := "js"]>
    (<["x-stainless-runtime" := "node"]> (<["x-stainless-retry-count" := "0"]>
      (<["x-app" := "cli"]> (<["anthropic-version" := "2023-06-01"]> hs))))).

Definition apply_headers (t : RoutingTarget) (hs : HeaderMap) (is_stream : bool) (request_id : string)
    : result string HeaderMap :=
  hs ← merge_required_betas hs;
  hs ← match header_value_of (stable_session_id (provider_id t)) with
       | inl e => Err ("invalid Anthropic OAuth session header: " +:+ e)
       | inr v => Ok (<["x-claude-code-session-id" := v]> (static_headers hs))
       end;
  hs ← match header_value_of request_id with
       | inl e => Err ("invalid Anthropic OAuth request id: " +:+ e)
       | inr v => Ok (<["x-client-request-id" := v]> hs)
       end;
  Ok (<["accept-encoding" := "identity"]>
        (<["accept" := if is_stream then "text/event-stream" else "application/json"]> hs)).
End Headers.

(** ** Lemmas *)

Lemma thinking_display_honest : honest thinking_display.
Proof.
  intros v. unfold thinking_display. destruct v as [| | | | |m]; try done.
  destruct (get_str "type" (Obj m)); [|done]. by destruct (_ || _).
Qed.

Lemma sign_honest `{SerdeJson} `{AnthropicCrates} : honest sign_existing_billing_header.
Proof.
  intros v. unfold sign_existing_billing_header. destruct (system_text v); [|done].
  destruct (negb _); [done|]. by destruct (zero_cch _).
Qed.

Lemma prepare_honest `{SerdeJson} `{AnthropicCrates} : honest prepare_body.
Proof.
  intros v. unfold prepare_body. apply also_honest; [|apply sign_honest].
  apply on_member_honest, thinking_display_honest.
Qed.
