(* ===== verification/Codecs.v ===== *)
(** * Codecs: the four chat codecs behind one interface

    [get_egress_codec] and [build_stream_transcode] of
    [crates/server/src/ingress/executors.rs]: the trait objects
    [Box<dyn EndpointCodec>], [Box<dyn StreamDecoder>] and
    [Box<dyn StreamEncoder>] are a suite and two sum types, and the methods of
    the traits dispatch to the codec of the suite. *)

From stdpp Require Import base option list gmap strings.
From Stdlib Require Import ZArith Lia Ascii.
From S2P Require Import Prelude RustStr F64 Json Protocol Classify Errors Ir Lossy Streaming ChatRequest ChatResponse ChatStream Messages MessagesStream Gemini GeminiStream ResponsesRequest ResponsesResponse ResponsesStream.

Local Open Scope string_scope.
Local Open Scope list_scope.

(** A body with the headers its protocol asks for. *)
Definition Wire : Type := Value * list (string * string).

Section Codecs.
Context `{SerdeJson} `{Lowercase}.

(** ** [EndpointCodec] *)

Definition decode_request (s : ProtocolSuite) (body : Value) : result Error IrRequest :=
  match s with
  | OpenAiCompatible => ChatRequest.decode_request body
  | AnthropicMessages => Messages.decode_request body
  | GoogleGemini => Gemini.decode_request body
  | OpenAiResponses => ResponsesRequest.decode_request body
  end.

Definition encode_request (s : ProtocolSuite) (ir : IrRequest) : run (result Error Wire) :=
  match s with
  | OpenAiCompatible => Ok (ChatRequest.encode_request ir)
  | AnthropicMessages => Messages.encode_request ir
  | GoogleGemini => Gemini.encode_request ir
  | OpenAiResponses => Ok (ResponsesRequest.encode_request ir)
  end.

Definition decode_response (s : ProtocolSuite) (body : Value) : result Error IrResponse :=
  match s with
  | OpenAiCompatible => ChatResponse.decode_response body
  | AnthropicMessages => Messages.decode_response body
  | GoogleGemini => Gemini.decode_response body
  | OpenAiResponses => ResponsesResponse.decode_response body
  end.

Definition encode_response (s : ProtocolSuite) (ir : IrResponse) : result Error Value :=
  match s with
  | OpenAiCompatible => ChatResponse.encode_response ir
  | AnthropicMessages => Messages.encode_response ir
  | GoogleGemini => Gemini.encode_response ir
  | OpenAiResponses => ResponsesResponse.encode_response ir
  end.

(** [get_egress_codec]: every suite has a codec. *)
Definition get_egress_codec (protocol : ProtocolEndpoint) : option ProtocolSuite :=
  Some (suite protocol).

(** ** The objects of a stream *)

Inductive AnyEncoder :=
| ChatEncoder (e : ChatStream.Encoder)
| MessagesEncoder (e : MessagesStream.Encoder)
| GeminiEncoder
| ResponsesEncoder (e : ResponsesStream.Encoder).

Inductive AnyDecoder :=
| ChatDecoder (d : ChatStream.Decoder)
| MessagesDecoder (d : MessagesStream.Decoder)
| GeminiDecoder (d : GeminiStream.Decoder)
| ResponsesDecoder (d : ResponsesStream.Decoder).

Definition stream_encoder (s : ProtocolSuite) : AnyEncoder :=
  match s with
  | OpenAiCompatible => ChatEncoder ChatStream.Encoder_new
  | AnthropicMessages => MessagesEncoder MessagesStream.Encoder_new
  | GoogleGemini => GeminiEncoder
  | OpenAiResponses => ResponsesEncoder ResponsesStream.Encoder_new
  end.

Definition stream_decoder (s : ProtocolSuite) : AnyDecoder :=
  match s with
  | OpenAiCompatible => ChatDecoder ChatStream.Decoder_new
  | AnthropicMessages => MessagesDecoder MessagesStream.Decoder_new
  | GoogleGemini => GeminiDecoder GeminiStream.Decoder_new
  | OpenAiResponses => ResponsesDecoder ResponsesStream.Decoder_new
  end.

Definition any_encode_part (e : AnyEncoder) (part : StreamPart) : string * AnyEncoder :=
  match e with
  | ChatEncoder e => let '(out, e) := ChatStream.encode_part e part in (out, ChatEncoder e)
  | MessagesEncoder e => let '(out, e) := MessagesStream.encode_part e part in (out, MessagesEncoder e)
  | GeminiEncoder => (GeminiStream.encode_part part, GeminiEncoder)
  | ResponsesEncoder e => let '(out, e) := ResponsesStream.encode_part e part in (out, ResponsesEncoder e)
  end.

Definition any_encode_error (e : AnyEncoder) (message : string) (c : ErrorClass)
    (code : option string) : string :=
  match e with
  | ChatEncoder _ => ChatStream.encode_error message c code
  | MessagesEncoder _ => MessagesStream.encode_error message c
  | GeminiEncoder => GeminiStream.encode_error message c
  | ResponsesEncoder _ => ResponsesStream.encode_error message c code
  end.

Definition any_encode_done (e : AnyEncoder) : string :=
  match e with
  | ChatEncoder _ => ChatStream.encode_done
  | MessagesEncoder _ => MessagesStream.encode_done
  | GeminiEncoder => GeminiStream.encode_done
  | ResponsesEncoder _ => ResponsesStream.encode_done
  end.

(** A decoder that was fed, in its constructor. *)
Definition fed {D} (wrap : D -> AnyDecoder) (r : run (result Error (list StreamPart) * D))
    : run (result Error (list StreamPart) * AnyDecoder) :=
  '(res, d) ← r; Ok (res, wrap d).

Definition any_feed (d : AnyDecoder) (line : string)
    : run (result Error (list StreamPart) * AnyDecoder) :=
  match d with
  | ChatDecoder d => fed ChatDecoder (ChatStream.feed d line)
  | MessagesDecoder d => fed MessagesDecoder (MessagesStream.feed d line)
  | GeminiDecoder d => fed GeminiDecoder (GeminiStream.feed d line)
  | ResponsesDecoder d => fed ResponsesDecoder (ResponsesStream.feed d line)
  end.

Definition any_finish (d : AnyDecoder) : result Error (list StreamPart) * AnyDecoder :=
  match d with
  | ChatDecoder c => (ChatStream.finish c, d)
  | MessagesDecoder c => (MessagesStream.finish c, d)
  | GeminiDecoder c => let '(parts, c) := GeminiStream.finish c in (Ok parts, GeminiDecoder c)
  | ResponsesDecoder c => (ResponsesStream.finish c, d)
  end.

#[export] Instance any_stream_encoder : StreamEncoder AnyEncoder := {|
  Streaming.encode_part e part := let '(out, e) := any_encode_part e part in Ok (Ok out, e);
  Streaming.encode_error e message c code := Ok (any_encode_error e message c code, e);
  Streaming.encode_done e := Ok (any_encode_done e, e) |}.

#[export] Instance any_stream_decoder : StreamDecoder AnyDecoder := {|
  Streaming.feed := any_feed;
  Streaming.finish d := Ok (any_finish d) |}.
End Codecs.

Definition build_stream_transcode (ingress_protocol egress_protocol : ProtocolEndpoint)
    : option (Transcode AnyDecoder AnyEncoder) :=
  if bool_decide (suite ingress_protocol = suite egress_protocol) then None
  else
    egress_codec ← get_egress_codec egress_protocol;
    ingress_codec ← get_egress_codec ingress_protocol;
    Some {| decoder := stream_decoder egress_codec; encoder := stream_encoder ingress_codec |}.

Lemma transcode_same i e : suite i = suite e -> build_stream_transcode i e = None.
Proof. intros E. unfold build_stream_transcode. by rewrite bool_decide_true. Qed.

Lemma transcode_cross i e :
  suite i <> suite e ->
  build_stream_transcode i e
  = Some {| decoder := stream_decoder (suite e); encoder := stream_encoder (suite i) |}.
Proof. intros E. unfold build_stream_transcode. by rewrite bool_decide_false. Qed.

(** The headers of a body: those of its protocol, no credential among them. *)
Lemma encoded_headers `{SerdeJson} s ir body hs :
  encode_request s ir = Ok (Ok (body, hs)) ->
  hs = [("content-type", "application/json")]
  \/ hs = [("content-type", "application/json"); ("anthropic-version", "2023-06-01")].
Proof.
  destruct s; cbn; unfold ChatRequest.encode_request, Messages.encode_request,
    Gemini.encode_request, ResponsesRequest.encode_request;
    destruct (StructuredOutput.validate_response_format_for_target _ _); try (intros [=]; by left).
  - destruct (Messages.encode_body ir); [intros [=]; by right | done].
  - destruct (Gemini.encode_body ir) as [[]|]; [intros [=]; by left | done | done].
Qed.
