(* ===== verification/UpstreamRequest.v ===== *)
(** * UpstreamRequest: from an intermediate request to the request that is sent

    The first half of the four chat executors of
    [crates/server/src/ingress/executors.rs] (lines 487 to 645 of
    [execute_upstream], which the other three repeat): the body and its
    changes, the headers before and after authentication, the URL, and the
    request builder of [reqwest] with [inject_trace] and [finalize_egress] of
    [crates/server/src/ingress/observability.rs]. *)

From stdpp Require Import base option list gmap strings pretty.
From Stdlib Require Import ZArith Lia Ascii.
From S2P Require Import Prelude RustStr Http F64 Json JsonBody Protocol Classify Errors Targets Ir HeaderForward Lossy Codecs.
From S2P Require Import ProviderConfig OAuthTokens Providers EgressBody CodexOAuth AnthropicOAuth Egress.

Local Open Scope string_scope.
Local Open Scope list_scope.

(** ** Steps that may fail or panic *)

Definition step (A : Type) : Type := run (result AppError A).

Definition fails {A} (e : AppError) : step A := Ok (Err e).
Definition yields {A} (a : A) : step A := Ok (Ok a).

Definition step_bind {A B} (m : step A) (k : A -> step B) : step B :=
  match m with
  | Ok (Ok a) => k a
  | Ok (Err e) => Ok (Err e)
  | Err p => Err p
  end.

Declare Scope step_scope.
Delimit Scope step_scope with step.
Notation "x <-- m ; k" := (step_bind m (fun x => k%step))
  (at level 20, m at level 100, k at level 200, right associativity) : step_scope.
Notation "' p <-- m ; k" := (step_bind m (fun p => k%step))
  (at level 20, p pattern, m at level 100, k at level 200, right associativity) : step_scope.

(** A step that only panics, in front of one that may fail. *)
Definition run_bind {A B} (m : run A) (k : A -> step B) : step B :=
  match m with Ok a => k a | Err p => Err p end.
Notation "x <-r m ; k" := (run_bind m (fun x => k%step))
  (at level 20, m at level 100, k at level 200, right associativity) : step_scope.
Notation "' p <-r m ; k" := (run_bind m (fun p => k%step))
  (at level 20, p pattern, m at level 100, k at level 200, right associativity) : step_scope.

(** A step without panics. *)
Definition pure_step {A} (r : result AppError A) : step A := Ok r.

Lemma step_bind_ok {A B} (m : step A) (k : A -> step B) b :
  step_bind m k = Ok (Ok b) -> exists a, m = Ok (Ok a) /\ k a = Ok (Ok b).
Proof. destruct m as [[a|e]|p]; try done. eauto. Qed.

(** ** What a call of an executor is given *)

(** The settings of [state.tunables()] the executors read, in seconds. *)
Record Tunables := {
  header_policy : HeaderForwardPolicy;
  upstream_nonstream_timeout_secs : Z;
  upstream_ttfb_timeout_secs : Z;
  upstream_stream_idle_timeout_secs : Z;
  upstream_stream_total_timeout_secs : Z;
}.

(** The arguments of an executor.  [codec] is the suite of the codec it is
    called with, [now_v7] what [Uuid::now_v7] gives when the headers are made. *)
Record Call := {
  tunables : Tunables;
  codec : ProtocolSuite;
  call_ingress : ProtocolEndpoint;
  ir_request : IrRequest;
  target : RoutingTarget;
  call_stream : bool;
  raw_passthrough_body : option string;
  traceparent : string;
  call_request_id : string;
  client_headers : Headers;
  caller_key_id : string;
  now_v7 : string;
}.

Definition call_egress (c : Call) : ProtocolEndpoint := api_protocol (target c).
Definition egress_suite (c : Call) : ProtocolSuite := suite (call_egress c).
Definition is_same_protocol (c : Call) : bool :=
  bool_decide (suite (call_ingress c) = egress_suite c).
Definition is_pass_through (c : Call) : bool :=
  is_some (raw_passthrough_body c) && is_same_protocol c.

(** ** The body *)

Section Body.
Local Open Scope step_scope.
Context `{SerdeJson} `{Lowercase} `{OAuthCrates} `{TextCrates} `{CodexCrates} `{AnthropicCrates}
        `{UrlHost}.

Definition encode_failed (e : Protocol.Error) : AppError :=
  AppError.new 500 ("Encode error: " +:+ error_to_string e).

Definition encoded (c : Call) : step Wire :=
  r <-r encode_request (codec c) (ir_request c);
  match r with Ok w => yields w | Err e => fails (encode_failed e) end.

(** [encode_cross_protocol]: the gate of [Lossy] in front of the encoder of
    the target, which may panic. *)
Definition encode_cross (c : Call) : step Wire :=
  m <-- pure_step (encode_cross_protocol (fun s ir => Ok (encode_request s ir)) (codec c)
                     (call_egress c) (ir_request c));
  r <-r m; match r with Ok w => yields w | Err e => fails (encode_failed e) end.

Definition initial_wire (c : Call) : step Wire :=
  match raw_passthrough_body c with
  | Some raw =>
      if is_same_protocol c then
        match from_str raw with
        | Some v =>
            r <-r encode_request (codec c) (ir_request c);
            yields (v, match r with Ok (_, hs) => hs | Err _ => [] end)
        | None => fails (AppError.new 500 ("PassThrough: invalid raw body JSON: " +:+ from_str_error raw))
        end
      else encode_cross c
  | None => if is_same_protocol c then encoded c else encode_cross c
  end.

(** What [prepare_codex_egress_body] returns besides the body. *)
Record CodexBody := {
  profile_enabled : bool;
  websocket : bool;
  body_changed : bool;
  session_key : option string;
}.

Definition codex_off : CodexBody :=
  {| profile_enabled := false; websocket := false; body_changed := false; session_key := None |}.

Definition prepare_codex_egress_body (c : Call) (body : Value) : step (Value * CodexBody) :=
  if CodexOAuth.is_enabled (target c) (egress_suite c) then
    let websocket := uses_websocket (target c) in
    let '(body, changed) := CodexOAuth.prepare_body body websocket in
    _ <-- pure_step (validate_codex_tool_names body);
    let '(body, changed2) := normalize_reasoning_and_ids body (ir_request c) in
    '(body, changed3) <-r normalize_parallel_tool_calls body (client_headers c);
    let key := claude_prompt_cache_key (call_ingress c) (ir_request c) (client_headers c)
                 (Targets.model_id (target c)) in
    '(body, changed4) <-r (match key with
                         | Some k => set_prompt_cache_key body k
                         | None => Ok (body, false)
                         end);
    yields (body, {| profile_enabled := true; websocket := websocket;
                     body_changed := changed || changed2 || changed3 || changed4;
                     session_key := key |})
  else yields (body, codex_off).

(** The prepared body, the headers of the codec, and the profiles in force. *)
Record Prepared := {
  upstream_body : Value;
  codec_headers : HeaderMap;
  body_mutated : bool;
  codex : CodexBody;
  anthropic_profile : bool;
}.

Definition capability_error (message : string) : AppError :=
  AppError.with_class (AppError.new 400 message) LossyOrCapability.

Definition uses_anthropic_oauth_egress_profile (c : Call) : bool :=
  AnthropicOAuth.is_enabled (target c) (egress_suite c).

Definition prepare (c : Call) : step Prepared :=
  '(body, hs) <-- initial_wire c;
  let '(body, m1) := override_model_in_body body (Targets.model_id (target c)) in
  r <-r prepare_provider_request_body body (target c) (egress_suite c) (caller_key_id c);
  '(body, m2) <-- pure_step (match r with Ok x => Ok x | Err message => Err (capability_error message) end);
  '(body, cx) <-- prepare_codex_egress_body c body;
  let anthropic := uses_anthropic_oauth_egress_profile c in
  let '(body, m3) := if anthropic then AnthropicOAuth.prepare_body body else (body, false) in
  yields {| upstream_body := body; codec_headers := list_to_map hs;
            body_mutated := m1 || m2 || body_changed cx || m3; codex := cx;
            anthropic_profile := anthropic |}.

(** [pass_through_verbatim] *)
Definition verbatim (c : Call) (p : Prepared) : option string :=
  if is_pass_through c && negb (body_mutated p) then raw_passthrough_body c else None.

(** [egress_body_capture] *)
Definition egress_body_text (c : Call) (p : Prepared) : string :=
  default (to_string (upstream_body p)) (verbatim c p).
End Body.

(** ** The headers *)

Section Headers.
Context `{Lowercase} `{HttpHeaders} `{OAuthCrates} `{TextCrates} `{AnthropicCrates}.

(** What goes into [apply_provider_auth]. *)
Definition headers_before_auth (c : Call) (p : Prepared) : HeaderMap :=
  merge_client_headers (client_headers c) (codec_headers p) (header_policy (tunables c)).

Definition codex_headers (c : Call) (websocket : bool) (key : option string) (hs : HeaderMap) : HeaderMap :=
  apply_request_headers hs (call_stream c) websocket (call_request_id c) key
    (oauth (target c) ≫= Targets.account_id) (now_v7 c).

(** What happens to the headers [apply_provider_auth] returns. *)
Definition headers_after_auth (c : Call) (p : Prepared) (hs : HeaderMap) : result AppError HeaderMap :=
  let hs := if profile_enabled (codex p) then codex_headers c (websocket (codex p)) (session_key (codex p)) hs
            else hs in
  hs ← (if anthropic_profile p then
          match AnthropicOAuth.apply_headers (target c) hs (call_stream c) (call_request_id c) with
          | Ok hs => Ok hs
          | Err e => Err (AppError.new 500 ("Anthropic OAuth egress profile error: " +:+ e))
          end
        else Ok hs);
  Ok (apply_gateway_identity_headers (client_headers c) hs (header_policy (tunables c)) (oauth (target c))).
End Headers.

(** The [Debug] text of a suite. *)
Definition suite_debug (s : ProtocolSuite) : string :=
  match s with
  | OpenAiCompatible => "OpenAiCompatible"
  | OpenAiResponses => "OpenAiResponses"
  | AnthropicMessages => "AnthropicMessages"
  | GoogleGemini => "GoogleGemini"
  end.

Definition upstream_url (c : Call) : result AppError string :=
  match (if call_stream c then upstream_stream_url_for_suite (target c) (egress_suite c)
         else gemini_aware_upstream_url (target c) (egress_suite c)) with
  | Some url => Ok url
  | None => Err (AppError.new 500 ("No upstream path for egress protocol suite: "
                                   +:+ suite_debug (egress_suite c)))
  end.

(** Every suite has a path. *)
Lemma upstream_url_total c : exists url, upstream_url c = Ok url.
Proof.
  unfold upstream_url, upstream_stream_url_for_suite, gemini_aware_upstream_url, upstream_url_for_suite.
  destruct (call_stream c), (egress_suite c); cbn; eauto.
Qed.

(** ** The request builder *)

(** Parts of [reqwest] and [http]: the path and the host of a URL, or the text
    of the builder's error; the text of its error for a header; the text of a
    status. *)
Class Reqwest := {
  parse_url : string -> string + (string * option string);
  header_error : string;
  status_text : Z -> string;
}.

Record RequestBuilder := {
  rb_url : string;
  rb_headers : HeaderMap;
  rb_appended : list (string * string);
  rb_timeout : option Z;
  rb_body : option string;
  rb_error : option string;
}.

Section Builder.
Context `{SerdeJson} `{HttpHeaders} `{Reqwest}.

Definition post (url : string) : RequestBuilder :=
  {| rb_url := url; rb_headers := ∅; rb_appended := []; rb_timeout := None; rb_body := None;
     rb_error := match parse_url url with inl e => Some e | inr _ => None end |}.

(** [builder.headers(hs)] replaces, [builder.header(n, v)] appends. *)
Definition rb_with_headers (hs : HeaderMap) (b : RequestBuilder) : RequestBuilder :=
  {| rb_url := rb_url b; rb_headers := hs ∪ rb_headers b;
     rb_appended := List.filter (fun nv => negb (contains_key (fst nv) hs)) (rb_appended b);
     rb_timeout := rb_timeout b; rb_body := rb_body b; rb_error := rb_error b |}.

Definition rb_header (name value : string) (b : RequestBuilder) : RequestBuilder :=
  match rb_error b, header_value_of value with
  | Some _, _ => b
  | None, inr v =>
      {| rb_url := rb_url b; rb_headers := rb_headers b; rb_appended := rb_appended b ++ [(name, v)];
         rb_timeout := rb_timeout b; rb_body := rb_body b; rb_error := None |}
  | None, inl _ =>
      {| rb_url := rb_url b; rb_headers := rb_headers b; rb_appended := rb_appended b;
         rb_timeout := rb_timeout b; rb_body := rb_body b; rb_error := Some header_error |}
  end.

Definition rb_with_body (text : string) (b : RequestBuilder) : RequestBuilder :=
  {| rb_url := rb_url b; rb_headers := rb_headers b; rb_appended := rb_appended b;
     rb_timeout := rb_timeout b; rb_body := Some text; rb_error := rb_error b |}.

(** [builder.json(v)]: the content type only if there is none. *)
Definition rb_json (v : Value) (b : RequestBuilder) : RequestBuilder :=
  let b := if contains_key "content-type" (rb_headers b)
              || existsb (fun nv => String.eqb (fst nv) "content-type") (rb_appended b)
           then b else rb_header "content-type" "application/json" b in
  rb_with_body (to_string v) b.

Definition with_nonstream_timeout (timeout_secs : Z) (b : RequestBuilder) : RequestBuilder :=
  if (timeout_secs =? 0)%Z then b
  else {| rb_url := rb_url b; rb_headers := rb_headers b; rb_appended := rb_appended b;
          rb_timeout := Some timeout_secs; rb_body := rb_body b; rb_error := rb_error b |}.

Definition inject_trace (traceparent : string) : RequestBuilder -> RequestBuilder :=
  rb_header "traceparent" traceparent.

(** The request with what the log records of it.  The order of the headers is
    the one of the hash table of [HeaderMap], here that of the model. *)
Record FinalizedEgress := {
  fe_request : RequestBuilder;
  fe_headers : list (string * string);
  fe_method : string;
  fe_path : string;
}.

Definition has_name (name : string) (hs : list (string * string)) : bool :=
  existsb (fun nv => eq_ignore_ascii_case (fst nv) name) hs.

Definition finalize_egress (b : RequestBuilder) : result AppError FinalizedEgress :=
  match rb_error b, parse_url (rb_url b) with
  | Some e, _ | None, inl e => Err (AppError.new 502 ("build upstream request: " +:+ e))
  | None, inr (path, host) =>
      let hs := header_map_to_vec (map_to_list (rb_headers b) ++ rb_appended b) in
      let hs' := if has_name "host" hs then hs
                 else match host with Some h => hs ++ [("host", h)] | None => hs end in
      let hs'' := if has_name "content-length" hs then hs'
                  else match rb_body b with
                       | Some text => hs' ++ [("content-length", pretty (String.length text))]
                       | None => hs'
                       end in
      Ok {| fe_request := b; fe_headers := hs''; fe_method := "POST"; fe_path := path |}
  end.

(** The body of either branch: the client's bytes, or the prepared value. *)
Definition with_payload (c : Call) (p : Prepared) (b : RequestBuilder) : RequestBuilder :=
  match verbatim c p with
  | Some raw => rb_with_body raw (rb_header "content-type" "application/json" b)
  | None => rb_json (upstream_body p) b
  end.

(** The request of the streaming branch; the Responses executor asks for
    events explicitly. *)
Definition stream_request (accept : bool) (c : Call) (p : Prepared) (hs : HeaderMap) (url : string)
    : result AppError FinalizedEgress :=
  let b := rb_with_headers hs (post url) in
  let b := if accept then rb_header "accept" "text/event-stream" b else b in
  finalize_egress (with_payload c p (inject_trace (traceparent c) b)).

Definition nonstream_request (c : Call) (p : Prepared) (hs : HeaderMap) (url : string)
    : result AppError FinalizedEgress :=
  let b := with_nonstream_timeout (upstream_nonstream_timeout_secs (tunables c))
             (rb_with_headers hs (post url)) in
  let b := inject_trace (traceparent c) b in
  let b := if profile_enabled (codex p) then rb_header "accept" "text/event-stream" b else b in
  finalize_egress (with_payload c p b).
End Builder.
