(* ===== verification/Executors.v ===== *)
(** * Executors: one attempt at an upstream

    The four chat executors of [crates/server/src/ingress/executors.rs]
    ([execute_upstream], [execute_messages_upstream],
    [execute_responses_upstream], [execute_gemini_upstream]) with the Codex
    WebSocket transport.  They are one function written four times; what
    differs is the record [Variant].

    What the network answers is an argument: a function from the request that
    is sent to the exchange it starts.  A streamed response is the input of
    [Streaming.drive_upstream_stream].  Captures of the request log are the
    second part of the outcome, in the order in which they are spawned. *)

From stdpp Require Import base option list gmap strings pretty.
From Stdlib Require Import ZArith Lia Ascii.
From S2P Require Import Prelude RustStr Http F64 Json JsonBody Utf8 Protocol Classify Errors Targets Ir HeaderForward Lossy ResponseModel Streaming Codecs.
From S2P Require Import ProviderConfig OAuthTokens Providers OAuthEffects EgressBody CodexOAuth AnthropicOAuth Egress UpstreamRequest.

Local Open Scope string_scope.
Local Open Scope list_scope.

(** ** The network *)

(** An error of [reqwest]: whether it is a timeout, and its text. *)
Record SendError := { se_timeout : bool; se_text : string }.

Record UpstreamResponse := {
  ur_status : Z;
  ur_headers : Headers;
  ur_text : result SendError string;     (* [response.text()] *)
}.

(** [ex_after]: nanoseconds until the response headers or the error. *)
Record Exchange := {
  ex_after : Z;
  ex_answer : result SendError UpstreamResponse;
}.

(** A message of a WebSocket, or the error of reading one. *)
Inductive Frame :=
| TextFrame (s : string)
| BinaryFrame (bytes : string)
| PingFrame (pong_error : option string)
| PongFrame
| RawFrame
| CloseFrame
| ReadError (e : string).

Record WsSession := {
  ws_status : Z;
  ws_headers : Headers;
  ws_send_error : option string;         (* of the first message *)
  ws_frames : list Frame;                (* until the end of the stream *)
}.

(** The answer to a handshake: an error with its status, or a session.
    [we_after] is when the handshake ends, [we_total] when the function that
    uses the session does. *)
Record WsExchange := {
  we_after : Z;
  we_total : Z;
  we_answer : result (option Z * string) WsSession;
}.

Record WsRequest := {
  wr_path : string;
  wr_headers : HeaderMap;
  wr_body : string;
}.

(** [IntoClientRequest] for the URL of a handshake: its error, or path and
    query. *)
Class Tungstenite := {
  parse_ws_url : string -> string + string;
  utf8_error : string -> string;
}.

(** ** Outcomes *)

Inductive Source :=
| HttpBytes                              (* the chunks of the response body *)
| SocketEvents (frames : list Frame).

Inductive ClientBody :=
| JsonBody (v : Value)
| EventStream (source : Source) (config : Config) (cap : StreamCapture)
    (tc : option (Transcode AnyDecoder AnyEncoder)) (o : ResponseModelOverride).

Record Response := { resp_headers : HeaderMap; resp_body : ClientBody }.

(** The response with the time to the first byte, and what was captured. *)
Record Outcome := {
  outcome : result AppError (Response * option Z);
  captures : list ExchangeCapture;
}.

Definition rejected (e : AppError) : Outcome := {| outcome := Err e; captures := [] |}.

(** What the four executors do differently. *)
Record Variant := {
  keeps_stream_rate_limits : bool;  (* in the error of a failed stream *)
  repeats_rate_limits : bool;       (* the loop after the headers are forwarded *)
  stream_accepts : bool;            (* the accept header of a stream *)
  reports_body : bool;              (* the message of a failure is the whole body *)
  parses_late : bool;               (* the body is parsed after the status is checked *)
}.

Definition chat_variant : Variant :=
  {| keeps_stream_rate_limits := true; repeats_rate_limits := true; stream_accepts := false;
     reports_body := false; parses_late := false |}.
Definition messages_variant : Variant :=
  {| keeps_stream_rate_limits := false; repeats_rate_limits := false; stream_accepts := false;
     reports_body := false; parses_late := false |}.
Definition responses_variant : Variant :=
  {| keeps_stream_rate_limits := false; repeats_rate_limits := true; stream_accepts := true;
     reports_body := true; parses_late := true |}.
Definition gemini_variant : Variant :=
  {| keeps_stream_rate_limits := false; repeats_rate_limits := true; stream_accepts := false;
     reports_body := true; parses_late := false |}.

Definition as_u64_millis (ns : Z) : Z := wrap64 (ns / 1000000).

Definition is_success (status : Z) : bool := ((200 <=? status) && (status <=? 299))%Z.

(** ** Errors of the transport *)

Section Transport.
Context `{SerdeJson} `{Lowercase} `{CodexCrates} `{Reqwest}.

Definition deadline_error (message : string) : AppError :=
  AppError.set_upstream_status (AppError.with_class (AppError.new 504 message) DeadlineExceeded) 504.

Definition nonstream_timeout_error : AppError := deadline_error "upstream non-stream request timeout".

Definition map_nonstream_reqwest_error (e : SendError) (context : string) : AppError :=
  if se_timeout e then nonstream_timeout_error
  else AppError.new 502 (context +:+ ": " +:+ se_text e).

Definition execute_with_ttfb_timeout (ex : Exchange) (ttfb_timeout_secs : Z)
    : result AppError UpstreamResponse :=
  if ((0 <? ttfb_timeout_secs) && (ttfb_timeout_secs * ns_per_sec <? ex_after ex))%Z
  then Err (deadline_error "upstream TTFB timeout")
  else match ex_answer ex with
       | Ok r => Ok r
       | Err e => Err (AppError.new 502 ("Upstream error: " +:+ se_text e))
       end.

Definition parse_nonstream_upstream_body (text : string) (status : Z) (codex_profile : bool)
    : result AppError Value :=
  if negb (is_success status) then
    Ok (default (obj [("error", obj [("type", Str "upstream_error"); ("message", Str text)])])
          (from_str text))
  else if codex_profile then parse_http_response text
  else match from_str text with
       | Some v => Ok v
       | None => Err (AppError.new 502 ("Parse error: " +:+ from_str_error text))
       end.

(** The body of a failure in the Responses executor. *)
Definition wrapped_error (text : string) : Value :=
  obj [("error", obj [("message", Str text); ("type", Str "upstream_error")])].

(** The body of a success there. *)
Definition parse_late (text : string) (codex_profile : bool) : result AppError Value :=
  if codex_profile then parse_http_response text
  else match from_str text with
       | Some v => Ok v
       | None => Err (AppError.new 502 "Parse error: upstream response is not JSON")
       end.

(** ** Errors of the upstream *)

Definition with_retry_after (ra : option string) (e : AppError) : AppError :=
  match ra with Some ra => AppError.with_retry_after_header e ra | None => e end.

Definition upstream_failure (status : Z) (message : string) : AppError :=
  AppError.with_class
    (AppError.set_upstream_status (AppError.new (default 502%Z (status_from_u16 status)) message) status)
    (classify_upstream_error (Some status) None).

Definition failed_stream (v : Variant) (r : UpstreamResponse) (error_body : string) : AppError :=
  let e := upstream_failure (ur_status r)
             ("Upstream " +:+ status_text (ur_status r) +:+ ": " +:+ error_body) in
  let e := with_retry_after (extract_retry_after (ur_headers r)) e in
  if keeps_stream_rate_limits v
  then AppError.set_rate_limit_headers e (extract_rate_limit_headers (ur_headers r)) else e.

Definition failed_body (v : Variant) (r : UpstreamResponse) (body : Value) : AppError :=
  let error := body.["error"] in
  let message :=
    if reports_body v then "Upstream " +:+ status_text (ur_status r) +:+ ": " +:+ to_string body
    else "Upstream error: " +:+ default "Unknown error" (as_str error.["message"]) in
  let e := upstream_failure (ur_status r) message in
  let e := match or_else (as_str error.["code"]) (as_str error.["type"]) with
           | Some code => AppError.with_upstream_code e code
           | None => e
           end in
  AppError.set_rate_limit_headers (with_retry_after (extract_retry_after (ur_headers r)) e)
    (extract_rate_limit_headers (ur_headers r)).
End Transport.

(** ** Headers of the client's response *)

Section ResponseHeaders.
Context `{HttpHeaders}.

Definition set_retry_after (ra : option string) (hs : HeaderMap) : HeaderMap :=
  match ra with
  | Some ra => <["retry-after" := match header_value_of ra with inr v => v | inl _ => "" end]> hs
  | None => hs
  end.

(** [extract_rate_limit_headers(response.headers())] *)
Definition rate_limits_of (hs : HeaderMap) : list (string * string) :=
  omap (fun name => (fun v => (name, v)) <$> (hs !! name ≫= to_str)) rate_limit_names.

Definition repeat_one (hs : HeaderMap) (nv : string * string) : HeaderMap :=
  match header_value_of (snd nv), header_name_of (fst nv) with
  | inr v, inr n => <[n := v]> hs
  | _, _ => hs
  end.

Definition repeat_rate_limits (v : Variant) (hs : HeaderMap) : HeaderMap :=
  if repeats_rate_limits v then fold_left repeat_one (rate_limits_of hs) hs else hs.
End ResponseHeaders.

(** The headers [drive_upstream_stream] and [Json(..).into_response()] set. *)
Definition event_stream_headers : HeaderMap :=
  <["x-accel-buffering" := "no"]> (<["cache-control" := "no-cache"]> {["content-type" := "text/event-stream"]}).
Definition json_headers : HeaderMap := {["content-type" := "application/json"]}.

(** ** The two branches *)

Section Branches.
Context `{SerdeJson} `{Lowercase} `{HttpHeaders} `{OAuthCrates} `{TextCrates} `{CodexCrates}
        `{AnthropicCrates} `{UrlHost} `{Reqwest} `{Tungstenite}.
Context (v : Variant) (c : Call).

Definition model_override : ResponseModelOverride :=
  {| rmo_suite := suite (call_ingress c); rmo_model := Ir.model (ir_request c) |}.

(** A capture without the parts that only streams have. *)
Definition exchange_capture (fe : FinalizedEgress) (egress_text : string) (status : Z)
    (upstream_hs : list (string * string)) (upstream_text : option string)
    (client_hs : list (string * string)) (client_text : option string) (stream : bool)
    : ExchangeCapture :=
  {| request_id := call_request_id c; egress_method := fe_method fe; egress_path := fe_path fe;
     egress_headers := fe_headers fe; egress_body := Some egress_text;
     upstream_status := Some status; upstream_resp_headers := upstream_hs;
     upstream_resp_body := upstream_text; client_resp_headers := client_hs;
     client_resp_body := client_text; is_stream := stream; truncation_reason := None;
     stream_duration_ms := None; capture_upstream_error := None;
     capture_upstream_error_class := None |}.

Definition stream_config : Config :=
  {| end_marker := any_encode_done (stream_encoder (codec c));
     error_marker := any_encode_error (stream_encoder (codec c))
                       "upstream stream truncated by gateway" DeadlineExceeded None;
     idle_timeout := upstream_stream_idle_timeout_secs (tunables c) * ns_per_sec;
     total_timeout := upstream_stream_total_timeout_secs (tunables c) * ns_per_sec |}.

Definition stream_capture (fe : FinalizedEgress) (egress_text : string) (status : Z)
    (upstream_hs client_hs : list (string * string)) : StreamCapture :=
  {| sc_request_id := call_request_id c; sc_egress_method := fe_method fe;
     sc_egress_path := fe_path fe; sc_egress_headers := fe_headers fe;
     sc_egress_body := Some egress_text; sc_upstream_status := Some status;
     sc_upstream_resp_headers := upstream_hs; sc_client_resp_headers := client_hs;
     sc_health := true; sc_health_key := Some (RoutingTarget.health_key (target c)) |}.

Definition event_stream (source : Source) (cap : StreamCapture) : ClientBody :=
  EventStream source stream_config cap
    (build_stream_transcode (call_ingress c) (call_egress c)) model_override.

(** [is_stream]: the answer to the request [fe]. *)
Definition finish_stream (fe : FinalizedEgress) (egress_text : string) (ex : Exchange) : Outcome :=
  match execute_with_ttfb_timeout ex (upstream_ttfb_timeout_secs (tunables c)) with
  | Err e => rejected e
  | Ok r =>
      let upstream_hs := reqwest_headers_to_vec (ur_headers r) in
      if negb (is_success (ur_status r)) then
        let error_body := match ur_text r with Ok text => text | Err _ => "" end in
        {| outcome := Err (failed_stream v r error_body);
           captures := [exchange_capture fe egress_text (ur_status r) upstream_hs (Some error_body)
                          [] None true] |}
      else
        let cap := stream_capture fe egress_text (ur_status r) upstream_hs
                     (forwarded_resp_headers_for_capture upstream_hs (header_policy (tunables c))
                        (call_request_id c)) in
        let hs := forward_upstream_resp_headers event_stream_headers upstream_hs
                    (header_policy (tunables c)) (call_request_id c) in
        let hs := repeat_rate_limits v (set_retry_after (extract_retry_after (ur_headers r)) hs) in
        {| outcome := Ok ({| resp_headers := hs; resp_body := event_stream HttpBytes cap |},
                          Some (as_u64_millis (ex_after ex)));
           captures := [] |}
  end.

(** The client's body of an answer: converted between two protocols, with the
    model the client asked for. *)
Definition convert_response (body : Value) : result AppError Value :=
  if is_same_protocol c then Ok body
  else
    match get_egress_codec (call_egress c) with
    | None => Err (AppError.new 500 "No egress codec found")
    | Some egress_codec =>
        match decode_response egress_codec body with
        | Err e => Err (AppError.new 500 ("Decode response error: " +:+ error_to_string e))
        | Ok ir_response =>
            match encode_response (codec c) ir_response with
            | Err e => Err (AppError.new 500 ("Encode response error: " +:+ error_to_string e))
            | Ok body => Ok body
            end
        end
    end.

Definition client_body (body : Value) : result AppError Value :=
  body ← convert_response body; Ok (ResponseModel.apply_json model_override body).

(** The status is a success and the body was parsed. *)
Definition finish_success (fe : FinalizedEgress) (egress_text : string) (codex_profile : bool)
    (r : UpstreamResponse) (text : string) (after : Z) (body : Value) : Outcome :=
  let upstream_hs := reqwest_headers_to_vec (ur_headers r) in
  let retry_after := extract_retry_after (ur_headers r) in
  match check_nonstream_error_body body (ur_status r) retry_after
          (extract_rate_limit_headers (ur_headers r)) with
  | Some e =>
      {| outcome := Err e;
         captures := [exchange_capture fe egress_text (ur_status r) upstream_hs
                        (Some (to_string body)) [] None false] |}
  | None =>
      match client_body body with
      | Err e => rejected e
      | Ok answer =>
          let hs := forward_upstream_resp_headers json_headers upstream_hs
                      (header_policy (tunables c)) (call_request_id c) in
          let hs := repeat_rate_limits v (set_retry_after retry_after hs) in
          {| outcome := Ok ({| resp_headers := hs; resp_body := JsonBody answer |},
                            Some (as_u64_millis after));
             captures := [exchange_capture fe egress_text (ur_status r) upstream_hs
                            (Some (if codex_profile then text else to_string body))
                            (header_map_to_vec (map_to_list hs)) (Some (to_string answer)) false] |}
      end
  end.

Definition finish_failure (fe : FinalizedEgress) (egress_text : string) (r : UpstreamResponse)
    (body : Value) : Outcome :=
  {| outcome := Err (failed_body v r body);
     captures := [exchange_capture fe egress_text (ur_status r)
                    (reqwest_headers_to_vec (ur_headers r)) (Some (to_string body)) [] None false] |}.

Definition finish_nonstream (fe : FinalizedEgress) (egress_text : string) (codex_profile : bool)
    (ex : Exchange) : Outcome :=
  match ex_answer ex with
  | Err e => rejected (map_nonstream_reqwest_error e "Upstream error")
  | Ok r =>
      match ur_text r with
      | Err e => rejected (map_nonstream_reqwest_error e "Read error")
      | Ok text =>
          if parses_late v then
            if negb (is_success (ur_status r))
            then finish_failure fe egress_text r (default (wrapped_error text) (from_str text))
            else match parse_late text codex_profile with
                 | Err e => rejected e
                 | Ok body => finish_success fe egress_text codex_profile r text (ex_after ex) body
                 end
          else
            match parse_nonstream_upstream_body text (ur_status r) codex_profile with
            | Err e => rejected e
            | Ok body =>
                if negb (is_success (ur_status r)) then finish_failure fe egress_text r body
                else finish_success fe egress_text codex_profile r text (ex_after ex) body
            end
      end
  end.

(** [egress_text] is the capture of the body, made before the request. *)
Definition send_http (http : FinalizedEgress -> Exchange) (p : Prepared) (egress_text : string)
    (hs : HeaderMap) (url : string) : Outcome :=
  if call_stream c then
    match stream_request (stream_accepts v) c p hs url with
    | Err e => rejected e
    | Ok fe => finish_stream fe egress_text (http fe)
    end
  else
    match nonstream_request c p hs url with
    | Err e => rejected e
    | Ok fe => finish_nonstream fe egress_text (profile_enabled (codex p)) (http fe)
    end.

(** ** The WebSocket of Codex *)

(** [websocket_event_stream]: the items of the stream.  A message is an event;
    the last one closes the stream. *)
Definition socket_event (text : string) : string * bool :=
  let '(text, terminal) := normalize_websocket_event text in
  ("data: " +:+ text +:+ LFLF, terminal).

Fixpoint socket_items (frames : list Frame) : list item :=
  match frames with
  | [] => [Streaming.Closed]
  | TextFrame text :: r =>
      let '(out, terminal) := socket_event text in
      Streaming.Bytes out :: (if terminal then [Streaming.Closed] else socket_items r)
  | BinaryFrame bytes :: r =>
      if is_utf8 bytes then
        let '(out, terminal) := socket_event bytes in
        Streaming.Bytes out :: (if terminal then [Streaming.Closed] else socket_items r)
      else [Streaming.Failed]
  | PingFrame (Some _) :: _ => [Streaming.Failed]
  | PingFrame None :: r | PongFrame :: r | RawFrame :: r => socket_items r
  | CloseFrame :: _ => [Streaming.Closed]
  | ReadError _ :: _ => [Streaming.Failed]
  end.

(** One event of [collect_codex_websocket_response]: the result, or [None]
    where the loop goes on. *)
Definition collect_event (text : string) : option (result string Value) :=
  match from_str text with
  | None => Some (Err ("invalid Codex WebSocket event JSON: " +:+ from_str_error text))
  | Some event =>
      let ty := get_str "type" event in
      if bool_decide (ty = Some "response.completed") then
        Some (match get "response" event with
              | Some response => Ok response
              | None => Err "Codex response.completed lacks response payload"
              end)
      else if bool_decide (ty = Some "response.failed") || bool_decide (ty = Some "response.incomplete") then
        let response : option Value := get "response" event in
        let message : option Value :=
          or_else ((response ≫= get "error") ≫= get "message")
            ((response ≫= get "incomplete_details") ≫= get "reason") in
        Some (Err (default "Codex response did not complete" (message ≫= as_str)))
      else None
  end.

Fixpoint collect_codex_websocket_response (frames : list Frame) : result string Value :=
  match frames with
  | [] => Err "Codex WebSocket reached EOF before response.completed"
  | TextFrame text :: r =>
      match collect_event text with
      | Some result => result
      | None => collect_codex_websocket_response r
      end
  | BinaryFrame bytes :: r =>
      if is_utf8 bytes then
        match collect_event bytes with
        | Some result => result
        | None => collect_codex_websocket_response r
        end
      else Err ("Codex WebSocket sent non-UTF-8 event: " +:+ utf8_error bytes)
  | PingFrame (Some e) :: _ => Err ("failed to send Codex WebSocket pong: " +:+ e)
  | PingFrame None :: r | PongFrame :: r | RawFrame :: r => collect_codex_websocket_response r
  | CloseFrame :: _ => Err "Codex WebSocket closed before response.completed"
  | ReadError e :: _ => Err ("Codex WebSocket read error: " +:+ e)
  end.

(** The upgrade request. *)
Definition socket_request (body : Value) (hs : HeaderMap) (url : string) : result AppError WsRequest :=
  body ← websocket_request_body body;
  let hs := prepare_websocket_headers hs in
  hs ← match header_value_of (traceparent c) with
       | inr t => Ok (<["traceparent" := t]> hs)
       | inl e => Err (AppError.new 500 ("invalid traceparent header: " +:+ e))
       end;
  url ← websocket_url url;
  match parse_ws_url url with
  | inl e => Err (AppError.new 500 ("build Codex WebSocket handshake request: " +:+ e))
  | inr path => Ok {| wr_path := path; wr_headers := hs; wr_body := to_string body |}
  end.

Definition socket_egress (wr : WsRequest) : FinalizedEgress :=
  {| fe_request := post ""; fe_headers := header_map_to_vec (map_to_list (wr_headers wr));
     fe_method := "GET"; fe_path := wr_path wr |}.

(** A failure of the socket, with its capture. *)
Definition socket_failed (wr : WsRequest) (status : Z) (upstream_hs : list (string * string))
    (message : string) (stream : bool) (e : AppError) : Outcome :=
  {| outcome := Err e;
     captures := [exchange_capture (socket_egress wr) (wr_body wr) status upstream_hs
                    (Some message) [] None stream] |}.

Definition run_session (wr : WsRequest) (s : WsSession) (after : Z) : Outcome :=
  let upstream_hs := header_map_to_vec (ws_headers s) in
  match ws_send_error s with
  | Some e =>
      let message := "send Codex response.create: " +:+ e in
      socket_failed wr (ws_status s) upstream_hs message (call_stream c) (AppError.new 502 message)
  | None =>
      if call_stream c then
        let cap := stream_capture (socket_egress wr) (wr_body wr) (ws_status s) upstream_hs
                     (forwarded_resp_headers_for_capture [] (header_policy (tunables c))
                        (call_request_id c)) in
        {| outcome := Ok ({| resp_headers := set_gateway_request_id_header event_stream_headers
                                               (call_request_id c);
                             resp_body := event_stream (SocketEvents (ws_frames s)) cap |},
                          Some (as_u64_millis after));
           captures := [] |}
      else
        match collect_codex_websocket_response (ws_frames s) with
        | Err message => socket_failed wr (ws_status s) upstream_hs message false (AppError.new 502 message)
        | Ok body =>
            match client_body body with
            | Err e => rejected e
            | Ok answer =>
                let hs := set_gateway_request_id_header json_headers (call_request_id c) in
                {| outcome := Ok ({| resp_headers := hs; resp_body := JsonBody answer |},
                                  Some (as_u64_millis after));
                   captures := [exchange_capture (socket_egress wr) (wr_body wr) (ws_status s) upstream_hs
                                  (Some (to_string body)) (header_map_to_vec (map_to_list hs))
                                  (Some (to_string answer)) false] |}
            end
        end
  end.

Definition execute_codex_responses_websocket (ws : WsRequest -> WsExchange) (body : Value)
    (hs : HeaderMap) (url : string) : Outcome :=
  match socket_request body hs url with
  | Err e => rejected e
  | Ok wr =>
      let ex := ws wr in
      let ttfb := upstream_ttfb_timeout_secs (tunables c) in
      if ((0 <? ttfb) && (ttfb * ns_per_sec <? we_after ex))%Z then
        socket_failed wr 504 [] "Codex WebSocket handshake timeout" (call_stream c)
          (deadline_error "Codex WebSocket handshake timeout")
      else
        match we_answer ex with
        | Err (status, text) =>
            let status := default 502%Z status in
            let message := "Codex WebSocket handshake error: " +:+ text in
            socket_failed wr status [] message (call_stream c)
              (AppError.set_upstream_status (AppError.new status message) status)
        | Ok s => run_session wr s (we_after ex)
        end
  end.

(** The total timeout of a request that is not streamed: the future is
    dropped, with what it would have captured. *)
Definition socket_within_timeout (ws : WsRequest -> WsExchange) (body : Value) (hs : HeaderMap)
    (url : string) : Outcome :=
  let timeout := upstream_nonstream_timeout_secs (tunables c) in
  let whole := execute_codex_responses_websocket ws body hs url in
  if call_stream c || (timeout =? 0)%Z then whole
  else match socket_request body hs url with
       | Err _ => whole
       | Ok wr => if (timeout * ns_per_sec <? we_total (ws wr))%Z
                  then rejected nonstream_timeout_error else whole
       end.

(** ** The whole attempt after authentication *)

(** The request as it is after the upgrade was refused. *)
Definition after_refusal (p : Prepared) : Prepared :=
  {| upstream_body := fst (CodexOAuth.prepare_body (upstream_body p) false);
     codec_headers := codec_headers p; body_mutated := body_mutated p; codex := codex p;
     anthropic_profile := anthropic_profile p |}.

Definition uses_socket (p : Prepared) : bool :=
  websocket (codex p) && bool_decide (egress_suite c = OpenAiResponses).

Definition send (http : FinalizedEgress -> Exchange) (ws : WsRequest -> WsExchange) (p : Prepared)
    (hs : HeaderMap) : Outcome :=
  match upstream_url c with
  | Err e => rejected e
  | Ok url =>
      if uses_socket p then
        let tried := socket_within_timeout ws (upstream_body p) hs url in
        match outcome tried with
        | Err e =>
            if (AppError.http_status e =? 426)%Z then
              let p := after_refusal p in
              let hs := codex_headers c false (session_key (codex p)) hs in
              let sent := send_http http p (to_string (upstream_body p)) hs url in
              {| outcome := outcome sent; captures := captures tried ++ captures sent |}
            else tried
        | Ok _ => tried
        end
      else send_http http p (egress_body_text c p) hs url
  end.

(** Where the code panics the task does. *)
Definition panics {A} (p : panic) : prog A := Vis (Panics p) (fun r : Empty_set => match r with end).

(** An executor; [oauth_apply] is the token manager, [registered] the providers.
    The second part of the result is the access token that was applied. *)
Definition execute
    (oauth_apply : RoutingTarget -> HeaderMap -> prog (result string (option (HeaderMap * option string))))
    (registered : list Providers.Provider) (http : FinalizedEgress -> Exchange)
    (ws : WsRequest -> WsExchange) : prog (Outcome * option string) :=
  match prepare c with
  | Err p => panics p
  | Ok (Err e) => Ret (rejected e, None)
  | Ok (Ok p) =>
      prog_bind (fun '(authenticated, token) =>
        match authenticated with
        | Err e => Ret (rejected e, token)
        | Ok hs =>
            match headers_after_auth c p hs with
            | Err e => Ret (rejected e, token)
            | Ok hs => Ret (send http ws p hs, token)
            end
        end)
        (apply_provider_auth oauth_apply registered (target c) (headers_before_auth c p)
           (caller_key_id c))
  end.
End Branches.

Section Entry.
Context `{SerdeJson} `{Lowercase} `{HttpHeaders} `{OAuthCrates} `{TextCrates} `{CodexCrates}
        `{AnthropicCrates} `{UrlHost} `{Reqwest} `{Tungstenite}.

Definition execute_upstream (c : Call) := execute chat_variant c.
Definition execute_messages_upstream (c : Call) := execute messages_variant c.
Definition execute_responses_upstream (c : Call) := execute responses_variant c.
Definition execute_gemini_upstream (c : Call) := execute gemini_variant c.
End Entry.
