(* ===== verification/ExecutorsBody.v ===== *)
(** * ExecutorsBody: the body that is sent is the body that was prepared

    The executors send the client's bytes again when no function reported a
    change of the parsed body.  Every function that prepares a body is honest
    about its changes, so that the two coincide; after a refused WebSocket
    upgrade the flag is stale. *)

From stdpp Require Import base option list gmap strings.
From Stdlib Require Import ZArith Lia Ascii.
From S2P Require Import Prelude RustStr Http F64 Json JsonBody Protocol Errors Targets Ir HeaderForward Codecs.
From S2P Require Import ProviderConfig OAuthTokens Providers EgressBody CodexOAuth CodexProps AnthropicOAuth Egress UpstreamRequest Executors.

Local Open Scope string_scope.
Local Open Scope list_scope.

(** ** The DeepSeek profile *)

Lemma reasoning_item_honest item item' :
  prepare_deepseek_reasoning_item item = Ok (item', Keep false) -> item' = item.
Proof.
  unfold prepare_deepseek_reasoning_item. destruct (_ && negb _); [done|].
  destruct (validate_parts _ _ _); [|done]. cbn [mbind result_bind].
  destruct (has_parts "content" item); cbn [negb orb].
  - cbn. destruct item as [| | | | |m]; try done.
    destruct (remove_fields _ (Obj m)) as [i b] eqn:E. intros [= <- ->].
    pose proof (remove_fields_honest ["summary"; "text"; "encrypted_content"] (Obj m)) as Hh.
    rewrite E in Hh. by apply Hh.
  - destruct (plain_text item); [|done]. cbn. destruct (set _ _ _); try done.
    destruct (remove_fields _ _). done.
Qed.

Lemma deepseek_item_honest item item' :
  prepare_deepseek_item item = Ok (item', Keep false) -> item' = item.
Proof.
  unfold prepare_deepseek_item. destruct (get_str "type" item) as [ty|].
  - destruct (String.eqb ty "reasoning"); [apply reasoning_item_honest|].
    repeat match goal with |- (if ?b then _ else _) = _ -> _ => destruct b end;
      try done; try (by intros [= <-]); apply keep_if_ok.
  - destruct (is_some _); [apply keep_if_ok|done].
Qed.

Lemma deepseek_items_honest items items' :
  prepare_deepseek_items items = Ok (items', false) -> items' = items.
Proof.
  revert items'. induction items as [|item r IH]; intros items'; cbn; [by intros [= <-]|].
  destruct (prepare_deepseek_item item) as [[i k]|] eqn:Ei; [|done]. cbn.
  destruct (prepare_deepseek_items r) as [[r' b]|]; [|done]. cbn.
  destruct k as [ch|]; [|done]. intros [= <- [-> ->]%orb_false_iff].
  apply deepseek_item_honest in Ei as ->. by rewrite (IH r').
Qed.

Lemma deepseek_honest v v' : prepare_deepseek_responses_request v = Ok (v', false) -> v' = v.
Proof.
  unfold prepare_deepseek_responses_request.
  pose proof (remove_fields_honest deepseek_stripped v) as H1.
  destruct (remove_fields _ v) as [v1 b1]. cbn in H1.
  destruct (deepseek_controls_ok v1); [|done]. cbn [mbind result_bind].
  pose proof (strip_control_honest "text" "verbosity" v1) as H2. cbv beta in H2.
  destruct (strip_ignored_deepseek_control v1 _ _) as [v2 b2]. cbn in H2.
  pose proof (strip_control_honest "reasoning" "summary" v2) as H3. cbv beta in H3.
  destruct (strip_ignored_deepseek_control v2 _ _) as [v3 b3]. cbn in H3.
  destruct (match _ with Some tools => _ | None => _ end); [|done]. cbn.
  destruct (prepare_deepseek_input v3) as [[v4 b4]|] eqn:E4; [|done]. cbn.
  intros [= <- [[[-> ->]%orb_false_iff ->]%orb_false_iff ->]%orb_false_iff].
  rewrite <- (H1 eq_refl), <- (H2 eq_refl), <- (H3 eq_refl).
  destruct v3 as [| | | | |m]; try (by injection E4). cbn in E4.
  destruct (assoc "input" m) as [[| | | |items|]|] eqn:Ea; try (by injection E4).
  destruct (prepare_deepseek_items items) as [[items' b]|] eqn:Ei; [|done]. injection E4 as <- ->.
  apply deepseek_items_honest in Ei as ->. cbn. by rewrite replace_same.
Qed.

Lemma provider_body_honest `{UrlHost} v t s k v' :
  prepare_provider_request_body v t s k = Ok (Ok (v', false)) -> v' = v.
Proof.
  unfold prepare_provider_request_body.
  destruct (is_official_deepseek_responses_target t s); cbn.
  - pose proof (normalize_honest s (Targets.model_id t) v) as Hn. cbv beta in Hn.
    destruct (normalize_openai_reasoning_for_target v s _) as [v1 b1]. cbn in *.
    destruct (prepare_deepseek_responses_request v1) as [[v2 b2]|] eqn:E; [|done]. cbn.
    intros [= <- [-> ->]%orb_false_iff]. apply deepseek_honest in E as ->. by apply Hn.
  - destruct (maybe_inject_prompt_cache_key v s k) as [[v0 b0]|] eqn:E0; [|done]. cbn.
    pose proof (normalize_honest s (Targets.model_id t) v0) as Hn. cbv beta in Hn.
    destruct (normalize_openai_reasoning_for_target v0 s _) as [v1 b1]. cbn in *.
    intros [= <- [-> ->]%orb_false_iff]. rewrite Hn by done.
    revert E0. unfold maybe_inject_prompt_cache_key. split_ifs; try (intros [=]; by subst). by destruct (index_set _ _ _).
Qed.

(** ** The Codex profile *)

Section Codex.
Context `{SerdeJson} `{OAuthCrates} `{TextCrates} `{CodexCrates}.

#[local] Arguments shorten_item : simpl never.
#[local] Arguments normalize_reasoning : simpl never.

Lemma shorten_member_honest item ch m k item' m' :
  shorten_member (item, ch, m) k = (item', false, m') -> ch = false /\ item' = item.
Proof.
  unfold shorten_member. destruct (get_str k item); [|by (intros [=]; subst)].
  destruct (shorten_codex_id _ _). destruct (String.eqb _ _); intros [=]; subst; done.
Qed.

Lemma shorten_item_honest item ch m item' m' :
  shorten_item item ch m = (item', false, m') -> ch = false /\ item' = item.
Proof.
  unfold shorten_item. cbn [fold_left].
  destruct (shorten_member (item, ch, m) "id") as [[i1 c1] m1] eqn:E1.
  intros [-> ->]%shorten_member_honest. by apply shorten_member_honest in E1.
Qed.

Lemma shorten_items_honest items ch m items' :
  shorten_items items ch m = (items', false) -> ch = false /\ items' = items.
Proof.
  revert ch m items'. induction items as [|i r IH]; intros ch m items'; cbn; [by (intros [=]; subst)|].
  destruct (shorten_item i ch m) as [[i' c'] m'] eqn:Ei.
  destruct (shorten_items r c' m') as [r' c''] eqn:Er. intros [= <- ->].
  apply IH in Er as [-> ->]. by apply shorten_item_honest in Ei as [-> ->].
Qed.

Lemma shorten_array_honest : honest shorten_array.
Proof.
  intros v. destruct v as [| | | |l|]; try done. cbn.
  destruct (shorten_items l false ∅) as [l' b] eqn:E. cbn. intros ->.
  by apply shorten_items_honest in E as [_ ->].
Qed.

Lemma prepare_body_honest ws : honest (fun v => CodexOAuth.prepare_body v ws).
Proof.
  intros v. unfold CodexOAuth.prepare_body. destruct v as [| | | | |m]; try done.
  assert (forall f g, honest f -> honest g -> honest (fun x => also g (f x))) as Ha
    by (intros f g Hf Hg x; by apply also_honest).
  assert (forall k ok x, honest (ensure_member k ok x)) as He
    by (intros k ok x u; unfold ensure_member; by destruct (ok _)).
  assert (honest (prepare_object ws)) as Ho.
  { unfold prepare_object. cbv zeta.
    destruct ws; repeat first [apply He | apply remove_field_honest | apply Ha | by intros ?]. }
  revert m. enough (honest (fun x => also normalize_codex_input_ids (also strip_prompt_cache_breakpoints
    (also normalize_codex_service_tier (also normalize_codex_system_roles
      (also normalize_codex_input_shape (prepare_object ws x))))))) as Hx by (intros m; apply Hx).
  repeat apply Ha.
  - exact Ho.
  - intros x. unfold normalize_codex_input_shape. by destruct (get_str _ _).
  - apply on_member_honest, on_items_honest, system_role_honest.
  - intros x. unfold normalize_codex_service_tier. destruct (get _ _); [|done].
    case_bool_decide; [done|]. apply remove_field_honest.
  - apply on_member_honest, on_items_honest, on_member_honest, on_items_honest, remove_field_honest.
  - apply on_member_honest, shorten_array_honest.
Qed.

Lemma drop_identity_honest an item item' k :
  drop_identity an item = (item', k, false) -> k = true /\ item' = item.
Proof.
  unfold drop_identity. destruct item as [| | | | |m]; try (by intros [=]; subst).
  pose proof (remove_field_honest "id" (Obj m)) as Hr.
  destruct (remove_field "id" (Obj m)) as [i b]. cbn in Hr.
  destruct (_ && _); intros [=]. subst. by rewrite Hr.
Qed.

Lemma normalize_reasoning_honest an sg item item' k :
  normalize_reasoning an sg item = (item', k, false) -> k = true /\ item' = item.
Proof.
  unfold normalize_reasoning. destruct an.
  - destruct sg as [s|]; [|by (intros [=]; subst)]. destruct (is_valid_gpt_reasoning_signature s); by (intros [=]; subst).
  - destruct (is_some _ && _).
    + destruct (match get_str _ _ with Some s => _ | None => _ end); [by (intros [=]; subst)|].
      destruct (drop_identity _ _) as [[i k'] b]. by intros [=].
    + destruct (match get_str _ _ with Some s => _ | None => _ end); [intros [=]; by subst|].
      destruct (drop_identity false item) as [[i k'] b] eqn:E. intros [=]; subst.
      by apply drop_identity_honest in E.
Qed.

Lemma normalize_items_honest an sg items ix m items' :
  normalize_items an sg ix items m = (items', false) -> items' = items.
Proof.
  revert ix m items'. induction items as [|item r IH]; intros ix m items'; cbn; [congruence|].
  set (reasoning := bool_decide _).
  destruct (if reasoning then _ else _) as [[i k] ch] eqn:E.
  assert (ch = false -> k = true /\ i = item) as Hi.
  { intros ->. destruct reasoning; [by eapply normalize_reasoning_honest|by inversion E]. }
  clear E. destruct k; [|done].
  destruct (shorten_item i ch m) as [[i' c'] m'] eqn:Es.
  destruct (normalize_items an sg _ r m') as [r' b] eqn:Er.
  intros [= <- [-> ->]%orb_false_iff]. apply shorten_item_honest in Es as [-> ->].
  apply IH in Er as ->. by destruct (Hi eq_refl) as [_ ->].
Qed.

Lemma reasoning_and_ids_honest ir : honest (fun v => normalize_reasoning_and_ids v ir).
Proof.
  unfold normalize_reasoning_and_ids. apply on_member_honest. intros v.
  destruct v as [| | | |l|]; try done.
  destruct (normalize_items _ _ _ _ _) as [l' b] eqn:E. cbn. intros ->.
  by apply normalize_items_honest in E as ->.
Qed.

Lemma parallel_calls_honest v hs v' : normalize_parallel_tool_calls v hs = Ok (v', false) -> v' = v.
Proof.
  unfold normalize_parallel_tool_calls. destruct (_ || _).
  - destruct (is_bool _ _); [congruence|]. by destruct (index_set _ _ _).
  - destruct (match get _ _ ≫= _ with Some (_ :: _) => _ | _ => _ end) as [u b] eqn:E. intros [= <- ->].
    destruct (get "tools" v ≫= as_array) as [[|]|]; try congruence;
      pose proof (remove_field_honest "parallel_tool_calls" v) as Hr; rewrite E in Hr; by apply Hr.
Qed.

Lemma cache_key_honest v k v' : set_prompt_cache_key v k = Ok (v', false) -> v' = v.
Proof.
  unfold set_prompt_cache_key. case_bool_decide; [congruence|].
  by destruct (index_set _ _ _).
Qed.

Lemma codex_body_honest c v v' cx :
  prepare_codex_egress_body c v = Ok (Ok (v', cx)) -> body_changed cx = false -> v' = v.
Proof.
  unfold prepare_codex_egress_body. destruct (CodexOAuth.is_enabled _ _); [|by intros [= <- <-]].
  pose proof (prepare_body_honest (uses_websocket (target c)) v) as Hh1. cbv beta in Hh1.
  destruct (CodexOAuth.prepare_body v _) as [v1 b1]. cbn in Hh1.
  destruct (validate_codex_tool_names v1); [|done]. cbn [pure_step step_bind].
  pose proof (reasoning_and_ids_honest (ir_request c) v1) as Hh2. cbv beta in Hh2.
  destruct (normalize_reasoning_and_ids v1 _) as [v2 b2]. cbn in Hh2.
  destruct (normalize_parallel_tool_calls v2 _) as [[v3 b3]|] eqn:E3; [|done]. cbn [run_bind].
  destruct (match claude_prompt_cache_key _ _ _ _ with Some k => _ | None => _ end)
    as [[v4 b4]|] eqn:E4; [|done]. cbn.
  intros [= <- <-]. cbn. intros [[[-> ->]%orb_false_iff ->]%orb_false_iff ->]%orb_false_iff.
  rewrite <- (Hh1 eq_refl), <- (Hh2 eq_refl). apply parallel_calls_honest in E3 as <-.
  destruct (claude_prompt_cache_key _ _ _ _); [by apply cache_key_honest in E4|congruence].
Qed.
End Codex.

(** ** The prepared body *)

Section Prepared.
Context `{J : SerdeJson} `{!SerdeJsonLaws J} `{Lowercase} `{HttpHeaders} `{OAuthCrates} `{TextCrates}
        `{CodexCrates} `{AnthropicCrates} `{UrlHost} `{Reqwest}.

Lemma prepared_verbatim c p raw :
  prepare c = Ok (Ok p) -> verbatim c p = Some raw -> from_str raw = Some (upstream_body p).
Proof using.
  unfold verbatim, is_pass_through. intros Hp Hv.
  destruct (_ && _) eqn:E in Hv; [|done].
  apply andb_true_iff in E as [[_ Es]%andb_true_iff Hm%negb_true_iff].
  revert Hp. unfold prepare. intros ([body hs] & Ew & Hp)%step_bind_ok. cbn beta iota zeta in Hp.
  pose proof (override_honest (Targets.model_id (target c)) body) as Hh1. cbv beta in Hh1.
  destruct (override_model_in_body body _) as [v1 b1]. cbn in Hh1.
  destruct (prepare_provider_request_body v1 _ _ _) as [[[v2 b2]|]|] eqn:E2; try done.
  cbn [run_bind pure_step step_bind] in Hp.
  apply step_bind_ok in Hp as ([v3 cx] & E3 & Hp). cbn beta iota zeta in Hp.
  assert (exists v4 b4, (if uses_anthropic_oauth_egress_profile c then AnthropicOAuth.prepare_body v3
            else (v3, false)) = (v4, b4) /\ (b4 = false -> v4 = v3)) as (v4 & b4 & E4 & Hh4).
  { destruct (uses_anthropic_oauth_egress_profile c); [|by exists v3, false].
    pose proof (prepare_honest v3) as Hh. destruct (AnthropicOAuth.prepare_body v3) as [v4 b4]. eauto. }
  rewrite E4 in Hp. injection Hp as <-. cbn in Hm |- *.
  apply orb_false_iff in Hm as [[[-> ->]%orb_false_iff Hc]%orb_false_iff ->].
  rewrite Hh4 by done. apply codex_body_honest in E3 as ->; [|done].
  apply provider_body_honest in E2 as ->. rewrite Hh1 by done.
  revert Ew. unfold initial_wire. rewrite Hv, Es. destruct (from_str raw) as [v|]; [|done].
  destruct (encode_request _ _); [|done]. by intros [= <- _].
Qed.

Lemma payload_text c p b :
  rb_body (with_payload c p b) = Some (egress_body_text c p).
Proof using.
  unfold with_payload, egress_body_text. by destruct (verbatim c p).
Qed.

Lemma finalized_request b fe : finalize_egress b = Ok fe -> fe_request fe = b.
Proof using.
  unfold finalize_egress. destruct (rb_error b); [done|].
  destruct (parse_url _) as [|[path host]]; [done|]. by intros [= <-].
Qed.

(** C12: The bytes of a request are the bytes its log entry records, and they mean
    the prepared body: either they are the client's own bytes and parse to the
    prepared body, or they are the printed prepared body, which reads back
    wherever its numbers print exactly (no floats).  The client's bytes are
    sent exactly where client and target speak the same protocol and no
    function that prepares a body for the target reported a change; that none
    of them changes a body without reporting it is what makes the first case
    true.  This is about the body as it was prepared: what a refused WebSocket
    upgrade does to it afterwards is reported as a defect. *)
Theorem sent_body_is_prepared accept c p hs url fe :
  prepare c = Ok (Ok p) ->
  stream_request accept c p hs url = Ok fe \/ nonstream_request c p hs url = Ok fe ->
  rb_body (fe_request fe) = Some (egress_body_text c p)
  /\ ((raw_passthrough_body c = Some (egress_body_text c p)
       /\ from_str (egress_body_text c p) = Some (upstream_body p))
      \/ egress_body_text c p = to_string (upstream_body p))
  /\ (exact (upstream_body p) = true -> from_str (egress_body_text c p) = Some (upstream_body p))
  /\ (body_mutated p = true \/ is_pass_through c = false ->
      egress_body_text c p = to_string (upstream_body p))
  /\ (forall raw, raw_passthrough_body c = Some raw -> is_same_protocol c = true ->
      body_mutated p = false -> egress_body_text c p = raw).
Proof.
  intros Hp Hs.
  assert (rb_body (fe_request fe) = Some (egress_body_text c p)) as Hb.
  { destruct Hs as [Hs%finalized_request|Hs%finalized_request]; rewrite Hs; apply payload_text. }
  assert ((raw_passthrough_body c = Some (egress_body_text c p)
           /\ from_str (egress_body_text c p) = Some (upstream_body p))
          \/ egress_body_text c p = to_string (upstream_body p)) as Hm.
  { unfold egress_body_text. destruct (verbatim c p) as [raw|] eqn:Ev; cbn; [left|by right].
    split; [|by apply (prepared_verbatim c p)].
    revert Ev. unfold verbatim. by destruct (_ && _). }
  split; [exact Hb|]. split; [exact Hm|]. split; [|split].
  - intros Hx. destruct Hm as [[_ Hm]| ->]; [exact Hm|by apply from_to_string].
  - unfold egress_body_text, verbatim. intros [->| ->]; [by rewrite andb_false_r|done].
  - intros raw Hr Hsame Hmut. unfold egress_body_text, verbatim, is_pass_through.
    by rewrite Hr, Hsame, Hmut.
Qed.
End Prepared.

(** ** Concrete calls *)

Module Network.
#[export] Instance plain_urls : CodexCrates := {|
  url_scheme s := if starts_with "https:" s then inr "https" else inr "http";
  url_with_scheme s _ := Some s; url_text s := s; url_safe_padded_decode s := Some s |}.
#[export] Instance plain_hash : AnthropicCrates := {| xxhash64 _ _ := 0%Z; to_str_error := "" |}.
#[export] Instance plain_hosts : UrlHost := {| host_str _ := None |}.
#[export] Instance plain_reqwest : Reqwest := {|
  parse_url s := inr (s, None); header_error := "builder error"; status_text _ := "status" |}.
#[export] Instance plain_tungstenite : Tungstenite := {| parse_ws_url s := inr s; utf8_error s := s |}.
#[export] Existing Instances coded_json coded_json_laws ascii_folding token_headers plain_crates hex_crates.

Definition plain_tunables : Tunables := {|
  header_policy := HeaderForwardPolicy.with_defaults; upstream_nonstream_timeout_secs := 0;
  upstream_ttfb_timeout_secs := 0; upstream_stream_idle_timeout_secs := 120;
  upstream_stream_total_timeout_secs := 600 |}.

Definition codex_target : RoutingTarget :=
  {| Targets.provider_id := "p"; Targets.vendor := None; Targets.model_id := "gpt-5";
     Targets.api_base := "https://chatgpt.com/backend-api/codex"; Targets.api_key := "";
     Targets.api_protocol := ProtocolSuite.default_endpoint OpenAiResponses;
     Targets.account_label := None; Targets.api_key_override := None;
     Targets.api_base_override := None; Targets.weight := f64_zero;
     Targets.oauth := Some
       {| Targets.upstream_transport := Targets.CodexResponsesWebSocket;
          Targets.egress_profile := Targets.OpenAiCodex;
          Targets.token_url := ""; Targets.client_id := ""; Targets.client_secret := None;
          Targets.refresh_token := "r"; Targets.scopes := []; Targets.token_request_style := Targets.Form;
          Targets.authorization_header := None; Targets.authorization_prefix := None;
          Targets.extra_headers := []; Targets.account_id := None |} |}.

(** What a Codex client sends over HTTP to a gateway that talks to the back end
    over a WebSocket, where the previous response may be named. *)
Definition codex_body : Value :=
  obj [("model", Str "gpt-5"); ("stream", Bool true); ("instructions", Str ""); ("store", Bool false);
       ("include", include_value); ("parallel_tool_calls", Bool true); ("input", Arr []);
       ("prompt_cache_key", Str "k"); ("previous_response_id", Str "resp_1");
       ("tools", Arr [obj [("type", Str "function"); ("name", Str "f"); ("parameters", obj [])]])].

Definition codex_ir : IrRequest :=
  match decode_request OpenAiResponses codex_body with
  | Ok ir => ir
  | Err _ => Lossy.sample_request
  end.

Definition codex_call : Call :=
  {| tunables := plain_tunables; codec := OpenAiResponses;
     call_ingress := ProtocolSuite.default_endpoint OpenAiResponses; ir_request := codex_ir;
     target := codex_target; call_stream := true;
     raw_passthrough_body := Some (to_string codex_body); traceparent := "t";
     call_request_id := "req-1"; client_headers := [("authorization", "Bearer client")];
     caller_key_id := "anonymous"; now_v7 := "now" |}.

Definition codex_prepared : Prepared :=
  match prepare codex_call with
  | Ok (Ok p) => p
  | _ => {| upstream_body := Null; codec_headers := ∅; body_mutated := true; codex := codex_off;
            anthropic_profile := false |}
  end.
End Network.

Import Network.

(** After a refused upgrade the fields that only the WebSocket understands are
    taken out of the body, and the log records the new body; the flag that the
    body is still the client's is not cleared, so the client's bytes are sent
    with them. *)
Example refused_upgrade_sends_stale_body :
  let p := after_refusal codex_prepared in
  get "previous_response_id" (upstream_body p) = None
  /\ (rb_body ∘ fe_request <$> stream_request true codex_call p ∅ "u") = Ok (Some (to_string codex_body))
  /\ (get "previous_response_id" <$> from_str (to_string codex_body)) = Some (Some (Str "resp_1")).
Proof. vm_compute. auto. Qed.

Definition codex_sent : FinalizedEgress :=
  match stream_request true codex_call codex_prepared ∅ "u" with
  | Ok fe => fe
  | Err _ => {| fe_request := post ""; fe_headers := []; fe_method := ""; fe_path := "" |}
  end.

Lemma sent_body_is_prepared_witness :
  rb_body (fe_request codex_sent) = Some (egress_body_text codex_call codex_prepared)
  /\ egress_body_text codex_call codex_prepared = to_string codex_body.
Proof.
  assert (prepare codex_call = Ok (Ok codex_prepared)) as Hp by (vm_compute; reflexivity).
  assert (stream_request true codex_call codex_prepared ∅ "u" = Ok codex_sent) as Hs
    by (vm_compute; reflexivity).
  destruct (sent_body_is_prepared true codex_call codex_prepared ∅ "u" codex_sent Hp (or_introl Hs))
    as (Hb & _ & _ & _ & Hraw).
  split; [exact Hb|]. apply Hraw; vm_compute; reflexivity.
Defined.
