(* ===== verification/ExecutorsProps.v ===== *)
(** * ExecutorsProps: what the executors promise

    Which credentials leave the gateway, what becomes of every answer of an
    upstream, and what is captured of an exchange. *)

From stdpp Require Import base option list gmap strings.
From Stdlib Require Import ZArith Lia Ascii.
From S2P Require Import Prelude RustStr Http F64 Json JsonBody Protocol Classify Errors Targets Ir HeaderForward Lossy ResponseModel Streaming StreamingRecord Codecs.
From S2P Require Import ProviderConfig OAuthTokens Providers OAuthEffects EgressBody CodexOAuth AnthropicOAuth Egress UpstreamRequest Executors ExecutorsBody.

Local Open Scope string_scope.
Local Open Scope list_scope.

(** ** Credentials *)

Definition credential_names : list string :=
  ["authorization"; "proxy-authorization"; "x-api-key"; "x-goog-api-key"; "cookie"].

(** The applier [apply_provider_auth] chooses for a static key. *)
Definition target_applier (registered : list Providers.Provider) (t : RoutingTarget) : AuthApplier :=
  match find_provider registered (lookup_key t) with
  | Some p => auth p
  | None =>
      match suite (api_protocol t) with
      | AnthropicMessages => HeaderApiKeyAuthApplier "x-api-key"
      | GoogleGemini => HeaderApiKeyAuthApplier "x-goog-api-key"
      | _ => BearerAuthApplier
      end
  end.

(** The value of a credential header in a request to a target. *)
Definition credential_of (registered : list Providers.Provider) (t : RoutingTarget) (n : string)
    : option string :=
  match target_applier registered t with
  | BearerAuthApplier =>
      if String.eqb n "authorization" then Some ("Bearer " +:+ RoutingTarget.effective_api_key t) else None
  | HeaderApiKeyAuthApplier name =>
      if String.eqb n (ascii_lowercase name) then Some (RoutingTarget.effective_api_key t) else None
  | BedrockAuthApplier =>
      if String.eqb n "authorization" then Some "AWS4-HMAC-SHA256 placeholder" else None
  end.

(** Extra headers of a provider that are no credentials. *)
Definition plain_extras `{HttpHeaders} (p : Providers.Provider) : Prop :=
  forall key n v n', In (n, v) (Providers.extra_headers p key) -> header_name_of n = inr n' ->
    ~ In n' credential_names.

Section Credentials.
Context `{HH : HttpHeaders} `{!HttpHeadersLaws HH} `{Lowercase}.

Lemma merge_one_other policy upstream nv n :
  HeaderForwardPolicy.should_forward_request policy n = false ->
  merge_one policy upstream nv !! n = upstream !! n.
Proof using.
  destruct nv as [name value]. unfold merge_one. intros Hn.
  destruct (negb _) eqn:E; [done|]. destruct (contains_key name upstream); [done|].
  apply lookup_insert_ne. intros ->. by rewrite Hn in E.
Qed.

Lemma merge_denied client upstream policy n :
  HeaderForwardPolicy.should_forward_request policy n = false ->
  merge_client_headers client upstream policy !! n = upstream !! n.
Proof using.
  intros Hn. unfold merge_client_headers. revert upstream.
  induction client as [|nv client IH]; intros upstream; [done|]. cbn. rewrite IH. by apply merge_one_other.
Qed.

Lemma identity_other client upstream policy o n :
  ~ In n (map fst GATEWAY_IDENTITY_HEADERS) ->
  apply_gateway_identity_headers client upstream policy o !! n = upstream !! n.
Proof using.
  intros Hn. unfold apply_gateway_identity_headers.
  assert (forall l hs, incl l GATEWAY_IDENTITY_HEADERS ->
    fold_left (identity_one client policy o) l hs !! n = hs !! n) as Hl.
  { induction l as [|[name d] l IH]; intros hs Hi; [done|]. cbn [fold_left].
    rewrite IH by (intros x Hx; apply Hi; by right).
    assert (name <> n) as Hne.
    { intros ->. apply Hn, (in_map fst _ (n, d)), Hi. by left. }
    unfold identity_one. split_ifs; try done; (apply lookup_delete_ne || apply lookup_insert_ne); done. }
  apply Hl, incl_refl.
Qed.

Lemma extra_headers_other p caller hs n :
  plain_extras p -> In n credential_names ->
  inject_provider_extra_headers p caller hs !! n = hs !! n.
Proof using.
  intros Hp Hn. unfold inject_provider_extra_headers.
  generalize (if is_empty caller || String.eqb caller "anonymous" then "tiygate-anonymous" else caller).
  intros key. specialize (Hp key).
  revert Hp hs. induction (Providers.extra_headers p key) as [|[m v] l IH]; intros Hp hs; [done|].
  cbn [fold_left]. rewrite IH by (intros m' v' n' Hin; apply (Hp m' v' n'); by right).
  unfold extra_one. cbn.
  destruct (header_name_of m) as [|m'] eqn:Em; [done|]. destruct (header_value_of v); [done|].
  destruct (contains_key m' hs); [done|]. apply lookup_insert_ne. intros ->.
  by apply (Hp m v n); [left| |].
Qed.

Lemma applied_credential a t hs hs' n :
  Providers.apply a hs t = Ok hs' ->
  (forall m, In m credential_names -> hs !! m = None) -> In n credential_names ->
  hs' !! n
  = match a with
    | BearerAuthApplier =>
        if String.eqb n "authorization" then Some ("Bearer " +:+ RoutingTarget.effective_api_key t) else None
    | HeaderApiKeyAuthApplier name =>
        if String.eqb n (ascii_lowercase name) then Some (RoutingTarget.effective_api_key t) else None
    | BedrockAuthApplier =>
        if String.eqb n "authorization" then Some "AWS4-HMAC-SHA256 placeholder" else None
    end.
Proof using HttpHeadersLaws0.
  intros Ha Hf Hn. destruct a as [|name|]; cbn in Ha.
  - unfold bearer_apply in Ha. destruct (header_value_of _) as [|v] eqn:Ev; [done|]. injection Ha as <-.
    apply header_value_same in Ev as ->.
    destruct (String.eqb_spec n "authorization") as [->|Hne]; [apply lookup_insert_eq|].
    etransitivity; [by apply lookup_insert_ne|by apply Hf].
  - unfold api_key_apply in Ha. destruct (header_name_of name) as [|m] eqn:Em; [done|].
    destruct (header_value_of _) as [|v] eqn:Ev; [done|]. injection Ha as <-.
    apply header_value_same in Ev as ->. apply header_name_lower in Em as ->.
    destruct (String.eqb_spec n (ascii_lowercase name)) as [->|Hne]; [apply lookup_insert_eq|].
    etransitivity; [by apply lookup_insert_ne|by apply Hf].
  - unfold bedrock_apply in Ha. injection Ha as <-. rewrite contains_key_lookup.
    rewrite (Hf "authorization") by (by left). 
    destruct (String.eqb_spec n "authorization") as [->|Hne]; [apply lookup_insert_eq|].
    etransitivity; [by apply lookup_insert_ne|by apply Hf].
Qed.

Lemma static_credential registered t hs caller hs' n :
  static_auth registered t hs caller = Ok hs' ->
  (forall p, In p registered -> plain_extras p) ->
  (forall m, In m credential_names -> hs !! m = None) -> In n credential_names ->
  hs' !! n = credential_of registered t n.
Proof using HttpHeadersLaws0.
  unfold static_auth, credential_of, target_applier. intros Ha Hx Hf Hn.
  destruct (find_provider registered (lookup_key t)) as [p|] eqn:Ep.
  - destruct (Providers.apply (auth p) hs t) as [hs1|] eqn:E1; [|done]. injection Ha as <-.
    rewrite extra_headers_other; [|apply Hx|done]; [by eapply applied_credential|].
    unfold find_provider in Ep. by apply find_some in Ep as [? _].
  - set (a := match suite _ with AnthropicMessages => _ | _ => _ end) in *.
    destruct (Providers.apply a hs t) as [hs1|] eqn:E1; [|done]. injection Ha as <-.
    rewrite <- (applied_credential a t hs hs1 n E1 Hf Hn). destruct (suite (api_protocol t)); try done.
    apply lookup_insert_ne. intros <-. cbn in Hn. intuition discriminate.
Qed.
End Credentials.

Section Static.
Context `{J : SerdeJson} `{Lowercase} `{HH : HttpHeaders} `{!HttpHeadersLaws HH} `{OAuthCrates}
        `{TextCrates} `{CodexCrates} `{AnthropicCrates} `{UrlHost} `{Reqwest} `{Tungstenite}.

Lemma wire_headers c v hs n :
  initial_wire c = Ok (Ok (v, hs)) -> In n credential_names ->
  (list_to_map hs : HeaderMap) !! n = None.
Proof using.
  intros Hw Hn.
  assert (hs = [] \/ hs = [("content-type", "application/json")]
          \/ hs = [("content-type", "application/json"); ("anthropic-version", "2023-06-01")]) as Hs.
  { assert (forall s r, encode_request s (ir_request c) = Ok r ->
      (match r with Ok w => yields w | Err e => fails (encode_failed e) end) = Ok (Ok (v, hs)) ->
      hs = [("content-type", "application/json")]
      \/ hs = [("content-type", "application/json"); ("anthropic-version", "2023-06-01")]) as He.
    { intros s [w|] Er; [|done]. intros [= ->]. by eapply encoded_headers. }
    assert (encode_cross c = Ok (Ok (v, hs)) -> hs = [("content-type", "application/json")]
      \/ hs = [("content-type", "application/json"); ("anthropic-version", "2023-06-01")]) as Hx.
    { unfold encode_cross. intros (m & [= Em] & Hm)%step_bind_ok.
      apply encoded_requests_lose_nothing in Em as [[= <-] _].
      destruct (encode_request _ _) as [r|] eqn:Er; [|done]. by eapply He. }
    revert Hw. unfold initial_wire, encoded. destruct (raw_passthrough_body c).
    - destruct (is_same_protocol c); [|auto]. destruct (from_str s); [|done].
      destruct (encode_request _ _) as [[[w h]|]|] eqn:Er; cbn; [|by intros [=]; left|done].
      intros [= <- <-]. right. by eapply encoded_headers.
    - destruct (is_same_protocol c); [|auto].
      destruct (encode_request _ _) as [r|] eqn:Er; [|done]. intros Hr. right. by eapply He. }
  cbn in Hn. intuition (subst; reflexivity).
Qed.

Lemma prepared_headers c p n :
  prepare c = Ok (Ok p) -> In n credential_names -> codec_headers p !! n = None.
Proof using.
  unfold prepare. intros ([v hs] & Hw & Hp)%step_bind_ok Hn. cbn beta iota zeta in Hp.
  destruct (override_model_in_body v _). destruct (prepare_provider_request_body _ _ _ _); [|done].
  cbn [run_bind] in Hp. apply step_bind_ok in Hp as ([? ?] & _ & Hp). cbn beta iota in Hp.
  apply step_bind_ok in Hp as ([? ?] & _ & Hp). cbn beta iota zeta in Hp.
  destruct (uses_anthropic_oauth_egress_profile c); [destruct (AnthropicOAuth.prepare_body _)|];
    injection Hp as <-; by eapply wire_headers.
Qed.

Lemma static_profiles c p :
  prepare c = Ok (Ok p) -> oauth (target c) = None ->
  profile_enabled (codex p) = false /\ anthropic_profile p = false /\ websocket (codex p) = false.
Proof using.
  unfold prepare. intros ([v hs] & _ & Hp)%step_bind_ok Ho. cbn beta iota zeta in Hp.
  destruct (override_model_in_body v _). destruct (prepare_provider_request_body _ _ _ _); [|done].
  cbn [run_bind] in Hp. apply step_bind_ok in Hp as ([? ?] & _ & Hp). cbn beta iota in Hp.
  apply step_bind_ok in Hp as ([? cx] & Hc & Hp). cbn beta iota zeta in Hp.
  unfold prepare_codex_egress_body, CodexOAuth.is_enabled in Hc. rewrite Ho in Hc.
  assert (uses_anthropic_oauth_egress_profile c = false) as Ha.
  { unfold uses_anthropic_oauth_egress_profile, AnthropicOAuth.is_enabled. rewrite Ho.
    by destruct (egress_suite c). }
  rewrite Ha in Hp. injection Hp as <-. cbn.
  destruct (egress_suite c); injection Hc as <- <-; done.
Qed.

(** The default deny list covers the credentials, however it is extended. *)
Lemma credentials_denied extra_req extra_resp n :
  In n credential_names ->
  HeaderForwardPolicy.should_forward_request
    (HeaderForwardPolicy.with_response_deny_extra
       (HeaderForwardPolicy.with_request_deny_extra HeaderForwardPolicy.with_defaults extra_req)
       extra_resp) n = false.
Proof using.
  intros Hn. apply denied_headers_stay_denied. left.
  cbn in Hn. repeat destruct Hn as [<-|Hn]; try done;
    rewrite to_lowercase_ascii by done; apply (bool_decide_unpack _); vm_compute; exact I.
Qed.

Lemma appended_headers accept c p hs url fe :
  stream_request accept c p hs url = Ok fe \/ nonstream_request c p hs url = Ok fe ->
  rb_headers (fe_request fe) = hs
  /\ forall n v, In (n, v) (rb_appended (fe_request fe)) -> ~ In n credential_names.
Proof using.
  assert (forall n v b, ~ In n credential_names ->
    (rb_headers b = hs /\ forall m w, In (m, w) (rb_appended b) -> ~ In m credential_names) ->
    rb_headers (rb_header n v b) = hs
    /\ forall m w, In (m, w) (rb_appended (rb_header n v b)) -> ~ In m credential_names) as Hh.
  { intros n v b Hn [E Hb]. unfold rb_header. destruct (rb_error b); [done|].
    destruct (header_value_of v); [done|]. cbn. split; [done|]. intros m w [Hm|[[= <- <-]|[]]]%in_app_or; [by eapply Hb|done]. }
  assert (forall b, (rb_headers b = hs /\ forall m w, In (m, w) (rb_appended b) -> ~ In m credential_names) ->
    rb_headers (with_payload c p b) = hs
    /\ forall m w, In (m, w) (rb_appended (with_payload c p b)) -> ~ In m credential_names) as Hp.
  { intros b Hb. unfold with_payload, rb_json. destruct (verbatim c p); [|destruct (_ || _)]; cbn.
    - apply (Hh "content-type"); [cbn; intuition discriminate|done].
    - done.
    - apply (Hh "content-type"); [cbn; intuition discriminate|done]. }
  assert (rb_headers (rb_with_headers hs (post url)) = hs) as E0 by (cbn; apply (right_id_L ∅ (∪))).
  intros [Hs|Hs]; apply finalized_request in Hs; rewrite Hs; clear Hs fe; apply Hp.
  - apply Hh; [cbn; intuition discriminate|].
    destruct accept; [apply Hh; [cbn; intuition discriminate|]|]; (split; [exact E0|by intros ? ? []]).
  - assert (rb_headers (with_nonstream_timeout (upstream_nonstream_timeout_secs (tunables c))
                          (rb_with_headers hs (post url))) = hs
            /\ rb_appended (with_nonstream_timeout (upstream_nonstream_timeout_secs (tunables c))
                          (rb_with_headers hs (post url))) = []) as [E1 E2].
    { unfold with_nonstream_timeout. destruct (_ =? _)%Z; (split; [exact E0|done]). }
    assert (forall b, rb_headers b = hs /\ rb_appended b = [] ->
      rb_headers b = hs /\ forall m w, In (m, w) (rb_appended b) -> ~ In m credential_names) as Hb.
    { intros b [? ->]. split; [done|]. by intros ? ? []. }
    destruct (profile_enabled (codex p)); repeat (apply Hh; [cbn; intuition discriminate|]); by apply Hb.
Qed.

(** C11: The credentials of a client never reach an upstream.  A request to a target
    with a static key carries, of all headers that hold credentials, exactly
    the one its provider asks for with the key of the target: whatever headers
    the client sent, under any header policy built from the defaults, and for
    each of the four executors.  If something goes wrong on the way no request
    is sent at all. *)
Theorem only_target_credentials_leave v c p oauth_apply registered http ws extra_req extra_resp :
  header_policy (tunables c)
  = HeaderForwardPolicy.with_response_deny_extra
      (HeaderForwardPolicy.with_request_deny_extra HeaderForwardPolicy.with_defaults extra_req) extra_resp ->
  (forall hs, oauth_apply (target c) hs = Ret (Ok None)) ->
  (forall q, In q registered -> plain_extras q) ->
  oauth (target c) = None -> prepare c = Ok (Ok p) ->
  (exists e, execute v c oauth_apply registered http ws = Ret (rejected e, None))
  \/ (exists hs, execute v c oauth_apply registered http ws = Ret (send v c http ws p hs, None)
        /\ uses_socket c p = false
        /\ forall accept url fe,
             stream_request accept c p hs url = Ok fe \/ nonstream_request c p hs url = Ok fe ->
             forall n, In n credential_names ->
               rb_headers (fe_request fe) !! n = credential_of registered (target c) n
               /\ forall w, ~ In (n, w) (rb_appended (fe_request fe))).
Proof.
  intros Hpol Hoa Hreg Ho Hp. unfold execute. rewrite Hp. unfold apply_provider_auth. rewrite Hoa.
  cbn [prog_bind].
  destruct (static_auth registered (target c) (headers_before_auth c p) (caller_key_id c))
    as [hs1|e] eqn:Ea; [|left; by exists e].
  destruct (static_profiles c p Hp Ho) as (Hc & Han & Hws).
  unfold headers_after_auth. rewrite Hc, Han. cbn [mbind result_bind]. right.
  eexists. split; [reflexivity|]. split; [unfold uses_socket; by rewrite Hws|].
  intros accept url fe Hs n Hn. destruct (appended_headers _ _ _ _ _ _ Hs) as [-> Happ].
  split; [|by intros w Hw; apply (Happ n w)].
  rewrite identity_other.
  - eapply static_credential; try done.
    intros m Hm. unfold headers_before_auth. rewrite merge_denied; [by eapply prepared_headers|].
    rewrite Hpol. by apply credentials_denied.
  - cbn in Hn |- *. intuition (subst; discriminate).
Qed.
End Static.

(** ** What becomes of an answer *)

Section Answers.
Context `{J : SerdeJson} `{Lowercase} `{HH : HttpHeaders} `{OAuthCrates} `{TextCrates} `{CodexCrates}
        `{AnthropicCrates} `{UrlHost} `{Reqwest} `{Tungstenite}.

(** The request an executor sends over HTTP. *)
Definition http_request (v : Variant) (c : Call) (p : Prepared) (hs : HeaderMap) (url : string)
    : result AppError FinalizedEgress :=
  if call_stream c then stream_request (stream_accepts v) c p hs url else nonstream_request c p hs url.

Lemma failure_fields s message :
  (100 <= s <= 999)%Z ->
  AppError.http_status (upstream_failure s message) = s
  /\ Errors.upstream_status (upstream_failure s message) = Some s
  /\ error_class (upstream_failure s message) = classify_upstream_error (Some s) None.
Proof using.
  intros [Hl Hu]. unfold upstream_failure, status_from_u16, AppError.http_status.
  rewrite (proj2 (Z.leb_le _ _) Hl), (proj2 (Z.leb_le _ _) Hu). done.
Qed.

(** *** Which requests an attempt sends *)

(** The part of an attempt that goes over HTTP: at once, or after the upgrade
    to a WebSocket was refused; with what was captured before. *)
Definition over_http (c : Call) (ws : WsRequest -> WsExchange) (p : Prepared) (hs : HeaderMap)
    : option (Prepared * HeaderMap * string * list ExchangeCapture) :=
  match upstream_url c with
  | Err _ => None
  | Ok url =>
      if uses_socket c p then
        let tried := socket_within_timeout c ws (upstream_body p) hs url in
        match outcome tried with
        | Err e => if (AppError.http_status e =? 426)%Z
                   then Some (after_refusal p, codex_headers c false (session_key (codex p)) hs, url, captures tried)
                   else None
        | Ok _ => None
        end
      else Some (p, hs, url, [])
  end.

(** The upgrade was refused and the client's own bytes are sent again: the one
    case where the bytes that are recorded are not those that are sent. *)
Definition stale_record (c : Call) (ws : WsRequest -> WsExchange) (p : Prepared) (hs : HeaderMap) : bool :=
  uses_socket c p && is_some (over_http c ws p hs) && is_some (verbatim c p).

(** The last request of an attempt: its bytes, and the captures before it. *)
Definition sent_last (v : Variant) (c : Call) (ws : WsRequest -> WsExchange) (p : Prepared) (hs : HeaderMap)
    (before : list ExchangeCapture) (bytes : option string) : Prop :=
  match over_http c ws p hs with
  | Some (q, hs', url, earlier) =>
      before = earlier
      /\ exists fe, http_request v c q hs' url = Ok fe /\ bytes = rb_body (fe_request fe)
  | None =>
      before = []
      /\ exists url wr, upstream_url c = Ok url /\ uses_socket c p = true
           /\ socket_request c (upstream_body p) hs url = Ok wr /\ bytes = Some (wr_body wr)
  end.

Lemma request_bytes v c p hs url fe :
  http_request v c p hs url = Ok fe -> rb_body (fe_request fe) = Some (egress_body_text c p).
Proof using.
  unfold http_request. destruct (call_stream c); intros Hs%finalized_request; rewrite Hs; apply payload_text.
Qed.

(** The HTTP part of an attempt. *)
Lemma send_over_http v c http ws p hs q hs' url before :
  over_http c ws p hs = Some (q, hs', url, before) ->
  exists text,
    outcome (send v c http ws p hs) = outcome (send_http v c http q text hs' url)
    /\ captures (send v c http ws p hs) = before ++ captures (send_http v c http q text hs' url)
    /\ (stale_record c ws p hs = false ->
        forall fe, http_request v c q hs' url = Ok fe -> Some text = rb_body (fe_request fe)).
Proof using.
  unfold over_http, send, stale_record. destruct (upstream_url c) as [u|] eqn:Eu; [|done].
  destruct (uses_socket c p) eqn:Es.
  - destruct (outcome _) as [|e] eqn:Eo; [done|]. destruct (_ =? _)%Z eqn:Ez; [|done]. intros [= <- <- <- <-].
    eexists. split; [reflexivity|]. split; [reflexivity|]. unfold over_http. rewrite Eu, Es, Eo, Ez.
    cbn [andb is_some]. intros Hv fe ->%request_bytes. unfold egress_body_text.
    change (verbatim c (after_refusal p)) with (verbatim c p). by destruct (verbatim c p).
  - intros [= <- <- <- <-]. eexists. split; [reflexivity|]. split; [reflexivity|].
    by intros _ fe ->%request_bytes.
Qed.

(** A socket that answers. *)
Lemma socket_answers c ws body hs url resp t :
  outcome (socket_within_timeout c ws body hs url) = Ok (resp, t) ->
  exists wr s, socket_request c body hs url = Ok wr /\ we_answer (ws wr) = Ok s
    /\ socket_within_timeout c ws body hs url = run_session c wr s (we_after (ws wr)).
Proof using.
  intros Ho.
  assert (socket_within_timeout c ws body hs url = execute_codex_responses_websocket c ws body hs url) as E.
  { revert Ho. unfold socket_within_timeout. destruct (_ || _); [done|].
    destruct (socket_request _ _ _ _); [|done]. by destruct (_ <? _)%Z. }
  rewrite E in Ho |- *. clear E. unfold execute_codex_responses_websocket in *.
  destruct (socket_request _ _ _ _) as [wr|]; [|done]. exists wr.
  destruct (_ && _); [done|]. destruct (we_answer (ws wr)) as [s|[]]; [|done]. by exists s.
Qed.

(** An attempt that succeeds does so over HTTP or over the socket. *)
Lemma send_answers v c http ws p hs resp t :
  outcome (send v c http ws p hs) = Ok (resp, t) ->
  (exists q hs' url before, over_http c ws p hs = Some (q, hs', url, before))
  \/ over_http c ws p hs = None /\ exists url wr s,
       upstream_url c = Ok url /\ uses_socket c p = true
       /\ socket_request c (upstream_body p) hs url = Ok wr
       /\ we_answer (ws wr) = Ok s /\ send v c http ws p hs = run_session c wr s (we_after (ws wr)).
Proof using.
  unfold send, over_http. destruct (upstream_url c) as [url|]; [|done].
  destruct (uses_socket c p); [|by left; eauto 10].
  destruct (outcome (socket_within_timeout _ _ _ _ _)) as [[r1 t1]|e] eqn:Eo.
  - intros _. right. split; [done|]. apply socket_answers in Eo as (wr & s & W1 & W2 & W3).
    by exists url, wr, s.
  - destruct (_ =? _)%Z; [by left; eauto 10|]. by rewrite Eo.
Qed.

Lemma failure_over_http v c http p text hs url fe r body :
  http_request v c p hs url = Ok fe ->
  ex_answer (http fe) = Ok r -> ur_text r = Ok body ->
  (call_stream c = true -> ex_after (http fe) <= upstream_ttfb_timeout_secs (tunables c) * ns_per_sec)%Z ->
  (100 <= ur_status r <= 999)%Z -> is_success (ur_status r) = false ->
  exists e cap,
    send_http v c http p text hs url = {| outcome := Err e; captures := [cap] |}
    /\ AppError.http_status e = ur_status r
    /\ Errors.upstream_status e = Some (ur_status r)
    /\ error_class e = classify_upstream_error (Some (ur_status r)) None
    /\ retry_after_header e = extract_retry_after (ur_headers r)
    /\ Streaming.request_id cap = call_request_id c
    /\ Streaming.upstream_status cap = Some (ur_status r)
    /\ egress_body cap = Some text
    /\ is_stream cap = call_stream c.
Proof using.
  intros Hr Ha Ht Hd Hs Hf. unfold send_http, http_request in *. destruct (call_stream c); rewrite Hr.
  - unfold finish_stream, execute_with_ttfb_timeout.
    rewrite (proj2 (Z.ltb_ge _ _) (Hd eq_refl)), andb_false_r, Ha, Hf, Ht. cbn [negb].
    eexists _, _. split; [reflexivity|]. unfold failed_stream.
    set (m := "Upstream " +:+ _). destruct (failure_fields (ur_status r) m Hs) as (E1 & E2 & E3).
    destruct (keeps_stream_rate_limits v), (extract_retry_after (ur_headers r)); done.
  - assert (forall b, exists e cap, finish_failure v c fe text r b = {| outcome := Err e; captures := [cap] |}
      /\ AppError.http_status e = ur_status r /\ Errors.upstream_status e = Some (ur_status r)
      /\ error_class e = classify_upstream_error (Some (ur_status r)) None
      /\ retry_after_header e = extract_retry_after (ur_headers r)
      /\ Streaming.request_id cap = call_request_id c
      /\ Streaming.upstream_status cap = Some (ur_status r)
      /\ egress_body cap = Some text /\ is_stream cap = false) as Hb.
    { intros b. eexists _, _. split; [reflexivity|]. unfold failed_body.
      set (m := if reports_body v then _ else _).
      destruct (failure_fields (ur_status r) m Hs) as (E1 & E2 & E3).
      destruct (or_else _ _), (extract_retry_after (ur_headers r)); done. }
    unfold finish_nonstream, parse_nonstream_upstream_body. rewrite Ha, Ht, Hf. cbn [negb].
    destruct (parses_late v); apply Hb.
Qed.

(** C14: An upstream that answers a request over HTTP with a failure whose body can
    be read fails the attempt, whichever executor runs it, streaming or not,
    and also when the request follows a refused WebSocket upgrade: the error
    has the status of the upstream (100 to 999), the class that the fallback
    policy gives to that status, and the upstream's [Retry-After]; exactly one
    exchange is captured for it, after what the refused upgrade captured, with
    the status that came back and the bytes of the request that was sent.  The
    bytes may differ in one case only: after a refused upgrade when the
    client's own bytes are sent again.  A stream's answer must come within the
    time to the first byte. *)
Theorem upstream_failures_reported v c http ws p hs q hs' url before fe r body :
  over_http c ws p hs = Some (q, hs', url, before) -> http_request v c q hs' url = Ok fe ->
  ex_answer (http fe) = Ok r -> ur_text r = Ok body ->
  (call_stream c = true -> ex_after (http fe) <= upstream_ttfb_timeout_secs (tunables c) * ns_per_sec)%Z ->
  (100 <= ur_status r <= 999)%Z -> is_success (ur_status r) = false ->
  exists e cap,
    outcome (send v c http ws p hs) = Err e /\ captures (send v c http ws p hs) = before ++ [cap]
    /\ AppError.http_status e = ur_status r
    /\ Errors.upstream_status e = Some (ur_status r)
    /\ error_class e = classify_upstream_error (Some (ur_status r)) None
    /\ retry_after_header e = extract_retry_after (ur_headers r)
    /\ Streaming.request_id cap = call_request_id c
    /\ Streaming.upstream_status cap = Some (ur_status r)
    /\ (stale_record c ws p hs = false -> egress_body cap = rb_body (fe_request fe))
    /\ is_stream cap = call_stream c.
Proof.
  intros Ho Hr Ha Ht Hd Hs Hf. destruct (send_over_http v c http ws p hs _ _ _ _ Ho) as (text & -> & -> & Hb).
  destruct (failure_over_http v c http q text hs' url fe r body Hr Ha Ht Hd Hs Hf) as (e & cap & -> & ? & ? & ? & ? & ? & ? & Htext & ?).
  exists e, cap. cbn [outcome captures]. repeat (split; [done|]). split; [|done].
  intros Hst. by rewrite Htext, (Hb Hst fe Hr).
Qed.

(** What a conversion between two protocols makes of an upstream's answer. *)
Definition converted (c : Call) (body answer : Value) : Prop :=
  (suite (call_ingress c) = egress_suite c /\ answer = body)
  \/ (suite (call_ingress c) <> egress_suite c
      /\ exists ir, decode_response (egress_suite c) body = Ok ir /\ encode_response (codec c) ir = Ok answer).

Lemma client_body_converted c body answer :
  client_body c body = Ok answer ->
  exists converted_body, converted c body converted_body
    /\ answer = apply_json (model_override c) converted_body.
Proof using.
  unfold client_body, convert_response, converted, is_same_protocol, get_egress_codec.
  case_bool_decide as E; cbn; [intros [= <-]; eauto|].
  destruct (decode_response _ body) as [ir|] eqn:Ed; [|done].
  destruct (encode_response _ ir) as [b|] eqn:Ee; [|done]. cbn. intros [= <-]. exists b.
  split; [|done]. right. split; [done|]. by exists ir.
Qed.

(** How an executor reads the body of a success. *)
Definition success_body (codex_profile : bool) (text : string) : option Value :=
  if codex_profile then match parse_http_response text with Ok v => Some v | Err _ => None end
  else from_str text.

Lemma finish_success_spec v c fe text cx r raw after body :
  let o := finish_success v c fe text cx r raw after body in
  (length (captures o) <= 1)%nat
  /\ match outcome o with
     | Err _ => True
     | Ok (resp, _) =>
         check_nonstream_error_body body (ur_status r) (extract_retry_after (ur_headers r))
           (extract_rate_limit_headers (ur_headers r)) = None
         /\ exists answer cap, client_body c body = Ok answer /\ resp_body resp = JsonBody answer
            /\ captures o = [cap] /\ Streaming.request_id cap = call_request_id c
            /\ egress_body cap = Some text /\ client_resp_body cap = Some (to_string answer)
     end.
Proof using.
  unfold finish_success. destruct (check_nonstream_error_body _ _ _ _); [cbn; split; [lia|done]|].
  destruct (client_body c body) as [answer|] eqn:E; [|cbn; split; [lia|done]].
  cbn. split; [lia|]. split; [done|]. eauto 10.
Qed.

Lemma nonstream_spec v c fe text cx ex :
  let o := finish_nonstream v c fe text cx ex in
  (length (captures o) <= 1)%nat
  /\ forall resp t, outcome o = Ok (resp, t) ->
     exists r raw body answer cap,
       ex_answer ex = Ok r /\ is_success (ur_status r) = true /\ ur_text r = Ok raw
       /\ success_body cx raw = Some body
       /\ check_nonstream_error_body body (ur_status r) (extract_retry_after (ur_headers r))
            (extract_rate_limit_headers (ur_headers r)) = None
       /\ client_body c body = Ok answer /\ resp_body resp = JsonBody answer
       /\ captures o = [cap] /\ Streaming.request_id cap = call_request_id c
       /\ egress_body cap = Some text /\ client_resp_body cap = Some (to_string answer).
Proof using.
  unfold finish_nonstream. destruct (ex_answer ex) as [r|]; [|cbn; split; [lia|done]].
  destruct (ur_text r) as [raw|] eqn:Et; [|cbn; split; [lia|done]].
  assert (forall body, is_success (ur_status r) = true -> success_body cx raw = Some body ->
    let o := finish_success v c fe text cx r raw (ex_after ex) body in
    (length (captures o) <= 1)%nat
    /\ forall resp t, outcome o = Ok (resp, t) -> exists r0 raw0 body answer cap,
       Ok (E:=SendError) r = Ok r0 /\ is_success (ur_status r0) = true /\ ur_text r0 = Ok raw0
       /\ success_body cx raw0 = Some body
       /\ check_nonstream_error_body body (ur_status r0) (extract_retry_after (ur_headers r0))
            (extract_rate_limit_headers (ur_headers r0)) = None
       /\ client_body c body = Ok answer /\ resp_body resp = JsonBody answer
       /\ captures o = [cap] /\ Streaming.request_id cap = call_request_id c
       /\ egress_body cap = Some text /\ client_resp_body cap = Some (to_string answer)) as Hfin.
  { intros body Hs Hb o. destruct (finish_success_spec v c fe text cx r raw (ex_after ex) body) as [Hl Ho].
    split; [exact Hl|]. intros resp t Er. fold o in Ho. rewrite Er in Ho.
    destruct Ho as (Hc & answer & cap & Ha). exists r, raw, body, answer, cap. intuition. }
  unfold parse_late, parse_nonstream_upstream_body, success_body in *.
  destruct (is_success (ur_status r)); cbn [negb];
    [|destruct (parses_late v); cbn; (split; [lia|done])].
  destruct (parses_late v), cx; try (destruct (parse_http_response raw) eqn:Ep);
    try (destruct (from_str raw) eqn:Ef); first [by apply Hfin | cbn; split; [lia|done]].
Qed.

(** The answer has the model the client asked for, where its protocol has it,
    and is otherwise the converted body. *)
Definition model_key (s : ProtocolSuite) : string :=
  match s with GoogleGemini => "modelVersion" | _ => "model" end.

Definition with_client_model (c : Call) (body answer : Value) : Prop :=
  match body with
  | Obj _ =>
      get (model_key (suite (call_ingress c))) answer = Some (Str (Ir.model (ir_request c)))
      /\ forall k, k <> model_key (suite (call_ingress c)) -> get k answer = get k body
  | _ => answer = body
  end.

Lemma apply_json_model c body : with_client_model c body (apply_json (model_override c) body).
Proof using.
  unfold with_client_model, apply_json, set_response_model, model_override, model_key. cbn [rmo_suite rmo_model].
  destruct body as [| | | | |m]; try done.
  destruct (suite (call_ingress c)); cbn [get]; (split; [by rewrite assoc_insert, String.eqb_refl|]);
    intros k Hk; by rewrite assoc_insert, (proj2 (String.eqb_neq _ _) Hk).
Qed.

(** Where the body of an answer came from: a response over HTTP that is a
    success and holds more than an error, or a completed socket session. *)
Definition answered_body (v : Variant) (c : Call) (http : FinalizedEgress -> Exchange)
    (ws : WsRequest -> WsExchange) (p : Prepared) (hs : HeaderMap) (body : Value) : Prop :=
  match over_http c ws p hs with
  | Some (q, hs', url, _) =>
      exists fe r raw, nonstream_request c q hs' url = Ok fe
        /\ ex_answer (http fe) = Ok r /\ is_success (ur_status r) = true /\ ur_text r = Ok raw
        /\ success_body (profile_enabled (codex q)) raw = Some body
        /\ (forall e, get "error" body = Some e -> exists k, In k normal_fields /\ is_some (get k body) = true)
  | None =>
      exists url wr s, upstream_url c = Ok url /\ uses_socket c p = true
        /\ socket_request c (upstream_body p) hs url = Ok wr
        /\ we_answer (ws wr) = Ok s /\ ws_send_error s = None
        /\ collect_codex_websocket_response (ws_frames s) = Ok body
  end.


(** The captures of an answer over HTTP. *)
Lemma http_captures v c http p text hs url :
  (length (captures (send_http v c http p text hs url)) <= 1)%nat
  /\ forall resp t, outcome (send_http v c http p text hs url) = Ok (resp, t) ->
      (exists fe, http_request v c p hs url = Ok fe)
      /\ match resp_body resp with
         | JsonBody answer =>
             exists cap, captures (send_http v c http p text hs url) = [cap]
               /\ Streaming.request_id cap = call_request_id c /\ egress_body cap = Some text
               /\ client_resp_body cap = Some (to_string answer)
         | EventStream _ _ sc _ _ =>
             captures (send_http v c http p text hs url) = []
             /\ sc_request_id sc = call_request_id c /\ sc_egress_body sc = Some text
         end.
Proof using.
  unfold send_http, http_request. destruct (call_stream c).
  - destruct (stream_request _ _ _ _ _) as [fe|]; [|cbn; split; [lia|done]].
    unfold finish_stream. destruct (execute_with_ttfb_timeout _ _) as [r|]; [|cbn; split; [lia|done]].
    destruct (is_success (ur_status r)); cbn [negb captures outcome]; [|cbn; split; [lia|done]].
    split; [cbn; lia|]. intros resp t [= <- <-]. split; [by exists fe|]. done.
  - destruct (nonstream_request _ _ _ _) as [fe|]; [|cbn; split; [lia|done]].
    destruct (nonstream_spec v c fe text (profile_enabled (codex p)) (http fe)) as [Hl Hs].
    split; [exact Hl|]. intros resp t Ho. split; [by exists fe|].
    destruct (Hs resp t Ho) as (r & raw & body & answer & cap & _ & _ & _ & _ & _ & _ & -> & Hcap).
    exists cap. intuition.
Qed.

Lemma socket_captures c wr s after resp t :
  outcome (run_session c wr s after) = Ok (resp, t) ->
  match resp_body resp with
  | JsonBody answer =>
      exists cap, captures (run_session c wr s after) = [cap]
        /\ Streaming.request_id cap = call_request_id c /\ egress_body cap = Some (wr_body wr)
        /\ client_resp_body cap = Some (to_string answer)
  | EventStream _ _ sc _ _ =>
      captures (run_session c wr s after) = []
      /\ sc_request_id sc = call_request_id c /\ sc_egress_body sc = Some (wr_body wr)
  end.
Proof using.
  unfold run_session. destruct (ws_send_error s); [done|]. destruct (call_stream c).
  - by intros [= <- <-].
  - destruct (collect_codex_websocket_response _); [|done]. destruct (client_body c _); [|done].
    intros [= <- <-]. by eexists.
Qed.

(** C15: An exchange whose answer reaches the client, over HTTP or over the Codex
    WebSocket, is captured exactly once, with the bytes of the request that
    was sent last: by the executor if the answer is one body, with the body
    the client gets, otherwise by the bridge, however its stream ends.  What
    was captured before it is what a refused upgrade captured, and the HTTP
    part of an attempt captures one exchange at most, answered or not.  The
    one exception, excluded here, is a refused upgrade after which the
    client's own bytes are sent again: then another body is recorded. *)
Theorem answered_exchange_captured_once v c http ws p hs :
  stale_record c ws p hs = false ->
  (forall q hs' url before, over_http c ws p hs = Some (q, hs', url, before) ->
     exists own, captures (send v c http ws p hs) = before ++ own /\ (length own <= 1)%nat)
  /\ forall resp t, outcome (send v c http ws p hs) = Ok (resp, t) ->
     exists before bytes, sent_last v c ws p hs before bytes
     /\ match resp_body resp with
        | JsonBody answer =>
            exists cap, captures (send v c http ws p hs) = before ++ [cap]
              /\ Streaming.request_id cap = call_request_id c /\ egress_body cap = bytes
              /\ client_resp_body cap = Some (to_string answer)
        | EventStream _ config sc tc ov =>
            captures (send v c http ws p hs) = before
            /\ forall start last polls n w,
                 drive_upstream_stream config start last polls
                   (Streaming.initial (Some sc) UsageAccumulator.new tc (Some ov) start n) = Ok w ->
                 exists cap, StreamingRecord.captures (log w) = [cap]
                   /\ Streaming.request_id cap = call_request_id c /\ egress_body cap = bytes
        end.
Proof.
  intros Hstale. split.
  { intros q hs' url before E. destruct (send_over_http v c http ws p hs _ _ _ _ E) as (text & _ & -> & _).
    eexists. split; [done|]. apply http_captures. }
  assert (forall sc config start last polls n w tc ov bytes,
    sc_request_id sc = call_request_id c /\ sc_egress_body sc = bytes ->
    drive_upstream_stream config start last polls
      (Streaming.initial (Some sc) UsageAccumulator.new tc (Some ov) start n) = Ok w ->
    exists cap, StreamingRecord.captures (log w) = [cap]
      /\ Streaming.request_id cap = call_request_id c /\ egress_body cap = bytes) as Hbridge.
  { intros sc config start last polls n w tc ov bytes [Hi Hb] (g & reason & now & E)%captures_of_run.
    rewrite E. eexists. split; [reflexivity|]. by split. }
  intros resp t Ho. pose proof (send_answers _ _ _ _ _ _ _ _ Ho)
    as [(q & hs' & url & before & E)|(E & url & wr & s & Hu & Hs & Hwr & Ha & Hrun)].
  - destruct (send_over_http v c http ws p hs _ _ _ _ E) as (text & Eo & -> & Hb). rewrite Eo in Ho.
    destruct (http_captures v c http q text hs' url) as [_ Hc].
    destruct (Hc resp t Ho) as [[fe Hfe] Hresp]. specialize (Hb Hstale fe Hfe).
    exists before, (Some text). split; [unfold sent_last; rewrite E; split; [done|by exists fe]|].
    destruct (resp_body resp) as [answer|source config sc tc ov].
    + destruct Hresp as (cap & -> & Hcap). by exists cap.
    + destruct Hresp as (-> & Hsc). split; [by rewrite app_nil_r|]. intros ? ? ? ? ?. by apply Hbridge.
  - rewrite Hrun in Ho |- *. apply socket_captures in Ho. exists [], (Some (wr_body wr)).
    split; [unfold sent_last; rewrite E; split; [done|by exists url, wr]|].
    destruct (resp_body resp) as [answer|source config sc tc ov]; [exact Ho|].
    destruct Ho as (-> & Hsc). split; [done|]. intros ? ? ? ? ?. by apply Hbridge.
Qed.
End Answers.

(** ** The registered providers add no credentials *)

Lemma registrations_plain `{OAuthCrates} `{TextCrates} `{HH : HttpHeaders} `{!HttpHeadersLaws HH} env bedrock q :
  In q (registrations env bedrock) -> plain_extras q.
Proof using.
  intros Hq key n v n' Hin Hn.
  assert (Providers.extra_headers q key = []
          \/ exists w, Providers.extra_headers q key = [("x-opencode-session", w)]) as [E|[w E]].
  { unfold registrations in Hq. apply in_app_or in Hq as [Hq|Hq].
    - cbn in Hq. repeat destruct Hq as [<-|Hq]; cbn; eauto. done.
    - destruct bedrock; [|done]. destruct Hq as [<-|[]]. by left. }
  - by rewrite E in Hin.
  - rewrite E in Hin. destruct Hin as [[= <- <-]|[]]. apply header_name_lower in Hn as ->.
    cbn. intuition discriminate.
Qed.

(** ** A Chat Completions client of an Anthropic target *)

Module Sample.
Import Network.
#[export] Existing Instance token_headers_laws.

Definition anthropic_target : RoutingTarget :=
  {| Targets.provider_id := "row-7"; Targets.vendor := Some "anthropic"; Targets.model_id := "claude-x";
     Targets.api_base := "https://api.anthropic.com/v1"; Targets.api_key := "sk-target";
     Targets.api_protocol := ProtocolSuite.default_endpoint AnthropicMessages;
     Targets.account_label := None; Targets.api_key_override := None;
     Targets.api_base_override := None; Targets.weight := f64_zero; Targets.oauth := None |}.

Definition chat_call : Call :=
  {| tunables := plain_tunables; codec := OpenAiCompatible;
     call_ingress := ProtocolSuite.default_endpoint OpenAiCompatible;
     ir_request := Lossy.sample_request; target := anthropic_target; call_stream := false;
     raw_passthrough_body := None; traceparent := "t"; call_request_id := "req-1";
     client_headers := [("authorization", "Bearer client"); ("cookie", "c=1"); ("x-tag", "a")];
     caller_key_id := "key-1"; now_v7 := "now" |}.

Definition chat_prepared : Prepared :=
  match prepare chat_call with
  | Ok (Ok p) => p
  | _ => {| upstream_body := Null; codec_headers := ∅; body_mutated := true; codex := codex_off;
            anthropic_profile := false |}
  end.

(** The network: a status and a body for every request. *)
Definition answering (status : Z) (body : string) (_ : FinalizedEgress) : Exchange :=
  {| ex_after := 5000000;
     ex_answer := Ok {| ur_status := status; ur_headers := [("retry-after", "7")]; ur_text := Ok body |} |}.
Definition no_socket (_ : WsRequest) : WsExchange :=
  {| we_after := 0; we_total := 0; we_answer := Err (None, "") |}.

Definition claude_answer : Value :=
  obj [("id", Str "msg_1"); ("type", Str "message"); ("role", Str "assistant"); ("model", Str "claude-x");
       ("content", Arr [obj [("type", Str "text"); ("text", Str "hello")]]);
       ("stop_reason", Str "end_turn");
       ("usage", obj [("input_tokens", json_u64 3); ("output_tokens", json_u64 1)])].

Definition claude_network : FinalizedEgress -> Exchange := answering 200 (to_string claude_answer).

Definition claude_url : string := "https://api.anthropic.com/v1/messages".

Definition chat_sent : FinalizedEgress :=
  match nonstream_request chat_call chat_prepared ∅ claude_url with
  | Ok fe => fe
  | Err _ => {| fe_request := post ""; fe_headers := []; fe_method := ""; fe_path := "" |}
  end.

Definition plain_providers : list Providers.Provider := registrations (fun _ => None) false.
Definition not_oauth (_ : RoutingTarget) (_ : HeaderMap)
  : prog (result string (option (HeaderMap * option string))) := Ret (Ok None).
End Sample.

Import Network Sample.

Lemma only_target_credentials_leave_witness :
  exists hs, execute chat_variant chat_call not_oauth plain_providers claude_network no_socket
             = Ret (send chat_variant chat_call claude_network no_socket chat_prepared hs, None)
  /\ forall accept url fe,
       stream_request accept chat_call chat_prepared hs url = Ok fe
       \/ nonstream_request chat_call chat_prepared hs url = Ok fe ->
       rb_headers (fe_request fe) !! "x-api-key" = Some "sk-target"
       /\ rb_headers (fe_request fe) !! "authorization" = None.
Proof.
  destruct (only_target_credentials_leave chat_variant chat_call chat_prepared not_oauth plain_providers
              claude_network no_socket [] []) as [[e He]|(hs & Hx & _ & Hs)].
  - reflexivity.
  - reflexivity.
  - intros q Hq. exact (registrations_plain (fun _ => None) false q Hq).
  - reflexivity.
  - vm_compute. reflexivity.
  - vm_compute in He. discriminate He.
  - exists hs. split; [exact Hx|]. intros accept url fe Hr.
    pose proof (Hs accept url fe Hr) as Hn. split.
    + destruct (Hn "x-api-key") as [-> _]; [right; right; left; reflexivity|vm_compute; reflexivity].
    + destruct (Hn "authorization") as [-> _]; [left; reflexivity|vm_compute; reflexivity].
Defined.

Lemma chat_goes_over_http : over_http chat_call no_socket chat_prepared ∅ = Some (chat_prepared, ∅, claude_url, []).
Proof. vm_compute. reflexivity. Qed.

Lemma chat_is_sent v : http_request v chat_call chat_prepared ∅ claude_url = Ok chat_sent.
Proof. vm_compute. reflexivity. Qed.

Lemma upstream_failures_reported_witness :
  exists e cap,
    outcome (send messages_variant chat_call (answering 429 "busy") no_socket chat_prepared ∅) = Err e
    /\ captures (send messages_variant chat_call (answering 429 "busy") no_socket chat_prepared ∅) = [cap]
    /\ AppError.http_status e = 429%Z /\ retry_after_header e = Some "7"
    /\ egress_body cap = rb_body (fe_request chat_sent).
Proof.
  destruct (upstream_failures_reported messages_variant chat_call (answering 429 "busy") no_socket chat_prepared
              ∅ chat_prepared ∅ claude_url [] chat_sent
              {| ur_status := 429; ur_headers := [("retry-after", "7")]; ur_text := Ok "busy" |} "busy"
              chat_goes_over_http (chat_is_sent _))
    as (e & cap & Eo & Ec & Hst & _ & _ & Hra & _ & _ & Hb & _).
  - reflexivity.
  - reflexivity.
  - intros Hs. vm_compute in Hs. discriminate Hs.
  - cbn. lia.
  - reflexivity.
  - exists e, cap. split; [exact Eo|]. split; [exact Ec|]. split; [exact Hst|]. split.
    + rewrite Hra. vm_compute. reflexivity.
    + apply Hb. vm_compute. reflexivity.
Defined.

Definition claude_outcome : Outcome :=
  send chat_variant chat_call claude_network no_socket chat_prepared ∅.

Definition claude_response : Response :=
  match outcome claude_outcome with
  | Ok (r, _) => r
  | Err _ => {| resp_headers := ∅; resp_body := JsonBody Null |}
  end.

Lemma claude_answers : outcome claude_outcome = Ok (claude_response, Some 5%Z).
Proof. vm_compute. reflexivity. Qed.


Example claude_answer_has_client_model :
  match resp_body claude_response with
  | JsonBody answer => get "model" answer = Some (Str "virtual")
  | _ => False
  end.
Proof. vm_compute. reflexivity. Qed.

Lemma answered_exchange_captured_once_witness :
  exists answer cap, resp_body claude_response = JsonBody answer
    /\ captures claude_outcome = [cap] /\ egress_body cap = rb_body (fe_request chat_sent).
Proof.
  assert (stale_record chat_call no_socket chat_prepared ∅ = false) as Hst by (vm_compute; reflexivity).
  destruct (answered_exchange_captured_once chat_variant chat_call claude_network no_socket chat_prepared ∅ Hst)
    as [_ Ha].
  destruct (Ha claude_response (Some 5%Z) claude_answers) as (before & bytes & Hs & Hm).
  unfold sent_last in Hs. rewrite chat_goes_over_http in Hs. destruct Hs as (-> & fe & Hfe & ->).
  rewrite chat_is_sent in Hfe. injection Hfe as <-.
  destruct (resp_body claude_response) as [answer|] eqn:Er.
  - destruct Hm as (cap & Hc & _ & Hb & _). exists answer, cap. exact (conj eq_refl (conj Hc Hb)).
  - exfalso. vm_compute in Er. discriminate Er.
Defined.

(** An answer that cannot be read is not captured at all. *)
Example unreadable_success_is_not_captured :
  captures (send_http chat_variant chat_call (answering 200 "<html>") chat_prepared "text" ∅ "u") = [].
Proof. vm_compute. reflexivity. Qed.

(** A stream that fails loses the rate limits that a failed body keeps, but
    for the Chat Completions executor. *)
Example failed_stream_loses_rate_limits :
  let r := {| ur_status := 429; ur_headers := [("x-ratelimit-limit", "9")]; ur_text := Ok "" |} in
  rate_limit_headers (failed_stream messages_variant r "") = []
  /\ rate_limit_headers (failed_stream chat_variant r "") = [("x-ratelimit-limit", "9")]
  /\ rate_limit_headers (failed_body messages_variant r Null) = [("x-ratelimit-limit", "9")].
Proof. vm_compute. auto. Qed.

(** The loop that repeats the rate limits of the client's response does not
    change them. *)
Lemma repeated_rate_limits `{HH : HttpHeaders} `{!HttpHeadersLaws HH} v hs : repeat_rate_limits v hs = hs.
Proof.
  unfold repeat_rate_limits. destruct (repeats_rate_limits v); [|done].
  assert (forall l : list (string * string), (forall n w, In (n, w) l -> hs !! n = Some w /\ static_name n = true) ->
            fold_left repeat_one l hs = hs) as Hl.
  { induction l as [|[n w] l IH]; intros Hl; [done|]. cbn [fold_left].
    destruct (Hl n w (or_introl eq_refl)) as [Hn Hs].
    assert (repeat_one hs (n, w) = hs) as ->.
    { unfold repeat_one. cbn. destruct (header_value_of w) as [|w'] eqn:Ew; [done|].
      rewrite header_name_static by done. apply header_value_same in Ew as ->. by apply insert_id. }
    apply IH. intros. apply Hl. by right. }
  apply Hl. intros n w Hin. unfold rate_limits_of in Hin.
  apply list_elem_of_In, list_elem_of_omap in Hin as (m & Hm & E).
  assert (static_name m = true) as Hs.
  { apply list_elem_of_In in Hm. unfold rate_limit_names in Hm. cbn in Hm.
    repeat destruct Hm as [<-|Hm]; try done; vm_compute; reflexivity. }
  destruct (hs !! m ≫= to_str) as [w'|] eqn:Et; [|done]. injection E as <- <-. split; [|done].
  destruct (hs !! m) as [x|]; [|done]. cbn in Et. unfold to_str in Et.
  destruct (all_chars visible x); [|done]. by injection Et as ->.
Qed.

(** A session that ends with [response.done] is a complete response over HTTP
    and over a streamed socket, but not over a socket that is collected. *)
Example collected_done_is_ignored :
  let event := to_string (obj [("type", Str "response.done"); ("response", obj [("id", Str "resp_1")])]) in
  collect_codex_websocket_response [TextFrame event; CloseFrame]
  = Err "Codex WebSocket closed before response.completed"
  /\ snd (socket_event event) = true
  /\ scan_lines (CodexOAuth.lines ("data: " +:+ event)) None = inl (obj [("id", Str "resp_1")]).
Proof. vm_compute. repeat split. Qed.
