(* ===== verification/AuxCodecs.v ===== *)
(** * AuxCodecs: embeddings and images

    The codecs of [crates/protocols/src/embeddings.rs] and
    [crates/protocols/src/images.rs].  Neither converts between protocols:
    what the gateway uses of them is the routing part of a request and the
    frames that end a stream.  At the end the cache of the embeddings endpoint,
    [crates/cache/src/embedding_cache.rs]: how a key is made of a request, and
    the cache over it.  Its store is [moka]'s: a class gives its two
    operations, since what it evicts and when is its own affair. *)

From stdpp Require Import base option list gmap strings.
From Stdlib Require Import ZArith Lia Ascii.
From S2P Require Import Prelude RustStr F64 Json OAuthTokens Providers JsonBody Protocol Classify Errors Ir Lossy ResponseModel Sse Streaming.

Local Open Scope string_scope.
Local Open Scope list_scope.

(** Both files have a table of their own. *)
Definition error_type_for_class (c : ErrorClass) : string :=
  match c with
  | Transient => "server_error"
  | RateLimited => "rate_limit_error"
  | Auth => "authentication_error"
  | BadRequest => "invalid_request_error"
  | LossyOrCapability => "invalid_request_error"
  | ModelNotFound => "not_found_error"
  | DeadlineExceeded => "server_error"
  | UpstreamExhausted => "server_error"
  | AuthMissing => "authentication_error"
  | AuthInvalid => "authentication_error"
  | AuthDisabled => "permission_error"
  | ModelAccessDenied => "permission_error"
  | Overloaded => "overloaded_error"
  end.

(** The members of an error: message, type and code. *)
Definition error_members (message : string) (c : ErrorClass) (code : option string) : Value :=
  set_opt "code" (Str <$> code)
    (obj [("message", Str message); ("type", Str (error_type_for_class c))]).

(** A header map without entries. *)
Definition no_headers : list (string * string) := [].

Definition counted (usage : option Usage) : Value :=
  obj [("prompt_tokens", json_u64 (match usage with Some u => prompt_tokens u | None => 0 end));
       ("total_tokens", json_u64 (match usage with Some u => total_tokens u | None => 0 end))].

(** A request in which only the routing part is set. *)
Definition bare_request (model : string) (messages : list Message) (stream : bool)
    (ingress : ProtocolEndpoint) (extensions : JsonMap) : IrRequest :=
  {| Ir.model := model; system := None; Ir.messages := messages; tools := [];
     params := GenerationParams_default; response_format := None; Ir.stream := stream;
     ingress_protocol := ingress; metadata := None; Ir.extensions := extensions |}.

(** ** Embeddings *)

Module Embeddings.
Section Codec.
Context `{SerdeJson}.

Definition id : ProtocolEndpoint := mk_endpoint OpenAiCompatible "embeddings" "v1".

Definition capabilities : EndpointCapabilities := {|
  streaming := false; cap_tools := false; cap_reasoning := false; embeddings := true;
  force_upstream_stream := false; override_model_in_body := false;
  ingress_routes := [("POST", "/v1/embeddings")];
  multimodal := false; structured_output := false; function_calling := false;
  parallel_tool_calls := false; hosted_tools := false; programmatic_tool_calling := false;
  extended_reasoning := false; deterministic_seed := false; tool_choice_required := false;
  cap_stream := {| server_sent_events := false; usage_in_stream := false;
                   requires_stream_flag := false |};
  unknown_field_policy := DropUnknown; lossy_default_reject := true |}.

Definition extensions_of (body : Value) : JsonMap :=
  let m : JsonMap := ∅ in
  let m := match get "dimensions" body with Some d => <["dimensions" := d]> m | None => m end in
  let m := match get "encoding_format" body ≫= as_str with
           | Some enc => <["encoding_format" := Str enc]> m
           | None => m
           end in
  match get "user" body ≫= as_str with Some u => <["user" := Str u]> m | None => m end.

Definition input_text (body : Value) : string :=
  match as_str body.["input"] with
  | Some s => s
  | None => match as_array body.["input"] with
            | Some arr => join (String LF "") (omap as_str arr)
            | None => ""
            end
  end.

Definition decode_request (body : Value) : result Error IrRequest :=
  Ok (bare_request (str_or "unknown" body.["model"])
        [{| role := RUser; content := [CText (input_text body) None None] |}]
        false id (extensions_of body)).

Definition encode_response (ir : IrResponse) : result Error Value :=
  Ok (obj [("object", Str "list"); ("data", Arr []); ("model", Str "embedding-model");
           ("usage", counted (r_usage ir))]).

Fixpoint first_text (l : list Content) : option string :=
  match l with
  | [] => None
  | CText text _ _ :: _ => Some text
  | _ :: r => first_text r
  end.

Definition encode_request (ir : IrRequest) : result Error (Value * list (string * string)) :=
  let input := join (String LF "") (omap (fun m => first_text (content m)) (messages ir)) in
  Ok (obj [("model", Str (model ir)); ("input", Str input)], no_headers).

(** [u["prompt_tokens"]] panics where the member is missing. *)
Definition decode_response (body : Value) : run (result Error IrResponse) :=
  usage ← match as_object body.["usage"] with
          | Some u =>
              p ← map_index u "prompt_tokens";
              t ← map_index u "total_tokens";
              Ok (Some {| prompt_tokens := default 0%Z (as_u64 p);
                          completion_tokens := default 0%Z (assoc "completion_tokens" u ≫= as_u64);
                          reasoning_tokens := None; cache_read_tokens := None;
                          cache_write_tokens := None; total_tokens := default 0%Z (as_u64 t) |})
          | None => Ok None
          end;
  Ok (Ok {| r_content := []; r_usage := usage; r_finish_reason := Some Stop;
            r_response_id := as_str body.["id"]; r_stop_details := None; r_extensions := ∅ |}).

Definition encode_part (part : StreamPart) : result Error string := Ok "".
Definition encode_error (message : string) (c : ErrorClass) (code : option string) : string :=
  to_string (obj [("error", error_members message c code)]).
Definition encode_done : string := "data: [DONE]" +:+ LFLF.

Definition feed (line : string) : result Error (list StreamPart) := Ok [].
Definition finish : result Error (list StreamPart) := Ok [].
End Codec.
End Embeddings.

(** ** Images *)

Module Images.
Section Codec.
Context `{SerdeJson} `{Lowercase}.

Definition generations_id : ProtocolEndpoint := mk_endpoint OpenAiCompatible "images-generations" "v1".
Definition edits_id : ProtocolEndpoint := mk_endpoint OpenAiCompatible "images-edits" "v1".

Definition images_caps (overrides_model is_multimodal : bool) (route : string) : EndpointCapabilities := {|
  streaming := true; cap_tools := false; cap_reasoning := false; embeddings := false;
  force_upstream_stream := false; override_model_in_body := overrides_model;
  ingress_routes := [("POST", route)];
  multimodal := is_multimodal; structured_output := false; function_calling := false;
  parallel_tool_calls := false; hosted_tools := false; programmatic_tool_calling := false;
  extended_reasoning := false; deterministic_seed := false; tool_choice_required := false;
  cap_stream := sse_caps true;
  unknown_field_policy := DropUnknown; lossy_default_reject := true |}.

Definition generations_capabilities : EndpointCapabilities := images_caps true false "/v1/images/generations".
Definition edits_capabilities : EndpointCapabilities := images_caps false true "/v1/images/edits".

Definition routed_fields : list string := ["model"; "prompt"; "stream"].

Definition unrouted (k : string) : Prop := k ∉ routed_fields.
#[export] Instance unrouted_dec k : Decision (unrouted k).
Proof. unfold unrouted. apply _. Defined.

(** The members of a body that routing does not look at. *)
Definition extras (body : Value) : list (string * Value) :=
  match as_object body with
  | Some m => filter (fun kv => unrouted (fst kv)) m
  | None => []
  end.

Definition routed_model (body : Value) : string := default "default" (get "model" body ≫= as_str).
Definition routed_stream (body : Value) : bool := default false (get "stream" body ≫= as_bool).

Definition with_extras (l : list (string * Value)) (m : JsonMap) : JsonMap :=
  match l with [] => m | _ => <["images_extra" := Obj l]> m end.

Definition decode_generations (body : Value) : result Error IrRequest :=
  let m : JsonMap := {["prompt" := default Null (get "prompt" body)]} in
  Ok (bare_request (routed_model body) [] (routed_stream body) generations_id
        (with_extras (extras body) m)).

Definition decode_edits (body : Value) : result Error IrRequest :=
  let m : JsonMap := {["body_kind" := Str "multipart"]} in
  let m := match get "prompt" body with Some p => <["prompt" := p]> m | None => m end in
  Ok (bare_request (routed_model body) [] (routed_stream body) edits_id m).

Definition encode_response (ir : IrResponse) : result Error Value :=
  Ok (set_opt "usage" (match r_usage ir with Some u => Some (counted (Some u)) | None => None end)
        (obj [("object", Str "list"); ("data", Arr [])])).

(** The members both codecs write. *)
Definition encode_edits (ir : IrRequest) : result Error (Value * list (string * string)) :=
  let body := obj [("model", Str (model ir))] in
  let body := set_opt "prompt" (extensions ir !! "prompt") body in
  Ok (set_opt "stream" (if stream ir then Some (Bool true) else None) body, no_headers).

Definition encode_generations (ir : IrRequest) : result Error (Value * list (string * string)) :=
  '(body, hs) ← encode_edits ir;
  Ok (match extensions ir !! "images_extra" with
      | Some (Obj l) => fold_left (fun b kv => set (fst kv) (snd kv) b) l body
      | _ => body
      end, hs).

Definition decode_response (body : Value) : result Error IrResponse :=
  let usage := match get "usage" body with
               | Some u =>
                   if is_object u && is_u64 u.["total_tokens"] then
                     Some {| prompt_tokens := default 0%Z (get "prompt_tokens" u ≫= as_u64);
                             completion_tokens := 0; reasoning_tokens := None;
                             cache_read_tokens := None; cache_write_tokens := None;
                             total_tokens := default 0%Z (get "total_tokens" u ≫= as_u64) |}
                   else None
               | None => None
               end in
  Ok {| r_content := []; r_usage := usage; r_finish_reason := None; r_response_id := None;
        r_stop_details := None; r_extensions := ∅ |}.

Definition pass_through_policy (ingress egress : ProtocolEndpoint) : PassThroughPolicy :=
  if decide (suite ingress = suite egress) then Passthrough else Convert.

(** *** Streams *)

(** [response_id] of the encoder. *)
Definition Encoder : Type := option string.
Definition Encoder_new : Encoder := None.

Definition encode_error (message : string) (c : ErrorClass) (code : option string) : string :=
  "data: " +:+ to_string (obj [("type", Str "error"); ("error", error_members message c code)]) +:+ LFLF.

Definition encode_done : string := "data: [DONE]" +:+ LFLF.

Definition completed_json (e : Encoder) (usage : option Usage) : Value :=
  set_opt "usage" (match usage with Some u => Some (counted (Some u)) | None => None end)
    (set_opt "id" (Str <$> e) (obj [("type", Str "image_generation.completed")])).

Definition encode_part (e : Encoder) (part : StreamPart) : string * Encoder :=
  match part with
  | ResponseStarted id => ("", Some id)
  | ResponseCompleted _ _ usage _ => ("data: " +:+ to_string (completed_json e usage) +:+ LFLF, e)
  | ErrorPart message class upstream_code => (encode_error message class upstream_code, e)
  | _ => ("", e)
  end.

(** [saw_completed] of the decoder, which nothing reads. *)
Definition Decoder : Type := bool.
Definition Decoder_new : Decoder := false.

Definition completed_part (id : string) : StreamPart := ResponseCompleted id "completed" None ∅.

Definition decode_event (d : Decoder) (value : Value) : list StreamPart * Decoder :=
  let event_type := default "" (get "type" value ≫= as_str) in
  if String.eqb event_type "image_generation.completed" || String.eqb event_type "image_edit.completed"
  then ([completed_part (default "" (get "id" value ≫= as_str))], true)
  else if String.eqb event_type "error" then
    let error : option Value := get "error" value in
    let message := default "unknown error" ((error ≫= get "message") ≫= as_str) in
    let code := (error ≫= get "code") ≫= as_str in
    ([ErrorPart message (classify_upstream_error None code) code], d)
  else ([], d).

Definition feed (d : Decoder) (line : string) : result Error (list StreamPart) * Decoder :=
  match strip_prefix "data:" (trim line) with
  | None => (Ok [], d)
  | Some data =>
      let data := trim data in
      if String.eqb data "[DONE]" then (Ok [completed_part ""], true)
      else match from_str data with
           | None => (Ok [], d)
           | Some value => let '(parts, d) := decode_event d value in (Ok parts, d)
           end
  end.

Definition finish (d : Decoder) : result Error (list StreamPart) := Ok [].
End Codec.
End Images.

(** ** Sorted members *)

Lemma assoc_filter_none (P : string -> Prop) `{forall k, Decision (P k)} (m : list (string * Value)) k :
  assoc k m = None -> assoc k (filter (fun kv => P (fst kv)) m) = None.
Proof.
  induction m as [|[k' v] r IH]; [done|]. cbn [assoc]. intros Hno. rewrite filter_cons. cbn [fst].
  destruct (String.eqb k k') eqn:E; [done|]. destruct (decide (P k')); [|by apply IH].
  cbn [assoc]. rewrite E. by apply IH.
Qed.

Lemma filter_insert (P : string -> Prop) `{forall k, Decision (P k)} k (v : Value) m :
  keys_sorted m = true ->
  filter (fun kv => P (fst kv)) (Json.insert k v m)
  = if decide (P k) then Json.insert k v (filter (fun kv => P (fst kv)) m)
    else filter (fun kv => P (fst kv)) m.
Proof.
  intros Hm. induction m as [|[k' v'] r IH].
  { cbn [Json.insert]. rewrite filter_cons. cbn [fst]. by destruct (decide (P k)). }
  apply keys_sorted_cons in Hm as [Hr Hlt]. specialize (IH Hr). cbn [Json.insert].
  destruct (String.compare k k') eqn:E.
  - apply String.compare_eq_iff in E as ->. rewrite !filter_cons. cbn [fst].
    destruct (decide (P k')); [|done]. cbn [Json.insert]. by rewrite compare_refl.
  - rewrite filter_cons. cbn [fst]. destruct (decide (P k)); [|done].
    rewrite filter_cons. cbn [fst]. destruct (decide (P k')).
    + cbn [Json.insert]. by rewrite E.
    + assert (forall l, (forall k2, assoc k2 l <> None -> String.compare k' k2 = Lt) ->
                Json.insert k v l = (k, v) :: l) as Hins.
      { intros [|[k2 v2] l] Hl; [done|]. cbn [Json.insert].
        rewrite (compare_trans k k' k2 E); [done|]. apply Hl. cbn. by rewrite String.eqb_refl. }
      rewrite Hins; [done|]. intros k2 Hk2. apply Hlt. intros Hno. by apply Hk2, assoc_filter_none.
  - rewrite !filter_cons. cbn [fst]. rewrite IH. destruct (decide (P k')); [|done].
    destruct (decide (P k)); [|done]. cbn [Json.insert]. by rewrite E.
Qed.

Lemma keys_sorted_filter (P : string -> Prop) `{forall k, Decision (P k)} (m : list (string * Value)) :
  keys_sorted m = true -> keys_sorted (filter (fun kv => P (fst kv)) m) = true.
Proof.
  intros Hm. induction m as [|[k v] r IH]; [done|]. apply keys_sorted_cons in Hm as [Hr Hlt].
  specialize (IH Hr). rewrite filter_cons. cbn [fst]. destruct (decide (P k)); [|done].
  assert (forall l, keys_sorted l = true -> (forall k2, assoc k2 l <> None -> String.compare k k2 = Lt) ->
            keys_sorted ((k, v) :: l) = true) as Hcons.
  { intros [|[k2 v2] l] Hl Hall; [done|]. cbn [keys_sorted].
    rewrite (Hall k2); [exact Hl|]. cbn. by rewrite String.eqb_refl. }
  apply Hcons; [done|]. intros k2 Hk2. apply Hlt. intros Hno. by apply Hk2, assoc_filter_none.
Qed.

(** Members inserted in their order, after smaller ones, are appended. *)
Lemma insert_above {A} k (v : A) m :
  Forall (fun kv => String.compare (fst kv) k = Lt) m -> Json.insert k v m = m ++ [(k, v)].
Proof.
  induction 1 as [|[k' v'] r Hk _ IH]; [done|]. cbn [Json.insert app]. cbn in Hk.
  rewrite String.compare_antisym, Hk. cbn. by rewrite IH.
Qed.

Lemma replay_sorted (l m : list (string * Value)) :
  keys_sorted l = true ->
  Forall (fun kv => Forall (fun kv' => String.compare (fst kv) (fst kv') = Lt) l) m ->
  fold_left (fun m kv => Json.insert (fst kv) (snd kv) m) l m = m ++ l.
Proof.
  revert m. induction l as [|[k v] r IH]; intros m Hl Hm; cbn [fold_left fst snd].
  { by rewrite app_nil_r. }
  apply keys_sorted_cons in Hl as [Hr Hlt].
  rewrite insert_above.
  2: { eapply Forall_impl; [exact Hm|]. intros kv Hkv. by apply Forall_inv in Hkv. }
  rewrite IH; [by rewrite <- app_assoc|done|]. apply Forall_app. split.
  - eapply Forall_impl; [exact Hm|]. intros kv Hkv. by apply Forall_inv_tail in Hkv.
  - constructor; [|constructor]. cbn. apply Forall_forall. intros [k' v'] Hin. apply Hlt.
    clear -Hin. induction r as [|[k2 v2] r IH]; [by apply elem_of_nil in Hin|]. cbn.
    destruct (String.eqb_spec k' k2) as [->|Hne]; [done|].
    apply elem_of_cons in Hin as [[= -> ->]|Hin]; [done|by apply IH].
Qed.

(** ** Requests *)

Definition sorted_body (body : Value) : Prop :=
  match body with Obj m => keys_sorted m = true | _ => True end.

Section Requests.
Import Images.

Definition base_members (model : string) (prompt : Value) (stream : bool) : list (string * Value) :=
  [("model", Str model); ("prompt", prompt)] ++ (if stream then [("stream", Bool true)] else []).

Lemma fold_set l m :
  fold_left (fun b kv => set (fst kv) (snd kv) b) l (Obj m)
  = Obj (fold_left (fun m kv => Json.insert (fst kv) (snd kv) m) l m).
Proof. revert m. by induction l as [|[k v] r IH]; intros m; [|apply IH]. Qed.

(** The members of a re-encoded request: what is routed, and the rest. *)
Lemma replayed_members (l m : list (string * Value)) k :
  keys_sorted m = true ->
  let m' := fold_left (fun m kv => Json.insert (fst kv) (snd kv) m) l m in
  keys_sorted m' = true
  /\ filter (fun kv => unrouted (fst kv)) m'
     = fold_left (fun m kv => Json.insert (fst kv) (snd kv) m)
         (filter (fun kv => unrouted (fst kv)) l) (filter (fun kv => unrouted (fst kv)) m)
  /\ (Forall (fun kv => unrouted (fst kv)) l -> k ∈ routed_fields -> assoc k m' = assoc k m).
Proof.
  cbv zeta. revert m. induction l as [|[k1 v1] r IH]; intros m Hm; [done|]. cbn [fold_left fst snd].
  destruct (IH (Json.insert k1 v1 m)) as (Hs & Hf & Ha); [by apply keys_sorted_insert|].
  split; [done|]. split.
  - rewrite Hf, (filter_insert unrouted) by done.
    rewrite filter_cons. cbn [fst]. by destruct (decide (unrouted k1)).
  - intros Hall Hk. apply Forall_cons in Hall as [Hk1 Hr]. rewrite Ha by done.
    rewrite assoc_insert. destruct (String.eqb_spec k k1) as [->|]; [done|done].
Qed.

Lemma extras_sorted body : sorted_body body -> keys_sorted (extras body) = true.
Proof. destruct body; try done. apply (keys_sorted_filter unrouted). Qed.

Lemma extras_unrouted body : Forall (fun kv => unrouted (fst kv)) (extras body).
Proof.
  unfold extras. destruct (as_object body); [|constructor].
  apply Forall_forall. intros kv Hkv. by apply list_elem_of_filter in Hkv as [? _].
Qed.

Lemma extras_idem body : filter (fun kv => unrouted (fst kv)) (extras body) = extras body.
Proof.
  pose proof (extras_unrouted body) as Hall. induction Hall as [|kv r Hkv _ IH]; [done|].
  rewrite filter_cons, decide_True by done. by rewrite IH.
Qed.

(** Decoding an images request keeps everything: what the codec encodes again
    is decoded to the same request. *)
Theorem images_request_stable body :
  sorted_body body ->
  exists ir wire, decode_generations body = Ok ir /\ encode_generations ir = Ok (wire, no_headers)
    /\ decode_generations wire = Ok ir.
Proof.
  intros Hb. set (l := extras body). set (md := routed_model body). set (st := routed_stream body).
  set (pr := default Null (get "prompt" body)).
  set (m := base_members md pr st).
  assert (encode_generations
            (bare_request md [] st generations_id
               (with_extras l {["prompt" := pr]}))
          = Ok (Obj (fold_left (fun m kv => Json.insert (fst kv) (snd kv) m) l m), no_headers)) as He.
  { unfold encode_generations, encode_edits. cbn [result_bind mbind extensions Ir.model Ir.stream bare_request].
    unfold with_extras. destruct l as [|kv l'] eqn:El.
    - rewrite lookup_singleton_eq, lookup_singleton_ne by done. by destruct st.
    - rewrite lookup_insert_eq, lookup_insert_ne, lookup_singleton_eq by done.
      assert (set_opt "stream" (if st then Some (Bool true) else None)
                (set_opt "prompt" (Some pr) (obj [("model", Str md)])) = Obj m) as -> by (by destruct st).
      by rewrite fold_set. }
  eexists _, _. split; [reflexivity|]. split; [exact He|].
  assert (keys_sorted m = true) as Hm by (by destruct st).
  pose proof (replayed_members l m) as Hr. cbv zeta in Hr.
  set (m' := fold_left _ l m) in *.
  assert (forall k, k ∈ routed_fields -> get k (Obj m') = assoc k m) as Hk.
  { intros k Hin. destruct (Hr k Hm) as (_ & _ & Ha). apply Ha; [apply extras_unrouted|done]. }
  assert (extras (Obj m') = l) as Hx.
  { destruct (Hr "" Hm) as (_ & Hf & _). unfold extras. cbn [as_object]. rewrite Hf.
    assert (filter (fun kv => unrouted (fst kv)) m = []) as -> by (by destruct st).
    unfold l. rewrite extras_idem, replay_sorted; [done|by apply extras_sorted|constructor]. }
  unfold decode_generations. rewrite Hx. unfold routed_model, routed_stream.
  rewrite !Hk by (cbn; set_solver). cbn [assoc base_members m app].
  change (default false (get "stream" body ≫= as_bool)) with st.
  clear -st. clearbody st. by destruct st.
Qed.
End Requests.

Definition sample_images_body : Value :=
  obj [("model", Str "gpt-image-1"); ("prompt", Str "a cat"); ("n", json_u64 2);
       ("size", Str "1024x1024"); ("stream", Bool true)].

Lemma images_request_stable_witness :
  exists ir wire, Images.decode_generations sample_images_body = Ok ir
    /\ Images.encode_generations ir = Ok (wire, no_headers) /\ Images.decode_generations wire = Ok ir.
Proof. apply (images_request_stable sample_images_body). vm_compute. reflexivity. Defined.

(** A batch of inputs is encoded as one text, and the parameters of the
    request are not encoded at all. *)
Definition batch_body : Value :=
  obj [("model", Str "e"); ("input", Arr [Str "Hello"; Str "World"]); ("dimensions", json_u64 256);
       ("encoding_format", Str "base64")].

Definition reencoded (body : Value) : option Value :=
  match Embeddings.decode_request body with
  | Ok ir => match Embeddings.encode_request ir with Ok (wire, _) => Some wire | Err _ => None end
  | Err _ => None
  end.

Example embedding_batch_is_joined :
  reencoded batch_body = Some (obj [("model", Str "e"); ("input", Str ("Hello" +:+ String LF "World"))]).
Proof. reflexivity. Qed.

(** For every body, the parameters of an embeddings request never reach the
    upstream: the request has two members. *)
Lemma embedding_parameters_dropped body k :
  k <> "model" -> k <> "input" ->
  match reencoded body with Some wire => get k wire = None | None => True end.
Proof.
  intros Hm Hi. unfold reencoded. cbn [Embeddings.decode_request Embeddings.encode_request].
  rewrite get_obj. cbn [rev app assoc].
  destruct (String.eqb_spec k "input"); [done|]. by destruct (String.eqb_spec k "model").
Qed.

(** A response whose usage lacks a counter panics the decoder. *)
Example embedding_usage_panics :
  Embeddings.decode_response (obj [("usage", obj [("total_tokens", json_u64 3)])]) = Err MissingKey.
Proof. reflexivity. Qed.

(** ** The embedding cache *)

Definition DEFAULT_TTL : Z := (7 * 24 * 60 * 60 * ns_per_sec)%Z.
Definition DEFAULT_MAX_CAPACITY : Z := 10000.

Record EmbeddingCacheKey := {
  ek_model : string;
  ek_input : string;
  ek_dimensions : option Z;
  ek_encoding_format : option string;
}.

Record CachedEmbedding := {
  ce_response : Value;
  cached_at_ms : Z;
}.

(** *** Keys *)

(** The loop of [normalize]; every turn takes a byte at least. *)
Fixpoint fold_whitespace (fuel : nat) (last_was_space : bool) (s : string) : string :=
  match fuel, s with
  | S fuel, String a r =>
      match ws_prefix s with
      | Some rest => (if last_was_space then "" else " ") +:+ fold_whitespace fuel true rest
      | None => String a (fold_whitespace fuel false r)
      end
  | _, _ => ""
  end.

Definition normalize (s : string) : string := trim (fold_whitespace (String.length s) false s).

(** [u32::to_le_bytes] *)
Definition le_bytes32 (n : Z) : string :=
  let byte i := chr (Z.land (Z.shiftr n (8 * i)) 255) in
  String (byte 0%Z) (String (byte 1%Z) (String (byte 2%Z) (String (byte 3%Z) ""))).

Module EmbeddingCacheKey.
Section Digest.
Context `{OAuthCrates} `{TextCrates}.

Definition new (model input : string) : EmbeddingCacheKey :=
  {| ek_model := model; ek_input := normalize input; ek_dimensions := None;
     ek_encoding_format := None |}.

Definition with_dimensions (k : EmbeddingCacheKey) (d : Z) : EmbeddingCacheKey :=
  {| ek_model := ek_model k; ek_input := ek_input k; ek_dimensions := Some d;
     ek_encoding_format := ek_encoding_format k |}.

Definition with_encoding_format (k : EmbeddingCacheKey) (fmt : string) : EmbeddingCacheKey :=
  {| ek_model := ek_model k; ek_input := ek_input k; ek_dimensions := ek_dimensions k;
     ek_encoding_format := Some fmt |}.

(** What is hashed. *)
Definition preimage (k : EmbeddingCacheKey) : string :=
  ek_model k +:+ "|" +:+ ek_input k +:+ "|"
  +:+ match ek_dimensions k with Some d => le_bytes32 d | None => "" end +:+ "|"
  +:+ default "" (ek_encoding_format k).

Definition digest (k : EmbeddingCacheKey) : string := hex_encode (sha256 (preimage k)).
End Digest.
End EmbeddingCacheKey.

(** *** Entries *)

(** [moka::future::Cache]: a state and its two operations.  An entry that was
    inserted may be gone; an entry that is found was inserted under its key
    less than its time to live ago. *)
Class Moka := {
  moka_state : Type;
  moka_get : moka_state -> string -> Z -> option CachedEmbedding;
  moka_insert : moka_state -> string -> CachedEmbedding -> Z -> moka_state;
}.

Class MokaLaws (M : Moka) (ttl : Z) := {
  moka_lookup m k v now k' now' w :
    moka_get (moka_insert m k v now) k' now' = Some w ->
    (k' = k /\ w = v /\ now' < now + ttl)%Z \/ moka_get m k' now' = Some w;
}.

Module EmbeddingCache.
Section Cache.
Context `{OAuthCrates} `{TextCrates} `{Moka}.

Definition get (m : moka_state) (k : EmbeddingCacheKey) (now : Z) : option CachedEmbedding :=
  moka_get m (EmbeddingCacheKey.digest k) now.

Definition put (m : moka_state) (k : EmbeddingCacheKey) (response : Value) (now now_ms : Z)
    : moka_state :=
  moka_insert m (EmbeddingCacheKey.digest k) {| ce_response := response; cached_at_ms := now_ms |} now.
End Cache.
End EmbeddingCache.

(** A map that never evicts, with the time of each insertion. *)
Definition plain_moka (ttl : Z) : Moka := {|
  moka_state := gmap string (CachedEmbedding * Z);
  moka_get m k now := match m !! k with
                      | Some (v, at_) => if (now <? at_ + ttl)%Z then Some v else None
                      | None => None
                      end;
  moka_insert m k v now := <[k := (v, now)]> m |}.

#[export] Instance plain_moka_laws ttl : MokaLaws (plain_moka ttl) ttl.
Proof.
  constructor. cbn. intros m k v now k' now' w.
  destruct (decide (k' = k)) as [->|Hne].
  - rewrite lookup_insert_eq. destruct (Z.ltb_spec now' (now + ttl)); [|done].
    intros [= <-]. by left.
  - rewrite lookup_insert_ne by done. by right.
Defined.

(** *** What keys tell apart *)

(** Two requests that differ only in the parameters share a key when it is
    built by [new] alone; and the separator may occur in a model name. *)
Example separator_is_ambiguous :
  EmbeddingCacheKey.preimage (EmbeddingCacheKey.new "a|b" "c")
  = EmbeddingCacheKey.preimage (EmbeddingCacheKey.new "a" "b|c").
Proof. reflexivity. Qed.

(** Upper and lower case are kept apart. *)
Example case_is_kept : normalize "Hello" <> normalize "hello".
Proof. vm_compute. discriminate. Qed.

Example whitespace_is_folded :
  normalize ("  hello" +:+ String (chr 9) " world  ") = normalize "hello   world".
Proof. reflexivity. Qed.
