(* ===== verification/AuxExecutors.v ===== *)
(** * AuxExecutors: one attempt at an embeddings or images upstream

    [execute_embeddings_upstream], [execute_images_generations_upstream] and
    [execute_images_edits_upstream] of [crates/server/src/ingress/executors.rs],
    over the request builder of [UpstreamRequest] and the branches of
    [Executors].  The field [codec] of their [Call] is the suite of all three
    codecs, [OpenAiCompatible]. *)

From stdpp Require Import base option list gmap strings pretty.
From Stdlib Require Import ZArith Lia Ascii.
From S2P Require Import Prelude RustStr Http F64 Json JsonBody Utf8 Protocol Classify Errors Targets Ir HeaderForward Lossy ResponseModel Streaming Codecs.
From S2P Require Import ProviderConfig OAuthTokens Providers OAuthEffects EgressBody CodexOAuth AnthropicOAuth Egress UpstreamRequest Executors AuxCodecs.

Local Open Scope string_scope.
Local Open Scope list_scope.

Definition IMAGES_NONSTREAM_TIMEOUT_SECS : Z := 300.

(** The headers of an attempt, and what is sent with them. *)
Section Attempt.
Context `{SerdeJson} `{Lowercase} `{HttpHeaders} `{OAuthCrates} `{TextCrates} `{CodexCrates}
        `{AnthropicCrates} `{UrlHost} `{Reqwest} `{Tungstenite}.

(** [merge_client_headers], [apply_provider_auth] and
    [apply_gateway_identity_headers] on the headers of the codec; the function
    gets the headers that are sent. *)
Definition authenticated {A} (refused : AppError -> A)
    (oauth_apply : RoutingTarget -> HeaderMap -> prog (result string (option (HeaderMap * option string))))
    (registered : list Providers.Provider) (c : Call) (codec_hs : HeaderMap) (send : HeaderMap -> A)
    : prog (A * option string) :=
  prog_bind (fun '(applied, token) =>
    match applied with
    | Err e => Ret (refused e, token)
    | Ok hs => Ret (send (apply_gateway_identity_headers (client_headers c) hs
                            (header_policy (tunables c)) (oauth (target c))), token)
    end)
    (apply_provider_auth oauth_apply registered (target c)
       (merge_client_headers (client_headers c) codec_hs (header_policy (tunables c)))
       (caller_key_id c)).

(** [capture_body]: what the log keeps of the sent body. *)
Definition aux_capture (c : Call) (capture_body : option string) (fe : FinalizedEgress) (status : Z)
    (upstream_hs : list (string * string)) (upstream_text : option string)
    (client_hs : list (string * string)) (client_text : option string) (stream : bool)
    : ExchangeCapture :=
  {| request_id := call_request_id c; egress_method := fe_method fe; egress_path := fe_path fe;
     egress_headers := fe_headers fe; egress_body := capture_body;
     upstream_status := Some status; upstream_resp_headers := upstream_hs;
     upstream_resp_body := upstream_text; client_resp_headers := client_hs;
     client_resp_body := client_text; is_stream := stream; truncation_reason := None;
     stream_duration_ms := None; capture_upstream_error := None;
     capture_upstream_error_class := None |}.

(** *** Embeddings *)

(** What is sent to the client, what is captured, and the response that goes
    into the cache. *)
Record EmbeddingOutcome := { eo_outcome : Outcome; eo_stored : option Value }.

Definition not_stored (o : Outcome) : EmbeddingOutcome := {| eo_outcome := o; eo_stored := None |}.

Definition embeddings_request (c : Call) (body : Value) (hs : HeaderMap) : result AppError FinalizedEgress :=
  let url := RoutingTarget.effective_api_base (target c) +:+ "/embeddings" in
  let b := with_nonstream_timeout (upstream_nonstream_timeout_secs (tunables c)) (post url) in
  finalize_egress (rb_json body (rb_with_headers hs (inject_trace (traceparent c) b))).

(** The error of a refused request: neither [Retry-After] nor the rate limits
    are kept. *)
Definition embeddings_failure (status : Z) (body : Value) : AppError :=
  let error := body.["error"] in
  let e := upstream_failure status
             ("Upstream error: " +:+ default "Unknown error" (as_str error.["message"])) in
  match or_else (as_str error.["code"]) (as_str error.["type"]) with
  | Some code => AppError.with_upstream_code e code
  | None => e
  end.

(** [response.json()] *)
Definition json_body (r : UpstreamResponse) : result SendError Value :=
  match ur_text r with
  | Err e => Err e
  | Ok text => match from_str text with
               | Some v => Ok v
               | None => Err {| se_timeout := false; se_text := decode_error text |}
               end
  end.

Definition finish_embeddings (c : Call) (egress_text : string) (fe : FinalizedEgress) (ex : Exchange)
    : EmbeddingOutcome :=
  match ex_answer ex with
  | Err e => not_stored (rejected (map_nonstream_reqwest_error e "Upstream error"))
  | Ok r =>
      match json_body r with
      | Err e => not_stored (rejected (map_nonstream_reqwest_error e "Parse error"))
      | Ok body =>
          let upstream_hs := reqwest_headers_to_vec (ur_headers r) in
          let failed e :=
            not_stored {| outcome := Err e;
                          captures := [aux_capture c (Some egress_text) fe (ur_status r) upstream_hs
                                         (Some (to_string body)) [] None false] |} in
          if negb (is_success (ur_status r)) then failed (embeddings_failure (ur_status r) body)
          else
            match check_nonstream_error_body body (ur_status r) None [] with
            | Some e => failed e
            | None =>
                let answer := ResponseModel.apply_json
                  {| rmo_suite := OpenAiCompatible; rmo_model := Ir.model (ir_request c) |} body in
                let hs := forward_upstream_resp_headers json_headers upstream_hs
                            (header_policy (tunables c)) (call_request_id c) in
                {| eo_outcome :=
                     {| outcome := Ok ({| resp_headers := hs; resp_body := JsonBody answer |},
                                       Some (as_u64_millis (ex_after ex)));
                        captures := [aux_capture c (Some egress_text) fe (ur_status r) upstream_hs
                                       (Some (to_string body)) (header_map_to_vec (map_to_list hs))
                                       (Some (to_string answer)) false] |};
                   eo_stored := Some body |}
            end
      end
  end.

Definition execute_embeddings_upstream
    (oauth_apply : RoutingTarget -> HeaderMap -> prog (result string (option (HeaderMap * option string))))
    (registered : list Providers.Provider) (http : FinalizedEgress -> Exchange) (c : Call)
    : prog (EmbeddingOutcome * option string) :=
  match Embeddings.encode_request (ir_request c) with
  | Err e => Ret (not_stored (rejected (encode_failed e)), None)
  | Ok (body, hs) =>
      let '(body, _) := override_model_in_body body (Targets.model_id (target c)) in
      authenticated (fun e => not_stored (rejected e)) oauth_apply registered c (list_to_map hs)
        (fun hs =>
           match embeddings_request c body hs with
           | Err e => not_stored (rejected e)
           | Ok fe => finish_embeddings c (to_string body) fe (http fe)
           end)
  end.

(** *** Images *)

(** What the two executors do differently with an answer. *)
Record ImagesVariant := {
  iv_captured : option string;                  (* of the sent body *)
  iv_transcode : option (Transcode AnyDecoder AnyEncoder);
  iv_override : ResponseModelOverride;
  iv_convert : Value -> result AppError Value;  (* of a JSON answer *)
}.

(** The markers are those of the images encoder. *)
Definition images_config (c : Call) : Config :=
  {| end_marker := Images.encode_done;
     error_marker := Images.encode_error "upstream stream truncated by gateway" DeadlineExceeded None;
     idle_timeout := upstream_stream_idle_timeout_secs (tunables c) * ns_per_sec;
     total_timeout := upstream_stream_total_timeout_secs (tunables c) * ns_per_sec |}.

Definition images_headers (r : UpstreamResponse) (hs : HeaderMap) : HeaderMap :=
  repeat_rate_limits chat_variant (set_retry_after (extract_retry_after (ur_headers r)) hs).

Definition finish_images_stream (c : Call) (iv : ImagesVariant) (fe : FinalizedEgress) (ex : Exchange)
    : Outcome :=
  match execute_with_ttfb_timeout ex (upstream_ttfb_timeout_secs (tunables c)) with
  | Err e => rejected e
  | Ok r =>
      let upstream_hs := reqwest_headers_to_vec (ur_headers r) in
      if negb (is_success (ur_status r)) then
        let error_body := match ur_text r with Ok text => text | Err _ => "" end in
        {| outcome := Err (failed_stream chat_variant r error_body);
           captures := [aux_capture c (iv_captured iv) fe (ur_status r) upstream_hs (Some error_body)
                          [] None true] |}
      else
        let cap :=
          {| sc_request_id := call_request_id c; sc_egress_method := fe_method fe;
             sc_egress_path := fe_path fe; sc_egress_headers := fe_headers fe;
             sc_egress_body := iv_captured iv; sc_upstream_status := Some (ur_status r);
             sc_upstream_resp_headers := upstream_hs;
             sc_client_resp_headers :=
               forwarded_resp_headers_for_capture upstream_hs (header_policy (tunables c)) (call_request_id c);
             sc_health := true; sc_health_key := Some (RoutingTarget.health_key (target c)) |} in
        let hs := forward_upstream_resp_headers event_stream_headers upstream_hs
                    (header_policy (tunables c)) (call_request_id c) in
        {| outcome := Ok ({| resp_headers := images_headers r hs;
                             resp_body := EventStream HttpBytes (images_config c) cap (iv_transcode iv)
                                            (iv_override iv) |},
                          Some (as_u64_millis (ex_after ex)));
           captures := [] |}
  end.

(** The capture of the upstream's body is made after the conversion. *)
Definition finish_images_nonstream (c : Call) (iv : ImagesVariant) (fe : FinalizedEgress) (ex : Exchange)
    : Outcome :=
  match ex_answer ex with
  | Err e => rejected (map_nonstream_reqwest_error e "Upstream error")
  | Ok r =>
      match ur_text r with
      | Err e => rejected (map_nonstream_reqwest_error e "Read error")
      | Ok text =>
          let body := default (obj [("error", obj [("message", Str text)])]) (from_str text) in
          let upstream_hs := reqwest_headers_to_vec (ur_headers r) in
          let captured upstream_text client_hs client_text :=
            [aux_capture c (iv_captured iv) fe (ur_status r) upstream_hs (Some upstream_text)
               client_hs client_text false] in
          if negb (is_success (ur_status r)) then
            {| outcome := Err (failed_body chat_variant r body); captures := captured (to_string body) [] None |}
          else
            match check_nonstream_error_body body (ur_status r) (extract_retry_after (ur_headers r))
                    (extract_rate_limit_headers (ur_headers r)) with
            | Some e => {| outcome := Err e; captures := captured (to_string body) [] None |}
            | None =>
                match iv_convert iv body with
                | Err e => rejected e
                | Ok converted =>
                    let answer := ResponseModel.apply_json (iv_override iv) converted in
                    let hs := images_headers r
                                (forward_upstream_resp_headers json_headers upstream_hs
                                   (header_policy (tunables c)) (call_request_id c)) in
                    {| outcome := Ok ({| resp_headers := hs; resp_body := JsonBody answer |},
                                      Some (as_u64_millis (ex_after ex)));
                       captures := captured (to_string converted) (header_map_to_vec (map_to_list hs))
                                     (Some (to_string answer)) |}
                end
            end
      end
  end.

(** The request of either branch, and what becomes of its answer. *)
Definition send_images (http : FinalizedEgress -> Exchange) (c : Call) (iv : ImagesVariant) (path : string)
    (payload : RequestBuilder -> RequestBuilder) (hs : HeaderMap) : Outcome :=
  let b := rb_with_headers hs (post (RoutingTarget.effective_api_base (target c) +:+ path)) in
  let b := if call_stream c then b else with_nonstream_timeout IMAGES_NONSTREAM_TIMEOUT_SECS b in
  match finalize_egress (payload (inject_trace (traceparent c) b)) with
  | Err e => rejected e
  | Ok fe => if call_stream c then finish_images_stream c iv fe (http fe)
             else finish_images_nonstream c iv fe (http fe)
  end.

Local Open Scope step_scope.

(** The encoder of the images codec, or that of the target's protocol.  The
    gate is the one of a chat client: only [lossy_default_reject] of the
    ingress codec is looked at, which all codecs set. *)
Definition images_wire (c : Call) : step Wire :=
  let encoded := match Images.encode_generations (ir_request c) with
                 | Ok w => yields w
                 | Err e => fails (encode_failed e)
                 end in
  match raw_passthrough_body c with
  | Some raw =>
      if is_same_protocol c then
        match from_str raw with
        | Some v => yields (v, match Images.encode_generations (ir_request c) with
                               | Ok (_, hs) => hs
                               | Err _ => []
                               end)
        | None => fails (AppError.new 500 ("PassThrough: invalid raw body JSON: " +:+ from_str_error raw))
        end
      else encode_cross c
  | None => if is_same_protocol c then encoded else encode_cross c
  end.

Definition prepare_images (c : Call) : step Prepared :=
  '(body, hs) <-- images_wire c;
  '(body, m1) <-r maybe_inject_prompt_cache_key body (egress_suite c) (caller_key_id c);
  let '(body, m2) := override_model_in_body body (Targets.model_id (target c)) in
  yields {| upstream_body := body; codec_headers := list_to_map hs; body_mutated := m1 || m2;
            codex := codex_off; anthropic_profile := false |}.

Local Close Scope step_scope.

Definition convert_images_response (c : Call) (body : Value) : result AppError Value :=
  if is_same_protocol c then Ok body
  else
    match get_egress_codec (call_egress c) with
    | None => Err (AppError.new 500 "No egress codec found")
    | Some egress_codec =>
        match decode_response egress_codec body with
        | Err e => Err (AppError.new 500 ("Decode response error: " +:+ error_to_string e))
        | Ok ir_response =>
            match Images.encode_response ir_response with
            | Err e => Err (AppError.new 500 ("Encode response error: " +:+ error_to_string e))
            | Ok body => Ok body
            end
        end
    end.

Definition execute_images_generations_upstream
    (oauth_apply : RoutingTarget -> HeaderMap -> prog (result string (option (HeaderMap * option string))))
    (registered : list Providers.Provider) (http : FinalizedEgress -> Exchange) (c : Call)
    : prog (Outcome * option string) :=
  match prepare_images c with
  | Err p => panics p
  | Ok (Err e) => Ret (rejected e, None)
  | Ok (Ok p) =>
      let iv := {| iv_captured := Some (egress_body_text c p);
                   iv_transcode := build_stream_transcode (call_ingress c) (call_egress c);
                   iv_override := model_override c;
                   iv_convert := convert_images_response c |} in
      authenticated rejected oauth_apply registered c (codec_headers p)
        (send_images http c iv "/images/generations" (with_payload c p))
  end.

(** The body is that of the client, byte for byte, under its content type. *)
Definition execute_images_edits_upstream
    (oauth_apply : RoutingTarget -> HeaderMap -> prog (result string (option (HeaderMap * option string))))
    (registered : list Providers.Provider) (http : FinalizedEgress -> Exchange) (c : Call)
    (virtual_model raw_body content_type : string) : prog (Outcome * option string) :=
  let iv := {| iv_captured := None; iv_transcode := None;
               iv_override := {| rmo_suite := OpenAiCompatible; rmo_model := virtual_model |};
               iv_convert := fun body => Ok body |} in
  authenticated rejected oauth_apply registered c ∅
    (send_images http c iv "/images/edits"
       (fun b => rb_with_body raw_body (rb_header "content-type" content_type b))).
End Attempt.
