(* ===== verification/ApiKeys.v ===== *)
(** * ApiKeys: the keys of the gateway's callers

    [ApiKey] of [crates/store/src/models.rs] and the operations on the table
    [api_keys] of [crates/store/src/config_store.rs].  A secret is stored as
    its hash only; the table's constraint that hashes are distinct is part of
    the insertion. *)

From stdpp Require Import base option list gmap strings.
From Stdlib Require Import ZArith Lia Ascii.
From S2P Require Import Prelude RustStr F64 Json JsonBody Encryption ProviderConfig OAuthTokens Providers.

Local Open Scope string_scope.
Local Open Scope list_scope.

(** ** Data *)

Inductive ApiKeyStatus := Active | Disabled.

#[export] Instance ApiKeyStatus_eq_dec : EqDecision ApiKeyStatus.
Proof. solve_decision. Defined.

Module ApiKeyStatus.
Definition as_str (s : ApiKeyStatus) : string :=
  match s with Active => "active" | Disabled => "disabled" end.

Definition parse (s : string) : option ApiKeyStatus :=
  if String.eqb s "active" then Some Active
  else if String.eqb s "disabled" then Some Disabled
  else None.
End ApiKeyStatus.

Record ApiKey := {
  ak_id : string;
  ak_name : string;
  key_hash : string;
  quota_json : Value;
  allowed_models : option (list string);
  ak_status : ApiKeyStatus;
  ak_created_at : Z;
  ak_updated_at : Z;
}.

(** A row of the table: texts, as the database has them. *)
Record KeyRow := {
  kr_name : string;
  kr_hash : string;
  kr_quota : string;
  kr_allowed : option string;
  kr_status : string;
  kr_created_at : string;
  kr_updated_at : string;
}.

Abbreviation KeyTable := (gmap string KeyRow).

(** Trimmed names without duplicates, in the order of the [BTreeSet]. *)
Fixpoint insert_models (set : list (string * unit)) (models : list string)
    : result StoreError (list (string * unit)) :=
  match models with
  | [] => Ok set
  | m :: r =>
      let m := trim m in
      if is_empty m then Err (InvalidInput "allowed model names must not be empty")
      else insert_models (Json.insert m tt set) r
  end.

Definition normalize_allowed_models (allowed : option (list string))
    : result StoreError (option (list string)) :=
  match allowed with
  | None => Ok None
  | Some models => set ← insert_models [] models; Ok (Some (map fst set))
  end.

(** The reads of an array of strings. *)
Fixpoint strings_of (l : list Value) : option (list string) :=
  match l with
  | [] => Some []
  | Str s :: r => r ← strings_of r; Some (s :: r)
  | _ => None
  end.

Section Table.
Context `{SerdeJson} `{Chrono} `{OAuthCrates} `{TextCrates}.

Definition hash_api_key (secret : string) : string := hex_encode (sha256 secret).

(** [serde_json::from_str::<Vec<String>>] *)
Definition parse_strings (text : string) : result StoreError (list string) :=
  match from_str text with
  | Some (Arr l) => match strings_of l with
                    | Some models => Ok models
                    | None => Err (Serde (from_str_error text))
                    end
  | _ => Err (Serde (from_str_error text))
  end.

Definition row_to_api_key (id : string) (r : KeyRow) : result StoreError ApiKey :=
  status ← match ApiKeyStatus.parse (kr_status r) with
           | Some s => Ok s
           | None => Err (InvalidInput ("unknown api key status: " +:+ kr_status r))
           end;
  quota ← (if is_empty (kr_quota r) then Ok (Obj [])
           else match from_str (kr_quota r) with
                | Some v => Ok v
                | None => Err (Serde (from_str_error (kr_quota r)))
                end);
  allowed ← match kr_allowed r with
            | Some text => if is_empty text then Ok None else l ← parse_strings text; Ok (Some l)
            | None => Ok None
            end;
  created ← parse_dt (kr_created_at r);
  updated ← parse_dt (kr_updated_at r);
  Ok {| ak_id := id; ak_name := kr_name r; key_hash := kr_hash r; quota_json := quota;
        allowed_models := allowed; ak_status := status; ak_created_at := created;
        ak_updated_at := updated |}.

Definition models_text (allowed : option (list string)) : option string :=
  (fun models => to_string (Arr (map Str models))) <$> allowed.

(** ** Reads *)

Definition get_api_key (t : KeyTable) (id : string) : result StoreError (option ApiKey) :=
  match t !! id with
  | Some r => k ← row_to_api_key id r; Ok (Some k)
  | None => Ok None
  end.

(** [SELECT .. WHERE key_hash = $1], which finds one row at most. *)
Definition row_with_hash (t : KeyTable) (hash : string) : option (string * KeyRow) :=
  head (filter (fun kv => kr_hash (snd kv) = hash) (map_to_list t)).

Definition find_api_key_by_secret (t : KeyTable) (secret : string) : result StoreError (option ApiKey) :=
  match row_with_hash t (hash_api_key secret) with
  | Some (id, r) => k ← row_to_api_key id r; Ok (Some k)
  | None => Ok None
  end.

(** The keys of a table in the order of the database, here that of the map. *)
Fixpoint read_rows (l : list (string * KeyRow)) : result StoreError (list ApiKey) :=
  match l with
  | [] => Ok []
  | (id, r) :: rest => k ← row_to_api_key id r; ks ← read_rows rest; Ok (k :: ks)
  end.

Definition list_api_keys (t : KeyTable) : result StoreError (list ApiKey) := read_rows (map_to_list t).

(** ** Writes

    The result with the table after the call: an error of the read at the end
    does not undo the write.  [now] is the clock, [id] the new UUID, and
    [violated] the database's text for a row that exists already. *)

Definition existing (what : string) (r : result StoreError (option ApiKey)) : result StoreError ApiKey :=
  match r with
  | Ok (Some k) => Ok k
  | Ok None => Err (NotFound what)
  | Err e => Err e
  end.

Definition create_api_key (t : KeyTable) (id : string) (now : Z) (violated name secret_plain : string)
    (quota : Value) (allowed : option (list string)) : KeyTable * result StoreError (ApiKey * string) :=
  match normalize_allowed_models allowed with
  | Err e => (t, Err e)
  | Ok allowed =>
      let hash := hash_api_key secret_plain in
      if bool_decide (is_Some (t !! id)) || bool_decide (is_Some (row_with_hash t hash))
      then (t, Err (DbError violated))
      else
        let r := {| kr_name := name; kr_hash := hash; kr_quota := to_string quota;
                    kr_allowed := models_text allowed; kr_status := "active";
                    kr_created_at := to_rfc3339 now; kr_updated_at := to_rfc3339 now |} in
        let t := <[id := r]> t in
        (t, k ← existing "just-created api key" (get_api_key t id); Ok (k, secret_plain))
  end.

(** [UPDATE .. WHERE id = $n]: the new table, or [None] when no row matched. *)
Definition update_row (t : KeyTable) (id : string) (f : KeyRow -> KeyRow) : option KeyTable :=
  match t !! id with
  | Some r => Some (<[id := f r]> t)
  | None => None
  end.

Definition missing (id : string) : StoreError := NotFound ("api key " +:+ id).

Definition set_quota (quota : string) (now : string) (r : KeyRow) : KeyRow :=
  {| kr_name := kr_name r; kr_hash := kr_hash r; kr_quota := quota; kr_allowed := kr_allowed r;
     kr_status := kr_status r; kr_created_at := kr_created_at r; kr_updated_at := now |}.
Definition set_allowed (allowed : option string) (now : string) (r : KeyRow) : KeyRow :=
  {| kr_name := kr_name r; kr_hash := kr_hash r; kr_quota := kr_quota r; kr_allowed := allowed;
     kr_status := kr_status r; kr_created_at := kr_created_at r; kr_updated_at := now |}.
Definition set_disabled (now : string) (r : KeyRow) : KeyRow :=
  {| kr_name := kr_name r; kr_hash := kr_hash r; kr_quota := kr_quota r; kr_allowed := kr_allowed r;
     kr_status := "disabled"; kr_created_at := kr_created_at r; kr_updated_at := now |}.

Definition update_api_key_quota (t : KeyTable) (id : string) (now : Z) (quota : Value)
    : KeyTable * result StoreError ApiKey :=
  match update_row t id (set_quota (to_string quota) (to_rfc3339 now)) with
  | None => (t, Err (missing id))
  | Some t => (t, existing ("api key " +:+ id) (get_api_key t id))
  end.

Definition update_api_key_model_access (t : KeyTable) (id : string) (now : Z)
    (allowed : option (list string)) : KeyTable * result StoreError ApiKey :=
  match normalize_allowed_models allowed with
  | Err e => (t, Err e)
  | Ok allowed =>
      match update_row t id (set_allowed (models_text allowed) (to_rfc3339 now)) with
      | None => (t, Err (missing id))
      | Some t => (t, existing ("api key " +:+ id) (get_api_key t id))
      end
  end.

Definition disable_api_key (t : KeyTable) (id : string) (now : Z) : KeyTable * result StoreError unit :=
  match update_row t id (set_disabled (to_rfc3339 now)) with
  | None => (t, Err (missing id))
  | Some t => (t, Ok tt)
  end.

Definition delete_api_key (t : KeyTable) (id : string) : KeyTable * result StoreError unit :=
  match t !! id with
  | None => (t, Err (missing id))
  | Some _ => (delete id t, Ok tt)
  end.
End Table.

(** ** The table keeps the hashes apart *)

Definition distinct_hashes (t : KeyTable) : Prop :=
  forall i j r s, t !! i = Some r -> t !! j = Some s -> kr_hash r = kr_hash s -> i = j.

Section Invariant.
Context `{SerdeJson} `{Chrono} `{OAuthCrates} `{TextCrates}.

Lemma row_with_hash_none t h : row_with_hash t h = None <-> forall i r, t !! i = Some r -> kr_hash r <> h.
Proof.
  unfold row_with_hash. set (l := filter _ _). split.
  - intros Hl i r Hi Hh. destruct l as [|kv l'] eqn:E; [|done].
    assert ((i, r) ∈ l) as Hin.
    { subst l. apply list_elem_of_filter. split; [done|]. by apply elem_of_map_to_list. }
    rewrite E in Hin. by apply elem_of_nil in Hin.
  - intros Hall. destruct l as [|[i r] l'] eqn:E; [done|].
    assert ((i, r) ∈ l) as Hin by (rewrite E; left). subst l.
    apply list_elem_of_filter in Hin as [Hh Hin]. apply elem_of_map_to_list in Hin. by eapply Hall in Hin.
Qed.

Lemma row_with_hash_some t h i r :
  distinct_hashes t -> t !! i = Some r -> kr_hash r = h -> row_with_hash t h = Some (i, r).
Proof.
  intros Hd Hi Hh. destruct (row_with_hash t h) as [[j s]|] eqn:E.
  - unfold row_with_hash in E. apply head_Some_elem_of in E.
    apply list_elem_of_filter in E as [Hs Hin]. apply elem_of_map_to_list in Hin. cbn in Hs.
    assert (i = j) as -> by (apply (Hd i j r s); [done|done|by rewrite Hh, Hs]).
    rewrite Hi in Hin. by injection Hin as ->.
  - by destruct (proj1 (row_with_hash_none t h) E i r Hi).
Qed.

Lemma row_with_hash_found t h i r : row_with_hash t h = Some (i, r) -> t !! i = Some r /\ kr_hash r = h.
Proof.
  unfold row_with_hash. intros E. apply head_Some_elem_of in E.
  apply list_elem_of_filter in E as [Hs Hin]. by apply elem_of_map_to_list in Hin.
Qed.

(** The operations on the table. *)
Inductive key_step : KeyTable -> KeyTable -> Prop :=
| step_create t id now violated name secret quota allowed :
    key_step t (fst (create_api_key t id now violated name secret quota allowed))
| step_quota t id now quota : key_step t (fst (update_api_key_quota t id now quota))
| step_access t id now allowed : key_step t (fst (update_api_key_model_access t id now allowed))
| step_disable t id now : key_step t (fst (disable_api_key t id now))
| step_delete t id : key_step t (fst (delete_api_key t id)).

Lemma update_distinct t id f t' :
  (forall r, kr_hash (f r) = kr_hash r) -> distinct_hashes t -> update_row t id f = Some t' ->
  distinct_hashes t'.
Proof.
  intros Hf Hd Hu. unfold update_row in Hu. destruct (t !! id) as [r0|] eqn:E; [|done].
  injection Hu as <-. intros i j r s Hi Hj Hh.
  destruct (decide (i = id)) as [->|Hni], (decide (j = id)) as [->|Hnj]; [done|..].
  - rewrite lookup_insert_eq in Hi. rewrite lookup_insert_ne in Hj by done. injection Hi as <-.
    rewrite Hf in Hh. by apply (Hd id j r0 s).
  - rewrite lookup_insert_eq in Hj. rewrite lookup_insert_ne in Hi by done. injection Hj as <-.
    rewrite Hf in Hh. by apply (Hd i id r r0).
  - rewrite lookup_insert_ne in Hi, Hj by done. by apply (Hd i j r s).
Qed.

Lemma insert_distinct t id r :
  distinct_hashes t -> t !! id = None -> row_with_hash t (kr_hash r) = None ->
  distinct_hashes (<[id := r]> t).
Proof.
  intros Hd Hid Hno. pose proof (proj1 (row_with_hash_none t _) Hno) as Hn. clear Hno. rename Hn into Hno. intros i j x y Hi Hj Hh.
  destruct (decide (i = id)) as [->|Hni], (decide (j = id)) as [->|Hnj]; [done|..].
  - rewrite lookup_insert_eq in Hi. rewrite lookup_insert_ne in Hj by done. injection Hi as <-.
    by apply Hno in Hj.
  - rewrite lookup_insert_eq in Hj. rewrite lookup_insert_ne in Hi by done. injection Hj as <-.
    by apply Hno in Hi.
  - rewrite lookup_insert_ne in Hi, Hj by done. by apply (Hd i j x y).
Qed.

Lemma step_distinct t t' : key_step t t' -> distinct_hashes t -> distinct_hashes t'.
Proof.
  intros [] Hd.
  - unfold create_api_key. destruct (normalize_allowed_models allowed); [|done].
    destruct (bool_decide (is_Some (t0 !! id))) eqn:E1; [done|].
    destruct (bool_decide (is_Some (row_with_hash _ _))) eqn:E2; [done|]. cbn [orb fst].
    apply bool_decide_eq_false, eq_None_not_Some in E1, E2. by apply insert_distinct.
  - unfold update_api_key_quota. destruct (update_row _ _ _) as [t1|] eqn:E; [|done].
    by eapply update_distinct; [|exact Hd|exact E].
  - unfold update_api_key_model_access. destruct (normalize_allowed_models allowed); [|done].
    destruct (update_row _ _ _) as [t1|] eqn:E; [|done]. by eapply update_distinct; [|exact Hd|exact E].
  - unfold disable_api_key. destruct (update_row _ _ _) as [t1|] eqn:E; [|done].
    by eapply update_distinct; [|exact Hd|exact E].
  - unfold delete_api_key. destruct (t0 !! id); [|done]. cbn [fst].
    intros i j r s Hi Hj. apply lookup_delete_Some in Hi as [_ Hi], Hj as [_ Hj]. by apply Hd.
Qed.

(** The tables the operations can make of an empty one. *)
Definition reachable (t : KeyTable) : Prop := rtc key_step ∅ t.

Lemma reachable_distinct t : reachable t -> distinct_hashes t.
Proof.
  intros Hr. assert (distinct_hashes ∅) as He by (intros i j r s Hi; by rewrite lookup_empty in Hi).
  induction Hr as [|t1 t2 t3 Hs _ IH]; [done|]. apply IH. by eapply step_distinct.
Qed.
End Invariant.

(** ** The life of a key *)

Section Life.
Context `{J : SerdeJson} `{!SerdeJsonLaws J} `{C : Chrono} `{!ChronoLaws C} `{OAuthCrates} `{TextCrates}.
Context (Hempty : from_str "" = None).

Lemma text_nonempty v : exact v = true -> is_empty (to_string v) = false.
Proof using Hempty SerdeJsonLaws0.
  intros Hv. destruct (is_empty (to_string v)) eqn:E; [|done].
  apply is_empty_eq in E. pose proof (from_to_string v Hv) as Hf. rewrite E, Hempty in Hf. done.
Qed.

Lemma exact_strings l : exact (Arr (map Str l)) = true.
Proof. cbn. by induction l. Qed.

Lemma parse_models_text l : parse_strings (to_string (Arr (map Str l))) = Ok l.
Proof using SerdeJsonLaws0.
  unfold parse_strings. rewrite from_to_string by apply exact_strings.
  assert (strings_of (map Str l) = Some l) as ->; [|done].
  induction l as [|s l IH]; [done|]. cbn [map strings_of]. by rewrite IH.
Qed.

Definition made_key (id name hash : string) (quota : Value) (allowed : option (list string))
    (status : ApiKeyStatus) (created updated : Z) : ApiKey :=
  {| ak_id := id; ak_name := name; key_hash := hash; quota_json := quota; allowed_models := allowed;
     ak_status := status; ak_created_at := created; ak_updated_at := updated |}.

Definition made_row (name hash : string) (quota : Value) (allowed : option (list string))
    (status : ApiKeyStatus) (created updated : Z) : KeyRow :=
  {| kr_name := name; kr_hash := hash; kr_quota := to_string quota; kr_allowed := models_text allowed;
     kr_status := ApiKeyStatus.as_str status; kr_created_at := to_rfc3339 created;
     kr_updated_at := to_rfc3339 updated |}.

Lemma read_made_row id name hash quota allowed status created updated :
  exact quota = true -> four_digit_year created = true -> four_digit_year updated = true ->
  row_to_api_key id (made_row name hash quota allowed status created updated)
  = Ok (made_key id name hash quota allowed status created updated).
Proof using Hempty SerdeJsonLaws0 ChronoLaws0.
  intros Hq Hc Hu. unfold row_to_api_key, made_row.
  cbn [kr_status kr_quota kr_allowed kr_created_at kr_updated_at kr_name kr_hash].
  assert (ApiKeyStatus.parse (ApiKeyStatus.as_str status) = Some status) as -> by (by destruct status).
  rewrite text_nonempty, from_to_string by done. cbn [mbind result_bind].
  assert ((match models_text allowed with
           | Some text => if is_empty text then Ok None else l ← parse_strings text; Ok (Some l)
           | None => Ok None
           end : result StoreError (option (list string))) = Ok allowed) as ->.
  { destruct allowed as [l|]; [|done]. cbn [models_text fmap option_fmap option_map].
    by rewrite text_nonempty, parse_models_text by apply exact_strings. }
  unfold parse_dt. by rewrite !parse_to_rfc3339.
Qed.

Lemma find_row t secret id r :
  distinct_hashes t -> t !! id = Some r -> kr_hash r = hash_api_key secret ->
  find_api_key_by_secret t secret = (k ← row_to_api_key id r; Ok (Some k)).
Proof using.
  intros Hd Hi Hh. unfold find_api_key_by_secret. by rewrite (row_with_hash_some t _ id r Hd Hi Hh).
Qed.

(** A write of one row changes nothing for the secrets of the others. *)
Lemma other_secret t t' id h other :
  distinct_hashes t -> distinct_hashes t' -> (forall i, i <> id -> t' !! i = t !! i) ->
  (forall r, t !! id = Some r -> kr_hash r = h) -> (forall r, t' !! id = Some r -> kr_hash r = h) ->
  hash_api_key other <> h -> find_api_key_by_secret t' other = find_api_key_by_secret t other.
Proof using.
  intros Hd Hd' Hsame Hid Hid' Hne. unfold find_api_key_by_secret.
  destruct (row_with_hash t (hash_api_key other)) as [[j s]|] eqn:E.
  - apply row_with_hash_found in E as [Hj Hs]. rewrite (row_with_hash_some _ _ j s); [done|done| |done].
    rewrite Hsame; [done|]. intros ->. apply Hid in Hj. congruence.
  - rewrite (proj2 (row_with_hash_none _ _)); [done|]. intros i x Hi.
    destruct (decide (i = id)) as [->|Hni]; [apply Hid' in Hi; congruence|].
    rewrite Hsame in Hi by done. by eapply (proj1 (row_with_hash_none _ _) E).
Qed.

(** C25: A key from its creation to its end.  The secret is handed back once and
    finds exactly the key that was created, with the quota and the cleaned
    model list it was given; once it is disabled the same secret finds the same
    key, marked as such; once it is deleted the secret finds nothing; and after
    each of the three the secrets of other keys find what they found before.
    The quota is JSON without floats, whose text reads back, and the years of
    the two instants have four digits. *)
Theorem api_key_lifecycle t t1 id now later violated name secret quota allowed k given :
  reachable t -> exact quota = true -> four_digit_year now = true -> four_digit_year later = true ->
  create_api_key t id now violated name secret quota allowed = (t1, Ok (k, given)) ->
  given = secret
  /\ (exists models, normalize_allowed_models allowed = Ok models
      /\ k = made_key id name (hash_api_key secret) quota models Active now now)
  /\ find_api_key_by_secret t1 secret = Ok (Some k)
  /\ find_api_key_by_secret (fst (disable_api_key t1 id later)) secret
     = Ok (Some (made_key id name (hash_api_key secret) quota (allowed_models k) Disabled now later))
  /\ find_api_key_by_secret (fst (delete_api_key t1 id)) secret = Ok None
  /\ forall other, hash_api_key other <> hash_api_key secret ->
       find_api_key_by_secret t1 other = find_api_key_by_secret t other
       /\ find_api_key_by_secret (fst (disable_api_key t1 id later)) other = find_api_key_by_secret t other
       /\ find_api_key_by_secret (fst (delete_api_key t1 id)) other = find_api_key_by_secret t other.
Proof using Hempty SerdeJsonLaws0 ChronoLaws0.
  intros Hr Hq Hn Hl Hc. pose proof (reachable_distinct t Hr) as Hd.
  assert (distinct_hashes t1) as Hd1.
  { eapply step_distinct; [|exact Hd]. replace t1 with (fst (t1, Ok (k, given) : result StoreError (ApiKey * string))) by done.
    rewrite <- Hc. constructor. }
  unfold create_api_key in Hc. destruct (normalize_allowed_models allowed) as [models|]; [|done].
  destruct (bool_decide (is_Some (t !! id))) eqn:E1; [done|].
  destruct (bool_decide (is_Some (row_with_hash _ _))) eqn:E2; [done|]. cbn [orb] in Hc.
  apply bool_decide_eq_false, eq_None_not_Some in E1, E2.
  change {| kr_name := name; kr_hash := _; kr_quota := _; kr_allowed := _; kr_status := _;
            kr_created_at := _; kr_updated_at := _ |}
    with (made_row name (hash_api_key secret) quota models Active now now) in Hc.
  set (r := made_row _ _ _ _ _ _ _) in Hc.
  injection Hc as Ht Hk. subst t1. unfold get_api_key in Hk. rewrite lookup_insert_eq in Hk.
  unfold r in Hk. rewrite read_made_row in Hk by done. cbn in Hk. injection Hk as <- <-.
  split; [done|]. split; [by exists models|]. split; [|split; [|split]].
  - rewrite (find_row _ secret id r) by (try done; apply lookup_insert_eq).
    unfold r. by rewrite read_made_row.
  - unfold disable_api_key, update_row. rewrite lookup_insert_eq. cbn [fst].
    rewrite (find_row _ secret id (set_disabled (to_rfc3339 later) r)).
    + change (set_disabled (to_rfc3339 later) r)
        with (made_row name (hash_api_key secret) quota models Disabled now later).
      by rewrite read_made_row.
    + eapply update_distinct; [|exact Hd1|unfold update_row; by rewrite lookup_insert_eq]. done.
    + apply lookup_insert_eq.
    + done.
  - unfold delete_api_key. rewrite lookup_insert_eq. cbn [fst]. rewrite delete_insert_id by done.
    unfold find_api_key_by_secret. by rewrite E2.
  - intros other Hne.
    assert (forall r', kr_hash r' = hash_api_key secret -> distinct_hashes (<[id:=r']> t) ->
      find_api_key_by_secret (<[id:=r']> t) other = find_api_key_by_secret t other) as Hins.
    { intros r' Hr' Hd'. apply (other_secret t (<[id:=r']> t) id (hash_api_key secret)); try done.
      - intros i Hi. by apply lookup_insert_ne.
      - intros x Hx. by rewrite E1 in Hx.
      - intros x Hx. rewrite lookup_insert_eq in Hx. by injection Hx as <-. }
    split; [by apply Hins|]. split.
    + unfold disable_api_key. destruct (update_row _ _ _) as [t2|] eqn:Eu; cbn [fst]; [|by apply Hins].
      assert (distinct_hashes t2) as Hd2 by (by eapply update_distinct; [|exact Hd1|exact Eu]).
      unfold update_row in Eu. rewrite lookup_insert_eq in Eu. injection Eu as <-.
      rewrite insert_insert_eq in Hd2 |- *. by apply Hins.
    + unfold delete_api_key. rewrite lookup_insert_eq. cbn [fst]. by rewrite delete_insert_id.
Qed.
End Life.

(** ** A sample table *)

Module Sample.
#[export] Existing Instance coded_json.
#[export] Existing Instance coded_json_laws.
#[export] Existing Instance binary_chrono.
#[export] Existing Instance binary_chrono_laws.
#[export] Existing Instance hex_crates.
#[export] Instance open_hash : OAuthCrates := {|
  sha256 s := s; url_safe_encode s := s; url_safe_decode s := Some s;
  form_urlencode _ := ""; status_phrase _ := ""; decode_error _ := "" |}.

Definition sample_quota : Value := obj [("requests_per_minute", json_u64 60)].
Definition sample_created :=
  create_api_key ∅ "k1" 1700000000000000000 "UNIQUE" "team" "sk-secret" sample_quota
    (Some [" gpt-4o "; "claude"; "gpt-4o"]).
Definition sample_table : KeyTable := fst sample_created.
Definition sample_key : ApiKey :=
  made_key "k1" "team" (hash_api_key "sk-secret") sample_quota (Some ["claude"; "gpt-4o"]) Active
    1700000000000000000 1700000000000000000.
End Sample.

Import Sample.

Lemma api_key_lifecycle_witness :
  sample_created = (sample_table, Ok (sample_key, "sk-secret"))
  /\ find_api_key_by_secret sample_table "sk-secret" = Ok (Some sample_key).
Proof.
  assert (sample_created = (sample_table, Ok (sample_key, "sk-secret"))) as Hc by (vm_compute; reflexivity).
  split; [exact Hc|].
  assert (from_str (SerdeJson := coded_json) "" = None) as He by reflexivity.
  destruct (api_key_lifecycle He ∅ sample_table "k1" 1700000000000000000 1800000000000000000 "UNIQUE"
              "team" "sk-secret" sample_quota (Some [" gpt-4o "; "claude"; "gpt-4o"]) sample_key "sk-secret")
    as (_ & _ & Hf & _).
  - apply rtc_refl.
  - reflexivity.
  - reflexivity.
  - reflexivity.
  - exact Hc.
  - exact Hf.
Defined.
