(* ===== verification/TokenStats.v ===== *)
(** * TokenStats: the daily token statistics

    [aggregate_once], [recompute_summary_in_tx] and [compute_streaks_in_tx] of
    [crates/store/src/token_stats.rs], the deletion of old request logs
    ([cleanup_once] of [crates/store/src/retention.rs]), and the readers of the
    dashboard.  A day of the calendar is the number of days since an epoch; the
    texts of days and of instants are those of [chrono] and of the database. *)

From stdpp Require Import base option list gmap strings.
From Stdlib Require Import ZArith Lia Ascii Sorted.
From S2P Require Import Prelude RustStr F64 Json JsonBody Encryption ProviderConfig.

Local Open Scope string_scope.
Local Open Scope list_scope.
Local Open Scope Z_scope.

(** [NaiveDate] and the [DATE] of the database: the text of a day, the reading
    of one, [today - days] unless it leaves the calendar, and the day of a
    timestamp. *)
Class Calendar := {
  day_text : Z -> string;
  parse_day : string -> option Z;
  sub_days : Z -> Z -> option Z;
  date_of : string -> string;
}.

(** The days of the years 0 to 9999 since 1970-01-01. *)
Definition four_digit_day (d : Z) : bool := (-719528 <=? d) && (d <=? 2932896).

(** The text of a day is read back, and the texts are ordered as the days. *)
Class CalendarLaws (C : Calendar) : Prop := {
  parse_day_text d : four_digit_day d = true -> parse_day (day_text d) = Some d;
  compare_day_text d e :
    four_digit_day d = true -> four_digit_day e = true ->
    String.compare (day_text d) (day_text e) = Z.compare d e;
}.

(** The columns of [request_logs] that are aggregated. *)
Record LogRow := {
  l_request_id : string;
  l_ts : string;
  l_total_tokens : option Z;
  l_prompt_tokens : option Z;
  l_completion_tokens : option Z;
  l_reasoning_tokens : option Z;
  l_cost : option Z;
  l_latency_ms : Z;
}.

(** A row of [token_daily_stats]. *)
Record DayStats := {
  request_count : Z;
  total_tokens : Z;
  prompt_tokens : Z;
  completion_tokens : Z;
  reasoning_tokens : Z;
  total_cost : Z;
  peak_single_request : Z;
  longest_task_ms : Z;
  stats_updated_at : string;
}.

(** The row of [token_summary]. *)
Record TokenSummaryData := {
  lifetime_tokens : Z;
  peak_day_tokens : Z;
  lifetime_cost : Z;
  peak_day_cost : Z;
  summary_longest_task_ms : Z;
  current_streak : Z;
  longest_streak : Z;
  summary_updated_at : string;
}.

Record Stats := { daily : gmap string DayStats; summary : TokenSummaryData }.

(** Why a pass fails: a sum that is no [BIGINT], a day before the calendar (a
    panic of [chrono]). *)
Inductive StatsError := SumOverflow | DayOutOfRange.

#[export] Instance StatsError_eq_dec : EqDecision StatsError.
Proof. solve_decision. Defined.

(** ** SQL aggregates *)

(** [CAST(COALESCE(SUM(x), 0) AS BIGINT)] *)
Definition sql_sum (l : list Z) : result StatsError Z :=
  let s := foldr Z.add 0 l in
  if (- i64_max - 1 <=? s) && (s <=? i64_max) then Ok s else Err SumOverflow.

(** [COALESCE(MAX(x), 0)] *)
Definition sql_max (l : list Z) : Z :=
  match l with [] => 0 | x :: r => foldr Z.max x r end.

(** The columns of a group of the aggregation. *)
Definition day_stats (updated_at : string) (l : list LogRow) : result StatsError DayStats :=
  tt ← sql_sum (omap l_total_tokens l);
  pt ← sql_sum (omap l_prompt_tokens l);
  ct ← sql_sum (omap l_completion_tokens l);
  rt ← sql_sum (omap l_reasoning_tokens l);
  tc ← sql_sum (omap l_cost l);
  Ok {| request_count := Z.of_nat (length l); total_tokens := tt; prompt_tokens := pt;
        completion_tokens := ct; reasoning_tokens := rt; total_cost := tc;
        peak_single_request := sql_max (omap l_total_tokens l);
        longest_task_ms := sql_max (map l_latency_ms l); stats_updated_at := updated_at |}.

(** [a <= b] and [a < b] of texts. *)
Definition text_le (a b : string) : bool := match String.compare a b with Gt => false | _ => true end.
Definition text_lt (a b : string) : bool := match String.compare a b with Lt => true | _ => false end.

Section Stats.
Context `{Calendar}.

(** [WHERE ts >= $1 GROUP BY DATE(ts)] *)
Definition grouped (since : string) (logs : list LogRow) : gmap string (list LogRow) :=
  foldr (fun l m => partial_alter (fun o => Some (l :: default [] o)) (date_of (l_ts l)) m) ∅
    (List.filter (fun l => text_le since (l_ts l)) logs).

(** The rows of the query; a sum that overflows fails all of it. *)
Fixpoint aggregated (updated_at : string) (groups : list (string * list LogRow))
    : result StatsError (list (string * DayStats)) :=
  match groups with
  | [] => Ok []
  | (d, l) :: rest => s ← day_stats updated_at l; xs ← aggregated updated_at rest; Ok ((d, s) :: xs)
  end.

(** The [WHERE] of the upsert. *)
Definition accepts (today : string) (day : string) (fresh old : DayStats) : bool :=
  String.eqb day today
  || ((total_tokens old <=? total_tokens fresh) && (request_count old <=? request_count fresh)
      && (total_cost old <=? total_cost fresh)).

Definition upsert_day (today : string) (m : gmap string DayStats) (row : string * DayStats)
    : gmap string DayStats :=
  let '(day, fresh) := row in
  match m !! day with
  | None => <[day := fresh]> m
  | Some old => if accepts today day fresh old then <[day := fresh]> m else m
  end.

(** *** Streaks *)

(** The loop of the current streak, from the day before [prev] on. *)
Fixpoint consecutive (prev : Z) (l : list Z) : Z :=
  match l with
  | [] => 0
  | d :: rest => if prev - d =? 1 then 1 + consecutive d rest else 0
  end.

Fixpoint longest_loop (prev run longest : Z) (l : list Z) : Z :=
  match l with
  | [] => longest
  | d :: rest =>
      let run := if d - prev =? 1 then run + 1 else 1 in
      longest_loop d run (if longest <? run then run else longest) rest
  end.

(** [SELECT day ... WHERE total_tokens > 0 ORDER BY day DESC] *)
Definition active_days (m : gmap string DayStats) : list string :=
  sort_by (fun a b => text_le b a)
    (map fst (List.filter (fun ds => 0 <? total_tokens (snd ds)) (map_to_list m))).

Definition compute_streaks (today : Z) (m : gmap string DayStats) : Z * Z :=
  match omap parse_day (active_days m) with
  | [] => (0, 0)
  | first :: rest =>
      let current := if today - first <=? 1 then 1 + consecutive first rest else 0 in
      let longest := match sort_by Z.leb (first :: rest) with
                     | [] => 1
                     | d :: l => longest_loop d 1 1 l
                     end in
      (current, longest)
  end.

(** *** A pass *)

Definition column (f : DayStats -> Z) (m : gmap string DayStats) : list Z :=
  map (fun ds => f (snd ds)) (map_to_list m).

Definition recompute_summary (today : Z) (updated_at : string) (m : gmap string DayStats)
    : result StatsError TokenSummaryData :=
  lifetime ← sql_sum (column total_tokens m);
  cost ← sql_sum (column total_cost m);
  let '(current, longest) := compute_streaks today m in
  Ok {| lifetime_tokens := lifetime; peak_day_tokens := sql_max (column total_tokens m);
        lifetime_cost := cost; peak_day_cost := sql_max (column total_cost m);
        summary_longest_task_ms := sql_max (column longest_task_ms m);
        current_streak := current; longest_streak := longest; summary_updated_at := updated_at |}.

(** [aggregate_once] on the day [today], at the instant with the text [now];
    an error rolls the transaction back. *)
Definition aggregate_once (today : Z) (now : string) (lookback_days : Z) (logs : list LogRow) (s : Stats)
    : result StatsError Stats :=
  match sub_days today lookback_days with
  | None => Err DayOutOfRange
  | Some since =>
      rows ← aggregated now (map_to_list (grouped (day_text since) logs));
      let m := fold_left (upsert_day (day_text today)) rows (daily s) in
      summary ← recompute_summary today now m;
      Ok {| daily := m; summary := summary |}
  end.

(** *** Readers *)

Record TokenDayActivity := { ta_day : string; ta_total_tokens : Z; ta_total_cost : Z; ta_request_count : Z }.

(** [get_token_activity]: the last days of the table, in order. *)
Definition get_token_activity (days : nat) (m : gmap string DayStats) : list TokenDayActivity :=
  reverse (map (fun ds => {| ta_day := fst ds; ta_total_tokens := total_tokens (snd ds);
                             ta_total_cost := total_cost (snd ds);
                             ta_request_count := request_count (snd ds) |})
            (take days (sort_by (fun a b => text_le (fst b) (fst a)) (map_to_list m)))).

Record TokenDashboardData := { td_days : list TokenDayActivity; td_summary : TokenSummaryData }.

Definition get_token_dashboard (days : nat) (s : Stats) : TokenDashboardData :=
  {| td_days := get_token_activity days (daily s); td_summary := summary s |}.

Definition get_token_summary (s : Stats) : TokenSummaryData := summary s.

(** [export_token_daily_stats] *)
Definition export_token_daily_stats (m : gmap string DayStats) : list (string * DayStats) :=
  sort_by (fun a b => text_le (fst a) (fst b)) (map_to_list m).

(** The upsert of [import_config]: counts are added, peaks are kept. *)
Definition merge_day (now : string) (m : gmap string DayStats) (row : string * DayStats)
    : gmap string DayStats :=
  let '(day, x) := row in
  match m !! day with
  | None => <[day := {| request_count := request_count x; total_tokens := total_tokens x;
                        prompt_tokens := prompt_tokens x; completion_tokens := completion_tokens x;
                        reasoning_tokens := reasoning_tokens x; total_cost := total_cost x;
                        peak_single_request := peak_single_request x;
                        longest_task_ms := longest_task_ms x; stats_updated_at := now |}]> m
  | Some o => <[day := {| request_count := request_count o + request_count x;
                          total_tokens := total_tokens o + total_tokens x;
                          prompt_tokens := prompt_tokens o + prompt_tokens x;
                          completion_tokens := completion_tokens o + completion_tokens x;
                          reasoning_tokens := reasoning_tokens o + reasoning_tokens x;
                          total_cost := total_cost o + total_cost x;
                          peak_single_request :=
                            if peak_single_request x <? peak_single_request o
                            then peak_single_request o else peak_single_request x;
                          longest_task_ms :=
                            if longest_task_ms x <? longest_task_ms o
                            then longest_task_ms o else longest_task_ms x;
                          stats_updated_at := now |}]> m
  end.
End Stats.

(** ** Retention *)

(** The tables of the log: requests, and by request the attempts (with their
    time) and the payloads (with the time of their capture). *)
Record LogTables := {
  request_logs : list LogRow;
  request_attempts : list (string * string);
  request_payloads : list (string * string);
}.

(** [request_id IN (SELECT request_id FROM request_logs WHERE ts < $1) OR ts < $1] *)
Definition expired (cutoff : string) (logs : list LogRow) (r : string * string) : bool :=
  existsb (fun l => String.eqb (l_request_id l) (fst r) && text_lt (l_ts l) cutoff) logs
  || text_lt (snd r) cutoff.

(** [cleanup_once], with [cutoff] the text of the instant [retention_days]
    ago; the number of rows that were deleted. *)
Definition cleanup_once (retention_days : Z) (cutoff : string) (t : LogTables) : LogTables * Z :=
  if retention_days =? 0 then (t, 0)
  else
    let logs := request_logs t in
    let attempts := List.filter (fun r => negb (expired cutoff logs r)) (request_attempts t) in
    let payloads := List.filter (fun r => negb (expired cutoff logs r)) (request_payloads t) in
    let live := List.filter (fun l => negb (text_lt (l_ts l) cutoff)) logs in
    ({| request_logs := live; request_attempts := attempts; request_payloads := payloads |},
     Z.of_nat (length (request_attempts t) - length attempts)
     + Z.of_nat (length (request_payloads t) - length payloads)
     + Z.of_nat (length logs - length live)).

(** ** Streaks are runs of active days *)

Section Sorting.
Lemma insert_sorted_map {A B} (f : A -> B) le le' x l :
  (forall y, y ∈ l -> le (f x) (f y) = le' x y) ->
  insert_sorted le (f x) (map f l) = map f (insert_sorted le' x l).
Proof.
  induction l as [|y l IH]; intros Hle; [done|]. cbn. rewrite Hle by left.
  destruct (le' x y); [done|]. cbn. f_equal. apply IH. intros z Hz. apply Hle. by right.
Qed.

Lemma sort_by_map {A B} (f : A -> B) le le' l :
  (forall x y, x ∈ l -> y ∈ l -> le (f x) (f y) = le' x y) ->
  sort_by le (map f l) = map f (sort_by le' l).
Proof.
  induction l as [|x l IH]; intros Hle; [done|]. cbn. rewrite IH by (intros; apply Hle; by right).
  apply insert_sorted_map. intros y Hy. apply Hle; [left|]. right. by rewrite sort_by_perm in Hy.
Qed.

Definition descending (l : list Z) : Prop := StronglySorted (fun a b => b < a) l.
Definition ascending (l : list Z) : Prop := StronglySorted (fun a b => a < b) l.

Lemma sorted_strict (le : Z -> Z -> bool) (lt : Z -> Z -> Prop) l :
  (forall x y, le x y = true \/ le y x = true) ->
  (forall x y z, le x y = true -> le y z = true -> le x z = true) ->
  (forall x y, le x y = true -> x <> y -> lt x y) ->
  NoDup l -> StronglySorted lt (sort_by le l).
Proof.
  intros Htot Htr Hlt Hn. rewrite <- (sort_by_perm le l) in Hn.
  pose proof (sort_by_sorted le Htot Htr l) as Hs. clear -Hs Hn Hlt.
  induction Hs as [|x r _ IH HF]; [constructor|]. apply NoDup_cons in Hn as [Hx Hn].
  constructor; [by apply IH|]. rewrite Forall_forall in *. intros y Hy.
  apply Hlt; [by apply HF|]. by intros ->.
Qed.

Lemma sort_descending l : NoDup l -> descending (sort_by (fun a b => b <=? a) l).
Proof. apply sorted_strict; intros; lia. Qed.

Lemma sort_ascending l : NoDup l -> ascending (sort_by Z.leb l).
Proof. apply sorted_strict; intros; lia. Qed.
End Sorting.

(** The run of the days before [prev]. *)
Lemma consecutive_spec prev l :
  descending (prev :: l) ->
  0 <= consecutive prev l
  /\ (forall i, 1 <= i <= consecutive prev l -> prev - i ∈ l)
  /\ prev - (consecutive prev l + 1) ∉ l.
Proof.
  revert prev. induction l as [|d l IH]; intros prev Hs.
  - cbn. split; [done|]. split; [lia|]. apply not_elem_of_nil.
  - cbn [consecutive]. apply StronglySorted_inv in Hs as [Hs HF].
    apply Forall_cons in HF as [Hd HF]. destruct (IH d Hs) as (H0 & Hin & Hout).
    destruct (Z.eqb_spec (prev - d) 1) as [He|He].
    + split; [lia|]. split.
      * intros i Hi. destruct (decide (i = 1)) as [->|Hne].
        { replace (prev - 1) with d by lia. left. }
        right. replace (prev - i) with (d - (i - 1)) by lia. apply Hin. lia.
      * rewrite not_elem_of_cons. split; [lia|].
        by replace (prev - (1 + consecutive d l + 1)) with (d - (consecutive d l + 1)) by lia.
    + split; [lia|]. split; [lia|]. rewrite not_elem_of_cons. split; [lia|].
      intros Hp. apply StronglySorted_inv in Hs as [_ Hd']. rewrite Forall_forall in Hd'.
      apply Hd' in Hp. lia.
Qed.

(** [n] consecutive days from [a] on, all in [D]. *)
Definition is_run (D : Z -> Prop) (a n : Z) : Prop := forall i, 0 <= i < n -> D (a + i).

(** Of the days up to [prev], [run] is the run that ends there and [longest]
    a longest one. *)
Definition loop_inv (D : Z -> Prop) (prev run longest : Z) : Prop :=
  1 <= run <= longest
  /\ is_run D (prev - run + 1) run /\ ~ D (prev - run)
  /\ (exists a, is_run D a longest)
  /\ forall a n, is_run D a n -> n <= longest.

Lemma loop_inv_step (D : Z -> Prop) prev run longest d :
  (forall x, D x -> x <= prev) -> prev < d -> loop_inv D prev run longest ->
  let run' := if d - prev =? 1 then run + 1 else 1 in
  loop_inv (fun x => D x \/ x = d) d run' (if longest <? run' then run' else longest).
Proof.
  intros Hmax Hd (Hb & Hr & Hn & (a & Ha) & Hl). cbv zeta.
  set (run' := if d - prev =? 1 then run + 1 else 1).
  assert (is_run (fun x => D x \/ x = d) (d - run' + 1) run' /\ ~ (D (d - run') \/ d - run' = d)
          /\ 1 <= run') as (Hr' & Hn' & H1).
  { unfold run'. destruct (Z.eqb_spec (d - prev) 1) as [He|He].
    - split; [|split; [|lia]].
      + intros i Hi. destruct (decide (i = run)) as [->|Hi']; [right; lia|].
        left. replace (d - (run + 1) + 1 + i) with (prev - run + 1 + i) by lia. apply Hr. lia.
      + intros [Hx|Hx]; [|lia]. apply Hn. by replace (prev - run) with (d - (run + 1)) by lia.
    - split; [|split; [|lia]].
      + intros i Hi. right. lia.
      + intros [Hx|Hx]; [|lia]. apply Hmax in Hx. lia. }
  split; [destruct (Z.ltb_spec longest run'); lia|]. split; [done|]. split; [done|]. split.
  - destruct (longest <? run'); [by exists (d - run' + 1)|]. exists a. intros i Hi. left. by apply Ha.
  - intros b n Hbn. destruct (Z.le_gt_cases n 0) as [Hn0|Hn0]; [destruct (Z.ltb_spec longest run'); lia|].
    destruct (decide (b + n - 1 = d)) as [He|He].
    + (* the run ends at [d], so it is no longer than [run'] *)
      assert (n <= run'); [|destruct (Z.ltb_spec longest run'); lia].
      destruct (Z.le_gt_cases n run') as [Hc|Hc]; [done|]. exfalso. apply Hn'.
      specialize (Hbn (n - 1 - run')). replace (b + (n - 1 - run')) with (d - run') in Hbn by lia.
      apply Hbn. lia.
    + assert (n <= longest); [|destruct (Z.ltb_spec longest run'); lia].
      apply (Hl b). intros i Hi. destruct (Hbn i Hi) as [Hx|Hx]; [done|]. exfalso.
      destruct (Hbn (n - 1) ltac:(lia)) as [Hy|Hy]; [|lia]. apply Hmax in Hy. lia.
Qed.

Lemma longest_loop_spec l : forall (D : Z -> Prop) prev run longest,
  ascending (prev :: l) -> (forall x, D x -> x <= prev) -> loop_inv D prev run longest ->
  let n := longest_loop prev run longest l in
  (exists a, is_run (fun x => D x \/ x ∈ l) a n)
  /\ forall a k, is_run (fun x => D x \/ x ∈ l) a k -> k <= n.
Proof.
  induction l as [|d l IH]; intros D prev run longest Hs Hmax Hinv.
  - destruct Hinv as (_ & _ & _ & (a & Ha) & Hl). cbn. split.
    + exists a. intros i Hi. left. by apply Ha.
    + intros b k Hk. apply (Hl b). intros i Hi. destruct (Hk i Hi) as [?|Hx]; [done|].
      by apply not_elem_of_nil in Hx.
  - cbn [longest_loop]. apply StronglySorted_inv in Hs as [Hs HF]. apply Forall_cons in HF as [Hd _].
    pose proof (loop_inv_step D prev run longest d Hmax Hd Hinv) as Hinv'. cbv zeta in Hinv'.
    assert (forall x, D x \/ x = d -> x <= d) as Hmax' by (intros x [Hx| ->]; [apply Hmax in Hx; lia|lia]).
    destruct (IH _ _ _ _ Hs Hmax' Hinv') as [(a & Ha) Hl].
    assert (forall x, (D x \/ x = d) \/ x ∈ l <-> D x \/ x ∈ d :: l) as Heq.
    { intros x. rewrite elem_of_cons. tauto. }
    split.
    + exists a. intros i Hi. apply Heq, Ha, Hi.
    + intros b k Hk. apply (Hl b). intros i Hi. by apply Heq, Hk.
Qed.

Lemma longest_spec d l :
  ascending (d :: l) ->
  (exists a, is_run (.∈ d :: l) a (longest_loop d 1 1 l))
  /\ forall a k, is_run (.∈ d :: l) a k -> k <= longest_loop d 1 1 l.
Proof.
  intros Hs. destruct (longest_loop_spec l (fun x => x = d) d 1 1 Hs) as [(a & Ha) Hl].
  - lia.
  - split; [lia|]. split; [intros i Hi; cbn; lia|]. split; [lia|]. split; [exists d; intros i Hi; cbn; lia|].
    intros a n Hn. destruct (Z.le_gt_cases n 1) as [?|Hc]; [done|].
    pose proof (Hn 0 ltac:(lia)) as H0. pose proof (Hn 1 ltac:(lia)) as H1. cbn in H0, H1. lia.
  - split.
    + exists a. intros i Hi. apply elem_of_cons. destruct (Ha i Hi); [by left|by right].
    + intros b k Hk. apply (Hl b). intros i Hi. specialize (Hk i Hi). by apply elem_of_cons in Hk.
Qed.

Section Streaks.
Context `{C : Calendar} `{!CalendarLaws C}.

(** Every row is for a day with a four-digit year. *)
Definition well_dated (m : gmap string DayStats) : Prop :=
  forall k s, m !! k = Some s -> exists d, four_digit_day d = true /\ k = day_text d.

(** A day on which tokens were used. *)
Definition active (m : gmap string DayStats) (d : Z) : Prop :=
  four_digit_day d = true /\ exists s, m !! day_text d = Some s /\ 0 < total_tokens s.

Lemma day_text_inj d e :
  four_digit_day d = true -> four_digit_day e = true -> day_text d = day_text e -> d = e.
Proof using CalendarLaws0.
  intros Hd He Heq. pose proof (parse_day_text d Hd) as H1. rewrite Heq, parse_day_text in H1 by done. congruence.
Qed.

Lemma dated_texts (l : list string) :
  (forall k, k ∈ l -> exists d, four_digit_day d = true /\ k = day_text d) ->
  exists zs, l = map day_text zs /\ forall d, d ∈ zs -> four_digit_day d = true.
Proof using.
  induction l as [|k l IH]; intros Hl.
  - exists []. split; [done|]. intros d Hd. by apply not_elem_of_nil in Hd.
  - destruct (Hl k) as (d & Hd & ->); [left|]. destruct IH as (zs & -> & Hzs); [intros; apply Hl; by right|].
    exists (d :: zs). split; [done|]. intros e [-> | He]%elem_of_cons; [done|]. by apply Hzs.
Qed.

Lemma parse_texts zs :
  (forall d, d ∈ zs -> four_digit_day d = true) -> omap parse_day (map day_text zs) = zs.
Proof using CalendarLaws0.
  induction zs as [|d zs IH]; intros Hz; [done|]. cbn. rewrite parse_day_text by (apply Hz; left).
  f_equal. apply IH. intros e He. apply Hz. by right.
Qed.

Definition used_days (m : gmap string DayStats) : list string :=
  map fst (List.filter (fun ds => 0 <? total_tokens (snd ds)) (map_to_list m)).

Lemma used_days_in m k : k ∈ used_days m <-> exists s, m !! k = Some s /\ 0 < total_tokens s.
Proof using.
  unfold used_days. rewrite list_elem_of_fmap. split.
  - intros ([k' s] & -> & Hin%list_elem_of_In). apply filter_In in Hin as [Hin Ht].
    apply list_elem_of_In, elem_of_map_to_list in Hin. cbn in *. exists s. split; [done|]. lia.
  - intros (s & Hs & Ht). exists (k, s). split; [done|]. apply list_elem_of_In, filter_In.
    split; [by apply list_elem_of_In, elem_of_map_to_list|]. cbn. lia.
Qed.

Lemma used_days_nodup m : NoDup (used_days m).
Proof using.
  unfold used_days. pose proof (NoDup_fst_map_to_list m) as Hn.
  induction (map_to_list m) as [|[k s] l IH]; [constructor|]. cbn in *. apply NoDup_cons in Hn as [Hk Hn].
  destruct (0 <? total_tokens s); [|by apply IH]. cbn. apply NoDup_cons. split; [|by apply IH].
  intros ([k' s'] & -> & Hin%list_elem_of_In)%list_elem_of_fmap. apply filter_In in Hin as [Hin _].
  apply Hk. cbn. apply list_elem_of_In in Hin. by apply (list_elem_of_fmap_2 fst) in Hin.
Qed.

(** The days the streaks are computed from. *)
Lemma parsed_days m :
  well_dated m ->
  exists zs, omap parse_day (active_days m) = zs /\ descending zs /\ forall d, d ∈ zs <-> active m d.
Proof using CalendarLaws0.
  intros Hw. destruct (dated_texts (used_days m)) as (zs & Hzs & Hf).
  { intros k (s & Hs & _)%used_days_in. by eapply Hw. }
  assert (NoDup zs) as Hn.
  { pose proof (used_days_nodup m) as Hn. rewrite Hzs in Hn. by eapply NoDup_fmap_1. }
  exists (sort_by (fun a b => b <=? a) zs). split; [|split].
  - unfold active_days. fold (used_days m). rewrite Hzs.
    rewrite (sort_by_map day_text _ (fun a b => b <=? a)).
    + apply parse_texts. intros d Hd. apply Hf. by rewrite sort_by_perm in Hd.
    + intros x y Hx Hy. unfold text_le. rewrite compare_day_text by (by apply Hf). unfold Z.leb.
      by destruct (y ?= x).
  - by apply sort_descending.
  - intros d. rewrite sort_by_perm. unfold active. split.
    + intros Hd. split; [by apply Hf|]. apply used_days_in. rewrite Hzs. by apply list_elem_of_fmap_2.
    + intros (Hd & Hu). apply used_days_in in Hu. rewrite Hzs in Hu.
      apply list_elem_of_fmap in Hu as (e & He & Hin). by rewrite (day_text_inj d e) by auto.
Qed.

Lemma is_run_iff (D E : Z -> Prop) a n : (forall d, D d <-> E d) -> is_run D a n -> is_run E a n.
Proof. intros He Hr i Hi. by apply He, Hr. Qed.

(** C26: The streaks of the dashboard.  The current streak is 0 if the last
    day with tokens is before yesterday, and otherwise the number of days with
    tokens in a row that end at that day; the longest streak is the length of a
    longest run of days with tokens. *)
Theorem streaks_are_runs today m current longest :
  well_dated m -> compute_streaks today m = (current, longest) ->
  ((current = 0 /\ forall d, active m d -> d < today - 1)
   \/ exists last, active m last /\ (forall d, active m d -> d <= last) /\ today - 1 <= last
        /\ 0 < current /\ is_run (active m) (last - current + 1) current /\ ~ active m (last - current))
  /\ (exists a, is_run (active m) a longest)
  /\ forall a n, is_run (active m) a n -> n <= longest.
Proof using CalendarLaws0.
  intros Hw. destruct (parsed_days m Hw) as (zs & Hz & Hd & Hin). unfold compute_streaks. rewrite Hz.
  destruct zs as [|first rest].
  { intros [= <- <-]. assert (forall d, ~ active m d) as Hno.
    { intros d Ha. apply Hin in Ha. by apply not_elem_of_nil in Ha. }
    split; [left; split; [done|]; intros d Ha; by apply Hno in Ha|].
    split; [exists 0; intros i Hi; lia|]. intros a n Hr.
    destruct (Z.le_gt_cases n 0) as [?|Hc]; [done|]. exfalso. apply (Hno (a + 0)), Hr. lia. }
  pose proof (consecutive_spec first rest Hd) as (H0 & Hrun & Hend).
  assert (forall d, active m d -> d <= first) as Hmax.
  { intros d [->|Hr]%Hin%elem_of_cons; [done|]. apply StronglySorted_inv in Hd as [_ HF].
    rewrite Forall_forall in HF. apply HF in Hr. lia. }
  intros [= <- <-]. change (insert_sorted Z.leb first (sort_by Z.leb rest)) with (sort_by Z.leb (first :: rest)).
  split.
  - destruct (Z.leb_spec (today - first) 1) as [Hl|Hl].
    + right. exists first. split; [apply Hin; left|]. split; [done|]. split; [lia|]. split; [lia|]. split.
      * intros i Hi. apply Hin. destruct (decide (i = consecutive first rest)) as [->|Hne].
        { replace (first - (1 + consecutive first rest) + 1 + consecutive first rest) with first by lia. left. }
        right. replace (first - (1 + consecutive first rest) + 1 + i)
          with (first - (consecutive first rest - i)) by lia. apply Hrun. lia.
      * intros Ha%Hin%elem_of_cons. destruct Ha as [Ha|Ha]; [lia|]. apply Hend.
        by replace (first - (consecutive first rest + 1)) with (first - (1 + consecutive first rest)) by lia.
    + left. split; [done|]. intros d Ha%Hmax. lia.
  - assert (NoDup (first :: rest)) as Hn.
    { clear -Hd. induction Hd as [|x l _ IH HF]; [constructor|]. apply NoDup_cons. split; [|done].
      intros Hx. rewrite Forall_forall in HF. apply HF in Hx. lia. }
    pose proof (sort_ascending _ Hn) as Ha. pose proof (sort_by_perm Z.leb (first :: rest)) as Hp.
    destruct (sort_by Z.leb (first :: rest)) as [|d l]; [by apply Permutation_nil in Hp|].
    destruct (longest_spec d l Ha) as [(a & Hra) Hmaxrun].
    assert (forall x, x ∈ d :: l <-> active m x) as Heq by (intros x; by rewrite Hp, Hin).
    split; [exists a; exact (is_run_iff _ _ _ _ Heq Hra)|]. intros b n Hb. apply (Hmaxrun b).
    exact (is_run_iff _ _ _ _ (fun x => iff_sym (Heq x)) Hb).
Qed.
End Streaks.

(** ** What is recorded is kept *)

(** The three columns the upsert compares. *)
Definition grows (old new : DayStats) : Prop :=
  total_tokens old <= total_tokens new /\ request_count old <= request_count new
  /\ total_cost old <= total_cost new.

#[export] Instance grows_preorder : PreOrder grows.
Proof. split; [intros x|intros x y z]; unfold grows; lia. Qed.

(** Day [k] is kept, with counts that are no smaller. *)
Definition kept (k : string) (m m' : gmap string DayStats) : Prop :=
  forall old, m !! k = Some old -> exists new, m' !! k = Some new /\ grows old new.

#[export] Instance kept_preorder k : PreOrder (kept k).
Proof.
  split.
  - intros m old Ho. by exists old.
  - intros m1 m2 m3 H1 H2 old Ho. destruct (H1 old Ho) as (x & Hx & Hg). destruct (H2 x Hx) as (y & Hy & Hg').
    exists y. split; [done|]. by transitivity x.
Qed.

Lemma fold_kept {A} k (f : gmap string DayStats -> A -> gmap string DayStats) (P : A -> Prop) l m :
  (forall m x, P x -> kept k m (f m x)) -> Forall P l -> kept k m (fold_left f l m).
Proof.
  intros Hf Hl. revert m. induction Hl as [|x l Hx _ IH]; intros m; cbn; [done|].
  transitivity (f m x); [by apply Hf|apply IH].
Qed.

Section History.
Context `{C : Calendar}.

Lemma upsert_kept k today m row : k <> today -> kept k m (upsert_day today m row).
Proof.
  intros Hk old Ho. destruct row as [day fresh]. unfold upsert_day.
  destruct (decide (day = k)) as [->|Hne].
  - rewrite Ho. unfold accepts. destruct (String.eqb_spec k today) as [->|_]; [done|]. cbn [orb].
    destruct (_ && _) eqn:E; [|by exists old].
    exists fresh. rewrite lookup_insert_eq. split; [done|]. unfold grows. lia.
  - exists old. split; [|done]. destruct (m !! day) as [o|]; [destruct (accepts _ _ _ _)|];
      by rewrite ?lookup_insert_ne.
Qed.

Lemma pass_kept k today now lookback logs s s' :
  k <> day_text today -> aggregate_once today now lookback logs s = Ok s' -> kept k (daily s) (daily s').
Proof.
  intros Hk. unfold aggregate_once. destruct (sub_days _ _) as [since|]; [|done].
  destruct (aggregated _ _) as [rows|]; [|done]. cbn [mbind result_bind].
  destruct (recompute_summary _ _ _); [|done]. intros [= <-]. cbn [daily].
  apply (fold_kept k _ (fun _ => True)); [intros; by apply upsert_kept|by apply Forall_true].
Qed.

Definition not_negative (row : string * DayStats) : Prop :=
  0 <= total_tokens (snd row) /\ 0 <= request_count (snd row) /\ 0 <= total_cost (snd row).

Lemma merge_kept k now m row : not_negative row -> kept k m (merge_day now m row).
Proof.
  intros Hn old Ho. destruct row as [day x]. unfold merge_day, not_negative in *. cbn [snd] in Hn.
  destruct (decide (day = k)) as [->|Hne].
  - rewrite Ho. eexists. rewrite lookup_insert_eq. split; [done|]. unfold grows. cbn. lia.
  - exists old. split; [|done]. destruct (m !! day); by rewrite lookup_insert_ne.
Qed.

(** What happens to the request logs and to the statistics; the passes are
    those of other days than [k]. *)
Inductive history_step (k : string) : LogTables * Stats -> LogTables * Stats -> Prop :=
| hs_write logs attempts payloads t s :
    history_step k (t, s)
      ({| request_logs := request_logs t ++ logs; request_attempts := request_attempts t ++ attempts;
          request_payloads := request_payloads t ++ payloads |}, s)
| hs_cleanup days cutoff t s : history_step k (t, s) (fst (cleanup_once days cutoff t), s)
| hs_pass today now lookback t s s' :
    k <> day_text today -> aggregate_once today now lookback (request_logs t) s = Ok s' ->
    history_step k (t, s) (t, s')
| hs_import now rows sum t s :
    Forall not_negative rows ->
    history_step k (t, s) (t, {| daily := fold_left (merge_day now) rows (daily s); summary := sum |}).

(** The statistics of a day outlive its request logs.  Once a day is over,
    its tokens, requests and costs never decrease and its row never goes away,
    whatever is logged, purged, aggregated again or imported. *)
Theorem history_never_shrinks k t s t' s' :
  rtc (history_step k) (t, s) (t', s') -> kept k (daily s) (daily s').
Proof.
  intros Hr. remember (t, s) as x eqn:Ex. remember (t', s') as y eqn:Ey.
  assert (kept k (daily (snd x)) (daily (snd y))) as Hk; [|by subst].
  clear Ex Ey t s t' s'. induction Hr as [|x y z Hs _ IH]; [done|].
  transitivity (daily (snd y)); [|done]. clear IH. destruct Hs; cbn [snd daily].
  - done.
  - done.
  - by eapply pass_kept.
  - apply (fold_kept k _ not_negative); [|done]. intros m x Hx. by apply merge_kept.
Qed.
End History.

(** Importing the statistics of a day a second time counts them twice. *)
Lemma repeated_import_counts_twice now m day x :
  exists once twice,
    merge_day now m (day, x) !! day = Some once
    /\ merge_day now (merge_day now m (day, x)) (day, x) !! day = Some twice
    /\ total_tokens twice = total_tokens once + total_tokens x.
Proof.
  assert (forall m, exists y, merge_day now m (day, x) !! day = Some y) as Hm.
  { intros m'. unfold merge_day. destruct (m' !! day); eexists; apply lookup_insert_eq. }
  destruct (Hm m) as [y Hy]. exists y. unfold merge_day at 2. rewrite Hy.
  eexists. split; [reflexivity|]. rewrite lookup_insert_eq. by split.
Qed.

(** The pass of a day overwrites what was imported for that day. *)
Lemma pass_drops_todays_import `{Calendar} today now m fresh x :
  upsert_day (day_text today) (merge_day now m (day_text today, x)) (day_text today, fresh) !! day_text today
  = Some fresh.
Proof.
  unfold upsert_day. destruct (merge_day now m (day_text today, x) !! day_text today); [|apply lookup_insert_eq].
  unfold accepts. rewrite String.eqb_refl. apply lookup_insert_eq.
Qed.

(** ** A sample table

    Days are written with forty binary digits here; a timestamp is the text of
    its day and something after it. *)

Module Sample.
Definition binary_calendar : Calendar := {|
  day_text d := binary 40 (d + 719528);
  parse_day s := Some (of_binary 0 s - 719528);
  sub_days d n := Some (d - n);
  date_of s := take_bytes 40 s;
|}.
#[export] Existing Instance binary_calendar.

#[export] Instance binary_calendar_laws : CalendarLaws binary_calendar.
Proof.
  assert (forall d, four_digit_day d = true -> 0 <= d + 719528 < 2 ^ Z.of_nat 40) as Hr.
  { intros d [?%Z.leb_le ?%Z.leb_le]%andb_prop. change (2 ^ Z.of_nat 40) with 1099511627776. lia. }
  split.
  - intros d Hd. cbn [parse_day day_text binary_calendar]. rewrite of_binary_binary by auto. f_equal. lia.
  - intros d e Hd He. cbn [day_text binary_calendar]. rewrite compare_binary by auto.
    destruct (Z.compare_spec d e), (Z.compare_spec (d + 719528) (e + 719528)); done || lia.
Qed.

Definition log_of (day tokens : Z) : LogRow := {|
  l_request_id := ""; l_ts := day_text day +:+ "T10"; l_total_tokens := Some tokens; l_prompt_tokens := None;
  l_completion_tokens := None; l_reasoning_tokens := None; l_cost := Some 5; l_latency_ms := 7 |}.

Definition empty_stats : Stats := {|
  daily := ∅;
  summary := {| lifetime_tokens := 0; peak_day_tokens := 0; lifetime_cost := 0; peak_day_cost := 0;
                summary_longest_task_ms := 0; current_streak := 0; longest_streak := 0;
                summary_updated_at := "" |} |}.

(** Three days in a row, a gap, and yesterday. *)
Definition sample_logs : LogTables := {|
  request_logs := [log_of 20000 10; log_of 20001 20; log_of 20002 30; log_of 20002 5; log_of 20009 40];
  request_attempts := []; request_payloads := [] |}.

Definition ok_stats (r : result StatsError Stats) : Stats := match r with Ok s => s | Err _ => empty_stats end.

Definition first_pass : Stats := ok_stats (aggregate_once 20010 "now" 400 (request_logs sample_logs) empty_stats).

(** The logs of the first days are gone. *)
Definition purged_logs : LogTables := fst (cleanup_once 5 (day_text 20005) sample_logs).
Definition second_pass : Stats := ok_stats (aggregate_once 20011 "later" 400 (request_logs purged_logs) first_pass).

Example first_summary :
  (lifetime_tokens (summary first_pass), current_streak (summary first_pass), longest_streak (summary first_pass))
  = (105, 1, 3).
Proof. vm_compute. reflexivity. Qed.

Example second_summary :
  (lifetime_tokens (summary second_pass), current_streak (summary second_pass), longest_streak (summary second_pass))
  = (105, 0, 3).
Proof. vm_compute. reflexivity. Qed.

Definition day_of (tokens : Z) : DayStats := {|
  request_count := 1; total_tokens := tokens; prompt_tokens := 0; completion_tokens := 0;
  reasoning_tokens := 0; total_cost := 0; peak_single_request := 0; longest_task_ms := 0;
  stats_updated_at := "" |}.

Definition sample_days : gmap string DayStats :=
  {[ day_text 10 := day_of 1; day_text 11 := day_of 1; day_text 12 := day_of 1;
     day_text 20 := day_of 1 ]}.

(** A day that has not come yet, from an imported bundle, is a current streak. *)
Example future_day_is_current : compute_streaks 10 {[ day_text 20 := day_of 1 ]} = (1, 1).
Proof. vm_compute. reflexivity. Qed.
End Sample.

Import Sample.

Lemma sample_dated : well_dated sample_days.
Proof.
  intros k s Hk. unfold sample_days in Hk.
  repeat (apply lookup_insert_Some in Hk as [[<- _]|[_ Hk]];
          [eexists; split; [|reflexivity]; vm_compute; reflexivity|]).
  apply lookup_singleton_Some in Hk as [<- _]. exists 20. split; vm_compute; reflexivity.
Qed.

Lemma streaks_are_runs_witness :
  compute_streaks 21 sample_days = (1, 3) /\ exists a, is_run (active sample_days) a 3.
Proof.
  assert (compute_streaks 21 sample_days = (1, 3)) as Hc by (vm_compute; reflexivity).
  split; [exact Hc|].
  destruct (streaks_are_runs 21 sample_days 1 3 sample_dated Hc) as (_ & Ha & _). exact Ha.
Defined.

Lemma sample_first_pass : aggregate_once 20010 "now" 400 (request_logs sample_logs) empty_stats = Ok first_pass.
Proof. unfold first_pass. vm_compute. reflexivity. Qed.

Lemma sample_second_pass : aggregate_once 20011 "later" 400 (request_logs purged_logs) first_pass = Ok second_pass.
Proof. unfold second_pass. vm_compute. reflexivity. Qed.

Lemma sample_kept_day : exists old, daily first_pass !! day_text 20002 = Some old /\ total_tokens old = 35.
Proof. eexists. split; vm_compute; reflexivity. Qed.

Lemma history_never_shrinks_witness :
  exists new, daily second_pass !! day_text 20002 = Some new /\ 35 <= total_tokens new.
Proof.
  destruct sample_kept_day as (old & Ho & Ht).
  destruct (history_never_shrinks (day_text 20002) sample_logs first_pass purged_logs second_pass)
    with (old := old) as (new & Hn & Hg & _).
  - eapply rtc_l; [exact (hs_cleanup _ 5 (day_text 20005) sample_logs first_pass)|].
    eapply rtc_once, hs_pass; [|exact sample_second_pass]. vm_compute. discriminate.
  - exact Ho.
  - exists new. split; [exact Hn|]. rewrite <- Ht. exact Hg.
Defined.
