(* ===== verification/ConfigStore.v ===== *)
(** * ConfigStore: routes and the snapshot of the configuration

    The part of [crates/store/src/config_store.rs] that turns the tables of the
    database into the routing table of the data plane: reading and writing of
    routes, [refresh], [snapshot_to_routing_table], the deletion of a provider
    with the targets that name it, and settings.  A statement is one step on the
    tables; the rows of a table are read in the order of its map, on which only
    routes with the same virtual model depend.  A history of the store is a
    sequence of [db_step]s on the store and the tables its last successful
    refresh read; other instances and the token tasks write in between. *)

From stdpp Require Import base option list gmap strings.
From Stdlib Require Import ZArith Lia Ascii.
From S2P Require Import OAuthEffects OAuthStore.
From S2P Require Import Prelude RustStr F64 Json JsonBody Protocol Utf8 Targets Encryption OAuthTokens Providers ProviderConfig ApiKeys.

Local Open Scope string_scope.
Local Open Scope list_scope.

Definition OPENAI_PLATFORM_BASE_URL : string := "https://api.openai.com/v1".
Definition OPENAI_CODEX_BASE_URL : string := "https://chatgpt.com/backend-api/codex".

(** ** Routes *)

Record RouteTarget := {
  rt_provider_id : string;
  rt_model_id : string;
  rt_weight : f64;
  rt_enabled : bool;
  rt_account_label : option string;
  rt_api_key_override : option string;
  rt_api_base_override : option string;
}.

(** What [serde] derives for the targets of a route and for the metadata of a
    model; an [inl] is the text of its error. *)
Class RouteSerde := {
  ModelMetadata : Type;
  targets_to_string : list RouteTarget -> string;
  targets_from_str : string -> string + list RouteTarget;
  metadata_to_string : ModelMetadata -> string;
  metadata_from_value : Value -> string + ModelMetadata;
}.

Definition finite_weights (l : list RouteTarget) : bool :=
  forallb (fun t => match rt_weight t with
                    | SpecFloat.S754_zero _ | SpecFloat.S754_finite _ _ _ => true
                    | _ => false
                    end) l.

(** What is written is read back, if its numbers have a JSON text, which is
    the case for numbers that were read from one. *)
Class RouteSerdeLaws (R : RouteSerde) : Prop := {
  targets_roundtrip l : finite_weights l = true -> targets_from_str (targets_to_string l) = inr l;
  targets_finite s l : targets_from_str s = inr l -> finite_weights l = true;
}.

Section Routes.
Context `{SerdeJson} `{Chrono} `{RouteSerde}.

Record Route := {
  ro_id : string;
  ro_virtual_model : string;
  ro_targets : list RouteTarget;
  ro_strategy : option RoutingStrategyName;
  ro_metadata : option ModelMetadata;
  ro_enabled : bool;
  ro_created_at : Z;
  ro_updated_at : Z;
}.

(** A row of the table [routes]. *)
Record RouteRow := {
  rr_virtual_model : string;
  rr_targets : string;
  rr_strategy : option string;
  rr_metadata : string;
  rr_enabled : Z;
  rr_created_at : string;
  rr_updated_at : string;
}.

Definition serialize_model_metadata (m : option ModelMetadata) : string :=
  match m with Some m => metadata_to_string m | None => "{}" end.

Definition deserialize_model_metadata (raw : string) : result StoreError (option ModelMetadata) :=
  let trimmed := trim raw in
  if is_empty trimmed || String.eqb trimmed "{}" then Ok None
  else match from_str trimmed with
       | None => Err (Serde (from_str_error trimmed))
       | Some (Obj []) => Ok None
       | Some other => match metadata_from_value other with
                       | inr m => Ok (Some m)
                       | inl e => Err (Serde e)
                       end
       end.

Definition row_to_route (rid : string) (r : RouteRow) : result StoreError Route :=
  targets ← match targets_from_str (rr_targets r) with
            | inr l => Ok l
            | inl e => Err (Serde e)
            end;
  metadata ← deserialize_model_metadata (rr_metadata r);
  created ← parse_dt (rr_created_at r);
  updated ← parse_dt (rr_updated_at r);
  Ok {| ro_id := rid; ro_virtual_model := rr_virtual_model r; ro_targets := targets;
        ro_strategy := rr_strategy r ≫= RoutingStrategyName.parse; ro_metadata := metadata;
        ro_enabled := negb (rr_enabled r =? 0)%Z; ro_created_at := created; ro_updated_at := updated |}.

Definition enabled_int (b : bool) : Z := if b then 1 else 0.

(** *** What a deletion does to routes *)

Record ProviderRouteImpactRoute := {
  ir_id : string;
  ir_virtual_model : string;
  ir_target_count : nat;
  ir_remaining_target_count : nat;
  ir_will_delete_route : bool;
}.

Record ProviderRouteImpact := {
  im_provider_id : string;
  im_route_count : nat;
  im_target_count : nat;
  im_delete_route_count : nat;
  im_routes : list ProviderRouteImpactRoute;
}.

Definition names (pid : string) (t : RouteTarget) : bool := String.eqb (rt_provider_id t) pid.

(** [targets.filter(|t| t.provider_id != id)] *)
Definition other_targets (pid : string) (l : list RouteTarget) : list RouteTarget :=
  List.filter (fun t => negb (names pid t)) l.

Definition impact_of (pid : string) (r : Route) : option ProviderRouteImpactRoute :=
  let matched := length (List.filter (names pid) (ro_targets r)) in
  if Nat.eqb matched 0 then None
  else
    let remaining := (length (ro_targets r) - matched)%nat in
    Some {| ir_id := ro_id r; ir_virtual_model := ro_virtual_model r; ir_target_count := matched;
            ir_remaining_target_count := remaining; ir_will_delete_route := Nat.eqb remaining 0 |}.

Definition for_routes (pid : string) (l : list Route) : ProviderRouteImpact :=
  let impacted := omap (impact_of pid) l in
  {| im_provider_id := pid; im_route_count := length impacted;
     im_target_count := list_sum (map ir_target_count impacted);
     im_delete_route_count := length (List.filter ir_will_delete_route impacted);
     im_routes := impacted |}.

Record ProviderRouteCleanup := { cl_before : Route; cl_after : option Route }.
Record ProviderDeleteOutcome := { do_impact : ProviderRouteImpact; do_cleanups : list ProviderRouteCleanup }.

(** ** The snapshot *)

Record ConfigSnapshot := {
  cs_epoch : Z;
  cs_providers : gmap string Provider;
  cs_routes : gmap string Route;
}.

Section Table.
Context (registered : list Providers.Provider).

Definition provider_egress_for_target (p : Provider) (model_id raw_base : string)
    : ProtocolEndpoint * string :=
  match find_provider registered (ProviderConfig.vendor p) with
  | Some upstream =>
      let endpoint := egress_protocol_for_model upstream model_id in
      (endpoint, egress_api_base upstream raw_base endpoint)
  | None => (ProtocolSuite.default_endpoint OpenAiCompatible, raw_base)
  end.

Definition target_api_key (p : Provider) : string :=
  match ProviderConfig.auth_mode p with
  | ApiKeyAuth =>
      if is_empty (encrypted_api_key p) then ""
      else default "" (or_else (api_key_cleartext p)
                         (get "__decrypted_api_key" (metadata_json p) ≫= as_str))
  | NoAuth | OAuthAuth | IamAuth => ""
  end.

Definition is_oauth (p : Provider) : bool :=
  match ProviderConfig.auth_mode p with OAuthAuth => true | _ => false end.

Definition target_raw_base (p : Provider) (t : RouteTarget) : string :=
  let raw := default (ProviderConfig.api_base p) (rt_api_base_override t) in
  if String.eqb (ProviderConfig.vendor p) "openai" && is_oauth p
     && (is_empty (trim raw) || String.eqb (trim_end_matches "/" raw) OPENAI_PLATFORM_BASE_URL)
  then OPENAI_CODEX_BASE_URL else raw.

(** The provider of a target, if it can be used. *)
Definition live_provider (ps : gmap string Provider) (t : RouteTarget) : option Provider :=
  match ps !! rt_provider_id t with
  | Some p => if ProviderConfig.enabled p then Some p else None
  | None => None
  end.

Definition routing_target (p : Provider) (t : RouteTarget) : RoutingTarget :=
  let '(protocol, base) := provider_egress_for_target p (rt_model_id t) (target_raw_base p t) in
  {| Targets.provider_id := ProviderConfig.id p; Targets.vendor := Some (ProviderConfig.vendor p);
     Targets.model_id := rt_model_id t; Targets.api_base := base; Targets.api_key := target_api_key p;
     Targets.api_protocol := protocol; Targets.account_label := rt_account_label t;
     Targets.api_key_override := rt_api_key_override t;
     Targets.api_base_override := (fun _ => base) <$> rt_api_base_override t;
     Targets.weight := rt_weight t;
     Targets.oauth := if is_oauth p then build_oauth_target_config p else None |}.

(** A target of the chain, or [continue]. *)
Definition chain_target (ps : gmap string Provider) (t : RouteTarget) : option RoutingTarget :=
  if rt_enabled t then (fun p => routing_target p t) <$> live_provider ps t else None.

Definition route_entry (ps : gmap string Provider) (r : Route) : option RouteEntry :=
  if ro_enabled r then
    match omap (chain_target ps) (ro_targets r) with
    | [] => None
    | targets => Some {| re_targets := targets; re_strategy := ro_strategy r |}
    end
  else None.

Definition snapshot_to_routing_table (s : ConfigSnapshot) : RoutingTable :=
  {| routes := omap (route_entry (cs_providers s)) (cs_routes s) |}.

(** [ConfigStore], the view of the data plane. *)
Record ConfigStore := { routing_table : RoutingTable; snapshot : option ConfigSnapshot }.

Definition new : ConfigStore := {| routing_table := RoutingTable.new; snapshot := None |}.
Definition with_routing_table (t : RoutingTable) : ConfigStore :=
  {| routing_table := t; snapshot := None |}.
Definition from_snapshot (s : ConfigSnapshot) : ConfigStore :=
  {| routing_table := snapshot_to_routing_table s; snapshot := Some s |}.

(** The targets of [from_env], for the value of an API key. *)
Definition env_target (provider model base key : string) (protocol : ProtocolEndpoint) : RoutingTarget :=
  {| Targets.provider_id := provider; Targets.vendor := None; Targets.model_id := model;
     Targets.api_base := base; Targets.api_key := key; Targets.api_protocol := protocol;
     Targets.account_label := None; Targets.api_key_override := None; Targets.api_base_override := None;
     Targets.weight := f64_lit 1 0; Targets.oauth := None |}.

Definition env_openai (key model : string) : list RoutingTarget :=
  [env_target "openai" model OPENAI_PLATFORM_BASE_URL key
     (mk_endpoint OpenAiCompatible "chat-completions" "v1")].

(** [from_env], for the values of the two variables. *)
Definition from_env (openai_key anthropic_key : option string) : ConfigStore :=
  let table := RoutingTable.new in
  let table := match openai_key with
               | Some key =>
                   fold_left (fun t m => RoutingTable.insert t m (env_openai key m))
                     ["gpt-4o"; "gpt-4o-mini"; "gpt-3.5-turbo"] table
               | None => table
               end in
  let table := match anthropic_key with
               | Some key =>
                   RoutingTable.insert table "claude-sonnet-4-20250514"
                     [env_target "anthropic" "claude-sonnet-4-20250514" "https://api.anthropic.com/v1" key
                        (mk_endpoint AnthropicMessages "messages" "2023-06-01")]
               | None => table
               end in
  with_routing_table table.

(** ** The database *)

Context `{Crypto}.

Record Tables := {
  t_providers : gmap string ProviderRow;
  t_tokens : gmap string TokenRow;
  t_routes : gmap string RouteRow;
  t_keys : KeyTable;
  t_settings : gmap string (string * string);     (* value and time *)
  t_epoch : option (Z * string);
}.

Definition set_providers (m : gmap string ProviderRow) (t : Tables) : Tables :=
  {| t_providers := m; t_tokens := t_tokens t; t_routes := t_routes t; t_keys := t_keys t;
     t_settings := t_settings t; t_epoch := t_epoch t |}.
Definition set_tokens (m : gmap string TokenRow) (t : Tables) : Tables :=
  {| t_providers := t_providers t; t_tokens := m; t_routes := t_routes t; t_keys := t_keys t;
     t_settings := t_settings t; t_epoch := t_epoch t |}.
Definition set_routes (m : gmap string RouteRow) (t : Tables) : Tables :=
  {| t_providers := t_providers t; t_tokens := t_tokens t; t_routes := m; t_keys := t_keys t;
     t_settings := t_settings t; t_epoch := t_epoch t |}.
Definition set_keys (m : KeyTable) (t : Tables) : Tables :=
  {| t_providers := t_providers t; t_tokens := t_tokens t; t_routes := t_routes t; t_keys := m;
     t_settings := t_settings t; t_epoch := t_epoch t |}.
Definition set_settings (m : gmap string (string * string)) (t : Tables) : Tables :=
  {| t_providers := t_providers t; t_tokens := t_tokens t; t_routes := t_routes t; t_keys := t_keys t;
     t_settings := m; t_epoch := t_epoch t |}.
Definition set_epoch (e : option (Z * string)) (t : Tables) : Tables :=
  {| t_providers := t_providers t; t_tokens := t_tokens t; t_routes := t_routes t; t_keys := t_keys t;
     t_settings := t_settings t; t_epoch := e |}.

(** [DbConfigStore]: the tables, and the view that is published. *)
Record Store := { tables : Tables; inner : ConfigStore }.

(** The rows of a table, each made into a value; the first error ends it. *)
Fixpoint read_all {A B} (f : string -> A -> result StoreError B) (l : list (string * A))
    : result StoreError (list B) :=
  match l with
  | [] => Ok []
  | (k, r) :: rest => x ← f k r; xs ← read_all f rest; Ok (x :: xs)
  end.

Definition load_providers (t : Tables) : result StoreError (list Provider) :=
  read_all row_to_provider (map_to_list (t_providers t)).
Definition load_routes (t : Tables) : result StoreError (list Route) :=
  read_all row_to_route (map_to_list (t_routes t)).

Definition bump_epoch (now : string) (t : Tables) : Tables * Z :=
  let epoch := match t_epoch t with Some (e, _) => (e + 1)%Z | None => 1%Z end in
  (set_epoch (Some (epoch, now)) t, epoch).

Definition current_epoch (t : Tables) : Z := match t_epoch t with Some (e, _) => e | None => 0 end.

Section Operations.
Context (encryption : option KeyEncryption).

Definition set_api_cleartext (o : option string) (p : Provider) : Provider :=
  {| ProviderConfig.id := ProviderConfig.id p; ProviderConfig.name := ProviderConfig.name p;
     ProviderConfig.vendor := ProviderConfig.vendor p;
     ProviderConfig.api_base := ProviderConfig.api_base p;
     ProviderConfig.models_endpoint := ProviderConfig.models_endpoint p;
     encrypted_api_key := encrypted_api_key p;
     encrypted_usage_management_key := encrypted_usage_management_key p;
     ProviderConfig.auth_mode := ProviderConfig.auth_mode p;
     encrypted_oauth_meta := encrypted_oauth_meta p; metadata_json := metadata_json p;
     ProviderConfig.enabled := ProviderConfig.enabled p; created_at := created_at p;
     updated_at := updated_at p; api_key_cleartext := o;
     usage_management_key_cleartext := usage_management_key_cleartext p;
     oauth_meta_cleartext := oauth_meta_cleartext p |}.

(** What [refresh] adds to a provider it has read. *)
Definition with_cleartexts (p : Provider) : Provider :=
  populate_provider_oauth_cleartext encryption
    (set_api_cleartext (column_cleartext decrypt_api_key encryption (encrypted_api_key p)) p).

(** Later entries replace earlier ones. *)
Definition collect {A} (l : list (string * A)) : gmap string A := list_to_map (reverse l).

Definition snapshot_of (epoch : Z) (ps : list Provider) (rs : list Route) : ConfigSnapshot :=
  {| cs_epoch := epoch;
     cs_providers := collect (map (fun p => (ProviderConfig.id p, p)) (map with_cleartexts ps));
     cs_routes := collect (map (fun r => (ro_virtual_model r, r)) rs) |}.

Definition refresh (now : Z) (s : Store) : Store * result StoreError unit :=
  match load_providers (tables s) with
  | Err e => (s, Err e)
  | Ok ps =>
      match load_routes (tables s) with
      | Err e => (s, Err e)
      | Ok rs =>
          let '(t, epoch) := bump_epoch (to_rfc3339 now) (tables s) in
          ({| tables := t; inner := from_snapshot (snapshot_of epoch ps rs) |}, Ok tt)
      end
  end.

(** A write that is followed by a refresh and a read. *)
Definition then_refresh {A} (now : Z) (t : Tables) (s : Store) (read : Tables -> result StoreError A)
    : Store * result StoreError A :=
  match refresh now {| tables := t; inner := inner s |} with
  | (s, Err e) => (s, Err e)
  | (s, Ok _) => (s, read (tables s))
  end.

(** *** Providers *)

Definition list_providers (t : Tables) : result StoreError (list Provider) :=
  ps ← load_providers t; Ok (map (populate_provider_oauth_cleartext encryption) ps).

Definition get_provider (t : Tables) (pid : string) : result StoreError (option Provider) :=
  read_provider encryption pid (t_providers t !! pid).

Definition provider_route_impact (t : Tables) (pid : string) : result StoreError ProviderRouteImpact :=
  match get_provider t pid with
  | Err e => Err e
  | Ok None => Err (NotFound ("provider " +:+ pid))
  | Ok (Some _) => rs ← load_routes t; Ok (for_routes pid rs)
  end.

Definition set_targets (l : list RouteTarget) (updated : Z) (r : Route) : Route :=
  {| ro_id := ro_id r; ro_virtual_model := ro_virtual_model r; ro_targets := l;
     ro_strategy := ro_strategy r; ro_metadata := ro_metadata r; ro_enabled := ro_enabled r;
     ro_created_at := ro_created_at r; ro_updated_at := updated |}.

Definition set_row_targets (text now : string) (r : RouteRow) : RouteRow :=
  {| rr_virtual_model := rr_virtual_model r; rr_targets := text; rr_strategy := rr_strategy r;
     rr_metadata := rr_metadata r; rr_enabled := rr_enabled r; rr_created_at := rr_created_at r;
     rr_updated_at := now |}.

(** The turn of the loop for one route: its row, and what is reported.  [now]
    is the instant of the deletion, [later] the clock where its text cannot be
    parsed. *)
Definition clean_route (pid : string) (now later : Z) (rows : gmap string RouteRow) (r : Route)
    : gmap string RouteRow * option ProviderRouteCleanup :=
  if negb (existsb (names pid) (ro_targets r)) then (rows, None)
  else
    match other_targets pid (ro_targets r) with
    | [] => (delete (ro_id r) rows, Some {| cl_before := r; cl_after := None |})
    | remaining =>
        let updated := match parse_from_rfc3339 (to_rfc3339 now) with inr t => t | inl _ => later end in
        (alter (set_row_targets (targets_to_string remaining) (to_rfc3339 now)) (ro_id r) rows,
         Some {| cl_before := r; cl_after := Some (set_targets remaining updated r) |})
    end.

Fixpoint clean_routes (pid : string) (now later : Z) (rows : gmap string RouteRow) (l : list Route)
    : gmap string RouteRow * list ProviderRouteCleanup :=
  match l with
  | [] => (rows, [])
  | r :: rest =>
      let '(rows, c) := clean_route pid now later rows r in
      let '(rows, cs) := clean_routes pid now later rows rest in
      (rows, match c with Some c => c :: cs | None => cs end)
  end.

(** The transaction, and the refresh after its commit at [at_]. *)
Definition delete_provider_cascade_route_targets (pid : string) (now later at_ : Z) (s : Store)
    : Store * result StoreError ProviderDeleteOutcome :=
  match t_providers (tables s) !! pid with
  | None => (s, Err (NotFound ("provider " +:+ pid)))
  | Some _ =>
      match load_routes (tables s) with
      | Err e => (s, Err e)
      | Ok rs =>
          let '(rows, cleanups) := clean_routes pid now later (t_routes (tables s)) rs in
          let t := set_providers (delete pid (t_providers (tables s)))
                     (set_tokens (delete pid (t_tokens (tables s)))
                        (set_routes rows (tables s))) in
          then_refresh at_ t s
            (fun _ => Ok {| do_impact := for_routes pid rs; do_cleanups := cleanups |})
      end
  end.

Definition delete_provider (pid : string) (now later at_ : Z) (s : Store)
    : Store * result StoreError unit :=
  match delete_provider_cascade_route_targets pid now later at_ s with
  | (s, Ok _) => (s, Ok tt)
  | (s, Err e) => (s, Err e)
  end.

(** *** Routes *)

Definition get_route (t : Tables) (rid : string) : result StoreError (option Route) :=
  match t_routes t !! rid with
  | Some r => r ← row_to_route rid r; Ok (Some r)
  | None => Ok None
  end.

Definition upsert_route (rid virtual_model : string) (targets : list RouteTarget)
    (strategy : option RoutingStrategyName) (metadata : option ModelMetadata) (enabled : bool)
    (now at_ : Z) (s : Store) : Store * result StoreError Route :=
  match targets with
  | [] => (s, Err (InvalidInput "route must have at least one target"))
  | _ =>
      match get_route (tables s) rid with
      | Err e => (s, Err e)
      | Ok _ =>
          let row := {| rr_virtual_model := virtual_model; rr_targets := targets_to_string targets;
                        rr_strategy := RoutingStrategyName.as_str <$> strategy;
                        rr_metadata := serialize_model_metadata metadata;
                        rr_enabled := enabled_int enabled;
                        rr_created_at := match t_routes (tables s) !! rid with
                                         | Some r => rr_created_at r    (* not in the [SET] *)
                                         | None => to_rfc3339 now
                                         end;
                        rr_updated_at := to_rfc3339 now |} in
          then_refresh at_ (set_routes (<[rid := row]> (t_routes (tables s))) (tables s)) s
            (fun t => match get_route t rid with
                      | Ok (Some r) => Ok r
                      | Ok None => Err (NotFound ("route " +:+ rid +:+ " disappeared post-upsert"))
                      | Err e => Err e
                      end)
      end
  end.

Definition delete_route (rid : string) (at_ : Z) (s : Store) : Store * result StoreError unit :=
  match t_routes (tables s) !! rid with
  | None => (s, Err (NotFound ("route " +:+ rid)))
  | Some _ =>
      then_refresh at_ (set_routes (delete rid (t_routes (tables s))) (tables s)) s (fun _ => Ok tt)
  end.

(** *** Settings *)

Definition get_setting (t : Tables) (key : string) : option string := fst <$> t_settings t !! key.

Definition put_setting (key value : string) (now : Z) (t : Tables) : Tables :=
  set_settings (<[key := (value, to_rfc3339 now)]> (t_settings t)) t.

(** The write and the new epoch; routes and providers are not read again. *)
Definition set_setting (key value : string) (now at_ : Z) (s : Store) : Store :=
  {| tables := fst (bump_epoch (to_rfc3339 at_) (put_setting key value now (tables s))); inner := inner s |}.

Definition get_setting_encrypted (t : Tables) (key : string) : result StoreError (option string) :=
  match get_setting t key, encryption with
  | Some blob, Some enc =>
      match decrypt_settings enc blob with
      | Ok plain => Ok (Some plain)
      | Err e => Err (Decrypt (encryption_error_text e))
      end
  | Some plain, None => Ok (Some plain)
  | None, _ => Ok None
  end.

Definition set_setting_encrypted (key value nonce : string) (now at_ : Z) (s : Store)
    : Store * result StoreError unit :=
  match column_of encrypt_settings encryption nonce value with
  | Ok stored => (set_setting key stored now at_ s, Ok tt)
  | Err e => (s, Err e)
  end.
End Operations.
End Table.
End Routes.

(** ** What is read *)

(** Reads the fields of a row one after the other. *)
Ltac read_fields :=
  repeat match goal with |- mbind _ ?x = _ -> _ => destruct x; cbn [mbind result_bind]; [|done] end.

Section Reading.
Context `{SerdeJson} `{Chrono} `{RouteSerde}.

Lemma read_all_spec {A B} (f : string -> A -> result StoreError B) l xs :
  read_all f l = Ok xs <-> Forall2 (fun kr x => f (fst kr) (snd kr) = Ok x) l xs.
Proof.
  split.
  - revert xs. induction l as [|[k r] l IH]; intros xs Hr; cbn in Hr; [injection Hr as <-; constructor|].
    destruct (f k r) as [x|] eqn:E; [|done]. cbn in Hr. destruct (read_all f l) as [ys|]; [|done].
    injection Hr as <-. constructor; [done|by apply IH].
  - induction 1 as [|[k r] x l xs Hx _ IH]; [done|]. cbn in *. by rewrite Hx, IH.
Qed.

Lemma read_all_ok {A B} (f : string -> A -> result StoreError B) l :
  (forall k r, (k, r) ∈ l -> exists x, f k r = Ok x) -> exists xs, read_all f l = Ok xs.
Proof.
  induction l as [|[k r] l IH]; intros Hl; [by exists []|].
  destruct (Hl k r) as [x Hx]; [left|]. destruct IH as [xs Hxs]; [intros; apply Hl; by right|].
  exists (x :: xs). cbn. by rewrite Hx, Hxs.
Qed.

Lemma read_all_in {A B} (f : string -> A -> result StoreError B) (m : gmap string A) xs :
  read_all f (map_to_list m) = Ok xs ->
  (forall x, x ∈ xs <-> exists k r, m !! k = Some r /\ f k r = Ok x).
Proof.
  intros Hr%read_all_spec x. split.
  - intros (i & Hi)%list_elem_of_lookup. destruct (Forall2_lookup_r _ _ _ _ _ Hr Hi) as ([k r] & Hk & Hf).
    exists k, r. split; [|done]. by apply elem_of_map_to_list, (list_elem_of_lookup_2 _ i).
  - intros (k & r & Hk & Hf). apply elem_of_map_to_list, list_elem_of_lookup in Hk as [i Hi].
    destruct (Forall2_lookup_l _ _ _ _ _ Hr Hi) as (y & Hy & Hfy). cbn in Hfy.
    rewrite Hf in Hfy. injection Hfy as <-. by apply (list_elem_of_lookup_2 _ i).
Qed.

(** A reader that keeps the key of the row reads every key once. *)
Lemma read_all_keys {A B} (f : string -> A -> result StoreError B) (g : B -> string) (m : gmap string A) xs :
  (forall k r x, f k r = Ok x -> g x = k) -> read_all f (map_to_list m) = Ok xs ->
  map g xs = (map_to_list m).*1.
Proof.
  intros Hg Hr%read_all_spec. induction Hr as [|[k r] x l xs Hx _ IH]; [done|].
  cbn. by rewrite (Hg _ _ _ Hx), IH.
Qed.

Lemma read_all_nodup {A B} (f : string -> A -> result StoreError B) (g : B -> string) (m : gmap string A) xs :
  (forall k r x, f k r = Ok x -> g x = k) -> read_all f (map_to_list m) = Ok xs -> NoDup (map g xs).
Proof. intros Hg Hr. rewrite (read_all_keys f g m xs Hg Hr). apply NoDup_fst_map_to_list. Qed.

Lemma row_to_provider_id k r p : row_to_provider k r = Ok p -> ProviderConfig.id p = k.
Proof. unfold row_to_provider. read_fields. by intros [= <-]. Qed.

Lemma row_to_route_id k r ro : row_to_route k r = Ok ro -> ro_id ro = k.
Proof. unfold row_to_route. read_fields. by intros [= <-]. Qed.

Lemma row_to_route_model k r ro : row_to_route k r = Ok ro -> ro_virtual_model ro = rr_virtual_model r.
Proof. unfold row_to_route. read_fields. by intros [= <-]. Qed.

Lemma collect_elem {A} (l : list (string * A)) k x : collect l !! k = Some x -> (k, x) ∈ l.
Proof. unfold collect. intros Hk%elem_of_list_to_map_2. by apply elem_of_reverse. Qed.

Lemma collect_distinct {A} (l : list (string * A)) k x :
  NoDup l.*1 -> (k, x) ∈ l -> collect l !! k = Some x.
Proof.
  intros Hd Hk. unfold collect. apply elem_of_list_to_map_1; [|by apply elem_of_reverse].
  by rewrite fmap_reverse, reverse_Permutation.
Qed.

(** The provider a row stands for after a refresh; a row that cannot be read
    has none. *)
Definition fresh_provider `{Crypto} (encryption : option KeyEncryption) (pid : string) (r : ProviderRow)
    : option Provider :=
  match row_to_provider pid r with Ok p => Some (with_cleartexts encryption p) | Err _ => None end.

Definition current_providers `{Crypto} (encryption : option KeyEncryption) (t : Tables) : gmap string Provider :=
  map_imap (fresh_provider encryption) (t_providers t).

Lemma with_cleartexts_id `{Crypto} encryption p :
  ProviderConfig.id (with_cleartexts encryption p) = ProviderConfig.id p.
Proof.
  unfold with_cleartexts, populate_provider_oauth_cleartext. by destruct (ProviderConfig.auth_mode _).
Qed.

Lemma fresh_provider_id `{Crypto} encryption pid r p :
  fresh_provider encryption pid r = Some p -> ProviderConfig.id p = pid.
Proof.
  unfold fresh_provider. destruct (row_to_provider pid r) as [q|] eqn:E; [|done].
  intros [= <-]. rewrite with_cleartexts_id. by apply row_to_provider_id in E.
Qed.

Lemma snapshot_providers `{Crypto} encryption t epoch ps rs :
  load_providers t = Ok ps ->
  cs_providers (snapshot_of encryption epoch ps rs) = current_providers encryption t.
Proof.
  intros Hl. cbn [snapshot_of cs_providers]. apply map_eq. intros pid. unfold current_providers.
  rewrite map_lookup_imap. rewrite map_map.
  set (l := map _ ps). assert (l.*1 = map ProviderConfig.id ps) as Hk.
  { unfold l. rewrite <- list_fmap_compose. apply list_fmap_ext. intros i p _. apply with_cleartexts_id. }
  assert (NoDup l.*1) as Hd.
  { rewrite Hk. by apply (read_all_nodup row_to_provider _ (t_providers t)); [apply row_to_provider_id|]. }
  pose proof (read_all_in _ _ _ Hl) as Hin.
  assert (forall k p, (k, p) ∈ l <-> exists r, t_providers t !! k = Some r /\ fresh_provider encryption k r = Some p) as Hl'.
  { intros k p. unfold l. rewrite list_elem_of_fmap. unfold fresh_provider. split.
    - intros (q & [= -> ->] & (k' & r & Hr & Hq)%Hin). exists r. rewrite with_cleartexts_id.
      pose proof (row_to_provider_id _ _ _ Hq) as ->. by rewrite Hq.
    - intros (r & Hr & Hf). destruct (row_to_provider k r) as [q|] eqn:Hq; [|done]. injection Hf as <-.
      exists q. rewrite with_cleartexts_id, (row_to_provider_id _ _ _ Hq). split; [done|].
      apply Hin. by exists k, r. }
  destruct (collect l !! pid) as [p|] eqn:E.
  - apply collect_elem, Hl' in E as (r & -> & Hf). by rewrite <- Hf.
  - destruct (t_providers t !! pid) as [r|] eqn:Er; [|done]. cbn.
    destruct (fresh_provider encryption pid r) as [p|] eqn:Ef; [|done].
    rewrite (collect_distinct l pid p Hd) in E; [done|]. apply Hl'. by exists r.
Qed.
End Reading.

(** ** The published view

    A write that reports success has published a view, and the view is that of
    the tables it left: [coherent].  A write that fails after its statement may
    leave an older view. *)

Section View.
Context `{SerdeJson} `{Chrono} `{RouteSerde} `{Crypto}.
Context (registered : list Providers.Provider) (encryption : option KeyEncryption).

Definition coherent (s : Store) : Prop :=
  exists epoch ps rs, load_providers (tables s) = Ok ps /\ load_routes (tables s) = Ok rs
    /\ inner s = from_snapshot registered (snapshot_of encryption epoch ps rs).

Lemma refresh_ok now s s' :
  refresh registered encryption now s = (s', Ok tt) ->
  coherent s' /\ tables s' = fst (bump_epoch (to_rfc3339 now) (tables s)).
Proof.
  unfold refresh. destruct (load_providers (tables s)) as [ps|] eqn:Ep; [|done].
  destruct (load_routes (tables s)) as [rs|] eqn:Er; [|done]. cbn. intros [= <-]. split; [|done].
  by exists (match t_epoch (tables s) with Some (e, _) => (e + 1)%Z | None => 1%Z end), ps, rs.
Qed.

Lemma then_refresh_ok {A} now t s read s' (x : A) :
  then_refresh registered encryption now t s read = (s', Ok x) ->
  coherent s' /\ tables s' = fst (bump_epoch (to_rfc3339 now) t) /\ read (tables s') = Ok x.
Proof.
  unfold then_refresh. destruct (refresh _ _ _ _) as [s1 [[]|]] eqn:E; [|done]. intros [= <- Hx].
  by destruct (refresh_ok _ _ _ E) as [Hc Ht].
Qed.

Lemma set_setting_coherent key value now at_ s : coherent s -> coherent (set_setting key value now at_ s).
Proof. intros (e & ps & rs & Hp & Hr & Hi). by exists e, ps, rs. Qed.

(** *** What happens to a store

    A run of a store is watched with [seen], the tables as they were when its
    view was last replaced: by the store's own writes of routes and deletions
    of providers, each with its refresh; by the actions of the tasks that write
    providers and tokens, whose refresh is an action of its own, which may fail
    and which a task may ignore; by writes of settings; and by whatever else
    changes the database (the writes of keys, of other instances), which
    refreshes nothing here. *)

Inductive StoreOp :=
| DoRefresh (now : Z)
| DoUpsertRoute (rid vm : string) (targets : list RouteTarget) (strategy : option RoutingStrategyName)
    (metadata : option ModelMetadata) (enabled : bool) (now at_ : Z)
| DoDeleteRoute (rid : string) (at_ : Z)
| DoDeleteProvider (pid : string) (now later at_ : Z).

Definition outcome {A} (r : result StoreError A) : result StoreError unit :=
  match r with Ok _ => Ok tt | Err e => Err e end.

Definition run_op (o : StoreOp) (s : Store) : Store * result StoreError unit :=
  match o with
  | DoRefresh now => refresh registered encryption now s
  | DoUpsertRoute rid vm targets strategy metadata enabled now at_ =>
      let '(s, r) := upsert_route registered encryption rid vm targets strategy metadata enabled now at_ s in
      (s, outcome r)
  | DoDeleteRoute rid at_ => delete_route registered encryption rid at_ s
  | DoDeleteProvider pid now later at_ =>
      let '(s, r) := delete_provider_cascade_route_targets registered encryption pid now later at_ s in
      (s, outcome r)
  end.

(** The tables a store last read, after an operation that ended in [r]. *)
Definition seen_after {E A} (r : result E A) (seen : Tables) (s : Store) : Tables :=
  match r with Ok _ => tables s | Err _ => seen end.

Definition with_tables (t : Tables) (s : Store) : Store := {| tables := t; inner := inner s |}.

(** The part of the tables the token tasks work on. *)
Definition db_of (t : Tables) : Db :=
  {| OAuthEffects.providers := t_providers t; tokens := t_tokens t; settings := fst <$> t_settings t |}.
Definition put_db (d : Db) (t : Tables) : Tables :=
  set_providers (OAuthEffects.providers d) (set_tokens (tokens d) t).

(** One action of a task on the store of its process.  A statement that fails
    may have been applied or not, and a transaction that commits leaves some
    tables. *)
Definition act_on (a : act) (w : Store * Tables) : resp a -> Store * Tables -> Prop :=
  let '(s, seen) := w in
  match a return resp a -> Store * Tables -> Prop with
  | RefreshSnapshot => fun r w' =>
      (exists now s', refresh registered encryption now s = (s', r) /\ w' = (s', seen_after r seen s'))
      \/ (exists e, r = Err e /\ w' = w)
  | Execute false u => fun r w' =>
      (exists d n, run_write (db_of (tables s)) u = Some (d, n) /\ r = Ok n
                   /\ w' = (with_tables (put_db d (tables s)) s, seen))
      \/ (exists e t, r = Err e /\ w' = (with_tables t s, seen))
  | Select false q => fun r w' =>
      w' = w /\ (r = Ok (answer_query (db_of (tables s)) q) \/ exists e, r = Err e)
  | Commit => fun _ w' => exists t, w' = (with_tables t s, seen)
  | _ => fun _ w' => w' = w
  end.

(** A task that runs to its end. *)
Fixpoint runs {A} (m : prog A) (w : Store * Tables) (x : A) (w' : Store * Tables) : Prop :=
  match m with
  | Ret y => x = y /\ w' = w
  | Vis a k => exists r w1, act_on a w r w1 /\ runs (k r) w1 x w'
  end.

Inductive db_step : Store * Tables -> Store * Tables -> Prop :=
| db_op o s seen s' r : run_op o s = (s', r) -> db_step (s, seen) (s', seen_after r seen s')
| db_act a r w w' : act_on a w r w' -> db_step w w'
| db_setting key value now at_ s seen : db_step (s, seen) (set_setting key value now at_ s, seen)
| db_outside t s seen : db_step (s, seen) (with_tables t s, seen).

(** The view is that of the tables [t]. *)
Definition reads (t : Tables) (s : Store) : Prop := coherent (with_tables t s).

Lemma reads_own s : reads (tables s) s <-> coherent s.
Proof. unfold reads, with_tables. by destruct s. Qed.

Lemma then_refresh_fails {A} now t s (read : Tables -> result StoreError A) s' e :
  then_refresh registered encryption now t s read = (s', Err e) ->
  inner s' = inner s \/ (coherent s' /\ tables s' = fst (bump_epoch (to_rfc3339 now) t) /\ read (tables s') = Err e).
Proof.
  unfold then_refresh. destruct (refresh _ _ _ _) as [s1 [[]|]] eqn:E; intros [= <- Hx].
  - right. by destruct (refresh_ok _ _ _ E) as [Hc Ht].
  - left. unfold refresh in E. cbn in E. destruct (load_providers t); [|by injection E as <-].
    destruct (load_routes t); [done|by injection E as <-].
Qed.

Lemma refresh_fails now s s' e : refresh registered encryption now s = (s', Err e) -> s' = s.
Proof.
  unfold refresh. destruct (load_providers _); [|by intros [= <-]].
  destruct (load_routes _); [done|by intros [= <-]].
Qed.

Lemma coherent_reads_row s rid row :
  coherent s -> t_routes (tables s) !! rid = Some row -> exists r, row_to_route rid row = Ok r.
Proof.
  intros (epoch & ps & rs & _ & Hr%read_all_spec & _) Hrow.
  apply elem_of_map_to_list, list_elem_of_lookup in Hrow as [i Hi].
  destruct (Forall2_lookup_l _ _ _ _ _ Hr Hi) as (r & _ & Hx). by exists r.
Qed.

(** An operation that succeeds has published the tables it leaves; one that
    fails has published nothing. *)
Lemma run_op_ok o s s' : run_op o s = (s', Ok tt) -> coherent s'.
Proof.
  destruct o as [now|rid vm ts st md en now at_|rid at_|pid now later at_]; cbn [run_op].
  - by intros [? _]%refresh_ok.
  - destruct (upsert_route _ _ _ _ _ _ _ _ _ _ _) as [s1 [r|]] eqn:Hu; [|done]. intros [= <-].
    unfold upsert_route in Hu. destruct ts; [done|]. destruct (get_route _ _); [|done].
    by apply then_refresh_ok in Hu as [].
  - intros Hd. unfold delete_route in Hd. destruct (_ !! _); [|done]. by apply then_refresh_ok in Hd as [].
  - destruct (delete_provider_cascade_route_targets _ _ _ _ _ _ _) as [s1 [r|]] eqn:Hd; [|done].
    intros [= <-]. unfold delete_provider_cascade_route_targets in Hd. destruct (_ !! _); [|done].
    destruct (load_routes _); [|done]. destruct (clean_routes _ _ _ _ _).
    by apply then_refresh_ok in Hd as [].
Qed.

Lemma run_op_fails o s s' e : run_op o s = (s', Err e) -> inner s' = inner s.
Proof.
  destruct o as [now|rid vm ts st md en now at_|rid at_|pid now later at_]; cbn [run_op].
  - by intros ->%refresh_fails.
  - destruct (upsert_route _ _ _ _ _ _ _ _ _ _ _) as [s1 [r|e1]] eqn:Hu; [done|]. intros [= <- <-].
    unfold upsert_route in Hu. destruct ts; [by injection Hu as <-|].
    destruct (get_route _ _); [|by injection Hu as <-].
    apply then_refresh_fails in Hu as [|(Hc & Ht & Hx)]; [done|]. exfalso.
    destruct (t_routes (tables s1) !! rid) as [row|] eqn:Er; [|by rewrite Ht in Er; cbn in Er; rewrite lookup_insert_eq in Er].
    destruct (coherent_reads_row _ _ _ Hc Er) as [q Hq].
    unfold get_route in Hx. by rewrite Er, Hq in Hx.
  - intros Hd. unfold delete_route in Hd. destruct (_ !! _); [|by injection Hd as <-].
    by apply then_refresh_fails in Hd as [|(_ & _ & ?)].
  - destruct (delete_provider_cascade_route_targets _ _ _ _ _ _ _) as [s1 [r|e1]] eqn:Hd; [done|].
    intros [= <- <-]. unfold delete_provider_cascade_route_targets in Hd.
    destruct (_ !! _); [|by injection Hd as <-]. destruct (load_routes _); [|by injection Hd as <-].
    destruct (clean_routes _ _ _ _ _). by apply then_refresh_fails in Hd as [|(_ & _ & ?)].
Qed.

Lemma reads_inner t s s' : inner s' = inner s -> reads t s -> reads t s'.
Proof. unfold reads, with_tables. by intros ->. Qed.

Lemma act_on_inv a w r w' :
  act_on a w r w' ->
  (exists now s', refresh registered encryption now (fst w) = (s', Ok tt) /\ w' = (s', tables s'))
  \/ (inner (fst w') = inner (fst w) /\ snd w' = snd w).
Proof.
  destruct w as [s seen]. destruct a as [| | | | | | | | | |[] q|[] u| | | | | | | | | | | |]; cbn [act_on];
    try (intros ->; by right).
  - intros [-> _]. by right.
  - intros [(d & n & _ & _ & ->)|(e & t & _ & ->)]; by right.
  - intros [t ->]. by right.
  - intros [(now & s' & Hr & ->)|(e & _ & ->)]; [|by right].
    destruct r as [[]|]; [left; by exists now, s'|]. right. by apply refresh_fails in Hr as ->.
Qed.

Lemma act_on_reads a w r w' : act_on a w r w' -> reads (snd w) (fst w) -> reads (snd w') (fst w').
Proof.
  intros [(now & s' & Hr & ->)|[Hi ->]]%act_on_inv.
  - intros _. apply reads_own. by apply refresh_ok in Hr as [].
  - by apply reads_inner.
Qed.

Lemma db_step_reads w w' : db_step w w' -> reads (snd w) (fst w) -> reads (snd w') (fst w').
Proof.
  intros Hs. destruct Hs as [o s seen s' [[]|] Ho|a x w w' Ha| |]; cbn [fst snd]; try done.
  - intros _. apply reads_own. by apply run_op_ok in Ho.
  - apply reads_inner. by apply run_op_fails in Ho.
  - by eapply act_on_reads.
Qed.

Lemma db_steps_reads w w' : rtc db_step w w' -> reads (snd w) (fst w) -> reads (snd w') (fst w').
Proof. induction 1 as [|x y z Hx _ IH]; [done|]. intros Hr. by apply IH, (db_step_reads x). Qed.

Lemma runs_steps {A} (m : prog A) w x w' : runs m w x w' -> rtc db_step w w'.
Proof.
  revert w. induction m as [y|a k IH]; intros w; cbn [runs]; [by intros [_ ->]|].
  intros (r & w1 & Ha & Hr). eapply rtc_l; [by eapply db_act|by eapply IH].
Qed.

(** *** The writes of providers *)

Lemma runs_bind {A B} (f : A -> prog B) (m : prog A) w x w' :
  runs (prog_bind f m) w x w' -> exists y w1, runs m w y w1 /\ runs (f y) w1 x w'.
Proof.
  revert w. induction m as [y|a k IH]; intros w; cbn [runs prog_bind]; [by exists y, w|].
  intros (r & w1 & Ha & Hr). destruct (IH r w1 Hr) as (y & w2 & Hk & Hf).
  exists y, w2. split; [by exists r, w1|done].
Qed.

Lemma runs_try {E F A B} (f : E -> F) (m : prog (result E A)) (k : A -> prog (result F B)) w b w' :
  runs (try_bind f m k) w (Ok b) w' -> exists a w1, runs m w (Ok a) w1 /\ runs (k a) w1 (Ok b) w'.
Proof.
  unfold try_bind. intros ([a|e] & w1 & Hm & Hk)%runs_bind; [by exists a, w1|]. by destruct Hk.
Qed.

Lemma runs_call a w r w' : runs (call a) w r w' -> act_on a w r w'.
Proof. cbn [runs call]. intros (r1 & w1 & Ha & -> & ->). done. Qed.

Definition published (w : Store * Tables) : Prop := snd w = tables (fst w).

Lemma refresh_publishes w w' : runs (call RefreshSnapshot) w (Ok tt) w' -> published w'.
Proof.
  intros Ha%runs_call. destruct w as [s seen]. cbn [act_on] in Ha.
  destruct Ha as [(now & s' & _ & ->)|(e & He & _)]; [done|discriminate He].
Qed.

Lemma get_provider_keeps pid w x w' : runs (OAuthStore.get_provider encryption pid) w x w' -> w' = w.
Proof.
  unfold OAuthStore.get_provider, select_provider, try_bind.
  intros (r & w1 & Ha%runs_call & Hk)%runs_bind. destruct w as [s seen]. cbn [act_on] in Ha.
  destruct Ha as [-> _]. destruct r; cbn [runs] in Hk; by destruct Hk as [_ ->].
Qed.

(** The refresh at the end of a task. *)
Lemma then_done_publishes {A} (y : A) w b w' :
  runs (_ <-? call RefreshSnapshot; Ret (Ok y))%task w (Ok b) w' -> published w' /\ b = y.
Proof.
  intros ([] & w1 & Hr%refresh_publishes & Hk)%runs_try. cbn [runs] in Hk.
  destruct Hk as [[= ->] ->]. done.
Qed.

Lemma upsert_provider_publishes pid u w p w' :
  runs (upsert_provider_with_usage_management_key encryption pid u) w (Ok p) w' -> published w'.
Proof.
  unfold upsert_provider_with_usage_management_key.
  destruct (validate_provider_auth_mode _ _); [|by intros [? _]].
  intros (t & w1 & _ & Hk)%runs_bind.
  do 5 (apply runs_try in Hk as (? & ? & _ & Hk)).
  apply runs_try in Hk as ([] & w2 & Hr%refresh_publishes & Hk).
  apply runs_try in Hk as (found & w3 & ->%get_provider_keeps & Hk).
  destruct found; by destruct Hk as [? ->].
Qed.

Lemma set_meta_publishes pid plain w w' :
  runs (set_provider_oauth_meta encryption pid plain) w (Ok tt) w' -> published w'.
Proof.
  unfold set_provider_oauth_meta. intros (meta & w1 & _ & Hk)%runs_try.
  apply runs_bind in Hk as (t & w2 & _ & Hk). apply runs_try in Hk as (n & w3 & _ & Hk).
  destruct (n =? 0)%Z; [by destruct Hk|]. by apply then_done_publishes in Hk as [? _].
Qed.

Lemma set_status_publishes pid status reason w w' :
  runs (set_provider_oauth_status encryption pid status reason) w (Ok tt) w' -> published w'.
Proof.
  unfold set_provider_oauth_status. generalize MAX_CAS_ATTEMPTS. intros n. revert w.
  induction n as [|n IH]; intros w; cbn [set_status_attempts]; [by intros [? _]|].
  intros (found & w1 & _ & Hk)%runs_try. destruct found; [|by destruct Hk].
  apply runs_try in Hk as (? & w2 & _ & Hk). apply runs_try in Hk as ([] & w3 & _ & Hk).
  - by apply then_done_publishes in Hk as [? _].
  - by apply IH in Hk.
Qed.

(** No two routes are for the same model; the schema does not say so. *)
Definition distinct_models (m : gmap string RouteRow) : Prop :=
  forall i j r q, m !! i = Some r -> m !! j = Some q -> rr_virtual_model r = rr_virtual_model q -> i = j.

(** A target counts when neither it nor its provider is disabled or gone. *)
Definition usable (ps : gmap string Provider) (t : RouteTarget) : bool :=
  rt_enabled t && match ps !! rt_provider_id t with Some p => ProviderConfig.enabled p | None => false end.

Definition served_by (ps : gmap string Provider) (t : RouteTarget) (x : RoutingTarget) : Prop :=
  exists p, ps !! rt_provider_id t = Some p /\ x = routing_target registered p t.

(** What the data plane is to have for a route: its usable targets in their
    order, if there are any. *)
Definition serves (t : Tables) (r : Route) (e : RouteEntry) : Prop :=
  let ps := current_providers encryption t in
  ro_enabled r = true
  /\ Forall2 (served_by ps) (List.filter (usable ps) (ro_targets r)) (re_targets e)
  /\ re_targets e <> [] /\ re_strategy e = ro_strategy r.

Lemma chain_served ps l xs :
  omap (chain_target registered ps) l = xs <-> Forall2 (served_by ps) (List.filter (usable ps) l) xs.
Proof.
  revert xs. induction l as [|t l IH]; intros xs.
  - cbn. split; [intros <-; constructor|]. by inversion 1.
  - cbn [omap list_omap List.filter]. unfold chain_target at 1, usable at 1, live_provider.
    destruct (rt_enabled t); [|apply IH]. cbn [andb].
    destruct (ps !! rt_provider_id t) as [p|] eqn:E; [|apply IH].
    destruct (ProviderConfig.enabled p); [|apply IH]. cbn [fmap option_fmap option_map]. split.
    + intros <-. constructor; [by exists p|by apply IH].
    + inversion 1 as [|? x ? ys (q & Hq & ->) Hl]; subst. rewrite E in Hq. injection Hq as <-.
      f_equal. by apply IH.
Qed.

Lemma route_entry_serves t r e :
  route_entry registered (current_providers encryption t) r = Some e <-> serves t r e.
Proof.
  unfold route_entry, serves. cbv zeta. rewrite <- (chain_served _ _ (re_targets e)).
  destruct (ro_enabled r); [|by split; [|intros (? & _)]].
  destruct (omap _ _) as [|x l] eqn:E; split.
  - done.
  - by intros (_ & <- & Hn & _).
  - by intros [= <-].
  - intros (_ & Ht & _ & Hs). destruct e as [ts st]. cbn in *. by subst.
Qed.

Lemma get_route_row t rid r :
  get_route t rid = Ok (Some r) <-> exists row, t_routes t !! rid = Some row /\ row_to_route rid row = Ok r.
Proof.
  unfold get_route. destruct (t_routes t !! rid) as [row|]; [|by split; [|intros (? & ? & _)]].
  split.
  - destruct (row_to_route rid row) as [q|] eqn:E; [|done]. intros [= ->]. by exists row.
  - intros (? & [= <-] & ->). done.
Qed.

Lemma loaded_routes t rs r :
  load_routes t = Ok rs -> r ∈ rs <-> get_route t (ro_id r) = Ok (Some r).
Proof.
  intros Hl. rewrite get_route_row, (read_all_in _ _ _ Hl). split.
  - intros (rid & row & Hr & Hq). rewrite (row_to_route_id _ _ _ Hq). by exists row.
  - intros (row & Hr & Hq). by exists (ro_id r), row.
Qed.

Lemma loaded_models t rs :
  load_routes t = Ok rs -> distinct_models (t_routes t) -> NoDup (map ro_virtual_model rs).
Proof.
  intros Hl Hd.
  assert (NoDup (map ro_id rs)) as Hn by (by apply (read_all_nodup row_to_route _ (t_routes t)); [apply row_to_route_id|]).
  pose proof (fun r => proj1 (loaded_routes t rs r Hl)) as Hin. clear Hl.
  induction rs as [|r rs IH]; [constructor|]. cbn in *. apply NoDup_cons in Hn as [Hr Hn].
  apply NoDup_cons. split; [|apply IH; [done|intros q Hq; apply Hin; by right]].
  intros (q & Hm & Hq)%list_elem_of_fmap. apply Hr.
  pose proof (Hin r (list_elem_of_here _ _)) as (x & Hx & Hxr)%get_route_row.
  pose proof (Hin q (list_elem_of_further _ _ _ Hq)) as (y & Hy & Hyq)%get_route_row.
  rewrite (Hd _ _ _ _ Hx Hy); [by apply list_elem_of_fmap_2|].
  by rewrite <- (row_to_route_model _ _ _ Hxr), <- (row_to_route_model _ _ _ Hyq).
Qed.

Lemma coherent_entry s m e :
  coherent s ->
  RoutingTable.resolve_entry (routing_table (inner s)) m = Some e ->
  exists rid r, get_route (tables s) rid = Ok (Some r) /\ ro_virtual_model r = m /\ serves (tables s) r e.
Proof.
  intros (epoch & ps & rs & Hp & Hr & ->). unfold RoutingTable.resolve_entry.
  cbn [from_snapshot routing_table snapshot_to_routing_table routes].
  rewrite lookup_omap, (snapshot_providers _ _ _ _ _ Hp). cbn [snapshot_of cs_routes].
  intros (r & He & Hc)%bind_Some. apply collect_elem, list_elem_of_fmap in He as (q & [= -> ->] & Hq).
  exists (ro_id q), q. split; [by apply (loaded_routes _ rs)|]. split; [done|]. by apply route_entry_serves.
Qed.

Lemma coherent_route s rid r e :
  coherent s -> distinct_models (t_routes (tables s)) ->
  get_route (tables s) rid = Ok (Some r) -> serves (tables s) r e ->
  RoutingTable.resolve_entry (routing_table (inner s)) (ro_virtual_model r) = Some e.
Proof.
  intros (epoch & ps & rs & Hp & Hr & ->) Hd Hg Hs. unfold RoutingTable.resolve_entry.
  cbn [from_snapshot routing_table snapshot_to_routing_table routes].
  rewrite lookup_omap, (snapshot_providers _ _ _ _ _ Hp). cbn [snapshot_of cs_routes].
  rewrite (collect_distinct _ _ r).
  - by apply route_entry_serves.
  - rewrite <- list_fmap_compose. by apply (loaded_models (tables s)).
  - apply list_elem_of_fmap. exists r. split; [done|].
    assert (ro_id r = rid) as Hi.
    { apply get_route_row in Hg as (row & _ & Hq). by apply row_to_route_id in Hq. }
    apply (loaded_routes _ rs _ Hr). by rewrite Hi.
Qed.

(** The routing table of the data plane is that of the tables [t]. *)
Definition shows (v : ConfigStore) (t : Tables) : Prop :=
  (forall m e, RoutingTable.resolve_entry (routing_table v) m = Some e ->
     exists rid r, get_route t rid = Ok (Some r) /\ ro_virtual_model r = m /\ serves t r e)
  /\ (distinct_models (t_routes t) -> forall rid r e,
        get_route t rid = Ok (Some r) -> serves t r e ->
        RoutingTable.resolve_entry (routing_table v) (ro_virtual_model r) = Some e).

Lemma reads_shows t s : reads t s -> shows (inner s) t.
Proof.
  intros Hc. split; [intros m e; by apply (coherent_entry (with_tables t s))|].
  intros Hd rid r e. by apply (coherent_route (with_tables t s)).
Qed.

End View.

(** ** The deletion of a provider *)

Section Deletion.
Context `{J : SerdeJson} `{C : Chrono} `{!ChronoLaws C} `{R : RouteSerde} `{!RouteSerdeLaws R} `{Crypto}.
Context (registered : list Providers.Provider) (encryption : option KeyEncryption).

(** What becomes of a route. *)
Definition without_provider (pid : string) (now : Z) (r : Route) : option Route :=
  if existsb (names pid) (ro_targets r) then
    match other_targets pid (ro_targets r) with
    | [] => None
    | l => Some (set_targets l now r)
    end
  else Some r.

Definition cleaned_row (pid : string) (now : Z) (r : Route) (row : RouteRow) : option RouteRow :=
  if existsb (names pid) (ro_targets r) then
    match other_targets pid (ro_targets r) with
    | [] => None
    | l => Some (set_row_targets (targets_to_string l) (to_rfc3339 now) row)
    end
  else Some row.

Definition is_named (pid : string) (r : Route) : bool := existsb (names pid) (ro_targets r).

Lemma clean_route_spec pid now later rows r :
  four_digit_year now = true ->
  clean_route pid now later rows r
  = (partial_alter (fun o => o ≫= cleaned_row pid now r) (ro_id r) rows,
     if is_named pid r then Some {| cl_before := r; cl_after := without_provider pid now r |} else None).
Proof using ChronoLaws0.
  intros Hn. unfold clean_route, cleaned_row, is_named, without_provider.
  destruct (existsb _ _) eqn:E; cbn [negb].
  - rewrite parse_to_rfc3339 by done.
    by destruct (other_targets _ _); f_equal.
  - f_equal. apply map_eq. intros k. destruct (decide (k = ro_id r)) as [->|Hk].
    + rewrite lookup_partial_alter_eq. by destruct (rows !! ro_id r).
    + by rewrite lookup_partial_alter_ne.
Qed.

Lemma clean_routes_spec pid now later rows l :
  four_digit_year now = true ->
  snd (clean_routes pid now later rows l)
  = map (fun r => {| cl_before := r; cl_after := without_provider pid now r |}) (List.filter (is_named pid) l)
  /\ (forall k, k ∉ map ro_id l -> fst (clean_routes pid now later rows l) !! k = rows !! k)
  /\ (NoDup (map ro_id l) -> forall r, r ∈ l ->
        fst (clean_routes pid now later rows l) !! ro_id r = rows !! ro_id r ≫= cleaned_row pid now r).
Proof using ChronoLaws0.
  intros Hn. revert rows. induction l as [|q l IH]; intros rows.
  - cbn. split; [done|]. split; [done|]. intros _ r Hr%not_elem_of_nil. done.
  - cbn [clean_routes]. rewrite clean_route_spec by done.
    set (rows1 := partial_alter _ _ _). specialize (IH rows1). destruct IH as (Hc & Hk & Hr).
    destruct (clean_routes pid now later rows1 l) as [rows2 cs]. cbn [fst snd] in *. subst cs.
    split; [|split].
    + cbn [List.filter]. by destruct (is_named pid q).
    + intros k Hnk. rewrite Hk by (intros Hin; apply Hnk; by right).
      unfold rows1. rewrite lookup_partial_alter_ne; [done|]. intros <-. apply Hnk. left.
    + cbn [map]. intros [Hq Hd]%NoDup_cons r [->|Hin]%elem_of_cons.
      * rewrite Hk by done. unfold rows1. by rewrite lookup_partial_alter_eq.
      * rewrite Hr by done. unfold rows1. rewrite lookup_partial_alter_ne; [done|].
        intros He. apply Hq. apply list_elem_of_fmap. by exists r.
Qed.

Lemma finite_other pid l : finite_weights l = true -> finite_weights (other_targets pid l) = true.
Proof.
  unfold finite_weights, other_targets. induction l as [|t l IH]; [done|]. cbn.
  intros [Ht Hl]%andb_true_iff. destruct (names pid t); cbn; [by apply IH|]. by rewrite Ht, IH.
Qed.

(** A cleaned row is read as the cleaned route. *)
Lemma read_cleaned pid now rid row r :
  four_digit_year now = true -> row_to_route rid row = Ok r ->
  match cleaned_row pid now r row with
  | Some row' => exists r', row_to_route rid row' = Ok r' /\ without_provider pid now r = Some r'
  | None => without_provider pid now r = None
  end.
Proof using ChronoLaws0 RouteSerdeLaws0.
  intros Hn Hr. unfold cleaned_row, without_provider.
  destruct (existsb _ _); [|by exists r].
  assert (finite_weights (ro_targets r) = true) as Hf.
  { revert Hr. unfold row_to_route. destruct (targets_from_str (rr_targets row)) as [|l] eqn:E; [done|].
    cbn [mbind result_bind]. read_fields. intros [= <-]. by apply targets_finite in E. }
  pose proof (finite_other pid _ Hf) as Ho. destruct (other_targets pid (ro_targets r)) as [|t l]; [done|].
  exists (set_targets (t :: l) now r). split; [|done].
  revert Hr. unfold row_to_route. destruct (targets_from_str (rr_targets row)) as [|l0]; [done|].
  cbn [mbind result_bind set_row_targets rr_targets rr_metadata rr_created_at rr_updated_at rr_strategy
       rr_virtual_model rr_enabled]. rewrite targets_roundtrip by done.
  unfold parse_dt at 3. rewrite parse_to_rfc3339 by done. cbn [mbind result_bind].
  destruct (deserialize_model_metadata _); [|done]. cbn [mbind result_bind].
  destruct (parse_dt (rr_created_at row)); [|done]. cbn [mbind result_bind].
  destruct (parse_dt (rr_updated_at row)); [|done]. cbn [mbind result_bind]. by intros [= <-].
Qed.

(** What is announced is what is done. *)
Definition cleanups_of (pid : string) (now : Z) (rs : list Route) : list ProviderRouteCleanup :=
  map (fun r => {| cl_before := r; cl_after := without_provider pid now r |}) (List.filter (is_named pid) rs).

Definition deletes (c : ProviderRouteCleanup) : bool := match cl_after c with None => true | Some _ => false end.

Lemma other_length pid l :
  length (other_targets pid l) = (length l - length (List.filter (names pid) l))%nat.
Proof.
  unfold other_targets. induction l as [|t l IH]; [done|]. cbn.
  pose proof (List.filter_length_le (names pid) l). destruct (names pid t); cbn; lia.
Qed.

Lemma no_names pid l : existsb (names pid) l = negb (Nat.eqb (length (List.filter (names pid) l)) 0).
Proof. induction l as [|t l IH]; [done|]. cbn. by destruct (names pid t). Qed.

Lemma impact_of_route pid r :
  match impact_of pid r with
  | Some i => is_named pid r = true
              /\ ir_will_delete_route i = match other_targets pid (ro_targets r) with [] => true | _ => false end
  | None => is_named pid r = false
  end.
Proof.
  unfold impact_of, is_named. rewrite no_names. destruct (Nat.eqb _ 0); [done|]. split; [done|].
  cbn [ir_will_delete_route]. rewrite <- (other_length pid (ro_targets r)). by destruct (other_targets _ _).
Qed.

Lemma deletes_route pid now r :
  is_named pid r = true ->
  deletes {| cl_before := r; cl_after := without_provider pid now r |}
  = match other_targets pid (ro_targets r) with [] => true | _ => false end.
Proof. unfold is_named, deletes, without_provider. cbn. intros ->. by destruct (other_targets _ _). Qed.

Lemma impact_cleanups pid now rs :
  im_route_count (for_routes pid rs) = length (cleanups_of pid now rs)
  /\ im_delete_route_count (for_routes pid rs) = length (List.filter deletes (cleanups_of pid now rs)).
Proof.
  unfold for_routes, cleanups_of. cbn [im_route_count im_delete_route_count].
  induction rs as [|r rs [IH1 IH2]]; [done|]. cbn [omap list_omap List.filter].
  pose proof (impact_of_route pid r) as Hi. destruct (impact_of pid r) as [i|].
  - destruct Hi as [Hn Hw]. rewrite Hn. cbn [map List.filter]. rewrite deletes_route, Hw by done.
    split; [by cbn; f_equal|]. destruct (other_targets _ _); [|done]. cbn. by f_equal.
  - by rewrite Hi.
Qed.

Definition deleted_tables (pid : string) (rows : gmap string RouteRow) (t : Tables) : Tables :=
  set_providers (delete pid (t_providers t)) (set_tokens (delete pid (t_tokens t)) (set_routes rows t)).

(** The rows after the transaction. *)
Definition cleaned_rows (pid : string) (now : Z) (rs : list Route) (t : Tables) : gmap string RouteRow :=
  fst (clean_routes pid now now (t_routes t) rs).

Lemma cleaned_lookup pid now later rs t rid :
  four_digit_year now = true -> load_routes t = Ok rs ->
  fst (clean_routes pid now later (t_routes t) rs) !! rid
  = match get_route t rid with Ok (Some r) => t_routes t !! rid ≫= cleaned_row pid now r | _ => None end.
Proof using ChronoLaws0.
  intros Hn Hl. destruct (clean_routes_spec pid now later (t_routes t) rs Hn) as (_ & Hk & Hr).
  assert (NoDup (map ro_id rs)) as Hd
    by (by apply (read_all_nodup row_to_route _ (t_routes t)); [apply row_to_route_id|]).
  destruct (t_routes t !! rid) as [row|] eqn:E.
  - assert (exists r, row_to_route rid row = Ok r) as [r Hq].
    { unfold load_routes in Hl. apply read_all_spec in Hl. apply elem_of_map_to_list in E.
      apply list_elem_of_lookup in E as [i Hi]. destruct (Forall2_lookup_l _ _ _ _ _ Hl Hi) as (r & _ & Hr').
      by exists r. }
    assert (get_route t rid = Ok (Some r)) as Hg by (apply get_route_row; by exists row).
    pose proof (row_to_route_id _ _ _ Hq) as Hi. rewrite Hg, <- Hi, Hr; [by rewrite Hi, E|done|].
    apply (loaded_routes _ _ _ Hl). by rewrite Hi.
  - unfold get_route. rewrite E. rewrite Hk; [done|].
    intros (q & -> & Hq)%list_elem_of_fmap. apply (loaded_routes _ _ _ Hl), get_route_row in Hq as (x & Hx & _).
    by rewrite E in Hx.
Qed.

Lemma cleaned_route pid now later rs t rid :
  four_digit_year now = true -> load_routes t = Ok rs ->
  get_route (deleted_tables pid (fst (clean_routes pid now later (t_routes t) rs)) t) rid
  = match get_route t rid with Ok (Some r) => Ok (without_provider pid now r) | _ => Ok None end.
Proof using ChronoLaws0 RouteSerdeLaws0.
  intros Hn Hl. unfold get_route at 1. cbn [deleted_tables set_providers set_tokens set_routes t_routes].
  rewrite (cleaned_lookup _ _ _ _ _ _ Hn Hl). destruct (get_route t rid) as [[r|]|] eqn:Hg; [|done|done].
  apply get_route_row in Hg as (row & Hrow & Hq). rewrite Hrow. cbn [mbind option_bind].
  pose proof (read_cleaned pid now rid row r Hn Hq) as Hc. destruct (cleaned_row _ _ _ _) as [row'|].
  - destruct Hc as (r' & Hr' & ->). by rewrite Hr'.
  - by rewrite Hc.
Qed.

Lemma providers_readable t ps k row :
  load_providers t = Ok ps -> t_providers t !! k = Some row -> exists p, row_to_provider k row = Ok p.
Proof.
  unfold load_providers. intros Hl%read_all_spec Hk. apply elem_of_map_to_list, list_elem_of_lookup in Hk as [i Hi].
  destruct (Forall2_lookup_l _ _ _ _ _ Hl Hi) as (p & _ & Hp). by exists p.
Qed.

(** After the transaction the tables can still be read, so the refresh does
    not fail. *)
Lemma deletion_refreshes pid now later at_ rs ps s :
  four_digit_year now = true -> load_providers (tables s) = Ok ps -> load_routes (tables s) = Ok rs ->
  exists s', refresh registered encryption at_
      {| tables := deleted_tables pid (fst (clean_routes pid now later (t_routes (tables s)) rs)) (tables s);
         inner := inner s |} = (s', Ok tt).
Proof using ChronoLaws0 RouteSerdeLaws0.
  intros Hn Hp Hr. set (t := deleted_tables _ _ _).
  assert (exists ps', load_providers t = Ok ps') as [ps' Hp'].
  { apply read_all_ok. intros k r Hk%elem_of_map_to_list. cbn in Hk. apply lookup_delete_Some in Hk as [_ Hk].
    by eapply providers_readable. }
  assert (exists rs', load_routes t = Ok rs') as [rs' Hr'].
  { apply read_all_ok. intros k row Hk%elem_of_map_to_list.
    pose proof (cleaned_route pid now later rs (tables s) k Hn Hr) as Hg. fold t in Hg.
    unfold get_route at 1 in Hg. rewrite Hk in Hg. destruct (row_to_route k row) as [r|] eqn:E; [by exists r|].
    by destruct (get_route (tables s) k) as [[|]|]. }
  unfold refresh. cbn [tables]. rewrite Hp', Hr'. eexists. reflexivity.
Qed.

(** C6: The deletion of a provider.  If the tables can be read it succeeds;
    the provider and its tokens are gone and the other providers are untouched;
    every route has lost exactly the targets that name the provider, and is
    gone if it had no other; no model of the published routing table leads to
    the provider; and what is reported, and what was announced by
    [provider_route_impact], is what was done. *)
Theorem deleted_provider_is_gone pid now later at_ s row ps rs :
  four_digit_year now = true -> t_providers (tables s) !! pid = Some row ->
  load_providers (tables s) = Ok ps -> load_routes (tables s) = Ok rs ->
  exists s' out,
    delete_provider_cascade_route_targets registered encryption pid now later at_ s = (s', Ok out)
    /\ (forall other, get_provider encryption (tables s') other
         = if decide (other = pid) then Ok None else get_provider encryption (tables s) other)
    /\ t_tokens (tables s') = delete pid (t_tokens (tables s))
    /\ (forall rid, get_route (tables s') rid
         = match get_route (tables s) rid with Ok (Some r) => Ok (without_provider pid now r) | _ => Ok None end)
    /\ (forall m targets t, RoutingTable.resolve (routing_table (inner s')) m = Some targets ->
         t ∈ targets -> Targets.provider_id t <> pid)
    /\ provider_route_impact encryption (tables s) pid = Ok (do_impact out)
    /\ do_cleanups out = cleanups_of pid now rs
    /\ length (do_cleanups out) = im_route_count (do_impact out)
    /\ length (List.filter deletes (do_cleanups out)) = im_delete_route_count (do_impact out).
Proof using ChronoLaws0 RouteSerdeLaws0.
  intros Hn Hpid Hp Hr. unfold delete_provider_cascade_route_targets. rewrite Hpid, Hr.
  destruct (deletion_refreshes pid now later at_ rs ps s Hn Hp Hr) as [s' Hs'].
  pose proof (proj1 (clean_routes_spec pid now later (t_routes (tables s)) rs Hn)) as Hcs.
  pose proof (cleaned_route pid now later rs (tables s)) as Hg.
  destruct (clean_routes pid now later (t_routes (tables s)) rs) as [rows cs]. cbn [fst snd] in *. subst cs.
  exists s'. eexists. split.
  { unfold then_refresh, deleted_tables in *. rewrite Hs'. reflexivity. }
  cbn [do_impact do_cleanups]. destruct (refresh_ok _ _ _ _ _ Hs') as [Hc Ht]. rewrite Ht.
  split; [|split; [done|split; [intros rid; by apply Hg|split; [|split; [|split; [done|]]]]]].
  - intros other. unfold get_provider. cbn. destruct (decide (other = pid)) as [->|Ho].
    + by rewrite lookup_delete_eq.
    + by rewrite lookup_delete_ne.
  - intros m targets t Hm Hin He. unfold RoutingTable.resolve in Hm.
    destruct (routes (routing_table (inner s')) !! m) as [e|] eqn:Em; [|done]. injection Hm as <-.
    destruct (coherent_entry _ _ s' m e Hc Em) as (rid & r & _ & _ & _ & Hsv & _).
    apply list_elem_of_lookup in Hin as [i Hi].
    destruct (Forall2_lookup_r _ _ _ _ _ Hsv Hi) as (rt & _ & p & Hl & ->).
    revert Hl. unfold current_providers. rewrite map_lookup_imap, Ht. cbn.
    destruct (delete pid _ !! rt_provider_id rt) as [prow|] eqn:Ed; [|done]. cbn.
    intros Hf%fresh_provider_id. apply lookup_delete_Some in Ed as [Hne _].
    apply Hne. rewrite <- Hf, <- He. unfold routing_target.
    by destruct (provider_egress_for_target _ _ _ _).
  - unfold provider_route_impact, get_provider. rewrite Hpid, Hr.
    destruct (providers_readable _ _ _ _ Hp Hpid) as [p Hrow]. unfold read_provider. by rewrite Hrow.
  - destruct (impact_cleanups pid now rs) as [H1 H2]. split; symmetry; [exact H1|exact H2].
Qed.
End Deletion.

(** ** A sample store

    The text of the targets is not JSON here: an instance of the laws that can
    be evaluated. *)

Module Sample.
#[export] Existing Instances coded_json coded_json_laws binary_chrono binary_chrono_laws letter_crypto.

#[export] Instance f64_countable : Countable f64.
Proof.
  refine (inj_countable'
    (fun x => match x with
              | SpecFloat.S754_zero b => inl b
              | SpecFloat.S754_infinity b => inr (inl b)
              | SpecFloat.S754_nan => inr (inr (inl tt))
              | SpecFloat.S754_finite b m e => inr (inr (inr (b, m, e)))
              end)
    (fun c => match c with
              | inl b => SpecFloat.S754_zero b
              | inr (inl b) => SpecFloat.S754_infinity b
              | inr (inr (inl tt)) => SpecFloat.S754_nan
              | inr (inr (inr (b, m, e))) => SpecFloat.S754_finite b m e
              end) _).
  by intros [].
Defined.

Definition tuple_of (t : RouteTarget) :=
  (rt_provider_id t, rt_model_id t, rt_weight t, rt_enabled t, rt_account_label t, rt_api_key_override t,
   rt_api_base_override t).

Definition of_tuple (x : string * string * f64 * bool * option string * option string * option string)
    : RouteTarget :=
  let '(p, m, w, e, l, k, b) := x in
  {| rt_provider_id := p; rt_model_id := m; rt_weight := w; rt_enabled := e; rt_account_label := l;
     rt_api_key_override := k; rt_api_base_override := b |}.

#[export] Instance coded_targets : RouteSerde := {|
  ModelMetadata := unit;
  targets_to_string l := bits (encode (map tuple_of l));
  targets_from_str s :=
    match of_bits s ≫= decode with
    | Some l => let l := map of_tuple l in if finite_weights l then inr l else inl "number out of range"
    | None => inl "expected value"
    end;
  metadata_to_string _ := "null";
  metadata_from_value _ := inr tt;
|}.

#[export] Instance coded_targets_laws : RouteSerdeLaws coded_targets.
Proof.
  split.
  - intros l Hl. cbn. rewrite of_bits_bits. cbn. rewrite decode_encode.
    assert (map of_tuple (map tuple_of l) = l) as ->; [|by rewrite Hl].
    rewrite map_map. induction l as [|[] l IH]; [done|]. cbn in *. f_equal. apply IH.
    by apply andb_true_iff in Hl as [_ Hl].
  - intros s l. cbn. destruct (of_bits s ≫= decode) as [l'|]; [|done].
    destruct (finite_weights (map of_tuple l')) eqn:E; [|done]. by intros [= <-].
Qed.

Definition now : Z := 1700000000000000000.
Definition later : Z := 1700000001000000000.

Definition sample_row (vendor base key : string) : ProviderRow := {|
  row_name := vendor; row_vendor := vendor; row_api_base := base; row_models_endpoint := "";
  row_api_key := key; row_auth_mode := "api_key"; row_usage_key := ""; row_oauth_meta := "";
  row_metadata := ""; row_enabled := 1; row_created_at := to_rfc3339 now; row_updated_at := to_rfc3339 now |}.

Definition target_of (provider model : string) : RouteTarget := {|
  rt_provider_id := provider; rt_model_id := model; rt_weight := f64_lit 1 0; rt_enabled := true;
  rt_account_label := None; rt_api_key_override := None; rt_api_base_override := None |}.

Definition sample_route (model : string) (l : list RouteTarget) : RouteRow := {|
  rr_virtual_model := model; rr_targets := targets_to_string l; rr_strategy := Some "weighted";
  rr_metadata := "{}"; rr_enabled := 1; rr_created_at := to_rfc3339 now; rr_updated_at := to_rfc3339 now |}.

(** Two providers; a route over both and a route over the first. *)
Definition sample_tables : Tables := {|
  t_providers := {[ "p1" := sample_row "openai" "https://api.openai.com/v1" "sk-1";
                    "p2" := sample_row "other" "https://b" "sk-2" ]};
  t_tokens := ∅;
  t_routes := {[ "r1" := sample_route "smart" [target_of "p1" "gpt-4o"; target_of "p2" "m2"];
                 "r2" := sample_route "only" [target_of "p1" "gpt-4o"] ]};
  t_keys := ∅; t_settings := ∅; t_epoch := None |}.

Definition sample_store : Store := {| tables := sample_tables; inner := new |}.
Definition opened : Store := fst (refresh [] None now sample_store).

Definition deleted : Store := fst (delete_provider_cascade_route_targets [] None "p1" now now later opened).

Definition served_targets (s : Store) (m : string) : option (list (string * string * string)) :=
  map (fun t => (Targets.provider_id t, Targets.model_id t, Targets.api_key t))
  <$> RoutingTable.resolve (routing_table (inner s)) m.

Example opened_serves :
  served_targets opened "smart" = Some [("p1", "gpt-4o", "sk-1"); ("p2", "m2", "sk-2")]
  /\ served_targets opened "only" = Some [("p1", "gpt-4o", "sk-1")].
Proof. split; vm_compute; reflexivity. Qed.

Example deleted_serves :
  served_targets deleted "smart" = Some [("p2", "m2", "sk-2")] /\ served_targets deleted "only" = None.
Proof. split; vm_compute; reflexivity. Qed.
End Sample.

Import Sample.

Definition succeeds {E A} (r : result E A) : bool := match r with Ok _ => true | Err _ => false end.

Lemma succeeds_ok {E A} (r : result E A) : succeeds r = true -> exists x, r = Ok x.
Proof. destruct r as [x|]; [|done]. by exists x. Qed.

Definition is_present {A} (o : option A) : bool := match o with Some _ => true | None => false end.

Lemma present {A} (o : option A) : is_present o = true -> exists x, o = Some x.
Proof. destruct o as [x|]; [|done]. by exists x. Qed.

Lemma sample_opens : refresh [] None now sample_store = (opened, Ok tt).
Proof.
  assert (succeeds (snd (refresh [] None now sample_store)) = true) as [[] Hx]%succeeds_ok
    by (vm_compute; reflexivity).
  unfold opened. by destruct (refresh [] None now sample_store) as [s1 r]; cbn in *; subst.
Qed.

Lemma sample_deletes :
  exists out, delete_provider_cascade_route_targets [] None "p1" now now later opened = (deleted, Ok out).
Proof.
  assert (succeeds (snd (delete_provider_cascade_route_targets [] None "p1" now now later opened)) = true)
    as [out Hx]%succeeds_ok by (vm_compute; reflexivity).
  exists out. unfold deleted.
  by destruct (delete_provider_cascade_route_targets [] None "p1" now now later opened); cbn in *; subst.
Qed.

Lemma sample_resolves : exists e, RoutingTable.resolve_entry (routing_table (inner deleted)) "smart" = Some e.
Proof. apply present. vm_compute. reflexivity. Qed.

Lemma sample_loads :
  exists ps rs, load_providers (tables opened) = Ok ps /\ load_routes (tables opened) = Ok rs.
Proof.
  assert (succeeds (load_providers (tables opened)) = true) as [ps Hp]%succeeds_ok by (vm_compute; reflexivity).
  assert (succeeds (load_routes (tables opened)) = true) as [rs Hr]%succeeds_ok by (vm_compute; reflexivity).
  exists ps, rs. exact (conj Hp Hr).
Qed.

Lemma sample_has_p1 :
  t_providers (tables opened) !! "p1" = Some (sample_row "openai" "https://api.openai.com/v1" "sk-1").
Proof. vm_compute. reflexivity. Qed.

Lemma sample_r2 : exists r, get_route (tables opened) "r2" = Ok (Some r) /\ without_provider "p1" now r = None.
Proof. eexists. split; vm_compute; reflexivity. Qed.

(** A deletion, then another instance that puts the old rows back. *)
Lemma sample_steps :
  rtc (db_step [] None) (opened, tables opened) (with_tables sample_tables deleted, tables deleted).
Proof.
  destruct sample_deletes as [out Hd]. eapply rtc_l.
  - apply (db_op _ _ (DoDeleteProvider "p1" now now later) opened (tables opened) deleted (Ok tt)).
    cbn [run_op]. rewrite Hd. reflexivity.
  - apply rtc_once. apply db_outside.
Qed.


Lemma deleted_provider_is_gone_witness :
  exists s' out, delete_provider_cascade_route_targets [] None "p1" now now later opened = (s', Ok out)
    /\ get_route (tables s') "r2" = Ok None /\ get_provider None (tables s') "p1" = Ok None.
Proof.
  destruct sample_loads as (ps & rs & Hp & Hr). destruct sample_r2 as (r & Hg2 & Hw).
  destruct (deleted_provider_is_gone [] None "p1" now now later opened
              (sample_row "openai" "https://api.openai.com/v1" "sk-1") ps rs
              eq_refl sample_has_p1 Hp Hr)
    as (s' & out & Hd & Hg & _ & Hroutes & _).
  exists s', out. split; [exact Hd|]. split; [|exact (Hg "p1")].
  rewrite Hroutes, Hg2, Hw. reflexivity.
Defined.
