(* ===== verification/ConfigTransfer.v ===== *)
(** * ConfigTransfer: the export and import of a configuration

    [export_config] and [import_config] of [crates/store/src/config_store.rs].
    A bundle carries the secrets as the source has them in its columns; the
    import opens them with the master key of the source and seals them with
    its own.  The random nonce of a column is an argument, by purpose and row;
    the rows of an import have one time. *)

From stdpp Require Import base option list gmap strings pretty.
From Stdlib Require Import ZArith Lia Ascii.
From S2P Require Import OAuthEffects.
From S2P Require Import Prelude RustStr F64 Json JsonBody Protocol Utf8 Targets Encryption OAuthTokens Providers ProviderConfig ApiKeys TokenStats ConfigStore.

Local Open Scope string_scope.
Local Open Scope list_scope.

(** ** Bundles *)

Definition ARCHIVE_S3_ACCESS_KEY_ID : string := "gateway.archive.s3_access_key_id".
Definition ARCHIVE_S3_SECRET_ACCESS_KEY : string := "gateway.archive.s3_secret_access_key".
Definition ENCRYPTED_KEYS : list string := [ARCHIVE_S3_ACCESS_KEY_ID; ARCHIVE_S3_SECRET_ACCESS_KEY].
Definition is_encrypted_key (key : string) : bool := existsb (String.eqb key) ENCRYPTED_KEYS.

Record ExportSetting := { es_key : string; es_value : string; es_encrypted : bool }.

Section Transfer.
Context `{SerdeJson} `{Chrono} `{RouteSerde} `{Crypto} `{Calendar}.

(** The days carry the column [updated_at], which nothing reads. *)
Record ConfigExport := {
  ce_schema_version : Z;
  ce_exported_at : string;
  ce_encrypted : bool;
  ce_providers : list Provider;
  ce_routes : list Route;
  ce_api_keys : list ApiKey;
  ce_settings : list ExportSetting;
  ce_token_daily_stats : list (string * DayStats);
}.

Record ImportSelection := {
  is_providers : list string;
  is_routes : list string;
  is_api_keys : list string;
  is_settings : list string;
  is_token_stats : list string;
}.

(** The rows of each table that were imported and skipped. *)
Record ImportReport := {
  ir_providers : nat * nat;
  ir_routes : nat * nat;
  ir_api_keys : nat * nat;
  ir_settings : nat * nat;
  ir_token_stats : nat * nat;
}.

(** The whole database: the store, and the statistics of the log tables. *)
Record Db := { db_store : Store; db_stats : Stats }.

(** ** Export *)

Definition list_settings (t : Tables) : list (string * string) :=
  sort_by (fun a b => text_le (fst a) (fst b))
    (map (fun kv => (fst kv, fst (snd kv))) (map_to_list (t_settings t))).

(** [p.api_key_cleartext = None; p.usage_management_key_cleartext = None] *)
Definition clear_cleartexts (p : Provider) : Provider :=
  {| ProviderConfig.id := ProviderConfig.id p; ProviderConfig.name := ProviderConfig.name p;
     ProviderConfig.vendor := ProviderConfig.vendor p; ProviderConfig.api_base := ProviderConfig.api_base p;
     ProviderConfig.models_endpoint := ProviderConfig.models_endpoint p;
     encrypted_api_key := encrypted_api_key p;
     encrypted_usage_management_key := encrypted_usage_management_key p;
     ProviderConfig.auth_mode := ProviderConfig.auth_mode p;
     encrypted_oauth_meta := encrypted_oauth_meta p; metadata_json := metadata_json p;
     ProviderConfig.enabled := ProviderConfig.enabled p; created_at := created_at p;
     updated_at := updated_at p; api_key_cleartext := None; usage_management_key_cleartext := None;
     oauth_meta_cleartext := oauth_meta_cleartext p |}.

Definition export_setting (kv : string * string) : ExportSetting :=
  {| es_key := fst kv; es_value := snd kv; es_encrypted := is_encrypted_key (fst kv) |}.

Definition export_config (encryption : option KeyEncryption) (now : Z) (d : Db)
    : result StoreError ConfigExport :=
  let t := tables (db_store d) in
  ps ← load_providers t;
  rs ← load_routes t;
  ks ← list_api_keys (t_keys t);
  Ok {| ce_schema_version := 2; ce_exported_at := to_rfc3339 now;
        ce_encrypted := match encryption with Some _ => true | None => false end;
        ce_providers := map clear_cleartexts ps; ce_routes := rs; ce_api_keys := ks;
        ce_settings := map export_setting (list_settings t);
        ce_token_daily_stats := export_token_daily_stats (daily (db_stats d)) |}.

(** ** Import *)

Section Import.
Context (registered : list Providers.Provider) (encryption : option KeyEncryption).

(** Opened with the key of the source, sealed with ours. *)
Definition recode (decrypt : KeyEncryption -> string -> result EncryptionError string)
    (encrypt : KeyEncryption -> string -> string -> result EncryptionError string)
    (source : option KeyEncryption) (nonce column : string) : result StoreError string :=
  plain ← match source with
          | Some src => match decrypt src column with
                        | Ok plain => Ok plain
                        | Err e => Err (Decrypt (encryption_error_text e))
                        end
          | None => Ok column
          end;
  column_of encrypt encryption nonce plain.

Definition recode_secret decrypt encrypt source nonce column : result StoreError string :=
  if is_empty column then Ok "" else recode decrypt encrypt source nonce column.

(** The rows of a section of the bundle: [step] writes one that is selected,
    or skips it. *)
Fixpoint import_all {A T} (selected : A -> bool) (step : T -> A -> result StoreError (T * bool))
    (l : list A) (t : T) (n : nat * nat) : result StoreError (T * (nat * nat)) :=
  match l with
  | [] => Ok (t, n)
  | x :: rest =>
      if selected x then
        r ← step t x;
        let '(t, imported) := r in
        import_all selected step rest t
          (if imported : bool then (S (fst n), snd n) else (fst n, S (snd n)))
      else import_all selected step rest t (fst n, S (snd n))
  end.

Definition chosen (l : list string) (k : string) : bool := existsb (String.eqb k) l.

(** The times of an upsert: the first one stays. *)
Definition first_created {A} (created : A -> string) (old : option A) (new : string) : string :=
  match old with Some o => created o | None => new end.

Definition imported_provider (now : string) (p : Provider) (api oauth usage created : string) : ProviderRow :=
  {| row_name := ProviderConfig.name p; row_vendor := ProviderConfig.vendor p;
     row_api_base := ProviderConfig.api_base p; row_models_endpoint := ProviderConfig.models_endpoint p;
     row_api_key := api; row_auth_mode := AuthMode.as_str (ProviderConfig.auth_mode p);
     row_usage_key := usage; row_oauth_meta := oauth; row_metadata := to_string (metadata_json p);
     row_enabled := enabled_int (ProviderConfig.enabled p); row_created_at := created;
     row_updated_at := now |}.

Definition import_provider (source : option KeyEncryption) (nonce : string -> string -> string) (now : string)
    (m : gmap string ProviderRow) (p : Provider) : result StoreError (gmap string ProviderRow * bool) :=
  let pid := ProviderConfig.id p in
  match validate_provider_auth_mode (ProviderConfig.vendor p) (ProviderConfig.auth_mode p) with
  | Err message => Err (InvalidInput message)
  | Ok _ =>
      api ← recode_secret decrypt_api_key encrypt_api_key source
              (nonce PURPOSE_PROVIDER_API_KEY pid) (encrypted_api_key p);
      oauth ← recode_secret decrypt_oauth_meta encrypt_oauth_meta source
                (nonce PURPOSE_OAUTH_REFRESH_TOKEN pid) (encrypted_oauth_meta p);
      usage ← recode_secret decrypt_usage_management_key encrypt_usage_management_key source
                (nonce PURPOSE_USAGE_MANAGEMENT_KEY pid) (encrypted_usage_management_key p);
      Ok (<[pid := imported_provider now p api oauth usage
                     (first_created row_created_at (m !! pid) (to_rfc3339 (created_at p)))]> m, true)
  end.

Definition imported_route (now : string) (r : Route) (created : string) : RouteRow :=
  {| rr_virtual_model := ro_virtual_model r; rr_targets := targets_to_string (ro_targets r);
     rr_strategy := RoutingStrategyName.as_str <$> ro_strategy r;
     rr_metadata := serialize_model_metadata (ro_metadata r); rr_enabled := enabled_int (ro_enabled r);
     rr_created_at := created; rr_updated_at := now |}.

Definition import_route (now : string) (m : gmap string RouteRow) (r : Route)
    : result StoreError (gmap string RouteRow * bool) :=
  Ok (<[ro_id r := imported_route now r
                     (first_created rr_created_at (m !! ro_id r) (to_rfc3339 (ro_created_at r)))]> m, true).

Definition imported_key (now : string) (k : ApiKey) (allowed : option (list string)) (created : string) : KeyRow :=
  {| kr_name := ak_name k; kr_hash := key_hash k; kr_quota := to_string (quota_json k);
     kr_allowed := models_text allowed; kr_status := ApiKeyStatus.as_str (ak_status k);
     kr_created_at := created; kr_updated_at := now |}.

(** A hash that another row has is skipped. *)
Definition import_key (schema_version : Z) (now : string) (m : KeyTable) (k : ApiKey)
    : result StoreError (KeyTable * bool) :=
  let owned := match row_with_hash m (key_hash k) with
               | Some (existing_id, _) => negb (String.eqb existing_id (ak_id k))
               | None => false
               end in
  if owned then Ok (m, false)
  else
    allowed ← (if (2 <=? schema_version)%Z then normalize_allowed_models (allowed_models k) else Ok None);
    Ok (<[ak_id k := imported_key now k allowed
                       (first_created kr_created_at (m !! ak_id k) (to_rfc3339 (ak_created_at k)))]> m, true).

Definition import_setting (source : option KeyEncryption) (nonce : string -> string -> string) (now : string)
    (m : gmap string (string * string)) (s : ExportSetting)
    : result StoreError (gmap string (string * string) * bool) :=
  if es_encrypted s then
    stored ← recode decrypt_settings encrypt_settings source (nonce PURPOSE_SETTINGS (es_key s)) (es_value s);
    Ok (<[es_key s := (stored, now)]> m, true)
  else Ok (<[es_key s := (es_value s, now)]> m, true).

Definition import_day (now : string) (m : gmap string DayStats) (row : string * DayStats)
    : result StoreError (gmap string DayStats * bool) :=
  Ok (merge_day now m row, true).

(** The decryptor of the source. *)
Definition source_encryption (encrypted : bool) (master_key : string) : result StoreError (option KeyEncryption) :=
  if encrypted then
    if is_empty (trim master_key) then Err (InvalidInput "export is encrypted but no master key was supplied")
    else match KeyEncryption.from_secret master_key with
         | Ok enc => Ok (Some enc)
         | Err e => Err (Decrypt (encryption_error_text e))
         end
  else Ok None.

(** The transaction: the tables it leaves, or the error that rolls it back.
    [overflow] is the database's text for a sum that is no [BIGINT]. *)
Definition import_transaction (nonce : string -> string -> string) (today : Z) (now overflow : string)
    (source : option KeyEncryption) (data : ConfigExport) (selection : ImportSelection) (t : Tables) (s : Stats)
    : result StoreError (Tables * Stats * ImportReport) :=
  ps ← import_all (fun p => chosen (is_providers selection) (ProviderConfig.id p))
         (import_provider source nonce now) (ce_providers data) (t_providers t) (0, 0)%nat;
  rs ← import_all (fun r => chosen (is_routes selection) (ro_id r))
         (import_route now) (ce_routes data) (t_routes t) (0, 0)%nat;
  ks ← import_all (fun k => chosen (is_api_keys selection) (ak_id k))
         (import_key (ce_schema_version data) now) (ce_api_keys data) (t_keys t) (0, 0)%nat;
  ss ← import_all (fun s => chosen (is_settings selection) (es_key s))
         (import_setting source nonce now) (ce_settings data) (t_settings t) (0, 0)%nat;
  ds ← import_all (fun d => chosen (is_token_stats selection) (fst d))
         (import_day now) (ce_token_daily_stats data) (daily s) (0, 0)%nat;
  sum ← (if (0 <? fst (snd ds))%nat then
           match recompute_summary today now (fst ds) with
           | Ok x => Ok x
           | Err _ => Err (DbError overflow)
           end
         else Ok (summary s));
  Ok (set_providers (fst ps) (set_routes (fst rs) (set_keys (fst ks) (set_settings (fst ss) t))),
      {| daily := fst ds; summary := sum |},
      {| ir_providers := snd ps; ir_routes := snd rs; ir_api_keys := snd ks; ir_settings := snd ss;
         ir_token_stats := snd ds |}).

Definition import_config (nonce : string -> string -> string) (today now : Z) (overflow : string)
    (data : ConfigExport) (master_key : string) (selection : ImportSelection) (d : Db)
    : Db * result StoreError ImportReport :=
  let version := ce_schema_version data in
  if negb ((1 <=? version) && (version <=? 2))%Z then
    (d, Err (InvalidInput ("unsupported export schema_version: " +:+ pretty version +:+ " (expected 1 or 2)")))
  else
    match source_encryption (ce_encrypted data) master_key with
    | Err e => (d, Err e)
    | Ok source =>
        match import_transaction nonce today (to_rfc3339 now) overflow source data selection
                (tables (db_store d)) (db_stats d) with
        | Err e => (d, Err e)
        | Ok (t, s, report) =>
            let '(store, r) := then_refresh registered encryption now t (db_store d) (fun _ => Ok report) in
            ({| db_store := store; db_stats := s |}, r)
        end
    end.
End Import.
End Transfer.

(** ** Importing into an empty table *)

Section Fresh.
Context {A B : Type} (selected : A -> bool) (step : gmap string B -> A -> result StoreError (gmap string B * bool)).
Context (key : A -> string) (row : A -> B) (free : gmap string B -> A -> Prop).

(** If every row is free to be written and stays so until it is its turn, all
    are written. *)
Lemma import_all_fresh l m n :
  (forall x, x ∈ l -> selected x = true) -> NoDup (map key l) ->
  (forall x, x ∈ l -> free m x) ->
  (forall m x y, x ∈ l -> y ∈ l -> key x <> key y -> free m y -> free (<[key x := row x]> m) y) ->
  (forall m x, x ∈ l -> free m x -> step m x = Ok (<[key x := row x]> m, true)) ->
  exists m', import_all selected step l m n = Ok (m', (length l + fst n, snd n)%nat)
    /\ (forall x, x ∈ l -> m' !! key x = Some (row x))
    /\ (forall k, k ∉ map key l -> m' !! k = m !! k).
Proof.
  revert m n. induction l as [|x l IH]; intros m n Hsel Hd Hfree Hkeep Hstep.
  - exists m. cbn. split; [by destruct n|]. split; [|done]. intros x Hx. by apply not_elem_of_nil in Hx.
  - cbn [map] in Hd. apply NoDup_cons in Hd as [Hx Hd]. cbn [import_all].
    rewrite Hsel by left. rewrite Hstep by (left || apply Hfree; left). cbn [mbind result_bind].
    destruct (IH (<[key x := row x]> m) (S (fst n), snd n)) as (m' & Hm & Hin & Hout).
    + intros y Hy. apply Hsel. by right.
    + done.
    + intros y Hy. apply Hkeep; [left|by right| |apply Hfree; by right].
      intros He. apply Hx. rewrite He. by apply list_elem_of_fmap_2.
    + intros m0 y z Hy Hz. apply Hkeep; by right.
    + intros m0 y Hy. apply Hstep. by right.
    + exists m'. split; [rewrite Hm; cbn; do 3 f_equal; lia|]. split.
      * intros y [->|Hy]%elem_of_cons; [|by apply Hin]. rewrite Hout by done. apply lookup_insert_eq.
      * intros k Hk. cbn in Hk. apply not_elem_of_cons in Hk as [Hne Hk]. rewrite Hout by done.
        by rewrite lookup_insert_ne.
Qed.
End Fresh.

(** ** Secrets on the way *)

Section Secrets.
Context `{C : Crypto} `{!CryptoLaws C}.

(** A text GCM can seal: at most 2^36 bytes. *)
Definition sealable (plain : string) : bool :=
  is_utf8 plain && (Z.of_nat (String.length plain) <=? 2 ^ 36)%Z.

Definition seals (encryption : option KeyEncryption) : Prop :=
  forall enc purpose nonce plain, encryption = Some enc -> sealable plain = true ->
    exists blob, KeyEncryption.encrypt enc purpose nonce plain = Ok blob.

Lemma sealed_column encryption purpose nonce plain :
  seals encryption -> String.length nonce = NONCE_LEN -> sealable plain = true ->
  exists column,
    column_of (fun enc => KeyEncryption.encrypt enc purpose) encryption nonce plain = Ok column
    /\ column_cleartext (fun enc => KeyEncryption.decrypt enc purpose) encryption column = Some plain
    /\ (is_empty column = true -> plain = "").
Proof using CryptoLaws0.
  intros Hs Hn Hu. unfold column_of, column_cleartext. destruct encryption as [enc|].
  - destruct (Hs enc purpose nonce plain eq_refl Hu) as [blob Hb].
    apply andb_true_iff in Hu as [Hu _]. exists blob. rewrite Hb. split; [done|].
    pose proof (encrypted_nonempty _ _ _ _ _ Hn Hb) as Hne. destruct (is_empty blob) eqn:E.
    { by apply is_empty_eq in E. }
    by rewrite (decrypt_of_encrypt _ _ _ _ _ Hn Hu Hb).
  - exists plain. split; [done|]. destruct (is_empty plain) eqn:E; [|done].
    apply is_empty_eq in E as ->. done.
Qed.

(** What the import does to a secret that the source can open. *)
Lemma recoded_secret encryption source purpose nonce column plain :
  seals encryption -> String.length nonce = NONCE_LEN -> sealable plain = true ->
  column_cleartext (fun enc => KeyEncryption.decrypt enc purpose) source column = Some plain ->
  exists column',
    recode_secret encryption (fun enc => KeyEncryption.decrypt enc purpose)
      (fun enc => KeyEncryption.encrypt enc purpose) source nonce column = Ok column'
    /\ column_cleartext (fun enc => KeyEncryption.decrypt enc purpose) encryption column' = Some plain
    /\ (is_empty column' = true -> plain = "").
Proof using CryptoLaws0.
  intros Hs Hn Hu Hc. unfold recode_secret, column_cleartext in *. destruct (is_empty column) eqn:E.
  - injection Hc as <-. exists "". done.
  - destruct (sealed_column encryption purpose nonce plain Hs Hn Hu) as (column' & Hcol & Hclear).
    exists column'. split; [|done]. unfold recode. destruct source as [src|].
    + destruct (KeyEncryption.decrypt src purpose column); [|done]. by injection Hc as ->.
    + by injection Hc as ->.
Qed.
Lemma recoded_api encryption source nonce column plain :
  seals encryption -> String.length nonce = NONCE_LEN -> sealable plain = true ->
  column_cleartext decrypt_api_key source column = Some plain ->
  exists column', recode_secret encryption decrypt_api_key encrypt_api_key source nonce column = Ok column'
    /\ column_cleartext decrypt_api_key encryption column' = Some plain
    /\ (is_empty column' = true -> plain = "").
Proof using CryptoLaws0. exact (recoded_secret encryption source PURPOSE_PROVIDER_API_KEY nonce column plain). Qed.

Lemma recoded_oauth encryption source nonce column plain :
  seals encryption -> String.length nonce = NONCE_LEN -> sealable plain = true ->
  column_cleartext decrypt_oauth_meta source column = Some plain ->
  exists column', recode_secret encryption decrypt_oauth_meta encrypt_oauth_meta source nonce column = Ok column'
    /\ column_cleartext decrypt_oauth_meta encryption column' = Some plain
    /\ (is_empty column' = true -> plain = "").
Proof using CryptoLaws0. exact (recoded_secret encryption source PURPOSE_OAUTH_REFRESH_TOKEN nonce column plain). Qed.

Lemma recoded_usage encryption source nonce column plain :
  seals encryption -> String.length nonce = NONCE_LEN -> sealable plain = true ->
  column_cleartext decrypt_usage_management_key source column = Some plain ->
  exists column', recode_secret encryption decrypt_usage_management_key encrypt_usage_management_key source nonce column = Ok column'
    /\ column_cleartext decrypt_usage_management_key encryption column' = Some plain
    /\ (is_empty column' = true -> plain = "").
Proof using CryptoLaws0. exact (recoded_secret encryption source PURPOSE_USAGE_MANAGEMENT_KEY nonce column plain). Qed.
End Secrets.

(** ** A provider after its journey *)

Section Provider.
Context `{J : SerdeJson} `{!SerdeJsonLaws J} `{T : Chrono} `{!ChronoLaws T} `{C : Crypto} `{!CryptoLaws C}.
Context (Hempty : from_str "" = None).
Context (registered : list Providers.Provider) (source encryption : option KeyEncryption).
Context (Hseals : seals encryption).

(** What the data plane makes of a provider. *)
Record alike (p q : Provider) : Prop := {
  al_id : ProviderConfig.id p = ProviderConfig.id q;
  al_vendor : ProviderConfig.vendor p = ProviderConfig.vendor q;
  al_base : ProviderConfig.api_base p = ProviderConfig.api_base q;
  al_mode : ProviderConfig.auth_mode p = ProviderConfig.auth_mode q;
  al_metadata : metadata_json p = metadata_json q;
  al_enabled : ProviderConfig.enabled p = ProviderConfig.enabled q;
  al_key : target_api_key p = target_api_key q;
  al_oauth : oauth_meta_cleartext p = oauth_meta_cleartext q;
}.

Lemma alike_target p q t : alike p q -> routing_target registered p t = routing_target registered q t.
Proof using.
  intros [Hi Hv Hb Hm Hj He Hk Ho]. unfold routing_target, provider_egress_for_target, target_raw_base, is_oauth.
  unfold build_oauth_target_config. by rewrite Hi, Hv, Hb, Hm, Hj, Hk, Ho.
Qed.

(** The secrets of a provider can be opened at the source. *)
Definition opens (decrypt : KeyEncryption -> string -> result EncryptionError string) (column : string) : Prop :=
  exists plain, column_cleartext decrypt source column = Some plain /\ sealable plain = true.

Record portable (p : Provider) : Prop := {
  po_api : opens decrypt_api_key (encrypted_api_key p);
  po_oauth : opens decrypt_oauth_meta (encrypted_oauth_meta p);
  po_usage : opens decrypt_usage_management_key (encrypted_usage_management_key p);
  po_mode : validate_provider_auth_mode (ProviderConfig.vendor p) (ProviderConfig.auth_mode p) = Ok tt;
  po_metadata : exact (metadata_json p) = true;
  po_created : four_digit_year (created_at p) = true;
}.

Lemma clear_key_target p plain :
  api_key_cleartext p = Some plain -> (is_empty (encrypted_api_key p) = true -> plain = "") ->
  target_api_key p = match ProviderConfig.auth_mode p with ApiKeyAuth => plain | _ => "" end.
Proof using.
  intros Hc He. unfold target_api_key. destruct (ProviderConfig.auth_mode p); try done.
  destruct (is_empty _); [by rewrite He|]. by rewrite Hc.
Qed.

Lemma column_empty_clear decrypt enc column plain :
  column_cleartext decrypt enc column = Some plain -> is_empty column = true -> plain = "".
Proof using. unfold column_cleartext. intros Hc He. rewrite He in Hc. by injection Hc. Qed.

(** What a refresh keeps of a provider. *)
Lemma refreshed_same enc p :
  let q := with_cleartexts enc p in
  ProviderConfig.id q = ProviderConfig.id p /\ ProviderConfig.vendor q = ProviderConfig.vendor p
  /\ ProviderConfig.api_base q = ProviderConfig.api_base p
  /\ ProviderConfig.auth_mode q = ProviderConfig.auth_mode p
  /\ metadata_json q = metadata_json p /\ ProviderConfig.enabled q = ProviderConfig.enabled p
  /\ encrypted_api_key q = encrypted_api_key p
  /\ api_key_cleartext q = column_cleartext decrypt_api_key enc (encrypted_api_key p).
Proof using.
  unfold with_cleartexts, populate_provider_oauth_cleartext. cbn [set_api_cleartext ProviderConfig.auth_mode].
  destruct (ProviderConfig.auth_mode p) eqn:E; cbn; by rewrite ?E.
Qed.

(** The key a target of a refreshed provider is called with. *)
Lemma refreshed_key enc p plain :
  column_cleartext decrypt_api_key enc (encrypted_api_key p) = Some plain ->
  target_api_key (with_cleartexts enc p)
  = match ProviderConfig.auth_mode p with ApiKeyAuth => plain | _ => "" end.
Proof using.
  intros Hc. destruct (refreshed_same enc p) as (_ & _ & _ & Hm & _ & _ & He & Ha). rewrite Hc in Ha.
  rewrite (clear_key_target _ plain Ha), Hm; [done|]. rewrite He. by apply (column_empty_clear _ _ _ _ Hc).
Qed.

Lemma refreshed_oauth enc p :
  oauth_meta_cleartext p = None ->
  oauth_meta_cleartext (with_cleartexts enc p)
  = match ProviderConfig.auth_mode p with
    | OAuthAuth => column_cleartext decrypt_oauth_meta enc (encrypted_oauth_meta p)
    | _ => None
    end.
Proof using.
  intros Ho. unfold with_cleartexts, populate_provider_oauth_cleartext. cbn [set_api_cleartext ProviderConfig.auth_mode].
  by destruct (ProviderConfig.auth_mode p).
Qed.

Definition or_empty (r : result StoreError string) : string := match r with Ok x => x | Err _ => "" end.

Context (nonce : string -> string -> string) (Hnonce : forall purpose k, String.length (nonce purpose k) = NONCE_LEN).
Context (now : Z) (Hnow : four_digit_year now = true).

(** The columns of a provider at the target. *)
Definition api_column (p : Provider) : string :=
  or_empty (recode_secret encryption decrypt_api_key encrypt_api_key source
              (nonce PURPOSE_PROVIDER_API_KEY (ProviderConfig.id p)) (encrypted_api_key p)).
Definition oauth_column (p : Provider) : string :=
  or_empty (recode_secret encryption decrypt_oauth_meta encrypt_oauth_meta source
              (nonce PURPOSE_OAUTH_REFRESH_TOKEN (ProviderConfig.id p)) (encrypted_oauth_meta p)).
Definition usage_key_column (p : Provider) : string :=
  or_empty (recode_secret encryption decrypt_usage_management_key encrypt_usage_management_key source
              (nonce PURPOSE_USAGE_MANAGEMENT_KEY (ProviderConfig.id p)) (encrypted_usage_management_key p)).

Definition provider_row (p : Provider) : ProviderRow :=
  imported_provider (to_rfc3339 now) p (api_column p) (oauth_column p) (usage_key_column p)
    (to_rfc3339 (created_at p)).

Lemma import_provider_fresh m p :
  portable p -> m !! ProviderConfig.id p = None ->
  import_provider encryption source nonce (to_rfc3339 now) m p
  = Ok (<[ProviderConfig.id p := provider_row p]> m, true).
Proof using CryptoLaws0 Hseals Hnonce.
  intros [(ap & Ha & Hau) (op & Ho & Hou) (up & Hu & Huu) Hm _ _] Hfree.
  unfold import_provider, provider_row, api_column, oauth_column, usage_key_column. rewrite Hm, Hfree.
  destruct (recoded_api encryption source (nonce PURPOSE_PROVIDER_API_KEY (ProviderConfig.id p)) _ _
              Hseals (Hnonce _ _) Hau Ha) as (x & Hx & _).
  destruct (recoded_oauth encryption source (nonce PURPOSE_OAUTH_REFRESH_TOKEN (ProviderConfig.id p)) _ _
              Hseals (Hnonce _ _) Hou Ho) as (y & Hy & _).
  destruct (recoded_usage encryption source (nonce PURPOSE_USAGE_MANAGEMENT_KEY (ProviderConfig.id p)) _ _
              Hseals (Hnonce _ _) Huu Hu) as (z & Hz & _).
  by rewrite Hx, Hy, Hz.
Qed.

Lemma mode_roundtrip m : AuthMode.parse (AuthMode.as_str m) = Some m.
Proof using. by destruct m. Qed.

(** The provider that is read from the row of the import. *)
Lemma read_provider_row pid row p :
  row_to_provider pid row = Ok p -> portable p ->
  exists q, row_to_provider pid (provider_row p) = Ok q
    /\ ProviderConfig.id p = pid /\ ProviderConfig.id q = pid
    /\ ProviderConfig.vendor q = ProviderConfig.vendor p
    /\ ProviderConfig.api_base q = ProviderConfig.api_base p
    /\ ProviderConfig.auth_mode q = ProviderConfig.auth_mode p /\ metadata_json q = metadata_json p
    /\ ProviderConfig.enabled q = ProviderConfig.enabled p
    /\ encrypted_api_key q = api_column p /\ encrypted_oauth_meta q = oauth_column p
    /\ oauth_meta_cleartext q = None /\ oauth_meta_cleartext p = None.
Proof using SerdeJsonLaws0 ChronoLaws0 Hempty Hnow.
  intros Hr [_ _ _ _ Hj Hc]. pose proof (row_to_provider_id _ _ _ Hr) as Hi.
  assert (oauth_meta_cleartext p = None) as Ho.
  { revert Hr. unfold row_to_provider. read_fields. by intros [= <-]. }
  eexists. split.
  - unfold row_to_provider, provider_row, imported_provider. cbn [row_auth_mode row_metadata row_created_at row_updated_at].
    rewrite mode_roundtrip, (text_nonempty Hempty), (from_to_string _ Hj) by done. cbn [mbind result_bind].
    unfold parse_dt. rewrite !parse_to_rfc3339 by done. cbn [mbind result_bind]. reflexivity.
  - cbn. destruct (ProviderConfig.enabled p); by split_and!.
Qed.

Lemma provider_restored pid row p :
  row_to_provider pid row = Ok p -> portable p ->
  exists q, fresh_provider encryption pid (provider_row p) = Some q /\ alike (with_cleartexts source p) q.
Proof using SerdeJsonLaws0 ChronoLaws0 CryptoLaws0 Hempty Hnow Hseals Hnonce.
  intros Hr Hp. destruct (read_provider_row pid row p Hr Hp)
    as (q & Hq & Hip & Hi & Hv & Hb & Hm & Hj & He & Hea & Heo & Hoq & Hop).
  destruct Hp as [(ap & Ha & Hau) (op & Ho & Hou) _ _ _ _].
  destruct (recoded_api encryption source (nonce PURPOSE_PROVIDER_API_KEY (ProviderConfig.id p)) _ _
              Hseals (Hnonce _ _) Hau Ha) as (x & Hx & Hxc & Hxe).
  destruct (recoded_oauth encryption source (nonce PURPOSE_OAUTH_REFRESH_TOKEN (ProviderConfig.id p)) _ _
              Hseals (Hnonce _ _) Hou Ho) as (y & Hy & Hyc & _).
  assert (encrypted_api_key q = x) as Hqx.
  { rewrite Hea. unfold api_column. by rewrite Hx. }
  assert (encrypted_oauth_meta q = y) as Hqy.
  { rewrite Heo. unfold oauth_column. by rewrite Hy. }
  exists (with_cleartexts encryption q). split; [unfold fresh_provider; by rewrite Hq|].
  destruct (refreshed_same source p) as (Sp1 & Sp2 & Sp3 & Sp4 & Sp5 & Sp6 & _).
  destruct (refreshed_same encryption q) as (Sq1 & Sq2 & Sq3 & Sq4 & Sq5 & Sq6 & _).
  split; rewrite ?Sp1, ?Sp2, ?Sp3, ?Sp4, ?Sp5, ?Sp6, ?Sq1, ?Sq2, ?Sq3, ?Sq4, ?Sq5, ?Sq6; try congruence.
  - rewrite (refreshed_key source p ap) by exact Ha.
    rewrite (refreshed_key encryption q ap) by (rewrite Hqx; exact Hxc). by rewrite Hm.
  - rewrite !refreshed_oauth, Hm, Hqy by done. destruct (ProviderConfig.auth_mode p); try done.
    by rewrite Ho, Hyc.
Qed.
End Provider.

(** ** Tables after their journey *)

Lemma chosen_all {A} (key : A -> string) l x : x ∈ l -> chosen (map key l) (key x) = true.
Proof.
  intros Hx. apply existsb_exists. exists (key x). split; [|apply String.eqb_refl].
  apply in_map, list_elem_of_In, Hx.
Qed.

Section Loaded.
Context {A R B : Type} (f : string -> R -> result StoreError A) (key : A -> string) (row : A -> B).
Context (step : gmap string B -> A -> result StoreError (gmap string B * bool)) (free : gmap string B -> A -> Prop).

(** The import, into an empty table, of everything that was read from one. *)
Lemma import_loaded (tbl : gmap string R) l :
  read_all f (map_to_list tbl) = Ok l ->
  (forall k r x, f k r = Ok x -> key x = k) ->
  (forall x, x ∈ l -> free ∅ x) ->
  (forall m x y, x ∈ l -> y ∈ l -> key x <> key y -> free m y -> free (<[key x := row x]> m) y) ->
  (forall m x, x ∈ l -> free m x -> step m x = Ok (<[key x := row x]> m, true)) ->
  exists m, import_all (fun x => chosen (map key l) (key x)) step l ∅ (0, 0)%nat = Ok (m, (length l, 0)%nat)
    /\ forall k, m !! k = r ← tbl !! k; match f k r with Ok x => Some (row x) | Err _ => None end.
Proof.
  intros Hl Hkey Hfree Hkeep Hstep. pose proof (read_all_nodup f key tbl l Hkey Hl) as Hd.
  destruct (import_all_fresh (fun x => chosen (map key l) (key x)) step key row free l ∅ (0, 0)%nat
              (chosen_all key l) Hd Hfree Hkeep Hstep) as (m & Hm & Hin & Hout).
  exists m. split; [rewrite Hm; cbn; do 3 f_equal; lia|]. intros k.
  pose proof (read_all_in f tbl l Hl) as Hrd. destruct (tbl !! k) as [r|] eqn:E; cbn.
  - assert (exists x, f k r = Ok x) as [x Hx].
    { apply read_all_spec in Hl. apply elem_of_map_to_list, list_elem_of_lookup in E as [i Hi].
      destruct (Forall2_lookup_l _ _ _ _ _ Hl Hi) as (x & _ & Hx). by exists x. }
    rewrite Hx, <- (Hkey _ _ _ Hx). apply Hin, Hrd. by exists k, r.
  - rewrite Hout; [done|]. intros (x & -> & (k' & r & Hr & Hf)%Hrd)%list_elem_of_fmap.
    rewrite (Hkey _ _ _ Hf), Hr in E. done.
Qed.
End Loaded.

Section Routes.
Context `{J : SerdeJson} `{T : Chrono} `{!ChronoLaws T} `{R : RouteSerde} `{!RouteSerdeLaws R} `{C : Crypto}.
Context (now : Z) (Hnow : four_digit_year now = true).

(** A route whose times and metadata can be written. *)
Record portable_route (r : Route) : Prop := {
  pr_created : four_digit_year (ro_created_at r) = true;
  pr_metadata : deserialize_model_metadata (serialize_model_metadata (ro_metadata r)) = Ok (ro_metadata r);
}.

Definition route_row (r : Route) : RouteRow := imported_route (to_rfc3339 now) r (to_rfc3339 (ro_created_at r)).

Lemma read_route_row rid row r :
  row_to_route rid row = Ok r -> portable_route r ->
  row_to_route rid (route_row r) = Ok (set_targets (ro_targets r) now r).
Proof using ChronoLaws0 Hnow RouteSerdeLaws0.
  intros Hr [Hc Hm]. pose proof (row_to_route_id _ _ _ Hr) as Hi.
  assert (finite_weights (ro_targets r) = true) as Hf.
  { revert Hr. unfold row_to_route. destruct (targets_from_str (rr_targets row)) as [|l] eqn:E; [done|].
    cbn [mbind result_bind]. read_fields. intros [= <-]. by apply targets_finite in E. }
  unfold row_to_route, route_row, imported_route.
  cbn [rr_targets rr_metadata rr_created_at rr_updated_at rr_strategy rr_virtual_model rr_enabled].
  rewrite targets_roundtrip, Hm by done. cbn [mbind result_bind]. unfold parse_dt.
  rewrite !parse_to_rfc3339 by done. cbn [mbind result_bind]. unfold set_targets. rewrite Hi.
  destruct r as [? ? ? st ? en ? ?]; cbn in *. destruct st as [st|]; cbn; [rewrite strategy_name_roundtrip|];
    by destruct en.
Qed.
End Routes.

Section Keys.
Context `{J : SerdeJson} `{!SerdeJsonLaws J} `{T : Chrono} `{!ChronoLaws T}.
Context (Hempty : from_str "" = None) (now : Z) (Hnow : four_digit_year now = true).

Record portable_key (k : ApiKey) : Prop := {
  pk_quota : exact (quota_json k) = true;
  pk_created : four_digit_year (ak_created_at k) = true;
  pk_models : normalize_allowed_models (allowed_models k) = Ok (allowed_models k);
}.

Definition key_row (k : ApiKey) : KeyRow :=
  imported_key (to_rfc3339 now) k (allowed_models k) (to_rfc3339 (ak_created_at k)).

(** The key with the time of the import. *)
Definition touched (k : ApiKey) : ApiKey :=
  made_key (ak_id k) (ak_name k) (key_hash k) (quota_json k) (allowed_models k) (ak_status k) (ak_created_at k) now.

Lemma read_key_row kid k :
  ak_id k = kid -> portable_key k -> row_to_api_key kid (key_row k) = Ok (touched k).
Proof using SerdeJsonLaws0 ChronoLaws0 Hempty Hnow.
  intros <- [Hq Hc _]. unfold touched.
  rewrite <- (read_made_row Hempty (ak_id k) (ak_name k) (key_hash k)) by done. reflexivity.
Qed.

Lemma row_to_api_key_same kid row k : row_to_api_key kid row = Ok k -> ak_id k = kid /\ key_hash k = kr_hash row.
Proof using. unfold row_to_api_key. read_fields. by intros [= <-]. Qed.

Lemma read_rows_all l : read_rows l = read_all row_to_api_key l.
Proof using. induction l as [|[i r] l IH]; [done|]. cbn. by rewrite IH. Qed.
End Keys.

Section Settings.
Context `{C : Crypto} `{!CryptoLaws C}.
Context (source encryption : option KeyEncryption) (Hseals : seals encryption).
Context (nonce : string -> string -> string) (Hnonce : forall purpose k, String.length (nonce purpose k) = NONCE_LEN).

(** What the column of an encrypted setting stands for. *)
Definition reads_setting (enc : option KeyEncryption) (column plain : string) : Prop :=
  match enc with Some enc => decrypt_settings enc column = Ok plain | None => column = plain end.

Lemma recoded_setting key column plain :
  reads_setting source column plain -> sealable plain = true ->
  exists column',
    recode encryption decrypt_settings encrypt_settings source (nonce PURPOSE_SETTINGS key) column = Ok column'
    /\ reads_setting encryption column' plain.
Proof using CryptoLaws0 Hseals Hnonce.
  intros Hr Hs. unfold recode.
  assert ((match source with
           | Some src => match decrypt_settings src column with
                         | Ok plain => Ok plain
                         | Err e => Err (Decrypt (encryption_error_text e))
                         end
           | None => Ok column
           end : result StoreError string) = Ok plain) as ->.
  { destruct source as [src|]; cbn in Hr; [by rewrite Hr|by subst]. }
  cbn [mbind result_bind]. unfold column_of, reads_setting, encrypt_settings, decrypt_settings.
  destruct encryption as [enc|]; [|by exists plain].
  destruct (Hseals enc PURPOSE_SETTINGS (nonce PURPOSE_SETTINGS key) plain eq_refl Hs) as [blob Hb].
  exists blob. rewrite Hb. split; [done|]. apply andb_true_iff in Hs as [Hu _].
  by apply (decrypt_of_encrypt _ _ (nonce PURPOSE_SETTINGS key)).
Qed.

Definition portable_setting (key value : string) : Prop :=
  is_encrypted_key key = true -> exists plain, reads_setting source value plain /\ sealable plain = true.

Definition setting_value (s : ExportSetting) : string :=
  if es_encrypted s then
    or_empty (recode encryption decrypt_settings encrypt_settings source
                (nonce PURPOSE_SETTINGS (es_key s)) (es_value s))
  else es_value s.

Lemma import_setting_fresh now m key value :
  portable_setting key value ->
  import_setting encryption source nonce now m (export_setting (key, value))
  = Ok (<[key := (setting_value (export_setting (key, value)), now)]> m, true).
Proof using CryptoLaws0 Hseals Hnonce.
  intros Hp. unfold import_setting, setting_value, export_setting. cbn [es_encrypted es_key es_value fst snd].
  destruct (is_encrypted_key key) eqn:E; [|done]. destruct (Hp E) as (plain & Hr & Hs).
  destruct (recoded_setting key value plain Hr Hs) as (x & Hx & _). by rewrite Hx.
Qed.

(** The settings of a bundle, in an empty table. *)
Lemma settings_restored now (t : gmap string (string * string)) :
  (forall key v, t !! key = Some v -> portable_setting key (fst v)) ->
  let l := map export_setting (sort_by (fun a b => text_le (fst a) (fst b))
                                 (map (fun kv => (fst kv, fst (snd kv))) (map_to_list t))) in
  exists m n, import_all (fun s => chosen (map es_key l) (es_key s)) (import_setting encryption source nonce now)
                l ∅ (0, 0)%nat = Ok (m, n)
    /\ forall key, m !! key = (fun v => (setting_value (export_setting (key, fst v)), now)) <$> t !! key.
Proof using CryptoLaws0 Hseals Hnonce.
  intros Hp l. set (kvs := map (fun kv => (fst kv, fst (snd kv))) (map_to_list t)).
  assert (l ≡ₚ map export_setting kvs) as Hperm by (unfold l; by rewrite sort_by_perm).
  assert (forall s, s ∈ l <-> exists key v, t !! key = Some v /\ s = export_setting (key, fst v)) as Hin.
  { intros s. rewrite Hperm, list_elem_of_fmap. split.
    - intros (kv & -> & ([key v] & -> & Hv)%list_elem_of_fmap). exists key, v.
      by apply elem_of_map_to_list in Hv.
    - intros (key & v & Hv & ->). exists (key, fst v). split; [done|]. apply list_elem_of_fmap.
      exists (key, v). split; [done|]. by apply elem_of_map_to_list. }
  assert (NoDup (map es_key l)) as Hd.
  { rewrite (Permutation_map es_key Hperm). unfold kvs. rewrite !map_map. cbn. apply NoDup_fst_map_to_list. }
  destruct (import_all_fresh (fun s => chosen (map es_key l) (es_key s)) (import_setting encryption source nonce now)
              es_key (fun s => (setting_value s, now)) (fun _ _ => True) l ∅ (0, 0)%nat
              (chosen_all es_key l) Hd) as (m & Hm & Hrow & Hout); try done.
  { intros m s (key & v & Hv & ->)%Hin _. by apply import_setting_fresh, Hp. }
  exists m. eexists. split; [exact Hm|]. intros key. destruct (t !! key) as [v|] eqn:E; cbn.
  - apply (Hrow (export_setting (key, fst v))). apply Hin. by exists key, v.
  - rewrite Hout; [done|]. intros (s & -> & (key' & v & Hv & ->)%Hin)%list_elem_of_fmap. cbn in E. by rewrite Hv in E.
Qed.
End Settings.

Definition stamped (now : string) (x : DayStats) : DayStats :=
  {| request_count := request_count x; total_tokens := total_tokens x; prompt_tokens := prompt_tokens x;
     completion_tokens := completion_tokens x; reasoning_tokens := reasoning_tokens x;
     total_cost := total_cost x; peak_single_request := peak_single_request x;
     longest_task_ms := longest_task_ms x; stats_updated_at := now |}.

(** The days of a bundle, in an empty table. *)
Lemma days_restored now (t : gmap string DayStats) :
  let l := export_token_daily_stats t in
  exists n, import_all (fun d => chosen (map fst l) (fst d)) (import_day now) l ∅ (0, 0)%nat
            = Ok (stamped now <$> t, n).
Proof.
  intros l. assert (l ≡ₚ map_to_list t) as Hperm by (unfold l, export_token_daily_stats; by rewrite sort_by_perm).
  assert (NoDup (map fst l)) as Hd.
  { rewrite (Permutation_map fst Hperm). apply NoDup_fst_map_to_list. }
  destruct (import_all_fresh (fun d => chosen (map fst l) (fst d)) (import_day now)
              fst (fun d => stamped now (snd d)) (fun m d => m !! fst d = None) l ∅ (0, 0)%nat
              (chosen_all fst l) Hd) as (m & Hm & Hrow & Hout).
  - done.
  - intros m x y _ _ Hne Hy. by rewrite lookup_insert_ne.
  - intros m [day x] _ Hf. unfold import_day, merge_day. cbn in Hf. by rewrite Hf.
  - eexists. rewrite Hm. do 2 f_equal. f_equal. apply map_eq. intros day. rewrite lookup_fmap.
    destruct (t !! day) as [x|] eqn:E; cbn.
    + apply (Hrow (day, x)). rewrite Hperm. by apply elem_of_map_to_list.
    + rewrite Hout; [done|]. intros ([d x] & -> & Hx)%list_elem_of_fmap. rewrite Hperm in Hx.
      apply elem_of_map_to_list in Hx. cbn in E. by rewrite Hx in E.
Qed.

Lemma sql_sum_perm l l' : l ≡ₚ l' -> sql_sum l = sql_sum l'.
Proof.
  intros Hp. unfold sql_sum. assert (foldr Z.add 0%Z l = foldr Z.add 0%Z l') as ->; [|done].
  induction Hp; cbn; lia.
Qed.

Lemma column_stamped f now m :
  (forall x, f (stamped now x) = f x) -> column f (stamped now <$> m) ≡ₚ column f m.
Proof.
  intros Hf. unfold column. rewrite map_to_list_fmap, <- list_fmap_compose.
  apply Permutation_refl'. apply list_fmap_ext. intros i [d x] _. apply Hf.
Qed.

Lemma summary_stamped `{Calendar} today now1 now2 now3 m x :
  recompute_summary today now1 m = Ok x -> exists y, recompute_summary today now2 (stamped now3 <$> m) = Ok y.
Proof.
  unfold recompute_summary.
  rewrite (sql_sum_perm _ _ (column_stamped total_tokens now3 m (fun _ => eq_refl))).
  rewrite (sql_sum_perm _ _ (column_stamped total_cost now3 m (fun _ => eq_refl))).
  destruct (sql_sum (column total_tokens m)); [|done]. destruct (sql_sum (column total_cost m)); [|done].
  cbn [mbind result_bind]. intros _. destruct (compute_streaks today (stamped now3 <$> m)). by eexists.
Qed.

(** ** A gateway restored from a bundle *)

Section Restore.
Context `{J : SerdeJson} `{!SerdeJsonLaws J} `{T : Chrono} `{!ChronoLaws T} `{R : RouteSerde} `{!RouteSerdeLaws R}.
Context `{C : Crypto} `{!CryptoLaws C} `{Cal : Calendar} `{OAuthCrates} `{TextCrates}.
Context (Hempty : from_str "" = None).
Context (registered : list Providers.Provider) (source encryption : option KeyEncryption).
Context (Hseals : seals encryption).
Context (nonce : string -> string -> string) (Hnonce : forall purpose k, String.length (nonce purpose k) = NONCE_LEN).
Context (today now : Z) (overflow : string) (Hnow : four_digit_year now = true).

(** A configuration that can be carried to another gateway: every row can be
    read, every secret opened, and what is read can be written. *)
Record restorable (d : Db) : Prop := {
  re_providers pid row : t_providers (tables (db_store d)) !! pid = Some row ->
    exists p, row_to_provider pid row = Ok p /\ portable source p;
  re_routes rid row : t_routes (tables (db_store d)) !! rid = Some row ->
    exists r, row_to_route rid row = Ok r /\ portable_route r;
  re_models : distinct_models (t_routes (tables (db_store d)));
  re_keys kid row : t_keys (tables (db_store d)) !! kid = Some row ->
    exists k, row_to_api_key kid row = Ok k /\ portable_key k;
  re_hashes : distinct_hashes (t_keys (tables (db_store d)));
  re_settings key v : t_settings (tables (db_store d)) !! key = Some v -> portable_setting source key (fst v);
  re_days : exists sum, recompute_summary today (to_rfc3339 now) (daily (db_stats d)) = Ok sum;
}.

(** A database after the migrations. *)
Definition empty_db (d : Db) : Prop :=
  let t := tables (db_store d) in
  t_providers t = ∅ /\ t_routes t = ∅ /\ t_keys t = ∅ /\ t_settings t = ∅ /\ daily (db_stats d) = ∅.

Definition everything (data : ConfigExport) : ImportSelection :=
  {| is_providers := map ProviderConfig.id (ce_providers data); is_routes := map ro_id (ce_routes data);
     is_api_keys := map ak_id (ce_api_keys data); is_settings := map es_key (ce_settings data);
     is_token_stats := map fst (ce_token_daily_stats data) |}.

(** A row that was read, carried and written. *)
Definition carried {A X B} (f : string -> X -> result StoreError A) (row : A -> B) (tbl : gmap string X) (k : string)
    : option B :=
  r ← tbl !! k; match f k r with Ok x => Some (row x) | Err _ => None end.

(** The tables of the target, row by row. *)
Record arrived (d : Db) (t : Tables) (s : Stats) : Prop := {
  ar_providers k : t_providers t !! k
    = carried row_to_provider (provider_row source encryption nonce now) (t_providers (tables (db_store d))) k;
  ar_routes k : t_routes t !! k = carried row_to_route (route_row now) (t_routes (tables (db_store d))) k;
  ar_keys k : t_keys t !! k = carried row_to_api_key (key_row now) (t_keys (tables (db_store d))) k;
  ar_settings k : t_settings t !! k
    = (fun v => (setting_value source encryption nonce (export_setting (k, fst v)), to_rfc3339 now))
        <$> t_settings (tables (db_store d)) !! k;
  ar_days : daily s = stamped (to_rfc3339 now) <$> daily (db_stats d);
}.

Lemma loaded_clear t ps p : load_providers t = Ok ps -> p ∈ ps -> clear_cleartexts p = p.
Proof using.
  intros Hl Hp. apply (read_all_in _ _ _ Hl) in Hp as (k & r & _ & Hr). revert Hr.
  unfold row_to_provider. read_fields. by intros [= <-].
Qed.

Lemma export_succeeds d at_ :
  restorable d ->
  exists ps rs ks,
    load_providers (tables (db_store d)) = Ok ps /\ load_routes (tables (db_store d)) = Ok rs
    /\ read_all row_to_api_key (map_to_list (t_keys (tables (db_store d)))) = Ok ks
    /\ export_config source at_ d
       = Ok {| ce_schema_version := 2; ce_exported_at := to_rfc3339 at_;
               ce_encrypted := match source with Some _ => true | None => false end;
               ce_providers := ps; ce_routes := rs; ce_api_keys := ks;
               ce_settings := map export_setting (list_settings (tables (db_store d)));
               ce_token_daily_stats := export_token_daily_stats (daily (db_stats d)) |}.
Proof using.
  intros [Hp Hr _ Hk _ _ _].
  destruct (read_all_ok row_to_provider (map_to_list (t_providers (tables (db_store d))))) as [ps Hps].
  { intros k r Hkr%elem_of_map_to_list. destruct (Hp _ _ Hkr) as (p & ? & _). by exists p. }
  destruct (read_all_ok row_to_route (map_to_list (t_routes (tables (db_store d))))) as [rs Hrs].
  { intros k r Hkr%elem_of_map_to_list. destruct (Hr _ _ Hkr) as (p & ? & _). by exists p. }
  destruct (read_all_ok row_to_api_key (map_to_list (t_keys (tables (db_store d))))) as [ks Hks].
  { intros k r Hkr%elem_of_map_to_list. destruct (Hk _ _ Hkr) as (p & ? & _). by exists p. }
  exists ps, rs, ks. split; [done|]. split; [done|]. split; [done|].
  unfold export_config, load_providers, load_routes, list_api_keys. rewrite Hps, Hrs, read_rows_all, Hks.
  cbn [mbind result_bind]. assert (map clear_cleartexts ps = ps) as ->; [|done].
  assert (forall p, p ∈ ps -> clear_cleartexts p = p) as Hc by (intros p; by apply (loaded_clear (tables (db_store d)))).
  clear -Hc. induction ps as [|p ps IH]; [done|]. cbn. rewrite Hc by left. f_equal. apply IH.
  intros q Hq. apply Hc. by right.
Qed.

Lemma providers_arrive d ps :
  restorable d -> load_providers (tables (db_store d)) = Ok ps ->
  exists m, import_all (fun p => chosen (map ProviderConfig.id ps) (ProviderConfig.id p))
              (import_provider encryption source nonce (to_rfc3339 now)) ps ∅ (0, 0)%nat = Ok (m, (length ps, 0)%nat)
    /\ forall k, m !! k = carried row_to_provider (provider_row source encryption nonce now)
                            (t_providers (tables (db_store d))) k.
Proof using CryptoLaws0 Hseals Hnonce.
  intros Hd Hl. assert (forall p, p ∈ ps -> portable source p) as Hport.
  { intros p (k & r & Hr & Hp)%(read_all_in _ _ _ Hl). destruct (re_providers _ Hd _ _ Hr) as (q & Hq & Hport).
    rewrite Hp in Hq. by injection Hq as ->. }
  apply (import_loaded row_to_provider ProviderConfig.id (provider_row source encryption nonce now) _
           (fun m p => m !! ProviderConfig.id p = None) _ ps Hl row_to_provider_id).
  - done.
  - intros m x y _ _ Hne Hy. by rewrite lookup_insert_ne.
  - intros m p Hp Hf. apply import_provider_fresh; auto.
Qed.

Lemma routes_arrive d rs :
  load_routes (tables (db_store d)) = Ok rs ->
  exists m, import_all (fun r => chosen (map ro_id rs) (ro_id r)) (import_route (to_rfc3339 now)) rs ∅ (0, 0)%nat
              = Ok (m, (length rs, 0)%nat)
    /\ forall k, m !! k = carried row_to_route (route_row now) (t_routes (tables (db_store d))) k.
Proof using.
  intros Hl. apply (import_loaded row_to_route ro_id (route_row now) _ (fun m r => m !! ro_id r = None) _ rs Hl
                      row_to_route_id).
  - done.
  - intros m x y _ _ Hne Hy. by rewrite lookup_insert_ne.
  - intros m r _ Hf. unfold import_route. by rewrite Hf.
Qed.

Lemma keys_arrive d ks :
  restorable d -> read_all row_to_api_key (map_to_list (t_keys (tables (db_store d)))) = Ok ks ->
  exists m, import_all (fun k => chosen (map ak_id ks) (ak_id k)) (import_key 2 (to_rfc3339 now)) ks ∅ (0, 0)%nat
              = Ok (m, (length ks, 0)%nat)
    /\ forall k, m !! k = carried row_to_api_key (key_row now) (t_keys (tables (db_store d))) k.
Proof using.
  intros Hd Hl. pose proof (read_all_in _ _ _ Hl) as Hin.
  apply (import_loaded row_to_api_key ak_id (key_row now) _
           (fun m k => m !! ak_id k = None /\ row_with_hash m (key_hash k) = None) _ ks Hl).
  - intros k r x Hx. by apply row_to_api_key_same in Hx as [].
  - intros x _. split; [done|]. apply row_with_hash_none. intros i r Hi. by rewrite lookup_empty in Hi.
  - intros m x y (i & r & Hr & Hx)%Hin (j & q & Hq & Hy)%Hin Hne [Hf Hh]. rewrite lookup_insert_ne by done.
    split; [done|]. apply row_with_hash_none. intros k z Hz.
    apply lookup_insert_Some in Hz as [[_ <-]|[_ Hz]]; [|by eapply row_with_hash_none].
    cbn. intros He. apply row_to_api_key_same in Hx as [Hix Hhx], Hy as [Hiy Hhy].
    apply Hne. rewrite Hix, Hiy. apply (re_hashes _ Hd i j r q Hr Hq). congruence.
  - intros m k (i & r & Hr & Hk)%Hin [Hf Hh]. unfold import_key. rewrite Hh, Hf. cbn [Z.leb].
    destruct (re_keys _ Hd _ _ Hr) as (k' & Hk' & [_ _ Hm]). rewrite Hk in Hk'. injection Hk' as <-.
    change (2 <=? 2)%Z with true. cbn iota. by rewrite Hm.
Qed.

(** The transaction of the import succeeds, and every row arrives. *)
Lemma transaction_succeeds d at_ data t0 s0 :
  restorable d -> export_config source at_ d = Ok data ->
  t_providers t0 = ∅ -> t_routes t0 = ∅ -> t_keys t0 = ∅ -> t_settings t0 = ∅ -> daily s0 = ∅ ->
  exists t s report,
    import_transaction encryption nonce today (to_rfc3339 now) overflow source data (everything data) t0 s0
    = Ok (t, s, report) /\ arrived d t s.
Proof using CryptoLaws0 Hseals Hnonce.
  intros Hd He Ht1 Ht2 Ht3 Ht4 Hs0. destruct (export_succeeds d at_ Hd) as (ps & rs & ks & Hps & Hrs & Hks & Hx).
  rewrite Hx in He. injection He as <-. unfold import_transaction, everything.
  cbn [ce_providers ce_routes ce_api_keys ce_settings ce_token_daily_stats ce_schema_version
       is_providers is_routes is_api_keys is_settings is_token_stats].
  rewrite Ht1, Ht2, Ht3, Ht4, Hs0.
  destruct (providers_arrive d ps Hd Hps) as (m1 & -> & H1). destruct (routes_arrive d rs Hrs) as (m2 & -> & H2).
  destruct (keys_arrive d ks Hd Hks) as (m3 & -> & H3).
  destruct (settings_restored source encryption Hseals nonce Hnonce (to_rfc3339 now)
              (t_settings (tables (db_store d))) (re_settings _ Hd)) as (m4 & n4 & Hm4 & H4).
  destruct (days_restored (to_rfc3339 now) (daily (db_stats d))) as (n5 & Hm5).
  cbn [mbind result_bind]. unfold list_settings. rewrite Hm4. cbn [mbind result_bind]. rewrite Hm5.
  cbn [mbind result_bind fst snd]. destruct (re_days _ Hd) as [sum Hsum].
  destruct (summary_stamped today _ (to_rfc3339 now) (to_rfc3339 now) _ _ Hsum) as [sum' Hsum'].
  destruct (0 <? fst n5)%nat; [rewrite Hsum'|]; cbn [mbind result_bind];
    do 3 eexists; (split; [reflexivity|]); by split.
Qed.

(** *** What the two gateways make of their tables *)

Context (d : Db) (t : Tables) (s : Stats) (Hd : restorable d) (Ha : arrived d t s).

Definition alike_options (o o' : option Provider) : Prop :=
  match o, o' with
  | Some p, Some q => alike p q
  | None, None => True
  | _, _ => False
  end.

Lemma providers_alike pid :
  alike_options (current_providers source (tables (db_store d)) !! pid) (current_providers encryption t !! pid).
Proof using SerdeJsonLaws0 ChronoLaws0 CryptoLaws0 Hempty Hnow Hseals Hnonce Hd Ha.
  unfold current_providers. rewrite !map_lookup_imap, (ar_providers _ _ _ Ha). unfold carried.
  destruct (t_providers (tables (db_store d)) !! pid) as [row|] eqn:E; [|done]. cbn [mbind option_bind].
  destruct (re_providers _ Hd _ _ E) as (p & Hp & Hport). rewrite Hp.
  destruct (provider_restored Hempty source encryption Hseals nonce Hnonce now Hnow pid row p Hp Hport)
    as (q & Hq & Hal).
  assert (fresh_provider source pid row = Some (with_cleartexts source p)) as Hs
    by (unfold fresh_provider; by rewrite Hp).
  unfold alike_options. cbn [mbind option_bind]. by rewrite Hs, Hq.
Qed.

Lemma chain_same x :
  chain_target registered (current_providers source (tables (db_store d))) x
  = chain_target registered (current_providers encryption t) x.
Proof using SerdeJsonLaws0 ChronoLaws0 CryptoLaws0 Hempty Hnow Hseals Hnonce Hd Ha.
  unfold chain_target, live_provider. pose proof (providers_alike (rt_provider_id x)) as Hal.
  destruct (current_providers source _ !! _) as [p|], (current_providers encryption t !! _) as [q|]; try done.
  cbn in Hal. rewrite (al_enabled _ _ Hal). destruct (rt_enabled x); [|done].
  destruct (ProviderConfig.enabled q); [|done]. cbn. by rewrite (alike_target registered _ _ _ Hal).
Qed.

Lemma entry_same r :
  route_entry registered (current_providers source (tables (db_store d))) r
  = route_entry registered (current_providers encryption t) (set_targets (ro_targets r) now r).
Proof using SerdeJsonLaws0 ChronoLaws0 CryptoLaws0 Hempty Hnow Hseals Hnonce Hd Ha.
  unfold route_entry. cbn [set_targets ro_enabled ro_targets ro_strategy]. destruct (ro_enabled r); [|done].
  assert (omap (chain_target registered (current_providers source (tables (db_store d)))) (ro_targets r)
          = omap (chain_target registered (current_providers encryption t)) (ro_targets r)) as ->; [|done].
  induction (ro_targets r) as [|x l IH]; [done|]. cbn. by rewrite chain_same, IH.
Qed.

Lemma route_same rid :
  get_route t rid = match get_route (tables (db_store d)) rid with
                    | Ok (Some r) => Ok (Some (set_targets (ro_targets r) now r))
                    | _ => Ok None
                    end.
Proof using ChronoLaws0 RouteSerdeLaws0 Hnow Hd Ha.
  unfold get_route. rewrite (ar_routes _ _ _ Ha). unfold carried.
  destruct (t_routes (tables (db_store d)) !! rid) as [row|] eqn:E; [|done]. cbn.
  destruct (re_routes _ Hd _ _ E) as (r & Hr & Hport). rewrite Hr. cbn.
  by rewrite (read_route_row now Hnow rid row r Hr Hport).
Qed.

Lemma serves_same r e :
  serves registered source (tables (db_store d)) r e
  <-> serves registered encryption t (set_targets (ro_targets r) now r) e.
Proof using SerdeJsonLaws0 ChronoLaws0 CryptoLaws0 Hempty Hnow Hseals Hnonce Hd Ha.
  by rewrite <- !route_entry_serves, entry_same.
Qed.

Lemma models_distinct : distinct_models (t_routes t).
Proof using Hd Ha.
  intros i j x y Hi Hj Hm. rewrite (ar_routes _ _ _ Ha) in Hi, Hj. unfold carried in Hi, Hj.
  destruct (t_routes (tables (db_store d)) !! i) as [x0|] eqn:Ei; [|done].
  destruct (t_routes (tables (db_store d)) !! j) as [y0|] eqn:Ej; [|done]. cbn in Hi, Hj.
  destruct (re_routes _ Hd _ _ Ei) as (r & Hr & _), (re_routes _ Hd _ _ Ej) as (q & Hq & _).
  rewrite Hr in Hi. rewrite Hq in Hj. injection Hi as <-. injection Hj as <-. cbn in Hm.
  apply (re_models _ Hd i j x0 y0 Ei Ej).
  by rewrite <- (row_to_route_model _ _ _ Hr), <- (row_to_route_model _ _ _ Hq).
Qed.

(** The published tables of the two gateways agree. *)
Lemma routing_same s1 m :
  coherent registered source (db_store d) -> coherent registered encryption s1 ->
  t_providers (tables s1) = t_providers t -> t_routes (tables s1) = t_routes t ->
  RoutingTable.resolve_entry (routing_table (inner s1)) m
  = RoutingTable.resolve_entry (routing_table (inner (db_store d))) m.
Proof using SerdeJsonLaws0 ChronoLaws0 CryptoLaws0 RouteSerdeLaws0 Hempty Hnow Hseals Hnonce Hd Ha.
  intros Hc Hc1 Hp Hr.
  assert (forall rid, get_route (tables s1) rid = get_route t rid) as Hg by (intros rid; unfold get_route; by rewrite Hr).
  assert (forall r e, serves registered encryption (tables s1) r e <-> serves registered encryption t r e) as Hs
    by (intros r e; unfold serves, current_providers; by rewrite Hp).
  apply option_eq. intros e. split; intros He.
  - destruct (coherent_entry _ _ _ _ _ Hc1 He) as (rid & r' & Hg' & <- & Hs').
    rewrite Hg, route_same in Hg'. destruct (get_route (tables (db_store d)) rid) as [[r|]|] eqn:E; try done.
    injection Hg' as <-. apply Hs, serves_same in Hs'.
    exact (coherent_route _ _ _ _ _ _ Hc (re_models _ Hd) E Hs').
  - destruct (coherent_entry _ _ _ _ _ Hc He) as (rid & r & E & <- & Hsv).
    apply serves_same, Hs in Hsv.
    change (ro_virtual_model r) with (ro_virtual_model (set_targets (ro_targets r) now r)).
    apply (coherent_route _ _ _ rid _ _ Hc1); [rewrite Hr; apply models_distinct| |exact Hsv].
    by rewrite Hg, route_same, E.
Qed.

Lemma tables_readable s0 at_ :
  exists s1, refresh registered encryption at_ {| tables := t; inner := s0 |} = (s1, Ok tt).
Proof using SerdeJsonLaws0 ChronoLaws0 RouteSerdeLaws0 Hempty Hnow Hd Ha.
  assert (exists ps, load_providers t = Ok ps) as [ps Hps].
  { apply read_all_ok. intros k row Hk%elem_of_map_to_list. rewrite (ar_providers _ _ _ Ha) in Hk.
    unfold carried in Hk. destruct (t_providers (tables (db_store d)) !! k) as [x|] eqn:E; [|done]. cbn in Hk.
    destruct (re_providers _ Hd _ _ E) as (p & Hp & Hport). rewrite Hp in Hk. injection Hk as <-.
    destruct (read_provider_row Hempty source encryption nonce now Hnow k x p Hp Hport) as (q & Hq & _).
    by exists q. }
  assert (exists rs, load_routes t = Ok rs) as [rs Hrs].
  { apply read_all_ok. intros k row Hk%elem_of_map_to_list. pose proof (route_same k) as Hg.
    unfold get_route at 1 in Hg. rewrite Hk in Hg. destruct (row_to_route k row) as [r|]; [by exists r|].
    by destruct (get_route (tables (db_store d)) k) as [[|]|]. }
  unfold refresh. cbn [tables]. rewrite Hps, Hrs. eexists. reflexivity.
Qed.

(** A caller's secret finds the same key. *)
Lemma key_same secret :
  find_api_key_by_secret (t_keys t) secret
  = match find_api_key_by_secret (t_keys (tables (db_store d))) secret with
    | Ok (Some k) => Ok (Some (touched now k))
    | _ => Ok None
    end.
Proof using SerdeJsonLaws0 ChronoLaws0 Hempty Hnow Hd Ha.
  assert (forall k x, t_keys t !! k = Some x -> exists row key, t_keys (tables (db_store d)) !! k = Some row
            /\ row_to_api_key k row = Ok key /\ portable_key key /\ x = key_row now key) as Hrow.
  { intros k x Hx. rewrite (ar_keys _ _ _ Ha) in Hx. unfold carried in Hx.
    destruct (t_keys (tables (db_store d)) !! k) as [row|] eqn:E; [|done]. cbn in Hx.
    destruct (re_keys _ Hd _ _ E) as (key & Hk & Hp). rewrite Hk in Hx. injection Hx as <-. by exists row, key. }
  assert (distinct_hashes (t_keys t)) as Hdist.
  { intros i j x y Hi Hj Hh. destruct (Hrow _ _ Hi) as (r1 & k1 & E1 & Hk1 & _ & ->).
    destruct (Hrow _ _ Hj) as (r2 & k2 & E2 & Hk2 & _ & ->). cbn in Hh.
    apply row_to_api_key_same in Hk1 as [_ Hk1], Hk2 as [_ Hk2].
    apply (re_hashes _ Hd i j r1 r2 E1 E2). congruence. }
  unfold find_api_key_by_secret at 2.
  destruct (row_with_hash (t_keys (tables (db_store d))) (hash_api_key secret)) as [[kid row]|] eqn:E.
  - apply row_with_hash_found in E as [E Hh]. destruct (re_keys _ Hd _ _ E) as (k & Hk & Hp). rewrite Hk. cbn.
    destruct (row_to_api_key_same _ _ _ Hk) as [Hid Hhash].
    rewrite (find_row _ secret kid (key_row now k) Hdist).
    + by rewrite (read_key_row Hempty now Hnow kid k Hid Hp).
    + rewrite (ar_keys _ _ _ Ha). unfold carried. rewrite E. cbn. by rewrite Hk.
    + cbn. congruence.
  - unfold find_api_key_by_secret. rewrite (proj2 (row_with_hash_none _ _)); [done|].
    intros i x Hx. destruct (Hrow _ _ Hx) as (r & k & Er & Hk & _ & ->). cbn.
    apply row_to_api_key_same in Hk as [_ ->]. exact (proj1 (row_with_hash_none _ _) E i r Er).
Qed.

Lemma opened_setting enc column plain :
  reads_setting enc column plain ->
  (match enc with
   | Some enc => match decrypt_settings enc column with
                 | Ok plain => Ok (Some plain)
                 | Err e => Err (Decrypt (encryption_error_text e))
                 end
   | None => Ok (Some column)
   end : result StoreError (option string)) = Ok (Some plain).
Proof using. unfold reads_setting. destruct enc as [enc|]; [by intros ->|by intros ->]. Qed.

Lemma setting_same key :
  if is_encrypted_key key
  then get_setting_encrypted encryption t key = get_setting_encrypted source (tables (db_store d)) key
  else get_setting t key = get_setting (tables (db_store d)) key.
Proof using CryptoLaws0 Hseals Hnonce Hd Ha.
  unfold get_setting_encrypted, get_setting. rewrite (ar_settings _ _ _ Ha).
  destruct (t_settings (tables (db_store d)) !! key) as [[v u]|] eqn:E; cbn [fmap option_fmap option_map fst].
  - unfold setting_value, export_setting. cbn [es_encrypted es_key es_value fst snd].
    destruct (is_encrypted_key key) eqn:K; [|done].
    destruct (re_settings _ Hd _ _ E K) as (plain & Hr & Hs). cbn [fst] in Hr.
    destruct (recoded_setting source encryption Hseals nonce Hnonce key v plain Hr Hs) as (x & Hx & Hxr).
    rewrite Hx. cbn [or_empty]. by rewrite (opened_setting _ _ _ Hr), (opened_setting _ _ _ Hxr).
  - destruct (is_encrypted_key key); [|done]. by destruct source, encryption.
Qed.
End Restore.

(** ** The round trip *)

Section RoundTrip.
Context `{J : SerdeJson} `{!SerdeJsonLaws J} `{T : Chrono} `{!ChronoLaws T} `{R : RouteSerde} `{!RouteSerdeLaws R}.
Context `{C : Crypto} `{!CryptoLaws C} `{Cal : Calendar} `{OAuthCrates} `{TextCrates}.

(** C7: A gateway restored from the bundle of another serves as the other did,
    although the two have different master keys, provided that: every row of
    the source can be read; every secret opens under the source's master key
    and is text that can be sealed again; providers have an auth mode valid
    for their vendor; metadata and quotas are JSON without floats, which
    prints exactly; model lists are normalized and route metadata reads back;
    no two routes are for one model and no two keys have one hash; creation
    years have four digits; the token sums fit 64 bits; and the view of the
    source is that of its tables. Then the export succeeds, and so does the
    import of all of it into an empty database, given the master key of the
    source; every model has the same targets with the same credentials, every
    secret of a caller finds the same key, every setting reads the same, and
    the statistics of every day are there. *)
Theorem restored_gateway_serves_the_same registered source encryption nonce today now at_ overflow secret d d0 :
  from_str "" = None -> seals encryption ->
  (forall purpose k, String.length (nonce purpose k) = NONCE_LEN) -> four_digit_year now = true ->
  restorable source today now d -> coherent registered source (db_store d) -> empty_db d0 ->
  source_encryption (match source with Some _ => true | None => false end) secret = Ok source ->
  exists data d1 report,
    export_config source at_ d = Ok data
    /\ import_config registered encryption nonce today now overflow data secret (everything data) d0 = (d1, Ok report)
    /\ (forall m, RoutingTable.resolve_entry (routing_table (inner (db_store d1))) m
                  = RoutingTable.resolve_entry (routing_table (inner (db_store d))) m)
    /\ (forall caller, find_api_key_by_secret (t_keys (tables (db_store d1))) caller
         = match find_api_key_by_secret (t_keys (tables (db_store d))) caller with
           | Ok (Some k) => Ok (Some (touched now k))
           | _ => Ok None
           end)
    /\ (forall key, if is_encrypted_key key
         then get_setting_encrypted encryption (tables (db_store d1)) key
              = get_setting_encrypted source (tables (db_store d)) key
         else get_setting (tables (db_store d1)) key = get_setting (tables (db_store d)) key)
    /\ daily (db_stats d1) = stamped (to_rfc3339 now) <$> daily (db_stats d).
Proof.
  intros Hempty Hseals Hnonce Hnow Hd Hc (H1 & H2 & H3 & H4 & H5) Hsecret.
  destruct (export_succeeds source today now d at_ Hd) as (ps & rs & ks & _ & _ & _ & He).
  match type of He with _ = Ok ?x => set (data := x) in He end. exists data.
  destruct (transaction_succeeds source encryption Hseals nonce Hnonce today now overflow d at_ data
              (tables (db_store d0)) (db_stats d0) Hd He H1 H2 H3 H4 H5) as (t & s & report & Ht & Ha).
  destruct (tables_readable Hempty registered source encryption nonce today now Hnow d t s Hd Ha
              (inner (db_store d0)) now) as [s1 Hs1].
  destruct (refresh_ok _ _ _ _ _ Hs1) as [Hc1 Htab].
  exists {| db_store := s1; db_stats := s |}, report. split; [exact He|]. split.
  { unfold import_config. change (ce_schema_version data) with 2%Z. cbn [Z.leb negb andb].
    change (ce_encrypted data) with (match source with Some _ => true | None => false end).
    rewrite Hsecret, Ht. unfold then_refresh. by rewrite Hs1. }
  cbn [db_store db_stats]. rewrite Htab. split; [|split; [|split]].
  - intros m. apply (routing_same Hempty registered source encryption Hseals nonce Hnonce today now Hnow d t s Hd Ha);
      [exact Hc|exact Hc1|by rewrite Htab|by rewrite Htab].
  - intros caller. exact (key_same Hempty source encryption nonce today now Hnow d t s Hd Ha caller).
  - intros key. exact (setting_same source encryption Hseals nonce Hnonce today now d t s Hd Ha key).
  - exact (ar_days _ _ _ _ _ _ _ Ha).
Qed.
End RoundTrip.

(** ** Two gateways with different master keys *)

Module Sample.
#[export] Existing Instances coded_json coded_json_laws binary_chrono binary_chrono_laws letter_crypto letter_crypto_laws.
#[export] Existing Instances ConfigStore.Sample.coded_targets ConfigStore.Sample.coded_targets_laws.
#[export] Existing Instances TokenStats.Sample.binary_calendar ApiKeys.Sample.open_hash hex_crates.

Definition master_bytes : string := "abcdefghijklmnopqrstuvwxyz012345".
Definition secret_text : string := letters master_bytes.
Definition source_key : option KeyEncryption := Some {| master := master_bytes |}.
Definition target_key : option KeyEncryption := Some {| master := "another" |}.
Definition nonce (purpose k : string) : string := "123456789012".

Definition sealed (encrypt : KeyEncryption -> string -> string -> result EncryptionError string) (plain : string)
    : string := or_empty (column_of encrypt source_key "210987654321" plain).

Definition sample_row : ProviderRow := {|
  row_name := "main"; row_vendor := "other"; row_api_base := "https://a"; row_models_endpoint := "";
  row_api_key := sealed encrypt_api_key "sk-1"; row_auth_mode := "api_key"; row_usage_key := "";
  row_oauth_meta := ""; row_metadata := ""; row_enabled := 1;
  row_created_at := to_rfc3339 ConfigStore.Sample.now; row_updated_at := to_rfc3339 ConfigStore.Sample.now |}.

Definition sample_tables : Tables := {|
  t_providers := {[ "p1" := sample_row ]};
  t_tokens := ∅;
  t_routes := {[ "r1" := ConfigStore.Sample.sample_route "smart" [ConfigStore.Sample.target_of "p1" "m1"] ]};
  t_keys := {[ "k1" := made_row "team" (hash_api_key "sk-secret") ApiKeys.Sample.sample_quota None Active
                         ConfigStore.Sample.now ConfigStore.Sample.now ]};
  t_settings := {[ ARCHIVE_S3_ACCESS_KEY_ID := (sealed encrypt_settings "AKIA", "") ]};
  t_epoch := None |}.

Definition no_summary : TokenSummaryData := summary TokenStats.Sample.empty_stats.

Definition sample_db : Db := {|
  db_store := fst (refresh [] source_key ConfigStore.Sample.now {| tables := sample_tables; inner := new |});
  db_stats := {| daily := {[ day_text 20000 := TokenStats.Sample.day_of 5 ]}; summary := no_summary |} |}.

Definition fresh_db : Db := {|
  db_store := {| tables := {| t_providers := ∅; t_tokens := ∅; t_routes := ∅; t_keys := ∅; t_settings := ∅;
                              t_epoch := None |}; inner := new |};
  db_stats := TokenStats.Sample.empty_stats |}.

Lemma target_seals : seals target_key.
Proof. intros enc purpose n plain [= <-] _. by eexists. Qed.

Lemma sample_refreshes :
  refresh [] source_key ConfigStore.Sample.now {| tables := sample_tables; inner := new |}
  = (db_store sample_db, Ok tt).
Proof.
  assert (succeeds (snd (refresh [] source_key ConfigStore.Sample.now {| tables := sample_tables; inner := new |})) = true)
    as [[] Hx]%succeeds_ok by (vm_compute; reflexivity).
  unfold sample_db, db_store. by destruct (refresh [] source_key _ _) as [s1 r]; cbn in *; subst.
Qed.

Lemma sample_coherent : coherent [] source_key (db_store sample_db).
Proof. exact (proj1 (refresh_ok [] source_key _ _ _ sample_refreshes)). Qed.

Lemma sample_opens_source : source_encryption true secret_text = Ok source_key.
Proof. vm_compute. reflexivity. Qed.
End Sample.

Import Sample.

Lemma coded_empty : @from_str coded_json "" = None.
Proof. reflexivity. Qed.

Lemma sample_same_tables :
  t_providers (tables (db_store sample_db)) = t_providers sample_tables
  /\ t_routes (tables (db_store sample_db)) = t_routes sample_tables
  /\ t_keys (tables (db_store sample_db)) = t_keys sample_tables
  /\ t_settings (tables (db_store sample_db)) = t_settings sample_tables.
Proof. by rewrite (proj2 (refresh_ok [] source_key _ _ _ sample_refreshes)). Qed.

Lemma sample_portable : exists p, row_to_provider "p1" sample_row = Ok p /\ portable source_key p.
Proof.
  eexists. split; [reflexivity|]. split; [exists "sk-1"|exists ""|exists ""|..]; vm_compute; repeat split.
Qed.

Lemma sample_portable_route row :
  row = ConfigStore.Sample.sample_route "smart" [ConfigStore.Sample.target_of "p1" "m1"] ->
  exists r, row_to_route "r1" row = Ok r /\ portable_route r.
Proof. intros ->. eexists. split; [vm_compute; reflexivity|]. split; vm_compute; reflexivity. Qed.

Lemma sample_summary :
  exists sum, recompute_summary 20010 (to_rfc3339 ConfigStore.Sample.later) (daily (db_stats sample_db)) = Ok sum.
Proof. eexists. vm_compute. reflexivity. Qed.

Lemma sample_restorable : restorable source_key 20010 ConfigStore.Sample.later sample_db.
Proof.
  destruct sample_same_tables as (E1 & E2 & E3 & E4).
  split; rewrite ?E1, ?E2, ?E3, ?E4; unfold sample_tables; cbn [t_providers t_routes t_keys t_settings].
  - intros pid row [<- <-]%lookup_singleton_Some. exact sample_portable.
  - intros rid row [<- Hr]%lookup_singleton_Some. exact (sample_portable_route row (eq_sym Hr)).
  - intros i j r q [<- _]%lookup_singleton_Some [<- _]%lookup_singleton_Some _. reflexivity.
  - intros kid row [<- <-]%lookup_singleton_Some. eexists. split; [apply (read_made_row coded_empty); reflexivity|].
    split; reflexivity.
  - intros i j r q [<- _]%lookup_singleton_Some [<- _]%lookup_singleton_Some _. reflexivity.
  - intros key v [<- <-]%lookup_singleton_Some _. exists "AKIA". split; vm_compute; reflexivity.
  - exact sample_summary.
Qed.

Lemma restored_gateway_serves_the_same_witness :
  exists data d1 report,
    export_config source_key 0 sample_db = Ok data
    /\ import_config [] target_key nonce 20010 ConfigStore.Sample.later "" data secret_text (everything data) fresh_db
       = (d1, Ok report)
    /\ get_setting_encrypted target_key (tables (db_store d1)) ARCHIVE_S3_ACCESS_KEY_ID
       = get_setting_encrypted source_key (tables (db_store sample_db)) ARCHIVE_S3_ACCESS_KEY_ID.
Proof.
  destruct (restored_gateway_serves_the_same [] source_key target_key nonce 20010 ConfigStore.Sample.later 0 ""
              secret_text sample_db fresh_db coded_empty target_seals (fun _ _ => eq_refl) eq_refl sample_restorable
              sample_coherent (conj eq_refl (conj eq_refl (conj eq_refl (conj eq_refl eq_refl))))
              sample_opens_source)
    as (data & d1 & report & He & Hi & _ & _ & Hs & _).
  exists data, d1, report. exact (conj He (conj Hi (Hs ARCHIVE_S3_ACCESS_KEY_ID))).
Defined.
