(* ===== verification/Observability.v ===== *)
(** * Observability: callers, envelopes, and the row of a request

    The helpers of [crates/server/src/ingress/observability.rs]: who calls,
    what of the request is kept for the log, and [RequestScope], the guard that
    gives every request one row in it.  Clocks and random bytes are arguments;
    events are returned, the handlers put them in their log. *)

From stdpp Require Import base option list gmap strings pretty.
From Stdlib Require Import ZArith Lia Ascii.
From S2P Require Import Prelude RustStr Http F64 Json JsonBody Telemetry Protocol Classify Errors Ir Targets Fallback Quota Redaction TraceCtx.
From S2P Require Import ProviderConfig OAuthTokens Providers ApiKeys CodexOAuth.

Local Open Scope string_scope.
Local Open Scope list_scope.

(** ** Records of the log *)

Record RawEnvelope := {
  env_method : string;
  env_path : string;
  env_headers : gmap string string;
  env_body : option string;
  original_body_size : Z;
  env_timestamp : Z;
}.

Record LatencyBreakdown := { total_ms : Z; upstream_ms : Z; queue_ms : Z }.

Record RequestEvent := {
  re_request_id : string;
  re_timestamp : Z;
  re_virtual_model : string;
  re_resolved_provider : option string;
  re_resolved_model : option string;
  re_account_label : option string;
  re_trace_id : option string;
  re_span_id : option string;
  re_traceparent : option string;
  re_ingress_protocol : string;
  re_egress_protocol : option string;
  re_lossy : bool;
  re_cache_hit : option string;
  re_status : RequestStatus;
  re_error_class : option RequestErrorClass;
  re_http_status : option Z;
  re_error_source : option string;
  re_latency_ms : LatencyBreakdown;
  re_ttfb_ms : option Z;
  re_tokens : option Usage;
  re_cost : option Z;
  re_api_key_id : option string;
  re_client_ip : option string;
  re_user_agent : option string;
  re_raw_envelope : option RawEnvelope;
}.

(** ** Callers *)

Inductive KeyLookupOutcome := Authenticated | NoCredential | UnknownCredential | DisabledCredential.

#[export] Instance KeyLookupOutcome_eq_dec : EqDecision KeyLookupOutcome.
Proof. solve_decision. Defined.

Record ResolvedApiKey := {
  key_id : string;
  rk_spec : QuotaSpec;
  rk_allowed_models : option (list string);
  rk_secret : option string;
  rk_outcome : KeyLookupOutcome;
}.

Definition nonempty (s : string) : option string := if is_empty s then None else Some s.

(** The value of a header as text. *)
Definition header_text (name : string) (hs : Headers) : option string := get_header name hs ≫= to_str.

Definition bearer (v : string) : option string :=
  match strip_prefix "Bearer " v with
  | Some rest => nonempty (trim rest)
  | None => match strip_prefix "bearer " v with
            | Some rest => nonempty (trim rest)
            | None => None
            end
  end.

Definition extract_credential (hs : Headers) : option string :=
  or_else (header_text "authorization" hs ≫= bearer)
    (or_else (header_text "x-api-key" hs ≫= fun v => nonempty (trim v))
             (header_text "x-goog-api-key" hs ≫= fun v => nonempty (trim v))).

Definition anonymous (secret : option string) (o : KeyLookupOutcome) : ResolvedApiKey :=
  {| key_id := "anonymous"; rk_spec := QuotaSpec_default; rk_allowed_models := None;
     rk_secret := secret; rk_outcome := o |}.

(** The answer of the store for a secret. *)
Definition resolved (secret : string) (found : result StoreError (option ApiKey)) : ResolvedApiKey :=
  match found with
  | Ok (Some k) =>
      match ak_status k with
      | Active => {| key_id := ak_id k; rk_spec := QuotaSpec.from_json (quota_json k);
                     rk_allowed_models := ApiKeys.allowed_models k; rk_secret := Some secret;
                     rk_outcome := Authenticated |}
      | Disabled => anonymous (Some secret) DisabledCredential
      end
  | Ok None | Err _ => anonymous (Some secret) UnknownCredential
  end.

(** [resolve_api_key], with the lookup as an argument. *)
Definition resolve_api_key (find : string -> result StoreError (option ApiKey)) (hs : Headers)
    : ResolvedApiKey :=
  match extract_credential hs with
  | None => anonymous None NoCredential
  | Some secret => resolved secret (find secret)
  end.

Definition allows_model (k : ResolvedApiKey) (virtual_model : string) : bool :=
  match rk_allowed_models k with
  | None => true
  | Some models => existsb (String.eqb virtual_model) models
  end.

Definition access_denied (virtual_model : string) : AppError * RequestErrorClass :=
  (AppError.with_upstream_code
     (AppError.with_class
        (AppError.new 403 ("api key is not allowed to access model: " +:+ virtual_model))
        ModelAccessDenied)
     "model_access_denied", RModelAccessDenied).

Definition enforce_model_access (k : ResolvedApiKey) (virtual_model : string)
    : result (AppError * RequestErrorClass) unit :=
  if allows_model k virtual_model then Ok tt else Err (access_denied virtual_model).

Definition enforce_auth (require_api_key : bool) (k : ResolvedApiKey)
    : result (AppError * RequestErrorClass) unit :=
  if negb require_api_key then Ok tt
  else match rk_outcome k with
       | Authenticated => Ok tt
       | NoCredential =>
           Err (AppError.with_class (AppError.new 401 "missing api key") AuthMissing, RAuthMissing)
       | UnknownCredential =>
           Err (AppError.with_class (AppError.new 401 "invalid api key") AuthInvalid, RAuthInvalid)
       | DisabledCredential =>
           Err (AppError.with_class (AppError.new 403 "api key disabled") AuthDisabled, RAuthDisabled)
       end.

(** ** The row of a request *)

(** Readings of the clocks: the two of [Instant], and the timestamps of the
    two events. *)
Record Clocks := { c_total : Z; c_upstream : Z; c_event : Z; c_pipeline : Z }.

Definition elapsed_ms (started now : Z) : Z := wrap64 ((now - started) / 1000000).

Section Rows.

(** [emit_request_event]: the event of the log and that of the pipeline. *)
Definition emit_request_event (request_id virtual_model : string)
    (resolved_provider resolved_model : option string) (ingress : ProtocolEndpoint)
    (egress : option ProtocolEndpoint) (status : RequestStatus)
    (error_class : option RequestErrorClass) (error_source : option string)
    (http_status : option Z) (lossy : bool) (cache_hit : option string) (latency : LatencyBreakdown)
    (ttfb_ms : option Z) (tokens : option Usage) (caller_key_id : option string)
    (trace : TraceContext) (envelope : option RawEnvelope) (event_time pipeline_time : Z)
    : RequestEvent * PipelineEvent :=
  ({| re_request_id := request_id; re_timestamp := event_time; re_virtual_model := virtual_model;
      re_resolved_provider := resolved_provider; re_resolved_model := resolved_model;
      re_account_label := None; re_trace_id := Some (trace_id trace);
      re_span_id := Some (parent_span_id trace); re_traceparent := Some (to_traceparent trace);
      re_ingress_protocol := protocol_log_label ingress;
      re_egress_protocol := protocol_log_label <$> egress; re_lossy := lossy;
      re_cache_hit := cache_hit; re_status := status; re_error_class := error_class;
      re_http_status := http_status; re_error_source := error_source; re_latency_ms := latency;
      re_ttfb_ms := ttfb_ms; re_tokens := tokens; re_cost := None; re_api_key_id := caller_key_id;
      re_client_ip := None; re_user_agent := None; re_raw_envelope := envelope |},
   {| ev_request_id := request_id; ev_timestamp := pipeline_time; ev_stage := "request_completed";
      ev_payload := RequestCompleted (RequestStatus.as_str status)
                      (RequestErrorClass.as_str <$> error_class) (total_ms latency)
                      (upstream_ms latency) ttfb_ms tokens None caller_key_id None None
                      (Some (trace_id trace)) (Some (parent_span_id trace)) |}).
End Rows.

(** ** The guard *)

Record RequestScope := {
  rs_request_id : string;
  rs_virtual_model : string;
  rs_ingress : ProtocolEndpoint;
  rs_egress : option ProtocolEndpoint;
  rs_resolved : option (string * string);     (* provider and model *)
  rs_trace : TraceContext;
  rs_started : Z;
  rs_caller_key_id : string;
  rs_envelope : option RawEnvelope;
  rs_ttfb_ms : option Z;
  armed : bool;
  waiting_upstream : bool;
}.

Module RequestScope.
Definition new (request_id virtual_model : string) (ingress : ProtocolEndpoint) (trace : TraceContext)
    (started : Z) : RequestScope :=
  {| rs_request_id := request_id; rs_virtual_model := virtual_model; rs_ingress := ingress;
     rs_egress := None; rs_resolved := None; rs_trace := trace; rs_started := started;
     rs_caller_key_id := "anonymous"; rs_envelope := None; rs_ttfb_ms := None; armed := true;
     waiting_upstream := false |}.

Definition set_egress (e : ProtocolEndpoint) (s : RequestScope) : RequestScope :=
  {| rs_request_id := rs_request_id s; rs_virtual_model := rs_virtual_model s;
     rs_ingress := rs_ingress s; rs_egress := Some e; rs_resolved := rs_resolved s;
     rs_trace := rs_trace s; rs_started := rs_started s; rs_caller_key_id := rs_caller_key_id s;
     rs_envelope := rs_envelope s; rs_ttfb_ms := rs_ttfb_ms s; armed := armed s;
     waiting_upstream := waiting_upstream s |}.
Definition set_resolved (provider model : string) (s : RequestScope) : RequestScope :=
  {| rs_request_id := rs_request_id s; rs_virtual_model := rs_virtual_model s;
     rs_ingress := rs_ingress s; rs_egress := rs_egress s; rs_resolved := Some (provider, model);
     rs_trace := rs_trace s; rs_started := rs_started s; rs_caller_key_id := rs_caller_key_id s;
     rs_envelope := rs_envelope s; rs_ttfb_ms := rs_ttfb_ms s; armed := armed s;
     waiting_upstream := waiting_upstream s |}.
Definition set_caller_key_id (k : string) (s : RequestScope) : RequestScope :=
  {| rs_request_id := rs_request_id s; rs_virtual_model := rs_virtual_model s;
     rs_ingress := rs_ingress s; rs_egress := rs_egress s; rs_resolved := rs_resolved s;
     rs_trace := rs_trace s; rs_started := rs_started s; rs_caller_key_id := k;
     rs_envelope := rs_envelope s; rs_ttfb_ms := rs_ttfb_ms s; armed := armed s;
     waiting_upstream := waiting_upstream s |}.
Definition set_envelope (e : RawEnvelope) (s : RequestScope) : RequestScope :=
  {| rs_request_id := rs_request_id s; rs_virtual_model := rs_virtual_model s;
     rs_ingress := rs_ingress s; rs_egress := rs_egress s; rs_resolved := rs_resolved s;
     rs_trace := rs_trace s; rs_started := rs_started s; rs_caller_key_id := rs_caller_key_id s;
     rs_envelope := Some e; rs_ttfb_ms := rs_ttfb_ms s; armed := armed s;
     waiting_upstream := waiting_upstream s |}.
Definition set_ttfb_ms (t : option Z) (s : RequestScope) : RequestScope :=
  {| rs_request_id := rs_request_id s; rs_virtual_model := rs_virtual_model s;
     rs_ingress := rs_ingress s; rs_egress := rs_egress s; rs_resolved := rs_resolved s;
     rs_trace := rs_trace s; rs_started := rs_started s; rs_caller_key_id := rs_caller_key_id s;
     rs_envelope := rs_envelope s; rs_ttfb_ms := t; armed := armed s;
     waiting_upstream := waiting_upstream s |}.
Definition set_virtual_model (m : string) (s : RequestScope) : RequestScope :=
  {| rs_request_id := rs_request_id s; rs_virtual_model := m;
     rs_ingress := rs_ingress s; rs_egress := rs_egress s; rs_resolved := rs_resolved s;
     rs_trace := rs_trace s; rs_started := rs_started s; rs_caller_key_id := rs_caller_key_id s;
     rs_envelope := rs_envelope s; rs_ttfb_ms := rs_ttfb_ms s; armed := armed s;
     waiting_upstream := waiting_upstream s |}.
Definition disarm (s : RequestScope) : RequestScope :=
  {| rs_request_id := rs_request_id s; rs_virtual_model := rs_virtual_model s;
     rs_ingress := rs_ingress s; rs_egress := rs_egress s; rs_resolved := rs_resolved s;
     rs_trace := rs_trace s; rs_started := rs_started s; rs_caller_key_id := rs_caller_key_id s;
     rs_envelope := rs_envelope s; rs_ttfb_ms := rs_ttfb_ms s; armed := false;
     waiting_upstream := waiting_upstream s |}.
Definition mark_waiting_upstream (s : RequestScope) : RequestScope :=
  {| rs_request_id := rs_request_id s; rs_virtual_model := rs_virtual_model s;
     rs_ingress := rs_ingress s; rs_egress := rs_egress s; rs_resolved := rs_resolved s;
     rs_trace := rs_trace s; rs_started := rs_started s; rs_caller_key_id := rs_caller_key_id s;
     rs_envelope := rs_envelope s; rs_ttfb_ms := rs_ttfb_ms s; armed := armed s;
     waiting_upstream := true |}.

Definition latency (s : RequestScope) (c : Clocks) : LatencyBreakdown :=
  {| total_ms := elapsed_ms (rs_started s) (c_total c);
     upstream_ms := elapsed_ms (rs_started s) (c_upstream c); queue_ms := 0 |}.

(** The row both [emit_internal] and [drop] write. *)
Definition row (s : RequestScope) (c : Clocks) (status : RequestStatus)
    (class : option RequestErrorClass) (source : option string) (http_status : option Z)
    : RequestEvent * PipelineEvent :=
  emit_request_event (rs_request_id s) (rs_virtual_model s) (fst <$> rs_resolved s)
    (snd <$> rs_resolved s) (rs_ingress s) (rs_egress s) status class source http_status false None
    (latency s c) (rs_ttfb_ms s) None (Some (rs_caller_key_id s)) (rs_trace s) (rs_envelope s)
    (c_event c) (c_pipeline c).

(** The emissions disarm the guard: they return it as [drop] finds it. *)
Definition emit_internal (s : RequestScope) (c : Clocks) (status : RequestStatus)
    (class : option RequestErrorClass) (source : option string) (http_status : option Z)
    : (RequestEvent * PipelineEvent) * RequestScope :=
  (row (disarm s) c status class source http_status, disarm s).

Definition emit_ok (s : RequestScope) (c : Clocks) (http_status : option Z) :=
  emit_internal s c Success None None http_status.

Definition emit_error (s : RequestScope) (c : Clocks) (class : RequestErrorClass)
    (source : option string) (http_status : option Z) :=
  emit_internal s c (status_of_tier (RequestErrorClass.tier class)) (Some class) source http_status.

Definition drop (s : RequestScope) (c : Clocks) : option (RequestEvent * PipelineEvent) :=
  if negb (armed s) then None
  else
    let class := if waiting_upstream s then RClientDisconnect else RInternalError in
    Some (row s c (status_of_tier (RequestErrorClass.tier class)) (Some class)
            (Some (if waiting_upstream s then "client disconnected while awaiting upstream"
                   else "handler dropped without terminal event"))
            (Some (if waiting_upstream s then 499 else 500)%Z)).
End RequestScope.

(** ** Envelopes *)

Section Envelopes.
Context `{SerdeJson} `{Lowercase} `{OAuthCrates} `{TextCrates}.

(** The part of a data URL after its marker. *)
Definition payload_of (s : string) : string :=
  match strip_prefix "data:" s with
  | Some stripped =>
      match find ";base64," stripped with
      | Some idx => drop_bytes (idx + 8) stripped
      | None => s
      end
  | None => s
  end.

Definition is_base64_char (a : ascii) : bool :=
  is_ascii_alphanumeric a || Ascii.eqb a "+" || Ascii.eqb a "/" || Ascii.eqb a "=".

(** The characters outside the alphabet: of those with several bytes the first
    is counted. *)
Fixpoint non_base64 (s : string) : nat :=
  match s with
  | EmptyString => 0
  | String a r =>
      (if is_base64_char a || ((128 <=? code a) && (code a <? 192))%Z then 0 else 1) + non_base64 r
  end.

Definition is_large_base64 (s : string) : bool :=
  if (String.length s <? 512)%nat then false
  else
    let working := payload_of s in
    if (String.length working <? 512)%nat then false
    else (non_base64 working * 100 <=? String.length working * 2)%nat.

Definition build_media_meta (s : string) : Value :=
  let mime := match strip_prefix "data:" s with
              | Some stripped => default "application/octet-stream" (head (split ";" stripped))
              | None => "application/octet-stream"
              end in
  let working := payload_of s in
  let binary_size := (String.length working * 3 / 4)%nat in
  Str ("[_media_meta mime=" +:+ mime +:+ " size_bytes=" +:+ pretty binary_size +:+ " sha256_hex="
       +:+ hex_encode (sha256 working) +:+ "]").

Fixpoint strip_media_from_value (v : Value) : Value :=
  match v with
  | Obj m => Obj (map (fun kv => (fst kv, strip_media_from_value (snd kv))) m)
  | Arr l => Arr (map strip_media_from_value l)
  | Str s => if is_large_base64 s then build_media_meta s else v
  | _ => v
  end.

Definition strip_inline_media (body : string) : string :=
  match from_str body with
  | None => body
  | Some v => to_string (strip_media_from_value v)
  end.

(** [.collect::<HashMap<_, _>>()]: of several values the last one stays. *)
Definition collect_map (l : list (string * string)) : gmap string string :=
  fold_left (fun m kv => <[fst kv := snd kv]> m) l ∅.

Definition redacted_headers (r : Redactor) (hs : Headers) : gmap string string :=
  collect_map (Redactor.redact_headers r (map (fun kv => (fst kv, default "" (to_str (snd kv)))) hs)).

Definition build_redacted_envelope (capture_media : bool) (r : Redactor) (method path : string)
    (body : Value) (hs : Headers) (now : Z) : RawEnvelope :=
  let text := to_string body in
  {| env_method := method; env_path := path; env_headers := redacted_headers r hs;
     env_body := Some (if capture_media then text else strip_inline_media text);
     original_body_size := Z.of_nat (String.length text); env_timestamp := now |}.

Definition build_redacted_envelope_raw (r : Redactor) (method path : string) (size : Z) (hs : Headers)
    (now : Z) : RawEnvelope :=
  {| env_method := method; env_path := path; env_headers := redacted_headers r hs; env_body := None;
     original_body_size := size; env_timestamp := now |}.
End Envelopes.

(** ** Trace and quota *)

(** [extract_trace], with the random bytes of the new span and trace. *)
Definition extract_trace (hs : Headers) (span_bytes trace_bytes : list Z) : TraceContext :=
  let raw_ts := header_text "tracestate" hs in
  match extract_from_headers (header_text "traceparent" hs) raw_ts with
  | Present ctx => {| trace_id := trace_id ctx; parent_span_id := new_span_id span_bytes;
                      flags := flags ctx; tracestate := tracestate ctx |}
  | Absent => {| trace_id := new_trace_id trace_bytes; parent_span_id := new_span_id span_bytes;
                 flags := 1; tracestate := raw_ts |}
  end.

Inductive QuotaOutcome :=
| QuotaAllow
| QuotaDeny (retry_after limit : Z) (kind : QuotaKind).

(** [check_quota]: the counter's answer, or [None] when there is no counter. *)
Definition check_quota (answer : option (result string QuotaDecision)) : QuotaOutcome :=
  match answer with
  | Some (Ok (Deny retry_after limit kind)) => QuotaDeny retry_after limit kind
  | _ => QuotaAllow
  end.

Definition retry_after_seconds (o : QuotaOutcome) : option Z :=
  match o with
  | QuotaDeny retry_after _ _ => Some (Z.max (retry_after / 1000) 1)
  | QuotaAllow => None
  end.
