(* ===== verification/Ingress.v ===== *)
(** * Ingress: the world of the handlers

    What a handler of [crates/server/src/ingress/handlers.rs] works in: the
    settings and the state it shares with other requests ([AppState] of
    [mod.rs]), the monad of its steps, and the pieces every handler is made of.

    The rest of the process is the class [Host]: a state of its own, which may
    change whenever the handler awaits, with the calls the handler makes of it.
    A call to a target is the program of [Executors] or [AuxExecutors], whose
    effects the host answers.  At an await the host may also drop the handler,
    as happens when the client disconnects. *)

From stdpp Require Import base option list gmap strings pretty.
From Stdlib Require Import ZArith Lia Ascii.
From S2P Require Import Prelude RustStr Http F64 Json JsonBody Telemetry Protocol Classify Health Targets Errors Ir Strategy Fallback Quota HeaderForward Redaction TraceCtx Streaming.
From S2P Require Import ProviderConfig OAuthTokens Providers OAuthEffects ApiKeys CodexOAuth AnthropicOAuth Egress UpstreamRequest Executors AuxCodecs AuxExecutors Observability.

Local Open Scope string_scope.
Local Open Scope list_scope.

(** ** Settings *)

Record RuntimeTunables := {
  routing_strategy : RoutingStrategyName;
  raw_envelope_capture_media : bool;
  require_api_key : bool;
  executor_tunables : Tunables;
  max_request_body_bytes : Z;
  max_inflight : Z;
  max_queue_depth : Z;
  acquire_timeout_ns : Z;
}.

(** What a wait for a permit ends with. *)
Inductive Acquired := Permit | SemaphoreClosed | AcquireElapsed.

(** ** The host *)

Class Host := {
  HostEnv : Type;
  (** what other tasks do while the handler awaits *)
  host_step : HostEnv -> HealthRegistry -> Z -> HostEnv * HealthRegistry * Z;
  host_time e h now : (now <= snd (host_step e h now))%Z;
  host_utc : HostEnv -> Z;
  host_random : HostEnv -> f64;
  (** the handler is dropped at this await *)
  cancelled : HostEnv -> bool;
  (** the handler is dropped inside the fallback loop, after so many of its actions *)
  cancelled_in_loop : HostEnv -> option nat;
  (** effects of the token manager, the network, the captures *)
  answer : HostEnv -> forall a, run (resp a * HostEnv);
  http : HostEnv -> FinalizedEgress -> Exchange;
  sockets : HostEnv -> WsRequest -> WsExchange;
  record_captures : HostEnv -> list ExchangeCapture -> HostEnv;
  oauth_apply : RoutingTarget -> HeaderMap -> prog (result string (option (HeaderMap * option string)));
  oauth_refresh : RoutingTarget -> string -> prog (result string bool);
  registered : list Providers.Provider;
  (** [AppState] *)
  routing_table : HostEnv -> RoutingTable;
  host_tunables : HostEnv -> RuntimeTunables;
  max_multimodal_body_bytes : Z;
  redactor : Redactor;
  available_permits : HostEnv -> Z;
  acquire_owned : HostEnv -> Z -> Acquired * HostEnv;
  release_permit : HostEnv -> HostEnv;
  find_api_key : HostEnv -> string -> result StoreError (option ApiKey) * HostEnv;
  check_and_consume :
    option (HostEnv -> string -> QuotaSpec -> Z -> result string QuotaDecision * HostEnv);
  cache_get : option (HostEnv -> EmbeddingCacheKey -> option CachedEmbedding * HostEnv);
  cache_put : HostEnv -> EmbeddingCacheKey -> Value -> HostEnv;
  (** identifiers *)
  new_uuid : HostEnv -> string * HostEnv;
  random_bytes : HostEnv -> nat -> list Z * HostEnv;
}.

Section Ingress.
Context `{Lowercase} `{GenRange} `{Host}.

(** ** Calls to targets *)

(** A program, its effects answered by the host. *)
Fixpoint run_prog {A} (e : HostEnv) (m : prog A) : run (A * HostEnv) :=
  match m with
  | Ret a => Ok (a, e)
  | Vis a k => match answer e a with
               | Ok (r, e') => run_prog e' (k r)
               | Err p => Err p
               end
  end.

(** The closure the fallback loop calls. *)
Definition Attempt : Type :=
  HostEnv -> RoutingTarget
  -> run (result AppError (Executors.Response * option Z) * option string * HostEnv).

Definition no_attempt : Attempt := fun e _ => Ok (Err (AppError.new 500 ""), None, e).

Definition gateway_step (e : HostEnv * Attempt) (h : HealthRegistry) (now : Z)
    : (HostEnv * Attempt) * HealthRegistry * Z :=
  let '(e', h', now') := host_step (fst e) h now in (e', snd e, h', now').

Lemma gateway_time e h now : (now <= snd (gateway_step e h now))%Z.
Proof.
  pose proof (host_time (fst e) h now) as Ht. unfold gateway_step.
  by destruct (host_step (fst e) h now) as [[? ?] ?].
Qed.

(** The gateway of [Fallback]: the host with the closure of the request. *)
#[export] Instance host_gateway : Gateway := {|
  Fallback.Response := Executors.Response;
  Env := HostEnv * Attempt;
  env_step := gateway_step;
  env_time := gateway_time;
  utc_now e := host_utc (fst e);
  random_f64 e := host_random (fst e);
  execute_one e t := '(r, token, e') ← snd e (fst e) t; Ok (r, token, (e', snd e));
  refresh_after_unauthorized e t token :=
    '(r, e') ← run_prog (fst e) (oauth_refresh t token); Ok (r, (e', snd e)) |}.

(** ** The handler's monad *)

(** What a handler did besides the actions of the loop. *)
Inductive note :=
| Took                                     (* a permit *)
| GaveBack
| Asked (k : ResolvedApiKey) (required : bool)
| Charged (key : string) (spec : QuotaSpec) (o : QuotaOutcome)
| Granted (model : string) (ok : bool)
| Routed (table : RoutingTable) (model : string)
| Calling (model : string) (targets : list RoutingTarget)
| Served (cached : Value)
| Wrote (row : RequestEvent * PipelineEvent).

Record HState := {
  hs_world : Fallback.World;
  hs_scope : option RequestScope;
  hs_notes : list note;
}.

(** A step goes on, or the handler returns an error, or it is dropped. *)
Inductive step_result (A : Type) := Goes (a : A) | Returns (e : AppError) | Dropped.
Arguments Goes {A} a. Arguments Returns {A} e. Arguments Dropped {A}.

Definition Handler (A : Type) : Type := HState -> run (step_result A * HState).

#[export] Instance Handler_ret : MRet Handler := fun A a s => Ok (Goes a, s).
#[export] Instance Handler_bind : MBind Handler := fun A B f m s =>
  match m s with
  | Ok (Goes a, s') => f a s'
  | Ok (Returns e, s') => Ok (Returns e, s')
  | Ok (Dropped, s') => Ok (Dropped, s')
  | Err p => Err p
  end.

Definition returns_err {A} (e : AppError) : Handler A := fun s => Ok (Returns e, s).
Definition panics_with {A} (p : panic) : Handler A := fun _ => Err p.

Definition on_world (f : Fallback.World -> Fallback.World) (s : HState) : HState :=
  {| hs_world := f (hs_world s); hs_scope := hs_scope s; hs_notes := hs_notes s |}.
Definition on_env (f : HostEnv -> HostEnv) (w : Fallback.World) : Fallback.World :=
  {| w_env := (f (fst (w_env w)), snd (w_env w)); w_now := w_now w; w_health := w_health w;
     w_rng := w_rng w; w_log := w_log w |}.
Definition host_env (s : HState) : HostEnv := fst (w_env (hs_world s)).

Definition note_ (n : note) : Handler unit := fun s =>
  Ok (Goes tt, {| hs_world := hs_world s; hs_scope := hs_scope s; hs_notes := hs_notes s ++ [n] |}).

(** A step of the fallback monad. *)
Definition lift {A} (m : Fallback.M A) : Handler A := fun s =>
  match m (hs_world s) with
  | Ok (a, w) => Ok (Goes a, {| hs_world := w; hs_scope := hs_scope s; hs_notes := hs_notes s |})
  | Err p => Err p
  end.

(** [.await]: others run, and the handler may be dropped. *)
Definition awaits : Handler unit := fun s =>
  match Fallback.interleave (hs_world s) with
  | Ok (_, w) =>
      let s := {| hs_world := w; hs_scope := hs_scope s; hs_notes := hs_notes s |} in
      if cancelled (fst (w_env w)) then Ok (Dropped, s) else Ok (Goes tt, s)
  | Err p => Err p
  end.

(** A call of the host. *)
Definition ask {A} (f : HostEnv -> A * HostEnv) : Handler A := fun s =>
  let '(a, e) := f (host_env s) in
  Ok (Goes a, on_world (on_env (fun _ => e)) s).
Definition reads {A} (f : HostEnv -> A) : Handler A := fun s => Ok (Goes (f (host_env s)), s).
Definition clock : Handler Z := fun s => Ok (Goes (w_now (hs_world s)), s).
Definition utc : Handler Z := reads host_utc.

(** *** The guard *)

Definition set_scope (o : option RequestScope) : Handler unit := fun s =>
  Ok (Goes tt, {| hs_world := hs_world s; hs_scope := o; hs_notes := hs_notes s |}).
Definition scope_do (f : RequestScope -> RequestScope) : Handler unit := fun s =>
  Ok (Goes tt, {| hs_world := hs_world s; hs_scope := f <$> hs_scope s; hs_notes := hs_notes s |}).

(** The clocks an emission reads. *)
Definition clocks (s : HState) : Clocks :=
  {| c_total := w_now (hs_world s); c_upstream := w_now (hs_world s);
     c_event := host_utc (host_env s); c_pipeline := host_utc (host_env s) |}.

(** A guard that is consumed by an emission: the row, then its drop. *)
Definition consume (f : RequestScope -> Clocks -> (RequestEvent * PipelineEvent) * RequestScope)
    : Handler unit := fun s =>
  match hs_scope s with
  | Some sc =>
      let '(row, sc) := f sc (clocks s) in
      let dropped := match RequestScope.drop sc (clocks s) with Some r => [Wrote r] | None => [] end in
      Ok (Goes tt, {| hs_world := hs_world s; hs_scope := None;
                      hs_notes := hs_notes s ++ Wrote row :: dropped |})
  | None => Ok (Goes tt, s)
  end.

Definition emit_ok (http_status : Z) : Handler unit :=
  consume (fun sc c => RequestScope.emit_ok sc c (Some http_status)).
Definition emit_error (class : RequestErrorClass) (e : AppError) : Handler unit :=
  consume (fun sc c => RequestScope.emit_error sc c class (Some (ae_message e))
                         (Some (AppError.http_status e))).

(** The end of a handler: the guard and the permit are dropped. *)
Definition drop_guard (s : HState) : HState :=
  match hs_scope s with
  | Some sc =>
      {| hs_world := hs_world s; hs_scope := None;
         hs_notes := hs_notes s ++ match RequestScope.drop sc (clocks s) with
                                   | Some r => [Wrote r]
                                   | None => []
                                   end |}
  | None => s
  end.

Fixpoint permits (l : list note) : nat :=
  match l with
  | [] => 0
  | Took :: r => S (permits r)
  | _ :: r => permits r
  end.

Definition drop_permit (s : HState) : HState :=
  match permits (hs_notes s) with
  | O => s
  | S _ => {| hs_world := on_env release_permit (hs_world s); hs_scope := hs_scope s;
              hs_notes := hs_notes s ++ [GaveBack] |}
  end.

(** What becomes of a handler; [None] when it was dropped. *)
Definition run_handler {A} (h : Handler A) (w : Fallback.World) : run (option (result AppError A) * HState) :=
  match h {| hs_world := w; hs_scope := None; hs_notes := [] |} with
  | Ok (r, s) =>
      Ok (match r with Goes a => Some (Ok a) | Returns e => Some (Err e) | Dropped => None end,
          drop_permit (drop_guard s))
  | Err p => Err p
  end.
End Ingress.

Arguments Goes {A} a. Arguments Returns {A} e. Arguments Dropped {A}.
