(* ===== verification/Handlers.v ===== *)
(** * Handlers: the endpoints of the data plane

    [crates/server/src/ingress/handlers.rs], with [compute_pass_through] and
    [enforce_body_limit] of [mod.rs].  The four chat handlers are the same
    sequence of steps - permit, body limit, caller, decoding, quota and model
    access, route, fallback loop - written four times; the embeddings and the
    two images handlers vary it.  Where a handler reads the clock or makes an
    identifier between two steps that await nothing, the order of those reads is
    that of the Chat Completions handler. *)

From stdpp Require Import base option list gmap strings pretty.
From Stdlib Require Import ZArith Lia Ascii.
From S2P Require Import ChatRequest Messages Gemini ResponsesRequest.
From S2P Require Import Prelude RustStr Http F64 Json JsonBody Utf8 Telemetry Protocol Classify Health Targets Errors Ir StructuredOutput Strategy Fallback Quota HeaderForward ResponseModel Redaction TraceCtx.
From S2P Require Import ProviderConfig OAuthTokens Providers OAuthEffects ApiKeys EgressBody CodexOAuth AnthropicOAuth Egress Codecs UpstreamRequest Executors AuxCodecs AuxExecutors Observability Ingress.

Local Open Scope string_scope.
Local Open Scope list_scope.

(** ** Pure parts *)

(** [s.rsplit_once(c)] *)
Fixpoint rsplit_once (c : ascii) (s : string) : option (string * string) :=
  match s with
  | EmptyString => None
  | String a r =>
      match rsplit_once c r with
      | Some (x, y) => Some (String a x, y)
      | None => if Ascii.eqb a c then Some ("", r) else None
      end
  end.

Definition GEMINI_METHODS : list string :=
  ["generateContent"; "streamGenerateContent"; "countTokens"; "embedContent"; "batchGenerateContent"].

Definition split_gemini_capture (capture : string) : option (string * string) :=
  match rsplit_once ":" capture with
  | Some (model, method) =>
      if contains_char ":" model then None
      else if existsb (String.eqb method) GEMINI_METHODS then Some (model, method)
      else None
  | None => Some (capture, "")
  end.

(** [handle_healthz], [handle_readyz]: the latter with the drain signal. *)
Definition handle_healthz : Z := 200.
Definition handle_readyz (draining : bool) : Z := if draining then 503 else 200.

Definition early_error_class (e : AppError) : RequestErrorClass :=
  let status := AppError.http_status e in
  if existsb (Z.eqb status) [400; 413; 415]%Z then RBadRequest
  else if existsb (Z.eqb status) [503; 429]%Z then RTransient
  else RInternalError.

Definition with_retry_after_secs (e : AppError) (seconds : Z) : AppError :=
  AppError.with_retry_after_header e (pretty seconds).

Section Limits.
Context `{Lowercase}.

Definition multimodal_markers : list string :=
  ["multipart"; "image/"; "audio/"; "video/"; "application/pdf"; "application/octet-stream"].

Definition enforce_body_limit (max_multimodal max_body : Z) (content_type : option string) (body_size : Z)
    : result AppError unit :=
  match content_type with
  | None => Ok tt
  | Some ct =>
      let limit := if existsb (fun m => contains m (to_lowercase ct)) multimodal_markers
                   then max_multimodal else max_body in
      if (limit <? body_size)%Z then
        Err (AppError.new 413 ("payload too large: " +:+ pretty body_size
                               +:+ " bytes exceeds limit " +:+ pretty limit +:+ " bytes"))
      else Ok tt
  end.
End Limits.

(** [pass_through_policy] of the four chat codecs. *)
Definition same_suite_policy (ingress egress : ProtocolEndpoint) : PassThroughPolicy :=
  if decide (suite ingress = suite egress) then Passthrough else Convert.

Definition compute_pass_through (policy : ProtocolEndpoint -> ProtocolEndpoint -> PassThroughPolicy)
    (ingress : ProtocolEndpoint) (targets : list RoutingTarget) (original_body : string)
    : bool * option string :=
  let candidate := existsb (fun t =>
    bool_decide (suite ingress = suite (api_protocol t))
    && match policy ingress (api_protocol t) with Passthrough => true | Convert => false end) targets in
  if candidate then (true, Some original_body) else (false, None).

(** [name="field"] *)
Definition field_needle (field : string) : string :=
  "name=" +:+ String (chr 34) (field +:+ String (chr 34) "").

Definition CRLF2 : string := String CR (String LF (String CR (String LF ""))).
Definition CRLF_dashes : string := String CR (String LF "--").

(** The value of one field of a multipart body. *)
Definition multipart_field (text field : string) : option string :=
  let needle := field_needle field in
  match find needle text with
  | None => None
  | Some idx =>
      let rest := drop_bytes (idx + String.length needle) text in
      match find CRLF2 rest with
      | None => None
      | Some header_end =>
          let value_rest := drop_bytes (header_end + 4) rest in
          Some (match find CRLF_dashes value_rest with
                | Some boundary => take_bytes boundary value_rest
                | None => value_rest
                end)
      end
  end.

Definition extract_multipart_fields (body : string) : string * bool :=
  let text := from_utf8_lossy body in
  (default "default" (multipart_field text "model"),
   match multipart_field text "stream" with
   | Some v => eq_ignore_ascii_case v "true"
   | None => false
   end).

(** ** The steps of a handler *)

Section Handlers.
Context `{SerdeJson} `{Lowercase} `{HttpHeaders} `{OAuthCrates} `{TextCrates} `{CodexCrates}
        `{AnthropicCrates} `{UrlHost} `{Reqwest} `{Tungstenite} `{GenRange} `{Host}.

Definition overloaded (message : string) : AppError :=
  with_retry_after_secs (AppError.with_class (AppError.new 503 message) Overloaded) 5.

Definition acquire_permit : Handler (result AppError unit) :=
  t ← reads host_tunables;
  available ← reads available_permits;
  let waiting := sat_sub (max_inflight t) available in
  if (max_queue_depth t <? waiting)%Z then mret (Err (overloaded "gateway overloaded, queue full"))
  else
    _ ← awaits;
    r ← ask (fun e => acquire_owned e (acquire_timeout_ns t));
    match r with
    | Permit => _ ← note_ Took; mret (Ok tt)
    | SemaphoreClosed => mret (Err (overloaded "gateway overloaded"))
    | AcquireElapsed => mret (Err (overloaded "gateway too busy, try again later"))
    end.

(** A refusal: its row, and the error with the suite of the client. *)
Definition refuse {A} (s : ProtocolSuite) (class : RequestErrorClass) (e : AppError) : Handler A :=
  _ ← emit_error class e; returns_err (AppError.with_protocol_suite e s).

Definition emit_early_error (e : AppError) : Handler unit := emit_error (early_error_class e) e.

Definition acquire_or_log (s : ProtocolSuite) : Handler unit :=
  r ← acquire_permit;
  match r with
  | Ok _ => mret tt
  | Err e => _ ← emit_early_error e; returns_err (AppError.with_protocol_suite e s)
  end.

Definition enforce_body_limit_or_log (s : ProtocolSuite) (content_type : option string) (body_size : Z)
    : Handler unit :=
  t ← reads host_tunables;
  match enforce_body_limit max_multimodal_body_bytes (max_request_body_bytes t) content_type body_size with
  | Ok _ => mret tt
  | Err e => _ ← emit_early_error e; returns_err (AppError.with_protocol_suite e s)
  end.

(** [resolve_api_key]: the store is asked when there is a credential. *)
Definition resolve_caller (hs : Headers) : Handler ResolvedApiKey :=
  match extract_credential hs with
  | None => mret (anonymous None NoCredential)
  | Some secret =>
      _ ← awaits;
      found ← ask (fun e => find_api_key e secret);
      mret (resolved secret found)
  end.

(** The caller, refused when keys are required and this one is not accepted. *)
Definition authenticate (s : ProtocolSuite) (hs : Headers) : Handler ResolvedApiKey :=
  k ← resolve_caller hs;
  _ ← scope_do (RequestScope.set_caller_key_id (key_id k));
  t ← reads host_tunables;
  _ ← note_ (Asked k (require_api_key t));
  match enforce_auth (require_api_key t) k with
  | Ok _ => mret k
  | Err (e, class) => refuse s class e
  end.

Definition decode_failed (e : Protocol.Error) : AppError :=
  AppError.with_class (AppError.new 400 ("Decode error: " +:+ error_to_string e)) BadRequest.

Definition decoded (s : ProtocolSuite) (r : result Protocol.Error IrRequest) : Handler IrRequest :=
  match r with
  | Ok ir => mret ir
  | Err e => refuse s RDecodeError (decode_failed e)
  end.

Definition enforce_model_access_or_log (k : ResolvedApiKey) (virtual_model : string) (s : ProtocolSuite)
    : Handler unit :=
  let allowed := enforce_model_access k virtual_model in
  _ ← note_ (Granted virtual_model (match allowed with Ok _ => true | Err _ => false end));
  match allowed with
  | Ok _ => mret tt
  | Err (e, class) => refuse s class e
  end.

(** [check_quota]: without a counter everything is allowed. *)
Definition charge (k : ResolvedApiKey) : Handler QuotaOutcome :=
  match check_and_consume with
  | None => mret (check_quota None)
  | Some consume =>
      _ ← awaits;
      r ← ask (fun e => consume e (key_id k) (rk_spec k) 1%Z);
      mret (check_quota (Some r))
  end.

Definition quota_exceeded (retry_after : Z) : AppError :=
  with_retry_after_secs (AppError.with_class (AppError.new 429 "quota exceeded") RateLimited)
    (Z.max (retry_after / 1000) 1).

Definition enforce_api_key_policy (k : ResolvedApiKey) (virtual_model : string) (s : ProtocolSuite)
    : Handler unit :=
  o ← charge k;
  _ ← note_ (Charged (key_id k) (rk_spec k) o);
  match o with
  | QuotaAllow => enforce_model_access_or_log k virtual_model s
  | QuotaDeny retry_after _ _ => refuse s RQuotaExceeded (quota_exceeded retry_after)
  end.

Definition no_route (virtual_model : string) : AppError :=
  AppError.with_class (AppError.new 404 ("No route found for model: " +:+ virtual_model)) ModelNotFound.

Definition resolve_route (virtual_model : string) (s : ProtocolSuite) : Handler (list RoutingTarget) :=
  table ← reads routing_table;
  _ ← note_ (Routed table virtual_model);
  match RoutingTable.resolve table virtual_model with
  | Some targets => mret targets
  | None => refuse s RRouteNotFound (no_route virtual_model)
  end.

(** *** The fallback loop *)

(** What the loop does to the guard. *)
Definition scope_action (sc : RequestScope) (a : action) : RequestScope :=
  match a with
  | SetEgress p => RequestScope.set_egress p sc
  | SetResolved provider model => RequestScope.set_resolved provider model sc
  | SetTtfb ms => RequestScope.set_ttfb_ms ms sc
  | _ => sc
  end.

Definition with_log (l : list action) (w : Fallback.World) : Fallback.World :=
  {| w_env := w_env w; w_now := w_now w; w_health := w_health w; w_rng := w_rng w; w_log := l |}.

Definition with_attempt (a : Attempt) (w : Fallback.World) : Fallback.World :=
  {| w_env := (fst (w_env w), a); w_now := w_now w; w_health := w_health w; w_rng := w_rng w;
     w_log := w_log w |}.

(** The loop as the handler awaits it.  A handler that is dropped inside it has
    performed a first part of the actions of the undisturbed run. *)
Definition await_fallback (a : Attempt) (targets : list RoutingTarget) (virtual_model request_id : string)
    : Handler FallbackOutcome := fun s =>
  let w := with_attempt a (hs_world s) in
  let e := host_env s in
  match execute_with_fallback (routing_table e) (routing_strategy (host_tunables e)) targets
          virtual_model request_id w with
  | Err p => Err p
  | Ok (o, w') =>
      let actions := drop (length (w_log w)) (w_log w') in
      match cancelled_in_loop e with
      | Some n =>
          Ok (Dropped, {| hs_world := with_log (w_log w ++ take n actions) w';
                          hs_scope := (fun sc => fold_left scope_action (take n actions) sc) <$> hs_scope s;
                          hs_notes := hs_notes s |})
      | None =>
          Ok (Goes (default (OutcomeExhausted exhausted_error) o),
              {| hs_world := w';
                 hs_scope := (fun sc => fold_left scope_action actions sc) <$> hs_scope s;
                 hs_notes := hs_notes s |})
      end
  end.

(** Every response of an executor has the status 200. *)
Definition response_status (_ : Executors.Response) : Z := 200.

Definition finish (s : ProtocolSuite) (o : FallbackOutcome) : Handler Executors.Response :=
  match o with
  | OutcomeSuccess response _ => _ ← emit_ok (response_status response); mret response
  | OutcomeFailed e class => refuse s class e
  | OutcomeExhausted e => refuse s RUpstreamExhausted e
  end.

Definition forward (s : ProtocolSuite) (a : Attempt) (targets : list RoutingTarget)
    (virtual_model request_id : string) : Handler Executors.Response :=
  _ ← scope_do RequestScope.mark_waiting_upstream;
  _ ← note_ (Calling virtual_model targets);
  o ← await_fallback a targets virtual_model request_id;
  finish s o.

(** *** Calls *)

Definition finished (p : prog (Outcome * option string)) (e : HostEnv)
    : run (result AppError (Executors.Response * option Z) * option string * HostEnv) :=
  '((o, token), e) ← run_prog e p;
  Ok (outcome o, token, record_captures e (captures o)).

(** What a call is given, for the target and a new identifier. *)
Definition call_for (s : ProtocolSuite) (ingress : ProtocolEndpoint) (ir : IrRequest) (is_stream : bool)
    (raw : option string) (trace : TraceContext) (request_id : string) (hs : Headers) (k : ResolvedApiKey)
    (e : HostEnv) (uuid : string) (t : RoutingTarget) : Call :=
  {| tunables := executor_tunables (host_tunables e); codec := s; call_ingress := ingress;
     ir_request := ir; target := t; call_stream := is_stream; raw_passthrough_body := raw;
     traceparent := to_traceparent trace; call_request_id := request_id; client_headers := hs;
     caller_key_id := key_id k; now_v7 := uuid |}.

Definition chat_attempt (v : Variant) (call : HostEnv -> string -> RoutingTarget -> Call) : Attempt :=
  fun e t =>
    let '(uuid, e) := new_uuid e in
    finished (execute v (call e uuid t) oauth_apply registered (http e) (sockets e)) e.

Definition embeddings_attempt (key : EmbeddingCacheKey) (call : HostEnv -> string -> RoutingTarget -> Call)
    : Attempt :=
  fun e t =>
    '((eo, token), e) ← run_prog e (execute_embeddings_upstream oauth_apply registered (http e) (call e "" t));
    let e := record_captures e (captures (eo_outcome eo)) in
    let e := match eo_stored eo, cache_get with
             | Some response, Some _ => cache_put e key response
             | _, _ => e
             end in
    Ok (outcome (eo_outcome eo), token, e).

Definition images_attempt (call : HostEnv -> string -> RoutingTarget -> Call) : Attempt :=
  fun e t => finished (execute_images_generations_upstream oauth_apply registered (http e) (call e "" t)) e.

Definition edits_attempt (virtual_model raw_body content_type : string)
    (call : HostEnv -> string -> RoutingTarget -> Call) : Attempt :=
  fun e t => finished (execute_images_edits_upstream oauth_apply registered (http e) (call e "" t)
                         virtual_model raw_body content_type) e.
(** ** The handlers *)

(** [extract_trace], with random bytes for a span and a trace. *)
Definition trace_of (hs : Headers) : Handler TraceContext :=
  span_bytes ← ask (fun e => random_bytes e 8);
  trace_bytes ← ask (fun e => random_bytes e 16);
  mret (extract_trace hs span_bytes trace_bytes).

(** The start of a handler: its clock, identifier, trace and guard. *)
Definition start (virtual_model : string) (ingress : ProtocolEndpoint) (hs : Headers)
    (envelope : RuntimeTunables -> Z -> RawEnvelope) : Handler (string * TraceContext) :=
  started ← clock;
  request_id ← ask new_uuid;
  trace ← trace_of hs;
  t ← reads host_tunables;
  now ← utc;
  _ ← set_scope (Some (RequestScope.set_envelope (envelope t now)
                         (RequestScope.new request_id virtual_model ingress trace started)));
  mret (request_id, trace).

Definition json_envelope (path : string) (body : Value) (hs : Headers) (t : RuntimeTunables) (now : Z)
    : RawEnvelope :=
  build_redacted_envelope (raw_envelope_capture_media t) redactor "POST" path body hs now.

Definition body_size (body : Value) : Z := Z.of_nat (String.length (to_string body)).

(** What the handlers of Chat Completions, Messages and Responses do
    differently. *)
Record ChatRoute := {
  cr_suite : ProtocolSuite;
  cr_ingress : ProtocolEndpoint;
  cr_variant : Variant;
  cr_path : string;
  cr_limits_body : bool;
  cr_hint : Value -> string;     (* the model in the row until it is decoded *)
}.

Definition chat_route : ChatRoute :=
  {| cr_suite := OpenAiCompatible; cr_ingress := ChatCompletionsCodec_id; cr_variant := chat_variant;
     cr_path := "/v1/chat/completions"; cr_limits_body := true; cr_hint _ := "unknown" |}.
Definition messages_route : ChatRoute :=
  {| cr_suite := AnthropicMessages; cr_ingress := MessagesCodec_id; cr_variant := messages_variant;
     cr_path := "/v1/messages"; cr_limits_body := false; cr_hint _ := "unknown" |}.
Definition responses_route : ChatRoute :=
  {| cr_suite := OpenAiResponses; cr_ingress := ResponsesCodec_id; cr_variant := responses_variant;
     cr_path := "/v1/responses"; cr_limits_body := true;
     cr_hint body := default "unknown" (get "model" body ≫= as_str) |}.

(** From the caller on: the same for all chat endpoints but for the model the
    request is routed by and the body that is decoded. *)
Definition serve_chat (s : ProtocolSuite) (ingress : ProtocolEndpoint) (v : Variant) (hs : Headers)
    (request_id : string) (trace : TraceContext) (body : Value) (to_decode : run Value)
    (routed_by : IrRequest -> string) : Handler Executors.Response :=
  k ← authenticate s hs;
  let original_body := to_string body in
  body ← match to_decode with Ok b => mret b | Err p => panics_with p end;
  ir ← decoded s (decode_request s body);
  let virtual_model := routed_by ir in
  _ ← scope_do (RequestScope.set_virtual_model virtual_model);
  _ ← enforce_api_key_policy k virtual_model s;
  targets ← resolve_route virtual_model s;
  let raw := snd (compute_pass_through same_suite_policy ingress targets original_body) in
  forward s (chat_attempt v (call_for s ingress ir (Ir.stream ir) raw trace request_id hs k))
    targets virtual_model request_id.

Definition limit_body (limited : bool) (s : ProtocolSuite) (hs : Headers) (size : Z) : Handler unit :=
  if limited then enforce_body_limit_or_log s (header_text "content-type" hs) size else mret tt.

Definition handle_chat_like (r : ChatRoute) (hs : Headers) (body : Value) : Handler Executors.Response :=
  '(request_id, trace) ← start (cr_hint r body) (cr_ingress r) hs (json_envelope (cr_path r) body hs);
  _ ← acquire_or_log (cr_suite r);
  _ ← limit_body (cr_limits_body r) (cr_suite r) hs (body_size body);
  serve_chat (cr_suite r) (cr_ingress r) (cr_variant r) hs request_id trace body (Ok body) Ir.model.

Definition handle_chat_completions := handle_chat_like chat_route.
Definition handle_messages := handle_chat_like messages_route.
Definition handle_responses := handle_chat_like responses_route.

Definition bad_capture (capture : string) : AppError :=
  AppError.with_class (AppError.new 400 ("Invalid Gemini path capture: " +:+ debug_str capture)) BadRequest.

(** The model is that of the path; the method asks for a stream through a
    member that is added to the body. *)
Definition handle_gemini_generate (hs : Headers) (capture : string) (body : Value)
    : Handler Executors.Response :=
  let s := GoogleGemini in
  '(request_id, trace) ← start "unknown" GeminiCodec_id hs
                           (json_envelope ("/v1beta/models/" +:+ capture) body hs);
  '(model, method) ← match split_gemini_capture capture with
                     | Some p => mret p
                     | None => refuse s RBadRequest (bad_capture capture)
                     end;
  _ ← scope_do (RequestScope.set_virtual_model model);
  _ ← acquire_or_log s;
  _ ← limit_body true s hs (body_size body);
  let to_decode := if String.eqb method "streamGenerateContent"
                   then index_set "_stream" (Bool true) body else Ok body in
  serve_chat s GeminiCodec_id gemini_variant hs request_id trace body to_decode (fun _ => model).

(** *** Embeddings *)

Definition embedding_key (body : Value) : EmbeddingCacheKey :=
  EmbeddingCacheKey.new (default "default" (get "model" body ≫= as_str))
    (match get "input" body with Some v => to_string v | None => "" end).

Definition cache_lookup (key : EmbeddingCacheKey) : Handler (option Value) :=
  match cache_get with
  | None => mret None
  | Some lookup =>
      _ ← awaits;
      found ← ask (fun e => lookup e key);
      mret (ce_response <$> found)
  end.

(** The row of a cached answer; the guard is disarmed. *)
Definition hit_row (virtual_model : string) (k : ResolvedApiKey) (trace : TraceContext)
    (sc : RequestScope) (c : Clocks) : (RequestEvent * PipelineEvent) * RequestScope :=
  (emit_request_event (rs_request_id sc) virtual_model None None Embeddings.id None Success None None
     (Some 200%Z) false (Some "hit")
     {| total_ms := elapsed_ms (rs_started sc) (c_total c); upstream_ms := 0; queue_ms := 0 |}
     None None (Some (key_id k)) trace (rs_envelope sc) (c_event c) (c_pipeline c),
   RequestScope.disarm sc).

Definition serve_cached (virtual_model : string) (k : ResolvedApiKey) (trace : TraceContext)
    (cached : Value) : Handler Executors.Response :=
  _ ← note_ (Served cached);
  _ ← consume (hit_row virtual_model k trace);
  mret {| resp_headers := json_headers;
          resp_body := JsonBody (ResponseModel.apply_json
            {| rmo_suite := OpenAiCompatible; rmo_model := virtual_model |} cached) |}.

Definition handle_embeddings (hs : Headers) (body : Value) : Handler Executors.Response :=
  let s := OpenAiCompatible in
  '(request_id, trace) ← start "unknown" Embeddings.id hs (json_envelope "/v1/embeddings" body hs);
  _ ← acquire_or_log s;
  k ← authenticate s hs;
  let model_for_cache := default "default" (get "model" body ≫= as_str) in
  let key := embedding_key body in
  _ ← scope_do (RequestScope.set_virtual_model model_for_cache);
  _ ← enforce_api_key_policy k model_for_cache s;
  cached ← cache_lookup key;
  match cached with
  | Some cached => serve_cached model_for_cache k trace cached
  | None =>
      ir ← decoded s (Embeddings.decode_request body);
      let virtual_model := Ir.model ir in
      _ ← scope_do (RequestScope.set_virtual_model virtual_model);
      targets ← resolve_route virtual_model s;
      forward s
        (embeddings_attempt key (call_for s Embeddings.id ir false None trace request_id hs k))
        targets virtual_model request_id
  end.

(** *** Images *)

Definition handle_images_generations (hs : Headers) (body : Value) : Handler Executors.Response :=
  let s := OpenAiCompatible in
  '(request_id, trace) ← start "unknown" Images.generations_id hs
                           (json_envelope "/v1/images/generations" body hs);
  _ ← acquire_or_log s;
  _ ← limit_body true s hs (body_size body);
  k ← authenticate s hs;
  ir ← decoded s (Images.decode_generations body);
  let virtual_model := Ir.model ir in
  _ ← scope_do (RequestScope.set_virtual_model virtual_model);
  _ ← enforce_api_key_policy k virtual_model s;
  targets ← resolve_route virtual_model s;
  let raw := snd (compute_pass_through Images.pass_through_policy Images.generations_id targets
                    (to_string body)) in
  forward s
    (images_attempt (call_for s Images.generations_id ir (Ir.stream ir) raw trace request_id hs k))
    targets virtual_model request_id.

(** The call of the edits executor: it has no request of its own. *)
Definition handle_images_edits (hs : Headers) (body : string) : Handler Executors.Response :=
  let s := OpenAiCompatible in
  let size := Z.of_nat (String.length body) in
  let '(virtual_model, is_stream) := extract_multipart_fields body in
  '(request_id, trace) ← start virtual_model Images.edits_id hs
      (fun _ now => build_redacted_envelope_raw redactor "POST" "/v1/images/edits" size hs now);
  _ ← acquire_or_log s;
  _ ← limit_body true s hs size;
  k ← authenticate s hs;
  _ ← enforce_api_key_policy k virtual_model s;
  targets ← resolve_route virtual_model s;
  let content_type := default "multipart/form-data" (header_text "content-type" hs) in
  let ir := bare_request virtual_model [] is_stream Images.edits_id ∅ in
  forward s
    (edits_attempt virtual_model body content_type
       (call_for s Images.edits_id ir is_stream None trace request_id hs k))
    targets virtual_model request_id.

(** ** The router *)

Inductive Inbound :=
| PostChat (hs : Headers) (body : Value)
| PostMessages (hs : Headers) (body : Value)
| PostResponses (hs : Headers) (body : Value)
| PostGemini (hs : Headers) (capture : string) (body : Value)
| PostEmbeddings (hs : Headers) (body : Value)
| PostImages (hs : Headers) (body : Value)
| PostEdits (hs : Headers) (body : string).

Definition handler_of (i : Inbound) : Handler Executors.Response :=
  match i with
  | PostChat hs body => handle_chat_completions hs body
  | PostMessages hs body => handle_messages hs body
  | PostResponses hs body => handle_responses hs body
  | PostGemini hs capture body => handle_gemini_generate hs capture body
  | PostEmbeddings hs body => handle_embeddings hs body
  | PostImages hs body => handle_images_generations hs body
  | PostEdits hs body => handle_images_edits hs body
  end.
End Handlers.
