(* ===== verification/HandlersProps.v ===== *)
(** * HandlersProps: what a request leaves behind

    For every endpoint and every host: the notes of a finished handler follow
    the order of its gates (permit, caller, quota, model access, route), no
    target is called before all of them are passed, a request has exactly one
    row in the log and the row says what the client was answered, and a permit
    that was taken is given back.

    The proofs go through [post], a postcondition with a rule per step, as the
    program logics of interaction trees have; a handler that returns early or is
    dropped must satisfy [refused] or [dropped] wherever that happens. *)

From stdpp Require Import base option list gmap strings pretty.
From Stdlib Require Import ZArith Lia Ascii.
From S2P Require Import Prelude RustStr Http F64 Json JsonBody Utf8 Telemetry Protocol Classify Health Targets Errors Ir StructuredOutput Strategy Fallback FallbackProps Quota HeaderForward ResponseModel Redaction TraceCtx.
From S2P Require Import ProviderConfig OAuthTokens Providers OAuthEffects ApiKeys EgressBody CodexOAuth AnthropicOAuth Egress Codecs UpstreamRequest Executors ExecutorsBody ExecutorsProps AuxCodecs AuxExecutors Observability Ingress Handlers.

Local Open Scope string_scope.
Local Open Scope list_scope.

(** An embeddings request whose body has no model, or one that is no string. *)
Definition names_no_model (i : Inbound) : Prop :=
  match i with PostEmbeddings _ body => (get "model" body ≫= as_str) = None | _ => False end.

Section Traces.
Context `{SerdeJson} `{Lowercase} `{HttpHeaders} `{OAuthCrates} `{TextCrates} `{CodexCrates}
        `{AnthropicCrates} `{UrlHost} `{Reqwest} `{Tungstenite} `{GenRange} `{Host}.

(** ** Traces *)

Fixpoint caller_of (l : list note) : string :=
  match l with
  | [] => "anonymous"
  | Asked k _ :: _ => key_id k
  | _ :: r => caller_of r
  end.

Variable nameless : Prop.

(** The model that is routed is the one access was checked for; only a
    [nameless] request is checked as "default" and routed as "unknown". *)
Definition routed_as (checked routed : string) : Prop :=
  routed = checked \/ (nameless /\ checked = "default" /\ routed = "unknown").

(** How far a handler came, and the targets it may have called. *)
Inductive admission : list note -> list RoutingTarget -> Prop :=
| adm_nothing : admission [] []
| adm_permit : admission [Took] []
| adm_asked k required : admission [Took; Asked k required] []
| adm_charged k required o :
    enforce_auth required k = Ok tt ->
    admission [Took; Asked k required; Charged (key_id k) (rk_spec k) o] []
| adm_granted k required model :
    enforce_auth required k = Ok tt ->
    admission [Took; Asked k required; Charged (key_id k) (rk_spec k) QuotaAllow;
               Granted model (allows_model k model)] []
| adm_served k required model cached :
    enforce_auth required k = Ok tt -> allows_model k model = true ->
    admission [Took; Asked k required; Charged (key_id k) (rk_spec k) QuotaAllow;
               Granted model true; Served cached] []
| adm_routed k required model table routed :
    enforce_auth required k = Ok tt -> allows_model k model = true -> routed_as model routed ->
    admission [Took; Asked k required; Charged (key_id k) (rk_spec k) QuotaAllow;
               Granted model true; Routed table routed] []
| adm_calling k required model table routed targets :
    enforce_auth required k = Ok tt -> allows_model k model = true -> routed_as model routed ->
    RoutingTable.resolve table routed = Some targets ->
    admission [Took; Asked k required; Charged (key_id k) (rk_spec k) QuotaAllow;
               Granted model true; Routed table routed; Calling routed targets] targets.

Variable w0 : Fallback.World.

(** The log of the fallback loops grew by calls to [targets] only. *)
Definition only_calls (targets : list RoutingTarget) (s : HState) : Prop :=
  exists l, w_log (hs_world s) = w_log w0 ++ l /\ forall t r, Executed t r ∈ l -> t ∈ targets.

(** Between two steps: nothing is written, the guard is armed and knows the caller. *)
Definition at_ (N : list note) (targets : list RoutingTarget) (s : HState) : Prop :=
  hs_notes s = N /\ only_calls targets s
  /\ exists sc, hs_scope s = Some sc /\ armed sc = true /\ rs_caller_key_id sc = caller_of N.

(** After the emission. *)
Definition ended (N : list note) (targets : list RoutingTarget) (row : RequestEvent) (s : HState) : Prop :=
  hs_scope s = None /\ only_calls targets s
  /\ re_api_key_id row = Some (caller_of N)
  /\ exists p, hs_notes s = N ++ [Wrote (row, p)].

Definition success_row (row : RequestEvent) : Prop :=
  re_status row = Success /\ re_http_status row = Some 200%Z.
Definition refusal_row (e : AppError) (row : RequestEvent) : Prop :=
  re_status row <> Success /\ re_http_status row = Some (AppError.http_status e)
  /\ re_error_source row = Some (ae_message e).

Definition served (s : HState) : Prop :=
  exists N targets row, admission N targets /\ ended N targets row s /\ success_row row.
Definition refused (e : AppError) (s : HState) : Prop :=
  exists N targets row, admission N targets /\ ended N targets row s /\ refusal_row e row.
Definition dropped (s : HState) : Prop := exists N targets, admission N targets /\ at_ N targets s.

(** ** Postconditions *)

Definition post {A} (P : HState -> Prop) (h : Handler A) (Q : A -> HState -> Prop) : Prop :=
  forall s, P s -> match h s with
                   | Ok (Goes a, s') => Q a s'
                   | Ok (Returns e, s') => refused e s'
                   | Ok (Dropped, s') => dropped s'
                   | Err _ => True
                   end.

Lemma post_ret {A} (a : A) (P : HState -> Prop) (Q : A -> HState -> Prop) :
  (forall s, P s -> Q a s) -> post P (mret a) Q.
Proof. intros HQ s Hs. by apply HQ. Qed.

Lemma post_bind {A B} (m : Handler A) (f : A -> Handler B) P Q R :
  post P m Q -> (forall a, post (Q a) (f a) R) -> post P (m ≫= f) R.
Proof.
  intros Hm Hf s Hs. specialize (Hm s Hs). unfold mbind, Handler_bind.
  destruct (m s) as [[[a|e|] s']|]; try done. by apply Hf.
Qed.

(** A step in the middle of a sequence leaves what holds there. *)
Lemma post_skip {A B} (m : Handler A) (f : A -> Handler B) P R :
  post P m (fun _ => P) -> (forall a, post P (f a) R) -> post P (m ≫= f) R.
Proof. intros Hm Hf. by eapply post_bind. Qed.

Lemma post_ex {A X} (P : X -> HState -> Prop) (h : Handler A) Q :
  (forall x, post (P x) h Q) -> post (fun s => exists x, P x s) h Q.
Proof. intros Hx s [x Hs]. by apply (Hx x). Qed.

Lemma post_and {A} (p : Prop) (P : HState -> Prop) (h : Handler A) Q :
  (p -> post P h Q) -> post (fun s => p /\ P s) h Q.
Proof. intros Hx s [Hp Hs]. by apply Hx. Qed.

Lemma post_panics {A} (p : panic) P (Q : A -> HState -> Prop) : post P (panics_with p) Q.
Proof. by intros s _. Qed.

(** What a step of the host leaves. *)
Definition stable (P : HState -> Prop) : Prop :=
  forall s s', hs_notes s' = hs_notes s -> hs_scope s' = hs_scope s ->
    w_log (hs_world s') = w_log (hs_world s) -> P s -> P s'.

Lemma stable_at N targets : stable (at_ N targets).
Proof.
  intros s s' En Es El (HN & (l & Hl & Hc) & Hsc). unfold at_, only_calls.
  rewrite En, Es, El. split; [done|]. split; [by exists l|done].
Qed.

Lemma post_ask {A} (f : HostEnv -> A * HostEnv) P : stable P -> post P (ask f) (fun _ => P).
Proof.
  intros HP s Hs. unfold ask. destruct (f (host_env s)) as [a e]. by apply (HP s).
Qed.

Lemma post_reads {A} (f : HostEnv -> A) P : post P (reads f) (fun _ => P).
Proof. by intros s Hs. Qed.

Lemma post_clock P : post P clock (fun _ => P).
Proof. by intros s Hs. Qed.

Lemma post_awaits N targets :
  admission N targets -> post (at_ N targets) awaits (fun _ => at_ N targets).
Proof.
  intros Ha s Hs. unfold awaits, Fallback.interleave.
  destruct (env_step _ _ _) as [[e h] n]. cbn.
  destruct (cancelled _); [exists N, targets; split; [done|]|];
    by apply (stable_at N targets s).
Qed.

(** Changes of the guard that keep what the row is attributed to. *)
Definition attributes (f : RequestScope -> RequestScope) : Prop :=
  forall sc, armed (f sc) = armed sc /\ rs_caller_key_id (f sc) = rs_caller_key_id sc.

Lemma post_scope f N targets : attributes f -> post (at_ N targets) (scope_do f) (fun _ => at_ N targets).
Proof.
  intros Hf s (HN & Hc & sc & Esc & Har & Hk). unfold scope_do. cbn. split; [done|]. split; [done|].
  exists (f sc). rewrite Esc. destruct (Hf sc) as [-> ->]. done.
Qed.

Lemma caller_snoc N n : (forall k b, n <> Asked k b) -> caller_of (N ++ [n]) = caller_of N.
Proof.
  intros Hn. induction N as [|x N IH]; [|by destruct x]. destruct n; try done. by destruct (Hn k required).
Qed.

Lemma post_note n N targets :
  (forall k b, n <> Asked k b) -> post (at_ N targets) (note_ n) (fun _ => at_ (N ++ [n]) targets).
Proof.
  intros Hn s (HN & Hc & sc & Esc & Har & Hk). unfold note_. cbn. split; [by rewrite HN|].
  split; [done|]. exists sc. by rewrite caller_snoc.
Qed.

(** ** The emissions *)

(** A state in which the row of the guard was written. *)
Lemma ended_row N targets s row p :
  hs_notes s = N -> only_calls targets s -> re_api_key_id row = Some (caller_of N) ->
  ended N targets row {| hs_world := hs_world s; hs_scope := None; hs_notes := hs_notes s ++ [Wrote (row, p)] |}.
Proof. intros HN Hc Hr. split; [done|]. split; [done|]. split; [done|]. exists p. cbn. by rewrite HN. Qed.

Lemma post_emit_error N targets class e :
  post (at_ N targets) (emit_error class e)
    (fun _ s => exists row, ended N targets row s /\ refusal_row e row).
Proof.
  intros s (HN & Hc & sc & Esc & Har & Hk). unfold emit_error, consume. rewrite Esc.
  eexists. split; [eapply (ended_row N targets s); [done..|cbn; by rewrite Hk]|].
  split; [|done]. cbn. by destruct class.
Qed.

Lemma post_emit_ok N targets :
  admission N targets -> post (at_ N targets) (emit_ok 200) (fun _ => served).
Proof.
  intros Ha s (HN & Hc & sc & Esc & Har & Hk). unfold emit_ok, consume. rewrite Esc.
  exists N, targets. eexists. split; [done|]. split; [eapply (ended_row N targets s); [done..|cbn; by rewrite Hk]|done].
Qed.

Lemma post_refuse {A} s class e N targets (Q : A -> HState -> Prop) :
  admission N targets -> post (at_ N targets) (refuse s class e) Q.
Proof.
  intros Ha. eapply post_bind; [apply post_emit_error|]. intros _ st (row & He & Hr).
  exists N, targets, row. split; [done|]. by split.
Qed.

(** ** The gates *)

Lemma post_permit : post (at_ [] []) acquire_permit
  (fun r => match r with Ok _ => at_ [Took] [] | Err _ => at_ [] [] end).
Proof.
  unfold acquire_permit.
  apply post_skip; [apply post_reads|intros t]. apply post_skip; [apply post_reads|intros a].
  destruct (_ <? _)%Z; [by apply post_ret|].
  apply post_skip; [apply post_awaits; constructor|cbv beta; intros _].
  apply post_skip; [apply post_ask, stable_at|intros []]; [|by apply post_ret..].
  eapply post_bind; [by apply post_note|cbv beta; intros _]. by apply post_ret.
Qed.

Lemma post_acquire s : post (at_ [] []) (acquire_or_log s) (fun _ => at_ [Took] []).
Proof.
  eapply post_bind; [apply post_permit|]. intros [[]|e]; [by apply post_ret|].
  apply post_refuse. constructor.
Qed.

Lemma post_limit s ct size N targets :
  admission N targets ->
  post (at_ N targets) (enforce_body_limit_or_log s ct size) (fun _ => at_ N targets).
Proof.
  intros Ha. apply post_skip; [apply post_reads|intros t].
  destruct (enforce_body_limit _ _ _ _); [by apply post_ret|by apply post_refuse].
Qed.

Lemma post_limit_body b s hs size N targets :
  admission N targets -> post (at_ N targets) (limit_body b s hs size) (fun _ => at_ N targets).
Proof. intros Ha. destruct b; [by apply post_limit|by apply post_ret]. Qed.

Lemma post_caller hs N targets :
  admission N targets -> post (at_ N targets) (resolve_caller hs) (fun _ => at_ N targets).
Proof.
  intros Ha. unfold resolve_caller. destruct (extract_credential hs); [|by apply post_ret].
  apply post_skip; [by apply post_awaits|cbv beta; intros _].
  apply post_skip; [apply post_ask, stable_at|intros r]. by apply post_ret.
Qed.

(** The caller, with the trace up to here. *)
Definition asked (k : ResolvedApiKey) (s : HState) : Prop :=
  exists required, enforce_auth required k = Ok tt /\ at_ [Took; Asked k required] [] s.

Lemma post_authenticate s hs : post (at_ [Took] []) (authenticate s hs) asked.
Proof.
  unfold authenticate. apply post_skip; [apply post_caller; constructor|intros k].
  intros st (HN & Hc & sc & Esc & Har & Hk).
  unfold mbind, Handler_bind, scope_do, reads, note_. cbn.
  set (req := require_api_key _).
  assert (at_ [Took; Asked k req] []
    {| hs_world := hs_world st; hs_scope := RequestScope.set_caller_key_id (key_id k) <$> hs_scope st;
       hs_notes := hs_notes st ++ [Asked k req] |}) as Hat.
  { split; [cbn; by rewrite HN|]. split; [done|]. eexists. by rewrite Esc. }
  destruct (enforce_auth req k) as [[]|[e class]] eqn:Ea; [by exists req|].
  exact (post_refuse s class e _ _ (fun k => asked k) (adm_asked k req) _ Hat).
Qed.

Lemma post_decoded s r N targets :
  admission N targets -> post (at_ N targets) (decoded s r)
    (fun ir st => r = Ok ir /\ at_ N targets st).
Proof. intros Ha. destruct r; [by apply post_ret|by apply post_refuse]. Qed.

Section PolicyPassed.
Variables (k : ResolvedApiKey) (required : bool) (model : string).
Hypothesis Hauth : enforce_auth required k = Ok tt.

Definition charged_trace (o : QuotaOutcome) : list note :=
  [Took; Asked k required; Charged (key_id k) (rk_spec k) o].
Definition granted_trace : list note := charged_trace QuotaAllow ++ [Granted model true].

Lemma post_charge :
  post (at_ [Took; Asked k required] []) (charge k) (fun _ => at_ [Took; Asked k required] []).
Proof.
  unfold charge. destruct check_and_consume as [c|]; [|by apply post_ret].
  apply post_skip; [apply post_awaits; constructor|cbv beta; intros _].
  apply post_skip; [apply post_ask, stable_at|intros r]. by apply post_ret.
Qed.

Lemma post_access s :
  post (at_ (charged_trace QuotaAllow) []) (enforce_model_access_or_log k model s)
    (fun _ st => allows_model k model = true /\ at_ granted_trace [] st).
Proof.
  unfold enforce_model_access_or_log, enforce_model_access.
  pose proof (adm_granted k required model Hauth) as Hg.
  destruct (allows_model k model); (eapply post_bind; [by apply post_note|cbv beta; intros _]).
  - by apply post_ret.
  - by apply post_refuse.
Qed.

Lemma post_policy s :
  post (at_ [Took; Asked k required] []) (enforce_api_key_policy k model s)
    (fun _ st => allows_model k model = true /\ at_ granted_trace [] st).
Proof.
  unfold enforce_api_key_policy. apply post_skip; [apply post_charge|intros o].
  eapply post_bind; [by apply post_note|cbv beta; intros _].
  destruct o; [apply post_access|]. apply post_refuse. by apply adm_charged.
Qed.

Hypothesis Hmodel : allows_model k model = true.
Variable routed : string.
Hypothesis Hrouted : routed_as model routed.

Lemma granted_admitted : admission granted_trace [].
Proof. unfold granted_trace. cbn. rewrite <- Hmodel. by apply adm_granted. Qed.

Lemma post_route s :
  post (at_ granted_trace []) (resolve_route routed s)
    (fun targets st => exists table, RoutingTable.resolve table routed = Some targets
       /\ at_ (granted_trace ++ [Routed table routed]) [] st).
Proof.
  unfold resolve_route. apply post_skip; [apply post_reads|intros table].
  eapply post_bind; [by apply post_note|cbv beta; intros _].
  destruct (RoutingTable.resolve table routed) as [targets|] eqn:E.
  - apply post_ret. eauto.
  - apply post_refuse. by apply adm_routed.
Qed.

Variables (table : RoutingTable) (targets : list RoutingTarget).
Hypothesis Htargets : RoutingTable.resolve table routed = Some targets.

Definition calling_trace : list note :=
  granted_trace ++ [Routed table routed; Calling routed targets].

Lemma calling_admitted : admission calling_trace targets.
Proof. by apply adm_calling. Qed.

Lemma attributes_action a : attributes (fun sc => scope_action sc a).
Proof. by intros sc; destruct a. Qed.

Lemma scope_actions l sc :
  armed (fold_left scope_action l sc) = armed sc
  /\ rs_caller_key_id (fold_left scope_action l sc) = rs_caller_key_id sc.
Proof.
  revert sc. induction l as [|a l IH]; intros sc; [done|]. cbn.
  destruct (IH (scope_action sc a)) as [-> ->]. apply attributes_action.
Qed.

(** The fallback loop: its calls go to the targets it was given. *)
Lemma post_fallback a id :
  post (at_ calling_trace []) (await_fallback a targets routed id)
    (fun _ => at_ calling_trace targets).
Proof.
  intros s (HN & (l0 & Hl0 & Hc0) & sc & Esc & Har & Hk). unfold await_fallback.
  destruct (execute_with_fallback _ _ _ _ _ _) as [[o w']|p] eqn:E; [|done].
  apply executed_targets in E as (l & Hl & Hc). cbn in Hl. rewrite Hl, drop_app_length.
  assert (forall l' w, w_log w = w_log (hs_world s) ++ l' -> (forall t r, Executed t r ∈ l' -> t ∈ targets) ->
    at_ calling_trace targets
      {| hs_world := w; hs_scope := (fun sc => fold_left scope_action l' sc) <$> hs_scope s;
         hs_notes := hs_notes s |}) as Hat.
  { intros l' w Ew Hw. split; [done|]. split.
    - exists (l0 ++ l'). cbn. rewrite Ew, Hl0, <- app_assoc. split; [done|].
      intros t r [Hin|Hin]%elem_of_app; [|by eapply Hw].
      apply Hc0 in Hin. by apply elem_of_nil in Hin.
    - rewrite Esc. eexists. split; [done|]. by destruct (scope_actions l' sc) as [-> ->]. }
  destruct (cancelled_in_loop _) as [n|].
  - exists calling_trace, targets. split; [apply calling_admitted|].
    apply Hat; [done|]. intros t r Hin. eapply Hc, subseteq_take, Hin.
  - by apply Hat.
Qed.

Lemma post_forward s a id :
  post (at_ (granted_trace ++ [Routed table routed]) []) (forward s a targets routed id)
    (fun _ => served).
Proof.
  unfold forward. apply post_skip; [by apply post_scope|cbv beta; intros _].
  eapply post_bind; [by apply post_note|cbv beta; intros _]. rewrite <- app_assoc. cbn [app].
  eapply post_bind; [apply post_fallback|intros o]. pose proof calling_admitted as Hadm.
  destruct o; cbn [finish]; [|by apply post_refuse..].
  eapply post_bind; [by apply post_emit_ok|cbv beta; intros _]. by apply post_ret.
Qed.
End PolicyPassed.

(** From a permit on: the caller, then what is done for it. *)
Lemma post_authenticated s hs (f : ResolvedApiKey -> Handler Executors.Response) :
  (forall k required, enforce_auth required k = Ok tt ->
     post (at_ [Took; Asked k required] []) (f k) (fun _ => served)) ->
  post (at_ [Took] []) (authenticate s hs ≫= f) (fun _ => served).
Proof.
  intros Hf. eapply post_bind; [apply post_authenticate|intros k].
  apply post_ex. intros required. by apply post_and, Hf.
Qed.

(** From an authenticated caller on: policy, route and loop. *)
Lemma post_admitted s k required model (f : list RoutingTarget -> Handler Executors.Response) :
  enforce_auth required k = Ok tt ->
  (forall table targets, allows_model k model = true -> RoutingTable.resolve table model = Some targets ->
     post (at_ (granted_trace k required model ++ [Routed table model]) []) (f targets)
       (fun _ => served)) ->
  post (at_ [Took; Asked k required] [])
    (_ ← enforce_api_key_policy k model s; targets ← resolve_route model s; f targets)
    (fun _ => served).
Proof.
  intros Ha Hf. eapply post_bind; [by apply post_policy|cbv beta; intros _]. apply post_and. intros Hm.
  eapply post_bind; [apply post_route; [done..|by left]|intros targets].
  apply post_ex. intros table. apply post_and. intros Ht. by apply Hf.
Qed.

Lemma post_model m k required :
  post (at_ [Took; Asked k required] []) (scope_do (RequestScope.set_virtual_model m))
    (fun _ => at_ [Took; Asked k required] []).
Proof. by apply post_scope. Qed.

Lemma post_serve_chat s ingress v hs id trace body to_decode routed_by :
  post (at_ [Took] []) (serve_chat s ingress v hs id trace body to_decode routed_by) (fun _ => served).
Proof.
  apply post_authenticated. intros k required Ha.
  eapply (post_bind _ _ _ (fun _ => at_ [Took; Asked k required] [])).
  { destruct to_decode; [by apply post_ret|apply post_panics]. }
  intros b. eapply post_bind; [apply post_decoded; constructor|intros ir]. apply post_and. intros _.
  apply post_skip; [apply post_model|cbv beta; intros _].
  apply post_admitted; [done|]. intros table targets Hm Ht.
  eapply post_forward; [done..|by left|done].
Qed.

(** *** The start *)

Definition fresh (s : HState) : Prop := hs_notes s = [] /\ hs_scope s = None /\ only_calls [] s.

Lemma stable_fresh : stable fresh.
Proof. intros s s' En Es El (HN & Hs & Hc). unfold fresh, only_calls. by rewrite En, Es, El. Qed.

Lemma post_start model ingress hs envelope :
  post fresh (start model ingress hs envelope) (fun _ => at_ [] []).
Proof.
  unfold start. apply post_skip; [apply post_clock|intros started].
  apply post_skip; [apply post_ask, stable_fresh|intros id].
  apply post_skip.
  { unfold trace_of. do 2 (apply post_skip; [apply post_ask, stable_fresh|intros ?]). by apply post_ret. }
  intros trace. do 2 (apply post_skip; [apply post_reads|intros ?]).
  intros s (HN & Hs & Hc). unfold mbind, Handler_bind, set_scope. cbn.
  split; [done|]. split; [done|]. eexists. split; [done|]. done.
Qed.

Lemma post_started model ingress hs envelope (f : string * TraceContext -> Handler Executors.Response) :
  (forall p, post (at_ [] []) (f p) (fun _ => served)) ->
  post fresh (start model ingress hs envelope ≫= f) (fun _ => served).
Proof. intros Hf. by eapply post_bind; [apply post_start|]. Qed.

Lemma post_permitted s (f : unit -> Handler Executors.Response) :
  post (at_ [Took] []) (f tt) (fun _ => served) ->
  post (at_ [] []) (acquire_or_log s ≫= f) (fun _ => served).
Proof. intros Hf. by eapply post_bind; [apply post_acquire|intros []]. Qed.

(** *** The handlers *)

Lemma post_chat r hs body : post fresh (handle_chat_like r hs body) (fun _ => served).
Proof.
  apply post_started. intros [id trace]. apply post_permitted.
  apply post_skip; [apply post_limit_body; constructor|cbv beta; intros _]. apply post_serve_chat.
Qed.

Lemma post_gemini hs capture body : post fresh (handle_gemini_generate hs capture body) (fun _ => served).
Proof.
  apply post_started. intros [id trace].
  eapply (post_bind _ _ _ (fun _ => at_ [] [])).
  { destruct (split_gemini_capture capture); [by apply post_ret|]. apply post_refuse. constructor. }
  intros [model method]. apply post_skip; [by apply post_scope|cbv beta; intros _]. apply post_permitted.
  apply post_skip; [apply post_limit_body; constructor|cbv beta; intros _]. apply post_serve_chat.
Qed.

Lemma post_images hs body : post fresh (handle_images_generations hs body) (fun _ => served).
Proof.
  apply post_started. intros [id trace]. apply post_permitted.
  apply post_skip; [apply post_limit_body; constructor|cbv beta; intros _].
  apply post_authenticated. intros k required Ha.
  eapply post_bind; [apply post_decoded; constructor|intros ir]. apply post_and. intros _.
  apply post_skip; [apply post_model|cbv beta; intros _].
  apply post_admitted; [done|]. intros table targets Hm Ht.
  eapply post_forward; [done..|by left|done].
Qed.

Lemma post_edits hs body : post fresh (handle_images_edits hs body) (fun _ => served).
Proof.
  unfold handle_images_edits. destruct (extract_multipart_fields body) as [model is_stream].
  apply post_started. intros [id trace]. apply post_permitted.
  apply post_skip; [apply post_limit_body; constructor|cbv beta; intros _].
  apply post_authenticated. intros k required Ha.
  apply post_admitted; [done|]. intros table targets Hm Ht.
  eapply post_forward; [done..|by left|done].
Qed.

Lemma embeddings_routed_as body ir :
  ((get "model" body ≫= as_str) = None -> nameless) -> Embeddings.decode_request body = Ok ir ->
  routed_as (default "default" (get "model" body ≫= as_str)) (Ir.model ir).
Proof.
  intros Hn [= <-]. cbn. unfold str_or, routed_as, index.
  destruct (get "model" body) as [v|]; [|right; auto].
  cbn in *. destruct (as_str v); [by left|right; auto].
Qed.

Lemma post_cached model k required trace cached :
  enforce_auth required k = Ok tt -> allows_model k model = true ->
  post (at_ (granted_trace k required model) []) (serve_cached model k trace cached) (fun _ => served).
Proof.
  intros Ha Hm. unfold serve_cached. eapply post_bind; [by apply post_note|cbv beta; intros _].
  intros s (HN & Hc & sc & Esc & Har & Hk). unfold mbind, Handler_bind, consume. rewrite Esc.
  exists (granted_trace k required model ++ [Served cached]), []. eexists.
  split; [by apply adm_served|]. split; [by eapply (ended_row _ _ s)|done].
Qed.

Lemma post_lookup key N targets :
  admission N targets -> post (at_ N targets) (cache_lookup key) (fun _ => at_ N targets).
Proof.
  intros Ha. unfold cache_lookup. destruct cache_get as [c|]; [|by apply post_ret].
  apply post_skip; [by apply post_awaits|cbv beta; intros _].
  apply post_skip; [apply post_ask, stable_at|intros r]. by apply post_ret.
Qed.

Lemma post_embeddings hs body :
  ((get "model" body ≫= as_str) = None -> nameless) -> post fresh (handle_embeddings hs body) (fun _ => served).
Proof.
  intros Hn. apply post_started. intros [id trace]. apply post_permitted.
  apply post_authenticated. intros k required Ha.
  apply post_skip; [apply post_model|cbv beta; intros _].
  eapply post_bind; [by apply post_policy|cbv beta; intros _]. apply post_and. intros Hm.
  pose proof (granted_admitted k required _ Ha Hm) as Hg.
  apply post_skip; [by apply post_lookup|intros [cached|]]; [by apply post_cached|].
  eapply post_bind; [by apply post_decoded|intros ir]. apply post_and. intros E%(embeddings_routed_as _ _ Hn).
  apply post_skip; [by apply post_scope|cbv beta; intros _].
  eapply post_bind; [by apply post_route|intros targets]. apply post_ex. intros table.
  apply post_and. intros Ht. by eapply post_forward.
Qed.

Lemma post_handler i : (names_no_model i -> nameless) -> post fresh (handler_of i) (fun _ => served).
Proof.
  intros Hn. destruct i; [apply post_chat..|apply post_gemini|by apply post_embeddings|apply post_images|apply post_edits].
Qed.
End Traces.

Section Ends.
Context `{SerdeJson} `{Lowercase} `{HttpHeaders} `{OAuthCrates} `{TextCrates} `{CodexCrates}
        `{AnthropicCrates} `{UrlHost} `{Reqwest} `{Tungstenite} `{GenRange} `{Host}.

(** ** The end of a handler *)

Definition row_of (n : note) : option (RequestEvent * PipelineEvent) :=
  match n with Wrote r => Some r | _ => None end.
Definition rows (l : list note) : list (RequestEvent * PipelineEvent) := omap row_of l.

Definition gave_back (n : note) : bool := match n with GaveBack => true | _ => false end.

(** What the client got, or that there is no client any more. *)
Definition row_matches (r : option (result AppError Executors.Response)) (row : RequestEvent) : Prop :=
  match r with
  | Some (Ok _) => success_row row
  | Some (Err e) => refusal_row e row
  | None => re_status row <> Success
            /\ (re_http_status row = Some 499%Z \/ re_http_status row = Some 500%Z)
  end.

Definition returned_permit (N : list note) : list note := match permits N with O => [] | S _ => [GaveBack] end.

Lemma permits_app l1 l2 : permits (l1 ++ l2) = permits l1 + permits l2.
Proof. induction l1 as [|[] l IH]; cbn; lia. Qed.

Lemma drop_permit_spec s N p :
  hs_notes s = N ++ [Wrote p] ->
  hs_notes (drop_permit s) = N ++ Wrote p :: returned_permit N
  /\ w_log (hs_world (drop_permit s)) = w_log (hs_world s).
Proof.
  intros E. unfold drop_permit, returned_permit. rewrite E, permits_app. cbn [permits].
  rewrite Nat.add_0_r. destruct (permits N); cbn; [done|]. by rewrite ?E, <- app_assoc.
Qed.

Lemma drop_guard_spec w N targets s :
  at_ w N targets s ->
  exists row, ended w N targets row (drop_guard s) /\ row_matches None row.
Proof.
  intros (HN & Hc & sc & Esc & Har & Hk). unfold drop_guard. rewrite Esc. unfold RequestScope.drop.
  rewrite Har. cbn [negb]. eexists. split.
  - eapply (ended_row w N targets s); [done..|]. cbn. by rewrite Hk.
  - cbn. destruct (waiting_upstream sc); auto.
Qed.

Lemma handler_ends i (w : Fallback.World) r s :
  run_handler (handler_of i) w = Ok (r, s) ->
  exists N targets row p, admission (names_no_model i) N targets /\ only_calls w targets s
    /\ hs_notes s = N ++ Wrote (row, p) :: returned_permit N
    /\ re_api_key_id row = Some (caller_of N) /\ row_matches r row.
Proof.
  unfold run_handler. set (s0 := {| hs_world := w; hs_scope := None; hs_notes := [] |}). intros E.
  assert (fresh w s0) as Hf.
  { split; [done|]. split; [done|]. exists []. split; [by rewrite app_nil_r|].
    intros t x Hin. by apply elem_of_nil in Hin. }
  pose proof (post_handler (names_no_model i) w i (fun Hn => Hn) s0 Hf) as Hp.
  destruct (handler_of i s0) as [[x s1]|]; [|done]. injection E as <- <-.
  assert (exists N targets row, admission (names_no_model i) N targets /\ ended w N targets row (drop_guard s1)
    /\ row_matches match x with Goes a => Some (Ok a) | Returns e => Some (Err e) | Dropped => None end row)
    as (N & targets & row & Ha & (_ & Hc & Hk & p & Hn) & Hm).
  { destruct x as [a|e|].
    - destruct Hp as (N & targets & row & Ha & Hd & Hr). exists N, targets, row.
      unfold drop_guard. by rewrite (proj1 Hd).
    - destruct Hp as (N & targets & row & Ha & Hd & Hr). exists N, targets, row.
      unfold drop_guard. by rewrite (proj1 Hd).
    - destruct Hp as (N & targets & Ha & Hat).
      destruct (drop_guard_spec _ _ _ _ Hat) as (row & Hd & Hr). by exists N, targets, row. }
  destruct (drop_permit_spec _ _ _ Hn) as [En El].
  exists N, targets, row, p. split; [done|]. split; [|done].
  destruct Hc as (l & Hl & Hc). exists l. by rewrite El.
Qed.

Lemma admission_quiet nameless N targets : admission nameless N targets ->
  rows N = [] /\ existsb gave_back N = false /\ (permits N <= 1)%nat.
Proof. destruct 1; cbn; auto with lia. Qed.

Lemma caller_before N r N' : rows N = [] -> caller_of (N ++ Wrote r :: returned_permit N') = caller_of N.
Proof.
  induction N as [|[] N IH]; cbn; try done; auto. intros _. unfold returned_permit.
  by destruct (permits N').
Qed.

(** ** Properties *)

(** C4: One row per request, and a true one.  However a request to one of the
    seven endpoints ends - answered, refused at any gate, failed upstream, or
    dropped because the client went away - exactly one row is written for it.
    The row is attributed to the caller that was resolved.  An answer has a row
    with the status success and 200; an error has a failed row with the HTTP
    status and the message of the error the client is sent; a dropped handler
    has a failed row with 499 or 500. *)
Theorem one_row_per_request i (w : Fallback.World) r s :
  run_handler (handler_of i) w = Ok (r, s) ->
  exists row p, rows (hs_notes s) = [(row, p)]
    /\ re_api_key_id row = Some (caller_of (hs_notes s)) /\ row_matches r row.
Proof.
  intros (N & targets & row & p & Ha & _ & -> & Hk & Hm)%handler_ends.
  apply admission_quiet in Ha as [Hr _]. exists row, p. rewrite caller_before by done.
  split; [|done]. unfold rows in *. rewrite omap_app, Hr. unfold returned_permit. cbn.
  by destruct (permits N).
Qed.

(** C3: No target is called before a request is admitted.  When the handler of
    an endpoint called a target, it had, in this order, taken a permit, resolved
    the caller and found it acceptable, charged its quota and been allowed,
    found the model among those of the key, and looked that model up in the
    routing table; the target is one of those the table gave for it.  A handler
    that failed any of these gates called nothing.  One kind of request is
    different, and it is stated as such: an embeddings request that names no
    model is checked against the key as "default" but looked up as "unknown". *)
Theorem only_admitted_requests_call_upstream i (w : Fallback.World) r s :
  run_handler (handler_of i) w = Ok (r, s) ->
  exists l, w_log (hs_world s) = w_log w ++ l /\ forall t x, Executed t x ∈ l ->
    exists k required model table routed targets,
      [Took; Asked k required; Charged (key_id k) (rk_spec k) QuotaAllow; Granted model true;
       Routed table routed; Calling routed targets] `prefix_of` hs_notes s
      /\ enforce_auth required k = Ok tt /\ allows_model k model = true
      /\ routed_as (names_no_model i) model routed
      /\ RoutingTable.resolve table routed = Some targets /\ t ∈ targets.
Proof.
  intros (N & targets & row & p & Ha & (l & Hl & Hc) & -> & _)%handler_ends.
  exists l. split; [done|]. intros t x Hin%Hc.
  destruct Ha as [| | | | | | |k required model table routed targets]; try by apply elem_of_nil in Hin.
  exists k, required, model, table, routed, targets. split; [by apply prefix_app_r|done].
Qed.

(** Permits are conserved.  A handler takes at most one permit, and one
    that took a permit gives it back as its last act, after the row is written;
    one that took none gives none back. *)
Theorem permits_are_conserved i (w : Fallback.World) r s :
  run_handler (handler_of i) w = Ok (r, s) ->
  (permits (hs_notes s) <= 1)%nat
  /\ length (filter (fun n => Is_true (gave_back n)) (hs_notes s)) = permits (hs_notes s)
  /\ (permits (hs_notes s) = 1%nat -> last (hs_notes s) = Some GaveBack).
Proof.
  intros (N & targets & row & p & Ha & _ & -> & _)%handler_ends. unfold returned_permit.
  destruct Ha; vm_compute; repeat split; auto; lia.
Qed.

(** A request is refused as queued out by the permits in use, also when a
    permit is free: [waiting] counts the requests in flight. *)
Lemma queue_counts_inflight s :
  (max_queue_depth (host_tunables (host_env s))
   < sat_sub (max_inflight (host_tunables (host_env s))) (available_permits (host_env s)))%Z ->
  acquire_permit s = Ok (Goes (Err (overloaded "gateway overloaded, queue full")), s).
Proof.
  intros Hq%Z.ltb_lt. unfold acquire_permit, mbind, Handler_bind, reads. cbn. by rewrite Hq.
Qed.
End Ends.

(** ** A sample *)

Module Sample.
Import Network ExecutorsProps.Sample.

Definition client_key : ApiKey :=
  {| ak_id := "key-1"; ak_name := "ci"; key_hash := ""; quota_json := Null;
     allowed_models := Some ["claude"]; ak_status := Active; ak_created_at := 0; ak_updated_at := 0 |}.

Definition sample_tunables : RuntimeTunables :=
  {| routing_strategy := Priority; raw_envelope_capture_media := false; require_api_key := true;
     executor_tunables := plain_tunables; max_request_body_bytes := 100000; max_inflight := 4;
     max_queue_depth := 4; acquire_timeout_ns := 0 |}.

(** A host alone with one request: its state is the number of free permits; one
    key is known, and one target answers.  No call of it has effects. *)
#[export] Instance sample_host : Host := {|
  HostEnv := Z;
  host_step e h now := (e, h, now);
  host_time _ _ now := Z.le_refl now;
  host_utc _ := 0%Z;
  host_random _ := f64_zero;
  cancelled _ := false;
  cancelled_in_loop _ := None;
  answer _ _ := Err MissingKey;
  http _ := claude_network;
  sockets _ := no_socket;
  record_captures e _ := e;
  oauth_apply := not_oauth;
  oauth_refresh _ _ := Ret (Ok false);
  registered := plain_providers;
  Ingress.routing_table _ := RoutingTable.insert RoutingTable.new "claude" [anthropic_target];
  host_tunables _ := sample_tunables;
  max_multimodal_body_bytes := 100000%Z;
  redactor := Redactor.with_defaults;
  available_permits e := e;
  acquire_owned e _ := (Permit, e - 1)%Z;
  release_permit e := (e + 1)%Z;
  find_api_key e secret := (Ok (if String.eqb secret "tg-1" then Some client_key else None), e);
  check_and_consume := Some (fun e _ _ _ => (Ok (Allow None), e));
  cache_get := None;
  cache_put e _ _ := e;
  new_uuid e := ("id", e);
  random_bytes e n := (repeat 1%Z n, e) |}.

Definition sample_headers : Headers := [("authorization", "Bearer tg-1")].
Definition sample_body : Value :=
  obj [("model", Str "claude");
       ("messages", Arr [obj [("role", Str "user"); ("content", Str "hi")]])].
Definition sample_request : Inbound := PostChat sample_headers sample_body.

#[export] Existing Instance low_rng.

Definition sample_world : Fallback.World :=
  {| w_env := (4%Z, no_attempt); w_now := 0%Z; w_health := sample_registry; w_rng := tt; w_log := [] |}.

Definition sample_run := run_handler (handler_of sample_request) sample_world.
Definition sample_end : option (result AppError Executors.Response) * HState :=
  match sample_run with
  | Ok x => x
  | Err _ => (None, {| hs_world := sample_world; hs_scope := None; hs_notes := [] |})
  end.

Definition is_ok {A E} (m : result E A) : bool := match m with Ok _ => true | Err _ => false end.

Lemma ok_value {A E} (m : result E A) d :
  is_ok m = true -> m = Ok (match m with Ok x => x | Err _ => d end).
Proof. by destruct m. Qed.

Lemma sample_ends :
  run_handler (handler_of sample_request) sample_world = Ok (fst sample_end, snd sample_end).
Proof.
  rewrite <- surjective_pairing. unfold sample_end, sample_run. apply ok_value. vm_compute. reflexivity.
Qed.

Definition executed (l : list action) : list string :=
  omap (fun a => match a with Executed t _ => Some (RoutingTarget.health_key t) | _ => None end) l.

Example sample_calls :
  executed (w_log (hs_world (snd sample_end))) = [RoutingTarget.health_key anthropic_target]
  /\ match fst sample_end with Some (Ok _) => true | _ => false end = true
  /\ fst (w_env (hs_world (snd sample_end))) = 4%Z.
Proof. vm_compute. auto. Qed.

Example sample_permit : permits (hs_notes (snd sample_end)) = 1%nat.
Proof. vm_compute. reflexivity. Qed.

Example sample_caller : caller_of (hs_notes (snd sample_end)) = "key-1".
Proof. vm_compute. reflexivity. Qed.

Definition answered (r : option (result AppError Executors.Response)) : bool :=
  match r with Some (Ok _) => true | _ => false end.

Example sample_answered : answered (fst sample_end) = true.
Proof. vm_compute. reflexivity. Qed.

Lemma answered_row r row : answered r = true -> row_matches r row -> re_status row = Success.
Proof. destruct r as [[x|e]|]; [by intros _ [Hs _]|done..]. Qed.
End Sample.

Import Network ExecutorsProps.Sample Sample.

Lemma one_row_per_request_witness :
  exists row p, rows (hs_notes (snd sample_end)) = [(row, p)]
    /\ re_api_key_id row = Some "key-1" /\ re_status row = Success.
Proof.
  destruct (one_row_per_request sample_request sample_world _ _ sample_ends) as (row & p & Hr & Hk & Hm).
  exists row, p. split; [exact Hr|]. split; [rewrite Hk; exact (f_equal Some sample_caller)|].
  exact (answered_row _ _ sample_answered Hm).
Defined.

Lemma only_admitted_requests_call_upstream_witness :
  executed (w_log (hs_world (snd sample_end))) = [RoutingTarget.health_key anthropic_target]
  /\ exists l, w_log (hs_world (snd sample_end)) = [] ++ l /\ forall t x, Executed t x ∈ l ->
       exists k required model, enforce_auth required k = Ok tt /\ allows_model k model = true.
Proof.
  split; [exact (proj1 sample_calls)|].
  destruct (only_admitted_requests_call_upstream sample_request sample_world _ _ sample_ends) as (l & Hl & Hc).
  exists l. split; [exact Hl|]. intros t x Hin.
  destruct (Hc t x Hin) as (k & required & model & table & routed & targets & _ & Ha & Hm & _).
  exists k, required, model. split; [exact Ha|exact Hm].
Defined.

Lemma permits_are_conserved_witness :
  permits (hs_notes (snd sample_end)) = 1%nat /\ last (hs_notes (snd sample_end)) = Some GaveBack.
Proof.
  destruct (permits_are_conserved sample_request sample_world _ _ sample_ends) as (_ & _ & Hl).
  split; [exact sample_permit|exact (Hl sample_permit)].
Defined.
